(* ===== verification/_CoqProject ===== *)
-Q . S2P
Prelude.v
Regex.v
Text.v
Grammar.v
Preimage.v
Permissions.v
KubeNames.v
NetIP.v
Inspection.v
Paths.v
Frame.v
Inventory.v
Clamp.v
Json.v
Reference.v
Spec.v
Store.v
TenantAccess.v
Commands.v
Direct.v
Applications.v
Registries.v
Preflight.v
Adoption.v
Schedule.v
Policies.v
Scheduler.v
Judge.v
Validations.v
Lifecycle.v
Ledger.v
Deployments.v
Apply.v
Planning.v
ImageChecks.v
Retention.v
Refinement.v
Scenario.v
Guarantees.v
Engine.v
ContainerBody.v
DockerRun.v
DockerDeploy.v
DockerWorld.v
DockerCodes.v
DockerLogic.v
DockerSpecs.v
DockerFollows.v
DockerSafety.v
DockerTheorems.v
DockerRestore.v
DockerWatch.v
DockerRemoval.v
Pruning.v
AgentLedger.v
AgentCommands.v
Operate.v
Endpoints.v
KeyRotation.v
ClusterObjects.v
ClusterRun.v
ClusterLogic.v
ClusterSafety.v
ClusterDeploy.v
ClusterRemoval.v
Accounts.v
Memberships.v
AccountSteps.v
AccountSafety.v
AdminSafety.v
Rollbacks.v
ValidationLoop.v
RollbackSafety.v
ValidationTick.v
RetentionSafety.v
