(* ===== verification/Prelude.v ===== *)
(** * KyYard server: a verification development

    KyYard is a control plane for a fleet of container hosts: a Go server with an SQL database,
    and one agent per Docker host or Kubernetes namespace that dials the server, reports an
    inventory and carries out what it is told.  This development models the server's decisions,
    the messages of the agent protocol and what the agent does with them on a host or a cluster,
    and proves what makes them safe.  All sources are under src/internal/.

    ** The parts and how they meet

    An agent enrolls, a person reviews its key, and it authenticates by signed preimages
    (Endpoints, KeyRotation, Preimage).  Whatever it sends passes a grammar, a cleaner or a
    clamp before it is stored (Regex, Text, Grammar, NetIP, Paths, Inspection, Clamp).  People
    sign in, and an identity provider adds and removes them (Accounts, Memberships); a request
    names a tenant, its role is read inside the transaction that does the work, and every
    outcome leaves an audit row (Permissions, TenantAccess).

    An application is a numbered history of definitions with sealed values (Spec,
    Applications).  It is bound to containers a host already runs, or to a namespace (Adoption).
    A preflight reads the inventory and says what stops a plan (Preflight); planning asks the
    registries and writes a row of the deployments table (Planning, ImageChecks, Registries);
    applying turns the row into a frame with its values and credentials (Apply, Frame), and a
    result, a lost connection or a sweep settles it (Deployments).  Ledger is what that table
    promises in the abstract; Refinement proves that the store implements it.

    The agent takes one deployment at a time and remembers its result (AgentLedger), and runs
    it on Docker (Engine to DockerRemoval) or on a cluster (ClusterObjects to ClusterRemoval).
    Single commands are rows of their own (Commands, Direct, Lifecycle), carried out within a
    budget (AgentCommands, Operate).

    An update policy opens weekly windows (Schedule); the scheduler ticks, admits runs and
    settles them (Policies, Scheduler).  An applied update is watched: every poll is judged
    (Judge), a verdict settles the validation, a bad one names a rollback and pauses the policy
    (Validations), and the rollback is planned and sent by the same operations an operator uses
    (Rollbacks, ValidationLoop, ValidationTick).

    ** Files and sources

    Shared ground:
    - Prelude: the result type and its notations ([refuse], [run!], [let!]), Go's [len],
      strings and duration arithmetic, generic lemmas.
    - Regex: Go's [regexp] on anchored patterns, decided by derivatives, with its language.
      NetIP, Paths, Json: what the code uses of [net/netip], [path], [unicode],
      [encoding/json].  Pruning: a bounded memory that drops its oldest entries.
    - Store: the rows of store/migrations/migrations.go and the transaction monad.

    The protocol (agent/protocol/):
    - Text (inventory.go, configuration.go), Grammar (reference.go, deployment.go, exec.go,
      kubernetes.go, kubernetes_deploy.go), Preimage (sign.go, messages.go), KubeNames,
      Inspection (inspection.go, workload.go), Frame (deployment.go, kubernetes_deploy.go,
      kubernetes_claims.go, configuration.go), Inventory and Clamp (inventory.go,
      kubernetes.go).  Reference: registry/reference.go.

    The control plane (store/ and api/):
    - Permissions (permissions/permissions.go), TenantAccess (tenant_access.go), Commands
      (commands.go, commands_workload.go), Direct (commands_recreate.go), Lifecycle
      (reconcile.go and the whole life of a command).
    - Spec (application_spec.go), Applications (applications.go, application_secrets.go,
      application_networking.go), Registries (registries.go), Preflight
      (application_preflight.go), Adoption (application_adoption.go, application_mapping.go),
      Deployments, Apply and Planning (application_deployment.go, application_apply.go),
      ImageChecks (image_checks.go).
    - Retention and RetentionSafety (the pruning of samples.go).
    - Ledger is the abstract specification of the deployments table and Refinement the
      simulation; Scenario builds databases the theorems are tried on; Guarantees has what an
      apply and a settlement guarantee.
    - Schedule, Policies, Scheduler (policies.go, policy_schedule.go, api/policies.go); Judge,
      Validations (validations.go); Rollbacks (rollback.go); ValidationLoop, RollbackSafety,
      ValidationTick (api/validations.go, api/plan_inspection.go).
    - Endpoints (endpoints.go, agent_session.go, agent_rotation.go); KeyRotation joins it with
      agent/client/identity.go and connect.go.
    - Accounts (sqlstore.go, sso_identity.go, mfa.go), Memberships (tenant_members.go,
      tenancy.go, the token stores, sso/kysignon.go), AccountSteps (both, as one step
      relation), AccountSafety, AdminSafety.

    The agent (agent/client/ and runtime/):
    - AgentLedger (client/deployments.go), AgentCommands (client/commands.go, connect.go),
      Operate (docker/operate.go, images.go).
    - Engine (what a run reads of the Docker Engine), ContainerBody (the create body),
      DockerRun (one call and what becomes of its answer), DockerDeploy (docker/deploy.go,
      deploy_pull.go, deploy_volume.go, remove.go), DockerWorld (a host to run on), then the
      reasoning: DockerLogic, DockerSpecs, DockerFollows, DockerCodes, DockerSafety, and the
      results: DockerTheorems, DockerRestore, DockerWatch, DockerRemoval.
    - ClusterObjects (kubernetes/render/render.go, installer.go), ClusterRun
      (kubernetes/deploy.go, remove.go), ClusterLogic, ClusterSafety, and the results:
      ClusterDeploy, ClusterRemoval.

    ** How the code is modelled

    A handler of the store is a function on the database that answers a value or the code's
    error; [commit] and [runAs] give the rollback and the audit row of their Go counterparts.
    An agent's run is a program over the calls of the Engine or the API server, run against
    anything that answers from the history of the calls; nothing is assumed of the answers
    unless a theorem says so.  Where the code interleaves (sessions, goroutines, sweeps,
    restarts, failing writes), each critical section is one step of a relation.

    ** What the theorems show

    - Authorization: nothing runs without a live role and a refusal changes no table; sessions
      follow passwords and provider logouts; directory events apply once and in order; live
      credentials belong to active administrators, and no local change takes the last one.
    - Applications: revisions are exactly 1 to the head and unaltered; saved values resolve to
      what was saved; the checks of a definition accept exactly the well-formed ones.
    - Deployments: every interleaving of the store's operations is a run of the abstract
      ledger; at most one row of an instance is live; a decided outcome is final; a frame
      leaves only for a plan that still holds and a caller who may deploy.
    - Docker: whatever a host answers, a deployment or removal touches only the containers it
      was sent for, checks all before it changes any, never leaves an old container aside in
      silence, and a success accounts for every service.
    - Clusters: whatever an API server answers, writes are what the frame plans, on objects
      just read as the instance's; a removal deletes by UID and never a claim; runs end unless
      the server itself prolongs them past the fuel.
    - The agent: a run that began is never executed again; commands keep to their budget; an
      agent is never stranded by a key rotation and needs three handshakes at most.
    - Commands: what is recorded is what was confirmed, and a final outcome stays.
    - Policies and validations: a tick keeps its bounds and loses no window; a verdict and a
      rollback's outcome are final; past its window one poll settles a validation, whatever
      fails, and leaves the policy of a failed update paused; a rollback sends at most one
      frame, of exactly the prior state offered; and pruning forgets only what has run out,
      and nothing an undecided rollback needs.
    - Protocol: snapshots are shrunk to the longest prefix that fits; a validated identifier,
      path or reference cannot escape where it is used.

    ** Bounds and fuel

    Recursion is structural where the code's is.  The IPv6 loop has 8 rounds, each of which
    consumes a group of an eight-group address.  The occurrence search has the code's own
    horizon of 14 days.  The watch of a start has [watchRounds] rounds, which DockerWatch
    proves enough because a sleep moves the monotonic clock by its length.  Cluster runs have
    fuel for the loops the server can prolong; ClusterDeploy and ClusterRemoval prove that a
    run without any left was answered, more often than the fuel, in a way that asks for another
    round ([spent]).  Integers are [Z]; where Go's width matters (durations, [time.Sub],
    [uint32] lengths, sizes shifted to bytes) the saturation, wrap-around or bound is written
    out.

    ** Parameters and simplifications

    Outside the program, and so arguments: [encoding/json] of specifications, values and
    results, SHA-256, Ed25519, key derivation and AES-GCM, [uuid.Parse], the time zone
    database, registries, the Docker Engine and the API server, and for the validation loop the
    rest of the server between two of its transactions.  One store operation reads the clock
    once, as [now], and draws its identifiers from its arguments.

    A transaction runs alone, as the row locks (PostgreSQL) or the one writer (SQLite) make it;
    its constraint violations are modelled, failures of the database itself are not.  Which rows
    a batch of the retention takes is the database's choice, an argument.  In Accounts the clock of one run does not go back; in KeyRotation the two clocks are each
    within [skew] of the real time, the check for a lapsed offer comes within [startup] of the
    handshake, and a commit that fails wrote nothing.

    ** Not modelled

    Transport (sockets, log and exec streams, HTTP and MCP handlers), protocol clients (OIDC,
    the registry client), the inventory readers of both runtimes, samples, rollups and events,
    compose import and application migration, backup, configuration and the process
    entry points: PROJECT.json lists each with its reason. *)
From Stdlib Require Import ZArith Lia Ascii String.
From stdpp Require Import base gmap strings list sorting pretty.

Declare Scope go_scope.
Delimit Scope go_scope with go.
Open Scope Z_scope.
Open Scope go_scope.

#[global] Arguments String.append : simpl nomatch.

(** ** Fallible Go functions

    A Go function returning [(T, error)] becomes a [res E T]; one returning only
    [error] becomes a [res E unit].  [refuse c with e ;; k] is the early return
    [if c { return e }]; [let! x := m ;; k] is [x, err := m; if err != nil { return err }]. *)
Inductive res (E A : Type) : Type :=
| Ok (a : A)
| Fail (e : E).
Arguments Ok {E A} a.
Arguments Fail {E A} e.

Definition bind_res {E A B} (m : res E A) (k : A -> res E B) : res E B :=
  match m with Ok a => k a | Fail e => Fail e end.

Notation "'refuse' c 'with' e ;; k" := (if c then Fail e else k)
  (at level 10, c at level 99, e at level 99, k at level 200,
   format "'refuse'  c  'with'  e  ;; '//' k") : go_scope.
Notation "'let!' x ':=' m ';;' k" := (bind_res m (fun x => k))
  (at level 10, x pattern, m at level 99, k at level 200,
   format "'let!'  x  ':='  m  ';;' '//' k") : go_scope.
Notation "'run!' m ';;' k" := (bind_res m (fun _ => k))
  (at level 10, m at level 99, k at level 200,
   format "'run!'  m  ';;' '//' k") : go_scope.

Definition is_ok {E A} (m : res E A) : bool :=
  match m with Ok _ => true | Fail _ => false end.

#[export] Instance res_eq_dec {E A} `{EqDecision E, EqDecision A} : EqDecision (res E A).
Proof. solve_decision. Defined.

Lemma bind_res_ok {E A B} (m : res E A) (k : A -> res E B) b :
  bind_res m k = Ok b <-> exists a, m = Ok a /\ k a = Ok b.
Proof. destruct m; simpl; naive_solver. Qed.

Lemma is_ok_true {E A} (m : res E A) : is_ok m = true <-> exists a, m = Ok a.
Proof. destruct m; simpl; naive_solver. Qed.

Lemma is_ok_unit {E} (m : res E unit) : is_ok m = true <-> m = Ok tt.
Proof. destruct m as [[]|]; simpl; naive_solver. Qed.

(** ** Booleans *)

Lemma bool_decide_iff_true (P : Prop) `{Decision P} : bool_decide P = true <-> P.
Proof. apply bool_decide_eq_true. Qed.

Create HintDb go discriminated.
Create Rewrite HintDb gobool.
#[export] Hint Resolve eq_refl I conj : go.
#[export] Hint Rewrite orb_false_iff andb_true_iff negb_false_iff negb_true_iff orb_true_iff
  andb_false_iff bool_decide_eq_true bool_decide_eq_false : gobool.

(** [gobool] turns the boolean guards of the source into propositions, everywhere. *)
Ltac gobool :=
  repeat (autorewrite with gobool in *; destruct_and?).

(** [refusals] walks down a chain of early returns ending in success: every guard
    was false. *)
Ltac refusals H :=
  repeat match type of H with
  | (if ?b then Fail _ else _) = Ok _ =>
      let E := fresh "Hg" in destruct b eqn:E; [discriminate H|]
  | bind_res _ _ = Ok _ =>
      let a := fresh "a" in let E := fresh "Hb" in
      apply bind_res_ok in H; destruct H as (a & E & H)
  end.

(** ** Lengths

    Go's [len] as an integer. *)
Definition len (s : string) : Z := Z.of_nat (String.length s).
Definition llen {A} (l : list A) : Z := Z.of_nat (length l).

Lemma len_nonneg s : 0 <= len s.
Proof. unfold len. lia. Qed.
Lemma llen_nonneg {A} (l : list A) : 0 <= llen l.
Proof. unfold llen. lia. Qed.
#[export] Hint Resolve len_nonneg llen_nonneg : go.

Lemma length_append (a b : string) :
  String.length (a +:+ b) = (String.length a + String.length b)%nat.
Proof. induction a; simpl; auto. Qed.

Lemma len_append a b : len (a +:+ b) = len a + len b.
Proof. unfold len. rewrite length_append. lia. Qed.

Lemma append_assoc (a b c : string) : (a +:+ b) +:+ c = a +:+ (b +:+ c).
Proof. induction a; simpl; congruence. Qed.

Lemma append_nil_r (a : string) : a +:+ "" = a.
Proof. induction a; simpl; congruence. Qed.

Lemma append_inv (a b c d : string) :
  String.length a = String.length c -> a +:+ b = c +:+ d -> a = c /\ b = d.
Proof.
  revert c; induction a as [|x a IH]; intros [|y c] Hl He; simpl in *; try discriminate; auto.
  injection He as -> He. destruct (IH c) as [-> ->]; auto; lia.
Qed.

(** ** Bytes of a string *)

(** All bytes of [s] satisfy [p]. *)
Fixpoint str_forallb (p : ascii -> bool) (s : string) : bool :=
  match s with
  | EmptyString => true
  | String c s' => p c && str_forallb p s'
  end.

(** [strings.ContainsFunc] on single bytes. *)
Fixpoint str_existsb (p : ascii -> bool) (s : string) : bool :=
  match s with
  | EmptyString => false
  | String c s' => p c || str_existsb p s'
  end.

Lemma str_forallb_append p a b :
  str_forallb p (a +:+ b) = str_forallb p a && str_forallb p b.
Proof. induction a as [|c a IH]; simpl; [done|]. rewrite IH. by rewrite andb_assoc. Qed.

Lemma str_existsb_append p a b :
  str_existsb p (a +:+ b) = str_existsb p a || str_existsb p b.
Proof. induction a as [|c a IH]; simpl; [done|]. rewrite IH. by rewrite orb_assoc. Qed.

Lemma str_existsb_forallb p s : str_existsb p s = negb (str_forallb (fun c => negb (p c)) s).
Proof.
  induction s as [|c s IH]; simpl; [done|]. rewrite IH.
  destruct (p c); simpl; done.
Qed.

Definition ascii_eqb (a b : ascii) : bool := bool_decide (a = b).

(** Byte value. *)
Definition code (c : ascii) : Z := Z.of_N (N_of_ascii c).

Lemma code_range c : 0 <= code c <= 255.
Proof. unfold code. pose proof (N_ascii_bounded c). lia. Qed.

Lemma code_inj a b : code a = code b -> a = b.
Proof.
  unfold code. intros H. apply N2Z.inj in H.
  rewrite <- (ascii_N_embedding a), <- (ascii_N_embedding b). by rewrite H.
Qed.

(** ** Go's [strings] package, on bytes *)

Definition HasPrefix (s p : string) : bool := String.prefix p s.

Fixpoint drop_str (n : nat) (s : string) : string :=
  match n, s with
  | S n', String _ s' => drop_str n' s'
  | _, _ => s
  end.

Fixpoint take_str (n : nat) (s : string) : string :=
  match n, s with
  | S n', String c s' => String c (take_str n' s')
  | _, _ => ""
  end.

Definition TrimPrefix (s p : string) : string :=
  if HasPrefix s p then drop_str (String.length p) s else s.

(** [strings.Cut] at one byte: the text before and after its first occurrence. *)
Fixpoint cut_at (c : ascii) (s : string) : option (string * string) :=
  match s with
  | EmptyString => None
  | String x s' =>
      if ascii_eqb x c then Some ("", s')
      else match cut_at c s' with
           | Some (a, b) => Some (String x a, b)
           | None => None
           end
  end.

(** Cut at the last occurrence: [s[:i], s[i+1:]] for [i = strings.LastIndex(s, c)]. *)
Fixpoint cut_last (c : ascii) (s : string) : option (string * string) :=
  match s with
  | EmptyString => None
  | String x s' =>
      match cut_last c s' with
      | Some (a, b) => Some (String x a, b)
      | None => if ascii_eqb x c then Some ("", s') else None
      end
  end.

Definition contains_byte (c : ascii) (s : string) : bool := str_existsb (ascii_eqb c) s.

(** [strings.Split] at one byte; never empty. *)
Fixpoint split_at (c : ascii) (s : string) : list string :=
  match s with
  | EmptyString => [""]
  | String x s' =>
      if ascii_eqb x c then "" :: split_at c s'
      else match split_at c s' with
           | w :: ws => String x w :: ws
           | [] => [String x ""]
           end
  end.

(** [strings.Join]. *)
Fixpoint join (sep : string) (l : list string) : string :=
  match l with
  | [] => ""
  | [w] => w
  | w :: ws => w +:+ sep +:+ join sep ws
  end.

Lemma join_snoc sep l c : l <> [] -> join sep (l ++ [c]) = join sep l +:+ sep +:+ c.
Proof.
  induction l as [|w l IH]; [done|]. intros _. destruct l as [|w' l]; [done|].
  change (w +:+ sep +:+ join sep ((w' :: l) ++ [c]) = (w +:+ sep +:+ join sep (w' :: l)) +:+ sep +:+ c).
  rewrite IH by done. by rewrite !append_assoc.
Qed.

Lemma take_drop_str n s : take_str n s +:+ drop_str n s = s.
Proof. revert n; induction s as [|c s IH]; intros [|n]; simpl; try done. by rewrite IH. Qed.

Lemma length_take_str n s : String.length (take_str n s) = Nat.min n (String.length s).
Proof. revert n; induction s as [|c s IH]; intros [|n]; simpl; try done. by rewrite IH. Qed.

Lemma drop_str_append a b : drop_str (String.length a) (a +:+ b) = b.
Proof. induction a; simpl; auto. Qed.

Lemma prefix_append p s : HasPrefix (p +:+ s) p = true.
Proof.
  unfold HasPrefix. induction p as [|c p IH]; simpl; [by destruct s|].
  destruct (ascii_dec c c); congruence.
Qed.

Lemma prefix_split s p : HasPrefix s p = true -> s = p +:+ drop_str (String.length p) s.
Proof.
  unfold HasPrefix. revert s; induction p as [|c p IH]; intros [|x s]; simpl; try done.
  destruct (ascii_dec c x) as [->|]; [|done]. intros H. by rewrite <- (IH s H).
Qed.

Lemma ascii_eqb_true a b : ascii_eqb a b = true <-> a = b.
Proof. unfold ascii_eqb. by rewrite bool_decide_eq_true. Qed.
Lemma ascii_eqb_false a b : ascii_eqb a b = false <-> a <> b.
Proof. unfold ascii_eqb. by rewrite bool_decide_eq_false. Qed.
Lemma ascii_eqb_refl a : ascii_eqb a a = true.
Proof. by apply ascii_eqb_true. Qed.
#[export] Hint Rewrite ascii_eqb_true ascii_eqb_false : gobool.

Lemma cut_at_spec c s a b :
  cut_at c s = Some (a, b) -> s = a +:+ String c b /\ contains_byte c a = false.
Proof.
  unfold contains_byte.
  revert a b; induction s as [|x s IH]; intros a b; simpl; [done|].
  destruct (ascii_eqb x c) eqn:E.
  - intros [= <- <-]. apply ascii_eqb_true in E as ->. done.
  - destruct (cut_at c s) as [[a' b']|]; [|done]. intros [= <- <-].
    destruct (IH a' b') as [-> H]; [done|]. simpl. rewrite H.
    apply ascii_eqb_false in E. split; [done|].
    rewrite orb_false_r. apply ascii_eqb_false. congruence.
Qed.

Lemma ascii_eqb_sym a b : ascii_eqb a b = ascii_eqb b a.
Proof. unfold ascii_eqb. apply bool_decide_ext. naive_solver. Qed.

Lemma cut_at_none c s : cut_at c s = None <-> contains_byte c s = false.
Proof.
  unfold contains_byte. induction s as [|x s IH]; simpl; [done|].
  rewrite (ascii_eqb_sym c x). destruct (ascii_eqb x c); simpl; [naive_solver|].
  rewrite <- IH. destruct (cut_at c s) as [[a b]|]; naive_solver.
Qed.

Lemma cut_last_spec c s a b :
  cut_last c s = Some (a, b) -> s = a +:+ String c b /\ contains_byte c b = false.
Proof.
  unfold contains_byte.
  revert a b; induction s as [|x s IH]; intros a b; simpl; [done|].
  destruct (cut_last c s) as [[a' b']|] eqn:Hc.
  - intros [= <- <-]. destruct (IH a' b') as [-> H]; done.
  - destruct (ascii_eqb x c) eqn:E; [|done]. intros [= <- <-].
    apply ascii_eqb_true in E as ->. split; [done|]. clear IH.
    induction s as [|y s IH]; simpl in *; [done|].
    destruct (cut_last c s) as [[? ?]|]; [done|].
    destruct (ascii_eqb y c) eqn:E; [done|]. gobool.
    split; [congruence|by apply IH].
Qed.

Lemma cut_last_none c s : cut_last c s = None <-> contains_byte c s = false.
Proof.
  unfold contains_byte. induction s as [|x s IH]; simpl; [done|].
  rewrite (ascii_eqb_sym c x), orb_false_iff, <- IH.
  destruct (cut_last c s) as [[a b]|]; [naive_solver|].
  destruct (ascii_eqb x c); naive_solver.
Qed.

(** [strconv.Itoa]. *)
Definition Itoa (n : Z) : string := pretty n.

(** ** Loops with a [seen] set

    The validators walk a list, refuse an element whose key was already seen or that
    fails its own test, and record the key.  [seen_loop] is that loop and
    [seen_loop_spec] its meaning. *)
Section seen_loop.
Context {A K : Type} `{Countable K} (key : A -> K) (ok : A -> bool).

Fixpoint seen_loop (seen : gset K) (l : list A) : bool :=
  match l with
  | [] => true
  | x :: l' =>
      if bool_decide (key x ∈ seen) || negb (ok x) then false
      else seen_loop ({[key x]} ∪ seen) l'
  end.

Lemma seen_loop_spec seen l :
  seen_loop seen l = true <->
  Forall (fun x => ok x = true) l /\ NoDup (map key l) /\ Forall (fun x => key x ∉ seen) l.
Proof.
  revert seen; induction l as [|x l IH]; intros seen; simpl.
  - split; [intros _; repeat split; constructor|done].
  - rewrite NoDup_cons, !Forall_cons.
    destruct (bool_decide (key x ∈ seen) || negb (ok x)) eqn:E.
    + split; [done|]. intros ([Hok _] & _ & [Hn _]). gobool.
      destruct E; [by gobool|]. gobool. congruence.
    + gobool. rewrite IH. split.
      * intros (Hall & Hnd & Hf). repeat split; try done.
        -- intros (y & Hy & Hin)%list_elem_of_fmap.
           rewrite Forall_forall in Hf. specialize (Hf y Hin). set_solver.
        -- eapply Forall_impl; [exact Hf|]. set_solver.
      * intros ([_ Hall] & [Hx Hnd] & [_ Hf]). repeat split; try done.
        rewrite Forall_forall in Hf |- *. intros y Hy.
        specialize (Hf y Hy). assert (key y <> key x); [|set_solver].
        intros Heq. apply Hx. apply list_elem_of_fmap. eauto.
Qed.
End seen_loop.

(** The byte order of strings is transitive. *)
Lemma leb_trans (a b c : string) : String.leb a b = true -> String.leb b c = true -> String.leb a c = true.
Proof.
  revert b c. induction a as [|x a IH]; intros [|y b] [|z c]; try done. unfold String.leb in *. simpl. unfold Ascii.compare.
  destruct (N.compare_spec (N_of_ascii x) (N_of_ascii y)) as [E|E|E], (N.compare_spec (N_of_ascii y) (N_of_ascii z)) as [F|F|F]; try done; intros H1 H2.
  all: destruct (N.compare_spec (N_of_ascii x) (N_of_ascii z)); try lia; try done.
  by apply (IH b).
Qed.

(** Related lists, element by element. *)
Lemma Forall2_in_l {A B} (P : A -> B -> Prop) l k x :
  Forall2 P l k -> x ∈ l -> exists y, y ∈ k /\ P x y.
Proof.
  intros H [i Hi]%list_elem_of_lookup. destruct (Forall2_lookup_l _ _ _ _ _ H Hi) as (y & Hy & ?).
  exists y. split; [|done]. apply list_elem_of_lookup. eauto.
Qed.
Lemma Forall2_in_r {A B} (P : A -> B -> Prop) l k y :
  Forall2 P l k -> y ∈ k -> exists x, x ∈ l /\ P x y.
Proof.
  intros H [i Hi]%list_elem_of_lookup. destruct (Forall2_lookup_r _ _ _ _ _ H Hi) as (x & Hx & ?).
  exists x. split; [|done]. apply list_elem_of_lookup. eauto.
Qed.

(** ** Time

    A [time.Time] is its instant in nanoseconds from the Unix epoch; Go's zero time is
    1 January of year 1. [Sub] saturates at the range of a [Duration] (int64). *)
Definition time := Z.
Definition zero_time : time := -62135596800 * 1000000000.
Definition Second : Z := 1000000000.
Definition Minute : Z := 60 * Second.
Definition Hour : Z := 60 * Minute.
Definition max_duration : Z := 2 ^ 63 - 1.
Definition min_duration : Z := - 2 ^ 63.
Definition time_sub (a b : time) : Z := Z.max min_duration (Z.min max_duration (a - b)).
