(* ===== verification/Regex.v ===== *)
(** * Regular expressions

    The source compiles its grammars with Go's [regexp] and tests whole strings
    ([^...$] patterns, [MatchString]).  [re] is the fragment those patterns use, over
    bytes (every class is ASCII, so no byte of a multi-byte rune ever matches);
    [re_match] decides it with derivatives and [lang] is its meaning.  [$] is the end of
    the text: Go's default has no multi-line mode. *)
From stdpp Require Import base gmap strings list.
From Stdlib Require Import ZArith Lia Ascii String.
From S2P Require Import Prelude.

Inductive re : Type :=
| Nul
| Eps
| Cls (p : ascii -> bool)
| Rep (p : ascii -> bool) (lo hi : nat)   (** a class repeated [{lo,hi}] *)
| Cat (r s : re)
| Alt (r s : re)
| Star (r : re).

(** Smart constructors keep derivatives small. *)
Definition cat (r s : re) : re :=
  match r, s with
  | Nul, _ => Nul
  | _, Nul => Nul
  | Eps, _ => s
  | _, _ => Cat r s
  end.

Definition alt (r s : re) : re :=
  match r, s with
  | Nul, _ => s
  | _, Nul => r
  | _, _ => Alt r s
  end.

Fixpoint nullable (r : re) : bool :=
  match r with
  | Nul | Cls _ => false
  | Eps | Star _ => true
  | Rep _ lo _ => Nat.eqb lo 0
  | Cat r s => nullable r && nullable s
  | Alt r s => nullable r || nullable s
  end.

Fixpoint deriv (c : ascii) (r : re) : re :=
  match r with
  | Nul | Eps => Nul
  | Cls p => if p c then Eps else Nul
  | Rep p lo hi =>
      match hi with
      | O => Nul
      | S hi' => if p c && Nat.leb lo hi then Rep p (Nat.pred lo) hi' else Nul
      end
  | Cat r s =>
      if nullable r then alt (cat (deriv c r) s) (deriv c s) else cat (deriv c r) s
  | Alt r s => alt (deriv c r) (deriv c s)
  | Star r => cat (deriv c r) (Star r)
  end.

(** [MatchString] of an anchored pattern. *)
Fixpoint re_match (r : re) (s : string) : bool :=
  match s with
  | EmptyString => nullable r
  | String c s' => re_match (deriv c r) s'
  end.

(** ** Pattern syntax *)

Definition range (a b : ascii) (c : ascii) : bool := (code a <=? code c) && (code c <=? code b).
Definition one (a : ascii) (c : ascii) : bool := ascii_eqb a c.
Definition oneof (l : string) (c : ascii) : bool := contains_byte c l.
Definition either (p q : ascii -> bool) (c : ascii) : bool := p c || q c.

Definition digit : ascii -> bool := range "0" "9".
Definition lower : ascii -> bool := range "a" "z".
Definition upper : ascii -> bool := range "A" "Z".
Definition alpha : ascii -> bool := either lower upper.
Definition alnum : ascii -> bool := either alpha digit.
Definition lowdig : ascii -> bool := either lower digit.
Definition lowhex : ascii -> bool := either digit (range "a" "f").

Fixpoint Lit (s : string) : re :=
  match s with
  | EmptyString => Eps
  | String c EmptyString => Cls (one c)
  | String c s' => Cat (Cls (one c)) (Lit s')
  end.
Definition Opt (r : re) : re := Alt Eps r.
Definition Plus (r : re) : re := Cat r (Star r).
Fixpoint Cats (l : list re) : re :=
  match l with [] => Eps | [r] => r | r :: l' => Cat r (Cats l') end.
Fixpoint Alts (l : list re) : re :=
  match l with [] => Nul | [r] => r | r :: l' => Alt r (Alts l') end.

(** ** Meaning *)

Inductive lang : re -> string -> Prop :=
| L_eps : lang Eps ""
| L_cls p c : p c = true -> lang (Cls p) (String c "")
| L_rep p lo hi s :
    (lo <= String.length s <= hi)%nat -> str_forallb p s = true -> lang (Rep p lo hi) s
| L_cat r s a b : lang r a -> lang s b -> lang (Cat r s) (a +:+ b)
| L_alt_l r s a : lang r a -> lang (Alt r s) a
| L_alt_r r s a : lang s a -> lang (Alt r s) a
| L_star_nil r : lang (Star r) ""
| L_star_cons r a b : lang r a -> lang (Star r) b -> lang (Star r) (a +:+ b).

#[export] Hint Constructors lang : go.

Lemma lang_nul s : ~ lang Nul s.
Proof. inversion 1. Qed.

Lemma lang_eps s : lang Eps s <-> s = "".
Proof. split; [by inversion 1|]. intros ->. constructor. Qed.

Lemma lang_cls p s : lang (Cls p) s <-> exists c, s = String c "" /\ p c = true.
Proof. split; [inversion 1; eauto|]. intros (c & -> & H). by constructor. Qed.

Lemma lang_rep p lo hi s :
  lang (Rep p lo hi) s <-> (lo <= String.length s <= hi)%nat /\ str_forallb p s = true.
Proof. split; [by inversion 1|]. intros [? ?]. by constructor. Qed.

Lemma lang_cat r s w : lang (Cat r s) w <-> exists a b, w = a +:+ b /\ lang r a /\ lang s b.
Proof. split; [inversion 1; subst; eauto 6|]. intros (a & b & -> & ? & ?). by constructor. Qed.

Lemma lang_alt r s w : lang (Alt r s) w <-> lang r w \/ lang s w.
Proof. split; [inversion 1; subst; auto|]. intros [?|?]; auto with go. Qed.

Lemma lang_opt r w : lang (Opt r) w <-> w = "" \/ lang r w.
Proof. unfold Opt. by rewrite lang_alt, lang_eps. Qed.

Lemma lang_lit a w : lang (Lit a) w <-> w = a.
Proof.
  revert w; induction a as [|c a IH]; intros w; [apply lang_eps|].
  destruct a as [|c' a].
  - simpl. rewrite lang_cls. unfold one. split.
    + intros (x & -> & Hx). gobool. congruence.
    + intros ->. exists c. split; [done|]. apply ascii_eqb_refl.
  - change (Lit (String c (String c' a))) with (Cat (Cls (one c)) (Lit (String c' a))).
    rewrite lang_cat. split.
    + intros (x & y & -> & Hx & Hy). apply lang_cls in Hx as (z & -> & Hz).
      apply IH in Hy as ->. unfold one in Hz. gobool. by subst.
    + intros ->. exists (String c ""), (String c' a). split; [done|]. split; [|by apply IH].
      apply lang_cls. exists c. split; [done|]. unfold one. apply ascii_eqb_refl.
Qed.

Lemma lang_cat_nul r w : lang (Cat r Nul) w <-> lang Nul w.
Proof. rewrite lang_cat. split; [intros (a & b & _ & _ & H)|intros H]; by destruct (lang_nul _ H). Qed.

Lemma lang_cat_eps s w : lang (Cat Eps s) w <-> lang s w.
Proof.
  rewrite lang_cat. split.
  - intros (a & b & -> & Ha & Hb). by apply lang_eps in Ha as ->.
  - intros H. exists "", w. split; [done|]. split; [constructor|done].
Qed.

Lemma lang_cat_smart r s w : lang (cat r s) w <-> lang (Cat r s) w.
Proof.
  destruct r; [|destruct s; simpl; rewrite ?lang_cat_eps; done| | | | |];
    [|destruct s; simpl; rewrite ?lang_cat_nul; done ..].
  simpl. rewrite lang_cat. split; [intros H|intros (a & b & _ & H & _)]; by destruct (lang_nul _ H).
Qed.

Lemma lang_alt_smart r s w : lang (alt r s) w <-> lang (Alt r s) w.
Proof.
  rewrite lang_alt. pose proof (lang_nul w).
  destruct r; destruct s; simpl; rewrite ?lang_alt; tauto.
Qed.

Lemma nullable_lang r : nullable r = true <-> lang r "".
Proof.
  induction r as [| |p|p lo hi|r IHr s IHs|r IHr s IHs|r IHr]; simpl.
  - split; [done|]. by inversion 1.
  - split; [constructor|done].
  - split; [done|]. by inversion 1.
  - rewrite lang_rep, Nat.eqb_eq. simpl. split; intros; [|lia]. split; [lia|done].
  - rewrite lang_cat, andb_true_iff, IHr, IHs. split.
    + intros [? ?]. by exists "", "".
    + intros (a & b & He & Ha & Hb). destruct a; [|done]. by simpl in He; subst.
  - by rewrite lang_alt, orb_true_iff, IHr, IHs.
  - split; [constructor|done].
Qed.

Lemma lang_star_head r c w :
  lang (Star r) (String c w) ->
  exists a b, w = a +:+ b /\ lang r (String c a) /\ lang (Star r) b.
Proof.
  remember (Star r) as q eqn:Hq. remember (String c w) as x eqn:Hx. intros H.
  revert c w Hx. induction H; intros c0 w Hx; simplify_eq.
  destruct a as [|d a]; simpl in *; [by eapply IHlang2|].
  simplify_eq. eauto.
Qed.

Lemma deriv_lang c r w : lang (deriv c r) w <-> lang r (String c w).
Proof.
  revert w; induction r as [| |p|p lo hi|r IHr s IHs|r IHr s IHs|r IHr]; intros w; simpl.
  - split; by inversion 1.
  - split; by inversion 1.
  - rewrite lang_cls. destruct (p c) eqn:E; [rewrite lang_eps|]; split.
    + intros ->. eauto.
    + by intros (d & [= <- ->] & _).
    + by inversion 1.
    + intros (d & [= <- ->] & ?). congruence.
  - rewrite (lang_rep p lo hi). simpl. destruct hi as [|hi].
    + split; [by inversion 1|lia].
    + destruct (p c) eqn:E; simpl; [|split; [by inversion 1|naive_solver]].
      destruct lo as [|lo]; simpl; [rewrite lang_rep; split; intros [? ?]; split; (done || lia)|].
      destruct (Nat.leb lo hi) eqn:El; [rewrite lang_rep|]; simpl.
      * apply Nat.leb_le in El. split; intros [? ?]; split; (done || lia).
      * apply Nat.leb_gt in El. split; [by inversion 1|lia].
  - assert (Hcat : lang (cat (deriv c r) s) w <->
                   exists a b, w = a +:+ b /\ lang r (String c a) /\ lang s b).
    { rewrite lang_cat_smart, lang_cat. setoid_rewrite IHr. done. }
    rewrite (lang_cat r s). destruct (nullable r) eqn:En.
    + rewrite lang_alt_smart, lang_alt, Hcat, IHs. apply nullable_lang in En. split.
      * intros [(a & b & -> & ? & ?)|Hs]; [by exists (String c a), b|].
        by exists "", (String c w).
      * intros (a & b & He & Ha & Hb). destruct a as [|d a]; simpl in He; simplify_eq; eauto 6.
    + rewrite Hcat. split.
      * intros (a & b & -> & ? & ?). by exists (String c a), b.
      * intros (a & b & He & Ha & Hb). destruct a as [|d a]; simpl in He; simplify_eq; eauto.
        apply nullable_lang in Ha. congruence.
  - by rewrite lang_alt_smart, !lang_alt, IHr, IHs.
  - rewrite lang_cat_smart, lang_cat. setoid_rewrite IHr. split.
    + intros (a & b & -> & Ha & Hb). change (String c (a +:+ b)) with (String c a +:+ b).
      by constructor.
    + apply lang_star_head.
Qed.

(** The derivative matcher decides the language of every pattern. *)
Theorem re_match_lang r s : re_match r s = true <-> lang r s.
Proof.
  revert r; induction s as [|c s IH]; intros r; simpl; [apply nullable_lang|].
  rewrite IH. apply deriv_lang.
Qed.

(** ** Byte sets and lengths of a language

    [bytes_of r] accepts every byte a string of [r] can contain: enough to show that a
    validated name has no slash, quote or separator. *)
Fixpoint bytes_of (r : re) (c : ascii) : bool :=
  match r with
  | Nul | Eps => false
  | Cls p | Rep p _ _ => p c
  | Cat r s | Alt r s => bytes_of r c || bytes_of s c
  | Star r => bytes_of r c
  end.

Lemma str_forallb_mono (p q : ascii -> bool) s :
  (forall c, p c = true -> q c = true) -> str_forallb p s = true -> str_forallb q s = true.
Proof.
  intros Hpq. induction s as [|c s IH]; simpl; [done|].
  rewrite !andb_true_iff. naive_solver.
Qed.

Lemma lang_bytes r s : lang r s -> str_forallb (bytes_of r) s = true.
Proof.
  induction 1; simpl in *; try done.
  - by rewrite H.
  - rewrite str_forallb_append, andb_true_iff. split.
    + eapply str_forallb_mono; [|exact IHlang1]. intros c ->. done.
    + eapply str_forallb_mono; [|exact IHlang2]. intros c ->. by rewrite orb_true_r.
  - eapply str_forallb_mono; [|exact IHlang]. intros c ->. done.
  - eapply str_forallb_mono; [|exact IHlang]. intros c ->. by rewrite orb_true_r.
  - rewrite str_forallb_append. apply andb_true_iff. split; [exact IHlang1|exact IHlang2].
Qed.

(** [min_len] and [max_len] bound the length of the strings of a pattern. *)
Fixpoint min_len (r : re) : nat :=
  match r with
  | Nul | Eps | Star _ => 0
  | Cls _ => 1
  | Rep _ lo _ => lo
  | Cat r s => min_len r + min_len s
  | Alt r s => Nat.min (min_len r) (min_len s)
  end.

Fixpoint max_len (r : re) : option nat :=
  match r with
  | Nul | Eps => Some 0%nat
  | Cls _ => Some 1%nat
  | Rep _ _ hi => Some hi
  | Cat r s => match max_len r, max_len s with Some a, Some b => Some (a + b)%nat | _, _ => None end
  | Alt r s => match max_len r, max_len s with Some a, Some b => Some (Nat.max a b) | _, _ => None end
  | Star _ => None
  end.

Lemma lang_min_len r s : lang r s -> (min_len r <= String.length s)%nat.
Proof. induction 1; simpl in *; rewrite ?length_append; lia. Qed.

Lemma lang_max_len r s n : lang r s -> max_len r = Some n -> (String.length s <= n)%nat.
Proof.
  intros H. revert n. induction H; simpl; intros n Hn; simplify_eq; simpl; try lia.
  - destruct (max_len r), (max_len s); simplify_eq.
    rewrite length_append. specialize (IHlang1 _ eq_refl). specialize (IHlang2 _ eq_refl). lia.
  - destruct (max_len r), (max_len s); simplify_eq. specialize (IHlang _ eq_refl). lia.
  - destruct (max_len r), (max_len s); simplify_eq. specialize (IHlang _ eq_refl). lia.
Qed.

(** A byte outside the pattern's byte set occurs in no match. *)
Lemma re_match_no_byte r s c :
  bytes_of r c = false -> re_match r s = true -> contains_byte c s = false.
Proof.
  intros Hc Hm. apply re_match_lang, lang_bytes in Hm. unfold contains_byte.
  induction s as [|x s IH]; simpl in *; [done|].
  apply andb_true_iff in Hm as [Hx Hs]. rewrite (IH Hs), orb_false_r.
  apply ascii_eqb_false. congruence.
Qed.

Lemma re_match_nonempty r : nullable r = false -> re_match r "" = false.
Proof. done. Qed.

Lemma re_match_len r s n :
  max_len r = Some n -> re_match r s = true ->
  Z.of_nat (min_len r) <= len s <= Z.of_nat n.
Proof.
  intros Hn Hm%re_match_lang. pose proof (lang_min_len _ _ Hm).
  pose proof (lang_max_len _ _ _ Hm Hn). unfold len. lia.
Qed.
