(* ===== verification/Text.v ===== *)
(** * Display text

    Go's UTF-8 decoding as [for range] and [utf8.ValidString] see it, and
    [protocol.CleanText] (internal/agent/protocol/inventory.go), which the server applies
    to every string an agent sends before it is stored, with the [text]/[raw] predicates of
    internal/agent/protocol/configuration.go. *)
From stdpp Require Import base gmap strings list.
From Stdlib Require Import ZArith Lia Ascii String Wf_nat.
From S2P Require Import Prelude.

Definition chr (z : Z) : ascii := ascii_of_N (Z.to_N z).

Lemma code_chr z : 0 <= z < 256 -> code (chr z) = z.
Proof. intros H. unfold code, chr. rewrite N_ascii_embedding by lia. lia. Qed.

Lemma chr_code c : chr (code c) = c.
Proof. apply code_inj. apply code_chr. pose proof (code_range c). lia. Qed.

(** ** UTF-8 *)

Definition RuneError : Z := 0xFFFD.

Definition btw (lo hi z : Z) : bool := (lo <=? z) && (z <=? hi).
Definition cont (c : ascii) : bool := btw 0x80 0xBF (code c).

(** The second byte's range depends on the first (no overlong form, no surrogate, nothing
    past U+10FFFF). *)
Definition second (a b : ascii) : bool :=
  if code a =? 0xE0 then btw 0xA0 0xBF (code b)
  else if code a =? 0xED then btw 0x80 0x9F (code b)
  else if code a =? 0xF0 then btw 0x90 0xBF (code b)
  else if code a =? 0xF4 then btw 0x80 0x8F (code b)
  else cont b.

Definition rune2 (a b : ascii) : Z := (code a - 0xC0) * 64 + (code b - 0x80).
Definition rune3 (a b c : ascii) : Z := rune2 (chr (code a - 0x20)) b * 64 + (code c - 0x80).
Definition rune4 (a b c d : ascii) : Z :=
  rune3 (chr (code a - 0x10)) b c * 64 + (code d - 0x80).

(** The runes of [s]; [None] is a byte that decodes to nothing (Go yields [RuneError] and
    advances one byte). *)
Fixpoint decode (s : string) : list (option Z) :=
  match s with
  | EmptyString => []
  | String a s1 =>
      if code a <? 0x80 then Some (code a) :: decode s1
      else match s1 with
      | EmptyString => None :: decode s1
      | String b s2 =>
          if btw 0xC2 0xDF (code a) then
            if cont b then Some (rune2 a b) :: decode s2 else None :: decode s1
          else match s2 with
          | EmptyString => None :: decode s1
          | String c s3 =>
              if btw 0xE0 0xEF (code a) then
                if second a b && cont c then Some (rune3 a b c) :: decode s3 else None :: decode s1
              else match s3 with
              | EmptyString => None :: decode s1
              | String d s4 =>
                  if btw 0xF0 0xF4 (code a) && second a b && cont c && cont d
                  then Some (rune4 a b c d) :: decode s4 else None :: decode s1
              end
          end
      end
  end.

(** What [for _, r := range s] yields. *)
Definition runes (s : string) : list Z := map (default RuneError) (decode s).

(** [utf8.ValidString]. *)
Definition ValidString (s : string) : bool := forallb (fun o => bool_decide (is_Some o)) (decode s).

Definition valid_rune (r : Z) : bool := btw 0 0xD7FF r || btw 0xE000 0x10FFFF r.

(** [utf8.RuneLen] and [strings.Builder.WriteRune] of a valid rune. *)
Definition RuneLen (r : Z) : Z :=
  if r <? 0x80 then 1 else if r <? 0x800 then 2 else if r <? 0x10000 then 3 else 4.

Definition encode_rune (r : Z) : string :=
  if r <? 0x80 then String (chr r) ""
  else if r <? 0x800 then String (chr (0xC0 + r / 64)) (String (chr (0x80 + r mod 64)) "")
  else if r <? 0x10000 then
    String (chr (0xE0 + r / 64 / 64)) (String (chr (0x80 + (r / 64) mod 64)) (String (chr (0x80 + r mod 64)) ""))
  else
    String (chr (0xF0 + r / 64 / 64 / 64)) (String (chr (0x80 + (r / 64 / 64) mod 64))
      (String (chr (0x80 + (r / 64) mod 64)) (String (chr (0x80 + r mod 64)) ""))).

(** ** CleanText *)

(** The runes CleanText drops: control characters (Cc), line and paragraph separators
    (Zl, Zp), bidi controls and the replacement character. *)
Definition dropped (r : Z) : bool :=
  (btw 0 0x1F r || btw 0x7F 0x9F r) || (r =? 0x2028) || (r =? 0x2029)
  || btw 0x202A 0x202E r || btw 0x2066 0x2069 r || (r =? RuneError).

(** The loop of CleanText: [n] bytes are already in the builder. *)
Fixpoint clean_loop (rs : list Z) (n max : Z) : string :=
  match rs with
  | [] => ""
  | r :: rs' =>
      if dropped r then clean_loop rs' n max
      else if n + RuneLen r >? max then ""
      else encode_rune r +:+ clean_loop rs' (n + RuneLen r) max
  end.

Definition CleanText (s : string) (max : Z) : string := clean_loop (runes s) 0 max.

(** [text] and [raw] of configuration.go. *)
Definition text (s : string) (max : Z) : bool :=
  (len s <=? max) && ValidString s && bool_decide (CleanText s max = s).

Definition has_nul (s : string) : bool := contains_byte (chr 0) s.

Definition raw (s : string) (max : Z) : bool :=
  (len s <=? max) && ValidString s && negb (has_nul s).

(** ** Decoding and encoding are inverse *)

(** ** Names (internal/store/tenant_access.go) *)

Definition nonempty (s : string) : bool := negb (bool_decide (s = "")).

(** The encodings of the runes [unicode.IsSpace] holds for. *)
Definition spaces : list string :=
  map encode_rune ([9; 10; 11; 12; 13; 32; 0x85; 0xA0; 0x1680; 0x2028; 0x2029; 0x202F; 0x205F; 0x3000]
    ++ map (fun i => 0x2000 + Z.of_nat i) (seq 0 11)).

Fixpoint rev_str (s : string) : string :=
  match s with EmptyString => "" | String c s' => rev_str s' +:+ String c "" end.

(** Drops leading words of [ws] while there are any; each pass drops at least a byte. *)
Fixpoint strip (ws : list string) (fuel : nat) (s : string) : string :=
  match fuel with
  | O => s
  | S f => match List.find (fun w => HasPrefix s w) ws with
           | Some w => strip ws f (drop_str (String.length w) s)
           | None => s
           end
  end.

(** [strings.TrimSpace]. *)
Definition TrimSpace (s : string) : string :=
  let l := strip spaces (String.length s) s in
  rev_str (strip (map rev_str spaces) (String.length l) (rev_str l)).

(** Runes a confirmation dialog or a log line must not carry. *)
Definition forging (r : Z) : bool :=
  btw 0 0x1F r || btw 0x7F 0x9F r || (r =? 0x2028) || (r =? 0x2029)
  || btw 0x202A 0x202E r || btw 0x2066 0x2069 r.

Definition displaySafe (s : string) : bool :=
  (len s <=? 255) && negb (existsb forging (runes s)).

Definition validTenantName (name : string) : bool :=
  nonempty (TrimSpace name) && displaySafe name.

Ltac bcase :=
  repeat match goal with
  | |- context [?a <? ?b] => destruct (Z.ltb_spec a b); try lia
  | |- context [?a =? ?b] => destruct (Z.eqb_spec a b); try lia
  | |- context [?a <=? ?b] => destruct (Z.leb_spec a b); try lia
  end.

Lemma len_encode_rune r : len (encode_rune r) = RuneLen r.
Proof. unfold encode_rune, RuneLen. by bcase. Qed.

Lemma valid_rune_spec r : valid_rune r = true <-> (0 <= r <= 0xD7FF) \/ (0xE000 <= r <= 0x10FFFF).
Proof. unfold valid_rune, btw. rewrite orb_true_iff, !andb_true_iff, !Z.leb_le. done. Qed.

Lemma digit_split q y : 0 <= y < 64 -> (q * 64 + y) / 64 = q /\ (q * 64 + y) mod 64 = y.
Proof.
  intros H. split.
  - symmetry. apply (Z.div_unique _ 64 _ y); lia.
  - symmetry. apply (Z.mod_unique _ 64 q); lia.
Qed.

(** A valid rune past ASCII, by its 6-bit digits. *)
Lemma encode2 x y :
  2 <= x < 32 -> 0 <= y < 64 ->
  encode_rune (x * 64 + y) = String (chr (0xC0 + x)) (String (chr (0x80 + y)) "").
Proof.
  intros Hx Hy. unfold encode_rune. destruct (digit_split x y Hy) as [-> ->]. by bcase.
Qed.

Lemma encode3 x y z :
  0x20 <= x * 64 + y < 0x400 -> 0 <= y < 64 -> 0 <= z < 64 ->
  encode_rune ((x * 64 + y) * 64 + z) =
  String (chr (0xE0 + x)) (String (chr (0x80 + y)) (String (chr (0x80 + z)) "")).
Proof.
  intros Hx Hy Hz. unfold encode_rune.
  destruct (digit_split (x * 64 + y) z Hz) as [-> ->].
  destruct (digit_split x y Hy) as [-> ->]. by bcase.
Qed.

Lemma encode4 x y z w :
  0x10 <= x * 64 + y < 0x200 -> 0 <= y < 64 -> 0 <= z < 64 -> 0 <= w < 64 ->
  encode_rune (((x * 64 + y) * 64 + z) * 64 + w) =
  String (chr (0xF0 + x)) (String (chr (0x80 + y)) (String (chr (0x80 + z)) (String (chr (0x80 + w)) ""))).
Proof.
  intros Hx Hy Hz Hw. unfold encode_rune.
  destruct (digit_split ((x * 64 + y) * 64 + z) w Hw) as [-> ->].
  destruct (digit_split (x * 64 + y) z Hz) as [-> ->].
  destruct (digit_split x y Hy) as [-> ->]. by bcase.
Qed.

Lemma rune_digits r : exists q y, r = q * 64 + y /\ 0 <= y < 64.
Proof.
  exists (r / 64), (r mod 64). pose proof (Z.div_mod r 64). pose proof (Z.mod_pos_bound r 64). lia.
Qed.

Lemma btw_true lo hi z : lo <= z <= hi -> btw lo hi z = true.
Proof. unfold btw. rewrite andb_true_iff, !Z.leb_le. lia. Qed.
Lemma btw_false lo hi z : z < lo \/ hi < z -> btw lo hi z = false.
Proof. unfold btw. rewrite andb_false_iff, !Z.leb_gt. lia. Qed.

Lemma cont_chr y : 0 <= y < 64 -> cont (chr (0x80 + y)) = true.
Proof. intros. unfold cont. rewrite code_chr by lia. apply btw_true. lia. Qed.

Lemma second_chr3 x y :
  0x20 <= x * 64 + y < 0x400 -> ~ (0x360 <= x * 64 + y < 0x380) -> 0 <= y < 64 ->
  second (chr (0xE0 + x)) (chr (0x80 + y)) = true.
Proof.
  intros. unfold second. rewrite cont_chr, !code_chr by lia.
  destruct (Z.eqb_spec (0xE0 + x) 0xE0); [apply btw_true; lia|].
  destruct (Z.eqb_spec (0xE0 + x) 0xED); [apply btw_true; lia|]. by bcase.
Qed.

Lemma second_chr4 x y :
  0x10 <= x * 64 + y < 0x110 -> 0 <= y < 64 ->
  second (chr (0xF0 + x)) (chr (0x80 + y)) = true.
Proof.
  intros. unfold second. rewrite cont_chr, !code_chr by lia.
  destruct (Z.eqb_spec (0xF0 + x) 0xE0); [lia|].
  destruct (Z.eqb_spec (0xF0 + x) 0xED); [lia|].
  destruct (Z.eqb_spec (0xF0 + x) 0xF0); [apply btw_true; lia|].
  destruct (Z.eqb_spec (0xF0 + x) 0xF4); [apply btw_true; lia|]. done.
Qed.

Lemma decode2 x y t :
  2 <= x < 32 -> 0 <= y < 64 ->
  decode (String (chr (0xC0 + x)) (String (chr (0x80 + y)) t)) = Some (x * 64 + y) :: decode t.
Proof.
  intros Hx Hy. simpl. rewrite cont_chr by lia. unfold rune2. rewrite !code_chr by lia.
  destruct (Z.ltb_spec (0xC0 + x) 0x80); [lia|]. rewrite btw_true by lia. do 2 f_equal. lia.
Qed.

Lemma decode3 x y z t :
  0x20 <= x * 64 + y < 0x400 -> ~ (0x360 <= x * 64 + y < 0x380) -> 0 <= y < 64 -> 0 <= z < 64 ->
  decode (String (chr (0xE0 + x)) (String (chr (0x80 + y)) (String (chr (0x80 + z)) t))) =
  Some ((x * 64 + y) * 64 + z) :: decode t.
Proof.
  intros Hx Hs Hy Hz. simpl. rewrite second_chr3, cont_chr by lia. unfold rune3, rune2.
  rewrite !code_chr by lia.
  destruct (Z.ltb_spec (0xE0 + x) 0x80); [lia|].
  rewrite (btw_false 0xC2), (btw_true 0xE0) by lia. simpl. do 2 f_equal. lia.
Qed.

Lemma decode4 x y z w t :
  0x10 <= x * 64 + y < 0x110 -> 0 <= y < 64 -> 0 <= z < 64 -> 0 <= w < 64 ->
  decode (String (chr (0xF0 + x)) (String (chr (0x80 + y)) (String (chr (0x80 + z)) (String (chr (0x80 + w)) t)))) =
  Some (((x * 64 + y) * 64 + z) * 64 + w) :: decode t.
Proof.
  intros Hx Hy Hz Hw. simpl. rewrite second_chr4, !cont_chr by lia. unfold rune4, rune3, rune2.
  rewrite !code_chr by lia.
  destruct (Z.ltb_spec (0xF0 + x) 0x80); [lia|].
  rewrite (btw_false 0xC2), (btw_false 0xE0), (btw_true 0xF0) by lia. simpl. do 2 f_equal.
  rewrite (code_chr (0xF0 + x - 0x10)) by lia. rewrite code_chr by lia. lia.
Qed.

Lemma decode_encode r t :
  valid_rune r = true -> decode (encode_rune r +:+ t) = Some r :: decode t.
Proof.
  rewrite valid_rune_spec. intros Hr.
  destruct (Z.ltb_spec r 0x80) as [H|H].
  { unfold encode_rune. destruct (Z.ltb_spec r 0x80); [|lia]. simpl.
    rewrite code_chr by lia. by bcase. }
  destruct (rune_digits r) as (q & w & -> & Hw).
  destruct (Z.ltb_spec q 0x20) as [H1|H1].
  { rewrite encode2 by lia. simpl append. apply decode2; lia. }
  destruct (rune_digits q) as (q' & z & -> & Hz).
  destruct (Z.ltb_spec (q' * 64 + z) 0x400) as [H2|H2].
  { rewrite encode3 by lia. simpl append. apply decode3; lia. }
  destruct (rune_digits q') as (x & y & -> & Hy).
  rewrite encode4 by lia. simpl append. apply decode4; lia.
Qed.

(** What the decoder's byte tests say of the bytes. *)
Lemma second3_bounds a b :
  btw 0xE0 0xEF (code a) = true -> second a b = true ->
  exists x y, a = chr (0xE0 + x) /\ b = chr (0x80 + y) /\ 0 <= y < 64 /\
    0x20 <= x * 64 + y < 0x400 /\ ~ (0x360 <= x * 64 + y < 0x380).
Proof.
  intros Ha Hb. exists (code a - 0xE0), (code b - 0x80).
  replace (0xE0 + (code a - 0xE0)) with (code a) by lia.
  replace (0x80 + (code b - 0x80)) with (code b) by lia. rewrite !chr_code.
  split; [done|]. split; [done|].
  revert Ha Hb. unfold second, cont, btw. bcase; simpl; try discriminate; lia.
Qed.

Lemma second4_bounds a b :
  btw 0xF0 0xF4 (code a) = true -> second a b = true ->
  exists x y, a = chr (0xF0 + x) /\ b = chr (0x80 + y) /\ 0 <= y < 64 /\ 0x10 <= x * 64 + y < 0x110.
Proof.
  intros Ha Hb. exists (code a - 0xF0), (code b - 0x80).
  replace (0xF0 + (code a - 0xF0)) with (code a) by lia.
  replace (0x80 + (code b - 0x80)) with (code b) by lia. rewrite !chr_code.
  split; [done|]. split; [done|].
  revert Ha Hb. unfold second, cont, btw. bcase; simpl; try discriminate; lia.
Qed.

Lemma cont_digit c : cont c = true -> exists y, c = chr (0x80 + y) /\ 0 <= y < 64.
Proof.
  intros Hc. exists (code c - 0x80). replace (0x80 + (code c - 0x80)) with (code c) by lia.
  rewrite chr_code. split; [done|]. revert Hc. unfold cont, btw. bcase; simpl; (done || lia).
Qed.

(** One step of the decoder: a valid rune's encoding, or one bad byte. *)
Lemma decode_step_bytes a s :
  (exists r t, valid_rune r = true /\ String a s = encode_rune r +:+ t) \/
  decode (String a s) = None :: decode s.
Proof.
  simpl. destruct (Z.ltb_spec (code a) 0x80) as [Ha|Ha].
  { left. exists (code a), s. pose proof (code_range a). split; [apply valid_rune_spec; lia|].
    unfold encode_rune. destruct (Z.ltb_spec (code a) 0x80); [|lia]. simpl. by rewrite chr_code. }
  destruct s as [|b s2]; [by right|].
  destruct (btw 0xC2 0xDF (code a)) eqn:E2.
  { destruct (cont b) eqn:Eb; [|by right]. left.
    apply cont_digit in Eb as (y & -> & Hy). unfold btw in E2. gobool. rewrite !Z.leb_le in *.
    exists ((code a - 0xC0) * 64 + y), s2. split; [apply valid_rune_spec; lia|].
    rewrite encode2 by lia. replace (0xC0 + (code a - 0xC0)) with (code a) by lia.
    by rewrite chr_code. }
  destruct s2 as [|c s3]; [by right|].
  destruct (btw 0xE0 0xEF (code a)) eqn:E3.
  { destruct (second a b) eqn:Eb; [|by right]. destruct (cont c) eqn:Ec; [|by right]. left.
    destruct (second3_bounds a b E3 Eb) as (x & y & -> & -> & Hy & Hx & Hs).
    apply cont_digit in Ec as (z & -> & Hz).
    exists ((x * 64 + y) * 64 + z), s3. split; [apply valid_rune_spec; lia|].
    by rewrite encode3 by lia. }
  destruct s3 as [|d s4]; [by right|].
  destruct (btw 0xF0 0xF4 (code a)) eqn:E4; [|by right].
  destruct (second a b) eqn:Eb; [|by right]. destruct (cont c) eqn:Ec; [|by right].
  destruct (cont d) eqn:Ed; [|by right]. left.
  destruct (second4_bounds a b E4 Eb) as (x & y & -> & -> & Hy & Hx).
  apply cont_digit in Ec as (z & -> & Hz). apply cont_digit in Ed as (w & -> & Hw).
  exists (((x * 64 + y) * 64 + z) * 64 + w), s4. split; [apply valid_rune_spec; lia|].
  by rewrite encode4 by lia.
Qed.

Lemma decode_step a s :
  (exists r t, valid_rune r = true /\ String a s = encode_rune r +:+ t /\
     decode (String a s) = Some r :: decode t) \/
  decode (String a s) = None :: decode s.
Proof.
  destruct (decode_step_bytes a s) as [(r & t & Hv & He)|H]; [left|by right].
  exists r, t. rewrite He, decode_encode by done. done.
Qed.

(** Induction over a string along its decoding. *)
Lemma decode_ind (P : string -> list (option Z) -> Prop) :
  P "" [] ->
  (forall r t, valid_rune r = true -> P t (decode t) -> P (encode_rune r +:+ t) (Some r :: decode t)) ->
  (forall c t, P t (decode t) -> P (String c t) (None :: decode t)) ->
  forall s, P s (decode s).
Proof.
  intros H0 Hr Hb s.
  induction s as [s IH] using (induction_ltof1 _ String.length). unfold ltof in IH.
  destruct s as [|a s]; [exact H0|].
  destruct (decode_step a s) as [(r & t & Hv & He & ->)| ->].
  - rewrite He. apply Hr; [done|]. apply IH. rewrite He, length_append.
    pose proof (len_encode_rune r) as Hl. unfold len, RuneLen in Hl.
    destruct (encode_rune r); simpl in *; [|lia]. revert Hl. bcase.
  - apply Hb. apply IH. simpl. lia.
Qed.

(** ** CleanText, characterised by its runes *)

(** The runes CleanText writes: the undropped ones, as long as they fit. *)
Fixpoint kept (rs : list Z) (n max : Z) : list Z :=
  match rs with
  | [] => []
  | r :: rs' =>
      if dropped r then kept rs' n max
      else if n + RuneLen r >? max then []
      else r :: kept rs' (n + RuneLen r) max
  end.

Definition encode_runes (rs : list Z) : string := foldr (fun r t => encode_rune r +:+ t) "" rs.

Lemma clean_loop_kept rs n max : clean_loop rs n max = encode_runes (kept rs n max).
Proof.
  revert n; induction rs as [|r rs IH]; intros n; simpl; [done|].
  destruct (dropped r); [apply IH|]. destruct (n + RuneLen r >? max); [done|].
  simpl. by rewrite IH.
Qed.

Lemma runes_valid s : Forall (fun r => valid_rune r = true) (runes s).
Proof.
  unfold runes. apply (decode_ind (fun _ l => Forall (fun r => valid_rune r = true) (map (default RuneError) l))).
  - constructor.
  - intros r t Hv IH. by constructor.
  - intros c t IH. by constructor.
Qed.

Lemma decode_encode_runes rs :
  Forall (fun r => valid_rune r = true) rs -> decode (encode_runes rs) = map Some rs.
Proof.
  induction 1 as [|r rs Hv _ IH]; [done|]. simpl. rewrite decode_encode by done. by rewrite IH.
Qed.

Lemma runes_encode_runes rs :
  Forall (fun r => valid_rune r = true) rs -> runes (encode_runes rs) = rs.
Proof.
  intros H. unfold runes. rewrite decode_encode_runes by done.
  rewrite List.map_map. apply map_id.
Qed.

Lemma kept_sub rs n max : Forall (fun r => r ∈ rs /\ dropped r = false) (kept rs n max).
Proof.
  revert n; induction rs as [|r rs IH]; intros n; simpl; [constructor|].
  destruct (dropped r) eqn:E.
  { eapply Forall_impl; [apply IH|]. intros x [? ?]. split; [by right|done]. }
  destruct (n + RuneLen r >? max); [constructor|]. constructor; [split; [left|]; done|].
  eapply Forall_impl; [apply IH|]. intros x [? ?]. split; [by right|done].
Qed.

Lemma kept_valid s n max : Forall (fun r => valid_rune r = true) (kept (runes s) n max).
Proof.
  pose proof (runes_valid s) as Hv. rewrite Forall_forall in Hv.
  eapply Forall_impl; [apply kept_sub|]. intros x [? _]. auto.
Qed.

Lemma RuneLen_pos r : 1 <= RuneLen r <= 4.
Proof. unfold RuneLen. bcase. Qed.

Lemma kept_len rs n max : n <= max -> n + len (encode_runes (kept rs n max)) <= max.
Proof.
  revert n; induction rs as [|r rs IH]; intros n Hn; simpl; [unfold len; simpl; lia|].
  destruct (dropped r); [by apply IH|].
  destruct (Z.gtb_spec (n + RuneLen r) max); [unfold len; simpl; lia|].
  simpl. rewrite len_append, len_encode_rune. specialize (IH (n + RuneLen r)). lia.
Qed.

Lemma kept_idem rs n max : kept (kept rs n max) n max = kept rs n max.
Proof.
  revert n; induction rs as [|r rs IH]; intros n; simpl; [done|].
  destruct (dropped r) eqn:E; [apply IH|].
  destruct (n + RuneLen r >? max) eqn:E2; [done|]. simpl. rewrite E, E2. by rewrite IH.
Qed.

Lemma kept_all rs n max :
  Forall (fun r => dropped r = false) rs -> n + len (encode_runes rs) <= max -> kept rs n max = rs.
Proof.
  intros H. revert n. induction H as [|r rs Hd _ IH]; intros n Hn; simpl in *; [done|].
  rewrite Hd. rewrite len_append, len_encode_rune in Hn.
  pose proof (len_nonneg (encode_runes rs)).
  destruct (Z.gtb_spec (n + RuneLen r) max); [lia|]. by rewrite IH by lia.
Qed.

Lemma runes_CleanText s max : runes (CleanText s max) = kept (runes s) 0 max.
Proof. unfold CleanText. rewrite clean_loop_kept. apply runes_encode_runes, kept_valid. Qed.

Lemma CleanText_valid s max : ValidString (CleanText s max) = true.
Proof.
  unfold ValidString, CleanText. rewrite clean_loop_kept, decode_encode_runes by apply kept_valid.
  induction (kept (runes s) 0 max); simpl; done.
Qed.

(** A valid string is the encoding of its runes. *)
Lemma encode_runes_valid s : ValidString s = true -> encode_runes (runes s) = s.
Proof.
  unfold ValidString, runes.
  apply (decode_ind (fun s l => forallb (fun o => bool_decide (is_Some o)) l = true ->
                                encode_runes (map (default RuneError) l) = s)); simpl.
  - done.
  - intros r t Hv IH H. by rewrite IH.
  - intros c t IH H. discriminate H.
Qed.

Lemma CleanText_id s max :
  CleanText s max = s <->
  ValidString s = true /\ Forall (fun r => dropped r = false) (runes s) /\ (s = "" \/ len s <= max).
Proof.
  split.
  - intros He. rewrite <- He at 1. split; [apply CleanText_valid|]. split.
    + rewrite <- He, runes_CleanText. eapply Forall_impl; [apply kept_sub|]. naive_solver.
    + destruct (Z.le_gt_cases 0 max) as [Hm|Hm].
      * right. rewrite <- He. unfold CleanText. rewrite clean_loop_kept.
        pose proof (kept_len (runes s) 0 max Hm). lia.
      * left. rewrite <- He. unfold CleanText. clear He.
        induction (runes s) as [|r rs IH]; cbn [clean_loop]; [done|].
        destruct (dropped r); [exact IH|]. pose proof (RuneLen_pos r).
        destruct (Z.gtb_spec (0 + RuneLen r) max); [done|lia].
  - intros (Hv & Hd & Hl). destruct (decide (s = "")) as [->|Hne]; [done|].
    unfold CleanText. rewrite clean_loop_kept, kept_all; [by apply encode_runes_valid|done|].
    rewrite encode_runes_valid by done. destruct Hl; [done|lia].
Qed.

Lemma text_spec s max :
  text s max = true <->
  len s <= max /\ ValidString s = true /\ Forall (fun r => dropped r = false) (runes s).
Proof.
  unfold text. rewrite !andb_true_iff, Z.leb_le, bool_decide_eq_true, CleanText_id. naive_solver.
Qed.

Lemma CleanText_len s max : 0 <= max -> len (CleanText s max) <= max.
Proof. intros Hm. unfold CleanText. rewrite clean_loop_kept. pose proof (kept_len (runes s) 0 max Hm). lia. Qed.

Lemma CleanText_idem s max : CleanText (CleanText s max) max = CleanText s max.
Proof.
  unfold CleanText at 1. rewrite runes_CleanText, clean_loop_kept, kept_idem.
  unfold CleanText. by rewrite clean_loop_kept.
Qed.

(** A string has at most as many runes as bytes, and none only when it is empty. *)
Lemma runes_len s : llen (runes s) <= len s /\ (s <> "" -> 1 <= llen (runes s)).
Proof.
  unfold runes, llen. rewrite length_map.
  apply (decode_ind (fun s l => Z.of_nat (List.length l) <= len s /\ (s <> "" -> 1 <= Z.of_nat (List.length l)))).
  - done.
  - intros r t _ [IH _]. rewrite len_append, len_encode_rune. pose proof (RuneLen_pos r).
    cbn [List.length]. split; [lia|]. lia.
  - intros c t [IH _]. unfold len in *. cbn [List.length String.length]. split; [lia|]. lia.
Qed.

(** Whatever an agent sends, the text the server stores is valid UTF-8 of at most
    [max] bytes with no control, separator or bidi-control rune, and cleaning it again
    changes nothing (so a value the adapter already cleaned is stored as it is). *)
Theorem CleanText_safe s max :
  0 <= max ->
  len (CleanText s max) <= max /\
  ValidString (CleanText s max) = true /\
  Forall (fun r => dropped r = false) (runes (CleanText s max)) /\
  CleanText (CleanText s max) max = CleanText s max.
Proof.
  intros Hm. split; [|split; [apply CleanText_valid|split]].
  - by apply CleanText_len.
  - rewrite runes_CleanText. eapply Forall_impl; [apply kept_sub|]. naive_solver.
  - apply CleanText_idem.
Qed.

Lemma CleanText_safe_witness :
  CleanText (String (chr 27) "[31mhi") 5 = "[31mh" /\
  len (CleanText (String (chr 27) "[31mhi") 5) <= 5.
Proof.
  split; [vm_compute; reflexivity|].
  apply (CleanText_safe (String (chr 27) "[31mhi") 5). lia.
Defined.

(** [strings.ToLower], compared with ASCII text only: of the other runes just two have an ASCII
    lower case. *)
Definition lower_rune (r : Z) : Z := if btw 65 90 r then r + 32 else if r =? 0x130 then 105 else if r =? 0x212A then 107 else r.
Definition lower_text (s : string) : string := encode_runes (map lower_rune (runes s)).
