(* ===== verification/Grammar.v ===== *)
(** * Wire grammars

    The identifier grammars of internal/agent/protocol, each the pattern the source
    compiles, and the reference functions built on them (reference.go, the identifier
    predicates of deployment.go, exec.go, kubernetes.go, kubernetes_deploy.go,
    configuration.go and workload.go).  The properties say what a validated identifier
    cannot contain: those values become URL paths on the host's root-equivalent socket. *)
From stdpp Require Import base gmap strings list.
From Stdlib Require Import ZArith Lia Ascii String.
From S2P Require Import Prelude Regex.

Definition hex64 : re := Rep lowhex 64 64.

(** ** reference.go *)

Definition MaxImageReferenceBytes : Z := 512.

Definition imageComponent : re :=
  Cat (Plus (Cls alnum)) (Star (Cat (Cls (oneof "._-")) (Plus (Cls alnum)))).

Definition imageTag : re :=
  Cats [Lit ":"; Cls (either alnum (one "_")); Rep (either alnum (oneof "._-")) 0 127].
Definition imageDigest : re := Cat (Lit "@sha256:") hex64.

Definition imageReference : re :=
  Cats [imageComponent; Opt (Cat (Lit ":") (Plus (Cls digit)));
        Star (Cat (Lit "/") imageComponent); Opt (Alt imageTag imageDigest)].

Definition imageID : re := Cat (Lit "sha256:") hex64.

Definition containerID : re := Cat (Cls alnum) (Rep (either alnum (oneof "_.-")) 0 127).

Definition ValidContainerID (s : string) : bool := re_match containerID s.

Definition containerHexID : re := hex64.
Definition ValidContainerHexID (s : string) : bool := re_match containerHexID s.

Definition ValidImageReference (s : string) : bool :=
  if (len s =? 0) || (len s >? MaxImageReferenceBytes) then false
  else re_match imageReference s || re_match imageID s.

(** [strings.LastIndex] of one byte: -1 when absent. *)
Definition LastIndex (c : ascii) (s : string) : Z :=
  match cut_last c s with Some (a, _) => len a | None => -1 end.

Definition SplitImageReference (s : string) : string * string :=
  match cut_last "@" s with
  | Some (name, tag) => (name, tag)
  | None =>
      match cut_last ":" s with
      | Some (name, tag) =>
          if LastIndex ":" s >? LastIndex "/" s then (name, tag) else (s, "")
      | None => (s, "")
      end
  end.

(** ** exec.go, deployment.go, kubernetes.go, kubernetes_deploy.go, workload.go, configuration.go *)

Definition fullDockerID : re := hex64.
Definition execUserPart : re := Plus (Cls (either alnum (oneof "_.-"))).
Definition execUser : re := Cat execUserPart (Opt (Cat (Lit ":") execUserPart)).
Definition execStreamID : re := Rep (either alnum (oneof "_-")) 1 128.
Definition ValidExecID (id : string) : bool := re_match fullDockerID id.

Definition statusDetail : re := Cat (Cls (range "1" "5")) (Rep digit 2 2).
Definition requestID : re := Rep (either alnum (oneof "_-")) 1 64.
Definition ValidRequestID (id : string) : bool := re_match requestID id.

Definition deploymentUUID : re :=
  Cats [Rep lowhex 8 8; Lit "-"; Rep lowhex 4 4; Lit "-"; Rep lowhex 4 4; Lit "-";
        Rep lowhex 4 4; Lit "-"; Rep lowhex 12 12].
Definition ValidDeploymentID (id : string) : bool := re_match deploymentUUID id.
Definition deploymentProject : re := Cat (Cls alnum) (Rep (either alnum (oneof "_.-")) 0 63).
Definition deploymentService : re := Cat (Cls lowdig) (Rep (either lowdig (oneof "_-")) 0 62).
Definition ValidServiceName (s : string) : bool := re_match deploymentService s.
Definition deploymentEnvName : re :=
  Cat (Cls (either alpha (one "_"))) (Rep (either alnum (one "_")) 0 127).
Definition deploymentVolume : re := Cat (Cls alnum) (Rep (either alnum (oneof "_.-")) 1 128).

Definition dnsLabel : re :=
  Cat (Cls lowdig) (Opt (Cat (Rep (either lowdig (one "-")) 0 61) (Cls lowdig))).
Definition dnsPart : re :=
  Cat (Cls lowdig) (Opt (Cat (Star (Cls (either lowdig (one "-")))) (Cls lowdig))).
Definition dnsSubdomain : re := Cat dnsPart (Star (Cat (Lit ".") dnsPart)).
Definition ValidDNSLabel (s : string) : bool := re_match dnsLabel s.
Definition ValidDNSSubdomain (s : string) : bool := (len s <=? 253) && re_match dnsSubdomain s.

Definition labelValue : re :=
  Opt (Cat (Cls alnum) (Opt (Cat (Rep (either alnum (oneof "-_.")) 0 61) (Cls alnum)))).
Definition ValidLabelValue (s : string) : bool := re_match labelValue s.

Definition rolloutReason : re :=
  Alt (Cats [Alts [Lit "progressing"; Lit "available"; Lit "replicafailure"; Lit "pod"];
             Lit "="; Rep alpha 1 64])
      (Cat (Lit "claim=") (Alt (Lit "Pending") (Lit "Lost"))).
Definition rolloutDetail : re :=
  Opt (Cat rolloutReason
         (Opt (Cat (Cat (Lit ",") rolloutReason) (Opt (Cat (Lit ",") rolloutReason))))).
Definition kubeObject : re :=
  Cats [Alts [Lit "Deployment"; Lit "Service"; Lit "ConfigMap"; Lit "Secret"; Lit "PersistentVolumeClaim"];
        Lit "/"; Cls lowdig; Opt (Cat (Rep (either lowdig (oneof "-.")) 0 241) (Cls lowdig))].

Definition reasonWord : re := Rep alpha 1 64.
Definition listTruncated : re := Cat (Lit "list_truncated:") (Plus (Cls (either lower (one "_")))).
Definition hostConfig : re := Cat (Lit "host_config:") (Rep alnum 1 64).
Definition devicePerms : re := Rep (oneof "rwm") 1 3.
Definition inspectionPlatform : re := Cat (Cls lowdig) (Rep (either lowdig (oneof "_.-")) 0 63).

Definition fullImageID (id : string) : bool :=
  HasPrefix id "sha256:" && re_match fullDockerID (TrimPrefix id "sha256:").

(** ** Properties of references *)

(** The bytes of a reference. *)
Definition refByte : ascii -> bool := either alnum (oneof "._-:/@").

Definition starts_with (p : ascii -> bool) (s : string) : bool :=
  match s with String c _ => p c | EmptyString => false end.

Lemma starts_with_append p a b : starts_with p a = true -> starts_with p (a +:+ b) = true.
Proof. by destruct a. Qed.

Lemma split_at_no_byte c s : contains_byte c s = false -> split_at c s = [s].
Proof.
  unfold contains_byte. induction s as [|x s IH]; simpl; [done|].
  rewrite orb_false_iff, ascii_eqb_sym. intros [-> H]. by rewrite IH.
Qed.

Lemma split_at_sep c a b :
  contains_byte c a = false -> split_at c (a +:+ String c b) = a :: split_at c b.
Proof.
  unfold contains_byte. induction a as [|x a IH]; simpl; [by rewrite ascii_eqb_refl|].
  rewrite orb_false_iff, ascii_eqb_sym. intros [-> H]. by rewrite IH.
Qed.

Lemma contains_byte_append c a b :
  contains_byte c (a +:+ b) = contains_byte c a || contains_byte c b.
Proof. apply str_existsb_append. Qed.

Lemma lang_no_byte r s c : lang r s -> bytes_of r c = false -> contains_byte c s = false.
Proof. intros H ?. by eapply re_match_no_byte, re_match_lang. Qed.

Lemma lang_starts p r s : lang (Cat (Cls p) r) s -> starts_with p s = true.
Proof.
  intros H. apply lang_cat in H as (a & b & -> & Ha & _).
  apply lang_cls in Ha as (c & -> & Hc). done.
Qed.

Lemma component_starts s : lang imageComponent s -> starts_with alnum s = true.
Proof.
  unfold imageComponent. intros H. apply lang_cat in H as (a & b & -> & Ha & _).
  apply starts_with_append. by eapply lang_starts.
Qed.

(** The path components of a slash-separated list: each starts alphanumeric. *)
Lemma path_components w :
  lang (Star (Cat (Lit "/") imageComponent)) w -> forall p t,
  contains_byte "/" p = false -> contains_byte "/" t = false -> starts_with alnum p = true ->
  Forall (fun c => starts_with alnum c = true) (split_at "/" (p +:+ w +:+ t)).
Proof.
  remember (Star (Cat (Lit "/") imageComponent)) as q eqn:Hq. intros H.
  induction H as [| | | | | |r|r a b Ha _ Hb IHb]; simplify_eq; intros p t Hp Ht Hs.
  - change ("" +:+ t) with t. rewrite split_at_no_byte; [|by rewrite contains_byte_append, Hp, Ht].
    constructor; [|constructor]. by apply starts_with_append.
  - apply lang_cat in Ha as (x & c & -> & Hx & Hc). apply (lang_lit "/") in Hx as ->.
    change (("/" +:+ c) +:+ b) with (String "/" (c +:+ b)).
    rewrite <- append_assoc. change (p +:+ String "/" (c +:+ b)) with (p +:+ String "/" (c +:+ b)).
    rewrite append_assoc. change (String "/" (c +:+ b) +:+ t) with (String "/" ((c +:+ b) +:+ t)).
    rewrite split_at_sep by done. constructor; [done|]. rewrite append_assoc.
    apply IHb; try done; [|by apply component_starts].
    by eapply lang_no_byte.
Qed.

Lemma imageReference_components s :
  lang imageReference s -> Forall (fun c => starts_with alnum c = true) (split_at "/" s).
Proof.
  unfold imageReference, Cats. intros H.
  apply lang_cat in H as (c & w & -> & Hc & H). apply lang_cat in H as (p & v & -> & Hp & H).
  apply lang_cat in H as (m & t & -> & Hm & Ht).
  rewrite <- append_assoc. apply path_components; try done.
  - rewrite contains_byte_append. apply orb_false_iff.
    split; [exact (lang_no_byte _ _ "/" Hc eq_refl)|exact (lang_no_byte _ _ "/" Hp eq_refl)].
  - exact (lang_no_byte _ _ "/" Ht eq_refl).
  - apply starts_with_append. by apply component_starts.
Qed.

Lemma refByte_bytes c : bytes_of imageReference c = true -> refByte c = true.
Proof.
  destruct c as [[] [] [] [] [] [] [] []]; vm_compute; done.
Qed.
Lemma imageID_bytes c : bytes_of imageID c = true -> refByte c = true.
Proof.
  destruct c as [[] [] [] [] [] [] [] []]; vm_compute; done.
Qed.

Lemma imageID_no_slash s : re_match imageID s = true -> contains_byte "/" s = false.
Proof. apply re_match_no_byte. done. Qed.

(** A slash-separated component that starts alphanumeric is a plain path segment: not
    empty, not the current directory, not the parent. *)
Definition plain_segment (c : string) : Prop := c <> "" /\ c <> "." /\ c <> "..".

Lemma starts_plain c : starts_with alnum c = true -> plain_segment c.
Proof. intros H. repeat split; intros ->; by vm_compute in H. Qed.

(** A validated image reference is 1 to 512 bytes of Docker's alphabet and none of its
    path segments is empty, [.] or [..], so it names an image and never another Engine API
    route. *)
Theorem ValidImageReference_route s :
  ValidImageReference s = true ->
  1 <= len s <= MaxImageReferenceBytes /\
  str_forallb refByte s = true /\
  Forall plain_segment (split_at "/" s).
Proof.
  unfold ValidImageReference. destruct (_ || _) eqn:E; [done|]. gobool.
  pose proof (len_nonneg s). intros Hm. split; [lia|]. destruct Hm as [Hm|Hm].
  - split.
    + apply re_match_lang, lang_bytes in Hm. eapply str_forallb_mono; [|exact Hm].
      apply refByte_bytes.
    + eapply Forall_impl; [apply imageReference_components; by apply re_match_lang|].
      apply starts_plain.
  - split.
    + apply re_match_lang, lang_bytes in Hm. eapply str_forallb_mono; [|exact Hm].
      apply imageID_bytes.
    + rewrite split_at_no_byte by (by apply imageID_no_slash). constructor; [|constructor].
      repeat split; intros ->; by vm_compute in Hm.
Qed.

Lemma ValidImageReference_route_witness :
  Forall plain_segment (split_at "/" "registry.example:5000/team/app:v1.2").
Proof.
  apply (ValidImageReference_route "registry.example:5000/team/app:v1.2").
  vm_compute. reflexivity.
Defined.

(** ** Splitting a reference *)

Lemma SplitImageReference_join s name tag :
  SplitImageReference s = (name, tag) ->
  (s = name +:+ "@" +:+ tag) \/
  (contains_byte "@" s = false /\ s = name +:+ ":" +:+ tag /\ contains_byte "/" tag = false) \/
  (contains_byte "@" s = false /\ s = name /\ tag = "").
Proof.
  unfold SplitImageReference. destruct (cut_last "@" s) as [[a b]|] eqn:E1.
  - intros [= <- <-]. left. by apply cut_last_spec in E1 as [-> _].
  - apply cut_last_none in E1. destruct (cut_last ":" s) as [[a b]|] eqn:E2.
    2:{ intros [= <- <-]. right. right. done. }
    destruct (Z.gtb_spec (LastIndex ":" s) (LastIndex "/" s)) as [Hgt|Hle].
    2:{ intros [= <- <-]. right. right. done. }
    intros [= <- <-]. right. left. split; [done|].
    pose proof (cut_last_spec _ _ _ _ E2) as [Hs _]. split; [done|].
    unfold LastIndex in Hgt. rewrite E2 in Hgt.
    destruct (cut_last "/" s) as [[x y]|] eqn:E3.
    + apply cut_last_spec in E3 as [Hx Hy].
      destruct (contains_byte "/" b) eqn:Eb; [|done]. exfalso.
      assert (Hlen : len x < len a) by lia. clear -Hs Hx Hy Eb Hlen.
      rewrite Hs in Hx. clear Hs. revert x Hx Hlen. unfold contains_byte, len in *.
      induction a as [|c a IH]; intros x Hx Hlen; [simpl in Hlen; lia|].
      destruct x as [|d x]; simpl in Hx; injection Hx as -> Hx.
      * subst. rewrite str_existsb_append in Hy. simpl in Hy. gobool. congruence.
      * apply (IH x); [done|]. simpl in Hlen. lia.
    + apply cut_last_none in E3. subst s. rewrite contains_byte_append in E3.
      unfold contains_byte in *. simpl in E3. gobool. done.
Qed.

(** Splitting loses nothing: the name, the separator and the tag or digest make up the
    reference again, a tag never contains a slash (so a registry port is not read as a
    tag), and a digest is taken whenever there is one. *)
Theorem SplitImageReference_roundtrip s name tag :
  SplitImageReference s = (name, tag) ->
  (contains_byte "@" s = true /\ s = name +:+ "@" +:+ tag) \/
  (contains_byte "@" s = false /\ s = name +:+ ":" +:+ tag /\ contains_byte "/" tag = false) \/
  (contains_byte "@" s = false /\ s = name /\ tag = "").
Proof.
  intros H. destruct (SplitImageReference_join s name tag H) as [Hs|Hs]; [|by right].
  left. split; [|done]. subst s. rewrite contains_byte_append.
  apply orb_true_iff. by right.
Qed.

Lemma SplitImageReference_roundtrip_witness :
  SplitImageReference "localhost:5000/web:1.2" = ("localhost:5000/web", "1.2") /\
  SplitImageReference "localhost:5000/web" = ("localhost:5000/web", "") /\
  ((contains_byte "@" "localhost:5000/web:1.2" = true /\ "localhost:5000/web:1.2" = "localhost:5000/web" +:+ "@" +:+ "1.2") \/
   (contains_byte "@" "localhost:5000/web:1.2" = false /\ "localhost:5000/web:1.2" = "localhost:5000/web" +:+ ":" +:+ "1.2" /\ contains_byte "/" "1.2" = false) \/
   (contains_byte "@" "localhost:5000/web:1.2" = false /\ "localhost:5000/web:1.2" = "localhost:5000/web" /\ "1.2" = "")).
Proof.
  split; [vm_compute; reflexivity|]. split; [vm_compute; reflexivity|].
  apply SplitImageReference_roundtrip. vm_compute. reflexivity.
Defined.
