(* ===== verification/Preimage.v ===== *)
(** * Signed messages

    internal/agent/protocol/sign.go and the handshake of messages.go: every signature of
    the agent protocol is over a length-prefixed preimage that starts with its context.
    Ed25519 verification and SHA-256 are parameters of the section. *)
From stdpp Require Import base gmap strings list pretty.
From Stdlib Require Import ZArith Lia Ascii String.
From S2P Require Import Prelude Text.

Definition ContextEnroll : string := "kyyard-agent-enroll-v1".
Definition ContextAuth : string := "kyyard-agent-auth-v1".
Definition ContextRotate : string := "kyyard-agent-rotate-v1".
Definition ContextServer : string := "kyyard-server-challenge-v2".
Definition TokenSize : Z := 32.
Definition PublicKeySize : Z := 32.
Definition SignatureSize : Z := 64.
Definition Version : Z := 1.

(** [binary.BigEndian.AppendUint32] of a 32-bit value. *)
Definition be32 (z : Z) : string :=
  String (chr (Z.land (Z.shiftr z 24) 0xFF)) (String (chr (Z.land (Z.shiftr z 16) 0xFF))
    (String (chr (Z.land (Z.shiftr z 8) 0xFF)) (String (chr (Z.land z 0xFF)) ""))).

(** [uint32(n)]. *)
Definition uint32 (n : Z) : Z := n mod 2 ^ 32.

Definition field (f : string) : string := be32 (uint32 (len f)) +:+ f.

Definition Preimage (context : string) (fields : list string) : string :=
  fold_left (fun out f => out +:+ field f) fields (field context).

Definition ChallengePreimage (nonce agentNonce serverHost instanceFingerprint : string) : string :=
  Preimage ContextServer [nonce; agentNonce; serverHost; instanceFingerprint].

Definition AuthPreimage (endpointID nonce serverHost : string) (version : Z) : string :=
  Preimage ContextAuth [endpointID; nonce; serverHost; Itoa version].

Record Challenge := {
  Nonce : string;
  InstanceFingerprint : string;
  Versions : list Z;
  InstanceKey : string;
  ChallengeSignature : string;
}.

Section Crypto.
(** [ed25519.Verify], [ed25519.Sign], a private key's public half, and [sha256.Sum256]. *)
Context {privateKey : Type}.
Variable Verify : string -> string -> string -> bool.
Variable Sign : privateKey -> string -> string.
Variable Public : privateKey -> string.
Variable Sum256 : string -> string.
Variable EncodeToString : string -> string.

Definition Fingerprint (publicKey : string) : string := EncodeToString (Sum256 publicKey).
Definition RawFingerprint (publicKey : string) : string := Sum256 publicKey.

Definition VerifyRotation (currentKey currentRawFingerprint newKey signature : string) : bool :=
  if negb (len currentKey =? PublicKeySize) || negb (len newKey =? PublicKeySize)
     || negb (len signature =? SignatureSize) then false
  else Verify currentKey (Preimage ContextRotate [currentRawFingerprint; newKey]) signature.

Definition VerifyEnrollment (publicKey token proof : string) : bool :=
  if negb (len publicKey =? PublicKeySize) || negb (len token =? TokenSize)
     || negb (len proof =? SignatureSize) then false
  else Verify publicKey (Preimage ContextEnroll [token]) proof.

Definition VerifyAuth (publicKey endpointID nonce serverHost : string) (version : Z)
    (signature : string) : bool :=
  if negb (len publicKey =? PublicKeySize) || negb (len nonce =? 32)
     || negb (len signature =? SignatureSize) then false
  else Verify publicKey (AuthPreimage endpointID nonce serverHost version) signature.

Definition SignChallenge (instance : privateKey) (nonce agentNonce serverHost : string) : Challenge :=
  let pub := Public instance in
  let fp := Fingerprint pub in
  {| Nonce := nonce; InstanceFingerprint := fp; Versions := [Version]; InstanceKey := pub;
     ChallengeSignature := Sign instance (ChallengePreimage nonce agentNonce serverHost fp) |}.

Definition Proven (c : Challenge) (agentNonce serverHost pinned : string) : bool :=
  if negb (len (InstanceKey c) =? PublicKeySize) || negb (len (Nonce c) =? 32)
     || negb (len agentNonce =? 32) || negb (len (ChallengeSignature c) =? SignatureSize)
     || negb (bool_decide (Fingerprint (InstanceKey c) = pinned)) then false
  else Verify (InstanceKey c) (ChallengePreimage (Nonce c) agentNonce serverHost pinned)
         (ChallengeSignature c).
End Crypto.

(** ** The encoding is injective *)

Definition be32_value (s : string) : option (Z * string) :=
  match s with
  | String a (String b (String c (String d t))) =>
      Some (((code a * 256 + code b) * 256 + code c) * 256 + code d, t)
  | _ => None
  end.

Lemma be32_bytes z :
  be32 z = String (chr ((z / 2 ^ 24) mod 256)) (String (chr ((z / 2 ^ 16) mod 256))
             (String (chr ((z / 2 ^ 8) mod 256)) (String (chr (z mod 256)) ""))).
Proof.
  unfold be32. rewrite !Z.shiftr_div_pow2 by lia.
  change 0xFF with (Z.ones 8). rewrite !Z.land_ones by lia. done.
Qed.

Lemma be32_roundtrip z t : 0 <= z < 2 ^ 32 -> be32_value (be32 z +:+ t) = Some (z, t).
Proof.
  intros Hz. rewrite be32_bytes. simpl.
  pose proof (Z.mod_pos_bound (z / 2 ^ 24) 256). pose proof (Z.mod_pos_bound (z / 2 ^ 16) 256).
  pose proof (Z.mod_pos_bound (z / 2 ^ 8) 256). pose proof (Z.mod_pos_bound z 256).
  rewrite !code_chr by lia. do 2 f_equal.
  assert (E1 : z = 256 * (z / 2 ^ 8) + z mod 256) by (apply Z.div_mod; lia).
  assert (E2 : z / 2 ^ 8 = 256 * (z / 2 ^ 16) + (z / 2 ^ 8) mod 256).
  { replace (z / 2 ^ 16) with (z / 2 ^ 8 / 256) by (rewrite Z.div_div by lia; done).
    apply Z.div_mod; lia. }
  assert (E3 : z / 2 ^ 16 = 256 * (z / 2 ^ 24) + (z / 2 ^ 16) mod 256).
  { replace (z / 2 ^ 24) with (z / 2 ^ 16 / 256) by (rewrite Z.div_div by lia; done).
    apply Z.div_mod; lia. }
  rewrite (Z.mod_small (z / 2 ^ 24)); [lia|].
  split; [apply Z.div_pos; lia|]. apply Z.div_lt_upper_bound; lia.
Qed.

Lemma length_be32 z : String.length (be32 z) = 4%nat.
Proof. done. Qed.

Lemma uint32_small n : 0 <= n < 2 ^ 32 -> uint32 n = n.
Proof. apply Z.mod_small. Qed.

(** A message whose fields fit the prefix: less than 4 GiB each. *)
Definition fits (f : string) : Prop := len f < 2 ^ 32.

Lemma field_inj f g s t : fits f -> fits g -> field f +:+ s = field g +:+ t -> f = g /\ s = t.
Proof.
  unfold field, fits. intros Hf Hg He. pose proof (len_nonneg f). pose proof (len_nonneg g).
  rewrite !append_assoc in He.
  apply (f_equal be32_value) in He. rewrite !be32_roundtrip in He by (rewrite uint32_small; lia).
  injection He as Hl He. rewrite !uint32_small in Hl by lia.
  apply append_inv in He; [done|]. unfold len in Hl. lia.
Qed.

Lemma field_nonempty f : field f <> "".
Proof. unfold field. by intros [= ]. Qed.

Lemma Preimage_concat context fields :
  Preimage context fields = field context +:+ foldr (fun f t => field f +:+ t) "" fields.
Proof.
  unfold Preimage. generalize (field context) as acc.
  induction fields as [|f fs IH]; intros acc; simpl; [by rewrite append_nil_r|].
  rewrite IH. by rewrite append_assoc.
Qed.

(** The preimage is injective: two messages whose fields are under 4 GiB have the same
    bytes only if they have the same context and the same fields, so a signature can be
    neither reused under another context nor re-split into other fields. *)
Theorem Preimage_injective c c' fs fs' :
  fits c -> fits c' -> Forall fits fs -> Forall fits fs' ->
  Preimage c fs = Preimage c' fs' -> c = c' /\ fs = fs'.
Proof.
  intros Hc Hc' Hfs Hfs'. rewrite !Preimage_concat. intros He.
  apply field_inj in He as [-> He]; [|done..]. split; [done|].
  revert fs' Hfs' He. induction Hfs as [|f fs Hf _ IH]; intros [|g gs] Hgs He; simpl in He.
  - done.
  - symmetry in He. destruct (field g) eqn:E; [by apply field_nonempty in E|done].
  - destruct (field f) eqn:E; [by apply field_nonempty in E|done].
  - inversion Hgs; subst. apply field_inj in He as [-> He]; [|done..].
    f_equal. by apply IH.
Qed.

Lemma Preimage_injective_witness :
  Preimage ContextAuth ["ab"; "c"] <> Preimage ContextAuth ["a"; "bc"] /\
  (Preimage ContextAuth ["ab"] = Preimage ContextAuth ["ab"] ->
   ContextAuth = ContextAuth /\ ["ab"] = ["ab"]).
Proof.
  split; [vm_compute; discriminate|].
  intros H. apply (Preimage_injective ContextAuth ContextAuth ["ab"] ["ab"]);
    try exact H; repeat constructor.
Defined.

Lemma contexts_fit : fits ContextEnroll /\ fits ContextAuth /\ fits ContextRotate /\ fits ContextServer.
Proof. repeat split; vm_compute; done. Qed.

(** What a key has signed: contexts and fields, each fitting the prefix. *)
Definition log_fits (log : list (string * list string)) : Prop :=
  Forall (fun '(c, fs) => fits c /\ Forall fits fs) log.

(** Unforgeability: a message that verifies under [key] was signed, so its preimage is in
    the key's log. *)
Definition unforgeable (Verify : string -> string -> string -> bool) (key : string)
    (log : list (string * list string)) : Prop :=
  forall msg sig, Verify key msg sig = true ->
    exists c fs, (c, fs) ∈ log /\ msg = Preimage c fs.

Lemma unforgeable_log Verify key log c fs sig :
  log_fits log -> unforgeable Verify key log -> fits c -> Forall fits fs ->
  Verify key (Preimage c fs) sig = true -> (c, fs) ∈ log.
Proof.
  intros Hlog Hunf Hc Hfs Hv. destruct (Hunf _ _ Hv) as (c' & fs' & Hin & He).
  unfold log_fits in Hlog. rewrite Forall_forall in Hlog. destruct (Hlog _ Hin) as [Hc' Hfs'].
  apply Preimage_injective in He as [-> ->]; done.
Qed.

Lemma fits_32 f : len f = 32 -> fits f.
Proof. unfold fits. lia. Qed.

(** An accepted proof is for exactly the values it names.  When the key's owner signed
    only the preimages of its log, an accepted authentication was signed as an
    authentication of this endpoint, nonce, host and version; an accepted enrolment as an
    enrolment with this token; an accepted rotation as a rotation from this fingerprint to
    this new key; an accepted server challenge as a challenge for this agent nonce and
    host.  None can stand in for another or be replayed for other values. *)
Theorem verified_proofs_bind (Verify : string -> string -> string -> bool)
    (Sum256 Encode : string -> string) log key sig :
  log_fits log -> unforgeable Verify key log ->
  (forall endpoint nonce host version, fits endpoint -> fits host -> fits (Itoa version) ->
     VerifyAuth Verify key endpoint nonce host version sig = true ->
     (ContextAuth, [endpoint; nonce; host; Itoa version]) ∈ log) /\
  (forall token, VerifyEnrollment Verify key token sig = true -> (ContextEnroll, [token]) ∈ log) /\
  (forall fp newKey, fits fp -> VerifyRotation Verify key fp newKey sig = true ->
     (ContextRotate, [fp; newKey]) ∈ log) /\
  (forall c agentNonce host pinned, InstanceKey c = key -> fits host -> fits pinned ->
     Proven Verify Sum256 Encode c agentNonce host pinned = true ->
     (ContextServer, [Nonce c; agentNonce; host; pinned]) ∈ log /\
     Fingerprint Sum256 Encode key = pinned).
Proof.
  intros Hlog Hunf. destruct contexts_fit as (Ce & Ca & Cr & Cs).
  split; [|split; [|split]].
  - intros endpoint nonce host version He Hh Hv. unfold VerifyAuth.
    destruct (_ || _) eqn:E; [done|]. gobool. rewrite Z.eqb_eq in *. intros Hok.
    eapply unforgeable_log; try done. repeat constructor; try done. by apply fits_32.
  - intros token. unfold VerifyEnrollment. destruct (_ || _) eqn:E; [done|].
    gobool. rewrite Z.eqb_eq in *. intros Hok.
    eapply unforgeable_log; try done. repeat constructor; try done. by apply fits_32.
  - intros fp newKey Hfp. unfold VerifyRotation. destruct (_ || _) eqn:E; [done|].
    gobool. rewrite Z.eqb_eq in *. intros Hok.
    eapply unforgeable_log; try done. repeat constructor; try done. by apply fits_32.
  - intros c agentNonce host pinned <- Hh Hp. unfold Proven. destruct (_ || _) eqn:E; [done|].
    gobool. rewrite Z.eqb_eq in *. intros Hok. split; [|done].
    eapply unforgeable_log; try done. repeat constructor; try done; by apply fits_32.
Qed.

Lemma verified_proofs_bind_witness :
  let token := "0123456789abcdef0123456789abcdef" in
  let log := [(ContextEnroll, [token])] in
  let Verify := fun (k m s : string) => bool_decide (m = Preimage ContextEnroll [token]) in
  VerifyEnrollment Verify token token (token +:+ token) = true /\ (ContextEnroll, [token]) ∈ log.
Proof.
  intros token log Verify.
  assert (Hok : VerifyEnrollment Verify token token (token +:+ token) = true)
    by (vm_compute; reflexivity).
  split; [exact Hok|].
  refine (proj1 (proj2 (verified_proofs_bind Verify id id log token (token +:+ token) _ _)) token Hok).
  - repeat constructor.
  - intros msg sg H. apply bool_decide_eq_true in H. exists ContextEnroll, [token].
    split; [left|exact H].
Defined.

(** The agent accepts every challenge the server signs for it: with a scheme whose
    signatures verify, and 32-byte keys and 64-byte signatures, a challenge made by
    [SignChallenge] for the dialled host and the agent's nonce is [Proven] against the
    fingerprint of the instance key. *)
Theorem SignChallenge_proven {privateKey : Type} (Verify : string -> string -> string -> bool)
    (Sign : privateKey -> string -> string) (Public : privateKey -> string)
    (Sum256 EncodeToString : string -> string) instance nonce agentNonce host :
  (forall k m, Verify (Public k) m (Sign k m) = true) ->
  (forall k, len (Public k) = PublicKeySize) ->
  (forall k m, len (Sign k m) = SignatureSize) ->
  len nonce = 32 -> len agentNonce = 32 ->
  Proven Verify Sum256 EncodeToString
    (SignChallenge Sign Public Sum256 EncodeToString instance nonce agentNonce host)
    agentNonce host (Fingerprint Sum256 EncodeToString (Public instance)) = true.
Proof.
  intros Hv Hp Hs Hn Ha. unfold Proven, SignChallenge; simpl.
  rewrite Hp, Hs, Hn, Ha. rewrite bool_decide_eq_true_2 by done. simpl. apply Hv.
Qed.

Lemma SignChallenge_proven_witness :
  let n := "0123456789abcdef0123456789abcdef" in
  Proven (fun _ _ _ => true) (fun s => s) (fun s => s)
    (SignChallenge (fun (_ : unit) _ => n +:+ n) (fun _ => n) (fun s => s) (fun s => s) tt n n "h")
    n "h" n = true.
Proof.
  intros n.
  apply (SignChallenge_proven (fun _ _ _ => true) (fun (_ : unit) _ => n +:+ n) (fun _ => n)
           (fun s => s) (fun s => s) tt n n "h"); intros; vm_compute; reflexivity.
Defined.
