(* ===== verification/Permissions.v ===== *)
(** * Authorization matrix

    internal/permissions/permissions.go: actions are strings, a role is a string, and the
    two tables [PlatformAllows] and [Allows] decide. *)
From stdpp Require Import base gmap strings list.
From Stdlib Require Import ZArith Lia String.
From S2P Require Import Prelude.

Abbreviation Action := string (only parsing).

Definition ApplicationAdopt : Action := "application.adopt".
Definition ApplicationRelease : Action := "application.release".
Definition SecretReveal : Action := "secret.reveal".
Definition ApplicationRead : Action := "application.read".
Definition ApplicationImport : Action := "application.import".
Definition ApplicationEdit : Action := "application.edit".
Definition ApplicationDestroy : Action := "application.destroy".
Definition PlatformAdmin : Action := "platform.admin".
Definition OrganizationRead : Action := "organization.read".
Definition MembersManage : Action := "organization.members.manage".
Definition EnvironmentRead : Action := "environment.read".
Definition EnvironmentCreate : Action := "environment.create".
Definition EnvironmentUpdate : Action := "environment.update".
Definition EnvironmentDelete : Action := "environment.delete".
Definition AuditRead : Action := "organization.audit.read".
Definition EndpointRead : Action := "endpoint.read".
Definition EndpointEnroll : Action := "endpoint.enroll".
Definition EndpointUpdate : Action := "endpoint.update".
Definition EndpointRevoke : Action := "endpoint.revoke".
Definition ContainerOperate : Action := "container.operate".
Definition ContainerDestroy : Action := "container.destroy".
Definition ImagePullAction : Action := "image.pull".
Definition ImageDestroy : Action := "image.destroy".
Definition ContainerLogs : Action := "container.logs".
Definition ContainerExec : Action := "container.exec".
Definition ContainerConfigure : Action := "container.configure".
Definition ApplicationDeploy : Action := "application.deploy".
Definition RegistryRead : Action := "registry.read".
Definition RegistryManage : Action := "registry.manage".
Definition ApplicationPolicy : Action := "application.policy".
Definition ApplicationMigrate : Action := "application.migrate".
Definition ServiceTokensManage : Action := "organization.service_tokens.manage".
Definition AgentTokensManage : Action := "organization.agent_tokens.manage".
Definition StatusFeedsManage : Action := "organization.status_feeds.manage".
Definition SuiteRead : Action := "suite.read".
Definition SuiteManage : Action := "suite.manage".

Definition RolePulseReader : string := "pulse_reader".
Definition RoleAgentReader : string := "agent_reader".
Definition RoleAgentOperator : string := "agent_operator".

Definition PlatformAllows (role : string) (action : Action) : bool :=
  bool_decide (role = "admin")
  && (bool_decide (action = PlatformAdmin) || bool_decide (action = SuiteRead)
      || bool_decide (action = SuiteManage)).

(** One [case role: switch action { case ...: return true }] arm per role. *)
Definition grants (role : string) : list Action :=
  if bool_decide (role = "organization_admin") then
    [ApplicationAdopt; ApplicationRelease; SecretReveal; ApplicationRead; ApplicationImport;
     ApplicationEdit; ApplicationDestroy; ApplicationDeploy; ApplicationPolicy; ApplicationMigrate;
     ContainerExec; ContainerConfigure; OrganizationRead; MembersManage; EnvironmentRead;
     EnvironmentCreate; EnvironmentUpdate; EnvironmentDelete; AuditRead; EndpointRead;
     EndpointEnroll; EndpointUpdate; EndpointRevoke; ContainerOperate; ContainerDestroy;
     ImagePullAction; ImageDestroy; ContainerLogs; RegistryRead; RegistryManage;
     ServiceTokensManage; AgentTokensManage; StatusFeedsManage]
  else if bool_decide (role = "environment_admin") then
    [ApplicationAdopt; ApplicationRelease; ApplicationRead; ApplicationImport; ApplicationEdit;
     ApplicationDestroy; ApplicationDeploy; OrganizationRead; EnvironmentRead; EnvironmentCreate;
     EnvironmentUpdate; EnvironmentDelete; EndpointRead; EndpointEnroll; EndpointUpdate;
     EndpointRevoke; ContainerOperate; ContainerDestroy; ImagePullAction; ImageDestroy;
     ContainerLogs; RegistryRead]
  else if bool_decide (role = "operator") then
    [ApplicationRead; OrganizationRead; EnvironmentRead; EndpointRead; ContainerOperate;
     ImagePullAction; ContainerLogs; RegistryRead]
  else if bool_decide (role = "developer") then
    [ApplicationRead; ApplicationEdit; ApplicationDeploy; OrganizationRead; EnvironmentRead;
     EndpointRead; ContainerLogs; RegistryRead]
  else if bool_decide (role = RolePulseReader) then
    [OrganizationRead; EnvironmentRead; EndpointRead; ContainerLogs; AuditRead]
  else if bool_decide (role = RoleAgentReader) then
    [OrganizationRead; EnvironmentRead; EndpointRead; ContainerLogs; ApplicationRead]
  else if bool_decide (role = RoleAgentOperator) then
    [OrganizationRead; EnvironmentRead; EndpointRead; ContainerLogs; ApplicationRead;
     ContainerOperate; ApplicationDeploy]
  else if bool_decide (role = "read_only") then
    [ApplicationRead; OrganizationRead; EnvironmentRead; EndpointRead; RegistryRead]
  else [].

Definition Allows (role : string) (action : Action) : bool := bool_decide (action ∈ grants role).

(** ** Properties *)

(** [r] grants nothing [s] does not. *)
Definition within (r s : string) : Prop := forall a, Allows r a = true -> Allows s a = true.

Lemma within_grants r s :
  forallb (fun a => bool_decide (a ∈ grants s)) (grants r) = true -> within r s.
Proof.
  unfold within, Allows. intros H a Ha%bool_decide_eq_true.
  rewrite forallb_forall in H. apply H. by apply list_elem_of_In.
Qed.

Lemma denied_all role l :
  forallb (fun a => negb (Allows role a)) l = true -> forall a, a ∈ l -> Allows role a = false.
Proof.
  rewrite forallb_forall. intros H a Ha%list_elem_of_In. by apply negb_true_iff, H.
Qed.

(** Actions that destroy, run commands in, reconfigure or reveal. *)
Definition dangerous : list Action :=
  [ContainerDestroy; ImageDestroy; ApplicationDestroy; EnvironmentDelete; EndpointRevoke;
   ApplicationRelease; ContainerExec; ContainerConfigure; SecretReveal; RegistryManage;
   MembersManage; ServiceTokensManage; AgentTokensManage; StatusFeedsManage;
   ApplicationPolicy; ApplicationMigrate; ApplicationEdit; ApplicationImport].

Definition known_roles : list string :=
  ["organization_admin"; "environment_admin"; "operator"; "developer"; RolePulseReader;
   RoleAgentReader; RoleAgentOperator; "read_only"].

Lemma grants_known role a : a ∈ grants role -> role ∈ known_roles.
Proof.
  unfold grants.
  repeat (case_bool_decide; [intros _; subst; apply (bool_decide_eq_true_1 _); vm_compute; reflexivity|]).
  inversion 1.
Qed.

(** The human roles form the hierarchy the matrix documents (read-only below operator
    and developer, both below environment administrator, below organization administrator),
    an agent reader is below an agent operator, and no agent token role and no kyPulse token
    role holds an action that destroys, executes, reconfigures or reveals a secret. *)
Theorem role_hierarchy :
  within "read_only" "operator" /\ within "read_only" "developer" /\
  within "operator" "environment_admin" /\ within "developer" "environment_admin" /\
  within "environment_admin" "organization_admin" /\
  within RoleAgentReader RoleAgentOperator /\ within RolePulseReader "organization_admin" /\
  (forall a, a ∈ dangerous -> Allows RoleAgentOperator a = false /\
     Allows RoleAgentReader a = false /\ Allows RolePulseReader a = false).
Proof.
  repeat split; try (apply within_grants; vm_compute; reflexivity);
    revert a H; apply denied_all; vm_compute; reflexivity.
Qed.

Definition platform_actions : list Action := [PlatformAdmin; SuiteRead; SuiteManage].

Lemma PlatformAllows_spec r a : PlatformAllows r a = true <-> r = "admin" /\ a ∈ platform_actions.
Proof.
  unfold PlatformAllows, platform_actions.
  rewrite andb_true_iff, !orb_true_iff, !bool_decide_eq_true. set_solver.
Qed.

Lemma platform_denied r a : a ∈ platform_actions -> Allows r a = false.
Proof.
  destruct (decide (r ∈ known_roles)) as [Hr|Hr].
  - revert a. apply denied_all. revert r Hr.
    assert (H : forallb (fun r => forallb (fun a => negb (Allows r a)) platform_actions) known_roles = true)
      by (vm_compute; reflexivity).
    rewrite forallb_forall in H. intros r Hr%list_elem_of_In. by apply H.
  - intros _. apply bool_decide_eq_false. intros H. by apply Hr, (grants_known r a).
Qed.

(** An organization role never carries a platform action, the platform table grants
    nothing but the three platform actions and only to ["admin"], and a role outside the
    closed vocabulary is allowed nothing. *)
Theorem platform_separation role action :
  (Allows role action = true -> PlatformAllows "admin" action = false) /\
  (PlatformAllows role action = true -> role = "admin" /\ forall r, Allows r action = false) /\
  (role ∉ known_roles -> Allows role action = false).
Proof.
  split; [|split].
  - intros Ha. apply not_true_iff_false. rewrite PlatformAllows_spec. intros [_ H].
    by rewrite (platform_denied role action H) in Ha.
  - rewrite PlatformAllows_spec. intros [-> H]. split; [done|]. intros r. by apply platform_denied.
  - intros Hr. apply bool_decide_eq_false. intros H. by apply Hr, (grants_known role action).
Qed.

Lemma platform_separation_witness :
  Allows "organization_admin" SuiteManage = false /\ Allows "root" OrganizationRead = false.
Proof.
  assert (Hp : PlatformAllows "admin" SuiteManage = true) by (vm_compute; reflexivity).
  assert (Hr : bool_decide ("root" ∈ known_roles) = false) by (vm_compute; reflexivity).
  split.
  - exact (proj2 (proj1 (proj2 (platform_separation "admin" SuiteManage)) Hp) "organization_admin").
  - exact (proj2 (proj2 (platform_separation "root" OrganizationRead)) (bool_decide_eq_false_1 _ Hr)).
Defined.
