(* ===== verification/KubeNames.v ===== *)
(** * Kubernetes object names

    [protocol.KubernetesNames] (internal/agent/protocol/kubernetes_deploy.go): the name of
    each service's Deployment and Service.  SHA-256 in hex is a parameter. *)
From stdpp Require Import base gmap strings list.
From Stdlib Require Import ZArith Lia Ascii String.
From S2P Require Import Prelude Regex Text Grammar.

Definition MaxKubeObjectName : Z := 63.

(** The rune mapping: lower-case letters and digits stay, capitals are lowered, everything
    else is a dash. *)
Definition slug_rune (r : Z) : Z :=
  if btw 0x61 0x7A r || btw 0x30 0x39 r then r
  else if btw 0x41 0x5A r then r + 0x61 - 0x41
  else 0x2D.

Fixpoint ascii_string (l : list Z) : string :=
  match l with [] => "" | r :: l' => String (chr r) (ascii_string l') end.

Fixpoint trim_left (c : ascii) (s : string) : string :=
  match s with
  | String x s' => if ascii_eqb x c then trim_left c s' else s
  | EmptyString => ""
  end.

(** [strings.TrimRight] of one byte. *)
Fixpoint trim_right (c : ascii) (s : string) : string :=
  match s with
  | EmptyString => ""
  | String x s' =>
      match trim_right c s' with
      | EmptyString => if ascii_eqb x c then "" else String x ""
      | t => String x t
      end
  end.

Definition slug (project s : string) : string :=
  let t := ascii_string (map slug_rune (runes (project +:+ "-" +:+ s))) in
  let t := trim_right "-" (trim_left "-" t) in
  match t with
  | EmptyString => "ky-" +:+ t
  | String c _ => if (code c <? 0x61) || (code c >? 0x7A) then "ky-" +:+ t else t
  end.

Section Names.
(** [hex.EncodeToString(sha256.Sum256(_))]. *)
Variable sum_hex : string -> string.

Definition slug_step (project : string) (p : gmap string string * gmap string Z) (s : string) :
    gmap string string * gmap string Z :=
  let '(base, count) := p in
  let g := slug project s in
  (<[s := g]> base, <[g := default 0 (count !! g) + 1]> count).

Definition base_and_count (project : string) (services : list string) :
    gmap string string * gmap string Z :=
  fold_left (slug_step project) services (∅, ∅).

Definition suffixed (project s name : string) : string :=
  trim_right "-" (take_str (Z.to_nat (Z.min (len name) (MaxKubeObjectName - 7))) name)
    +:+ "-" +:+ take_str 6 (sum_hex (project +:+ "/" +:+ s)).

Definition object_name (project : string) (base : gmap string string) (count : gmap string Z)
    (s : string) : string :=
  let name := default "" (base !! s) in
  if (len name >? MaxKubeObjectName) || (default 0 (count !! name) >? 1)
  then suffixed project s name else name.

Definition KubernetesNames (project : string) (services : list string) : gmap string string :=
  let '(base, count) := base_and_count project services in
  fold_left (fun out s => <[s := object_name project base count s]> out) services ∅.
End Names.

(** ** What the two loops compute *)

Fixpoint occurrences (g : string) (l : list string) : Z :=
  match l with [] => 0 | x :: l' => (if decide (x = g) then 1 else 0) + occurrences g l' end.

Lemma base_and_count_spec project services :
  let '(base, count) := base_and_count project services in
  (forall s, base !! s = if decide (s ∈ services) then Some (slug project s) else None) /\
  (forall g, default 0 (count !! g) = occurrences g (map (slug project) services)).
Proof.
  unfold base_and_count.
  assert (H : forall l b c, let '(base, count) := fold_left (slug_step project) l (b, c) in
    (forall s, base !! s = if decide (s ∈ l) then Some (slug project s) else b !! s) /\
    (forall g, default 0 (count !! g) = default 0 (c !! g) + occurrences g (map (slug project) l))).
  { induction l as [|x l IH]; intros b c; cbn [fold_left map occurrences slug_step].
    - split; [intros s; case_decide; [set_solver|done]|intros g; lia].
    - specialize (IH (<[x:=slug project x]> b)
        (<[slug project x := default 0 (c !! slug project x) + 1]> c)).
      destruct (fold_left (slug_step project) l _) as [base count]. destruct IH as [Hb Hc]. split.
      + intros s. rewrite Hb. destruct (decide (s = x)) as [->|Hne].
        * rewrite lookup_insert_eq. rewrite (decide_True (P := x ∈ x :: l)) by left. by case_decide.
        * rewrite lookup_insert_ne by done. do 2 case_decide; set_solver.
      + intros g. rewrite Hc. case_decide as Hd.
        * rewrite Hd, lookup_insert_eq. simpl. lia.
        * rewrite lookup_insert_ne by done. lia. }
  specialize (H services ∅ ∅).
  destruct (fold_left (slug_step project) services (∅, ∅)) as [base count].
  destruct H as [Hb Hc]. split; intros x; [rewrite Hb|rewrite Hc];
    rewrite lookup_empty; [done|simpl; lia].
Qed.

Definition needs_suffix (project : string) (services : list string) (s : string) : bool :=
  (len (slug project s) >? MaxKubeObjectName)
  || (occurrences (slug project s) (map (slug project) services) >? 1).

Definition name_of (sum_hex : string -> string) (project : string) (services : list string)
    (s : string) : string :=
  if needs_suffix project services s then suffixed sum_hex project s (slug project s)
  else slug project s.

Lemma KubernetesNames_lookup sum_hex project services s :
  KubernetesNames sum_hex project services !! s =
  if decide (s ∈ services) then Some (name_of sum_hex project services s) else None.
Proof.
  unfold KubernetesNames. pose proof (base_and_count_spec project services) as H.
  destruct (base_and_count project services) as [base count]. destruct H as [Hb Hc].
  assert (Hn : forall x, x ∈ services -> object_name sum_hex project base count x = name_of sum_hex project services x).
  { intros x Hx. unfold object_name, name_of, needs_suffix. rewrite Hb. rewrite decide_True by done.
    simpl. by rewrite Hc. }
  assert (H : forall l (out : gmap string string), Forall (fun x => x ∈ services) l ->
    fold_left (fun out s => <[s := object_name sum_hex project base count s]> out) l out !! s =
    if decide (s ∈ l) then Some (name_of sum_hex project services s) else out !! s).
  { induction l as [|x l IH]; intros out Hl; cbn [fold_left]; [case_decide; [set_solver|done]|].
    inversion Hl; subst. rewrite IH by done. destruct (decide (s = x)) as [->|Hne].
    - rewrite lookup_insert_eq, Hn by done. rewrite (decide_True (P := x ∈ x :: l)) by left. by case_decide.
    - rewrite lookup_insert_ne by done. do 2 case_decide; set_solver. }
  rewrite H; [|by apply Forall_forall]. by rewrite lookup_empty.
Qed.

(** ** Names are DNS labels *)

Definition labelByte : ascii -> bool := either lowdig (one "-").

Fixpoint ends_with (p : ascii -> bool) (s : string) : bool :=
  match s with
  | EmptyString => false
  | String c EmptyString => p c
  | String _ s' => ends_with p s'
  end.

Lemma ends_with_append p a b : ends_with p b = true -> ends_with p (a +:+ b) = true.
Proof.
  intros Hb. induction a as [|x a IH]; [done|]. simpl.
  destruct (a +:+ b); [discriminate IH|exact IH].
Qed.

Lemma ends_with_split p s :
  ends_with p s = true -> exists a c, s = a +:+ String c "" /\ p c = true.
Proof.
  induction s as [|x s IH]; [done|]. destruct s as [|y s].
  - intros H. by exists "", x.
  - intros H. destruct (IH H) as (a & c & He & Hc). exists (String x a), c.
    rewrite He. done.
Qed.

Lemma label_intro s :
  str_forallb labelByte s = true -> starts_with lowdig s = true -> ends_with lowdig s = true ->
  len s <= 63 -> ValidDNSLabel s = true.
Proof.
  intros Hb Hs He Hl. apply re_match_lang. destruct s as [|c s]; [done|].
  change (String c s) with (String c "" +:+ s). apply L_cat; [by constructor|].
  apply lang_opt. destruct s as [|d s]; [by left|]. right.
  assert (He' : ends_with lowdig (String d s) = true) by done.
  apply ends_with_split in He' as (a & e & Heq & Hc). rewrite Heq.
  apply L_cat; [|by constructor].
  simpl in Hb. apply andb_true_iff in Hb as [_ Hb].
  change (str_forallb labelByte (String d s) = true) in Hb. rewrite Heq in Hb.
  rewrite str_forallb_append in Hb. apply andb_true_iff in Hb as [Hb _].
  constructor; [|done]. unfold len in Hl. simpl in Hl.
  assert (Hlen : S (String.length s) = (String.length a + 1)%nat).
  { change (S (String.length s)) with (String.length (String d s)). rewrite Heq, length_append. done. }
  lia.
Qed.

Lemma slug_rune_label r : labelByte (chr (slug_rune r)) = true.
Proof.
  unfold slug_rune, labelByte, either, lowdig, either, lower, digit, range, one, btw.
  change (code "a") with 0x61. change (code "z") with 0x7A.
  change (code "0") with 0x30. change (code "9") with 0x39.
  destruct (((0x61 <=? r) && (r <=? 0x7A)) || ((0x30 <=? r) && (r <=? 0x39))) eqn:E1.
  - rewrite orb_true_iff, !andb_true_iff, !Z.leb_le in E1.
    rewrite code_chr by lia. rewrite !orb_true_iff, !andb_true_iff, !Z.leb_le. lia.
  - destruct ((0x41 <=? r) && (r <=? 0x5A)) eqn:E2; [|done].
    rewrite !andb_true_iff, !Z.leb_le in E2.
    rewrite code_chr by lia. rewrite !orb_true_iff, !andb_true_iff, !Z.leb_le. lia.
Qed.

Lemma ascii_string_label l : str_forallb labelByte (ascii_string (map slug_rune l)) = true.
Proof. induction l as [|r l IH]; simpl; [done|]. by rewrite slug_rune_label, IH. Qed.

Lemma trim_left_keep c p s : starts_with p s = true -> p c = false -> trim_left c s = s.
Proof.
  destruct s as [|x s]; [done|]. simpl. intros Hx Hc.
  destruct (ascii_eqb x c) eqn:E; [|done]. gobool. congruence.
Qed.

Lemma trim_right_prefix c s : exists t, s = trim_right c s +:+ t.
Proof.
  induction s as [|x s [t IH]]; [by exists ""|]. simpl.
  destruct (trim_right c s) as [|y u]; [destruct (ascii_eqb x c)|]; simpl in *.
  - exists (String x t). by rewrite IH.
  - exists t. by rewrite IH.
  - exists t. by rewrite IH.
Qed.

Lemma trim_right_starts c p s :
  starts_with p s = true -> p c = false -> starts_with p (trim_right c s) = true.
Proof.
  destruct s as [|x s]; [done|]. simpl. intros Hx Hc.
  destruct (trim_right c s) as [|y t]; [|done].
  destruct (ascii_eqb x c) eqn:E; [|done]. gobool. congruence.
Qed.

Lemma trim_right_ends c s :
  trim_right c s = "" \/ ends_with (fun x => negb (ascii_eqb x c)) (trim_right c s) = true.
Proof.
  induction s as [|x s IH]; [by left|]. simpl. destruct (trim_right c s) as [|y t].
  - destruct (ascii_eqb x c) eqn:E; [by left|]. right. simpl. by rewrite E.
  - right. destruct IH as [?|IH]; [done|]. exact IH.
Qed.

Lemma trim_right_bytes c p s : str_forallb p s = true -> str_forallb p (trim_right c s) = true.
Proof.
  intros H. destruct (trim_right_prefix c s) as [t Ht]. rewrite Ht in H.
  rewrite str_forallb_append in H. by apply andb_true_iff in H as [? _].
Qed.

Lemma take_str_bytes p n s : str_forallb p s = true -> str_forallb p (take_str n s) = true.
Proof.
  intros H. rewrite <- (take_drop_str n s), str_forallb_append in H.
  by apply andb_true_iff in H as [? _].
Qed.

Lemma ends_with_both p q r s :
  (forall c, p c = true -> q c = true -> r c = true) ->
  str_forallb p s = true -> ends_with q s = true -> ends_with r s = true.
Proof.
  intros Hpq Hs He. apply ends_with_split in He as (a & c & -> & Hc).
  rewrite str_forallb_append in Hs. simpl in Hs. gobool.
  apply ends_with_append. simpl. auto.
Qed.

Lemma label_not_dash c : labelByte c = true -> negb (ascii_eqb c "-") = true -> lowdig c = true.
Proof.
  unfold labelByte, either, one. intros H1 H2. apply orb_true_iff in H1 as [H1|H1]; [done|].
  gobool. congruence.
Qed.

Lemma forallb_ends p x h : str_forallb p (String x h) = true -> ends_with p (String x h) = true.
Proof.
  revert x; induction h as [|y h IH]; intros x Hx; simpl in Hx; apply andb_true_iff in Hx as [Hx Hh].
  - exact Hx.
  - exact (IH y Hh).
Qed.

(** The shape of a slug: label bytes, a leading letter, a trailing letter or digit. *)
Record label_shape (s : string) : Prop := {
  shape_bytes : str_forallb labelByte s = true;
  shape_start : starts_with lower s = true;
  shape_end : ends_with lowdig s = true;
}.

Lemma lowdig_code c : lowdig c = true <-> 0x61 <= code c <= 0x7A \/ 0x30 <= code c <= 0x39.
Proof.
  unfold lowdig, either, lower, digit, range. change (code "a") with 0x61. change (code "z") with 0x7A.
  change (code "0") with 0x30. change (code "9") with 0x39.
  rewrite orb_true_iff, !andb_true_iff, !Z.leb_le. done.
Qed.

Lemma lower_code c : lower c = true <-> 0x61 <= code c <= 0x7A.
Proof. unfold lower, range. rewrite andb_true_iff, !Z.leb_le. done. Qed.

Lemma alnum_slug c : alnum c = true -> code c < 0x80 /\ lowdig (chr (slug_rune (code c))) = true.
Proof. destruct c as [[] [] [] [] [] [] [] []]; vm_compute; (discriminate || auto). Qed.

Lemma slug_shape project s : re_match deploymentProject project = true -> label_shape (slug project s).
Proof.
  intros Hp%re_match_lang. apply lang_starts in Hp. destruct project as [|c project]; [done|].
  simpl in Hp. destruct (alnum_slug c Hp) as [Hc Hl].
  unfold slug. set (t := ascii_string _).
  assert (Hb : str_forallb labelByte t = true) by apply ascii_string_label.
  assert (Hs : starts_with lowdig t = true).
  { unfold t, runes. simpl. destruct (Z.ltb_spec (code c) 0x80); [|lia]. exact Hl. }
  clearbody t. rewrite (trim_left_keep "-" lowdig) by done.
  pose proof (trim_right_bytes "-" _ _ Hb) as Hb'.
  pose proof (trim_right_starts "-" lowdig t Hs eq_refl) as Hs'.
  destruct (trim_right_ends "-" t) as [He|He]; [by rewrite He in Hs'|].
  pose proof (ends_with_both _ _ _ _ label_not_dash Hb' He) as He'.
  destruct (trim_right "-" t) as [|x u] eqn:Eu; [done|].
  destruct ((code x <? 0x61) || (code x >? 0x7A)) eqn:Ex.
  - constructor; [|done|by apply (ends_with_append _ "ky-")].
    change ("ky-" +:+ String x u) with (String "k" (String "y" (String "-" (String x u)))).
    simpl in Hb' |- *. by rewrite Hb'.
  - constructor; [done| |done]. simpl. apply lower_code. gobool. lia.
Qed.

(** ** Results *)

Section NamesProperties.
Variable sum_hex : string -> string.
Hypothesis sum_hex_lowhex : forall x, str_forallb lowhex (sum_hex x) = true.
Hypothesis sum_hex_len : forall x, len (sum_hex x) = 64.

Lemma suffix6 x : exists h, take_str 6 (sum_hex x) = h /\ String.length h = 6%nat /\ str_forallb lowhex h = true.
Proof.
  eexists. split; [done|]. split.
  - rewrite length_take_str. specialize (sum_hex_len x). unfold len in sum_hex_len. lia.
  - by apply take_str_bytes.
Qed.

Lemma lowhex_lowdig c : lowhex c = true -> lowdig c = true.
Proof. destruct c as [[] [] [] [] [] [] [] []]; vm_compute; (discriminate || auto). Qed.

Lemma suffixed_shape project s g :
  label_shape g -> label_shape (suffixed sum_hex project s g) /\ len (suffixed sum_hex project s g) <= 63.
Proof.
  intros [Hb Hs He]. unfold suffixed.
  destruct (suffix6 (project +:+ "/" +:+ s)) as (h & -> & Hl & Hh).
  set (n := Z.to_nat _). set (p := trim_right "-" (take_str n g)).
  assert (Hpb : str_forallb labelByte p = true) by (by apply trim_right_bytes, take_str_bytes).
  assert (Hps : starts_with lower p = true).
  { apply trim_right_starts; [|done]. unfold n. destruct g as [|c g]; [done|].
    assert (1 <= Z.min (len (String c g)) (MaxKubeObjectName - 7))
      by (unfold len, MaxKubeObjectName; simpl; lia).
    destruct (Z.to_nat _) eqn:E; [lia|]. done. }
  assert (Hh' : str_forallb lowdig h = true) by (eapply str_forallb_mono; [apply lowhex_lowdig|done]).
  assert (Hhl : str_forallb labelByte h = true).
  { eapply str_forallb_mono; [|exact Hh']. intros c Hc. unfold labelByte, either. by rewrite Hc. }
  split; [constructor|].
  - rewrite !str_forallb_append, Hpb, Hhl. done.
  - by apply starts_with_append.
  - apply ends_with_append. change ("-" +:+ h) with (String "-" h).
    destruct h as [|x h]; [done|].
    change (String "-" (String x h)) with ("-" +:+ String x h).
    by apply ends_with_append, forallb_ends.
  - rewrite !len_append. assert (Hph : len p <= 56).
    { destruct (trim_right_prefix "-" (take_str n g)) as [t Ht]. fold p in Ht.
      pose proof (f_equal String.length Ht) as Hlen.
      rewrite length_append, length_take_str in Hlen. unfold len. unfold n, MaxKubeObjectName in *. lia. }
    unfold len in *. simpl String.length. lia.
Qed.

(** Every service of a valid request gets a name, and it is a DNS-1123 label that
    starts with a letter (as a Service name must) of at most 63 characters. *)
Theorem KubernetesNames_valid project services s :
  re_match deploymentProject project = true -> s ∈ services ->
  exists name, KubernetesNames sum_hex project services !! s = Some name /\
    ValidDNSLabel name = true /\ starts_with lower name = true /\ len name <= MaxKubeObjectName.
Proof.
  intros Hp Hs. rewrite KubernetesNames_lookup, decide_True by done. eexists; split; [done|].
  pose proof (slug_shape project s Hp) as Hg. unfold name_of.
  destruct (needs_suffix project services s) eqn:E.
  - destruct (suffixed_shape project s _ Hg) as [[Hb Hst He] Hl].
    split; [|done]. apply label_intro; try done.
    destruct (suffixed sum_hex project s (slug project s)); [done|]. simpl in *. unfold lowdig, either. by rewrite Hst.
  - unfold needs_suffix in E. apply orb_false_iff in E as [E _]. destruct Hg as [Hb Hst He].
    assert (len (slug project s) <= 63) by (unfold MaxKubeObjectName in E; lia).
    split; [|done]. apply label_intro; try done.
    destruct (slug project s); [done|]. simpl in *. unfold lowdig, either. by rewrite Hst.
Qed.
End NamesProperties.

Definition hex0 (x : string) : string :=
  "00000000000000000000000000000000000000000000000000000000000000ff".

Lemma KubernetesNames_valid_witness :
  exists name, KubernetesNames hex0 "Shop.v2" ["a_b"; "a-b"] !! "a_b" = Some name /\
    ValidDNSLabel name = true /\ starts_with lower name = true /\ len name <= MaxKubeObjectName.
Proof.
  apply (KubernetesNames_valid hex0).
  - intros x. vm_compute. reflexivity.
  - intros x. vm_compute. reflexivity.
  - vm_compute. reflexivity.
  - left.
Defined.

(** ** When two names meet *)

Lemma occurrences_nonneg g l : 0 <= occurrences g l.
Proof. induction l; cbn [occurrences]; [lia|case_decide; lia]. Qed.

Lemma occurrences_pos g l : g ∈ l -> 1 <= occurrences g l.
Proof.
  induction l as [|x l IH]; [set_solver|]. intros [->|H]%elem_of_cons; cbn [occurrences].
  - rewrite decide_True by done. pose proof (occurrences_nonneg x l). lia.
  - specialize (IH H). case_decide; lia.
Qed.

Lemma occurrences_two (f : string -> string) l s t :
  s ∈ l -> t ∈ l -> s <> t -> f s = f t -> 2 <= occurrences (f s) (map f l).
Proof.
  intros Hs Ht Hne Heq. induction l as [|x l IH]; [set_solver|].
  assert (Hin : forall y, y ∈ l -> f y ∈ map f l) by (intros y Hy; apply list_elem_of_fmap; eauto).
  assert (Hpos : forall y, y ∈ l -> f y = f s -> 1 <= occurrences (f s) (map f l)).
  { intros y Hy <-. by apply occurrences_pos, Hin. }
  cbn [map occurrences]. pose proof (occurrences_nonneg (f s) (map f l)).
  apply elem_of_cons in Hs; apply elem_of_cons in Ht.
  destruct Hs as [<-|Hs]; destruct Ht as [<-|Ht]; try done.
  - rewrite decide_True by done. specialize (Hpos t Ht (eq_sym Heq)). lia.
  - rewrite decide_True by done. specialize (Hpos s Hs eq_refl). lia.
  - specialize (IH Hs Ht). case_decide; lia.
Qed.

(** Two services share a name only when one of them carries the digest suffix: names
    taken from the slug alone are distinct. *)
Theorem KubernetesNames_distinct sum_hex project services s t name :
  KubernetesNames sum_hex project services !! s = Some name ->
  KubernetesNames sum_hex project services !! t = Some name ->
  s <> t ->
  name = suffixed sum_hex project s (slug project s) \/
  name = suffixed sum_hex project t (slug project t).
Proof.
  rewrite !KubernetesNames_lookup. repeat case_decide; try done.
  intros [= <-] [= Heq] Hne. revert Heq. unfold name_of.
  destruct (needs_suffix project services s) eqn:E; [by left|].
  destruct (needs_suffix project services t); [by right|].
  intros Heq. exfalso. unfold needs_suffix in E. apply orb_false_iff in E as [_ E].
  pose proof (occurrences_two (slug project) services s t H H0 Hne (eq_sym Heq)). lia.
Qed.

Lemma KubernetesNames_distinct_witness :
  let sum := fun x => if decide (x = "p/a_b") then "aaaaaabb" else "ccccccdd" in
  KubernetesNames sum "p" ["a_b"; "a-b"; "a-b-aaaaaa"] !! "a_b" = Some "p-a-b-aaaaaa" /\
  ("p-a-b-aaaaaa" = suffixed sum "p" "a_b" (slug "p" "a_b") \/
   "p-a-b-aaaaaa" = suffixed sum "p" "a-b-aaaaaa" (slug "p" "a-b-aaaaaa")).
Proof.
  intros sum. assert (H1 : KubernetesNames sum "p" ["a_b"; "a-b"; "a-b-aaaaaa"] !! "a_b" = Some "p-a-b-aaaaaa")
    by (vm_compute; reflexivity).
  split; [exact H1|].
  apply (KubernetesNames_distinct sum "p" ["a_b"; "a-b"; "a-b-aaaaaa"]); [exact H1|vm_compute; reflexivity|discriminate].
Defined.

Lemma slug_rune_id c : labelByte c = true -> slug_rune (code c) = code c /\ code c < 0x80.
Proof. destruct c as [[] [] [] [] [] [] [] []]; vm_compute; (discriminate || auto). Qed.

Lemma slug_bytes_id s :
  str_forallb labelByte s = true -> ascii_string (map slug_rune (runes s)) = s.
Proof.
  unfold runes. induction s as [|c s IH]; [done|]. simpl. intros H.
  apply andb_true_iff in H as [Hc Hs]. destruct (slug_rune_id c Hc) as [He Hlt].
  destruct (Z.ltb_spec (code c) 0x80); [|lia]. simpl. rewrite He, chr_code. by rewrite IH.
Qed.

Lemma trim_right_id p c s : p c = false -> ends_with p s = true -> trim_right c s = s.
Proof.
  intros Hc. induction s as [|x s IH]; [done|]. destruct s as [|y s].
  - simpl. intros Hx. destruct (ascii_eqb x c) eqn:E; [|done]. gobool. congruence.
  - intros He. cbn [trim_right]. change (trim_right c (String y s)) with (trim_right c (String y s)).
    specialize (IH He). cbn [trim_right] in IH |- *. by rewrite IH.
Qed.

(** A project and service that already read as a label slug to themselves. *)
Lemma slug_plain project s :
  str_forallb labelByte (project +:+ "-" +:+ s) = true ->
  starts_with lower (project +:+ "-" +:+ s) = true ->
  ends_with lowdig (project +:+ "-" +:+ s) = true ->
  slug project s = project +:+ "-" +:+ s.
Proof.
  unfold slug. set (t := project +:+ "-" +:+ s). intros Hb Hs He.
  rewrite slug_bytes_id by done. rewrite (trim_left_keep "-" lower), (trim_right_id lowdig) by done.
  clearbody t. destruct t as [|c t]; [done|]. simpl in Hs. apply lower_code in Hs.
  destruct (Z.ltb_spec (code c) 0x61); [lia|]. destruct (Z.gtb_spec (code c) 0x7A); [lia|]. done.
Qed.

(** The documentation of [KubernetesNames] says its suffix makes every name distinct.
    It does not: for every digest function there are three distinct valid service names of
    which two get the same object name, because a service may itself be called what another
    service's suffixed name reads as. *)
Theorem KubernetesNames_collision sum_hex :
  (forall x, str_forallb lowhex (sum_hex x) = true) -> (forall x, len (sum_hex x) = 64) ->
  exists services s t name,
    NoDup services /\ Forall (fun x => ValidServiceName x = true) services /\ s <> t /\
    KubernetesNames sum_hex "p" services !! s = Some name /\
    KubernetesNames sum_hex "p" services !! t = Some name.
Proof.
  intros Hhex Hlen. destruct (suffix6 sum_hex Hhex Hlen "p/a_b") as (h & Hh & Hl & Hhx).
  assert (Hh' : str_forallb lowdig h = true) by (eapply str_forallb_mono; [apply lowhex_lowdig|done]).
  assert (Hhb : str_forallb labelByte h = true).
  { eapply str_forallb_mono; [|exact Hh']. intros c Hc. unfold labelByte, either. by rewrite Hc. }
  assert (Hslug : slug "p" ("a-b-" +:+ h) = "p-a-b-" +:+ h).
  { apply slug_plain; [exact Hhb|done|]. destruct h as [|x h]; [done|].
    by apply (ends_with_append _ "p-a-b-"), forallb_ends. }
  exists ["a_b"; "a-b"; "a-b-" +:+ h], "a_b", ("a-b-" +:+ h), ("p-a-b-" +:+ h).
  split; [|split; [|split; [|split]]].
  - repeat constructor; rewrite ?elem_of_cons; try (intros [H|[H|H]]; done || by apply list_elem_of_nil in H).
    + set_solver.
    + set_solver.
    + set_solver.
  - repeat constructor; try (vm_compute; reflexivity). apply re_match_lang.
    change ("a-b-" +:+ h) with ("a" +:+ ("-b-" +:+ h)). apply L_cat; [by constructor|].
    constructor; [rewrite length_append, Hl; simpl; lia|]. rewrite str_forallb_append.
    apply andb_true_iff. split; [done|]. eapply str_forallb_mono; [|exact Hh'].
    intros c Hc. unfold either. by rewrite Hc.
  - done.
  - rewrite KubernetesNames_lookup, decide_True by left. f_equal. unfold name_of, needs_suffix.
    cbn [map occurrences]. change (slug "p" "a_b") with "p-a-b". change (slug "p" "a-b") with "p-a-b".
    rewrite !decide_True by done. pose proof (occurrences_nonneg "p-a-b" []).
    destruct (_ || _) eqn:E; [|rewrite orb_false_iff in E; destruct E as [_ E]; case_decide; cbn [occurrences] in E; lia].
    unfold suffixed. change ("p" +:+ "/" +:+ "a_b") with "p/a_b". by rewrite Hh.
  - rewrite KubernetesNames_lookup, decide_True by set_solver. f_equal. unfold name_of, needs_suffix.
    rewrite Hslug. cbn [map occurrences]. change (slug "p" "a_b") with "p-a-b". change (slug "p" "a-b") with "p-a-b".
    rewrite Hslug. rewrite !(decide_False (P := "p-a-b" = _)) by (destruct h; done).
    rewrite decide_True by done. rewrite len_append. unfold len at 2. rewrite Hl. done.
Qed.

Lemma KubernetesNames_collision_witness :
  exists services s t name,
    NoDup services /\ Forall (fun x => ValidServiceName x = true) services /\ s <> t /\
    KubernetesNames hex0 "p" services !! s = Some name /\
    KubernetesNames hex0 "p" services !! t = Some name.
Proof. apply (KubernetesNames_collision hex0); intros x; vm_compute; reflexivity. Defined.
