(* ===== verification/NetIP.v ===== *)
(** * IP addresses

    Go's [netip.ParseAddr], which the protocol's validators call on host and cluster
    addresses: dotted IPv4 without leading zeros, IPv6 with an optional [::], an optional
    dotted tail and an optional zone. *)
From Stdlib Require Import ZArith Lia Ascii String.
From stdpp Require Import base strings list.
From S2P Require Import Prelude.
From S2P Require Import Text.

Record Addr := mkAddr { addr_is4 : bool; addr_bytes : list Z; addr_zone : string }.

Definition is_digit (c : ascii) : bool := btw 48 57 (code c).

(** [parseIPv4Fields]: [val] and [digits] of the current octet, [prev] whether the last byte
    was a dot or there was none, [fields] the octets read. *)
Fixpoint ipv4_loop (s : string) (val digits : Z) (fields : list Z) : option (list Z) :=
  match s with
  | EmptyString => if bool_decide (length fields = 3%nat) && (digits >? 0) then Some (fields ++ [val]) else None
  | String c s' =>
      if is_digit c then
        if (digits =? 1) && (val =? 0) then None
        else
          let v := val * 10 + (code c - 48) in
          if v >? 255 then None else ipv4_loop s' v (digits + 1) fields
      else if ascii_eqb c "." then
        if (digits =? 0) || bool_decide (s' = "") || bool_decide (length fields = 3%nat) then None
        else ipv4_loop s' 0 0 (fields ++ [val])
      else None
  end.
Definition parseIPv4Fields (s : string) : option (list Z) := ipv4_loop s 0 0 [].

Definition hex_value (c : ascii) : option Z :=
  if is_digit c then Some (code c - 48)
  else if btw 97 102 (code c) then Some (code c - 97 + 10)
  else if btw 65 70 (code c) then Some (code c - 65 + 10)
  else None.

(** The hex digits at the head of [s]: their value, their number and the rest; [None] past
    four digits. *)
Fixpoint hex_group (s : string) (acc digits : Z) : option (Z * Z * string) :=
  match s with
  | EmptyString => Some (acc, digits, s)
  | String c s' =>
      match hex_value c with
      | Some d => if digits >? 3 then None else hex_group s' (acc * 16 + d) (digits + 1)
      | None => Some (acc, digits, s)
      end
  end.

(** The group loop: [out] the bytes so far, [ell] the position of [::].  Each round consumes
    two of the sixteen bytes, so eight rounds are all there are. *)
Fixpoint ipv6_loop (fuel : nat) (s : string) (out : list Z) (ell : option Z)
    : option (string * list Z * option Z) :=
  match fuel with
  | O => Some (s, out, ell)
  | S f =>
      if llen out >=? 16 then Some (s, out, ell)
      else
      match hex_group s 0 0 with
      | None => None
      | Some (acc, digits, rest) =>
          if digits =? 0 then None
          else match rest with
          | String "."%char _ =>
              if bool_decide (ell = None) && negb (llen out =? 12) then None
              else if llen out + 4 >? 16 then None
              else match parseIPv4Fields s with
                   | Some fs => Some ("", out ++ fs, ell)
                   | None => None
                   end
          | _ =>
              let out' := out ++ [acc / 256; acc mod 256] in
              match rest with
              | EmptyString => Some ("", out', ell)
              | String c rest1 =>
                  if negb (ascii_eqb c ":") then None
                  else match rest1 with
                  | EmptyString => None
                  | String ":"%char rest2 =>
                      match ell with
                      | Some _ => None
                      | None =>
                          if bool_decide (rest2 = "") then Some ("", out', Some (llen out'))
                          else ipv6_loop f rest2 out' (Some (llen out'))
                      end
                  | _ => ipv6_loop f rest1 out' ell
                  end
              end
          end
      end
  end.

Definition zeros (n : Z) : list Z := repeat 0 (Z.to_nat n).

(** After the loop: the whole text used, and [::] expanded to at least one group. *)
Definition ipv6_finish (zone s : string) (out : list Z) (ell : option Z) : option Addr :=
  if negb (bool_decide (s = "")) then None
  else if llen out <? 16 then
    match ell with
    | Some e => Some (mkAddr false (take (Z.to_nat e) out ++ zeros (16 - llen out) ++ drop (Z.to_nat e) out) zone)
    | None => None
    end
  else if bool_decide (ell = None) then Some (mkAddr false out zone) else None.

Definition parseIPv6 (s : string) : option Addr :=
  let '(s, zone, bad) :=
    match cut_at "%" s with
    | Some (a, z) => (a, z, bool_decide (z = ""))
    | None => (s, "", false)
    end in
  if bad then None
  else
    let '(s, ell) :=
      match s with
      | String ":"%char (String ":"%char s') => (s', Some 0)
      | _ => (s, None)
      end in
    if bool_decide (ell = Some 0) && bool_decide (s = "") then Some (mkAddr false (zeros 16) zone)
    else match ipv6_loop 8 s [] ell with
         | Some (rest, out, ell') => ipv6_finish zone rest out ell'
         | None => None
         end.

(** The first of [. : %] decides. *)
Fixpoint addr_kind (s : string) : option ascii :=
  match s with
  | EmptyString => None
  | String c s' => if ascii_eqb c "." || ascii_eqb c ":" || ascii_eqb c "%" then Some c else addr_kind s'
  end.

Definition ParseAddr (s : string) : option Addr :=
  match addr_kind s with
  | Some c =>
      if ascii_eqb c "." then option_map (fun fs => mkAddr true fs "") (parseIPv4Fields s)
      else if ascii_eqb c ":" then parseIPv6 s
      else None
  | None => None
  end.

Example parse_v4 : ParseAddr "10.0.0.1" = Some (mkAddr true [10; 0; 0; 1] "").
Proof. reflexivity. Qed.
Example parse_v4_zero : ParseAddr "10.00.0.1" = None /\ ParseAddr "1.2.3" = None /\ ParseAddr "256.1.1.1" = None.
Proof. split; [|split]; reflexivity. Qed.
Example parse_v6 : option_map addr_bytes (ParseAddr "fe80::1:2%eth0") = Some [254; 128; 0; 0; 0; 0; 0; 0; 0; 0; 0; 0; 0; 1; 0; 2].
Proof. reflexivity. Qed.
Example parse_v6_any : option_map addr_bytes (ParseAddr "::") = Some (zeros 16) /\ ParseAddr ":::" = None /\ ParseAddr "1::2::3" = None.
Proof. split; [|split]; reflexivity. Qed.
Example parse_v6_mapped : option_map addr_bytes (ParseAddr "::ffff:1.2.3.4") = Some (zeros 10 ++ [255; 255; 1; 2; 3; 4]).
Proof. reflexivity. Qed.

(** ** Shape

    A parsed address has its four or sixteen bytes. *)
Lemma ipv4_loop_ok s val digits fields l :
  0 <= val <= 255 -> Forall (fun b => 0 <= b <= 255) fields ->
  ipv4_loop s val digits fields = Some l -> length l = 4%nat /\ Forall (fun b => 0 <= b <= 255) l.
Proof.
  revert val digits fields; induction s as [|c s IH]; intros val digits fields Hv Hf; simpl.
  - case_bool_decide as H3; [|done]. destruct (digits >? 0); [|done]. intros [= <-].
    rewrite length_app, H3. split; [done|]. apply Forall_app. auto.
  - destruct (is_digit c) eqn:Hd.
    + destruct (_ && _); [done|]. destruct (Z.gtb_spec (val * 10 + (code c - 48)) 255); [done|].
      unfold is_digit, btw in Hd. apply andb_true_iff in Hd. rewrite !Z.leb_le in Hd. apply IH; [lia|done].
    + destruct (ascii_eqb c "."); [|done]. destruct (_ || _); [done|]. apply IH; [lia|]. apply Forall_app. auto.
Qed.

(** ** Text and classes *)

(** The eight 16-bit groups of an IPv6 address. *)
Fixpoint groups (l : list Z) : list Z :=
  match l with a :: b :: l' => a * 256 + b :: groups l' | _ => [] end.

Definition is_zero_group (g : Z) : bool := g =? 0.
Fixpoint zero_run (l : list Z) : Z :=
  match l with g :: l' => if is_zero_group g then 1 + zero_run l' else 0 | [] => 0 end.

(** The first longest run of at least two zero groups: its start and its end. *)
Fixpoint longest_run (i : Z) (l : list Z) (best : Z * Z) : Z * Z :=
  match l with
  | [] => best
  | _ :: l' =>
      let n := zero_run l in
      longest_run (i + 1) l' (if (n >=? 2) && (n >? best.2 - best.1) then (i, i + n) else best)
  end.

Definition hex_char (d : Z) : ascii := if d <? 10 then chr (48 + d) else chr (87 + d).
(** [appendHex]: no leading zeros. *)
Definition hex_text (g : Z) : string :=
  (if g >=? 4096 then String (hex_char (g / 4096)) "" else "") +:+
  (if g >=? 256 then String (hex_char (g / 256 mod 16)) "" else "") +:+
  (if g >=? 16 then String (hex_char (g / 16 mod 16)) "" else "") +:+ String (hex_char (g mod 16)) "".

(** [appendTo6]'s loop at group [i]; a compressed run prints once, at its start. *)
Fixpoint groups_text (i : Z) (l : list Z) (run : Z * Z) : string :=
  match l with
  | [] => ""
  | g :: l' =>
      (if (run.1 <=? i) && (i <? run.2) then (if i =? run.1 then "::" else "")
       else (if (0 <? i) && negb (i =? run.2) then ":" else "") +:+ hex_text g)
      +:+ groups_text (i + 1) l' run
  end.

Definition ipv4_text (l : list Z) : string := join "." (map Itoa l).

Definition Is4In6 (a : Addr) : bool :=
  negb (addr_is4 a) && bool_decide (take 12 (addr_bytes a) = zeros 10 ++ [255; 255]).

Definition addr_string (a : Addr) : string :=
  if addr_is4 a then ipv4_text (addr_bytes a)
  else
    (if Is4In6 a then "::ffff:" +:+ ipv4_text (drop 12 (addr_bytes a))
     else groups_text 0 (groups (addr_bytes a)) (longest_run 0 (groups (addr_bytes a)) (255, 255)))
    +:+ (if bool_decide (addr_zone a = "") then "" else "%" +:+ addr_zone a).

Definition byte_at (a : Addr) (i : nat) : Z := nth i (addr_bytes a) 0.
Definition IsUnspecified (a : Addr) : bool :=
  bool_decide (addr_bytes a = if addr_is4 a then zeros 4 else zeros 16) && bool_decide (addr_zone a = "").

(** On addresses that are not 4-in-6, where the releases of Go agree. *)
Definition IsLoopback (a : Addr) : bool :=
  if addr_is4 a then byte_at a 0 =? 127
  else bool_decide (addr_bytes a = zeros 15 ++ [1]) && bool_decide (addr_zone a = "").
Definition IsMulticast (a : Addr) : bool :=
  if addr_is4 a then btw 224 239 (byte_at a 0) else byte_at a 0 =? 255.
Definition IsLinkLocalUnicast (a : Addr) : bool :=
  if addr_is4 a then (byte_at a 0 =? 169) && (byte_at a 1 =? 254)
  else (byte_at a 0 =? 254) && btw 128 191 (byte_at a 1).
Definition IsGlobalUnicast (a : Addr) : bool :=
  negb (addr_is4 a && (bool_decide (addr_bytes a = zeros 4) || bool_decide (addr_bytes a = [255; 255; 255; 255])))
  && negb (negb (addr_is4 a) && IsUnspecified a) && negb (IsLoopback a) && negb (IsMulticast a)
  && negb (IsLinkLocalUnicast a).

Example string_v4 : option_map addr_string (ParseAddr "10.0.0.1") = Some "10.0.0.1".
Proof. vm_compute. reflexivity. Qed.
Example string_v6 : map (option_map addr_string) [ParseAddr "2001:DB8:0:0:1:0:0:1"; ParseAddr "0:0:0:0:0:0:0:0"; ParseAddr "1:0:0:2:0:0:0:3"; ParseAddr "1:2:3:4:5:6:7:0"; ParseAddr "fe80::"; ParseAddr "::ffff:1.2.3.4"]
  = [Some "2001:db8::1:0:0:1"; Some "::"; Some "1:0:0:2::3"; Some "1:2:3:4:5:6:7:0"; Some "fe80::"; Some "::ffff:1.2.3.4"].
Proof. vm_compute. reflexivity. Qed.
