(* ===== verification/Inspection.v ===== *)
(** * Inspections

    internal/agent/protocol/inspection.go and workload.go: what an agent answers about one
    container or one Deployment, and the validators every answer passes before the server
    uses it.  [PodContainer] and [Port] are those of kubernetes.go and inventory.go;
    [WorkloadRef.validObject], [ParseWorkloadRef] and [String] of kubernetes_workloads.go.

    A nil slice and an empty one are the same list. *)
From Stdlib Require Import ZArith Lia Ascii String.
From stdpp Require Import base gmap strings list.
From S2P Require Import Prelude.
From S2P Require Import Regex.
From S2P Require Import Text.
From S2P Require Import NetIP.
From S2P Require Import Grammar.

Definition RuntimeDocker : string := "docker".
Definition RuntimeKubernetes : string := "kubernetes".
Definition MaxPodContainers : Z := 32.
Definition MaxWorkloadConditions : Z := 8.
Definition MaxWorkloadPods : Z := MaxPodContainers * 4.
Definition MaxInspectionEntries : Z := 64.
Definition InspectionLifetime : Z := 25 * Second.
Definition MaxRestartCount : Z := 1000000.
Definition MaxUnsupported : Z := 40.

(** ** Workloads *)

Record WorkloadRef := mkRef { w_namespace : string; w_kind : string; w_name : string; w_uid : string }.
#[export] Instance WorkloadRef_eq_dec : EqDecision WorkloadRef.
Proof. solve_decision. Defined.
Definition no_workload : WorkloadRef := mkRef "" "" "" "".

Record PodContainer := mkPodContainer {
  pc_name : string; pc_image : string; pc_image_id : string; pc_state : string;
  pc_reason : string; pc_ready : bool; pc_restarts : Z }.
Record PodStatus := mkPod {
  pod_name : string; pod_uid : string; pod_phase : string; pod_containers : list PodContainer }.
Record WorkloadCondition := mkCondition { cond_type : string; cond_status : string; cond_reason : string }.
Record WorkloadStatus := mkStatus {
  ws_uid : string; ws_generation : Z; ws_observed : Z; ws_desired : Z; ws_updated : Z;
  ws_ready : Z; ws_available : Z; ws_conditions : list WorkloadCondition;
  ws_pods : list PodStatus; ws_missing : bool }.

Definition workloadKinds : list string := ["deployment"; "statefulset"; "daemonset"; "pod"].
Definition conditionStatus : list string := ["True"; "False"; "Unknown"].
Definition podPhase : list string := ["Pending"; "Running"; "Succeeded"; "Failed"; "Unknown"].
Definition containerState : list string := ["running"; "waiting"; "terminated"].

Definition ref_valid (w : WorkloadRef) : bool :=
  bool_decide (w_kind w = "") && ValidDNSLabel (w_namespace w) && ValidDNSLabel (w_name w)
  && re_match deploymentUUID (w_uid w).

Definition validObject (w : WorkloadRef) : bool :=
  bool_decide (w_kind w ∈ workloadKinds) && bool_decide (w_uid w = "")
  && ValidDNSLabel (w_namespace w) && ValidDNSSubdomain (w_name w).

Definition ref_string (w : WorkloadRef) : string := w_namespace w +:+ "/" +:+ w_kind w +:+ "/" +:+ w_name w.

Definition ParseWorkloadRef (reference : string) : option WorkloadRef :=
  match split_at "/" reference with
  | [ns; kind; name] => let r := mkRef ns kind name "" in if validObject r then Some r else None
  | _ => None
  end.

Definition reason_ok (r : string) : bool := bool_decide (r = "") || re_match reasonWord r.

Definition condition_ok (c : WorkloadCondition) : bool :=
  re_match reasonWord (cond_type c) && bool_decide (cond_status c ∈ conditionStatus) && reason_ok (cond_reason c).

Definition pod_container_ok (c : PodContainer) : bool :=
  ValidDNSLabel (pc_name c) && bool_decide (pc_image c = "") && bool_decide (pc_image_id c = "")
  && bool_decide (pc_state c ∈ containerState) && reason_ok (pc_reason c)
  && btw 0 MaxRestartCount (pc_restarts c).

Definition pod_ok (p : PodStatus) : bool :=
  ValidDNSSubdomain (pod_name p) && re_match deploymentUUID (pod_uid p)
  && bool_decide (pod_phase p ∈ podPhase) && (llen (pod_containers p) <=? MaxPodContainers)
  && forallb pod_container_ok (pod_containers p).

Definition status_validate (s : WorkloadStatus) : bool :=
  if ws_missing s then
    bool_decide (ws_uid s = "") && (ws_generation s =? 0) && (ws_observed s =? 0) && (ws_desired s =? 0)
    && (ws_updated s =? 0) && (ws_ready s =? 0) && (ws_available s =? 0)
    && (llen (ws_conditions s) =? 0) && (llen (ws_pods s) =? 0)
  else
    re_match deploymentUUID (ws_uid s) && (1 <=? ws_generation s) && btw 0 (ws_generation s) (ws_observed s)
    && (0 <=? ws_desired s) && (0 <=? ws_updated s) && (0 <=? ws_ready s) && (0 <=? ws_available s)
    && (llen (ws_conditions s) <=? MaxWorkloadConditions) && (llen (ws_pods s) <=? MaxWorkloadPods)
    && forallb condition_ok (ws_conditions s) && forallb pod_ok (ws_pods s).

(** ** Targets *)

Record InspectionTarget := mkTarget {
  it_container : string; it_image : string; it_created : Z; it_workload : WorkloadRef }.
#[export] Instance InspectionTarget_eq_dec : EqDecision InspectionTarget.
Proof. solve_decision. Defined.

Definition target_validate (t : InspectionTarget) : bool :=
  re_match fullDockerID (it_container t) && HasPrefix (it_image t) "sha256:"
  && re_match fullDockerID (TrimPrefix (it_image t) "sha256:") && (0 <? it_created t)
  && bool_decide (it_workload t = no_workload).

Definition target_validate_for (runtime : string) (t : InspectionTarget) : bool :=
  if negb (bool_decide (runtime = RuntimeKubernetes)) then target_validate t
  else bool_decide (it_container t = "") && bool_decide (it_image t = "") && (it_created t =? 0)
       && (ref_valid (it_workload t) || validObject (it_workload t)).

(** ** Answers *)

Record Port := mkPort { port_host_ip : string; port_host : Z; port_container : Z; port_protocol : string }.
#[export] Instance Port_eq_dec : EqDecision Port.
Proof. solve_decision. Defined.
Record ImagePlatform := mkPlatform { plat_os : string; plat_arch : string; plat_variant : string }.
#[export] Instance ImagePlatform_eq_dec : EqDecision ImagePlatform.
Proof. solve_decision. Defined.
Record MountCounts := mkMountCounts { mc_bind : Z; mc_volume : Z; mc_tmpfs : Z; mc_other : Z; mc_readonly : Z }.
#[export] Instance MountCounts_eq_dec : EqDecision MountCounts.
Proof. solve_decision. Defined.

Record ContainerInspection := mkInspection {
  ci_target : InspectionTarget; ci_observed : time; ci_state : string; ci_health : string;
  ci_restarts : Z; ci_platform : ImagePlatform; ci_restart_policy : string; ci_restart_retries : Z;
  ci_ports : list Port; ci_mounts : MountCounts; ci_network_mode : string; ci_network_count : Z;
  ci_privileged : bool; ci_readonly : bool; ci_autoremove : bool; ci_unsupported : list string;
  ci_verified : bool; ci_workload : option WorkloadStatus }.

Definition UnsupportedCodes : list string :=
  ["mount_type"; "anonymous_volume"; "volumes_from"; "volume_driver"; "mount_options"; "tmpfs"; "auto_remove";
   "read_only_rootfs"; "privileged"; "capabilities"; "security_opt"; "devices"; "pid_mode"; "ipc_mode"; "user";
   "runtime"; "resource_limits"; "ulimits"; "sysctls"; "device_requests"; "init"; "userns_mode"; "cgroup_parent";
   "group_add"; "extra_hosts"; "dns"; "links"; "network"; "image_config"; "k8s_volume"; "k8s_host_ip";
   "k8s_restart"; "k8s_name"; "k8s_namespace"; "k8s_volume_shared"; "k8s_name_taken"; "k8s_service_renamed"].

Definition knownCodes (codes : list string) : bool :=
  (llen codes <=? MaxUnsupported) && seen_loop id (fun c => bool_decide (c ∈ UnsupportedCodes)) ∅ codes.

Definition dockerEmpty (r : ContainerInspection) : bool :=
  bool_decide (ci_state r = "") && bool_decide (ci_health r = "") && (ci_restarts r =? 0)
  && bool_decide (ci_platform r = mkPlatform "" "" "") && bool_decide (ci_restart_policy r = "")
  && (ci_restart_retries r =? 0) && (llen (ci_ports r) =? 0)
  && bool_decide (ci_mounts r = mkMountCounts 0 0 0 0 0) && bool_decide (ci_network_mode r = "")
  && (ci_network_count r =? 0) && negb (ci_privileged r) && negb (ci_readonly r) && negb (ci_autoremove r)
  && (llen (ci_unsupported r) =? 0) && negb (ci_verified r).

Definition inspected_port_ok (p : Port) : bool :=
  btw 1 65535 (port_container p) && btw 0 65535 (port_host p)
  && bool_decide (port_protocol p ∈ ["tcp"; "udp"; "sctp"])
  && (if port_host p =? 0 then bool_decide (port_host_ip p = "")
      else match ParseAddr (port_host_ip p) with
           | Some a => bool_decide (addr_zone a = "")
           | None => false
           end).

Definition platform_ok (p : ImagePlatform) : bool :=
  re_match inspectionPlatform (plat_os p) && re_match inspectionPlatform (plat_arch p)
  && (bool_decide (plat_variant p = "") || re_match inspectionPlatform (plat_variant p)).

Definition mounts_ok (m : MountCounts) : bool :=
  let ns := [mc_bind m; mc_volume m; mc_tmpfs m; mc_other m] in
  let total := mc_bind m + mc_volume m + mc_tmpfs m + mc_other m in
  forallb (btw 0 MaxInspectionEntries) ns && (total <=? MaxInspectionEntries) && btw 0 total (mc_readonly m).

Definition inspection_validate (r : ContainerInspection) (target : InspectionTarget) (now : time) (health : bool) : bool :=
  bool_decide (ci_target r = target) && (now - InspectionLifetime <=? ci_observed r)
  && (ci_observed r <=? now + 5 * Second)
  && (if negb (bool_decide (it_workload target = no_workload)) then
        target_validate_for RuntimeKubernetes target && ref_valid (it_workload target) && dockerEmpty r
        && match ci_workload r with Some s => status_validate s | None => false end
      else
        bool_decide (ci_workload r = None) && target_validate target
        && Bool.eqb (ci_verified r) (llen (ci_unsupported r) =? 0) && knownCodes (ci_unsupported r)
        && bool_decide (ci_state r ∈ ["created"; "running"; "paused"; "restarting"; "removing"; "exited"; "dead"])
        && bool_decide (ci_restart_policy r ∈ ["no"; "always"; "unless-stopped"; "on-failure"])
        && bool_decide (ci_network_mode r ∈ ["default"; "bridge"; "host"; "none"; "container"; "custom"])
        && (if health then bool_decide (ci_health r ∈ ["none"; "starting"; "healthy"; "unhealthy"])
                           && btw 0 MaxRestartCount (ci_restarts r)
            else bool_decide (ci_health r = "") && (ci_restarts r =? 0))
        && btw 0 2147483647 (ci_restart_retries r) && btw 0 MaxInspectionEntries (ci_network_count r)
        && (llen (ci_ports r) <=? MaxInspectionEntries) && mounts_ok (ci_mounts r)
        && platform_ok (ci_platform r) && forallb inspected_port_ok (ci_ports r)).

(** A grant. *)
Record InspectionOpen := mkOpen {
  io_request : string; io_endpoint : string; io_actor : string; io_connection : string;
  io_expires : time; io_target : InspectionTarget }.

Inductive OpenErr := BadGrant | BadTarget | ErrGrantExpiry.

Definition ValidateWithin (r : InspectionOpen) (now : time) (lifetime : Z) (runtime : string) : res OpenErr unit :=
  refuse negb (re_match execStreamID (io_request r)) || negb (re_match execStreamID (io_actor r))
         || negb (re_match execStreamID (io_endpoint r)) || negb (len (io_connection r) =? 32)
         || (io_expires r =? zero_time) with BadGrant ;;
  refuse negb (target_validate_for runtime (io_target r)) with BadTarget ;;
  refuse (io_expires r <=? now) || (io_expires r >? now + lifetime) with ErrGrantExpiry ;;
  Ok tt.

(** ** Properties *)

Lemma split_at_join3 a b c :
  contains_byte "/" a = false -> contains_byte "/" b = false -> contains_byte "/" c = false ->
  split_at "/" (a +:+ "/" +:+ b +:+ "/" +:+ c) = [a; b; c].
Proof.
  intros Ha Hb Hc. change (a +:+ "/" +:+ b +:+ "/" +:+ c) with (a +:+ String "/" (b +:+ String "/" c)).
  rewrite split_at_sep, split_at_sep, split_at_no_byte by done. done.
Qed.

Lemma split_at_back c s a l : split_at c s = a :: l -> s = a +:+ match l with [] => "" | _ => String c (join (String c "") l) end.
Proof.
  revert a l; induction s as [|x s IH]; intros a l; simpl; [by intros [= <- <-]|].
  destruct (ascii_eqb x c) eqn:E.
  - apply ascii_eqb_true in E as ->. intros [= <- <-]. simpl.
    destruct (split_at c s) as [|a l] eqn:Es; [by destruct s as [|y s]; simpl in Es; [|destruct (ascii_eqb y c); [|destruct (split_at c s)]]|].
    f_equal. rewrite (IH _ _ eq_refl). destruct l; [by rewrite append_nil_r|]. done.
  - destruct (split_at c s) as [|w ws] eqn:Es; intros [= <- <-]; simpl.
    + destruct s as [|y s]; simpl in Es; [done|]. destruct (ascii_eqb y c); [done|]. by destruct (split_at c s).
    + f_equal. by apply IH.
Qed.

Lemma ParseWorkloadRef_string text r : ParseWorkloadRef text = Some r -> validObject r = true /\ text = ref_string r.
Proof.
  unfold ParseWorkloadRef. destruct (split_at "/" text) as [|ns [|kind [|name [|]]]] eqn:E; try done.
  destruct (validObject _) eqn:Hv; [|done]. intros [= <-]. split; [done|].
  rewrite (split_at_back _ _ _ _ E). simpl. by rewrite ?append_nil_r.
Qed.

(** A workload reference is read back as it was written: [ParseWorkloadRef] accepts exactly
    the texts [String] writes for a valid object reference, and returns that reference. *)
Theorem ParseWorkloadRef_roundtrip text r :
  ParseWorkloadRef text = Some r <-> validObject r = true /\ text = ref_string r.
Proof.
  split; [apply ParseWorkloadRef_string|]. unfold ParseWorkloadRef.
  - intros [Hv ->]. pose proof Hv as Hv'. unfold validObject, ValidDNSLabel, ValidDNSSubdomain in Hv'. gobool.
    unfold ref_string. rewrite split_at_join3.
    + destruct r as [ns kind name uid]. simpl in *. subst uid. by rewrite Hv.
    + eapply re_match_no_byte; [|eassumption]. vm_compute. reflexivity.
    + assert (Hk : w_kind r ∈ workloadKinds) by done. unfold workloadKinds in Hk.
      rewrite !elem_of_cons, elem_of_nil in Hk. destruct Hk as [->|[->|[->|[->|[]]]]]; vm_compute; reflexivity.
    + eapply re_match_no_byte; [|eassumption]. vm_compute. reflexivity.
Qed.
