(* ===== verification/Paths.v ===== *)
(** * Host and container paths

    [cleanAbsolute] of internal/agent/protocol/deployment.go, with Go's [path.Clean] on rooted
    paths and the format characters (Cf) of Unicode 15, the table of Go's [unicode] package. *)
From Stdlib Require Import ZArith Lia Ascii String.
From stdpp Require Import base strings list.
From S2P Require Import Prelude.
From S2P Require Import Regex.
From S2P Require Import Text.
From S2P Require Import Grammar.

Definition MaxMountPathBytes : Z := 4096.

(** [path.Clean]'s walk of a rooted path: [out] the elements kept, last first.  ".." at the
    root stays at the root. *)
Fixpoint clean_segments (segs out : list string) : list string :=
  match segs with
  | [] => rev out
  | s :: segs' =>
      if bool_decide (s = "") || bool_decide (s = ".") then clean_segments segs' out
      else if bool_decide (s = "..") then clean_segments segs' (tail out)
      else clean_segments segs' (s :: out)
  end.

(** [path.Clean] of a path that starts with "/". *)
Definition CleanRooted (p : string) : string :=
  "/" +:+ join "/" (clean_segments (split_at "/" (drop_str 1 p)) []).

Definition formats (r : Z) : bool :=
  (r =? 0xAD) || btw 0x600 0x605 r || (r =? 0x61C) || (r =? 0x6DD) || (r =? 0x70F) || btw 0x890 0x891 r
  || (r =? 0x8E2) || (r =? 0x180E) || btw 0x200B 0x200F r || btw 0x202A 0x202E r || btw 0x2060 0x2064 r
  || btw 0x2066 0x206F r || (r =? 0xFEFF) || btw 0xFFF9 0xFFFB r || (r =? 0x110BD) || (r =? 0x110CD)
  || btw 0x13430 0x1343F r || btw 0x1BCA0 0x1BCA3 r || btw 0x1D173 0x1D17A r || (r =? 0xE0001) || btw 0xE0020 0xE007F r.

Definition cleanAbsolute (p : string) : bool :=
  (1 <? len p) && (len p <=? MaxMountPathBytes) && HasPrefix p "/" && bool_decide (CleanRooted p = p)
  && bool_decide (CleanText p MaxMountPathBytes = p) && negb (existsb formats (runes p)).

Example clean_ok : cleanAbsolute "/srv/data" = true /\ cleanAbsolute "/" = false /\ cleanAbsolute "/srv/../etc" = false
  /\ cleanAbsolute "/srv//x" = false /\ cleanAbsolute "srv" = false /\ cleanAbsolute "/srv/" = false.
Proof. vm_compute. auto 6. Qed.
Example clean_rooted : CleanRooted "/../a/./b//c/.." = "/a/b".
Proof. vm_compute. reflexivity. Qed.

(** ** A clean path has no element that moves *)

Lemma clean_segments_plain segs out :
  Forall plain_segment out -> Forall plain_segment (clean_segments segs out).
Proof.
  revert out; induction segs as [|s segs IH]; intros out Ho; simpl; [by apply Forall_rev|].
  destruct (bool_decide (s = "") || bool_decide (s = ".")) eqn:E; [by apply IH|].
  apply orb_false_iff in E as [E1%bool_decide_eq_false E2%bool_decide_eq_false].
  destruct (bool_decide (s = "..")) eqn:E3; apply IH.
  - by destruct Ho.
  - apply bool_decide_eq_false in E3. by constructor.
Qed.

Lemma clean_segments_from c segs out :
  Forall (fun s => contains_byte c s = false) segs -> Forall (fun s => contains_byte c s = false) out ->
  Forall (fun s => contains_byte c s = false) (clean_segments segs out).
Proof.
  intros Hs; revert out; induction Hs as [|s segs Hs Hss IH]; intros out Ho; simpl; [by apply Forall_rev|].
  repeat case_match; apply IH; try done; [by destruct Ho|by constructor].
Qed.

Lemma split_at_parts c s : Forall (fun w => contains_byte c w = false) (split_at c s).
Proof.
  induction s as [|x s IH]; simpl; [by repeat constructor|].
  destruct (ascii_eqb x c) eqn:E; [by constructor|].
  destruct (split_at c s) as [|w ws]; inversion IH; subst; constructor; try done.
  - unfold contains_byte in *. simpl. rewrite ascii_eqb_sym, E. done.
  - unfold contains_byte in *. simpl. by rewrite ascii_eqb_sym, E.
Qed.

(** Joining elements that hold no separator is undone by splitting. *)
Lemma split_at_join c l :
  l <> [] -> Forall (fun w => contains_byte c w = false) l -> split_at c (join (String c "") l) = l.
Proof.
  intros Hne Hl. induction Hl as [|w l Hw Hl IH]; [done|]. destruct l as [|w' l]; simpl.
  - by apply split_at_no_byte.
  - rewrite split_at_sep by done. f_equal. by apply IH.
Qed.

(** The elements of a rooted path. *)
Definition elements (p : string) : list string := split_at "/" (drop_str 1 p).

Lemma cleanAbsolute_elements p :
  cleanAbsolute p = true -> p = "/" +:+ join "/" (elements p) /\ Forall plain_segment (elements p).
Proof.
  unfold cleanAbsolute. intros H. gobool. 
  match goal with H : CleanRooted p = p |- _ => rename H into Hc end.
  unfold CleanRooted in Hc. fold (elements p) in Hc. set (l := clean_segments (elements p) []) in *.
  assert (Hp : Forall plain_segment l) by (apply clean_segments_plain; constructor).
  assert (Hb : Forall (fun s => contains_byte "/" s = false) l).
  { apply clean_segments_from; [apply split_at_parts|constructor]. }
  assert (Hne : l <> []).
  { intros E. rewrite E in Hc. assert (len p = 1) by (by rewrite <- Hc).
    match goal with H : (1 <? len p) = true |- _ => apply Z.ltb_lt in H end. lia. }
  assert (He : elements p = l).
  { unfold elements. rewrite <- Hc. simpl. by apply split_at_join. }
  rewrite He. done.
Qed.

(** ** Below a directory *)

(** A path at or under a directory. *)
Definition under (p dir : string) : bool :=
  bool_decide (p = dir) || bool_decide (dir = "/") || HasPrefix p (dir +:+ "/").

Lemma split_at_append c l rest :
  l <> [] -> Forall (fun w => contains_byte c w = false) l ->
  split_at c (join (String c "") l +:+ String c rest) = l ++ split_at c rest.
Proof.
  intros Hne Hl. induction Hl as [|w l Hw Hl IH]; [done|]. destruct l as [|w' l]; simpl.
  - by rewrite split_at_sep.
  - rewrite append_assoc. change (String c "" +:+ ?x) with (String c x). simpl.
    rewrite split_at_sep by done. f_equal. by apply IH.
Qed.

Lemma join_append c l k :
  l <> [] -> k <> [] -> join (String c "") (l ++ k) = join (String c "") l +:+ String c (join (String c "") k).
Proof.
  intros Hl Hk. induction l as [|w l IH]; [done|]. destruct l as [|w' l].
  - by destruct k.
  - cbn [app join] in *. rewrite IH by done. by rewrite !append_assoc.
Qed.

Lemma elements_parts p : Forall (fun w => contains_byte "/" w = false) (elements p).
Proof. apply split_at_parts. Qed.
Lemma elements_nonempty p : elements p <> [].
Proof.
  unfold elements. destruct (drop_str 1 p) as [|c s]; simpl; [done|].
  destruct (ascii_eqb c "/"); [done|]. by destruct (split_at "/" s).
Qed.

Lemma under_elements p d :
  cleanAbsolute p = true -> cleanAbsolute d = true -> under p d = true <-> elements d `prefix_of` elements p.
Proof.
  intros Hp Hd. destruct (cleanAbsolute_elements _ Hp) as [Ep Pp]. destruct (cleanAbsolute_elements _ Hd) as [Ed Pd].
  pose proof (elements_parts p) as Np. pose proof (elements_parts d) as Nd.
  pose proof (elements_nonempty p) as Zp. pose proof (elements_nonempty d) as Zd.
  assert (Hroot : d <> "/") by (intros ->; vm_compute in Hd; done).
  unfold under. rewrite !orb_true_iff, !bool_decide_eq_true. split.
  - intros [[->|?]|Hpre]; [done|done|]. apply prefix_split in Hpre. rewrite Ed in Hpre at 1.
    set (rest := drop_str _ p) in Hpre. exists (split_at "/" rest). unfold elements at 1. rewrite Hpre.
    rewrite !append_assoc. simpl. by apply split_at_append.
  - intros [k Hk]. destruct k as [|w k].
    + left. left. rewrite Ep, Ed. by rewrite Hk, app_nil_r.
    + right. assert (Hd' : d +:+ "/" = "/" +:+ (join "/" (elements d) +:+ "/")) by (rewrite Ed at 1; by rewrite append_assoc).
      rewrite Hd', Ep, Hk, join_append by done.
      replace (String "/" (join "/" (w :: k))) with ("/" +:+ join "/" (w :: k)) by done.
      rewrite <- (append_assoc (join _ _)), <- (append_assoc "/" (join _ _ +:+ _)). apply prefix_append.
Qed.
