(* ===== verification/Frame.v ===== *)
(** * Deployment frames

    internal/agent/protocol/deployment.go, kubernetes_deploy.go and kubernetes_claims.go with
    the list checks of configuration.go: the frames that carry one plan to an agent and one
    result back, and the validators both sides hold them to.

    A Go map is a finite map; a nil slice is [None] where the code tells it from an empty one.
    Healthcheck seconds are JSON numbers, modelled as rationals. *)
From Stdlib Require Import ZArith QArith Lia Ascii String.
From stdpp Require Import base gmap strings list.
From S2P Require Import Prelude.
From S2P Require Import Regex.
From S2P Require Import Text.
From S2P Require Import Grammar.
From S2P Require Import NetIP.
From S2P Require Import Inspection.
From S2P Require Import Paths.

#[local] Open Scope Z_scope.

Definition DeploymentLifetime : Z := 15 * Minute.
Definition MaxDeploymentServices : Z := 100.
Definition MaxDeploymentEnvEntries : Z := 128.
Definition MaxDeploymentEnvValueBytes : Z := 16384.
Definition MaxDeploymentEnvBytes : Z := 65536.
Definition MaxDeploymentPorts : Z := 64.
Definition MaxDeploymentStepDetailBytes : Z := 256.
Definition MaxRegistryAuthHosts : Z := 16.
Definition MaxRegistryAuthSecretBytes : Z := 4096.
Definition MaxDeploymentVolumes : Z := 64.
Definition MaxRemovalTargets : Z := 100.
Definition MaxClockSkew : Z := 5 * Minute.
Definition MaxDeploymentResultSteps : Z := 8 * MaxDeploymentServices + MaxDeploymentVolumes + 1.
Definition MaxMounts : Z := 32.
Definition MaxLabels : Z := 32.
Definition MaxLabelBytes : Z := 256.
Definition MaxArgv : Z := 64.
Definition MaxArgvEntryBytes : Z := 4096.
Definition MaxListEntries : Z := 32.
Definition MaxListEntryBytes : Z := 1024.
Definition MaxConfigurationNetworks : Z := 16.
Definition MaxLogOptions : Z := 16.
Definition MaxConfigurationLabelValueBytes : Z := 4096.
Definition MaxKubernetesClaims : Z := 16.
Definition MaxKubernetesMounts : Z := 8.
Definition ExplicitProject : string := "direct".
Definition ExplicitRevision : Z := 1.
Definition MountVolume : string := "volume".
Definition MountBind : string := "bind".
Definition MountTmpfs : string := "tmpfs".

(** Why a frame is refused: the errors of the validators, one constructor for each message. *)
Inductive FrameErr :=
| BadIdentity | MissingIssueTime | ErrClockSkew | BadIssueDeadline | BadDeadline | BadServiceCount
| ExplicitForCluster | BadExplicit | BadService | BadMount | TooManyPorts | BadPort | BadHostAddress
| DuplicateBinding | TooManyEnv | BadEnv | TooManyVolumes | BadVolume | TooManyCredentials | BadCredential
| BadKubernetes | BadKubernetesService | BadServiceIP | BadSecretKeys | TooManyClaims | BadClaim
| DuplicateClaim | TooManyClaimMounts | BadClaimMount | UnmountedClaim | WrongRuntime
| BadResult | BadResultCode | BadStep | BadStepCode | BadResultIdentity
| BadRemovalIdentity | BadRemovalDeadline | BadKubernetesRemoval | BadContainerCount | BadRemovalTarget.

(** ** Data *)

Record Mount := mkMount { m_kind : string; m_source : string; m_target : string; m_readonly : bool }.
#[export] Instance Mount_eq_dec : EqDecision Mount.
Proof. solve_decision. Defined.
Record ImagePull := mkPull { pull_reference : string; pull_digest : string; pull_tag : string }.
Record RegistryAuth := mkAuth { auth_username : string; auth_secret : string }.
Record NetworkAttachmentSpec := mkNetwork { net_name : string; net_aliases : list string; net_ip : string }.
Record Resources := mkResources { res_cpus : Z; res_memory : Z; res_swap : Z; res_pids : Z }.
#[export] Instance Resources_eq_dec : EqDecision Resources.
Proof. solve_decision. Defined.
Record Healthcheck := mkHealthcheck {
  h_test : list string; h_interval : Q; h_timeout : Q; h_start : Q; h_retries : Z }.
Record Device := mkDevice { dev_host : string; dev_container : string; dev_permissions : string }.
Record LogConfig := mkLog { log_driver : string; log_options : gmap string string }.

Record ExplicitService := mkExplicit {
  e_command : list string; e_entrypoint : list string; e_user : string; e_working_dir : string;
  e_hostname : string; e_labels : gmap string string; e_network_mode : string;
  e_networks : list NetworkAttachmentSpec; e_resources : Resources; e_healthcheck : option Healthcheck;
  e_privileged : bool; e_readonly_rootfs : bool; e_init : bool; e_tty : bool; e_stdin_open : bool;
  e_cap_add : list string; e_cap_drop : list string; e_security_opt : list string;
  e_extra_hosts : list string; e_dns : list string; e_devices : list Device; e_log : LogConfig;
  e_stop_signal : string; e_stop_timeout : option Z; e_restart_retries : Z; e_acknowledged : list string }.

Record KubernetesClaim := mkClaim { k_name : string; k_class : string; k_size : string; k_access : string }.
Record KubernetesMount := mkKMount { km_claim : string; km_path : string; km_readonly : bool }.
Record KubernetesTarget := mkKTarget {
  kt_namespace : string; kt_application : string; kt_instance : string; kt_spec_digest : string;
  kt_claims : list KubernetesClaim }.

Record DeploymentService := mkService {
  s_name : string; s_container : string; s_image : string; s_replaces : InspectionTarget;
  s_restart : string; s_ports : list Port; s_env : gmap string string; s_pull : option ImagePull;
  s_mounts : option (list Mount); s_secret_keys : list string; s_volumes : list KubernetesMount;
  s_cluster_ip : string; s_explicit : option ExplicitService }.

Record DeploymentRequest := mkRequest {
  dr_deployment : string; dr_request : string; dr_endpoint : string; dr_project : string;
  dr_revision : Z; dr_issued : time; dr_deadline : time; dr_services : list DeploymentService;
  dr_registries : gmap string RegistryAuth; dr_volumes : list string;
  dr_kubernetes : option KubernetesTarget; dr_explicit : bool }.

Definition no_target : InspectionTarget := mkTarget "" "" 0 no_workload.

(** ** Lists and values *)

Definition textList (l : list string) (max : Z) : bool :=
  (llen l <=? MaxListEntries) && forallb (fun s => text s max) l.
Definition rawArgv (l : list string) : bool :=
  (llen l <=? MaxArgv) && forallb (fun s => raw s MaxArgvEntryBytes) l.
Definition nonNegative (l : list Q) : bool := forallb (fun f => Qle_bool 0 f && Qle_bool f 1000000000000) l.
Definition validIPOrEmpty (s : string) : bool :=
  bool_decide (s = "") ||
  match ParseAddr s with Some a => bool_decide (addr_zone a = "") | None => false end.
Definition configurationEnvName (n : string) : bool :=
  negb (bool_decide (n = "")) && (len n <=? 128) && ValidString n
  && negb (contains_byte "=" n) && negb (has_nul n).
Definition NamespaceNetwork (name : string) : bool :=
  bool_decide (name = "host") || HasPrefix name "container:".

(** ** The issue time *)

Definition issued (at_ deadline now : time) : res FrameErr unit :=
  refuse at_ =? zero_time with MissingIssueTime ;;
  let d := time_sub now at_ in
  refuse (d >? MaxClockSkew) || (d <? - MaxClockSkew) with ErrClockSkew ;;
  refuse negb (deadline >? at_) || (deadline >? at_ + DeploymentLifetime) with BadIssueDeadline ;;
  Ok tt.

(** ** Step codes *)

Inductive detailRule :=
| detailNone | detailUnsupported | detailContainerID | detailStatus | detailObject | detailRollout | detailPodSecurity.

Definition stepCodes : list (string * detailRule) :=
  [("runtime_unreadable", detailNone); ("container_missing", detailNone); ("identity_mismatch", detailNone);
   ("image_identity_mismatch", detailNone); ("configuration_unreported", detailNone); ("unsupported", detailUnsupported);
   ("bind_missing", detailNone); ("volume_mount_missing", detailNone); ("volume_not_owned", detailNone);
   ("volume_missing", detailNone); ("volume_create_failed", detailNone); ("image_missing", detailNone);
   ("pinned_image_missing", detailNone); ("configuration_drift", detailNone); ("name_reserved", detailNone);
   ("name_taken", detailObject); ("identity_unusable", detailNone); ("identity_unreadable", detailContainerID);
   ("identity_unverified", detailContainerID); ("dependents", detailNone); ("deadline", detailNone);
   ("pull_failed", detailNone); ("pull_unauthorized", detailNone); ("pull_not_found", detailNone);
   ("pull_digest_mismatch", detailNone); ("cancelled", detailNone); ("runtime_timeout", detailNone);
   ("runtime_error", detailNone); ("runtime_status", detailStatus); ("legacy", detailNone);
   ("forbidden", detailNone); ("rollout_timeout", detailRollout); ("conflict", detailObject);
   ("pod_security", detailPodSecurity); ("admission_denied", detailObject); ("claim_immutable", detailObject);
   ("service_ip_immutable", detailObject); ("service_ip_unavailable", detailObject);
   ("rollback_failed", detailNone); ("start_failed_rolled_back", detailNone); ("exited_early", detailNone);
   ("application_managed", detailNone); ("namespace_not_granted", detailNone); ("pvc_retention", detailNone);
   ("secret_ref_refused", detailNone); ("self_protected", detailNone)].

Definition resultCodes : list string :=
  ["step_failed"; "clock_skew"; "invalid_request"; "wrong_endpoint"; "busy"; "restarted"; "unreadable"; "legacy"].
Definition podSecurityDetail : list string := [""; "missing"; "privileged"; "invalid"].

Fixpoint code_rule (l : list (string * detailRule)) (c : string) : option detailRule :=
  match l with
  | [] => None
  | (k, r) :: l' => if bool_decide (k = c) then Some r else code_rule l' c
  end.

Definition unsupportedDetail (codes : list string) : bool :=
  seen_loop id (fun c => re_match hostConfig c || knownCodes [c]) ∅ codes && (llen codes <=? MaxUnsupported).

Definition validStepCode (c detail : string) : bool :=
  match code_rule stepCodes c with
  | None => false
  | Some detailUnsupported => unsupportedDetail (split_at "," detail)
  | Some detailContainerID => re_match fullDockerID detail
  | Some detailStatus => re_match statusDetail detail
  | Some detailObject => bool_decide (detail = "") || re_match kubeObject detail
  | Some detailRollout => re_match rolloutDetail detail
  | Some detailPodSecurity => bool_decide (detail ∈ podSecurityDetail)
  | Some detailNone => bool_decide (detail = "")
  end.

(** ** Explicit services *)

Definition network_ok (n : NetworkAttachmentSpec) : bool :=
  negb (bool_decide (net_name n = "")) && text (net_name n) 256 && negb (NamespaceNetwork (net_name n))
  && textList (net_aliases n) 256 && validIPOrEmpty (net_ip n).
Definition healthcheck_ok (h : Healthcheck) : bool :=
  rawArgv (h_test h) && nonNegative [h_interval h; h_timeout h; h_start h] && btw 0 1000 (h_retries h).
Definition device_ok (d : Device) : bool :=
  text (dev_host d) MaxListEntryBytes && negb (bool_decide (dev_host d = ""))
  && text (dev_container d) MaxListEntryBytes && negb (bool_decide (dev_container d = ""))
  && re_match devicePerms (dev_permissions d).
Definition pairs_ok (p : string -> string -> bool) (m : gmap string string) : bool :=
  forallb (fun kv => p kv.1 kv.2) (map_to_list m).
Definition msize {A} (m : gmap string A) : Z := Z.of_nat (size m).

Definition explicit_valid (e : ExplicitService) : bool :=
  rawArgv (e_command e) && rawArgv (e_entrypoint e) && text (e_user e) 256
  && text (e_working_dir e) MaxMountPathBytes && text (e_hostname e) 256 && text (e_network_mode e) 256
  && text (e_stop_signal e) 32
  && match e_stop_timeout e with Some t => btw 0 3600 t | None => true end
  && btw 0 MaxRestartCount (e_restart_retries e)
  && textList (e_cap_add e) MaxListEntryBytes && textList (e_cap_drop e) MaxListEntryBytes
  && textList (e_security_opt e) MaxListEntryBytes && textList (e_extra_hosts e) MaxListEntryBytes
  && textList (e_dns e) MaxListEntryBytes
  && (0 <=? res_cpus (e_resources e)) && (0 <=? res_memory (e_resources e))
  && (-1 <=? res_swap (e_resources e)) && (-1 <=? res_pids (e_resources e))
  && (msize (e_labels e) <=? MaxLabels) && (llen (e_networks e) <=? MaxConfigurationNetworks)
  && (llen (e_devices e) <=? MaxListEntries) && (llen (e_acknowledged e) <=? MaxMounts)
  && text (log_driver (e_log e)) 64 && (msize (log_options (e_log e)) <=? MaxLogOptions)
  && pairs_ok (fun k v => negb (bool_decide (k = "")) && text k MaxLabelBytes && text v MaxConfigurationLabelValueBytes) (e_labels e)
  && seen_loop net_name network_ok ∅ (e_networks e)
  && match e_healthcheck e with Some h => healthcheck_ok h | None => true end
  && forallb device_ok (e_devices e)
  && pairs_ok (fun k v => negb (bool_decide (k = "")) && text k 256 && text v 256) (log_options (e_log e))
  && forallb cleanAbsolute (e_acknowledged e).

(** ** Images *)

Definition Host (p : ImagePull) : string :=
  if negb (ValidImageReference (pull_reference p)) then ""
  else match cut_at "/" (SplitImageReference (pull_reference p)).1 with
       | Some (first, _) =>
           if contains_byte "." first || contains_byte ":" first || bool_decide (first = "localhost") then first else ""
       | None => ""
       end.

Definition pull_valid (p : ImagePull) : bool :=
  let '(name, digest) := SplitImageReference (pull_reference p) in
  if bool_decide (Host p = "") || negb (re_match imageID digest) || negb (bool_decide (digest = pull_digest p)) then false
  else if bool_decide (pull_tag p = "") then true
  else
    let '(tagName, tag) := SplitImageReference (pull_tag p) in
    ValidImageReference (pull_tag p) && negb (contains_byte "@" (pull_tag p)) && negb (bool_decide (tag = ""))
    && bool_decide (tagName = name).

(** ** Mounts, ports, environment

    [validMounts] and [validPorts] record what they accept in a set they share across the
    services of a frame: the volumes mounted and the bindings taken. *)

Definition mount_target_ok (tmpfs : bool) (m : Mount) : bool :=
  if bool_decide (m_kind m = MountVolume) && re_match deploymentVolume (m_source m) then true
  else if bool_decide (m_kind m = MountBind) && cleanAbsolute (m_source m) then true
  else tmpfs && bool_decide (m_kind m = MountTmpfs) && bool_decide (m_source m = "").

Fixpoint mounts_loop (tmpfs : bool) (mounts : list Mount) (targets used : gset string) : option (gset string) :=
  match mounts with
  | [] => Some used
  | m :: mounts' =>
      if negb (cleanAbsolute (m_target m)) || bool_decide (m_target m ∈ targets) then None
      else if mount_target_ok tmpfs m then
        mounts_loop tmpfs mounts' ({[m_target m]} ∪ targets)
          (if bool_decide (m_kind m = MountVolume) then {[m_source m]} ∪ used else used)
      else None
  end.
Definition validMounts (mounts : list Mount) (used : gset string) (tmpfs : bool) : option (gset string) :=
  if llen mounts >? MaxMounts then None else mounts_loop tmpfs mounts ∅ used.

(** A published port as the runtime binds it: the address, the port, the protocol. *)
Definition binding : Type := string * Z * string.

Definition tcp_udp (p : string) : bool := bool_decide (p = "tcp") || bool_decide (p = "udp").

(** The address a binding takes: "" is Docker's IPv4 wildcard. *)
Definition bind_address (ip : string) : option string :=
  if bool_decide (ip = "") then Some "v4-any"
  else match ParseAddr ip with
       | Some a =>
           if negb (bool_decide (addr_zone a = "")) then None
           else Some (if IsUnspecified a && addr_is4 a then "v4-any"
                      else if IsUnspecified a then "v6-any" else addr_string a)
       | None => None
       end.

Definition port_binding (hostIP exposed : bool) (p : Port) : res FrameErr binding :=
  if exposed && (port_host p =? 0) then
    refuse negb (btw 1 65535 (port_container p)) || negb (tcp_udp (port_protocol p))
           || negb (bool_decide (port_host_ip p = "")) with BadPort ;;
    Ok ("exposed", port_container p, port_protocol p)
  else
    refuse negb (btw 1 65535 (port_container p)) || negb (btw 1 65535 (port_host p))
           || negb (tcp_udp (port_protocol p)) || (negb (bool_decide (port_host_ip p = "")) && negb hostIP) with BadPort ;;
    match bind_address (port_host_ip p) with
    | Some ip => Ok (ip, port_host p, port_protocol p)
    | None => Fail BadHostAddress
    end.

Fixpoint ports_loop (hostIP exposed : bool) (ports : list Port) (used : gset binding) : res FrameErr (gset binding) :=
  match ports with
  | [] => Ok used
  | p :: ports' =>
      let! b := port_binding hostIP exposed p ;;
      refuse bool_decide (b ∈ used) with (if exposed && (port_host p =? 0) then BadPort else DuplicateBinding) ;;
      ports_loop hostIP exposed ports' ({[b]} ∪ used)
  end.
Definition validPorts (ports : list Port) (used : gset binding) (hostIP exposed : bool) : res FrameErr (gset binding) :=
  refuse llen ports >? MaxDeploymentPorts with TooManyPorts ;;
  ports_loop hostIP exposed ports used.

(** The loop over the environment, in whatever order the map yields its entries. *)
Fixpoint env_loop (name : string -> bool) (total : Z) (l : list (string * string)) : res FrameErr unit :=
  match l with
  | [] => Ok tt
  | (k, v) :: l' =>
      let total := total + (len k + len v) in
      refuse negb (name k) || (len v >? MaxDeploymentEnvValueBytes) || negb (ValidString v) || has_nul v
             || (total >? MaxDeploymentEnvBytes) with BadEnv ;;
      env_loop name total l'
  end.
Definition validEnv (env : gmap string string) (name : string -> bool) : res FrameErr unit :=
  refuse msize env >? MaxDeploymentEnvEntries with TooManyEnv ;;
  env_loop name 0 (map_to_list env).

(** ** Docker frames *)

Definition deploymentRestart : list string := [""; "no"; "always"; "unless-stopped"; "on-failure"].

(** What the service loop has seen. *)
Record Seen := mkSeen {
  seen_names : gset string; seen_containers : gset string; seen_replaces : gset string;
  seen_bindings : gset binding; seen_pulled : gset string; seen_mounted : gset string }.

Definition image_ok (s : DeploymentService) : bool :=
  match s_pull s with
  | None => fullImageID (s_image s)
  | Some p => bool_decide (s_image s = "") && pull_valid p
  end.

Definition service_ok (explicit : bool) (s : DeploymentService) : bool :=
  re_match deploymentService (s_name s) && ValidContainerID (s_container s) && image_ok s
  && (target_validate (s_replaces s) || (explicit && bool_decide (s_replaces s = no_target)))
  && bool_decide (s_restart s ∈ deploymentRestart) && (llen (s_secret_keys s) =? 0) && (llen (s_volumes s) =? 0)
  && bool_decide (s_cluster_ip s = "") && Bool.eqb (bool_decide (is_Some (s_explicit s))) explicit
  && match s_explicit s with
     | Some e => explicit_valid e && ((e_restart_retries e <=? 0) || bool_decide (s_restart s = "on-failure"))
     | None => true
     end.

Definition service_step (explicit : bool) (seen : Seen) (s : DeploymentService) : res FrameErr Seen :=
  refuse negb (service_ok explicit s) || bool_decide (s_name s ∈ seen_names seen)
         || bool_decide (s_container s ∈ seen_containers seen)
         || bool_decide (it_container (s_replaces s) ∈ seen_replaces seen) with BadService ;;
  let! mounted := match s_mounts s with
                  | Some l => match validMounts l (seen_mounted seen) explicit with Some u => Ok u | None => Fail BadMount end
                  | None => Fail BadMount
                  end ;;
  let! bindings := validPorts (s_ports s) (seen_bindings seen) true explicit ;;
  run! validEnv (s_env s) (if explicit then configurationEnvName else re_match deploymentEnvName) ;;
  Ok (mkSeen ({[s_name s]} ∪ seen_names seen) ({[s_container s]} ∪ seen_containers seen)
        ({[it_container (s_replaces s)]} ∪ seen_replaces seen) bindings
        match s_pull s with Some p => {[Host p]} ∪ seen_pulled seen | None => seen_pulled seen end mounted).

Fixpoint services_loop (explicit : bool) (seen : Seen) (l : list DeploymentService) : res FrameErr Seen :=
  match l with
  | [] => Ok seen
  | s :: l' => let! seen' := service_step explicit seen s ;; services_loop explicit seen' l'
  end.

Definition credential_ok (pulled : gset string) (host : string) (a : RegistryAuth) : bool :=
  bool_decide (host ∈ pulled) && negb (bool_decide (auth_secret a = ""))
  && (len (auth_secret a) <=? MaxRegistryAuthSecretBytes) && ValidString (auth_secret a)
  && negb (has_nul (auth_secret a)) && (len (auth_username a) <=? 255).

Definition validate_docker (r : DeploymentRequest) : res FrameErr unit :=
  let! seen := services_loop (dr_explicit r) (mkSeen ∅ ∅ ∅ ∅ ∅ ∅) (dr_services r) ;;
  refuse llen (dr_volumes r) >? MaxDeploymentVolumes with TooManyVolumes ;;
  refuse negb (seen_loop id (fun v => bool_decide (v ∈ seen_mounted seen)) ∅ (dr_volumes r)) with BadVolume ;;
  refuse negb (bool_decide (size (list_to_set (dr_volumes r) : gset string) = size (seen_mounted seen))) with BadVolume ;;
  refuse msize (dr_registries r) >? MaxRegistryAuthHosts with TooManyCredentials ;;
  refuse negb (forallb (fun ha => credential_ok (seen_pulled seen) ha.1 ha.2) (map_to_list (dr_registries r))) with BadCredential ;;
  Ok tt.

(** ** Cluster frames *)

Definition kubernetesRestart : list string := [""; "always"; "unless-stopped"].

Definition kube_target_valid (k : KubernetesTarget) : bool :=
  ValidDNSLabel (kt_namespace k) && re_match deploymentUUID (kt_application k)
  && re_match deploymentUUID (kt_instance k) && re_match imageID (kt_spec_digest k).

Definition ValidClusterIP (s : string) : bool :=
  match ParseAddr s with
  | Some a => bool_decide (addr_zone a = "") && negb (Is4In6 a) && IsGlobalUnicast a && bool_decide (addr_string a = s)
  | None => false
  end.

Definition storageSize : re :=
  Cat (Cat (Cls (range "1" "9")) (Rep digit 0 5)) (Alt (Lit "Mi") (Alt (Lit "Gi") (Lit "Ti"))).

Fixpoint digits_value (s : string) (acc : Z) : Z :=
  match s with String c s' => digits_value s' (acc * 10 + (code c - 48)) | EmptyString => acc end.

(** [int64] of the digits, shifted by the unit; the grammar keeps it below 2^60. *)
Definition StorageSizeBytes (s : string) : Z * bool :=
  if re_match storageSize s then
    let k := (String.length s - 2)%nat in
    let unit := drop_str k s in
    let shift := if bool_decide (unit = "Mi") then 20 else if bool_decide (unit = "Gi") then 30 else 40 in
    let bytes := Z.shiftl (digits_value (take_str k s) 0) shift in
    (bytes, bytes <=? Z.shiftl 16 40)
  else (0, false).

Definition ValidStorageClass (s : string) : bool := bool_decide (s = "") || ValidDNSSubdomain s.

Definition claim_valid (c : KubernetesClaim) : bool :=
  ValidDNSLabel (k_name c) && ValidStorageClass (k_class c) && (StorageSizeBytes (k_size c)).2
  && bool_decide (k_access c = "ReadWriteOnce").

Fixpoint claims_loop (claims : list KubernetesClaim) (by_ : gmap string string) : res FrameErr (gmap string string) :=
  match claims with
  | [] => Ok by_
  | c :: claims' =>
      refuse negb (claim_valid c) with BadClaim ;;
      refuse bool_decide (is_Some (by_ !! k_name c)) with DuplicateClaim ;;
      claims_loop claims' (<[k_name c := ""]> by_)
  end.

Fixpoint claim_mounts (service : string) (l : list KubernetesMount) (paths : gset string) (by_ : gmap string string)
    : res FrameErr (gmap string string) :=
  match l with
  | [] => Ok by_
  | m :: l' =>
      match by_ !! km_claim m with
      | None => Fail BadClaimMount
      | Some b =>
          refuse (negb (bool_decide (b = "")) && negb (bool_decide (b = service))) || negb (cleanAbsolute (km_path m))
                 || bool_decide (km_path m ∈ paths) with BadClaimMount ;;
          claim_mounts service l' ({[km_path m]} ∪ paths) (<[km_claim m := service]> by_)
      end
  end.

Fixpoint service_claims (services : list DeploymentService) (by_ : gmap string string) : res FrameErr (gmap string string) :=
  match services with
  | [] => Ok by_
  | s :: services' =>
      refuse llen (s_volumes s) >? MaxKubernetesMounts with TooManyClaimMounts ;;
      let! by' := claim_mounts (s_name s) (s_volumes s) ∅ by_ ;;
      service_claims services' by'
  end.

Definition validClaims (claims : list KubernetesClaim) (services : list DeploymentService) : res FrameErr unit :=
  refuse llen claims >? MaxKubernetesClaims with TooManyClaims ;;
  let! declared := claims_loop claims ∅ ;;
  let! by_ := service_claims services declared ;;
  refuse negb (forallb (fun kb => negb (bool_decide (kb.2 = ""))) (map_to_list by_)) with UnmountedClaim ;;
  Ok tt.

(** Sorted strictly, every key an environment entry; [<] is Go's comparison of strings. *)
Fixpoint secret_keys_ok (env : gmap string string) (prev : option string) (l : list string) : bool :=
  match l with
  | [] => true
  | k :: l' =>
      bool_decide (is_Some (env !! k))
      && match prev with Some p => String.ltb p k | None => true end && secret_keys_ok env (Some k) l'
  end.

Definition kube_service_ok (s : DeploymentService) : bool :=
  re_match deploymentService (s_name s) && bool_decide (s_container s = "") && bool_decide (s_image s = "")
  && match s_pull s with Some p => pull_valid p && bool_decide (pull_tag p = "") | None => false end
  && bool_decide (s_replaces s = no_target) && (llen (default [] (s_mounts s)) =? 0)
  && bool_decide (s_restart s ∈ kubernetesRestart).

Definition kube_service_step (names ips : gset string) (s : DeploymentService) : res FrameErr (gset string * gset string) :=
  refuse negb (kube_service_ok s) || bool_decide (s_name s ∈ names) with BadKubernetesService ;;
  refuse negb (bool_decide (s_cluster_ip s = "")) && (negb (ValidClusterIP (s_cluster_ip s)) || (llen (s_ports s) =? 0)
         || bool_decide (s_cluster_ip s ∈ ips)) with BadServiceIP ;;
  run! validPorts (s_ports s) ∅ false false ;;
  run! validEnv (s_env s) (re_match deploymentEnvName) ;;
  refuse negb (secret_keys_ok (s_env s) None (s_secret_keys s)) with BadSecretKeys ;;
  Ok ({[s_name s]} ∪ names, if bool_decide (s_cluster_ip s = "") then ips else {[s_cluster_ip s]} ∪ ips).

Fixpoint kube_services_loop (names ips : gset string) (l : list DeploymentService) : res FrameErr unit :=
  match l with
  | [] => Ok tt
  | s :: l' => let! ni := kube_service_step names ips s ;; kube_services_loop ni.1 ni.2 l'
  end.

Definition validateKubernetes (r : DeploymentRequest) (k : KubernetesTarget) : res FrameErr unit :=
  refuse negb (kube_target_valid k) || negb (llen (dr_volumes r) =? 0) || negb (msize (dr_registries r) =? 0) with BadKubernetes ;;
  run! kube_services_loop ∅ ∅ (dr_services r) ;;
  validClaims (kt_claims k) (dr_services r).

(** ** Requests *)

Definition request_validate (r : DeploymentRequest) (now : time) : res FrameErr unit :=
  refuse negb (re_match deploymentUUID (dr_deployment r)) || negb (ValidRequestID (dr_request r))
         || negb (re_match execStreamID (dr_endpoint r)) || negb (re_match deploymentProject (dr_project r))
         || negb (btw 1 100 (dr_revision r)) with BadIdentity ;;
  run! issued (dr_issued r) (dr_deadline r) now ;;
  refuse negb (dr_deadline r >? now) || (dr_deadline r >? now + DeploymentLifetime) with BadDeadline ;;
  refuse (llen (dr_services r) =? 0) || (llen (dr_services r) >? MaxDeploymentServices) with BadServiceCount ;;
  match dr_kubernetes r with
  | Some k => refuse dr_explicit r with ExplicitForCluster ;; validateKubernetes r k
  | None =>
      refuse dr_explicit r && (negb (llen (dr_services r) =? 1) || negb (bool_decide (dr_project r = ExplicitProject))
             || negb (dr_revision r =? ExplicitRevision)) with BadExplicit ;;
      validate_docker r
  end.

Definition for_runtime {A} (k : option A) (runtime : string) : bool :=
  Bool.eqb (bool_decide (is_Some k)) (bool_decide (runtime = RuntimeKubernetes)).

Definition request_validate_for (runtime : string) (r : DeploymentRequest) (now : time) : res FrameErr unit :=
  refuse negb (for_runtime (dr_kubernetes r) runtime) with WrongRuntime ;; request_validate r now.

(** ** Results *)

Record DeploymentStep := mkStep { st_service : string; st_step : string; st_outcome : string; st_code : string; st_detail : string }.
Record DeploymentIdentity := mkDIdentity {
  id_service : string; id_container : string; id_image : string; id_created : Z; id_digest : string;
  id_kind : string; id_namespace : string; id_name : string; id_uid : string; id_generation : Z }.
Record DeploymentResult := mkResult {
  rs_deployment : string; rs_request : string; rs_outcome : string; rs_code : string;
  rs_steps : list DeploymentStep; rs_services : list DeploymentIdentity }.

Definition OutcomeSucceeded : string := "succeeded".
Definition OutcomeFailed : string := "failed".
Definition OutcomeDenied : string := "denied".
Definition OutcomeTimedOut : string := "timed_out".
Definition OutcomeUnknown : string := "unknown".
Definition OutcomeSkipped : string := "skipped".
Definition resultOutcomes : list string := [OutcomeSucceeded; OutcomeFailed; OutcomeDenied; OutcomeTimedOut; OutcomeUnknown].
Definition deploymentSteps : list string :=
  ["apply"; "rollout"; "rollback"; "volume"; "precondition"; "image"; "pull"; "stop"; "rename"; "create"; "start"; "remove"; "recheck"].

Definition identity_valid (id : DeploymentIdentity) : bool :=
  if bool_decide (id_kind id = "") then
    bool_decide (id_namespace id = "") && bool_decide (id_name id = "") && bool_decide (id_uid id = "")
    && (id_generation id =? 0) && target_validate (mkTarget (id_container id) (id_image id) (id_created id) no_workload)
    && (bool_decide (id_digest id = "") || re_match imageID (id_digest id))
  else
    bool_decide (id_kind id = "Deployment") && bool_decide (id_container id = "") && bool_decide (id_image id = "")
    && (id_created id =? 0) && ValidDNSLabel (id_namespace id) && ValidDNSLabel (id_name id)
    && re_match deploymentUUID (id_uid id) && (1 <=? id_generation id) && re_match imageID (id_digest id).

Definition step_validate (s : DeploymentStep) : res FrameErr unit :=
  let quiet := bool_decide (st_outcome s = OutcomeSucceeded) || bool_decide (st_outcome s = OutcomeSkipped) in
  let retained := bool_decide (st_outcome s = OutcomeSkipped) && bool_decide (st_step s = "volume")
                  && bool_decide (st_code s = "") && bool_decide (st_detail s = "retained") in
  refuse negb (re_match deploymentService (st_service s)) || negb (bool_decide (st_step s ∈ deploymentSteps))
         || negb (bool_decide (st_outcome s ∈ resultOutcomes) || bool_decide (st_outcome s = OutcomeSkipped))
         || (len (st_detail s) >? MaxDeploymentStepDetailBytes) with BadStep ;;
  refuse (quiet && negb retained && (negb (bool_decide (st_code s = "")) || negb (bool_decide (st_detail s = ""))))
         || (negb quiet && negb (validStepCode (st_code s) (st_detail s))) with BadStepCode ;;
  Ok tt.

Fixpoint all_ok {A} (f : A -> res FrameErr unit) (l : list A) : res FrameErr unit :=
  match l with [] => Ok tt | x :: l' => run! f x ;; all_ok f l' end.

Definition result_validate (r : DeploymentResult) : res FrameErr unit :=
  refuse negb (re_match deploymentUUID (rs_deployment r)) || negb (bool_decide (rs_outcome r ∈ resultOutcomes))
         || (negb (bool_decide (rs_request r = "")) && negb (ValidRequestID (rs_request r)))
         || (llen (rs_steps r) >? MaxDeploymentResultSteps) || (llen (rs_services r) >? MaxDeploymentServices) with BadResult ;;
  refuse negb (Bool.eqb (bool_decide (rs_outcome r = OutcomeSucceeded)) (bool_decide (rs_code r = "")))
         || (negb (bool_decide (rs_code r = "")) && negb (bool_decide (rs_code r ∈ resultCodes))) with BadResultCode ;;
  run! all_ok step_validate (rs_steps r) ;;
  refuse negb (forallb (fun id => re_match deploymentService (id_service id) && identity_valid id) (rs_services r)) with BadResultIdentity ;;
  Ok tt.

(** ** Removals *)

Record RemovalTarget := mkRemovalTarget { rt_service : string; rt_target : InspectionTarget }.
Record RemovalRequest := mkRemoval {
  rm_deployment : string; rm_request : string; rm_endpoint : string; rm_project : string;
  rm_issued : time; rm_deadline : time; rm_containers : list RemovalTarget;
  rm_kubernetes : option KubernetesTarget; rm_services : list string }.

Fixpoint removal_loop (names containers : gset string) (l : list RemovalTarget) : bool :=
  match l with
  | [] => true
  | c :: l' =>
      re_match deploymentService (rt_service c) && negb (bool_decide (rt_service c ∈ names))
      && target_validate (rt_target c) && negb (bool_decide (it_container (rt_target c) ∈ containers))
      && removal_loop ({[rt_service c]} ∪ names) ({[it_container (rt_target c)]} ∪ containers) l'
  end.

Definition removal_validate (r : RemovalRequest) (now : time) : res FrameErr unit :=
  refuse negb (re_match deploymentUUID (rm_deployment r)) || negb (ValidRequestID (rm_request r))
         || negb (re_match execStreamID (rm_endpoint r)) || negb (re_match deploymentProject (rm_project r)) with BadRemovalIdentity ;;
  run! issued (rm_issued r) (rm_deadline r) now ;;
  refuse negb (rm_deadline r >? now) || (rm_deadline r >? now + DeploymentLifetime) with BadRemovalDeadline ;;
  match rm_kubernetes r with
  | Some k =>
      refuse negb (kube_target_valid k) || (llen (kt_claims k) >? 0) || (llen (rm_containers r) >? 0)
             || (llen (rm_services r) =? 0) || (llen (rm_services r) >? MaxRemovalTargets) with BadKubernetesRemoval ;;
      refuse negb (seen_loop id (fun s => re_match deploymentService s) ∅ (rm_services r)) with BadKubernetesRemoval ;;
      Ok tt
  | None =>
      refuse (llen (rm_services r) >? 0) || (llen (rm_containers r) =? 0) || (llen (rm_containers r) >? MaxRemovalTargets) with BadContainerCount ;;
      refuse negb (removal_loop ∅ ∅ (rm_containers r)) with BadRemovalTarget ;;
      Ok tt
  end.

Definition removal_validate_for (runtime : string) (r : RemovalRequest) (now : time) : res FrameErr unit :=
  refuse negb (for_runtime (rm_kubernetes r) runtime) with WrongRuntime ;; removal_validate r now.

(** ** What an accepted frame promises *)

Lemma mounts_loop_ok tmpfs mounts targets used used' :
  mounts_loop tmpfs mounts targets used = Some used' ->
  Forall (fun m => cleanAbsolute (m_target m) = true /\ mount_target_ok tmpfs m = true) mounts /\
  NoDup (map m_target mounts) /\ (forall m, m ∈ mounts -> m_target m ∉ targets) /\
  (forall v, v ∈ used' <-> v ∈ used \/ exists m, m ∈ mounts /\ m_kind m = MountVolume /\ m_source m = v).
Proof.
  revert targets used; induction mounts as [|m mounts IH]; intros targets used; simpl.
  - intros [= <-]. split_and!; [constructor|constructor|set_solver|]. intros v. split; [auto|intros [?|(m & Hm & _)]]; [done|set_solver].
  - destruct (negb _ || _) eqn:E; [done|]. apply orb_false_iff in E as [Hc%negb_false_iff Ht%bool_decide_eq_false].
    destruct (mount_target_ok tmpfs m) eqn:Hm; [|done]. intros (Hall & Hnd & Hdis & Hin)%IH. split_and!.
    + by constructor.
    + constructor; [|done]. intros (m' & Heq & Hm')%list_elem_of_fmap. specialize (Hdis m' Hm'). set_solver.
    + intros m' [->|Hm']%elem_of_cons; [done|]. specialize (Hdis m' Hm'). set_solver.
    + intros v. rewrite Hin. setoid_rewrite elem_of_cons. case_bool_decide as Hk; set_solver.
Qed.

Lemma ports_loop_ok hostIP exposed ports used used' :
  ports_loop hostIP exposed ports used = Ok used' ->
  exists bs, Forall2 (fun p b => port_binding hostIP exposed p = Ok b) ports bs /\ NoDup bs /\
    (forall b, b ∈ bs -> b ∉ used) /\ (forall b, b ∈ used' <-> b ∈ used \/ b ∈ bs).
Proof.
  revert used; induction ports as [|p ports IH]; intros used; simpl.
  - intros [= <-]. exists []. split_and!; [constructor|constructor|set_solver|set_solver].
  - intros (b & Hb & H)%bind_res_ok. case_bool_decide as Hin; [done|].
    destruct (IH _ H) as (bs & Hbs & Hnd & Hdis & Hu). exists (b :: bs). split_and!.
    + by constructor.
    + constructor; [|done]. intros Hx. specialize (Hdis b Hx). set_solver.
    + intros c [->|Hc]%elem_of_cons; [done|]. specialize (Hdis c Hc). set_solver.
    + intros c. rewrite Hu. set_solver.
Qed.

Section services_loop.
Context (explicit : bool).

(** A key the loop refuses to see twice is distinct across the services. *)
Lemma loop_distinct (key : DeploymentService -> string) (sel : Seen -> gset string) seen l seen' :
  (forall a s b, service_step explicit a s = Ok b -> key s ∉ sel a /\ sel b = {[key s]} ∪ sel a) ->
  services_loop explicit seen l = Ok seen' -> NoDup (map key l) /\ (forall s, s ∈ l -> key s ∉ sel seen).
Proof.
  intros Hstep. revert seen; induction l as [|s l IH]; intros seen; simpl; [split; [constructor|set_solver]|].
  intros (seen1 & Hs & H)%bind_res_ok. destruct (Hstep _ _ _ Hs) as [Hn Hsel]. destruct (IH _ H) as [Hnd Hf]. split.
  - constructor; [|done]. intros (s' & Heq & Hs')%list_elem_of_fmap. specialize (Hf s' Hs'). set_solver.
  - intros s' [->|Hs']%elem_of_cons; [done|]. specialize (Hf s' Hs'). set_solver.
Qed.

Lemma loop_all (P : DeploymentService -> Prop) seen l seen' :
  (forall a s b, service_step explicit a s = Ok b -> P s) -> services_loop explicit seen l = Ok seen' -> Forall P l.
Proof.
  intros Hstep. revert seen; induction l as [|s l IH]; intros seen; simpl; [constructor|].
  intros (seen1 & Hs & H)%bind_res_ok. constructor; eauto.
Qed.

(** A set the loop grows holds what its services added. *)
Lemma loop_union (add : DeploymentService -> string -> Prop) (sel : Seen -> gset string) seen l seen' :
  (forall a s b, service_step explicit a s = Ok b -> forall v, v ∈ sel b <-> v ∈ sel a \/ add s v) ->
  services_loop explicit seen l = Ok seen' ->
  forall v, v ∈ sel seen' <-> v ∈ sel seen \/ exists s, s ∈ l /\ add s v.
Proof.
  intros Hstep. revert seen; induction l as [|s l IH]; intros seen; simpl.
  - intros [= ->] v. split; [auto|intros [?|(s & Hs & _)]]; [done|set_solver].
  - intros (seen1 & Hs & H)%bind_res_ok v. rewrite (IH _ H), (Hstep _ _ _ Hs). setoid_rewrite elem_of_cons.
    split; [intros [[?|?]|(s' & ? & ?)]; eauto 6|intros [?|(s' & [->|?] & ?)]; eauto 6].
Qed.

Lemma service_step_parts a s b :
  service_step explicit a s = Ok b ->
  service_ok explicit s = true /\ s_name s ∉ seen_names a /\ s_container s ∉ seen_containers a /\
  it_container (s_replaces s) ∉ seen_replaces a /\
  exists ms, s_mounts s = Some ms /\ validMounts ms (seen_mounted a) explicit = Some (seen_mounted b) /\
    validPorts (s_ports s) (seen_bindings a) true explicit = Ok (seen_bindings b) /\
    validEnv (s_env s) (if explicit then configurationEnvName else re_match deploymentEnvName) = Ok tt /\
    seen_names b = {[s_name s]} ∪ seen_names a /\ seen_containers b = {[s_container s]} ∪ seen_containers a /\
    seen_replaces b = {[it_container (s_replaces s)]} ∪ seen_replaces a /\
    seen_pulled b = match s_pull s with Some p => {[Host p]} ∪ seen_pulled a | None => seen_pulled a end.
Proof.
  unfold service_step. destruct (_ || _) eqn:E; [done|].
  apply orb_false_iff in E as [[[H1%negb_false_iff H2%bool_decide_eq_false]%orb_false_iff H3%bool_decide_eq_false]%orb_false_iff H4%bool_decide_eq_false].
  intros (mounted & Hm & (bs & Hp & ([] & He & H)%bind_res_ok)%bind_res_ok)%bind_res_ok.
  injection H as <-. destruct (s_mounts s) as [ms|]; [|done].
  destruct (validMounts ms (seen_mounted a) explicit) as [u|] eqn:Hv; [|done]. injection Hm as <-.
  split_and!; try done. exists ms. by split_and!.
Qed.

Lemma validMounts_ok ms used tmpfs used' :
  validMounts ms used tmpfs = Some used' -> mounts_loop tmpfs ms ∅ used = Some used'.
Proof. unfold validMounts. by destruct (_ >? _). Qed.

Lemma validPorts_ok ports used hostIP exposed used' :
  validPorts ports used hostIP exposed = Ok used' -> ports_loop hostIP exposed ports used = Ok used'.
Proof. unfold validPorts. by destruct (_ >? _). Qed.

(** The bindings of all services, in order, and none twice. *)
Lemma loop_bindings seen l seen' :
  services_loop explicit seen l = Ok seen' ->
  exists bs, Forall2 (fun p b => port_binding true explicit p = Ok b) (mjoin (map s_ports l)) bs /\ NoDup bs /\
    (forall b, b ∈ bs -> b ∉ seen_bindings seen).
Proof.
  revert seen; induction l as [|s l IH]; intros seen; simpl.
  - intros _. exists []. split_and!; [constructor|constructor|set_solver].
  - intros (seen1 & Hs & H)%bind_res_ok.
    apply service_step_parts in Hs as (_ & _ & _ & _ & ms & _ & _ & Hp%validPorts_ok%ports_loop_ok & _).
    destruct Hp as (bs1 & Hf1 & Hn1 & Hd1 & Hu1). destruct (IH _ H) as (bs2 & Hf2 & Hn2 & Hd2).
    exists (bs1 ++ bs2). split_and!.
    + by apply Forall2_app.
    + apply NoDup_app. split_and!; try done. intros b Hb1 Hb2. apply (Hd2 b Hb2), Hu1. by right.
    + intros b [Hb|Hb]%elem_of_app; [by apply Hd1|]. intros Hx. apply (Hd2 b Hb), Hu1. by left.
Qed.
End services_loop.

Lemma claims_loop_ok claims by0 by1 :
  claims_loop claims by0 = Ok by1 ->
  Forall (fun c => claim_valid c = true) claims /\ NoDup (map k_name claims) /\
  forall n, by1 !! n = if bool_decide (n ∈ map k_name claims) then Some "" else by0 !! n.
Proof.
  assert (Hgen : claims_loop claims by0 = Ok by1 ->
    Forall (fun c => claim_valid c = true) claims /\ NoDup (map k_name claims) /\
    (forall c, c ∈ claims -> by0 !! k_name c = None) /\
    forall n, by1 !! n = if bool_decide (n ∈ map k_name claims) then Some "" else by0 !! n); [|naive_solver].
  revert by0; induction claims as [|c claims IH]; intros by0; simpl.
  - intros [= <-]. split_and!; [constructor|constructor|set_solver|done].
  - destruct (claim_valid c) eqn:Hc; [|done]. simpl. case_bool_decide as Hd; [done|].
    intros (Hall & Hnd & Hf & Hby)%IH. apply eq_None_not_Some in Hd. split_and!.
    + by constructor.
    + constructor; [|done]. intros (c' & Heq & Hc')%list_elem_of_fmap. specialize (Hf c' Hc').
      by rewrite <- Heq, lookup_insert_eq in Hf.
    + intros c' [->|Hc']%elem_of_cons; [done|]. specialize (Hf c' Hc'). by apply lookup_insert_None in Hf as [? _].
    + intros n. rewrite Hby. destruct (decide (n = k_name c)) as [->|Hne].
      * rewrite lookup_insert_eq. rewrite (bool_decide_true (_ ∈ k_name c :: _)) by left. by case_bool_decide.
      * rewrite lookup_insert_ne by done. by rewrite (bool_decide_ext (n ∈ k_name c :: _) (n ∈ map k_name claims)) by set_solver.
Qed.

Lemma claim_mounts_ok service l paths by0 by1 :
  claim_mounts service l paths by0 = Ok by1 ->
  (forall m, m ∈ l -> cleanAbsolute (km_path m) = true /\ (by0 !! km_claim m = Some "" \/ by0 !! km_claim m = Some service)) /\
  forall n, by1 !! n = if bool_decide (n ∈ map km_claim l) then Some service else by0 !! n.
Proof.
  revert paths by0; induction l as [|m l IH]; intros paths by0; simpl.
  - intros [= <-]. split; [set_solver|done].
  - destruct (by0 !! km_claim m) as [b|] eqn:Hb; [|done].
    destruct (_ || _) eqn:E; [done|]. apply orb_false_iff in E as [[E1 E2%negb_false_iff]%orb_false_iff _].
    apply andb_false_iff in E1. rewrite !negb_false_iff, !bool_decide_eq_true in E1.
    intros (Hall & Hby)%IH. split.
    + intros m' [->|Hm']%elem_of_cons; [naive_solver|]. destruct (Hall m' Hm') as [Hc Hl]. split; [done|].
      destruct (decide (km_claim m' = km_claim m)) as [Heq|Hne]; [rewrite Heq, Hb; naive_solver|].
      by rewrite lookup_insert_ne in Hl.
    + intros n. rewrite Hby. destruct (decide (n = km_claim m)) as [->|Hne].
      * rewrite lookup_insert_eq. rewrite (bool_decide_true (_ ∈ km_claim m :: _)) by left. by case_bool_decide.
      * rewrite lookup_insert_ne by done. by rewrite (bool_decide_ext (n ∈ km_claim m :: _) (n ∈ map km_claim l)) by set_solver.
Qed.

Definition mounts_claim (s : DeploymentService) (n : string) : Prop := n ∈ map km_claim (s_volumes s).

Lemma service_claims_ok services by0 by1 :
  Forall (fun s => s_name s <> "") services -> service_claims services by0 = Ok by1 ->
  (forall n b, by0 !! n = Some b -> b <> "" -> by1 !! n = Some b) /\
  (forall s n, s ∈ services -> mounts_claim s n -> is_Some (by0 !! n) /\ by1 !! n = Some (s_name s)) /\
  (forall n b, by1 !! n = Some b -> by0 !! n = Some b \/ exists s, s ∈ services /\ mounts_claim s n) /\
  (forall n, is_Some (by0 !! n) -> is_Some (by1 !! n)).
Proof.
  intros Hne; revert by0; induction Hne as [|s services Hs Hne IH]; intros by0; simpl.
  - intros [= <-]. split_and!; [done|set_solver|auto|done].
  - destruct (_ >? _); [done|]. intros (by' & (Hm & Hby)%claim_mounts_ok & (K1 & K2 & K3 & K4)%IH)%bind_res_ok.
    assert (Hkeep : forall n b, by0 !! n = Some b -> b <> "" -> by' !! n = Some b).
    { intros n b Hb Hnb. rewrite Hby. case_bool_decide as Hin; [|done].
      apply list_elem_of_fmap in Hin as (m & -> & Hin). destruct (Hm m Hin) as [_ [E|E]]; congruence. }
    split_and!.
    + eauto.
    + intros s' n [->|Hs']%elem_of_cons Hmt.
      * assert (Hmt' := Hmt). apply list_elem_of_fmap in Hmt as (m & -> & Hin). destruct (Hm m Hin) as [_ Hb].
        split; [destruct Hb as [->| ->]; by eexists|]. apply K1; [|done]. rewrite Hby. by rewrite bool_decide_true.
      * destruct (K2 s' n Hs' Hmt) as [Hb ?]. split; [|done]. rewrite Hby in Hb. case_bool_decide as Hin; [|done].
        apply list_elem_of_fmap in Hin as (m & -> & Hin). destruct (Hm m Hin) as [_ [->| ->]]; by eexists.
    + intros n b Hb. destruct (K3 n b Hb) as [Hb'|(s' & ? & ?)].
      * rewrite Hby in Hb'. case_bool_decide as Hin; [|by left]. right. exists s. split; [left|done].
      * right. exists s'. split; [by right|done].
    + intros n Hn. apply K4. rewrite Hby. by case_bool_decide.
Qed.

Lemma kube_services_names names ips l :
  kube_services_loop names ips l = Ok tt ->
  Forall (fun s => kube_service_ok s = true) l /\ NoDup (map s_name l) /\ (forall s, s ∈ l -> s_name s ∉ names).
Proof.
  revert names ips; induction l as [|s l IH]; intros names ips; simpl; [intros _; split_and!; [constructor|constructor|set_solver]|].
  intros ([names1 ips1] & Hs & H)%bind_res_ok. unfold kube_service_step in Hs. refusals Hs. injection Hs as <- <-.
  apply orb_false_iff in Hg as [Hok%negb_false_iff Hn%bool_decide_eq_false].
  destruct (IH _ _ H) as (Hall & Hnd & Hf). split_and!.
  - by constructor.
  - constructor; [|done]. intros (s' & Heq & Hs')%list_elem_of_fmap. specialize (Hf s' Hs'). simpl in Hf. set_solver.
  - intros s' [->|Hs']%elem_of_cons; [done|]. specialize (Hf s' Hs'). simpl in Hf. set_solver.
Qed.

Lemma deploymentService_nonempty s : re_match deploymentService s = true -> s <> "".
Proof. intros H ->. vm_compute in H. done. Qed.

(** The claims of an accepted cluster frame. *)
Lemma validClaims_exact k services :
  Forall (fun s => s_name s <> "") services -> NoDup (map s_name services) ->
  validClaims (kt_claims k) services = Ok tt ->
  NoDup (map k_name (kt_claims k)) /\
  (forall c, c ∈ kt_claims k -> exists s, s ∈ services /\ mounts_claim s (k_name c) /\
     forall s', s' ∈ services -> mounts_claim s' (k_name c) -> s_name s' = s_name s) /\
  (forall s n, s ∈ services -> mounts_claim s n -> n ∈ map k_name (kt_claims k)).
Proof.
  intros Hne Hnd H. unfold validClaims in H. refusals H.
  match goal with H : claims_loop _ _ = _ |- _ => apply claims_loop_ok in H as (Hall & Hnames & Hdecl) end.
  match goal with H : service_claims _ _ = _ |- _ => apply (service_claims_ok _ _ _ Hne) in H as (K1 & K2 & K3 & K4) end.
  match goal with H : negb (forallb _ _) = false |- _ => apply negb_false_iff in H; pose proof (proj1 (List.forallb_forall _ _) H) as Hm end.
  assert (Hin : forall n, n ∈ map k_name (kt_claims k) <-> is_Some (a !! n)).
  { intros n. rewrite Hdecl, lookup_empty. case_bool_decide; [by split|]. split; [done|by intros []]. }
  split_and!; [done| |].
  - intros c Hc. assert (Hk : k_name c ∈ map k_name (kt_claims k)) by (by apply list_elem_of_fmap_2).
    assert (E0 : a !! k_name c = Some "") by (by rewrite Hdecl, bool_decide_true).
    assert (Hs : exists s, s ∈ services /\ mounts_claim s (k_name c)).
    { destruct (a0 !! k_name c) as [b|] eqn:Hb.
      - destruct (K3 _ _ Hb) as [Hb'|?]; [|done]. assert (b = "") as -> by congruence. exfalso.
        assert (Hx : In (k_name c, "") (map_to_list a0)) by (by apply list_elem_of_In, elem_of_map_to_list).
        specialize (Hm _ Hx). done.
      - exfalso. destruct (K4 (k_name c)) as [? ?]; [by rewrite E0|congruence]. }
    destruct Hs as (s & Hs & Hmt). exists s. split_and!; try done. intros s' Hs' Hmt'.
    destruct (K2 s _ Hs Hmt). destruct (K2 s' _ Hs' Hmt'). congruence.
  - intros s n Hs Hmt. apply Hin. by destruct (K2 s n Hs Hmt).
Qed.

(** A path the agent and the runtime read alike: no element is empty, "." or "..". *)
Definition clean_path (p : string) : Prop := cleanAbsolute p = true /\ Forall plain_segment (elements p).

(** What a valid Docker frame leaves no doubt about. *)
Record DockerFrame (r : DeploymentRequest) : Prop := {
  df_names : NoDup (map s_name (dr_services r));
  df_containers : NoDup (map s_container (dr_services r));
  df_replaced : NoDup (map (fun s => it_container (s_replaces s)) (dr_services r));
  df_bindings : exists bs,
    Forall2 (fun p b => port_binding true (dr_explicit r) p = Ok b) (mjoin (map s_ports (dr_services r))) bs /\ NoDup bs;
  df_mounts : forall s, s ∈ dr_services r -> exists ms, s_mounts s = Some ms /\ NoDup (map m_target ms) /\
    forall m, m ∈ ms -> clean_path (m_target m) /\ (m_kind m = MountBind -> clean_path (m_source m));
  df_volumes : NoDup (dr_volumes r) /\ forall v, v ∈ dr_volumes r <->
    exists s ms m, s ∈ dr_services r /\ s_mounts s = Some ms /\ m ∈ ms /\ m_kind m = MountVolume /\ m_source m = v;
  df_credentials : forall host a, dr_registries r !! host = Some a ->
    exists s p, s ∈ dr_services r /\ s_pull s = Some p /\ Host p = host }.

(** What a valid cluster frame leaves no doubt about. *)
Record ClusterFrame (r : DeploymentRequest) (k : KubernetesTarget) : Prop := {
  cf_plain : dr_explicit r = false /\ dr_volumes r = [] /\ dr_registries r = ∅;
  cf_names : NoDup (map s_name (dr_services r));
  cf_claims : NoDup (map k_name (kt_claims k));
  cf_mounted : forall c, c ∈ kt_claims k -> exists s, s ∈ dr_services r /\ mounts_claim s (k_name c) /\
    forall s', s' ∈ dr_services r -> mounts_claim s' (k_name c) -> s_name s' = s_name s;
  cf_declared : forall s n, s ∈ dr_services r -> mounts_claim s n -> n ∈ map k_name (kt_claims k) }.

Lemma mount_bind_plain tmpfs m :
  mount_target_ok tmpfs m = true -> m_kind m = MountBind -> clean_path (m_source m).
Proof.
  unfold mount_target_ok. intros H Hk. rewrite Hk in H. rewrite (bool_decide_false (MountBind = MountVolume)) in H by done.
  rewrite (bool_decide_true (MountBind = MountBind)) in H by done. simpl in H.
  destruct (cleanAbsolute (m_source m)) eqn:E; [split; [done|by apply cleanAbsolute_elements]|]. by rewrite andb_false_r in H.
Qed.

(** The volumes a service mounts and the registry host it pulls from. *)
Definition mounts_volume (s : DeploymentService) (v : string) : Prop :=
  exists ms m, s_mounts s = Some ms /\ m ∈ ms /\ m_kind m = MountVolume /\ m_source m = v.
Definition pulls_from (s : DeploymentService) (h : string) : Prop := exists p, s_pull s = Some p /\ Host p = h.

Lemma step_mounted explicit a s b :
  service_step explicit a s = Ok b -> forall v, v ∈ seen_mounted b <-> v ∈ seen_mounted a \/ mounts_volume s v.
Proof.
  intros (_ & _ & _ & _ & ms & Hms & Hv & _)%service_step_parts v.
  apply validMounts_ok, mounts_loop_ok in Hv as (_ & _ & _ & Hu). rewrite Hu. unfold mounts_volume. rewrite Hms. naive_solver.
Qed.

Lemma step_pulled explicit a s b :
  service_step explicit a s = Ok b -> forall h, h ∈ seen_pulled b <-> h ∈ seen_pulled a \/ pulls_from s h.
Proof.
  intros (_ & _ & _ & _ & ms & _ & _ & _ & _ & _ & _ & _ & ->)%service_step_parts h.
  unfold pulls_from. destruct (s_pull s) as [p|]; set_solver.
Qed.

Lemma validate_docker_ok r : validate_docker r = Ok tt -> DockerFrame r.
Proof.
  unfold validate_docker. intros H. refusals H. rename a into seen.
  match goal with H : services_loop _ _ _ = _ |- _ => rename H into Hl end.
  match goal with H : negb (seen_loop _ _ _ _) = false |- _ => apply negb_false_iff, seen_loop_spec in H as (Hin & Hnd & _) end.
  match goal with H : negb (bool_decide (size _ = _)) = false |- _ => apply negb_false_iff, bool_decide_eq_true in H; rename H into Hsize end.
  match goal with H : negb (forallb _ _) = false |- _ => apply negb_false_iff in H; pose proof (proj1 (List.forallb_forall _ _) H) as Hcred end.
  rewrite map_id in Hnd.
  assert (Hmounted := loop_union _ mounts_volume seen_mounted _ _ _ (step_mounted _) Hl).
  assert (Hpulled := loop_union _ pulls_from seen_pulled _ _ _ (step_pulled _) Hl). simpl in Hmounted, Hpulled.
  assert (Hset : (list_to_set (dr_volumes r) : gset string) = seen_mounted seen).
  { apply leibniz_equiv, set_subseteq_size_equiv; [|lia]. intros v Hv%elem_of_list_to_set.
    rewrite Forall_forall in Hin. by apply (bool_decide_eq_true_1 (v ∈ seen_mounted seen)), Hin. }
  split.
  - eapply (loop_distinct (dr_explicit r) s_name seen_names); [|exact Hl].
    intros a s b (_ & ? & _ & _ & ms & _ & _ & _ & _ & -> & _)%service_step_parts. done.
  - eapply (loop_distinct (dr_explicit r) s_container seen_containers); [|exact Hl].
    intros a s b (_ & _ & ? & _ & ms & _ & _ & _ & _ & _ & -> & _)%service_step_parts. done.
  - eapply (loop_distinct (dr_explicit r) (fun s => it_container (s_replaces s)) seen_replaces); [|exact Hl].
    intros a s b (_ & _ & _ & ? & ms & _ & _ & _ & _ & _ & _ & -> & _)%service_step_parts. done.
  - apply loop_bindings in Hl as (bs & ? & ? & _). eauto.
  - intros s Hs. revert s Hs. apply Forall_forall. eapply (loop_all (dr_explicit r)); [|exact Hl].
    intros a s b (_ & _ & _ & _ & ms & Hms & Hv & _)%service_step_parts. exists ms. split; [done|].
    apply validMounts_ok, mounts_loop_ok in Hv as (Hall & Hn & _). split; [done|]. intros m Hm.
    rewrite Forall_forall in Hall. destruct (Hall m Hm) as [Hc Ht].
    split; [split; [done|by apply cleanAbsolute_elements]|by eapply mount_bind_plain].
  - split; [done|]. intros v. rewrite <- (elem_of_list_to_set (C:=gset string)), Hset, Hmounted. unfold mounts_volume. set_solver.
  - intros host a Ha. specialize (Hcred (host, a)). simpl in Hcred. unfold credential_ok in Hcred.
    rewrite !andb_true_iff, bool_decide_eq_true in Hcred. destruct Hcred as (((((Hp & _) & _) & _) & _) & _).
    { by apply list_elem_of_In, elem_of_map_to_list. }
    apply Hpulled in Hp as [Hp|(s & ? & p & ? & ?)]; [set_solver|]. by exists s, p.
Qed.

Lemma validateKubernetes_ok r k :
  dr_explicit r = false -> validateKubernetes r k = Ok tt -> ClusterFrame r k.
Proof.
  unfold validateKubernetes. intros He H. refusals H. apply orb_false_iff in Hg as [[_ Hv%negb_false_iff%Z.eqb_eq]%orb_false_iff Hr%negb_false_iff%Z.eqb_eq].
  match goal with H : kube_services_loop _ _ _ = Ok ?a |- _ => destruct a; apply kube_services_names in H as (Hok & Hnd & _) end.
  apply validClaims_exact in H as (H1 & H2 & H3); [|clear -Hok|done].
  - split; try done. split_and!; [done| |].
    + destruct (dr_volumes r); [done|]. unfold llen in Hv. simpl in Hv. lia.
    + apply map_size_empty_inv. unfold msize in Hr. lia.
  - eapply Forall_impl; [exact Hok|]. intros s Hs. apply deploymentService_nonempty.
    unfold kube_service_ok in Hs. rewrite !andb_true_iff in Hs. tauto.
Qed.

Lemma issued_ok at_ deadline now :
  issued at_ deadline now = Ok tt -> Z.abs (now - at_) <= MaxClockSkew /\ at_ < deadline <= at_ + DeploymentLifetime.
Proof.
  unfold issued. intros H. refusals H. apply orb_false_iff in Hg0 as [E1 E2], Hg1 as [E3%negb_false_iff E4].
  rewrite Z.gtb_ltb, Z.ltb_ge in E1, E4. rewrite Z.ltb_ge in E2. rewrite Z.gtb_lt in E3.
  unfold time_sub, min_duration, max_duration, MaxClockSkew, Minute, Second in *. lia.
Qed.

Lemma request_validate_docker r now :
  request_validate r now = Ok tt -> dr_explicit r = true -> dr_kubernetes r = None /\ DockerFrame r.
Proof.
  unfold request_validate. intros H He. refusals H. rewrite He in H.
  destruct (dr_kubernetes r) as [k|]; refusals H; [done|]. split; [done|by apply validate_docker_ok].
Qed.

(** A deployment frame that validates leaves the agent nothing to guess.  Its clock agrees
    within five minutes and its deadline lies ahead, at most fifteen minutes away.  On a Docker
    host no two services share a name, a container name, a replaced container or a port binding;
    every mount has its own clean path that no element can climb out of; the volumes listed are exactly those
    mounted; and every credential belongs to a registry some service pulls from.  On a
    cluster every claim is declared once and mounted by exactly one service, and no Docker volume
    or credential travels. *)
Theorem request_validate_sound r now :
  request_validate r now = Ok tt ->
  (Z.abs (now - dr_issued r) <= 5 * Minute /\ dr_issued r < dr_deadline r <= dr_issued r + 15 * Minute /\
   now < dr_deadline r <= now + 15 * Minute) /\
  1 <= llen (dr_services r) <= 100 /\
  match dr_kubernetes r with None => DockerFrame r | Some k => ClusterFrame r k end.
Proof.
  unfold request_validate. intros H. refusals H.
  match goal with H : issued _ _ _ = Ok ?a |- _ => destruct a; apply issued_ok in H as [? ?] end.
  apply orb_false_iff in Hg0 as [E1%negb_false_iff%Z.gtb_lt E2], Hg1 as [E3%Z.eqb_neq E4].
  rewrite Z.gtb_ltb, Z.ltb_ge in E2, E4. pose proof (llen_nonneg (dr_services r)).
  unfold DeploymentLifetime, MaxClockSkew, MaxDeploymentServices in *. split_and!; try lia.
  destruct (dr_kubernetes r) as [k|]; refusals H; [by apply validateKubernetes_ok|by apply validate_docker_ok].
Qed.

Definition demo_hex : string := "0123456789abcdef0123456789abcdef0123456789abcdef0123456789abcdef".
Definition demo_service : DeploymentService :=
  mkService "web" "shop-web-1" "" (mkTarget demo_hex ("sha256:" +:+ demo_hex) 17 no_workload) "always"
    [mkPort "127.0.0.1" 8080 80 "tcp"; mkPort "" 8080 80 "tcp"; mkPort "::" 8080 80 "tcp"] {["MODE" := "prod"]}
    (Some (mkPull ("registry.example/shop/web@sha256:" +:+ demo_hex) ("sha256:" +:+ demo_hex) "registry.example/shop/web:1"))
    (Some [mkMount MountVolume "shop_data" "/data" false; mkMount MountBind "/srv/shop" "/srv" true]) [] [] "" None.
Definition demo_request : DeploymentRequest :=
  mkRequest "01234567-89ab-cdef-0123-456789abcdef" "req-1" "host-1" "shop" 3 (10 * Minute) (20 * Minute) [demo_service]
    {["registry.example" := mkAuth "bot" "secret"]} ["shop_data"] None false.
Definition demo_cluster : DeploymentRequest :=
  mkRequest "01234567-89ab-cdef-0123-456789abcdef" "req-1" "cluster-1" "shop" 3 (10 * Minute) (20 * Minute)
    [mkService "web" "" "" no_target "always" [mkPort "" 8080 80 "tcp"] ∅
       (Some (mkPull ("registry.example/shop/web@sha256:" +:+ demo_hex) ("sha256:" +:+ demo_hex) "")) None []
       [mkKMount "data" "/data" false] "10.0.0.7" None] ∅ []
    (Some (mkKTarget "shop" "01234567-89ab-cdef-0123-456789abcdef" "01234567-89ab-cdef-0123-456789abcdef"
       ("sha256:" +:+ demo_hex) [mkClaim "data" "" "5Gi" "ReadWriteOnce"])) false.

Example demo_request_ok : request_validate demo_request (11 * Minute) = Ok tt.
Proof. vm_compute. reflexivity. Qed.
Example demo_cluster_ok : request_validate_for RuntimeKubernetes demo_cluster (11 * Minute) = Ok tt.
Proof. vm_compute. reflexivity. Qed.

Lemma request_validate_sound_witness :
  DockerFrame demo_request /\ Z.abs (11 * Minute - dr_issued demo_request) <= 5 * Minute.
Proof.
  destruct (request_validate_sound demo_request (11 * Minute)) as ((H & _ & _) & _ & Hf); [vm_compute; reflexivity|].
  split; [exact Hf|exact H].
Defined.
