(* ===== verification/Inventory.v ===== *)
(** * Inventories

    The records of internal/agent/protocol/inventory.go and kubernetes.go: what an agent reports
    of a Docker host (containers, images, networks, volumes) or of a cluster (nodes, workloads,
    pods, services, claims, storage classes), and the two checks that read a snapshot whole,
    [CheckRuntimeShape] and [ClusterHealth].

    A nil list and an empty one are the same, except a container's mounts: nil ([None]) says the
    agent did not report them.  Integers the code only carries (sizes, counters) are [Z]. *)
From Stdlib Require Import ZArith Ascii String.
From stdpp Require Import base gmap strings list.
From S2P Require Import Prelude.
From S2P Require Import Inspection.
From S2P Require Import Frame.

Record NetworkAttachment := mkAttachment { na_name : string; na_ip : string; na_ip6 : string }.
Record Container := mkContainer {
  ct_id : string; ct_name : string; ct_image : string; ct_image_id : string; ct_state : string;
  ct_status : string; ct_created : time; ct_started : time; ct_health : string; ct_restart : string;
  ct_ports : list Port; ct_labels : gmap string string; ct_networks : list string;
  ct_attachments : list NetworkAttachment; ct_project : string;
  ct_mounts : option (list Mount); ct_mounts_cut : bool }.
Record Image := mkImage {
  im_id : string; im_tags : list string; im_digests : list string; im_size : Z; im_created : time }.
Record Network := mkNetwork { nw_id : string; nw_name : string; nw_driver : string; nw_scope : string }.
Record Volume := mkVolume {
  vo_name : string; vo_driver : string; vo_mountpoint : string; vo_created : time; vo_plain : bool }.
Record Engine := mkEngine {
  en_runtime : string; en_version : string; en_api : string; en_os : string; en_arch : string;
  en_kernel : string; en_cpus : Z; en_memory : Z; en_hostname : string }.

Record Node := mkNode {
  nd_name : string; nd_kubelet : string; nd_os : string; nd_arch : string; nd_ready : bool;
  nd_roles : list string; nd_unschedulable : bool }.
Record Workload := mkWorkload {
  wl_kind : string; wl_namespace : string; wl_name : string; wl_desired : Z; wl_ready : Z; wl_updated : Z;
  wl_images : list string; wl_paused : bool; wl_application : string; wl_instance : string }.
Record Pod := mkPodEntry {
  po_namespace : string; po_name : string; po_uid : string; po_phase : string; po_node : string;
  po_owner_kind : string; po_owner_name : string; po_started : time; po_containers : list PodContainer }.
Record KService := mkKService {
  ks_namespace : string; ks_name : string; ks_type : string; ks_ip : string; ks_ports : list string;
  ks_instance : string; ks_service : string }.
Record Claim := mkClaimEntry {
  kc_namespace : string; kc_name : string; kc_phase : string; kc_class : string; kc_capacity : string }.
Record StorageClass := mkStorageClass { sc_name : string; sc_default : bool }.
Record KubernetesInventory := mkKubernetes {
  ki_nodes : list Node; ki_namespaces : list string; ki_workloads : list Workload; ki_pods : list Pod;
  ki_services : list KService; ki_claims : list Claim; ki_classes : list StorageClass }.

Record Snapshot := mkSnapshot {
  sn_generation : Z; sn_observed : time; sn_engine : Engine;
  sn_containers : list Container; sn_images : list Image; sn_networks : list Network; sn_volumes : list Volume;
  sn_kubernetes : option KubernetesInventory; sn_truncated : list string }.

Definition no_engine : Engine := mkEngine "" "" "" "" "" "" 0 0 "".
(** A snapshot of nothing but the lists the store's checks read. *)
Definition bare_snapshot (cs : list Container) (ims : list Image) (k : option KubernetesInventory) : Snapshot :=
  mkSnapshot 0 0 no_engine cs ims [] [] k [].
Definition bare_container (id name image image_id state : string) (created : time) (ports : list Port) (mounts : option (list Mount)) : Container :=
  mkContainer id name image image_id state "" created 0 "" "" ports ∅ [] [] "" mounts false.

(** ** What a snapshot says as a whole *)

Definition CheckRuntimeShape (runtime : string) (s : Snapshot) : bool :=
  if bool_decide (runtime = RuntimeKubernetes) then
    bool_decide (is_Some (sn_kubernetes s))
    && negb (llen (sn_containers s) + llen (sn_images s) + llen (sn_networks s) + llen (sn_volumes s) >? 0)
  else negb (bool_decide (is_Some (sn_kubernetes s))).

Definition HealthHealthy : string := "healthy".
Definition HealthDegraded : string := "degraded".
Definition HealthUnknown : string := "unknown".

Definition ClusterHealth (active : bool) (s : option Snapshot) : string :=
  match s with
  | Some s =>
      match sn_kubernetes s with
      | Some k =>
          if negb active || (llen (ki_nodes k) =? 0) then HealthUnknown
          else if negb (forallb nd_ready (ki_nodes k)) then HealthDegraded
          else if bool_decide ("nodes" ∈ sn_truncated s) then HealthUnknown
          else HealthHealthy
      | None => HealthUnknown
      end
  | None => HealthUnknown
  end.
