(* ===== verification/Clamp.v ===== *)
(** * Clamping and shrinking what an agent reports

    [Clamp], [Shrink] and [ShrinkMetrics] of internal/agent/protocol/inventory.go with
    [clampKubernetes] and [shrinkKubernetes] of kubernetes.go: a snapshot conforms to the
    declared schema by construction, and fits the one size limit both sides enforce.

    [Marshal] and [MarshalMetrics] stand for [json.Marshal]: the encoding of a snapshot, or
    [None] when it has none, and the length of a metrics frame's. *)
From Stdlib Require Import ZArith Lia Ascii String.
From stdpp Require Import base gmap strings list sorting.
From S2P Require Import Prelude.
From S2P Require Import Regex.
From S2P Require Import Text.
From S2P Require Import Grammar.
From S2P Require Import NetIP.
From S2P Require Import Inspection.
From S2P Require Import Frame.
From S2P Require Import Inventory.
#[local] Open Scope Z_scope.

Definition MaxContainers : Z := 1000.
Definition MaxImages : Z := 1000.
Definition MaxNetworks : Z := 200.
Definition MaxVolumes : Z := 500.
Definition MaxSnapshotBytes : Z := 1048576.
Definition MaxNameBytes : Z := 255.
Definition MaxImageRefBytes : Z := 512.
Definition MaxStatusBytes : Z := 128.
Definition MaxNetworkAttachments : Z := 32.
Definition MaxSamples : Z := 1000.
Definition MaxMetricsBytes : Z := 65536.
Definition MaxNodes : Z := 500.
Definition MaxNamespaces : Z := 500.
Definition MaxWorkloads : Z := 2000.
Definition MaxPods : Z := 2000.
Definition MaxServices : Z := 2000.
Definition MaxClaims : Z := 1000.
Definition MaxStorageClasses : Z := 100.
Definition MaxWorkloadImages : Z := 32.
Definition MaxNodeRoles : Z := 16.
Definition MaxServicePorts : Z := 32.
Definition MaxKubeNameBytes : Z := 253.
Definition MaxKubeImageBytes : Z := 1024.
Definition MaxKubeShortBytes : Z := 64.

Definition MountOther : string := "other".
Definition HealthStates : list string := ["none"; "starting"; "healthy"; "unhealthy"].
Definition truncatable : list string :=
  ["containers"; "images"; "networks"; "volumes"; "labels"; "nodes"; "namespaces"; "workloads"; "pods"; "services"; "claims";
   "storage_classes"].

#[local] Arguments CleanText : simpl never.
#[local] Arguments re_match : simpl never.

(** ** Cleaning *)

(** [l[:max]] when [l] is longer. *)
Definition cut {A} (max : Z) (l : list A) : list A := take (Z.to_nat max) l.
Definition over {A} (max : Z) (l : list A) : bool := llen l >? max.

(** The sorted keys, [MaxLabels] of them at most; two keys that clean to one keep the later. *)
Fixpoint labels_loop (l : list (string * string)) (out : gmap string string) : gmap string string :=
  match l with
  | [] => out
  | (k, v) :: l' =>
      if msize out >=? MaxLabels then out
      else labels_loop l' (<[CleanText k MaxLabelBytes := CleanText v MaxLabelBytes]> out)
  end.
Definition key_le (a b : string * string) : Prop := String.leb a.1 b.1 = true.
#[export] Instance key_le_dec : RelDecision key_le.
Proof. intros a b. unfold key_le. apply _. Defined.
Definition cleanLabels (m : gmap string string) : gmap string string := labels_loop (merge_sort key_le (map_to_list m)) ∅.

Definition cleanIP (s : string) (family : Addr -> bool) : string :=
  match ParseAddr s with
  | Some a => if negb (bool_decide (addr_zone a = "")) || negb (family a) then "" else s
  | None => ""
  end.
Definition Is4 (a : Addr) : bool := addr_is4 a.
Definition Is6 (a : Addr) : bool := negb (addr_is4 a).

Definition cleanList (l : list string) (max each : Z) : list string := map (fun s => CleanText s each) (cut max l).

(** ** Clamp *)

Definition clamp_engine (e : Engine) : Engine :=
  mkEngine (CleanText (en_runtime e) 32) (CleanText (en_version e) 64) (CleanText (en_api e) 32) (CleanText (en_os e) 64)
    (CleanText (en_arch e) 32) (CleanText (en_kernel e) 128) (en_cpus e) (en_memory e) (CleanText (en_hostname e) MaxNameBytes).

Definition clamp_port (p : Port) : Port :=
  mkPort (CleanText (port_host_ip p) 64) (port_host p) (port_container p) (CleanText (port_protocol p) 8).
Definition clamp_attachment (n : NetworkAttachment) : NetworkAttachment :=
  mkAttachment (CleanText (na_name n) MaxNameBytes) (cleanIP (na_ip n) Is4) (cleanIP (na_ip6 n) Is6).
Definition clamp_mount (m : Mount) : Mount :=
  mkMount (if bool_decide (m_kind m = MountVolume) || bool_decide (m_kind m = MountBind) then m_kind m else MountOther)
    (CleanText (m_source m) MaxImageRefBytes) (CleanText (m_target m) MaxImageRefBytes) (m_readonly m).
(** A cut or cleaned path no longer names the mount. *)
Definition mount_changed (m : Mount) : bool :=
  negb (bool_decide (m_source (clamp_mount m) = m_source m)) || negb (bool_decide (m_target (clamp_mount m) = m_target m)).

Definition clamp_container (c : Container) : Container :=
  let kept := cut MaxMounts <$> ct_mounts c in
  mkContainer (CleanText (ct_id c) 128) (CleanText (ct_name c) MaxNameBytes) (CleanText (ct_image c) MaxImageRefBytes)
    (CleanText (ct_image_id c) 128) (CleanText (ct_state c) 32) (CleanText (ct_status c) MaxStatusBytes) (ct_created c) (ct_started c)
    (if bool_decide (ct_health c ∈ HealthStates) then ct_health c else "") (CleanText (ct_restart c) 32)
    (map clamp_port (cut 64 (ct_ports c))) (cleanLabels (ct_labels c))
    (map (fun s => CleanText s MaxNameBytes) (cut MaxNetworkAttachments (ct_networks c)))
    (map clamp_attachment (cut MaxNetworkAttachments (ct_attachments c))) (CleanText (ct_project c) MaxNameBytes)
    (map clamp_mount <$> kept)
    (ct_mounts_cut c || over MaxMounts (default [] (ct_mounts c)) || existsb mount_changed (default [] kept)).

Definition clamp_image (im : Image) : Image :=
  mkImage (CleanText (im_id im) 128) (cleanList (im_tags im) 32 MaxImageRefBytes) (cleanList (im_digests im) 32 MaxImageRefBytes)
    (im_size im) (im_created im).
Definition clamp_network (n : Network) : Network :=
  mkNetwork (CleanText (nw_id n) 128) (CleanText (nw_name n) MaxNameBytes) (CleanText (nw_driver n) 64) (CleanText (nw_scope n) 32).
Definition clamp_volume (v : Volume) : Volume :=
  mkVolume (CleanText (vo_name v) MaxNameBytes) (CleanText (vo_driver v) 64) (CleanText (vo_mountpoint v) MaxImageRefBytes)
    (vo_created v) (vo_plain v).

Definition short (s : string) : string := CleanText s MaxKubeShortBytes.
Definition kname (s : string) : string := CleanText s MaxKubeNameBytes.

Definition clamp_node (n : Node) : Node :=
  mkNode (kname (nd_name n)) (short (nd_kubelet n)) (short (nd_os n)) (short (nd_arch n)) (nd_ready n)
    (cleanList (nd_roles n) MaxNodeRoles MaxKubeShortBytes) (nd_unschedulable n).
Definition clamp_workload (w : Workload) : Workload :=
  mkWorkload (short (wl_kind w)) (kname (wl_namespace w)) (kname (wl_name w)) (wl_desired w) (wl_ready w) (wl_updated w)
    (cleanList (wl_images w) MaxWorkloadImages MaxKubeImageBytes) (wl_paused w) (short (wl_application w)) (short (wl_instance w)).
Definition clamp_pod_container (c : PodContainer) : PodContainer :=
  mkPodContainer (kname (pc_name c)) (CleanText (pc_image c) MaxKubeImageBytes) (CleanText (pc_image_id c) MaxKubeImageBytes)
    (short (pc_state c)) (short (pc_reason c)) (pc_ready c) (pc_restarts c).
Definition clamp_pod (p : Pod) : Pod :=
  mkPodEntry (kname (po_namespace p)) (kname (po_name p)) (if re_match deploymentUUID (po_uid p) then po_uid p else "")
    (short (po_phase p)) (kname (po_node p)) (short (po_owner_kind p)) (kname (po_owner_name p)) (po_started p)
    (map clamp_pod_container (cut MaxPodContainers (po_containers p))).
Definition clamp_service (s : KService) : KService :=
  mkKService (kname (ks_namespace s)) (kname (ks_name s)) (short (ks_type s)) (short (ks_ip s))
    (cleanList (ks_ports s) MaxServicePorts MaxKubeShortBytes) (short (ks_instance s)) (short (ks_service s)).
Definition clamp_claim (c : Claim) : Claim :=
  mkClaimEntry (kname (kc_namespace c)) (kname (kc_name c)) (short (kc_phase c)) (kname (kc_class c)) (short (kc_capacity c)).
Definition clamp_class (c : StorageClass) : StorageClass := mkStorageClass (kname (sc_name c)) (sc_default c).

(** The clamped lists, and the names of those that were cut. *)
Definition named (name : string) (b : bool) : gset string := if b then {[name]} else ∅.
Definition clampKubernetes (k : KubernetesInventory) : KubernetesInventory * gset string :=
  let pods := cut MaxPods (ki_pods k) in
  (mkKubernetes (map clamp_node (cut MaxNodes (ki_nodes k))) (cleanList (cut MaxNamespaces (ki_namespaces k)) MaxNamespaces MaxKubeNameBytes)
     (map clamp_workload (cut MaxWorkloads (ki_workloads k))) (map clamp_pod pods)
     (map clamp_service (cut MaxServices (ki_services k))) (map clamp_claim (cut MaxClaims (ki_claims k)))
     (map clamp_class (cut MaxStorageClasses (ki_classes k))),
   named "nodes" (over MaxNodes (ki_nodes k)) ∪ named "namespaces" (over MaxNamespaces (ki_namespaces k))
   ∪ named "workloads" (over MaxWorkloads (ki_workloads k))
   ∪ named "pods" (over MaxPods (ki_pods k) || existsb (fun p => over MaxPodContainers (po_containers p)) pods)
   ∪ named "services" (over MaxServices (ki_services k)) ∪ named "claims" (over MaxClaims (ki_claims k))
   ∪ named "storage_classes" (over MaxStorageClasses (ki_classes k))).

(** The names in the order they are reported. *)
Definition report (t : gset string) : list string := List.filter (fun n => bool_decide (n ∈ t)) truncatable.

Definition Clamp (s : Snapshot) : Snapshot :=
  let kt := match sn_kubernetes s with Some k => let r := clampKubernetes k in (Some r.1, r.2) | None => (None, ∅) end in
  mkSnapshot (sn_generation s) (sn_observed s) (clamp_engine (sn_engine s))
    (map clamp_container (cut MaxContainers (sn_containers s))) (map clamp_image (cut MaxImages (sn_images s)))
    (map clamp_network (cut MaxNetworks (sn_networks s))) (map clamp_volume (cut MaxVolumes (sn_volumes s))) kt.1
    (report (list_to_set (map (fun t => CleanText t 16) (sn_truncated s))
             ∪ named "containers" (over MaxContainers (sn_containers s)) ∪ named "images" (over MaxImages (sn_images s))
             ∪ named "networks" (over MaxNetworks (sn_networks s)) ∪ named "volumes" (over MaxVolumes (sn_volumes s)) ∪ kt.2)).

(** ** Shrink *)

(** [l[:len(l)*3/4]]. *)
Definition tail_cut {A} (l : list A) : list A := take (Z.to_nat (llen l * 3 / 4)) l.

Definition drop_labels (c : Container) : Container :=
  mkContainer (ct_id c) (ct_name c) (ct_image c) (ct_image_id c) (ct_state c) (ct_status c) (ct_created c) (ct_started c)
    (ct_health c) (ct_restart c) (ct_ports c) ∅ (ct_networks c) (ct_attachments c) (ct_project c) (ct_mounts c) (ct_mounts_cut c).
Definition has_mounts (c : Container) : bool := llen (default [] (ct_mounts c)) >? 0.
Definition drop_mounts (c : Container) : Container :=
  if has_mounts c then
    mkContainer (ct_id c) (ct_name c) (ct_image c) (ct_image_id c) (ct_state c) (ct_status c) (ct_created c) (ct_started c)
      (ct_health c) (ct_restart c) (ct_ports c) (ct_labels c) (ct_networks c) (ct_attachments c) (ct_project c) (Some []) true
  else c.
Definition has_labels (c : Container) : bool := msize (ct_labels c) >? 0.

Definition set_lists (cs : list Container) (ims : list Image) (ns : list Network) (vs : list Volume)
    (k : option KubernetesInventory) (s : Snapshot) : Snapshot :=
  mkSnapshot (sn_generation s) (sn_observed s) (sn_engine s) cs ims ns vs k (sn_truncated s).

(** The cluster lists in the code's order: the name, the length, the cut. *)
Definition kube_lists (k : KubernetesInventory) : list (string * Z * KubernetesInventory) :=
  let mk ns nms ws ps ss cs scs := mkKubernetes ns nms ws ps ss cs scs in
  let '(mkKubernetes ns nms ws ps ss cs scs) := k in
  [("pods", llen ps, mk ns nms ws (tail_cut ps) ss cs scs); ("workloads", llen ws, mk ns nms (tail_cut ws) ps ss cs scs);
   ("services", llen ss, mk ns nms ws ps (tail_cut ss) cs scs); ("claims", llen cs, mk ns nms ws ps ss (tail_cut cs) scs);
   ("storage_classes", llen scs, mk ns nms ws ps ss cs (tail_cut scs)); ("namespaces", llen nms, mk ns (tail_cut nms) ws ps ss cs scs);
   ("nodes", llen ns, mk (tail_cut ns) nms ws ps ss cs scs)].
(** The first of the longest, when one is not empty. *)
Fixpoint longest {A} (l : list (string * Z * A)) (best : option (string * Z * A)) : option (string * Z * A) :=
  match l with
  | [] => best
  | x :: l' =>
      longest l' (if (x.1.2 >? 0) && match best with None => true | Some b => x.1.2 >? b.1.2 end then Some x else best)
  end.
Definition shrinkKubernetes (k : KubernetesInventory) : option (string * KubernetesInventory) :=
  match longest (kube_lists k) None with Some x => Some (x.1.1, x.2) | None => None end.

(** What one round drops, with the name it is reported under; [None] when nothing is left. *)
Definition shrink_round (s : Snapshot) : option (Snapshot * gset string) :=
  let cs := sn_containers s in let ims := sn_images s in let ns := sn_networks s in
  let vs := sn_volumes s in let k := sn_kubernetes s in
  if existsb has_labels cs then Some (set_lists (map drop_labels cs) ims ns vs k s, {["labels"]})
  else if existsb has_mounts cs then Some (set_lists (map drop_mounts cs) ims ns vs k s, ∅)
  else if (llen cs >=? llen ims) && (llen cs >=? llen vs) && (llen cs >? 0)
       then Some (set_lists (tail_cut cs) ims ns vs k s, {["containers"]})
  else if (llen ims >=? llen vs) && (llen ims >? 0) then Some (set_lists cs (tail_cut ims) ns vs k s, {["images"]})
  else if llen vs >? 0 then Some (set_lists cs ims ns (tail_cut vs) k s, {["volumes"]})
  else if llen ns >? 0 then Some (set_lists cs ims (tail_cut ns) vs k s, {["networks"]})
  else match k with
       | Some k =>
           match shrinkKubernetes k with
           | Some (name, k') => Some (set_lists cs ims ns vs (Some k') s, {[name]})
           | None => None
           end
       | None => None
       end.

Definition set_truncated (t : list string) (s : Snapshot) : Snapshot :=
  mkSnapshot (sn_generation s) (sn_observed s) (sn_engine s) (sn_containers s) (sn_images s) (sn_networks s) (sn_volumes s)
    (sn_kubernetes s) t.

Section shrink.
Context (Marshal : Snapshot -> option string).

Definition fits (s : Snapshot) : bool := match Marshal s with Some raw => len raw <=? MaxSnapshotBytes | None => false end.

(** The loop, [fuel] rounds of it at most: [None] when the fuel ran out. *)
Fixpoint shrink_loop (fuel : nat) (s : Snapshot) : option (Snapshot * option string) :=
  if fits s then Some (s, Marshal s)
  else match shrink_round s with
       | None => Some (s, Marshal s)
       | Some (s', dropped) =>
           match fuel with
           | O => None
           | S fuel' => shrink_loop fuel' (set_truncated (report (list_to_set (sn_truncated s) ∪ dropped)) s')
           end
       end.
End shrink.

(** What a round makes smaller: a length per list, one for the labels and one for the mounts. *)
Definition kube_weight (k : KubernetesInventory) : Z :=
  llen (ki_nodes k) + llen (ki_namespaces k) + llen (ki_workloads k) + llen (ki_pods k) + llen (ki_services k)
  + llen (ki_claims k) + llen (ki_classes k).
Definition weight (s : Snapshot) : Z :=
  (if existsb has_labels (sn_containers s) then 1 else 0) + (if existsb has_mounts (sn_containers s) then 1 else 0)
  + llen (sn_containers s) + llen (sn_images s) + llen (sn_networks s) + llen (sn_volumes s)
  + match sn_kubernetes s with Some k => kube_weight k | None => 0 end.

Definition Shrink (Marshal : Snapshot -> option string) (s : Snapshot) : option (Snapshot * option string) :=
  shrink_loop Marshal (Z.to_nat (weight s)) s.

(** ** ShrinkMetrics *)

(** One container's usage; [sp_cpu] is the bits of the float64, which nothing here reads. *)
Record Sample := mkSample {
  sp_container : string; sp_cpu : Z; sp_memory : Z; sp_memory_limit : Z; sp_rx : Z; sp_tx : Z; sp_pids : Z; sp_restarts : Z }.

Section metrics.
Context (MarshalMetrics : list Sample -> Z).

(** The binary search over [lo, hi] of a half-closed interval that shrinks by one at least. *)
Fixpoint prefix_search (fuel : nat) (samples : list Sample) (lo hi best : Z) : Z :=
  if lo <=? hi then
    match fuel with
    | O => best
    | S fuel' =>
        let mid := lo + (hi - lo) / 2 in
        if MarshalMetrics (take (Z.to_nat mid) samples) <=? MaxMetricsBytes
        then prefix_search fuel' samples (mid + 1) hi mid
        else prefix_search fuel' samples lo (mid - 1) best
    end
  else best.

Definition ShrinkMetrics (m : list Sample) : list Sample :=
  let samples := cut MaxSamples m in
  if MarshalMetrics samples <=? MaxMetricsBytes then samples
  else take (Z.to_nat (prefix_search (S (List.length samples)) samples 0 (llen samples) 0)) samples.
End metrics.

(** ** What a clamped snapshot holds *)

(** Text as the server stores it: within its bound, valid UTF-8, safe to show. *)
Definition bounded (bt : Z * string) : Prop :=
  len bt.2 <= bt.1 /\ ValidString bt.2 = true /\ Forall (fun r => dropped r = false) (runes bt.2).

Definition each (n : Z) (l : list string) : list (Z * string) := map (pair n) l.
Definition label_texts (m : gmap string string) : list (Z * string) :=
  mjoin (map (fun kv => [(MaxLabelBytes, kv.1); (MaxLabelBytes, kv.2)]) (map_to_list m)).

(** Every text of a snapshot but addresses and pod UIDs, each with its bound. *)
Definition engine_texts (e : Engine) : list (Z * string) :=
  [(32, en_runtime e); (64, en_version e); (32, en_api e); (64, en_os e); (32, en_arch e); (128, en_kernel e); (MaxNameBytes, en_hostname e)].
Definition container_texts (c : Container) : list (Z * string) :=
  [(128, ct_id c); (MaxNameBytes, ct_name c); (MaxImageRefBytes, ct_image c); (128, ct_image_id c); (32, ct_state c);
   (MaxStatusBytes, ct_status c); (32, ct_restart c); (MaxNameBytes, ct_project c)]
  ++ label_texts (ct_labels c) ++ each MaxNameBytes (ct_networks c) ++ each MaxNameBytes (map na_name (ct_attachments c))
  ++ each 64 (map port_host_ip (ct_ports c)) ++ each 8 (map port_protocol (ct_ports c))
  ++ each MaxImageRefBytes (map m_source (default [] (ct_mounts c))) ++ each MaxImageRefBytes (map m_target (default [] (ct_mounts c))).
Definition image_texts (im : Image) : list (Z * string) :=
  (128, im_id im) :: each MaxImageRefBytes (im_tags im) ++ each MaxImageRefBytes (im_digests im).
Definition network_texts (n : Network) : list (Z * string) :=
  [(128, nw_id n); (MaxNameBytes, nw_name n); (64, nw_driver n); (32, nw_scope n)].
Definition volume_texts (v : Volume) : list (Z * string) :=
  [(MaxNameBytes, vo_name v); (64, vo_driver v); (MaxImageRefBytes, vo_mountpoint v)].
Definition node_texts (n : Node) : list (Z * string) :=
  [(MaxKubeNameBytes, nd_name n); (MaxKubeShortBytes, nd_kubelet n); (MaxKubeShortBytes, nd_os n); (MaxKubeShortBytes, nd_arch n)]
  ++ each MaxKubeShortBytes (nd_roles n).
Definition workload_texts (w : Workload) : list (Z * string) :=
  [(MaxKubeShortBytes, wl_kind w); (MaxKubeNameBytes, wl_namespace w); (MaxKubeNameBytes, wl_name w);
   (MaxKubeShortBytes, wl_application w); (MaxKubeShortBytes, wl_instance w)] ++ each MaxKubeImageBytes (wl_images w).
Definition pod_container_texts (c : PodContainer) : list (Z * string) :=
  [(MaxKubeNameBytes, pc_name c); (MaxKubeImageBytes, pc_image c); (MaxKubeImageBytes, pc_image_id c);
   (MaxKubeShortBytes, pc_state c); (MaxKubeShortBytes, pc_reason c)].
Definition pod_texts (p : Pod) : list (Z * string) :=
  [(MaxKubeNameBytes, po_namespace p); (MaxKubeNameBytes, po_name p); (MaxKubeShortBytes, po_phase p); (MaxKubeNameBytes, po_node p);
   (MaxKubeShortBytes, po_owner_kind p); (MaxKubeNameBytes, po_owner_name p)] ++ mjoin (map pod_container_texts (po_containers p)).
Definition service_texts (s : KService) : list (Z * string) :=
  [(MaxKubeNameBytes, ks_namespace s); (MaxKubeNameBytes, ks_name s); (MaxKubeShortBytes, ks_type s); (MaxKubeShortBytes, ks_ip s);
   (MaxKubeShortBytes, ks_instance s); (MaxKubeShortBytes, ks_service s)] ++ each MaxKubeShortBytes (ks_ports s).
Definition claim_texts (c : Claim) : list (Z * string) :=
  [(MaxKubeNameBytes, kc_namespace c); (MaxKubeNameBytes, kc_name c); (MaxKubeShortBytes, kc_phase c);
   (MaxKubeNameBytes, kc_class c); (MaxKubeShortBytes, kc_capacity c)].
Definition kube_texts (k : KubernetesInventory) : list (Z * string) :=
  mjoin (map node_texts (ki_nodes k)) ++ each MaxKubeNameBytes (ki_namespaces k) ++ mjoin (map workload_texts (ki_workloads k))
  ++ mjoin (map pod_texts (ki_pods k)) ++ mjoin (map service_texts (ki_services k)) ++ mjoin (map claim_texts (ki_claims k))
  ++ each MaxKubeNameBytes (map sc_name (ki_classes k)).
Definition texts (s : Snapshot) : list (Z * string) :=
  engine_texts (sn_engine s) ++ mjoin (map container_texts (sn_containers s)) ++ mjoin (map image_texts (sn_images s))
  ++ mjoin (map network_texts (sn_networks s)) ++ mjoin (map volume_texts (sn_volumes s))
  ++ default [] (kube_texts <$> sn_kubernetes s).

(** Every list of a snapshot: its cap and its length. *)
Definition container_sizes (c : Container) : list (Z * Z) :=
  [(64, llen (ct_ports c)); (MaxLabels, msize (ct_labels c)); (MaxNetworkAttachments, llen (ct_networks c));
   (MaxNetworkAttachments, llen (ct_attachments c)); (MaxMounts, llen (default [] (ct_mounts c)))].
Definition image_sizes (im : Image) : list (Z * Z) := [(32, llen (im_tags im)); (32, llen (im_digests im))].
Definition kube_sizes (k : KubernetesInventory) : list (Z * Z) :=
  [(MaxNodes, llen (ki_nodes k)); (MaxNamespaces, llen (ki_namespaces k)); (MaxWorkloads, llen (ki_workloads k)); (MaxPods, llen (ki_pods k));
   (MaxServices, llen (ki_services k)); (MaxClaims, llen (ki_claims k)); (MaxStorageClasses, llen (ki_classes k))]
  ++ map (fun n => (MaxNodeRoles, llen (nd_roles n))) (ki_nodes k) ++ map (fun w => (MaxWorkloadImages, llen (wl_images w))) (ki_workloads k)
  ++ map (fun p => (MaxPodContainers, llen (po_containers p))) (ki_pods k) ++ map (fun s => (MaxServicePorts, llen (ks_ports s))) (ki_services k).
Definition sizes (s : Snapshot) : list (Z * Z) :=
  [(MaxContainers, llen (sn_containers s)); (MaxImages, llen (sn_images s)); (MaxNetworks, llen (sn_networks s)); (MaxVolumes, llen (sn_volumes s));
   (llen truncatable, llen (sn_truncated s))]
  ++ mjoin (map container_sizes (sn_containers s)) ++ mjoin (map image_sizes (sn_images s)) ++ default [] (kube_sizes <$> sn_kubernetes s).
Definition within (cn : Z * Z) : Prop := cn.2 <= cn.1.

(** *** Lemmas *)

Lemma cut_within {A} max (l : list A) : 0 <= max -> llen (cut max l) <= max.
Proof. intros H. unfold cut, llen. rewrite length_take. lia. Qed.
Lemma cut_all {A} max (l : list A) : llen l <= max -> cut max l = l.
Proof. intros H. unfold cut, llen in *. apply take_ge. lia. Qed.
Lemma over_cut {A} max (l : list A) : over max l = false <-> llen l <= max.
Proof. unfold over. rewrite Z.gtb_ltb, Z.ltb_ge. done. Qed.
Lemma llen_map {A B} (f : A -> B) l : llen (map f l) = llen l.
Proof. unfold llen. by rewrite length_map. Qed.
Lemma cut_map_idem {A} (f : A -> A) max (l : list A) :
  0 <= max -> (forall x, f (f x) = f x) -> map f (cut max (map f (cut max l))) = map f (cut max l).
Proof.
  intros Hm Hf. rewrite (cut_all max (map f (cut max l))) by (rewrite llen_map; by apply cut_within).
  rewrite map_map. apply map_ext. apply Hf.
Qed.

Lemma bounded_clean n s : 0 <= n -> bounded (n, CleanText s n).
Proof.
  intros Hn. split; [by apply CleanText_len|]. split; [apply CleanText_valid|]. simpl. rewrite runes_CleanText.
  eapply Forall_impl; [apply kept_sub|]. naive_solver.
Qed.
Lemma Forall_mjoin {A B} (P : B -> Prop) (f : A -> list B) l :
  Forall P (mjoin (map f l)) <-> Forall (fun x => Forall P (f x)) l.
Proof. induction l as [|x l IH]; simpl; [by rewrite Forall_nil, Forall_nil|]. by rewrite Forall_app, Forall_cons, IH. Qed.
Lemma Forall_each n (l : list string) : Forall bounded (each n l) <-> Forall (fun s => bounded (n, s)) l.
Proof. unfold each. by rewrite Forall_fmap. Qed.
Lemma Forall_cleaned {A} n (f : A -> string) l : 0 <= n -> Forall (fun s => bounded (n, s)) (map (fun x => CleanText (f x) n) l).
Proof. intros Hn. rewrite Forall_fmap. apply Forall_true. intros x. by apply bounded_clean. Qed.
Lemma Forall_mapped {A B} (P : B -> Prop) (f : A -> B) l : (forall x, P (f x)) -> Forall P (map f l).
Proof. intros H. rewrite Forall_fmap. by apply Forall_true. Qed.

Definition clean_entry (kv : string * string) : Prop :=
  CleanText kv.1 MaxLabelBytes = kv.1 /\ CleanText kv.2 MaxLabelBytes = kv.2.
Definition label_ok (m : gmap string string) : Prop :=
  msize m <= MaxLabels /\ forall k v, m !! k = Some v -> clean_entry (k, v).

Lemma labels_loop_ok l out : label_ok out -> label_ok (labels_loop l out).
Proof.
  revert out; induction l as [|[k v] l IH]; intros out Ho; simpl; [done|].
  destruct (msize out >=? MaxLabels) eqn:E; [done|]. apply IH. destruct Ho as [Hs Hc]. split.
  - unfold msize in *. destruct (out !! CleanText k MaxLabelBytes) as [w|] eqn:Hk.
    + rewrite map_size_insert_Some; [lia|by exists w].
    + rewrite map_size_insert_None by done. lia.
  - intros k' v'. rewrite lookup_insert_Some. intros [[<- <-]|[_ H]]; [|by apply Hc]. split; simpl; apply CleanText_idem.
Qed.
Lemma cleanLabels_ok m : label_ok (cleanLabels m).
Proof. apply labels_loop_ok. split; [vm_compute; discriminate|]. intros k v. by rewrite lookup_empty. Qed.

Lemma labels_loop_all l out :
  NoDup l.*1 -> Forall clean_entry l -> (forall k, k ∈ l.*1 -> out !! k = None) -> msize out + llen l <= MaxLabels ->
  labels_loop l out = list_to_map l ∪ out.
Proof.
  revert out; induction l as [|[k v] l IH]; intros out; simpl.
  - intros _ _ _ _. by rewrite (left_id_L ∅ (∪)).
  - intros [Hn Hnd]%NoDup_cons [[Ck Cv] Hc]%Forall_cons Hout Hs. unfold llen in *. simpl in *.
    destruct (msize out >=? MaxLabels) eqn:E; [lia|]. rewrite Ck, Cv. rewrite IH; [|done|done| |].
    + rewrite <- insert_union_l. symmetry. apply insert_union_r. by apply not_elem_of_list_to_map_1.
    + intros k' Hk'. rewrite lookup_insert_ne; [apply Hout; by right|]. by intros ->.
    + unfold msize in *. rewrite map_size_insert_None by (apply Hout; left). lia.
Qed.

Lemma cleanLabels_fixed m : label_ok m -> cleanLabels m = m.
Proof.
  intros [Hs Hc]. unfold cleanLabels.
  assert (Hp : merge_sort key_le (map_to_list m) ≡ₚ map_to_list m) by apply merge_sort_Permutation.
  assert (Hnd : NoDup (merge_sort key_le (map_to_list m)).*1).
  { rewrite Hp. apply NoDup_fst_map_to_list. }
  rewrite labels_loop_all; [|done| | |].
  - rewrite (right_id_L ∅ (∪)). rewrite <- (list_to_map_to_list m) at 2. by apply list_to_map_proper.
  - rewrite Hp. apply Forall_forall. intros [k v] Hk%elem_of_map_to_list. by apply Hc.
  - intros k _. apply lookup_empty.
  - replace (llen (merge_sort key_le (map_to_list m))) with (msize m); [vm_compute (msize (∅ : gmap string string)); lia|].
    unfold llen, msize. rewrite (Permutation_length Hp). by rewrite length_map_to_list.
Qed.

Lemma label_texts_bounded m : label_ok m -> Forall bounded (label_texts m).
Proof.
  intros [_ Hc]. apply Forall_mjoin, Forall_forall. intros [k v] Hk%elem_of_map_to_list. destruct (Hc _ _ Hk) as [Ck Cv]. simpl in *.
  apply Forall_cons; split; [rewrite <- Ck; by apply bounded_clean|].
  apply Forall_cons; split; [rewrite <- Cv; by apply bounded_clean|]. by apply Forall_nil.
Qed.

Lemma cleanIP_idem s f : cleanIP (cleanIP s f) f = cleanIP s f.
Proof.
  unfold cleanIP at 2 3. destruct (ParseAddr s) as [a|] eqn:E; [|reflexivity].
  destruct (negb (bool_decide (addr_zone a = "")) || negb (f a)) eqn:G; [reflexivity|]. unfold cleanIP. by rewrite E, G.
Qed.

Lemma cleanList_bounded l max n : 0 <= n -> Forall (fun s => bounded (n, s)) (cleanList l max n).
Proof. intros Hn. by apply Forall_cleaned. Qed.
Lemma cleanList_within l max n : 0 <= max -> llen (cleanList l max n) <= max.
Proof. intros Hm. unfold cleanList. rewrite llen_map. by apply cut_within. Qed.
Lemma cleanList_idem l max n : 0 <= max -> cleanList (cleanList l max n) max n = cleanList l max n.
Proof. intros Hm. apply cut_map_idem; [done|]. intros s. apply CleanText_idem. Qed.
Lemma cut_cut {A} max (l : list A) : cut max (cut max l) = cut max l.
Proof. unfold cut. by rewrite take_take, Nat.min_id. Qed.

Lemma each_cleanList l max n : 0 <= n -> Forall bounded (each n (cleanList l max n)).
Proof. intros Hn. apply Forall_each. by apply cleanList_bounded. Qed.

#[local] Hint Resolve bounded_clean Forall_cleaned cleanList_bounded cleanList_within cut_within : clamp.
#[local] Ltac bounds :=
  repeat first [ apply each_cleanList; discriminate | apply Forall_app; split | apply Forall_cons; split | by apply Forall_nil | rewrite Forall_each
               | apply Forall_mjoin, Forall_mapped; intros ? | rewrite map_map ];
  auto with clamp; try (apply bounded_clean; discriminate).

Lemma clamp_container_texts c : Forall bounded (container_texts (clamp_container c)).
Proof.
  unfold container_texts, clamp_container; cbn [ct_id ct_name ct_image ct_image_id ct_state ct_status ct_restart ct_project ct_labels
    ct_networks ct_attachments ct_ports ct_mounts].
  rewrite !Forall_app, !Forall_each, !map_map. split_and!; bounds.
  - apply label_texts_bounded, cleanLabels_ok.
  - apply (Forall_cleaned MaxNameBytes id); discriminate.
  - apply (Forall_cleaned MaxNameBytes na_name); discriminate.
  - apply (Forall_cleaned 64 port_host_ip); discriminate.
  - apply (Forall_cleaned 8 port_protocol); discriminate.
  - destruct (ct_mounts c); simpl; [|constructor]. rewrite map_map. apply (Forall_cleaned MaxImageRefBytes m_source); discriminate.
  - destruct (ct_mounts c); simpl; [|constructor]. rewrite map_map. apply (Forall_cleaned MaxImageRefBytes m_target); discriminate.
Qed.

Lemma clamp_kube_texts k : Forall bounded (kube_texts (clampKubernetes k).1).
Proof.
  unfold kube_texts, clampKubernetes; cbn [fst ki_nodes ki_namespaces ki_workloads ki_pods ki_services ki_claims ki_classes].
  rewrite !Forall_app, !Forall_each. split_and!.
  - rewrite map_map. apply Forall_mjoin, Forall_true. intros n. unfold node_texts, clamp_node; cbn -[cleanList each]. bounds.
  - apply cleanList_bounded. discriminate.
  - rewrite map_map. apply Forall_mjoin, Forall_true. intros w. unfold workload_texts, clamp_workload; cbn -[cleanList each]. bounds.
  - rewrite map_map. apply Forall_mjoin, Forall_true. intros p. unfold pod_texts, clamp_pod; cbn -[cut]. bounds.
  - rewrite map_map. apply Forall_mjoin, Forall_true. intros s. unfold service_texts, clamp_service; cbn -[cleanList each]. bounds.
  - rewrite map_map. apply Forall_mjoin, Forall_true. intros c. unfold claim_texts, clamp_claim; cbn. bounds.
  - rewrite map_map. apply (Forall_cleaned MaxKubeNameBytes sc_name). discriminate.
Qed.

Lemma clamp_texts s : Forall bounded (texts (Clamp s)).
Proof.
  unfold texts, Clamp; cbn [sn_engine sn_containers sn_images sn_networks sn_volumes sn_kubernetes].
  rewrite !Forall_app. split_and!.
  - unfold engine_texts, clamp_engine; cbn. bounds.
  - rewrite map_map. apply Forall_mjoin, Forall_true. apply clamp_container_texts.
  - rewrite map_map. apply Forall_mjoin, Forall_true. intros im. unfold image_texts, clamp_image; cbn -[cleanList each]. bounds.
  - rewrite map_map. apply Forall_mjoin, Forall_true. intros n. unfold network_texts, clamp_network; cbn. bounds.
  - rewrite map_map. apply Forall_mjoin, Forall_true. intros v. unfold volume_texts, clamp_volume; cbn. bounds.
  - destruct (sn_kubernetes s) as [k|]; [apply clamp_kube_texts|by apply Forall_nil].
Qed.

Lemma report_within t : llen (report t) <= llen truncatable.
Proof. unfold report, llen. pose proof (filter_length_le (fun n => bool_decide (n ∈ t)) truncatable). lia. Qed.
Lemma elem_of_report n t : n ∈ report t <-> n ∈ truncatable /\ n ∈ t.
Proof. unfold report. rewrite list_elem_of_In, filter_In, <- list_elem_of_In, bool_decide_eq_true. done. Qed.

Lemma clamp_container_sizes c : Forall within (container_sizes (clamp_container c)).
Proof.
  unfold container_sizes, clamp_container; cbn -[cut cleanLabels]. rewrite !llen_map.
  repeat (apply Forall_cons; split); try (apply cut_within; discriminate); [apply cleanLabels_ok| |by apply Forall_nil].
  destruct (ct_mounts c); cbn -[cut]; [rewrite llen_map; by apply cut_within|discriminate].
Qed.

Lemma clamp_kube_sizes k : Forall within (kube_sizes (clampKubernetes k).1).
Proof.
  unfold kube_sizes, clampKubernetes.
  cbn [fst ki_nodes ki_namespaces ki_workloads ki_pods ki_services ki_claims ki_classes]. rewrite !Forall_app, !map_map, !llen_map. split_and!.
  - repeat (apply Forall_cons; split); try (apply cut_within; discriminate); [apply cleanList_within; discriminate|by apply Forall_nil].
  - apply Forall_mapped. intros n. apply cleanList_within. discriminate.
  - apply Forall_mapped. intros w. apply cleanList_within. discriminate.
  - apply Forall_mapped. intros p. unfold within; cbn -[cut]. rewrite llen_map. apply cut_within. discriminate.
  - apply Forall_mapped. intros sv. apply cleanList_within. discriminate.
Qed.

Lemma clamp_sizes s : Forall within (sizes (Clamp s)).
Proof.
  unfold sizes, Clamp; cbn [sn_engine sn_containers sn_images sn_networks sn_volumes sn_kubernetes sn_truncated].
  rewrite !Forall_app, !map_map, !llen_map. split_and!.
  - repeat (apply Forall_cons; split); try (apply cut_within; discriminate); [apply report_within|by apply Forall_nil].
  - apply Forall_mjoin, Forall_true. apply clamp_container_sizes.
  - apply Forall_mjoin, Forall_true. intros im. repeat (apply Forall_cons; split); [apply cleanList_within; discriminate..|by apply Forall_nil].
  - destruct (sn_kubernetes s) as [k|]; [apply clamp_kube_sizes|by apply Forall_nil].
Qed.

(** *** Clamping twice *)

Lemma clamp_mount_idem m : clamp_mount (clamp_mount m) = clamp_mount m.
Proof.
  unfold clamp_mount; cbn [m_kind m_source m_target m_readonly]. rewrite !CleanText_idem. f_equal.
  destruct (bool_decide (m_kind m = MountVolume) || bool_decide (m_kind m = MountBind)) eqn:E; [by rewrite E|reflexivity].
Qed.
Lemma mount_changed_idem l : existsb mount_changed (map clamp_mount l) = false.
Proof.
  induction l as [|m l IH]; simpl; [done|]. rewrite IH, orb_false_r. unfold mount_changed. by rewrite clamp_mount_idem, !bool_decide_true.
Qed.
Lemma clamp_attachment_idem n : clamp_attachment (clamp_attachment n) = clamp_attachment n.
Proof. unfold clamp_attachment; cbn -[CleanText cleanIP]. by rewrite CleanText_idem, !cleanIP_idem. Qed.
Lemma clamp_port_idem p : clamp_port (clamp_port p) = clamp_port p.
Proof. unfold clamp_port; cbn -[CleanText]. by rewrite !CleanText_idem. Qed.

Lemma clamp_container_idem c : clamp_container (clamp_container c) = clamp_container c.
Proof.
  unfold clamp_container; cbn -[CleanText cut cleanLabels over]. rewrite !CleanText_idem. f_equal.
  - by destruct (bool_decide (ct_health c ∈ HealthStates)) eqn:E; [rewrite E|].
  - apply cut_map_idem; [discriminate|apply clamp_port_idem].
  - apply cleanLabels_fixed, cleanLabels_ok.
  - apply cut_map_idem; [discriminate|]. intros. apply CleanText_idem.
  - apply cut_map_idem; [discriminate|apply clamp_attachment_idem].
  - destruct (ct_mounts c) as [l|]; cbn -[cut]; [|done]. f_equal. apply cut_map_idem; [discriminate|apply clamp_mount_idem].
  - destruct (ct_mounts c) as [l|]; cbn -[cut over]; [|by rewrite !orb_false_r].
    rewrite (proj2 (over_cut MaxMounts (map clamp_mount (cut MaxMounts l)))) by (rewrite llen_map; by apply cut_within).
    rewrite (cut_all MaxMounts (map clamp_mount _)) by (rewrite llen_map; by apply cut_within).
    by rewrite mount_changed_idem, !orb_false_r.
Qed.

#[local] Ltac idem := cbn -[CleanText cut cleanList over]; rewrite ?CleanText_idem, ?cleanList_idem by discriminate; reflexivity.
Lemma clamp_image_idem im : clamp_image (clamp_image im) = clamp_image im.
Proof. unfold clamp_image. idem. Qed.
Lemma clamp_network_idem n : clamp_network (clamp_network n) = clamp_network n.
Proof. unfold clamp_network. idem. Qed.
Lemma clamp_volume_idem v : clamp_volume (clamp_volume v) = clamp_volume v.
Proof. unfold clamp_volume. idem. Qed.
Lemma clamp_node_idem n : clamp_node (clamp_node n) = clamp_node n.
Proof. unfold clamp_node, kname, short. idem. Qed.
Lemma clamp_workload_idem w : clamp_workload (clamp_workload w) = clamp_workload w.
Proof. unfold clamp_workload, kname, short. idem. Qed.
Lemma clamp_pod_container_idem c : clamp_pod_container (clamp_pod_container c) = clamp_pod_container c.
Proof. unfold clamp_pod_container, kname, short. idem. Qed.
Lemma clamp_pod_idem p : clamp_pod (clamp_pod p) = clamp_pod p.
Proof.
  unfold clamp_pod, kname, short. cbn [po_namespace po_name po_uid po_phase po_node po_owner_kind po_owner_name po_started po_containers].
  rewrite !CleanText_idem. f_equal.
  - destruct (re_match deploymentUUID (po_uid p)) eqn:E; [by rewrite E|reflexivity].
  - apply cut_map_idem; [discriminate|apply clamp_pod_container_idem].
Qed.
Lemma clamp_service_idem s : clamp_service (clamp_service s) = clamp_service s.
Proof. unfold clamp_service, kname, short. idem. Qed.
Lemma clamp_claim_idem c : clamp_claim (clamp_claim c) = clamp_claim c.
Proof. unfold clamp_claim, kname, short. idem. Qed.
Lemma clamp_class_idem c : clamp_class (clamp_class c) = clamp_class c.
Proof. unfold clamp_class, kname. idem. Qed.

Lemma kube_reclamped k :
  clampKubernetes (clampKubernetes k).1 = ((clampKubernetes k).1, ∅).
Proof.
  assert (Hn : forall A B (f : A -> B) max (l : list A) name, 0 <= max -> named name (over max (map f (cut max l))) = ∅).
  { intros. rewrite (proj2 (over_cut max _)); [done|]. rewrite llen_map. by apply cut_within. }
  unfold clampKubernetes; cbn [fst snd ki_nodes ki_namespaces ki_workloads ki_pods ki_services ki_claims ki_classes]. f_equal.
  - f_equal; [apply cut_map_idem; [discriminate|apply clamp_node_idem]| |apply cut_map_idem; [discriminate|]..];
      [|apply clamp_workload_idem|apply clamp_pod_idem|apply clamp_service_idem|apply clamp_claim_idem|apply clamp_class_idem].
    rewrite (cut_all MaxNamespaces (cleanList _ _ _)) by (apply cleanList_within; discriminate). apply cleanList_idem. discriminate.
  - assert (Hp : existsb (fun p => over MaxPodContainers (po_containers p)) (cut MaxPods (map clamp_pod (cut MaxPods (ki_pods k)))) = false).
    { rewrite (cut_all MaxPods (map clamp_pod _)) by (rewrite llen_map; by apply cut_within).
      induction (cut MaxPods (ki_pods k)) as [|p l IH]; simpl; [done|]. rewrite IH, orb_false_r.
      apply over_cut. unfold clamp_pod; cbn -[cut]. rewrite llen_map. by apply cut_within. }
    rewrite Hp, orb_false_r. unfold cleanList at 1. rewrite !Hn by discriminate. set_solver.
Qed.

(** Names reported once are reported again. *)
Lemma report_again t u : u = ∅ -> report (list_to_set (map (fun x => CleanText x 16) (report t)) ∪ u) = report t.
Proof.
  intros ->. rewrite (right_id_L ∅ (∪)). unfold report at 1 3. apply List.filter_ext_in. intros n Hn%list_elem_of_In.
  apply bool_decide_ext. rewrite elem_of_list_to_set, list_elem_of_fmap. setoid_rewrite elem_of_report.
  assert (Hc : forall m, m ∈ truncatable -> CleanText m 16 = m).
  { apply Forall_forall. repeat (apply Forall_cons; split; [vm_compute; reflexivity|]). by apply Forall_nil. }
  split.
  - intros (m & -> & Hm & Ht). by rewrite Hc.
  - intros Ht. exists n. by rewrite Hc.
Qed.

Lemma Clamp_idem s : Clamp (Clamp s) = Clamp s.
Proof.
  assert (Hn : forall A B (f : A -> B) max (l : list A) name, 0 <= max -> named name (over max (map f (cut max l))) = ∅).
  { intros. rewrite (proj2 (over_cut max _)); [done|]. rewrite llen_map. by apply cut_within. }
  unfold Clamp. cbn [sn_generation sn_observed sn_engine sn_containers sn_images sn_networks sn_volumes sn_kubernetes sn_truncated].
  f_equal.
  - unfold clamp_engine; cbn -[CleanText]. by rewrite !CleanText_idem.
  - apply cut_map_idem; [discriminate|apply clamp_container_idem].
  - apply cut_map_idem; [discriminate|apply clamp_image_idem].
  - apply cut_map_idem; [discriminate|apply clamp_network_idem].
  - apply cut_map_idem; [discriminate|apply clamp_volume_idem].
  - destruct (sn_kubernetes s) as [k|]; [|done]. cbn [fst]. by rewrite kube_reclamped.
  - rewrite !Hn by discriminate. rewrite <- !(assoc_L (∪)). apply report_again.
    destruct (sn_kubernetes s) as [k|]; cbn [fst snd]; [rewrite kube_reclamped; cbn [snd]|]; set_solver.
Qed.

(** Whatever an agent reports, what the server keeps conforms to the schema.  Every text of a
    clamped snapshot is within its bound, valid UTF-8 and safe to show, every list is within its
    cap, clamping it again changes nothing, and every list that was cut is named as truncated. *)
Theorem Clamp_conforms s :
  Forall bounded (texts (Clamp s)) /\ Forall within (sizes (Clamp s)) /\ Clamp (Clamp s) = Clamp s /\
  (llen (sn_containers s) > MaxContainers -> "containers" ∈ sn_truncated (Clamp s)) /\
  (llen (sn_images s) > MaxImages -> "images" ∈ sn_truncated (Clamp s)) /\
  (llen (sn_networks s) > MaxNetworks -> "networks" ∈ sn_truncated (Clamp s)) /\
  (llen (sn_volumes s) > MaxVolumes -> "volumes" ∈ sn_truncated (Clamp s)) /\
  (forall k, sn_kubernetes s = Some k -> llen (ki_pods k) > MaxPods -> "pods" ∈ sn_truncated (Clamp s)).
Proof.
  assert (Hin : forall name A max (l : list A) t, name ∈ truncatable -> llen l > max -> named name (over max l) ⊆ t -> name ∈ report t).
  { intros name A max l t Hn Hl Ht. apply elem_of_report. split; [done|]. apply Ht. unfold over.
    replace (llen l >? max) with true by (symmetry; apply Z.gtb_lt; lia). simpl. set_solver. }
  split_and!; [apply clamp_texts|apply clamp_sizes|apply Clamp_idem|..].
  1-4: intros H; unfold Clamp; cbn [sn_truncated]; eapply Hin; [by apply (bool_decide_unpack _)|exact H|set_solver].
  intros k Hk H. unfold Clamp. rewrite Hk. cbn [sn_truncated snd]. apply elem_of_report. split; [by apply (bool_decide_unpack _)|].
  apply elem_of_union_r. unfold clampKubernetes. cbn [snd].
  assert (E : over MaxPods (ki_pods k) = true) by (apply Z.gtb_lt; lia). rewrite E. simpl. set_solver.
Qed.

(** ** What a shrunk snapshot holds *)

(** A list lost at most its tail, and then its name is reported. *)
Definition cut_named {A} (name : string) (t : list string) (l l' : list A) : Prop :=
  l' `prefix_of` l /\ (l' = l \/ name ∈ t).

(** A container lost at most its labels, reported, and its mounts, marked on it. *)
Definition core (c : Container) : Container :=
  mkContainer (ct_id c) (ct_name c) (ct_image c) (ct_image_id c) (ct_state c) (ct_status c) (ct_created c) (ct_started c)
    (ct_health c) (ct_restart c) (ct_ports c) ∅ (ct_networks c) (ct_attachments c) (ct_project c) None false.
Definition kept_container (t : list string) (c c' : Container) : Prop :=
  core c' = core c /\ (ct_labels c' = ct_labels c \/ "labels" ∈ t)
  /\ ((ct_mounts c' = ct_mounts c /\ ct_mounts_cut c' = ct_mounts_cut c) \/ ct_mounts_cut c' = true).

Record KubeShrunk (t : list string) (k k' : KubernetesInventory) : Prop := {
  kz_nodes : cut_named "nodes" t (ki_nodes k) (ki_nodes k');
  kz_namespaces : cut_named "namespaces" t (ki_namespaces k) (ki_namespaces k');
  kz_workloads : cut_named "workloads" t (ki_workloads k) (ki_workloads k');
  kz_pods : cut_named "pods" t (ki_pods k) (ki_pods k');
  kz_services : cut_named "services" t (ki_services k) (ki_services k');
  kz_claims : cut_named "claims" t (ki_claims k) (ki_claims k');
  kz_classes : cut_named "storage_classes" t (ki_classes k) (ki_classes k') }.

Record Shrunk (s s' : Snapshot) : Prop := {
  sz_same : sn_generation s' = sn_generation s /\ sn_observed s' = sn_observed s /\ sn_engine s' = sn_engine s;
  sz_truncated : forall n, n ∈ truncatable -> n ∈ sn_truncated s -> n ∈ sn_truncated s';
  sz_containers : exists l, cut_named "containers" (sn_truncated s') (sn_containers s) l /\
    Forall2 (kept_container (sn_truncated s')) l (sn_containers s');
  sz_images : cut_named "images" (sn_truncated s') (sn_images s) (sn_images s');
  sz_networks : cut_named "networks" (sn_truncated s') (sn_networks s) (sn_networks s');
  sz_volumes : cut_named "volumes" (sn_truncated s') (sn_volumes s) (sn_volumes s');
  sz_kube : match sn_kubernetes s, sn_kubernetes s' with
            | Some k, Some k' => KubeShrunk (sn_truncated s') k k'
            | None, None => True
            | _, _ => False
            end }.

Lemma tail_cut_less {A} (l : list A) : 0 < llen l -> llen (tail_cut l) < llen l.
Proof.
  unfold tail_cut, llen. rewrite length_take. intros H.
  assert (0 <= Z.of_nat (List.length l) * 3 / 4 < Z.of_nat (List.length l)).
  { split; [apply Z.div_pos; lia|apply Z.div_lt_upper_bound; lia]. }
  lia.
Qed.
Lemma tail_cut_prefix {A} (l : list A) : tail_cut l `prefix_of` l.
Proof. apply prefix_take. Qed.
Lemma tail_cut_named {A} name t (l : list A) : name ∈ t -> cut_named name t l (tail_cut l).
Proof. intros Hn. split; [apply prefix_take|by right]. Qed.
Lemma cut_named_refl {A} name t (l : list A) : cut_named name t l l.
Proof. split; [done|by left]. Qed.
Lemma cut_named_trans {A} name t t' (l l' l'' : list A) :
  (name ∈ t -> name ∈ t') -> cut_named name t l l' -> cut_named name t' l' l'' -> cut_named name t' l l''.
Proof. intros Ht [P1 E1] [P2 E2]. split; [by etrans|]. destruct E1 as [->|E1]; [done|]. right. auto. Qed.
Lemma cut_named_length {A} name t (l l' : list A) : cut_named name t l l' -> llen l' < llen l -> name ∈ t.
Proof. intros [_ [->|H]]; [lia|done]. Qed.

Lemma kept_refl t c : kept_container t c c.
Proof. split; [done|]. auto. Qed.
Lemma kept_trans t t' c1 c2 c3 :
  ("labels" ∈ t -> "labels" ∈ t') -> kept_container t c1 c2 -> kept_container t' c2 c3 -> kept_container t' c1 c3.
Proof.
  intros Ht (C1 & L1 & M1) (C2 & L2 & M2). split; [congruence|]. split.
  - destruct L2 as [->|]; [|by right]. destruct L1; auto.
  - destruct M2 as [[-> ->]|]; [|by right]. done.
Qed.

Lemma Forall2_kept_refl t l : Forall2 (kept_container t) l l.
Proof. induction l; constructor; [apply kept_refl|done]. Qed.
#[local] Hint Resolve cut_named_refl kept_refl Forall2_kept_refl : clamp.

Lemma KubeShrunk_refl t k : KubeShrunk t k k.
Proof. split; apply cut_named_refl. Qed.
Lemma KubeShrunk_trans t t' k1 k2 k3 :
  (forall n, n ∈ truncatable -> n ∈ t -> n ∈ t') -> KubeShrunk t k1 k2 -> KubeShrunk t' k2 k3 -> KubeShrunk t' k1 k3.
Proof.
  intros Ht [] []. split; (eapply cut_named_trans; [|done|done]); apply Ht; by apply (bool_decide_unpack _).
Qed.

#[local] Instance Shrunk_refl : Reflexive Shrunk.
Proof.
  intros s. split; auto with clamp; [eauto with clamp|]. destruct (sn_kubernetes s); [apply KubeShrunk_refl|done].
Qed.

(** A prefix of the second list is matched by a prefix of the first. *)
Lemma Forall2_prefix_r {A B} (P : A -> B -> Prop) l l' m :
  Forall2 P l l' -> m `prefix_of` l' -> exists k, k `prefix_of` l /\ Forall2 P k m /\ (m = l' -> k = l).
Proof.
  intros H [r ->]. apply Forall2_app_inv_r in H as (k1 & k2 & H1 & H2 & ->). exists k1. split; [by exists k2|]. split; [done|].
  intros E. assert (r = []) as -> by (apply (f_equal List.length) in E; rewrite length_app in E; destruct r; [done|simpl in E; lia]).
  apply Forall2_nil_inv_r in H2 as ->. by rewrite app_nil_r.
Qed.

#[local] Instance Shrunk_trans : Transitive Shrunk.
Proof.
  intros s1 s2 s3 [S1 T1 C1 I1 N1 V1 K1] [S2 T2 C2 I2 N2 V2 K2]. split.
  - destruct S1 as (? & ? & ?), S2 as (? & ? & ?). split_and!; congruence.
  - auto.
  - destruct C1 as (l1 & [P1 E1] & F1), C2 as (l2 & [P2 E2] & F2).
    destruct (Forall2_prefix_r _ _ _ _ F1 P2) as (l & Pl & Fl & El). exists l. split.
    + split; [by etrans|]. destruct E2 as [E2|]; [|by right]. rewrite (El E2).
      destruct E1 as [->|E1]; [by left|]. right. apply T2; [by apply (bool_decide_unpack _)|done].
    + clear -Fl F2 T2. revert l Fl. induction F2 as [|c2 c3 l2 l3 Hk _ IH]; intros l Fl.
      * apply Forall2_nil_inv_r in Fl as ->. constructor.
      * apply Forall2_cons_inv_r in Fl as (c1 & l' & Hk' & Fl & ->). constructor; [|by apply IH].
        eapply kept_trans; [|exact Hk'|exact Hk]. apply T2. by apply (bool_decide_unpack _).
  - eapply cut_named_trans; [|done|done]. apply T2. by apply (bool_decide_unpack _).
  - eapply cut_named_trans; [|done|done]. apply T2. by apply (bool_decide_unpack _).
  - eapply cut_named_trans; [|done|done]. apply T2. by apply (bool_decide_unpack _).
  - destruct (sn_kubernetes s1), (sn_kubernetes s2), (sn_kubernetes s3); try done. by eapply KubeShrunk_trans.
Qed.

(** *** One round *)

Lemma longest_spec {A} (l : list (string * Z * A)) best :
  (forall b, best = Some b -> 0 < b.1.2) ->
  match longest l best with
  | Some x => (x ∈ l \/ best = Some x) /\ 0 < x.1.2
  | None => best = None /\ forall x, x ∈ l -> x.1.2 <= 0
  end.
Proof.
  revert best; induction l as [|x l IH]; intros best Hb; simpl.
  - destruct best as [b|]; [split; [by right|by apply Hb]|split; [done|]; intros x Hx; by apply elem_of_nil in Hx].
  - destruct ((x.1.2 >? 0) && _) eqn:E.
    + apply andb_prop in E as [Hx%Z.gtb_lt _]. specialize (IH (Some x)).
      destruct (longest l (Some x)) as [y|]; [|destruct IH as [? _]; [by intros b [= <-]|done]].
      destruct IH as [[Hy|[= ->]] Hp]; [by intros b [= <-]|by split; [left; right|]|split; [left; left|done]].
    + specialize (IH best Hb). destruct (longest l best) as [y|]; [destruct IH as [[Hy|Hy] Hp]; [by split; [left; right|]|by split; [right|]]|].
      destruct IH as [-> IH]. split; [done|]. intros y [->|Hy]%elem_of_cons; [|by apply IH]. simpl in E.
      rewrite andb_true_r in E. rewrite Z.gtb_ltb, Z.ltb_ge in E. done.
Qed.

Lemma shrinkKubernetes_ok k name k' t :
  shrinkKubernetes k = Some (name, k') -> name ∈ t ->
  name ∈ truncatable /\ kube_weight k' < kube_weight k /\ KubeShrunk t k k'.
Proof.
  unfold shrinkKubernetes. pose proof (longest_spec (kube_lists k) None ltac:(done)) as H.
  destruct (longest (kube_lists k) None) as [x|]; [|done]. destruct H as [[Hin|] Hpos]; [|done]. intros [= <- <-] Hn.
  destruct k as [ns nms ws ps ss cs scs]. unfold kube_lists in Hin. rewrite !elem_of_cons, elem_of_nil in Hin.
  assert (Hw : forall A (l : list A), 0 < llen l -> llen (tail_cut l) < llen l) by (intros; by apply tail_cut_less).
  destruct Hin as [->|[->|[->|[->|[->|[->|[->|[]]]]]]]]; cbn [fst snd] in *; apply Hw in Hpos;
    (split; [by apply (bool_decide_unpack _)|]); (split; [unfold kube_weight; cbn; lia|]);
    split; cbn; auto using tail_cut_named with clamp.
Qed.

Lemma labels_dropped l : existsb has_labels (map drop_labels l) = false.
Proof. induction l as [|c l IH]; [done|]. simpl. rewrite IH, orb_false_r. vm_compute. reflexivity. Qed.
Lemma drop_labels_mounts l : existsb has_mounts (map drop_labels l) = existsb has_mounts l.
Proof. induction l as [|c l IH]; [done|]. simpl. by rewrite IH. Qed.
Lemma mounts_dropped l : existsb has_mounts (map drop_mounts l) = false.
Proof.
  induction l as [|c l IH]; [done|]. simpl. rewrite IH, orb_false_r. unfold drop_mounts. destruct (has_mounts c) eqn:E; [done|exact E].
Qed.
Lemma drop_mounts_labels l : existsb has_labels (map drop_mounts l) = existsb has_labels l.
Proof. induction l as [|c l IH]; [done|]. simpl. rewrite IH. f_equal. unfold drop_mounts. by destruct (has_mounts c). Qed.
Lemma existsb_prefix {A} (p : A -> bool) l l' : l' `prefix_of` l -> existsb p l = false -> existsb p l' = false.
Proof. intros [r ->]. rewrite existsb_app, orb_false_iff. by intros []. Qed.
Lemma kept_labels_dropped t l : "labels" ∈ t -> Forall2 (kept_container t) l (map drop_labels l).
Proof. intros Ht. induction l; constructor; [|done]. repeat split; auto. Qed.
Lemma kept_mounts_dropped t l : Forall2 (kept_container t) l (map drop_mounts l).
Proof.
  induction l as [|c l IH]; constructor; [|done]. unfold drop_mounts. destruct (has_mounts c); [|apply kept_refl].
  repeat split; auto.
Qed.

(** What a round leaves, with the truncated names it is given. *)
Lemma shrink_round_ok s s' d t :
  shrink_round s = Some (s', d) -> (forall n, n ∈ truncatable -> n ∈ sn_truncated s \/ n ∈ d -> n ∈ t) ->
  weight s' < weight s /\ Shrunk s (set_truncated t s').
Proof.
  intros H Ht. unfold shrink_round in H. unfold weight.
  destruct (existsb has_labels (sn_containers s)) eqn:El.
  { injection H as <- <-. cbn [set_lists sn_containers sn_images sn_networks sn_volumes sn_kubernetes].
    rewrite labels_dropped, drop_labels_mounts, llen_map. split; [lia|].
    assert (Hl : "labels" ∈ t) by (apply Ht; [by apply (bool_decide_unpack _)|right; set_solver]).
    split; cbn; auto with clamp. - exists (sn_containers s). split; auto with clamp. by apply kept_labels_dropped.
    - destruct (sn_kubernetes s); [apply KubeShrunk_refl|done]. }
  destruct (existsb has_mounts (sn_containers s)) eqn:Em.
  { injection H as <- <-. cbn [set_lists sn_containers sn_images sn_networks sn_volumes sn_kubernetes].
    rewrite mounts_dropped, drop_mounts_labels, El, llen_map. split; [lia|].
    split; cbn; auto with clamp. - exists (sn_containers s). split; auto with clamp. apply kept_mounts_dropped.
    - destruct (sn_kubernetes s); [apply KubeShrunk_refl|done]. }
  assert (Hk : match sn_kubernetes s, sn_kubernetes s with Some k, Some k' => KubeShrunk t k k' | None, None => True | _, _ => False end).
  { destruct (sn_kubernetes s); [apply KubeShrunk_refl|done]. }
  assert (Hc : exists l, cut_named "containers" t (sn_containers s) l /\ Forall2 (kept_container t) l (sn_containers s)) by eauto with clamp.
  assert (Hin : forall n, n ∈ truncatable -> n ∈ d -> n ∈ t) by auto.
  destruct (_ && _ && _) eqn:E1 in H; [|destruct (_ && _) eqn:E2 in H; [|destruct (llen (sn_volumes s) >? 0) eqn:E3;
    [|destruct (llen (sn_networks s) >? 0) eqn:E4; [|destruct (sn_kubernetes s) as [k|] eqn:Ek; [|done];
      destruct (shrinkKubernetes k) as [[name k']|] eqn:Esk; [|done]]]]]; injection H as <- <-;
    cbn [set_lists sn_containers sn_images sn_networks sn_volumes sn_kubernetes]; rewrite ?El, ?Em, ?Ek.
  - apply andb_prop in E1 as [_ Hp%Z.gtb_lt]. pose proof (tail_cut_less _ Hp).
    assert (Hn : "containers" ∈ t) by (apply Hin; [by apply (bool_decide_unpack _)|set_solver]).
    rewrite (existsb_prefix has_labels _ _ (tail_cut_prefix _) El), (existsb_prefix has_mounts _ _ (tail_cut_prefix _) Em). split; [lia|].
    split; cbn; auto with clamp. exists (tail_cut (sn_containers s)). split; [by apply tail_cut_named|auto with clamp].
  - apply andb_prop in E2 as [_ Hp%Z.gtb_lt]. pose proof (tail_cut_less _ Hp).
    assert (Hn : "images" ∈ t) by (apply Hin; [by apply (bool_decide_unpack _)|set_solver]). split; [lia|].
    split; cbn; auto using tail_cut_named with clamp.
  - apply Z.gtb_lt in E3. pose proof (tail_cut_less _ E3).
    assert (Hn : "volumes" ∈ t) by (apply Hin; [by apply (bool_decide_unpack _)|set_solver]). split; [lia|].
    split; cbn; auto using tail_cut_named with clamp.
  - apply Z.gtb_lt in E4. pose proof (tail_cut_less _ E4).
    assert (Hn : "networks" ∈ t) by (apply Hin; [by apply (bool_decide_unpack _)|set_solver]). split; [lia|].
    split; cbn; auto using tail_cut_named with clamp.
  - assert (Hname : name ∈ truncatable) by (eapply (shrinkKubernetes_ok k name k' [name]); [done|left]).
    destruct (shrinkKubernetes_ok k name k' t Esk) as (_ & Hw & Hs); [apply Hin; [done|set_solver]|]. split; [lia|].
    split; cbn; auto with clamp. by rewrite Ek.
Qed.

Lemma weight_nonneg s : 0 <= weight s.
Proof.
  unfold weight, kube_weight. repeat case_match; repeat match goal with |- context [llen ?l] => pose proof (llen_nonneg l); generalize dependent (llen l); intros end; lia.
Qed.
Lemma weight_set_truncated t s : weight (set_truncated t s) = weight s.
Proof. done. Qed.

Lemma shrink_loop_ok Marshal fuel s :
  weight s <= Z.of_nat fuel ->
  exists s', shrink_loop Marshal fuel s = Some (s', Marshal s') /\ Shrunk s s' /\ (fits Marshal s' = true \/ shrink_round s' = None).
Proof.
  revert s; induction fuel as [|fuel IH]; intros s Hw; simpl.
  - destruct (fits Marshal s) eqn:Ef; [by exists s; split_and!; auto|].
    destruct (shrink_round s) as [[s' d]|] eqn:Er; [|by exists s; split_and!; auto].
    destruct (shrink_round_ok s s' d truncatable Er) as [Hlt _]; [auto|]. pose proof (weight_nonneg s'). lia.
  - destruct (fits Marshal s) eqn:Ef; [by exists s; split_and!; auto|].
    destruct (shrink_round s) as [[s' d]|] eqn:Er; [|by exists s; split_and!; auto].
    set (t := report (list_to_set (sn_truncated s) ∪ d)).
    destruct (shrink_round_ok s s' d t Er) as [Hlt Hs].
    { intros n Hn Ho. apply elem_of_report. split; [done|]. rewrite elem_of_union, elem_of_list_to_set. done. }
    destruct (IH (set_truncated t s')) as (s'' & E & Hs' & Hend); [rewrite weight_set_truncated; lia|].
    exists s''. split_and!; [done|by etrans|done].
Qed.

(** Nothing left to drop: no label, no mount and no list. *)
Definition emptied (s : Snapshot) : Prop :=
  sn_containers s = [] /\ sn_images s = [] /\ sn_networks s = [] /\ sn_volumes s = [] /\
  forall k, sn_kubernetes s = Some k -> kube_weight k = 0.

Lemma shrink_round_none s : shrink_round s = None -> emptied s.
Proof.
  intros H. unfold shrink_round in H. destruct (existsb has_labels _); [done|]. destruct (existsb has_mounts _); [done|].
  destruct (_ && _ && _) eqn:E1 in H; [done|]. destruct (_ && _) eqn:E2 in H; [done|].
  destruct (llen (sn_volumes s) >? 0) eqn:E3; [done|]. destruct (llen (sn_networks s) >? 0) eqn:E4; [done|].
  assert (Hz : forall A (l : list A), llen l <= 0 -> l = []) by (intros A [|? ?]; unfold llen; simpl; [done|lia]).
  rewrite Z.gtb_ltb, Z.ltb_ge in E3, E4. pose proof (llen_nonneg (sn_volumes s)). pose proof (llen_nonneg (sn_images s)).
  assert (Hi : llen (sn_images s) <= 0).
  { apply andb_false_iff in E2 as [E|E]; rewrite ?Z.geb_leb, ?Z.leb_gt, ?Z.gtb_ltb, ?Z.ltb_ge in E; lia. }
  assert (Hcn : llen (sn_containers s) <= 0).
  { rewrite !andb_false_iff in E1. destruct E1 as [[E|E]|E]; rewrite ?Z.geb_leb, ?Z.leb_gt, ?Z.gtb_ltb, ?Z.ltb_ge in E; lia. }
  split_and!; auto. intros k Hk. rewrite Hk in H. unfold shrinkKubernetes in H.
  pose proof (longest_spec (kube_lists k) None ltac:(done)) as Hl. destruct (longest _ _); [done|]. destruct Hl as [_ Hl].
  destruct k as [ns nms ws ps ss cs scs]. unfold kube_weight; cbn.
  pose proof (Hl ("pods", llen ps, _) ltac:(left)). unfold kube_lists in Hl.
  assert (Hall : Forall (fun x : string * Z * KubernetesInventory => x.1.2 <= 0) (kube_lists (mkKubernetes ns nms ws ps ss cs scs))).
  { apply Forall_forall. exact Hl. }
  unfold kube_lists in Hall. rewrite !Forall_cons in Hall. cbn in Hall.
  pose proof (llen_nonneg ns). pose proof (llen_nonneg nms). pose proof (llen_nonneg ws). pose proof (llen_nonneg ps).
  pose proof (llen_nonneg ss). pose proof (llen_nonneg cs). pose proof (llen_nonneg scs). lia.
Qed.

(** C37: [Shrink] always ends, and says what it dropped.  Whatever a snapshot's encoding, the loop
    ends within [weight] rounds with a snapshot that fits the wire bound, or with every list
    empty; each list lost at most its tail and is then named as truncated, a container lost at
    most its labels (named) and its mounts (marked on it), and nothing else changed. *)
Theorem Shrink_ends Marshal s :
  exists s', Shrink Marshal s = Some (s', Marshal s') /\ Shrunk s s' /\
    ((exists raw, Marshal s' = Some raw /\ len raw <= MaxSnapshotBytes) \/ emptied s').
Proof.
  destruct (shrink_loop_ok Marshal (Z.to_nat (weight s)) s) as (s' & E & Hs & Hend).
  { pose proof (weight_nonneg s). lia. }
  exists s'. split_and!; [exact E|exact Hs|]. destruct Hend as [Hf|Hn]; [left|right; by apply shrink_round_none].
  unfold fits in Hf. destruct (Marshal s') as [raw|]; [|done]. exists raw. split; [done|]. by apply Z.leb_le.
Qed.

(** The search's invariant: [best] fits and is just below [lo], nothing above [hi] fits. *)
Lemma prefix_search_ok (size : list Sample -> Z) samples fuel lo hi best :
  (forall l l', l `prefix_of` l' -> size l <= size l') ->
  0 <= lo <= hi + 1 -> hi <= llen samples -> hi - lo < Z.of_nat fuel -> best = Z.max (lo - 1) 0 ->
  size (take (Z.to_nat best) samples) <= MaxMetricsBytes ->
  (forall k, hi < Z.of_nat k -> (k <= List.length samples)%nat -> MaxMetricsBytes < size (take k samples)) ->
  let n := prefix_search size fuel samples lo hi best in
  0 <= n <= llen samples /\ size (take (Z.to_nat n) samples) <= MaxMetricsBytes /\
  forall k, n < Z.of_nat k -> (k <= List.length samples)%nat -> MaxMetricsBytes < size (take k samples).
Proof.
  intros Hmono. revert lo hi best; induction fuel as [|fuel IH]; intros lo hi best Hlo Hhi Hf -> Hfit Hno; simpl.
  - rewrite (proj2 (Z.leb_gt lo hi)) by lia. pose proof (llen_nonneg samples). split_and!; [lia|lia|done|].
    intros k Hk. apply Hno. lia.
  - destruct (Z.leb_spec lo hi) as [Hle|Hlt].
    + assert (0 <= (hi - lo) / 2 <= hi - lo) by (split; [apply Z.div_pos; lia|apply Z.div_le_upper_bound; lia]).
      set (mid := lo + (hi - lo) / 2) in *. destruct (Z.leb_spec (size (take (Z.to_nat mid) samples)) MaxMetricsBytes) as [Hm|Hm].
      * apply IH; [lia|lia|lia|lia|done|done].
      * apply IH; [lia|lia|lia|done|done|]. intros k Hk Hlen. eapply Z.lt_le_trans; [exact Hm|]. apply Hmono.
        replace (take (Z.to_nat mid) samples) with (take (Z.to_nat mid) (take k samples)) by (rewrite take_take; f_equal; lia).
        apply prefix_take.
    + pose proof (llen_nonneg samples). split_and!; [lia|lia|done|]. intros k Hk. apply Hno. lia.
Qed.

(** C38: [ShrinkMetrics] is the longest prefix that fits.  The binary search gives what a scan from
    the longest prefix down would: at most [MaxSamples] samples, and, when a longer frame never
    encodes shorter, the result fits and no longer prefix of those samples does. *)
Theorem ShrinkMetrics_longest (size : list Sample -> Z) m :
  size [] <= MaxMetricsBytes ->
  (forall l l', l `prefix_of` l' -> size l <= size l') ->
  exists n, ShrinkMetrics size m = take n m /\ (n <= Z.to_nat MaxSamples)%nat /\ size (take n m) <= MaxMetricsBytes /\
    forall k, (n < k <= Z.to_nat MaxSamples)%nat -> (k <= List.length m)%nat -> MaxMetricsBytes < size (take k m).
Proof.
  intros H0 Hmono. unfold ShrinkMetrics, cut. fold (llen m). set (c := Z.to_nat MaxSamples).
  destruct (Z.leb_spec (size (take c m)) MaxMetricsBytes) as [Hfit|Hno].
  { exists c. split_and!; [done|lia|done|]. lia. }
  destruct (prefix_search_ok size (take c m) (S (List.length (take c m))) 0 (llen (take c m)) 0 Hmono) as (Hn & Hfit & Hno').
  1-4: unfold llen; lia.
  { exact H0. }
  { intros k Hk Hlen. unfold llen in Hk. lia. }
  set (z := prefix_search _ _ _ _ _ _) in *. unfold llen in Hn. rewrite length_take in Hn, Hno'.
  assert (Htake : forall k, (k <= c)%nat -> take k (take c m) = take k m) by (intros; rewrite take_take; f_equal; lia).
  exists (Z.to_nat z). rewrite Htake in Hfit by lia. rewrite Htake by lia. split_and!; [done|lia|done|].
  intros k Hk Hlen. rewrite <- (Htake k) by lia. apply Hno'; lia.
Qed.

(** An encoding of fifty bytes and seventy a sample: the search keeps 935 of 1,200 samples. *)
Lemma ShrinkMetrics_longest_witness :
  let size := fun l : list Sample => 50 + 70 * llen l in
  let m := repeat (mkSample "c1" 0 0 0 0 0 0 0) 1200 in
  exists n, ShrinkMetrics size m = take n m /\ (n <= Z.to_nat MaxSamples)%nat /\ size (take n m) <= MaxMetricsBytes /\
    forall k, (n < k <= Z.to_nat MaxSamples)%nat -> (k <= List.length m)%nat -> MaxMetricsBytes < size (take k m).
Proof.
  intros size m. apply (ShrinkMetrics_longest size m).
  - unfold size, llen. simpl. unfold MaxMetricsBytes. lia.
  - intros l l' Hp%prefix_length. unfold size, llen. lia.
Defined.
Example ShrinkMetrics_935 : llen (ShrinkMetrics (fun l => 50 + 70 * llen l) (repeat (mkSample "c1" 0 0 0 0 0 0 0) 1200)) = 935.
Proof. vm_compute. reflexivity. Qed.
