(* ===== verification/Json.v ===== *)
(** * JSON text

    [json.Marshal] as internal/store uses it on a validation's baseline: an object with its
    keys in byte order, strings escaped the way [encoding/json] escapes them (HTML characters,
    line separators and invalid UTF-8 included), integers in decimal. *)
From Stdlib Require Import ZArith Lia Ascii String.
From stdpp Require Import base gmap strings list sorting pretty.
From S2P Require Import Prelude.
From S2P Require Import Text.

Definition dquote : ascii := "034".
Definition backslash : ascii := "092".

Definition hex_digit (n : Z) : ascii := if n <? 10 then chr (48 + n) else chr (87 + n).
Definition unicode_escape (r : Z) : string :=
  String backslash (String "u" (String (hex_digit (r / 4096)) (String (hex_digit (r / 256 mod 16))
    (String (hex_digit (r / 16 mod 16)) (String (hex_digit (r mod 16)) ""))))).
Definition short_escape (c : ascii) : string := String backslash (String c "").

(** One decoded rune of a string; [None] is a byte that is not UTF-8. *)
Definition escape_rune (o : option Z) : string :=
  match o with
  | None => unicode_escape RuneError
  | Some r =>
      if (r =? 34) || (r =? 92) then short_escape (chr r)
      else if r =? 8 then short_escape "b"
      else if r =? 12 then short_escape "f"
      else if r =? 10 then short_escape "n"
      else if r =? 13 then short_escape "r"
      else if r =? 9 then short_escape "t"
      else if (r <? 32) || (r =? 60) || (r =? 62) || (r =? 38) || (r =? 0x2028) || (r =? 0x2029)
      then unicode_escape r
      else encode_rune r
  end.

Definition json_string (s : string) : string :=
  String dquote (fold_right (fun o acc => escape_rune o +:+ acc) (String dquote "") (decode s)).

Definition json_field (kv : string * string) : string := json_string kv.1 +:+ ":" +:+ kv.2.
(** An object of fields already in order. *)
Definition json_fields (l : list (string * string)) : string := "{" +:+ join "," (map json_field l) +:+ "}".

Definition by_key (x y : string * string) : Prop := String.leb x.1 y.1 = true.
#[export] Instance by_key_dec : RelDecision by_key.
Proof. intros x y. unfold by_key. apply _. Defined.
(** A Go map. *)
Definition json_map (m : gmap string string) : string := json_fields (merge_sort by_key (map_to_list m)).

Definition json_int (n : Z) : string := Itoa n.

Example json_escapes : json_string (String dquote "<a>") =
  String dquote (short_escape dquote +:+ unicode_escape 60 +:+ "a" +:+ unicode_escape 62 +:+ String dquote "").
Proof. vm_compute. reflexivity. Qed.
