(* ===== verification/Reference.v ===== *)
(** * Reference: which registry an image reference names (internal/registry/reference.go).

    [CanonicalHost] and [ParseReference] apply Docker's defaults to a reference the protocol's
    grammar admits.  The grammar is ASCII only, so [strings.ToLower] is its ASCII part; Registries
    lowers a configured host, which may be any text, before it.  The round
    trip says that a parsed reference written out in full names the same image. *)

From Stdlib Require Import Ascii String ZArith List Lia Bool.
From stdpp Require Import base list strings.
From S2P Require Import Prelude Regex Grammar Text.

#[local] Open Scope Z_scope.

Definition DockerHub : string := "docker.io".

(** [strings.ToLower] on ASCII text. *)
Definition lower_byte (c : ascii) : ascii := if upper c then chr (code c + 32) else c.
Fixpoint ToLower (s : string) : string :=
  match s with EmptyString => "" | String c s' => String (lower_byte c) (ToLower s') end.

Record Reference := mkReference { rf_host : string; rf_repository : string; rf_tag : string; rf_digest : string }.
#[export] Instance Reference_eq_dec : EqDecision Reference.
Proof. solve_decision. Defined.

Definition CanonicalHost (host : string) : string :=
  let host := ToLower host in
  if bool_decide (host = "index.docker.io") || bool_decide (host = "registry-1.docker.io") then DockerHub else host.

(** A first component is a host when it has a dot or a port, or is localhost. *)
Definition names_host (first : string) : bool :=
  contains_byte "." first || contains_byte ":" first || bool_decide (first = "localhost").

Definition reference_host (name : string) : string * string :=
  match cut_at "/" name with
  | Some (first, rest) => if names_host first then (CanonicalHost first, rest) else (DockerHub, name)
  | None => (DockerHub, name)
  end.

(** The reference a name and pin resolve to: host, repository, and one of tag and digest. *)
Definition resolve_pin (name pin : string) : option Reference :=
  let (host, repository) := reference_host name in
  if contains_byte ":" repository then None
  else
    let repository :=
      if bool_decide (host = DockerHub) && negb (contains_byte "/" repository) then "library/" +:+ repository else repository in
    if HasPrefix pin "sha256:" then Some (mkReference host repository "" pin)
    else if len pin >? 128 then None
    else if negb (bool_decide (pin = "")) then Some (mkReference host repository pin "")
    else Some (mkReference host repository "latest" "").

Definition ParseReference (ref : string) : option Reference :=
  if negb (ValidImageReference ref) || HasPrefix ref "sha256:" then None
  else let (name, pin) := SplitImageReference ref in resolve_pin name pin.

(** The reference written out in full. *)
Definition full_form (r : Reference) : string :=
  rf_host r +:+ "/" +:+ rf_repository r +:+
  (if bool_decide (rf_digest r = "") then ":" +:+ rf_tag r else "@" +:+ rf_digest r).

Example ParseReference_short : ParseReference "nginx" = Some (mkReference "docker.io" "library/nginx" "latest" "").
Proof. vm_compute. reflexivity. Qed.
Example ParseReference_port : ParseReference "Registry.Example:5000/team/app:v1" = Some (mkReference "registry.example:5000" "team/app" "v1" "").
Proof. vm_compute. reflexivity. Qed.
Example ParseReference_ambiguous :
  ParseReference ("nginx:1@sha256:" +:+ join "" (repeat "a" 64)) = None.
Proof. vm_compute. reflexivity. Qed.

(** ** Cutting a reference whose parts are known *)

Lemma cut_at_append c a b : contains_byte c a = false -> cut_at c (a +:+ String c b) = Some (a, b).
Proof.
  induction a as [|d a IH]; simpl; [by rewrite ascii_eqb_refl|]. intros [Hd Ha]%orb_false_iff.
  rewrite (ascii_eqb_sym d c), Hd. by rewrite (IH Ha).
Qed.
Lemma cut_last_append c a b : contains_byte c b = false -> cut_last c (a +:+ String c b) = Some (a, b).
Proof.
  intros Hb. induction a as [|d a IH]; simpl.
  - rewrite (proj2 (cut_last_none c b) Hb). by rewrite ascii_eqb_refl.
  - by rewrite IH.
Qed.

Lemma len_String c b : len (String c b) = 1 + len b.
Proof. unfold len. simpl String.length. lia. Qed.
Lemma append_String a c b : a +:+ String c b = (a +:+ String c "") +:+ b.
Proof. by rewrite append_assoc. Qed.

(** The last slash of [n ++ w] is inside [n] when [w] holds none. *)
Lemma LastIndex_inside n w : contains_byte "/" w = false -> LastIndex "/" (n +:+ w) < Z.max 0 (len n).
Proof.
  intros Hw. unfold LastIndex. destruct (cut_last "/" (n +:+ w)) as [[a b]|] eqn:E; [|lia].
  apply cut_last_spec in E as [E Hb]. revert a E. induction n as [|x n IH]; intros a E.
  - simpl in E. assert (contains_byte "/" (a +:+ String "/" b) = true) as H; [|by rewrite <- E, Hw in H].
    rewrite contains_byte_append. unfold contains_byte at 2. simpl. by rewrite orb_true_r.
  - destruct a as [|y a]; [unfold len; simpl String.length; lia|]. injection E as -> E.
    specialize (IH a E). rewrite !len_String. pose proof (len_nonneg n). destruct n; [|unfold len in *; simpl String.length in *; lia].
    simpl in *. pose proof (len_nonneg a). unfold len in *. simpl in *. lia.
Qed.

Lemma Split_digest n d : contains_byte "@" d = false -> SplitImageReference (n +:+ "@" +:+ d) = (n, d).
Proof. intros Hd. unfold SplitImageReference. change ("@" +:+ d) with (String "@" d). by rewrite cut_last_append. Qed.

Lemma Split_tag n t :
  n <> "" -> contains_byte "@" n = false -> contains_byte "@" t = false -> contains_byte ":" t = false -> contains_byte "/" t = false ->
  SplitImageReference (n +:+ ":" +:+ t) = (n, t).
Proof.
  intros Hn Hn1 Ht1 Ht2 Ht3. unfold SplitImageReference. change (":" +:+ t) with (String ":" t).
  rewrite (proj2 (cut_last_none "@" _)) by (rewrite contains_byte_append, Hn1; exact Ht1).
  unfold LastIndex at 1. rewrite cut_last_append by done.
  assert (H : LastIndex "/" (n +:+ String ":" t) < Z.max 0 (len n)) by by apply LastIndex_inside.
  assert (0 < len n) by (destruct n; [done|unfold len; simpl; lia]).
  by rewrite (proj2 (Z.gtb_lt _ _)) by lia.
Qed.

Lemma Split_plain n m :
  contains_byte "@" n = false -> contains_byte "@" m = false -> contains_byte ":" m = false ->
  SplitImageReference (n +:+ "/" +:+ m) = (n +:+ "/" +:+ m, "").
Proof.
  intros Hn Hm1 Hm2. unfold SplitImageReference. change ("/" +:+ m) with (String "/" m).
  rewrite (proj2 (cut_last_none "@" _)) by (rewrite contains_byte_append, Hn; exact Hm1).
  destruct (cut_last ":" _) as [[a b]|] eqn:E; [|done].
  unfold LastIndex at 1. rewrite E. apply cut_last_spec in E as [E Hb].
  assert (Hc : len a < len n).
  { clear -E Hm2. revert a E; induction n as [|x n IH]; intros a E.
    - destruct a as [|y a]; [done|]. injection E as <- E. exfalso.
      assert (contains_byte ":" m = true); [|congruence]. rewrite E, contains_byte_append.
      unfold contains_byte at 2. simpl. by rewrite orb_true_r.
    - destruct a as [|y a]; [unfold len; simpl String.length; lia|]. injection E as -> E. specialize (IH a E). rewrite !len_String. lia. }
  assert (Hs : len n <= LastIndex "/" (n +:+ String "/" m)).
  { clear. unfold LastIndex. destruct (contains_byte "/" m) eqn:Em.
    - induction n as [|x n IH].
      + simpl. destruct (cut_last "/" m) as [[a b]|] eqn:E'; [apply len_nonneg|].
        apply cut_last_none in E'. congruence.
      + simpl. destruct (cut_last "/" (n +:+ String "/" m)) as [[a b]|]; [|unfold len in *; lia]. rewrite !len_String. lia.
    - rewrite cut_last_append by done. lia. }
  destruct (Z.gtb_spec (len a) (LastIndex "/" (n +:+ String "/" m))); [lia|done].
Qed.

(** ** Lowercase text in the grammar *)

Fixpoint lower_ok (r : re) : Prop :=
  match r with
  | Nul | Eps => True
  | Cls p | Rep p _ _ => forall c, p c = true -> p (lower_byte c) = true
  | Cat a b | Alt a b => lower_ok a /\ lower_ok b
  | Star a => lower_ok a
  end.

Lemma ToLower_append a b : ToLower (a +:+ b) = ToLower a +:+ ToLower b.
Proof. induction a as [|c a IH]; [done|]. simpl. by rewrite IH. Qed.
Lemma length_ToLower s : String.length (ToLower s) = String.length s.
Proof. induction s as [|c s IH]; [done|]. simpl. by rewrite IH. Qed.
Lemma lower_byte_idem c : lower_byte (lower_byte c) = lower_byte c.
Proof. destruct c as [[] [] [] [] [] [] [] []]; vm_compute; reflexivity. Qed.
Lemma ToLower_idem s : ToLower (ToLower s) = ToLower s.
Proof. induction s as [|c s IH]; [done|]. simpl. by rewrite lower_byte_idem, IH. Qed.
Lemma ToLower_forallb p s :
  (forall c, p c = true -> p (lower_byte c) = true) -> str_forallb p s = true -> str_forallb p (ToLower s) = true.
Proof. intros Hp. induction s as [|c s IH]; [done|]. simpl. rewrite !andb_true_iff. intros []; auto. Qed.
Lemma ToLower_contains c s : lower_byte c = c -> contains_byte c s = true -> contains_byte c (ToLower s) = true.
Proof.
  intros Hc. induction s as [|d s IH]; [done|]. unfold contains_byte in *. simpl. rewrite !orb_true_iff.
  intros [->%ascii_eqb_true|H]; [left; by rewrite Hc, ascii_eqb_refl|right; auto].
Qed.

Lemma lang_ToLower r s : lower_ok r -> lang r s -> lang r (ToLower s).
Proof.
  intros Hr H. induction H as [|p c Hc|p lo hi s Hl Hp| | | | |]; simpl in Hr; rewrite ?ToLower_append; auto 6 using lang with go.
  - constructor. auto.
  - constructor; [by rewrite length_ToLower|]. by apply ToLower_forallb.
  - destruct Hr. constructor; auto.
  - destruct Hr. apply L_alt_l. auto.
  - destruct Hr. apply L_alt_r. auto.
Qed.

Lemma lower_byte_ind (p : ascii -> bool) :
  List.forallb (fun n => implb (p (ascii_of_nat n)) (p (lower_byte (ascii_of_nat n)))) (List.seq 0 256) = true ->
  forall c, p c = true -> p (lower_byte c) = true.
Proof.
  intros H c Hc. rewrite List.forallb_forall in H. specialize (H (nat_of_ascii c)).
  rewrite ascii_nat_embedding, Hc in H. apply H. apply List.in_seq. pose proof (nat_ascii_bounded c). lia.
Qed.

Definition port_re : re := Opt (Cat (Lit ":") (Plus (Cls digit))).
Definition path_re : re := Star (Cat (Lit "/") imageComponent).
Definition tag_re : re := Cats [Cls (either alnum (one "_")); Rep (either alnum (oneof "._-")) 0 127].
Definition digest_re : re := Cat (Lit "sha256:") hex64.

Ltac lower_classes :=
  cbn; split_and!; match goal with
  | |- True => exact I
  | |- forall c, @?p c = true -> _ => apply (lower_byte_ind p); vm_compute; reflexivity
  end.
Lemma component_lower : lower_ok imageComponent.
Proof. lower_classes. Qed.
Lemma port_lower : lower_ok port_re.
Proof. lower_classes. Qed.

Ltac no_byte := match goal with
  | H : lang ?r ?s |- contains_byte ?c ?s = false => exact (lang_no_byte r s c H eq_refl)
  end.
Ltac no_bytes := rewrite ?contains_byte_append; repeat (apply orb_false_iff; split); try no_byte; try reflexivity.

Lemma component_nonempty c : lang imageComponent c -> c <> "".
Proof. by intros H%component_starts ->. Qed.

Lemma path_cases m : lang path_re m -> m = "" \/ exists c m', m = "/" +:+ (c +:+ m') /\ lang imageComponent c /\ lang path_re m'.
Proof.
  unfold path_re. intros H. inversion H as [| | | | | |r Hr|r a b Ha Hb Hr]; subst; [by left|]. right.
  apply lang_cat in Ha as (x & c & -> & Hx & Hc). apply (lang_lit "/") in Hx as ->. exists c, b. by rewrite append_assoc.
Qed.
Lemma port_cases p : lang port_re p -> p = "" \/ exists d, p = ":" +:+ d /\ lang (Plus (Cls digit)) d.
Proof.
  intros [->|H]%lang_opt; [by left|]. right. apply lang_cat in H as (x & d & -> & Hx & Hd). apply (lang_lit ":") in Hx as ->. by exists d.
Qed.

(** ** What a parsed reference looks like *)

Definition is_host (h : string) : Prop :=
  (exists c p, h = c +:+ p /\ lang imageComponent c /\ lang port_re p) /\ CanonicalHost h = h /\ names_host h = true.
Definition is_repository (r : string) : Prop := exists c m, r = c +:+ m /\ lang imageComponent c /\ lang path_re m.

Record wf_reference (r : Reference) : Prop := {
  wr_host : is_host (rf_host r);
  wr_repository : is_repository (rf_repository r);
  wr_library : rf_host r = DockerHub -> contains_byte "/" (rf_repository r) = true;
  wr_pin : (rf_digest r = "" /\ lang tag_re (rf_tag r)) \/ (rf_tag r = "" /\ lang digest_re (rf_digest r)) }.

Lemma docker_host : is_host DockerHub.
Proof.
  split_and!; [|done|done]. exists "docker.io", "". split_and!; [done|apply re_match_lang; by vm_compute|apply re_match_lang; by vm_compute].
Qed.

Lemma names_host_lower h : names_host h = true -> names_host (ToLower h) = true.
Proof.
  unfold names_host. rewrite !orb_true_iff. intros [[H|H]|H].
  - left; left. by apply ToLower_contains.
  - left; right. by apply ToLower_contains.
  - right. apply bool_decide_eq_true in H as ->. done.
Qed.

Lemma CanonicalHost_host c p :
  lang imageComponent c -> lang port_re p -> names_host (c +:+ p) = true -> is_host (CanonicalHost (c +:+ p)).
Proof.
  intros Hc Hp Hn. unfold CanonicalHost at 1. destruct (_ || _) eqn:E; [exact docker_host|]. split_and!.
  - exists (ToLower c), (ToLower p). split_and!; [apply ToLower_append|by apply lang_ToLower, Hc; apply component_lower|by apply lang_ToLower, Hp; apply port_lower].
  - unfold CanonicalHost. by rewrite ToLower_idem, E.
  - by apply names_host_lower.
Qed.

Lemma repository_no_colon r : is_repository r -> contains_byte ":" r = false /\ contains_byte "@" r = false.
Proof. intros (c & m & -> & Hc & Hm). split; no_bytes. Qed.

(** The host and repository of a name whose repository has no colon. *)
Lemma reference_host_ok c p m h repo :
  lang imageComponent c -> lang port_re p -> lang path_re m ->
  reference_host (c +:+ p +:+ m) = (h, repo) -> contains_byte ":" repo = false ->
  let repo' := if bool_decide (h = DockerHub) && negb (contains_byte "/" repo) then "library/" +:+ repo else repo in
  is_host h /\ is_repository repo' /\ (h = DockerHub -> contains_byte "/" repo' = true).
Proof.
  intros Hc Hp Hm. assert (Hcp : contains_byte "/" (c +:+ p) = false) by no_bytes.
  assert (Hport : contains_byte ":" (c +:+ p +:+ m) = false -> p = "").
  { destruct (port_cases p Hp) as [->|(d & -> & _)]; [done|]. rewrite !contains_byte_append. unfold contains_byte at 2. simpl.
    by rewrite orb_true_r. }
  destruct (path_cases m Hm) as [->|(c' & m' & -> & Hc' & Hm')]; unfold reference_host.
  - rewrite append_nil_r, (proj2 (cut_at_none "/" (c +:+ p)) Hcp). intros [= <- <-] Hcol.
    rewrite append_nil_r in Hport. rewrite (Hport Hcol), append_nil_r in *. rewrite Hcp. simpl.
    split; [exact docker_host|]. split; [|done]. exists "library", ("/" +:+ c). split; [done|]. split; [apply re_match_lang; by vm_compute|].
    rewrite <- (append_nil_r ("/" +:+ c)). apply (L_star_cons _ ("/" +:+ c)); [apply L_cat; [by apply lang_lit|done]|constructor].
  - rewrite <- append_assoc. change ("/" +:+ (c' +:+ m')) with (String "/" (c' +:+ m')).
    rewrite cut_at_append by done. destruct (names_host (c +:+ p)) eqn:En; intros [= <- <-] Hcol.
    + split; [by apply CanonicalHost_host|]. destruct (contains_byte "/" (c' +:+ m')) eqn:Es.
      * rewrite andb_false_r. split; [by exists c', m'|done].
      * destruct (bool_decide _) eqn:Ed; simpl.
        -- split; [|done]. exists "library", ("/" +:+ (c' +:+ m')). split; [done|]. split; [apply re_match_lang; by vm_compute|].
           rewrite <- append_assoc. apply (L_star_cons _ ("/" +:+ c')); [apply L_cat; [by apply lang_lit|done]|done].
        -- split; [by exists c', m'|]. intros E. by rewrite bool_decide_eq_false in Ed.
    + rewrite append_assoc in Hcol. rewrite (Hport Hcol) in *. rewrite append_nil_r in *.
      assert (Es : contains_byte "/" (c +:+ String "/" (c' +:+ m')) = true).
      { rewrite contains_byte_append. apply orb_true_r. }
      rewrite Es, andb_false_r. split; [exact docker_host|]. split; [|done]. exists c, ("/" +:+ (c' +:+ m')). split_and!; [done..|].
      rewrite <- append_assoc. apply (L_star_cons _ ("/" +:+ c')); [apply L_cat; [by apply lang_lit|done]|done].
Qed.

Lemma tag_facts t :
  lang tag_re t -> t <> "" /\ len t <= 128 /\ HasPrefix t "sha256:" = false /\
  contains_byte ":" t = false /\ contains_byte "/" t = false /\ contains_byte "@" t = false.
Proof.
  intros H. assert (Hc : contains_byte ":" t = false) by no_byte. split_and!; [| | |done|no_byte|no_byte].
  - intros ->. by apply re_match_lang in H.
  - assert (String.length t <= 128)%nat by (by apply (lang_max_len tag_re)). unfold len. lia.
  - destruct (HasPrefix t "sha256:") eqn:E; [|done]. apply prefix_split in E. rewrite E in Hc. done.
Qed.
Lemma digest_facts d : lang digest_re d -> d <> "" /\ HasPrefix d "sha256:" = true /\ contains_byte "@" d = false.
Proof.
  intros H. split_and!; [|apply lang_cat in H as (x & y & -> & Hx & _)|no_byte].
  - intros ->. by apply re_match_lang in H.
  - apply (lang_lit "sha256:") in Hx as ->. apply prefix_append.
Qed.
Lemma digits_tag d : lang (Plus (Cls digit)) d -> len d <= 128 -> lang tag_re d.
Proof.
  intros H Hl. assert (Hd : str_forallb digit d = true).
  { apply lang_bytes in H. eapply str_forallb_mono; [|exact H]. intros c. cbn. by rewrite orb_diag. }
  apply lang_cat in H as (a & b & -> & Ha & _). apply lang_cls in Ha as (c & -> & Hc).
  change (String c "" +:+ b) with (String c b) in *. unfold tag_re, Cats.
  assert (Hmono : forall p, (forall c, digit c = true -> p c = true) -> str_forallb p b = true).
  { intros p Hp. simpl in Hd. apply andb_prop in Hd as [_ Hd]. by eapply str_forallb_mono. }
  apply (L_cat _ _ (String c "") b); [constructor; unfold either, alnum, either; by rewrite Hc, orb_true_r|].
  constructor.
  - unfold len in Hl. simpl in Hl. lia.
  - apply Hmono. intros c' Hc'. unfold either, alnum, either. by rewrite Hc', orb_true_r.
Qed.

Lemma ParseReference_resolve ref :
  ParseReference ref =
  if negb (ValidImageReference ref) || HasPrefix ref "sha256:" then None
  else resolve_pin (SplitImageReference ref).1 (SplitImageReference ref).2.
Proof. unfold ParseReference. destruct (_ || _); [done|]. by destruct (SplitImageReference ref). Qed.

Lemma resolve_pin_wf c p m pin r :
  lang imageComponent c -> lang port_re p -> lang path_re m ->
  pin = "" \/ lang tag_re pin \/ lang (Plus (Cls digit)) pin \/ lang digest_re pin ->
  resolve_pin (c +:+ p +:+ m) pin = Some r -> wf_reference r.
Proof.
  intros Hc Hp Hm Hpin. unfold resolve_pin. destruct (reference_host _) as [h repo] eqn:E.
  destruct (contains_byte ":" repo) eqn:Ecol; [done|].
  destruct (reference_host_ok c p m h repo Hc Hp Hm E Ecol) as (Hh & Hr & Hl).
  assert (Hlatest : lang tag_re "latest") by (apply re_match_lang; by vm_compute).
  destruct (HasPrefix pin "sha256:") eqn:Epre.
  { intros [= <-]. split; [done..|]. right. split; [done|]. destruct Hpin as [->|[Ht|[Hd|?]]]; [done|..|done].
    - apply tag_facts in Ht as (_ & _ & ? & _). congruence.
    - assert (contains_byte ":" pin = false) as Hn by no_byte. apply prefix_split in Epre. rewrite Epre in Hn. done. }
  destruct (Z.gtb_spec (len pin) 128); [done|]. destruct (bool_decide_reflect (pin = "")) as [->|Hne]; simpl; intros [= <-].
  - split; [done..|]. by left.
  - split; [done..|]. left. split; [done|]. destruct Hpin as [->|[?|[Hd|Hd]]]; [done|done|by apply digits_tag|].
    apply digest_facts in Hd as (_ & ? & _). congruence.
Qed.

Lemma imageID_prefix s : re_match imageID s = true -> HasPrefix s "sha256:" = true.
Proof. intros H%re_match_lang. apply lang_cat in H as (x & y & -> & Hx & _). apply (lang_lit "sha256:") in Hx as ->. apply prefix_append. Qed.

Lemma ParseReference_wf ref r : ParseReference ref = Some r -> wf_reference r.
Proof.
  rewrite ParseReference_resolve. destruct (negb _ || _) eqn:E; [done|]. apply orb_false_iff in E as [Hv%negb_false_iff Hs].
  unfold ValidImageReference in Hv. destruct (_ || (len ref >? _)); [done|]. apply orb_prop in Hv as [Hv|Hv];
    [|apply imageID_prefix in Hv; congruence].
  apply re_match_lang in Hv. unfold imageReference, Cats in Hv.
  apply lang_cat in Hv as (c & w & -> & Hc & H). apply lang_cat in H as (p & v & -> & Hp & H).
  apply lang_cat in H as (m & t & -> & Hm & Ht). change (lang port_re p) in Hp. change (lang path_re m) in Hm.
  pose proof (component_nonempty c Hc). rewrite <- !append_assoc, (append_assoc c p m).
  assert (Hne : c +:+ p +:+ m <> "") by (destruct c; done).
  assert (Hat : contains_byte "@" (c +:+ p +:+ m) = false) by no_bytes.
  apply lang_opt in Ht as [->|Ht].
  - rewrite append_nil_r. destruct (path_cases m Hm) as [->|(c' & m' & -> & Hc' & Hm')].
    + rewrite append_nil_r. destruct (port_cases p Hp) as [->|(d & -> & Hd)].
      * rewrite append_nil_r. assert (Split : SplitImageReference c = (c, "")).
        { unfold SplitImageReference. rewrite (proj2 (cut_last_none "@" c)) by no_byte.
          by rewrite (proj2 (cut_last_none ":" c)) by no_byte. }
        rewrite Split. intros H'. apply (resolve_pin_wf c "" "" "" r Hc); [apply re_match_lang; by vm_compute..|by left|].
        by rewrite !append_nil_r.
      * rewrite Split_tag by (done || no_byte). intros H'.
        apply (resolve_pin_wf c "" "" d r Hc); [apply re_match_lang; by vm_compute..|by right; right; left|].
        by rewrite !append_nil_r.
    + rewrite <- append_assoc. rewrite Split_plain by no_bytes. rewrite append_assoc. intros H'.
      eapply (resolve_pin_wf c p _ ""); [done|done|exact Hm|by left|exact H'].
  - apply lang_alt in Ht as [Ht|Ht].
    + apply (lang_cat (Lit ":") tag_re) in Ht as (x & tag & -> & Hx & Ht). apply (lang_lit ":") in Hx as ->.
      rewrite Split_tag by (done || no_byte). intros H'. by apply (resolve_pin_wf c p m tag r); auto.
    + assert (Hd : exists d, t = "@" +:+ d /\ lang digest_re d).
      { apply lang_cat in Ht as (x & y & -> & Hx & Hy). apply (lang_lit "@sha256:") in Hx as ->. exists ("sha256:" +:+ y).
        split; [done|]. apply L_cat; [by apply lang_lit|done]. }
      destruct Hd as (d & -> & Hd). rewrite Split_digest by no_byte. intros H'. apply (resolve_pin_wf c p m d r); auto.
Qed.

Lemma full_form_valid r :
  wf_reference r -> len (full_form r) <= MaxImageReferenceBytes -> ValidImageReference (full_form r) = true.
Proof.
  intros [((hc & hp & Eh & Hhc & Hhp) & _ & _) (c & m & Er & Hc & Hm) _ Hpin] Hlen.
  unfold ValidImageReference.
  assert (Hpos : len (full_form r) =? 0 = false).
  { apply Z.eqb_neq. unfold full_form. rewrite len_append. change ("/" +:+ ?x) with (String "/" x). rewrite len_String.
    pose proof (len_nonneg (rf_host r)). match goal with |- context [1 + len ?x] => pose proof (len_nonneg x) end. lia. }
  rewrite Hpos. simpl. rewrite Z.gtb_ltb, (proj2 (Z.ltb_ge _ _)) by done.
  apply orb_true_iff. left. apply re_match_lang. unfold full_form, imageReference, Cats. rewrite Eh, Er.
  match goal with |- lang _ (_ +:+ "/" +:+ (_ +:+ _) +:+ ?t) => set (pin := t); assert (Ht : lang (Alt imageTag imageDigest) pin) end.
  { subst pin. destruct Hpin as [[-> Ht]|[_ Hd]].
    - apply L_alt_l. apply (L_cat (Lit ":") tag_re); [by apply lang_lit|done].
    - rewrite bool_decide_eq_false_2 by by apply digest_facts. apply L_alt_r.
      apply lang_cat in Hd as (x & y & -> & Hx & Hy). apply (lang_lit "sha256:") in Hx as ->.
      apply (L_cat _ _ "@sha256:" y); [by apply lang_lit|done]. }
  replace ((hc +:+ hp) +:+ "/" +:+ (c +:+ m) +:+ pin) with (hc +:+ (hp +:+ ((("/" +:+ c) +:+ m) +:+ pin))) by by rewrite !append_assoc.
  apply L_cat; [done|]. apply L_cat; [done|]. apply L_cat; [|by apply lang_opt; right].
  apply L_star_cons; [|done]. apply L_cat; [by apply lang_lit|done].
Qed.

Lemma ParseReference_full r :
  wf_reference r -> len (full_form r) <= MaxImageReferenceBytes -> HasPrefix (full_form r) "sha256:" = false ->
  ParseReference (full_form r) = Some r.
Proof.
  intros Hwf Hlen Hpre. rewrite ParseReference_resolve, full_form_valid, Hpre by done. simpl.
  destruct r as [h repo tag digest]. destruct Hwf as [((hc & hp & Eh & Hhc & Hhp) & Hcan & Hn) Hrepo Hlib Hpin]. simpl in *.
  destruct (repository_no_colon _ Hrepo) as [Hcol Hat].
  assert (Hslash : contains_byte "/" h = false) by (subst h; no_bytes).
  assert (Hhat : contains_byte "@" h = false) by (subst h; no_bytes).
  assert (Hsplit : SplitImageReference (full_form (mkReference h repo tag digest)) =
    (h +:+ "/" +:+ repo, if bool_decide (digest = "") then tag else digest)).
  { unfold full_form. simpl rf_host. simpl rf_repository. simpl rf_digest. simpl rf_tag.
    destruct Hpin as [[-> Ht]|[-> Hd]].
    - rewrite bool_decide_eq_true_2 by done. apply tag_facts in Ht as (_ & _ & _ & ? & ? & ?).
      replace (h +:+ "/" +:+ repo +:+ ":" +:+ tag) with ((h +:+ "/" +:+ repo) +:+ ":" +:+ tag) by by rewrite !append_assoc.
      apply Split_tag; [by destruct h| |done..]. rewrite !contains_byte_append, Hhat, Hat. done.
    - apply digest_facts in Hd as (Hd & _ & ?). rewrite !bool_decide_eq_false_2 by done.
      replace (h +:+ "/" +:+ repo +:+ "@" +:+ digest) with ((h +:+ "/" +:+ repo) +:+ "@" +:+ digest) by by rewrite !append_assoc.
      by apply Split_digest. }
  rewrite Hsplit. simpl. unfold resolve_pin, reference_host. change ("/" +:+ repo) with (String "/" repo).
  rewrite cut_at_append, Hn, Hcan, Hcol by done.
  replace (bool_decide (h = DockerHub) && negb (contains_byte "/" repo)) with false.
  2:{ destruct (bool_decide_reflect (h = DockerHub)) as [E|]; [|done]. by rewrite (Hlib E). }
  destruct Hpin as [[-> Ht]|[-> Hd]].
  - rewrite bool_decide_eq_true_2 by done. apply tag_facts in Ht as (Hne & Hl & -> & _).
    rewrite Z.gtb_ltb, (proj2 (Z.ltb_ge _ _)) by done. by rewrite bool_decide_eq_false_2.
  - apply digest_facts in Hd as (Hne & Hp & _). by rewrite bool_decide_eq_false_2, Hp.
Qed.

(** A parsed reference is canonical and its full form names the same image.  The host is in its
    canonical spelling, Docker Hub's repositories have a namespace, exactly one of tag and digest
    is set, and host/repository plus the tag or digest, when within the reference bound, parses
    back to the same reference, unless the lowered host reads as the head of an image ID. *)
Theorem ParseReference_roundtrip ref r :
  ParseReference ref = Some r ->
  CanonicalHost (rf_host r) = rf_host r /\ contains_byte ":" (rf_repository r) = false /\ rf_repository r <> "" /\
  (rf_host r = DockerHub -> contains_byte "/" (rf_repository r) = true) /\
  (rf_tag r = "" <-> rf_digest r <> "") /\
  (len (full_form r) <= MaxImageReferenceBytes -> HasPrefix (rf_host r) "sha256:" = false -> ParseReference (full_form r) = Some r).
Proof.
  intros H. apply ParseReference_wf in H. pose proof H as [[Hh [Hcan Hn]] Hrepo Hlib Hpin].
  split_and!; [done|by apply repository_no_colon| |done| |].
  - destruct Hrepo as (c & m & -> & Hc%component_nonempty & _). by destruct c.
  - destruct Hpin as [[-> Ht]|[-> Hd]]; [apply tag_facts in Ht as []|apply digest_facts in Hd as []]; naive_solver.
  - intros Hlen Hp. apply ParseReference_full; [done|done|]. unfold full_form. clear Hlen.
    destruct (HasPrefix (_ +:+ _) "sha256:") eqn:E; [|done]. exfalso.
    destruct Hh as (c & p & Eh & Hc & Hp').
    assert (Hs : contains_byte "/" (rf_host r) = false) by (rewrite Eh; no_bytes).
    clear -E Hp Hs. apply prefix_split in E. set (w := drop_str _ _) in E. clearbody w. destruct (rf_host r) as [|a1 h]; [discriminate E|].
    do 6 (destruct h as [|? h]; [discriminate E|]).
    injection E as -> -> -> -> -> -> -> _. change (HasPrefix ("sha256:" +:+ h) "sha256:" = false) in Hp. by rewrite prefix_append in Hp.
Qed.
Lemma ParseReference_roundtrip_witness :
  let r := mkReference "ghcr.io" "org/app" "v2" "" in
  ParseReference "GHCR.io/org/app:v2" = Some r /\ (rf_tag r = "" <-> rf_digest r <> "") /\ ParseReference (full_form r) = Some r.
Proof.
  intros r. assert (H : ParseReference "GHCR.io/org/app:v2" = Some r) by (vm_compute; reflexivity).
  destruct (ParseReference_roundtrip "GHCR.io/org/app:v2" r H) as (_ & _ & _ & _ & Hpin & Hfull).
  split; [exact H|]. split; [exact Hpin|]. apply Hfull; vm_compute; [discriminate|reflexivity].
Defined.

(** The exception is reachable: a registry spelled SHA256 keeps its port, its lowered full form
    reads as an image ID and is refused. *)
Lemma ParseReference_sha256_host :
  ParseReference "SHA256:5000/app" = Some (mkReference "sha256:5000" "app" "latest" "") /\
  ParseReference (full_form (mkReference "sha256:5000" "app" "latest" "")) = None.
Proof. vm_compute. done. Qed.
