(* ===== verification/Spec.v ===== *)
(** * Spec: an application's desired state (internal/store/application_spec.go).

    The data an application revision holds, what makes it valid, and what a cluster needs from
    it: claims for the chosen named volumes, and the choices carried to the next revision.  JSON
    encoding and SHA-256 are parameters of [encodeApplicationSpec]. *)
From Stdlib Require Import ZArith Lia Ascii String.
From stdpp Require Import base gmap strings list.
From S2P Require Import Prelude Regex Text Grammar NetIP Inspection Paths Frame KubeNames.

#[local] Open Scope Z_scope.

Definition MaxApplicationRevisions : Z := 100.
Definition MaxApplicationSpecBytes : Z := 65536.
Definition MaxApplicationValuesBytes : Z := 65536.
Definition AccessReadWriteOnce : string := "ReadWriteOnce".

(** ** Data *)

Record KubernetesVolume := mkKVolume { kv_class : string; kv_size : string; kv_access : string }.
(** Both maps may be nil or empty; the code never tells them apart. *)
Record KubernetesExtension := mkExtension {
  kx_volumes : gmap string KubernetesVolume; kx_ips : gmap string string }.
Record ApplicationPort := mkAPort { ap_target : Z; ap_published : Z; ap_host_ip : string; ap_protocol : string }.
Record ApplicationVolume := mkAVolume { av_kind : string; av_source : string; av_target : string; av_readonly : bool }.
Record DeclaredVolume := mkDeclared { dv_name : string; dv_external : bool }.
(** [as_environment] maps a variable to the name of its secret. *)
Record ApplicationService := mkAService {
  as_ports : list ApplicationPort; as_restart : string; as_name : string; as_image : string;
  as_environment : gmap string string; as_volumes : list ApplicationVolume }.
Record ApplicationSpec := mkSpec {
  sp_kind : string; sp_services : list ApplicationService; sp_declared : list DeclaredVolume;
  sp_kubernetes : option KubernetesExtension }.

#[export] Instance ApplicationPort_eq_dec : EqDecision ApplicationPort.
Proof. solve_decision. Defined.
#[export] Instance ApplicationVolume_eq_dec : EqDecision ApplicationVolume.
Proof. solve_decision. Defined.
#[export] Instance KubernetesVolume_eq_dec : EqDecision KubernetesVolume.
Proof. solve_decision. Defined.

(** ** Plans (application_deployment.go) *)

Record KubernetesObject := mkObject { ko_namespace : string; ko_name : string }.
Record PlannedService := mkPlanned {
  ps_name : string; ps_reference : string; ps_image : string; ps_image_digest : string;
  ps_container : string; ps_replaces : InspectionTarget; ps_restart : string;
  ps_ports : list ApplicationPort; ps_secret_refs : list string;
  ps_pull_reference : string; ps_pull_digest : string;
  ps_mounts : list Mount; ps_dropped : list Mount;
  ps_object : option KubernetesObject; ps_claim_mounts : list KubernetesMount; ps_cluster_ip : string }.
Record RemovalPlanTarget := mkRemovalPlan {
  rp_service : string; rp_container : string; rp_image : string; rp_created : Z; rp_name : string }.
Record DeploymentPlan := mkPlan {
  pl_project : string; pl_services : list PlannedService; pl_containers : list RemovalPlanTarget;
  pl_volumes : list string; pl_namespace : string; pl_claims : list KubernetesClaim }.
(** A planned service's own blockers, and what a live inspection reported of it. *)
Record BlockedService := mkBlocked {
  bs_name : string; bs_blockers : list string; bs_unsupported : list string; bs_details : list (string * string) }.
#[export] Instance BlockedService_eq_dec : EqDecision BlockedService.
Proof. solve_decision. Defined.
Definition no_planned : PlannedService := mkPlanned "" "" "" "" "" no_target "" [] [] "" "" [] [] None [] "".

Definition serviceNames (spec : ApplicationSpec) : list string := map as_name (sp_services spec).

Definition serviceIP (k : option KubernetesExtension) (name : string) : string :=
  match k with Some k => default "" (kx_ips k !! name) | None => "" end.
Definition kube_volume (k : option KubernetesExtension) (name : string) : option KubernetesVolume :=
  match k with Some k => kx_volumes k !! name | None => None end.

(** [VolumeHostName]: as docker compose derives it. *)
Definition VolumeHostName (project : string) (v : DeclaredVolume) : string :=
  if dv_external v then dv_name v else project +:+ "_" +:+ dv_name v.

Definition mounts_named (name : string) (s : ApplicationService) : bool :=
  existsb (fun m => bool_decide (av_kind m = "named") && bool_decide (av_source m = name)) (as_volumes s).
Definition namedVolumes (spec : ApplicationSpec) : list string :=
  List.filter (fun name => existsb (mounts_named name) (sp_services spec)) (map dv_name (sp_declared spec)).

(** ** Claims *)

(** Application_preflight.go: per named volume, the services that mount it. *)
Fixpoint volume_sources (vs : list ApplicationVolume) (seen : gset string) (users : gmap string Z) : gmap string Z :=
  match vs with
  | [] => users
  | v :: vs' =>
      if bool_decide (av_kind v = "named") && negb (bool_decide (av_source v ∈ seen))
      then volume_sources vs' ({[av_source v]} ∪ seen) (<[av_source v := default 0 (users !! av_source v) + 1]> users)
      else volume_sources vs' seen users
  end.
Definition volumeUsers (spec : ApplicationSpec) : gmap string Z :=
  foldl (fun users s => volume_sources (as_volumes s) ∅ users) ∅ (sp_services spec).

Section claims.
Context (sum_hex : string -> string).

(** One mount of one service: the claim it names, when its volume is chosen and its alone. *)
Definition claim_of (spec : ApplicationSpec) (names : gmap string string) (users : gmap string Z)
    (v : ApplicationVolume) : option KubernetesClaim :=
  match kube_volume (sp_kubernetes spec) (av_source v) with
  | Some choice =>
      if bool_decide (av_kind v = "named") && (default 0 (users !! av_source v) =? 1)
      then Some (mkClaim (default "" (names !! av_source v)) (kv_class choice) (kv_size choice) (kv_access choice))
      else None
  | None => None
  end.
Definition add_claim (claims : list KubernetesClaim) (c : KubernetesClaim) : list KubernetesClaim :=
  if existsb (fun c' => bool_decide (k_name c' = k_name c)) claims then claims else claims ++ [c].
Definition claim_step (spec : ApplicationSpec) (names : gmap string string) (users : gmap string Z) (service : string)
    (acc : list KubernetesClaim * gmap string (list KubernetesMount)) (v : ApplicationVolume) :=
  match claim_of spec names users v with
  | Some c =>
      (add_claim acc.1 c,
       <[service := default [] (acc.2 !! service) ++ [mkKMount (k_name c) (av_target v) (av_readonly v)]]> acc.2)
  | None => acc
  end.
Definition kubernetesClaims (project : string) (spec : ApplicationSpec)
    : list KubernetesClaim * gmap string (list KubernetesMount) :=
  let names := KubernetesNames sum_hex project (map dv_name (sp_declared spec)) in
  let users := volumeUsers spec in
  foldl (fun acc s => foldl (claim_step spec names users (as_name s)) acc (as_volumes s)) ([], ∅) (sp_services spec).
End claims.

(** [carried]: the choices of the volumes and exposed services [spec] still has. *)
Definition carried (k : option KubernetesExtension) (spec : ApplicationSpec) : option KubernetesExtension :=
  match k with
  | None => None
  | Some k =>
      let kept := filter (fun nv : string * KubernetesVolume => nv.1 ∈ map dv_name (sp_declared spec)) (kx_volumes k) in
      let exposed := map as_name (List.filter (fun s => llen (as_ports s) >? 0) (sp_services spec)) in
      let ips := filter (fun ni : string * string => ni.2 <> "" /\ ni.1 ∈ exposed) (kx_ips k) in
      if bool_decide (kept = ∅) && bool_decide (ips = ∅) then None else Some (mkExtension kept ips)
  end.

(** ** Validity *)

Definition applicationServiceName : re := Cat (Cls lowdig) (Rep (either lowdig (oneof "_-")) 0 62).
Definition applicationEnvName : re := Cat (Cls (either alpha (one "_"))) (Rep (either alnum (one "_")) 0 127).
Definition applicationVolumeName : re := Cat (Cls alnum) (Rep (either alnum (oneof "_.-")) 0 63).
Definition applicationSecretName : re := Cat (Cls alnum) (Rep (either alnum (oneof "_.-")) 0 127).
Definition declaredVolumeName : re := Cat (Cls alnum) (Rep (either alnum (oneof "_.-")) 1 63).

Definition ValidVolumeName (name : string) : bool := re_match applicationVolumeName name.
Definition ValidDeclaredVolumeName (name : string) : bool := re_match declaredVolumeName name.

(** [path.IsAbs], [path.Clean], [strings.TrimSpace] and [displaySafe]. *)
Definition CleanAbsolutePath (p : string) : bool :=
  HasPrefix p "/" && bool_decide (CleanRooted p = p) && bool_decide (TrimSpace p = p) && displaySafe p.

Definition kvolume_valid (v : KubernetesVolume) : bool :=
  ValidStorageClass (kv_class v) && (StorageSizeBytes (kv_size v)).2 && bool_decide (kv_access v = AccessReadWriteOnce).

Definition restart_known (r : string) : bool := bool_decide (r ∈ ["" ; "no"; "always"; "unless-stopped"; "on-failure"]).
Definition spec_port_ok (p : ApplicationPort) : bool :=
  (1 <=? ap_target p) && (ap_target p <=? 65535) && (1 <=? ap_published p) && (ap_published p <=? 65535)
  && tcp_udp (ap_protocol p)
  && (bool_decide (ap_host_ip p = "")
      || match ParseAddr (ap_host_ip p) with Some a => bool_decide (addr_zone a = "") | None => false end).
Definition volume_ok (declared : gset string) (v : ApplicationVolume) : bool :=
  ((bool_decide (av_kind v = "named") && bool_decide (av_source v ∈ declared))
   || (bool_decide (av_kind v = "bind") && CleanAbsolutePath (av_source v)))
  && CleanAbsolutePath (av_target v) && negb (bool_decide (av_target v = "/")).
Definition env_ok (kv : string * string) : bool := re_match applicationEnvName kv.1 && re_match applicationSecretName kv.2.
Definition service_name_ok (s : ApplicationService) : bool :=
  re_match applicationServiceName (as_name s) && (len (as_image s) <=? 512) && ValidImageReference (as_image s)
  && (msize (as_environment s) <=? 128).
Definition spec_service_ok (declared : gset string) (s : ApplicationService) : bool :=
  restart_known (as_restart s) && (llen (as_ports s) <=? 64) && forallb spec_port_ok (as_ports s)
  && (llen (as_volumes s) <=? 32) && seen_loop av_target (volume_ok declared) ∅ (as_volumes s)
  && forallb env_ok (map_to_list (as_environment s)).
Definition extension_ok (spec : ApplicationSpec) (k : KubernetesExtension) : bool :=
  (msize (kx_volumes k) <=? MaxKubernetesClaims) && (msize (kx_ips k) <=? MaxDeploymentServices)
  && forallb (fun nv => bool_decide (nv.1 ∈ map dv_name (sp_declared spec)) && kvolume_valid nv.2) (map_to_list (kx_volumes k))
  && seen_loop snd (fun ni : string * string =>
       bool_decide (ni.1 ∈ serviceNames spec) && ValidClusterIP ni.2
       && existsb (fun s => bool_decide (as_name s = ni.1) && (llen (as_ports s) >? 0)) (sp_services spec))
       ∅ (map_to_list (kx_ips k)).

(** Every check [encodeApplicationSpec] makes before it encodes. *)
Definition spec_ok (spec : ApplicationSpec) : bool :=
  bool_decide (sp_kind spec = "compose.v1") && (0 <? llen (sp_services spec)) && (llen (sp_services spec) <=? 100)
  && (llen (sp_declared spec) <=? 64)
  && seen_loop dv_name (fun v => ValidVolumeName (dv_name v)) ∅ (sp_declared spec)
  && seen_loop as_name (fun s => service_name_ok s && spec_service_ok (list_to_set (map dv_name (sp_declared spec))) s) ∅ (sp_services spec)
  && match sp_kubernetes spec with Some k => extension_ok spec k | None => true end.

Section encode.
Context (Marshal : ApplicationSpec -> string) (sum_hex : string -> string).

Definition applicationSpecDigest (raw : string) : string := "sha256:" +:+ sum_hex raw.

Definition encodeApplicationSpec (spec : ApplicationSpec) : option (string * string) :=
  if negb (spec_ok spec) then None
  else
    let raw := Marshal spec in
    if len raw >? MaxApplicationSpecBytes then None else Some (raw, applicationSpecDigest raw).
Definition ValidateApplicationSpec (spec : ApplicationSpec) : bool := bool_decide (is_Some (encodeApplicationSpec spec)).
End encode.

(** application_secrets.go: exactly the referenced secrets, each a bounded text without NUL. *)
Fixpoint values_loop (refs : gset string) (total : Z) (l : list (string * string)) : bool :=
  match l with
  | [] => true
  | (ref, value) :: l' =>
      let total := total + len ref + len value in
      if negb (bool_decide (ref ∈ refs)) || (len value >? 16384) || negb (ValidString value) || has_nul value
         || (total >? MaxApplicationValuesBytes) then false
      else values_loop refs total l'
  end.
Definition secret_refs (spec : ApplicationSpec) : gset string :=
  list_to_set (mjoin (map (fun s => map snd (map_to_list (as_environment s))) (sp_services spec))).
Definition validateApplicationValues (spec : ApplicationSpec) (values : gmap string string) : bool :=
  (Z.of_nat (size (secret_refs spec)) =? msize values) && values_loop (secret_refs spec) 0 (map_to_list values).

(** ** What a valid specification is *)

Record PortWF (p : ApplicationPort) : Prop := {
  pw_target : 1 <= ap_target p <= 65535;
  pw_published : 1 <= ap_published p <= 65535;
  pw_protocol : ap_protocol p = "tcp" \/ ap_protocol p = "udp";
  pw_host : ap_host_ip p = "" \/ exists a, ParseAddr (ap_host_ip p) = Some a /\ addr_zone a = "" }.
Record MountWF (declared : list string) (v : ApplicationVolume) : Prop := {
  mw_source : (av_kind v = "named" /\ av_source v ∈ declared) \/ (av_kind v = "bind" /\ CleanAbsolutePath (av_source v) = true);
  mw_target : CleanAbsolutePath (av_target v) = true /\ av_target v <> "/" }.
Record ServiceWF (declared : list string) (s : ApplicationService) : Prop := {
  sw_name : re_match applicationServiceName (as_name s) = true;
  sw_image : len (as_image s) <= 512 /\ ValidImageReference (as_image s) = true;
  sw_restart : as_restart s ∈ ["" ; "no"; "always"; "unless-stopped"; "on-failure"];
  sw_ports : llen (as_ports s) <= 64 /\ Forall PortWF (as_ports s);
  sw_mounts : llen (as_volumes s) <= 32 /\ Forall (MountWF declared) (as_volumes s) /\ NoDup (map av_target (as_volumes s));
  sw_env : msize (as_environment s) <= 128 /\ forall name ref, as_environment s !! name = Some ref ->
    re_match applicationEnvName name = true /\ re_match applicationSecretName ref = true }.
Record ExtensionWF (spec : ApplicationSpec) (k : KubernetesExtension) : Prop := {
  xw_sizes : msize (kx_volumes k) <= MaxKubernetesClaims /\ msize (kx_ips k) <= MaxDeploymentServices;
  xw_volumes : forall name v, kx_volumes k !! name = Some v -> name ∈ map dv_name (sp_declared spec) /\ kvolume_valid v = true;
  xw_ips : forall name ip, kx_ips k !! name = Some ip -> ValidClusterIP ip = true /\
    exists s, s ∈ sp_services spec /\ as_name s = name /\ as_ports s <> [];
  xw_distinct : forall n n' ip, kx_ips k !! n = Some ip -> kx_ips k !! n' = Some ip -> n = n' }.
Record SpecWF (spec : ApplicationSpec) : Prop := {
  wf_kind : sp_kind spec = "compose.v1";
  wf_services : 1 <= llen (sp_services spec) <= 100 /\ NoDup (serviceNames spec);
  wf_declared : llen (sp_declared spec) <= 64 /\ NoDup (map dv_name (sp_declared spec)) /\
    Forall (fun v => ValidVolumeName (dv_name v) = true) (sp_declared spec);
  wf_each : Forall (ServiceWF (map dv_name (sp_declared spec))) (sp_services spec);
  wf_extension : forall k, sp_kubernetes spec = Some k -> ExtensionWF spec k }.

Lemma spec_port_ok_iff p : spec_port_ok p = true <-> PortWF p.
Proof.
  unfold spec_port_ok, tcp_udp. rewrite !andb_true_iff, !orb_true_iff, !Z.leb_le, !bool_decide_eq_true. split.
  - intros (((((? & ?) & ?) & ?) & ?) & Hh). split; [lia|lia|done|]. destruct Hh as [Hh|Hh]; [by left|right].
    destruct (ParseAddr _) as [a|]; [|done]. exists a. by apply bool_decide_eq_true in Hh.
  - intros [Ht Hp Hproto Hh]. split_and!; [lia|lia|lia|lia|done|]. destruct Hh as [Hh|(a & -> & Ha)]; [by left|right]. by apply bool_decide_eq_true.
Qed.
Lemma volume_ok_iff declared v : volume_ok (list_to_set declared) v = true <-> MountWF declared v.
Proof.
  unfold volume_ok. rewrite !andb_true_iff, orb_true_iff, !andb_true_iff, negb_true_iff, !bool_decide_eq_true, bool_decide_eq_false, elem_of_list_to_set.
  split; [intros ((? & ?) & ?)|intros [? []]]; [split; auto|auto].
Qed.
Lemma forallb_Forall {A} (p : A -> bool) (P : A -> Prop) l :
  (forall x, p x = true <-> P x) -> forallb p l = true <-> Forall P l.
Proof. intros Hp. rewrite forallb_forall, Forall_forall. setoid_rewrite list_elem_of_In. setoid_rewrite Hp. done. Qed.
Lemma forallb_map {V} (p : string * V -> bool) (m : gmap string V) :
  forallb p (map_to_list m) = true <-> forall k v, m !! k = Some v -> p (k, v) = true.
Proof.
  rewrite forallb_forall. setoid_rewrite <- list_elem_of_In. split.
  - intros H k v Hk. apply H. by apply elem_of_map_to_list.
  - intros H [k v] Hk. apply H. by apply elem_of_map_to_list in Hk.
Qed.
Lemma seen_loop_Forall {A} (key : A -> string) (p : A -> bool) (P : A -> Prop) l :
  (forall x, p x = true <-> P x) -> seen_loop key p ∅ l = true <-> Forall P l /\ NoDup (map key l).
Proof.
  intros Hp. rewrite seen_loop_spec. setoid_rewrite Forall_forall. setoid_rewrite Hp. split; [by intros (? & ? & _)|].
  intros []. split_and!; [done..|]. set_solver.
Qed.

Lemma restart_known_iff r : restart_known r = true <-> r ∈ ["" ; "no"; "always"; "unless-stopped"; "on-failure"].
Proof. apply bool_decide_eq_true. Qed.

Lemma spec_service_ok_iff declared s :
  service_name_ok s && spec_service_ok (list_to_set declared) s = true <-> ServiceWF declared s.
Proof.
  unfold service_name_ok, spec_service_ok.
  rewrite !andb_true_iff, !Z.leb_le, restart_known_iff, (forallb_Forall _ PortWF) by apply spec_port_ok_iff.
  rewrite (seen_loop_Forall _ _ (MountWF declared)) by apply volume_ok_iff. rewrite forallb_map.
  unfold env_ok. setoid_rewrite andb_true_iff. simpl. split.
  - intros [(((? & ?) & ?) & ?) (((((? & ?) & ?) & ?) & [? ?]) & ?)]. split; auto.
  - intros [? [] ? [] (? & ? & ?) []]. auto 20.
Qed.

Lemma extension_ok_iff spec k : extension_ok spec k = true <-> ExtensionWF spec k.
Proof.
  unfold extension_ok. rewrite !andb_true_iff, !Z.leb_le, forallb_map. setoid_rewrite andb_true_iff. setoid_rewrite bool_decide_eq_true. simpl.
  rewrite (seen_loop_Forall snd _ (fun ni => ValidClusterIP ni.2 = true /\ exists s, s ∈ sp_services spec /\ as_name s = ni.1 /\ as_ports s <> [])).
  2:{ intros [n ip]. simpl. rewrite !andb_true_iff, bool_decide_eq_true, existsb_exists. setoid_rewrite andb_true_iff.
      setoid_rewrite bool_decide_eq_true. setoid_rewrite <- list_elem_of_In. unfold llen.
      assert (Hl : forall s, Z.of_nat (List.length (as_ports s)) >? 0 = true <-> as_ports s <> []).
      { intros s. rewrite Z.gtb_lt. destruct (as_ports s); simpl; split; try lia; done. }
      setoid_rewrite Hl. split; [intros ((_ & ?) & ?); auto|]. intros (? & s & Hs & Hn & Hp). split_and!; [|done|by exists s].
      apply list_elem_of_fmap. by exists s. }
  split.
  - intros (((? & ?) & Hv) & Hi & Hnd). split; [done|exact Hv| |].
    + intros n ip Hn. rewrite Forall_forall in Hi. apply (Hi (n, ip)). by apply elem_of_map_to_list.
    + intros n n' ip Hn Hn'. apply elem_of_map_to_list in Hn, Hn'.
      apply list_elem_of_lookup in Hn as [i Hi1], Hn' as [j Hj1].
      assert (i = j) as ->; [|congruence].
      eapply (NoDup_lookup _ i j ip Hnd); by rewrite list_lookup_fmap, ?Hi1, ?Hj1.
  - intros [[? ?] Hv Hi Hd]. split_and!; [done..| |].
    + apply Forall_forall. intros [n ip] Hn%elem_of_map_to_list. by apply Hi.
    + apply NoDup_fmap_2_strong; [|apply NoDup_map_to_list]. intros [n ip] [n' ip'] Hn%elem_of_map_to_list Hn'%elem_of_map_to_list E.
      simpl in E. subst ip'. f_equal. by eapply Hd.
Qed.

(** The checks before a specification is saved accept exactly the well-formed ones: between one
    and a hundred services of distinct valid names, images within the reference grammar, ports and
    mounts in range and grammar, mounts of declared volumes or clean host paths at distinct
    targets, and cluster choices only for declared volumes and exposed services, no two services
    sharing an address. *)
Theorem spec_ok_WF spec : spec_ok spec = true <-> SpecWF spec.
Proof.
  unfold spec_ok. rewrite !andb_true_iff, bool_decide_eq_true, !Z.leb_le, Z.ltb_lt.
  rewrite (seen_loop_Forall dv_name _ (fun v => ValidVolumeName (dv_name v) = true)) by done.
  rewrite (seen_loop_Forall as_name _ (ServiceWF (map dv_name (sp_declared spec)))) by apply spec_service_ok_iff.
  split.
  - intros ((((((? & ?) & ?) & ?) & ? & ?) & ? & ?) & Hk). split; auto; [split; [lia|done]|].
    intros k E. rewrite E in Hk. by apply extension_ok_iff.
  - intros [? [? ?] (? & ? & ?) ? Hk]. split_and!; auto; [lia|lia|]. destruct (sp_kubernetes spec); [|done]. by apply extension_ok_iff, Hk.
Qed.

(** ** Carrying a cluster's choices to the next revision *)

Definition with_extension (spec : ApplicationSpec) (k : option KubernetesExtension) : ApplicationSpec :=
  mkSpec (sp_kind spec) (sp_services spec) (sp_declared spec) k.
Definition exposed (spec : ApplicationSpec) (name : string) : bool :=
  existsb (fun s => bool_decide (as_name s = name) && (llen (as_ports s) >? 0)) (sp_services spec).

Lemma exposed_spec spec name :
  exposed spec name = true <-> name ∈ map as_name (List.filter (fun s => llen (as_ports s) >? 0) (sp_services spec)).
Proof.
  unfold exposed. rewrite existsb_exists, list_elem_of_fmap. setoid_rewrite andb_true_iff. setoid_rewrite bool_decide_eq_true.
  setoid_rewrite list_elem_of_In. setoid_rewrite filter_In. split; intros (s & ?); exists s; naive_solver.
Qed.

Lemma carried_lookup k spec :
  (forall name, kube_volume (carried k spec) name = if bool_decide (name ∈ map dv_name (sp_declared spec)) then kube_volume k name else None) /\
  (forall name, serviceIP (carried k spec) name = if exposed spec name then serviceIP k name else "").
Proof.
  destruct k as [k|]; simpl; [|split; intros name; [by destruct (bool_decide _)|by destruct (exposed _ _)]].
  set (kept := filter _ (kx_volumes k)). set (ips := filter _ (kx_ips k)).
  assert (Hv : forall name, kept !! name = if bool_decide (name ∈ map dv_name (sp_declared spec)) then kx_volumes k !! name else None).
  { intros name. unfold kept. destruct (bool_decide_reflect (name ∈ map dv_name (sp_declared spec))) as [Hn|Hn].
    - destruct (kx_volumes k !! name) eqn:E; [by apply map_lookup_filter_Some|by apply map_lookup_filter_None; left].
    - apply map_lookup_filter_None. by right. }
  assert (Hi : forall name, default "" (ips !! name) = if exposed spec name then default "" (kx_ips k !! name) else "").
  { intros name. unfold ips. destruct (exposed spec name) eqn:E.
    - apply exposed_spec in E. destruct (kx_ips k !! name) as [ip|] eqn:Eip.
      + destruct (decide (ip = "")) as [->|Hne].
        * rewrite (proj2 (map_lookup_filter_None _ _ _)); [done|]. right. intros ip Hip [? _]. simpl in *. congruence.
        * by rewrite (proj2 (map_lookup_filter_Some _ _ _ ip)).
      + rewrite (proj2 (map_lookup_filter_None _ _ _)); [done|]. by left.
    - rewrite (proj2 (map_lookup_filter_None _ _ _)); [done|]. right. intros ip Hip [_ Hn]. apply exposed_spec in Hn. simpl in Hn. congruence. }
  destruct (bool_decide (kept = ∅) && bool_decide (ips = ∅)) eqn:E; [|split; [exact Hv|exact Hi]].
  apply andb_prop in E as [E1%bool_decide_eq_true E2%bool_decide_eq_true]. rewrite E1 in Hv. rewrite E2 in Hi.
  split; intros name; [by rewrite <- Hv, lookup_empty|by rewrite <- Hi, lookup_empty].
Qed.

Lemma msize_filter_le {V} (P : string * V -> Prop) `{!forall x, Decision (P x)} (m : gmap string V) : msize (filter P m) <= msize m.
Proof. unfold msize. apply inj_le. apply map_subseteq_size, map_filter_subseteq. Qed.

(** A new revision that brings no cluster choices keeps exactly the ones it can still use, and
    stays valid: the choice of each volume it still declares and the address of each service it
    still exposes are the previous revision's, every other choice is gone, and a valid definition
    with the choices of a valid revision is saved without refusal. *)
Theorem carried_valid previous spec :
  spec_ok previous = true -> spec_ok spec = true -> sp_kubernetes spec = None ->
  let next := with_extension spec (carried (sp_kubernetes previous) spec) in
  spec_ok next = true /\
  (forall name, kube_volume (sp_kubernetes next) name =
     if bool_decide (name ∈ map dv_name (sp_declared spec)) then kube_volume (sp_kubernetes previous) name else None) /\
  (forall name, serviceIP (sp_kubernetes next) name =
     if exposed spec name then serviceIP (sp_kubernetes previous) name else "").
Proof.
  intros Hp%spec_ok_WF Hs%spec_ok_WF Hnone next. split; [|apply carried_lookup].
  apply spec_ok_WF. destruct Hs as [? ? ? ? _]. split; [done..|]. simpl. intros k E.
  destruct (sp_kubernetes previous) as [kp|] eqn:Ep; [|done]. simpl in E.
  destruct (_ && _) in E; [done|]. injection E as <-. destruct (wf_extension _ Hp kp Ep) as [[Hz1 Hz2] Hv Hi Hd].
  split; simpl.
  - split; (eapply Z.le_trans; [apply msize_filter_le|done]).
  - intros name v [Hk Hn]%map_lookup_filter_Some. split; [exact Hn|]. by apply (Hv name v).
  - intros name ip [Hk [_ Hn]]%map_lookup_filter_Some. split; [by apply (Hi name ip)|].
    simpl in Hn. apply list_elem_of_fmap in Hn as (s & -> & Hs%list_elem_of_In). apply filter_In in Hs as [Hs Hports].
    exists s. split_and!; [by apply list_elem_of_In|done|]. intros E. rewrite E in Hports. done.
  - intros n n' ip [Hn _]%map_lookup_filter_Some [Hn' _]%map_lookup_filter_Some. by eapply Hd.
Qed.

Definition demo_web : ApplicationService :=
  mkAService [mkAPort 80 8080 "" "tcp"] "always" "web" "nginx:1.27" {["TOKEN" := "web-token"]}
    [mkAVolume "named" "data" "/data" false; mkAVolume "bind" "/srv/www" "/www" true].
Definition demo_spec : ApplicationSpec := mkSpec "compose.v1" [demo_web] [mkDeclared "data" false] None.
Definition demo_choice : KubernetesExtension :=
  mkExtension {["data" := mkKVolume "" "1Gi" "ReadWriteOnce"; "gone" := mkKVolume "" "2Gi" "ReadWriteOnce"]} {["web" := "10.0.0.9"]}.
Definition demo_previous : ApplicationSpec :=
  mkSpec "compose.v1" [demo_web] [mkDeclared "data" false; mkDeclared "gone" false] (Some demo_choice).

Lemma carried_valid_witness :
  let next := with_extension demo_spec (carried (sp_kubernetes demo_previous) demo_spec) in
  spec_ok demo_previous = true /\ spec_ok demo_spec = true /\ spec_ok next = true /\
  kube_volume (sp_kubernetes next) "data" = Some (mkKVolume "" "1Gi" "ReadWriteOnce") /\
  kube_volume (sp_kubernetes next) "gone" = None /\ serviceIP (sp_kubernetes next) "web" = "10.0.0.9".
Proof.
  intros next. assert (Hp : spec_ok demo_previous = true) by (vm_compute; reflexivity).
  assert (Hs : spec_ok demo_spec = true) by (vm_compute; reflexivity).
  destruct (carried_valid demo_previous demo_spec Hp Hs eq_refl) as (Hok & Hv & Hi).
  split; [exact Hp|]. split; [exact Hs|]. split; [exact Hok|].
  split; [etransitivity; [exact (Hv "data")|vm_compute; reflexivity]|].
  split; [etransitivity; [exact (Hv "gone")|vm_compute; reflexivity]|etransitivity; [exact (Hi "web")|vm_compute; reflexivity]].
Defined.
