(* ===== verification/Store.v ===== *)
(** * The control plane's database

    The tables of [src/internal/store/migrations/migrations.go] that the tenancy store's
    operations read and write, as finite maps from primary key to row, and the audit trail as
    a list.  A row record has the columns the modelled operations use.  Constraint violations
    (primary and unique keys, CHECK clauses, foreign keys) are modelled as errors of the
    statement; failures of the database itself (a lost connection, a full disk) are not.

    A statement or a sequence of statements inside one transaction is a [tx]: it reads and
    changes the database and may fail; [commit] runs it with the rollback of [defer
    tx.Rollback()].  Clock readings and fresh identifiers are arguments. *)
From Stdlib Require Import ZArith Lia Ascii String.
From stdpp Require Import base gmap strings list sorting.
From S2P Require Import Prelude.
From S2P Require Import Text.
From S2P Require Import Frame.
From S2P Require Import Inventory.
From S2P Require Import Spec.

Inductive StoreErr : Set :=
| ErrNotFound | ErrForbidden | ErrInvalid | ErrAlreadyExists | ErrInUse
| ErrRevisionCorrupt | ErrAdoptionChanged | ErrMappingRequired | ErrDeploymentInProgress
| ErrInvalidTimezone | ErrInvalidWindow | ErrInvalidWeekdays | ErrInvalidMode
| ErrPolicyNotPaused | ErrPolicyChanged
| ErrEndpointOffline | ErrCommandInProgress | ErrContainerManaged | ErrWorkloadManaged
| ErrNamespaceNotGranted | ErrRuntimeUnsupported | ErrUnreadableResult
| ErrDeploymentPlanned | ErrMigrationOpen | ErrRemovalTooLarge | ErrApplicationAdopted | ErrApplicationLimit
| ErrNamespaceUnknown | ErrRevisionConflict | ErrPrivateRegistriesDisabled | ErrRegistryNotConfigured
| PreflightBlocked (blockers : list string) (services : list BlockedService)
| InvalidSpec (blockers : list string)
| ErrNoRows               (** [sql.ErrNoRows], where the code returns it as it is *)
| errNoPrincipal          (** [principalRole]'s "no such row" *)
| ErrJSON                 (** encoding/json's error, where the code returns it as it is *)
| ErrCanceled             (** the context's error *)
| ErrUnique               (** the driver's UNIQUE or "duplicate key" error *)
| ErrConstraint           (** the driver's CHECK or FOREIGN KEY error *).

#[export] Instance StoreErr_eq_dec : EqDecision StoreErr.
Proof. solve_decision. Defined.

(** ** Rows *)

Record AuditRecord := mkAudit {
  a_user : string; a_action : string; a_resource : string; a_details : string;
  a_ip : string; a_created : time; a_scope : string; a_org : string; a_env : string;
  a_correlation : string; a_result : string }.

Record UserRow := mkUser { u_status : string; u_must_change_password : bool; u_role : string }.
Record MemberRow := mkMember { m_role : string; m_status : string }.
Record TokenRow := mkToken { t_org : string; t_revoked : option time; t_scope : string }.
(** organizations and registries, the columns pulls read. *)
Record OrganizationRow := mkOrganization { o_name : string; o_anonymous : bool }.
Record RegistryRow := mkRegistry {
  rg_org : string; rg_host : string; rg_name : string; rg_username : string; rg_private : bool;
  rg_created_by : string; rg_created : time; rg_updated : time; rg_credential : string }.
Record EnvironmentRow := mkEnvironment { e_org : string; e_name : string }.
(** A time the database may not have: [removed_at]. *)
Record ApplicationRow := mkApplication {
  app_org : string; app_env : string; app_name : string; app_latest : Z;
  app_created_by : string; app_created : time; app_removed : option time }.
(** application_revisions, keyed by application and number; [rv_spec] is the stored text. *)
Record RevisionRow := mkRevision {
  rv_org : string; rv_env : string; rv_spec : string; rv_digest : string; rv_secrets : string;
  rv_created_by : string; rv_created : time }.
Record InstanceRow := mkInstance {
  i_app : string; i_endpoint : string; i_org : string; i_env : string; i_project : string;
  i_revision : Z; i_created_by : string; i_created : time;
  i_mapping : Z; i_mapped : Z; i_current : Z; i_previous : Z; i_namespace : string }.
(** application_resources, keyed by endpoint and container. *)
Record ResourceRow := mkResource {
  xr_instance : string; xr_name : string; xr_image : string; xr_created : time; xr_service : string }.
(** image_checks, keyed by instance and service. *)
Record ImageCheckRow := mkImageCheck {
  ic_reference : string; ic_local : string; ic_remote : string; ic_verdict : string; ic_detail : string; ic_checked : time }.
(** endpoint_inventory; [iv_snapshot] is the stored text decoded, [None] when it does not decode. *)
Record InventoryRow := mkInventory { iv_snapshot : option Snapshot; iv_received : time; iv_observed : time }.
(** The columns of application_migrations the deployment writers read. *)
Record MigrationRow := mkMigration {
  mg_org : string; mg_env : string; mg_app : string; mg_destination : option string; mg_status : string }.
Record EndpointRow := mkEndpoint {
  ep_org : string; ep_env : string; ep_runtime : string; ep_state : string;
  ep_namespaces : list string   (** [deploy_namespaces], decoded *);
  ep_name : string }.

Record PolicyRow := mkPolicy {
  p_id : string; p_org : string; p_env : string; p_app : string; p_created_by : string;
  p_mode : string; p_timezone : string; p_weekdays : string;
  p_start : Z; p_end : Z; p_status : string; p_paused_reason : string;
  p_failures : Z; p_created : time; p_updated : time }.

Record RunRow := mkRun {
  r_id : string; r_policy : string; r_org : string; r_env : string; r_app : string;
  r_occurrence : time; r_started : time; r_finished : option time;
  r_outcome : string; r_deployment : option string; r_detail : string;
  r_correlation : string }.

(** The result column: what storedDeploymentResult keeps of a result. *)
Record StoredResult := mkStored { sr_code : string; sr_steps : list DeploymentStep; sr_services : list DeploymentIdentity }.

(** [d_plan] is the plan column decoded, [None] when it does not decode; [d_result] is [None]
    for the empty text of a row not settled. *)
Record DeploymentRow := mkDeployment {
  d_id : string; d_org : string; d_env : string; d_app : string;
  d_instance : string; d_endpoint : string; d_state : string;
  d_expires : time; d_policy_run : option string;
  d_kind : string; d_project : string; d_revision : Z; d_digest : string; d_mapping : Z;
  d_plan : option DeploymentPlan; d_created_by : string; d_created : time;
  d_applied_by : string; d_applied : option time; d_deadline : option time; d_settled : option time;
  d_detail : string; d_result : option StoredResult; d_correlation : string; d_migration : option string }.

Record ValidationRow := mkValidation {
  v_id : string; v_org : string; v_env : string; v_app : string;
  v_instance : string; v_endpoint : string; v_run : option string;
  v_automated : bool; v_is_rollback : bool; v_phase : string;
  v_started : time; v_until : time; v_verdict : string; v_detail : string;
  v_baseline : string; v_rollback : option string; v_rollback_outcome : string;
  v_rollback_detail : string; v_correlation : string; v_finished : option time }.

(** What a command expects of its target ([protocol.Expectation]). *)
Record Expectation := mkExpectation { x_image : string; x_state : string; x_replicas : option Z }.
#[export] Instance Expectation_eq_dec : EqDecision Expectation.
Proof. solve_decision. Defined.

Record CommandRow := mkCommand {
  c_id : string; c_endpoint : string; c_org : string; c_env : string;
  c_actor : string; c_request : string; c_action : string;
  c_container : string; c_reference : string;
  c_expects : Expectation;
  c_deadline : time; c_outcome : string; c_detail : string; c_created : time;
  c_dispatched : option time; c_settled : option time;
  c_result : string; c_result_container : string }.

Record DB := mkDB {
  users : gmap string UserRow;
  memberships : gmap (string * string) MemberRow;
  tokens : gmap string TokenRow;
  environments : gmap string EnvironmentRow;
  applications : gmap string ApplicationRow;
  instances : gmap string InstanceRow;
  endpoints : gmap string EndpointRow;
  policies : gmap string PolicyRow;
  runs : gmap string RunRow;
  deployments : gmap string DeploymentRow;
  validations : gmap string ValidationRow;
  commands : gmap string CommandRow;
  revisions : gmap (string * Z) RevisionRow;
  resources : gmap (string * string) ResourceRow;
  image_checks : gmap (string * string) ImageCheckRow;
  inventories : gmap string InventoryRow;
  capabilities : gmap string (gset string);
  migrations : gmap string MigrationRow;
  organizations : gmap string OrganizationRow;
  registries : gmap string RegistryRow;
  audit : list AuditRecord }.

Definition set_environments (m : gmap string EnvironmentRow) (d : DB) : DB :=
  mkDB (users d) (memberships d) (tokens d) m (applications d) (instances d) (endpoints d)
    (policies d) (runs d) (deployments d) (validations d) (commands d) (revisions d) (resources d)
    (image_checks d) (inventories d) (capabilities d) (migrations d) (organizations d)
    (registries d) (audit d).
Definition set_applications (m : gmap string ApplicationRow) (d : DB) : DB :=
  mkDB (users d) (memberships d) (tokens d) (environments d) m (instances d) (endpoints d)
    (policies d) (runs d) (deployments d) (validations d) (commands d) (revisions d) (resources d)
    (image_checks d) (inventories d) (capabilities d) (migrations d) (organizations d)
    (registries d) (audit d).
Definition set_instances (m : gmap string InstanceRow) (d : DB) : DB :=
  mkDB (users d) (memberships d) (tokens d) (environments d) (applications d) m (endpoints d)
    (policies d) (runs d) (deployments d) (validations d) (commands d) (revisions d) (resources d)
    (image_checks d) (inventories d) (capabilities d) (migrations d) (organizations d)
    (registries d) (audit d).
Definition set_endpoints (m : gmap string EndpointRow) (d : DB) : DB :=
  mkDB (users d) (memberships d) (tokens d) (environments d) (applications d) (instances d) m
    (policies d) (runs d) (deployments d) (validations d) (commands d) (revisions d) (resources d)
    (image_checks d) (inventories d) (capabilities d) (migrations d) (organizations d)
    (registries d) (audit d).
Definition set_policies (m : gmap string PolicyRow) (d : DB) : DB :=
  mkDB (users d) (memberships d) (tokens d) (environments d) (applications d) (instances d)
    (endpoints d) m (runs d) (deployments d) (validations d) (commands d) (revisions d)
    (resources d) (image_checks d) (inventories d) (capabilities d) (migrations d) (organizations d)
    (registries d) (audit d).
Definition set_runs (m : gmap string RunRow) (d : DB) : DB :=
  mkDB (users d) (memberships d) (tokens d) (environments d) (applications d) (instances d)
    (endpoints d) (policies d) m (deployments d) (validations d) (commands d) (revisions d)
    (resources d) (image_checks d) (inventories d) (capabilities d) (migrations d) (organizations d)
    (registries d) (audit d).
Definition set_deployments (m : gmap string DeploymentRow) (d : DB) : DB :=
  mkDB (users d) (memberships d) (tokens d) (environments d) (applications d) (instances d)
    (endpoints d) (policies d) (runs d) m (validations d) (commands d) (revisions d) (resources d)
    (image_checks d) (inventories d) (capabilities d) (migrations d) (organizations d)
    (registries d) (audit d).
Definition set_validations (m : gmap string ValidationRow) (d : DB) : DB :=
  mkDB (users d) (memberships d) (tokens d) (environments d) (applications d) (instances d)
    (endpoints d) (policies d) (runs d) (deployments d) m (commands d) (revisions d) (resources d)
    (image_checks d) (inventories d) (capabilities d) (migrations d) (organizations d)
    (registries d) (audit d).
Definition set_commands (m : gmap string CommandRow) (d : DB) : DB :=
  mkDB (users d) (memberships d) (tokens d) (environments d) (applications d) (instances d)
    (endpoints d) (policies d) (runs d) (deployments d) (validations d) m (revisions d)
    (resources d) (image_checks d) (inventories d) (capabilities d) (migrations d) (organizations d)
    (registries d) (audit d).
Definition set_revisions (m : gmap (string * Z) RevisionRow) (d : DB) : DB :=
  mkDB (users d) (memberships d) (tokens d) (environments d) (applications d) (instances d)
    (endpoints d) (policies d) (runs d) (deployments d) (validations d) (commands d) m (resources d)
    (image_checks d) (inventories d) (capabilities d) (migrations d) (organizations d)
    (registries d) (audit d).
Definition set_resources (m : gmap (string * string) ResourceRow) (d : DB) : DB :=
  mkDB (users d) (memberships d) (tokens d) (environments d) (applications d) (instances d)
    (endpoints d) (policies d) (runs d) (deployments d) (validations d) (commands d) (revisions d) m
    (image_checks d) (inventories d) (capabilities d) (migrations d) (organizations d)
    (registries d) (audit d).
Definition set_image_checks (m : gmap (string * string) ImageCheckRow) (d : DB) : DB :=
  mkDB (users d) (memberships d) (tokens d) (environments d) (applications d) (instances d)
    (endpoints d) (policies d) (runs d) (deployments d) (validations d) (commands d) (revisions d)
    (resources d) m (inventories d) (capabilities d) (migrations d) (organizations d) (registries d)
    (audit d).
Definition set_inventories (m : gmap string InventoryRow) (d : DB) : DB :=
  mkDB (users d) (memberships d) (tokens d) (environments d) (applications d) (instances d)
    (endpoints d) (policies d) (runs d) (deployments d) (validations d) (commands d) (revisions d)
    (resources d) (image_checks d) m (capabilities d) (migrations d) (organizations d)
    (registries d) (audit d).
Definition set_capabilities (m : gmap string (gset string)) (d : DB) : DB :=
  mkDB (users d) (memberships d) (tokens d) (environments d) (applications d) (instances d)
    (endpoints d) (policies d) (runs d) (deployments d) (validations d) (commands d) (revisions d)
    (resources d) (image_checks d) (inventories d) m (migrations d) (organizations d) (registries d)
    (audit d).
Definition set_migrations (m : gmap string MigrationRow) (d : DB) : DB :=
  mkDB (users d) (memberships d) (tokens d) (environments d) (applications d) (instances d)
    (endpoints d) (policies d) (runs d) (deployments d) (validations d) (commands d) (revisions d)
    (resources d) (image_checks d) (inventories d) (capabilities d) m (organizations d)
    (registries d) (audit d).
Definition set_organizations (m : gmap string OrganizationRow) (d : DB) : DB :=
  mkDB (users d) (memberships d) (tokens d) (environments d) (applications d) (instances d)
    (endpoints d) (policies d) (runs d) (deployments d) (validations d) (commands d) (revisions d)
    (resources d) (image_checks d) (inventories d) (capabilities d) (migrations d) m (registries d)
    (audit d).
Definition set_registries (m : gmap string RegistryRow) (d : DB) : DB :=
  mkDB (users d) (memberships d) (tokens d) (environments d) (applications d) (instances d)
    (endpoints d) (policies d) (runs d) (deployments d) (validations d) (commands d) (revisions d)
    (resources d) (image_checks d) (inventories d) (capabilities d) (migrations d) (organizations d)
    m (audit d).
Definition set_audit (l : list AuditRecord) (d : DB) : DB :=
  mkDB (users d) (memberships d) (tokens d) (environments d) (applications d) (instances d)
    (endpoints d) (policies d) (runs d) (deployments d) (validations d) (commands d) (revisions d)
    (resources d) (image_checks d) (inventories d) (capabilities d) (migrations d) (organizations d)
    (registries d) l.

Definition empty_db : DB := mkDB ∅ ∅ ∅ ∅ ∅ ∅ ∅ ∅ ∅ ∅ ∅ ∅ ∅ ∅ ∅ ∅ ∅ ∅ ∅ ∅ [].

(** ** Transactions *)

Definition tx (A : Type) : Type := DB -> res StoreErr (A * DB).

#[export] Instance tx_ret : MRet tx := fun A a db => Ok (a, db).
#[export] Instance tx_bind : MBind tx :=
  fun A B k m db => match m db with Ok (a, db') => k a db' | Fail e => Fail e end.

Definition throw {A} (e : StoreErr) : tx A := fun _ => Fail e.
Definition gets {A} (f : DB -> A) : tx A := fun db => Ok (f db, db).
Definition modify (f : DB -> DB) : tx unit := fun db => Ok (tt, f db).
(** [if c { return e }]. *)
Definition ensure (c : bool) (e : StoreErr) : tx unit := if c then mret tt else throw e.
(** [sql.ErrNoRows] mapped to [e]. *)
Definition one {A} (o : option A) (e : StoreErr) : tx A :=
  match o with Some a => mret a | None => throw e end.

(** [if errors.Is(err, e) { return e' }]. *)
Definition map_err {A} (f : StoreErr -> StoreErr) (m : tx A) : tx A :=
  fun db => match m db with Ok r => Ok r | Fail e => Fail (f e) end.

(** [BeginTx], the body, [Commit], or [Rollback] on any error. *)
Definition commit {A} (m : tx A) (db : DB) : res StoreErr A * DB :=
  match m db with Ok (a, db') => (Ok a, db') | Fail e => (Fail e, db) end.

Definition tx_iter {A} (f : A -> tx unit) : list A -> tx unit :=
  fix go l := match l with [] => mret tt | x :: l' => f x ≫= fun _ => go l' end.
Definition tx_map {A B} (f : A -> tx B) : list A -> tx (list B) :=
  fix go l := match l with [] => mret [] | x :: l' => f x ≫= fun y => go l' ≫= fun ys => mret (y :: ys) end.

(** The stored snapshot of an endpoint, when there is one and it decodes. *)
Definition snapshot_of (db : DB) (endpoint : string) : option Snapshot :=
  match inventories db !! endpoint with Some v => iv_snapshot v | None => None end.
Definition read_snapshot (endpoint : string) (e : StoreErr) : tx Snapshot :=
  fun db => one (snapshot_of db endpoint) e db.
(** A container some application's instance owns. *)
Definition managed (db : DB) (endpoint container : string) : bool :=
  bool_decide (is_Some (resources db !! (endpoint, container))).

Lemma bind_ok {A B} (m : tx A) (k : A -> tx B) db r :
  (m ≫= k) db = Ok r <-> exists a db', m db = Ok (a, db') /\ k a db' = Ok r.
Proof.
  unfold mbind, tx_bind. destruct (m db) as [[a db']|e]; split.
  - eauto.
  - intros (? & ? & [= <- <-] & ?). done.
  - done.
  - intros (? & ? & ? & ?). done.
Qed.

(** Running a statement forwards. *)
Lemma bind_run {A B} (m : tx A) (k : A -> tx B) db a db' :
  m db = Ok (a, db') -> (m ≫= k) db = k a db'.
Proof. unfold mbind, tx_bind. by intros ->. Qed.

Lemma throw_ok {A} e db (r : A * DB) : throw e db = Ok r <-> False.
Proof. done. Qed.
Lemma ret_ok {A} (a : A) db r : (mret a : tx A) db = Ok r <-> r = (a, db).
Proof. unfold mret, tx_ret. naive_solver. Qed.
Lemma gets_ok {A} (f : DB -> A) db r : gets f db = Ok r <-> r = (f db, db).
Proof. unfold gets. naive_solver. Qed.
Lemma modify_ok f db r : modify f db = Ok r <-> r = (tt, f db).
Proof. unfold modify. naive_solver. Qed.
Lemma ensure_ok c e db r : ensure c e db = Ok r <-> c = true /\ r = (tt, db).
Proof. unfold ensure. destruct c; rewrite ?ret_ok; naive_solver. Qed.
Lemma one_ok {A} (o : option A) e db r :
  one o e db = Ok r <-> exists a, o = Some a /\ r = (a, db).
Proof. unfold one. destruct o; rewrite ?ret_ok; naive_solver. Qed.

Lemma map_err_ok {A} f (m : tx A) db r : map_err f m db = Ok r <-> m db = Ok r.
Proof. unfold map_err. destruct (m db); naive_solver. Qed.

Lemma read_snapshot_ok endpoint e db r :
  read_snapshot endpoint e db = Ok r <-> exists s, snapshot_of db endpoint = Some s /\ r = (s, db).
Proof. apply one_ok. Qed.

(** [tx_inv H] runs a successful transaction backwards: every statement succeeded and every
    guard let it through. *)
Ltac tx_step H :=
  match type of H with
  | (_ ≫= _) _ = Ok _ =>
      let a := fresh "a" in let db' := fresh "db" in
      let E := fresh "Htx" in
      apply bind_ok in H; destruct H as (a & db' & E & H); tx_step E; tx_step H
  | map_err _ _ _ = Ok _ => apply map_err_ok in H; tx_step H
  | throw _ _ = Ok _ => apply throw_ok in H; contradiction
  | mret _ _ = Ok _ => apply ret_ok in H; simplify_eq/=
  | gets _ _ = Ok _ => apply gets_ok in H; simplify_eq/=
  | modify _ _ = Ok _ => apply modify_ok in H; simplify_eq/=
  | ensure _ _ _ = Ok _ =>
      let E := fresh "Hg" in apply ensure_ok in H; destruct H as [E H]; simplify_eq/=
  | read_snapshot _ _ _ = Ok _ =>
      let a := fresh "row" in let E := fresh "Hrow" in
      apply read_snapshot_ok in H; destruct H as (a & E & H); simplify_eq/=
  | one _ _ _ = Ok _ =>
      let a := fresh "row" in let E := fresh "Hrow" in
      apply one_ok in H; destruct H as (a & E & H); simplify_eq/=
  | _ => idtac
  end.
Ltac tx_inv H := repeat (progress (tx_step H)).

(** ** What a transaction leaves alone

    [Keeps f m]: wherever [m] succeeds, what [f] reads of the database is what it was. *)
Definition Keeps {T A} (f : DB -> T) (m : tx A) : Prop := forall db x db', m db = Ok (x, db') -> f db' = f db.

Section keeps.
Context {T : Type} (f : DB -> T).

Lemma keeps_bind {A B} (m : tx A) (k : A -> tx B) : Keeps f m -> (forall a, Keeps f (k a)) -> Keeps f (m ≫= k).
Proof. intros Hm Hk db x db' (a & d & H1 & H2)%bind_ok. rewrite (Hk _ _ _ _ H2). by eapply Hm. Qed.
Lemma keeps_ret {A} (a : A) : Keeps f (mret a : tx A).
Proof. intros db x db' H. by injection H as _ <-. Qed.
Lemma keeps_gets {A} (g : DB -> A) : Keeps f (gets g).
Proof. intros db x db' [= _ <-]%gets_ok. done. Qed.
Lemma keeps_ensure c e : Keeps f (ensure c e).
Proof. intros db x db' [_ [= _ <-]]%ensure_ok. done. Qed.
Lemma keeps_one {A} (o : option A) e : Keeps f (one o e).
Proof. intros db x db' (a & _ & [= _ <-])%one_ok. done. Qed.
Lemma keeps_read_snapshot endpoint e : Keeps f (read_snapshot endpoint e).
Proof. by intros db x db' (s & _ & [= -> ->])%read_snapshot_ok. Qed.
Lemma keeps_modify g : (forall db, f (g db) = f db) -> Keeps f (modify g).
Proof. intros Hf db x db' [= _ ->]%modify_ok. apply Hf. Qed.
Lemma keeps_throw {A} e : Keeps f (throw e : tx A).
Proof. by intros db x db'. Qed.
Lemma keeps_iter {A} (g : A -> tx unit) l : (forall x, Keeps f (g x)) -> Keeps f (tx_iter g l).
Proof. intros Hf. induction l as [|x l IH]; [apply keeps_ret|]. apply keeps_bind; [apply Hf|intros _; apply IH]. Qed.
Lemma keeps_map {A B} (g : A -> tx B) l : (forall x, Keeps f (g x)) -> Keeps f (tx_map g l).
Proof.
  intros Hf. induction l as [|x l IH]; [apply keeps_ret|]. apply keeps_bind; [apply Hf|intros y].
  apply keeps_bind; [apply IH|intros ys; apply keeps_ret].
Qed.
End keeps.

(** A transaction that only reads. *)
Notation Reads := (Keeps (fun db => db)).
Lemma reads_keeps {T A} (f : DB -> T) (m : tx A) : Reads m -> Keeps f m.
Proof. intros H db x db' E. by rewrite (H _ _ _ E). Qed.

Create HintDb keeps discriminated.
#[export] Hint Resolve keeps_throw keeps_ret keeps_gets keeps_ensure keeps_one keeps_read_snapshot : keeps.
Ltac keeps :=
  repeat (first [ apply keeps_bind; [|intros ?] | apply keeps_iter; intros ? | apply keeps_map; intros ?
                | apply keeps_modify; (reflexivity || (intros ?; reflexivity)) | progress eauto with keeps | case_match ]).

(** [reading H]: [H] ran a statement that only reads, so the database is the one it started on. *)
Ltac reading H :=
  match type of H with
  | ?m ?db = Ok (_, ?d) =>
      let R := fresh "R" in let E := fresh "E" in
      assert (R : Reads m) by (first [solve [eauto with keeps] | solve [keeps]]); pose proof (R _ _ _ H) as E; cbn beta in E; clear R; subst d
  end.

(** ** Reading tables *)

(** The order of [ORDER BY t, id]. *)
Definition by_time {A} (t : A -> time) (id : A -> string) (x y : A) : Prop :=
  t x < t y \/ (t x = t y /\ String.leb (id x) (id y) = true).
#[export] Instance by_time_dec {A} (t : A -> time) (id : A -> string) : RelDecision (by_time t id).
Proof. intros x y. unfold by_time. apply _. Defined.

(** The order of [ORDER BY] a text. *)
Definition by_first {A} (x y : string * A) : Prop := String.leb x.1 y.1 = true.
#[export] Instance by_first_dec {A} : RelDecision (@by_first A).
Proof. intros x y. unfold by_first. apply _. Defined.

(** [SELECT ... WHERE p]. *)
Definition select {A} (p : A -> bool) (m : gmap string A) : list A :=
  List.filter p (map snd (map_to_list m)).
(** [SELECT ... WHERE p ORDER BY t, id]. *)
Definition select_by {A} (t : A -> time) (id : A -> string) (p : A -> bool) (m : gmap string A)
  : list A := merge_sort (by_time t id) (select p m).
(** [SELECT COUNT( * ) ... WHERE p]. *)
Definition count {A} (p : A -> bool) (m : gmap string A) : Z := llen (select p m).

Lemma elem_of_select {A} (p : A -> bool) (m : gmap string A) x :
  x ∈ select p m <-> (exists k, m !! k = Some x) /\ p x = true.
Proof.
  unfold select. rewrite list_elem_of_In, filter_In, <- list_elem_of_In.
  rewrite list_elem_of_fmap. split.
  - intros [([k y] & -> & Hy) Hp]. apply elem_of_map_to_list in Hy. eauto.
  - intros [[k Hk] Hp]. split; [|done]. exists (k, x). split; [done|].
    by apply elem_of_map_to_list.
Qed.

Lemma elem_of_select_by {A} t id (p : A -> bool) (m : gmap string A) x :
  x ∈ select_by t id p m <-> (exists k, m !! k = Some x) /\ p x = true.
Proof. unfold select_by. rewrite merge_sort_Permutation. apply elem_of_select. Qed.

Lemma count_zero {A} (p : A -> bool) (m : gmap string A) :
  count p m = 0 <-> forall k x, m !! k = Some x -> p x = false.
Proof.
  unfold count, llen. split.
  - intros H k x Hk. destruct (p x) eqn:Hp; [|done].
    assert (Hx : x ∈ select p m) by (apply elem_of_select; eauto).
    destruct (select p m); [by apply elem_of_nil in Hx|simpl in H; lia].
  - intros H. destruct (select p m) as [|x l] eqn:E; [done|].
    assert (Hx : x ∈ select p m) by (rewrite E; left).
    apply elem_of_select in Hx as [[k Hk] Hp]. rewrite (H k x Hk) in Hp. done.
Qed.

Lemma count_nonneg {A} (p : A -> bool) (m : gmap string A) : 0 <= count p m.
Proof. unfold count. apply llen_nonneg. Qed.

(** A table's rows carry their own key. *)
Definition keyed {A} (id : A -> string) (m : gmap string A) : Prop :=
  forall k x, m !! k = Some x -> id x = k.

Lemma keyed_insert {A} (id : A -> string) (m : gmap string A) x :
  keyed id m -> keyed id (<[id x := x]> m).
Proof. intros H k y. rewrite lookup_insert_Some. intros [[<- <-]|[_ ?]]; [done|by apply H]. Qed.

Lemma select_by_ids {A} t (id : A -> string) (p : A -> bool) (m : gmap string A) :
  keyed id m -> NoDup (map id (select_by t id p m)).
Proof.
  intros Hk. unfold select_by, select.
  assert (Hp : map id (merge_sort (by_time t id) (List.filter p (map snd (map_to_list m))))
               ≡ₚ map id (List.filter p (map snd (map_to_list m)))).
  { apply fmap_Permutation, merge_sort_Permutation. }
  rewrite Hp. clear Hp.
  assert (Hin : forall kx, kx ∈ map_to_list m -> id kx.2 = kx.1).
  { intros [k x] Hx. apply elem_of_map_to_list in Hx. by apply Hk. }
  pose proof (NoDup_fst_map_to_list m) as Hnd.
  induction (map_to_list m) as [|[k x] l IH]; simpl; [constructor|].
  simpl in Hnd. apply NoDup_cons in Hnd as [Hnk Hnd].
  assert (IH' := IH (fun kx H => Hin kx (list_elem_of_further _ _ _ H)) Hnd). clear IH.
  destruct (p x); simpl; [|done]. constructor; [|done].
  intros (y & Hy & Hf)%list_elem_of_fmap. apply Hnk.
  rewrite list_elem_of_In, filter_In, <- list_elem_of_In in Hf. destruct Hf as [Hf _].
  apply list_elem_of_fmap in Hf as ([k' y'] & -> & Hk'). simpl in Hy.
  pose proof (Hin (k, x) (list_elem_of_here _ _)) as H1.
  pose proof (Hin (k', y') (list_elem_of_further _ _ _ Hk')) as H2. simpl in *.
  apply list_elem_of_fmap. exists (k', y'). simpl. split; [congruence|done].
Qed.

(** SQL's [length] of a text value: its characters. *)
Definition char_length (s : string) : Z := llen (runes s).

Lemma char_length_CleanText s : char_length (CleanText s 255) <= 255.
Proof.
  unfold char_length. pose proof (runes_len (CleanText s 255)) as [? _].
  pose proof (CleanText_len s 255 ltac:(lia)). lia.
Qed.
