(* ===== verification/TenantAccess.v ===== *)
(** * Live authorization

    internal/store/tenant_access.go: every tenant operation runs inside [runAs], which reads
    the caller's live role in the transaction that does the work, refuses what the role does
    not carry, and writes the audit row with the work or, when it fails, alone.  The
    environment operations are its first clients. *)
From Stdlib Require Import ZArith Lia Ascii String.
From stdpp Require Import base gmap strings list.
From S2P Require Import Prelude.
From S2P Require Import Text.
From S2P Require Import Permissions.
From S2P Require Import Store.

Record TenantAccess := mkAccess {
  ActorID : string; OrganizationID : string; EnvironmentID : string;
  CorrelationID : string; IPAddress : string; ServiceTokenID : string }.

Definition with_environment (a : TenantAccess) (env : string) : TenantAccess :=
  mkAccess (ActorID a) (OrganizationID a) env (CorrelationID a) (IPAddress a) (ServiceTokenID a).

Definition Principal (a : TenantAccess) : string :=
  if nonempty (ServiceTokenID a) then "service:" +:+ ServiceTokenID a else ActorID a.

Definition auditedReads (action : Action) : bool :=
  bool_decide (action ∈ [AuditRead; MembersManage; ContainerLogs]).

Definition ScopePulse : string := "pulse".
Definition ScopeMCPRead : string := "mcp:read".
Definition ScopeMCPOperate : string := "mcp:operate".

Definition serviceRole (a : TenantAccess) : tx string :=
  t ← gets (fun db => tokens db !! ServiceTokenID a);
  row ← one t errNoPrincipal;
  _ ← ensure (bool_decide (t_org row = OrganizationID a)) errNoPrincipal;
  _ ← ensure (bool_decide (t_revoked row = None)) ErrForbidden;
  if bool_decide (t_scope row = ScopePulse) then mret RolePulseReader
  else if bool_decide (t_scope row = ScopeMCPRead) then mret RoleAgentReader
  else if bool_decide (t_scope row = ScopeMCPOperate) then mret RoleAgentOperator
  else throw ErrForbidden.

Definition principalRole (a : TenantAccess) : tx string :=
  if nonempty (ServiceTokenID a) then serviceRole a
  else
    u ← gets (fun db => users db !! ActorID a);
    m ← gets (fun db => memberships db !! (OrganizationID a, ActorID a));
    user ← one u errNoPrincipal;
    member ← one m errNoPrincipal;
    _ ← ensure (bool_decide (u_status user = "active") && negb (u_must_change_password user)
                && bool_decide (m_status member = "active")) ErrForbidden;
    mret (m_role member).

(** The audit target and details, which the body of an operation may rewrite: they keep what
    the body wrote even when it fails. *)
Record Notes := mkNotes { n_target : option string; n_details : option string }.
Definition no_notes : Notes := mkNotes None None.

(** A body: a transaction that also holds the notes. *)
Definition act (A : Type) : Type := Notes -> DB -> Notes * res StoreErr (A * DB).
#[export] Instance act_ret : MRet act := fun A a n db => (n, Ok (a, db)).
#[export] Instance act_bind : MBind act :=
  fun A B k m n db => match m n db with (n', Ok (a, db')) => k a n' db' | (n', Fail e) => (n', Fail e) end.
Definition lift {A} (m : tx A) : act A := fun n db => (n, m db).
Definition set_target (s : string) : act unit := fun n db => (mkNotes (Some s) (n_details n), Ok (tt, db)).
Definition set_details (s : string) : act unit := fun n db => (mkNotes (n_target n) (Some s), Ok (tt, db)).

Definition add_audit (r : AuditRecord) (db : DB) : DB := set_audit (audit db ++ [r]) db.

(** sqlstore.go [LogAudit], in a transaction of its own. *)
Definition LogAudit (r : AuditRecord) (now : time) (db : DB) : DB :=
  add_audit (mkAudit (a_user r) (a_action r) (CleanText (a_resource r) 255) (a_details r) (a_ip r)
    (if a_created r =? zero_time then now else a_created r)
    (if nonempty (a_scope r) then a_scope r else "platform")
    (a_org r) (a_env r) (a_correlation r)
    (if nonempty (a_result r) then a_result r else "unknown")) db.

Definition env_in_org (a : TenantAccess) (db : DB) : bool :=
  match environments db !! EnvironmentID a with
  | Some e => bool_decide (e_org e = OrganizationID a)
  | None => false
  end.

(** The checks [runAs] makes once it has the caller's role. *)
Definition permit (a : TenantAccess) (action : Action) (role : string) : tx unit :=
  _ ← ensure (Allows role action) ErrForbidden;
  inOrg ← gets (env_in_org a);
  ensure (negb (nonempty (EnvironmentID a)) || bool_decide (action = EnvironmentCreate) || inOrg) ErrNotFound.

Definition resource (a : TenantAccess) (n : Notes) : string :=
  let own := if nonempty (EnvironmentID a) then EnvironmentID a else OrganizationID a in
  CleanText (match n_target n with Some t => if nonempty t then t else own | None => own end) 255.

Definition tenant_record (a : TenantAccess) (name : string) (now : time) (fresh : string)
    (n : Notes) (details result : string) : AuditRecord :=
  mkAudit (Principal a) name (resource a n) details (IPAddress a) now "organization"
    (OrganizationID a) (EnvironmentID a)
    (if nonempty (CorrelationID a) then CorrelationID a else fresh) result.

Definition runAs {A} (a : TenantAccess) (action : Action) (name : string) (notes : Notes)
    (lock : bool) (op : act A) (now : time) (fresh : string) (db : DB) : res StoreErr A * DB :=
  if (negb (nonempty (ActorID a)) && negb (nonempty (ServiceTokenID a)))
     || negb (nonempty (OrganizationID a)) then (Fail ErrForbidden, db)
  else
    match principalRole a db with
    | Fail errNoPrincipal => (Fail ErrForbidden, db)
    | role =>
    let '(notes', result) :=
      match bind_res role (fun r => permit a action r.1 db) with
      | Ok _ => op notes db
      | Fail e => (notes, Fail e)
      end in
    match result with
    | Fail e =>
        if negb lock && bool_decide (e = ErrNotFound) then (Fail e, db)
        else
          (Fail (if bool_decide (e = ErrUnique) then ErrAlreadyExists else e),
           LogAudit (tenant_record a name now fresh notes' ""
             (if bool_decide (e = ErrForbidden) then "denied" else "failure")) now db)
    | Ok (x, db') =>
        if negb lock && (negb (auditedReads action) || nonempty (ServiceTokenID a)) then (Ok x, db')
        else
          (Ok x, add_audit (tenant_record a name now fresh notes'
             (match n_details notes' with Some d => CleanText d 255 | None => "" end) "success") db')
    end
    end.

Definition run {A} (a : TenantAccess) (action : Action) (notes : Notes) (lock : bool) (op : act A) :=
  runAs a action action notes lock op.
Definition withTenant {A} (a : TenantAccess) (action : Action) (op : tx A) :=
  run a action no_notes true (lift op).
Definition withTenantTarget {A} (a : TenantAccess) (action : Action) (target : string) (op : tx A) :=
  run a action (mkNotes (Some target) None) true (lift op).
Definition readTenant {A} (a : TenantAccess) (action : Action) (op : tx A) :=
  run a action no_notes false (lift op).

(** ** Environments *)

Definition unique_name (org id name : string) (db : DB) : bool :=
  forallb (fun ke => bool_decide (ke.1 = id) || negb (bool_decide (e_org ke.2 = org) && bool_decide (e_name ke.2 = name)))
    (map_to_list (environments db)).

Definition AddEnvironment (a : TenantAccess) (name : string) (id : string)
    : time -> string -> DB -> res StoreErr unit * DB :=
  let a := with_environment a id in
  withTenant a EnvironmentCreate (
    _ ← ensure (validTenantName name) ErrInvalid;
    free ← gets (fun db => bool_decide (environments db !! id = None)
                          && unique_name (OrganizationID a) id (TrimSpace name) db);
    _ ← ensure free ErrUnique;
    modify (fun db => set_environments (<[id := mkEnvironment (OrganizationID a) (TrimSpace name)]> (environments db)) db)).

Definition UpdateEnvironment (a : TenantAccess) (name : string)
    : time -> string -> DB -> res StoreErr unit * DB :=
  withTenant a EnvironmentUpdate (
    _ ← ensure (validTenantName name) ErrInvalid;
    here ← gets (env_in_org a);
    _ ← ensure here ErrNotFound;
    free ← gets (unique_name (OrganizationID a) (EnvironmentID a) (TrimSpace name));
    _ ← ensure free ErrUnique;
    modify (fun db => set_environments
      (<[EnvironmentID a := mkEnvironment (OrganizationID a) (TrimSpace name)]> (environments db)) db)).

Definition app_here (a : TenantAccess) (r : ApplicationRow) : bool :=
  bool_decide (app_org r = OrganizationID a) && bool_decide (app_env r = EnvironmentID a).
Definition ep_here (a : TenantAccess) (r : EndpointRow) : bool :=
  bool_decide (ep_org r = OrganizationID a) && bool_decide (ep_env r = EnvironmentID a).

(** application_deployment.go [lockApplication]. *)
Definition lockApplication (a : TenantAccess) (app : string) : tx unit :=
  row ← gets (fun db => applications db !! app);
  r ← one row ErrAdoptionChanged;
  ensure (app_here a r) ErrAdoptionChanged.

(** Deleting an endpoint deletes its commands, inventory and capabilities (ON DELETE CASCADE). *)
Definition delete_endpoints (gone : EndpointRow -> bool) (db : DB) : DB :=
  let eps := filter (fun kr => gone kr.2 = false) (endpoints db) in
  set_commands (filter (fun kc => is_Some (eps !! c_endpoint kc.2)) (commands db))
    (set_inventories (filter (fun ki => is_Some (eps !! ki.1)) (inventories db))
    (set_capabilities (filter (fun kc => is_Some (eps !! kc.1)) (capabilities db))
    (set_endpoints eps db))).

Definition RemoveEnvironment_body (a : TenantAccess) : tx unit :=
    apps ← gets (fun db => count (app_here a) (applications db));
    _ ← ensure (apps <=? 0) ErrInUse;
    live ← gets (fun db => count (fun r => ep_here a r && negb (bool_decide (ep_state r = "revoked"))) (endpoints db));
    _ ← ensure (live <=? 0) ErrInUse;
    _ ← modify (delete_endpoints (ep_here a));
    here ← gets (env_in_org a);
    _ ← ensure here ErrNotFound;
    modify (fun db => set_environments (delete (EnvironmentID a) (environments db)) db).

Definition RemoveEnvironment (a : TenantAccess) : time -> string -> DB -> res StoreErr unit * DB :=
  withTenant a EnvironmentDelete (RemoveEnvironment_body a).

(** ** Properties *)

(** What makes a caller hold [role] in the organization it names: an active membership of an
    active, unrestricted user, or an unrevoked token of that organization. *)
Definition token_role (scope role : string) : Prop :=
  (scope, role) ∈ [(ScopePulse, RolePulseReader); (ScopeMCPRead, RoleAgentReader);
                   (ScopeMCPOperate, RoleAgentOperator)].

Definition holds (a : TenantAccess) (db : DB) (role : string) : Prop :=
  if nonempty (ServiceTokenID a) then
    exists t, tokens db !! ServiceTokenID a = Some t /\ t_org t = OrganizationID a /\
      t_revoked t = None /\ token_role (t_scope t) role
  else
    exists u, users db !! ActorID a = Some u /\ u_status u = "active" /\
      u_must_change_password u = false /\
      memberships db !! (OrganizationID a, ActorID a) = Some (mkMember role "active").

Lemma serviceRole_holds a db role db' :
  serviceRole a db = Ok (role, db') ->
  db' = db /\ exists t, tokens db !! ServiceTokenID a = Some t /\ t_org t = OrganizationID a /\
      t_revoked t = None /\ token_role (t_scope t) role.
Proof.
  unfold serviceRole. intros H. tx_inv H. gobool.
  assert (Ht : db' = db /\ token_role (t_scope row) role).
  { unfold token_role.
    repeat case_bool_decide; tx_inv H; split; try done;
      match goal with E : t_scope _ = _ |- _ => rewrite E end; set_solver. }
  destruct Ht as [-> Ht]. eauto 10.
Qed.

Lemma principalRole_holds a db role db' :
  principalRole a db = Ok (role, db') -> db' = db /\ holds a db role.
Proof.
  unfold principalRole, holds. destruct (nonempty (ServiceTokenID a)).
  - apply serviceRole_holds.
  - intros H. tx_inv H. gobool. split; [done|]. destruct row0 as [role st]; simpl in *; subst. eauto.
Qed.

Lemma permit_ok a action role db u db' :
  permit a action role db = Ok (u, db') ->
  db' = db /\ Allows role action = true /\
  (EnvironmentID a = "" \/ action = EnvironmentCreate \/ env_in_org a db = true).
Proof.
  unfold permit. intros H. tx_inv H. split; [done|]. split; [done|].
  unfold nonempty in *. rewrite !orb_true_iff, negb_involutive, !bool_decide_eq_true in Hg0. tauto.
Qed.

(** An appended audit row that names the caller, its organization and [result]. *)
Definition audited (a : TenantAccess) (name result : string) (db db' : DB) : Prop :=
  exists rec, db' = add_audit rec db /\ a_user rec = Principal a /\ a_action rec = name /\
    a_org rec = OrganizationID a /\ a_scope rec = "organization" /\ a_result rec = result.

Lemma LogAudit_audited a name now fresh n details result db :
  nonempty result = true ->
  audited a name result db (LogAudit (tenant_record a name now fresh n details result) now db).
Proof. intros Hr. eexists. split; [reflexivity|]. simpl. by rewrite Hr. Qed.

Lemma add_audited a name now fresh n details result db :
  audited a name result db (add_audit (tenant_record a name now fresh n details result) db).
Proof. eexists. split; [reflexivity|]. done. Qed.

Lemma runAs_split {A} a action name notes lock (op : act A) now fresh db r db' :
  runAs a action name notes lock op now fresh db = (r, db') ->
  match r with
  | Ok x =>
      exists role n db1, holds a db role /\ Allows role action = true /\
        (EnvironmentID a = "" \/ action = EnvironmentCreate \/ env_in_org a db = true) /\
        op notes db = (n, Ok (x, db1)) /\
        (if lock || (auditedReads action && negb (nonempty (ServiceTokenID a)))
         then audited a name "success" db1 db' else db' = db1)
  | Fail e =>
      db' = db \/
      audited a name (if bool_decide (e = ErrForbidden) then "denied" else "failure") db db'
  end.
Proof.
  unfold runAs. destruct (_ || _); [intros [= <- <-]; by left|].
  destruct (principalRole a db) as [[role db0]|e] eqn:Hp.
  - apply principalRole_holds in Hp as [-> Hh]. simpl.
    destruct (permit a action role db) as [[u db0]|e] eqn:Hperm.
    + apply permit_ok in Hperm as (-> & Hal & He).
      destruct (op notes db) as [n [[x db1]|e]] eqn:Hop.
      * intros Hr. destruct lock, (auditedReads action), (nonempty (ServiceTokenID a)); simpl in Hr;
        injection Hr as <- <-; exists role, n, db1; simpl; split_and!; eauto using add_audited.
      * destruct (negb lock && _); [intros [= <- <-]; by left|]. intros [= <- <-]. right.
        destruct e; apply LogAudit_audited; done.
    + destruct (negb lock && _); [intros [= <- <-]; by left|]. intros [= <- <-]. right.
      destruct e; apply LogAudit_audited; done.
  - destruct e; simpl; try (destruct lock; simpl); intros [= <- <-];
      first [by left | right; by apply LogAudit_audited].
Qed.

Lemma lockApplication_db a app db u db' : lockApplication a app db = Ok (u, db') -> db' = db.
Proof. unfold lockApplication. intros H. by tx_inv H. Qed.

Lemma reads_lockApplication a app : Reads (lockApplication a app).
Proof. unfold lockApplication. keeps. Qed.
Lemma reads_principalRole a : Reads (principalRole a).
Proof. unfold principalRole, serviceRole. keeps. Qed.
#[export] Hint Resolve reads_lockApplication reads_principalRole : keeps.

(** Whatever a locked operation's body keeps, and an audit row keeps, the operation keeps. *)
Lemma withTenantTarget_keeps {A} (P : DB -> Prop) a action target (op : tx A) now fresh db :
  (forall rec d, P d -> P (add_audit rec d)) -> P db ->
  (forall x db1, op db = Ok (x, db1) -> P db1) ->
  P (withTenantTarget a action target op now fresh db).2.
Proof.
  intros Haud Hdb Hop. unfold withTenantTarget, run.
  destruct (runAs _ _ _ _ _ _ _ _ _) as [r db'] eqn:E. apply runAs_split in E. destruct r as [x|e]; simpl.
  - destruct E as (role & n & db1 & _ & _ & _ & Hrun & (rec & -> & _)). unfold lift in Hrun. injection Hrun as _ Hrun. eauto.
  - destruct E as [->|(rec & -> & _)]; eauto.
Qed.

(** C25: nothing runs without live authority, and what runs is audited with it.  When [runAs]
    succeeds, the caller held a role in the organization that carries the action, at the
    state the body ran on, and the environment named belongs to the organization; the database is the
    body's, with exactly one success row when the operation locks or its read is audited.
    When it fails, no table but the audit trail changes, and the trail gains at most one row,
    "denied" exactly for a refusal and "failure" otherwise. *)
Theorem runAs_authorized {A} a action name notes lock (op : act A) now fresh db r db' :
  runAs a action name notes lock op now fresh db = (r, db') ->
  match r with
  | Ok x =>
      exists role n db1, holds a db role /\ Allows role action = true /\
        (EnvironmentID a = "" \/ action = EnvironmentCreate \/ env_in_org a db = true) /\
        op notes db = (n, Ok (x, db1)) /\
        (if lock || (auditedReads action && negb (nonempty (ServiceTokenID a)))
         then audited a name "success" db1 db' else db' = db1)
  | Fail e =>
      db' = db \/
      audited a name (if bool_decide (e = ErrForbidden) then "denied" else "failure") db db'
  end.
Proof. apply runAs_split. Qed.

Lemma principalRole_unheld a db action role db0 :
  (forall role, holds a db role -> Allows role action = false) ->
  principalRole a db = Ok (role, db0) -> permit a action role db = Fail ErrForbidden.
Proof.
  intros Hno [-> Hh]%principalRole_holds. unfold permit.
  unfold mbind, tx_bind, ensure. by rewrite (Hno _ Hh).
Qed.

Lemma serviceRole_errors a db e :
  serviceRole a db = Fail e -> e = errNoPrincipal \/ e = ErrForbidden.
Proof.
  unfold serviceRole, mbind, tx_bind, gets, one, ensure, throw, mret, tx_ret. intros H.
  repeat (case_match; simplify_eq/=; eauto).
Qed.

Lemma principalRole_errors a db e :
  principalRole a db = Fail e -> e = errNoPrincipal \/ e = ErrForbidden.
Proof.
  unfold principalRole. destruct (nonempty (ServiceTokenID a)); [apply serviceRole_errors|].
  unfold mbind, tx_bind, gets, one, ensure, throw, mret, tx_ret. intros H.
  repeat (case_match; simplify_eq/=; eauto).
Qed.

Lemma runAs_refuses {A} a action name notes lock (op : act A) now fresh db :
  (forall role, holds a db role -> Allows role action = false) ->
  exists db', runAs a action name notes lock op now fresh db = (Fail ErrForbidden, db') /\
    (db' = db \/ audited a name "denied" db db') /\
    (principalRole a db = Fail errNoPrincipal -> db' = db).
Proof.
  intros Hno. unfold runAs. destruct (_ || _); [by eauto|].
  destruct (principalRole a db) as [[role db0]|e] eqn:Hp.
  - simpl. rewrite (principalRole_unheld a db action role db0 Hno Hp). simpl.
    rewrite andb_false_r. eexists. split; [reflexivity|]. split; [|done].
    right. by apply LogAudit_audited.
  - destruct (principalRole_errors a db e Hp) as [-> | ->]; simpl; [by eauto|].
    rewrite andb_false_r. eexists. split; [reflexivity|]. split; [|done].
    right. by apply LogAudit_audited.
Qed.


(** A small organization for the witnesses: an administrator, a developer and a read-only
    agent token, one environment. *)
Definition demo_db : DB :=
  mkDB {["ada" := mkUser "active" false "user"; "dev" := mkUser "active" false "user"]}
    {[("org", "ada") := mkMember "organization_admin" "active";
      ("org", "dev") := mkMember "developer" "active"]}
    {["tok" := mkToken "org" None ScopeMCPRead]}
    {["env" := mkEnvironment "org" "production"]} ∅ ∅
    {["old" := mkEndpoint "org" "env" "docker" "revoked" [] "old"]} ∅ ∅ ∅ ∅ ∅ ∅ ∅ ∅ ∅ ∅ ∅ {["org" := mkOrganization "Org" true]} ∅ [].
Definition ada : TenantAccess := mkAccess "ada" "org" "env" "c" "" "".
Definition dev : TenantAccess := mkAccess "dev" "org" "env" "c" "" "".
Definition agent : TenantAccess := mkAccess "" "org" "env" "c" "" "tok".

Lemma runAs_authorized_witness :
  fst (RemoveEnvironment ada 7 "f" demo_db) = Ok tt /\
  exists role, holds ada demo_db role /\ Allows role EnvironmentDelete = true.
Proof.
  assert (H : fst (RemoveEnvironment ada 7 "f" demo_db) = Ok tt) by (vm_compute; reflexivity).
  split; [exact H|].
  pose proof (runAs_authorized ada EnvironmentDelete EnvironmentDelete no_notes true
    (lift (RemoveEnvironment_body ada)) 7 "f" demo_db _ _ (surjective_pairing _)) as Hr.
  unfold RemoveEnvironment, withTenant, run in H. rewrite H in Hr.
  destruct Hr as (role & _ & _ & Hh & Ha & _). eauto.
Defined.

Lemma dev_no_delete role : holds dev demo_db role -> Allows role EnvironmentDelete = false.
Proof.
  intros (u & _ & _ & _ & Hm). vm_compute in Hm. injection Hm as <-. vm_compute. reflexivity.
Qed.



Lemma token_denied scope role action :
  token_role scope role -> action ∈ dangerous -> Allows role action = false.
Proof.
  unfold token_role. intros Hr. apply denied_all.
  rewrite !elem_of_cons, elem_of_nil in Hr.
  destruct Hr as [[= -> ->]|[[= -> ->]|[[= -> ->]|[]]]]; vm_compute; reflexivity.
Qed.

(** A service token holds one of the three token roles, so whatever it asks, no
    destructive, revealing or administrative operation ever runs for it: the answer is
    [ErrForbidden] and no table but the audit trail changes. *)
Theorem service_token_confined {A} a action name notes lock (op : act A) now fresh db :
  nonempty (ServiceTokenID a) = true -> action ∈ dangerous ->
  exists db', runAs a action name notes lock op now fresh db = (Fail ErrForbidden, db') /\
    (db' = db \/ audited a name "denied" db db').
Proof.
  intros Ht Hd. destruct (runAs_refuses a action name notes lock op now fresh db) as (db' & ? & ? & _).
  - unfold holds. rewrite Ht. intros role (t & _ & _ & _ & Hr). by eapply token_denied.
  - eauto.
Qed.

Lemma service_token_confined_witness :
  exists db', RemoveEnvironment agent 7 "f" demo_db = (Fail ErrForbidden, db') /\
    (db' = demo_db \/ audited agent EnvironmentDelete "denied" demo_db db').
Proof.
  apply (service_token_confined agent EnvironmentDelete EnvironmentDelete no_notes true
    (lift (RemoveEnvironment_body agent)) 7 "f" demo_db).
  - vm_compute. reflexivity.
  - apply (bool_decide_eq_true_1 _). vm_compute. reflexivity.
Defined.

(** An operation that locks either ran its body to the end and added one audit row, or left
    every table as it was, with at most one audit row more. *)
Lemma run_cases {A} a action notes (op : act A) now fresh db r db' :
  run a action notes true op now fresh db = (r, db') ->
  (exists x n db1 rec, r = Ok x /\ op notes db = (n, Ok (x, db1)) /\ db' = add_audit rec db1) \/
  (exists e, r = Fail e /\ (db' = db \/ exists rec, db' = add_audit rec db)).
Proof.
  intros H. apply runAs_split in H. destruct r as [x|e]; [left|right].
  - destruct H as (role & n & db1 & _ & _ & _ & Hop & (rec & -> & _)). eauto 10.
  - exists e. split; [done|]. destruct H as [->|(rec & -> & _)]; eauto.
Qed.

Lemma withTenant_ok {A} a action (op : tx A) now fresh db x db' :
  withTenant a action op now fresh db = (Ok x, db') ->
  exists db1 rec, op db = Ok (x, db1) /\ db' = add_audit rec db1.
Proof.
  intros [(y & n & db1 & rec & [= ->] & Hop & ->)|(e & ? & _)]%run_cases; [|done].
  injection Hop as _ Hop. eauto.
Qed.

Lemma act_bind_ok {A B} (m : act A) (k : A -> act B) n db n' r :
  (m ≫= k) n db = (n', Ok r) <->
  exists n1 a db1, m n db = (n1, Ok (a, db1)) /\ k a n1 db1 = (n', Ok r).
Proof.
  unfold mbind, act_bind. destruct (m n db) as [n1 [[a db1]|e]]; split.
  - eauto.
  - intros (? & ? & ? & [= <- <- <-] & ?). done.
  - done.
  - intros (? & ? & ? & ? & ?). done.
Qed.
Lemma lift_ok {A} (m : tx A) n db n' r : lift m n db = (n', Ok r) <-> n' = n /\ m db = Ok r.
Proof. unfold lift. split; [by intros [= <- ->]|by intros [-> ->]]. Qed.
Lemma set_target_ok s n db n' r :
  set_target s n db = (n', Ok r) <-> n' = mkNotes (Some s) (n_details n) /\ r = (tt, db).
Proof. unfold set_target. naive_solver. Qed.
Lemma act_ret_ok {A} (a : A) n db n' r : (mret a : act A) n db = (n', Ok r) <-> n' = n /\ r = (a, db).
Proof. unfold mret, act_ret. naive_solver. Qed.

(** [act_inv H]: [tx_inv] through a body's notes. *)
Ltac act_step H :=
  match type of H with
  | (_ ≫= _) _ _ = (_, Ok _) =>
      let a := fresh "a" in let n := fresh "n" in let db' := fresh "db" in let E := fresh "Hact" in
      apply act_bind_ok in H; destruct H as (n & a & db' & E & H); act_step E; act_step H
  | lift _ _ _ = (_, Ok _) => apply lift_ok in H; destruct H as [-> H]; tx_inv H
  | set_target _ _ _ = (_, Ok _) => apply set_target_ok in H; destruct H as [-> H]; simplify_eq/=
  | mret _ _ _ = (_, Ok _) => apply act_ret_ok in H; destruct H as [-> H]; simplify_eq/=
  | _ => idtac
  end.
Ltac act_inv H := repeat (progress (act_step H)).

(** An environment is only removed when nothing lives in it.  If [RemoveEnvironment]
    succeeds, no application was in the environment and every endpoint of it was already
    revoked; it then removes exactly that environment, its endpoints and their commands, and
    leaves every other environment's endpoints and every application alone. *)
Theorem RemoveEnvironment_empty a now fresh db db' :
  RemoveEnvironment a now fresh db = (Ok tt, db') ->
  (forall id r, applications db !! id = Some r -> app_here a r = false) /\
  (forall id r, endpoints db !! id = Some r -> ep_here a r = true -> ep_state r = "revoked") /\
  environments db' = delete (EnvironmentID a) (environments db) /\
  applications db' = applications db /\
  (forall id r, endpoints db' !! id = Some r <-> endpoints db !! id = Some r /\ ep_here a r = false) /\
  (forall id c, commands db' !! id = Some c ->
     commands db !! id = Some c /\ is_Some (endpoints db' !! c_endpoint c)).
Proof.
  intros (db1 & rec & Hop & ->)%withTenant_ok. unfold RemoveEnvironment_body in Hop. tx_inv Hop.
  rewrite !Z.leb_le in *.
  assert (H1 := count_nonneg (app_here a) (applications db)).
  assert (H2 := count_nonneg (fun r => ep_here a r && negb (bool_decide (ep_state r = "revoked"))) (endpoints db)).
  split_and!; simpl; try done.
  - apply (count_zero (app_here a)). lia.
  - intros id r Hr Hh.
    assert (H0 := proj1 (count_zero _ (endpoints db)) (Z.le_antisymm _ _ Hg0 H2) id r Hr).
    cbv beta in H0. rewrite Hh in H0. simpl in H0. gobool. done.
  - intros id r. rewrite map_lookup_filter_Some. done.
  - intros id c. rewrite map_lookup_filter_Some. done.
Qed.

Lemma RemoveEnvironment_empty_witness :
  environments (snd (RemoveEnvironment ada 7 "f" demo_db)) = delete "env" (environments demo_db).
Proof.
  apply (RemoveEnvironment_empty ada 7 "f" demo_db). vm_compute. reflexivity.
Defined.
