(* ===== verification/Commands.v ===== *)
(** * Commands

    internal/store/commands.go and the command half of commands_workload.go: what an operator
    asks of one container, image, workload or pod, and what became of it, with the outcome audit
    and sweep of commands_recreate.go that both kinds of command share.

    A container's or workload's inventory is read from endpoint_inventory.  Clock
    readings and identifiers are arguments. *)
From Stdlib Require Import ZArith Lia Ascii String.
From stdpp Require Import base gmap strings list sorting.
From S2P Require Import Prelude.
From S2P Require Import Text.
From S2P Require Import Grammar.
From S2P Require Import Permissions.
From S2P Require Import Inspection.
From S2P Require Import Frame.
From S2P Require Import Inventory.
From S2P Require Import Store.
From S2P Require Import TenantAccess.

Definition CommandDeadline : Z := 30 * Second.
Definition MaxResultDetailBytes : Z := 4096.
Definition MaxWorkloadReplicas : Z := 1000.

Definition ActionStart : string := "container.start".
Definition ActionStop : string := "container.stop".
Definition ActionRestart : string := "container.restart".
Definition ActionRemove : string := "container.remove".
Definition ActionImagePull : string := "image.pull".
Definition ActionImageRemove : string := "image.remove".
Definition ActionWorkloadRestart : string := "workload.restart".
Definition ActionWorkloadScale : string := "workload.scale".
Definition ActionWorkloadDelete : string := "workload.delete".
Definition ActionPodDelete : string := "pod.delete".
Definition ActionRecreate : string := "container.recreate".
Definition ActionRun : string := "container.run".
Definition ActionWorkloadApply : string := "workload.apply".
Definition ActionWorkloadRun : string := "workload.run".

Definition commandActions (action : string) : option Action :=
  if bool_decide (action ∈ [ActionStart; ActionStop; ActionRestart; ActionWorkloadRestart; ActionWorkloadScale])
  then Some ContainerOperate
  else if bool_decide (action ∈ [ActionRemove; ActionWorkloadDelete; ActionPodDelete]) then Some ContainerDestroy
  else if bool_decide (action = ActionImagePull) then Some ImagePullAction
  else if bool_decide (action = ActionImageRemove) then Some ImageDestroy
  else None.

Definition directActions (action : string) : bool := bool_decide (action ∈ [ActionRecreate; ActionRun]).
Definition settledByResult : list string := [ActionRecreate; ActionRun; ActionWorkloadApply; ActionWorkloadRun].
Definition direct (c : CommandRow) : bool := bool_decide (c_action c ∈ settledByResult).

Definition CommandPermission (action : string) : option Action :=
  if directActions action || bool_decide (action = ActionWorkloadApply) || bool_decide (action = ActionWorkloadRun)
  then Some ContainerConfigure else commandActions action.

Definition destructivePermissions (p : Action) : bool := bool_decide (p ∈ [ContainerDestroy; ImageDestroy]).
Definition imageActions (action : string) : bool := bool_decide (action ∈ [ActionImagePull; ActionImageRemove]).
Definition workloadActions (action : string) : bool :=
  bool_decide (action ∈ [ActionWorkloadRestart; ActionWorkloadScale; ActionWorkloadDelete; ActionPodDelete]).

Definition in_flight (c : CommandRow) : bool := bool_decide (c_outcome c = "").

(** ** Rows *)

(** [INSERT INTO endpoint_commands]. *)
Definition insert_command (c : CommandRow) : tx unit :=
  free ← gets (fun db => bool_decide (commands db !! c_id c = None));
  _ ← ensure free ErrUnique;
  known ← gets (fun db => bool_decide (is_Some (endpoints db !! c_endpoint c)));
  _ ← ensure known ErrConstraint;
  modify (fun db => set_commands (<[c_id c := c]> (commands db)) db).

(** [UPDATE endpoint_commands SET f WHERE p]: the rows affected. *)
Definition update_commands (p : CommandRow -> bool) (f : CommandRow -> CommandRow) : tx Z :=
  n ← gets (fun db => count p (commands db));
  _ ← modify (fun db => set_commands ((fun c => if p c then f c else c) <$> commands db) db);
  mret n.

Definition with_dispatched (now : time) (c : CommandRow) : CommandRow :=
  mkCommand (c_id c) (c_endpoint c) (c_org c) (c_env c) (c_actor c) (c_request c) (c_action c) (c_container c)
    (c_reference c) (c_expects c) (c_deadline c) (c_outcome c) (c_detail c) (c_created c) (Some now) (c_settled c)
    (c_result c) (c_result_container c).
Definition with_command_outcome (outcome detail : string) (now : time) (c : CommandRow) : CommandRow :=
  mkCommand (c_id c) (c_endpoint c) (c_org c) (c_env c) (c_actor c) (c_request c) (c_action c) (c_container c)
    (c_reference c) (c_expects c) (c_deadline c) outcome detail (c_created c) (c_dispatched c) (Some now)
    (c_result c) (c_result_container c).
Definition with_result (result created : string) (c : CommandRow) : CommandRow :=
  mkCommand (c_id c) (c_endpoint c) (c_org c) (c_env c) (c_actor c) (c_request c) (c_action c) (c_container c)
    (c_reference c) (c_expects c) (c_deadline c) (c_outcome c) (c_detail c) (c_created c) (c_dispatched c) (c_settled c)
    result created.

(** The endpoint, when it is in the caller's organization and environment. *)
Definition scoped (a : TenantAccess) (endpointID : string) : tx EndpointRow :=
  row ← gets (fun db => endpoints db !! endpointID);
  e ← one row ErrNotFound;
  _ ← ensure (bool_decide (ep_org e = OrganizationID a)
              && (negb (nonempty (EnvironmentID a)) || bool_decide (ep_env e = EnvironmentID a))) ErrNotFound;
  mret e.

(** ** Outcome audit of direct commands *)

Definition auditResults (outcome : string) : string :=
  if bool_decide (outcome = OutcomeSucceeded) then "success"
  else if bool_decide (outcome = OutcomeFailed) || bool_decide (outcome = OutcomeTimedOut) then "failure"
  else if bool_decide (outcome = OutcomeDenied) then "denied"
  else if bool_decide (outcome = OutcomeUnknown) then "unknown" else "".

(** [cmp.Or]. *)
Definition first_nonempty (l : list string) : string := default "" (List.find nonempty l).

Definition auditDirect (endpointID id outcome code created : string) (now : time) : tx unit :=
  row ← gets (fun db => commands db !! id);
  c ← one row ErrNoRows;
  let resource := endpointID +:+ "/" +:+ first_nonempty [c_container c; c_reference c; created; "-"] in
  let details := "code=" +:+ first_nonempty [code; "-"] +:+ " new=" +:+ first_nonempty [created; "-"] in
  modify (add_audit (mkAudit (c_actor c) (c_action c) (CleanText resource 255) (CleanText details 255) "" now
    "organization" (c_org c) (c_env c) (c_request c) (auditResults outcome))).

Definition directIDs (p : CommandRow -> bool) : tx (list string) :=
  gets (fun db => map c_id (select (fun c => direct c && p c) (commands db))).

Definition on_endpoint (endpointID : string) (c : CommandRow) : bool := bool_decide (c_endpoint c = endpointID).

Definition sweep_one (endpointID : string) (now : time) (id : string) : tx unit :=
  n ← update_commands (fun c => bool_decide (c_id c = id) && in_flight c)
        (with_command_outcome OutcomeUnknown "no result arrived before the deadline" now);
  if n =? 0 then mret tt else auditDirect endpointID id OutcomeUnknown "deadline" "" now.

Definition sweepDirect (endpointID : string) (now : time) : tx unit :=
  ids ← directIDs (fun c => on_endpoint endpointID c && in_flight c && (c_deadline c <? now));
  tx_iter (sweep_one endpointID now) ids.

Definition directBusy (endpointID : string) (now : time) : tx unit :=
  busy ← gets (fun db => count (fun c => on_endpoint endpointID c && direct c && in_flight c && (c_deadline c >=? now)) (commands db));
  ensure (negb (busy >? 0)) ErrCommandInProgress.

(** ** Dispatch and outcome *)

Definition MarkCommandDispatched (id : string) (now : time) : DB -> res StoreErr unit * DB :=
  commit (_ ← update_commands (fun c => bool_decide (c_id c = id) && bool_decide (c_dispatched c = None)) (with_dispatched now);
          mret tt).

Definition SettleCommand (endpointID id outcome detail : string) (now : time) (db : DB) : res StoreErr unit * DB :=
  if negb (bool_decide (outcome ∈ resultOutcomes)) then (Fail ErrInvalid, db)
  else commit (_ ← update_commands (fun c => bool_decide (c_id c = id) && on_endpoint endpointID c && in_flight c && negb (direct c))
                     (with_command_outcome outcome (CleanText detail MaxResultDetailBytes) now); mret tt) db.

Definition dispatched_in_flight (endpointID : string) (c : CommandRow) : bool :=
  on_endpoint endpointID c && in_flight c && bool_decide (is_Some (c_dispatched c)).

Definition abandon_body (endpointID : string) (now : time) : tx Z :=
  ids ← directIDs (dispatched_in_flight endpointID);
  n ← update_commands (dispatched_in_flight endpointID)
        (with_command_outcome OutcomeUnknown "the connection ended before a result arrived" now);
  _ ← tx_iter (fun id => auditDirect endpointID id OutcomeUnknown "disconnected" "" now) ids;
  mret n.
Definition AbandonCommands (endpointID : string) (now : time) : DB -> res StoreErr Z * DB := commit (abandon_body endpointID now).

(** ** Creating a command *)

Section create.

(** The name a destructive confirmation repeats and the ID the command carries. *)
Definition confirmable (endpointID identifier : string) : tx (string * string) :=
  snap ← read_snapshot endpointID ErrInvalid;
  match List.find (fun c => bool_decide (ct_id c = identifier) || bool_decide (ct_name c = identifier)) (sn_containers snap) with
  | Some c => _ ← ensure (ValidContainerID (ct_id c)) ErrInvalid; mret (ct_name c, ct_id c)
  | None => throw ErrNotFound
  end.

(** The first image of the inventory known by [identifier], and its ID. *)
Definition image_names (im : Image) : list string := im_id im :: im_tags im ++ im_digests im.
Definition confirmableImage (endpointID identifier : string) : tx (string * string) :=
  snap ← read_snapshot endpointID ErrInvalid;
  match List.find (fun im => bool_decide (identifier ∈ image_names im)) (sn_images snap) with
  | Some im =>
      _ ← ensure (ValidImageReference (im_id im) && ValidImageReference identifier) ErrInvalid;
      mret (identifier, im_id im)
  | None => throw ErrNotFound
  end.

(** The checks made before any row is read. *)
Definition command_guards (action containerID : string) (needs : Action) (expects : Expectation) : res StoreErr unit :=
  refuse bool_decide (is_Some (x_replicas expects)) with ErrInvalid ;;
  refuse bool_decide (needs = ContainerDestroy) && bool_decide (x_state expects = "") with ErrInvalid ;;
  run! (if imageActions action then
          refuse negb (ValidImageReference containerID) with ErrInvalid ;;
          refuse bool_decide ((SplitImageReference containerID).2 = "") && bool_decide (action = ActionImagePull) with ErrInvalid ;;
          refuse nonempty (x_image expects) || nonempty (x_state expects) with ErrInvalid ;;
          Ok tt
        else
          refuse negb (ValidContainerID containerID) with ErrInvalid ;;
          Ok tt) ;;
  refuse negb (displaySafe (x_image expects)) || negb (displaySafe (x_state expects)) with ErrInvalid ;;
  Ok tt.

(** What the confirmation resolves the target to: the container, the reference and the
    expectation the command will carry. *)
Definition resolve_target (endpointID action containerID confirm : string) (needs : Action) (expects : Expectation)
    : tx (string * string * Expectation) :=
  if destructivePermissions needs && imageActions action then
    oi ← confirmableImage endpointID containerID;
    _ ← ensure (bool_decide (confirm = oi.1)) ErrInvalid;
    mret ("", oi.1, mkExpectation oi.2 (x_state expects) (x_replicas expects))
  else if destructivePermissions needs then
    ni ← confirmable endpointID containerID;
    _ ← ensure (bool_decide (confirm = ni.1)) ErrInvalid;
    mret (ni.2, "", expects)
  else mret (if imageActions action then ("", containerID, expects) else (containerID, "", expects)).

Definition new_command (a : TenantAccess) (e : EndpointRow) (id endpointID actor request action container reference : string)
    (expects : Expectation) (deadline now : time) : CommandRow :=
  mkCommand id endpointID (ep_org e) (ep_env e) actor request action container reference expects deadline "" "" now
    None None "" "".

Definition create_body (a : TenantAccess) (endpointID action containerID confirm : string) (needs : Action)
    (expects : Expectation) (id : string) (now : time) : tx CommandRow :=
  e ← scoped a endpointID;
  t ← resolve_target endpointID action containerID confirm needs expects;
  _ ← ensure (bool_decide (ep_state e = "active")) ErrEndpointOffline;
  let c := new_command a e id endpointID (Principal a) (CorrelationID a) action t.1.1 t.1.2 t.2 (now + CommandDeadline) now in
  _ ← insert_command c;
  mret c.

(** *** Workloads and pods *)

Definition workloadCommand (action reference confirm : string) (expects : Expectation) : res StoreErr WorkloadRef :=
  match ParseWorkloadRef reference with
  | None => Fail ErrInvalid
  | Some ref =>
      let pod := bool_decide (w_kind ref = "pod") in
      let scale := bool_decide (action = ActionWorkloadScale) in
      refuse negb (Bool.eqb pod (bool_decide (action = ActionPodDelete))) with ErrInvalid ;;
      refuse scale && bool_decide (w_kind ref = "daemonset") with ErrInvalid ;;
      refuse negb (Bool.eqb scale (bool_decide (is_Some (x_replicas expects)))) with ErrInvalid ;;
      refuse match x_replicas expects with Some n => (n <? 0) || (n >? MaxWorkloadReplicas) | None => false end with ErrInvalid ;;
      refuse nonempty (x_state expects) || nonempty (x_image expects) with ErrInvalid ;;
      refuse match commandActions action with Some p => destructivePermissions p | None => false end
             && negb (bool_decide (confirm = w_name ref)) with ErrInvalid ;;
      Ok ref
  end.

(** [strings.EqualFold] against an ASCII word: the runes that fold to ASCII letters. *)
Definition fold_rune (r : Z) : Z :=
  if btw 65 90 r then r + 32 else if r =? 0x17F then 115 else if r =? 0x212A then 107 else r.
Definition EqualFold (s t : string) : bool := bool_decide (map fold_rune (runes s) = map fold_rune (runes t)).

Definition inventoried (ref : WorkloadRef) (w : Workload) : bool :=
  EqualFold (wl_kind w) (w_kind ref) && bool_decide (wl_namespace w = w_namespace ref) && bool_decide (wl_name w = w_name ref).

Definition clusterInventory (endpointID : string) (e : EndpointRow) (namespace : string) : tx KubernetesInventory :=
  _ ← ensure (bool_decide (ep_runtime e = RuntimeKubernetes)) ErrRuntimeUnsupported;
  _ ← ensure (bool_decide (namespace ∈ ep_namespaces e)) ErrNamespaceNotGranted;
  snap ← read_snapshot endpointID ErrNotFound;
  one (sn_kubernetes snap) ErrNotFound.

(** Whether a KyYard application deployed the workload, and the pod for a pod. *)
Definition clusterTarget (endpointID : string) (e : EndpointRow) (ref : WorkloadRef) : tx (bool * option Pod) :=
  inv ← clusterInventory endpointID e (w_namespace ref);
  if bool_decide (w_kind ref = "pod") then
    p ← one (List.find (fun p => bool_decide (po_namespace p = w_namespace ref) && bool_decide (po_name p = w_name ref)) (ki_pods inv)) ErrNotFound;
    mret (false, Some p)
  else
    w ← one (List.find (inventoried ref) (ki_workloads inv)) ErrNotFound;
    mret (nonempty (wl_application w), None).

Definition workload_body (a : TenantAccess) (endpointID action : string) (ref : WorkloadRef) (expects : Expectation)
    (id request : string) (now : time) : tx CommandRow :=
  e ← scoped a endpointID;
  mp ← clusterTarget endpointID e ref;
  _ ← ensure (negb (mp.1 && bool_decide (action = ActionWorkloadDelete))) ErrWorkloadManaged;
  _ ← ensure (bool_decide (ep_state e = "active")) ErrEndpointOffline;
  let c := new_command a e id endpointID (Principal a) request action "" (ref_string ref) expects (now + CommandDeadline) now in
  _ ← insert_command c;
  mret c.

Definition with_correlation (a : TenantAccess) (fresh : string) : TenantAccess :=
  if nonempty (CorrelationID a) then a
  else mkAccess (ActorID a) (OrganizationID a) (EnvironmentID a) fresh (IPAddress a) (ServiceTokenID a).

Definition createWorkloadCommand (a : TenantAccess) (endpointID action reference confirm : string) (expects : Expectation)
    (id : string) (now : time) (fresh : string) (db : DB) : res StoreErr CommandRow * DB :=
  match workloadCommand action reference confirm expects, commandActions action with
  | Ok ref, Some needs =>
      let a := with_correlation a fresh in
      let details := match x_replicas expects with Some n => "replicas=" +:+ Itoa n | None => "" end in
      runAs a needs action (mkNotes (Some (endpointID +:+ "/" +:+ ref_string ref)) (Some details)) true
        (lift (workload_body a endpointID action ref expects id (CorrelationID a) now)) now fresh db
  | Fail e, _ => (Fail e, db)
  | _, None => (Fail ErrInvalid, db)
  end.

Definition CreateCommand (a : TenantAccess) (endpointID action containerID confirm : string) (expects : Expectation)
    (id : string) (now : time) (fresh : string) (db : DB) : res StoreErr CommandRow * DB :=
  match commandActions action with
  | None => (Fail ErrInvalid, db)
  | Some needs =>
      if workloadActions action then createWorkloadCommand a endpointID action containerID confirm expects id now fresh db
      else match command_guards action containerID needs expects with
           | Fail e => (Fail e, db)
           | Ok _ => withTenantTarget a needs endpointID
                       (create_body a endpointID action containerID confirm needs expects id now) now fresh db
           end
  end.
End create.

(** ** What a created command is *)

Definition is_scoped (a : TenantAccess) (e : EndpointRow) : Prop :=
  ep_org e = OrganizationID a /\ (EnvironmentID a = "" \/ ep_env e = EnvironmentID a).

Lemma scoped_ok a endpointID db e db' :
  scoped a endpointID db = Ok (e, db') -> db' = db /\ endpoints db !! endpointID = Some e /\ is_scoped a e.
Proof.
  unfold scoped. intros H. tx_inv H. unfold is_scoped, nonempty in *. rewrite negb_involutive in Hg.
  rewrite andb_true_iff, orb_true_iff, !bool_decide_eq_true in Hg. naive_solver.
Qed.

Lemma insert_command_ok c db u db' :
  insert_command c db = Ok (u, db') ->
  commands db !! c_id c = None /\ db' = set_commands (<[c_id c := c]> (commands db)) db.
Proof. unfold insert_command. intros H. tx_inv H. by gobool. Qed.

Lemma find_some {A} (p : A -> bool) l x : List.find p l = Some x -> x ∈ l /\ p x = true.
Proof. intros H%List.find_some. by rewrite list_elem_of_In. Qed.

(** A destructive command carries what its confirmation was checked against. *)
Definition confirmed (snapshots : string -> option Snapshot) (endpointID action target confirm : string) (c : CommandRow) : Prop :=
  (action = ActionRemove -> exists snap ct, snapshots endpointID = Some snap /\ ct ∈ sn_containers snap /\
     (ct_id ct = target \/ ct_name ct = target) /\ confirm = ct_name ct /\ c_container c = ct_id ct) /\
  (action = ActionImageRemove -> exists snap im, snapshots endpointID = Some snap /\ im ∈ sn_images snap /\
     target ∈ image_names im /\ confirm = target /\ c_reference c = target /\ x_image (c_expects c) = im_id im).

Lemma resolve_target_ok endpointID action target confirm needs expects db t db' c :
  commandActions action = Some needs ->
  resolve_target endpointID action target confirm needs expects db = Ok (t, db') ->
  c_container c = t.1.1 -> c_reference c = t.1.2 -> c_expects c = t.2 ->
  db' = db /\ confirmed (snapshot_of db) endpointID action target confirm c.
Proof.
  intros Hn H Hc Hr He.
  assert (H1 : action = ActionRemove -> destructivePermissions needs && imageActions action = false /\ destructivePermissions needs = true)
    by (intros ->; vm_compute in Hn; injection Hn as <-; vm_compute; auto).
  assert (H2 : action = ActionImageRemove -> destructivePermissions needs && imageActions action = true)
    by (intros ->; vm_compute in Hn; injection Hn as <-; vm_compute; auto).
  assert (Hxor : action = ActionRemove -> action = ActionImageRemove -> False) by (by intros ->).
  unfold resolve_target in H. destruct (destructivePermissions needs && imageActions action) eqn:E1.
  - assert (Hno : action <> ActionRemove) by (intros Ha; destruct (H1 Ha); congruence).
    apply bind_ok in H as ([o i] & db1 & Hci & H). unfold confirmableImage in Hci.
    apply bind_ok in Hci as (snap & db2 & Hs & Hci). tx_inv Hs.
    destruct (List.find _ _) as [im|] eqn:Hf; [|tx_inv Hci]. apply find_some in Hf as [Him Hid%bool_decide_eq_true].
    tx_inv Hci. tx_inv H. gobool. split; [done|]. split; [intros Ha; by destruct (Hno Ha)|].
    intros _. exists row, im. split_and!; try (congruence || done). by rewrite He.
  - assert (Hno : action <> ActionImageRemove) by (intros Ha; specialize (H2 Ha); congruence).
    destruct (destructivePermissions needs) eqn:E2.
    + apply bind_ok in H as ([nm i] & db1 & Hci & H). unfold confirmable in Hci.
      apply bind_ok in Hci as (snap & db2 & Hs & Hci). tx_inv Hs.
      destruct (List.find _ _) as [ct|] eqn:Hf; [|tx_inv Hci]. apply find_some in Hf as [Hct Hid].
      rewrite orb_true_iff, !bool_decide_eq_true in Hid.
      tx_inv Hci. tx_inv H. gobool. split; [done|]. split; [|intros Ha; by destruct (Hno Ha)].
      intros _. exists row, ct. split_and!; congruence || done.
    + tx_inv H. split; [done|]. split; [intros Ha; by destruct (H1 Ha)|intros Ha; by destruct (Hno Ha)].
Qed.

(** What [createWorkloadCommand] promises of its target. *)
Definition workload_target (snapshots : string -> option Snapshot) (e : EndpointRow) (endpointID action reference confirm : string)
    (expects : Expectation) : Prop :=
  exists ref, ParseWorkloadRef reference = Some ref /\
    ep_runtime e = RuntimeKubernetes /\ w_namespace ref ∈ ep_namespaces e /\
    (action ∈ [ActionWorkloadDelete; ActionPodDelete] -> confirm = w_name ref) /\
    (action = ActionWorkloadScale <-> is_Some (x_replicas expects)) /\
    (forall n, x_replicas expects = Some n -> 0 <= n <= 1000) /\
    exists snap inv, snapshots endpointID = Some snap /\ sn_kubernetes snap = Some inv /\
      (action = ActionPodDelete -> exists p, p ∈ ki_pods inv /\ po_namespace p = w_namespace ref /\ po_name p = w_name ref) /\
      (action <> ActionPodDelete -> exists w, w ∈ ki_workloads inv /\ inventoried ref w = true /\
         (action = ActionWorkloadDelete -> wl_application w = "")).

Lemma workloadCommand_ok action reference confirm expects ref needs :
  commandActions action = Some needs -> workloadCommand action reference confirm expects = Ok ref ->
  ParseWorkloadRef reference = Some ref /\ (w_kind ref = "pod" <-> action = ActionPodDelete) /\
  (action = ActionWorkloadScale <-> is_Some (x_replicas expects)) /\
  (forall n, x_replicas expects = Some n -> 0 <= n <= 1000) /\
  (action ∈ [ActionWorkloadDelete; ActionPodDelete] -> confirm = w_name ref).
Proof.
  intros Hn. unfold workloadCommand. destruct (ParseWorkloadRef reference) as [r|] eqn:Hp; [|done].
  intros H. refusals H. injection H as <-.
  apply negb_false_iff, eqb_prop in Hg, Hg1. split; [done|].
  split; [by rewrite <- (bool_decide_eq_true (w_kind r = "pod")), Hg, bool_decide_eq_true|].
  split; [by rewrite <- (bool_decide_eq_true (is_Some _)), <- Hg1, bool_decide_eq_true|].
  split.
  - intros n Hx. rewrite Hx in Hg2. unfold MaxWorkloadReplicas in Hg2. lia.
  - intros Ha. rewrite Hn in Hg4.
    assert (Hd : destructivePermissions needs = true).
    { rewrite !elem_of_cons, elem_of_nil in Ha. destruct Ha as [->|[->|[]]]; vm_compute in Hn; injection Hn as <-; vm_compute; done. }
    rewrite Hd in Hg4. simpl in Hg4. by apply negb_false_iff, bool_decide_eq_true in Hg4.
Qed.

Lemma clusterTarget_ok endpointID e ref db mp db' :
  clusterTarget endpointID e ref db = Ok (mp, db') ->
  db' = db /\ ep_runtime e = RuntimeKubernetes /\ w_namespace ref ∈ ep_namespaces e /\
  exists snap inv, snapshot_of db endpointID = Some snap /\ sn_kubernetes snap = Some inv /\
    (w_kind ref = "pod" -> exists p, p ∈ ki_pods inv /\ po_namespace p = w_namespace ref /\ po_name p = w_name ref) /\
    (w_kind ref <> "pod" -> exists w, w ∈ ki_workloads inv /\ inventoried ref w = true /\ mp.1 = nonempty (wl_application w)).
Proof.
  unfold clusterTarget, clusterInventory. intros H. apply bind_ok in H as (inv & db1 & Hi & H). tx_inv Hi. gobool.
  case_bool_decide as Hk; tx_inv H.
  - match goal with H : List.find _ _ = Some _ |- _ => apply find_some in H as [Hin Hp] end.
    rewrite andb_true_iff, !bool_decide_eq_true in Hp. split_and!; try done. exists row, row0. split_and!; [done..| |done]. eauto.
  - match goal with H : List.find _ _ = Some _ |- _ => apply find_some in H as [Hin Hp] end.
    split_and!; try done. exists row, row0. split_and!; [done..|]. eauto.
Qed.

Lemma runAs_lift_ok {A} a action name notes (op : tx A) now fresh db x db' :
  runAs a action name notes true (lift op) now fresh db = (Ok x, db') ->
  exists role db1, holds a db role /\ Allows role action = true /\ op db = Ok (x, db1) /\ audited a name "success" db1 db'.
Proof.
  intros (role & n & db1 & Hh & Ha & _ & Hop & Haud)%runAs_split. injection Hop as <- Hop. simpl in Haud. eauto 6.
Qed.

Lemma with_correlation_same a fresh :
  OrganizationID (with_correlation a fresh) = OrganizationID a /\ EnvironmentID (with_correlation a fresh) = EnvironmentID a /\
  ActorID (with_correlation a fresh) = ActorID a /\ ServiceTokenID (with_correlation a fresh) = ServiceTokenID a.
Proof. unfold with_correlation. by destruct (nonempty _). Qed.

(** What every created command is: authorized, on an active endpoint of the caller's, in flight. *)
Record Created (a : TenantAccess) (endpointID action : string) (c : CommandRow) (db db' : DB) (needs : Action) (e : EndpointRow) : Prop := {
  cr_role : exists role, holds a db role /\ Allows role needs = true;
  cr_endpoint : endpoints db !! endpointID = Some e;
  cr_scoped : is_scoped a e;
  cr_active : ep_state e = "active";
  cr_row : c_endpoint c = endpointID /\ c_action c = action /\ c_outcome c = "" /\ c_dispatched c = None;
  cr_new : commands db !! c_id c = None;
  cr_stored : commands db' = <[c_id c := c]> (commands db) }.

(** A command is only recorded for what its operator saw.  When [CreateCommand] succeeds the
    caller's role grants what the action needs, the endpoint is active and in scope, and the
    row is new and in flight.  Removing a container carries the ID the inventory gives the
    container whose name was repeated; removing an image carries the reference that was
    repeated, pinned to the image it stood for; a cluster command names a workload or pod of the
    inventory in a granted namespace, a delete only with its name repeated and never of a
    workload an application deployed, and a scale's count is 0 to 1000. *)
Theorem CreateCommand_confirmed a endpointID action target confirm expects id now fresh db c db' :
  CreateCommand a endpointID action target confirm expects id now fresh db = (Ok c, db') ->
  exists needs e, commandActions action = Some needs /\ Created a endpointID action c db db' needs e /\
    (workloadActions action = false -> confirmed (snapshot_of db) endpointID action target confirm c) /\
    (workloadActions action = true ->
       c_reference c = target /\ workload_target (snapshot_of db) e endpointID action target confirm expects).
Proof.
  unfold CreateCommand. destruct (commandActions action) as [needs|] eqn:Hn; [|done].
  destruct (workloadActions action) eqn:Hw.
  - unfold createWorkloadCommand. rewrite Hn. destruct (workloadCommand _ _ _ _) as [ref|] eqn:Hwc; [|done].
    intros (role & db1 & Hh & Ha & Hop & rec & -> & _)%runAs_lift_ok.
    destruct (workloadCommand_ok _ _ _ _ _ _ Hn Hwc) as (Hp & Hk & Hsc & Hx & Hconf).
    unfold workload_body in Hop. apply bind_ok in Hop as (e & db2 & Hs & Hop). apply scoped_ok in Hs as (-> & He & Hsc').
    apply bind_ok in Hop as (mp & db3 & Ht & Hop). apply clusterTarget_ok in Ht as (-> & Hrt & Hns & snap & inv & Hsn & Hki & Hpod & Hwl).
    tx_inv Hop. match goal with H : insert_command _ _ = Ok _ |- _ => apply insert_command_ok in H as [Hnew ->] end.
    destruct (with_correlation_same a fresh) as (E1 & E2 & E3 & E4).
    exists needs, e. split; [done|]. split; [split|split; [done|]].
    + exists role. split; [|done]. unfold holds in *. by rewrite E1, E3, E4 in Hh.
    + done.
    + unfold is_scoped in *. by rewrite E1, E2 in Hsc'.
    + by gobool.
    + done.
    + done.
    + done.
    + intros _. pose proof (ParseWorkloadRef_string _ _ Hp) as [_ Href]. split; [done|]. exists ref. split_and!; try done.
      exists snap, inv. split_and!; try done.
      * intros Hpd. apply Hpod. by apply Hk.
      * intros Hpd. destruct Hwl as (w & Hw1 & Hw2 & Hw3); [by rewrite Hk|]. exists w. split_and!; try done.
        intros ->. rewrite Hw3 in *. unfold nonempty in *. gobool. naive_solver.
  - destruct (command_guards _ _ _ _); [|done]. unfold withTenantTarget, run.
    intros (role & db1 & Hh & Ha & Hop & rec & -> & _)%runAs_lift_ok.
    unfold create_body in Hop. apply bind_ok in Hop as (e & db2 & Hs & Hop). apply scoped_ok in Hs as (-> & He & Hsc).
    apply bind_ok in Hop as (t & db3 & Ht & Hop). apply bind_ok in Hop as (u & db4 & [Hact [= -> ->]]%ensure_ok & Hop).
    apply bind_ok in Hop as (u1 & db5 & [Hnew ->]%insert_command_ok & Hop). injection Hop as <- <-.
    destruct (resolve_target_ok endpointID action target confirm needs expects db t db3
      (new_command a e id endpointID (Principal a) (CorrelationID a) action t.1.1 t.1.2 t.2 (now + CommandDeadline) now)
      Hn Ht eq_refl eq_refl eq_refl) as [-> Hconf].
    exists needs, e. split; [done|]. split; [split|split; [done|done]]; try done; [eauto|by apply bool_decide_eq_true in Hact].
Qed.

(** ** Witnesses *)

Definition demo_container : Container := bare_container demo_hex "shop-web-1" "shop/web" ("sha256:" +:+ demo_hex) "running" 17000000000 [] (Some []).
Definition demo_inventory : InventoryRow :=
  mkInventory (Some (bare_snapshot [demo_container] [mkImage ("sha256:" +:+ demo_hex) ["shop/web:1"] [] 0 0] None)) 6 6.
(** The demo organization with a connected Docker host. *)
Definition demo_host : DB := set_endpoints {["host" := mkEndpoint "org" "env" "docker" "active" [] "host"]}
  (set_inventories {["host" := demo_inventory]} demo_db).

Lemma CreateCommand_confirmed_witness :
  exists c, (CreateCommand ada "host" ActionRemove "shop-web-1" "shop-web-1" (mkExpectation "" "running" None)
               "cmd" 7 "f" demo_host).1 = Ok c /\ c_container c = demo_hex.
Proof.
  set (r := CreateCommand ada "host" ActionRemove "shop-web-1" "shop-web-1" (mkExpectation "" "running" None)
              "cmd" 7 "f" demo_host).
  assert (Hr : exists c, r.1 = Ok c) by (eexists; vm_compute; reflexivity). destruct Hr as [c Hc].
  exists c. split; [exact Hc|].
  destruct (CreateCommand_confirmed ada "host" ActionRemove "shop-web-1" "shop-web-1" (mkExpectation "" "running" None)
              "cmd" 7 "f" demo_host c r.2) as (needs & e & _ & _ & Hconf & _).
  { fold r. rewrite <- Hc. apply surjective_pairing. }
  destruct (Hconf eq_refl) as [Hrm _]. destruct (Hrm eq_refl) as (snap & ct & Hs & Hin & _ & _ & Hid).
  vm_compute in Hs. injection Hs as <-. simpl in Hin. apply list_elem_of_singleton in Hin as ->. exact Hid.
Defined.
