(* ===== verification/Direct.v ===== *)
(** * Direct commands

    internal/store/commands_recreate.go: recreating or running one container from a
    configuration the operator saw in full, and frameBlocker of application_apply.go.

    Two lengths and texts are encoding/json's and stay parameters:
    [frame_bytes] is the size of a frame's JSON, [stored_result] the text kept of a result. *)
From Stdlib Require Import ZArith QArith Lia Ascii String.
From stdpp Require Import base gmap strings list sorting.
From S2P Require Import Prelude.
From S2P Require Import Text.
From S2P Require Import Grammar.
From S2P Require Import Permissions.
From S2P Require Import NetIP.
From S2P Require Import Inspection.
From S2P Require Import Paths.
From S2P Require Import Frame.
From S2P Require Import Inventory.
From S2P Require Import Store.
From S2P Require Import TenantAccess.
From S2P Require Import Commands.

#[local] Open Scope Z_scope.

Definition DeploymentApplyDeadline : Z := 10 * Minute.
Definition MaxDeploymentRequestBytes : Z := 327680.
Definition MaxDeploymentResultStoredBytes : Z := 163840.

Record DirectCommand := mkDirect {
  dc_action : string; dc_confirm : string; dc_state : string; dc_max_frame : Z;
  dc_allow_privileged : bool; dc_frame : DeploymentRequest }.

(** ** What reaches into the host *)

Definition dockerDefaultCaps : list string :=
  ["CHOWN"; "DAC_OVERRIDE"; "FSETID"; "FOWNER"; "MKNOD"; "NET_RAW"; "SETGID"; "SETUID"; "SETFCAP"; "SETPCAP";
   "NET_BIND_SERVICE"; "SYS_CHROOT"; "KILL"; "AUDIT_WRITE"].
Definition hostPaths : list string :=
  ["/"; "/etc"; "/run"; "/var/run"; "/var/spool"; "/var/lib"; "/usr"; "/lib"; "/lib64"; "/bin"; "/sbin"; "/proc";
   "/sys"; "/dev"; "/boot"; "/root"].
Definition etcReadOnly : list string := ["/etc/localtime"; "/etc/timezone"; "/etc/ssl/certs"].
Definition hardening : list string := ["no-new-privileges"; "no-new-privileges:true"].

(** [strings.ToUpper], compared with ASCII names only: of the other runes just two have an
    ASCII upper case. *)
Definition upper_rune (r : Z) : Z :=
  if btw 97 122 r then r - 32 else if r =? 0x131 then 73 else if r =? 0x17F then 83 else r.
Definition ToUpper (s : string) : string := encode_runes (map upper_rune (runes s)).

Definition hostBind (m : Mount) : bool :=
  if negb (bool_decide (m_kind m = MountBind)) then false
  else if m_readonly m && existsb (under (m_source m)) etcReadOnly then false
  else bool_decide (".ssh" ∈ split_at "/" (m_source m))
       || existsb (fun h => under h (m_source m) || (negb (bool_decide (h = "/")) && under (m_source m) h)) hostPaths.

Definition mounts_of (s : DeploymentService) : list Mount := default [] (s_mounts s).

Definition hostLevel (svc : DeploymentService) (e : ExplicitService) : bool :=
  e_privileged e || (llen (e_devices e) >? 0) || NamespaceNetwork (e_network_mode e)
  || existsb (fun n => NamespaceNetwork (net_name n)) (e_networks e)
  || existsb (fun o => negb (bool_decide (o ∈ hardening))) (e_security_opt e)
  || existsb (fun c => negb (bool_decide (TrimPrefix (ToUpper c) "CAP_" ∈ dockerDefaultCaps))) (e_cap_add e)
  || existsb hostBind (mounts_of svc).

Definition hostIPsOverlap (a b : string) : bool :=
  let wild ip := bool_decide (ip ∈ [""; "0.0.0.0"; "::"]) in
  bool_decide (a = b) || wild a || wild b.

(** ** What stops a frame *)

(** [slices.Sort] and [slices.Compact]. *)
Fixpoint compact (l : list string) : list string :=
  match l with
  | a :: ((b :: _) as l') => if bool_decide (a = b) then compact l' else a :: compact l'
  | _ => l
  end.
Definition str_le (a b : string) : Prop := String.leb a b = true.
#[export] Instance str_le_dec : RelDecision str_le.
Proof. intros a b. unfold str_le. apply _. Defined.
Definition invalidSpec (blockers : list string) : StoreErr := InvalidSpec (compact (merge_sort str_le blockers)).

Definition port_taken (p : Port) (c : Container) : bool :=
  (port_host p >? 0) &&
  existsb (fun q => (port_host q =? port_host p) && bool_decide (port_protocol q = port_protocol p)
                    && hostIPsOverlap (port_host_ip p) (port_host_ip q)) (ct_ports c).

Definition bind_granted (old : option Container) (m : Mount) : bool :=
  match old with
  | None => false
  | Some c => existsb (fun o => bool_decide (m_kind o = MountBind) && bool_decide (m_source o = m_source m)
                                && bool_decide (m_target o = m_target m) && (negb (m_readonly o) || m_readonly m)) (default [] (ct_mounts c))
  end.

Definition direct_blockers (snap : Snapshot) (old : option Container) (svc : DeploymentService) (e : ExplicitService)
    (allowPrivileged : bool) : list string :=
  (if negb allowPrivileged && hostLevel svc e then ["privileged_disabled"] else []) ++
  (if nonempty (s_image svc) && negb (existsb (fun im => bool_decide (im_id im = s_image svc)) (sn_images snap))
   then ["image_unresolved"] else []) ++
  mjoin (map (fun c =>
    if match old with Some o => bool_decide (ct_id c = ct_id o) | None => false end then []
    else (if bool_decide (ct_name c = s_container svc) then ["name_taken"] else []) ++
         mjoin (map (fun p => if port_taken p c then ["port_conflict"] else []) (s_ports svc))) (sn_containers snap)) ++
  mjoin (map (fun m =>
    if negb (bool_decide (m_kind m = MountBind)) || bool_decide (m_source m ∈ e_acknowledged e) then []
    else if bind_granted old m then [] else ["bind_unacknowledged"]) (mounts_of svc)).

Definition directBlockers (snap : Snapshot) (old : option Container) (svc : DeploymentService) (e : ExplicitService)
    (allowPrivileged : bool) : tx unit :=
  let b := direct_blockers snap old svc e allowPrivileged in
  ensure (llen b =? 0) (invalidSpec b).

(** The settings a frame sets, by name. *)
Definition directFields (s : DeploymentService) (e : ExplicitService) : list string :=
  map fst (List.filter snd
    [("cap_add", llen (e_cap_add e) >? 0); ("cap_drop", llen (e_cap_drop e) >? 0); ("command", llen (e_command e) >? 0);
     ("devices", llen (e_devices e) >? 0); ("dns", llen (e_dns e) >? 0); ("entrypoint", llen (e_entrypoint e) >? 0);
     ("env", msize (s_env s) >? 0); ("extra_hosts", llen (e_extra_hosts e) >? 0);
     ("healthcheck", bool_decide (is_Some (e_healthcheck e))); ("hostname", nonempty (e_hostname e)); ("init", e_init e);
     ("labels", msize (e_labels e) >? 0); ("log", nonempty (log_driver (e_log e))); ("mounts", llen (mounts_of s) >? 0);
     ("networks", llen (e_networks e) >? 0); ("ports", llen (s_ports s) >? 0); ("privileged", e_privileged e);
     ("read_only_rootfs", e_readonly_rootfs e); ("resources", negb (bool_decide (e_resources e = mkResources 0 0 0 0)));
     ("restart", nonempty (s_restart s) && negb (bool_decide (s_restart s = "no")));
     ("security_opt", llen (e_security_opt e) >? 0); ("stdin_open", e_stdin_open e); ("stop_signal", nonempty (e_stop_signal e));
     ("stop_timeout", bool_decide (is_Some (e_stop_timeout e))); ("tty", e_tty e); ("user", nonempty (e_user e));
     ("working_dir", nonempty (e_working_dir e))]).

Section direct.
Context (frame_bytes : DeploymentRequest -> Z) (stored_result : DeploymentResult -> string).

Definition frameBlocker (req : DeploymentRequest) (now : time) (maxFrameBytes : Z) : string :=
  if msize (dr_registries req) >? MaxRegistryAuthHosts then "too_many_registry_hosts"
  else if negb (is_ok (request_validate req now)) then "frame_invalid"
  else if frame_bytes req >? Z.min maxFrameBytes MaxDeploymentRequestBytes then "frame_too_large"
  else "".

(** ** Creating one *)

Definition directTarget (endpointID : string) (dc : DirectCommand) (svc : DeploymentService) (now : time)
    : tx (Snapshot * option Container) :=
  _ ← directBusy endpointID now;
  let recreate := bool_decide (dc_action dc = ActionRecreate) in
  owned ← gets (fun db => managed db endpointID (it_container (s_replaces svc)));
  _ ← ensure (negb (recreate && owned)) ErrContainerManaged;
  snap ← read_snapshot endpointID ErrInvalid;
  if negb recreate then
    _ ← ensure (bool_decide (dc_confirm dc = s_container svc)) ErrInvalid;
    mret (snap, None)
  else
    old ← one (List.find (fun c => bool_decide (ct_id c = it_container (s_replaces svc))) (sn_containers snap)) ErrAdoptionChanged;
    _ ← ensure (bool_decide (ct_image_id old = it_image (s_replaces svc))
                && (ct_created old / Second =? it_created (s_replaces svc))
                && bool_decide (ct_state old = dc_state dc)) ErrAdoptionChanged;
    _ ← ensure (bool_decide (dc_confirm dc = ct_name old)) ErrInvalid;
    mret (snap, Some old).

(** The one explicit service, and the shape of a recreate or a run. *)
Definition direct_service (dc : DirectCommand) : option (DeploymentService * ExplicitService) :=
  match dr_services (dc_frame dc) with
  | [svc] =>
      match s_explicit svc with
      | Some e => if directActions (dc_action dc) then Some (svc, e) else None
      | None => None
      end
  | _ => None
  end.
Definition direct_shape (dc : DirectCommand) (svc : DeploymentService) : bool :=
  if bool_decide (dc_action dc = ActionRecreate)
  then target_validate (s_replaces svc) && nonempty (dc_state dc)
  else bool_decide (s_replaces svc = no_target) && negb (nonempty (dc_state dc)).

(** Identity, issue time and deadline are the server's. *)
Definition stamp (req : DeploymentRequest) (id request endpointID : string) (now : time) : DeploymentRequest :=
  mkRequest id request endpointID ExplicitProject ExplicitRevision now (now + DeploymentApplyDeadline) (dr_services req)
    (dr_registries req) (dr_volumes req) (dr_kubernetes req) true.

Definition acknowledged_binds (svc : DeploymentService) (e : ExplicitService) : list string :=
  List.filter (fun path => existsb (fun m => bool_decide (m_kind m = MountBind) && bool_decide (m_source m = path)) (mounts_of svc))
    (e_acknowledged e).

Definition direct_body (a : TenantAccess) (endpointID target : string) (dc : DirectCommand) (svc : DeploymentService)
    (e : ExplicitService) (id : string) (req : DeploymentRequest) (now : time) : tx CommandRow :=
  ep ← scoped a endpointID;
  _ ← ensure (bool_decide (ep_state ep = "active")) ErrEndpointOffline;
  _ ← sweepDirect endpointID now;
  so ← directTarget endpointID dc svc now;
  _ ← directBlockers so.1 so.2 svc e (dc_allow_privileged dc);
  let b := frameBlocker req now (dc_max_frame dc) in
  _ ← ensure (negb (nonempty b)) (invalidSpec ["spec_invalid:" +:+ b]);
  _ ← tx_iter (fun path => modify (add_audit (mkAudit (Principal a) "container.bind.acknowledged" (CleanText target 255)
        (CleanText path 200) (IPAddress a) now "organization" (OrganizationID a) (EnvironmentID a) (CorrelationID a) "success")))
        (acknowledged_binds svc e);
  let expects := if bool_decide (dc_action dc = ActionRecreate)
                 then mkExpectation (it_image (s_replaces svc)) (dc_state dc) None else mkExpectation "" "" None in
  let c := new_command a ep id endpointID (ActorID a) (CorrelationID a) (dc_action dc) (it_container (s_replaces svc)) ""
             expects (now + DeploymentApplyDeadline) now in
  _ ← insert_command c;
  mret c.

Definition CreateDirectCommand (a : TenantAccess) (endpointID : string) (dc : DirectCommand) (id : string) (now : time)
    (fresh : string) (db : DB) : res StoreErr (CommandRow * DeploymentRequest) * DB :=
  match direct_service dc with
  | None => (Fail ErrInvalid, db)
  | Some (svc, e) =>
      if negb (direct_shape dc svc) then (Fail ErrInvalid, db)
      else
        let a := with_correlation a fresh in
        let recreate := bool_decide (dc_action dc = ActionRecreate) in
        let target := endpointID +:+ "/" +:+ (if recreate then it_container (s_replaces svc) else s_container svc) in
        let req := stamp (dc_frame dc) id (CorrelationID a) endpointID now in
        let image := match s_pull svc with Some p => pull_digest p | None => s_image svc end in
        let details := "image=" +:+ image +:+ " binds=" +:+ Itoa (llen (acknowledged_binds svc e)) +:+ " fields="
                       +:+ join "," (directFields svc e) in
        match run a ContainerConfigure (mkNotes (Some target) (Some details)) true
                (lift (direct_body a endpointID target dc svc e id req now)) now fresh db with
        | (Ok c, db') => (Ok (c, req), db')
        | (Fail err, db') => (Fail err, db')
        end
  end.

Definition CheckDirectCommand (a : TenantAccess) (endpointID : string) (dc : DirectCommand) (now : time) (fresh : string)
    (db : DB) : res StoreErr unit * DB :=
  match direct_service dc with
  | None => (Fail ErrInvalid, db)
  | Some (svc, e) =>
      readTenant a ContainerConfigure
        (ep ← scoped a endpointID;
         _ ← ensure (bool_decide (ep_state ep = "active")) ErrEndpointOffline;
         _ ← directTarget endpointID dc svc now;
         ensure (negb (negb (dc_allow_privileged dc) && hostLevel svc e)) (invalidSpec ["privileged_disabled"])) now fresh db
  end.

(** ** Settling one *)

Definition settleDirect (endpointID id outcome code created : string) (set_ : CommandRow -> CommandRow)
    (where_ : CommandRow -> bool) (now : time) : tx unit :=
  n ← update_commands (fun c => bool_decide (c_id c = id) && on_endpoint endpointID c && direct c && where_ c)
        (fun c => set_ (with_command_outcome outcome code now c));
  _ ← ensure (n =? 1) ErrNotFound;
  auditDirect endpointID id outcome code created now.

(** The first answer, or the one that replaces an unknown no answer has replaced yet. *)
Definition settleable (c : CommandRow) : bool :=
  in_flight c || (bool_decide (c_outcome c = OutcomeUnknown) && bool_decide (c_result c = "")).

Definition result_service (res : DeploymentResult) : string :=
  if bool_decide (rs_request res = "") then "workload" else "direct".
Definition result_match (res : DeploymentResult) (c : CommandRow) : bool :=
  if bool_decide (rs_request res = "") then bool_decide (c_action c ∈ [ActionWorkloadApply; ActionWorkloadRun])
  else bool_decide (c_action c ∈ [ActionRecreate; ActionRun]) && bool_decide (c_request c = rs_request res).

Definition SettleDirectCommand (endpointID : string) (res : DeploymentResult) (now : time) (db : DB) : Prelude.res StoreErr unit * DB :=
  let service := result_service res in
  if negb (is_ok (result_validate res)) then (Fail ErrUnreadableResult, db)
  else if (llen (rs_services res) >? 1) || (negb (bool_decide (service = "direct")) && (llen (rs_services res) >? 0))
          || existsb (fun s => negb (bool_decide (st_service s = service))) (rs_steps res)
          || existsb (fun i => negb (bool_decide (id_service i = service))) (rs_services res)
  then (Fail ErrUnreadableResult, db)
  else
    let created := match rs_services res with [i] => id_container i | _ => "" end in
    let raw := stored_result res in
    if len raw >? MaxDeploymentResultStoredBytes then (Fail ErrInvalid, db)
    else commit (settleDirect endpointID (rs_deployment res) (rs_outcome res) (rs_code res) created
                   (with_result raw created) (fun c => result_match res c && settleable c) now) db.

Definition FailDirectCommand (endpointID id detail : string) (now : time) (db : DB) : Prelude.res StoreErr unit * DB :=
  match commit (settleDirect endpointID id OutcomeFailed (CleanText detail MaxResultDetailBytes) "" (fun c => c) in_flight now) db with
  | (Fail ErrNotFound, db') => (Ok tt, db')
  | r => r
  end.
End direct.

(** ** Effects on the command table *)

Lemma update_commands_ok p f db n db' :
  update_commands p f db = Ok (n, db') ->
  n = count p (commands db) /\ db' = set_commands ((fun c => if p c then f c else c) <$> commands db) db.
Proof. unfold update_commands. intros H. by tx_inv H. Qed.

Lemma auditDirect_ok endpointID id outcome code created now db u db' :
  auditDirect endpointID id outcome code created now db = Ok (u, db') -> exists rec, db' = add_audit rec db.
Proof. unfold auditDirect. intros H. tx_inv H. by eexists. Qed.

(** The tables beside the commands that a direct command reads. *)
Definition host_facts (db : DB) := (endpoints db, inventories db, resources db).

Lemma tx_iter_audit {A} (f : A -> tx unit) l db u db' :
  (forall x d u d', f x d = Ok (u, d') -> commands d' = commands d /\ host_facts d' = host_facts d) ->
  tx_iter f l db = Ok (u, db') -> commands db' = commands db /\ host_facts db' = host_facts db.
Proof.
  intros Hf. revert db; induction l as [|x l IH]; intros db; simpl; [by intros [= _ <-]|].
  intros ([] & d & Hx & H)%bind_ok. destruct (Hf _ _ _ _ Hx) as [E1 E2]. destruct (IH _ H) as [-> ->]. done.
Qed.

(** A row a sweep may have settled. *)
Definition swept (now : time) (c c' : CommandRow) : Prop :=
  c' = c \/ (in_flight c = true /\ direct c = true /\
             c' = with_command_outcome OutcomeUnknown "no result arrived before the deadline" now c).

Lemma sweep_one_ok endpointID now id db u db' :
  sweep_one endpointID now id db = Ok (u, db') ->
  commands db' = (fun c => if bool_decide (c_id c = id) && in_flight c
                           then with_command_outcome OutcomeUnknown "no result arrived before the deadline" now c else c) <$> commands db
  /\ host_facts db' = host_facts db.
Proof.
  unfold sweep_one. intros (n & d & [_ ->]%update_commands_ok & H)%bind_ok.
  destruct (n =? 0); [by injection H as _ <-|]. by apply auditDirect_ok in H as [rec ->].
Qed.

Lemma sweep_loop endpointID now ids db u db' :
  keyed c_id (commands db) ->
  tx_iter (sweep_one endpointID now) ids db = Ok (u, db') ->
  host_facts db' = host_facts db /\
  forall k, commands db' !! k =
    (fun c => if bool_decide (k ∈ ids) && in_flight c
              then with_command_outcome OutcomeUnknown "no result arrived before the deadline" now c else c) <$> commands db !! k.
Proof.
  revert db; induction ids as [|id ids IH]; intros db Hk; simpl.
  - intros [= _ <-]. split; [done|]. intros k. by destruct (commands db !! k).
  - intros ([] & d & [E1 E2]%sweep_one_ok & H)%bind_ok.
    assert (Hk' : keyed c_id (commands d)).
    { rewrite E1. intros k c (c0 & <- & Hc)%lookup_fmap_Some. rewrite <- (Hk _ _ Hc). by destruct (_ && _). }
    destruct (IH d Hk' H) as [E3 E4]. split; [congruence|]. intros k. rewrite E4, E1, lookup_fmap.
    destruct (commands db !! k) as [c|] eqn:Hc; [|done]. simpl. f_equal. rewrite (Hk _ _ Hc).
    destruct (in_flight c) eqn:Hf; [|by rewrite !andb_false_r, Hf, andb_false_r]. rewrite !andb_true_r.
    destruct (decide (k = id)) as [->|Hne].
    + rewrite (bool_decide_true (id = id)) by done. rewrite (bool_decide_true (id ∈ id :: ids)) by left. simpl. by rewrite andb_false_r.
    + rewrite (bool_decide_false (k = id)) by done. rewrite Hf, andb_true_r.
      by rewrite (bool_decide_ext (k ∈ id :: ids) (k ∈ ids)) by set_solver.
Qed.

Definition expired (endpointID : string) (now : time) (c : CommandRow) : bool :=
  on_endpoint endpointID c && in_flight c && (c_deadline c <? now).

(** A sweep settles exactly the endpoint's live direct commands past their deadline. *)
Lemma sweepDirect_ok endpointID now db u db' :
  keyed c_id (commands db) -> sweepDirect endpointID now db = Ok (u, db') ->
  host_facts db' = host_facts db /\
  forall k, commands db' !! k =
    (fun c => if direct c && expired endpointID now c
              then with_command_outcome OutcomeUnknown "no result arrived before the deadline" now c else c) <$> commands db !! k.
Proof.
  intros Hk. unfold sweepDirect. intros (ids & d & Hids & H)%bind_ok. unfold directIDs in Hids.
  apply gets_ok in Hids. injection Hids as -> ->. destruct (sweep_loop _ _ _ _ _ _ Hk H) as [E1 E2]. split; [done|].
  intros k. rewrite E2. destruct (commands db !! k) as [c|] eqn:Hc; [|done]. simpl. f_equal.
  set (p := fun c0 => direct c0 && (on_endpoint endpointID c0 && in_flight c0 && (c_deadline c0 <? now))).
  assert (Hin : k ∈ map c_id (select p (commands db)) <-> p c = true).
  { rewrite list_elem_of_fmap. setoid_rewrite elem_of_select. split.
    - intros (c' & -> & [k' Hc'] & Hp). assert (c' = c) as <-; [|done].
      pose proof (Hk _ _ Hc') as E. subst k'. congruence.
    - intros Hp. exists c. split; [by rewrite (Hk _ _ Hc)|eauto]. }
  change (direct c && expired endpointID now c) with (p c). destruct (p c) eqn:Hp.
  - rewrite bool_decide_true by (by apply Hin). unfold p in Hp. rewrite !andb_true_iff in Hp. by destruct Hp as (_ & (_ & ->) & _).
  - by rewrite bool_decide_false by (by rewrite Hin).
Qed.

(** ** What a frame may reach *)

(** A bind reaches into the host when its source is a host path, a parent of one, or beneath one
    that is not the root. *)
Definition reaches (src : string) : Prop :=
  exists h, h ∈ hostPaths /\ (elements src `prefix_of` elements h \/ (h <> "/" /\ elements h `prefix_of` elements src)).

(** A service confined to its container. *)
Record Confined (svc : DeploymentService) (e : ExplicitService) : Prop := {
  co_plain : e_privileged e = false /\ e_devices e = [];
  co_network : NamespaceNetwork (e_network_mode e) = false /\
    forall n, n ∈ e_networks e -> NamespaceNetwork (net_name n) = false;
  co_security : forall o, o ∈ e_security_opt e -> o ∈ hardening;
  co_caps : forall c, c ∈ e_cap_add e -> TrimPrefix (ToUpper c) "CAP_" ∈ dockerDefaultCaps;
  co_binds : forall m, m ∈ mounts_of svc -> m_kind m = MountBind ->
    (m_readonly m = true /\ exists x, x ∈ etcReadOnly /\ elements x `prefix_of` elements (m_source m)) \/
    (".ssh" ∉ elements (m_source m) /\ ~ reaches (m_source m)) }.

Lemma existsb_false {A} (p : A -> bool) l : existsb p l = false <-> forall x, x ∈ l -> p x = false.
Proof.
  induction l as [|x l IH]; simpl; [set_solver|]. rewrite orb_false_iff, IH. setoid_rewrite elem_of_cons. naive_solver.
Qed.
Lemma existsb_true {A} (p : A -> bool) l : existsb p l = true <-> exists x, x ∈ l /\ p x = true.
Proof. rewrite existsb_exists. by setoid_rewrite list_elem_of_In. Qed.

Lemma hostPaths_clean h : h ∈ hostPaths -> h <> "/" -> cleanAbsolute h = true.
Proof.
  unfold hostPaths. rewrite !elem_of_cons, elem_of_nil.
  intros H Hne. repeat (destruct H as [->|H]; [done || (vm_compute; reflexivity)|]). done.
Qed.
Lemma etcReadOnly_clean h : h ∈ etcReadOnly -> cleanAbsolute h = true.
Proof.
  unfold etcReadOnly. rewrite !elem_of_cons, elem_of_nil.
  intros H. repeat (destruct H as [->|H]; [vm_compute; reflexivity|]). done.
Qed.

Lemma hostBind_confined m :
  m_kind m = MountBind -> cleanAbsolute (m_source m) = true -> hostBind m = false ->
  (m_readonly m = true /\ exists x, x ∈ etcReadOnly /\ elements x `prefix_of` elements (m_source m)) \/
  (".ssh" ∉ elements (m_source m) /\ ~ reaches (m_source m)).
Proof.
  intros Hk Hc. unfold hostBind. rewrite Hk, bool_decide_true by done. cbn [negb].
  destruct (m_readonly m && existsb (under (m_source m)) etcReadOnly) eqn:E.
  - intros _. left. apply andb_prop in E as [Hr (x & Hx & Hu)%existsb_true]. split; [done|]. exists x. split; [done|].
    apply under_elements in Hu; [done|done|by apply etcReadOnly_clean].
  - intros [Hssh%bool_decide_eq_false Hh]%orb_false_iff. right.
    destruct (cleanAbsolute_elements _ Hc) as [Es Ps]. split.
    + intros Hin. apply Hssh. rewrite Es. simpl. rewrite Es in Hin at 1. unfold elements in Hin. simpl in Hin.
      right. done.
    + rewrite existsb_false in Hh. intros (h & Hin & Hor). specialize (Hh h Hin).
      apply orb_false_iff in Hh as [H1 H2]. destruct (decide (h = "/")) as [->|Hne].
      * destruct Hor as [[k Hp]|[? _]]; [|done]. change (elements "/") with [""] in Hp.
        assert (Hx : "" ∈ elements (m_source m)).
        { pose proof (elements_nonempty (m_source m)). destruct (elements (m_source m)); [done|]. simpl in Hp. injection Hp as <- _. left. }
        rewrite Forall_forall in Ps. by destruct (Ps _ Hx).
      * assert (Hch := hostPaths_clean h Hin Hne). rewrite bool_decide_false in H2 by done. simpl in H2.
        destruct Hor as [Hp|[_ Hp]].
        -- apply under_elements in Hp; [congruence|done|done].
        -- apply under_elements in Hp; [congruence|done|done].
Qed.

Lemma hostLevel_confined svc e :
  (forall m, m ∈ mounts_of svc -> m_kind m = MountBind -> cleanAbsolute (m_source m) = true) ->
  hostLevel svc e = false -> Confined svc e.
Proof.
  intros Hclean. unfold hostLevel. rewrite !orb_false_iff, !existsb_false.
  intros ((((((H1 & H2) & H3) & H4) & H5) & H6) & H7). split.
  - split; [done|]. by destruct (e_devices e).
  - done.
  - intros o Ho. specialize (H5 o Ho). by apply negb_false_iff, bool_decide_eq_true in H5.
  - intros c Hc. specialize (H6 c Hc). by apply negb_false_iff, bool_decide_eq_true in H6.
  - intros m Hm Hk. apply hostBind_confined; [done|by apply Hclean|by apply H7].
Qed.

(** ** Creating one, backwards *)

Section created.
Context (frame_bytes : DeploymentRequest -> Z).

(** The container a recreate replaces is the one the operator read and named. *)
Definition target_held (managed : string -> string -> bool) (endpointID : string) (dc : DirectCommand) (svc : DeploymentService) (snap : Snapshot) (old : option Container) : Prop :=
  if bool_decide (dc_action dc = ActionRecreate) then
    managed endpointID (it_container (s_replaces svc)) = false /\
    exists c, old = Some c /\ c ∈ sn_containers snap /\ ct_id c = it_container (s_replaces svc) /\
      ct_image_id c = it_image (s_replaces svc) /\ ct_created c / Second = it_created (s_replaces svc) /\
      ct_state c = dc_state dc /\ dc_confirm dc = ct_name c
  else old = None /\ dc_confirm dc = s_container svc.

Lemma directTarget_ok endpointID dc svc now db so db' :
  directTarget endpointID dc svc now db = Ok (so, db') ->
  db' = db /\ (forall k c, commands db !! k = Some c -> on_endpoint endpointID c = true -> direct c = true ->
     in_flight c = true -> c_deadline c < now) /\
  snapshot_of db endpointID = Some so.1 /\ target_held (managed db) endpointID dc svc so.1 so.2.
Proof.
  unfold directTarget, directBusy. intros ([] & d & Hb & H)%bind_ok. tx_inv Hb.
  apply negb_true_iff in Hg. rewrite Z.gtb_ltb, Z.ltb_ge in Hg.
  assert (Hz := count_nonneg (fun c => on_endpoint endpointID c && direct c && in_flight c && (c_deadline c >=? now)) (commands db)).
  assert (Hc : count (fun c => on_endpoint endpointID c && direct c && in_flight c && (c_deadline c >=? now)) (commands db) = 0) by lia.
  rewrite count_zero in Hc. apply bind_ok in H as (owned & d0 & [= -> ->]%gets_ok & H). apply bind_ok in H as ([] & d1 & [Hm [= -> ]]%ensure_ok & H).
  apply bind_ok in H as (snap & d2 & (row & Hs & [= -> ->])%read_snapshot_ok & H).
  assert (Hidle : forall k c, commands db !! k = Some c -> on_endpoint endpointID c = true -> direct c = true ->
     in_flight c = true -> c_deadline c < now).
  { intros k c Hk H1 H2 H3. specialize (Hc k c Hk). cbv beta in Hc. rewrite H1, H2, H3 in Hc. simpl in Hc. lia. }
  unfold target_held. destruct (bool_decide (dc_action dc = ActionRecreate)); simpl in H.
  - apply bind_ok in H as (old & d3 & (c & Hf & [= -> ->])%one_ok & H). tx_inv H. apply find_some in Hf as [Hin Hid].
    gobool. split_and!; try done. exists c. split_and!; try done. by apply Z.eqb_eq.
  - tx_inv H. gobool. by split_and!.
Qed.

Lemma frameBlocker_ok req now max :
  frameBlocker frame_bytes req now max = "" -> request_validate req now = Ok tt /\ frame_bytes req <= Z.min max MaxDeploymentRequestBytes.
Proof.
  unfold frameBlocker. destruct (_ >? MaxRegistryAuthHosts); [done|].
  destruct (is_ok (request_validate req now)) eqn:E; [|done]. simpl.
  destruct (Z.gtb_spec (frame_bytes req) (Z.min max MaxDeploymentRequestBytes)); [done|]. intros _.
  split; [|lia]. by apply is_ok_unit.
Qed.

(** Every bind is one the operator acknowledged or the replaced container already had. *)
Definition binds_granted (svc : DeploymentService) (e : ExplicitService) (old : option Container) : Prop :=
  forall m, m ∈ mounts_of svc -> m_kind m = MountBind -> m_source m ∈ e_acknowledged e \/ bind_granted old m = true.

Lemma mjoin_nil {A B} (f : A -> list B) l : mjoin (map f l) = [] -> forall x, x ∈ l -> f x = [].
Proof.
  induction l as [|x l IH]; simpl; [set_solver|]. intros [H1 H2]%app_eq_nil y [->|Hy]%elem_of_cons; eauto.
Qed.

Lemma directBlockers_ok snap old svc e allow db u db' :
  directBlockers snap old svc e allow db = Ok (u, db') ->
  db' = db /\ (allow = false -> hostLevel svc e = false) /\ binds_granted svc e old.
Proof.
  unfold directBlockers. intros [H [= _ ->]]%ensure_ok. apply Z.eqb_eq in H.
  assert (Hn : direct_blockers snap old svc e allow = []) by (destruct (direct_blockers _ _ _ _ _); [done|]; unfold llen in H; simpl in H; lia).
  unfold direct_blockers in Hn. apply app_eq_nil in Hn as [H1 [_ [_ H2]%app_eq_nil]%app_eq_nil].
  split; [done|]. split.
  - intros ->. by destruct (hostLevel svc e).
  - intros m Hm Hk. pose proof (mjoin_nil _ _ H2 m Hm) as Hx. cbv beta in Hx. rewrite Hk in Hx.
    rewrite (bool_decide_true (MountBind = MountBind)) in Hx by done. simpl in Hx.
    case_bool_decide; [by left|]. right. by destruct (bind_granted old m).
Qed.

Lemma direct_service_ok dc svc e :
  direct_service dc = Some (svc, e) ->
  dr_services (dc_frame dc) = [svc] /\ s_explicit svc = Some e /\ directActions (dc_action dc) = true.
Proof.
  unfold direct_service. destruct (dr_services (dc_frame dc)) as [|s [|]]; try done.
  destruct (s_explicit s) eqn:E; [|done]. destruct (directActions _); [|done]. by intros [= -> ->].
Qed.
End created.

Section created_ok.
Context (frame_bytes : DeploymentRequest -> Z).

Lemma direct_body_ok a endpointID target dc svc e id req now db c db' :
  keyed c_id (commands db) ->
  direct_body frame_bytes a endpointID target dc svc e id req now db = Ok (c, db') ->
  exists er snap old, endpoints db !! endpointID = Some er /\ is_scoped a er /\ ep_state er = "active" /\
    snapshot_of db endpointID = Some snap /\ target_held (managed db) endpointID dc svc snap old /\ binds_granted svc e old /\
    (dc_allow_privileged dc = false -> hostLevel svc e = false) /\
    frameBlocker frame_bytes req now (dc_max_frame dc) = "" /\
    c_id c = id /\ c_outcome c = "" /\ commands db' !! id = Some c /\
    (forall k c', commands db' !! k = Some c' -> on_endpoint endpointID c' = true -> direct c' = true -> in_flight c' = true -> k = id).
Proof.
  intros Hk. unfold direct_body.
  intros (er & d & (-> & He & Hs)%scoped_ok & H)%bind_ok.
  apply bind_ok in H as ([] & d1 & [Hact%bool_decide_eq_true [= ->]]%ensure_ok & H).
  apply bind_ok in H as ([] & d2 & Hsw & H). destruct (sweepDirect_ok _ _ _ _ _ Hk Hsw) as [[= _ Hinv Hres] Hswept].
  apply bind_ok in H as ([snap old] & d3 & (-> & Hidle & Hsnap & Hheld)%directTarget_ok & H).
  unfold snapshot_of in Hsnap. rewrite Hinv in Hsnap. unfold managed in Hheld. rewrite Hres in Hheld.
  apply bind_ok in H as ([] & d4 & (-> & Hhost & Hgr)%directBlockers_ok & H).
  apply bind_ok in H as ([] & d5 & [Hfb [= ->]]%ensure_ok & H).
  apply bind_ok in H as ([] & d6 & Haud & H).
  apply tx_iter_audit in Haud as [E1 E2]; [|intros x d' u0 d'' Hx; tx_inv Hx; done].
  apply bind_ok in H as ([] & d7 & [Hnew ->]%insert_command_ok & H). injection H as <- <-.
  exists er, snap, old. unfold nonempty in Hfb. rewrite negb_involutive in Hfb. apply bool_decide_eq_true in Hfb.
  split_and!; try done; simpl.
  - apply lookup_insert_eq.
  - intros k c'. rewrite lookup_insert_Some. intros [[-> _]|[_ Hc']]; [done|]. intros H1 H2 H3. exfalso.
    rewrite E1 in Hc'. assert (Hlive := Hidle k c' Hc' H1 H2 H3). rewrite Hswept in Hc'.
    apply fmap_Some in Hc' as (c0 & Hc0 & Heq). cbv beta in Heq.
    destruct (direct c0 && expired endpointID now c0) eqn:Ex; subst c'; [by vm_compute in H3|].
    unfold expired in Ex. rewrite H1, H2, H3 in Ex. simpl in Ex. lia.
Qed.

(** C34: a direct command only sends what the operator was allowed to set up.  When
    [CreateDirectCommand] succeeds the caller may configure containers, the endpoint is active
    and in scope, the frame validates and fits, a recreate replaces the very container the
    operator read and named and no application owns it, every bind was acknowledged or already
    there, and, without the privileged opt-in, the container is confined: no bind reaches a host
    path, no capability beyond Docker's own, no device, no host network.  Afterwards the command
    is the only direct command in flight on its endpoint. *)
Theorem CreateDirectCommand_confined a endpointID dc id now fresh db c req db' :
  keyed c_id (commands db) ->
  CreateDirectCommand frame_bytes a endpointID dc id now fresh db = (Ok (c, req), db') ->
  exists svc e er snap old, dr_services req = [svc] /\ s_explicit svc = Some e /\
    (exists role, holds a db role /\ Allows role ContainerConfigure = true) /\
    endpoints db !! endpointID = Some er /\ is_scoped a er /\ ep_state er = "active" /\
    request_validate req now = Ok tt /\ frame_bytes req <= Z.min (dc_max_frame dc) MaxDeploymentRequestBytes /\
    snapshot_of db endpointID = Some snap /\ target_held (managed db) endpointID dc svc snap old /\ binds_granted svc e old /\
    (dc_allow_privileged dc = false -> Confined svc e) /\ commands db' !! id = Some c /\ c_outcome c = "" /\
    (forall k c', commands db' !! k = Some c' -> on_endpoint endpointID c' = true -> direct c' = true ->
       in_flight c' = true -> k = id).
Proof.
  intros Hk. unfold CreateDirectCommand. destruct (direct_service dc) as [[svc e]|] eqn:Hsvc; [|done].
  destruct (negb (direct_shape dc svc)); [done|]. cbv zeta.
  destruct (run _ _ _ _ _ _ _ _) as [[c0|err] d] eqn:Hrun; [|done]. intros [= <- <- <-].
  apply runAs_lift_ok in Hrun as (role & db1 & Hh & Ha & Hop & rec & -> & _).
  apply direct_body_ok in Hop as (er & snap & old & He & Hs & Hact & Hsn & Hheld & Hgr & Hhost & Hfb & Hid & Hout & Hrow & Honly); [|done].
  destruct (with_correlation_same a fresh) as (E1 & E2 & E3 & E4).
  destruct (direct_service_ok _ _ _ Hsvc) as (Hsvcs & Hexp & _).
  apply frameBlocker_ok in Hfb as [Hval Hsize].
  exists svc, e, er, snap, old. split_and!; try done.
  - exists role. split; [|done]. unfold holds in *. by rewrite E1, E3, E4 in Hh.
  - unfold is_scoped in *. by rewrite E1, E2 in Hs.
  - intros Hnp. apply hostLevel_confined; [|by apply Hhost].
    destruct (request_validate_docker _ _ Hval) as [_ Hdf]; [done|].
    destruct (df_mounts _ Hdf svc) as (ms & Hms & _ & Hm).
    { simpl. rewrite Hsvcs. left. }
    intros m Hin Hkind. unfold mounts_of in Hin. rewrite Hms in Hin. simpl in Hin. by apply (Hm m Hin).
Qed.
End created_ok.

(** ** Witness *)

Definition demo_explicit : ExplicitService :=
  mkExplicit [] [] "" "" "" ∅ "bridge" [] (mkResources 0 0 0 0) None false false false false false ["cap_chown"] [] [] [] []
    [] (mkLog "" ∅) "" None 0 ["/srv/shop"].
Definition demo_run : DirectCommand :=
  mkDirect ActionRun "tool" "" MaxDeploymentRequestBytes false
    (mkRequest "" "" "" "" 0 0 0
       [mkService "direct" "tool" ("sha256:" +:+ demo_hex) no_target "no" [] ∅ None
          (Some [mkMount MountBind "/srv/shop" "/srv" false]) [] [] "" (Some demo_explicit)] ∅ [] None true).
Definition demo_id : string := "01234567-89ab-cdef-0123-456789abcdef".
Definition frame_kb (_ : DeploymentRequest) : Z := 1024.

Lemma CreateDirectCommand_confined_witness :
  exists c req db', CreateDirectCommand frame_kb ada "host" demo_run demo_id Minute "f" demo_host
                    = (Ok (c, req), db') /\
    forall svc e, dr_services req = [svc] -> s_explicit svc = Some e -> Confined svc e.
Proof.
  set (r := CreateDirectCommand frame_kb ada "host" demo_run demo_id Minute "f" demo_host).
  assert (Hr : exists x, r.1 = Ok x) by (eexists; vm_compute; reflexivity). destruct Hr as [[c req] Hc].
  assert (Heq : r = (Ok (c, req), r.2)) by (rewrite <- Hc; apply surjective_pairing).
  exists c, req, r.2. split; [exact Heq|].
  destruct (CreateDirectCommand_confined frame_kb ada "host" demo_run demo_id Minute "f" demo_host c req r.2)
    as (svc & e & _ & _ & _ & Hs & He & _ & _ & _ & _ & _ & _ & _ & _ & _ & Hconf & _).
  - intros k x Hx. vm_compute in Hx. discriminate Hx.
  - exact Heq.
  - intros svc' e' Hs' He'. assert (svc' = svc) as -> by congruence. assert (e' = e) as -> by congruence. by apply Hconf.
Defined.
