(* ===== verification/Applications.v ===== *)
(** * Applications and their revisions

    internal/store/applications.go, application_secrets.go, application_networking.go and
    [revisionSpec] of application_migration.go: the desired state.  An application has a
    numbered history of definitions, each stored as text with its digest and its sealed values;
    an edit names the head it was made against.

    Parameters: [uuid_parse] (google/uuid), [Marshal]/[Unmarshal] and their twins for values
    (encoding/json), [sum_hex] (SHA-256), [DeriveKey] and the AES-GCM pair (internal/crypto on the
    standard library's ciphers; encryption takes its nonce). *)
From Stdlib Require Import ZArith Lia Ascii String.
From stdpp Require Import base gmap strings list sorting.
From S2P Require Import Prelude Text Json Permissions Inspection Frame KubeNames Spec Store TenantAccess Commands.

#[local] Open Scope Z_scope.

Definition MaxApplicationsPerOrganization : Z := 100.

Record Application := mkApp {
  ap_id : string; ap_org : string; ap_env : string; ap_name : string; ap_latest : Z;
  ap_created_by : string; ap_created : time; ap_removed : option time }.
Record ApplicationRevision := mkRev {
  ar_app : string; ar_org : string; ar_env : string; ar_number : Z; ar_spec : ApplicationSpec;
  ar_digest : string; ar_created_by : string; ar_created : time }.

(** ** Rows *)

(** The application, in the caller's organization and environment. *)
Definition app_of (a : TenantAccess) (app : string) (db : DB) : option ApplicationRow :=
  match applications db !! app with Some r => if app_here a r then Some r else None | None => None end.
Definition rev_here (a : TenantAccess) (r : RevisionRow) : bool :=
  bool_decide (rv_org r = OrganizationID a) && bool_decide (rv_env r = EnvironmentID a).
Definition revision_of (a : TenantAccess) (app : string) (number : Z) (db : DB) : option RevisionRow :=
  match revisions db !! (app, number) with Some r => if rev_here a r then Some r else None | None => None end.

Definition in_scope (org env : string) (r : ApplicationRow) : bool := bool_decide (app_org r = org) && bool_decide (app_env r = env).
Definition insert_application (id : string) (r : ApplicationRow) : tx unit :=
  free ← gets (fun db => bool_decide (applications db !! id = None)
                        && (count (fun o => in_scope (app_org r) (app_env r) o && bool_decide (app_name o = app_name r)) (applications db) =? 0));
  _ ← ensure free ErrUnique;
  known ← gets (fun db => match environments db !! app_env r with Some e => bool_decide (e_org e = app_org r) | None => false end);
  _ ← ensure (known && btw 1 100 (app_latest r)) ErrConstraint;
  modify (fun db => set_applications (<[id := r]> (applications db)) db).

Definition insertApplicationRevision (a : TenantAccess) (id : string) (number : Z) (raw digest : string) (at_ : time) : tx unit :=
  free ← gets (fun db => bool_decide (revisions db !! (id, number) = None));
  _ ← ensure free ErrUnique;
  known ← gets (fun db => bool_decide (is_Some (app_of a id db)));
  _ ← ensure (known && btw 1 100 number) ErrConstraint;
  modify (fun db => set_revisions (<[(id, number) := mkRevision (OrganizationID a) (EnvironmentID a) raw digest "" (ActorID a) at_]>
                                     (revisions db)) db).

Definition with_secrets (sealed : string) (r : RevisionRow) : RevisionRow :=
  mkRevision (rv_org r) (rv_env r) (rv_spec r) (rv_digest r) sealed (rv_created_by r) (rv_created r).
Definition with_latest (n : Z) (r : ApplicationRow) : ApplicationRow :=
  mkApplication (app_org r) (app_env r) (app_name r) n (app_created_by r) (app_created r) (app_removed r).
Definition with_removed (o : option time) (r : ApplicationRow) : ApplicationRow :=
  mkApplication (app_org r) (app_env r) (app_name r) (app_latest r) (app_created_by r) (app_created r) o.

(** [UPDATE applications SET f WHERE id=? AND organization_id=? AND environment_id=? AND p]: the rows affected. *)
Definition update_application (a : TenantAccess) (id : string) (p : ApplicationRow -> bool) (f : ApplicationRow -> ApplicationRow) : tx Z :=
  row ← gets (app_of a id);
  match row with
  | Some r => if p r then _ ← modify (fun db => set_applications (<[id := f r]> (applications db)) db); mret 1 else mret 0
  | None => mret 0
  end.

(** Deleting deployments deletes their validations (ON DELETE CASCADE). *)
Definition delete_deployments (gone : DeploymentRow -> bool) (db : DB) : DB :=
  set_validations (filter (fun kv => from_option gone false (deployments db !! kv.1) = false) (validations db))
    (set_deployments (filter (fun kd => gone kd.2 = false) (deployments db)) db).

(** Deleting an application deletes its deployments with their validations, its policy with its
    runs and its migrations, and a migration to it names no destination. *)
Definition delete_application (id : string) (db : DB) : DB :=
  let policy_gone (p : PolicyRow) := bool_decide (p_app p = id) in
  let run_gone r := match runs db !! r with
                    | Some row => match policies db !! r_policy row with Some p => policy_gone p | None => false end
                    | None => false
                    end in
  let db := delete_deployments (fun d => bool_decide (d_app d = id)) db in
  set_applications (delete id (applications db))
  (set_migrations ((fun g => mkMigration (mg_org g) (mg_env g) (mg_app g)
                      (match mg_destination g with Some x => if bool_decide (x = id) then None else Some x | None => None end) (mg_status g))
                   <$> filter (fun kg => mg_app kg.2 <> id) (migrations db))
  (set_policies (filter (fun kp => policy_gone kp.2 = false) (policies db))
  (set_runs (filter (fun kr => run_gone kr.1 = false) (runs db))
  (set_validations ((fun v => mkValidation (v_id v) (v_org v) (v_env v) (v_app v) (v_instance v) (v_endpoint v)
      (match v_run v with Some r => if run_gone r then None else Some r | None => None end)
      (v_automated v) (v_is_rollback v) (v_phase v) (v_started v) (v_until v)
      (v_verdict v) (v_detail v) (v_baseline v) (v_rollback v) (v_rollback_outcome v) (v_rollback_detail v)
      (v_correlation v) (v_finished v)) <$> validations db)
  (set_deployments ((fun d => mkDeployment (d_id d) (d_org d) (d_env d) (d_app d) (d_instance d) (d_endpoint d)
      (d_state d) (d_expires d) (match d_policy_run d with Some r => if run_gone r then None else Some r | None => None end)
      (d_kind d) (d_project d) (d_revision d) (d_digest d)
      (d_mapping d) (d_plan d) (d_created_by d) (d_created d) (d_applied_by d) (d_applied d) (d_deadline d) (d_settled d)
      (d_detail d) (d_result d) (d_correlation d)
      (match d_migration d with
       | Some g => match migrations db !! g with Some row => if bool_decide (mg_app row = id) then None else Some g | None => Some g end
       | None => None end)) <$> deployments db) db))))).

Section applications.
Context (uuid_parse : string -> option string).
Context (Marshal : ApplicationSpec -> string) (Unmarshal : string -> option ApplicationSpec) (sum_hex : string -> string).
Context (MarshalValues : gmap string string -> string) (UnmarshalValues : string -> option (gmap string string)).
Context (DeriveKey : string -> string -> string) (EncryptAESGCM : string -> string -> string -> string)
  (DecryptAESGCM : string -> string -> option string).

Definition encoded (spec : ApplicationSpec) : tx (string * string) := one (encodeApplicationSpec Marshal sum_hex spec) ErrInvalid.

(** ** Values *)

Definition applicationValuesKey (key : string) (a : TenantAccess) (id : string) (number : Z) (digest : string) : string :=
  DeriveKey key ("[" +:+ join "," [json_string "kyyard/application-values/v1"; json_string (OrganizationID a);
    json_string (EnvironmentID a); json_string id; json_int number; json_string digest] +:+ "]").

Definition sealApplicationValues (a : TenantAccess) (id : string) (number : Z) (spec : ApplicationSpec) (digest : string)
    (values : gmap string string) (key nonce : string) : tx unit :=
  _ ← ensure (len key =? 32) ErrInvalid;
  _ ← ensure (validateApplicationValues spec values) ErrInvalid;
  let raw := MarshalValues values in
  _ ← ensure (len raw <=? MaxApplicationValuesBytes) ErrInvalid;
  let sealed := EncryptAESGCM nonce raw (applicationValuesKey key a id number digest) in
  modify (fun db => set_revisions
    (match revision_of a id number db with Some r => <[(id, number) := with_secrets sealed r]> (revisions db) | None => revisions db end) db).

Definition resolveApplicationValues (a : TenantAccess) (id : string) (number : Z) (key : string)
    : tx (ApplicationSpec * gmap string string * string) :=
  _ ← ensure (nonempty (EnvironmentID a) && (1 <=? number) && (number <=? MaxApplicationRevisions) && (len key =? 32)) ErrInvalid;
  row ← gets (revision_of a id number);
  r ← one row ErrNotFound;
  _ ← ensure (bool_decide (applicationSpecDigest sum_hex (rv_spec r) = rv_digest r)) ErrRevisionCorrupt;
  plaintext ← one (DecryptAESGCM (rv_secrets r) (applicationValuesKey key a id number (rv_digest r))) ErrRevisionCorrupt;
  _ ← ensure (len plaintext <=? MaxApplicationValuesBytes) ErrRevisionCorrupt;
  values ← one (UnmarshalValues plaintext) ErrRevisionCorrupt;
  spec ← one (Unmarshal (rv_spec r)) ErrRevisionCorrupt;
  _ ← ensure (validateApplicationValues spec values) ErrRevisionCorrupt;
  mret (spec, values, rv_digest r).

(** ** Creating, appending, discarding *)

Definition insertApplication (a : TenantAccess) (app : Application) (spec : ApplicationSpec)
    (values : option (gmap string string)) (key nonce : string) : tx unit :=
  _ ← ensure (nonempty (EnvironmentID a) && validTenantName (ap_name app)) ErrInvalid;
  rd ← encoded spec;
  n ← gets (fun db => count (fun r => bool_decide (app_org r = OrganizationID a)) (applications db));
  _ ← ensure (negb (n >=? MaxApplicationsPerOrganization)) ErrApplicationLimit;
  _ ← insert_application (ap_id app) (mkApplication (ap_org app) (ap_env app) (ap_name app) (ap_latest app) (ap_created_by app) (ap_created app) None);
  _ ← insertApplicationRevision a (ap_id app) 1 rd.1 rd.2 (ap_created app);
  match values with
  | Some values => sealApplicationValues a (ap_id app) 1 spec rd.2 values key nonce
  | None => mret tt
  end.

Definition createApplication (a : TenantAccess) (name : string) (spec : ApplicationSpec) (values : option (gmap string string))
    (key nonce id : string) (now : time) (fresh : string) (db : DB) : res StoreErr Application * DB :=
  let app := mkApp id (OrganizationID a) (EnvironmentID a) (TrimSpace name) 1 (ActorID a) now None in
  match withTenantTarget a ApplicationImport id (insertApplication a app spec values key nonce) now fresh db with
  | (Ok _, db') => (Ok app, db')
  | (Fail e, db') => (Fail e, db')
  end.
Definition CreateApplication a name spec := createApplication a name spec None "" "".
Definition ImportApplication a name spec (values : option (gmap string string)) := createApplication a name spec (Some (default ∅ values)).

(** The definition of one revision, checked against its digest and the rules. *)
Definition revisionSpec (a : TenantAccess) (app : string) (number : Z) : tx ApplicationSpec :=
  row ← gets (revision_of a app number);
  r ← one row ErrNotFound;
  _ ← ensure (bool_decide (applicationSpecDigest sum_hex (rv_spec r) = rv_digest r)) ErrRevisionCorrupt;
  spec ← one (Unmarshal (rv_spec r)) ErrRevisionCorrupt;
  _ ← ensure (ValidateApplicationSpec Marshal sum_hex spec) ErrRevisionCorrupt;
  mret spec.

Definition appendApplicationRevisionTx (a : TenantAccess) (id : string) (expected : Z) (spec : ApplicationSpec)
    (values : option (gmap string string)) (key nonce : string) (now : time) : tx unit :=
  _ ← ensure (nonempty (EnvironmentID a) && (1 <=? expected) && (expected <=? MaxApplicationRevisions)) ErrInvalid;
  _ ← encoded spec;
  changed ← update_application a id (fun r => (app_latest r =? expected) && (app_latest r <? MaxApplicationRevisions))
              (fun r => with_latest (app_latest r + 1) r);
  if changed =? 0 then
    row ← gets (app_of a id);
    r ← one row ErrNotFound;
    throw (if app_latest r >=? MaxApplicationRevisions then ErrApplicationLimit else ErrRevisionConflict)
  else
    spec ← (match sp_kubernetes spec with
            | Some _ => mret spec
            | None => previous ← revisionSpec a id expected; mret (with_extension spec (carried (sp_kubernetes previous) spec))
            end);
    rd ← encoded spec;
    _ ← insertApplicationRevision a id (expected + 1) rd.1 rd.2 now;
    match values with
    | Some values => sealApplicationValues a id (expected + 1) spec rd.2 values key nonce
    | None => mret tt
    end.

Definition appendApplicationRevision (a : TenantAccess) (id : string) (expected : Z) (spec : ApplicationSpec)
    (values : option (gmap string string)) (key nonce : string) (now : time) (fresh : string) (db : DB) : res StoreErr Z * DB :=
  match uuid_parse id with
  | None => (Fail ErrInvalid, db)
  | Some id =>
      match withTenantTarget a ApplicationEdit (id +:+ "/revisions/" +:+ Itoa (expected + 1))
              (appendApplicationRevisionTx a id expected spec values key nonce now) now fresh db with
      | (Ok _, db') => (Ok (expected + 1), db')
      | (Fail e, db') => (Fail e, db')
      end
  end.
Definition AppendApplicationRevision a id expected spec := appendApplicationRevision a id expected spec None "" "".
Definition ReplaceApplicationRevision a id expected spec (values : option (gmap string string)) :=
  appendApplicationRevision a id expected spec (Some (default ∅ values)).

Definition discard_body (a : TenantAccess) (id : string) (expected : Z) : tx unit :=
  _ ← ensure (nonempty (EnvironmentID a) && (1 <=? expected) && (expected <=? MaxApplicationRevisions)) ErrInvalid;
  row ← gets (app_of a id);
  r ← one row ErrNotFound;
  _ ← ensure (app_latest r =? expected) ErrRevisionConflict;
  adopted ← gets (fun db => count (fun i => bool_decide (i_app i = id)) (instances db));
  _ ← ensure (adopted =? 0) ErrApplicationAdopted;
  _ ← modify (fun db => set_revisions (filter (fun kr => ~ (kr.1.1 = id /\ rev_here a kr.2 = true)) (revisions db)) db);
  modify (delete_application id).
Definition DiscardApplication (a : TenantAccess) (id : string) (expected : Z) (now : time) (fresh : string) (db : DB) : res StoreErr unit * DB :=
  match uuid_parse id with
  | None => (Fail ErrInvalid, db)
  | Some id => withTenantTarget a ApplicationDestroy id (discard_body a id expected) now fresh db
  end.

(** ** Forgetting removed applications (samples.go) *)

Definition PruneBatch : Z := 5000.
(** Removed before [cutoff], and not adopted since. *)
Definition removed_before (cutoff : time) (db : DB) (ka : string * ApplicationRow) : bool :=
  match app_removed ka.2 with Some t => t <? cutoff | None => false end
  && (count (fun i => bool_decide (i_app i = ka.1)) (instances db) =? 0).
(** [ORDER BY a.id LIMIT PruneBatch]. *)
Definition removed_applications (cutoff : time) (db : DB) : list string :=
  take (Z.to_nat PruneBatch) (map fst (merge_sort by_first (List.filter (removed_before cutoff db) (map_to_list (applications db))))).
Definition prune_application (id : string) : tx unit :=
  _ ← modify (delete_deployments (fun d => bool_decide (d_app d = id)));
  _ ← modify (fun db => set_revisions (filter (fun kr => kr.1.1 <> id) (revisions db)) db);
  modify (delete_application id).
Definition pruneRemovedApplications (cutoff : time) : tx Z :=
  ids ← gets (removed_applications cutoff);
  _ ← tx_iter prune_application ids;
  mret (llen ids).

(** ** Reading *)

Definition ListApplications (a : TenantAccess) (offset limit : Z) : time -> string -> DB -> res StoreErr (list Application) * DB :=
  readTenant a ApplicationRead (
    _ ← ensure (nonempty (EnvironmentID a) && (0 <=? offset) && btw 1 200 limit) ErrInvalid;
    rows ← gets (fun db => List.filter (fun kr => app_here a kr.2) (map_to_list (applications db)));
    let apps := map (fun kr => mkApp kr.1 (app_org kr.2) (app_env kr.2) (app_name kr.2) (app_latest kr.2) (app_created_by kr.2)
                                 (app_created kr.2) (app_removed kr.2)) rows in
    let ordered := merge_sort (fun x y => String.ltb (ap_name x) (ap_name y) = true \/ (ap_name x = ap_name y /\ String.leb (ap_id x) (ap_id y) = true)) apps in
    mret (take (Z.to_nat limit) (drop (Z.to_nat offset) ordered))).

Definition ReadApplicationRevision (a : TenantAccess) (id : string) (number : Z)
    : time -> string -> DB -> res StoreErr ApplicationRevision * DB :=
  readTenant a ApplicationRead (
    _ ← ensure (nonempty (EnvironmentID a) && (1 <=? number)) ErrInvalid;
    row ← gets (revision_of a id number);
    r ← one row ErrNotFound;
    _ ← ensure (bool_decide (applicationSpecDigest sum_hex (rv_spec r) = rv_digest r)) ErrRevisionCorrupt;
    spec ← one (Unmarshal (rv_spec r)) ErrJSON;
    mret (mkRev id (rv_org r) (rv_env r) number spec (rv_digest r) (rv_created_by r) (rv_created r))).

Definition ResolveApplicationSecrets (a : TenantAccess) (id : string) (number : Z) (key : string) (now : time) (fresh : string) (db : DB)
    : res StoreErr (gmap string string) * DB :=
  match uuid_parse id with
  | None => (Fail ErrInvalid, db)
  | Some id => withTenantTarget a SecretReveal (id +:+ "/revisions/" +:+ Itoa number)
                 (svd ← resolveApplicationValues a id number key; mret svd.1.2) now fresh db
  end.

(** ** Fixed service addresses *)

(** The application's instance in the caller's scope. *)
Definition inst_here (a : TenantAccess) (app : string) (i : InstanceRow) : bool :=
  bool_decide (i_app i = app) && bool_decide (i_org i = OrganizationID a) && bool_decide (i_env i = EnvironmentID a).
Definition instance_of (a : TenantAccess) (app : string) (db : DB) : option (string * InstanceRow) :=
  List.find (fun ki => inst_here a app ki.2) (map_to_list (instances db)).

Definition with_ips (spec : ApplicationSpec) (ips : gmap string string) : ApplicationSpec :=
  with_extension spec (Some (mkExtension (match sp_kubernetes spec with Some k => kx_volumes k | None => ∅ end) ips)).

Definition service_ips_body (a : TenantAccess) (id : string) (expected : Z) (ips : gmap string string) (key nonce : string) (now : time) : tx unit :=
  _ ← ensure ((1 <=? expected) && (expected <? MaxApplicationRevisions) && (msize ips <=? MaxDeploymentServices)) ErrInvalid;
  _ ← lockApplication a id;
  runtime ← gets (fun db => match instance_of a id db with
                            | Some ki => ep_runtime <$> endpoints db !! i_endpoint ki.2
                            | None => None
                            end);
  rt ← one runtime ErrMappingRequired;
  _ ← ensure (bool_decide (rt = RuntimeKubernetes)) ErrRuntimeUnsupported;
  svd ← resolveApplicationValues a id expected key;
  appendApplicationRevisionTx a id expected (with_ips svd.1.1 ips) (Some svd.1.2) key nonce now.
Definition SetApplicationServiceIPs (a : TenantAccess) (id : string) (expected : Z) (ips : gmap string string)
    (key nonce : string) (now : time) (fresh : string) (db : DB) : res StoreErr Z * DB :=
  match uuid_parse id with
  | None => (Fail ErrInvalid, db)
  | Some id =>
      match withTenantTarget a ApplicationEdit (id +:+ "/networking/revisions/" +:+ Itoa (expected + 1))
              (service_ips_body a id expected ips key nonce now) now fresh db with
      | (Ok _, db') => (Ok (expected + 1), db')
      | (Fail e, db') => (Fail e, db')
      end
  end.
End applications.

Lemma reads_resolveApplicationValues Unmarshal sum_hex UnmarshalValues DeriveKey DecryptAESGCM a id number key :
  Reads (resolveApplicationValues Unmarshal sum_hex UnmarshalValues DeriveKey DecryptAESGCM a id number key).
Proof. unfold resolveApplicationValues. keeps. Qed.
#[export] Hint Resolve reads_resolveApplicationValues : keeps.

(** ** What the operations do to the two tables *)

Lemma update_application_ok a id p f db n db' :
  update_application a id p f db = Ok (n, db') ->
  (n = 0 /\ db' = db) \/
  (n = 1 /\ exists r, app_of a id db = Some r /\ p r = true /\ db' = set_applications (<[id := f r]> (applications db)) db).
Proof.
  unfold update_application. intros H. apply bind_ok in H as (row & d & Hg & H). apply gets_ok in Hg as [= -> ->].
  destruct (app_of a id db) as [r|] eqn:E; [|tx_inv H; by left]. destruct (p r) eqn:Hp; tx_inv H; [right|by left]. split; [done|]. eauto.
Qed.

Lemma app_of_some a id db r : app_of a id db = Some r <-> applications db !! id = Some r /\ app_org r = OrganizationID a /\ app_env r = EnvironmentID a.
Proof.
  unfold app_of, app_here. destruct (applications db !! id) as [r'|]; [|naive_solver].
  destruct (bool_decide (app_org r' = _)) eqn:E1, (bool_decide (app_env r' = _)) eqn:E2; simpl; gobool; naive_solver.
Qed.
Lemma revision_of_some a id n db v :
  revision_of a id n db = Some v <-> revisions db !! (id, n) = Some v /\ rv_org v = OrganizationID a /\ rv_env v = EnvironmentID a.
Proof.
  unfold revision_of, rev_here. destruct (revisions db !! (id, n)) as [r'|]; [|naive_solver].
  destruct (bool_decide (rv_org r' = _)) eqn:E1, (bool_decide (rv_env r' = _)) eqn:E2; simpl; gobool; naive_solver.
Qed.

Section history.
Context (Marshal : ApplicationSpec -> string) (Unmarshal : string -> option ApplicationSpec) (sum_hex : string -> string).
Context (MarshalValues : gmap string string -> string) (UnmarshalValues : string -> option (gmap string string)).
Context (DeriveKey : string -> string -> string) (EncryptAESGCM : string -> string -> string -> string)
  (DecryptAESGCM : string -> string -> option string).
Local Notation encode := (encodeApplicationSpec Marshal sum_hex).

(** The history of every application is exactly 1 .. its head, in its scope, and every stored
    text is the encoding of a valid definition beside its digest. *)
Record AppsInv (db : DB) : Prop := {
  ai_head : forall id r, applications db !! id = Some r ->
    1 <= app_latest r <= MaxApplicationRevisions /\ forall n, is_Some (revisions db !! (id, n)) <-> 1 <= n <= app_latest r;
  ai_rev : forall id n v, revisions db !! (id, n) = Some v ->
    (exists r, applications db !! id = Some r /\ rv_org v = app_org r /\ rv_env v = app_env r) /\
    exists spec, encode spec = Some (rv_spec v, rv_digest v) }.

(** Only sealed values may differ. *)
Definition same_text (v w : RevisionRow) : Prop := w = with_secrets (rv_secrets w) v.
(** Every revision is kept as it was, or its application is gone. *)
Definition history_kept (db db' : DB) : Prop :=
  forall id n v, revisions db !! (id, n) = Some v -> revisions db' !! (id, n) = Some v \/ applications db' !! id = None.

Lemma seal_ok a id n spec digest values key nonce db u db' :
  sealApplicationValues MarshalValues DeriveKey EncryptAESGCM a id n spec digest values key nonce db = Ok (u, db') ->
  validateApplicationValues spec values = true /\ len key = 32 /\ len (MarshalValues values) <= MaxApplicationValuesBytes /\
  applications db' = applications db /\
  (forall v, revision_of a id n db = Some v -> revisions db' =
     <[(id, n) := with_secrets (EncryptAESGCM nonce (MarshalValues values) (applicationValuesKey DeriveKey key a id n digest)) v]> (revisions db)).
Proof.
  unfold sealApplicationValues. intros H. tx_inv H. simpl. split_and!; [done|lia|lia|done|]. by intros v ->.
Qed.

Lemma insert_revision_ok a id n raw digest at_ db u db' :
  insertApplicationRevision a id n raw digest at_ db = Ok (u, db') ->
  revisions db !! (id, n) = None /\ (exists r, app_of a id db = Some r) /\ 1 <= n <= 100 /\
  db' = set_revisions (<[(id, n) := mkRevision (OrganizationID a) (EnvironmentID a) raw digest "" (ActorID a) at_]> (revisions db)) db.
Proof. unfold insertApplicationRevision. intros H. tx_inv H. unfold btw in *. gobool. split_and!; try done; lia. Qed.

(** Adding revision [n] to an application whose history ends just before it. *)
Lemma AppsInv_append db id r n v (apps : gmap string ApplicationRow) :
  AppsInv db -> 1 <= n <= MaxApplicationRevisions ->
  (forall i, i <> id -> apps !! i = applications db !! i) -> apps !! id = Some r -> app_latest r = n ->
  (forall m, is_Some (revisions db !! (id, m)) <-> 1 <= m < n) ->
  (forall m w, revisions db !! (id, m) = Some w -> rv_org w = app_org r /\ rv_env w = app_env r) ->
  rv_org v = app_org r -> rv_env v = app_env r -> (exists spec, encode spec = Some (rv_spec v, rv_digest v)) ->
  forall db', applications db' = apps -> revisions db' = <[(id, n) := v]> (revisions db) -> AppsInv db' /\ history_kept db db'.
Proof.
  intros [Hh Hr] Hn Hother Hid Hlast Hspan Hscope Ho He Henc db' Ea Er. split; [split|].
  - intros i x. rewrite Ea. destruct (decide (i = id)) as [->|Hne].
    + rewrite Hid. intros [= <-]. split; [lia|]. intros m. rewrite Er. destruct (decide (m = n)) as [->|Hm].
      * rewrite lookup_insert_eq. split; [lia|by eexists].
      * rewrite lookup_insert_ne by congruence. rewrite Hspan. lia.
    + rewrite Hother by done. intros Hx. destruct (Hh _ _ Hx) as [? Hs]. split; [done|]. intros m. rewrite Er, lookup_insert_ne by congruence. apply Hs.
  - intros i m w. rewrite Er, Ea. rewrite lookup_insert_Some. intros [[[= <- <-] <-]|[Hne Hw]]; [split; [eauto|done]|].
    destruct (Hr _ _ _ Hw) as [(x & Hx & ? & ?) Hs]. split; [|done]. destruct (decide (i = id)) as [->|Hi].
    + exists r. split; [done|]. by apply (Hscope m).
    + exists x. rewrite Hother by done. done.
  - intros i m w Hw. left. rewrite Er, lookup_insert_ne; [done|]. intros [= -> ->].
    assert (is_Some (revisions db !! (i, m))) as H%Hspan by eauto. lia.
Qed.

(** A revision and its values, as both writers end. *)
Lemma store_revision_ok a id n spec (rd : string * string) values key nonce at_ db u db' :
  (_ ← insertApplicationRevision a id n rd.1 rd.2 at_;
   match values with
   | Some values => sealApplicationValues MarshalValues DeriveKey EncryptAESGCM a id n spec rd.2 values key nonce
   | None => mret tt
   end) db = Ok (u, db') ->
  revisions db !! (id, n) = None /\ (exists r, app_of a id db = Some r) /\ 1 <= n <= 100 /\ applications db' = applications db /\
  exists sealed, revisions db' = <[(id, n) := mkRevision (OrganizationID a) (EnvironmentID a) rd.1 rd.2 sealed (ActorID a) at_]> (revisions db) /\
    forall vs, values = Some vs -> validateApplicationValues spec vs = true /\ len key = 32 /\ len (MarshalValues vs) <= MaxApplicationValuesBytes /\
      sealed = EncryptAESGCM nonce (MarshalValues vs) (applicationValuesKey DeriveKey key a id n rd.2).
Proof.
  intros ([] & d & (Hfree & Happ & Hn & ->)%insert_revision_ok & H)%bind_ok. destruct values as [vs|].
  - apply seal_ok in H as (? & ? & ? & Ha & Hrev). split_and!; try done; try lia.
    eexists. split; [|intros ? [= <-]; split_and!; [done..|reflexivity]].
    rewrite (Hrev (mkRevision (OrganizationID a) (EnvironmentID a) rd.1 rd.2 "" (ActorID a) at_)).
    + simpl. by rewrite insert_insert_eq.
    + apply revision_of_some. simpl. by rewrite lookup_insert_eq.
  - apply ret_ok in H as [= -> ->]. split_and!; try done; try lia. eexists. split; [reflexivity|done].
Qed.

Lemma insert_application_ok id r db u db' :
  insert_application id r db = Ok (u, db') ->
  applications db !! id = None /\ 1 <= app_latest r <= 100 /\ db' = set_applications (<[id := r]> (applications db)) db.
Proof. unfold insert_application, btw. intros H. tx_inv H. gobool. split_and!; try done; lia. Qed.

Lemma no_orphans db id : AppsInv db -> applications db !! id = None -> forall n, revisions db !! (id, n) = None.
Proof.
  intros [_ Hr] Hn n. destruct (revisions db !! (id, n)) as [v|] eqn:E; [|done]. destruct (Hr _ _ _ E) as [(r & Hr' & _) _]. congruence.
Qed.

Lemma insertApplication_history a app spec values key nonce db u db' :
  ap_org app = OrganizationID a -> ap_env app = EnvironmentID a -> ap_latest app = 1 ->
  insertApplication Marshal sum_hex MarshalValues DeriveKey EncryptAESGCM a app spec values key nonce db = Ok (u, db') ->
  AppsInv db -> AppsInv db' /\ history_kept db db'.
Proof.
  intros Ho He Hl H Hinv. unfold insertApplication, encoded in H. apply bind_ok in H as ([] & ? & Hz & H). tx_inv Hz.
  apply bind_ok in H as (rd & ? & Hz & H). tx_inv Hz. apply bind_ok in H as (n & ? & Hz & H). tx_inv Hz.
  apply bind_ok in H as ([] & ? & Hz & H). tx_inv Hz. apply bind_ok in H as ([] & ? & (Hnone & _ & ->)%insert_application_ok & H).
  apply store_revision_ok in H as (_ & _ & _ & Ha & sealed & Er & _). simpl in *.
  eapply (AppsInv_append _ (ap_id app) (mkApplication (ap_org app) (ap_env app) (ap_name app) (ap_latest app) (ap_created_by app) (ap_created app) None)); [done|split; [reflexivity|done]| | | | | | | | |exact Ha|exact Er]; simpl; try done.
  - intros i Hi. by rewrite lookup_insert_ne.
  - by rewrite lookup_insert_eq.
  - intros m. rewrite (no_orphans _ _ Hinv Hnone). split; [by intros [? ?]|lia].
  - intros m w Hw. by rewrite (no_orphans _ _ Hinv Hnone) in Hw.
  - exists spec. rewrite Hrow. by destruct row.
Qed.

Lemma append_ok a id expected spec values key nonce now db u db' :
  appendApplicationRevisionTx Marshal Unmarshal sum_hex MarshalValues DeriveKey EncryptAESGCM a id expected spec values key nonce now db = Ok (u, db') ->
  1 <= expected < MaxApplicationRevisions /\ exists r rd spec', app_of a id db = Some r /\ app_latest r = expected /\
    encode spec' = Some rd /\ (spec' = spec \/ exists k, spec' = with_extension spec k) /\
    revisions db !! (id, expected + 1) = None /\ applications db' = <[id := with_latest (expected + 1) r]> (applications db) /\
    exists sealed, revisions db' = <[(id, expected + 1) := mkRevision (OrganizationID a) (EnvironmentID a) rd.1 rd.2 sealed (ActorID a) now]> (revisions db) /\
    forall vs, values = Some vs -> validateApplicationValues spec' vs = true /\ len key = 32 /\ len (MarshalValues vs) <= MaxApplicationValuesBytes /\
      sealed = EncryptAESGCM nonce (MarshalValues vs) (applicationValuesKey DeriveKey key a id (expected + 1) rd.2).
Proof.
  unfold appendApplicationRevisionTx. intros H. apply bind_ok in H as ([] & ? & Hz & H). tx_inv Hz. gobool.
  apply bind_ok in H as (rd0 & ? & Hz & H). unfold encoded in Hz. tx_inv Hz.
  apply bind_ok in H as (n & ? & [[-> ->]|(-> & r & Happ & Hp & ->)]%update_application_ok & H).
  { simpl in H. tx_inv H. }
  simpl in H. gobool. rewrite Z.eqb_eq in *. rewrite Z.ltb_lt in *. split; [lia|].
  apply bind_ok in H as (spec' & d & Hs & H).
  assert (d = set_applications (<[id := with_latest (app_latest r + 1) r]> (applications db)) db /\
          (spec' = spec \/ exists k, spec' = with_extension spec k)) as [-> Hspec].
  { destruct (sp_kubernetes spec); [tx_inv Hs; auto|]. unfold revisionSpec in Hs. tx_inv Hs. eauto. }
  apply bind_ok in H as (rd & ? & Hz & H). unfold encoded in Hz. tx_inv Hz.
  apply store_revision_ok in H as (Hfree & _ & _ & Ha & sealed & Er & Hv). simpl in *.
  exists r, row0, spec'. split_and!; eauto.
Qed.

Lemma append_history a id expected spec values key nonce now db u db' :
  appendApplicationRevisionTx Marshal Unmarshal sum_hex MarshalValues DeriveKey EncryptAESGCM a id expected spec values key nonce now db = Ok (u, db') ->
  AppsInv db -> AppsInv db' /\ history_kept db db'.
Proof.
  intros (Hn & r & rd & spec' & [Hid [Ho He]]%app_of_some & Hl & Henc & _ & _ & Ea & sealed & Er & _)%append_ok Hinv.
  destruct (ai_head _ Hinv _ _ Hid) as [_ Hspan].
  eapply (AppsInv_append db id (with_latest (expected + 1) r) (expected + 1)); [done|lia| | | | | | | | |exact Ea|exact Er]; simpl; try done.
  - intros i Hi. by rewrite lookup_insert_ne.
  - by rewrite lookup_insert_eq.
  - intros m. rewrite Hspan. lia.
  - intros m w Hw. destruct (ai_rev _ Hinv _ _ _ Hw) as [(x & Hx & ? & ?) _]. naive_solver.
  - exists spec'. rewrite Henc. by destruct rd.
Qed.

Lemma discard_history a id expected db u db' :
  discard_body a id expected db = Ok (u, db') -> AppsInv db -> AppsInv db' /\ history_kept db db'.
Proof.
  unfold discard_body. intros H Hinv. tx_inv H. apply app_of_some in Hrow as (Hid & Ho & He). simpl.
  assert (Hgone : forall n v, revisions db !! (id, n) = Some v -> rev_here a v = true).
  { intros n v Hv. destruct (ai_rev _ Hinv _ _ _ Hv) as [(x & Hx & Eo & Ee) _]. unfold rev_here.
    assert (x = row) as -> by congruence. by rewrite !bool_decide_eq_true_2 by congruence. }
  assert (Hrev : forall i n, filter (fun kr : string * Z * RevisionRow => ~ (kr.1.1 = id /\ rev_here a kr.2 = true)) (revisions db) !! (i, n) =
                 if decide (i = id) then None else revisions db !! (i, n)).
  { intros i n. case_decide as E; [subst i|].
    - apply map_lookup_filter_None. right. intros v Hv Hn. apply Hn. split; [done|]. by eapply Hgone.
    - destruct (revisions db !! (i, n)) as [v|] eqn:Ev; [|apply map_lookup_filter_None; by left].
      apply map_lookup_filter_Some. split; [done|]. simpl. tauto. }
  split; [split|]; unfold delete_application, delete_deployments; simpl.
  - intros i r. rewrite lookup_delete_Some. intros [Hi Hr]. destruct (ai_head _ Hinv _ _ Hr) as [? Hs]. split; [done|].
    intros n. rewrite Hrev, decide_False by done. apply Hs.
  - intros i n v. rewrite Hrev. case_decide; [done|]. intros Hv. destruct (ai_rev _ Hinv _ _ _ Hv) as [(x & Hx & Hxy) Hs]. split; [|done].
    exists x. rewrite lookup_delete_ne by done. done.
  - intros i n v Hv. rewrite Hrev. simpl. destruct (decide (i = id)) as [->|]; [right|by left]. by rewrite lookup_delete_eq.
Qed.

Lemma prune_application_history id db u db' :
  prune_application id db = Ok (u, db') -> AppsInv db ->
  AppsInv db' /\ forall i, (i = id -> applications db' !! i = None) /\
    (i <> id -> applications db' !! i = applications db !! i /\ forall n, revisions db' !! (i, n) = revisions db !! (i, n)).
Proof.
  unfold prune_application. intros H Hinv. tx_inv H. unfold delete_application, delete_deployments; simpl.
  assert (Hrev : forall i n, filter (fun kr : string * Z * RevisionRow => kr.1.1 <> id) (revisions db) !! (i, n) = if decide (i = id) then None else revisions db !! (i, n)).
  { intros i n. rewrite map_lookup_filter. simpl. destruct (revisions db !! (i, n)); simpl; repeat case_guard; by repeat case_decide. }
  split; [split|]; simpl.
  - intros i r. rewrite lookup_delete_Some. intros [Hi Hr]. destruct (ai_head _ Hinv _ _ Hr) as [? Hs]. split; [done|].
    intros n. rewrite Hrev, decide_False by done. apply Hs.
  - intros i n v. rewrite Hrev. case_decide; [done|]. intros Hv. destruct (ai_rev _ Hinv _ _ _ Hv) as [(x & Hx & Hxy) Hs]. split; [|done].
    exists x. rewrite lookup_delete_ne by done. done.
  - intros i. split; [intros ->; by rewrite lookup_delete_eq|]. intros Hi. split; [by rewrite lookup_delete_ne|]. intros n. by rewrite Hrev, decide_False.
Qed.
Lemma prune_applications_history ids db u db' :
  tx_iter prune_application ids db = Ok (u, db') -> AppsInv db -> AppsInv db' /\
  forall i, (i ∈ ids -> applications db' !! i = None) /\
    (i ∉ ids -> applications db' !! i = applications db !! i /\ forall n, revisions db' !! (i, n) = revisions db !! (i, n)).
Proof.
  revert db. induction ids as [|id ids IH]; intros db H Hinv.
  - apply ret_ok in H as [= -> ->]. split; [done|]. intros i. split; [by intros ?%elem_of_nil|done].
  - simpl in H. apply bind_ok in H as ([] & d & Hid & H). destruct (prune_application_history _ _ _ _ Hid Hinv) as [Hd Hone].
    destruct (IH d H Hd) as [Hd' Hrest]. split; [done|]. intros i. destruct (Hone i) as [Hi Hn], (Hrest i) as [Hr Hk].
    rewrite elem_of_cons. destruct (decide (i ∈ ids)) as [Hin|Hin]; [split; [auto|tauto]|]. destruct (Hk Hin) as [Ea Er]. split.
    + intros [->|?]; [|done]. rewrite Ea. by apply Hi.
    + intros Hne. destruct Hn as [Ea' Er']; [tauto|]. split; [by rewrite Ea|]. intros n. by rewrite Er.
Qed.
Lemma prune_history_kept cutoff db : AppsInv db ->
  AppsInv (commit (pruneRemovedApplications cutoff) db).2 /\ history_kept db (commit (pruneRemovedApplications cutoff) db).2.
Proof.
  intros Hinv. unfold commit. destruct (pruneRemovedApplications cutoff db) as [[n db']|e] eqn:E; [|split; [done|by left]]. simpl.
  unfold pruneRemovedApplications in E. apply bind_ok in E as (ids & ? & Hz & E). apply gets_ok in Hz as [= -> ->].
  apply bind_ok in E as ([] & d & Hiter & E). apply ret_ok in E as [= -> ->]. destruct (prune_applications_history _ _ _ _ Hiter Hinv) as [Hd Hk].
  split; [done|]. intros i m v Hv. destruct (Hk i) as [Hgone Hkept]. destruct (decide (i ∈ removed_applications cutoff db)) as [Hin|Hin]; [right; auto|].
  left. destruct (Hkept Hin) as [_ ->]. done.
Qed.
End history.

(** ** Every step of the desired state *)

Section steps.
Context (uuid_parse : string -> option string).
Context (Marshal : ApplicationSpec -> string) (Unmarshal : string -> option ApplicationSpec) (sum_hex : string -> string).
Context (MarshalValues : gmap string string -> string) (UnmarshalValues : string -> option (gmap string string)).
Context (DeriveKey : string -> string -> string) (EncryptAESGCM : string -> string -> string -> string)
  (DecryptAESGCM : string -> string -> option string).

(** The operations that write applications and revisions, whoever calls them and whatever the
    clock and the fresh identifiers say; each one committed transaction. *)
Inductive app_step (db : DB) : DB -> Prop :=
| as_create a name spec values key nonce id now fresh :
    app_step db (createApplication Marshal sum_hex MarshalValues DeriveKey EncryptAESGCM a name spec values key nonce id now fresh db).2
| as_append a id expected spec values key nonce now fresh :
    app_step db (appendApplicationRevision uuid_parse Marshal Unmarshal sum_hex MarshalValues DeriveKey EncryptAESGCM
                   a id expected spec values key nonce now fresh db).2
| as_service_ips a id expected ips key nonce now fresh :
    app_step db (SetApplicationServiceIPs uuid_parse Marshal Unmarshal sum_hex MarshalValues UnmarshalValues DeriveKey EncryptAESGCM
                   DecryptAESGCM a id expected ips key nonce now fresh db).2
| as_discard a id expected now fresh : app_step db (DiscardApplication uuid_parse a id expected now fresh db).2
| as_prune cutoff : app_step db (commit (pruneRemovedApplications cutoff) db).2.

Lemma AppsInv_ext db db' : applications db' = applications db -> revisions db' = revisions db ->
  AppsInv Marshal sum_hex db -> AppsInv Marshal sum_hex db'.
Proof. intros Ea Er [Hh Hr]. split; intros; rewrite ?Ea, ?Er in *; eauto. Qed.

Lemma resolve_ok a id n key db r db' :
  resolveApplicationValues Unmarshal sum_hex UnmarshalValues DeriveKey DecryptAESGCM a id n key db = Ok (r, db') -> db' = db.
Proof. unfold resolveApplicationValues. intros H. tx_inv H. done. Qed.

Lemma service_ips_ok a id expected ips key nonce now db u db' :
  service_ips_body Marshal Unmarshal sum_hex MarshalValues UnmarshalValues DeriveKey EncryptAESGCM DecryptAESGCM
    a id expected ips key nonce now db = Ok (u, db') ->
  exists spec vs, appendApplicationRevisionTx Marshal Unmarshal sum_hex MarshalValues DeriveKey EncryptAESGCM
    a id expected (with_ips spec ips) (Some vs) key nonce now db = Ok (u, db').
Proof.
  unfold service_ips_body. intros H. apply bind_ok in H as (? & ? & Hz & H). tx_inv Hz.
  apply bind_ok in H as (? & ? & ->%lockApplication_db & H).
  do 3 (apply bind_ok in H as (? & ? & Hz & H); tx_inv Hz).
  apply bind_ok in H as ([[spec vs] digest] & ? & ->%resolve_ok & H). eauto.
Qed.

Lemma app_step_keeps db db' : app_step db db' -> AppsInv Marshal sum_hex db -> AppsInv Marshal sum_hex db' /\ history_kept db db'.
Proof.
  intros Hstep Hinv.
  assert (Hkeep : forall (A : Type) a action target (op : tx A) now fresh,
    (forall x db1, op db = Ok (x, db1) -> AppsInv Marshal sum_hex db1 /\ history_kept db db1) ->
    AppsInv Marshal sum_hex (withTenantTarget a action target op now fresh db).2 /\
    history_kept db (withTenantTarget a action target op now fresh db).2).
  { intros A a action target op now fresh Hop.
    apply (withTenantTarget_keeps (fun d => AppsInv Marshal sum_hex d /\ history_kept db d)); [|split; [done|by left]|exact Hop].
    intros rec d [Hd Hk]. split; [by apply (AppsInv_ext d)|done]. }
  destruct Hstep as [a name spec values key nonce id now fresh|a id expected spec values key nonce now fresh|
                     a id expected ips key nonce now fresh|a id expected now fresh|cutoff].
  - unfold createApplication. rewrite (surjective_pairing (withTenantTarget _ _ _ _ _ _ _)). destruct (withTenantTarget _ _ _ _ _ _ _).1.
    all: apply Hkeep; intros x db1 H; by eapply insertApplication_history in H.
  - unfold appendApplicationRevision. destruct (uuid_parse id) as [u|]; [|split; [done|by left]].
    rewrite (surjective_pairing (withTenantTarget _ _ _ _ _ _ _)). destruct (withTenantTarget _ _ _ _ _ _ _).1.
    all: apply Hkeep; intros x db1 H; by eapply append_history.
  - unfold SetApplicationServiceIPs. destruct (uuid_parse id) as [u|]; [|split; [done|by left]].
    rewrite (surjective_pairing (withTenantTarget _ _ _ _ _ _ _)). destruct (withTenantTarget _ _ _ _ _ _ _).1.
    all: apply Hkeep; intros x db1 (spec & vs & H)%service_ips_ok; by eapply append_history in H.
  - unfold DiscardApplication. destruct (uuid_parse id) as [u|]; [|split; [done|by left]].
    apply Hkeep. intros x db1 H. by eapply discard_history.
  - by apply prune_history_kept.
Qed.
End steps.


(** A definition's encoding for the demonstrations: its services' names and ports. *)
Definition demo_marshal (spec : ApplicationSpec) : string :=
  join "," (map (fun s => as_name s +:+ ":" +:+ as_image s) (sp_services spec)).


(** ** What is imported is what an apply resolves *)

Section roundtrip.
Context (uuid_parse : string -> option string).
Context (Marshal : ApplicationSpec -> string) (Unmarshal : string -> option ApplicationSpec) (sum_hex : string -> string).
Context (MarshalValues : gmap string string -> string) (UnmarshalValues : string -> option (gmap string string)).
Context (DeriveKey : string -> string -> string) (EncryptAESGCM : string -> string -> string -> string)
  (DecryptAESGCM : string -> string -> option string).
(** encoding/json reads back what it wrote, for valid definitions and for values of valid UTF-8;
    AES-GCM opens what it sealed under the same key. *)
Hypothesis spec_json : forall spec, spec_ok spec = true -> Unmarshal (Marshal spec) = Some spec.
Hypothesis values_json : forall vs : gmap string string, (forall k v, vs !! k = Some v -> ValidString v = true) ->
  UnmarshalValues (MarshalValues vs) = Some vs.
Hypothesis gcm_opens : forall nonce plain key, DecryptAESGCM (EncryptAESGCM nonce plain key) key = Some plain.

Lemma encode_some spec rd : encodeApplicationSpec Marshal sum_hex spec = Some rd ->
  spec_ok spec = true /\ rd = (Marshal spec, applicationSpecDigest sum_hex (Marshal spec)).
Proof. unfold encodeApplicationSpec. destruct (spec_ok spec); [|done]. simpl. destruct (_ >? _); [done|]. by intros [= <-]. Qed.

Lemma values_loop_valid refs total l : values_loop refs total l = true -> forall k v, (k, v) ∈ l -> ValidString v = true.
Proof.
  revert total; induction l as [|[ref value] l IH]; intros total; simpl; [set_solver|].
  destruct (_ || _) eqn:E; [done|]. intros H k v [[= -> ->]|Hin]%elem_of_cons; [|by eapply IH].
  rewrite !orb_false_iff in E. destruct E as [[[_ E] _] _]. by apply negb_false_iff in E.
Qed.

(** A stored revision with the sealed values of a definition resolves to both. *)
Lemma stored_resolves a id n key spec rd vs nonce r db :
  encodeApplicationSpec Marshal sum_hex spec = Some rd -> validateApplicationValues spec vs = true -> len key = 32 ->
  len (MarshalValues vs) <= MaxApplicationValuesBytes -> nonempty (EnvironmentID a) = true -> 1 <= n <= MaxApplicationRevisions ->
  revision_of a id n db = Some r -> rv_spec r = rd.1 -> rv_digest r = rd.2 ->
  rv_secrets r = EncryptAESGCM nonce (MarshalValues vs) (applicationValuesKey DeriveKey key a id n rd.2) ->
  resolveApplicationValues Unmarshal sum_hex UnmarshalValues DeriveKey DecryptAESGCM a id n key db = Ok (spec, vs, rd.2, db).
Proof.
  intros (Hok & Hrd)%encode_some Hvs Hkey Hlen Henv Hn Hr Hs Hd Hsec.
  assert (Hvalid : forall k v, vs !! k = Some v -> ValidString v = true).
  { intros k v Hkv. unfold validateApplicationValues in Hvs. apply andb_prop in Hvs as [_ Hloop].
    eapply values_loop_valid; [exact Hloop|by apply elem_of_map_to_list]. }
  unfold resolveApplicationValues, mbind, tx_bind, ensure, gets, one, mret, tx_ret. rewrite Henv.
  assert ((1 <=? n) && (n <=? MaxApplicationRevisions) && (len key =? 32) = true) as E by (rewrite !andb_true_iff; split_and!; lia).
  rewrite <- andb_assoc, <- andb_assoc in *. rewrite andb_true_l, E, Hr, Hs, Hd. subst rd. simpl. rewrite bool_decide_eq_true_2 by done.
  simpl in Hsec. rewrite Hsec, gcm_opens. rewrite (proj2 (Z.leb_le _ _) Hlen), values_json, spec_json by done. by rewrite Hvs.
Qed.

End roundtrip.

(** A text that decodes, for any countable data, in place of encoding/json. *)
Fixpoint pos_text (p : positive) : string :=
  match p with xH => "" | xO p => String "0" (pos_text p) | xI p => String "1" (pos_text p) end.
Fixpoint text_pos (s : string) : option positive :=
  match s with
  | "" => Some xH
  | String c s => if ascii_eqb c "0" then xO <$> text_pos s else if ascii_eqb c "1" then xI <$> text_pos s else None
  end.
Definition text_of {A} `{Countable A} (x : A) : string := pos_text (countable.encode x).
Definition of_text {A} `{Countable A} (s : string) : option A := match text_pos s with Some p => countable.decode p | None => None end.
Lemma of_text_of {A} `{Countable A} (x : A) : of_text (text_of x) = Some x.
Proof.
  unfold of_text, text_of. assert (E : forall p, text_pos (pos_text p) = Some p) by (induction p as [p IH|p IH|]; simpl; rewrite ?IH; done).
  rewrite E. apply countable.decode_encode.
Qed.

Definition port_tuple (p : ApplicationPort) := (ap_target p, ap_published p, ap_host_ip p, ap_protocol p).
Definition volume_tuple (v : ApplicationVolume) := (av_kind v, av_source v, av_target v, av_readonly v).
Definition service_tuple (s : ApplicationService) :=
  (map port_tuple (as_ports s), as_restart s, as_name s, as_image s, as_environment s, map volume_tuple (as_volumes s)).
Definition extension_tuple (k : KubernetesExtension) :=
  ((fun v => (kv_class v, kv_size v, kv_access v)) <$> kx_volumes k, kx_ips k).
Definition spec_tuple (spec : ApplicationSpec) :=
  (sp_kind spec, map service_tuple (sp_services spec), map (fun v => (dv_name v, dv_external v)) (sp_declared spec),
   extension_tuple <$> sp_kubernetes spec).
Definition tuple_port (t : Z * Z * string * string) := let '(a, b, c, d) := t in mkAPort a b c d.
Definition tuple_volume (t : string * string * string * bool) := let '(a, b, c, d) := t in mkAVolume a b c d.
Definition tuple_service t := let '(a, b, c, d, e, f) := t in mkAService (map tuple_port a) b c d e (map tuple_volume f).
Definition tuple_extension (t : gmap string (string * string * string) * gmap string string) :=
  mkExtension ((fun v => mkKVolume v.1.1 v.1.2 v.2) <$> t.1) t.2.
Definition tuple_spec t := let '(a, b, c, d) := t in
  mkSpec a (map tuple_service b) (map (fun v : string * bool => mkDeclared v.1 v.2) c) (tuple_extension <$> d).
Definition text_spec (spec : ApplicationSpec) : string := text_of (spec_tuple spec).
Definition spec_text (s : string) : option ApplicationSpec := tuple_spec <$> of_text s.

Lemma spec_text_of spec : spec_text (text_spec spec) = Some spec.
Proof.
  unfold spec_text, text_spec. rewrite of_text_of. simpl. f_equal. destruct spec as [kind services volumes k]. unfold spec_tuple, tuple_spec. simpl.
  assert (Hid : forall A B (f : A -> B) (g : B -> A) l, (forall x, g (f x) = x) -> map g (map f l) = l).
  { intros A B f g l H. rewrite map_map. rewrite <- (map_id l) at 2. apply map_ext. done. }
  f_equal.
  - apply Hid. intros [ports restart name image env vols]. unfold service_tuple, tuple_service. simpl. f_equal; apply Hid; by intros [].
  - apply Hid. by intros [].
  - destruct k as [[vols ips]|]; [|done]. unfold extension_tuple, tuple_extension. simpl. do 2 f_equal. rewrite <- map_fmap_compose.
    rewrite <- (map_fmap_id vols) at 2. apply map_fmap_ext. by intros ? [] _.
Qed.

Lemma substring_after k plain : String.substring (String.length k) (String.length (k +:+ plain)) (k +:+ plain) = plain.
Proof.
  assert (H0 : forall m, (String.length plain <= m)%nat -> String.substring 0 m plain = plain).
  { induction plain as [|c p IH]; intros [|m] Hm; simpl in *; try done; try lia. rewrite IH by lia. done. }
  assert (Hk : forall m, (String.length plain <= m)%nat -> String.substring (String.length k) m (k +:+ plain) = plain).
  { induction k as [|c k IH]; intros m Hm; [by apply H0|]. simpl. by apply IH. }
  apply Hk. clear. induction k as [|c k IH]; [done|simpl; lia].
Qed.

Definition demo_small : ApplicationSpec :=
  mkSpec "compose.v1" [mkAService [] "" "web" "nginx:1" {["TOKEN" := "web-token"]} []] [] None.

