(* ===== verification/Registries.v ===== *)
(** * Registries

    internal/store/registries.go: an organization's registry entries, whether hosts without one
    may be pulled from anonymously, and the credential an operation that pulls may use.

    Key derivation and AES-GCM are parameters, as in Applications. *)
From Stdlib Require Import ZArith Lia Ascii String.
From stdpp Require Import base gmap strings list sorting.
From S2P Require Import Prelude Regex Text Grammar Json Reference Permissions Frame Store TenantAccess Applications.

#[local] Open Scope Z_scope.

Definition maxRegistryCredentialBytes : Z := 4096.

Definition hostLabel : re := Cat (Cls lowdig) (Opt (Cat (Star (Cls (either lowdig (oneof "-")))) (Cls lowdig))).
Definition registryHostName : re := Cat hostLabel (Star (Cat (Lit ".") hostLabel)).

(** A canonical decimal in 1 .. 65535. *)
Definition port_text (port : string) : bool :=
  nonempty port && str_forallb digit port && btw 1 65535 (digits_value port 0) && bool_decide (Itoa (digits_value port 0) = port).

Definition NormalizeRegistryHost (host : string) : option string :=
  let host := CanonicalHost (lower_text host) in
  let '(name, port, hasPort) := match cut_at ":" host with Some (n, p) => (n, p, true) | None => (host, "", false) end in
  if (len name >? 253) || negb (re_match registryHostName name)
     || negb (hasPort || bool_decide (name = "localhost") || contains_byte "." name) then None
  else if hasPort && negb (port_text port) then None
  else Some host.

Record Registry := mkRegistryView {
  re_id : string; re_org : string; re_host : string; re_name : string; re_username : string;
  re_has : bool; re_private : bool; re_created_by : string; re_created : time; re_updated : time }.
Record RegistryInput := mkRegistryInput {
  ri_host : string; ri_name : string; ri_username : string; ri_credential : option string; ri_private : bool }.
Record Credential := mkCredential { cr_username : string; cr_secret : string }.
Record RegistryAccess := mkRegistryAccess { ra_registry : option Registry; ra_credential : option Credential; ra_anonymous : bool }.

Definition validRegistryInput (input : RegistryInput) (key : string) : bool :=
  let name := TrimSpace (ri_name input) in
  nonempty name && (len name <=? 64) && bool_decide (CleanText name 64 = name)
  && (len (ri_username input) <=? 255) && bool_decide (CleanText (ri_username input) 255 = ri_username input)
  && negb (contains_byte ":" (ri_username input)) && (len key =? 32)
  && match ri_credential input with
     | Some c => (len c <=? maxRegistryCredentialBytes) && ValidString c && negb (has_nul c)
     | None => true
     end.

Definition view (id : string) (r : RegistryRow) : Registry :=
  mkRegistryView id (rg_org r) (rg_host r) (rg_name r) (rg_username r) (nonempty (rg_credential r)) (rg_private r) (rg_created_by r)
    (rg_created r) (rg_updated r).

Definition registry_of (org host : string) (db : DB) : option (string * RegistryRow) :=
  List.find (fun kr => bool_decide (rg_org kr.2 = org) && bool_decide (rg_host kr.2 = host)) (map_to_list (registries db)).

Definition microseconds (t : time) : time := t - t mod 1000.

Section registries.
Context (uuid_parse : string -> option string).
Context (DeriveKey : string -> string -> string) (EncryptAESGCM : string -> string -> string -> string)
  (DecryptAESGCM : string -> string -> option string).

Definition registryCredentialKey (key org id : string) : string :=
  DeriveKey key ("[" +:+ join "," [json_string "kyyard/registry-credential/v1"; json_string org; json_string id] +:+ "]").

Definition ListRegistries (a : TenantAccess) : time -> string -> DB -> res StoreErr (list Registry) * DB :=
  readTenant a RegistryRead (gets (fun db =>
    map snd (merge_sort by_first
      (map (fun kr => (rg_host kr.2, view kr.1 kr.2))
        (List.filter (fun kr => bool_decide (rg_org kr.2 = OrganizationID a)) (map_to_list (registries db))))))).

Definition insert_registry (id : string) (r : RegistryRow) : tx unit :=
  free ← gets (fun db => bool_decide (registries db !! id = None) && bool_decide (registry_of (rg_org r) (rg_host r) db = None));
  _ ← ensure free ErrUnique;
  known ← gets (fun db => bool_decide (is_Some (organizations db !! rg_org r)));
  _ ← ensure known ErrConstraint;
  modify (fun db => set_registries (<[id := r]> (registries db)) db).

Definition Itoa_bool (b : bool) : string := if b then "true" else "false".

Definition put_body (a : TenantAccess) (input : RegistryInput) (host : string) (key : string) (privateAllowed : bool)
    (fresh_id nonce : string) (now : time) : act Registry :=
  _ ← lift (ensure (negb (ri_private input && negb privateAllowed)) ErrPrivateRegistriesDisabled);
  found ← lift (gets (registry_of (OrganizationID a) host));
  let id := match found with Some (id, _) => id | None => fresh_id end in
  let old := match found with Some (_, r) => rg_credential r | None => "" end in
  let enc := match ri_credential input with
             | None => old
             | Some c => if bool_decide (c = "") then "" else EncryptAESGCM nonce c (registryCredentialKey key (OrganizationID a) id)
             end in
  let state := match ri_credential input with None => "kept" | Some c => if bool_decide (c = "") then "cleared" else "set" end in
  _ ← set_details ("host=" +:+ host +:+ " allow_private=" +:+ Itoa_bool (ri_private input) +:+ " credential=" +:+ state);
  let created_by := match found with Some (_, r) => rg_created_by r | None => ActorID a end in
  let created := match found with Some (_, r) => rg_created r | None => now end in
  let r := mkRegistry (OrganizationID a) host (TrimSpace (ri_name input)) (ri_username input) (ri_private input) created_by created now enc in
  _ ← lift (match found with
            | Some _ => modify (fun db => set_registries (<[id := r]> (registries db)) db)
            | None => insert_registry id r
            end);
  _ ← set_target ("registries/" +:+ id);
  mret (view id r).

Definition PutRegistry (a : TenantAccess) (input : RegistryInput) (key : string) (privateAllowed : bool) (fresh_id nonce : string)
    (now : time) (fresh : string) (db : DB) : res StoreErr Registry * DB :=
  match NormalizeRegistryHost (ri_host input) with
  | Some host =>
      if negb (validRegistryInput input key) then (Fail ErrInvalid, db)
      else run a RegistryManage (mkNotes (Some "registries") (Some "")) true
             (put_body a input host key privateAllowed fresh_id nonce (microseconds now)) now fresh db
  | None => (Fail ErrInvalid, db)
  end.

Definition DeleteRegistry (a : TenantAccess) (id : string) (now : time) (fresh : string) (db : DB) : res StoreErr unit * DB :=
  match uuid_parse id with
  | None => (Fail ErrInvalid, db)
  | Some id =>
      run a RegistryManage (mkNotes (Some ("registries/" +:+ id)) (Some "")) true (
        row ← lift (gets (fun db => registries db !! id));
        r ← lift (one row ErrNotFound);
        _ ← lift (ensure (bool_decide (rg_org r = OrganizationID a)) ErrNotFound);
        _ ← set_details ("host=" +:+ rg_host r);
        lift (modify (fun db => set_registries (delete id (registries db)) db))) now fresh db
  end.

Definition anonymousPull (org : string) : tx bool :=
  row ← gets (fun db => organizations db !! org);
  o ← one row ErrNotFound;
  mret (o_anonymous o).
Definition ReadRegistryPolicy (a : TenantAccess) : time -> string -> DB -> res StoreErr bool * DB :=
  readTenant a RegistryRead (anonymousPull (OrganizationID a)).
Definition SetAnonymousPull (a : TenantAccess) (enabled : bool) : time -> string -> DB -> res StoreErr unit * DB :=
  run a RegistryManage (mkNotes (Some "registry-policy") (Some "")) true (
    old ← lift (anonymousPull (OrganizationID a));
    _ ← set_details ("old=" +:+ Itoa_bool old +:+ " new=" +:+ Itoa_bool enabled);
    lift (modify (fun db => set_organizations ((fun o => mkOrganization (o_name o) enabled) <$> filter (fun ko => ko.1 = OrganizationID a) (organizations db)
                                              ∪ organizations db) db))).

Definition registryFor (org host key : string) : tx (Registry * option Credential) :=
  found ← gets (registry_of org host);
  ir ← one found ErrNotFound;
  let r := view ir.1 ir.2 in
  if bool_decide (rg_credential ir.2 = "") then mret (r, None)
  else
    secret ← one (DecryptAESGCM (rg_credential ir.2) (registryCredentialKey key org ir.1)) ErrInvalid;
    mret (r, Some (mkCredential (rg_username ir.2) secret)).

(** [errors.Is(err, ErrNotFound)] as a value. *)
Definition or_missing {A} (m : tx A) : tx (option A) :=
  fun db => match m db with
            | Ok (x, db') => Ok (Some x, db')
            | Fail e => if bool_decide (e = ErrNotFound) then Ok (None, db) else Fail e
            end.

Definition narrowed (privateAllowed : bool) (r : Registry) : Registry :=
  mkRegistryView (re_id r) (re_org r) (re_host r) (re_name r) (re_username r) (re_has r) (re_private r && privateAllowed) (re_created_by r)
    (re_created r) (re_updated r).
(** [None]: not configured. *)
Definition access_body (a : TenantAccess) (host key : string) (privateAllowed : bool) : tx (option RegistryAccess) :=
  found ← or_missing (registryFor (OrganizationID a) host key);
  match found with
  | None =>
      enabled ← anonymousPull (OrganizationID a);
      mret (if enabled : bool then Some (mkRegistryAccess None None true) else None)
  | Some (r, credential) => mret (Some (mkRegistryAccess (Some (narrowed privateAllowed r)) credential false))
  end.
Definition ResolveRegistryAccess (a : TenantAccess) (action : Action) (ref key : string) (privateAllowed : bool)
    (now : time) (fresh : string) (db : DB) : res StoreErr RegistryAccess * DB :=
  if negb (bool_decide (action = ImagePullAction)) && negb (bool_decide (action = ApplicationDeploy)) then (Fail ErrForbidden, db)
  else match ParseReference ref with
       | Some parsed =>
           if negb (len key =? 32) then (Fail ErrInvalid, db)
           else match readTenant a action (access_body a (rf_host parsed) key privateAllowed) now fresh db with
                | (Ok (Some access), db') => (Ok access, db')
                | (Ok None, db') => (Fail ErrRegistryNotConfigured, db')
                | (Fail e, db') => (Fail e, db')
                end
       | None => (Fail ErrInvalid, db)
       end.
End registries.

Example host_hub : NormalizeRegistryHost "Index.Docker.io" = Some "docker.io".
Proof. vm_compute. reflexivity. Qed.
Example host_port : NormalizeRegistryHost "registry:5000" = Some "registry:5000" /\ NormalizeRegistryHost "registry:0500" = None /\
  NormalizeRegistryHost "registry" = None.
Proof. vm_compute. auto. Qed.

(** ** What only reads *)

Lemma reads_anonymousPull org : Reads (anonymousPull org).
Proof. unfold anonymousPull. keeps. Qed.
Lemma reads_registryFor DeriveKey DecryptAESGCM org host key : Reads (registryFor DeriveKey DecryptAESGCM org host key).
Proof. unfold registryFor. keeps. Qed.
Lemma reads_or_missing {A} (m : tx A) : Reads m -> Reads (or_missing m).
Proof.
  intros Hm db x db'. unfold or_missing. destruct (m db) as [[y d]|e] eqn:E; [|by case_bool_decide; intros [= _ <-]].
  intros [= _ <-]. by eapply Hm.
Qed.
#[export] Hint Resolve reads_anonymousPull reads_registryFor reads_or_missing : keeps.

(** ** Properties *)

(** UNIQUE(organization_id, host). *)
Definition RegUnique (db : DB) : Prop :=
  forall i j r s, registries db !! i = Some r -> registries db !! j = Some s -> rg_org r = rg_org s -> rg_host r = rg_host s -> i = j.

Lemma registry_of_some org host db id r :
  registry_of org host db = Some (id, r) -> registries db !! id = Some r /\ rg_org r = org /\ rg_host r = host.
Proof.
  unfold registry_of. intros [Hin H]%find_some. apply list_elem_of_In, elem_of_map_to_list in Hin. simpl in H. gobool. done.
Qed.
Lemma registry_of_none org host db id r :
  registry_of org host db = None -> registries db !! id = Some r -> ~ (rg_org r = org /\ rg_host r = host).
Proof.
  unfold registry_of. intros Hf Hr [<- <-]. pose proof (find_none _ _ Hf (id, r)) as H. simpl in H.
  rewrite !bool_decide_eq_true_2 in H by done. specialize (H ltac:(by apply list_elem_of_In, elem_of_map_to_list)). done.
Qed.
Lemma registry_of_unique db id r :
  RegUnique db -> registries db !! id = Some r -> registry_of (rg_org r) (rg_host r) db = Some (id, r).
Proof.
  intros Hu Hr. destruct (registry_of (rg_org r) (rg_host r) db) as [[j s]|] eqn:E.
  - apply registry_of_some in E as (Hs & Ho & Hh). assert (j = id) as -> by (by eapply Hu). congruence.
  - exfalso. by eapply registry_of_none.
Qed.

Section access.
Context (DeriveKey : string -> string -> string) (EncryptAESGCM : string -> string -> string -> string)
  (DecryptAESGCM : string -> string -> option string).

Lemma put_body_ok a input host key allowed fresh_id nonce now n db n' r db' :
  put_body DeriveKey EncryptAESGCM a input host key allowed fresh_id nonce now n db = (n', Ok (r, db')) ->
  RegUnique db -> (ri_private input = true -> allowed = true) /\ RegUnique db' /\ exists id row, r = view id row /\ registries db' = <[id := row]> (registries db) /\
    rg_org row = OrganizationID a /\ rg_host row = host /\ rg_username row = ri_username input /\ rg_private row = ri_private input /\
    forall c, ri_credential input = Some c ->
      rg_credential row = if bool_decide (c = "") then "" else EncryptAESGCM nonce c (registryCredentialKey DeriveKey key (OrganizationID a) id).
Proof.
  unfold put_body. unfold mbind, act_bind, lift, ensure, set_details, set_target, gets. intros H Hu.
  destruct (ri_private input && negb allowed) eqn:Ep; simpl in H; [done|]. split; [intros E; rewrite E in Ep; by destruct allowed|].
  destruct (registry_of (OrganizationID a) host db) as [[id old]|] eqn:E; simpl in H.
  - injection H as _ <- <-. destruct (registry_of_some _ _ _ _ _ E) as (Hid & Ho & Hh). split.
    + intros i j x y. simpl. rewrite !lookup_insert_Some. intros [[<- <-]|[Hi Hx]] [[<- <-]|[Hj Hy]] Eo Eh; simpl in *; [done| | |by eapply Hu].
      * symmetry. eapply Hu; [exact Hy|exact Hid|congruence..].
      * eapply Hu; [exact Hx|exact Hid|congruence..].
    + eexists id, _. split_and!; try reflexivity. by intros c ->.
  - destruct (insert_registry _ _ db) as [[[] d]|e] eqn:Ei; [|done]. injection H as _ <- <-. unfold insert_registry in Ei. tx_inv Ei. gobool. split.
    + intros i j x y. simpl. rewrite !lookup_insert_Some. intros [[<- <-]|[Hi Hx]] [[<- <-]|[Hj Hy]] Eo Eh; simpl in *; [done| | |by eapply Hu].
      * exfalso. by eapply (registry_of_none _ _ _ _ _ E Hy).
      * exfalso. by eapply (registry_of_none _ _ _ _ _ E Hx).
    + eexists fresh_id, _. split_and!; try reflexivity. by intros c ->.
Qed.

(** AES-GCM opens what it sealed under the same key, and its ciphertext carries its nonce. *)
Hypothesis gcm_opens : forall nonce plain key, DecryptAESGCM (EncryptAESGCM nonce plain key) key = Some plain.
Hypothesis gcm_sealed : forall nonce plain key, EncryptAESGCM nonce plain key <> "".

(** A saved registry entry answers for its host.  After an entry is saved the organization
    still has one entry per host; looking its host up gives the entry as saved, with exactly the
    credential given, or none when the credential was cleared; and an entry that allows private
    addresses was only saved under the operator's opt-in. *)
Theorem PutRegistry_roundtrip a input key allowed fresh_id nonce now fresh db r db' :
  RegUnique db -> PutRegistry DeriveKey EncryptAESGCM a input key allowed fresh_id nonce now fresh db = (Ok r, db') ->
  RegUnique db' /\ (re_private r = true -> allowed = true) /\ re_org r = OrganizationID a /\ NormalizeRegistryHost (ri_host input) = Some (re_host r) /\
  forall c, ri_credential input = Some c ->
    registryFor DeriveKey DecryptAESGCM (OrganizationID a) (re_host r) key db' =
      Ok (r, if bool_decide (c = "") then None else Some (mkCredential (ri_username input) c), db').
Proof.
  intros Hu. unfold PutRegistry. destruct (NormalizeRegistryHost (ri_host input)) as [host|]; [|done].
  destruct (negb (validRegistryInput input key)); [done|]. intros (role & n & db1 & _ & _ & _ & Hop & (rec & -> & _))%runAs_split.
  apply put_body_ok in Hop as Hput; [|done]. destruct Hput as (Hp & Hu' & id & row & -> & Er & Ho & Hh & Hn & Hpr & Hc). simpl in *.
  split; [exact Hu'|]. split.
  { intros E. apply Hp. by rewrite <- Hpr. }
  split; [done|]. split; [by rewrite Hh|]. intros c Ec. specialize (Hc c Ec).
  unfold registryFor, mbind, tx_bind, gets, one, mret, tx_ret.
  assert (Hrow : registry_of (OrganizationID a) (rg_host row) (add_audit rec db1) = Some (id, row)).
  { rewrite <- Ho. apply registry_of_unique; [exact Hu'|]. simpl. rewrite Er. apply lookup_insert_eq. }
  rewrite Hrow. simpl. rewrite Hc. destruct (bool_decide (c = "")) eqn:E; [by rewrite bool_decide_eq_true_2|].
  rewrite bool_decide_eq_false_2 by apply gcm_sealed. rewrite gcm_opens. simpl. by rewrite Hn.
Qed.
End access.

(** A registry's credential goes only to an operation that pulls, and only for the host it was
    saved for.  When access is resolved, the action is a pull or a deployment the caller's role
    allows; either the organization has an entry for exactly the reference's host, the
    credential is that entry's, opened with the key bound to the organization and the entry, and
    private addresses are allowed only where both the entry and the operator allow them, or it
    has none, anonymous pulls are on, and no credential is given. *)
Theorem ResolveRegistryAccess_confined DeriveKey DecryptAESGCM a action ref key allowed now fresh db access db' :
  ResolveRegistryAccess DeriveKey DecryptAESGCM a action ref key allowed now fresh db = (Ok access, db') ->
  (action = ImagePullAction \/ action = ApplicationDeploy) /\ (exists role, holds a db role /\ Allows role action = true) /\
  exists parsed, ParseReference ref = Some parsed /\
  ((exists id row, registries db !! id = Some row /\ rg_org row = OrganizationID a /\ rg_host row = rf_host parsed /\
      (exists r, ra_registry access = Some r /\ re_private r = rg_private row && allowed) /\ ra_anonymous access = false /\
      forall c, ra_credential access = Some c -> cr_username c = rg_username row /\
        DecryptAESGCM (rg_credential row) (registryCredentialKey DeriveKey key (OrganizationID a) id) = Some (cr_secret c)) \/
   (registry_of (OrganizationID a) (rf_host parsed) db = None /\ access = mkRegistryAccess None None true /\
    exists o, organizations db !! OrganizationID a = Some o /\ o_anonymous o = true)).
Proof.
  unfold ResolveRegistryAccess. destruct (negb _ && negb _) eqn:Ea; [done|].
  destruct (ParseReference ref) as [parsed|]; [|done]. destruct (negb (len key =? 32)); [done|].
  destruct (readTenant _ _ _ _ _ _) as [[[acc|]|e] d] eqn:E; [|done..]. intros [= -> ->].
  apply runAs_split in E as (role & n & db1 & Hh & Hal & _ & Hop & _). unfold lift in Hop. injection Hop as _ Hop.
  split; [apply andb_false_iff in Ea as [Ea|Ea]; gobool; auto|]. split; [eauto|]. exists parsed. split; [done|].
  unfold access_body in Hop. apply bind_ok in Hop as (found & d1 & Hf & Hop). unfold or_missing in Hf.
  destruct (registryFor _ _ _ _ _ db) as [[[r cred] d2]|e] eqn:Er.
  - injection Hf as <- <-. apply ret_ok in Hop as [= -> ->]. left. unfold registryFor in Er. tx_inv Er.
    destruct row as [id row]. apply registry_of_some in Hrow as (Hr & Ho & Hho). exists id, row. split_and!; [done..|eexists; split; [reflexivity|]|done|].
    + simpl in *. case_bool_decide; [by injection Er as <- _|]. tx_inv Er. done.
    + intros c Hc. simpl in *. case_bool_decide; [by simplify_eq/=|]. tx_inv Er. auto.
  - case_bool_decide as En; [|done]. injection Hf as <- <-. subst e. right. unfold anonymousPull in Hop. tx_inv Hop.
    destruct (o_anonymous row) eqn:Eo; [|done]. simplify_eq/=. split_and!; [|done|eauto].
    unfold registryFor, mbind, tx_bind, gets, one in Er. destruct (registry_of _ _ db) as [[id row']|]; [|done]. simpl in Er.
    case_bool_decide; [done|]. destruct (DecryptAESGCM _ _); done.
Qed.

(** ** Witnesses *)

Definition demo_seal (nonce plain key : string) : string := String "s" key +:+ plain.
Definition demo_open (text key : string) : option string :=
  Some (String.substring (String.length (String "s" key)) (String.length text) text).
Definition demo_key : string := "0123456789abcdef0123456789abcdef".
Definition demo_derive (k s : string) : string := k +:+ s.
Definition demo_entry : RegistryInput := mkRegistryInput "Registry.Example:5000" "Example" "bot" (Some "hunter2") false.
Definition demo_put := PutRegistry demo_derive demo_seal ada demo_entry demo_key false "reg" "n" 5 "f" demo_db.

Lemma demo_unique : RegUnique demo_db.
Proof. intros i j r s H. vm_compute in H. discriminate. Qed.

Lemma PutRegistry_roundtrip_witness :
  exists r, demo_put.1 = Ok r /\ RegUnique demo_put.2 /\ re_host r = "registry.example:5000" /\
  registryFor demo_derive demo_open "org" (re_host r) demo_key demo_put.2 = Ok (r, Some (mkCredential "bot" "hunter2"), demo_put.2).
Proof.
  assert (E : exists r, demo_put.1 = Ok r /\ re_host r = "registry.example:5000") by (vm_compute; eauto).
  destruct E as (r & E & Er). exists r. split; [exact E|].
  destruct (PutRegistry_roundtrip demo_derive demo_seal demo_open (fun _ plain key => f_equal Some (substring_after (String "s" key) plain))
    ltac:(done) ada demo_entry demo_key false "reg" "n" 5 "f" demo_db r demo_put.2 demo_unique) as (Hu & _ & _ & _ & Hc).
  { rewrite <- E. apply surjective_pairing. }
  split; [exact Hu|]. split; [exact Er|]. exact (Hc "hunter2" eq_refl).
Defined.

Definition demo_access :=
  ResolveRegistryAccess demo_derive demo_open ada ApplicationDeploy "registry.example:5000/team/app:v1" demo_key true 6 "f" demo_put.2.

Lemma ResolveRegistryAccess_confined_witness :
  exists access, demo_access.1 = Ok access /\ ra_credential access = Some (mkCredential "bot" "hunter2") /\
  exists role, holds ada demo_put.2 role /\ Allows role ApplicationDeploy = true.
Proof.
  assert (E : exists access, demo_access.1 = Ok access /\ ra_credential access = Some (mkCredential "bot" "hunter2")) by (vm_compute; eauto).
  destruct E as (access & E & Hc). exists access. split; [exact E|]. split; [exact Hc|].
  destruct (ResolveRegistryAccess_confined demo_derive demo_open ada ApplicationDeploy "registry.example:5000/team/app:v1" demo_key true 6 "f"
    demo_put.2 access demo_access.2) as (_ & Hr & _); [rewrite <- E; apply surjective_pairing|]. exact Hr.
Defined.
