(* ===== verification/Preflight.v ===== *)
(** * Preflight: what stops a plan (internal/store/application_preflight.go).

    The two diagnostics a plan is minted from, one for a Docker host and one for a cluster, and
    the blockers application_deployment.go adds to them: capabilities, storage classes, live
    inspections.  A blocker is the code's own string, in the code's order.

    A Go map the code only indexes is a finite map; a map it ranges over where the order does not
    reach the result is folded in some order.  SHA-256, which the cluster's object names use, is
    a parameter. *)
From Stdlib Require Import ZArith QArith Lia Ascii String.
From stdpp Require Import base gmap strings list sorting.
From S2P Require Import Prelude Regex Text Grammar NetIP Inspection Paths Frame Inventory Clamp.
From S2P Require Import Reference KubeNames Spec Store TenantAccess Commands Direct.

#[local] Open Scope Z_scope.

(** ** Data *)

Record AdoptedContainer := mkAdopted {
  ac_id : string; ac_name : string; ac_image : string; ac_created : time;
  ac_mounts : option (list Mount); ac_mounts_cut : bool }.
Record AdoptionPreview := mkPreview {
  pv_application : string; pv_application_name : string; pv_revision : Z; pv_endpoint : string;
  pv_endpoint_name : string; pv_project : string; pv_containers : list AdoptedContainer; pv_digest : string }.
Record ApplicationMapping := mkMapping {
  am_instance : string; am_version : Z; am_mapped : Z; am_preview : AdoptionPreview;
  am_services : list string; am_bindings : gmap string string; am_runtime : string;
  am_namespace : string; am_namespaces : list string }.

Record PreflightService := mkRow {
  pf_target : option InspectionTarget; pf_name : string; pf_reference : string; pf_image : string;
  pf_container : string; pf_blockers : list string; pf_mounts : list Mount;
  pf_dropped_binds : list Mount; pf_dropped : list Mount; pf_unsupported_mounts : list Mount;
  pf_unsupported : list string; pf_details : list (string * string) }.
Record DeploymentPreflight := mkPreflight {
  dpf_instance : string; dpf_endpoint : string; dpf_endpoint_name : string; dpf_revision : Z;
  dpf_version : Z; dpf_received : time; dpf_executable : bool;
  dpf_blockers : list string; dpf_services : list PreflightService }.

#[export] Instance AdoptedContainer_eq_dec : EqDecision AdoptedContainer.
Proof. solve_decision. Defined.

(** ** The inventory a plan trusts *)

Definition index_containers (cs : list Container) (m : gmap string Container) : option (gmap string Container) :=
  foldl (fun acc c => match acc with
                      | Some m => if bool_decide (is_Some (m !! ct_id c)) then None else Some (<[ct_id c := c]> m)
                      | None => None
                      end) (Some m) cs.

(** Fresh on the server's clock and the agent's, complete, and without a repeated container. *)
Definition freshInventory (state : string) (stored : option Snapshot) (received observed now : time)
    : option (Snapshot * gmap string Container) :=
  if negb (bool_decide (state = "active")) || (time_sub now received >? 3 * Minute) || (time_sub received now >? Minute)
     || (time_sub now observed >? 5 * Minute) || (time_sub observed now >? 5 * Minute) then None
  else match stored with
       | Some snapshot =>
           if (llen (sn_containers snapshot) >? MaxContainers) || bool_decide (en_version (sn_engine snapshot) = "")
              || bool_decide ("containers" ∈ sn_truncated snapshot) then None
           else match index_containers (sn_containers snapshot) ∅ with
                | Some current => Some (snapshot, current)
                | None => None
                end
       | None => None
       end.

(** ** Published ports *)

Definition portKey : Type := Z * string.
(** [netip.Addr.Unmap]. *)
Definition Unmap (a : Addr) : Addr := if Is4In6 a then mkAddr true (drop 12 (addr_bytes a)) "" else a.
Definition bindingAddress (ip : string) : string :=
  match ParseAddr ip with
  | Some a => if IsUnspecified a then "*" else addr_string (Unmap a)
  | None => "*"
  end.
Definition bindings_at (index : gmap portKey (gset string)) (key : portKey) : gset string := default ∅ (index !! key).
Definition addBinding (index : gmap portKey (gset string)) (key : portKey) (ip : string) : gmap portKey (gset string) :=
  <[key := {[bindingAddress ip]} ∪ bindings_at index key]> index.
Definition overlapsBinding (index : gmap portKey (gset string)) (key : portKey) (ip : string) : bool :=
  let set := bindings_at index key in
  let addr := bindingAddress ip in
  bool_decide ("*" ∈ set) || bool_decide (addr ∈ set) || (bool_decide (addr = "*") && negb (bool_decide (set = ∅))).

(** ** Images and mounts *)

Definition validSHA256 (id : string) : bool := fullImageID id.
Definition anonymousVolume (name : string) : bool := re_match hex64 name.

Definition imagesOnHost (s : Snapshot) : gset string :=
  list_to_set (map im_id (sn_images s))
  ∪ list_to_set (map ct_image_id (List.filter (fun c => bool_decide (ct_state c = "running")) (sn_containers s))).

Definition add_image_ref (id : string) (images : gmap string (gset string)) (ref : string) : gmap string (gset string) :=
  <[ref := {[id]} ∪ default ∅ (images !! ref)]> images.
Definition image_index (ims : list Image) : gmap string (gset string) :=
  foldl (fun images im => foldl (add_image_ref (im_id im)) images (image_names im)) ∅ ims.

Definition resolveMounts (project : string) (declared : gmap string DeclaredVolume) (volumes : list ApplicationVolume) : list Mount :=
  map (fun v => if bool_decide (av_kind v = "named")
                then mkMount MountVolume (VolumeHostName project (default (mkDeclared "" false) (declared !! av_source v))) (av_target v) (av_readonly v)
                else mkMount MountBind (av_source v) (av_target v) (av_readonly v)) volumes.

Definition keepsHostBind (mounts : list Mount) (old next : string) (s : Snapshot) : bool :=
  let complete := negb (bool_decide ("volumes" ∈ sn_truncated s)) in
  (bool_decide (old = "") || negb (bool_decide (next = old)))
  && existsb (fun m =>
       if negb (bool_decide (m_kind m = MountVolume)) then hostBind m
       else match List.find (fun v => bool_decide (vo_name v = m_source m)) (sn_volumes s) with
            | None => negb complete
            | Some v => negb (vo_plain v)
            end) mounts.

(** ** A Docker host *)

Section docker.
Context (m : ApplicationMapping) (spec : ApplicationSpec) (snapshot : Snapshot) (latest : bool) (pins : gmap string string).

Definition when (b : bool) (code : string) : list string := if b then [code] else [].
Definition bound (service : string) : string := default "" (am_bindings m !! service).

Definition imagesComplete : bool :=
  (llen (sn_images snapshot) <=? MaxImages) && negb (bool_decide ("images" ∈ sn_truncated snapshot)).
Definition differ : bool := existsb (fun s => bool_decide (bound (as_name s) = "")) (sp_services spec).
Definition stray : bool :=
  existsb (fun kv => negb (bool_decide (kv.1 ∈ serviceNames spec))) (map_to_list (am_bindings m)).
Definition plan_blockers : list string :=
  when ((am_version m =? 0) || negb (am_mapped m =? pv_revision (am_preview m))) "mapping_requires_review"
  ++ when (negb latest && (stray || differ)) "revision_services_differ"
  ++ when ((latest && stray) || negb (msize (am_bindings m) =? llen (pv_containers (am_preview m)))) "unassigned_adopted_containers"
  ++ when (negb imagesComplete) "image_inventory_incomplete".

Definition images : gmap string (gset string) := if imagesComplete then image_index (sn_images snapshot) else ∅.
Definition assigned : gset string := list_to_set (map snd (map_to_list (am_bindings m))).
Definition container_bindings (index : gmap portKey (gset string)) (c : Container) : gmap portKey (gset string) :=
  if bool_decide (ct_id c ∈ assigned) then index
  else foldl (fun index p => if port_host p >? 0 then addBinding index (port_host p, port_protocol p) (port_host_ip p) else index)
         index (ct_ports c).
Definition occupied : gmap portKey (gset string) := foldl container_bindings ∅ (sn_containers snapshot).

Definition adopted_target (c : AdoptedContainer) : InspectionTarget :=
  mkTarget (ac_id c) (ac_image c) (ac_created c / Second) no_workload.
Definition adopted (id : string) : option AdoptedContainer :=
  foldl (fun acc c => if bool_decide (ac_id c = id) then Some c else acc) None (pv_containers (am_preview m)).
(** The last container of the ID whose identity is a target. *)
Definition owned (id : string) : option InspectionTarget :=
  foldl (fun acc c => if bool_decide (ac_id c = id) && target_validate (adopted_target c) then Some (adopted_target c) else acc)
    None (pv_containers (am_preview m)).
Definition declared : gmap string DeclaredVolume := foldl (fun d v => <[dv_name v := v]> d) ∅ (sp_declared spec).
Definition volumesComplete : bool :=
  (llen (sn_volumes snapshot) <=? MaxVolumes) && negb (bool_decide ("volumes" ∈ sn_truncated snapshot)).
Definition volume_missing (s : ApplicationService) : bool :=
  existsb (fun v => bool_decide (av_kind v = "named")
                    && dv_external (default (mkDeclared "" false) (declared !! av_source v))
                    && (negb volumesComplete || negb (bool_decide (av_source v ∈ map vo_name (sn_volumes snapshot)))))
    (as_volumes s).

(** What a recreate does with one mount the container has. *)
Definition mount_refused (has : Mount) : bool :=
  bool_decide (m_kind has = MountOther) || (bool_decide (m_kind has = MountVolume) && anonymousVolume (m_source has)).
Definition dropped_mounts (want has : list Mount) : list Mount :=
  List.filter (fun h => negb (mount_refused h) && negb (bool_decide (h ∈ want))) has.

(** The image a service will run, or why there is none. *)
Definition image_choice (s : ApplicationService) : string * list string :=
  match pins !! as_name s with
  | Some pin =>
      if negb (validSHA256 pin) then ("", ["image_identity_invalid"])
      else if negb (bool_decide (pin ∈ imagesOnHost snapshot)) then ("", ["image_not_reported"])
      else (pin, [])
  | None =>
      if bool_decide ((SplitImageReference (as_image s)).2 = "") then ("", ["explicit_image_reference_required"])
      else if negb imagesComplete then ("", ["image_inventory_incomplete"])
      else match base.elements (default ∅ (images !! as_image s)) with
           | [] => ("", ["image_not_reported"])
           | [id] => if validSHA256 id then (id, []) else ("", ["image_identity_invalid"])
           | _ => ("", ["image_reference_ambiguous"])
           end
  end.

(** The published ports in order: whether one meets the host's, whether one meets an earlier one
    of the plan, and the plan's ports so far. *)
Definition port_step (acc : bool * bool * gmap portKey (gset string)) (p : ApplicationPort) :=
  let '(external, duplicate, desired) := acc in
  let k := (ap_published p, ap_protocol p) in
  (external || overlapsBinding occupied k (ap_host_ip p), duplicate || overlapsBinding desired k (ap_host_ip p),
   addBinding desired k (ap_host_ip p)).
Definition port_pass (desired : gmap portKey (gset string)) (ports : list ApplicationPort) :=
  foldl port_step (false, false, desired) ports.

Definition service_row (s : ApplicationService) (external duplicate : bool) : PreflightService :=
  let container := bound (as_name s) in
  let want := resolveMounts (pv_project (am_preview m)) declared (as_volumes s) in
  let target := owned container in
  let held := match target with
              | Some _ => match adopted container with
                          | Some c => if ac_mounts_cut c then None else ac_mounts c
                          | None => None
                          end
              | None => None
              end in
  let has := default [] held in
  let refused := List.filter mount_refused has in
  let dropped := dropped_mounts want has in
  let mount_blockers :=
    match target, held with
    | None, _ => []
    | Some _, None => ["mounts_unreported"]
    | Some _, Some has =>
        when (existsb (fun w => bool_decide (m_kind w = MountBind) && negb (bool_decide (w ∈ has))) want) "bind_mount_new"
        ++ when (negb (bool_decide (refused = []))) "mount_unsupported"
    end in
  let identity :=
    if bool_decide (container = "") then when latest "service_unmapped"
    else when (bool_decide (target = None)) "replacement_identity_invalid" in
  let choice := image_choice s in
  mkRow target (as_name s) (as_image s) choice.1 container
    (when (volume_missing s) "volume_missing" ++ mount_blockers ++ identity ++ choice.2
     ++ when external "reported_port_overlap" ++ when duplicate "desired_port_overlap")
    want (List.filter (fun h => bool_decide (m_kind h = MountBind)) dropped) dropped refused [] [].

Fixpoint service_rows (desired : gmap portKey (gset string)) (l : list ApplicationService) : list PreflightService :=
  match l with
  | [] => []
  | s :: l' =>
      let '(external, duplicate, desired') := port_pass desired (as_ports s) in
      service_row s external duplicate :: service_rows desired' l'
  end.

Definition buildDeploymentPreflight : DeploymentPreflight :=
  let rows := service_rows ∅ (sp_services spec) in
  mkPreflight (am_instance m) (pv_endpoint (am_preview m)) (pv_endpoint_name (am_preview m)) (pv_revision (am_preview m))
    (am_version m) zero_time
    (forallb (fun r => bool_decide (pf_blockers r = [])) rows && bool_decide (plan_blockers = []))
    plan_blockers rows.
End docker.

(** ** A cluster *)

Section kubernetes.
Context (sum_hex : string -> string).

Definition count_named (names : list string) : gmap string Z :=
  foldl (fun acc n => <[n := default 0 (acc !! n) + 1]> acc) ∅ names.

Definition kubernetesVolumeCodes (s : ApplicationService) (k : option KubernetesExtension) (users : gmap string Z)
    : list string * list (string * string) :=
  let binds := existsb (fun v => negb (bool_decide (av_kind v = "named"))) (as_volumes s) in
  let named := List.filter (fun v => bool_decide (av_kind v = "named")) (as_volumes s) in
  let shared := existsb (fun v => default 0 (users !! av_source v) >? 1) named in
  let unchosen := existsb (fun v => negb (default 0 (users !! av_source v) >? 1)
                                    && bool_decide (kube_volume k (av_source v) = None)) named in
  let cd := if binds || (llen named >? MaxKubernetesMounts) then (["k8s_volume"], [])
            else if unchosen then (["k8s_volume"], [("k8s_volume", "choice_required")]) else ([], []) in
  (cd.1 ++ when shared "k8s_volume_shared", cd.2).

Section cluster.
Context (m : ApplicationMapping) (spec : ApplicationSpec) (snapshot : Snapshot) (applied : list string).

Definition objects : gmap string string := KubernetesNames sum_hex (pv_project (am_preview m)) (serviceNames spec).
Definition object (service : string) : string := default "" (objects !! service).
Definition named_objects : gmap string Z := count_named (map snd (map_to_list objects)).
(** Deployments of the namespace that are not this instance's. *)
Definition held : gset string :=
  match sn_kubernetes snapshot with
  | Some k => list_to_set (map wl_name (List.filter (fun w =>
      bool_decide (wl_kind w = "Deployment") && bool_decide (wl_namespace w = am_namespace m)
      && negb (bool_decide (wl_instance w = am_instance m))) (ki_workloads k)))
  | None => ∅
  end.
Definition was : gmap string string := KubernetesNames sum_hex (pv_project (am_preview m)) applied.
(** The service behind each applied name; where two applied services share a name, one of them,
    as Go's map order has it. *)
Definition appliedBy : gmap string string := foldl (fun acc kv => <[kv.2 := kv.1]> acc) ∅ (map_to_list was).
Definition renamed (service : string) : bool :=
  match was !! service with Some old => negb (bool_decide (old = object service)) | None => false end
  || (let by_ := default "" (appliedBy !! object service) in nonempty by_ && negb (bool_decide (by_ = service))).

(** Per Service of the cluster, in inventory order. *)
Definition ip_blockers (s : ApplicationService) : list string :=
  let ip := serviceIP (sp_kubernetes spec) (as_name s) in
  match sn_kubernetes snapshot with
  | Some k =>
      if bool_decide (ip = "") then []
      else mjoin (map (fun have =>
        let own := bool_decide (ks_namespace have = am_namespace m) && bool_decide (ks_name have = object (as_name s))
                   && bool_decide (ks_instance have = am_instance m) in
        when (bool_decide (ks_ip have = ip) && negb own) "service_ip_in_use"
        ++ when (own && negb (bool_decide (ks_ip have = ip))) "service_ip_immutable") (ki_services k))
  | None => []
  end.

Definition kubernetesRestart : list string := ["" ; "always"; "unless-stopped"].
Definition kube_codes (users : gmap string Z) (s : ApplicationService) : list string * list (string * string) :=
  let vc := kubernetesVolumeCodes s (sp_kubernetes spec) users in
  (vc.1
   ++ when (existsb (fun p => negb (bool_decide (ap_host_ip p = ""))) (as_ports s)) "k8s_host_ip"
   ++ when (negb (bool_decide (as_restart s ∈ kubernetesRestart))) "k8s_restart"
   ++ when ((default 0 (named_objects !! object (as_name s)) >? 1) || negb (ValidLabelValue (as_name s))
            || negb (ValidLabelValue (pv_project (am_preview m)))) "k8s_name"
   ++ when (bool_decide (object (as_name s) ∈ held)) "k8s_name_taken"
   ++ when (renamed (as_name s)) "k8s_service_renamed", vc.2).
Definition ports_repeat (s : ApplicationService) : bool :=
  negb (seen_loop (fun p => (ap_published p, ap_protocol p)) (fun _ => true) ∅ (as_ports s)).

Definition kube_row (users : gmap string Z) (s : ApplicationService) : PreflightService :=
  let cd := kube_codes users s in
  let stuck := negb (bool_decide (cd.1 = [])) in
  mkRow None (as_name s) (as_image s) "" ""
    (ip_blockers s ++ when stuck "kubernetes_unsupported"
     ++ when (bool_decide ((SplitImageReference (as_image s)).2 = "")) "explicit_image_reference_required"
     ++ when (ports_repeat s) "desired_port_overlap")
    [] [] [] [] (if stuck then cd.1 else []) (if stuck then cd.2 else []).

Definition buildKubernetesPreflight : DeploymentPreflight :=
  let rows := map (kube_row (volumeUsers spec)) (sp_services spec) in
  let blockers := when (negb (bool_decide (am_namespace m ∈ am_namespaces m))) "k8s_namespace" in
  mkPreflight (am_instance m) (pv_endpoint (am_preview m)) (pv_endpoint_name (am_preview m)) (pv_revision (am_preview m))
    (am_version m) zero_time
    (forallb (fun r => bool_decide (pf_blockers r = [])) rows && bool_decide (blockers = [])) blockers rows.
End cluster.
End kubernetes.

(** ** What application_deployment.go adds *)

Definition CapabilityDeploymentApply : string := "deployment.apply".
Definition CapabilityDeploymentPull : string := "deployment.pull".
Definition CapabilityContainerInspect : string := "container.inspect".
Definition CapabilityContainerInspectVerdict : string := "container.inspect.verdict".
Definition CapabilityKubernetesDeploy : string := "kubernetes.deploy".
Definition CapabilityKubernetesClaims : string := "kubernetes.claims".
Definition CapabilityKubernetesServiceIPs : string := "kubernetes.service_ips".

Definition inspectsVerdicts (capabilities : gset string) : bool :=
  bool_decide (CapabilityContainerInspect ∈ capabilities) && bool_decide (CapabilityContainerInspectVerdict ∈ capabilities).

Definition claim_bound (namespace : string) (k : KubernetesInventory) (c : KubernetesClaim) : bool :=
  existsb (fun h => bool_decide (kc_namespace h = namespace) && bool_decide (kc_name h = k_name c) && bool_decide (kc_phase h = "Bound"))
    (ki_claims k).
Definition class_known (k : KubernetesInventory) (c : KubernetesClaim) : bool :=
  existsb (fun sc => bool_decide (sc_name sc = k_class c) || (bool_decide (k_class c = "") && sc_default sc)) (ki_classes k).
Definition storageClassBlockers (namespace : string) (claims : list KubernetesClaim) (s : Snapshot) : list string :=
  match sn_kubernetes s with
  | Some k =>
      if bool_decide ("storage_classes" ∈ sn_truncated s) then []
      else when (existsb (fun c => negb (claim_bound namespace k c) && negb (class_known k c)) claims) "storage_class_unknown"
  | None => []
  end.

Definition capabilityBlockers (capabilities : gset string) (plan : DeploymentPlan) : list string :=
  if nonempty (pl_namespace plan) then
    when (negb (bool_decide (CapabilityKubernetesDeploy ∈ capabilities))) "agent_deploy_unsupported"
    ++ when ((llen (pl_claims plan) >? 0) && negb (bool_decide (CapabilityKubernetesClaims ∈ capabilities))) "agent_claims_unsupported"
    ++ when (negb (bool_decide (CapabilityKubernetesServiceIPs ∈ capabilities))
             && existsb (fun s => nonempty (ps_cluster_ip s)) (pl_services plan)) "agent_service_ips_unsupported"
  else
    when (negb (bool_decide (CapabilityDeploymentApply ∈ capabilities))) "agent_deploy_unsupported"
    ++ when (negb (inspectsVerdicts capabilities)) "agent_inspect_unsupported"
    ++ when (negb (bool_decide (CapabilityDeploymentPull ∈ capabilities))
             && existsb (fun ps => nonempty (ps_pull_digest ps)) (pl_services plan)) "agent_pull_unsupported".

(** The new blockers and the codes recorded on the row. *)
Definition inspectionBlockers (row : PreflightService) (inspections : gmap string ContainerInspection)
    : list string * list string :=
  match inspections !! pf_container row with
  | None => (["inspection_unavailable"], pf_unsupported row)
  | Some i =>
      if negb (bool_decide (Some (ci_target i) = pf_target row)) then (["replacement_identity_changed"], pf_unsupported row)
      else if negb (ci_verified i) then (["configuration_unsupported"], ci_unsupported i)
      else ([], pf_unsupported row)
  end.

(** [slices.Sort] and [slices.Compact]; [None] when nothing blocks. *)
Definition blocked (blockers : list string) (services : list BlockedService) : option (list string * list BlockedService) :=
  if bool_decide (blockers = []) then None else Some (compact (merge_sort str_le blockers), services).

Definition pinPull (ps : PlannedService) (ref : Reference) (digest : string) : PlannedService :=
  mkPlanned (ps_name ps) (ps_reference ps) (ps_image ps) (ps_image_digest ps) (ps_container ps) (ps_replaces ps) (ps_restart ps)
    (ps_ports ps) (ps_secret_refs ps) (rf_host ref +:+ "/" +:+ rf_repository ref +:+ "@" +:+ digest) digest
    (ps_mounts ps) (ps_dropped ps) (ps_object ps) (ps_claim_mounts ps) (ps_cluster_ip ps).

(** ** The plan a preflight is turned into ([draftPlan]) *)

Section draft.
Context (sum_hex : string -> string) (m : ApplicationMapping) (spec : ApplicationSpec) (snapshot : Snapshot)
  (capabilities : gset string) (inspections : gmap string ContainerInspection) (p : DeploymentPreflight).

(** The repository digest of each image that reports exactly one. *)
Definition single_digests : gmap string string :=
  foldl (fun d im => match im_digests im with [x] => <[im_id im := x]> d | _ => d end) ∅ (sn_images snapshot).
Definition clustered : bool := bool_decide (am_runtime m = RuntimeKubernetes).
Definition plan_namespace : string := if clustered then am_namespace m else "".
Definition plan_claims := kubernetesClaims sum_hex (pv_project (am_preview m)) spec.

(** A row as the plan sees it: its blockers and codes with the live inspection's. *)
Definition inspected_row (row : PreflightService) : PreflightService :=
  if inspectsVerdicts capabilities && dpf_executable p && bool_decide (is_Some (pf_target row)) then
    let bu := inspectionBlockers row inspections in
    mkRow (pf_target row) (pf_name row) (pf_reference row) (pf_image row) (pf_container row) (pf_blockers row ++ bu.1)
      (pf_mounts row) (pf_dropped_binds row) (pf_dropped row) (pf_unsupported_mounts row) bu.2 (pf_details row)
  else row.

Definition planned_service (s : ApplicationService) (row : PreflightService) : PlannedService :=
  let kube := nonempty plan_namespace in
  mkPlanned (as_name s) (as_image s) (pf_image row) (default "" (single_digests !! pf_image row)) (pf_container row)
    (default no_target (pf_target row)) (as_restart s) (as_ports s)
    (merge_sort str_le (map snd (map_to_list (as_environment s)))) "" "" (pf_mounts row) (pf_dropped row)
    (if kube then Some (mkObject plan_namespace
       (default "" (KubernetesNames sum_hex (pv_project (am_preview m)) (serviceNames spec) !! as_name s))) else None)
    (if kube then default [] (plan_claims.2 !! as_name s) else [])
    (if kube then serviceIP (sp_kubernetes spec) (as_name s) else "").

Definition add_new (l : list string) (x : string) : list string := if bool_decide (x ∈ l) then l else l ++ [x].
Definition row_volumes (row : PreflightService) : list string :=
  map m_source (List.filter (fun mt => bool_decide (m_kind mt = MountVolume)) (pf_mounts row)).

Definition draft_rows : list PreflightService := map inspected_row (dpf_services p).
Definition draft_plan : DeploymentPlan :=
  mkPlan (pv_project (am_preview m)) (zip_with planned_service (sp_services spec) draft_rows) []
    (foldl add_new [] (mjoin (map row_volumes draft_rows))) plan_namespace
    (if clustered then plan_claims.1 else []).
Definition draft_blockers : list string :=
  dpf_blockers p
  ++ (if clustered then storageClassBlockers plan_namespace plan_claims.1 snapshot else [])
  ++ mjoin (map pf_blockers draft_rows) ++ capabilityBlockers capabilities draft_plan.
Definition draft_refused : list BlockedService :=
  map (fun row => mkBlocked (pf_name row) (pf_blockers row) (pf_unsupported row) (pf_details row))
    (List.filter (fun row => negb (bool_decide (pf_blockers row = []))) draft_rows).
End draft.

(** ** The port index is a pairwise scan *)

(** A published port: the port, the protocol, the address asked for. *)
Definition publication : Type := Z * string * string.
Definition clash (a b : publication) : bool :=
  bool_decide (a.1 = b.1)
  && (bool_decide (bindingAddress a.2 = "*") || bool_decide (bindingAddress b.2 = "*")
      || bool_decide (bindingAddress a.2 = bindingAddress b.2)).
Definition published (s : ApplicationService) : list publication :=
  map (fun p => (ap_published p, ap_protocol p, ap_host_ip p)) (as_ports s).

Definition index_of (l : list publication) : gmap portKey (gset string) :=
  foldl (fun index b => addBinding index b.1 b.2) ∅ l.

Lemma index_of_app l l' : index_of (l ++ l') = foldl (fun index b => addBinding index b.1 b.2) (index_of l) l'.
Proof. apply foldl_app. Qed.

Lemma bindings_at_spec l key addr :
  addr ∈ bindings_at (index_of l) key <-> exists b, b ∈ l /\ b.1 = key /\ bindingAddress b.2 = addr.
Proof.
  induction l as [|b l IH] using rev_ind.
  - unfold index_of, bindings_at. simpl. rewrite lookup_empty. simpl. split; [set_solver|]. intros (b & Hb & _). set_solver.
  - rewrite index_of_app. simpl. unfold addBinding, bindings_at at 1. destruct (decide (b.1 = key)) as [<-|Hne].
    + rewrite lookup_insert_eq. simpl. rewrite elem_of_union, elem_of_singleton, IH. split.
      * intros [->|(c & Hc & ?)]; [exists b; set_solver|exists c; set_solver].
      * intros (c & [Hc|E%list_elem_of_singleton]%elem_of_app & Hk & <-); [right; eauto|left; by subst c].
    + rewrite lookup_insert_ne by done. unfold bindings_at in IH. rewrite IH. split.
      * intros (c & Hc & ?). exists c. set_solver.
      * intros (c & [Hc|E%list_elem_of_singleton]%elem_of_app & Hk & Ha); [eauto|by subst c].
Qed.

Lemma overlaps_scan l b : overlapsBinding (index_of l) b.1 b.2 = existsb (clash b) l.
Proof.
  apply eq_true_iff_eq. unfold overlapsBinding. rewrite !orb_true_iff, andb_true_iff, negb_true_iff, bool_decide_eq_false, !bool_decide_eq_true.
  rewrite existsb_exists. setoid_rewrite <- list_elem_of_In. unfold clash.
  setoid_rewrite andb_true_iff. setoid_rewrite orb_true_iff. setoid_rewrite orb_true_iff. setoid_rewrite bool_decide_eq_true.
  rewrite !bindings_at_spec. split.
  - intros [[(c & Hc & Hk & Ha)|(c & Hc & Hk & Ha)]|[Hs Hne]]; [exists c; auto 6..|].
    apply set_choose_L in Hne as [a (c & Hc & Hk & Ha)%bindings_at_spec]. exists c. auto 6.
  - intros (c & Hc & Hk & [[Ha|Ha]|Ha]).
    + right. split; [done|]. intros He. assert (bindingAddress c.2 ∈ bindings_at (index_of l) b.1) as Hin by (apply bindings_at_spec; eauto).
      rewrite He in Hin. set_solver.
    + left; left. exists c. auto.
    + left; right. exists c. auto.
Qed.

Fixpoint repeats (earlier later : list publication) : bool :=
  match later with
  | [] => false
  | b :: later' => existsb (clash b) earlier || repeats (earlier ++ [b]) later'
  end.

Section scan.
Context (m : ApplicationMapping) (spec : ApplicationSpec) (snapshot : Snapshot) (latest : bool) (pins : gmap string string).

(** What the host's other containers publish. *)
Definition taken : list publication :=
  mjoin (map (fun c => if bool_decide (ct_id c ∈ assigned m) then []
                       else map (fun p => (port_host p, port_protocol p, port_host_ip p)) (List.filter (fun p => port_host p >? 0) (ct_ports c)))
    (sn_containers snapshot)).

(** The reference: every port against every port of the host and every earlier one. *)
Fixpoint scanned_rows (earlier : list publication) (l : list ApplicationService) : list PreflightService :=
  match l with
  | [] => []
  | s :: l' =>
      service_row m spec snapshot latest pins s (existsb (fun b => existsb (clash b) taken) (published s)) (repeats earlier (published s))
      :: scanned_rows (earlier ++ published s) l'
  end.

Lemma ports_fold index ps :
  foldl (fun index p => if port_host p >? 0 then addBinding index (port_host p, port_protocol p) (port_host_ip p) else index) index ps =
  foldl (fun index b => addBinding index b.1 b.2) index
    (map (fun p => (port_host p, port_protocol p, port_host_ip p)) (List.filter (fun p => port_host p >? 0) ps)).
Proof. revert index; induction ps as [|p ps IH]; intros index; simpl; [done|]. destruct (port_host p >? 0); simpl; apply IH. Qed.

Lemma occupied_index : occupied m snapshot = index_of taken.
Proof.
  unfold occupied, taken, index_of. generalize (∅ : gmap portKey (gset string)).
  induction (sn_containers snapshot) as [|c cs IH]; intros index; simpl; [done|]. rewrite foldl_app, <- IH. f_equal.
  unfold container_bindings. destruct (bool_decide _); [done|]. apply ports_fold.
Qed.

Lemma port_pass_scan earlier ports :
  port_pass m snapshot (index_of earlier) ports =
  let bs := map (fun p => (ap_published p, ap_protocol p, ap_host_ip p)) ports in
  (existsb (fun b => existsb (clash b) taken) bs, repeats earlier bs, index_of (earlier ++ bs)).
Proof.
  unfold port_pass. enough (H : forall x d earlier, foldl (port_step m snapshot) (x, d, index_of earlier) ports =
    let bs := map (fun p => (ap_published p, ap_protocol p, ap_host_ip p)) ports in
    (x || existsb (fun b => existsb (clash b) taken) bs, d || repeats earlier bs, index_of (earlier ++ bs))) by apply H.
  clear earlier. induction ports as [|p ports IH]; intros x d earlier; simpl; [by rewrite !orb_false_r, app_nil_r|].
  set (b := (ap_published p, ap_protocol p, ap_host_ip p)).
  change (addBinding (index_of earlier) (ap_published p, ap_protocol p) (ap_host_ip p)) with (addBinding (index_of earlier) b.1 b.2).
  replace (addBinding (index_of earlier) b.1 b.2) with (index_of (earlier ++ [b])) by by rewrite index_of_app.
  rewrite IH. cbv zeta. rewrite <- app_assoc. simpl. f_equal. f_equal.
  - rewrite occupied_index. change (overlapsBinding _ _ _) with (overlapsBinding (index_of taken) b.1 b.2).
    by rewrite overlaps_scan, orb_assoc.
  - change (overlapsBinding _ _ _) with (overlapsBinding (index_of earlier) b.1 b.2). by rewrite overlaps_scan, orb_assoc.
Qed.

Lemma service_rows_scan earlier l :
  service_rows m spec snapshot latest pins (index_of earlier) l = scanned_rows earlier l.
Proof.
  revert earlier; induction l as [|s l IH]; intros earlier; simpl; [done|].
  rewrite port_pass_scan. cbv beta zeta iota. by rewrite IH.
Qed.
End scan.

(** The port index decides what a scan of every pair would.  The rows the preflight builds with
    its index of addresses by protocol and port are the rows a reference gives that compares
    each published port with every port of the host's other containers and with every earlier
    published port: two meet when port and protocol agree and their addresses agree or one is the
    wildcard. *)
Theorem preflight_ports_scan m spec snapshot latest pins :
  dpf_services (buildDeploymentPreflight m spec snapshot latest pins) = scanned_rows m spec snapshot latest pins [] (sp_services spec).
Proof. apply (service_rows_scan m spec snapshot latest pins []). Qed.

(** ** What an executable preflight of a host promises *)

Lemma when_nil b code : when b code = [] <-> b = false.
Proof. by destruct b. Qed.

Lemma image_index_spec ims ref id :
  id ∈ default ∅ (image_index ims !! ref) <-> exists im, im ∈ ims /\ im_id im = id /\ ref ∈ image_names im.
Proof.
  unfold image_index. enough (H : forall images, id ∈ default ∅ (foldl (fun images im => foldl (add_image_ref (im_id im)) images (image_names im)) images ims !! ref)
    <-> id ∈ default ∅ (images !! ref) \/ exists im, im ∈ ims /\ im_id im = id /\ ref ∈ image_names im).
  { rewrite H, lookup_empty. simpl. split; [intros [?|?]; [set_solver|done]|by right]. }
  induction ims as [|im ims IH]; intros images; cbn [foldl]; [split; [by left|intros [?|(? & ? & _)]; [done|set_solver]]|]. rewrite IH.
  assert (Hrefs : forall refs images, id ∈ default ∅ (foldl (add_image_ref (im_id im)) images refs !! ref)
    <-> id ∈ default ∅ (images !! ref) \/ (im_id im = id /\ ref ∈ refs)).
  { clear IH images. induction refs as [|r refs IHr]; intros images; simpl; [set_solver|]. rewrite IHr. unfold add_image_ref.
    destruct (decide (r = ref)) as [->|Hne].
    - rewrite lookup_insert_eq. simpl. rewrite elem_of_union, elem_of_singleton, elem_of_cons. naive_solver.
    - rewrite lookup_insert_ne, elem_of_cons by done. naive_solver. }
  rewrite Hrefs. setoid_rewrite elem_of_cons. naive_solver.
Qed.

Lemma elements_one (X : gset string) id : base.elements X = [id] -> forall x, x ∈ X <-> x = id.
Proof. intros E x. rewrite <- elem_of_elements, E. apply list_elem_of_singleton. Qed.

Lemma repeats_app e a b : repeats e (a ++ b) = repeats e a || repeats (e ++ a) b.
Proof. revert e; induction a as [|x a IH]; intros e; simpl; [by rewrite app_nil_r|]. by rewrite IH, <- app_assoc, orb_assoc. Qed.

(** Every two of the list, in order, and everything before it. *)
Lemma repeats_false e l :
  repeats e l = false -> forall i b, l !! i = Some b ->
  (forall c, c ∈ e -> clash b c = false) /\ (forall j c, (j < i)%nat -> l !! j = Some c -> clash b c = false).
Proof.
  revert e; induction l as [|x l IH]; intros e; simpl; [done|]. intros [He Hr]%orb_false_iff i b Hi.
  assert (Hx : forall c, c ∈ e -> clash x c = false).
  { intros c Hc. destruct (clash x c) eqn:E; [|done]. rewrite (proj2 (existsb_exists _ _)) in He; [done|].
    exists c. split; [by apply list_elem_of_In|done]. }
  destruct i as [|i]; simpl in Hi; [injection Hi as <-; split; [done|lia]|].
  destruct (IH _ Hr i b Hi) as [H1 H2]. split; [intros c Hc; apply H1; set_solver|].
  intros [|j] c Hj Hc; simpl in Hc; [injection Hc as <-; apply H1; set_solver|]. apply (H2 j); [lia|done].
Qed.

Definition published_all (l : list ApplicationService) : list publication := mjoin (map published l).

Section host_ready.
Context (m : ApplicationMapping) (spec : ApplicationSpec) (snapshot : Snapshot) (latest : bool) (pins : gmap string string).

Record ServiceReady (s : ApplicationService) (row : PreflightService) : Prop := {
  rd_named : pf_name row = as_name s /\ pf_reference row = as_image s;
  rd_identity : exists c, c ∈ pv_containers (am_preview m) /\ am_bindings m !! as_name s = Some (ac_id c) /\
    target_validate (adopted_target c) = true /\ pf_target row = Some (adopted_target c);
  rd_mounts : exists c ms, c ∈ pv_containers (am_preview m) /\ am_bindings m !! as_name s = Some (ac_id c) /\
    ac_mounts c = Some ms /\ ac_mounts_cut c = false /\ Forall (fun h => mount_refused h = false) ms /\
    forall w, w ∈ pf_mounts row -> m_kind w = MountBind -> w ∈ ms;
  rd_image : validSHA256 (pf_image row) = true /\
    ((pins !! as_name s = Some (pf_image row) /\ pf_image row ∈ imagesOnHost snapshot) \/
     (pins !! as_name s = None /\ (exists im, im ∈ sn_images snapshot /\ as_image s ∈ image_names im) /\
      forall im, im ∈ sn_images snapshot -> as_image s ∈ image_names im -> im_id im = pf_image row));
  rd_external : forall v, v ∈ as_volumes s -> av_kind v = "named" ->
    dv_external (default (mkDeclared "" false) (declared spec !! av_source v)) = true -> av_source v ∈ map vo_name (sn_volumes snapshot) }.

Lemma owned_some id t : owned m id = Some t ->
  exists c, c ∈ pv_containers (am_preview m) /\ ac_id c = id /\ target_validate (adopted_target c) = true /\ t = adopted_target c.
Proof.
  unfold owned. enough (H : forall acc l, foldl (fun acc c => if bool_decide (ac_id c = id) && target_validate (adopted_target c)
      then Some (adopted_target c) else acc) acc l = Some t ->
    acc = Some t \/ exists c, c ∈ l /\ ac_id c = id /\ target_validate (adopted_target c) = true /\ t = adopted_target c).
  { intros [?|?]%H; done. }
  intros acc l; revert acc; induction l as [|c l IH]; intros acc; simpl; [by left|]. intros [H|(c' & ? & ?)]%IH.
  - destruct (_ && _) eqn:E in H; [|by left]. apply andb_prop in E as [E%bool_decide_eq_true Ev]. injection H as <-. right. exists c. set_solver.
  - right. exists c'. set_solver.
Qed.
Lemma adopted_some id c : adopted m id = Some c -> c ∈ pv_containers (am_preview m) /\ ac_id c = id.
Proof.
  unfold adopted. enough (H : forall acc l, foldl (fun acc c => if bool_decide (ac_id c = id) then Some c else acc) acc l = Some c ->
    acc = Some c \/ (c ∈ l /\ ac_id c = id)) by (intros [?|?]%H; done).
  intros acc l; revert acc; induction l as [|x l IH]; intros acc; simpl; [by left|]. intros [H|[? ?]]%IH; [|right; set_solver].
  case_bool_decide; [injection H as <-; right; set_solver|by left].
Qed.

Lemma image_choice_ok s id :
  image_choice snapshot pins s = (id, []) -> validSHA256 id = true /\
  ((pins !! as_name s = Some id /\ id ∈ imagesOnHost snapshot) \/
   (pins !! as_name s = None /\ (exists im, im ∈ sn_images snapshot /\ as_image s ∈ image_names im) /\
    forall im, im ∈ sn_images snapshot -> as_image s ∈ image_names im -> im_id im = id)).
Proof.
  unfold image_choice. destruct (pins !! as_name s) as [pin|].
  - destruct (validSHA256 pin) eqn:Ev; [|done]. simpl. case_bool_decide; [|done]. intros [= <-]. split; [done|]. by left.
  - case_bool_decide; [done|]. unfold images. destruct (imagesComplete snapshot); [|done]. simpl.
    destruct (base.elements _) as [|x [|]] eqn:E; [done| |done]. destruct (validSHA256 x) eqn:Ev; [|done]. intros [= <-]. split; [done|]. right.
    pose proof (elements_one _ _ E) as Hx. setoid_rewrite image_index_spec in Hx. split; [done|]. split.
    + destruct (proj2 (Hx x) eq_refl) as (im & ? & _ & ?). eauto.
    + intros im Him Hr. apply Hx. eauto.
Qed.

Lemma service_row_ready s external duplicate :
  let row := service_row m spec snapshot latest pins s external duplicate in
  pf_blockers row = [] -> (latest = true \/ bound m (as_name s) <> "") ->
  ServiceReady s row /\ external = false /\ duplicate = false.
Proof.
  intros row Hb Hbound. unfold row, service_row in Hb. cbn [pf_blockers] in Hb.
  set (target := owned m (bound m (as_name s))) in *.
  apply app_eq_nil in Hb as [Hvol Hb]. apply app_eq_nil in Hb as [Hmount Hb]. apply app_eq_nil in Hb as [Hid Hb].
  apply app_eq_nil in Hb as [Him Hb]. apply app_eq_nil in Hb as [He Hd].
  apply when_nil in Hvol, He, Hd. 
  assert (Hne : bound m (as_name s) <> "").
  { destruct Hbound as [Hl|]; [|done]. intros E. rewrite bool_decide_eq_true_2 in Hid by done. rewrite Hl in Hid. done. }
  rewrite bool_decide_eq_false_2 in Hid by done. apply when_nil, bool_decide_eq_false in Hid.
  destruct target as [t|] eqn:Et; [|done].
  assert (Hbind : forall c, ac_id c = bound m (as_name s) -> am_bindings m !! as_name s = Some (ac_id c)).
  { intros c ->. unfold bound in *. destruct (am_bindings m !! as_name s); [done|]. simpl in Hne. done. }
  split; [|done]. split.
  - done.
  - destruct (owned_some _ _ Et) as (c & Hc & Hid' & Hv & ->). exists c. by split_and!; auto.
  - destruct (adopted m (bound m (as_name s))) as [c|] eqn:Ea; [|done]. destruct (adopted_some _ _ Ea) as [Hc Hcid].
    destruct (ac_mounts_cut c) eqn:Ecut; [done|]. destruct (ac_mounts c) as [ms|] eqn:Ems; [|done].
    apply app_eq_nil in Hmount as [Hbinds Href]. apply when_nil in Hbinds, Href. apply negb_false_iff, bool_decide_eq_true in Href.
    simpl in Href. exists c, ms. split_and!; auto.
    + apply Forall_forall. intros h Hh. destruct (mount_refused h) eqn:E; [|done]. exfalso.
      assert (In h (List.filter mount_refused ms)) as Hin by (apply filter_In; split; [by apply list_elem_of_In|done]). by rewrite Href in Hin.
    + unfold row, service_row. cbn [pf_mounts]. intros w Hw Hk. destruct (decide (w ∈ ms)) as [|Hn]; [done|]. exfalso.
      revert Hbinds. apply not_false_iff_true, existsb_exists. exists w. split; [by apply list_elem_of_In|].
      by rewrite bool_decide_eq_true_2, bool_decide_eq_false_2.
  - unfold row, service_row. cbn [pf_image]. apply image_choice_ok. rewrite <- Him. apply surjective_pairing.
  - intros v Hv Hk Hx. destruct (decide (av_source v ∈ map vo_name (sn_volumes snapshot))) as [|Hn]; [done|]. exfalso.
    revert Hvol. apply not_false_iff_true, existsb_exists. exists v. split; [by apply list_elem_of_In|].
    rewrite Hk, Hx, (bool_decide_eq_false_2 (av_source v ∈ _)) by done. by rewrite orb_true_r.
Qed.

Lemma scanned_ready earlier l :
  (latest = true \/ Forall (fun s => bound m (as_name s) <> "") l) ->
  forallb (fun r => bool_decide (pf_blockers r = [])) (scanned_rows m spec snapshot latest pins earlier l) = true ->
  Forall2 ServiceReady l (scanned_rows m spec snapshot latest pins earlier l) /\
  (forall b c, b ∈ published_all l -> c ∈ taken m snapshot -> clash b c = false) /\ repeats earlier (published_all l) = false.
Proof.
  revert earlier; induction l as [|s l IH]; intros earlier Hb; simpl; [split; [constructor|split; [set_solver|done]]|].
  intros [Hs%bool_decide_eq_true Hr]%andb_prop.
  apply service_row_ready in Hs as (Hready & Hext & Hdup).
  2: { destruct Hb as [?|Hb]; [by left|right; by inversion Hb]. }
  destruct (IH (earlier ++ published s)) as (Hf & Ht & Hrep); [|done|].
  { destruct Hb as [?|Hb]; [by left|right; by inversion Hb]. }
  split; [by constructor|]. unfold published_all in *. simpl. rewrite repeats_app, Hdup, Hrep. split; [|done].
  intros b c [Hin|Hin]%elem_of_app Hc; [|by apply Ht]. destruct (clash b c) eqn:E; [|done]. exfalso. revert Hext.
  apply not_false_iff_true, existsb_exists. exists b. split; [by apply list_elem_of_In|]. apply existsb_exists. exists c. split; [by apply list_elem_of_In|done].
Qed.

Lemma plan_clear : plan_blockers m spec snapshot latest = [] ->
  am_version m <> 0 /\ am_mapped m = pv_revision (am_preview m) /\
  (forall name, is_Some (am_bindings m !! name) -> name ∈ serviceNames spec) /\
  msize (am_bindings m) = llen (pv_containers (am_preview m)) /\ (latest = true \/ differ m spec = false).
Proof.
  unfold plan_blockers. intros [Hv [Hd [Hu _]%app_eq_nil]%app_eq_nil]%app_eq_nil. apply when_nil in Hv, Hd, Hu.
  apply orb_false_elim in Hv as [Hv%Z.eqb_neq Hm%negb_false_iff%Z.eqb_eq].
  apply orb_false_elim in Hu as [Hu Hn%negb_false_iff%Z.eqb_eq].
  assert (stray m spec = false /\ (latest = true \/ differ m spec = false)) as [Hstray Hl].
  { destruct latest; simpl in *; [auto|]. apply orb_false_elim in Hd as [? ?]. auto. }
  split_and!; auto. intros name [c Hc]. destruct (decide (name ∈ serviceNames spec)) as [|Hne]; [done|]. exfalso. revert Hstray.
  apply not_false_iff_true, existsb_exists. exists (name, c). split; [by apply list_elem_of_In, elem_of_map_to_list|].
  simpl. by rewrite bool_decide_eq_false_2.
Qed.
End host_ready.

Lemma executable_scanned m spec snapshot latest pins :
  dpf_executable (buildDeploymentPreflight m spec snapshot latest pins) = true ->
  plan_blockers m spec snapshot latest = [] /\
  Forall2 (ServiceReady m spec snapshot pins) (sp_services spec) (dpf_services (buildDeploymentPreflight m spec snapshot latest pins)) /\
  (forall b c, b ∈ published_all (sp_services spec) -> c ∈ taken m snapshot -> clash b c = false) /\
  repeats [] (published_all (sp_services spec)) = false.
Proof.
  intros [Hrows Hplan%bool_decide_eq_true]%andb_prop. unfold buildDeploymentPreflight. cbn [dpf_services].
  change (∅ : gmap portKey (gset string)) with (index_of []) in *. rewrite service_rows_scan in *. split; [done|].
  apply scanned_ready; [|done]. destruct (plan_clear m spec snapshot latest Hplan) as (_ & _ & _ & _ & [?|Hd]); [by left|right].
  apply Forall_forall. intros s Hs He. revert Hd. apply not_false_iff_true, existsb_exists.
  exists s. split; [by apply list_elem_of_In|by apply bool_decide_eq_true_2].
Qed.

(** An executable preflight of a host leaves nothing to chance.  The mapping was reviewed at
    the adopted revision, binds services of the specification only and assigns every adopted
    container; each service has a container whose reported identity is the target, whose mounts
    were all reported and can all be kept or resolved, with no bind mount it did not have, an
    image that is a full digest the host reported and that no other reported image shares the
    reference with, and the external volumes it names; and no published port meets one of the
    host's other containers or an earlier one of the plan. *)
Theorem executable_ready m spec snapshot latest pins :
  let p := buildDeploymentPreflight m spec snapshot latest pins in
  dpf_executable p = true ->
  (am_version m <> 0 /\ am_mapped m = pv_revision (am_preview m) /\
   (forall name, is_Some (am_bindings m !! name) -> name ∈ serviceNames spec) /\
   msize (am_bindings m) = llen (pv_containers (am_preview m))) /\
  Forall2 (ServiceReady m spec snapshot pins) (sp_services spec) (dpf_services p) /\
  (forall i b, published_all (sp_services spec) !! i = Some b ->
     (forall c, c ∈ taken m snapshot -> clash b c = false) /\
     (forall j c, (j < i)%nat -> published_all (sp_services spec) !! j = Some c -> clash b c = false)).
Proof.
  intros p (Hplan & Hready & Htaken & Hrep)%executable_scanned.
  destruct (plan_clear m spec snapshot latest Hplan) as (? & ? & ? & ? & _). split_and!; auto.
  intros i b Hi. split; [intros c; apply Htaken; by eapply list_elem_of_lookup_2|].
  intros j c. by apply (repeats_false [] _ Hrep i b Hi).
Qed.

(** ** A host and its mapping *)

Definition demo_image : string := "sha256:" +:+ demo_hex.
Definition demo_mounts : list Mount := [mkMount MountVolume "shop_data" "/data" false; mkMount MountBind "/srv/www" "/www" true].
Definition demo_old : AdoptedContainer :=
  mkAdopted demo_hex "/shop-web" demo_image (1790000000 * Second) (Some demo_mounts) false.
Definition demo_mapping : ApplicationMapping :=
  mkMapping "i1" 1 1 (mkPreview "a1" "shop" 1 "host" "Host" "shop" [demo_old] "d") ["web"] {["web" := demo_hex]} "docker" "" [].
Definition demo_snapshot : Snapshot :=
  bare_snapshot
    [bare_container demo_hex "/shop-web" "nginx:1.27" demo_image "running" (1790000000 * Second) [mkPort "0.0.0.0" 8080 80 "tcp"] (Some demo_mounts);
     bare_container "other" "/db" "db:1" "sha256:db" "running" (1790000000 * Second) [mkPort "127.0.0.1" 8080 80 "udp"; mkPort "" 5432 5432 "tcp"] None]
    [mkImage demo_image ["nginx:1.27"] [] 0 0] None.

Lemma executable_ready_witness :
  let p := buildDeploymentPreflight demo_mapping demo_spec demo_snapshot true ∅ in
  dpf_executable p = true /\ map pf_image (dpf_services p) = [demo_image] /\
  length (taken demo_mapping demo_snapshot) = 2%nat /\ length (published_all (sp_services demo_spec)) = 1%nat /\
  Forall2 (ServiceReady demo_mapping demo_spec demo_snapshot ∅) (sp_services demo_spec) (dpf_services p).
Proof.
  intros p. assert (He : dpf_executable p = true) by (vm_compute; reflexivity).
  destruct (executable_ready demo_mapping demo_spec demo_snapshot true ∅ He) as (_ & Hready & _).
  split; [exact He|]. do 3 (split; [vm_compute; reflexivity|]). exact Hready.
Defined.

(** ** What an executable preflight of a cluster promises *)

Lemma bool_false_not (P : Prop) `{Decision P} : negb (bool_decide P) = false -> P.
Proof. by intros H1%negb_false_iff%bool_decide_eq_true. Qed.

Lemma existsb_none {A} (f : A -> bool) l x : existsb f l = false -> x ∈ l -> f x = false.
Proof.
  intros H Hx. destruct (f x) eqn:E; [|done]. exfalso. revert H. apply not_false_iff_true, existsb_exists.
  exists x. split; [by apply list_elem_of_In|done].
Qed.

Lemma count_named_occurrences names n : default 0 (count_named names !! n) = occurrences n names.
Proof.
  unfold count_named. enough (H : forall acc, default 0 (foldl (fun acc n => <[n := default 0 (acc !! n) + 1]> acc) acc names !! n) =
    default 0 (acc !! n) + occurrences n names) by (rewrite H, lookup_empty; done).
  induction names as [|x names IH]; intros acc; cbn [foldl occurrences]; [lia|]. rewrite IH. case_decide as E.
  - subst x. rewrite lookup_insert_eq. simpl. lia.
  - rewrite lookup_insert_ne by done. lia.
Qed.

Lemma count_values (M : gmap string string) i j n :
  M !! i = Some n -> M !! j = Some n -> i <> j -> 2 <= default 0 (count_named (map snd (map_to_list M)) !! n).
Proof.
  intros Hi Hj Hne. rewrite count_named_occurrences. apply elem_of_map_to_list in Hi, Hj.
  assert (H : forall l : list (string * string), (i, n) ∈ l -> (j, n) ∈ l -> 2 <= occurrences n (map snd l)); [|by apply H].
  assert (Hone : forall (l : list (string * string)) k, (k, n) ∈ l -> 1 <= occurrences n (map snd l)).
  { intros l k Hk. apply occurrences_pos, list_elem_of_fmap. by exists (k, n). }
  induction l as [|x l IH]; [set_solver|]. cbn [map occurrences]. pose proof (occurrences_nonneg n (map snd l)).
  intros [E1|H1]%elem_of_cons [E2|H2]%elem_of_cons.
  - congruence.
  - rewrite decide_True by by subst. specialize (Hone _ _ H2). lia.
  - rewrite decide_True by by subst. specialize (Hone _ _ H1). lia.
  - specialize (IH H1 H2). case_decide; lia.
Qed.

Section cluster_ready.
Context (sum_hex : string -> string) (m : ApplicationMapping) (spec : ApplicationSpec) (snapshot : Snapshot) (applied : list string).
Let objs := KubernetesNames sum_hex (pv_project (am_preview m)) (serviceNames spec).
Let ns := am_namespace m.

Record ClusterReady (s : ApplicationService) : Prop := {
  cr_volumes : (forall v, v ∈ as_volumes s -> av_kind v = "named") /\ llen (as_volumes s) <= MaxKubernetesMounts;
  cr_chosen : forall v, v ∈ as_volumes s ->
    is_Some (kube_volume (sp_kubernetes spec) (av_source v)) /\ default 0 (volumeUsers spec !! av_source v) <= 1;
  cr_ports : NoDup (map (fun p => (ap_published p, ap_protocol p)) (as_ports s)) /\ forall p, p ∈ as_ports s -> ap_host_ip p = "";
  cr_restart : as_restart s ∈ kubernetesRestart;
  cr_name : forall name other, objs !! as_name s = Some name -> objs !! other = Some name -> other = as_name s;
  cr_untaken : forall k w name, sn_kubernetes snapshot = Some k -> w ∈ ki_workloads k -> wl_kind w = "Deployment" ->
    wl_namespace w = ns -> objs !! as_name s = Some name -> wl_name w = name -> wl_instance w = am_instance m;
  cr_kept : forall old name, KubernetesNames sum_hex (pv_project (am_preview m)) applied !! as_name s = Some old ->
    objs !! as_name s = Some name -> old = name;
  cr_ip : forall k have, sn_kubernetes snapshot = Some k -> have ∈ ki_services k ->
    serviceIP (sp_kubernetes spec) (as_name s) <> "" ->
    ks_ip have = serviceIP (sp_kubernetes spec) (as_name s) <->
    ks_namespace have = ns /\ ks_name have = default "" (objs !! as_name s) /\ ks_instance have = am_instance m }.

Lemma volume_codes_clear s k users :
  (kubernetesVolumeCodes s k users).1 = [] ->
  ((forall v, v ∈ as_volumes s -> av_kind v = "named") /\ llen (as_volumes s) <= MaxKubernetesMounts) /\
  forall v, v ∈ as_volumes s -> is_Some (kube_volume k (av_source v)) /\ default 0 (users !! av_source v) <= 1.
Proof.
  unfold kubernetesVolumeCodes. cbv zeta. cbn [fst]. intros [Hc Hs%when_nil]%app_eq_nil.
  destruct (_ || _) eqn:Eb in Hc; [done|]. apply orb_false_elim in Eb as [Hb Hl].
  assert (Hnamed : forall v, v ∈ as_volumes s -> av_kind v = "named").
  { intros v Hv. exact (bool_false_not _ (existsb_none _ _ _ Hb Hv)). }
  assert (Hall : List.filter (fun v => bool_decide (av_kind v = "named")) (as_volumes s) = as_volumes s).
  { clear -Hnamed. induction (as_volumes s) as [|v l IH]; simpl; [done|]. rename Hnamed into Hn.
    rewrite bool_decide_eq_true_2 by (apply Hn; set_solver). f_equal. apply IH. intros; apply Hn; set_solver. }
  rewrite Hall in *. destruct (existsb _ _) eqn:Eu in Hc; [done|]. split; [split; [done|lia]|].
  intros v Hv. pose proof (existsb_none _ _ _ Hs Hv) as Hshared. pose proof (existsb_none _ _ _ Eu Hv) as Hun. simpl in *.
  rewrite Hshared in Hun. simpl in Hun. apply bool_decide_eq_false, not_eq_None_Some in Hun. split; [done|lia].
Qed.

Lemma ip_clear s k have :
  ip_blockers sum_hex m spec snapshot s = [] -> sn_kubernetes snapshot = Some k -> have ∈ ki_services k ->
  serviceIP (sp_kubernetes spec) (as_name s) <> "" ->
  ks_ip have = serviceIP (sp_kubernetes spec) (as_name s) <->
  ks_namespace have = ns /\ ks_name have = default "" (objs !! as_name s) /\ ks_instance have = am_instance m.
Proof.
  unfold ip_blockers. intros H Hk Hin Hne. rewrite Hk, bool_decide_eq_false_2 in H by done.
  assert (Hnil : forall (f : KService -> list string) l x, mjoin (map f l) = [] -> x ∈ l -> f x = []).
  { intros f l x. induction l as [|y l IH]; simpl; [set_solver|]. intros [Hy Hl]%app_eq_nil [->|Hx]%elem_of_cons; auto. }
  specialize (Hnil _ _ _ H Hin). cbv beta zeta in Hnil. apply app_eq_nil in Hnil as [Hb%when_nil Hb2%when_nil]. split; intros Hip.
  - rewrite bool_decide_eq_true_2 in Hb by done. apply negb_false_iff in Hb.
    apply andb_prop in Hb as [[?%bool_decide_eq_true ?%bool_decide_eq_true]%andb_prop ?%bool_decide_eq_true]. done.
  - destruct Hip as (H1 & H2 & H3). rewrite !bool_decide_eq_true_2 in Hb2 by done. simpl in Hb2. by apply bool_false_not in Hb2.
Qed.

Lemma kube_row_ready s :
  as_name s ∈ serviceNames spec -> pf_blockers (kube_row sum_hex m spec snapshot applied (volumeUsers spec) s) = [] -> ClusterReady s.
Proof.
  intros Hs. unfold kube_row. cbv zeta. cbn [pf_blockers]. intros [Hip Hb]%app_eq_nil.
  apply app_eq_nil in Hb as [Hc [_ Hp%when_nil]%app_eq_nil]. apply when_nil in Hc. apply bool_false_not in Hc.
  unfold kube_codes in Hc. cbv zeta in Hc. cbn [fst] in Hc. apply app_eq_nil in Hc as [Hv Hc].
  apply app_eq_nil in Hc as [Hhost%when_nil Hc]. apply app_eq_nil in Hc as [Hrestart%when_nil Hc].
  apply app_eq_nil in Hc as [Hname%when_nil Hc]. apply app_eq_nil in Hc as [Htaken%when_nil Hren%when_nil].
  apply orb_false_elim in Hname as [[Hcount _]%orb_false_elim _]. apply volume_codes_clear in Hv as [Hvols Hchosen].
  assert (Hobj : forall name, objs !! as_name s = Some name -> object sum_hex m spec (as_name s) = name).
  { intros name Hn. unfold object, objects. fold objs. by rewrite Hn. }
  split; try done.
  - unfold ports_repeat in Hp. apply negb_false_iff, seen_loop_spec in Hp as (_ & Hnd & _). split; [done|].
    intros p Hin. exact (bool_false_not _ (existsb_none _ _ _ Hhost Hin)).
  - exact (bool_false_not _ Hrestart).
  - intros name other Hn Ho. destruct (decide (other = as_name s)) as [|Hne]; [done|]. exfalso.
    rewrite (Hobj _ Hn) in Hcount. pose proof (count_values _ _ _ _ Ho Hn Hne) as H2. unfold named_objects, objects in Hcount. fold objs in Hcount. lia.
  - intros k w name Hk Hw Hkind Hns Hn Hwn. destruct (decide (wl_instance w = am_instance m)) as [|Hne]; [done|]. exfalso.
    apply bool_decide_eq_false in Htaken. apply Htaken. rewrite (Hobj _ Hn). unfold held. rewrite Hk. apply elem_of_list_to_set, list_elem_of_fmap.
    exists w. split; [done|]. apply list_elem_of_In, filter_In. split; [by apply list_elem_of_In|].
    cbv beta. by rewrite (bool_decide_eq_true_2 _ Hkind), (bool_decide_eq_true_2 _ Hns), (bool_decide_eq_false_2 _ Hne).
  - intros old name Ho Hn. apply orb_false_elim in Hren as [Hren _]. unfold was in Hren. rewrite Ho, (Hobj _ Hn) in Hren. exact (bool_false_not _ Hren).
  - intros k have. by apply ip_clear.
Qed.
End cluster_ready.

(** An executable preflight of a cluster.  The namespace is one the endpoint may use; every
    service mounts named volumes only, each with a storage choice and no other service's, keeps
    its restart policy expressible, publishes distinct ports on no host address, gets an object
    name no other service of the plan has, no foreign Deployment of the namespace holds and the
    one it already had; and a fixed service address belongs to its own Service and no other. *)
Theorem cluster_executable_ready sum_hex m spec snapshot applied :
  dpf_executable (buildKubernetesPreflight sum_hex m spec snapshot applied) = true ->
  am_namespace m ∈ am_namespaces m /\ Forall (ClusterReady sum_hex m spec snapshot applied) (sp_services spec).
Proof.
  intros [Hrows Hns%bool_decide_eq_true%when_nil%bool_false_not]%andb_prop. split; [done|].
  apply Forall_forall. intros s Hs. apply kube_row_ready.
  - unfold serviceNames. apply list_elem_of_fmap. eauto.
  - rewrite forallb_forall in Hrows. eapply bool_decide_eq_true_1, Hrows. by apply in_map, list_elem_of_In.
Qed.

Definition demo_cluster_web : ApplicationService :=
  mkAService [mkAPort 80 8080 "" "tcp"] "always" "web" "nginx:1.27" ∅ [mkAVolume "named" "data" "/data" false].
Definition demo_cluster_spec : ApplicationSpec :=
  mkSpec "compose.v1" [demo_cluster_web] [mkDeclared "data" false]
    (Some (mkExtension {["data" := mkKVolume "" "1Gi" "ReadWriteOnce"]} {["web" := "10.0.0.9"]})).
Definition demo_cluster_mapping : ApplicationMapping :=
  mkMapping "i1" 1 1 (mkPreview "a1" "shop" 1 "host" "Host" "shop" [] "d") ["web"] ∅ "kubernetes" "shop" ["shop"].
Definition demo_cluster : Snapshot :=
  bare_snapshot [] [] (Some (mkKubernetes [] ["shop"] [mkWorkload "Deployment" "shop" "other" 1 1 1 ["db"] false "" ""] []
    [mkKService "shop" "other" "ClusterIP" "10.0.0.8" ["5432/TCP"] "" ""] [] [])).

Lemma cluster_executable_ready_witness :
  dpf_executable (buildKubernetesPreflight hex0 demo_cluster_mapping demo_cluster_spec demo_cluster ["web"]) = true /\
  Forall (ClusterReady hex0 demo_cluster_mapping demo_cluster_spec demo_cluster ["web"]) (sp_services demo_cluster_spec).
Proof.
  assert (He : dpf_executable (buildKubernetesPreflight hex0 demo_cluster_mapping demo_cluster_spec demo_cluster ["web"]) = true)
    by (vm_compute; reflexivity).
  split; [exact He|]. apply (cluster_executable_ready hex0 demo_cluster_mapping demo_cluster_spec demo_cluster ["web"] He).
Defined.

(** ** What a draft without a blocker has verified *)

Lemma mjoin_nil_elem {A} (ls : list (list A)) l : mjoin ls = [] -> l ∈ ls -> l = [].
Proof. induction ls as [|x ls IH]; simpl; [set_solver|]. intros [-> ?]%app_eq_nil [->|?]%elem_of_cons; auto. Qed.

Lemma add_new_spec l x : NoDup l -> NoDup (add_new l x) /\ forall y, y ∈ add_new l x <-> y ∈ l \/ y = x.
Proof.
  intros H. unfold add_new. case_bool_decide as Hx; [split; [done|set_solver]|].
  split; [|set_solver]. apply NoDup_app. split; [done|]. split; [set_solver|apply NoDup_singleton].
Qed.
Lemma add_new_fold l : NoDup (foldl add_new [] l) /\ forall y, y ∈ foldl add_new [] l <-> y ∈ l.
Proof.
  induction l as [|x l IH] using rev_ind; [split; [constructor|done]|]. rewrite foldl_app. simpl. destruct IH as [Hn Hi].
  destruct (add_new_spec _ x Hn) as [? Hx]. split; [done|]. intros y. rewrite Hx, Hi, elem_of_app, list_elem_of_singleton. done.
Qed.

Section draft_ready.
Context (sum_hex : string -> string) (m : ApplicationMapping) (spec : ApplicationSpec) (snapshot : Snapshot)
  (capabilities : gset string) (inspections : gmap string ContainerInspection).

Lemma inspected_blockers p row : pf_blockers (inspected_row capabilities inspections p row) = [] -> pf_blockers row = [].
Proof. unfold inspected_row. destruct (_ && _); [|done]. cbn [pf_blockers]. by intros [? _]%app_eq_nil. Qed.

Lemma inspected_verified p row t :
  inspectsVerdicts capabilities = true -> dpf_executable p = true -> pf_target row = Some t ->
  pf_blockers (inspected_row capabilities inspections p row) = [] ->
  exists i, inspections !! pf_container row = Some i /\ ci_target i = t /\ ci_verified i = true.
Proof.
  intros Hi Hp Ht. unfold inspected_row. rewrite Hi, Hp, bool_decide_eq_true_2 by (by rewrite Ht). cbn [andb pf_blockers].
  intros [_ Hb]%app_eq_nil. revert Hb. unfold inspectionBlockers. destruct (inspections !! pf_container row) as [i|]; [|done].
  rewrite Ht. case_bool_decide as E; [|done]. injection E as E. simpl. destruct (ci_verified i) eqn:Ev; [|done]. eauto.
Qed.

Lemma inspected_volumes p row : row_volumes (inspected_row capabilities inspections p row) = row_volumes row.
Proof. unfold row_volumes, inspected_row. by destruct (_ && _). Qed.

Lemma host_capabilities plan : pl_namespace plan = "" -> capabilityBlockers capabilities plan = [] ->
  CapabilityDeploymentApply ∈ capabilities /\ inspectsVerdicts capabilities = true.
Proof.
  intros Hn. unfold capabilityBlockers. rewrite Hn. simpl. intros [Ha%when_nil [Hi%when_nil _]%app_eq_nil]%app_eq_nil.
  by apply bool_false_not in Ha; apply negb_false_iff in Hi.
Qed.
End draft_ready.

(** What a plan says of a service of a host once nothing blocks it. *)
Definition planned_verified (inspections : gmap string ContainerInspection) (s : ApplicationService) (ps : PlannedService) : Prop :=
  ps_name ps = as_name s /\ ps_ports ps = as_ports s /\ validSHA256 (ps_image ps) = true /\ target_validate (ps_replaces ps) = true /\
  exists i, inspections !! ps_container ps = Some i /\ ci_target i = ps_replaces ps /\ ci_verified i = true.

(** A plan drafted for a host without a blocker replaces only what was looked at: each of its
    services runs a full image digest in place of a container whose live inspection answered for
    this very identity (container, image and creation time) and found its configuration
    reproducible; the agent can apply and inspect; and the plan lists each volume it mounts once. *)
Theorem draft_verified sum_hex m spec snapshot latest pins capabilities inspections :
  let p := buildDeploymentPreflight m spec snapshot latest pins in
  let plan := draft_plan sum_hex m spec snapshot capabilities inspections p in
  clustered m = false -> draft_blockers sum_hex m spec snapshot capabilities inspections p = [] ->
  Forall2 (planned_verified inspections) (sp_services spec) (pl_services plan) /\
  {[CapabilityDeploymentApply; CapabilityContainerInspect; CapabilityContainerInspectVerdict]} ⊆ capabilities /\
  NoDup (pl_volumes plan) /\ (forall v, v ∈ pl_volumes plan <-> exists row, row ∈ dpf_services p /\ v ∈ row_volumes row).
Proof.
  intros p plan Hk Hb. unfold draft_blockers in Hb. apply app_eq_nil in Hb as [Hplan [_ [Hrows Hcaps]%app_eq_nil]%app_eq_nil].
  assert (Hn : plan_namespace m = "") by (unfold plan_namespace; by rewrite Hk).
  apply host_capabilities in Hcaps as [Happly Hins]; [|done].
  assert (Hclear : forall row, row ∈ dpf_services p -> pf_blockers (inspected_row capabilities inspections p row) = []).
  { intros row Hr. eapply mjoin_nil_elem; [exact Hrows|]. unfold draft_rows. rewrite map_map. apply list_elem_of_fmap. eauto. }
  assert (Hexec : dpf_executable p = true).
  { apply andb_true_intro. split; [|by apply bool_decide_eq_true_2]. apply forallb_forall. intros row Hr%list_elem_of_In.
    apply bool_decide_eq_true_2. by eapply inspected_blockers, Hclear. }
  destruct (executable_scanned _ _ _ _ _ Hexec) as (_ & Hready & _). split_and!.
  - subst plan. unfold draft_plan, draft_rows. cbn [pl_services]. fold p in Hready.
    assert (Hsub : forall row, row ∈ dpf_services p -> pf_blockers (inspected_row capabilities inspections p row) = []) by done. revert Hsub.
    generalize (dpf_services p) (sp_services spec) Hready. clear -Hins Hexec Hn. intros rows services Hr. induction Hr as [|s row services rows Hs Hr IH]; intros Hsub; simpl; constructor.
    + destruct Hs as [[Hname _] (c & _ & _ & Hv & Ht) _ [Hi _] _]. specialize (Hsub row ltac:(set_solver)).
      destruct (inspected_verified capabilities inspections p row _ Hins Hexec Ht Hsub) as (i & Hi1 & Hi2 & Hi3).
      unfold inspected_row. rewrite Hins, Hexec, bool_decide_eq_true_2 by (by rewrite Ht). cbn [andb]. unfold planned_verified, planned_service. cbn.
      rewrite Ht. split_and!; eauto.
    + apply IH. set_solver.
  - unfold inspectsVerdicts in Hins. gobool. set_solver.
  - apply add_new_fold.
  - intros v. unfold plan, draft_plan, draft_rows. cbn [pl_volumes]. rewrite (proj2 (add_new_fold _)), map_map, list_elem_of_join. split.
    + intros (l & Hv & (row & -> & Hr)%list_elem_of_fmap). exists row. by rewrite inspected_volumes in Hv.
    + intros (row & Hr & Hv). exists (row_volumes row). split; [done|]. apply list_elem_of_fmap. exists row. by rewrite inspected_volumes.
Qed.

Definition demo_capabilities : gset string :=
  {[CapabilityDeploymentApply; CapabilityContainerInspect; CapabilityContainerInspectVerdict; CapabilityDeploymentPull]}.
Definition demo_inspection : ContainerInspection :=
  mkInspection (adopted_target demo_old) (1790000000 * Second) "running" "" 0 (mkPlatform "linux" "amd64" "") "always" 0
    [] (mkMountCounts 1 1 0 0 1) "bridge" 1 false false false [] true None.

Lemma draft_verified_witness :
  let p := buildDeploymentPreflight demo_mapping demo_spec demo_snapshot true ∅ in
  let plan := draft_plan hex0 demo_mapping demo_spec demo_snapshot demo_capabilities {[demo_hex := demo_inspection]} p in
  clustered demo_mapping = false /\
  draft_blockers hex0 demo_mapping demo_spec demo_snapshot demo_capabilities {[demo_hex := demo_inspection]} p = [] /\
  pl_volumes plan = ["shop_data"] /\
  Forall2 (planned_verified {[demo_hex := demo_inspection]}) (sp_services demo_spec) (pl_services plan).
Proof.
  intros p plan. assert (Hc : clustered demo_mapping = false) by reflexivity.
  assert (Hb : draft_blockers hex0 demo_mapping demo_spec demo_snapshot demo_capabilities {[demo_hex := demo_inspection]} p = [])
    by (vm_compute; reflexivity).
  destruct (draft_verified hex0 demo_mapping demo_spec demo_snapshot true ∅ demo_capabilities {[demo_hex := demo_inspection]} Hc Hb) as [Hall _].
  split; [exact Hc|]. split; [exact Hb|]. split; [vm_compute; reflexivity|]. exact Hall.
Defined.
