(* ===== verification/Adoption.v ===== *)
(** * Adoption and mapping

    internal/store/application_adoption.go and application_mapping.go: taking ownership of the
    containers a host reports for a compose project, assigning them to services, mapping an
    application to a namespace of a cluster, and letting go of both.

    The uniqueness of the instance and resource tables (migrations 21, 22 and 34) is part of the
    statements.  Parameters: [uuid_parse], the decoding and digest of stored definitions, and
    [preview_digest], the SHA-256 of a preview's JSON. *)
From Stdlib Require Import ZArith QArith Lia Ascii String.
From stdpp Require Import base gmap strings list sorting.
From S2P Require Import Prelude Regex Text Grammar KubeNames Permissions Inspection Frame Inventory Spec Store TenantAccess Commands Direct.
From S2P Require Import Clamp Applications Preflight.

#[local] Open Scope Z_scope.

Record AdoptionRequest := mkAdoption { aq_endpoint : string; aq_project : string; aq_digest : string; aq_confirm : string }.
Record ApplicationInstance := mkAppInstance {
  in_id : string; in_app : string; in_endpoint : string; in_endpoint_name : string; in_project : string;
  in_revision : Z; in_mapping : Z; in_current : Z; in_previous : Z; in_created_by : string; in_created : time;
  in_count : Z; in_containers : list AdoptedContainer; in_namespace : string }.
Record MappingRequest := mkMappingRequest {
  mr_instance : string; mr_version : Z; mr_digest : string; mr_confirm : string; mr_bindings : gmap string string;
  mr_endpoint : string; mr_namespace : string }.

(** ** Rows *)

(** The endpoint, in the caller's organization and environment. *)
Definition endpoint_of (a : TenantAccess) (endpoint : string) (db : DB) : option EndpointRow :=
  match endpoints db !! endpoint with Some e => if ep_here a e then Some e else None | None => None end.

Definition insert_instance (id : string) (i : InstanceRow) : tx unit :=
  free ← gets (fun db => bool_decide (instances db !! id = None)
           && (count (fun o => bool_decide (i_app o = i_app i) || (bool_decide (i_endpoint o = i_endpoint i) && bool_decide (i_project o = i_project i)))
                 (instances db) =? 0));
  _ ← ensure free ErrUnique;
  known ← gets (fun db =>
    match applications db !! i_app i with Some r => in_scope (i_org i) (i_env i) r | None => false end
    && match endpoints db !! i_endpoint i with Some e => bool_decide (ep_org e = i_org i) && bool_decide (ep_env e = i_env i) | None => false end
    && bool_decide (is_Some (revisions db !! (i_app i, i_revision i))));
  _ ← ensure (known && btw 0 1000000000 (i_mapping i) && btw 0 100 (i_mapped i)) ErrConstraint;
  modify (fun db => set_instances (<[id := i]> (instances db)) db).

(** The partial unique index on (instance, service). *)
Definition service_free (key : string * string) (r : ResourceRow) (db : DB) : bool :=
  negb (nonempty (xr_service r))
  || forallb (fun kr => negb (bool_decide (xr_instance kr.2 = xr_instance r) && bool_decide (xr_service kr.2 = xr_service r)))
       (map_to_list (delete key (resources db))).
Definition put_resource (key : string * string) (r : ResourceRow) : tx unit :=
  free ← gets (service_free key r);
  _ ← ensure free ErrUnique;
  modify (fun db => set_resources (<[key := r]> (resources db)) db).
Definition insert_resource (endpoint container : string) (r : ResourceRow) : tx unit :=
  free ← gets (fun db => bool_decide (resources db !! (endpoint, container) = None));
  _ ← ensure free ErrUnique;
  known ← gets (fun db => match instances db !! xr_instance r with Some i => bool_decide (i_endpoint i = endpoint) | None => false end);
  _ ← ensure known ErrConstraint;
  put_resource (endpoint, container) r.

(** Deleting an instance deletes its resources and image checks (ON DELETE CASCADE). *)
Definition delete_instance (id : string) (db : DB) : DB :=
  set_resources (filter (fun kr => xr_instance kr.2 <> id) (resources db))
  (set_image_checks (filter (fun kc => kc.1.1 <> id) (image_checks db))
  (set_instances (delete id (instances db)) db)).

(** [SELECT ... FROM application_resources WHERE instance_id=? AND endpoint_id=? ORDER BY container_id]. *)
Definition instance_resources (instance endpoint : string) (db : DB) : list (string * ResourceRow) :=
  merge_sort by_first
    (map (fun kr => (kr.1.2, kr.2))
       (List.filter (fun kr => bool_decide (kr.1.1 = endpoint) && bool_decide (xr_instance kr.2 = instance)) (map_to_list (resources db)))).
Definition claimed (endpoint : string) (db : DB) : Z :=
  llen (List.filter (fun kr => bool_decide (kr.1.1 = endpoint)) (map_to_list (resources db))).

Definition deployments_of (a : TenantAccess) (instance state : string) (d : DeploymentRow) : bool :=
  bool_decide (d_org d = OrganizationID a) && bool_decide (d_env d = EnvironmentID a) && bool_decide (d_instance d = instance)
  && bool_decide (d_state d = state).

(** ** The preview *)

Fixpoint project_containers (project : string) (seen : gset string) (cs : list Container) : option (list AdoptedContainer) :=
  match cs with
  | [] => Some []
  | c :: cs' =>
      if negb (bool_decide (ct_project c = project)) then project_containers project seen cs'
      else if negb (re_match hex64 (ct_id c)) || (ct_created c =? zero_time) || bool_decide (ct_image_id c = "") || bool_decide (ct_id c ∈ seen)
      then None
      else match project_containers project ({[ct_id c]} ∪ seen) cs' with
           | Some out => Some (mkAdopted (ct_id c) (ct_name c) (ct_image_id c) (ct_created c) (ct_mounts c) (ct_mounts_cut c) :: out)
           | None => None
           end
  end.
Definition by_id (x y : AdoptedContainer) : Prop := String.leb (ac_id x) (ac_id y) = true.
#[export] Instance by_id_dec : RelDecision by_id.
Proof. intros x y. unfold by_id. apply _. Defined.

Definition inventory_current (received observed now : time) : bool :=
  negb ((time_sub now received >? 3 * Minute) || (time_sub received now >? Minute)
        || (time_sub now observed >? 5 * Minute) || (time_sub observed now >? 5 * Minute)).

Section adoption.
Context (uuid_parse : string -> option string).
Context (Marshal : ApplicationSpec -> string) (Unmarshal : string -> option ApplicationSpec) (sum_hex : string -> string).
Context (preview_digest : AdoptionPreview -> string).

Definition adoptionPreview (a : TenantAccess) (app endpoint project : string) (now : time) : tx AdoptionPreview :=
  _ ← ensure (nonempty (EnvironmentID a) && validTenantName project) ErrInvalid;
  row ← gets (app_of a app);
  r ← one row ErrNotFound;
  joined ← gets (fun db => match endpoint_of a endpoint db, inventories db !! endpoint with Some e, Some i => Some (e, i) | _, _ => None end);
  ei ← one joined ErrNotFound;
  _ ← ensure (bool_decide (ep_state ei.1 = "active") && bool_decide (ep_runtime ei.1 = "docker")
              && inventory_current (iv_received ei.2) (iv_observed ei.2) now) ErrAdoptionChanged;
  snapshot ← one (iv_snapshot ei.2) ErrAdoptionChanged;
  _ ← ensure (nonempty (en_version (sn_engine snapshot)) && negb (bool_decide ("containers" ∈ sn_truncated snapshot))) ErrAdoptionChanged;
  cs ← one (project_containers project ∅ (sn_containers snapshot)) ErrAdoptionChanged;
  _ ← ensure ((0 <? llen cs) && (llen cs <=? MaxContainers)) ErrAdoptionChanged;
  let p := mkPreview app (app_name r) (app_latest r) endpoint (ep_name ei.1) project (merge_sort by_id cs) "" in
  mret (mkPreview app (app_name r) (app_latest r) endpoint (ep_name ei.1) project (merge_sort by_id cs) (preview_digest p)).

Definition PreviewApplicationAdoption (a : TenantAccess) (app endpoint project : string) (now : time) (fresh : string) (db : DB) :=
  readTenant a ApplicationAdopt (adoptionPreview a app endpoint project now) now fresh db.

(** ** Adopting and releasing *)

Definition adopt_body (a : TenantAccess) (app instance : string) (r : AdoptionRequest) (now : time) : tx ApplicationInstance :=
  p ← adoptionPreview a app (aq_endpoint r) (aq_project r) now;
  _ ← ensure (bool_decide (aq_digest r = pv_digest p) && bool_decide (aq_confirm r = pv_project p)) ErrAdoptionChanged;
  n ← gets (claimed (pv_endpoint p));
  _ ← ensure (n + llen (pv_containers p) <=? MaxContainers) ErrApplicationLimit;
  _ ← insert_instance instance (mkInstance app (pv_endpoint p) (OrganizationID a) (EnvironmentID a) (pv_project p) (pv_revision p)
        (ActorID a) now 0 0 0 0 "");
  _ ← update_application a app (fun _ => true) (with_removed None);
  _ ← tx_iter (fun c => insert_resource (pv_endpoint p) (ac_id c) (mkResource instance (ac_name c) (ac_image c) (ac_created c) ""))
        (pv_containers p);
  mret (mkAppInstance instance app (pv_endpoint p) (pv_endpoint_name p) (pv_project p) (pv_revision p) 0 0 0 (ActorID a) now
          (llen (pv_containers p)) (pv_containers p) "").
Definition AdoptApplication (a : TenantAccess) (app : string) (r : AdoptionRequest) (instance : string) (now : time) (fresh : string) (db : DB)
    : res StoreErr ApplicationInstance * DB :=
  match uuid_parse app with
  | None => (Fail ErrInvalid, db)
  | Some app => withTenantTarget a ApplicationAdopt (app +:+ "/instances/" +:+ instance +:+ "/endpoints/" +:+ aq_endpoint r)
                  (adopt_body a app instance r now) now fresh db
  end.

(** The one planned or applying deployment of the instance. *)
Definition live_of (a : TenantAccess) (p : DeploymentRow -> bool) (instance : string) (db : DB) : option DeploymentRow :=
  List.find (fun d => (deployments_of a instance "planned" d || deployments_of a instance "applying" d) && p d)
    (map snd (map_to_list (deployments db))).
(** Refused while one applies or an unexpired plan waits; an expired plan goes. *)
Definition refuse_live (a : TenantAccess) (p : DeploymentRow -> bool) (instance : string) (now : time) : tx unit :=
  live ← gets (live_of a p instance);
  _ ← ensure (negb (match live with Some d => bool_decide (d_state d = "applying") | None => false end)) ErrDeploymentInProgress;
  _ ← ensure (negb (match live with Some d => bool_decide (d_state d = "planned") && (d_expires d >? now) | None => false end)) ErrDeploymentPlanned;
  modify (delete_deployments (fun d => deployments_of a instance "planned" d && p d)).

Definition release_body (a : TenantAccess) (app id confirm : string) (now : time) : tx unit :=
  _ ← ensure (nonempty (EnvironmentID a)) ErrInvalid;
  row ← gets (app_of a app);
  _ ← one row ErrNotFound;
  _ ← refuse_live a (fun d => bool_decide (d_app d = app)) id now;
  found ← gets (fun db => match instances db !! id with
                          | Some i => inst_here a app i && bool_decide (i_project i = confirm)
                          | None => false
                          end);
  _ ← ensure found ErrAdoptionChanged;
  modify (delete_instance id).
Definition ReleaseApplication (a : TenantAccess) (app id confirm : string) (now : time) (fresh : string) (db : DB) : res StoreErr unit * DB :=
  match uuid_parse app with
  | None => (Fail ErrInvalid, db)
  | Some app =>
      match uuid_parse id with
      | None => (Fail ErrAdoptionChanged, db)
      | Some id => withTenantTarget a ApplicationRelease (app +:+ "/instances/" +:+ id) (release_body a app id confirm now) now fresh db
      end
  end.

(** ** The mapping *)

Definition kubernetesPreview (a : TenantAccess) (app endpoint project : string) : tx AdoptionPreview :=
  row ← gets (app_of a app);
  r ← one row ErrNotFound;
  erow ← gets (endpoint_of a endpoint);
  e ← one erow ErrNotFound;
  mret (mkPreview app (app_name r) (app_latest r) endpoint (ep_name e) project [] "").

Definition mappedServices (a : TenantAccess) (app : string) (p : AdoptionPreview) : tx (list string) :=
  row ← gets (revision_of a app (pv_revision p));
  r ← one row ErrNoRows;
  _ ← ensure (bool_decide (applicationSpecDigest sum_hex (rv_spec r) = rv_digest r)) ErrRevisionCorrupt;
  spec ← one (Unmarshal (rv_spec r)) ErrRevisionCorrupt;
  _ ← ensure (ValidateApplicationSpec Marshal sum_hex spec) ErrRevisionCorrupt;
  mret (serviceNames spec).

(** The owned containers as the host now reports them and the services they are bound to. *)
Fixpoint owned_loop (current : gmap string AdoptedContainer) (rows : list (string * ResourceRow)) : option (list AdoptedContainer * gmap string string) :=
  match rows with
  | [] => Some ([], ∅)
  | (id, r) :: rows' =>
      match current !! id with
      | None => None
      | Some now =>
          if negb (bool_decide (ac_image now = xr_image r)) || negb (ac_created now / 1000 =? xr_created r / 1000) then None
          else match owned_loop current rows' with
               | None => None
               | Some (cs, bindings) => Some (now :: cs, if nonempty (xr_service r) then <[xr_service r := id]> bindings else bindings)
               end
      end
  end.

Definition containers_map (cs : list AdoptedContainer) : gmap string AdoptedContainer := foldl (fun m c => <[ac_id c := c]> m) ∅ cs.
Definition with_containers (p : AdoptionPreview) (cs : list AdoptedContainer) : AdoptionPreview :=
  mkPreview (pv_application p) (pv_application_name p) (pv_revision p) (pv_endpoint p) (pv_endpoint_name p) (pv_project p) cs (pv_digest p).

Definition applicationMapping (a : TenantAccess) (app : string) (now : time) : tx ApplicationMapping :=
  joined ← gets (fun db => match instance_of a app db with
                           | Some ki => (fun e => (ki.1, ki.2, e)) <$> endpoints db !! i_endpoint ki.2
                           | None => None
                           end);
  kie ← one joined ErrNotFound;
  let '(id, i, e) := kie in
  let kube := bool_decide (ep_runtime e = RuntimeKubernetes) in
  _ ← ensure (Bool.eqb kube (nonempty (i_namespace i))) ErrRuntimeUnsupported;
  if kube then
    p ← kubernetesPreview a app (i_endpoint i) (i_project i);
    services ← mappedServices a app p;
    mret (mkMapping id (i_mapping i) (i_mapped i) p services ∅ (ep_runtime e) (i_namespace i) (ep_namespaces e))
  else
    p ← adoptionPreview a app (i_endpoint i) (i_project i) now;
    rows ← gets (instance_resources id (i_endpoint i));
    ob ← one (owned_loop (containers_map (pv_containers p)) rows) ErrAdoptionChanged;
    _ ← ensure (0 <? llen ob.1) ErrAdoptionChanged;
    services ← mappedServices a app p;
    mret (mkMapping id (i_mapping i) (i_mapped i) (with_containers p ob.1) services ob.2 (ep_runtime e) (i_namespace i) []).

Definition ReadApplicationMapping (a : TenantAccess) (app : string) (now : time) (fresh : string) (db : DB) : res StoreErr ApplicationMapping * DB :=
  match uuid_parse app with
  | None => (Fail ErrInvalid, db)
  | Some app =>
      if negb (nonempty (EnvironmentID a)) then (Fail ErrInvalid, db)
      else readTenant a ApplicationRead (applicationMapping a app now) now fresh db
  end.

(** ** Setting it *)

(** The application's rows while it is reviewed. *)
Definition with_mapping (mapping mapped : Z) (namespace : string) (i : InstanceRow) : InstanceRow :=
  mkInstance (i_app i) (i_endpoint i) (i_org i) (i_env i) (i_project i) (i_revision i) (i_created_by i) (i_created i)
    mapping mapped (i_current i) (i_previous i) namespace.
Definition put_instance (id : string) (i : InstanceRow) : tx unit :=
  _ ← ensure (btw 0 1000000000 (i_mapping i) && btw 0 100 (i_mapped i)) ErrConstraint;
  modify (fun db => set_instances (<[id := i]> (instances db)) db).

Definition project_step (b : string) (r : Z) : string :=
  if btw 97 122 r || btw 48 57 r then b +:+ String (chr r) ""
  else if nonempty b && negb (ends_with (ascii_eqb "-") b) then b +:+ "-" else b.
Definition KubernetesProject (name : string) : string :=
  let b := foldl project_step "" (map lower_rune (runes name)) in
  let out := trim_right "-" (trim_left "-" b) in
  let out := if len out >? MaxKubeObjectName then trim_right "-" (take_str (Z.to_nat MaxKubeObjectName) out) else out in
  if bool_decide (out = "") then "app" else out.

Definition mapKubernetes (a : TenantAccess) (app : string) (r : MappingRequest) (fresh_instance : string) (now : time) : tx unit :=
  _ ← ensure (bool_decide (mr_instance r = "") && (mr_version r =? 0) && bool_decide (mr_digest r = "") && bool_decide (mr_confirm r = "")
              && negb (msize (mr_bindings r) >? 0) && nonempty (mr_endpoint r)) ErrInvalid;
  row ← gets (app_of a app);
  ar ← one row ErrNotFound;
  erow ← gets (endpoint_of a (mr_endpoint r));
  e ← one erow ErrNotFound;
  _ ← ensure (bool_decide (ep_runtime e = RuntimeKubernetes)) ErrRuntimeUnsupported;
  _ ← ensure (bool_decide (mr_namespace r ∈ ep_namespaces e)) ErrNamespaceUnknown;
  found ← gets (instance_of a app);
  _ ← match found with
      | None =>
          insert_instance fresh_instance (mkInstance app (mr_endpoint r) (OrganizationID a) (EnvironmentID a) (KubernetesProject (app_name ar))
            (app_latest ar) (ActorID a) now 1 (app_latest ar) 0 0 (mr_namespace r))
      | Some (id, i) =>
          sent ← gets (fun db => count (fun d => bool_decide (d_org d = i_org i) && bool_decide (d_env d = i_env i) && bool_decide (d_instance d = id)
                                                 && negb (bool_decide (d_state d = "planned"))) (deployments db));
          _ ← ensure (negb (negb (bool_decide (i_endpoint i = mr_endpoint r)) || bool_decide (i_namespace i = "")
                            || (negb (bool_decide (i_namespace i = mr_namespace r)) && (sent >? 0)))) ErrApplicationAdopted;
          applying ← gets (fun db => count (deployments_of a id "applying") (deployments db));
          _ ← ensure (negb (applying >? 0)) ErrDeploymentInProgress;
          put_instance id (with_mapping (i_mapping i + 1) (app_latest ar) (mr_namespace r) i)
      end;
  _ ← update_application a app (fun _ => true) (with_removed None);
  mret tt.

Fixpoint bindings_ok (services owned used : gset string) (l : list (string * string)) : bool :=
  match l with
  | [] => true
  | (service, container) :: l' =>
      bool_decide (service ∈ services) && bool_decide (container ∈ owned) && negb (bool_decide (container ∈ used))
      && bindings_ok services owned ({[container]} ∪ used) l'
  end.

Definition with_service (service : string) (r : ResourceRow) : ResourceRow :=
  mkResource (xr_instance r) (xr_name r) (xr_image r) (xr_created r) service.
Definition bind_service (instance endpoint : string) (sc : string * string) : tx unit :=
  row ← gets (fun db => resources db !! (endpoint, sc.2));
  r ← one row ErrAdoptionChanged;
  _ ← ensure (bool_decide (xr_instance r = instance)) ErrAdoptionChanged;
  put_resource (endpoint, sc.2) (with_service sc.1 r).

Definition map_docker (a : TenantAccess) (app : string) (r : MappingRequest) (now : time) : tx unit :=
  p ← applicationMapping a app now;
  _ ← ensure (bool_decide (am_runtime p = RuntimeDocker)) ErrRuntimeUnsupported;
  _ ← ensure (bool_decide (mr_instance r = am_instance p) && (mr_version r =? am_version p)
              && bool_decide (mr_digest r = pv_digest (am_preview p)) && bool_decide (mr_confirm r = pv_project (am_preview p))) ErrAdoptionChanged;
  applying ← gets (fun db => count (deployments_of a (am_instance p) "applying") (deployments db));
  _ ← ensure (negb (applying >? 0)) ErrDeploymentInProgress;
  _ ← ensure (bindings_ok (list_to_set (am_services p)) (list_to_set (map ac_id (pv_containers (am_preview p)))) ∅
                (map_to_list (mr_bindings r))) ErrInvalid;
  row ← gets (fun db => instances db !! am_instance p);
  i ← one row ErrAdoptionChanged;
  _ ← ensure (i_mapping i =? mr_version r) ErrAdoptionChanged;
  _ ← put_instance (am_instance p) (with_mapping (i_mapping i + 1) (pv_revision (am_preview p)) (i_namespace i) i);
  _ ← modify (fun db => set_resources ((fun x => if bool_decide (xr_instance x = am_instance p) then with_service "" x else x) <$> resources db) db);
  tx_iter (bind_service (am_instance p) (pv_endpoint (am_preview p))) (map_to_list (mr_bindings r)).

Definition set_mapping_body (a : TenantAccess) (app : string) (r : MappingRequest) (fresh_instance : string) (now : time) : tx unit :=
  _ ← ensure (nonempty (EnvironmentID a) && (0 <=? mr_version r) && (mr_version r <? 1000000000) && (msize (mr_bindings r) <=? 100)) ErrInvalid;
  if nonempty (mr_endpoint r) || nonempty (mr_namespace r) then mapKubernetes a app r fresh_instance now else map_docker a app r now.
Definition SetApplicationMapping (a : TenantAccess) (app : string) (r : MappingRequest) (fresh_instance : string) (now : time) (fresh : string) (db : DB)
    : res StoreErr unit * DB :=
  match uuid_parse app with
  | None => (Fail ErrInvalid, db)
  | Some app => withTenantTarget a ApplicationAdopt (app +:+ "/service-mapping") (set_mapping_body a app r fresh_instance now) now fresh db
  end.

(** ** Reading instances *)

Definition read_instance (ke : string * InstanceRow) (db : DB) : option ApplicationInstance :=
  let i := ke.2 in
  (fun e => mkAppInstance ke.1 (i_app i) (i_endpoint i) (ep_name e) (i_project i) (i_revision i) (i_mapping i) (i_current i) (i_previous i)
              (i_created_by i) (i_created i)
              (llen (List.filter (fun kr => bool_decide (xr_instance kr.2 = ke.1)) (map_to_list (resources db)))) [] (i_namespace i))
  <$> endpoints db !! i_endpoint i.
Definition ReadApplicationInstance (a : TenantAccess) (app id : string) (now : time) (fresh : string) (db : DB) : res StoreErr ApplicationInstance * DB :=
  if negb (nonempty (EnvironmentID a)) then (Fail ErrInvalid, db)
  else readTenant a ApplicationRead (
    row ← gets (fun db => match instances db !! id with Some i => if inst_here a app i then read_instance (id, i) db else None | None => None end);
    one row ErrNotFound) now fresh db.

Definition with_listed (i : ApplicationInstance) (db : DB) : ApplicationInstance :=
  mkAppInstance (in_id i) (in_app i) (in_endpoint i) (in_endpoint_name i) (in_project i) (in_revision i) (in_mapping i) (in_current i)
    (in_previous i) (in_created_by i) (in_created i) (in_count i)
    (map (fun kr => mkAdopted kr.1 (xr_name kr.2) (xr_image kr.2) (xr_created kr.2) None false) (instance_resources (in_id i) (in_endpoint i) db))
    (in_namespace i).
Definition ListApplicationInstances (a : TenantAccess) (endpoint : string) : time -> string -> DB -> res StoreErr (list ApplicationInstance) * DB :=
  readTenant a ApplicationRead (gets (fun db =>
    let rows := List.filter (fun ki => bool_decide (i_org ki.2 = OrganizationID a)
                  && (negb (nonempty (EnvironmentID a)) || bool_decide (i_env ki.2 = EnvironmentID a))
                  && (bool_decide (endpoint = "") || bool_decide (i_endpoint ki.2 = endpoint))) (map_to_list (instances db)) in
    let ordered := take 100 (omap (fun ki => read_instance ki db) (merge_sort by_first rows)) in
    if bool_decide (endpoint = "") then ordered else map (fun i => with_listed i db) ordered)).
End adoption.

(** ** What only reads *)

Section reads.
Context (Marshal : ApplicationSpec -> string) (Unmarshal : string -> option ApplicationSpec) (sum_hex : string -> string)
  (preview_digest : AdoptionPreview -> string).

Lemma reads_adoptionPreview a app endpoint project now : Reads (adoptionPreview preview_digest a app endpoint project now).
Proof. unfold adoptionPreview. keeps. Qed.
Lemma reads_kubernetesPreview a app endpoint project : Reads (kubernetesPreview a app endpoint project).
Proof. unfold kubernetesPreview. keeps. Qed.
Lemma reads_mappedServices a app p : Reads (mappedServices Marshal Unmarshal sum_hex a app p).
Proof. unfold mappedServices. keeps. Qed.
#[local] Hint Resolve reads_adoptionPreview reads_kubernetesPreview reads_mappedServices : keeps.
Lemma reads_applicationMapping a app now : Reads (applicationMapping Marshal Unmarshal sum_hex preview_digest a app now).
Proof. unfold applicationMapping. keeps. Qed.
End reads.
#[export] Hint Resolve reads_adoptionPreview reads_kubernetesPreview reads_mappedServices reads_applicationMapping : keeps.

Example KubernetesProject_words : KubernetesProject "  My Shop (2nd) --" = "my-shop-2nd".
Proof. vm_compute. reflexivity. Qed.
Example KubernetesProject_nothing : KubernetesProject "***" = "app".
Proof. vm_compute. reflexivity. Qed.
