(* ===== verification/Schedule.v ===== *)
(** * Update policy windows

    The input validation and the calendar of an update policy: [PolicyInput.weekdays] and
    [scanPolicy] of internal/store/policies.go, and [occurrenceOn], [policyOccurrence],
    [previousOccurrence], [nextOccurrence] of internal/store/policy_schedule.go, over a model
    of Go's [time.Date] and [Time.In] on a [Location].

    The time zone database is a parameter: [LoadLocation] returns a [Location], the zone's
    offset at every instant with the half-open interval around it on which the offset is
    constant, which is what [Location.lookup] gives the [time] package.  A calendar date is
    its day number, counted from 1 January 1970. *)
From Stdlib Require Import ZArith Lia Ascii String.
From stdpp Require Import base gmap strings list sorting.
From S2P Require Import Prelude.
From S2P Require Import Text.
From S2P Require Import Store.
From S2P Require Import TenantAccess.

(** ** Integers as text *)

Definition digit_value (c : ascii) : option Z :=
  if btw 48 57 (code c) then Some (code c - 48) else None.

Fixpoint parse_digits (s : string) (acc : Z) : option Z :=
  match s with
  | EmptyString => Some acc
  | String c s' => match digit_value c with
                   | Some d => parse_digits s' (acc * 10 + d)
                   | None => None
                   end
  end.

Definition parse_unsigned (s : string) : option Z :=
  match s with EmptyString => None | _ => parse_digits s 0 end.

(** [strconv.Atoi] on a 64-bit int. *)
Definition Atoi (s : string) : option Z :=
  let v := match s with
           | String "-"%char s' => option_map Z.opp (parse_unsigned s')
           | String "+"%char s' => parse_unsigned s'
           | _ => parse_unsigned s
           end in
  match v with
  | Some z => if btw (- 2 ^ 63) (2 ^ 63 - 1) z then Some z else None
  | None => None
  end.

(** ** A policy's settings *)

Definition PolicyModeApply : string := "apply".
Definition PolicyModePlanOnly : string := "plan_only".
Definition PolicyActive : string := "active".
Definition PolicyPaused : string := "paused".
Definition MinPolicyWindowMinutes : Z := 15.

Record PolicyInput := mkPolicyInput {
  in_mode : string; in_timezone : string; in_weekdays : list Z;
  in_start : Z; in_end : Z }.

Record Zone := mkZone { z_offset : Z; z_from : Z; z_to : Z }.
(** [Location.lookup]: from Unix seconds to the zone in force. *)
Definition Location := Z -> Zone.

(** The strict-ascent test of the loop over the sorted weekdays. *)
Fixpoint distinct_days (prev : option Z) (days : list Z) : bool :=
  match days with
  | [] => true
  | d :: days' =>
      if (d <? 0) || (d >? 6) || bool_decide (prev = Some d) then false
      else distinct_days (Some d) days'
  end.

Section zones.
Context (LoadLocation : string -> option Location).

Definition validPolicyZone (name : string) : bool :=
  if bool_decide (name = "") || bool_decide (name = "Local") || (len name >? 64)
     || negb (displaySafe name) then false
  else bool_decide (is_Some (LoadLocation name)).

Definition weekdays (i : PolicyInput) : res StoreErr string :=
  refuse negb (bool_decide (in_mode i = PolicyModeApply)) && negb (bool_decide (in_mode i = PolicyModePlanOnly))
    with ErrInvalidMode ;;
  refuse negb (validPolicyZone (in_timezone i)) with ErrInvalidTimezone ;;
  refuse (llen (in_weekdays i) =? 0) || (llen (in_weekdays i) >? 7) with ErrInvalidWeekdays ;;
  let days := merge_sort Z.le (in_weekdays i) in
  refuse negb (distinct_days None days) with ErrInvalidWeekdays ;;
  refuse (in_start i <? 0) || (in_end i >? 1440) || (in_end i - in_start i <? MinPolicyWindowMinutes)
    with ErrInvalidWindow ;;
  Ok (join "," (map Itoa days)).
End zones.

(** The weekday column of [scanPolicy]. *)
Fixpoint scan_days (parts : list string) : res StoreErr (list Z) :=
  match parts with
  | [] => Ok []
  | d :: parts' =>
      match Atoi d with
      | Some n =>
          refuse (n <? 0) || (n >? 6) with ErrRevisionCorrupt ;;
          let! rest := scan_days parts' ;;
          Ok (n :: rest)
      | None => Fail ErrRevisionCorrupt
      end
  end.

Record UpdatePolicy := mkUpdatePolicy {
  up_row : PolicyRow;          (** every column but the weekdays *)
  up_weekdays : list Z;
  up_next : option time }.

Definition scanPolicy (row : PolicyRow) : res StoreErr UpdatePolicy :=
  let! days := scan_days (split_at "," (p_weekdays row)) ;;
  Ok (mkUpdatePolicy row days None).

(** ** Calendar *)

Definition day_seconds : Z := 86400.

(** [time.Date(y, m, d, minute/60, minute%60, 0, 0, loc)] for the date with day number
    [day], in Unix seconds: the wall clock read as UTC, less the offset in force there, or
    less the offset in force at that instant when the first is not. *)
Definition Date (day minute : Z) (loc : Location) : Z :=
  let unix := day * day_seconds + minute * 60 in
  let z := loc unix in
  if z_offset z =? 0 then unix
  else
    let utc := unix - z_offset z in
    if (utc <? z_from z) || (utc >=? z_to z) then unix - z_offset (loc utc)
    else utc.

(** A [Time] in [loc]: its local seconds. *)
Definition local (loc : Location) (sec : Z) : Z := sec + z_offset (loc sec).
(** [Time.Date], as a day number; [Time.Hour]*60 + [Time.Minute]; [Time.Weekday]. *)
Definition day_of (loc : Location) (sec : Z) : Z := local loc sec / day_seconds.
Definition minute_of (loc : Location) (sec : Z) : Z := (local loc sec mod day_seconds) / 60.
Definition Weekday (loc : Location) (sec : Z) : Z := (local loc sec / day_seconds + 4) mod 7.

Definition of_seconds (sec : Z) : time := sec * Second.
Definition to_seconds (t : time) : Z := t / Second.

(** The window on day [day]: its start and its end. *)
Definition occurrenceOn (p : UpdatePolicy) (loc : Location) (day : Z) : option (time * time) :=
  let start := Date day (p_start (up_row p)) loc in
  if negb (minute_of loc start =? p_start (up_row p))
     || negb (bool_decide (Weekday loc start ∈ up_weekdays p)) then None
  else Some (of_seconds start, of_seconds (Date day (p_end (up_row p)) loc)).

Definition policyHorizon : Z := 14.

Section occurrences.
Context (LoadLocation : string -> option Location).

Definition policyOccurrence (p : UpdatePolicy) (now : time) : option (time * time * bool) :=
  match LoadLocation (p_timezone (up_row p)) with
  | None => None
  | Some loc =>
      match occurrenceOn p loc (day_of loc (to_seconds now)) with
      | None => None
      | Some (start, end_) => Some (start, end_, (start <=? now) && (now <? end_))
      end
  end.

(** The loops [for i := 0; i <= policyHorizon; i++]. *)
Fixpoint search {A} (f : Z -> option A) (days : list Z) : option A :=
  match days with
  | [] => None
  | d :: days' => match f d with Some x => Some x | None => search f days' end
  end.

Definition horizon : list Z := map Z.of_nat (seq 0 (Z.to_nat (policyHorizon + 1))).

Definition previousOccurrence (p : UpdatePolicy) (now : time) : option (time * time) :=
  match LoadLocation (p_timezone (up_row p)) with
  | None => None
  | Some loc =>
      search (fun i =>
        match occurrenceOn p loc (day_of loc (to_seconds now) - i) with
        | Some (s, e) => if e >? now then None else Some (s, e)
        | None => None
        end) horizon
  end.

Definition nextOccurrence (p : UpdatePolicy) (now : time) : option time :=
  match LoadLocation (p_timezone (up_row p)) with
  | None => None
  | Some loc =>
      search (fun i =>
        match occurrenceOn p loc (day_of loc (to_seconds now) + i) with
        | Some (s, _) => if s >? now then Some s else None
        | None => None
        end) horizon
  end.

Definition nextOccurrenceOf (p : UpdatePolicy) (now : time) : option time :=
  if negb (bool_decide (p_status (up_row p) = PolicyActive)) then None else nextOccurrence p now.
End occurrences.

(** ** Properties *)

Lemma distinct_days_range prev days :
  distinct_days prev days = true -> Forall (fun d => 0 <= d <= 6) days.
Proof.
  revert prev; induction days as [|d days IH]; intros prev; simpl; [constructor|].
  destruct (_ || _) eqn:E; [done|]. intros H. constructor; [|eauto].
  rewrite !orb_false_iff, Z.ltb_ge, Z.gtb_ltb, Z.ltb_ge in E. lia.
Qed.

Lemma distinct_days_NoDup days :
  Sorted Z.le days -> distinct_days None days = true -> NoDup days.
Proof.
  intros Hs%Sorted_StronglySorted; [|intros x y z; lia].
  assert (H : forall prev, distinct_days prev days = true -> NoDup days /\
    (forall q, prev = Some q -> Forall (fun d => q <= d) days -> q ∉ days)).
  { induction Hs as [|d days Hs IH Hall]; intros prev; simpl.
    - split; [constructor|]. intros; apply not_elem_of_nil.
    - destruct (_ || _) eqn:E; [done|]. intros [Hnd Hq]%IH. gobool. split.
      + constructor; [|done]. by eapply Hq.
      + intros q -> Hf. rewrite Forall_cons in Hf. destruct Hf as [Hqd _].
        rewrite not_elem_of_cons. split; [congruence|].
        intros Hin. rewrite Forall_forall in Hall.
        assert (d <= q) by (by apply Hall).
        assert (d = q) as -> by lia. congruence. }
  intros Hd. by apply (H None).
Qed.

Lemma split_join_days l :
  l <> [] -> Forall (fun d => 0 <= d <= 6) l ->
  split_at "," (join "," (map Itoa l)) = map Itoa l.
Proof.
  assert (Hone : forall d s, 0 <= d <= 6 -> split_at "," (Itoa d +:+ String "," s) = Itoa d :: split_at "," s).
  { intros d s Hd. assert (d ∈ [0;1;2;3;4;5;6]) as Hin by (rewrite !elem_of_cons; lia).
    repeat (apply elem_of_cons in Hin as [->|Hin]; [reflexivity|]). by apply elem_of_nil in Hin. }
  induction l as [|d l IH]; intros Hne Hf; [done|].
  rewrite Forall_cons in Hf. destruct Hf as [Hd Hf]. destruct l as [|e l].
  - simpl. assert (d ∈ [0;1;2;3;4;5;6]) as Hin by (rewrite !elem_of_cons; lia).
    repeat (apply elem_of_cons in Hin as [->|Hin]; [reflexivity|]). by apply elem_of_nil in Hin.
  - change (join "," (map Itoa (d :: e :: l))) with (Itoa d +:+ String "," (join "," (map Itoa (e :: l)))).
    rewrite Hone by done. rewrite IH by done. reflexivity.
Qed.

Lemma scan_days_Itoa l :
  Forall (fun d => 0 <= d <= 6) l -> scan_days (map Itoa l) = Ok l.
Proof.
  induction 1 as [|d l Hd Hf IH]; [done|]. cbn [map scan_days].
  assert (Atoi (Itoa d) = Some d) as ->.
  { assert (d ∈ [0;1;2;3;4;5;6]) as Hin by (rewrite !elem_of_cons; lia).
    repeat (apply elem_of_cons in Hin as [->|Hin]; [reflexivity|]). by apply elem_of_nil in Hin. }
  rewrite IH. destruct ((d <? 0) || (d >? 6)) eqn:E; [|done].
  rewrite orb_true_iff, Z.ltb_lt, Z.gtb_lt in E. lia.
Qed.

(** What an accepted input promises: the settings' bounds, and a weekday column that decodes
    to the weekdays given, in ascending order and without repetition. *)
Lemma weekdays_ok LL i s :
  weekdays LL i = Ok s ->
  0 <= in_start i /\ in_start i + 15 <= in_end i <= 1440 /\
  (in_mode i = PolicyModeApply \/ in_mode i = PolicyModePlanOnly) /\
  is_Some (LL (in_timezone i)) /\
  exists days, days ≡ₚ in_weekdays i /\ Sorted Z.le days /\ NoDup days /\ days <> [] /\
    Forall (fun d => 0 <= d <= 6) days /\ s = join "," (map Itoa days) /\
    scan_days (split_at "," s) = Ok days.
Proof.
  unfold weekdays. intros H. refusals H. injection H as <-.
  apply andb_false_iff in Hg. rewrite !negb_false_iff, !bool_decide_eq_true in Hg.
  rewrite negb_false_iff in Hg0, Hg2. unfold validPolicyZone in Hg0.
  destruct (bool_decide (in_timezone i = "") || _ || _ || _); [done|]. apply bool_decide_eq_true in Hg0.
  rewrite !orb_false_iff, !Z.ltb_ge, Z.gtb_ltb, Z.ltb_ge in Hg3. unfold MinPolicyWindowMinutes in Hg3.
  rewrite orb_false_iff, Z.eqb_neq in Hg1. destruct Hg1 as [Hne _].
  assert (Hs : Sorted Z.le (merge_sort Z.le (in_weekdays i))) by (apply Sorted_merge_sort; intros x y; lia).
  assert (Hr := distinct_days_range _ _ Hg2).
  assert (Hp := merge_sort_Permutation Z.le (in_weekdays i)).
  assert (Hne' : merge_sort Z.le (in_weekdays i) <> []).
  { intros E. rewrite E in Hp. apply Permutation_nil_l in Hp. rewrite <- Hp in Hne. by apply Hne. }
  split_and!; try lia; try done.
  exists (merge_sort Z.le (in_weekdays i)). split_and!; auto using distinct_days_NoDup.
  rewrite split_join_days by done. by apply scan_days_Itoa.
Qed.

(** What an administrator saves is what the scheduler reads.  An accepted policy input has a
    loadable zone and a window of at least 15 minutes inside one day, and its stored weekday
    column decodes to exactly the weekdays given, ascending, each once, each in 0..6. *)
Theorem weekdays_roundtrip LL i s row :
  weekdays LL i = Ok s -> p_weekdays row = s ->
  exists p, scanPolicy row = Ok p /\ up_row p = row /\
    up_weekdays p ≡ₚ in_weekdays i /\ Sorted Z.le (up_weekdays p) /\ NoDup (up_weekdays p) /\
    Forall (fun d => 0 <= d <= 6) (up_weekdays p) /\
    0 <= in_start i /\ in_start i + 15 <= in_end i <= 1440 /\ is_Some (LL (in_timezone i)).
Proof.
  intros H <-. destruct (weekdays_ok _ _ _ H) as (? & ? & _ & ? & days & ? & ? & ? & _ & ? & _ & Hscan).
  exists (mkUpdatePolicy row days None). unfold scanPolicy. rewrite Hscan. simpl. done.
Qed.

Lemma weekdays_roundtrip_witness :
  let i := mkPolicyInput "apply" "UTC" [5; 1; 3] 60 180 in
  let row := mkPolicy "p" "o" "e" "a" "u" "apply" "UTC" "1,3,5" 60 180 "active" "" 0 0 0 in
  exists p, scanPolicy row = Ok p /\ up_weekdays p ≡ₚ [5; 1; 3].
Proof.
  simpl.
  destruct (weekdays_roundtrip (fun _ => Some (fun _ => mkZone 0 0 0))
    (mkPolicyInput "apply" "UTC" [5; 1; 3] 60 180) "1,3,5"
    (mkPolicy "p" "o" "e" "a" "u" "apply" "UTC" "1,3,5" 60 180 "active" "" 0 0 0))
    as (p & Hp & _ & Hd & _); [vm_compute; reflexivity|reflexivity|].
  eauto.
Defined.

(** The zone's offset never changes (UTC, and every zone without daylight saving time
    between two of its transitions). *)
Definition fixed_offset (loc : Location) (off : Z) : Prop := forall t, z_offset (loc t) = off.

Section fixed.
Context (p : UpdatePolicy) (loc : Location) (off : Z).
Hypothesis Hoff : fixed_offset loc off.

Lemma Date_fixed day m : Date day m loc = day * day_seconds + m * 60 - off.
Proof.
  unfold Date. rewrite !Hoff. destruct (off =? 0) eqn:E; [apply Z.eqb_eq in E; lia|].
  by destruct (_ || _).
Qed.

Lemma local_fixed day m : local loc (Date day m loc) = day * day_seconds + m * 60.
Proof. unfold local. rewrite Hoff, Date_fixed. lia. Qed.

Lemma day_div day x : 0 <= x < day_seconds -> (day * day_seconds + x) / day_seconds = day.
Proof. intros H. rewrite Z.div_add_l by done. rewrite Z.div_small by done. lia. Qed.

Lemma day_mod day x : 0 <= x < day_seconds -> (day * day_seconds + x) mod day_seconds = x.
Proof. intros H. rewrite Z.add_comm, Z.mod_add by done. by apply Z.mod_small. Qed.

Lemma occurrenceOn_fixed day :
  0 <= p_start (up_row p) < 1440 ->
  occurrenceOn p loc day =
    if bool_decide ((day + 4) mod 7 ∈ up_weekdays p)
    then Some (of_seconds (day * day_seconds + p_start (up_row p) * 60 - off),
               of_seconds (day * day_seconds + p_end (up_row p) * 60 - off))
    else None.
Proof.
  intros Hs. unfold occurrenceOn, minute_of, Weekday. rewrite local_fixed, !Date_fixed.
  rewrite day_mod, day_div by (unfold day_seconds; lia).
  rewrite Z.div_mul by done. rewrite Z.eqb_refl. simpl.
  by destruct (bool_decide _).
Qed.

Lemma day_of_fixed now day :
  of_seconds (day * day_seconds - off) <= now < of_seconds ((day + 1) * day_seconds - off) ->
  day_of loc (to_seconds now) = day.
Proof.
  unfold of_seconds, day_of, local, to_seconds. rewrite Hoff. intros [H1 H2].
  assert (day * day_seconds - off <= now / Second) by (apply Z.div_le_lower_bound; [done|lia]).
  assert (now / Second < (day + 1) * day_seconds - off) by (apply Z.div_lt_upper_bound; [done|lia]).
  replace (now / Second + off) with (day * day_seconds + (now / Second + off - day * day_seconds)) by lia.
  apply day_div. unfold day_seconds in *. lia.
Qed.

Lemma day_of_bounds now :
  let day := day_of loc (to_seconds now) in
  of_seconds (day * day_seconds - off) <= now < of_seconds ((day + 1) * day_seconds - off).
Proof.
  unfold day_of, local, to_seconds, of_seconds. rewrite Hoff. simpl.
  pose proof (Z.div_mod (now / Second + off) day_seconds ltac:(done)).
  pose proof (Z.mod_pos_bound (now / Second + off) day_seconds ltac:(done)).
  pose proof (Z.div_mod now Second ltac:(done)).
  pose proof (Z.mod_pos_bound now Second ltac:(done)).
  set (d := (now / Second + off) / day_seconds) in *.
  set (s := now / Second) in *. unfold Second, day_seconds in *. lia.
Qed.
End fixed.

(** A window is open exactly while it lasts.  In a zone with one offset the scheduler's
    look at today's date finds the occurrence [s, e) on any date with [s <= now < e], so no
    window is missed or opened twice by looking only at one day. *)
Theorem policyOccurrence_open LL p loc off now s e :
  LL (p_timezone (up_row p)) = Some loc -> fixed_offset loc off ->
  0 <= p_start (up_row p) < p_end (up_row p) -> p_end (up_row p) <= 1440 ->
  policyOccurrence LL p now = Some (s, e, true) <->
  exists day, occurrenceOn p loc day = Some (s, e) /\ s <= now < e.
Proof.
  intros HL Hoff Hs He. unfold policyOccurrence. rewrite HL. split.
  - destruct (occurrenceOn p loc _) as [[s' e']|] eqn:E; [|done]. intros [= -> -> H].
    exists (day_of loc (to_seconds now)). split; [done|].
    rewrite andb_true_iff, Z.leb_le, Z.ltb_lt in H. lia.
  - intros (day & Ho & H1 & H2). assert (Ho' := Ho).
    rewrite (occurrenceOn_fixed p loc off Hoff) in Ho' by lia.
    destruct (bool_decide _); [|done]. injection Ho' as <- <-.
    rewrite (day_of_fixed loc off Hoff now day).
    + rewrite Ho. apply Z.leb_le in H1 as ->. apply Z.ltb_lt in H2 as ->. done.
    + unfold of_seconds, day_seconds, Second in *. lia.
Qed.

Lemma search_some {A} (f : Z -> option A) l x :
  search f l = Some x <->
  exists l1 d l2, l = l1 ++ d :: l2 /\ f d = Some x /\ Forall (fun d => f d = None) l1.
Proof.
  induction l as [|d l IH]; simpl.
  - split; [done|]. intros ([|] & ? & ? & ? & _); done.
  - destruct (f d) eqn:E.
    + split.
      * intros [= <-]. exists [], d, l. done.
      * intros ([|d' l1] & d0 & l2 & [= -> ->] & Hf & Hall); [congruence|].
        rewrite Forall_cons in Hall. destruct Hall; congruence.
    + rewrite IH. split.
      * intros (l1 & d0 & l2 & -> & ? & ?). exists (d :: l1), d0, l2. auto.
      * intros ([|d' l1] & d0 & l2 & [= -> ->] & Hf & Hall); [congruence|].
        rewrite Forall_cons in Hall. destruct Hall. eauto 10.
Qed.

Lemma search_none {A} (f : Z -> option A) l : search f l = None <-> Forall (fun d => f d = None) l.
Proof.
  induction l as [|d l IH]; simpl; [done|]. rewrite Forall_cons, <- IH.
  destruct (f d); naive_solver.
Qed.

Lemma elem_of_horizon i : i ∈ horizon <-> 0 <= i <= policyHorizon.
Proof.
  unfold horizon. rewrite list_elem_of_fmap. setoid_rewrite elem_of_seq. unfold policyHorizon. split.
  - intros (n & -> & ?). lia.
  - intros H. exists (Z.to_nat i). lia.
Qed.

Lemma horizon_sorted : StronglySorted Z.lt horizon.
Proof.
  change horizon with [0;1;2;3;4;5;6;7;8;9;10;11;12;13;14].
  repeat (constructor; [|repeat (constructor; [lia|]); constructor]). constructor.
Qed.

Lemma sorted_before l1 d l2 j :
  StronglySorted Z.lt (l1 ++ d :: l2) -> j ∈ l1 ++ d :: l2 -> j < d -> j ∈ l1.
Proof.
  induction l1 as [|x l1 IH]; simpl; intros Hs Hin Hlt; inversion Hs as [|? ? Hs' Hall]; subst.
  - apply elem_of_cons in Hin as [->|Hin]; [lia|]. rewrite Forall_forall in Hall.
    specialize (Hall j Hin). lia.
  - apply elem_of_cons in Hin as [->|Hin]; [left|right]. by apply IH.
Qed.

Section next.
Context (p : UpdatePolicy) (loc : Location) (off : Z).
Hypothesis Hoff : fixed_offset loc off.
Hypothesis Hstart : 0 <= p_start (up_row p) < 1440.

Definition start_on (day : Z) : time := of_seconds (day * day_seconds + p_start (up_row p) * 60 - off).

Lemma occurrenceOn_start day s e :
  occurrenceOn p loc day = Some (s, e) -> s = start_on day /\ (day + 4) mod 7 ∈ up_weekdays p.
Proof.
  rewrite (occurrenceOn_fixed p loc off Hoff) by done. case_bool_decide; [|done]. by intros [= <- <-].
Qed.

Lemma occurrenceOn_day day :
  (day + 4) mod 7 ∈ up_weekdays p -> exists e, occurrenceOn p loc day = Some (start_on day, e).
Proof.
  intros H. rewrite (occurrenceOn_fixed p loc off Hoff) by done.
  rewrite bool_decide_true by done. eauto.
Qed.

Lemma start_on_le d d' : start_on d <= start_on d' <-> d <= d'.
Proof. unfold start_on, of_seconds, day_seconds, Second. lia. Qed.

Lemma next_day now w :
  w ∈ up_weekdays p -> 0 <= w <= 6 ->
  exists i, 0 <= i <= 7 /\ let day := day_of loc (to_seconds now) + i in
    (day + 4) mod 7 ∈ up_weekdays p /\ now < start_on day <= now + 7 * day_seconds * Second.
Proof.
  intros Hw Hr. pose proof (day_of_bounds loc off Hoff now) as Hb. simpl in Hb.
  set (D := day_of loc (to_seconds now)) in *.
  pose proof (Z.mod_pos_bound (w - D - 4) 7 ltac:(lia)) as Hm.
  set (i := (w - D - 4) mod 7) in *.
  assert (Hi : (D + i + 4) mod 7 = w).
  { unfold i. replace (D + (w - D - 4) mod 7 + 4) with ((w - D - 4) mod 7 + (D + 4)) by lia.
    rewrite Z.add_mod_idemp_l by lia. replace (w - D - 4 + (D + 4)) with w by lia.
    apply Z.mod_small; lia. }
  assert (Hi7 : (D + 7 + 4) mod 7 = (D + 0 + 4) mod 7).
  { replace (D + 7 + 4) with (D + 0 + 4 + 1 * 7) by lia. by rewrite Z.mod_add by lia. }
  unfold start_on, of_seconds, day_seconds, Second in *.
  destruct (Z.le_gt_cases ((D + i) * 86400 + p_start (up_row p) * 60 - off) (now / 1000000000)) as [Hle|Hgt].
  - assert (i = 0) as Hi0.
    { assert (now / 1000000000 < (D + 1) * 86400 - off) by (apply Z.div_lt_upper_bound; lia). lia. }
    exists 7. split; [lia|]. rewrite Hi7. rewrite Hi0 in Hi, Hle. rewrite Hi. split; [done|].
    pose proof (Z.mul_div_le now 1000000000 ltac:(lia)). lia.
  - exists i. split; [lia|]. rewrite Hi. split; [done|].
    pose proof (Z.mul_succ_div_gt now 1000000000 ltac:(lia)). lia.
Qed.
End next.

(** An active policy always has a next window.  In a zone with one offset and with at
    least one weekday, [nextOccurrence] finds an occurrence after [now], at most seven days
    away, and no occurrence on any date lies between. *)
Theorem nextOccurrence_found LL p loc off now w :
  LL (p_timezone (up_row p)) = Some loc -> fixed_offset loc off ->
  0 <= p_start (up_row p) < 1440 -> w ∈ up_weekdays p -> 0 <= w <= 6 ->
  exists s, nextOccurrence LL p now = Some s /\
    now < s <= now + 7 * day_seconds * Second /\
    (exists day e, occurrenceOn p loc day = Some (s, e)) /\
    (forall day s' e', occurrenceOn p loc day = Some (s', e') -> now < s' -> s <= s').
Proof.
  intros HL Hoff Hs Hw Hr. unfold nextOccurrence. rewrite HL.
  set (f := fun i => match occurrenceOn p loc (day_of loc (to_seconds now) + i) with
                     | Some (s, _) => if s >? now then Some s else None | None => None end).
  destruct (next_day p loc off Hoff Hs now w Hw Hr) as (i & Hi & Hday & Hlo & Hhi).
  assert (Hmin : forall d l1 l2, horizon = l1 ++ d :: l2 -> Forall (fun d => f d = None) l1 ->
    forall day s' e', occurrenceOn p loc day = Some (s', e') -> now < s' ->
      start_on p off (day_of loc (to_seconds now) + d) <= s').
  { intros d l1 l2 Hl Hnone day s' e' Ho Hlt.
    destruct (occurrenceOn_start p loc off Hoff Hs _ _ _ Ho) as [-> Hd].
    apply start_on_le. pose proof (day_of_bounds loc off Hoff now) as Hb. simpl in Hb.
    set (D := day_of loc (to_seconds now)) in *.
    assert (D <= day) by (unfold start_on, of_seconds, day_seconds, Second in *; lia).
    destruct (Z.le_gt_cases (D + d) day) as [|Hgt]; [done|]. exfalso.
    assert (d ∈ horizon) as Hdh by (rewrite Hl; set_solver). apply elem_of_horizon in Hdh.
    assert (day - D ∈ horizon) as Hin by (apply elem_of_horizon; lia).
    pose proof horizon_sorted as Hsort. rewrite Hl in Hsort, Hin.
    apply (sorted_before l1 d l2) in Hin; [|done|lia].
    rewrite Forall_forall in Hnone. specialize (Hnone _ Hin). unfold f in Hnone.
    replace (D + (day - D)) with day in Hnone by lia. rewrite Ho in Hnone.
    destruct (Z.gtb_spec (start_on p off day) now); [done|lia]. }
  destruct (search f horizon) as [s|] eqn:E.
  - exists s. split; [done|]. apply search_some in E as (l1 & d & l2 & Hl & Hf & Hnone).
    unfold f in Hf. destruct (occurrenceOn p loc _) as [[s0 e0]|] eqn:Ho; [|done].
    destruct (Z.gtb_spec s0 now); [|done]. injection Hf as ->.
    destruct (occurrenceOn_start p loc off Hoff Hs _ _ _ Ho) as [Hsd _].
    destruct (occurrenceOn_day p loc off Hoff Hs _ Hday) as [e1 Ho1].
    split_and!; [done| |eauto|].
    + pose proof (Hmin d l1 l2 Hl Hnone _ _ _ Ho1 Hlo). lia.
    + rewrite Hsd. intros day s' e'. by apply (Hmin d l1 l2).
  - exfalso. rewrite search_none, Forall_forall in E.
    assert (Hin : i ∈ horizon) by (apply elem_of_horizon; unfold policyHorizon; lia).
    specialize (E i Hin). unfold f in E.
    destruct (occurrenceOn_day p loc off Hoff Hs _ Hday) as [e1 Ho1]. rewrite Ho1 in E.
    destruct (Z.gtb_spec (start_on p off (day_of loc (to_seconds now) + i)) now); [done|lia].
Qed.

Definition utc_zones : string -> option Location := fun _ => Some (fun _ => mkZone 0 0 0).
Definition demo_row : PolicyRow :=
  mkPolicy "p" "org" "env" "app" "ada" "apply" "UTC" "1,3,5" 60 180 "active" "" 0 0 0.
Definition demo_policy : UpdatePolicy := mkUpdatePolicy demo_row [1; 3; 5] None.

Lemma nextOccurrence_found_witness :
  exists s, nextOccurrence utc_zones demo_policy 0 = Some s /\ 0 < s <= 0 + 7 * day_seconds * Second.
Proof.
  destruct (nextOccurrence_found utc_zones demo_policy (fun _ => mkZone 0 0 0) 0 0 1) as (s & ? & ? & _);
    [reflexivity|intros ?; reflexivity|vm_compute; split; [discriminate|reflexivity]|
     left|lia|]. eauto.
Defined.

Lemma policyOccurrence_open_witness :
  policyOccurrence utc_zones demo_policy (of_seconds (86400 + 3600)) =
    Some (of_seconds (86400 + 3600), of_seconds (86400 + 10800), true).
Proof.
  apply (policyOccurrence_open utc_zones demo_policy (fun _ => mkZone 0 0 0) 0);
    [reflexivity|intros ?; reflexivity|vm_compute; split; [discriminate|reflexivity]|
     vm_compute; discriminate|].
  exists 1. split; [vm_compute; reflexivity|]. vm_compute. split; [discriminate|reflexivity].
Defined.
