(* ===== verification/Policies.v ===== *)
(** * Update policies and their runs

    internal/store/policies.go and policy_schedule.go: saving, deleting and resuming a
    policy, and the run rows the scheduler opens and settles.  [policy_row_ok] and
    [run_row_ok] are the CHECK clauses of the two tables.  The clock readings of one operation
    are one instant [now]; fresh identifiers are arguments; [uuid.Parse] is a parameter. *)
From Stdlib Require Import ZArith Lia Ascii String.
From stdpp Require Import base gmap strings list sorting.
From S2P Require Import Prelude.
From S2P Require Import Text.
From S2P Require Import Permissions.
From S2P Require Import Store.
From S2P Require Import TenantAccess.
From S2P Require Import Schedule.

Definition PolicyFailureLimit : Z := 3.
Definition MaxPolicyRuns : Z := 100.
Definition policyRunsShown : Z := 20.

Definition RunSkippedMissed : string := "skipped_missed".
Definition RunSkippedBusy : string := "skipped_busy".
Definition RunNoUpdate : string := "no_update".
Definition RunPlanned : string := "planned".
Definition RunApplied : string := "applied".
Definition RunBlocked : string := "blocked".
Definition RunFailed : string := "failed".
Definition RunPaused : string := "paused".

Definition PolicyDetailMissed : string := "the server was not running during this window".
Definition PolicyDetailBusy : string := "another deployment occupied the window".
Definition PolicyDetailCreatorLost : string := "the policy's creator no longer holds application.deploy".
Definition PolicyDetailRestarted : string := "the server restarted during the run".
Definition PolicyReasonFailures : string := "three consecutive windows failed".

Definition AuditPolicyRun : string := "application.policy.run".
Definition AuditPolicyPaused : string := "application.policy.paused".

Definition policyResults : list (string * string) :=
  [(RunSkippedMissed, "success"); (RunSkippedBusy, "success"); (RunNoUpdate, "success");
   (RunPlanned, "success"); (RunApplied, "success"); (RunBlocked, "failure");
   (RunFailed, "failure"); (RunPaused, "denied")].

(** A Go map literal read with [m[k]] (zero value when absent) and [_, ok := m[k]]. *)
Definition map_get (m : list (string * string)) (k : string) : string :=
  match List.find (fun kv => bool_decide (kv.1 = k)) m with Some kv => kv.2 | None => "" end.
Definition map_has (m : list (string * string)) (k : string) : bool :=
  existsb (fun kv => bool_decide (kv.1 = k)) m.

(** ** Rows *)

Definition policy_row_ok (p : PolicyRow) : bool :=
  btw 1 255 (char_length (p_created_by p)) &&
  bool_decide (p_mode p ∈ [PolicyModeApply; PolicyModePlanOnly]) &&
  btw 1 64 (char_length (p_timezone p)) && btw 1 13 (char_length (p_weekdays p)) &&
  btw 0 1425 (p_start p) && btw 15 1440 (p_end p) && (p_end p - p_start p >=? 15) &&
  bool_decide (p_status p ∈ [PolicyActive; PolicyPaused]) &&
  (char_length (p_paused_reason p) <=? 255) && (p_failures p >=? 0).

Definition run_row_ok (r : RunRow) : bool :=
  bool_decide (r_outcome r ∈ "" :: map fst policyResults) &&
  (char_length (r_detail r) <=? 255) && btw 1 64 (char_length (r_correlation r)).

(** INSERT and UPDATE of one row, with the table's CHECK clauses. *)
Definition put_policy (p : PolicyRow) : tx unit :=
  _ ← ensure (policy_row_ok p) ErrConstraint;
  modify (fun db => set_policies (<[p_id p := p]> (policies db)) db).
Definition put_run (r : RunRow) : tx unit :=
  _ ← ensure (run_row_ok r) ErrConstraint;
  modify (fun db => set_runs (<[r_id r := r]> (runs db)) db).

Definition insert_policy (p : PolicyRow) : tx unit :=
  free ← gets (fun db => bool_decide (policies db !! p_id p = None)
                 && (count (fun q => bool_decide (p_app q = p_app p)) (policies db) =? 0));
  _ ← ensure free ErrUnique;
  app ← gets (fun db => applications db !! p_app p);
  _ ← ensure (bool_decide (app_org <$> app = Some (p_org p)) && bool_decide (app_env <$> app = Some (p_env p))) ErrConstraint;
  put_policy p.

Definition insert_run (r : RunRow) : tx unit :=
  free ← gets (fun db => bool_decide (runs db !! r_id r = None)
                 && (count (fun q => bool_decide (r_policy q = r_policy r) && (r_occurrence q =? r_occurrence r)) (runs db) =? 0));
  _ ← ensure free ErrUnique;
  known ← gets (fun db => policies db !! r_policy r);
  _ ← ensure (bool_decide (is_Some known)) ErrConstraint;
  put_run r.

(** [UPDATE update_policies SET f WHERE id=? AND guard]: the rows affected. *)
Definition update_policy (id : string) (guard : PolicyRow -> bool) (f : PolicyRow -> PolicyRow) : tx Z :=
  row ← gets (fun db => policies db !! id);
  match row with
  | Some p => if guard p then _ ← put_policy (f p); mret 1 else mret 0
  | None => mret 0
  end.
Definition update_run (id : string) (guard : RunRow -> bool) (f : RunRow -> RunRow) : tx Z :=
  row ← gets (fun db => runs db !! id);
  match row with
  | Some r => if guard r then _ ← put_run (f r); mret 1 else mret 0
  | None => mret 0
  end.

(** Deleting a policy deletes its runs (ON DELETE CASCADE), and what referenced one of those
    runs references none (ON DELETE SET NULL). *)
Definition clear_run (gone : string -> bool) (o : option string) : option string :=
  match o with Some r => if gone r then None else Some r | None => None end.

Definition delete_policy (id : string) (db : DB) : DB :=
  let gone r := match runs db !! r with Some row => bool_decide (r_policy row = id) | None => false end in
  set_policies (delete id (policies db))
  (set_runs (filter (fun kr => r_policy kr.2 <> id) (runs db))
  (set_validations ((fun v => mkValidation (v_id v) (v_org v) (v_env v) (v_app v) (v_instance v) (v_endpoint v)
      (clear_run gone (v_run v)) (v_automated v) (v_is_rollback v) (v_phase v) (v_started v) (v_until v)
      (v_verdict v) (v_detail v) (v_baseline v) (v_rollback v) (v_rollback_outcome v) (v_rollback_detail v)
      (v_correlation v) (v_finished v)) <$> validations db)
  (set_deployments ((fun d => mkDeployment (d_id d) (d_org d) (d_env d) (d_app d) (d_instance d) (d_endpoint d)
      (d_state d) (d_expires d) (clear_run gone (d_policy_run d)) (d_kind d) (d_project d) (d_revision d) (d_digest d)
      (d_mapping d) (d_plan d) (d_created_by d) (d_created d) (d_applied_by d) (d_applied d) (d_deadline d) (d_settled d)
      (d_detail d) (d_result d) (d_correlation d) (d_migration d)) <$> deployments db) db))).

(** ** Reading *)

Definition readPolicy (id : string) : tx UpdatePolicy :=
  row ← gets (fun db => policies db !! id);
  p ← one row ErrNoRows;
  match scanPolicy p with Ok up => mret up | Fail e => throw e end.

Definition policy_here (a : TenantAccess) (app : string) (p : PolicyRow) : bool :=
  bool_decide (p_org p = OrganizationID a) && bool_decide (p_env p = EnvironmentID a)
  && bool_decide (p_app p = app).

(** The application's policy in the caller's scope; [application_id] is UNIQUE. *)
Definition find_policy (a : TenantAccess) (app : string) (db : DB) : option PolicyRow :=
  head (select (policy_here a app) (policies db)).

Definition policyOf (a : TenantAccess) (app : string) : tx (string * string) :=
  row ← gets (find_policy a app);
  p ← one row ErrNotFound;
  mret (p_id p, p_status p).

Definition set_next (LL : string -> option Location) (now : time) (p : UpdatePolicy) : UpdatePolicy :=
  mkUpdatePolicy (up_row p) (up_weekdays p) (nextOccurrenceOf LL p now).

Definition map_res {E A B} (f : A -> B) (r : res E A) : res E B :=
  match r with Ok a => Ok (f a) | Fail e => Fail e end.

(** ** Saving, deleting and resuming *)

Section operations.
Context (uuid_parse : string -> option string) (LoadLocation : string -> option Location).

Definition PutUpdatePolicy_body (a : TenantAccess) (app id : string) (i : PolicyInput) (now : time)
    : act (UpdatePolicy * bool) :=
  days ← lift (match weekdays LoadLocation i with Ok s => mret s | Fail e => throw e end);
  _ ← lift (map_err (fun e => if bool_decide (e = ErrAdoptionChanged) then ErrNotFound else e)
              (lockApplication a app));
  current ← lift (gets (find_policy a app));
  saved ← lift (match current with
    | None =>
        _ ← insert_policy (mkPolicy id (OrganizationID a) (EnvironmentID a) app (ActorID a) (in_mode i)
              (in_timezone i) days (in_start i) (in_end i) PolicyActive "" 0 now now);
        mret (id, true)
    | Some p =>
        _ ← update_policy (p_id p) (fun _ => true) (fun q =>
              mkPolicy (p_id q) (p_org q) (p_env q) (p_app q) (ActorID a) (in_mode i) (in_timezone i) days
                (in_start i) (in_end i) (p_status q) (p_paused_reason q) (p_failures q) (p_created q) now);
        mret (p_id p, false)
    end);
  _ ← set_target (app +:+ "/policies/" +:+ saved.1);
  out ← lift (readPolicy saved.1);
  mret (out, saved.2).

Definition PutUpdatePolicy (a : TenantAccess) (app : string) (i : PolicyInput) (id : string)
    (now : time) (fresh : string) (db : DB) : res StoreErr (UpdatePolicy * bool) * DB :=
  match uuid_parse app with
  | Some appID =>
      if negb (nonempty (EnvironmentID a)) then (Fail ErrInvalid, db)
      else
        let '(r, db') := run a ApplicationPolicy (mkNotes (Some (appID +:+ "/policies")) None) true
                           (PutUpdatePolicy_body a appID id i now) now fresh db in
        (map_res (fun uc => (set_next LoadLocation now uc.1, uc.2)) r, db')
  | None => (Fail ErrInvalid, db)
  end.

Definition DeleteUpdatePolicy_body (a : TenantAccess) (app : string) : act unit :=
  p ← lift (policyOf a app);
  _ ← set_target (app +:+ "/policies/" +:+ p.1);
  lift (modify (delete_policy p.1)).

Definition DeleteUpdatePolicy (a : TenantAccess) (app : string) (now : time) (fresh : string) (db : DB)
    : res StoreErr unit * DB :=
  match uuid_parse app with
  | Some appID =>
      if negb (nonempty (EnvironmentID a)) then (Fail ErrInvalid, db)
      else run a ApplicationPolicy (mkNotes (Some (appID +:+ "/policies")) None) true
             (DeleteUpdatePolicy_body a appID) now fresh db
  | None => (Fail ErrInvalid, db)
  end.

Definition ResumeUpdatePolicy_body (a : TenantAccess) (app : string) (now : time) : act UpdatePolicy :=
  p ← lift (policyOf a app);
  _ ← set_target (app +:+ "/policies/" +:+ p.1 +:+ "/resume");
  _ ← lift (ensure (bool_decide (p.2 = PolicyPaused)) ErrPolicyNotPaused);
  _ ← lift (update_policy p.1 (fun _ => true) (fun q =>
        mkPolicy (p_id q) (p_org q) (p_env q) (p_app q) (p_created_by q) (p_mode q) (p_timezone q)
          (p_weekdays q) (p_start q) (p_end q) PolicyActive "" 0 (p_created q) now));
  lift (readPolicy p.1).

Definition ResumeUpdatePolicy (a : TenantAccess) (app : string) (now : time) (fresh : string) (db : DB)
    : res StoreErr UpdatePolicy * DB :=
  match uuid_parse app with
  | Some appID =>
      if negb (nonempty (EnvironmentID a)) then (Fail ErrInvalid, db)
      else
        let '(r, db') := run a ApplicationPolicy (mkNotes (Some (appID +:+ "/policies")) None) true
                           (ResumeUpdatePolicy_body a appID now) now fresh db in
        (map_res (set_next LoadLocation now) r, db')
  | None => (Fail ErrInvalid, db)
  end.
End operations.

(** ** Runs *)

Definition policyRan (policy : string) (occurrence : time) (db : DB) : bool :=
  count (fun r => bool_decide (r_policy r = policy) && (r_occurrence r =? occurrence)) (runs db) >? 0.

Definition insertPolicyRun (policy : string) (occurrence : time) (correlation id : string) (now : time)
    : tx string :=
  row ← gets (fun db => policies db !! policy);
  p ← one row ErrNotFound;
  _ ← ensure (bool_decide (p_status p = PolicyActive)) ErrNotFound;
  _ ← map_err (fun e => if bool_decide (e = ErrUnique) then ErrAlreadyExists else e)
        (insert_run (mkRun id policy (p_org p) (p_env p) (p_app p) occurrence now None
                       "" None "" correlation));
  mret id.

Definition auditPolicy (org env resource action details result correlation : string) (now : time) : tx unit :=
  modify (add_audit (mkAudit "system" action (CleanText resource 255) (CleanText details 255) "" now
    "organization" org env correlation result)).

Definition failing (outcome : string) : bool := bool_decide (outcome = RunBlocked) || bool_decide (outcome = RunFailed).
Definition resetting (outcome : string) : bool :=
  bool_decide (outcome = RunApplied) || bool_decide (outcome = RunPlanned) || bool_decide (outcome = RunNoUpdate).

Definition with_failures (n : Z) (q : PolicyRow) : PolicyRow :=
  mkPolicy (p_id q) (p_org q) (p_env q) (p_app q) (p_created_by q) (p_mode q) (p_timezone q)
    (p_weekdays q) (p_start q) (p_end q) (p_status q) (p_paused_reason q) n (p_created q) (p_updated q).
Definition paused_for (reason : string) (now : time) (q : PolicyRow) : PolicyRow :=
  mkPolicy (p_id q) (p_org q) (p_env q) (p_app q) (p_created_by q) (p_mode q) (p_timezone q)
    (p_weekdays q) (p_start q) (p_end q) PolicyPaused reason (p_failures q) (p_created q) now.
Definition finished_run (outcome deployment detail : string) (now : time) (r : RunRow) : RunRow :=
  mkRun (r_id r) (r_policy r) (r_org r) (r_env r) (r_app r) (r_occurrence r) (r_started r) (Some now)
    outcome (if nonempty deployment then Some deployment else r_deployment r) (CleanText detail 255)
    (r_correlation r).
Definition run_open (r : RunRow) : bool := bool_decide (r_outcome r = "").
Definition active (p : PolicyRow) : bool := bool_decide (p_status p = PolicyActive).

(** The switch on the outcome: counts it and returns the pause reason, "" for none. *)
Definition count_outcome (policy outcome : string) : tx string :=
  if failing outcome then
    _ ← update_policy policy (fun _ => true) (fun q => with_failures (p_failures q + 1) q);
    row ← gets (fun db => policies db !! policy);
    q ← one row ErrNoRows;
    mret (if p_failures q >=? PolicyFailureLimit then PolicyReasonFailures else "")
  else if resetting outcome then
    _ ← update_policy policy (fun _ => true) (with_failures 0);
    mret ""
  else mret (if bool_decide (outcome = RunPaused) then PolicyDetailCreatorLost else "").

Definition finishPolicyRun (run outcome deployment detail : string) (now : time) : tx unit :=
  row ← gets (fun db => runs db !! run);
  r ← one row ErrNotFound;
  _ ← ensure (run_open r) ErrNotFound;
  n ← update_run run run_open (finished_run outcome deployment detail now);
  _ ← ensure (negb (n =? 0)) ErrNotFound;
  pause ← count_outcome (r_policy r) outcome;
  let resource := r_app r +:+ "/policies/" +:+ r_policy r in
  _ ← auditPolicy (r_org r) (r_env r) (resource +:+ "/runs/" +:+ run) AuditPolicyRun outcome
        (map_get policyResults outcome) (r_correlation r) now;
  if negb (nonempty pause) then mret tt
  else
    m ← update_policy (r_policy r) active (paused_for pause now);
    if m =? 0 then mret tt
    else auditPolicy (r_org r) (r_env r) resource AuditPolicyPaused pause
           (if bool_decide (outcome = RunPaused) then "denied" else "failure") (r_correlation r) now.

Definition BeginPolicyRun (policy : string) (occurrence : time) (correlation id : string) (now : time)
    : DB -> res StoreErr string * DB :=
  commit (insertPolicyRun policy occurrence correlation id now).

Definition FinishPolicyRun (run outcome deployment detail : string) (now : time) (db : DB)
    : res StoreErr unit * DB :=
  if negb (map_has policyResults outcome) then (Fail ErrInvalid, db)
  else commit (finishPolicyRun run outcome deployment detail now) db.

Definition SkipPolicyWindow (policy : string) (occurrence : time) (outcome detail correlation id : string)
    (now : time) (db : DB) : res StoreErr unit * DB :=
  if negb (bool_decide (outcome = RunSkippedMissed)) && negb (bool_decide (outcome = RunSkippedBusy))
  then (Fail ErrInvalid, db)
  else commit (
    run ← insertPolicyRun policy occurrence correlation id now;
    finishPolicyRun run outcome "" detail now) db.

Definition reconcilePolicyRuns (now : time) : tx unit :=
  open ← gets (fun db => map r_id (select_by r_started r_id run_open (runs db)));
  tx_iter (fun id => finishPolicyRun id RunFailed "" PolicyDetailRestarted now) open.

Definition with_deployment (deployment : string) (r : RunRow) : RunRow :=
  mkRun (r_id r) (r_policy r) (r_org r) (r_env r) (r_app r) (r_occurrence r) (r_started r) (r_finished r)
    (r_outcome r) (Some deployment) (r_detail r) (r_correlation r).

Definition AttachPolicyRunDeployment (run deployment : string) : DB -> res StoreErr unit * DB :=
  commit (
    n ← update_run run run_open (with_deployment deployment);
    ensure (n =? 1) ErrNotFound).

(** ** What settling a run does

    [settle] is the specification of the counting rule: what an outcome makes of the policy. *)
Definition counted (outcome : string) (p : PolicyRow) : PolicyRow :=
  if failing outcome then with_failures (p_failures p + 1) p
  else if resetting outcome then with_failures 0 p else p.
Definition pause_reason (outcome : string) (p : PolicyRow) : string :=
  if failing outcome && (p_failures p + 1 >=? PolicyFailureLimit) then PolicyReasonFailures
  else if bool_decide (outcome = RunPaused) then PolicyDetailCreatorLost else "".
Definition pauses (outcome : string) (p : PolicyRow) : bool :=
  nonempty (pause_reason outcome p) && active p.
Definition settle (outcome : string) (now : time) (p : PolicyRow) : PolicyRow :=
  if pauses outcome p then paused_for (pause_reason outcome p) now (counted outcome p)
  else counted outcome p.

(** The tables' own rules and the scheduler's: an active policy has fewer than three
    consecutive failures, and a run is finished exactly when it has an outcome. *)
Record PolicyInv (db : DB) : Prop := {
  inv_policy_keys : keyed p_id (policies db);
  inv_run_keys : keyed r_id (runs db);
  inv_policy_ok : forall k p, policies db !! k = Some p -> policy_row_ok p = true;
  inv_run_ok : forall k r, runs db !! k = Some r -> run_row_ok r = true;
  inv_run_policy : forall k r, runs db !! k = Some r -> is_Some (policies db !! r_policy r);
  inv_run_unique : forall k k' r r', runs db !! k = Some r -> runs db !! k' = Some r' ->
    r_policy r = r_policy r' -> r_occurrence r = r_occurrence r' -> k = k';
  inv_policy_unique : forall k k' p p', policies db !! k = Some p -> policies db !! k' = Some p' ->
    p_app p = p_app p' -> k = k';
  inv_failures : forall k p, policies db !! k = Some p -> p_status p = PolicyActive ->
    p_failures p < PolicyFailureLimit;
  inv_days : forall k p, policies db !! k = Some p -> is_ok (scanPolicy p) = true;
  inv_outcome : forall k r, runs db !! k = Some r -> (r_outcome r = "" <-> r_finished r = None) }.

Ltac bools :=
  rewrite ?andb_true_iff, ?orb_true_iff, ?bool_decide_eq_true, ?Z.leb_le, ?Z.geb_le, ?Z.ltb_lt, ?Z.gtb_lt in *;
  unfold btw in *.

Lemma policy_row_ok_update p q :
  policy_row_ok p = true -> p_created_by q = p_created_by p -> p_mode q = p_mode p ->
  p_timezone q = p_timezone p -> p_weekdays q = p_weekdays p -> p_start q = p_start p ->
  p_end q = p_end p -> p_status q = PolicyActive \/ p_status q = PolicyPaused ->
  char_length (p_paused_reason q) <= 255 -> 0 <= p_failures q -> policy_row_ok q = true.
Proof.
  unfold policy_row_ok. intros Hp -> -> -> -> -> -> Hs Hr Hf.
  rewrite !andb_true_iff in *. destruct_and!. split_and!; try done.
  - apply bool_decide_eq_true. destruct Hs as [-> | ->]; set_solver.
  - by apply Z.leb_le.
  - by apply Z.geb_le.
Qed.

Lemma policy_row_status p :
  policy_row_ok p = true ->
  (p_status p = PolicyActive \/ p_status p = PolicyPaused) /\
  char_length (p_paused_reason p) <= 255 /\ 0 <= p_failures p.
Proof.
  unfold policy_row_ok. rewrite !andb_true_iff. intros H. destruct_and!.
  match goal with H : bool_decide (p_status p ∈ _) = true |- _ => apply bool_decide_eq_true in H end.
  rewrite Z.geb_le, Z.leb_le in *. split_and!; try done.
  rewrite !elem_of_cons, elem_of_nil in *. tauto.
Qed.

Lemma counted_ok outcome p : policy_row_ok p = true -> policy_row_ok (counted outcome p) = true.
Proof.
  intros Hp. pose proof (policy_row_status p Hp) as (Hs & Hr & Hf). unfold counted.
  destruct (failing outcome); [|destruct (resetting outcome); [|done]];
    eapply policy_row_ok_update; simpl; eauto; lia.
Qed.

Lemma paused_for_ok reason now p :
  char_length reason <= 255 -> policy_row_ok p = true -> policy_row_ok (paused_for reason now p) = true.
Proof.
  intros Hl Hp. pose proof (policy_row_status p Hp) as (Hs & Hr & Hf).
  eapply policy_row_ok_update; simpl; eauto.
Qed.

Lemma finished_run_ok outcome deployment detail now r :
  map_has policyResults outcome = true -> run_row_ok r = true ->
  run_row_ok (finished_run outcome deployment detail now r) = true.
Proof.
  unfold run_row_ok. rewrite !andb_true_iff. intros Ho ((_ & _) & Hc). split_and!; [| |done].
  - apply bool_decide_eq_true. unfold map_has in Ho. apply existsb_exists in Ho as (kv & Hin & Hk).
    apply bool_decide_eq_true in Hk as <-. right. apply list_elem_of_fmap. exists kv.
    split; [done|by apply list_elem_of_In].
  - apply Z.leb_le, char_length_CleanText.
Qed.

Lemma update_policy_hit id guard f db p :
  policies db !! id = Some p -> guard p = true -> policy_row_ok (f p) = true -> p_id (f p) = id ->
  update_policy id guard f db = Ok (1, set_policies (<[id := f p]> (policies db)) db).
Proof.
  intros Hp Hg Hok Hid. unfold update_policy, mbind, tx_bind, gets. rewrite Hp, Hg.
  unfold put_policy, mbind, tx_bind, ensure. rewrite Hok. simpl. by rewrite Hid.
Qed.

Lemma update_policy_miss id guard f db p :
  policies db !! id = Some p -> guard p = false -> update_policy id guard f db = Ok (0, db).
Proof. intros Hp Hg. unfold update_policy, mbind, tx_bind, gets. by rewrite Hp, Hg. Qed.

Lemma update_run_hit id guard f db r :
  runs db !! id = Some r -> guard r = true -> run_row_ok (f r) = true -> r_id (f r) = id ->
  update_run id guard f db = Ok (1, set_runs (<[id := f r]> (runs db)) db).
Proof.
  intros Hp Hg Hok Hid. unfold update_run, mbind, tx_bind, gets. rewrite Hp, Hg.
  unfold put_run, mbind, tx_bind, ensure. rewrite Hok. simpl. by rewrite Hid.
Qed.

Lemma set_policies_same db k p : policies db !! k = Some p -> set_policies (<[k := p]> (policies db)) db = db.
Proof. intros H. rewrite insert_id by done. by destruct db. Qed.

(** [count_outcome] on an existing policy. *)
Lemma count_outcome_run db policy p outcome :
  policies db !! policy = Some p -> p_id p = policy -> policy_row_ok p = true ->
  count_outcome policy outcome db =
    Ok (pause_reason outcome p, set_policies (<[policy := counted outcome p]> (policies db)) db).
Proof.
  intros Hp Hid Hok. pose proof (counted_ok outcome p Hok) as Hc.
  unfold count_outcome, counted, pause_reason in *. destruct (failing outcome) eqn:Ef.
  - erewrite bind_run; [|apply (update_policy_hit _ _ _ _ p); done].
    unfold mbind, tx_bind, gets. simpl. rewrite lookup_insert_eq. simpl.
    assert (bool_decide (outcome = RunPaused) = false) as ->; [|by destruct (_ >=? _)].
    apply bool_decide_eq_false. intros ->. vm_compute in Ef. done.
  - destruct (resetting outcome) eqn:Er.
    + erewrite bind_run; [|apply (update_policy_hit _ _ _ _ p); done].
      simpl. assert (bool_decide (outcome = RunPaused) = false) as ->; [|done].
      apply bool_decide_eq_false. intros ->. vm_compute in Er. done.
    + rewrite set_policies_same by done. done.
Qed.

Definition run_resource (r : RunRow) : string := r_app r +:+ "/policies/" +:+ r_policy r.

(** The audit rows a settled run leaves: its own, and the pause's. *)
Definition settled_rows (outcome : string) (now : time) (r : RunRow) (p : PolicyRow) : list AuditRecord :=
  mkAudit "system" AuditPolicyRun (CleanText (run_resource r +:+ "/runs/" +:+ r_id r) 255)
    (CleanText outcome 255) "" now "organization" (r_org r) (r_env r) (r_correlation r)
    (map_get policyResults outcome) ::
  if pauses outcome p then
    [mkAudit "system" AuditPolicyPaused (CleanText (run_resource r) 255)
       (CleanText (pause_reason outcome p) 255) "" now "organization" (r_org r) (r_env r) (r_correlation r)
       (if bool_decide (outcome = RunPaused) then "denied" else "failure")]
  else [].

Definition settled_db (outcome deployment detail : string) (now : time) (r : RunRow) (p : PolicyRow) (db : DB) : DB :=
  set_audit (audit db ++ settled_rows outcome now r p)
    (set_policies (<[r_policy r := settle outcome now p]> (policies db))
      (set_runs (<[r_id r := finished_run outcome deployment detail now r]> (runs db)) db)).

Lemma pause_reason_short outcome p : char_length (pause_reason outcome p) <= 255.
Proof.
  unfold pause_reason. destruct (_ && _); [vm_compute; discriminate|].
  destruct (bool_decide _); vm_compute; discriminate.
Qed.

Lemma finishPolicyRun_run db run outcome deployment detail now r p :
  keyed r_id (runs db) -> keyed p_id (policies db) ->
  runs db !! run = Some r -> r_outcome r = "" -> run_row_ok r = true ->
  policies db !! r_policy r = Some p -> policy_row_ok p = true ->
  map_has policyResults outcome = true ->
  finishPolicyRun run outcome deployment detail now db =
    Ok (tt, settled_db outcome deployment detail now r p db).
Proof.
  intros Hkr Hkp Hr Hopen Hrok Hp Hpok Ho. assert (Hid := Hkr _ _ Hr). assert (Hpid := Hkp _ _ Hp).
  assert (Hro : run_open r = true) by (by apply bool_decide_eq_true).
  unfold finishPolicyRun. erewrite bind_run by reflexivity. rewrite Hr.
  erewrite bind_run by reflexivity. rewrite Hro. erewrite bind_run by reflexivity.
  erewrite bind_run; [|apply (update_run_hit _ _ _ _ r); auto using finished_run_ok].
  erewrite bind_run by reflexivity.
  erewrite bind_run; [|apply (count_outcome_run _ _ p); done].
  erewrite bind_run by reflexivity. unfold settled_db, settled_rows, settle, pauses.
  destruct (nonempty (pause_reason outcome p)) eqn:En; cbn [negb andb]; [|by subst run].
  assert (Hact : active (counted outcome p) = active p).
  { unfold counted, active. by destruct (failing outcome), (resetting outcome). }
  destruct (active p) eqn:Ea.
  - erewrite bind_run.
    2:{ apply (update_policy_hit _ _ _ _ (counted outcome p)); [|done| |].
        - simpl. apply lookup_insert_eq.
        - auto using paused_for_ok, counted_ok, pause_reason_short.
        - unfold counted. by destruct (failing outcome), (resetting outcome). }
    simpl. rewrite insert_insert_eq. subst run. unfold auditPolicy, modify. do 2 f_equal.
    unfold add_audit, set_audit; simpl. by rewrite <- app_assoc.
  - erewrite bind_run.
    2:{ apply (update_policy_miss _ _ _ _ (counted outcome p)); [|done]. simpl. apply lookup_insert_eq. }
    simpl. by subst run.
Qed.

(** ** The invariant *)

Lemma PolicyInv_ext db db' :
  policies db' = policies db -> runs db' = runs db -> PolicyInv db -> PolicyInv db'.
Proof. intros Hp Hr []. by split; rewrite ?Hp, ?Hr. Qed.

Definition failures_ok (p : PolicyRow) : Prop := p_status p = PolicyActive -> p_failures p < PolicyFailureLimit.

Lemma PolicyInv_set_policy db k p q :
  PolicyInv db -> policies db !! k = Some p -> p_id q = k -> p_app q = p_app p ->
  policy_row_ok q = true -> failures_ok q -> is_ok (scanPolicy q) = true ->
  PolicyInv (set_policies (<[k := q]> (policies db)) db).
Proof.
  intros [] Hp Hid Happ Hok Hf Hdays. split; simpl; try done.
  - subst k. by apply keyed_insert.
  - intros k' p'. rewrite lookup_insert_Some. intros [[_ <-]|[_ ?]]; eauto.
  - intros k' r Hr. rewrite lookup_insert_is_Some'. eauto.
  - intros k1 k2 p1 p2. rewrite !lookup_insert_Some.
    intros [[<- <-]|[Hn1 H1]] [[<- <-]|[Hn2 H2]] Heq; try done.
    + symmetry. eapply inv_policy_unique0; eauto; congruence.
    + eapply inv_policy_unique0; eauto; congruence.
    + eauto.
  - intros k' p'. rewrite lookup_insert_Some. intros [[_ <-]|[_ ?]]; eauto.
  - intros k' p'. rewrite lookup_insert_Some. intros [[_ <-]|[_ ?]]; eauto.
Qed.

Lemma scanPolicy_days p q : p_weekdays q = p_weekdays p -> is_ok (scanPolicy q) = is_ok (scanPolicy p).
Proof. unfold scanPolicy. intros ->. by destruct (scan_days _). Qed.

Lemma PolicyInv_set_run db k r s :
  PolicyInv db -> runs db !! k = Some r -> r_id s = k -> r_policy s = r_policy r ->
  r_occurrence s = r_occurrence r -> run_row_ok s = true -> (r_outcome s = "" <-> r_finished s = None) ->
  PolicyInv (set_runs (<[k := s]> (runs db)) db).
Proof.
  intros [] Hr Hid Hpol Hocc Hok Ho. split; simpl; try done.
  - subst k. by apply keyed_insert.
  - intros k' r'. rewrite lookup_insert_Some. intros [[_ <-]|[_ ?]]; eauto.
  - intros k' r'. rewrite lookup_insert_Some. intros [[_ <-]|[_ ?]]; [rewrite Hpol|]; eauto.
  - intros k1 k2 r1 r2. rewrite !lookup_insert_Some.
    intros [[<- <-]|[Hn1 H1]] [[<- <-]|[Hn2 H2]] Heq Heq'; try done.
    + symmetry. eapply inv_run_unique0; eauto; congruence.
    + eapply inv_run_unique0; eauto; congruence.
    + eauto.
  - intros k' r'. rewrite lookup_insert_Some. intros [[_ <-]|[_ ?]]; eauto.
Qed.

Lemma counted_id outcome p : p_id (counted outcome p) = p_id p.
Proof. unfold counted. by destruct (failing outcome), (resetting outcome). Qed.
Lemma counted_app outcome p : p_app (counted outcome p) = p_app p.
Proof. unfold counted. by destruct (failing outcome), (resetting outcome). Qed.
Lemma counted_status outcome p : p_status (counted outcome p) = p_status p.
Proof. unfold counted. by destruct (failing outcome), (resetting outcome). Qed.

Lemma settle_id outcome now p : p_id (settle outcome now p) = p_id p /\ p_app (settle outcome now p) = p_app p.
Proof. unfold settle. destruct (pauses outcome p); simpl; rewrite counted_id, counted_app; done. Qed.

Lemma settle_row_ok outcome now p : policy_row_ok p = true -> policy_row_ok (settle outcome now p) = true.
Proof.
  intros H. unfold settle. destruct (pauses outcome p); auto using counted_ok, paused_for_ok, pause_reason_short.
Qed.

Lemma settle_failures outcome now p : failures_ok p -> failures_ok (settle outcome now p).
Proof.
  unfold failures_ok, settle. intros Hf. destruct (pauses outcome p) eqn:E; [done|].
  rewrite counted_status. intros Ha. specialize (Hf Ha).
  unfold pauses, active in E. rewrite Ha, bool_decide_true, andb_true_r in E by done.
  unfold counted, pause_reason in *. destruct (failing outcome).
  - destruct (Z.geb_spec (p_failures p + 1) PolicyFailureLimit); [done|]. done.
  - destruct (resetting outcome); simpl; [unfold PolicyFailureLimit; lia|done].
Qed.

Lemma settled_PolicyInv outcome deployment detail now r p db :
  PolicyInv db -> runs db !! r_id r = Some r -> policies db !! r_policy r = Some p ->
  map_has policyResults outcome = true ->
  PolicyInv (settled_db outcome deployment detail now r p db).
Proof.
  intros Hinv Hr Hp Ho. unfold settled_db.
  eapply PolicyInv_ext with (db := set_policies (<[r_policy r := settle outcome now p]> (policies db))
      (set_runs (<[r_id r := finished_run outcome deployment detail now r]> (runs db)) db)); [done..|].
  assert (Hpid := inv_policy_keys _ Hinv _ _ Hp). destruct (settle_id outcome now p) as [Hi Ha].
  apply (PolicyInv_set_policy (set_runs _ db) (r_policy r) p); [|done|congruence|done| | |].
  - apply (PolicyInv_set_run db _ r); auto; [eapply finished_run_ok; eauto using inv_run_ok|].
    simpl. split; [|done]. intros ->. vm_compute in Ho. done.
  - eapply settle_row_ok, inv_policy_ok; eauto.
  - apply settle_failures. intros ?. eapply inv_failures; eauto.
  - rewrite (scanPolicy_days p); [by eapply inv_days|].
    unfold settle, counted. by destruct (pauses outcome p), (failing outcome), (resetting outcome).
Qed.

(** A successful [finishPolicyRun], read backwards. *)
Lemma finishPolicyRun_inv db run outcome deployment detail now u db' :
  PolicyInv db -> map_has policyResults outcome = true ->
  finishPolicyRun run outcome deployment detail now db = Ok (u, db') ->
  exists r p, runs db !! run = Some r /\ r_id r = run /\ r_outcome r = "" /\
    policies db !! r_policy r = Some p /\ db' = settled_db outcome deployment detail now r p db.
Proof.
  intros Hinv Ho H. destruct (runs db !! run) as [r|] eqn:Hr.
  2:{ unfold finishPolicyRun in H. erewrite bind_run in H by reflexivity. by rewrite Hr in H. }
  destruct (decide (r_outcome r = "")) as [Hopen|Hopen].
  2:{ unfold finishPolicyRun in H. erewrite bind_run in H by reflexivity. rewrite Hr in H.
      erewrite bind_run in H by reflexivity. unfold run_open in H.
      by rewrite (bool_decide_false (r_outcome r = "")) in H. }
  destruct (inv_run_policy _ Hinv _ _ Hr) as [p Hp].
  rewrite (finishPolicyRun_run db run outcome deployment detail now r p) in H;
    eauto using inv_run_keys, inv_policy_keys, inv_run_ok, inv_policy_ok.
  injection H as _ <-. exists r, p. split_and!; try done. by apply (inv_run_keys _ Hinv).
Qed.

(** ** Every operation preserves the invariant *)

Lemma add_audit_PolicyInv rec db : PolicyInv db -> PolicyInv (add_audit rec db).
Proof. by apply PolicyInv_ext. Qed.
Lemma set_audit_PolicyInv l db : PolicyInv db -> PolicyInv (set_audit l db).
Proof. by apply PolicyInv_ext. Qed.
#[export] Hint Resolve add_audit_PolicyInv set_audit_PolicyInv : go.

Lemma insert_run_ok r db u db' :
  insert_run r db = Ok (u, db') ->
  runs db !! r_id r = None /\ policyRan (r_policy r) (r_occurrence r) db = false /\
  is_Some (policies db !! r_policy r) /\ run_row_ok r = true /\
  db' = set_runs (<[r_id r := r]> (runs db)) db.
Proof.
  unfold insert_run, put_run. intros H. tx_inv H. gobool. unfold policyRan.
  match goal with H : (count ?p ?m =? 0) = true |- _ => apply Z.eqb_eq in H; rewrite H end. done.
Qed.

Lemma policyRan_false policy occ db :
  policyRan policy occ db = false <->
  forall k r, runs db !! k = Some r -> r_policy r = policy -> r_occurrence r <> occ.
Proof.
  unfold policyRan. rewrite Z.gtb_ltb, Z.ltb_ge.
  set (q := fun r => bool_decide (r_policy r = policy) && (r_occurrence r =? occ)).
  pose proof (count_nonneg q (runs db)). split.
  - intros Hc k r Hr Hp Ho. assert (count q (runs db) = 0) as H0 by lia.
    assert (Hq := proj1 (count_zero q (runs db)) H0 k r Hr). unfold q in Hq. gobool.
    destruct Hq as [Hq|Hq]; [done|by apply Z.eqb_neq in Hq].
  - intros Hall. assert (count q (runs db) = 0); [|lia]. apply count_zero. intros k r Hr.
    unfold q. case_bool_decide; [|done]. simpl. apply Z.eqb_neq. eauto.
Qed.

Lemma insertPolicyRun_ok policy occ corr id now db x db' :
  insertPolicyRun policy occ corr id now db = Ok (x, db') ->
  x = id /\ exists p, policies db !! policy = Some p /\ p_status p = PolicyActive /\
    runs db !! id = None /\ policyRan policy occ db = false /\
    let r := mkRun id policy (p_org p) (p_env p) (p_app p) occ now None "" None "" corr in
    run_row_ok r = true /\ db' = set_runs (<[id := r]> (runs db)) db.
Proof.
  unfold insertPolicyRun. intros H. tx_inv H.
  match goal with H : insert_run _ _ = Ok _ |- _ => apply insert_run_ok in H as (? & ? & ? & ? & ->) end.
  gobool. split; [done|]. exists row. split_and!; done.
Qed.

Lemma insertPolicyRun_PolicyInv policy occ corr id now db x db' :
  PolicyInv db -> insertPolicyRun policy occ corr id now db = Ok (x, db') -> PolicyInv db'.
Proof.
  intros Hinv (-> & p & Hp & _ & Hnone & Hran & Hok & ->)%insertPolicyRun_ok.
  rewrite policyRan_false in Hran. destruct Hinv. split; simpl; try done.
  - apply (keyed_insert r_id (runs db) (mkRun id policy (p_org p) (p_env p) (p_app p) occ now None "" None "" corr)). done.
  - intros k r. rewrite lookup_insert_Some. intros [[_ <-]|[_ ?]]; eauto.
  - intros k r. rewrite lookup_insert_Some. intros [[_ <-]|[_ ?]]; simpl; eauto.
  - intros k1 k2 r1 r2. rewrite !lookup_insert_Some.
    intros [[<- <-]|[Hn1 H1]] [[<- <-]|[Hn2 H2]] Heq Heq'; simpl in *; try done.
    + exfalso. by eapply (Hran k2 r2).
    + exfalso. by eapply (Hran k1 r1).
    + eauto.
  - intros k r. rewrite lookup_insert_Some. intros [[_ <-]|[_ ?]]; [done|eauto].
Qed.

Lemma update_policy_ok id guard f db n db' :
  update_policy id guard f db = Ok (n, db') ->
  (n = 0 /\ db' = db) \/
  (n = 1 /\ exists p, policies db !! id = Some p /\ guard p = true /\ policy_row_ok (f p) = true /\
     db' = set_policies (<[p_id (f p) := f p]> (policies db)) db).
Proof.
  unfold update_policy, put_policy. intros H. tx_inv H.
  destruct (policies db !! id) as [p|] eqn:Hp; [|tx_inv H; by left].
  destruct (guard p) eqn:Hg; [|tx_inv H; by left]. tx_inv H. right. split; [done|]. exists p. done.
Qed.

Lemma update_run_ok id guard f db n db' :
  update_run id guard f db = Ok (n, db') ->
  (n = 0 /\ db' = db) \/
  (n = 1 /\ exists r, runs db !! id = Some r /\ guard r = true /\ run_row_ok (f r) = true /\
     db' = set_runs (<[r_id (f r) := f r]> (runs db)) db).
Proof.
  unfold update_run, put_run. intros H. tx_inv H.
  destruct (runs db !! id) as [r|] eqn:Hp; [|tx_inv H; by left].
  destruct (guard r) eqn:Hg; [|tx_inv H; by left]. tx_inv H. right. split; [done|]. exists r. done.
Qed.

Lemma readPolicy_db id db x db' : readPolicy id db = Ok (x, db') -> db' = db.
Proof. unfold readPolicy. intros H. tx_inv H. destruct (scanPolicy row); tx_inv H; done. Qed.


Lemma find_policy_some a app db p :
  find_policy a app db = Some p -> exists k, policies db !! k = Some p /\ p_app p = app.
Proof.
  unfold find_policy. intros Hh. assert (Hin : p ∈ select (policy_here a app) (policies db)).
  { destruct (select _ _); [done|]. injection Hh as ->. left. }
  apply elem_of_select in Hin as [[k Hk] Hp]. unfold policy_here in Hp. gobool. eauto.
Qed.

Lemma find_policy_key a app db p :
  PolicyInv db -> find_policy a app db = Some p -> policies db !! p_id p = Some p.
Proof.
  intros Hinv (k & Hk & _)%find_policy_some. by rewrite (inv_policy_keys _ Hinv _ _ Hk).
Qed.

Lemma insert_policy_PolicyInv p db u db' :
  PolicyInv db -> p_failures p = 0 -> is_ok (scanPolicy p) = true -> insert_policy p db = Ok (u, db') -> PolicyInv db'.
Proof.
  intros Hinv Hf Hdays H. unfold insert_policy, put_policy in H. tx_inv H. gobool.
  match goal with H : (count _ _ =? 0) = true |- _ => apply Z.eqb_eq in H; rewrite count_zero in H; rename H into Happ end.
  assert (Hne : forall k q, policies db !! k = Some q -> p_app q <> p_app p).
  { intros k q Hq. by apply (bool_decide_eq_false_1 (p_app q = p_app p)), (Happ k). }
  destruct Hinv. split; simpl; try done.
  - by apply keyed_insert.
  - intros k q. rewrite lookup_insert_Some. intros [[_ <-]|[_ ?]]; eauto.
  - intros k r Hr. rewrite lookup_insert_is_Some'. eauto.
  - intros k1 k2 p1 p2. rewrite !lookup_insert_Some.
    intros [[<- <-]|[? ?]] [[<- <-]|[? ?]] Heq; try done; [exfalso; by eapply Hne| |eauto].
    exfalso. by eapply Hne.
  - intros k q. rewrite lookup_insert_Some. intros [[_ <-]|[_ ?]]; [|eauto].
    rewrite Hf. done.
  - intros k q. rewrite lookup_insert_Some. intros [[_ <-]|[_ ?]]; eauto.
Qed.

Lemma weekdays_scan LL i s :
  weekdays LL i = Ok s -> forall p, p_weekdays p = s -> is_ok (scanPolicy p) = true.
Proof.
  intros (_ & _ & _ & _ & days & _ & _ & _ & _ & _ & _ & Hs)%weekdays_ok p Hp.
  unfold scanPolicy. by rewrite Hp, Hs.
Qed.

Lemma PutUpdatePolicy_body_PolicyInv LL a app id i now n db n' x db' :
  PolicyInv db -> PutUpdatePolicy_body LL a app id i now n db = (n', Ok (x, db')) -> PolicyInv db'.
Proof.
  intros Hinv H. unfold PutUpdatePolicy_body in H. act_inv H.
  repeat match goal with
  | H : readPolicy _ _ = Ok _ |- _ => apply readPolicy_db in H; subst
  | H : lockApplication _ _ _ = Ok _ |- _ => apply lockApplication_db in H; subst
  | H : (match weekdays LL i with _ => _ end) _ = Ok _ |- _ => destruct (weekdays LL i) eqn:Hdays; tx_inv H
  end.
  assert (Hscan := weekdays_scan _ _ _ Hdays).
  destruct (find_policy a app db) as [p|] eqn:Hfp.
  - match goal with H : (_ ≫= _) db = Ok _ |- _ => tx_inv H end.
    match goal with H : update_policy _ _ _ _ = Ok _ |- _ =>
      apply update_policy_ok in H as [[_ ->]|(_ & q & Hq & _ & Hok & ->)]; [done|] end.
    pose proof (inv_policy_keys _ Hinv _ _ Hq) as Hk. cbn [p_id]. rewrite Hk.
    eapply (PolicyInv_set_policy db _ q); [done..| |by apply Hscan].
    intros Hs. exact (inv_failures _ Hinv _ _ Hq Hs).
  - match goal with H : (_ ≫= _) db = Ok _ |- _ => tx_inv H end.
    match goal with H : insert_policy _ _ = Ok _ |- _ => eapply insert_policy_PolicyInv in H; eauto end.
Qed.

Lemma ResumeUpdatePolicy_body_PolicyInv a app now n db n' x db' :
  PolicyInv db -> ResumeUpdatePolicy_body a app now n db = (n', Ok (x, db')) -> PolicyInv db'.
Proof.
  intros Hinv H. unfold ResumeUpdatePolicy_body, policyOf in H. act_inv H.
  match goal with H : readPolicy _ _ = Ok _ |- _ => apply readPolicy_db in H; subst end.
  match goal with H : update_policy _ _ _ _ = Ok _ |- _ =>
    apply update_policy_ok in H as [[_ ->]|(_ & q & Hq & _ & Hok & ->)]; [done|] end.
  pose proof (inv_policy_keys _ Hinv _ _ Hq) as Hk. cbn [p_id]. rewrite Hk.
  eapply (PolicyInv_set_policy db _ q); try done.
  rewrite (scanPolicy_days q) by done. by eapply inv_days.
Qed.

Lemma delete_policy_PolicyInv id db : PolicyInv db -> PolicyInv (delete_policy id db).
Proof.
  intros []. split; simpl.
  - intros k p [_ Hp]%lookup_delete_Some. eauto.
  - intros k r [Hr _]%map_lookup_filter_Some. eauto.
  - intros k p [_ Hp]%lookup_delete_Some. eauto.
  - intros k r [Hr _]%map_lookup_filter_Some. eauto.
  - intros k r [Hr Hne]%map_lookup_filter_Some. simpl in Hne. rewrite lookup_delete_ne by congruence. eauto.
  - intros k k' r r' [Hr _]%map_lookup_filter_Some [Hr' _]%map_lookup_filter_Some. eauto.
  - intros k k' p p' [_ Hp]%lookup_delete_Some [_ Hp']%lookup_delete_Some. eauto.
  - intros k p [_ Hp]%lookup_delete_Some. eauto.
  - intros k p [_ Hp]%lookup_delete_Some. eauto.
  - intros k r [Hr _]%map_lookup_filter_Some. eauto.
Qed.

(** What the scheduler, the API and a restart do to policies and runs, one committed
    transaction at a time. *)
Inductive policy_step (uuid_parse : string -> option string) (LL : string -> option Location) (db : DB)
    : DB -> Prop :=
| step_put a app i id now fresh :
    policy_step uuid_parse LL db (PutUpdatePolicy uuid_parse LL a app i id now fresh db).2
| step_delete a app now fresh :
    policy_step uuid_parse LL db (DeleteUpdatePolicy uuid_parse a app now fresh db).2
| step_resume a app now fresh :
    policy_step uuid_parse LL db (ResumeUpdatePolicy uuid_parse LL a app now fresh db).2
| step_begin policy occ corr id now :
    policy_step uuid_parse LL db (BeginPolicyRun policy occ corr id now db).2
| step_finish run outcome deployment detail now :
    policy_step uuid_parse LL db (FinishPolicyRun run outcome deployment detail now db).2
| step_skip policy occ outcome detail corr id now :
    policy_step uuid_parse LL db (SkipPolicyWindow policy occ outcome detail corr id now db).2
| step_attach run deployment :
    policy_step uuid_parse LL db (AttachPolicyRunDeployment run deployment db).2
| step_restart now :
    policy_step uuid_parse LL db (commit (reconcilePolicyRuns now) db).2.

(** A property of the tables that a body establishes and audit rows do not disturb holds
    after the operation around it. *)
Lemma run_preserves {A} (P : DB -> Prop) a action notes (op : act A) now fresh db :
  (forall rec d, P d -> P (add_audit rec d)) -> P db ->
  (forall n x db1, op notes db = (n, Ok (x, db1)) -> P db1) ->
  P (run a action notes true op now fresh db).2.
Proof.
  intros Ha Hdb Hop. destruct (run a action notes true op now fresh db) as [r db'] eqn:E.
  apply run_cases in E as [(x & n & db1 & rec & -> & H & ->)|(e & -> & [->|[rec ->]])]; simpl; eauto.
Qed.

Lemma commit_preserves {A} (P : DB -> Prop) (m : tx A) db :
  P db -> (forall x db1, m db = Ok (x, db1) -> P db1) -> P (commit m db).2.
Proof. intros Hdb Hm. unfold commit. destruct (m db) as [[x db1]|e]; simpl; eauto. Qed.

Lemma finishPolicyRun_PolicyInv db run outcome deployment detail now u db' :
  PolicyInv db -> map_has policyResults outcome = true ->
  finishPolicyRun run outcome deployment detail now db = Ok (u, db') -> PolicyInv db'.
Proof.
  intros Hinv Ho H. destruct (finishPolicyRun_inv _ _ _ _ _ _ _ _ Hinv Ho H) as (r & p & Hr & <- & _ & Hp & ->).
  by apply settled_PolicyInv.
Qed.

Lemma tx_iter_preserves {A} (P : DB -> Prop) (f : A -> tx unit) l db u db' :
  (forall x db u db', P db -> f x db = Ok (u, db') -> P db') ->
  P db -> tx_iter f l db = Ok (u, db') -> P db'.
Proof.
  intros Hf. revert db; induction l as [|x l IH]; simpl; intros db Hdb H; tx_inv H; [done|]. eauto.
Qed.

Lemma reconcilePolicyRuns_PolicyInv now db u db' :
  PolicyInv db -> reconcilePolicyRuns now db = Ok (u, db') -> PolicyInv db'.
Proof.
  intros Hinv H. unfold reconcilePolicyRuns in H. tx_inv H.
  eapply (tx_iter_preserves PolicyInv); [|exact Hinv|exact H].
  intros x d u0 d' Hd Hx. eapply finishPolicyRun_PolicyInv; [exact Hd| |exact Hx]. vm_compute. reflexivity.
Qed.

Lemma attach_PolicyInv run deployment db n db' :
  PolicyInv db -> update_run run run_open (with_deployment deployment) db = Ok (n, db') -> PolicyInv db'.
Proof.
  intros Hinv [[_ ->]|(_ & r & Hr & _ & Hok & ->)]%update_run_ok; [done|].
  pose proof (inv_run_keys _ Hinv _ _ Hr) as Hk. cbn [r_id with_deployment]. rewrite Hk.
  eapply (PolicyInv_set_run db _ r); try done. apply (inv_outcome _ Hinv _ _ Hr).
Qed.

Lemma policy_step_PolicyInv uuid_parse LL db db' :
  policy_step uuid_parse LL db db' -> PolicyInv db -> PolicyInv db'.
Proof.
  intros Hstep Hinv. destruct Hstep.
  - unfold PutUpdatePolicy. destruct (uuid_parse app); [|done]. destruct (negb _); [done|].
    pose proof (run_preserves PolicyInv a ApplicationPolicy (mkNotes (Some (s +:+ "/policies")) None)
      (PutUpdatePolicy_body LL a s id i now) now fresh db) as H.
    destruct (run _ _ _ _ _ _ _ _) as [r db']. apply H; eauto with go.
    intros. by eapply PutUpdatePolicy_body_PolicyInv.
  - unfold DeleteUpdatePolicy. destruct (uuid_parse app); [|done]. destruct (negb _); [done|].
    apply run_preserves; eauto with go. intros n x db1 H. unfold DeleteUpdatePolicy_body, policyOf in H.
    act_inv H. by apply delete_policy_PolicyInv.
  - unfold ResumeUpdatePolicy. destruct (uuid_parse app); [|done]. destruct (negb _); [done|].
    pose proof (run_preserves PolicyInv a ApplicationPolicy (mkNotes (Some (s +:+ "/policies")) None)
      (ResumeUpdatePolicy_body a s now) now fresh db) as H.
    destruct (run _ _ _ _ _ _ _ _) as [r db']. apply H; eauto with go.
    intros. by eapply ResumeUpdatePolicy_body_PolicyInv.
  - unfold BeginPolicyRun. apply commit_preserves; [done|]. intros. by eapply insertPolicyRun_PolicyInv.
  - unfold FinishPolicyRun. destruct (map_has policyResults outcome) eqn:Ho; [|done]. cbn [negb].
    apply commit_preserves; [done|]. intros. by eapply finishPolicyRun_PolicyInv.
  - unfold SkipPolicyWindow. destruct (_ && _) eqn:Ho; [done|]. apply commit_preserves; [done|].
    intros x db1 H. tx_inv H. eapply finishPolicyRun_PolicyInv; [| |exact H].
    + by eapply insertPolicyRun_PolicyInv.
    + apply andb_false_iff in Ho. rewrite !negb_false_iff, !bool_decide_eq_true in Ho.
      destruct Ho as [-> | ->]; vm_compute; reflexivity.
  - unfold AttachPolicyRunDeployment. apply commit_preserves; [done|]. intros x db1 H. tx_inv H. by eapply attach_PolicyInv.
  - apply commit_preserves; [done|]. intros. by eapply reconcilePolicyRuns_PolicyInv.
Qed.

(** ** Properties *)

Lemma PolicyInv_empty db : policies db = ∅ -> runs db = ∅ -> PolicyInv db.
Proof.
  intros Hp Hr. split; rewrite ?Hp, ?Hr; try (intros ? ? H; by rewrite lookup_empty in H);
    intros ? ? ? ? H; by rewrite lookup_empty in H.
Qed.

(** However the API, the scheduler and restarts interleave, from an empty database the
    tables keep their rules: every run belongs to a policy, a policy has at most one run per
    occurrence, an application at most one policy, a run is finished exactly when it has an
    outcome, and an active policy never has three consecutive failures behind it. *)
Theorem policy_steps_invariant uuid_parse LL db :
  rtc (policy_step uuid_parse LL) empty_db db ->
  PolicyInv db /\
  (forall k p, policies db !! k = Some p -> p_status p = PolicyActive -> 0 <= p_failures p < 3).
Proof.
  assert (H0 : PolicyInv empty_db) by (by apply PolicyInv_empty).
  intros Hsteps.
  assert (Hinv : PolicyInv db).
  { revert H0. induction Hsteps; intros; [done|]. eauto using policy_step_PolicyInv. }
  split; [done|]. intros k p Hp Ha. pose proof (policy_row_status p (inv_policy_ok _ Hinv _ _ Hp)).
  pose proof (inv_failures _ Hinv _ _ Hp Ha). unfold PolicyFailureLimit in *. lia.
Qed.

Lemma finishPolicyRun_closed db run outcome deployment detail now :
  ~ (exists r, runs db !! run = Some r /\ r_outcome r = "") ->
  finishPolicyRun run outcome deployment detail now db = Fail ErrNotFound.
Proof.
  intros Hno. unfold finishPolicyRun. erewrite bind_run by reflexivity.
  destruct (runs db !! run) as [r|] eqn:Hr; [|done]. erewrite bind_run by reflexivity.
  unfold run_open. rewrite (bool_decide_false (r_outcome r = "")) by eauto. done.
Qed.

(** [FinishPolicyRun] implements the counting rule.  On an open run with a known outcome it
    succeeds; it closes that run, changes nothing but that run and its policy, the policy by
    [settle] (blocked and failed count, applied, planned and no_update reset, skips leave the
    count; the third failure in a row or a paused outcome pauses an active policy with its
    reason), and appends one audit row for the run and one for a pause.  On any other run it
    is [ErrNotFound] and changes nothing. *)
Theorem FinishPolicyRun_settles db run outcome deployment detail now :
  PolicyInv db -> map_has policyResults outcome = true ->
  (exists r p, runs db !! run = Some r /\ r_outcome r = "" /\ policies db !! r_policy r = Some p /\
     FinishPolicyRun run outcome deployment detail now db =
       (Ok tt, settled_db outcome deployment detail now r p db)) \/
  (~ (exists r, runs db !! run = Some r /\ r_outcome r = "") /\
   FinishPolicyRun run outcome deployment detail now db = (Fail ErrNotFound, db)).
Proof.
  intros Hinv Ho. unfold FinishPolicyRun, commit. rewrite Ho. cbn [negb].
  destruct (runs db !! run) as [r|] eqn:Hr.
  - destruct (decide (r_outcome r = "")) as [Hopen|Hopen].
    + left. destruct (inv_run_policy _ Hinv _ _ Hr) as [p Hp]. exists r, p. split_and!; try done.
      rewrite (finishPolicyRun_run db run outcome deployment detail now r p);
        eauto using inv_run_keys, inv_policy_keys, inv_run_ok, inv_policy_ok.
    + right. assert (Hno : ~ exists r', Some r = Some r' /\ r_outcome r' = "") by naive_solver.
      split; [done|]. rewrite finishPolicyRun_closed; [done|]. by rewrite Hr.
  - right. assert (Hno : ~ exists r', @None RunRow = Some r' /\ r_outcome r' = "") by naive_solver.
    split; [done|]. rewrite finishPolicyRun_closed; [done|]. by rewrite Hr.
Qed.

(** Finished runs stay as they are. *)
Definition runs_kept (db db' : DB) : Prop :=
  forall k r, runs db !! k = Some r -> r_outcome r <> "" -> runs db' !! k = Some r.

#[export] Instance runs_kept_preorder : PreOrder runs_kept.
Proof. split; [intros db k r; auto|]. intros a b c H1 H2 k r Hr Ho. apply H2; auto. Qed.

Lemma runs_kept_same db db' : runs db' = runs db -> runs_kept db db'.
Proof. intros H k r. by rewrite H. Qed.

Lemma finishPolicyRun_kept db run outcome deployment detail now u db' :
  PolicyInv db -> map_has policyResults outcome = true ->
  finishPolicyRun run outcome deployment detail now db = Ok (u, db') -> runs_kept db db'.
Proof.
  intros Hinv Ho H. destruct (finishPolicyRun_inv _ _ _ _ _ _ _ _ Hinv Ho H) as (r & p & Hr & <- & He & Hp & ->).
  intros k r' Hk Hne. simpl. rewrite lookup_insert_ne; [done|congruence].
Qed.

Lemma insertPolicyRun_kept policy occ corr id now db x db' :
  insertPolicyRun policy occ corr id now db = Ok (x, db') -> runs_kept db db'.
Proof.
  intros (_ & p & _ & _ & Hnone & _ & _ & ->)%insertPolicyRun_ok k r Hk _. simpl.
  rewrite lookup_insert_ne; [done|congruence].
Qed.

Lemma update_policy_runs id guard f db n db' : update_policy id guard f db = Ok (n, db') -> runs db' = runs db.
Proof. intros [[_ ->]|(_ & p & _ & _ & _ & ->)]%update_policy_ok; done. Qed.

Lemma PutUpdatePolicy_body_runs LL a app id i now n db n' x db' :
  PutUpdatePolicy_body LL a app id i now n db = (n', Ok (x, db')) -> runs db' = runs db.
Proof.
  intros H. unfold PutUpdatePolicy_body in H. act_inv H.
  repeat match goal with
  | H : readPolicy _ _ = Ok _ |- _ => apply readPolicy_db in H; subst
  | H : lockApplication _ _ _ = Ok _ |- _ => apply lockApplication_db in H; subst
  | H : (match weekdays LL i with _ => _ end) _ = Ok _ |- _ => destruct (weekdays LL i); tx_inv H
  end.
  destruct (find_policy a app db) as [p|]; match goal with H : (_ ≫= _) db = Ok _ |- _ => tx_inv H end.
  - by eapply update_policy_runs.
  - match goal with H : insert_policy _ _ = Ok _ |- _ => unfold insert_policy, put_policy in H; tx_inv H end. done.
Qed.

Lemma ResumeUpdatePolicy_body_runs a app now n db n' x db' :
  ResumeUpdatePolicy_body a app now n db = (n', Ok (x, db')) -> runs db' = runs db.
Proof.
  intros H. unfold ResumeUpdatePolicy_body, policyOf in H. act_inv H.
  match goal with H : readPolicy _ _ = Ok _ |- _ => apply readPolicy_db in H; subst end.
  by eapply update_policy_runs.
Qed.

Lemma reconcilePolicyRuns_kept now db u db' :
  PolicyInv db -> reconcilePolicyRuns now db = Ok (u, db') -> runs_kept db db'.
Proof.
  intros Hinv H. unfold reconcilePolicyRuns in H. tx_inv H.
  assert (PolicyInv db' /\ runs_kept db db') as [_ ?]; [|done].
  eapply (tx_iter_preserves (fun d => PolicyInv d /\ runs_kept db d)); [|by split|exact H].
  intros x d u0 d' [Hd Hk] Hx. assert (Ho : map_has policyResults RunFailed = true) by (vm_compute; reflexivity).
  split; [by eapply finishPolicyRun_PolicyInv|]. etrans; [done|]. by eapply finishPolicyRun_kept.
Qed.

(** An outcome is recorded once.  No operation changes a run that has an outcome; deleting
    its policy deletes it. *)
Theorem run_outcome_final uuid_parse LL db db' k r :
  PolicyInv db -> policy_step uuid_parse LL db db' ->
  runs db !! k = Some r -> r_outcome r <> "" ->
  runs db' !! k = Some r \/ (runs db' !! k = None /\ policies db' !! r_policy r = None).
Proof.
  intros Hinv Hstep Hr Ho.
  assert (Hk : runs_kept db db' -> runs db' !! k = Some r \/ (runs db' !! k = None /\ policies db' !! r_policy r = None))
    by (intros H; left; by apply H).
  destruct Hstep.
  - apply Hk. unfold PutUpdatePolicy. destruct (uuid_parse app); [|done]. destruct (negb _); [done|].
    pose proof (run_preserves (runs_kept db) a ApplicationPolicy (mkNotes (Some (s +:+ "/policies")) None)
      (PutUpdatePolicy_body LL a s id i now) now fresh db) as H.
    destruct (run _ _ _ _ _ _ _ _) as [res db']. apply H; [done|done|].
    intros. apply runs_kept_same. by eapply PutUpdatePolicy_body_runs.
  - unfold DeleteUpdatePolicy. destruct (uuid_parse app); [|by auto]. destruct (negb _); [by auto|].
    set (P d := runs d !! k = Some r \/ (runs d !! k = None /\ policies d !! r_policy r = None)).
    apply (run_preserves P); [done|by left|]. intros n x db1 H. unfold DeleteUpdatePolicy_body, policyOf in H.
    act_inv H. unfold P. simpl. destruct (decide (r_policy r = p_id row)) as [Heq|Hne]; [right|left].
    + split; [|rewrite Heq; apply lookup_delete_eq]. apply map_lookup_filter_None. right.
      intros r' Hr' Hne. simpl in Hne. congruence.
    + apply map_lookup_filter_Some. done.
  - apply Hk. unfold ResumeUpdatePolicy. destruct (uuid_parse app); [|done]. destruct (negb _); [done|].
    pose proof (run_preserves (runs_kept db) a ApplicationPolicy (mkNotes (Some (s +:+ "/policies")) None)
      (ResumeUpdatePolicy_body a s now) now fresh db) as H.
    destruct (run _ _ _ _ _ _ _ _) as [res db']. apply H; [done|done|].
    intros. apply runs_kept_same. by eapply ResumeUpdatePolicy_body_runs.
  - apply Hk. unfold BeginPolicyRun. apply commit_preserves; [done|]. intros. by eapply insertPolicyRun_kept.
  - apply Hk. unfold FinishPolicyRun. destruct (map_has policyResults outcome) eqn:E; [|done]. cbn [negb].
    apply commit_preserves; [done|]. intros. by eapply finishPolicyRun_kept.
  - apply Hk. unfold SkipPolicyWindow. destruct (_ && _) eqn:E; [done|]. apply commit_preserves; [done|].
    intros x db1 H. tx_inv H. etrans; [by eapply insertPolicyRun_kept|].
    eapply finishPolicyRun_kept; [by eapply insertPolicyRun_PolicyInv| |exact H].
    apply andb_false_iff in E. rewrite !negb_false_iff, !bool_decide_eq_true in E.
    destruct E as [-> | ->]; vm_compute; reflexivity.
  - apply Hk. unfold AttachPolicyRunDeployment. apply commit_preserves; [done|]. intros x db1 H. tx_inv H.
    match goal with H : update_run _ _ _ _ = Ok _ |- _ =>
      apply update_run_ok in H as [[? ->]|(_ & q & Hq & Hopen & _ & ->)]; [done|] end.
    intros k' r' Hr' Ho'. simpl. rewrite lookup_insert_ne; [done|]. unfold run_open in Hopen. gobool.
    rewrite (inv_run_keys _ Hinv _ _ Hq). congruence.
  - apply Hk. apply commit_preserves; [done|]. intros. by eapply reconcilePolicyRuns_kept.
Qed.

Lemma insert_run_taken r db :
  policyRan (r_policy r) (r_occurrence r) db = true -> insert_run r db = Fail ErrUnique.
Proof.
  unfold policyRan, insert_run. rewrite Z.gtb_lt. intros H. erewrite bind_run by reflexivity.
  rewrite (proj2 (Z.eqb_neq _ 0)) by lia. by rewrite andb_false_r.
Qed.

Lemma insert_run_free r db :
  runs db !! r_id r = None -> policyRan (r_policy r) (r_occurrence r) db = false ->
  is_Some (policies db !! r_policy r) -> run_row_ok r = true ->
  insert_run r db = Ok (tt, set_runs (<[r_id r := r]> (runs db)) db).
Proof.
  unfold policyRan, insert_run, put_run. rewrite Z.gtb_ltb, Z.ltb_ge. intros Hn Hc Hp Hok.
  set (q := fun r' => bool_decide (r_policy r' = r_policy r) && (r_occurrence r' =? r_occurrence r)) in *.
  pose proof (count_nonneg q (runs db)). assert (Hq : count q (runs db) = 0) by lia.
  erewrite bind_run by reflexivity. fold q. rewrite Hq, bool_decide_true by done.
  do 2 (erewrite bind_run by reflexivity). rewrite bool_decide_true by done.
  erewrite bind_run by reflexivity. rewrite Hok. reflexivity.
Qed.

(** The row [insertPolicyRun] writes. *)
Definition opened_run (policy : string) (p : PolicyRow) (occ : time) (corr id : string) (now : time) : RunRow :=
  mkRun id policy (p_org p) (p_env p) (p_app p) occ now None "" None "" corr.

Lemma opened_run_ok policy p occ corr id now :
  btw 1 64 (char_length corr) = true -> run_row_ok (opened_run policy p occ corr id now) = true.
Proof. intros H. unfold run_row_ok. cbn [r_outcome r_detail r_correlation opened_run]. rewrite H. vm_compute. reflexivity. Qed.

Lemma insertPolicyRun_run db policy p occ corr id now :
  policies db !! policy = Some p -> active p = true -> policyRan policy occ db = false ->
  runs db !! id = None -> btw 1 64 (char_length corr) = true ->
  insertPolicyRun policy occ corr id now db =
    Ok (id, set_runs (<[id := opened_run policy p occ corr id now]> (runs db)) db).
Proof.
  intros Hp Ha Hran Hid Hcorr. unfold insertPolicyRun. erewrite bind_run by reflexivity. rewrite Hp.
  erewrite bind_run by reflexivity. unfold active in Ha. rewrite Ha. erewrite bind_run by reflexivity.
  fold (opened_run policy p occ corr id now).
  erewrite bind_run; [reflexivity|]. unfold map_err.
  rewrite insert_run_free; [reflexivity|done|done|eauto|by apply opened_run_ok].
Qed.

Lemma insertPolicyRun_refused db policy occ corr id now :
  match policies db !! policy with
  | Some p => if active p then policyRan policy occ db = true -> insertPolicyRun policy occ corr id now db = Fail ErrAlreadyExists
              else insertPolicyRun policy occ corr id now db = Fail ErrNotFound
  | None => insertPolicyRun policy occ corr id now db = Fail ErrNotFound
  end.
Proof.
  unfold insertPolicyRun. erewrite bind_run by reflexivity.
  destruct (policies db !! policy) as [p|]; [|done]. erewrite bind_run by reflexivity.
  unfold active. destruct (bool_decide _); [|done]. intros Hran. erewrite bind_run by reflexivity.
  unfold mbind, tx_bind, map_err. by rewrite insert_run_taken.
Qed.

Lemma opened_policyRan db policy p occ corr id now :
  policyRan policy occ (set_runs (<[id := opened_run policy p occ corr id now]> (runs db)) db) = true.
Proof.
  apply not_false_iff_true. rewrite policyRan_false. intros H.
  eapply (H id (opened_run policy p occ corr id now)); simpl; [apply lookup_insert_eq|done..].
Qed.

(** A window runs once.  For a policy that is active, [BeginPolicyRun] opens the
    occurrence's run when it has none and is [ErrAlreadyExists] when it has one, so of any
    number of calls for one occurrence only the first opens it; for a policy that is paused or
    gone it is [ErrNotFound].  A refusal changes nothing. *)
Theorem BeginPolicyRun_once db policy occ corr id now :
  PolicyInv db -> runs db !! id = None -> btw 1 64 (char_length corr) = true ->
  match policies db !! policy with
  | Some p =>
      if active p then
        if policyRan policy occ db then BeginPolicyRun policy occ corr id now db = (Fail ErrAlreadyExists, db)
        else exists db', BeginPolicyRun policy occ corr id now db = (Ok id, db') /\
               policyRan policy occ db' = true /\ runs db' !! id <> None /\
               (forall k, k <> id -> runs db' !! k = runs db !! k)
      else BeginPolicyRun policy occ corr id now db = (Fail ErrNotFound, db)
  | None => BeginPolicyRun policy occ corr id now db = (Fail ErrNotFound, db)
  end.
Proof.
  intros Hinv Hid Hcorr. unfold BeginPolicyRun, commit.
  pose proof (insertPolicyRun_refused db policy occ corr id now) as Hno.
  destruct (policies db !! policy) as [p|] eqn:Hp; [|by rewrite Hno].
  destruct (active p) eqn:Ha; [|by rewrite Hno].
  destruct (policyRan policy occ db) eqn:Hran; [by rewrite Hno|].
  rewrite (insertPolicyRun_run db policy p) by done. eexists. split; [reflexivity|]. split_and!.
  - apply opened_policyRan.
  - simpl. by rewrite lookup_insert_eq.
  - intros k Hk. simpl. by rewrite lookup_insert_ne.
Qed.

(** How many of [ids] are runs of [policy]. *)
Definition runs_of (db : DB) (policy : string) (ids : list string) : nat :=
  length (List.filter (fun id => match runs db !! id with Some r => bool_decide (r_policy r = policy) | None => false end) ids).

Definition fail_restarted (now : time) : RunRow -> RunRow := finished_run RunFailed "" PolicyDetailRestarted now.

Lemma reconcile_loop now ids db :
  PolicyInv db -> NoDup ids ->
  (forall id, id ∈ ids -> exists r, runs db !! id = Some r /\ r_outcome r = "") ->
  exists db', tx_iter (fun id => finishPolicyRun id RunFailed "" PolicyDetailRestarted now) ids db = Ok (tt, db') /\
    PolicyInv db' /\
    (forall k, runs db' !! k = if bool_decide (k ∈ ids) then fail_restarted now <$> runs db !! k else runs db !! k) /\
    (forall k, policies db' !! k = Nat.iter (runs_of db k ids) (settle RunFailed now) <$> policies db !! k) /\
    validations db' = validations db /\ deployments db' = deployments db /\ commands db' = commands db.
Proof.
  revert db; induction ids as [|id ids IH]; intros db Hinv Hnd Hopen.
  - exists db. split_and!; try done. intros k. unfold runs_of. simpl. by destruct (policies db !! k).
  - apply NoDup_cons in Hnd as [Hni Hnd].
    destruct (Hopen id ltac:(left)) as (r & Hr & Ho).
    destruct (inv_run_policy _ Hinv _ _ Hr) as [p Hp].
    assert (Hid := inv_run_keys _ Hinv _ _ Hr).
    assert (Hk : map_has policyResults RunFailed = true) by (vm_compute; reflexivity).
    cbn [tx_iter]. erewrite bind_run.
    2:{ apply (finishPolicyRun_run db id RunFailed "" PolicyDetailRestarted now r p);
          eauto using inv_run_keys, inv_policy_keys, inv_run_ok, inv_policy_ok. }
    set (db1 := settled_db RunFailed "" PolicyDetailRestarted now r p db).
    assert (Hinv1 : PolicyInv db1) by (apply settled_PolicyInv; subst id; done).
    destruct (IH db1 Hinv1 Hnd) as (db' & Hrun & Hinv' & Hruns & Hpols & Hrest).
    { intros k Hin. destruct (Hopen k ltac:(by right)) as (r' & Hr' & Ho'). exists r'. split; [|done].
      simpl. rewrite lookup_insert_ne; [done|congruence]. }
    exists db'. split; [exact Hrun|]. split; [done|]. split; [|split; [|exact Hrest]].
    + intros k. rewrite Hruns. simpl. rewrite Hid. destruct (decide (k = id)) as [->|Hne].
      * rewrite (bool_decide_false (id ∈ ids)) by done. rewrite bool_decide_true by left.
        rewrite lookup_insert_eq, Hr. done.
      * rewrite lookup_insert_ne by done.
        rewrite (bool_decide_ext (k ∈ id :: ids) (k ∈ ids)) by set_solver. done.
    + assert (Hsame : forall k, runs_of db1 k ids = runs_of db k ids).
      { intros k. unfold runs_of. f_equal. apply List.filter_ext_in. intros x Hx%list_elem_of_In.
        simpl. rewrite Hid, lookup_insert_ne; [done|]. congruence. }
      intros k. rewrite Hpols, Hsame. simpl. unfold runs_of at 2. cbn [List.filter]. rewrite Hr.
      case_bool_decide as Hpk.
      * subst k. rewrite lookup_insert_eq, Hp. cbn [length]. unfold fmap, option_fmap, option_map. f_equal. symmetry. apply Nat.iter_succ_r.
      * rewrite lookup_insert_ne by done. done.
Qed.

(** The open runs of a policy. *)
Definition open_runs (db : DB) (policy : string) : list RunRow :=
  List.filter (fun r => bool_decide (r_policy r = policy)) (select_by r_started r_id run_open (runs db)).

(** A restart's reconciliation, forwards. *)
Lemma reconcilePolicyRuns_run now db :
  PolicyInv db ->
  exists db', reconcilePolicyRuns now db = Ok (tt, db') /\ PolicyInv db' /\
    (forall k r, runs db !! k = Some r -> runs db' !! k = Some (if run_open r then fail_restarted now r else r)) /\
    (forall k, runs db !! k = None -> runs db' !! k = None) /\
    (forall k p, policies db !! k = Some p ->
       policies db' !! k = Some (Nat.iter (length (open_runs db k)) (settle RunFailed now) p)) /\
    validations db' = validations db /\ deployments db' = deployments db /\ commands db' = commands db.
Proof.
  intros Hinv. unfold reconcilePolicyRuns. erewrite bind_run by reflexivity.
  set (ids := map r_id (select_by r_started r_id run_open (runs db))).
  assert (Hin : forall k, k ∈ ids <-> exists r, runs db !! k = Some r /\ r_outcome r = "").
  { intros k. unfold ids. rewrite list_elem_of_fmap. setoid_rewrite elem_of_select_by. unfold run_open. split.
    - intros (r & -> & [k' Hk'] & Ho%bool_decide_eq_true). rewrite (inv_run_keys _ Hinv _ _ Hk'). eauto.
    - intros (r & Hr & Ho). exists r. split; [symmetry; by apply (inv_run_keys _ Hinv)|].
      split; [eauto|by apply bool_decide_eq_true]. }
  destruct (reconcile_loop now ids db Hinv) as (db' & Hrun & Hinv' & Hruns & Hpols & Hrest).
  { apply select_by_ids, inv_run_keys, Hinv. }
  { intros id Hid. by apply Hin. }
  exists db'. split_and!; try done; try apply Hrest.
  - intros k r Hr. rewrite Hruns, Hr. unfold run_open. case_bool_decide as Hi.
    + apply Hin in Hi as (r' & Hr' & Ho). assert (r' = r) as -> by congruence. by rewrite bool_decide_true.
    + rewrite bool_decide_false; [done|]. intros Ho. apply Hi, Hin. eauto.
  - intros k Hr. rewrite Hruns, Hr. by destruct (bool_decide _).
  - intros k p Hp. rewrite Hpols, Hp. simpl. do 2 f_equal. unfold runs_of, open_runs, ids.
    assert (Hrows : forall r, r ∈ select_by r_started r_id run_open (runs db) -> runs db !! r_id r = Some r).
    { intros r [[k' Hk'] _]%elem_of_select_by. by rewrite (inv_run_keys _ Hinv _ _ Hk'). }
    clear - Hrows. induction (select_by _ _ _ _) as [|r l IH]; [done|]. cbn [map List.filter].
    rewrite (Hrows r) by left. specialize (IH (fun r' H => Hrows r' (list_elem_of_further _ _ _ H))).
    destruct (bool_decide _); cbn [length]; by rewrite IH.
Qed.

(** A restart settles every run the previous process left open.  [reconcilePolicyRuns]
    never fails; afterwards no run is open, each run that was open has failed with the restart's
    sentence and every other run is as it was, and each policy has been counted one failure
    for every run of its own that was open. *)
Theorem reconcilePolicyRuns_settles now db :
  PolicyInv db ->
  exists db', reconcilePolicyRuns now db = Ok (tt, db') /\ PolicyInv db' /\
    (forall k r, runs db' !! k = Some r -> r_outcome r <> "") /\
    (forall k r, runs db !! k = Some r -> runs db' !! k = Some (if run_open r then fail_restarted now r else r)) /\
    (forall k p, policies db !! k = Some p ->
       policies db' !! k = Some (Nat.iter (length (open_runs db k)) (settle RunFailed now) p)).
Proof.
  intros Hinv. destruct (reconcilePolicyRuns_run now db Hinv) as (db' & Hrun & Hinv' & Hr' & Hn & Hp & _).
  exists db'. split_and!; try done. intros k r Hk. destruct (runs db !! k) as [r0|] eqn:Hr0.
  - rewrite (Hr' _ _ Hr0) in Hk. injection Hk as <-. unfold run_open.
    destruct (bool_decide (r_outcome r0 = "")) eqn:E; [done|]. by apply bool_decide_eq_false in E.
  - by rewrite (Hn _ Hr0) in Hk.
Qed.

Definition skips (outcome : string) : bool :=
  bool_decide (outcome = RunSkippedMissed) || bool_decide (outcome = RunSkippedBusy).

Lemma settle_sequence outcomes now p :
  p_status p = PolicyActive -> 0 <= p_failures p < PolicyFailureLimit ->
  Forall (fun o => failing o || skips o = true) outcomes ->
  p_status (fold_left (fun q o => settle o now q) outcomes p) = PolicyActive <->
  p_failures p + llen (List.filter failing outcomes) < PolicyFailureLimit.
Proof.
  assert (Hdead : forall os q, p_status q = PolicyPaused ->
    p_status (fold_left (fun q o => settle o now q) os q) = PolicyPaused).
  { induction os as [|o os IH]; intros q Hq; simpl; [done|]. apply IH.
    unfold settle. destruct (pauses o q); simpl; [done|]. by rewrite counted_status. }
  revert p; induction outcomes as [|o os IH]; intros p Ha Hf Hall; cbn [fold_left List.filter].
  - unfold llen. simpl. split; [lia|done].
  - apply Forall_cons in Hall as [Ho Hall]. unfold settle at 2. unfold pauses, active.
    rewrite Ha, (bool_decide_true (PolicyActive = PolicyActive)), andb_true_r by done.
    unfold pause_reason, counted. destruct (failing o) eqn:Ef.
    + destruct (Z.geb_spec (p_failures p + 1) PolicyFailureLimit) as [Hge|Hlt].
      * cbn [andb nonempty bool_decide]. change (nonempty PolicyReasonFailures) with true. cbv iota.
        rewrite Hdead by done. split; [done|]. unfold llen. cbn [length]. lia.
      * cbn [andb]. assert (bool_decide (o = RunPaused) = false) as ->.
        { apply bool_decide_eq_false. intros ->. vm_compute in Ef. done. }
        change (nonempty "") with false. cbv iota. rewrite IH; [|done|simpl; lia|done].
        simpl. unfold llen. cbn [length]. lia.
    + simpl in Ho. cbn [andb]. assert (bool_decide (o = RunPaused) = false) as ->.
      { apply bool_decide_eq_false. intros ->. vm_compute in Ho. done. }
      assert (resetting o = false) as ->.
      { unfold skips in Ho. apply orb_true_iff in Ho. rewrite !bool_decide_eq_true in Ho.
        destruct Ho as [-> | ->]; vm_compute; reflexivity. }
      change (nonempty "") with false. cbv iota. by apply IH.
Qed.

(** Settling several runs, one transaction each. *)
Definition finish_all (now : time) (l : list (string * string)) (db : DB) : DB :=
  fold_left (fun d ro => (FinishPolicyRun ro.1 ro.2 "" "" now d).2) l db.

Lemma finish_all_policy now l db k p :
  PolicyInv db -> policies db !! k = Some p -> NoDup (map fst l) ->
  Forall (fun ro => (exists r, runs db !! ro.1 = Some r /\ r_outcome r = "" /\ r_policy r = k)
                    /\ map_has policyResults ro.2 = true) l ->
  policies (finish_all now l db) !! k = Some (fold_left (fun q o => settle o now q) (map snd l) p).
Proof.
  revert db p; induction l as [|[run o] l IH]; intros db p Hinv Hp Hnd Hall; [done|].
  cbn [map fst] in Hnd. apply NoDup_cons in Hnd as [Hni Hnd].
  apply Forall_cons in Hall as [[(r & Hr & Ho & <-) Hk] Hall]. cbn [fst snd] in Hr, Hk.
  assert (Hid := inv_run_keys _ Hinv _ _ Hr). unfold finish_all. cbn [fold_left fst snd map].
  assert (Hdb : (FinishPolicyRun run o "" "" now db).2 = settled_db o "" "" now r p db).
  { unfold FinishPolicyRun, commit. rewrite Hk. cbn [negb].
    rewrite (finishPolicyRun_run db run o "" "" now r p);
      eauto using inv_run_keys, inv_policy_keys, inv_run_ok, inv_policy_ok. }
  rewrite Hdb. apply IH.
  - apply settled_PolicyInv; subst run; done.
  - simpl. apply lookup_insert_eq.
  - done.
  - rewrite Forall_forall in Hall |- *. intros [run' o'] Hin. destruct (Hall _ Hin) as [(r' & Hr' & ? & ?) ?].
    split; [|done]. exists r'. split_and!; try done. simpl in *. rewrite lookup_insert_ne; [done|].
    intros Heq. apply Hni. apply list_elem_of_fmap. exists (run', o'). simpl. split; [congruence|done].
Qed.

(** Three failed windows in a row pause a policy, and nothing less does.  Over any sequence
    of runs of one active policy, each settled as failed, blocked or skipped, the policy is still
    active exactly when its earlier failures and the failed runs together are fewer than three;
    skipped windows do not count, and no later run undoes the pause. *)
Theorem three_failures_pause now l db k p :
  PolicyInv db -> policies db !! k = Some p -> p_status p = PolicyActive -> NoDup (map fst l) ->
  Forall (fun ro => (exists r, runs db !! ro.1 = Some r /\ r_outcome r = "" /\ r_policy r = k)
                    /\ failing ro.2 || skips ro.2 = true) l ->
  p_status <$> policies (finish_all now l db) !! k = Some PolicyActive <->
  p_failures p + llen (List.filter failing (map snd l)) < PolicyFailureLimit.
Proof.
  intros Hinv Hp Ha Hnd Hall.
  rewrite (finish_all_policy now l db k p); [|done..|].
  - simpl. rewrite <- (settle_sequence (map snd l) now p); [split; [intros H; by injection H|by intros ->]|done| |].
    + pose proof (policy_row_status p (inv_policy_ok _ Hinv _ _ Hp)).
      pose proof (inv_failures _ Hinv _ _ Hp Ha). lia.
    + apply Forall_fmap. eapply Forall_impl; [exact Hall|]. simpl. tauto.
  - eapply Forall_impl; [exact Hall|]. intros [run o] [? Ho]. split; [done|]. simpl in *.
    unfold failing, skips in Ho. rewrite !orb_true_iff, !bool_decide_eq_true in Ho.
    destruct Ho as [[-> | ->]|[-> | ->]]; vm_compute; reflexivity.
Qed.

(** ** Witnesses *)

Definition parse_any : string -> option string := Some.
Definition demo_apps : DB :=
  set_applications {["app" := mkApplication "org" "env" "shop" 1 "ada" 1 None]}
    (set_instances {["inst" := mkInstance "app" "host" "org" "env" "shop" 1 "ada" 1 1 1 0 0 ""]} demo_db).
(** The administrator saves a policy; the scheduler opens a run of it. *)
Definition demo_saved : DB :=
  (PutUpdatePolicy parse_any utc_zones ada "app" (mkPolicyInput "apply" "UTC" [5; 1; 3] 60 180) "pol" 5 "f" demo_apps).2.
Definition demo_begun : DB := (BeginPolicyRun "pol" 100 "corr" "run" 7 demo_saved).2.

Lemma demo_saved_inv : PolicyInv demo_saved.
Proof. apply (policy_step_PolicyInv parse_any utc_zones demo_apps); [constructor|by apply PolicyInv_empty]. Qed.
Lemma demo_begun_inv : PolicyInv demo_begun.
Proof. apply (policy_step_PolicyInv parse_any utc_zones demo_saved); [constructor|apply demo_saved_inv]. Qed.

Lemma policy_steps_invariant_witness :
  let db := (PutUpdatePolicy parse_any utc_zones ada "app" (mkPolicyInput "apply" "UTC" [1] 0 60) "pol" 5 "f" empty_db).2 in
  PolicyInv db.
Proof.
  simpl. apply (policy_steps_invariant parse_any utc_zones). apply rtc_once. constructor.
Defined.

Lemma FinishPolicyRun_settles_witness :
  map_has policyResults RunApplied = true /\
  (FinishPolicyRun "run" RunApplied "dep" "" 9 demo_begun).1 = Ok tt.
Proof.
  split; [vm_compute; reflexivity|].
  destruct (FinishPolicyRun_settles demo_begun "run" RunApplied "dep" "" 9 demo_begun_inv eq_refl)
    as [(r & p & _ & _ & _ & ->)|[Hno _]]; [reflexivity|].
  exfalso. apply Hno. eexists. split; [vm_compute; reflexivity|reflexivity].
Defined.

Lemma run_outcome_final_witness :
  let db := (FinishPolicyRun "run" RunFailed "" "x" 9 demo_begun).2 in
  r_outcome <$> runs (FinishPolicyRun "run" RunApplied "" "" 10 db).2 !! "run" = Some RunFailed.
Proof.
  set (db := (FinishPolicyRun "run" RunFailed "" "x" 9 demo_begun).2).
  assert (Hinv : PolicyInv db).
  { apply (policy_step_PolicyInv parse_any utc_zones demo_begun); [constructor|apply demo_begun_inv]. }
  assert (Hr : exists r, runs db !! "run" = Some r /\ r_outcome r = RunFailed)
    by (eexists; split; [vm_compute; reflexivity|reflexivity]).
  destruct Hr as (r & Hr & Ho).
  destruct (run_outcome_final parse_any utc_zones db _ "run" r Hinv
    (step_finish _ _ db "run" RunApplied "" "" 10) Hr) as [H|[H _]]; [by rewrite Ho| |].
  - cbv zeta. rewrite H. simpl. by rewrite Ho.
  - vm_compute in H. discriminate H.
Defined.

Lemma BeginPolicyRun_once_witness :
  BeginPolicyRun "pol" 100 "again" "other" 8 demo_begun = (Fail ErrAlreadyExists, demo_begun).
Proof.
  pose proof (BeginPolicyRun_once demo_begun "pol" 100 "again" "other" 8 demo_begun_inv eq_refl eq_refl) as H.
  assert (Hp : exists p, policies demo_begun !! "pol" = Some p /\ active p = true)
    by (eexists; split; [vm_compute; reflexivity|vm_compute; reflexivity]).
  destruct Hp as (p & Hp & Ha). rewrite Hp, Ha in H.
  replace (policyRan "pol" 100 demo_begun) with true in H by (vm_compute; reflexivity). exact H.
Defined.

Lemma reconcilePolicyRuns_settles_witness :
  exists db', reconcilePolicyRuns 11 demo_begun = Ok (tt, db') /\
    (forall k r, runs db' !! k = Some r -> r_outcome r <> "").
Proof.
  destruct (reconcilePolicyRuns_settles 11 demo_begun demo_begun_inv) as (db' & ? & _ & ? & _). eauto.
Defined.

Lemma three_failures_pause_witness :
  p_status <$> policies (finish_all 9 [("run", RunFailed)] demo_begun) !! "pol" = Some PolicyActive.
Proof.
  assert (Hp : exists p, policies demo_begun !! "pol" = Some p /\ p_status p = PolicyActive /\ p_failures p = 0)
    by (eexists; split; [vm_compute; reflexivity|split; reflexivity]).
  destruct Hp as (p & Hp & Ha & Hf).
  apply (three_failures_pause 9 [("run", RunFailed)] demo_begun "pol" p); auto using demo_begun_inv.
  - repeat constructor. set_solver.
  - constructor; [|constructor]. split; [|vm_compute; reflexivity].
    eexists. split; [vm_compute; reflexivity|split; reflexivity].
  - rewrite Hf. vm_compute. reflexivity.
Defined.
