(* ===== verification/Scheduler.v ===== *)
(** * The update-policy scheduler

    [SchedulePolicies] of internal/store/policy_schedule.go and the scheduler of
    internal/api/policies.go: the in-memory half ([admit_run], [release], [running], the busy
    windows), one tick ([policyTick]), and one run ([runPolicy], [performPolicyRun],
    [policyFailure], [joinCodes]).

    [admit_run], [release] and [running] are atomic (one mutex); a tick is modelled as one step,
    and what it starts as a list: the goroutines themselves are the steps [runPolicy] and
    [release] of [sched_step].  The calls of [performPolicyRun] into the planner, the registry
    and the socket are the fields of [RunCalls], an interface record. *)
From Stdlib Require Import ZArith Lia Ascii String.
From stdpp Require Import base gmap strings list sorting pretty.
From S2P Require Import Prelude.
From S2P Require Import Text.
From S2P Require Import Permissions.
From S2P Require Import Store.
From S2P Require Import TenantAccess.
From S2P Require Import Schedule.
From S2P Require Import Policies.

(** ** What is due *)

Record ScheduledPolicy := mkScheduled {
  sp_policy : UpdatePolicy; sp_endpoint : string; sp_busy : bool;
  sp_open : bool; sp_occurrence : time; sp_missed : bool; sp_previous : time }.

Definition sp_id (sp : ScheduledPolicy) : string := p_id (up_row (sp_policy sp)).

(** [LEFT JOIN application_instances i ON i.application_id=p.application_id]; the column is
    UNIQUE. *)
Definition instance_endpoint (db : DB) (app : string) : string :=
  match select (fun i => bool_decide (i_app i = app)) (instances db) with
  | i :: _ => i_endpoint i
  | [] => ""
  end.

Definition endpoint_live (endpoint : string) (wall : time) (d : DeploymentRow) : bool :=
  bool_decide (d_endpoint d = endpoint) &&
  (bool_decide (d_state d = "applying") || (bool_decide (d_state d = "planned") && (d_expires d >? wall))).

Section schedule.
Context (LL : string -> option Location).

(** Whether the window open now has no run, and its start. *)
Definition open_at (now : time) (db : DB) (p : UpdatePolicy) : bool * time :=
  match policyOccurrence LL p now with
  | Some (start, _, true) => if policyRan (p_id (up_row p)) start db then (false, zero_time) else (true, start)
  | _ => (false, zero_time)
  end.

(** Whether the last window ended after the policy's last change without a run, and its start. *)
Definition missed_at (now : time) (db : DB) (p : UpdatePolicy) : bool * time :=
  match previousOccurrence LL p now with
  | Some (start, end_) =>
      if (end_ >? p_updated (up_row p)) && negb (policyRan (p_id (up_row p)) start db)
      then (true, start) else (false, zero_time)
  | None => (false, zero_time)
  end.

(** One pass of the loop over the active policies. *)
Definition schedule_one (now wall : time) (db : DB) (p : UpdatePolicy) : ScheduledPolicy :=
  let endpoint := instance_endpoint db (p_app (up_row p)) in
  let open := open_at now db p in
  let missed := missed_at now db p in
  mkScheduled p endpoint
    (open.1 && nonempty endpoint && (count (endpoint_live endpoint wall) (deployments db) >? 0))
    open.1 open.2 missed.1 missed.2.

Fixpoint scan_all (rows : list PolicyRow) : res StoreErr (list UpdatePolicy) :=
  match rows with
  | [] => Ok []
  | r :: rows' => let! p := scanPolicy r ;; let! ps := scan_all rows' ;; Ok (p :: ps)
  end.

Definition due (sp : ScheduledPolicy) : bool := sp_open sp || sp_missed sp.

Definition SchedulePolicies (now wall : time) (db : DB) : res StoreErr (list ScheduledPolicy) :=
  let! active := scan_all (select_by p_created p_id active (policies db)) ;;
  Ok (List.filter due (map (schedule_one now wall db) active)).
End schedule.

(** ** Admission *)

Definition policyRunsServerWide : Z := 2.
Definition policyWindow : Type := string * time.

(** The scheduler's memory; nil maps read as empty. *)
Record policyScheduler := mkScheduler {
  inFlight : gmap string string;      (** policy ID -> endpoint ID *)
  busy : gset policyWindow }.

Definition admit_run (s : policyScheduler) (policy endpoint : string) : bool * policyScheduler :=
  if bool_decide (is_Some (inFlight s !! policy)) || (Z.of_nat (size (inFlight s)) >=? policyRunsServerWide)
  then (false, s)
  else if existsb (fun e => nonempty endpoint && bool_decide (e = endpoint)) (map snd (map_to_list (inFlight s)))
  then (false, s)
  else (true, mkScheduler (<[policy := endpoint]> (inFlight s)) (busy s)).

Definition release (s : policyScheduler) (policy : string) : policyScheduler :=
  mkScheduler (delete policy (inFlight s)) (busy s).

Definition running (s : policyScheduler) (policy : string) : bool := bool_decide (is_Some (inFlight s !! policy)).

(** ** One tick *)

Section tick.
Context (LL : string -> option Location).
(** The correlation and run identifiers a skip draws. *)
Context (fresh : policyWindow -> string * string).

Definition skipWindow (now : time) (w : policyWindow) (outcome detail : string) (db : DB) : bool * DB :=
  let '(corr, id) := fresh w in
  match SkipPolicyWindow w.1 w.2 outcome detail corr id now db with
  | (Ok _, db') | (Fail ErrAlreadyExists, db') | (Fail ErrNotFound, db') => (true, db')
  | (Fail _, db') => (false, db')
  end.

Definition open_windows (due : list ScheduledPolicy) : gset policyWindow :=
  list_to_set (map (fun sp => (sp_id sp, sp_occurrence sp)) (List.filter sp_open due)).

(** The windows passed over as busy that are no longer open. *)
Fixpoint expire_busy (now : time) (ws : list policyWindow) (open : gset policyWindow)
    (b : gset policyWindow) (db : DB) : gset policyWindow * DB :=
  match ws with
  | [] => (b, db)
  | w :: ws' =>
      if bool_decide (w ∈ open) then expire_busy now ws' open b db
      else
        let '(settled, db') := skipWindow now w RunSkippedBusy PolicyDetailBusy db in
        expire_busy now ws' open
          (if settled || (time_sub now w.2 >? 24 * Hour) then b ∖ {[w]} else b) db'
  end.

Fixpoint record_missed (now : time) (s : policyScheduler) (due : list ScheduledPolicy) (db : DB) : DB :=
  match due with
  | [] => db
  | sp :: due' =>
      let db' := if sp_missed sp && negb (running s (sp_id sp))
                 then (skipWindow now (sp_id sp, sp_previous sp) RunSkippedMissed PolicyDetailMissed db).2
                 else db in
      record_missed now s due' db'
  end.

(** The last loop: what it starts, in order, and the scheduler after it. *)
Fixpoint start_due (s : policyScheduler) (due : list ScheduledPolicy)
    : list ScheduledPolicy * policyScheduler :=
  match due with
  | [] => ([], s)
  | sp :: due' =>
      if negb (sp_open sp) || running s (sp_id sp) then start_due s due'
      else
        let w := (sp_id sp, sp_occurrence sp) in
        let '(ok, s') := if sp_busy sp then (false, s) else admit_run s (sp_id sp) (sp_endpoint sp) in
        if ok then
          let '(started, s'') := start_due (mkScheduler (inFlight s') (busy s' ∖ {[w]})) due' in
          (sp :: started, s'')
        else start_due (mkScheduler (inFlight s) ({[w]} ∪ busy s)) due'
  end.

Definition policyTick (stopping : bool) (now wall : time) (s : policyScheduler) (db : DB)
    : list ScheduledPolicy * policyScheduler * DB :=
  if stopping then ([], s, db)
  else match SchedulePolicies LL now wall db with
  | Fail _ => ([], s, db)
  | Ok due =>
      let '(b, db1) := expire_busy now (elements (busy s)) (open_windows due) (busy s) db in
      let s1 := mkScheduler (inFlight s) b in
      let db2 := record_missed now s1 due db1 in
      let '(started, s2) := start_due s1 due in
      (started, s2, db2)
  end.
End tick.

(** ** One run *)

(** What a call of the planner answers besides a store error: the blockers it found. *)
Inductive CallErr := Refused (e : StoreErr) | Blocked (blockers : list string).

Definition policyErrorCodes : list (StoreErr * string) :=
  [(ErrNotFound, "not_adopted"); (ErrMappingRequired, "mapping_required");
   (ErrAdoptionChanged, "adoption_changed"); (ErrDeploymentInProgress, "deployment_in_progress");
   (ErrEndpointOffline, "endpoint_offline"); (ErrInvalid, "invalid")].

(** Outcome, deployment and detail. *)
Definition verdict3 : Type := string * string * string.

Definition policyFailure (err : StoreErr) : verdict3 :=
  if bool_decide (err = ErrForbidden) then (RunPaused, "", PolicyDetailCreatorLost)
  else match List.find (fun c => bool_decide (c.1 = err)) policyErrorCodes with
       | Some c => (RunFailed, "", c.2)
       | None => (RunFailed, "", "error")
       end.

(** The loop of [joinCodes], with the text joined so far. *)
Fixpoint join_loop (out : string) (codes : list string) (limit : Z) : string :=
  match codes with
  | [] => out
  | c :: codes' =>
      let next := if nonempty out then out +:+ "," +:+ c else c in
      if len next >? limit then out else join_loop next codes' limit
  end.
Definition joinCodes (codes : list string) (limit : Z) : string := join_loop "" codes limit.

Record ServiceCheck := mkCheck { sc_service : string; sc_verdict : string; sc_detail : string }.

(** The calls [performPolicyRun] makes, each with its answer: authorization, the per
    application hold and the registry slot, the update check, the preflight, the endpoint, the
    instance, the plan, the apply, naming the deployment on the run, and the socket. *)
Record RunCalls := mkCalls {
  call_access : res StoreErr unit;
  call_hold : bool;
  call_slot : bool;
  call_check : res StoreErr (list ServiceCheck);
  call_preflight : res StoreErr string;            (** the endpoint *)
  call_connected : string -> bool;
  call_endpoint : res StoreErr unit;
  call_instance : res StoreErr unit;
  call_plan : list string -> res CallErr (string * string);   (** deployment and endpoint *)
  call_connected_planned : string -> bool;
  call_apply : string -> res CallErr (string * string);
  call_attach : string -> res StoreErr unit;
  call_deliver : string -> bool }.

(** What a run does to deployments, in order: the row turns applying, the run names it, the
    frame is queued, or the row is failed. *)
Inductive effect := Applying (d : string) | Named (d : string) | Sent (d : string) | RowFailed (d : string).

Definition updates_of (cs : list ServiceCheck) : list string :=
  map sc_service (List.filter (fun c => bool_decide (sc_verdict c = "update_available")) cs).
Fixpoint registry_detail (cs : list ServiceCheck) : string :=
  match cs with
  | [] => ""
  | c :: cs' =>
      if negb (bool_decide (sc_verdict c = "update_available")) && bool_decide (sc_verdict c = "registry_error")
         && nonempty (sc_detail c) then sc_detail c
      else registry_detail cs'
  end.

Definition performPolicyRun (mode : string) (c : RunCalls) : verdict3 * list effect :=
  match call_access c with
  | Fail e => (policyFailure e, [])
  | Ok _ =>
  if negb (call_hold c) then ((RunSkippedBusy, "", "check_in_progress"), []) else
  if negb (call_slot c) then ((RunSkippedBusy, "", "too_many_checks"), []) else
  match call_check c with
  | Fail e => (policyFailure e, [])
  | Ok checks =>
  let update := updates_of checks in
  match update with
  | [] => if nonempty (registry_detail checks) then ((RunFailed, "", registry_detail checks), [])
          else ((RunNoUpdate, "", ""), [])
  | _ =>
  match call_preflight c with
  | Fail e => (policyFailure e, [])
  | Ok endpoint =>
  if bool_decide (mode = PolicyModeApply) && negb (call_connected c endpoint)
  then ((RunFailed, "", "endpoint_offline"), []) else
  match call_endpoint c, call_instance c with
  | Fail e, _ => (policyFailure e, [])
  | Ok _, Fail e => (policyFailure e, [])
  | Ok _, Ok _ =>
  match call_plan c update with
  | Fail (Blocked bs) => ((RunBlocked, "", joinCodes bs 255), [])
  | Fail (Refused e) => (policyFailure e, [])
  | Ok (d, dEndpoint) =>
  if bool_decide (mode = PolicyModePlanOnly) then ((RunPlanned, d, ""), []) else
  if negb (call_connected_planned c dEndpoint) then ((RunFailed, d, "endpoint_offline"), []) else
  match call_apply c d with
  | Fail (Refused ErrPolicyChanged) => ((RunPlanned, d, "policy_changed"), [])
  | Fail (Blocked bs) => ((RunBlocked, d, joinCodes bs 255), [])
  | Fail (Refused e) => let '(failed, _, why) := policyFailure e in ((failed, d, why), [])
  | Ok (applied, aEndpoint) =>
  match call_attach c applied with
  | Fail _ => ((RunFailed, applied, "error"), [Applying applied; RowFailed applied])
  | Ok _ =>
  if negb (call_deliver c aEndpoint)
  then ((RunFailed, applied, "not_sent"), [Applying applied; Named applied; RowFailed applied])
  else ((RunApplied, applied, ""), [Applying applied; Named applied; Sent applied])
  end end end end end end end end.

(** The run's goroutine: open the row, do the work, record its outcome or, after a panic
    ([perform] answers [None]), a failure; release the policy in any case. *)
Definition runPolicy (sp : ScheduledPolicy) (corr id : string) (began ended : time)
    (perform : string -> DB -> option verdict3 * DB) (s : policyScheduler) (db : DB)
    : policyScheduler * DB :=
  match BeginPolicyRun (sp_id sp) (sp_occurrence sp) corr id began db with
  | (Fail _, db1) => (release s (sp_id sp), db1)
  | (Ok run, db1) =>
      match perform run db1 with
      | (Some (outcome, deployment, detail), db2) =>
          (release s (sp_id sp), (FinishPolicyRun run outcome deployment detail ended db2).2)
      | (None, db2) =>
          (release s (sp_id sp), (FinishPolicyRun run RunFailed "" "panic" ended db2).2)
      end
  end.

(** ** Admission keeps its bounds *)

Definition sched_ok (s : policyScheduler) : Prop :=
  Z.of_nat (size (inFlight s)) <= policyRunsServerWide /\
  (forall p q e, inFlight s !! p = Some e -> inFlight s !! q = Some e -> e <> "" -> p = q).

Lemma admit_ok s policy endpoint s' :
  admit_run s policy endpoint = (true, s') ->
  inFlight s !! policy = None /\ Z.of_nat (size (inFlight s)) < policyRunsServerWide /\
  (endpoint <> "" -> forall q, inFlight s !! q <> Some endpoint) /\
  s' = mkScheduler (<[policy := endpoint]> (inFlight s)) (busy s).
Proof.
  unfold admit_run. destruct (_ || _) eqn:E1; [done|]. destruct (existsb _ _) eqn:E2; [done|]. intros [= <-].
  apply orb_false_iff in E1 as [E1 E3]. apply bool_decide_eq_false, eq_None_not_Some in E1.
  rewrite Z.geb_leb, Z.leb_gt in E3. split_and!; try done.
  intros Hne q Hq. apply not_true_iff_false in E2. apply E2, existsb_exists. exists endpoint. split.
  - apply list_elem_of_In, list_elem_of_fmap. exists (q, endpoint). split; [done|]. by apply elem_of_map_to_list.
  - rewrite bool_decide_true, andb_true_r by done. unfold nonempty. by rewrite bool_decide_false.
Qed.

Lemma admit_sched_ok s policy endpoint s' :
  sched_ok s -> admit_run s policy endpoint = (true, s') -> sched_ok s'.
Proof.
  intros [Hn Hu] (Hnone & Hlt & He & ->)%admit_ok. split; simpl.
  - rewrite map_size_insert_None by done. unfold policyRunsServerWide in *. lia.
  - intros p q e. rewrite !lookup_insert_Some. intros [[<- <-]|[? ?]] [[<- ?]|[? ?]] Hne; try done.
    + exfalso. by eapply He.
    + subst e. exfalso. by eapply He.
    + eauto.
Qed.

Lemma release_sched_ok s policy : sched_ok s -> sched_ok (release s policy).
Proof.
  intros [Hn Hu]. split; simpl.
  - destruct (inFlight s !! policy) eqn:E; [rewrite map_size_delete_Some by eauto|rewrite delete_id by done]; lia.
  - intros p q e [_ ?]%lookup_delete_Some [_ ?]%lookup_delete_Some. eauto.
Qed.

(** What [start_due] started is admitted and free of conflict, and what it passed over is
    remembered as busy. *)
Record started_ok (s s' : policyScheduler) (due started : list ScheduledPolicy) : Prop := {
  so_sched : sched_ok s -> sched_ok s';
  so_kept : forall k e, inFlight s !! k = Some e -> inFlight s' !! k = Some e;
  so_started : forall sp, sp ∈ started ->
    sp ∈ due /\ sp_open sp = true /\ sp_busy sp = false /\
    inFlight s !! sp_id sp = None /\ inFlight s' !! sp_id sp = Some (sp_endpoint sp);
  so_nodup : NoDup (map sp_id started);
  so_busy : forall w, w ∈ busy s -> w ∈ busy s' \/ exists sp, sp ∈ started /\ w = (sp_id sp, sp_occurrence sp);
  so_passed : forall sp, sp ∈ due -> sp_open sp = true -> inFlight s !! sp_id sp = None ->
    (exists x, x ∈ started /\ sp_id x = sp_id sp) \/ (sp_id sp, sp_occurrence sp) ∈ busy s' }.

Lemma start_due_ok due s started s' :
  start_due s due = (started, s') -> started_ok s s' due started.
Proof.
  revert s started; induction due as [|sp due IH]; intros s started; cbn [start_due].
  - intros [= <- <-]. split; try done; [intros sp ?%elem_of_nil; done|constructor|auto|].
    intros sp ?%elem_of_nil; done.
  - destruct (negb (sp_open sp) || running s (sp_id sp)) eqn:Eskip.
    { intros H. destruct (IH _ _ H) as [? ? Hst ? Hb Hp]. split; try done.
      - intros x Hx. destruct (Hst x Hx) as (? & ?). split; [by right|done].
      - intros x [->|Hx]%elem_of_cons Ho Hn; [|by apply Hp].
        unfold running in Eskip. rewrite Ho, Hn in Eskip. vm_compute in Eskip. done. }
    apply orb_false_iff in Eskip as [Hopen Hrun]. apply negb_false_iff in Hopen.
    unfold running in Hrun. apply bool_decide_eq_false, eq_None_not_Some in Hrun.
    destruct (if sp_busy sp then (false, s) else admit_run s (sp_id sp) (sp_endpoint sp)) as [[] s1] eqn:Ead.
    + destruct (sp_busy sp) eqn:Ebusy; [done|]. pose proof (admit_ok _ _ _ _ Ead) as (_ & _ & _ & Hs1).
      set (s2 := mkScheduler (inFlight s1) (busy s1 ∖ {[(sp_id sp, sp_occurrence sp)]})).
      destruct (start_due s2 due) as [st s''] eqn:Ed. intros [= <- <-].
      destruct (IH _ _ Ed) as [Hs Hk Hst Hnd Hb Hp].
      assert (Hf2 : inFlight s2 = <[sp_id sp := sp_endpoint sp]> (inFlight s)) by (by subst s1).
      assert (Hin2 : inFlight s2 !! sp_id sp = Some (sp_endpoint sp)) by (rewrite Hf2; apply lookup_insert_eq).
      split.
      * intros Hok. apply Hs. apply (admit_sched_ok s _ _ s1 Hok) in Ead. exact Ead.
      * intros k e Hke. apply Hk. rewrite Hf2, lookup_insert_ne; [done|congruence].
      * intros x [->|Hx]%elem_of_cons.
        { split_and!; try done; [left|by apply Hk]. }
        destruct (Hst x Hx) as (? & ? & ? & Hn & ?). split_and!; try done; [by right|].
        rewrite Hf2, lookup_insert_None in Hn. tauto.
      * constructor; [|done]. intros (x & Heq & Hx)%list_elem_of_fmap.
        destruct (Hst x Hx) as (_ & _ & _ & Hn & _). congruence.
      * intros w Hw. destruct (decide (w = (sp_id sp, sp_occurrence sp))) as [->|Hne].
        { right. exists sp. split; [left|done]. }
        destruct (Hb w) as [?|(x & ? & ?)]; [subst s1 s2; set_solver|by left|].
        right. exists x. split; [by right|done].
      * intros x [->|Hx]%elem_of_cons Ho Hn; [left; exists sp; split; [left|done]|].
        destruct (decide (sp_id x = sp_id sp)) as [Heq|Hne].
        { left. exists sp. split; [left|done]. }
        destruct (Hp x Hx Ho) as [(y & ? & ?)|?]; [|left; exists y; split; [by right|done]|by right].
        rewrite Hf2, lookup_insert_ne by done. done.
    + intros H. destruct (IH _ _ H) as [Hs Hk Hst Hnd Hb Hp]. split.
      * intros Hok. apply Hs. done.
      * intros k e Hke. by apply Hk.
      * intros x Hx. destruct (Hst x Hx) as (? & ?). split; [by right|done].
      * done.
      * intros w Hw. apply Hb. simpl. set_solver.
      * intros x [->|Hx]%elem_of_cons Ho Hn; [|by apply Hp].
        destruct (Hb (sp_id sp, sp_occurrence sp)) as [?|(y & ? & [= ? ?])]; [simpl; set_solver|by right|].
        left. exists y. split; [done|congruence].
Qed.

(** ** Skipped windows *)

Lemma settle_skip outcome now p : skips outcome = true -> settle outcome now p = p.
Proof.
  unfold skips. rewrite orb_true_iff, !bool_decide_eq_true. intros [-> | ->]; vm_compute; by destruct p.
Qed.

Lemma skips_known outcome : skips outcome = true -> map_has policyResults outcome = true.
Proof. unfold skips. rewrite orb_true_iff, !bool_decide_eq_true. intros [-> | ->]; vm_compute; reflexivity. Qed.

(** A window the scheduler need not record: it has its row, or its policy is not active. *)
Definition accounted (w : policyWindow) (db : DB) : Prop :=
  policyRan w.1 w.2 db = true \/ (forall p, policies db !! w.1 = Some p -> active p = false).

Definition ran_mono (db db' : DB) : Prop :=
  forall policy occ, policyRan policy occ db = true -> policyRan policy occ db' = true.

Section skip.
Context (fresh : policyWindow -> string * string).

(** The identifiers drawn are new and each is drawn for one window. *)
Definition fresh_for (db : DB) : Prop :=
  (forall w w', (fresh w).2 = (fresh w').2 -> w = w') /\
  forall w, btw 1 64 (char_length (fresh w).1) = true /\ runs db !! (fresh w).2 = None.

Definition tick_inv (db : DB) : Prop :=
  PolicyInv db /\ (forall w w', (fresh w).2 = (fresh w').2 -> w = w') /\
  forall w, btw 1 64 (char_length (fresh w).1) = true /\
    (runs db !! (fresh w).2 = None \/ policyRan w.1 w.2 db = true).

Lemma policyRan_settled outcome detail now r p db id w occ :
  runs db !! r_id r = Some r -> r_id r = id ->
  policyRan w occ (settled_db outcome "" detail now r p db) = policyRan w occ db.
Proof.
  intros Hr Hid. apply eq_iff_eq_true. rewrite <- !not_false_iff_true, !policyRan_false.
  apply not_iff_compat. simpl. split; intros H k r' Hk.
  - destruct (decide (k = r_id r)) as [->|Hne].
    + assert (r' = r) as -> by congruence. apply (H (r_id r) (finished_run outcome "" detail now r)).
      apply lookup_insert_eq.
    + apply (H k). by rewrite lookup_insert_ne.
  - rewrite lookup_insert_Some in Hk. destruct Hk as [[<- <-]|[_ Hk]]; [|by apply (H k)].
    simpl. apply (H (r_id r) r Hr).
Qed.

Lemma ran_mono_insert policy p occ corr id now db :
  runs db !! id = None -> ran_mono db (set_runs (<[id := opened_run policy p occ corr id now]> (runs db)) db).
Proof.
  intros Hid pol o. rewrite <- !not_false_iff_true, !policyRan_false. intros H Hall. apply H.
  intros k r Hk. apply (Hall k r). simpl. rewrite lookup_insert_ne; [done|congruence].
Qed.

Lemma skipWindow_ok now w outcome detail db :
  tick_inv db -> skips outcome = true ->
  exists db', skipWindow fresh now w outcome detail db = (true, db') /\ tick_inv db' /\
    policies db' = policies db /\ ran_mono db db' /\ accounted w db'.
Proof.
  intros (Hinv & Hinj & Hf) Ho. destruct (Hf w) as [Hcorr Hid]. unfold skipWindow.
  destruct (fresh w) as [corr id] eqn:Efresh. simpl in Hcorr, Hid.
  unfold SkipPolicyWindow. unfold skips in Ho.
  assert (negb (bool_decide (outcome = RunSkippedMissed)) && negb (bool_decide (outcome = RunSkippedBusy)) = false) as ->
    by (rewrite <- negb_orb, Ho; done).
  fold (skips outcome) in Ho. unfold commit.
  assert (Hrefl : ran_mono db db) by (intros ? ?; done).
  assert (Hstay : tick_inv db) by (split_and!; done).
  pose proof (insertPolicyRun_refused db w.1 w.2 corr id now) as Hno.
  destruct (policies db !! w.1) as [p|] eqn:Hp.
  2:{ unfold mbind, tx_bind. rewrite Hno. exists db. split_and!; try done. right. intros q. by rewrite Hp. }
  destruct (active p) eqn:Ha.
  2:{ unfold mbind, tx_bind. rewrite Hno. exists db. split_and!; try done. right. intros q. rewrite Hp. by intros [= <-]. }
  destruct (policyRan w.1 w.2 db) eqn:Hran.
  { unfold mbind, tx_bind. rewrite Hno by done. exists db. split_and!; try done. by left. }
  destruct Hid as [Hid|]; [|done]. assert (Hrun := insertPolicyRun_run db w.1 p w.2 corr id now Hp Ha Hran Hid Hcorr).
  assert (Hinv1 := insertPolicyRun_PolicyInv _ _ _ _ _ _ _ _ Hinv Hrun).
  set (db1 := set_runs _ db) in *. set (r := opened_run w.1 p w.2 corr id now) in *.
  assert (Hr : runs db1 !! id = Some r) by apply lookup_insert_eq.
  erewrite bind_run by exact Hrun.
  rewrite (finishPolicyRun_run db1 id outcome "" detail now r p);
    eauto using inv_run_keys, inv_policy_keys, inv_run_ok, inv_policy_ok, skips_known.
  set (db2 := settled_db outcome "" detail now r p db1). exists db2. split; [reflexivity|].
  assert (Hmono : ran_mono db db2).
  { intros pol o H. unfold db2. erewrite policyRan_settled by (done || reflexivity).
    by apply (ran_mono_insert w.1 p w.2 corr id now db Hid). }
  assert (Hacc : policyRan w.1 w.2 db2 = true).
  { unfold db2. erewrite policyRan_settled by (done || reflexivity). apply opened_policyRan. }
  split_and!; [|..|done|by left].
  - split_and!; [|done|].
    + apply settled_PolicyInv; auto using skips_known.
    + intros w'. destruct (Hf w') as [Hc' Hi']. split; [done|]. destruct Hi' as [Hi'|Hi']; [|right; by apply Hmono].
      destruct (decide (w' = w)) as [->|Hne]; [by right|left].
      assert ((fresh w').2 <> id).
      { intros He. apply Hne, Hinj. by rewrite Efresh. }
      unfold db2. simpl. rewrite !lookup_insert_ne by done. done.
  - unfold db2. simpl. rewrite settle_skip by done. by rewrite insert_id.
Qed.

Lemma accounted_mono w db db' :
  policies db' = policies db -> ran_mono db db' -> accounted w db -> accounted w db'.
Proof. intros Hp Hm [H|H]; [left; by apply Hm|right; by rewrite Hp]. Qed.

Lemma expire_busy_ok now ws open b db b' db' :
  tick_inv db -> expire_busy fresh now ws open b db = (b', db') ->
  tick_inv db' /\ policies db' = policies db /\ ran_mono db db' /\ b' ⊆ b /\
  (forall w, w ∈ b -> w ∈ open -> w ∈ b') /\
  (forall w, w ∈ ws -> w ∉ open -> w ∉ b' /\ accounted w db').
Proof.
  revert b db; induction ws as [|w ws IH]; intros b db Hinv; cbn [expire_busy].
  - intros [= <- <-]. split; [done|]. split; [done|]. split; [intros ? ?; done|]. split; [done|].
    split; [done|]. intros w Hw. by apply elem_of_nil in Hw.
  - case_bool_decide as Hop.
    { intros H. destruct (IH _ _ Hinv H) as (? & ? & ? & ? & ? & Hacc). split_and!; try done.
      intros w' [->|Hw]%elem_of_cons Hno; [done|]. by apply Hacc. }
    destruct (skipWindow_ok now w RunSkippedBusy PolicyDetailBusy db Hinv) as (db1 & -> & Hinv1 & Hp1 & Hm1 & Ha1);
      [vm_compute; reflexivity|]. cbn [orb]. intros H.
    destruct (IH _ _ Hinv1 H) as (? & Hp & Hm & Hsub & Hkeep & Hacc). split_and!.
    + done.
    + by rewrite Hp.
    + intros pol o ?. by apply Hm, Hm1.
    + set_solver.
    + intros w' Hw' Ho'. apply Hkeep; [|done]. set_solver.
    + intros w' [->|Hw]%elem_of_cons Hno; [|by apply Hacc].
      split; [set_solver|]. by eapply accounted_mono.
Qed.

Lemma record_missed_ok now s due db :
  tick_inv db ->
  let db' := record_missed fresh now s due db in
  tick_inv db' /\ policies db' = policies db /\ ran_mono db db' /\
  (forall sp, sp ∈ due -> sp_missed sp = true -> running s (sp_id sp) = false ->
     accounted (sp_id sp, sp_previous sp) db').
Proof.
  revert db; induction due as [|sp due IH]; intros db Hinv; cbn [record_missed].
  - split; [done|]. split; [done|]. split; [intros ? ?; done|]. intros sp Hs. by apply elem_of_nil in Hs.
  - destruct (sp_missed sp && negb (running s (sp_id sp))) eqn:E.
    + destruct (skipWindow_ok now (sp_id sp, sp_previous sp) RunSkippedMissed PolicyDetailMissed db Hinv)
        as (db1 & -> & Hinv1 & Hp1 & Hm1 & Ha1); [vm_compute; reflexivity|]. cbn [snd].
      destruct (IH db1 Hinv1) as (? & Hp & Hm & Hacc). split_and!.
      * done.
      * by rewrite Hp.
      * intros pol o ?. by apply Hm, Hm1.
      * intros x [->|Hx]%elem_of_cons Hmi Hr; [|by apply Hacc]. by eapply accounted_mono.
    + destruct (IH db Hinv) as (? & ? & ? & Hacc). split_and!; try done.
      intros x [->|Hx]%elem_of_cons Hmi Hr; [|by apply Hacc]. by rewrite Hmi, Hr in E.
Qed.
End skip.

(** C40: a tick starts what is due within its bounds and loses no window.  From a database and a
    memory in order, one tick keeps at most two runs in flight, at most one per endpoint, and
    never a second run of a policy; it starts only open windows on idle endpoints.  Every
    other open window of a policy that is not running is remembered as busy; every window
    remembered as busy that is no longer open, and every missed window of a policy that is not
    running, has its row afterwards unless its policy is no longer active. *)
Theorem policyTick_sound LL fresh now wall s db due started s' db' :
  PolicyInv db -> fresh_for fresh db -> sched_ok s ->
  SchedulePolicies LL now wall db = Ok due ->
  policyTick LL fresh false now wall s db = (started, s', db') ->
  sched_ok s' /\ PolicyInv db' /\ policies db' = policies db /\
  NoDup (map sp_id started) /\
  (forall sp, sp ∈ started -> sp ∈ due /\ sp_open sp = true /\ sp_busy sp = false /\
     inFlight s !! sp_id sp = None /\ inFlight s' !! sp_id sp = Some (sp_endpoint sp)) /\
  (forall sp, sp ∈ due -> sp_open sp = true -> inFlight s !! sp_id sp = None ->
     (exists x, x ∈ started /\ sp_id x = sp_id sp) \/ (sp_id sp, sp_occurrence sp) ∈ busy s') /\
  (forall w, w ∈ busy s -> w ∉ open_windows due -> accounted w db') /\
  (forall sp, sp ∈ due -> sp_missed sp = true -> running s (sp_id sp) = false ->
     accounted (sp_id sp, sp_previous sp) db').
Proof.
  intros Hinv [Hinj Hfresh] Hok Hdue. unfold policyTick. rewrite Hdue.
  assert (Htick : tick_inv fresh db).
  { split_and!; try done. intros w. destruct (Hfresh w). auto. }
  destruct (expire_busy fresh now (elements (busy s)) (open_windows due) (busy s) db) as [b db1] eqn:Eb.
  destruct (expire_busy_ok fresh now _ _ _ _ _ _ Htick Eb) as (Hin1 & Hp1 & Hm1 & _ & _ & Hacc1).
  destruct (record_missed_ok fresh now (mkScheduler (inFlight s) b) due db1 Hin1) as (Hin2 & Hp2 & Hm2 & Hacc2).
  destruct (start_due (mkScheduler (inFlight s) b) due) as [st s2] eqn:Es. intros [= <- <- <-].
  destruct (start_due_ok _ _ _ _ Es) as [Hsched _ Hst Hnd _ Hpass].
  split_and!; try done.
  - by apply Hsched.
  - apply Hin2.
  - by rewrite Hp2.
  - intros w Hw Hno. eapply accounted_mono; [exact Hp2|exact Hm2|]. apply Hacc1; [by apply elem_of_elements|done].
Qed.

(** ** The schedule is exact *)

Lemma scan_all_ok rows :
  Forall (fun r => is_ok (scanPolicy r) = true) rows ->
  exists ps, scan_all rows = Ok ps /\ Forall2 (fun r p => scanPolicy r = Ok p) rows ps.
Proof.
  induction 1 as [|r rows Hr _ (ps & Hps & Hall)]; [by exists []|].
  apply is_ok_true in Hr as [p Hp]. exists (p :: ps). cbn [scan_all]. rewrite Hp, Hps. simpl. auto.
Qed.

Lemma scanPolicy_row r p : scanPolicy r = Ok p -> up_row p = r.
Proof. unfold scanPolicy. destruct (scan_days _); simpl; [|done]. by intros [= <-]. Qed.

Lemma open_at_spec LL now db p :
  (open_at LL now db p).1 = true <->
  exists e, policyOccurrence LL p now = Some ((open_at LL now db p).2, e, true) /\
    policyRan (p_id (up_row p)) (open_at LL now db p).2 db = false.
Proof.
  unfold open_at. destruct (policyOccurrence LL p now) as [[[s e] []]|] eqn:Ho.
  - destruct (policyRan _ s db) eqn:E; simpl; split; try done; [|eauto].
    intros (e' & He & Hr). congruence.
  - simpl. split; [done|]. intros (e' & He & Hr). congruence.
  - simpl. split; [done|]. intros (e' & He & Hr). done.
Qed.

(** The schedule lists exactly what is due.  On a database in order it never fails; an entry
    is open exactly when its policy is active, its window is open at [now] and the window has
    no run yet, with the window's start as occurrence, and every active policy with such a
    window has an entry. *)
Theorem SchedulePolicies_exact LL now wall db :
  PolicyInv db ->
  exists l, SchedulePolicies LL now wall db = Ok l /\
    (forall sp, sp ∈ l -> sp_open sp = true ->
       exists r e, policies db !! sp_id sp = Some r /\ p_status r = PolicyActive /\
         scanPolicy r = Ok (sp_policy sp) /\
         policyOccurrence LL (sp_policy sp) now = Some (sp_occurrence sp, e, true) /\
         policyRan (sp_id sp) (sp_occurrence sp) db = false) /\
    (forall k r p s e, policies db !! k = Some r -> p_status r = PolicyActive -> scanPolicy r = Ok p ->
       policyOccurrence LL p now = Some (s, e, true) -> policyRan k s db = false ->
       exists sp, sp ∈ l /\ sp_id sp = k /\ sp_open sp = true /\ sp_occurrence sp = s).
Proof.
  intros Hinv. unfold SchedulePolicies.
  set (rows := select_by p_created p_id active (policies db)).
  assert (Hrows : forall r, r ∈ rows <-> policies db !! p_id r = Some r /\ p_status r = PolicyActive).
  { intros r. unfold rows. rewrite elem_of_select_by. unfold active. rewrite bool_decide_eq_true. split.
    - intros [[k Hk] Ha]. by rewrite (inv_policy_keys _ Hinv _ _ Hk).
    - intros [Hr Ha]. eauto. }
  destruct (scan_all_ok rows) as (ps & Hps & Hall).
  { apply Forall_forall. intros r [Hr _]%Hrows. by eapply inv_days. }
  rewrite Hps. simpl. eexists. split; [reflexivity|]. split.
  - intros sp Hsp Hopen. rewrite list_elem_of_In, filter_In, <- list_elem_of_In in Hsp. destruct Hsp as [Hsp _].
    apply list_elem_of_fmap in Hsp as (p & -> & Hp).
    destruct (Forall2_in_r _ _ _ _ Hall Hp) as (r & Hr & Hscan).
    apply Hrows in Hr as [Hr Ha]. pose proof (scanPolicy_row _ _ Hscan) as Hrow.
    apply open_at_spec in Hopen as (e & Hocc & Hran). unfold sp_id. simpl. rewrite Hrow in *.
    exists r, e. done.
  - intros k r p s e Hr Ha Hscan Hocc Hran. assert (Hk := inv_policy_keys _ Hinv _ _ Hr). subst k.
    assert (Hin : r ∈ rows) by (by apply Hrows).
    destruct (Forall2_in_l _ _ _ _ Hall Hin) as (p' & Hp' & Hscan').
    assert (p' = p) as -> by congruence. pose proof (scanPolicy_row _ _ Hscan) as Hrow.
    assert (Hopen : open_at LL now db p = (true, s)).
    { unfold open_at. by rewrite Hocc, Hrow, Hran. }
    exists (schedule_one LL now wall db p). split_and!.
    + rewrite list_elem_of_In, filter_In, <- list_elem_of_In. split; [apply list_elem_of_fmap; eauto|].
      unfold due. simpl. by rewrite Hopen.
    + unfold sp_id. simpl. by rewrite Hrow.
    + simpl. by rewrite Hopen.
    + simpl. by rewrite Hopen.
Qed.

(** ** A run is accounted for *)

Lemma policyFailure_known e : exists o c, policyFailure e = (o, "", c) /\ (o = RunPaused \/ o = RunFailed).
Proof.
  unfold policyFailure. destruct (bool_decide _); [eauto|].
  destruct (List.find _ _) as [[]|]; simpl; eauto.
Qed.

(** A run sends at most one frame, and only after the deployment is applying and named on
    the run; a deployment it made applying is either sent or failed, never forgotten.  The
    outcome is always one of the recorded vocabulary, "applied" exactly when a frame was sent,
    and a plan-only policy touches no deployment. *)
Theorem performPolicyRun_accounted mode c :
  let '((outcome, deployment, _), effects) := performPolicyRun mode c in
  map_has policyResults outcome = true /\
  (outcome = RunApplied <-> effects = [Applying deployment; Named deployment; Sent deployment]) /\
  (outcome <> RunApplied ->
     effects = [] \/ effects = [Applying deployment; RowFailed deployment] \/
     effects = [Applying deployment; Named deployment; RowFailed deployment]) /\
  (mode = PolicyModePlanOnly -> effects = []) /\
  (outcome = RunPaused -> effects = []).
Proof.
  assert (Hfail : forall e, let '((o, d, _), eff) := (policyFailure e, @nil effect) in
    map_has policyResults o = true /\ (o = RunApplied <-> eff = [Applying d; Named d; Sent d]) /\
    (o <> RunApplied -> eff = [] \/ eff = [Applying d; RowFailed d] \/ eff = [Applying d; Named d; RowFailed d]) /\
    (mode = PolicyModePlanOnly -> eff = []) /\ (o = RunPaused -> eff = [])).
  { intros e. destruct (policyFailure_known e) as (o & w & -> & [-> | ->]);
      (split; [vm_compute; reflexivity|]); split_and!; try done; by left. }
  unfold performPolicyRun.
  destruct (call_access c) as [?|e]; [|apply Hfail].
  destruct (call_hold c); [|split; [vm_compute; reflexivity|]; split_and!; try done; by left].
  destruct (call_slot c); [|split; [vm_compute; reflexivity|]; split_and!; try done; by left]. cbn [negb].
  destruct (call_check c) as [checks|e]; [|apply Hfail].
  destruct (updates_of checks) as [|u us] eqn:Eu.
  { destruct (nonempty _); (split; [vm_compute; reflexivity|]); split_and!; try done; by left. }
  destruct (call_preflight c) as [endpoint|e]; [|apply Hfail].
  destruct (_ && _); [split; [vm_compute; reflexivity|]; split_and!; try done; by left|].
  destruct (call_endpoint c); [|apply Hfail]. destruct (call_instance c); [|apply Hfail].
  destruct (call_plan c _) as [[d de]|[e|bs]]; [|apply Hfail|split; [vm_compute; reflexivity|]; split_and!; try done; by left].
  case_bool_decide as Hmode; [split; [vm_compute; reflexivity|]; split_and!; try done; by left|].
  destruct (negb (call_connected_planned c de)); [split; [vm_compute; reflexivity|]; split_and!; try done; by left|].
  destruct (call_apply c d) as [[ap ae]|[e|bs]].
  - destruct (call_attach c ap); [|split; [vm_compute; reflexivity|]; split_and!; try done; auto].
    destruct (call_deliver c ae); (split; [vm_compute; reflexivity|]); split_and!; try done; auto.
  - destruct (policyFailure_known e) as (o & w & Hf & Ho).
    destruct e; rewrite ?Hf; try (split; [vm_compute; reflexivity|]; split_and!; try done; by left);
      destruct Ho as [-> | ->]; (split; [vm_compute; reflexivity|]); split_and!; try done; by left.
  - split; [vm_compute; reflexivity|]; split_and!; try done; by left.
Qed.

(** The goroutine of a started run sees its database change under it, by steps that keep the
    tables in order and do not reopen or settle its run. *)
Definition quiet (run : string) (db db' : DB) : Prop :=
  PolicyInv db' /\ (runs db' !! run = None \/
    exists r r', runs db !! run = Some r /\ runs db' !! run = Some r' /\ r_outcome r' = r_outcome r).

(** A started run ends.  Whatever the work answers, even a panic, and whatever other
    operations did meanwhile, once the goroutine returns its policy is out of the in-flight
    table, and its run row, if the policy still exists, has an outcome. *)
Theorem runPolicy_finishes sp corr id began ended perform s db s' db' :
  PolicyInv db ->
  (forall run d, PolicyInv d -> quiet run d (perform run d).2) ->
  (forall run d o dep t, (perform run d).1 = Some (o, dep, t) -> map_has policyResults o = true) ->
  runPolicy sp corr id began ended perform s db = (s', db') ->
  inFlight s' !! sp_id sp = None /\ PolicyInv db' /\
  (forall r, runs db !! id = None -> runs db' !! id = Some r -> r_outcome r <> "").
Proof.
  intros Hinv Hquiet Hvocab. unfold runPolicy, BeginPolicyRun, commit.
  assert (Hrel : inFlight (release s (sp_id sp)) !! sp_id sp = None) by apply lookup_delete_eq.
  destruct (insertPolicyRun _ _ _ _ _ db) as [[run db1]|e] eqn:Ebegin.
  2:{ intros [= <- <-]. split_and!; try done. congruence. }
  pose proof (insertPolicyRun_PolicyInv _ _ _ _ _ _ _ _ Hinv Ebegin) as Hinv1.
  apply insertPolicyRun_ok in Ebegin as (-> & p & _ & _ & _ & _ & _ & Hdb1).
  assert (Hr1 : exists r, runs db1 !! id = Some r /\ r_outcome r = "").
  { rewrite Hdb1. simpl. eexists. split; [apply lookup_insert_eq|done]. }
  destruct (Hquiet id db1 Hinv1) as [Hinv2 Hq]. specialize (Hvocab id db1).
  assert (Hfinish : forall db2 o dep t, PolicyInv db2 ->
    (runs db2 !! id = None \/ exists r, runs db2 !! id = Some r /\ r_outcome r = "") ->
    map_has policyResults o = true ->
    let db3 := (FinishPolicyRun id o dep t ended db2).2 in
    PolicyInv db3 /\ forall r, runs db3 !! id = Some r -> r_outcome r <> "").
  { intros db2 o dep t Hi Ho Hk. simpl. unfold FinishPolicyRun, commit. rewrite Hk. cbn [negb].
    destruct Ho as [Hn|(r & Hr & Ho)].
    - rewrite finishPolicyRun_closed by (rewrite Hn; naive_solver). split; [done|]. simpl. rewrite Hn. done.
    - destruct (inv_run_policy _ Hi _ _ Hr) as [q Hp]. assert (Hid := inv_run_keys _ Hi _ _ Hr).
      rewrite (finishPolicyRun_run db2 id o dep t ended r q);
        eauto using inv_run_keys, inv_policy_keys, inv_run_ok, inv_policy_ok.
      split; [apply settled_PolicyInv; subst id; done|]. intros r'. simpl. rewrite <- Hid, lookup_insert_eq.
      intros [= <-]. simpl. intros ->. vm_compute in Hk. done. }
  assert (Hopen : runs (perform id db1).2 !! id = None \/
    exists r, runs (perform id db1).2 !! id = Some r /\ r_outcome r = "").
  { destruct Hq as [?|(r & r' & Ha & Hb & Hc)]; [by left|]. right. destruct Hr1 as (r1 & Hr1 & Ho1).
    exists r'. split; [done|]. congruence. }
  destruct (perform id db1) as [[[[o dep] t]|] db2]; intros [= <- <-]; simpl in *.
  - destruct (Hfinish db2 o dep t Hinv2 Hopen) as [? ?]; [eauto|]. split_and!; auto.
  - destruct (Hfinish db2 RunFailed "" "panic" Hinv2 Hopen) as [? ?]; [vm_compute; reflexivity|]. split_and!; auto.
Qed.

(** ** Codes *)

Lemma join_nonempty (l : list string) : l <> [] -> Forall (fun c => c <> "") l -> join "," l <> "".
Proof. intros Hne Hall. destruct l as [|x [|y l]]; [done| |]; apply Forall_cons in Hall as [? _]; by destruct x. Qed.

Lemma join_loop_spec codes limit done_ :
  Forall (fun c => c <> "") done_ -> Forall (fun c => c <> "") codes -> len (join "," done_) <= limit ->
  exists k, (k <= length codes)%nat /\ join_loop (join "," done_) codes limit = join "," (done_ ++ take k codes) /\
    len (join "," (done_ ++ take k codes)) <= limit /\
    ((k < length codes)%nat -> limit < len (join "," (done_ ++ take (S k) codes))).
Proof.
  revert done_; induction codes as [|c codes IH]; intros d Hd Hc Hl; cbn [join_loop].
  - exists 0%nat. rewrite app_nil_r. split_and!; [simpl; lia|done|done|simpl; lia].
  - apply Forall_cons in Hc as [Hc0 Hc].
    assert (Hnext : (if nonempty (join "," d) then join "," d +:+ "," +:+ c else c) = join "," (d ++ [c])).
    { destruct d as [|x d]; [done|]. rewrite join_snoc by done. unfold nonempty.
      by rewrite bool_decide_false by (by apply join_nonempty). }
    rewrite Hnext. destruct (Z.gtb_spec (len (join "," (d ++ [c]))) limit) as [Hgt|Hle].
    + exists 0%nat. rewrite app_nil_r. split_and!; [lia|done|done|]. intros _. simpl. destruct codes; simpl; lia.
    + destruct (IH (d ++ [c])) as (k & Hk & He & Hlk & Hmax); [apply Forall_app; auto|done|done|].
      exists (S k). rewrite <- app_assoc in *. simpl in *. split_and!; [lia|done|done|].
      intros Hlt. apply Hmax. lia.
Qed.

(** The detail of a blocked run is the longest list of whole codes, from the first on, that
    fits the limit: no code is cut, and the next one would not fit. *)
Theorem joinCodes_longest codes limit :
  Forall (fun c => c <> "") codes -> 0 <= limit ->
  exists k, (k <= length codes)%nat /\ joinCodes codes limit = join "," (take k codes) /\
    len (joinCodes codes limit) <= limit /\
    ((k < length codes)%nat -> limit < len (join "," (take (S k) codes))).
Proof.
  intros Hc Hl. destruct (join_loop_spec codes limit []) as (k & ? & He & ? & ?); [done|done|done|].
  exists k. unfold joinCodes. simpl in *. rewrite He. done.
Qed.

(** ** Witnesses *)

Lemma joinCodes_longest_witness :
  joinCodes ["port_taken"; "image_missing"; "x"] 12 = "port_taken" /\
  len (joinCodes ["port_taken"; "image_missing"; "x"] 12) <= 12.
Proof.
  split; [vm_compute; reflexivity|].
  destruct (joinCodes_longest ["port_taken"; "image_missing"; "x"] 12) as (k & _ & _ & H & _);
    [repeat constructor; discriminate|lia|exact H].
Defined.

Definition demo_fresh (w : policyWindow) : string * string := ("corr", pretty (encode w)).
Lemma demo_fresh_for db : runs db = ∅ -> fresh_for demo_fresh db.
Proof.
  intros Hr. split.
  - intros w w' H. apply (inj encode). apply (inj pretty). exact H.
  - intros w. split; [vm_compute; reflexivity|]. by rewrite Hr, lookup_empty.
Qed.

(** Friday, 2 January 1970, half past one: inside the saved policy's window. *)
Definition demo_now : time := of_seconds (86400 + 5400).
Definition no_runs : policyScheduler := mkScheduler ∅ ∅.
Lemma no_runs_ok : sched_ok no_runs.
Proof. split; [vm_compute; discriminate|]. intros p q e H. simpl in H. by rewrite lookup_empty in H. Qed.

Lemma policyTick_sound_witness :
  map sp_id (policyTick utc_zones demo_fresh false demo_now demo_now no_runs demo_saved).1.1 = ["pol"] /\
  sched_ok (policyTick utc_zones demo_fresh false demo_now demo_now no_runs demo_saved).1.2.
Proof.
  split; [vm_compute; reflexivity|].
  destruct (SchedulePolicies utc_zones demo_now demo_now demo_saved) as [due|e] eqn:E;
    [|vm_compute in E; discriminate E].
  destruct (policyTick utc_zones demo_fresh false demo_now demo_now no_runs demo_saved) as [[st s'] db'] eqn:Et.
  apply (policyTick_sound utc_zones demo_fresh demo_now demo_now no_runs demo_saved due st s' db'
    demo_saved_inv (demo_fresh_for demo_saved ltac:(vm_compute; reflexivity)) no_runs_ok E Et).
Defined.

Lemma SchedulePolicies_exact_witness :
  exists l, SchedulePolicies utc_zones demo_now demo_now demo_saved = Ok l /\
    map sp_id (List.filter sp_open l) = ["pol"].
Proof.
  destruct (SchedulePolicies_exact utc_zones demo_now demo_now demo_saved demo_saved_inv) as (l & Hl & _).
  exists l. split; [exact Hl|]. vm_compute in Hl. injection Hl as <-. vm_compute. reflexivity.
Defined.

Lemma runPolicy_finishes_witness :
  let sp := mkScheduled (mkUpdatePolicy (mkPolicy "pol" "" "" "" "" "" "" "" 0 0 "" "" 0 0 0) [] None) "" false true 200 false 0 in
  let s := mkScheduler {["pol" := ""]} ∅ in
  inFlight (runPolicy sp "corr" "run2" 8 9 (fun _ d => (@None verdict3, d)) s demo_begun).1 !! "pol" = None.
Proof.
  cbv zeta.
  match goal with |- inFlight (?r).1 !! _ = None => destruct r as [s' db'] eqn:E end.
  apply (runPolicy_finishes _ _ _ _ _ _ _ _ _ _ demo_begun_inv) in E.
  - apply E.
  - intros run d Hd. split; [exact Hd|]. destruct (runs d !! run) as [r|] eqn:Hr; [right|left; exact Hr].
    exists r, r. simpl. rewrite Hr. split; [reflexivity|split; reflexivity].
  - intros run d o dep t H. discriminate H.
Defined.
