(* ===== verification/Judge.v ===== *)
(** * Verdicts

    The pure half of internal/store/validations.go: the verdict rules one poll is judged by
    ([Judge], [judgeService], [judgeWorkload], [workloadPods]), the baseline the first
    observation after grace gives ([BaselineOf]), and where a settled container stands
    ([presence]). *)
From Stdlib Require Import ZArith Lia Ascii String.
From stdpp Require Import base gmap strings list.
From S2P Require Import Prelude.
From S2P Require Import Text.
From S2P Require Import Grammar.
From S2P Require Import Inspection.
From S2P Require Import Frame.
From S2P Require Import Inventory.
From S2P Require Import TenantAccess.

Definition VerdictHealthy : string := "healthy".
Definition VerdictUnhealthy : string := "unhealthy".
Definition VerdictExited : string := "exited".
Definition VerdictRestarting : string := "restarting".
Definition VerdictUnverifiable : string := "unverifiable".
Definition VerdictChanged : string := "changed".

Definition PresencePresent : string := "present".
Definition PresenceGone : string := "gone".
Definition PresenceReplaced : string := "replaced".
Definition PresenceUnknown : string := "unknown".

Record ServiceBaseline := mkBaseline {
  sb_container : string; sb_restarts : Z; sb_pods : gmap string Z }.
Definition no_baseline : ServiceBaseline := mkBaseline "" 0 ∅.

Record Observation := mkObservation {
  o_service : string; o_presence : string; o_inspection : option ContainerInspection; o_generation : Z }.

Definition unobserved : string := "unobserved".

Definition verdictRank (v : string) : Z :=
  if bool_decide (v = VerdictUnhealthy) then 1
  else if bool_decide (v = VerdictRestarting) then 2
  else if bool_decide (v = VerdictExited) then 3
  else if bool_decide (v = VerdictChanged) then 4 else 0.

Definition failingWaits : list string :=
  ["CrashLoopBackOff"; "ImagePullBackOff"; "ErrImagePull"; "CreateContainerConfigError"; "CreateContainerError"].

(** Restarts are int32 and summed as int: 64 bits hold the sum of the 128 pods' 32 containers. *)
Definition workloadPods (w : WorkloadStatus) : gmap string Z :=
  fold_left (fun out p =>
    fold_left (fun out c => <[pod_uid p := default 0 (out !! pod_uid p) + pc_restarts c]> out) (pod_containers p) out)
    (ws_pods w) ∅.

(** The loop over pods: some baseline pod is still listed, some pod restarted. *)
Definition pod_kept (b : ServiceBaseline) (pods : gmap string Z) : bool :=
  existsb (fun kv => bool_decide (is_Some (sb_pods b !! kv.1))) (map_to_list pods).
Definition pod_restarted (b : ServiceBaseline) (pods : gmap string Z) : bool :=
  existsb (fun kv => kv.2 >? default 0 (sb_pods b !! kv.1)) (map_to_list pods).

(** The loop over containers: any waiting, any terminated in a live pod, and the first
    failing waiting reason. *)
Definition scan_container (p : PodStatus) (acc : bool * bool * string) (c : PodContainer) : bool * bool * string :=
  let '(waiting, terminated, reason) := acc in
  if bool_decide (pc_state c = "waiting") then
    (true, terminated,
     if bool_decide (reason = "") && bool_decide (pc_reason c ∈ failingWaits) then pc_reason c else reason)
  else if bool_decide (pc_state c = "terminated") then
    (waiting,
     terminated || (negb (bool_decide (pod_phase p = "Failed")) && negb (bool_decide (pod_phase p = "Succeeded"))),
     reason)
  else acc.
Definition scan_pods (w : WorkloadStatus) : bool * bool * string :=
  fold_left (fun acc p => fold_left (scan_container p) (pod_containers p) acc) (ws_pods w) (false, false, "").

Definition judgeWorkload (o : Observation) (target_uid : string) (w : WorkloadStatus) (b : ServiceBaseline) (final : bool)
    : string * string :=
  if ws_missing w || negb (bool_decide (ws_uid w = target_uid)) || (ws_generation w >? o_generation o)
  then (VerdictChanged, "")
  else
    let pods := workloadPods w in
    let kept := pod_kept b pods in
    let restarted := pod_restarted b pods in
    if negb (bool_decide (sb_pods b = ∅)) && (llen (ws_pods w) >? 0) && negb kept && negb restarted
    then (VerdictChanged, "")
    else
      let '(waiting, terminated, reason) := scan_pods w in
      if terminated && negb waiting && (ws_available w <? ws_desired w) then (VerdictExited, "")
      else if restarted then (VerdictRestarting, "")
      else if negb (bool_decide (reason = "")) then (VerdictUnhealthy, reason)
      else if final && ((ws_observed w <? ws_generation w) || (ws_available w <? ws_desired w)
                        || (ws_ready w <? ws_desired w) || waiting)
      then (VerdictUnhealthy, "")
      else ("", "").

Definition judgeContainer (o : Observation) (b : ServiceBaseline) (final : bool) : string * string :=
  if bool_decide (o_presence o = PresenceReplaced) then (VerdictChanged, "")
  else if bool_decide (o_presence o = PresenceGone) then (VerdictExited, "")
  else match o_inspection o with
  | None => (unobserved, "")
  | Some i =>
      if negb (bool_decide (ci_state i = "running")) && negb (bool_decide (ci_state i = "restarting"))
      then (VerdictExited, "")
      else if bool_decide (ci_state i = "restarting") || (ci_restarts i >? sb_restarts b) then (VerdictRestarting, "")
      else if bool_decide (ci_health i = "unhealthy") || (bool_decide (ci_health i = "starting") && final)
      then (VerdictUnhealthy, "")
      else ("", "")
  end.

Definition judgeService (o : Observation) (b : ServiceBaseline) (final : bool) : string * string :=
  match o_inspection o with
  | Some i =>
      match ci_workload i with
      | Some w => judgeWorkload o (w_uid (it_workload (ci_target i))) w b final
      | None => judgeContainer o b final
      end
  | None => judgeContainer o b final
  end.

(** The loop of [Judge]: still complete, the verdict and its detail. *)
Fixpoint judge_loop (obs : list Observation) (baseline : gmap string ServiceBaseline) (final : bool)
    (complete : bool) (verdict detail : string) : bool * string * string :=
  match obs with
  | [] => (complete, verdict, detail)
  | o :: obs' =>
      let '(v, reason) := judgeService o (default no_baseline (baseline !! o_service o)) final in
      if bool_decide (v = unobserved) then judge_loop obs' baseline final false verdict detail
      else if verdictRank v >? verdictRank verdict
      then judge_loop obs' baseline final complete v
             (if nonempty reason then o_service o +:+ ":" +:+ reason else o_service o)
      else judge_loop obs' baseline final complete verdict detail
  end.

Definition Judge (obs : list Observation) (baseline : gmap string ServiceBaseline) (final : bool) : string * string :=
  let '(complete, verdict, detail) := judge_loop obs baseline final true "" "" in
  if bool_decide (verdict = "") && final && complete then (VerdictHealthy, "") else (verdict, detail).

(** [None]: some service was neither inspected nor known gone or replaced. *)
Fixpoint baseline_loop (obs : list Observation) (out : gmap string ServiceBaseline) : option (gmap string ServiceBaseline) :=
  match obs with
  | [] => Some out
  | o :: obs' =>
      match o_inspection o with
      | Some i =>
          match ci_workload i with
          | Some w =>
              if negb (ws_missing w) && bool_decide (ws_uid w = w_uid (it_workload (ci_target i)))
                 && (ws_generation w <=? o_generation o)
              then baseline_loop obs' (<[o_service o := mkBaseline "" 0 (workloadPods w)]> out)
              else baseline_loop obs' out
          | None =>
              baseline_loop obs' (<[o_service o := mkBaseline (it_container (ci_target i)) (ci_restarts i) ∅]> out)
          end
      | None =>
          if negb (bool_decide (o_presence o = PresenceGone)) && negb (bool_decide (o_presence o = PresenceReplaced))
          then None else baseline_loop obs' out
      end
  end.
Definition BaselineOf (obs : list Observation) : option (gmap string ServiceBaseline) := baseline_loop obs ∅.

(** ** Presence *)

Record boundResource := mkBound { br_container : string; br_name : string }.

Definition presence (id : DeploymentIdentity) (bound : gmap string boundResource)
    (snap : option Snapshot) : string :=
  match bound !! id_service id with
  | None => PresenceReplaced
  | Some r =>
      if negb (bool_decide (br_container r = id_container id)) then PresenceReplaced
      else match snap with
      | None => PresenceUnknown
      | Some cs =>
          if existsb (fun c => bool_decide (ct_id c = id_container id)) (sn_containers cs) then PresencePresent
          else if existsb (fun c => bool_decide (ct_name c = br_name r)) (sn_containers cs) then PresenceReplaced
          else PresenceGone
      end
  end.

(** ** Properties *)

Definition failing_verdicts : list string := [VerdictUnhealthy; VerdictRestarting; VerdictExited; VerdictChanged].

(** What one service may be judged: passing, unobserved, or one of the failing verdicts. *)
Lemma judgeService_range o b final :
  (judgeService o b final).1 = "" \/ (judgeService o b final).1 = unobserved \/
  (judgeService o b final).1 ∈ failing_verdicts.
Proof.
  assert (Hin : forall v, v ∈ failing_verdicts -> v = "" \/ v = unobserved \/ v ∈ failing_verdicts) by auto.
  assert (Hc : (judgeContainer o b final).1 = "" \/ (judgeContainer o b final).1 = unobserved \/
               (judgeContainer o b final).1 ∈ failing_verdicts).
  { unfold judgeContainer. repeat (case_match; simpl; auto); right; right; set_solver. }
  unfold judgeService. destruct (o_inspection o) as [i|]; [|done].
  destruct (ci_workload i) as [w|]; [|done].
  unfold judgeWorkload. repeat (case_match; simpl; auto); right; right; set_solver.
Qed.

Lemma rank_failing v : v ∈ failing_verdicts -> 1 <= verdictRank v <= 4.
Proof.
  unfold failing_verdicts. rewrite !elem_of_cons, elem_of_nil.
  intros [->|[->|[->|[->|[]]]]]; vm_compute; split; discriminate.
Qed.
Lemma rank_none : verdictRank "" = 0 /\ verdictRank unobserved = 0.
Proof. split; reflexivity. Qed.

(** How [Judge] names the service that decided. *)
Definition detail_of (o : Observation) (reason : string) : string :=
  if nonempty reason then o_service o +:+ ":" +:+ reason else o_service o.

Definition judged (baseline : gmap string ServiceBaseline) (final : bool) (o : Observation) : string * string :=
  judgeService o (default no_baseline (baseline !! o_service o)) final.

Lemma judge_loop_spec obs baseline final complete verdict detail complete' verdict' detail' :
  verdict = "" \/ verdict ∈ failing_verdicts ->
  judge_loop obs baseline final complete verdict detail = (complete', verdict', detail') ->
  complete' = complete && forallb (fun o => negb (bool_decide ((judged baseline final o).1 = unobserved))) obs /\
  (verdict' = "" \/ verdict' ∈ failing_verdicts) /\
  verdictRank verdict <= verdictRank verdict' /\
  (forall o, o ∈ obs -> verdictRank (judged baseline final o).1 <= verdictRank verdict') /\
  ((verdict' = verdict /\ detail' = detail) \/
   exists o, o ∈ obs /\ (judged baseline final o).1 = verdict' /\ verdict' ∈ failing_verdicts /\
     detail' = detail_of o (judged baseline final o).2).
Proof.
  revert complete verdict detail; induction obs as [|o obs IH]; intros complete verdict detail Hv; cbn [judge_loop].
  - intros [= <- <- <-]. rewrite andb_true_r. split_and!; try done; [intros o ?%elem_of_nil; done|by left].
  - fold (judged baseline final o). destruct (judged baseline final o) as [v reason] eqn:Ej.
    pose proof (judgeService_range o (default no_baseline (baseline !! o_service o)) final) as Hr.
    fold (judged baseline final o) in Hr. rewrite Ej in Hr. cbn [fst] in Hr.
    destruct rank_none as [R0 R1]. cbn [forallb]. rewrite Ej. cbn [fst].
    case_bool_decide as Hun.
    + subst v. intros H. destruct (IH _ _ _ Hv H) as (-> & ? & ? & Hmax & Hw).
      split_and!; try done.
      * simpl. by rewrite andb_false_r.
      * intros x [->|Hx]%elem_of_cons; [rewrite Ej; simpl; rewrite R1|by apply Hmax].
        assert (0 <= verdictRank verdict); [|lia].
        destruct Hv as [->|Hv]; [rewrite R0; lia|apply rank_failing in Hv; lia].
      * destruct Hw as [?|(x & ? & ?)]; [by left|right; exists x; split; [by right|done]].
    + destruct (Z.gtb_spec (verdictRank v) (verdictRank verdict)) as [Hgt|Hle].
      * assert (Hf : v ∈ failing_verdicts).
        { destruct Hr as [->|[->|?]]; [|done|done]. exfalso. rewrite R0 in Hgt.
          destruct Hv as [->|Hv]; [rewrite R0 in Hgt; lia|apply rank_failing in Hv; lia]. }
        intros H. destruct (IH _ _ _ (or_intror Hf) H) as (-> & ? & ? & Hmax & Hw). split_and!; try done; [lia| |].
        -- intros x [->|Hx]%elem_of_cons; [rewrite Ej; simpl; lia|by apply Hmax].
        -- right. destruct Hw as [[-> ->]|(x & ? & ?)].
           ++ exists o. rewrite Ej. split_and!; try done. left.
           ++ exists x. split; [by right|done].
      * intros H. destruct (IH _ _ _ Hv H) as (-> & ? & ? & Hmax & Hw). split_and!; try done.
        -- intros x [->|Hx]%elem_of_cons; [rewrite Ej; simpl; lia|by apply Hmax].
        -- destruct Hw as [?|(x & ? & ?)]; [by left|right; exists x; split; [by right|done]].
Qed.

(** One poll gets the strongest verdict of its services.  A verdict other than healthy is a
    service's own, no other service's is stronger, and the detail names that service; healthy
    is said exactly at the window's end when every service was observed and passes; before
    the end, a poll where nothing fails says nothing. *)
Theorem Judge_strongest obs baseline final v d :
  Judge obs baseline final = (v, d) ->
  (v = VerdictHealthy <-> final = true /\ forall o, o ∈ obs -> (judged baseline final o).1 = "") /\
  (v = VerdictHealthy -> d = "") /\
  (v <> VerdictHealthy -> v <> "" ->
     exists o, o ∈ obs /\ (judged baseline final o).1 = v /\ d = detail_of o (judged baseline final o).2 /\
       v ∈ failing_verdicts /\
       forall o', o' ∈ obs -> verdictRank (judged baseline final o').1 <= verdictRank v) /\
  (v = "" -> forall o, o ∈ obs -> (judged baseline final o).1 = "" \/ (judged baseline final o).1 = unobserved).
Proof.
  unfold Judge. destruct (judge_loop obs baseline final true "" "") as [[complete verdict] detail] eqn:E.
  destruct (judge_loop_spec _ _ _ _ _ _ _ _ _ (or_introl eq_refl) E) as (Hc & Hv & _ & Hmax & Hw).
  destruct rank_none as [R0 R1]. simpl in Hc.
  assert (Hpass : verdict = "" -> forall o, o ∈ obs ->
    (judged baseline final o).1 = "" \/ (judged baseline final o).1 = unobserved).
  { intros -> o Ho. specialize (Hmax o Ho). rewrite R0 in Hmax.
    destruct (judgeService_range o (default no_baseline (baseline !! o_service o)) final) as [?|[?|Hf]]; auto.
    fold (judged baseline final o) in Hf. apply rank_failing in Hf. lia. }
  assert (Hnh : VerdictHealthy ∉ failing_verdicts) by (apply (bool_decide_eq_true_1 _); vm_compute; reflexivity).
  assert (Hall : (forall o, o ∈ obs -> (judged baseline final o).1 = "") -> verdict = "" /\ complete = true).
  { intros H. split.
    - destruct Hw as [[-> _]|(o & Ho & Heq & _)]; [done|]. by rewrite <- Heq, H.
    - rewrite Hc. apply forallb_forall. intros o Ho%list_elem_of_In. by rewrite H. }
  destruct (bool_decide (verdict = "") && final && complete) eqn:Eh; intros [= <- <-].
  - rewrite !andb_true_iff, bool_decide_eq_true in Eh. destruct Eh as [[-> ->] ->]. split_and!; try done.
    split; [|done]. intros _. split; [done|]. intros o Ho.
    destruct (Hpass eq_refl o Ho) as [?|Hun]; [done|]. exfalso. symmetry in Hc.
    rewrite forallb_forall in Hc. specialize (Hc o (proj1 (list_elem_of_In _ _) Ho)). by rewrite Hun in Hc.
  - split_and!.
    + split.
      * intros ->. exfalso. destruct Hv as [?|?]; done.
      * intros [-> H]. exfalso. destruct (Hall H) as [-> ->]. done.
    + intros ->. exfalso. destruct Hv as [?|?]; done.
    + intros _ Hne. destruct Hw as [[-> _]|(o & Ho & Heq & Hf & Hd)]; [done|].
      exists o. split_and!; try done.
    + intros ->. by apply Hpass.
Qed.

(** A service the first observation says nothing of. *)
Definition unseen (o : Observation) : bool :=
  bool_decide (o_inspection o = None) && negb (bool_decide (o_presence o = PresenceGone))
  && negb (bool_decide (o_presence o = PresenceReplaced)).

(** The Deployment is gone, recreated or edited past the settled generation. *)
Definition moved (o : Observation) (i : ContainerInspection) (w : WorkloadStatus) : bool :=
  ws_missing w || negb (bool_decide (ws_uid w = w_uid (it_workload (ci_target i)))) || (ws_generation w >? o_generation o).

(** What the first observation records of one service. *)
Definition baseline_entry (o : Observation) : option ServiceBaseline :=
  match o_inspection o with
  | Some i =>
      match ci_workload i with
      | Some w => if moved o i w then None else Some (mkBaseline "" 0 (workloadPods w))
      | None => Some (mkBaseline (it_container (ci_target i)) (ci_restarts i) ∅)
      end
  | None => None
  end.

Lemma baseline_step o obs out :
  baseline_loop (o :: obs) out =
    if unseen o then None
    else baseline_loop obs (match baseline_entry o with Some e => <[o_service o := e]> out | None => out end).
Proof.
  cbn [baseline_loop]. unfold unseen, baseline_entry.
  destruct (o_inspection o) as [i|]; [|by destruct (_ && _)]. rewrite bool_decide_false by done. simpl.
  destruct (ci_workload i) as [w|]; [|done]. unfold moved.
  rewrite Z.gtb_ltb. rewrite (Z.leb_antisym (o_generation o) (ws_generation w)).
  by destruct (ws_missing w), (bool_decide _), (o_generation o <? ws_generation w).
Qed.

Lemma baseline_loop_spec obs out :
  NoDup (map o_service obs) ->
  match baseline_loop obs out with
  | Some b =>
      Forall (fun o => unseen o = false) obs /\
      (forall o e, o ∈ obs -> baseline_entry o = Some e -> b !! o_service o = Some e) /\
      (forall s, s ∉ map o_service obs -> b !! s = out !! s)
  | None => Exists (fun o => unseen o = true) obs
  end.
Proof.
  revert out; induction obs as [|o obs IH]; intros out Hnd.
  - simpl. split_and!; [constructor|intros ? ? ?%elem_of_nil; done|done].
  - cbn [map] in Hnd. apply NoDup_cons in Hnd as [Hni Hnd]. rewrite baseline_step.
    destruct (unseen o) eqn:Eu; [by constructor|].
    set (out' := match baseline_entry o with Some e => <[o_service o := e]> out | None => out end).
    specialize (IH out' Hnd). destruct (baseline_loop obs out') as [b|]; [|by constructor 2].
    destruct IH as (Hall & Hin & Hout). split_and!.
    + by constructor.
    + intros x e [->|Hx]%elem_of_cons He; [|by apply Hin]. rewrite Hout by done. unfold out'. rewrite He.
      apply lookup_insert_eq.
    + intros s Hs. cbn [map] in Hs. apply not_elem_of_cons in Hs as [Hs1 Hs2]. rewrite Hout by done.
      unfold out'. destruct (baseline_entry o); [by rewrite lookup_insert_ne|done].
Qed.

Lemma pods_not_restarted pods : pod_restarted (mkBaseline "" 0 pods) pods = false.
Proof.
  unfold pod_restarted. apply not_true_iff_false. rewrite existsb_exists. intros ([k n] & Hin & Hgt).
  apply list_elem_of_In, elem_of_map_to_list in Hin. simpl in Hgt. rewrite Hin in Hgt. simpl in Hgt. lia.
Qed.

(** A window starts clean.  The first observation gives a baseline exactly when every
    service was inspected or is known gone or replaced; judged against its own baseline, no
    service of it is restarting but a container the runtime reports as restarting at that
    moment, so restarts from before the window never fail it. *)
Theorem BaselineOf_clean obs :
  NoDup (map o_service obs) ->
  match BaselineOf obs with
  | Some b =>
      (forall o, o ∈ obs -> unseen o = false) /\
      (forall o final, o ∈ obs -> (judged b final o).1 = VerdictRestarting ->
         exists i, o_inspection o = Some i /\ ci_workload i = None /\ ci_state i = "restarting")
  | None => exists o, o ∈ obs /\ unseen o = true
  end.
Proof.
  intros Hnd. unfold BaselineOf. pose proof (baseline_loop_spec obs ∅ Hnd) as H.
  destruct (baseline_loop obs ∅) as [b|]; [|by apply Exists_exists in H].
  destruct H as (Hall & Hin & _). split; [by apply Forall_forall|].
  intros o final Ho. unfold judged, judgeService. specialize (Hin o). unfold baseline_entry in Hin.
  destruct (o_inspection o) as [i|] eqn:Hi.
  - destruct (ci_workload i) as [w|] eqn:Hw.
    + unfold judgeWorkload. fold (moved o i w). destruct (moved o i w); [done|].
      rewrite (Hin _ Ho eq_refl). simpl. rewrite pods_not_restarted.
      repeat (case_match; simpl; try done).
    + rewrite (Hin _ Ho eq_refl). simpl. unfold judgeContainer. rewrite Hi. simpl.
      repeat case_bool_decide; try done; intros; try (by eauto);
        repeat (case_match; simplify_eq/=); try done;
        rewrite Z.gtb_ltb, Z.ltb_irrefl in *; simpl in *; repeat case_match; try done.
  - unfold judgeContainer. rewrite Hi. by repeat case_bool_decide.
Qed.

(** ** Witnesses *)

Definition demo_answer (state health : string) (restarts : Z) : ContainerInspection :=
  mkInspection (mkTarget "c" "i" 1 no_workload) 0 state health restarts (mkPlatform "linux" "amd64" "")
    "no" 0 [] (mkMountCounts 0 0 0 0 0) "bridge" 1 false false false [] true None.
Definition demo_poll : list Observation :=
  [mkObservation "web" PresencePresent (Some (demo_answer "running" "healthy" 4)) 0;
   mkObservation "db" PresencePresent (Some (demo_answer "running" "unhealthy" 0)) 0].

Lemma Judge_strongest_witness :
  Judge demo_poll ∅ false = (VerdictRestarting, "web") /\
  exists o, o ∈ demo_poll /\ (judged ∅ false o).1 = VerdictRestarting.
Proof.
  assert (H : Judge demo_poll ∅ false = (VerdictRestarting, "web")) by (vm_compute; reflexivity).
  split; [exact H|].
  destruct (Judge_strongest demo_poll ∅ false VerdictRestarting "web" H) as (_ & _ & Hs & _).
  destruct Hs as (o & Ho & Hj & _); [discriminate|discriminate|]. exists o. split; [exact Ho|exact Hj].
Defined.

Lemma BaselineOf_clean_witness :
  (exists b, BaselineOf demo_poll = Some b) /\ forall o, o ∈ demo_poll -> unseen o = false.
Proof.
  pose proof (BaselineOf_clean demo_poll) as H.
  assert (Hnd : NoDup (map o_service demo_poll)) by (apply (bool_decide_eq_true_1 _); vm_compute; reflexivity).
  specialize (H Hnd). destruct (BaselineOf demo_poll) as [b|] eqn:E.
  - split; [exists b; reflexivity|]. apply H.
  - vm_compute in E. discriminate E.
Defined.
