(* ===== verification/Validations.v ===== *)
(** * Health validations and rollback decisions

    The stateful half of internal/store/validations.go: opening a validation when an apply
    settles, its observation, its verdict, the rollback named and decided on it, and what a
    restart makes of the rows the previous process left.  [validation_row_ok] is the CHECK
    clauses of the table. *)
From Stdlib Require Import ZArith Lia Ascii String.
From stdpp Require Import base gmap strings list sorting.
From S2P Require Import Prelude.
From S2P Require Import Text.
From S2P Require Import Permissions.
From S2P Require Import Store.
From S2P Require Import TenantAccess.
From S2P Require Import Schedule.
From S2P Require Import Policies.
From S2P Require Import Json.
From S2P Require Import Judge.

Definition ValidationGrace : Z := 30 * Second.
Definition ValidationWindow : Z := 2 * Minute.
Definition AuditValidation : string := "application.validation".
Definition maxBaselineBytes : Z := 32768.

Definition PhaseGrace : string := "grace".
Definition PhaseObserving : string := "observing".
Definition PhaseDone : string := "done".

Definition RollbackApplied : string := "applied".
Definition RollbackIneligible : string := "ineligible".
Definition RollbackFailed : string := "failed".
Definition RollbackInterrupted : string := "interrupted".

Definition ValidationDetailServerDown : string := "the server was not running during the window".
Definition ValidationReasonRolledBack : string := "rolled back after a failed update".
Definition ValidationReasonNotRolledBack : string := "update failed and could not be rolled back: ".
Definition ValidationReasonUnverified : string := "update could not be validated: ".

Definition validationResults : list (string * string) :=
  [(VerdictHealthy, "success"); (VerdictUnhealthy, "failure"); (VerdictExited, "failure");
   (VerdictRestarting, "failure"); (VerdictUnverifiable, "failure"); (VerdictChanged, "failure")].

Definition rollbackVerdicts (v : string) : bool :=
  bool_decide (v ∈ [VerdictUnhealthy; VerdictExited; VerdictRestarting]).

Definition v_done (v : ValidationRow) : bool := bool_decide (v_phase v = PhaseDone).
Definition undecided (v : ValidationRow) : bool := bool_decide (v_rollback_outcome v = "").

Definition awaitingRollback (v : ValidationRow) : bool :=
  v_done v && v_automated v && negb (v_is_rollback v) && bool_decide (is_Some (v_run v))
  && rollbackVerdicts (v_verdict v) && undecided v && bool_decide (v_rollback v = None).

Definition validation_row_ok (v : ValidationRow) : bool :=
  bool_decide (v_phase v ∈ [PhaseGrace; PhaseObserving; PhaseDone]) &&
  bool_decide (v_verdict v ∈ "" :: map fst validationResults) &&
  (char_length (v_detail v) <=? 255) && (char_length (v_baseline v) <=? 32768) &&
  bool_decide (v_rollback_outcome v ∈ [""; RollbackApplied; RollbackIneligible; RollbackFailed]) &&
  (char_length (v_rollback_detail v) <=? 255) && btw 1 64 (char_length (v_correlation v)) &&
  (bool_decide (v_run v = None) || v_automated v).

(** The partial unique index on [rollback_deployment_id]. *)
Definition rollback_free (v : ValidationRow) (db : DB) : bool :=
  match v_rollback v with
  | None => true
  | Some r => count (fun w => bool_decide (v_rollback w = Some r) && negb (bool_decide (v_id w = v_id v))) (validations db) =? 0
  end.

Definition put_validation (v : ValidationRow) : tx unit :=
  free ← gets (rollback_free v);
  _ ← ensure free ErrUnique;
  _ ← ensure (validation_row_ok v) ErrConstraint;
  modify (fun db => set_validations (<[v_id v := v]> (validations db)) db).

Definition insert_validation (v : ValidationRow) : tx unit :=
  free ← gets (fun db => bool_decide (validations db !! v_id v = None));
  _ ← ensure free ErrUnique;
  known ← gets (fun db => bool_decide (is_Some (deployments db !! v_id v))
                  && match v_run v with Some r => bool_decide (is_Some (runs db !! r)) | None => true end);
  _ ← ensure known ErrConstraint;
  put_validation v.

(** [UPDATE deployment_validations SET f WHERE deployment_id=? AND guard]: the rows affected. *)
Definition update_validation (id : string) (guard : ValidationRow -> bool) (f : ValidationRow -> ValidationRow) : tx Z :=
  row ← gets (fun db => validations db !! id);
  match row with
  | Some v => if guard v then _ ← put_validation (f v); mret 1 else mret 0
  | None => mret 0
  end.
Definition updateOne (update : tx Z) : tx unit := n ← update; ensure (n =? 1) ErrNotFound.

Definition with_observing (baseline : string) (v : ValidationRow) : ValidationRow :=
  mkValidation (v_id v) (v_org v) (v_env v) (v_app v) (v_instance v) (v_endpoint v) (v_run v) (v_automated v)
    (v_is_rollback v) PhaseObserving (v_started v) (v_until v) (v_verdict v) (v_detail v) baseline (v_rollback v)
    (v_rollback_outcome v) (v_rollback_detail v) (v_correlation v) (v_finished v).
Definition with_verdict (verdict detail : string) (now : time) (v : ValidationRow) : ValidationRow :=
  mkValidation (v_id v) (v_org v) (v_env v) (v_app v) (v_instance v) (v_endpoint v) (v_run v) (v_automated v)
    (v_is_rollback v) PhaseDone (v_started v) (v_until v) verdict detail (v_baseline v) (v_rollback v)
    (v_rollback_outcome v) (v_rollback_detail v) (v_correlation v) (Some now).
Definition with_rollback (rollback : string) (v : ValidationRow) : ValidationRow :=
  mkValidation (v_id v) (v_org v) (v_env v) (v_app v) (v_instance v) (v_endpoint v) (v_run v) (v_automated v)
    (v_is_rollback v) (v_phase v) (v_started v) (v_until v) (v_verdict v) (v_detail v) (v_baseline v) (Some rollback)
    (v_rollback_outcome v) (v_rollback_detail v) (v_correlation v) (v_finished v).
Definition with_outcome (outcome detail : string) (v : ValidationRow) : ValidationRow :=
  mkValidation (v_id v) (v_org v) (v_env v) (v_app v) (v_instance v) (v_endpoint v) (v_run v) (v_automated v)
    (v_is_rollback v) (v_phase v) (v_started v) (v_until v) (v_verdict v) (v_detail v) (v_baseline v) (v_rollback v)
    outcome detail (v_correlation v) (v_finished v).

(** ** Opening and observing *)

Definition insertValidation (org env app instance endpoint deployment correlation fresh : string) (settled : time) : tx unit :=
  d ← gets (fun db => deployments db !! deployment);
  row ← one d ErrNoRows;
  dispatched ← gets (fun db => count (fun v => bool_decide (v_rollback v = Some deployment)) (validations db));
  insert_validation (mkValidation deployment org env app instance endpoint (d_policy_run row)
    (bool_decide (is_Some (d_policy_run row))) (dispatched >? 0) PhaseGrace settled
    (settled + (ValidationGrace + ValidationWindow)) "" "" "" None "" ""
    (if nonempty correlation then correlation else fresh) None).

(** [json.Marshal] of the baseline; [pod_restarts] is [omitempty]. *)
Definition marshal_baseline (m : gmap string ServiceBaseline) : string :=
  json_map ((fun b => json_fields (
     [("container_id", json_string (sb_container b)); ("restart_count", json_int (sb_restarts b))] ++
     (if bool_decide (sb_pods b = ∅) then [] else [("pod_restarts", json_map (json_int <$> sb_pods b))]))) <$> m).

Definition BeginObservation (deployment : string) (baseline : gmap string ServiceBaseline) (db : DB)
    : res StoreErr unit * DB :=
  let raw := marshal_baseline baseline in
  if len raw >? maxBaselineBytes then (Fail ErrInvalid, db)
  else commit (updateOne (update_validation deployment (fun v => bool_decide (v_phase v = PhaseGrace)) (with_observing raw))) db.

(** ** Verdicts *)

(** A deleted or already paused policy is left as it is. *)
Definition pauseForValidation (run reason correlation : string) (now : time) : tx unit :=
  found ← gets (fun db => match runs db !! run with Some r => policies db !! r_policy r | None => None end);
  match found with
  | None => mret tt
  | Some p =>
      let reason := CleanText reason 255 in
      n ← update_policy (p_id p) active (paused_for reason now);
      if n =? 0 then mret tt
      else auditPolicy (p_org p) (p_env p) (p_app p +:+ "/policies/" +:+ p_id p) AuditPolicyPaused reason "failure" correlation now
  end.

Definition finishValidation (deployment verdict detail : string) (now : time) : tx bool :=
  row ← gets (fun db => validations db !! deployment);
  v ← one row ErrNotFound;
  _ ← ensure (negb (v_done v)) ErrNotFound;
  let detail := CleanText detail 255 in
  _ ← updateOne (update_validation deployment (fun v => negb (v_done v)) (with_verdict verdict detail now));
  _ ← auditPolicy (v_org v) (v_env v) (v_app v +:+ "/deployments/" +:+ deployment) AuditValidation verdict
        (map_get validationResults verdict) (v_correlation v) now;
  match v_run v with
  | Some run =>
      if negb (v_automated v) || v_is_rollback v then mret false
      else if bool_decide (verdict = VerdictUnverifiable) then
        _ ← pauseForValidation run (ValidationReasonUnverified +:+ detail) (v_correlation v) now;
        mret false
      else mret (rollbackVerdicts verdict)
  | None => mret false
  end.

Definition FinishValidation (deployment verdict detail : string) (now : time) (db : DB) : res StoreErr bool * DB :=
  if negb (map_has validationResults verdict) then (Fail ErrInvalid, db)
  else commit (finishValidation deployment verdict detail now) db.

(** ** Rollback decisions *)

Definition MarkRollbackPlanned (deployment rollback : string) : DB -> res StoreErr unit * DB :=
  commit (updateOne (update_validation deployment awaitingRollback (with_rollback rollback))).

Definition markRollbackOutcome (deployment outcome detail : string) (now : time) : tx unit :=
  row ← gets (fun db => validations db !! deployment);
  v ← one row ErrNotFound;
  _ ← ensure (v_done v && v_automated v && negb (v_is_rollback v) && undecided v) ErrNotFound;
  _ ← ensure (negb (bool_decide (outcome = RollbackApplied) && negb (nonempty (default "" (v_rollback v))))) ErrInvalid;
  let detail := CleanText detail 255 in
  _ ← updateOne (update_validation deployment (fun v => undecided v && rollbackVerdicts (v_verdict v)) (with_outcome outcome detail));
  match v_run v with
  | None => mret tt
  | Some run =>
      let reason := if bool_decide (outcome = RollbackApplied) then ValidationReasonRolledBack
                    else ValidationReasonNotRolledBack +:+ detail in
      pauseForValidation run reason (v_correlation v) now
  end.

Definition MarkRollbackOutcome (deployment outcome detail : string) (now : time) (db : DB) : res StoreErr unit * DB :=
  if bool_decide (outcome ∈ [RollbackApplied; RollbackIneligible; RollbackFailed])
  then commit (markRollbackOutcome deployment outcome detail now) db
  else (Fail ErrInvalid, db).

(** The state of a validation's rollback deployment, "" when the row is gone. *)
Definition rollback_state (db : DB) (v : ValidationRow) : string :=
  match v_rollback v with Some r => default "" (d_state <$> deployments db !! r) | None => "" end.
Definition named_undecided (v : ValidationRow) : bool := bool_decide (is_Some (v_rollback v)) && undecided v.
Definition rollback_in_flight (db : DB) (now : time) (v : ValidationRow) : bool :=
  bool_decide (rollback_state db v = "applying") ||
  (bool_decide (rollback_state db v = "planned") &&
   match v_rollback v with Some r => match deployments db !! r with Some d => d_expires d >? now | None => false end | None => false end).
Definition succeeded (db : DB) (v : ValidationRow) : bool :=
  named_undecided v && bool_decide (rollback_state db v = "succeeded").
Definition interrupted (db : DB) (now : time) (v : ValidationRow) : bool :=
  named_undecided v && negb (bool_decide (rollback_state db v = "succeeded")) && negb (rollback_in_flight db now v).

Definition validationIDs (p : DB -> ValidationRow -> bool) : tx (list string) :=
  gets (fun db => map v_id (select_by v_started v_id (p db) (validations db))).

Definition decideNamedRollbacks (now : time) : tx unit :=
  applied ← validationIDs succeeded;
  _ ← tx_iter (fun id => markRollbackOutcome id RollbackApplied "" now) applied;
  failed ← validationIDs (fun db => interrupted db now);
  tx_iter (fun id => markRollbackOutcome id RollbackFailed RollbackInterrupted now) failed.

Definition DecideNamedRollbacks (now : time) : DB -> res StoreErr unit * DB := commit (decideNamedRollbacks now).

Definition reconcileValidations (now : time) : tx unit :=
  missed ← validationIDs (fun _ v => bool_decide (v_phase v = PhaseGrace) && (v_until v <? now));
  _ ← tx_iter (fun id => _ ← finishValidation id VerdictUnverifiable ValidationDetailServerDown now; mret tt) missed;
  decideNamedRollbacks now.

(** ** The invariant of a validation

    A validation is open with nothing decided, or done with a verdict; only an automated,
    failing one that is not itself a rollback ever names or decides a rollback. *)
Record VInv (v : ValidationRow) : Prop := {
  vi_ok : validation_row_ok v = true;
  vi_open : v_phase v <> PhaseDone -> v_verdict v = "" /\ v_rollback v = None /\ v_rollback_outcome v = "" /\ v_finished v = None;
  vi_done : v_phase v = PhaseDone -> map_has validationResults (v_verdict v) = true /\ is_Some (v_finished v);
  vi_named : is_Some (v_rollback v) \/ v_rollback_outcome v <> "" ->
    v_automated v = true /\ v_is_rollback v = false /\ rollbackVerdicts (v_verdict v) = true;
  vi_id : forall r, v_rollback v = Some r -> r <> "";
  vi_applied : v_rollback_outcome v = RollbackApplied -> is_Some (v_rollback v) }.

Record ValInv (db : DB) : Prop := {
  val_keys : keyed v_id (validations db);
  val_rows : forall k v, validations db !! k = Some v -> VInv v;
  val_unique : forall k k' v v' r, validations db !! k = Some v -> validations db !! k' = Some v' ->
    v_rollback v = Some r -> v_rollback v' = Some r -> k = k' }.

Lemma ValInv_ext db db' : validations db' = validations db -> ValInv db -> ValInv db'.
Proof. intros H []. by split; rewrite ?H. Qed.

Lemma rollback_free_spec v db :
  keyed v_id (validations db) ->
  rollback_free v db = true <->
  forall r, v_rollback v = Some r -> forall k w, validations db !! k = Some w -> v_rollback w = Some r -> k = v_id v.
Proof.
  intros Hk. unfold rollback_free. destruct (v_rollback v) as [r|]; [|naive_solver].
  rewrite Z.eqb_eq, count_zero. split.
  - intros H r' [= <-] k w Hw Hr. specialize (H k w Hw). cbv beta in H. rewrite bool_decide_true in H by done.
    simpl in H. apply negb_false_iff, bool_decide_eq_true in H. rewrite <- H. symmetry. by apply Hk.
  - intros H k w Hw. case_bool_decide as Hr; [|done]. simpl. apply negb_false_iff, bool_decide_eq_true.
    rewrite (Hk _ _ Hw). by eapply H.
Qed.

Lemma ValInv_set db v :
  ValInv db -> VInv v -> rollback_free v db = true ->
  ValInv (set_validations (<[v_id v := v]> (validations db)) db).
Proof.
  intros [Hk Hr Hu] Hv Hfree. rewrite (rollback_free_spec v db Hk) in Hfree. split; simpl.
  - by apply keyed_insert.
  - intros k w. rewrite lookup_insert_Some. intros [[_ <-]|[_ ?]]; eauto.
  - intros k k' w w' r. rewrite !lookup_insert_Some.
    intros [[<- <-]|[? H1]] [[<- <-]|[? H2]] E1 E2; try done.
    + symmetry. by eapply Hfree.
    + by eapply Hfree.
    + by eapply Hu.
Qed.

Lemma put_validation_ok v db u db' :
  put_validation v db = Ok (u, db') ->
  rollback_free v db = true /\ validation_row_ok v = true /\
  db' = set_validations (<[v_id v := v]> (validations db)) db.
Proof. unfold put_validation. intros H. tx_inv H. done. Qed.

Lemma put_validation_run v db :
  rollback_free v db = true -> validation_row_ok v = true ->
  put_validation v db = Ok (tt, set_validations (<[v_id v := v]> (validations db)) db).
Proof.
  intros Hf Hok. unfold put_validation. erewrite bind_run by reflexivity. rewrite Hf.
  erewrite bind_run by reflexivity. rewrite Hok. reflexivity.
Qed.

Lemma updateOne_ok id guard f db u db' :
  updateOne (update_validation id guard f) db = Ok (u, db') ->
  exists v, validations db !! id = Some v /\ guard v = true /\ rollback_free (f v) db = true /\
    validation_row_ok (f v) = true /\ db' = set_validations (<[v_id (f v) := f v]> (validations db)) db.
Proof.
  unfold updateOne, update_validation. intros H. tx_inv H.
  destruct (validations db !! id) as [v|] eqn:Hv; [|match goal with H : mret 0 _ = _ |- _ => tx_inv H end; done].
  destruct (guard v) eqn:Hgd; [|match goal with H : mret 0 _ = _ |- _ => tx_inv H end; done].
  match goal with H : (put_validation _ ≫= _) _ = _ |- _ => tx_inv H end.
  match goal with H : put_validation _ _ = _ |- _ => apply put_validation_ok in H as (? & ? & ->) end. eauto 10.
Qed.

Lemma updateOne_run id guard f db v :
  validations db !! id = Some v -> guard v = true -> rollback_free (f v) db = true ->
  validation_row_ok (f v) = true -> v_id (f v) = id ->
  updateOne (update_validation id guard f) db = Ok (tt, set_validations (<[id := f v]> (validations db)) db).
Proof.
  intros Hv Hg Hf Hok Hid. unfold updateOne.
  assert (Hu : update_validation id guard f db = Ok (1, set_validations (<[id := f v]> (validations db)) db)).
  { unfold update_validation. erewrite bind_run by reflexivity. rewrite Hv, Hg.
    erewrite bind_run by (by apply put_validation_run). by rewrite Hid. }
  erewrite bind_run by exact Hu. reflexivity.
Qed.

(** A change that leaves the named rollback as it was keeps it unique. *)
Lemma rollback_free_same db v w k :
  ValInv db -> validations db !! k = Some v -> v_id w = v_id v -> v_rollback w = v_rollback v ->
  rollback_free w db = true.
Proof.
  intros [Hk Hr Hu] Hv Hid Hro. apply (rollback_free_spec w db Hk). rewrite Hro, Hid, (Hk _ _ Hv).
  intros r Hr' k' w' Hw' Hr''. by eapply Hu.
Qed.

Lemma validation_row_ok_update v w :
  validation_row_ok v = true ->
  v_phase w ∈ [PhaseGrace; PhaseObserving; PhaseDone] -> v_verdict w ∈ "" :: map fst validationResults ->
  char_length (v_detail w) <= 255 -> char_length (v_baseline w) <= 32768 ->
  v_rollback_outcome w ∈ [""; RollbackApplied; RollbackIneligible; RollbackFailed] ->
  char_length (v_rollback_detail w) <= 255 -> v_correlation w = v_correlation v ->
  v_run w = v_run v \/ v_run w = None -> v_automated w = v_automated v -> validation_row_ok w = true.
Proof.
  unfold validation_row_ok. rewrite !andb_true_iff, !orb_true_iff, !bool_decide_eq_true, !Z.leb_le.
  intros (((((((? & ?) & ?) & ?) & ?) & ?) & ?) & Ha) ? ? ? ? ? ? -> Hrun ->.
  split_and!; try done. destruct Hrun as [->| ->]; [done|by left].
Qed.

Lemma validation_row_parts v :
  validation_row_ok v = true ->
  v_phase v ∈ [PhaseGrace; PhaseObserving; PhaseDone] /\ v_verdict v ∈ "" :: map fst validationResults /\
  char_length (v_detail v) <= 255 /\ char_length (v_baseline v) <= 32768 /\
  v_rollback_outcome v ∈ [""; RollbackApplied; RollbackIneligible; RollbackFailed] /\
  char_length (v_rollback_detail v) <= 255.
Proof.
  unfold validation_row_ok. rewrite !andb_true_iff, !bool_decide_eq_true, !Z.leb_le. tauto.
Qed.

Lemma map_has_key m k : map_has m k = true -> k ∈ map fst m.
Proof.
  unfold map_has. rewrite existsb_exists. intros (kv & Hin & Hk). apply bool_decide_eq_true in Hk as <-.
  apply list_elem_of_fmap. exists kv. split; [done|by apply list_elem_of_In].
Qed.

#[local] Ltac row_update :=
  eapply validation_row_ok_update;
  cbn [with_observing with_verdict with_rollback with_outcome v_phase v_verdict v_detail v_baseline
       v_rollback_outcome v_rollback_detail v_correlation v_run v_automated]; eauto.

Lemma VInv_observing baseline v :
  VInv v -> v_phase v = PhaseGrace -> char_length baseline <= 32768 -> VInv (with_observing baseline v).
Proof.
  intros [Hok Ho Hd Hn Hid Ha] Hp Hb. pose proof (validation_row_parts v Hok) as (?&?&?&?&?&?).
  destruct Ho as (E1 & E2 & E3 & E4); [by rewrite Hp|].
  split; simpl; try done.
  - row_update. set_solver.
Qed.

Lemma VInv_verdict verdict detail now v :
  VInv v -> v_done v = false -> map_has validationResults verdict = true -> char_length detail <= 255 ->
  VInv (with_verdict verdict detail now v).
Proof.
  intros [Hok Ho Hd Hn Hid Ha] Hnd Hv Hl. pose proof (validation_row_parts v Hok) as (?&?&?&?&?&?).
  unfold v_done in Hnd. gobool. destruct (Ho Hnd) as (E1 & E2 & E3 & E4).
  split; simpl; rewrite ?E2, ?E3; try done.
  - row_update; [set_solver|]. apply elem_of_cons. right. by apply map_has_key.
  - intros [[? ?]|?]; done.
Qed.

Lemma VInv_named rollback v : VInv v -> awaitingRollback v = true -> rollback <> "" -> VInv (with_rollback rollback v).
Proof.
  intros [Hok Ho Hd Hn Hid Ha] Haw Hne. unfold awaitingRollback, v_done, undecided in Haw. gobool.
  pose proof (validation_row_parts v Hok) as (?&?&?&?&?&?).
  split; simpl; try done. by intros r [= <-].
Qed.

Lemma rollback_failing v : rollbackVerdicts v = true -> v <> "" /\ v <> VerdictUnverifiable.
Proof.
  unfold rollbackVerdicts. rewrite bool_decide_eq_true, !elem_of_cons, elem_of_nil.
  intros [->|[->|[->|[]]]]; done.
Qed.

Lemma VInv_outcome outcome detail v :
  VInv v -> v_done v = true -> v_automated v = true -> v_is_rollback v = false ->
  rollbackVerdicts (v_verdict v) = true ->
  outcome ∈ [RollbackApplied; RollbackIneligible; RollbackFailed] ->
  (outcome = RollbackApplied -> is_Some (v_rollback v)) -> char_length detail <= 255 ->
  VInv (with_outcome outcome detail v).
Proof.
  intros [Hok Ho Hd Hn Hid Ha] Hdone Hauto Hro Hver Hout Happ Hl. unfold v_done in Hdone. gobool.
  pose proof (validation_row_parts v Hok) as (?&?&?&?&?&?).
  split; simpl; try done. row_update. apply elem_of_cons. by right.
Qed.

(** ** Pausing *)

(** What a pause does to one policy: nothing, or pauses it when it is active. *)
Definition pause_only (db db' : DB) : Prop :=
  forall k, policies db' !! k = policies db !! k \/
    exists p reason now, policies db !! k = Some p /\ policies db' !! k = Some (paused_for reason now p).

#[export] Instance pause_only_preorder : PreOrder pause_only.
Proof.
  split; [intros db k; by left|]. intros a b c H1 H2 k.
  destruct (H1 k) as [Hb|(p & re & n & Ha & Hb)]; destruct (H2 k) as [Hc|(p' & re' & n' & Hb' & Hc)].
  - left. congruence.
  - right. exists p', re', n'. split; congruence.
  - right. exists p, re, n. split; congruence.
  - right. rewrite Hb in Hb'. injection Hb' as <-. by exists p, re', n'.
Qed.

(** The policy whose run made a deployment is not active. *)
Definition run_paused (run : string) (db : DB) : Prop :=
  forall r p, runs db !! run = Some r -> policies db !! r_policy r = Some p -> p_status p = PolicyPaused.

Lemma run_paused_mono run db db' : runs db' = runs db -> pause_only db db' -> run_paused run db -> run_paused run db'.
Proof.
  intros Hr Hpo Hp r p Hrun Hpol. rewrite Hr in Hrun. destruct (Hpo (r_policy r)) as [E|(q & re & n & Hq & E)].
  - rewrite E in Hpol. by eapply Hp.
  - rewrite E in Hpol. by injection Hpol as <-.
Qed.

Lemma pause_run db run reason correlation now :
  PolicyInv db ->
  exists db', pauseForValidation run reason correlation now db = Ok (tt, db') /\
    validations db' = validations db /\ deployments db' = deployments db /\ runs db' = runs db /\
    PolicyInv db' /\ pause_only db db' /\ run_paused run db'.
Proof.
  intros Hinv. unfold pauseForValidation. erewrite bind_run by reflexivity.
  destruct (match runs db !! run with Some r => policies db !! r_policy r | None => None end) as [p|] eqn:Hf.
  2:{ exists db. split_and!; try done. intros r p Hr Hp. rewrite Hr in Hf. congruence. }
  destruct (runs db !! run) as [r|] eqn:Hr; [|done].
  assert (Hk := inv_policy_keys _ Hinv _ _ Hf). rewrite Hk.
  destruct (active p) eqn:Ha.
  - erewrite bind_run.
    2:{ apply (update_policy_hit _ _ _ _ p); try done.
        apply paused_for_ok; [apply char_length_CleanText|by eapply inv_policy_ok]. }
    simpl. eexists. split; [reflexivity|]. split_and!; try done.
    + eapply PolicyInv_ext; [..|eapply (PolicyInv_set_policy db (r_policy r) p (paused_for (CleanText reason 255) now p))]; try done.
      * apply paused_for_ok; [apply char_length_CleanText|by eapply inv_policy_ok].
      * rewrite (scanPolicy_days p) by done. by eapply inv_days.
    + intros k. simpl. destruct (decide (k = r_policy r)) as [->|Hne].
      * right. rewrite lookup_insert_eq. eauto 10.
      * left. by rewrite lookup_insert_ne.
    + intros r' p' Hr' Hp'. simpl in *. assert (r' = r) as -> by congruence.
      rewrite lookup_insert_eq in Hp'. by injection Hp' as <-.
  - erewrite bind_run by (by apply (update_policy_miss _ _ _ _ p)). simpl. exists db. split_and!; try done.
    intros r' p' Hr' Hp'. assert (r' = r) as -> by congruence. assert (p' = p) as -> by congruence.
    destruct (policy_row_status p (inv_policy_ok _ Hinv _ _ Hp')) as [[Hs|Hs] _]; [|done].
    unfold active in Ha. gobool. done.
Qed.

Lemma set_validations_PolicyInv m db : PolicyInv db -> PolicyInv (set_validations m db).
Proof. by apply PolicyInv_ext. Qed.
#[export] Hint Resolve set_validations_PolicyInv : go.

(** ** A verdict, forwards *)

Definition finished (verdict detail : string) (now : time) (v : ValidationRow) : ValidationRow :=
  with_verdict verdict (CleanText detail 255) now v.

(** The rollback decision falls due. *)
Definition decision_due (verdict : string) (v : ValidationRow) : bool :=
  v_automated v && negb (v_is_rollback v) && bool_decide (is_Some (v_run v)) && rollbackVerdicts verdict.

Lemma finishValidation_run db id verdict detail now v :
  PolicyInv db -> ValInv db -> validations db !! id = Some v -> v_done v = false ->
  map_has validationResults verdict = true ->
  exists db', finishValidation id verdict detail now db = Ok (decision_due verdict v, db') /\
    validations db' = <[id := finished verdict detail now v]> (validations db) /\
    deployments db' = deployments db /\ runs db' = runs db /\ PolicyInv db' /\ ValInv db' /\ pause_only db db' /\
    (verdict = VerdictUnverifiable -> v_automated v = true -> v_is_rollback v = false ->
       forall run, v_run v = Some run -> run_paused run db').
Proof.
  intros Hp Hvi Hv Hnd Hver. assert (Hid := val_keys _ Hvi _ _ Hv). assert (Hrow := val_rows _ Hvi _ _ Hv).
  assert (Hnew := VInv_verdict verdict (CleanText detail 255) now v Hrow Hnd Hver (char_length_CleanText detail)).
  assert (Hfree : rollback_free (finished verdict detail now v) db = true).
  { by eapply (rollback_free_same db v _ id). }
  unfold finishValidation. erewrite bind_run by reflexivity. rewrite Hv. erewrite bind_run by reflexivity.
  rewrite Hnd. erewrite bind_run by reflexivity.
  erewrite bind_run.
  2:{ apply (updateOne_run id _ _ db v); try done; [by rewrite Hnd|apply Hnew]. }
  erewrite bind_run by reflexivity. fold (finished verdict detail now v).
  set (db1 := add_audit _ _).
  assert (Hp1 : PolicyInv db1) by (unfold db1; eauto with go).
  assert (Hv1 : ValInv db1).
  { eapply ValInv_ext; [|apply (ValInv_set db (finished verdict detail now v)); done].
    simpl. by rewrite Hid. }
  assert (Hpo1 : pause_only db db1) by (intros k; by left).
  unfold decision_due. destruct (v_run v) as [run|] eqn:Hrun.
  2:{ exists db1. rewrite (bool_decide_false (is_Some None)) by (by intros []).
      rewrite andb_false_r. split_and!; done. }
  destruct (v_automated v) eqn:Ea; [|exists db1; split_and!; done].
  destruct (v_is_rollback v) eqn:Er; [exists db1; split_and!; done|].
  rewrite (bool_decide_true (is_Some (Some run))) by done. cbn [negb orb andb].
  case_bool_decide as Hu.
  - subst verdict. destruct (pause_run db1 run (ValidationReasonUnverified +:+ CleanText detail 255) (v_correlation v) now Hp1)
      as (db2 & Hpause & Hval2 & Hd2 & Hr2 & Hp2 & Hpo & Hpaused).
    erewrite bind_run by exact Hpause. exists db2. split_and!; try done.
    + by eapply ValInv_ext.
    + intros _ _ _ run' [= <-]. done.
  - exists db1. split_and!; done.
Qed.


(** ** A rollback decision, forwards *)

(** A rollback decision that has fallen due and is not made. *)
Definition due (v : ValidationRow) : bool :=
  v_done v && v_automated v && negb (v_is_rollback v) && undecided v && rollbackVerdicts (v_verdict v).

Definition decided (outcome detail : string) (v : ValidationRow) : ValidationRow :=
  with_outcome outcome (CleanText detail 255) v.

Definition outcomes : list string := [RollbackApplied; RollbackIneligible; RollbackFailed].

Lemma markRollbackOutcome_run db id outcome detail now v :
  PolicyInv db -> ValInv db -> validations db !! id = Some v -> due v = true -> outcome ∈ outcomes ->
  (outcome = RollbackApplied -> is_Some (v_rollback v)) ->
  exists db', markRollbackOutcome id outcome detail now db = Ok (tt, db') /\
    validations db' = <[id := decided outcome detail v]> (validations db) /\
    deployments db' = deployments db /\ runs db' = runs db /\ PolicyInv db' /\ ValInv db' /\ pause_only db db' /\
    (forall run, v_run v = Some run -> run_paused run db').
Proof.
  intros Hp Hvi Hv Hdue Hout Happ. assert (Hid := val_keys _ Hvi _ _ Hv). assert (Hrow := val_rows _ Hvi _ _ Hv).
  unfold due in Hdue. apply andb_prop in Hdue as [[[[Hd Ha]%andb_prop Hr]%andb_prop Hu]%andb_prop Hver].
  apply negb_true_iff in Hr.
  assert (Hnew := VInv_outcome outcome (CleanText detail 255) v Hrow Hd Ha Hr Hver Hout Happ (char_length_CleanText detail)).
  assert (Hfree : rollback_free (decided outcome detail v) db = true) by (by eapply (rollback_free_same db v _ id)).
  unfold markRollbackOutcome. erewrite bind_run by reflexivity. rewrite Hv. erewrite bind_run by reflexivity.
  rewrite Hd, Ha, Hr, Hu. erewrite bind_run by reflexivity.
  erewrite bind_run.
  2:{ destruct (decide (outcome = RollbackApplied)) as [E|E].
      - destruct (Happ E) as [r Hro]. rewrite Hro. rewrite (bool_decide_true _ E). simpl.
        unfold nonempty. rewrite (bool_decide_false (r = "")) by (by apply (vi_id _ Hrow)). reflexivity.
      - rewrite (bool_decide_false _ E). reflexivity. }
  erewrite bind_run.
  2:{ apply (updateOne_run id _ _ db v); try done; [by rewrite Hu, Hver|apply Hnew]. }
  fold (decided outcome detail v). set (db1 := set_validations _ db).
  assert (Hp1 : PolicyInv db1) by (unfold db1; eauto with go).
  assert (Hv1 : ValInv db1).
  { eapply ValInv_ext; [|apply (ValInv_set db (decided outcome detail v)); done]. simpl. by rewrite Hid. }
  destruct (v_run v) as [run|] eqn:Hrun.
  - match goal with |- context [pauseForValidation run ?re ?co now] =>
      destruct (pause_run db1 run re co now Hp1) as (db2 & Hpause & Hval2 & Hd2 & Hr2 & Hp2 & Hpo & Hpaused) end.
    exists db2. split; [exact Hpause|]. split_and!; try done; [by eapply ValInv_ext|].
    by intros run' [= <-].
  - exists db1. split_and!; try done. intros k. by left.
Qed.

Lemma decide_iter outcome detail now ids db :
  PolicyInv db -> ValInv db -> NoDup ids -> outcome ∈ outcomes ->
  (forall id, id ∈ ids -> exists v, validations db !! id = Some v /\ due v = true /\
     (outcome = RollbackApplied -> is_Some (v_rollback v))) ->
  exists db', tx_iter (fun id => markRollbackOutcome id outcome detail now) ids db = Ok (tt, db') /\
    (forall k, validations db' !! k = if bool_decide (k ∈ ids) then decided outcome detail <$> validations db !! k
                                      else validations db !! k) /\
    deployments db' = deployments db /\ runs db' = runs db /\ PolicyInv db' /\ ValInv db' /\ pause_only db db' /\
    (forall id v run, id ∈ ids -> validations db !! id = Some v -> v_run v = Some run -> run_paused run db').
Proof.
  intros Hp Hvi Hnd Hout. revert db Hp Hvi; induction Hnd as [|id ids Hni Hnd IH]; intros db Hp Hvi Hin.
  - exists db. split_and!; try done. intros id v run H. by apply elem_of_nil in H.
  - destruct (Hin id ltac:(left)) as (v & Hv & Hdue & Happ).
    destruct (markRollbackOutcome_run db id outcome detail now v) as (db1 & Hrun & Hval & Hde & Hru & Hp1 & Hv1 & Hpo & Hpa); try done.
    assert (Hsame : forall k, k <> id -> validations db1 !! k = validations db !! k)
      by (intros k Hk; rewrite Hval; by apply lookup_insert_ne).
    destruct (IH db1 Hp1 Hv1) as (db2 & Hrun2 & Hval2 & Hde2 & Hru2 & Hp2 & Hv2 & Hpo2 & Hpa2).
    { intros k Hk. rewrite Hsame by congruence. apply Hin. by right. }
    exists db2. cbn [tx_iter]. erewrite bind_run by exact Hrun.
    split_and!; try done; try congruence.
    + intros k. rewrite Hval2. destruct (decide (k = id)) as [->|Hne].
      * rewrite bool_decide_false by done. rewrite bool_decide_true by left. by rewrite Hval, lookup_insert_eq, Hv.
      * rewrite Hsame by done. by rewrite (bool_decide_ext (k ∈ id :: ids) (k ∈ ids)) by set_solver.
    + by etrans.
    + intros k w run [->|Hk]%elem_of_cons Hw Hwr.
      * eapply run_paused_mono; [exact Hru2|exact Hpo2|]. apply Hpa. congruence.
      * eapply Hpa2; [done| |done]. rewrite Hsame; [done|congruence].
Qed.

Lemma named_due v : VInv v -> named_undecided v = true -> due v = true.
Proof.
  intros [Hok Ho Hd Hn Hid Ha] H. unfold named_undecided in H.
  apply andb_prop in H as [Hr%bool_decide_eq_true Hu]. destruct (Hn (or_introl Hr)) as (E1 & E2 & E3).
  unfold due. rewrite E1, E2, E3, Hu, !andb_true_r. unfold v_done. rewrite bool_decide_eq_true.
  destruct (decide (v_phase v = PhaseDone)) as [|Hph]; [done|]. destruct (Ho Hph) as (_ & E & _).
  destruct Hr as [r Hr]. congruence.
Qed.

Lemma validationIDs_spec p db :
  keyed v_id (validations db) ->
  exists ids, validationIDs p db = Ok (ids, db) /\ NoDup ids /\
    forall k, k ∈ ids <-> exists v, validations db !! k = Some v /\ p db v = true.
Proof.
  intros Hk. eexists. split; [reflexivity|]. split; [by apply select_by_ids|].
  intros k. rewrite list_elem_of_fmap. setoid_rewrite elem_of_select_by. split.
  - intros (v & -> & [k' Hv] & Hp). rewrite (Hk _ _ Hv). eauto.
  - intros (v & Hv & Hp). exists v. split; [by rewrite (Hk _ _ Hv)|eauto].
Qed.

(** What [decideNamedRollbacks] records on a validation. *)
Definition decision (db : DB) (now : time) (v : ValidationRow) : ValidationRow :=
  if succeeded db v then decided RollbackApplied "" v
  else if interrupted db now v then decided RollbackFailed RollbackInterrupted v else v.

Definition decides (db : DB) (now : time) (v : ValidationRow) : bool := succeeded db v || interrupted db now v.

Lemma succeeded_not_interrupted db now v : succeeded db v = true -> interrupted db now v = false.
Proof.
  unfold succeeded, interrupted. intros [_ Hs]%andb_prop. by rewrite Hs, andb_false_r.
Qed.

Lemma interrupted_same db db' now v : deployments db = deployments db' -> interrupted db now v = interrupted db' now v.
Proof. intros H. unfold interrupted, rollback_in_flight, rollback_state. by rewrite H. Qed.

Lemma decideNamedRollbacks_run now db :
  PolicyInv db -> ValInv db ->
  exists db', decideNamedRollbacks now db = Ok (tt, db') /\
    (forall k, validations db' !! k = decision db now <$> validations db !! k) /\
    deployments db' = deployments db /\ runs db' = runs db /\ PolicyInv db' /\ ValInv db' /\ pause_only db db' /\
    (forall k v run, validations db !! k = Some v -> decides db now v = true -> v_run v = Some run -> run_paused run db').
Proof.
  intros Hp Hvi. unfold decideNamedRollbacks.
  destruct (validationIDs_spec succeeded db (val_keys _ Hvi)) as (ids & Hids & Hnd & Hin).
  erewrite bind_run by exact Hids.
  destruct (decide_iter RollbackApplied "" now ids db) as (db1 & Hrun & Hval & Hde & Hru & Hp1 & Hv1 & Hpo & Hpa); try done.
  { left. }
  { intros id (v & Hv & Hs)%Hin. exists v. split; [done|]. unfold succeeded in Hs. apply andb_prop in Hs as [Hn _].
    split; [by apply named_due; [eapply val_rows|]|]. intros _. unfold named_undecided in Hn.
    apply andb_prop in Hn as [Hn _]. by apply bool_decide_eq_true in Hn. }
  erewrite bind_run by exact Hrun.
  destruct (validationIDs_spec (fun d => interrupted d now) db1 (val_keys _ Hv1)) as (ids' & Hids' & Hnd' & Hin').
  erewrite bind_run by exact Hids'.
  assert (Hint : forall k, k ∈ ids' <-> exists v, validations db !! k = Some v /\ interrupted db now v = true).
  { intros k. rewrite Hin', Hval. setoid_rewrite (fun w => interrupted_same db1 db now w Hde).
    destruct (bool_decide_reflect (k ∈ ids)) as [Hk|Hk]; [|done].
    destruct (proj1 (Hin k) Hk) as (v & Hv & Hs). rewrite Hv.
    split; intros (w & [= <-] & Hw).
    { unfold interrupted, named_undecided in Hw. change (undecided (decided RollbackApplied "" v)) with false in Hw.
      by rewrite andb_false_r in Hw. }
    exfalso. by rewrite (succeeded_not_interrupted db now v Hs) in Hw. }
  destruct (decide_iter RollbackFailed RollbackInterrupted now ids' db1)
    as (db2 & Hrun2 & Hval2 & Hde2 & Hru2 & Hp2 & Hv2 & Hpo2 & Hpa2); try done.
  { set_solver. }
  { intros id (v & Hv & Hi)%Hin'. exists v. split; [done|]. unfold interrupted in Hi.
    apply andb_prop in Hi as [[Hn _]%andb_prop _]. split; [by apply named_due; [eapply val_rows|]|done]. }
  assert (Hdisj : forall k v, validations db !! k = Some v -> succeeded db v = true -> k ∉ ids').
  { intros k v Hv Hs (w & Hw & Hi)%Hint. assert (w = v) as -> by congruence.
    by rewrite (succeeded_not_interrupted db now v Hs) in Hi. }
  exists db2. split_and!; try done; try congruence; [|by etrans|].
  - intros k. rewrite Hval2, Hval. destruct (validations db !! k) as [v|] eqn:Hv.
    2:{ by do 2 case_bool_decide. }
    unfold decision. simpl. destruct (succeeded db v) eqn:Es.
    + rewrite bool_decide_false by eauto. by rewrite bool_decide_true by (apply Hin; eauto).
    + rewrite (bool_decide_false (k ∈ ids)) by (intros (w & Hw & E)%Hin; congruence).
      destruct (interrupted db now v) eqn:Ei; case_bool_decide as Hk; try done.
      * exfalso. apply Hk, Hint. eauto.
      * exfalso. apply Hint in Hk as (w & Hw & E). congruence.
  - intros k v run Hv Hd Hr. unfold decides in Hd. apply orb_prop in Hd as [Hs|Hi].
    + eapply run_paused_mono; [exact Hru2|exact Hpo2|]. eapply Hpa; [apply Hin; eauto|done|done].
    + destruct (succeeded db v) eqn:Es.
      { exfalso. eapply Hdisj; [exact Hv|exact Es|]. apply Hint; eauto. }
      eapply Hpa2; [apply Hint; eauto| |done]. rewrite Hval.
      rewrite bool_decide_false; [done|]. intros (w & Hw & E)%Hin. congruence.
Qed.

(** ** Steps *)

(** What a policy step does to the validations: at most forget the runs of a deleted policy. *)
Definition forgets (gone : string -> bool) (v : ValidationRow) : ValidationRow :=
  mkValidation (v_id v) (v_org v) (v_env v) (v_app v) (v_instance v) (v_endpoint v)
    (clear_run gone (v_run v)) (v_automated v) (v_is_rollback v) (v_phase v) (v_started v) (v_until v)
    (v_verdict v) (v_detail v) (v_baseline v) (v_rollback v) (v_rollback_outcome v) (v_rollback_detail v)
    (v_correlation v) (v_finished v).
Definition vals_same (db db' : DB) : Prop :=
  validations db' = validations db \/ exists gone, validations db' = forgets gone <$> validations db.

Lemma finishPolicyRun_vals db run outcome deployment detail now u db' :
  PolicyInv db -> map_has policyResults outcome = true ->
  finishPolicyRun run outcome deployment detail now db = Ok (u, db') -> validations db' = validations db.
Proof. intros Hi Ho H. by destruct (finishPolicyRun_inv _ _ _ _ _ _ _ _ Hi Ho H) as (r & p & _ & _ & _ & _ & ->). Qed.

Lemma insertPolicyRun_vals policy occ corr id now db x db' :
  insertPolicyRun policy occ corr id now db = Ok (x, db') -> validations db' = validations db.
Proof. by intros (_ & p & _ & _ & _ & _ & _ & ->)%insertPolicyRun_ok. Qed.

Lemma update_policy_vals id guard f db n db' :
  update_policy id guard f db = Ok (n, db') -> validations db' = validations db.
Proof. intros [[_ ->]|(_ & p & _ & _ & _ & ->)]%update_policy_ok; done. Qed.

Lemma PutUpdatePolicy_body_vals LL a app id i now n db n' x db' :
  PutUpdatePolicy_body LL a app id i now n db = (n', Ok (x, db')) -> validations db' = validations db.
Proof.
  intros H. unfold PutUpdatePolicy_body in H. act_inv H.
  repeat match goal with
  | H : readPolicy _ _ = Ok _ |- _ => apply readPolicy_db in H; subst
  | H : lockApplication _ _ _ = Ok _ |- _ => apply lockApplication_db in H; subst
  | H : (match weekdays LL i with _ => _ end) _ = Ok _ |- _ => destruct (weekdays LL i); tx_inv H
  end.
  destruct (find_policy a app db) as [p|]; match goal with H : (_ ≫= _) db = Ok _ |- _ => tx_inv H end.
  - by eapply update_policy_vals.
  - match goal with H : insert_policy _ _ = Ok _ |- _ => unfold insert_policy, put_policy in H; tx_inv H end. done.
Qed.

Lemma ResumeUpdatePolicy_body_vals a app now n db n' x db' :
  ResumeUpdatePolicy_body a app now n db = (n', Ok (x, db')) -> validations db' = validations db.
Proof.
  intros H. unfold ResumeUpdatePolicy_body, policyOf in H. act_inv H.
  match goal with H : readPolicy _ _ = Ok _ |- _ => apply readPolicy_db in H; subst end.
  by eapply update_policy_vals.
Qed.

Lemma reconcilePolicyRuns_vals now db u db' :
  PolicyInv db -> reconcilePolicyRuns now db = Ok (u, db') -> validations db' = validations db.
Proof.
  intros Hi H. destruct (reconcilePolicyRuns_run now db Hi) as (db1 & E & _ & _ & _ & _ & Hv & _). congruence.
Qed.

Lemma policy_step_vals uuid_parse LL db db' :
  PolicyInv db -> policy_step uuid_parse LL db db' -> vals_same db db'.
Proof.
  intros Hinv Hstep. assert (H0 : vals_same db db) by by left.
  assert (Hcommit : forall A (m : tx A), (forall x d, m db = Ok (x, d) -> validations d = validations db) ->
    vals_same db (commit m db).2) by (intros A m Hm; apply (commit_preserves (vals_same db)); [done|left; eauto]).
  destruct Hstep.
  - unfold PutUpdatePolicy. destruct (uuid_parse app); [|done]. destruct (negb _); [done|].
    pose proof (run_preserves (vals_same db) a ApplicationPolicy (mkNotes (Some (s +:+ "/policies")) None)
      (PutUpdatePolicy_body LL a s id i now) now fresh db) as H.
    destruct (run _ _ _ _ _ _ _ _) as [res db']. apply H; [done|done|].
    intros. left. by eapply PutUpdatePolicy_body_vals.
  - unfold DeleteUpdatePolicy. destruct (uuid_parse app); [|done]. destruct (negb _); [done|].
    apply (run_preserves (vals_same db)); [done|done|]. intros n x db1 H. unfold DeleteUpdatePolicy_body, policyOf in H.
    act_inv H. right. eexists. reflexivity.
  - unfold ResumeUpdatePolicy. destruct (uuid_parse app); [|done]. destruct (negb _); [done|].
    pose proof (run_preserves (vals_same db) a ApplicationPolicy (mkNotes (Some (s +:+ "/policies")) None)
      (ResumeUpdatePolicy_body a s now) now fresh db) as H.
    destruct (run _ _ _ _ _ _ _ _) as [res db']. apply H; [done|done|].
    intros. left. by eapply ResumeUpdatePolicy_body_vals.
  - apply Hcommit. intros. by eapply insertPolicyRun_vals.
  - unfold FinishPolicyRun. destruct (map_has policyResults outcome) eqn:E; [|done].
    apply Hcommit. intros. by eapply finishPolicyRun_vals.
  - unfold SkipPolicyWindow. destruct (_ && _) eqn:E; [done|]. apply Hcommit.
    intros x db1 H. tx_inv H. etrans; [|by eapply insertPolicyRun_vals].
    eapply finishPolicyRun_vals; [by eapply insertPolicyRun_PolicyInv| |exact H].
    apply andb_false_iff in E. rewrite !negb_false_iff, !bool_decide_eq_true in E.
    destruct E as [-> | ->]; vm_compute; reflexivity.
  - apply Hcommit. intros x db1 H. tx_inv H.
    match goal with H : update_run _ _ _ _ = Ok _ |- _ =>
      apply update_run_ok in H as [[? ->]|(_ & q & Hq & Hopen & _ & ->)]; done end.
  - apply Hcommit. intros. by eapply reconcilePolicyRuns_vals.
Qed.

(** What the apply path, the watcher, the rollback planner and a restart do to validations,
    interleaved with everything that happens to policies; each step one committed transaction. *)
Inductive val_step (uuid_parse : string -> option string) (LL : string -> option Location) (db : DB) : DB -> Prop :=
| val_policy db' : policy_step uuid_parse LL db db' -> val_step uuid_parse LL db db'
| val_open org env app instance endpoint deployment correlation fresh settled :
    val_step uuid_parse LL db
      (commit (insertValidation org env app instance endpoint deployment correlation fresh settled) db).2
| val_observe deployment baseline : val_step uuid_parse LL db (BeginObservation deployment baseline db).2
| val_finish deployment verdict detail now :
    val_step uuid_parse LL db (FinishValidation deployment verdict detail now db).2
| val_plan deployment rollback : rollback <> "" -> val_step uuid_parse LL db (MarkRollbackPlanned deployment rollback db).2
| val_outcome deployment outcome detail now :
    val_step uuid_parse LL db (MarkRollbackOutcome deployment outcome detail now db).2
| val_decide now : val_step uuid_parse LL db (DecideNamedRollbacks now db).2
| val_restart now : val_step uuid_parse LL db (commit (reconcileValidations now) db).2.

(** ** Every step keeps the invariant *)

Definition GoodDB (db : DB) : Prop := PolicyInv db /\ ValInv db.

Lemma VInv_forgets gone v : VInv v -> VInv (forgets gone v).
Proof.
  intros [Hok Ho Hd Hn Hid Ha]. split; simpl; try done. revert Hok. unfold validation_row_ok. simpl.
  rewrite !andb_true_iff. intros [? Hr]. split; [done|]. destruct (v_run v) as [r|]; simpl in *; [|done].
  by destruct (gone r).
Qed.

Lemma ValInv_forgets db db' gone :
  validations db' = forgets gone <$> validations db -> ValInv db -> ValInv db'.
Proof.
  intros E [Hk Hr Hu]. split; rewrite E.
  - intros k v (w & <- & Hw)%lookup_fmap_Some. exact (Hk _ _ Hw).
  - intros k v (w & <- & Hw)%lookup_fmap_Some. apply VInv_forgets. by eapply Hr.
  - intros k k' v v' r (w & <- & Hw)%lookup_fmap_Some (w' & <- & Hw')%lookup_fmap_Some. simpl. by eapply Hu.
Qed.

(** A change of one validation row that keeps its own rules keeps the table's. *)
Lemma updateOne_ValInv id guard f db u db' :
  ValInv db -> (forall v, VInv v -> guard v = true -> validation_row_ok (f v) = true -> VInv (f v)) ->
  updateOne (update_validation id guard f) db = Ok (u, db') -> ValInv db'.
Proof.
  intros Hi Hf (v & Hv & Hg & Hfree & Hok & ->)%updateOne_ok. apply ValInv_set; [done| |done].
  apply Hf; [by eapply val_rows|done|done].
Qed.

Lemma insertValidation_ok org env app instance endpoint deployment correlation fresh settled db u db' :
  insertValidation org env app instance endpoint deployment correlation fresh settled db = Ok (u, db') ->
  exists v, validations db !! v_id v = None /\ rollback_free v db = true /\ validation_row_ok v = true /\ VInv v /\
    db' = set_validations (<[v_id v := v]> (validations db)) db.
Proof.
  unfold insertValidation, insert_validation. intros H. tx_inv H. gobool.
  match goal with H : put_validation ?v _ = _ |- _ => apply put_validation_ok in H as (Hf & Hok & ->); exists v end.
  split_and!; try done. split; simpl in *; try done. intros [[? ?]|?]; done.
Qed.

Lemma finishValidation_ok deployment verdict detail now db b db' :
  finishValidation deployment verdict detail now db = Ok (b, db') ->
  exists v, validations db !! deployment = Some v /\ v_done v = false.
Proof.
  unfold finishValidation. intros H. erewrite bind_run in H by reflexivity.
  destruct (validations db !! deployment) as [v|]; [|done]. erewrite bind_run in H by reflexivity.
  exists v. split; [done|]. by destruct (v_done v).
Qed.

Lemma markRollbackOutcome_ok deployment outcome detail now db u db' :
  markRollbackOutcome deployment outcome detail now db = Ok (u, db') ->
  exists v, validations db !! deployment = Some v /\ due v = true /\ (outcome = RollbackApplied -> is_Some (v_rollback v)).
Proof.
  unfold markRollbackOutcome. intros H. erewrite bind_run in H by reflexivity.
  destruct (validations db !! deployment) as [v|] eqn:Hv; [|done]. erewrite bind_run in H by reflexivity.
  exists v. split; [done|]. apply bind_ok in H as (? & db1 & [E [= -> ->]]%ensure_ok & H).
  apply bind_ok in H as (? & db2 & [E2 [= -> ->]]%ensure_ok & H).
  apply bind_ok in H as (? & db3 & (w & Hw & Hg & _)%updateOne_ok & H).
  assert (w = v) as -> by congruence. apply andb_prop in Hg as [_ Hg].
  unfold due. rewrite E, Hg. split; [done|]. intros ->. unfold nonempty in E2.
  rewrite bool_decide_true in E2 by done. by destruct (v_rollback v).
Qed.

(** ** A restart, forwards *)

Definition missed (now : time) (v : ValidationRow) : bool :=
  bool_decide (v_phase v = PhaseGrace) && (v_until v <? now).
Definition server_down (now : time) (v : ValidationRow) : ValidationRow :=
  finished VerdictUnverifiable ValidationDetailServerDown now v.

Lemma finish_iter now ids db :
  PolicyInv db -> ValInv db -> NoDup ids ->
  (forall id, id ∈ ids -> exists v, validations db !! id = Some v /\ v_done v = false) ->
  exists db', tx_iter (fun id => _ ← finishValidation id VerdictUnverifiable ValidationDetailServerDown now; mret tt) ids db
                = Ok (tt, db') /\
    (forall k, validations db' !! k = if bool_decide (k ∈ ids) then server_down now <$> validations db !! k
                                      else validations db !! k) /\
    deployments db' = deployments db /\ runs db' = runs db /\ PolicyInv db' /\ ValInv db' /\ pause_only db db'.
Proof.
  intros Hp Hvi Hnd. revert db Hp Hvi; induction Hnd as [|id ids Hni Hnd IH]; intros db Hp Hvi Hin.
  - exists db. by split_and!.
  - destruct (Hin id ltac:(left)) as (v & Hv & Hopen).
    destruct (finishValidation_run db id VerdictUnverifiable ValidationDetailServerDown now v)
      as (db1 & Hrun & Hval & Hde & Hru & Hp1 & Hv1 & Hpo & _); try done.
    assert (Hsame : forall k, k <> id -> validations db1 !! k = validations db !! k)
      by (intros k Hk; rewrite Hval; by apply lookup_insert_ne).
    destruct (IH db1 Hp1 Hv1) as (db2 & Hrun2 & Hval2 & Hde2 & Hru2 & Hp2 & Hv2 & Hpo2).
    { intros k Hk. rewrite Hsame by congruence. apply Hin. by right. }
    exists db2. cbn [tx_iter].
    erewrite bind_run by (erewrite bind_run by exact Hrun; reflexivity).
    split_and!; try done; try congruence; [|by etrans].
    intros k. rewrite Hval2. destruct (decide (k = id)) as [->|Hne].
    + rewrite bool_decide_false by done. rewrite bool_decide_true by left. by rewrite Hval, lookup_insert_eq, Hv.
    + rewrite Hsame by done. by rewrite (bool_decide_ext (k ∈ id :: ids) (k ∈ ids)) by set_solver.
Qed.

(** What a restart makes of one validation: a window missed is unverifiable, a named rollback
    that is over is decided. *)
Definition restarted (db : DB) (now : time) (v : ValidationRow) : ValidationRow :=
  if missed now v then server_down now v else decision db now v.

Lemma missed_open now v : missed now v = true -> v_done v = false.
Proof.
  unfold missed, v_done. intros [H%bool_decide_eq_true _]%andb_prop. by rewrite H.
Qed.

Lemma decision_same db db' now v : deployments db = deployments db' -> decision db now v = decision db' now v.
Proof. intros H. unfold decision, interrupted, succeeded, rollback_in_flight, rollback_state. by rewrite H. Qed.

Lemma decision_unnamed db now v : v_rollback v = None -> decision db now v = v.
Proof.
  intros H. unfold decision, succeeded, interrupted, named_undecided. rewrite H.
  by rewrite (bool_decide_false (is_Some None)) by (by intros []).
Qed.

Lemma reconcileValidations_run now db :
  PolicyInv db -> ValInv db ->
  exists db', reconcileValidations now db = Ok (tt, db') /\
    (forall k, validations db' !! k = restarted db now <$> validations db !! k) /\
    deployments db' = deployments db /\ runs db' = runs db /\ PolicyInv db' /\ ValInv db' /\ pause_only db db'.
Proof.
  intros Hp Hvi. unfold reconcileValidations.
  destruct (validationIDs_spec (fun _ => missed now) db (val_keys _ Hvi)) as (ids & Hids & Hnd & Hin).
  erewrite bind_run by exact Hids.
  destruct (finish_iter now ids db) as (db1 & Hrun & Hval & Hde & Hru & Hp1 & Hv1 & Hpo); try done.
  { intros id (v & Hv & Hm)%Hin. exists v. split; [done|by eapply missed_open]. }
  erewrite bind_run by exact Hrun.
  destruct (decideNamedRollbacks_run now db1 Hp1 Hv1) as (db2 & Hrun2 & Hval2 & Hde2 & Hru2 & Hp2 & Hv2 & Hpo2 & _).
  exists db2. split_and!; try done; try congruence; [|by etrans].
  intros k. rewrite Hval2, Hval. destruct (validations db !! k) as [v|] eqn:Hv; [|by case_bool_decide].
  assert (Hm : bool_decide (k ∈ ids) = missed now v).
  { destruct (missed now v) eqn:E.
    - apply bool_decide_eq_true, Hin. eauto.
    - apply bool_decide_eq_false. intros (w & Hw & E')%Hin. congruence. }
  unfold restarted. rewrite Hm. destruct (missed now v) eqn:E; simpl.
  - rewrite (decision_unnamed db1 now (server_down now v)); [by rewrite E|]. simpl.
    pose proof (vi_open v (val_rows _ Hvi _ _ Hv)) as Ho. destruct Ho as (_ & Hn & _); [|done].
    apply missed_open in E. unfold v_done in E. by apply bool_decide_eq_false in E.
  - rewrite ?E; by rewrite (decision_same db1 db now v Hde).
Qed.

Lemma val_step_good uuid_parse LL db db' : val_step uuid_parse LL db db' -> GoodDB db -> GoodDB db'.
Proof.
  intros Hstep [Hp Hv]. assert (H0 : GoodDB db) by done.
  assert (Hupd : forall id guard f,
    (forall v, VInv v -> guard v = true -> validation_row_ok (f v) = true -> VInv (f v)) ->
    GoodDB (commit (updateOne (update_validation id guard f)) db).2).
  { intros id guard f Hf. apply commit_preserves; [done|]. intros x d H. split; [|by eapply updateOne_ValInv].
    apply updateOne_ok in H as (v & _ & _ & _ & _ & ->). eauto with go. }
  destruct Hstep.
  - split; [by eapply policy_step_PolicyInv|]. apply policy_step_vals in H as [E|[gone E]]; [| |done].
    + by eapply ValInv_ext.
    + by eapply ValInv_forgets.
  - apply commit_preserves; [done|]. intros x d (v & Hn & Hf & Hok & Hvi & ->)%insertValidation_ok.
    split; [eauto with go|by apply ValInv_set].
  - unfold BeginObservation. destruct (_ >? _) eqn:E; [done|]. apply Hupd. intros v Hvi Hg%bool_decide_eq_true Hok.
    apply VInv_observing; [done..|]. by pose proof (validation_row_parts _ Hok) as (_ & _ & _ & ? & _).
  - unfold FinishValidation. destruct (map_has validationResults verdict) eqn:E; [|done]. cbn [negb].
    apply commit_preserves; [done|]. intros b d H. destruct (finishValidation_ok _ _ _ _ _ _ _ H) as (v & Hval & Hopen).
    destruct (finishValidation_run db deployment verdict detail now v) as (d' & E' & _ & _ & _ & Hp' & Hv' & _); try done.
    assert (d = d') as -> by congruence. done.
  - apply Hupd. intros v Hvi Hg _. by apply VInv_named.
  - unfold MarkRollbackOutcome. case_bool_decide as Ho; [|done].
    apply commit_preserves; [done|]. intros b d H'. destruct (markRollbackOutcome_ok _ _ _ _ _ _ _ H') as (v & Hval & Hdue & Ha).
    destruct (markRollbackOutcome_run db deployment outcome detail now v) as (d' & E' & _ & _ & _ & Hp' & Hv' & _); try done.
    assert (d = d') as -> by congruence. done.
  - unfold DecideNamedRollbacks. apply commit_preserves; [done|]. intros b d H.
    destruct (decideNamedRollbacks_run now db Hp Hv) as (d' & E' & _ & _ & _ & Hp' & Hv' & _). 
    assert (d = d') as -> by congruence. done.
  - apply commit_preserves; [done|]. intros b d H.
    destruct (reconcileValidations_run now db Hp Hv) as (d' & E' & _ & _ & _ & Hp' & Hv' & _). 
    assert (d = d') as -> by congruence. done.
Qed.

(** ** Verdicts and decisions are final *)

(** What never changes of a validation that has its verdict. *)
Definition row_kept (v w : ValidationRow) : Prop :=
  v_done v = true ->
  v_done w = true /\ v_verdict w = v_verdict v /\ v_detail w = v_detail v /\ v_finished w = v_finished v /\
  (forall r, v_rollback v = Some r -> v_rollback w = Some r) /\
  (v_rollback_outcome v <> "" -> v_rollback_outcome w = v_rollback_outcome v /\ v_rollback_detail w = v_rollback_detail v).

#[export] Instance row_kept_preorder : PreOrder row_kept.
Proof.
  split; [by intros v ?|]. intros a b c H1 H2 Ha.
  destruct (H1 Ha) as (Hb & ? & ? & ? & Hr1 & Ho1). destruct (H2 Hb) as (? & ? & ? & ? & Hr2 & Ho2).
  split_and!; try congruence; [by eauto|]. intros Hne. destruct (Ho1 Hne) as [E1 E2].
  destruct Ho2; [congruence|]. split; congruence.
Qed.

Definition vals_kept (db db' : DB) : Prop :=
  forall k v, validations db !! k = Some v -> exists w, validations db' !! k = Some w /\ row_kept v w.

#[export] Instance vals_kept_preorder : PreOrder vals_kept.
Proof.
  split; [intros db k v ?; by eexists|]. intros a b c H1 H2 k v Hv.
  destruct (H1 k v Hv) as (w & Hw & K1). destruct (H2 k w Hw) as (x & Hx & K2). exists x. split; [done|by etrans].
Qed.

Lemma vals_kept_insert db db' id v w :
  validations db !! id = Some v -> validations db' = <[id := w]> (validations db) -> row_kept v w -> vals_kept db db'.
Proof.
  intros Hv E Hk k x Hx. rewrite E. destruct (decide (k = id)) as [->|Hne].
  - rewrite lookup_insert_eq. exists w. split; [done|]. by assert (x = v) as -> by congruence.
  - rewrite lookup_insert_ne by done. by eexists.
Qed.

Lemma vals_kept_fmap db db' f :
  (forall k, validations db' !! k = f <$> validations db !! k) ->
  (forall k v, validations db !! k = Some v -> row_kept v (f v)) -> vals_kept db db'.
Proof. intros E Hf k v Hv. exists (f v). split; [by rewrite E, Hv|by eapply Hf]. Qed.

Lemma updateOne_kept id guard f db u db' :
  ValInv db -> (forall v, v_id (f v) = v_id v) -> (forall v, guard v = true -> row_kept v (f v)) ->
  updateOne (update_validation id guard f) db = Ok (u, db') -> vals_kept db db'.
Proof.
  intros Hi Hid Hf (v & Hv & Hg & _ & _ & ->)%updateOne_ok. eapply vals_kept_insert; [exact Hv| |by apply Hf].
  simpl. by rewrite Hid, (val_keys _ Hi _ _ Hv).
Qed.

Lemma row_kept_open v w : v_done v = false -> row_kept v w.
Proof. intros H H'. congruence. Qed.
Lemma row_kept_decided outcome detail v : undecided v = true -> row_kept v (decided outcome detail v).
Proof. intros Hu%bool_decide_eq_true Hd. split_and!; try done. Qed.
Lemma row_kept_decision db now v : row_kept v (decision db now v).
Proof.
  unfold decision, succeeded, interrupted, named_undecided.
  destruct (undecided v) eqn:Hu; [|by rewrite andb_false_r].
  repeat case_match; [by apply row_kept_decided..|done].
Qed.
#[export] Hint Resolve row_kept_open row_kept_decided row_kept_decision missed_open : go.

Lemma val_step_kept uuid_parse LL db db' : GoodDB db -> val_step uuid_parse LL db db' -> vals_kept db db'.
Proof.
  intros [Hp Hv] Hstep. assert (H0 : vals_kept db db) by done. destruct Hstep.
  - apply policy_step_vals in H as [E|[gone E]]; [| |done].
    + intros k v Hk. rewrite E. eauto.
    + apply (vals_kept_fmap _ _ (forgets gone)); [intros k; by rewrite E, lookup_fmap|].
      intros k v _ Hd. by split_and!.
  - apply (commit_preserves (vals_kept db)); [done|]. intros x d (v & Hn & _ & _ & _ & ->)%insertValidation_ok.
    intros k w Hw. simpl. rewrite lookup_insert_ne; [by eexists|congruence].
  - unfold BeginObservation. destruct (_ >? _); [done|]. apply (commit_preserves (vals_kept db)); [done|].
    intros x d H. eapply updateOne_kept; [exact Hv| | |exact H]; [done|].
    intros v Hg%bool_decide_eq_true. apply row_kept_open. unfold v_done. by rewrite Hg.
  - unfold FinishValidation. destruct (map_has validationResults verdict) eqn:E; [|done].
    apply (commit_preserves (vals_kept db)); [done|]. intros b d H.
    destruct (finishValidation_ok _ _ _ _ _ _ _ H) as (v & Hval & Hopen).
    destruct (finishValidation_run db deployment verdict detail now v) as (d' & E' & Hv' & _); try done.
    assert (d = d') as -> by congruence. eapply vals_kept_insert; eauto with go.
  - apply (commit_preserves (vals_kept db)); [done|]. intros x d H1. eapply updateOne_kept; [exact Hv| | |exact H1]; [done|].
    intros v Hg Hd. unfold awaitingRollback in Hg. apply andb_prop in Hg as [_ Hr%bool_decide_eq_true].
    split_and!; try done. intros r Hr'. congruence.
  - unfold MarkRollbackOutcome. case_bool_decide as Ho; [|done].
    apply (commit_preserves (vals_kept db)); [done|]. intros b d H'.
    destruct (markRollbackOutcome_ok _ _ _ _ _ _ _ H') as (v & Hval & Hdue & Ha).
    destruct (markRollbackOutcome_run db deployment outcome detail now v) as (d' & E' & Hv' & _); try done.
    assert (d = d') as -> by congruence. eapply vals_kept_insert; [done..|]. apply row_kept_decided.
    unfold due in Hdue. by apply andb_prop in Hdue as [[_ Hu]%andb_prop _].
  - unfold DecideNamedRollbacks. apply (commit_preserves (vals_kept db)); [done|]. intros b d H.
    destruct (decideNamedRollbacks_run now db Hp Hv) as (d' & E' & Hv' & _).
    assert (d = d') as -> by congruence. eapply vals_kept_fmap; [done|]. eauto with go.
  - apply (commit_preserves (vals_kept db)); [done|]. intros b d H.
    destruct (reconcileValidations_run now db Hp Hv) as (d' & E' & Hv' & _).
    assert (d = d') as -> by congruence. eapply vals_kept_fmap; [done|]. intros k v _. unfold restarted.
    destruct (missed now v) eqn:E; eauto with go.
Qed.

Lemma val_steps_good uuid_parse LL db db' : rtc (val_step uuid_parse LL) db db' -> GoodDB db -> GoodDB db'.
Proof. induction 1; eauto using val_step_good. Qed.

Lemma val_steps_kept uuid_parse LL db db' :
  rtc (val_step uuid_parse LL) db db' -> GoodDB db -> vals_kept db db'.
Proof.
  induction 1 as [|x y z Hxy Hyz IH]; intros Hg; [done|]. etrans; [by eapply val_step_kept|].
  apply IH. by eapply val_step_good.
Qed.

(** ** Properties *)

Lemma GoodDB_empty : GoodDB empty_db.
Proof. split; [by apply PolicyInv_empty|]. split; by intros. Qed.

(** However applies, the watcher, rollbacks, the policy scheduler and restarts interleave,
    from an empty database every validation is consistent: one still watching has no verdict and
    no rollback, one that is done has a known verdict, a rollback is named or decided only on an
    automated, failing validation that is not itself a rollback, "applied" is recorded only where
    a rollback was named, and no two validations name the same rollback deployment. *)
Theorem val_steps_invariant uuid_parse LL db :
  rtc (val_step uuid_parse LL) empty_db db ->
  (forall k v, validations db !! k = Some v -> v_id v = k /\ VInv v) /\
  (forall k k' v v' r, validations db !! k = Some v -> validations db !! k' = Some v' ->
     v_rollback v = Some r -> v_rollback v' = Some r -> k = k').
Proof.
  intros [_ [Hk Hr Hu]]%val_steps_good; [|exact GoodDB_empty]. split; [|done].
  intros k v Hv. split; [by apply Hk|by eapply Hr].
Qed.

(** C32: a verdict is final.  Whatever happens after a validation is done, it stays done with
    the verdict, sentence and time it was given; a rollback once named on it is never replaced, and
    the outcome of that rollback, once decided, is never decided again. *)
Theorem verdict_final uuid_parse LL db db' k v :
  GoodDB db -> rtc (val_step uuid_parse LL) db db' ->
  validations db !! k = Some v -> v_phase v = PhaseDone ->
  exists w, validations db' !! k = Some w /\ v_phase w = PhaseDone /\ v_verdict w = v_verdict v /\
    v_detail w = v_detail v /\ v_finished w = v_finished v /\
    (forall r, v_rollback v = Some r -> v_rollback w = Some r) /\
    (v_rollback_outcome v <> "" ->
       v_rollback_outcome w = v_rollback_outcome v /\ v_rollback_detail w = v_rollback_detail v).
Proof.
  intros Hg Hsteps Hv Hd. destruct (val_steps_kept _ _ _ _ Hsteps Hg k v Hv) as (w & Hw & Hk).
  exists w. destruct Hk as (Hdone & ? & ? & ? & ? & ?); [by apply bool_decide_eq_true|].
  apply bool_decide_eq_true in Hdone. by split_and!.
Qed.

(** C38: [FinishValidation] on a validation still watching records exactly the verdict and its
    cleaned sentence, and reports a rollback due exactly when an automated run made the deployment,
    it is not itself a rollback and the verdict is a failing one.  An automated update that
    could not be verified leaves its policy paused.  An unknown verdict is refused and changes nothing; so is a
    second verdict. *)
Theorem FinishValidation_verdict db id verdict detail now v :
  PolicyInv db -> ValInv db -> validations db !! id = Some v ->
  (v_done v = false -> map_has validationResults verdict = true ->
     exists db', FinishValidation id verdict detail now db = (Ok (decision_due verdict v), db') /\
       validations db' = <[id := finished verdict detail now v]> (validations db) /\ runs db' = runs db /\
       (verdict = VerdictUnverifiable -> v_automated v = true -> v_is_rollback v = false ->
          forall run, v_run v = Some run -> run_paused run db')) /\
  (map_has validationResults verdict = false -> FinishValidation id verdict detail now db = (Fail ErrInvalid, db)) /\
  (v_done v = true -> map_has validationResults verdict = true ->
     FinishValidation id verdict detail now db = (Fail ErrNotFound, db)).
Proof.
  intros Hp Hvi Hv. unfold FinishValidation. split_and!.
  - intros Hopen Hk. rewrite Hk. cbn [negb].
    destruct (finishValidation_run db id verdict detail now v) as (db' & E & ? & _ & ? & _ & _ & _ & ?); try done.
    exists db'. unfold commit. rewrite E. by split_and!.
  - intros Hk. by rewrite Hk.
  - intros Hd Hk. rewrite Hk. unfold commit, finishValidation. cbn [negb].
    erewrite bind_run by reflexivity. rewrite Hv. erewrite bind_run by reflexivity. by rewrite Hd.
Qed.

(** C39: [DecideNamedRollbacks] never fails and decides every rollback whose deployment is over:
    applied when the deployment succeeded, failed when it ended any other way or its plan expired;
    one still applying, or planned and not expired, is left undecided.  Every other validation is
    untouched, and the policy behind each decided one is paused. *)
Theorem DecideNamedRollbacks_decides now db :
  PolicyInv db -> ValInv db ->
  exists db', DecideNamedRollbacks now db = (Ok tt, db') /\
    (forall k, validations db' !! k = decision db now <$> validations db !! k) /\
    (forall k v run, validations db !! k = Some v -> decides db now v = true -> v_run v = Some run -> run_paused run db') /\
    (forall k w, validations db' !! k = Some w -> v_rollback_outcome w = "" -> is_Some (v_rollback w) ->
       rollback_in_flight db now w = true).
Proof.
  intros Hp Hvi. destruct (decideNamedRollbacks_run now db Hp Hvi) as (db' & E & Hval & _ & _ & _ & _ & _ & Hpa).
  exists db'. unfold DecideNamedRollbacks, commit. rewrite E. split_and!; try done.
  intros k w Hw Ho Hr. rewrite Hval in Hw. apply fmap_Some in Hw as (v & Hv & ->). revert Ho Hr. unfold decision.
  destruct (succeeded db v) eqn:Es; [done|]. destruct (interrupted db now v) eqn:Ei; [done|].
  intros Ho Hr. unfold succeeded, interrupted, named_undecided, undecided in Es, Ei.
  rewrite !bool_decide_true in Es, Ei by done. cbn [andb] in Es, Ei. rewrite Es in Ei. by apply negb_false_iff in Ei.
Qed.

(** A restart never fails to reconcile validations: every window that closed while the server
    was down is unverifiable, named rollbacks are decided as [DecideNamedRollbacks] does, nothing
    else changes, and no validation is left in its grace with its window behind it. *)
Theorem reconcileValidations_settles now db :
  PolicyInv db -> ValInv db ->
  exists db', reconcileValidations now db = Ok (tt, db') /\
    (forall k, validations db' !! k = restarted db now <$> validations db !! k) /\
    (forall k w, validations db' !! k = Some w -> missed now w = false).
Proof.
  intros Hp Hvi. destruct (reconcileValidations_run now db Hp Hvi) as (db' & E & Hval & _).
  exists db'. split_and!; try done. intros k w Hw. rewrite Hval in Hw. apply fmap_Some in Hw as (v & Hv & ->).
  unfold restarted. destruct (missed now v) eqn:Hm; [done|]. unfold decision. by repeat case_match.
Qed.

(** ** Witnesses *)

Definition demo_succeeded (id : string) (run : option string) : DeploymentRow :=
  mkDeployment id "org" "env" "app" "inst" "host" "succeeded" 90 run "apply" "shop" 1 "" 1 None "ada" 10 "ada" (Some 11) (Some 90)
    (Some 20) "" None "corr" None.
(** The demo policy's run made a deployment whose apply has settled; its validation is open,
    failed unhealthy, and a rollback deployment is named on it. *)
Definition demo_applied : DB :=
  set_deployments {["dep" := demo_succeeded "dep" (Some "run"); "back" := demo_succeeded "back" None]} demo_begun.
Definition demo_watching : DB := (commit (insertValidation "org" "env" "app" "inst" "host" "dep" "" "fresh" 100) demo_applied).2.
Definition demo_unhealthy : DB := (FinishValidation "dep" VerdictUnhealthy "api:503" 110 demo_watching).2.
Definition demo_named : DB := (MarkRollbackPlanned "dep" "back" demo_unhealthy).2.

Lemma demo_watching_good : GoodDB demo_watching.
Proof.
  apply (val_step_good parse_any utc_zones demo_applied); [apply val_open|]. split.
  - exact (PolicyInv_ext demo_begun demo_applied eq_refl eq_refl demo_begun_inv).
  - split; by intros.
Qed.
Lemma demo_unhealthy_good : GoodDB demo_unhealthy.
Proof. apply (val_step_good parse_any utc_zones demo_watching); [apply val_finish|apply demo_watching_good]. Qed.
Lemma demo_named_good : GoodDB demo_named.
Proof. apply (val_step_good parse_any utc_zones demo_unhealthy); [by apply val_plan|apply demo_unhealthy_good]. Qed.

Lemma val_steps_invariant_witness :
  exists db, db = (commit (reconcileValidations 9) empty_db).2 /\
    forall k v, validations db !! k = Some v -> v_id v = k /\ VInv v.
Proof.
  eexists. split; [reflexivity|]. apply (val_steps_invariant parse_any utc_zones). apply rtc_once, val_restart.
Defined.

Lemma verdict_final_witness :
  exists w, validations demo_named !! "dep" = Some w /\ v_verdict w = VerdictUnhealthy.
Proof.
  assert (Hv : exists v, validations demo_unhealthy !! "dep" = Some v /\ v_phase v = PhaseDone /\ v_verdict v = VerdictUnhealthy)
    by (eexists; split; [vm_compute; reflexivity|split; reflexivity]).
  destruct Hv as (v & Hv & Hd & Hver).
  destruct (verdict_final parse_any utc_zones demo_unhealthy demo_named "dep" v demo_unhealthy_good) as (w & Hw & _ & Hvw & _).
  - apply rtc_once. by apply val_plan.
  - exact Hv.
  - exact Hd.
  - exists w. split; [exact Hw|]. by rewrite Hvw.
Defined.

Lemma FinishValidation_verdict_witness :
  (FinishValidation "dep" VerdictUnhealthy "api:503" 110 demo_watching).1 = Ok true.
Proof.
  assert (Hv : exists v, validations demo_watching !! "dep" = Some v /\ v_done v = false /\ decision_due VerdictUnhealthy v = true)
    by (eexists; split; [vm_compute; reflexivity|split; vm_compute; reflexivity]).
  destruct Hv as (v & Hv & Hd & Hdue).
  destruct (FinishValidation_verdict demo_watching "dep" VerdictUnhealthy "api:503" 110 v
    (proj1 demo_watching_good) (proj2 demo_watching_good) Hv) as (H & _).
  destruct (H Hd eq_refl) as (db' & E & _). rewrite E. simpl. by rewrite Hdue.
Defined.

Lemma DecideNamedRollbacks_decides_witness :
  v_rollback_outcome <$> validations (DecideNamedRollbacks 120 demo_named).2 !! "dep" = Some RollbackApplied.
Proof.
  destruct (DecideNamedRollbacks_decides 120 demo_named (proj1 demo_named_good) (proj2 demo_named_good)) as (db' & E & H & _).
  rewrite E. simpl. rewrite H. vm_compute. reflexivity.
Defined.

Lemma reconcileValidations_settles_witness :
  v_verdict <$> validations (commit (reconcileValidations (200 * Minute)) demo_watching).2 !! "dep" = Some VerdictUnverifiable.
Proof.
  destruct (reconcileValidations_settles (200 * Minute) demo_watching (proj1 demo_watching_good) (proj2 demo_watching_good)) as (db' & E & H & _).
  unfold commit. rewrite E. simpl. rewrite H. vm_compute. reflexivity.
Defined.
