(* ===== verification/Lifecycle.v ===== *)
(** * A command's life and a restart

    internal/store/reconcile.go, and the life of the rows of endpoint_commands across every
    operation on them: created, dispatched, answered, abandoned, swept, reconciled. *)
From Stdlib Require Import ZArith Lia Ascii String.
From stdpp Require Import base gmap strings list sorting relations.
From S2P Require Import Prelude.
From S2P Require Import Text.
From S2P Require Import Permissions.
From S2P Require Import Frame.
From S2P Require Import Inventory.
From S2P Require Import Store.
From S2P Require Import TenantAccess.
From S2P Require Import Commands.
From S2P Require Import Direct.
From S2P Require Import Policies.
From S2P Require Import Judge.
From S2P Require Import Validations.

Definition reconcileDetail : string := "the server restarted before a result arrived".

(** [SELECT endpoint_id,organization_id,environment_id ... WHERE outcome='' GROUP BY ...]. *)
Definition flight_group (c : CommandRow) : string * string * string := (c_endpoint c, c_org c, c_env c).
Definition flight_groups (db : DB) : list (string * string * string) :=
  remove_dups (map flight_group (select in_flight (commands db))).

(** One group's update and audit row: the commands settled.  [fresh] is the row's correlation. *)
Definition reconcile_group (fresh : string) (now : time) (g : string * string * string) : tx Z :=
  n ← update_commands (fun c => bool_decide (flight_group c = g) && in_flight c)
        (with_command_outcome OutcomeUnknown reconcileDetail now);
  if n =? 0 then mret 0
  else
    _ ← modify (add_audit (mkAudit "system" "endpoint.commands.reconciled" g.1.1 ("commands=" +:+ Itoa n) "" now
          "organization" g.1.2 g.2 fresh "unknown"));
    mret n.

Fixpoint reconcile_groups (fresh : string -> string) (now : time) (gs : list (string * string * string)) : tx Z :=
  match gs with
  | [] => mret 0
  | g :: gs' => n ← reconcile_group (fresh g.1.1) now g; m ← reconcile_groups fresh now gs'; mret (n + m)
  end.

Definition reconcile_body (fresh : string -> string) (now : time) : tx Z :=
  gs ← gets flight_groups;
  total ← reconcile_groups fresh now gs;
  _ ← reconcilePolicyRuns now;
  _ ← reconcileValidations now;
  mret total.
Definition ReconcileAfterStart (fresh : string -> string) (now : time) : DB -> res StoreErr Z * DB := commit (reconcile_body fresh now).

(** ** A restart, forwards *)

Definition restart_settled (now : time) (c : CommandRow) : CommandRow :=
  if in_flight c then with_command_outcome OutcomeUnknown reconcileDetail now c else c.

Lemma reconcile_groups_run fresh now gs db :
  exists n db', reconcile_groups fresh now gs db = Ok (n, db') /\
    commands db' = (fun c => if bool_decide (flight_group c ∈ gs) then restart_settled now c else c) <$> commands db /\
    policies db' = policies db /\ runs db' = runs db /\ validations db' = validations db /\ deployments db' = deployments db.
Proof.
  revert db; induction gs as [|g gs IH]; intros db.
  - exists 0, db. split_and!; try done. apply map_eq. intros k. rewrite lookup_fmap. by destruct (commands db !! k).
  - set (db1 := set_commands ((fun c => if bool_decide (flight_group c = g) && in_flight c
      then with_command_outcome OutcomeUnknown reconcileDetail now c else c) <$> commands db) db).
    assert (H1 : exists n db2, reconcile_group (fresh g.1.1) now g db = Ok (n, db2) /\ commands db2 = commands db1 /\
      policies db2 = policies db /\ runs db2 = runs db /\ validations db2 = validations db /\ deployments db2 = deployments db).
    { unfold reconcile_group. erewrite bind_run by reflexivity. destruct (count _ _ =? 0).
      - eexists _, db1. split; [reflexivity|by split_and!].
      - erewrite bind_run by reflexivity. eexists _, _. split; [reflexivity|by split_and!]. }
    destruct H1 as (n & db2 & Hrun & E1 & E2 & E3 & E4 & E5). destruct (IH db2) as (m & db' & Hrun' & F1 & F2 & F3 & F4 & F5).
    exists (n + m), db'. cbn [reconcile_groups]. erewrite bind_run by exact Hrun. erewrite bind_run by exact Hrun'.
    split_and!; try congruence; [done|]. rewrite F1, E1. unfold db1. simpl. rewrite <- map_fmap_compose. apply map_fmap_ext.
    intros k c _. unfold compose. cbv beta. unfold restart_settled. destruct (in_flight c) eqn:Hf.
    + rewrite andb_true_r. destruct (decide (flight_group c = g)) as [Hg|Hg].
      * rewrite (bool_decide_true (flight_group c = g)) by done. rewrite (bool_decide_true (flight_group c ∈ g :: gs)) by (rewrite Hg; left).
        cbn [andb]. change (in_flight (with_command_outcome OutcomeUnknown reconcileDetail now c)) with false. by case_bool_decide.
      * rewrite (bool_decide_false (flight_group c = g)) by done. rewrite Hf. by rewrite (bool_decide_ext (flight_group c ∈ g :: gs) (flight_group c ∈ gs)) by set_solver.
    + rewrite andb_false_r, Hf. by do 2 case_bool_decide.
Qed.

(** ** What leaves the command table alone *)

Local Notation keeps_commands := (Keeps commands).

Lemma keeps_update_policy id guard f : keeps_commands (update_policy id guard f).
Proof. unfold update_policy, put_policy. keeps. Qed.
#[local] Hint Resolve keeps_update_policy : keeps.
Lemma keeps_pause run reason corr now : keeps_commands (pauseForValidation run reason corr now).
Proof. unfold pauseForValidation, auditPolicy. keeps. Qed.
#[local] Hint Resolve keeps_pause : keeps.
Lemma keeps_updateOne id guard f : keeps_commands (updateOne (update_validation id guard f)).
Proof. unfold updateOne, update_validation, put_validation. keeps. Qed.
#[local] Hint Resolve keeps_updateOne : keeps.
Lemma keeps_finishValidation d v s now : keeps_commands (finishValidation d v s now).
Proof. unfold finishValidation, auditPolicy. keeps. Qed.
Lemma keeps_markRollbackOutcome d o s now : keeps_commands (markRollbackOutcome d o s now).
Proof. unfold markRollbackOutcome. keeps. Qed.
#[local] Hint Resolve keeps_finishValidation keeps_markRollbackOutcome : keeps.
Lemma keeps_reconcileValidations now : keeps_commands (reconcileValidations now).
Proof. unfold reconcileValidations, decideNamedRollbacks, validationIDs. keeps. Qed.

Lemma keeps_finishPolicyRun id outcome deployment detail now : keeps_commands (finishPolicyRun id outcome deployment detail now).
Proof. unfold finishPolicyRun, update_run, count_outcome, auditPolicy, put_run. keeps. Qed.
#[local] Hint Resolve keeps_finishPolicyRun : keeps.
Lemma keeps_reconcilePolicyRuns now : keeps_commands (reconcilePolicyRuns now).
Proof. unfold reconcilePolicyRuns. keeps. Qed.


(** ** The life of a command *)

(** A command with its last outcome: an answer, or an unknown that no answer can replace. *)
Definition c_final (c : CommandRow) : bool := negb (in_flight c) && negb (direct c && settleable c).

(** What every later state of a row keeps of it. *)
Record Evolves (c c' : CommandRow) : Prop := {
  ev_target : (c_id c', c_endpoint c', c_org c', c_env c', c_actor c', c_request c', c_action c') =
              (c_id c, c_endpoint c, c_org c, c_env c, c_actor c, c_request c, c_action c) /\
              (c_container c', c_reference c', c_expects c', c_deadline c', c_created c') =
              (c_container c, c_reference c, c_expects c, c_deadline c, c_created c);
  ev_settled : in_flight c = false -> in_flight c' = false;
  ev_final : c_final c = true ->
    (c_outcome c', c_detail c', c_settled c', c_result c', c_result_container c') =
    (c_outcome c, c_detail c, c_settled c, c_result c, c_result_container c) }.

#[local] Instance Evolves_refl : Reflexive Evolves.
Proof. by intros c. Qed.
#[local] Instance Evolves_trans : Transitive Evolves.
Proof.
  intros c1 c2 c3 [[T1 T1'] S1 F1] [[T2 T2'] S2 F2]. split; [split; congruence|tauto|].
  intros Hf. specialize (F1 Hf). assert (Hf2 : c_final c2 = true); [|specialize (F2 Hf2); congruence].
  revert Hf. unfold c_final, settleable, in_flight, direct. injection F1. injection T1. by intros -> _ _ _ _ _ _ _ -> _ _ ->.
Qed.

(** Every row of a table is still in the other, evolved. *)
Definition rows_evolve (t t' : gmap string CommandRow) : Prop :=
  forall k c, t !! k = Some c -> exists c', t' !! k = Some c' /\ Evolves c c'.

#[local] Instance rows_evolve_refl : Reflexive rows_evolve.
Proof. intros t k c H. by exists c. Qed.
#[local] Instance rows_evolve_trans : Transitive rows_evolve.
Proof. intros t1 t2 t3 H1 H2 k c Hk. destruct (H1 k c Hk) as (c2 & Hk2 & ?). destruct (H2 k c2 Hk2) as (c3 & ? & ?). exists c3. split; [done|by etrans]. Qed.

Lemma rows_evolve_update (p : CommandRow -> bool) f (t : gmap string CommandRow) :
  (forall c, p c = true -> Evolves c (f c)) -> rows_evolve t ((fun c => if p c then f c else c) <$> t).
Proof. intros Hf k c Hk. rewrite lookup_fmap, Hk. eexists. split; [done|]. cbv beta. destruct (p c) eqn:E; [by apply Hf|done]. Qed.
Lemma rows_evolve_insert c (t : gmap string CommandRow) : t !! c_id c = None -> rows_evolve t (<[c_id c := c]> t).
Proof. intros Hn k c' Hk. exists c'. split; [|done]. rewrite lookup_insert_ne; [done|]. intros E. congruence. Qed.

(** A transaction under which rows only evolve. *)
Definition evolving {A} (m : tx A) : Prop := forall db x db', m db = Ok (x, db') -> rows_evolve (commands db) (commands db').

Lemma evolving_keeps {A} (m : tx A) : keeps_commands m -> evolving m.
Proof. intros Hm db x db' H. by rewrite (Hm _ _ _ H). Qed.
Lemma evolving_bind {A B} (m : tx A) (k : A -> tx B) : evolving m -> (forall a, evolving (k a)) -> evolving (m ≫= k).
Proof. intros Hm Hk db x db' (a & d & H1 & H2)%bind_ok. etrans; [by eapply Hm|by eapply Hk]. Qed.
Lemma evolving_iter {A} (f : A -> tx unit) l : (forall x, evolving (f x)) -> evolving (tx_iter f l).
Proof. intros Hf. induction l as [|x l IH]; [by apply evolving_keeps, keeps_ret|]. apply evolving_bind; [apply Hf|intros _; apply IH]. Qed.
Lemma evolving_insert c : evolving (insert_command c).
Proof. intros db x db' [Hn ->]%insert_command_ok. by apply rows_evolve_insert. Qed.
Lemma evolving_update p f : (forall c, p c = true -> Evolves c (f c)) -> evolving (update_commands p f).
Proof. intros Hf db x db' [_ ->]%update_commands_ok. by apply rows_evolve_update. Qed.
Lemma evolving_commit {A} (m : tx A) db : evolving m -> rows_evolve (commands db) (commands (commit m db).2).
Proof. intros Hm. unfold commit. destruct (m db) as [[x db']|e] eqn:E; [by eapply Hm|done]. Qed.
Lemma evolving_run a action name notes (op : tx CommandRow) now fresh db :
  evolving op -> rows_evolve (commands db) (commands (runAs a action name notes true (lift op) now fresh db).2).
Proof.
  intros Hop. destruct (runAs _ _ _ _ _ _ _ _ _) as [r db'] eqn:E. apply runAs_split in E. destruct r as [c|err].
  - destruct E as (role & n & d & _ & _ & _ & [= _ Hd] & (rec & -> & _)). simpl. by eapply Hop.
  - destruct E as [->|(rec & -> & _)]; done.
Qed.

Lemma keeps_scoped a endpointID : keeps_commands (scoped a endpointID).
Proof. unfold scoped. keeps. Qed.
Lemma keeps_auditDirect endpointID id outcome code created now : keeps_commands (auditDirect endpointID id outcome code created now).
Proof. unfold auditDirect. keeps. Qed.
Lemma keeps_directIDs p : keeps_commands (directIDs p).
Proof. unfold directIDs. keeps. Qed.
#[local] Hint Resolve keeps_scoped keeps_auditDirect keeps_directIDs : keeps.
#[local] Hint Resolve evolving_keeps evolving_insert : keeps.

#[local] Ltac evolving :=
  repeat first [ apply evolving_keeps; solve [keeps] | solve [eauto with keeps] | apply evolving_bind; [|intros ?]
               | case_match ].

(** Settling is an evolution of whatever is in flight. *)
Lemma in_flight_Evolves outcome detail now c :
  in_flight c = true -> outcome <> "" -> Evolves c (with_command_outcome outcome detail now c).
Proof.
  intros Hf Ho. split; [done|by rewrite Hf|]. unfold c_final. by rewrite Hf.
Qed.
Lemma settle_Evolves outcome detail result created now c :
  direct c && settleable c = true -> outcome <> "" ->
  Evolves c (with_result result created (with_command_outcome outcome detail now c)).
Proof.
  intros Hf Ho. split; [done| |].
  - intros _. unfold in_flight. simpl. by apply bool_decide_eq_false.
  - unfold c_final. rewrite Hf. by rewrite andb_false_r.
Qed.
Lemma dispatched_Evolves now c : Evolves c (with_dispatched now c).
Proof. by split. Qed.

Section steps.
Context (frame_bytes : DeploymentRequest -> Z) (stored_result : DeploymentResult -> string).

(** One operation on the command table. *)
Inductive cmd_step : DB -> DB -> Prop :=
| cmd_create a endpointID action target confirm expects id now fresh db :
    cmd_step db (CreateCommand a endpointID action target confirm expects id now fresh db).2
| cmd_direct a endpointID dc id now fresh db :
    cmd_step db (CreateDirectCommand frame_bytes a endpointID dc id now fresh db).2
| cmd_dispatched id now db : cmd_step db (MarkCommandDispatched id now db).2
| cmd_settle endpointID id outcome detail now db : cmd_step db (SettleCommand endpointID id outcome detail now db).2
| cmd_answer endpointID result now db : cmd_step db (SettleDirectCommand stored_result endpointID result now db).2
| cmd_fail endpointID id detail now db : cmd_step db (FailDirectCommand endpointID id detail now db).2
| cmd_abandon endpointID now db : cmd_step db (AbandonCommands endpointID now db).2
| cmd_restart fresh now db : cmd_step db (ReconcileAfterStart fresh now db).2.

Lemma create_evolves a endpointID action target confirm expects id now fresh db :
  rows_evolve (commands db) (commands (CreateCommand a endpointID action target confirm expects id now fresh db).2).
Proof.
  unfold CreateCommand. destruct (commandActions action) as [needs|] eqn:Hn; [|done]. destruct (workloadActions action).
  - unfold createWorkloadCommand. rewrite Hn. destruct (workloadCommand _ _ _ _) as [ref|]; [|done]. apply evolving_run.
    unfold workload_body, clusterTarget, clusterInventory. evolving.
  - destruct (command_guards _ _ _ _); [|done]. apply evolving_run.
    unfold create_body, resolve_target, confirmable, confirmableImage. evolving.
Qed.

Lemma evolving_sweep endpointID now : evolving (sweepDirect endpointID now).
Proof.
  unfold sweepDirect. evolving. apply evolving_iter. intros id. unfold sweep_one.
  apply evolving_bind; [|intros n; destruct (n =? 0); evolving].
  apply evolving_update. intros c [_ Hf]%andb_prop. by apply in_flight_Evolves.
Qed.

Lemma direct_evolves a endpointID dc id now fresh db :
  rows_evolve (commands db) (commands (CreateDirectCommand frame_bytes a endpointID dc id now fresh db).2).
Proof.
  unfold CreateDirectCommand. destruct (direct_service dc) as [[svc e]|]; [|done].
  destruct (negb (direct_shape dc svc)); [done|]. cbv zeta.
  match goal with |- context [match ?x with _ => _ end] => rewrite (surjective_pairing x) end.
  match goal with |- context [match ?x.1 with _ => _ end] => enough (H : rows_evolve (commands db) (commands x.2)) by by destruct x.1 end.
  apply evolving_run. unfold direct_body. pose proof evolving_sweep. unfold directTarget, directBusy, directBlockers. evolving.
Qed.

Lemma settleDirect_evolves endpointID id outcome code created set_ where_ now db :
  (forall c, where_ c = true -> direct c = true -> Evolves c (set_ (with_command_outcome outcome code now c))) ->
  rows_evolve (commands db) (commands (commit (settleDirect endpointID id outcome code created set_ where_ now) db).2).
Proof.
  intros Hw. apply evolving_commit. unfold settleDirect. apply evolving_bind; [|intros n; evolving].
  apply evolving_update. intros c. rewrite !andb_true_iff. intros [[_ Hd] Hx]. by apply Hw.
Qed.

Lemma known_outcome outcome : outcome ∈ resultOutcomes -> outcome <> "".
Proof. intros H ->. by apply (bool_decide_eq_true ("" ∈ resultOutcomes)) in H. Qed.

Lemma answer_evolves endpointID result now db :
  rows_evolve (commands db) (commands (SettleDirectCommand stored_result endpointID result now db).2).
Proof.
  unfold SettleDirectCommand. destruct (is_ok (result_validate result)) eqn:Hv; [|done]. simpl.
  repeat (case_match; [done|]). apply settleDirect_evolves. intros c [_ Hs]%andb_prop Hd.
  apply settle_Evolves; [by rewrite Hd|]. apply known_outcome. revert Hv. unfold result_validate.
  destruct (bool_decide (rs_outcome result ∈ resultOutcomes)) eqn:E; [by apply bool_decide_eq_true in E|].
  by rewrite orb_true_r.
Qed.

Lemma fail_evolves endpointID id detail now db :
  rows_evolve (commands db) (commands (FailDirectCommand endpointID id detail now db).2).
Proof.
  unfold FailDirectCommand.
  pose proof (settleDirect_evolves endpointID id OutcomeFailed (CleanText detail MaxResultDetailBytes) "" (fun c => c) in_flight now db) as H.
  destruct (commit _ db) as [r d]. simpl in H. destruct r as [|[]]; apply H; intros c Hf _; by apply in_flight_Evolves.
Qed.

Lemma evolving_reconcile fresh now : evolving (reconcile_body fresh now).
Proof.
  intros db x db' H. unfold reconcile_body in H. apply bind_ok in H as (gs & d & [= -> ->]%gets_ok & H).
  apply bind_ok in H as (n & d1 & H1 & H).
  destruct (reconcile_groups_run fresh now (flight_groups db) db) as (n' & d1' & E & Hc & _). rewrite E in H1. injection H1 as <- <-.
  etrans; [|eapply (evolving_keeps (_ ← reconcilePolicyRuns now; _ ← reconcileValidations now; mret n')); [|exact H]].
  - rewrite Hc. intros k c Hk. rewrite lookup_fmap, Hk. eexists. split; [done|]. cbv beta. unfold restart_settled.
    case_bool_decide; [|done]. destruct (in_flight c) eqn:Hf; [by apply in_flight_Evolves|done].
  - pose proof (keeps_reconcileValidations now). pose proof (keeps_reconcilePolicyRuns now). keeps.
Qed.

Lemma cmd_step_evolves db db' : cmd_step db db' -> rows_evolve (commands db) (commands db').
Proof.
  intros [].
  - apply create_evolves.
  - apply direct_evolves.
  - apply evolving_commit. apply evolving_bind; [apply evolving_update; intros; apply dispatched_Evolves|intros; evolving].
  - unfold SettleCommand. destruct (bool_decide (outcome ∈ resultOutcomes)) eqn:E; [|done]. apply bool_decide_eq_true in E.
    apply evolving_commit. apply evolving_bind; [|intros; evolving]. apply evolving_update. intros c.
    rewrite !andb_true_iff. intros [[_ Hf] _]. apply in_flight_Evolves; [done|by apply known_outcome].
  - apply answer_evolves.
  - apply fail_evolves.
  - apply evolving_commit. unfold abandon_body. apply evolving_bind; [evolving|intros ids].
    apply evolving_bind; [|intros n; evolving]. apply evolving_update. intros c.
    unfold dispatched_in_flight. rewrite !andb_true_iff. intros [[_ Hf] _]. by apply in_flight_Evolves.
  - apply evolving_commit, evolving_reconcile.
Qed.

(** C33: a command's outcome is recorded once.  However operators, agents, disconnections,
    sweeps and restarts interleave, every command stays in the table with its target, its
    author and its deadline; once settled it is never in flight again; and once its outcome is
    final, an answer of the agent or an unknown no answer may replace, its outcome, detail,
    time and result never change. *)
Theorem command_outcome_final db db' k c :
  rtc cmd_step db db' -> commands db !! k = Some c ->
  exists c', commands db' !! k = Some c' /\ Evolves c c'.
Proof.
  intros Hs. enough (H : rows_evolve (commands db) (commands db')) by apply H.
  induction Hs as [|x y z Hxy _ IH]; [done|]. etrans; [by apply cmd_step_evolves|done].
Qed.
End steps.

(** ** Witnesses *)

(** The demo host with one dispatched restart in flight. *)
Definition demo_restart : CommandRow :=
  mkCommand "cmd" "host" "org" "env" "ada" "req" ActionRestart demo_hex "" (mkExpectation "" "" None) 90 "" "" 1 (Some 2) None "" "".
Definition demo_flight : DB := set_commands {["cmd" := demo_restart]} demo_watching.
Definition demo_answered : DB := (SettleCommand "host" "cmd" OutcomeSucceeded "" 5 demo_flight).2.


Lemma command_outcome_final_witness :
  c_outcome <$> commands (ReconcileAfterStart (fun _ => "f") 7 demo_answered).2 !! "cmd" = Some OutcomeSucceeded.
Proof.
  assert (H : exists c, commands demo_answered !! "cmd" = Some c /\ c_final c = true /\ c_outcome c = OutcomeSucceeded)
    by (eexists; split; [vm_compute; reflexivity|split; vm_compute; reflexivity]).
  destruct H as (c & Hc & Hf & Ho).
  destruct (command_outcome_final frame_kb (fun _ => "r") demo_answered
    (ReconcileAfterStart (fun _ => "f") 7 demo_answered).2 "cmd" c) as (c' & Hc' & Hev).
  - apply rtc_once. apply cmd_restart.
  - exact Hc.
  - rewrite Hc'. simpl. pose proof (ev_final _ _ Hev Hf) as E. injection E as -> _ _ _ _. by rewrite Ho.
Defined.
