(* ===== verification/Ledger.v ===== *)
(** * The deployment ledger, abstractly

    What the deployments table promises: a ledger of entries, each planned, applying, lost or
    done, over the instances that exist.  A plan may be dropped or started; what was started may
    be lost, fail unsent, or take one result; a lost one takes a late result only while its
    instance exists and nothing newer of the instance was acted on.  Entries leave the ledger with an
    application that has no instance, or when nothing of them is live and they are old; [erase] says
    whether either may happen.

    Refinement.v proves that every operation of the store is a sequence of these steps. *)
From Stdlib Require Import ZArith Lia String.
From stdpp Require Import base gmap strings relations.
From S2P Require Import Prelude.

#[local] Open Scope Z_scope.

Inductive Phase : Set := Planned | Applying | Lost | Done (outcome : string).
#[export] Instance Phase_eq_dec : EqDecision Phase.
Proof. solve_decision. Defined.

Record Entry := mkEntry { en_app : string; en_instance : string; en_created : time; en_removal : bool; en_phase : Phase }.
(** [adopted] maps an instance to its application. *)
Record Ledger := mkLedger { entries : gmap string Entry; adopted : gmap string string }.

Definition alive (e : Entry) : bool := match en_phase e with Planned | Applying => true | _ => false end.
Definition begun (e : Entry) : bool := negb (bool_decide (en_phase e = Planned)).
Definition in_phase (p : Phase) (e : Entry) : Entry := mkEntry (en_app e) (en_instance e) (en_created e) (en_removal e) p.
Definition put (id : string) (e : Entry) (L : Ledger) : Ledger := mkLedger (<[id := e]> (entries L)) (adopted L).

(** A newer entry of the instance was acted on. *)
Definition overtaken (L : Ledger) (e : Entry) : Prop :=
  exists k n, entries L !! k = Some n /\ en_instance n = en_instance e /\ en_created e < en_created n /\ begun n = true.
(** The entry may take a result. *)
Definition answerable (L : Ledger) (e : Entry) : Prop :=
  en_phase e = Applying \/ (en_phase e = Lost /\ is_Some (adopted L !! en_instance e) /\ ~ overtaken L e).
Definition idle (L : Ledger) (instance : string) : Prop :=
  forall k o, entries L !! k = Some o -> en_instance o = instance -> alive o = false.
(** An unknown outcome is not an outcome. *)
Definition outcome_phase (outcome : string) : Phase := if bool_decide (outcome = "unknown") then Lost else Done outcome.

Inductive lstep (erase : bool) : Ledger -> Ledger -> Prop :=
| ls_plan L id e : entries L !! id = None -> en_phase e = Planned -> idle L (en_instance e) -> lstep erase L (put id e L)
| ls_drop L (gone : string -> bool) : (forall id e, entries L !! id = Some e -> gone id = true -> en_phase e = Planned) ->
    lstep erase L (mkLedger (filter (fun ke => gone ke.1 = false) (entries L)) (adopted L))
| ls_start L id e : entries L !! id = Some e -> en_phase e = Planned -> en_removal e = false ->
    adopted L !! en_instance e = Some (en_app e) -> lstep erase L (put id (in_phase Applying e) L)
| ls_remove L id e : entries L !! id = None -> en_phase e = Applying -> en_removal e = true -> idle L (en_instance e) ->
    adopted L !! en_instance e = Some (en_app e) -> lstep erase L (put id e L)
| ls_lose L id e : entries L !! id = Some e -> en_phase e = Applying \/ en_phase e = Lost -> lstep erase L (put id (in_phase Lost e) L)
| ls_fail L id e : entries L !! id = Some e -> en_phase e = Applying \/ en_phase e = Lost -> lstep erase L (put id (in_phase (Done "failed") e) L)
| ls_settle L id e outcome : entries L !! id = Some e -> answerable L e -> lstep erase L (put id (in_phase (outcome_phase outcome) e) L)
| ls_removed L id e : entries L !! id = Some e -> answerable L e -> en_removal e = true ->
    lstep erase L (mkLedger (<[id := in_phase (Done "succeeded") e]> (entries L)) (delete (en_instance e) (adopted L)))
| ls_adopt L i app : adopted L !! i = None -> (forall j, adopted L !! j <> Some app) ->
    lstep erase L (mkLedger (entries L) (<[i := app]> (adopted L)))
| ls_release L i : idle L i -> lstep erase L (mkLedger (entries L) (delete i (adopted L)))
| ls_erase L app : erase = true -> (forall j, adopted L !! j <> Some app) ->
    lstep erase L (mkLedger (filter (fun ke => en_app ke.2 <> app) (entries L)) (adopted L))
| ls_forget L (gone : string -> bool) : erase = true -> (forall id e, entries L !! id = Some e -> gone id = true -> alive e = false) ->
    lstep erase L (mkLedger (filter (fun ke => gone ke.1 = false) (entries L)) (adopted L)).

(** ** What every run of the ledger keeps *)

(** At most one entry of an instance is planned or applying, and an application has one instance. *)
Record Orderly (L : Ledger) : Prop := {
  or_live : forall k l e f, entries L !! k = Some e -> entries L !! l = Some f ->
    alive e = true -> alive f = true -> en_instance e = en_instance f -> k = l;
  or_app : forall i j app, adopted L !! i = Some app -> adopted L !! j = Some app -> i = j }.

Lemma orderly_put L id e :
  Orderly L -> (alive e = true -> forall k o, k <> id -> entries L !! k = Some o -> en_instance o = en_instance e -> alive o = false) -> Orderly (put id e L).
Proof.
  intros [Hl Ha] He. split; [|exact Ha]. intros k l x y. simpl. rewrite !lookup_insert_Some.
  intros [[<- <-]|[Hk Hx]] [[<- <-]|[Hl' Hy]] Ax Ay Hi; [done| | |by eapply Hl].
  - exfalso. eapply not_true_iff_false; [|exact Ay]. by apply (He Ax l).
  - exfalso. eapply not_true_iff_false; [|exact Ax]. by apply (He Ay k).
Qed.

(** Changing an entry that is not alive afterwards, or was alive before, keeps the order. *)
Lemma orderly_move L id e p : Orderly L -> entries L !! id = Some e -> (alive (in_phase p e) = true -> alive e = true) -> Orderly (put id (in_phase p e) L).
Proof.
  intros HL He Hp. apply orderly_put; [done|]. intros Ha k o Hk Ho Hi. apply not_true_iff_false. intros Hal.
  apply Hk. destruct HL as [HL _]. by eapply (HL k id o e); auto.
Qed.
Lemma orderly_entries L m : Orderly L -> (forall k e, m !! k = Some e -> entries L !! k = Some e) -> Orderly (mkLedger m (adopted L)).
Proof. intros [Hl Ha] Hm. split; [|exact Ha]. intros k l e f He Hf. simpl in *. eauto. Qed.
Lemma orderly_adopted L m : Orderly L -> (forall k e, m !! k = Some e -> adopted L !! k = Some e) -> Orderly (mkLedger (entries L) m).
Proof. intros [Hl Ha] Hm. split; [exact Hl|]. intros k l e Hk Hf. simpl in *. eauto. Qed.

Lemma outcome_dead o e : alive (in_phase (outcome_phase o) e) = false.
Proof. unfold outcome_phase, alive. by destruct (bool_decide _). Qed.

Lemma lstep_orderly b L L' : lstep b L L' -> Orderly L -> Orderly L'.
Proof.
  intros H HL. destruct H as [L id e H0 Hp Hi|L gone Hg|L id e He Hp Hr Ha|L id e H0 Hp Hr Hi Ha|L id e He Hp|L id e He Hp|L id e o He Ha
    |L id e He Ha Hr|L i app H0 Ha|L i Hi|L app Hb Ha|L gone Hb Hg].
  - apply orderly_put; [done|]. intros _ k o _ Ho E. by apply (Hi k).
  - apply orderly_entries; [done|]. intros k e [? _]%map_lookup_filter_Some. done.
  - apply orderly_move; [done..|]. unfold alive. by rewrite Hp.
  - apply orderly_put; [done|]. intros _ k o _ Ho E. by apply (Hi k).
  - by apply orderly_move.
  - by apply orderly_move.
  - apply orderly_move; [done..|]. by rewrite outcome_dead.
  - apply (orderly_adopted (put id (in_phase (Done "succeeded") e) L)); [by apply orderly_move|]. intros k x Hk. by apply lookup_delete_Some in Hk as [_ ?].
  - destruct HL as [Hl Hu]. split; [exact Hl|]. intros j k x. simpl. rewrite !lookup_insert_Some.
    intros [[<- <-]|[Hj Hx]] [[<- E]|[Hk Hy]]; subst; try done; [by destruct (Ha k)|by destruct (Ha j)|by eapply Hu].
  - apply orderly_adopted; [done|]. intros k e Hk. by apply lookup_delete_Some in Hk as [_ ?].
  - apply orderly_entries; [done|]. intros k e [? _]%map_lookup_filter_Some. done.
  - apply orderly_entries; [done|]. intros k e [? _]%map_lookup_filter_Some. done.
Qed.
Lemma lsteps_orderly b L L' : rtc (lstep b) L L' -> Orderly L -> Orderly L'.
Proof. induction 1; eauto using lstep_orderly. Qed.

(** ** What is final while nothing is erased *)

(** An acted-on entry stays acted on, of the same instance and time. *)
Definition kept_begun (L L' : Ledger) : Prop :=
  forall k e, entries L !! k = Some e -> begun e = true ->
    exists p, entries L' !! k = Some (in_phase p e) /\ p <> Planned /\
      match en_phase e with
      | Done o => p = Done o
      | Lost => overtaken L e -> p = Lost \/ p = Done "failed"
      | _ => True
      end.

Lemma in_phase_same e : in_phase (en_phase e) e = e.
Proof. by destruct e. Qed.
Lemma begun_planned e : begun e = true <-> en_phase e <> Planned.
Proof. unfold begun. by rewrite negb_true_iff, bool_decide_eq_false. Qed.

Lemma kept_same L L' : (forall k e, entries L !! k = Some e -> begun e = true -> entries L' !! k = Some e) -> kept_begun L L'.
Proof.
  intros H k e He Hb. exists (en_phase e). rewrite in_phase_same. split; [by apply H|]. split; [by apply begun_planned|].
  destruct (en_phase e); auto.
Qed.
(** Moving one entry that was not begun, or whose move is allowed. *)
Lemma kept_move L id e p m :
  entries L !! id = Some e -> (begun e = true -> p <> Planned /\ match en_phase e with
      | Done o => p = Done o | Lost => overtaken L e -> p = Lost \/ p = Done "failed" | _ => True end) ->
  kept_begun L (mkLedger (<[id := in_phase p e]> (entries L)) m).
Proof.
  intros He Hp k f Hf Hb. destruct (decide (k = id)) as [->|Hk].
  - simplify_eq. destruct (Hp Hb) as [Hn Hm]. exists p. simpl. by rewrite lookup_insert_eq.
  - destruct (kept_same L L (fun _ _ H _ => H) k f Hf Hb) as (q & Hq & Hn & Hm). exists q. simpl. by rewrite lookup_insert_ne.
Qed.

Lemma answerable_move L e p : answerable L e -> p <> Planned -> begun e = true ->
  p <> Planned /\ match en_phase e with Done o => p = Done o | Lost => overtaken L e -> p = Lost \/ p = Done "failed" | _ => True end.
Proof. intros [H|(H & _ & Hn)] Hp Hb; rewrite H; split; auto. intros ?. contradiction. Qed.

Lemma lstep_kept L L' : lstep false L L' -> kept_begun L L'.
Proof.
  intros H. destruct H as [L id e H0 Hp Hi|L gone Hg|L id e He Hp Hr Ha|L id e H0 Hp Hr Hi Ha|L id e He Hp|L id e He Hp|L id e o He Ha
    |L id e He Ha Hr|L i app H0 Ha|L i Hi|L app Hb Ha|L gone Hb Hg]; [..|done|done].
  - apply kept_same. intros k f Hf _. simpl. rewrite lookup_insert_ne; [done|]. congruence.
  - apply kept_same. intros k f Hf Hb. simpl. apply map_lookup_filter_Some. split; [done|]. simpl.
    apply not_true_iff_false. intros Hgo. by apply begun_planned in Hb; apply Hb, (Hg k).
  - apply kept_move; [done|]. intros Hb. by apply begun_planned in Hb.
  - apply kept_same. intros k f Hf _. simpl. rewrite lookup_insert_ne; [done|]. congruence.
  - apply kept_move; [done|]. intros _. destruct Hp as [-> | ->]; auto.
  - apply kept_move; [done|]. intros _. destruct Hp as [-> | ->]; auto.
  - apply kept_move; [done|]. apply answerable_move; [done|]. unfold outcome_phase. by case_bool_decide.
  - apply kept_move; [done|]. by apply answerable_move.
  - by apply kept_same.
  - by apply kept_same.
Qed.

Lemma kept_begun_trans L1 L2 L3 : kept_begun L1 L2 -> kept_begun L2 L3 -> kept_begun L1 L3.
Proof.
  intros H1 H2 k e He Hb. destruct (H1 k e He Hb) as (p & Hp & Hn & Hm).
  destruct (H2 k _ Hp) as (q & Hq & Hn' & Hm'); [by apply begun_planned|]. exists q. split; [by rewrite Hq|]. split; [done|].
  simpl in Hm'. destruct (en_phase e) as [| | |o] eqn:E; [done..| |].
  - intros Ho. destruct (Hm Ho) as [-> | ->]; [|by right]. apply Hm'. destruct Ho as (l & n & Hl & Hi & Ht & Hbn).
    destruct (H1 l n Hl Hbn) as (r & Hr & Hnr & _). exists l, (in_phase r n). split; [done|]. split; [done|]. split; [done|]. by apply begun_planned.
  - subst p. exact Hm'.
Qed.
Lemma lsteps_kept L L' : rtc (lstep false) L L' -> kept_begun L L'.
Proof. induction 1; [by apply kept_same|]. eapply kept_begun_trans; [by apply lstep_kept|done]. Qed.
