(* ===== verification/Deployments.v ===== *)
(** * The deployments ledger

    internal/store/application_apply.go and application_deployment.go: every write of the
    deployments table but the plan and the apply that build a frame (Apply.v): what a result, a
    refusal, a lost connection, a sweep or an unsent frame makes of a row, and what a settled
    apply or removal does to the instance and its resources.

    The table's CHECK clauses and its partial unique index on live rows (migrations 23 to 25, 29
    and 33) are statements' errors.  The plan and result columns are kept decoded; [stored_bytes]
    is the length of the stored result's JSON.  A fresh correlation identifier, for a row
    saved before they existed, is a function of the row. *)
From Stdlib Require Import ZArith QArith Lia Ascii String.
From stdpp Require Import base gmap strings list sorting.
From S2P Require Import Prelude Text Permissions Inspection Frame Spec Store TenantAccess Commands Direct Applications.
From S2P Require Import Preflight Adoption Schedule Policies Judge Validations.

#[local] Open Scope Z_scope.

Definition StatePlanned : string := "planned".
Definition StateApplying : string := "applying".
Definition deploymentStates : list string := StatePlanned :: StateApplying :: resultOutcomes.
Definition KindApply : string := "apply".
Definition KindRemove : string := "remove".
Definition CodeLegacy : string := "legacy".

Definition in_state (s : string) (d : DeploymentRow) : bool := bool_decide (d_state d = s).
Definition live (d : DeploymentRow) : bool := in_state StatePlanned d || in_state StateApplying d.
Definition acted (d : DeploymentRow) : bool := negb (in_state StatePlanned d).
Definition removal (d : DeploymentRow) : bool := bool_decide (d_kind d = KindRemove).

(** ** Rows *)

Definition deployment_row_ok (d : DeploymentRow) : bool :=
  bool_decide (d_state d ∈ deploymentStates) && bool_decide (d_kind d ∈ [KindApply; KindRemove]) && btw 1 100 (d_revision d)
  && btw 0 1000000000 (d_mapping d) && (removal d || (1 <=? d_mapping d)).

(** The partial unique index: one planned or applying row per instance. *)
Definition live_free (d : DeploymentRow) (db : DB) : bool :=
  negb (live d)
  || (count (fun o => live o && bool_decide (d_instance o = d_instance d) && negb (bool_decide (d_id o = d_id d))) (deployments db) =? 0).
Definition put_deployment (d : DeploymentRow) : tx unit :=
  free ← gets (live_free d);
  _ ← ensure free ErrUnique;
  known ← gets (fun db => match d_policy_run d with Some r => bool_decide (is_Some (runs db !! r)) | None => true end);
  _ ← ensure (known && deployment_row_ok d) ErrConstraint;
  modify (fun db => set_deployments (<[d_id d := d]> (deployments db)) db).
Definition insert_deployment (d : DeploymentRow) : tx unit :=
  free ← gets (fun db => bool_decide (deployments db !! d_id d = None));
  _ ← ensure free ErrUnique;
  known ← gets (fun db => match applications db !! d_app d with Some r => in_scope (d_org d) (d_env d) r | None => false end);
  _ ← ensure known ErrConstraint;
  put_deployment d.

(** [UPDATE deployments SET f WHERE id=? AND guard]: the rows affected. *)
Definition update_deployment (id : string) (guard : DeploymentRow -> bool) (f : DeploymentRow -> DeploymentRow) : tx Z :=
  row ← gets (fun db => deployments db !! id);
  match row with
  | Some d => if guard d then _ ← put_deployment (f d); mret 1 else mret 0
  | None => mret 0
  end.

Definition with_state (state detail : string) (d : DeploymentRow) : DeploymentRow :=
  mkDeployment (d_id d) (d_org d) (d_env d) (d_app d) (d_instance d) (d_endpoint d) state (d_expires d) (d_policy_run d)
    (d_kind d) (d_project d) (d_revision d) (d_digest d) (d_mapping d) (d_plan d) (d_created_by d) (d_created d)
    (d_applied_by d) (d_applied d) (d_deadline d) (d_settled d) detail (d_result d) (d_correlation d) (d_migration d).
Definition with_settled (now : time) (d : DeploymentRow) : DeploymentRow :=
  mkDeployment (d_id d) (d_org d) (d_env d) (d_app d) (d_instance d) (d_endpoint d) (d_state d) (d_expires d) (d_policy_run d)
    (d_kind d) (d_project d) (d_revision d) (d_digest d) (d_mapping d) (d_plan d) (d_created_by d) (d_created d)
    (d_applied_by d) (d_applied d) (d_deadline d) (Some now) (d_detail d) (d_result d) (d_correlation d) (d_migration d).
Definition with_stored (r : StoredResult) (d : DeploymentRow) : DeploymentRow :=
  mkDeployment (d_id d) (d_org d) (d_env d) (d_app d) (d_instance d) (d_endpoint d) (d_state d) (d_expires d) (d_policy_run d)
    (d_kind d) (d_project d) (d_revision d) (d_digest d) (d_mapping d) (d_plan d) (d_created_by d) (d_created d)
    (d_applied_by d) (d_applied d) (d_deadline d) (d_settled d) (d_detail d) (Some r) (d_correlation d) (d_migration d).
Definition with_expires (t : time) (d : DeploymentRow) : DeploymentRow :=
  mkDeployment (d_id d) (d_org d) (d_env d) (d_app d) (d_instance d) (d_endpoint d) (d_state d) t (d_policy_run d)
    (d_kind d) (d_project d) (d_revision d) (d_digest d) (d_mapping d) (d_plan d) (d_created_by d) (d_created d)
    (d_applied_by d) (d_applied d) (d_deadline d) (d_settled d) (d_detail d) (d_result d) (d_correlation d) (d_migration d).

(** ** Transitions of the system *)

Definition auditDeployment (user : string) (action : Action) (d : DeploymentRow) (outcome result : string) (at_ : time)
    (fresh : DeploymentRow -> string) : tx unit :=
  modify (add_audit (mkAudit user action (CleanText (d_app d +:+ "/deployments/" +:+ d_id d) 255) ("outcome=" +:+ outcome) "" at_
    "organization" (d_org d) (d_env d) (if nonempty (d_correlation d) then d_correlation d else fresh d) result)).
Definition deployment_action (d : DeploymentRow) : Action := if removal d then ApplicationDestroy else ApplicationDeploy.

Section transition.
Context (filter_ : DeploymentRow -> bool) (set_ : DeploymentRow -> DeploymentRow) (outcome result : string)
  (now : time) (fresh : DeploymentRow -> string).

Fixpoint transition_rows (l : list DeploymentRow) : tx Z :=
  match l with
  | [] => mret 0
  | r :: l' =>
      n ← update_deployment (d_id r) filter_ set_;
      if negb (n =? 1) then transition_rows l'
      else
        _ ← auditDeployment "system" (deployment_action r) r outcome result now fresh;
        total ← transition_rows l';
        mret (1 + total)
  end.
(** It selects first and updates each row under the same filter. *)
Definition systemTransition : tx Z :=
  affected ← gets (fun db => select filter_ (deployments db));
  transition_rows affected.
End transition.

Definition FailDeployment (id detail : string) (now : time) (fresh : DeploymentRow -> string) (db : DB) : res StoreErr unit * DB :=
  commit (_ ← systemTransition (fun d => bool_decide (d_id d = id) && (in_state StateApplying d || in_state OutcomeUnknown d))
                (fun d => with_settled now (with_state OutcomeFailed (CleanText detail 255) d)) "not_sent" "failure" now fresh;
          mret tt) db.
Definition AbandonDeployments (endpoint : string) (now : time) (fresh : DeploymentRow -> string) : DB -> res StoreErr Z * DB :=
  commit (systemTransition (fun d => bool_decide (d_endpoint d = endpoint) && in_state StateApplying d)
            (with_state OutcomeUnknown "the connection ended before a result arrived") "abandoned"
            (auditResults OutcomeUnknown) now fresh).
(** The first statement of [Prune]: an applying row past its deadline has lost its agent. *)
Definition sweepDeployments (now : time) (fresh : DeploymentRow -> string) : DB -> res StoreErr Z * DB :=
  commit (systemTransition (fun d => in_state StateApplying d && match d_deadline d with Some t => t <? now - 2 * Minute | None => false end)
            (with_state OutcomeUnknown "no result arrived before the deadline") "swept"
            (auditResults OutcomeUnknown) now fresh).

(** ** What may still take a result *)

Definition superseded (db : DB) (d : DeploymentRow) : bool :=
  existsb (fun n => bool_decide (d_instance n = d_instance d) && (d_created n >? d_created d) && acted n) (map snd (map_to_list (deployments db))).
Definition deployment_settleable (db : DB) (d : DeploymentRow) : bool :=
  in_state StateApplying d
  || (in_state OutcomeUnknown d && bool_decide (is_Some (instances db !! d_instance d)) && negb (superseded db d)).
Definition settling (endpoint id : string) (db : DB) : option DeploymentRow :=
  match deployments db !! id with
  | Some d => if bool_decide (d_endpoint d = endpoint) && deployment_settleable db d then Some d else None
  | None => None
  end.

Definition legacy_step (s : DeploymentStep) : DeploymentStep :=
  if bool_decide (st_code s = "") && negb (bool_decide (st_outcome s = OutcomeSucceeded)) && negb (bool_decide (st_outcome s = OutcomeSkipped))
  then mkStep (st_service s) (st_step s) (st_outcome s) CodeLegacy "" else s.
Definition legacyResult (r : DeploymentResult) : DeploymentResult :=
  if nonempty (rs_request r) then r
  else mkResult (rs_deployment r) (rs_request r) (rs_outcome r)
         (if bool_decide (rs_code r = "") && negb (bool_decide (rs_outcome r = OutcomeSucceeded)) then CodeLegacy else rs_code r)
         (map legacy_step (rs_steps r)) (rs_services r).

(** ** Settling an apply *)

Definition planned_by_name (plan : DeploymentPlan) : gmap string PlannedService :=
  foldl (fun m ps => <[ps_name ps := ps]> m) ∅ (pl_services plan).

(** Each identity names a distinct planned service and is what the plan pinned. *)
Fixpoint identities_fit (fits : PlannedService -> DeploymentIdentity -> bool) (planned : gmap string PlannedService)
    (seen : gset string) (l : list DeploymentIdentity) : bool :=
  match l with
  | [] => true
  | i :: l' =>
      match planned !! id_service i with
      | Some ps => negb (bool_decide (id_service i ∈ seen)) && fits ps i && identities_fit fits planned ({[id_service i]} ∪ seen) l'
      | None => false
      end
  end.
Definition docker_fits (ps : PlannedService) (i : DeploymentIdentity) : bool :=
  bool_decide (id_kind i = "")
  && (if nonempty (ps_pull_digest ps) then bool_decide (id_digest i = ps_pull_digest ps) else bool_decide (id_image i = ps_image ps)).
Definition cluster_fits (ps : PlannedService) (i : DeploymentIdentity) : bool :=
  match ps_object ps with
  | Some o => bool_decide (id_kind i = "Deployment") && bool_decide (id_namespace i = ko_namespace o)
              && bool_decide (id_name i = ko_name o) && bool_decide (id_digest i = ps_pull_digest ps)
  | None => false
  end.

Definition clearImageChecks (instance : string) : tx unit :=
  modify (fun db => set_image_checks (filter (fun kc => kc.1.1 <> instance) (image_checks db)) db).

Definition rebind (instance endpoint : string) (planned : gmap string PlannedService) (i : DeploymentIdentity) : tx unit :=
  let old := (endpoint, ps_container (default no_planned (planned !! id_service i))) in
  row ← gets (fun db => match resources db !! old with
                        | Some r => if bool_decide (xr_instance r = instance) then Some (xr_name r) else None
                        | None => None
                        end);
  name ← one row ErrAdoptionChanged;
  _ ← modify (fun db => set_resources (delete old (resources db)) db);
  insert_resource endpoint (id_container i) (mkResource instance name (id_image i) (id_created i * Second) (id_service i)).

Definition settleKubernetesApply (instance : string) (plan : DeploymentPlan) (r : DeploymentResult) : tx unit :=
  _ ← ensure (identities_fit cluster_fits (planned_by_name plan) ∅ (rs_services r)) ErrInvalid;
  if negb (bool_decide (rs_outcome r = OutcomeSucceeded)) then mret tt
  else
    _ ← ensure (llen (rs_services r) =? llen (pl_services plan)) ErrInvalid;
    clearImageChecks instance.
Definition settleApply (endpoint instance : string) (plan : DeploymentPlan) (r : DeploymentResult) : tx unit :=
  if nonempty (pl_namespace plan) then settleKubernetesApply instance plan r
  else
    let planned := planned_by_name plan in
    _ ← ensure (identities_fit docker_fits planned ∅ (rs_services r)) ErrInvalid;
    _ ← ensure (negb (bool_decide (rs_outcome r = OutcomeSucceeded)) || (llen (rs_services r) =? llen (pl_services plan))) ErrInvalid;
    _ ← tx_iter (rebind instance endpoint planned) (rs_services r);
    if bool_decide (rs_outcome r = OutcomeSucceeded) then clearImageChecks instance else mret tt.

(** ** Settling a removal *)

Definition step_kept (s : DeploymentStep) : bool :=
  bool_decide (st_step s = "volume") && bool_decide (st_outcome s = OutcomeSkipped) && bool_decide (st_detail s = "retained").
Definition removal_targets (plan : DeploymentPlan) : gmap string string :=
  foldl (fun m c => <[rp_service c := rp_container c]> m) ∅ (pl_containers plan).
(** What each step of each service said; [None] for a step that is none of a removal's. *)
Fixpoint removal_outcomes (targets : gmap string string) (acc : gmap (string * string) string) (l : list DeploymentStep)
    : option (gmap (string * string) string) :=
  match l with
  | [] => Some acc
  | s :: l' =>
      if negb (bool_decide (is_Some (targets !! st_service s))) || negb (bool_decide (st_step s ∈ ["precondition"; "stop"; "remove"]))
         || bool_decide (is_Some (acc !! (st_service s, st_step s)))
      then None else removal_outcomes targets (<[(st_service s, st_step s) := st_outcome s]> acc) l'
  end.
Definition off_host (outcomes : gmap (string * string) string) (service : string) : bool :=
  let o := fun step => default "" (outcomes !! (service, step)) in
  bool_decide (o "precondition" = OutcomeSucceeded)
  && (bool_decide (o "remove" = OutcomeSucceeded)
      || (bool_decide (o "stop" = OutcomeSkipped) && bool_decide (o "remove" = OutcomeSkipped))).

Definition releaseRemoved (app instance : string) (now : time) : tx unit :=
  _ ← modify (fun db => set_resources (filter (fun kr => xr_instance kr.2 <> instance) (resources db)) db);
  _ ← modify (delete_instance instance);
  modify (fun db => match applications db !! app with
                    | Some r => set_applications (<[app := with_removed (Some now) r]> (applications db)) db
                    | None => db
                    end).
Definition forget_resource (instance endpoint container : string) (db : DB) : DB :=
  match resources db !! (endpoint, container) with
  | Some r => if bool_decide (xr_instance r = instance) then set_resources (delete (endpoint, container) (resources db)) db else db
  | None => db
  end.
Definition settleRemoval (endpoint app instance : string) (plan : DeploymentPlan) (r : DeploymentResult) (now : time) : tx unit :=
  _ ← ensure (negb (llen (rs_services r) >? 0)) ErrInvalid;
  let done := bool_decide (rs_outcome r = OutcomeSucceeded) in
  if nonempty (pl_namespace plan) then
    _ ← ensure (forallb (fun s => bool_decide (st_step s ∈ ["precondition"; "remove"]) || step_kept s) (rs_steps r)) ErrInvalid;
    if done then releaseRemoved app instance now else mret tt
  else
    let targets := removal_targets plan in
    outcomes ← one (removal_outcomes targets ∅ (rs_steps r)) ErrInvalid;
    let gone := List.filter (fun sc => off_host outcomes sc.1) (map_to_list targets) in
    _ ← ensure (negb done || (llen gone =? msize targets)) ErrInvalid;
    _ ← modify (fun db => foldl (fun db sc => forget_resource instance endpoint sc.2 db) db gone);
    if done then releaseRemoved app instance now else mret tt.

(** ** Settling *)

Definition with_revision (revision : Z) (i : InstanceRow) : InstanceRow :=
  mkInstance (i_app i) (i_endpoint i) (i_org i) (i_env i) (i_project i) (i_revision i) (i_created_by i) (i_created i)
    (i_mapping i) (i_mapped i) revision (i_current i) (i_namespace i).
Definition expire_newer (d : DeploymentRow) (now : time) (n : DeploymentRow) : DeploymentRow :=
  if bool_decide (d_instance n = d_instance d) && in_state StatePlanned n && (d_created n >? d_created d) then with_expires now n else n.

Definition storedOf (r : DeploymentResult) : StoredResult := mkStored (rs_code r) (rs_steps r) (rs_services r).
Definition with_settlement (r : DeploymentResult) (now : time) (d : DeploymentRow) : DeploymentRow :=
  with_settled now (with_stored (storedOf r) (with_state (rs_outcome r) "" d)).

Definition settle_body (endpoint : string) (r : DeploymentResult) (now : time) (fresh : DeploymentRow -> string) : tx unit :=
  row ← gets (settling endpoint (rs_deployment r));
  d ← one row ErrNotFound;
  _ ← ensure (negb (nonempty (rs_request r) && negb (bool_decide (rs_request r = d_correlation d)))) ErrInvalid;
  plan ← one (d_plan d) ErrRevisionCorrupt;
  _ ← (if removal d then settleRemoval endpoint (d_app d) (d_instance d) plan r now else settleApply endpoint (d_instance d) plan r);
  n ← update_deployment (rs_deployment r) (fun d => in_state StateApplying d || in_state OutcomeUnknown d) (with_settlement r now);
  _ ← ensure (n =? 1) ErrNotFound;
  _ ← (if bool_decide (d_kind d = KindApply) && bool_decide (rs_outcome r = OutcomeSucceeded) then
         _ ← modify (fun db => set_instances (alter (with_revision (d_revision d)) (d_instance d) (instances db)) db);
         insertValidation (d_org d) (d_env d) (d_app d) (d_instance d) endpoint (rs_deployment r) (d_correlation d) (fresh d) now
       else mret tt);
  _ ← modify (fun db => set_deployments (expire_newer d now <$> deployments db) db);
  auditDeployment ("agent:" +:+ endpoint) (deployment_action d) d (rs_outcome r) (auditResults (rs_outcome r)) now fresh.

Section settle.
Context (stored_bytes : StoredResult -> Z).

Definition SettleDeployment (endpoint : string) (r : DeploymentResult) (now : time) (fresh : DeploymentRow -> string) (db : DB)
    : res StoreErr unit * DB :=
  let r := legacyResult r in
  if negb (is_ok (result_validate r)) then (Fail ErrUnreadableResult, db)
  else if stored_bytes (storedOf r) >? MaxDeploymentResultStoredBytes then (Fail ErrInvalid, db)
  else commit (settle_body endpoint r now fresh) db.
End settle.

Definition refuse_body (endpoint id detail : string) (now : time) (fresh : DeploymentRow -> string) : tx unit :=
  row ← gets (settling endpoint id);
  d ← one row ErrNotFound;
  let detail := CleanText detail 255 in
  n ← update_deployment id (fun d => in_state StateApplying d || (in_state OutcomeUnknown d && negb (bool_decide (d_detail d = detail))))
        (with_state OutcomeUnknown detail);
  if negb (n =? 1) then mret tt
  else auditDeployment ("agent:" +:+ endpoint) (deployment_action d) d "refused" (auditResults OutcomeUnknown) now fresh.
Definition RefuseDeploymentResult (endpoint id detail : string) (now : time) (fresh : DeploymentRow -> string)
    : DB -> res StoreErr unit * DB := commit (refuse_body endpoint id detail now fresh).
