(* ===== verification/Apply.v ===== *)
(** * Planning a row, applying it, removing an application

    internal/store/application_apply.go and application_deployment.go: the plan's row, the frame
    built from it with the values and credentials it carries, the flip to applying, the removal of
    an application, and reading deployments.

    Parameters: those of Applications.v and Registries.v, [allowPrivileged] (the server's
    setting), and the lengths of three JSON texts: a plan, a frame, a removal.  The clock readings
    of one call are one instant. *)
From Stdlib Require Import ZArith QArith Lia Ascii String.
From stdpp Require Import base gmap strings list sorting.
From S2P Require Import Prelude Text Permissions Inspection Frame Inventory Clamp Reference KubeNames Spec Store TenantAccess Commands Direct.
From S2P Require Import Applications Registries Preflight Adoption Schedule Policies Judge Validations Deployments.

#[local] Open Scope Z_scope.

Definition DeploymentPlanTTL : Z := 10 * Minute.
Definition MaxDeploymentPlanBytes : Z := 65536.
Definition LocalDockerEndpointID : string := "ep_local_docker".

(** ** Guards *)

(** exec.go: the actions that reach the server's own host. *)
Definition localProtected : list Action := [ContainerExec; ContainerConfigure; ContainerDestroy].
Definition localDockerGuard (a : TenantAccess) (action : Action) (endpoint : string) : tx unit :=
  if negb (bool_decide (endpoint = LocalDockerEndpointID)) || negb (bool_decide (action ∈ localProtected)) then mret tt
  else
    row ← gets (fun db => users db !! ActorID a);
    u ← one row ErrForbidden;
    ensure (bool_decide (u_status u = "active") && PlatformAllows (u_role u) PlatformAdmin) ErrForbidden.

Definition hostBindAllowed (allowPrivileged : bool) (a : TenantAccess) : tx bool := fun db =>
  if negb allowPrivileged then Ok (false, db)
  else match principalRole a db with
       | Ok (role, db') => Ok (Allows role ContainerConfigure, db')
       | Fail e => if bool_decide (e = errNoPrincipal) then Ok (false, db) else Fail e
       end.

(** ** The plan's row *)

(** The instance's one planned or applying row. *)
Definition live_here (a : TenantAccess) (instance : string) (db : DB) : option DeploymentRow :=
  List.find (fun d => bool_decide (d_org d = OrganizationID a) && bool_decide (d_env d = EnvironmentID a)
                      && bool_decide (d_instance d = instance) && live d) (map snd (map_to_list (deployments db))).

Section frames.
Context (Unmarshal : string -> option ApplicationSpec) (sum_hex : string -> string)
  (UnmarshalValues : string -> option (gmap string string)) (DeriveKey : string -> string -> string)
  (DecryptAESGCM : string -> string -> option string) (uuid_parse : string -> option string).
Context (frame_bytes : DeploymentRequest -> Z) (plan_bytes : DeploymentPlan -> Z) (removal_bytes : RemovalRequest -> Z)
  (allowPrivileged : bool).

(** Replaces the instance's planned row, refusing while one is applying. *)
Definition insertPlan (a : TenantAccess) (d : DeploymentRow) (plan : DeploymentPlan) (instance : string) : tx unit :=
  _ ← ensure (plan_bytes plan <=? MaxDeploymentPlanBytes) ErrInvalid;
  found ← gets (live_here a instance);
  _ ← ensure (negb (match found with Some l => in_state StateApplying l | None => false end)) ErrDeploymentInProgress;
  _ ← (match found with
       | Some l => modify (delete_deployments (fun o => bool_decide (d_id o = d_id l)))
       | None => mret tt
       end);
  insert_deployment d.

(** ** The frame *)

Definition serviceEnv (s : ApplicationService) (values : gmap string string) : gmap string string :=
  (fun ref => default "" (values !! ref)) <$> as_environment s.
Definition frame_port (withIP : bool) (p : ApplicationPort) : Port :=
  mkPort (if withIP then ap_host_ip p else "") (ap_published p) (ap_target p) (ap_protocol p).

Definition pulled_tag (ref : Reference) : string :=
  if nonempty (rf_digest ref) then "" else rf_host ref +:+ "/" +:+ rf_repository ref +:+ ":" +:+ rf_tag ref.
Definition docker_service (a : TenantAccess) (names : gmap string string) (snapshot : Snapshot) (values : gmap string string)
    (sp : ApplicationService * PlannedService) : tx DeploymentService :=
  let '(s, ps) := sp in
  let pulled := nonempty (ps_pull_digest ps) in
  name ← one (names !! ps_container ps) ErrAdoptionChanged;
  _ ← ensure (bool_decide (as_name s = ps_name ps)) ErrAdoptionChanged;
  _ ← (if keepsHostBind (ps_mounts ps) (it_image (ps_replaces ps)) (if pulled then "" else ps_image ps) snapshot then
         allowed ← hostBindAllowed allowPrivileged a; ensure allowed (PreflightBlocked ["host_bind_kept"] [])
       else mret tt);
  pull ← (if pulled then
            ref ← one (ParseReference (ps_reference ps)) ErrAdoptionChanged;
            mret (Some (mkPull (ps_pull_reference ps) (ps_pull_digest ps) (pulled_tag ref)))
          else mret None);
  mret (mkService (ps_name ps) name (if pulled then "" else ps_image ps) (ps_replaces ps) (ps_restart ps)
          (map (frame_port true) (ps_ports ps)) (serviceEnv s values) pull (Some (ps_mounts ps)) [] [] "" None).

(** A host's credential; a host without a row pulls anonymously while the organization allows it. *)
Definition host_credential (a : TenantAccess) (key host : string) : tx (option Credential) :=
  found ← or_missing (registryFor DeriveKey DecryptAESGCM (OrganizationID a) host key);
  match found with
  | Some (_, c) => mret c
  | None => enabled ← anonymousPull (OrganizationID a); _ ← ensure enabled ErrAdoptionChanged; mret None
  end.
Definition pulled_hosts (services : list DeploymentService) : list string :=
  base.elements (list_to_set (omap (fun s => Host <$> s_pull s) services) : gset string).
Definition frame_registries (hosts : list string) (creds : list (option Credential)) : gmap string RegistryAuth :=
  list_to_map (omap (fun hc : string * option Credential => (fun c => (hc.1, mkAuth (cr_username c) (cr_secret c))) <$> hc.2) (zip hosts creds)).

Definition dockerFrame (a : TenantAccess) (d : DeploymentRow) (plan : DeploymentPlan) (spec : ApplicationSpec) (values : gmap string string)
    (key : string) (now : time) : tx DeploymentRequest :=
  names ← gets (fun db => list_to_map (map (fun r => (r.1, xr_name r.2)) (instance_resources (d_instance d) (d_endpoint d) db)) : gmap string string);
  snapshot ← read_snapshot (d_endpoint d) ErrAdoptionChanged;
  services ← tx_map (docker_service a names snapshot values) (zip (sp_services spec) (pl_services plan));
  let hosts := pulled_hosts services in
  creds ← tx_map (host_credential a key) hosts;
  mret (mkRequest (d_id d) (d_correlation d) (d_endpoint d) (pl_project plan) (d_revision d) now (now + DeploymentApplyDeadline) services
          (frame_registries hosts creds) (pl_volumes plan) None false).

Definition kubernetes_service (spec : ApplicationSpec) (values : gmap string string) (sp : ApplicationService * PlannedService) : tx DeploymentService :=
  let '(s, ps) := sp in
  _ ← ensure (bool_decide (as_name s = ps_name ps) && nonempty (ps_pull_digest ps) && bool_decide (is_Some (ps_object ps))
              && bool_decide (ps_cluster_ip ps = serviceIP (sp_kubernetes spec) (ps_name ps))) ErrAdoptionChanged;
  mret (mkService (ps_name ps) "" "" no_target (ps_restart ps) (map (frame_port false) (ps_ports ps)) (serviceEnv s values)
          (Some (mkPull (ps_pull_reference ps) (ps_pull_digest ps) "")) (Some [])
          (merge_sort str_le (map fst (map_to_list (as_environment s)))) (ps_claim_mounts ps) (ps_cluster_ip ps) None).

Definition kubernetesFrame (a : TenantAccess) (d : DeploymentRow) (plan : DeploymentPlan) (spec : ApplicationSpec) (values : gmap string string)
    (key : string) (now : time) : tx DeploymentRequest :=
  capable ← gets (fun db => default ∅ (capabilities db !! d_endpoint d));
  let b := capabilityBlockers capable plan in
  _ ← ensure (bool_decide (b = [])) (PreflightBlocked b []);
  joined ← gets (fun db => match instances db !! d_instance d, endpoints db !! d_endpoint d with
                           | Some i, Some e => if bool_decide (i_org i = OrganizationID a) && bool_decide (i_env i = EnvironmentID a)
                                                  && bool_decide (i_endpoint i = d_endpoint d) then Some (i_namespace i, ep_namespaces e) else None
                           | _, _ => None
                           end);
  nn ← one joined ErrAdoptionChanged;
  _ ← ensure (bool_decide (nn.1 = pl_namespace plan)) ErrAdoptionChanged;
  _ ← ensure (bool_decide (nn.1 ∈ nn.2)) (PreflightBlocked ["k8s_namespace"] []);
  services ← tx_map (kubernetes_service spec values) (zip (sp_services spec) (pl_services plan));
  _ ← tx_map (host_credential a key) (pulled_hosts services);
  mret (mkRequest (d_id d) (d_correlation d) (d_endpoint d) (pl_project plan) (d_revision d) now (now + DeploymentApplyDeadline) services ∅ []
          (Some (mkKTarget nn.1 (d_app d) (d_instance d) (d_digest d) (pl_claims plan))) false).

Definition buildDeploymentFrame (a : TenantAccess) (d : DeploymentRow) (plan : DeploymentPlan) (key : string) (now : time) : tx DeploymentRequest :=
  svd ← resolveApplicationValues Unmarshal sum_hex UnmarshalValues DeriveKey DecryptAESGCM a (d_app d) (d_revision d) key;
  let '(spec, values, digest) := svd in
  _ ← ensure (bool_decide (digest = d_digest d) && (llen (sp_services spec) =? llen (pl_services plan))) ErrAdoptionChanged;
  _ ← ensure (nonempty (d_correlation d)) ErrAdoptionChanged;
  if nonempty (pl_namespace plan) then kubernetesFrame a d plan spec values key now else dockerFrame a d plan spec values key now.

Definition blocked_error (b : option (list string * list BlockedService)) : tx unit :=
  match b with Some (blockers, services) => throw (PreflightBlocked blockers services) | None => mret tt end.
Definition checkFrame (a : TenantAccess) (d : DeploymentRow) (plan : DeploymentPlan) (key : string) (maxFrameBytes : Z) (now : time) : tx unit :=
  req ← buildDeploymentFrame a d plan key now;
  let b := frameBlocker frame_bytes req now maxFrameBytes in
  if nonempty b then blocked_error (blocked [b] []) else mret tt.

(** ** Applying *)

Definition openMigration (g : MigrationRow) : bool := negb (bool_decide (mg_status g ∈ ["cutover_confirmed"; "abandoned"])).
Definition destination_migration (a : TenantAccess) (app : string) (db : DB) : option string :=
  fst <$> List.find (fun kg => bool_decide (mg_org kg.2 = OrganizationID a) && bool_decide (mg_env kg.2 = EnvironmentID a)
                               && bool_decide (mg_destination kg.2 = Some app) && openMigration kg.2) (map_to_list (migrations db)).
Definition deployment_of (a : TenantAccess) (app id : string) (db : DB) : option DeploymentRow :=
  match deployments db !! id with
  | Some d => if bool_decide (d_org d = OrganizationID a) && bool_decide (d_env d = EnvironmentID a) && bool_decide (d_app d = app) then Some d else None
  | None => None
  end.

Definition with_flip (by_ : string) (now deadline : time) (run migration : option string) (d : DeploymentRow) : DeploymentRow :=
  mkDeployment (d_id d) (d_org d) (d_env d) (d_app d) (d_instance d) (d_endpoint d) StateApplying (d_expires d) run
    (d_kind d) (d_project d) (d_revision d) (d_digest d) (d_mapping d) (d_plan d) (d_created_by d) (d_created d)
    by_ (Some now) (Some deadline) (d_settled d) (d_detail d) (d_result d) (d_correlation d) migration.

(** The instance the row is of and its endpoint, when both are still there. *)
Definition target_of (a : TenantAccess) (d : DeploymentRow) (db : DB) : option (InstanceRow * EndpointRow) :=
  match instances db !! d_instance d with
  | Some i => if bool_decide (i_endpoint i = d_endpoint d) && bool_decide (i_org i = OrganizationID a) && bool_decide (i_env i = EnvironmentID a)
              then (fun e => (i, e)) <$> endpoints db !! i_endpoint i else None
  | None => None
  end.

Definition apply_body (a : TenantAccess) (app id confirm key : string) (maxFrameBytes : Z) (run : option string) (guard : tx unit) (now : time)
    : tx (DeploymentRow * DeploymentRequest) :=
  row ← gets (app_of a app);
  head ← one row ErrNotFound;
  _ ← guard;
  found ← gets (deployment_of a app id);
  d ← one found ErrNotFound;
  plan ← one (d_plan d) ErrRevisionCorrupt;
  _ ← ensure (negb (in_state StateApplying d)) ErrDeploymentInProgress;
  _ ← ensure (bool_decide (confirm = pl_project plan)) ErrInvalid;
  _ ← ensure (bool_decide (d_kind d = KindApply) && in_state StatePlanned d && (now <? d_expires d)
              && (1 <=? d_revision d) && (d_revision d <=? app_latest head)) ErrAdoptionChanged;
  joined ← gets (target_of a d);
  ie ← one joined ErrAdoptionChanged;
  _ ← ensure (i_mapping ie.1 =? d_mapping d) ErrAdoptionChanged;
  _ ← ensure (bool_decide (ep_state ie.2 = "active")) ErrEndpointOffline;
  frame ← buildDeploymentFrame a d plan key now;
  _ ← ensure (negb (nonempty (frameBlocker frame_bytes frame now maxFrameBytes))) ErrInvalid;
  migration ← gets (destination_migration a app);
  let flip := with_flip (Principal a) now (dr_deadline frame) run migration in
  n ← update_deployment (d_id d) (in_state StatePlanned) flip;
  _ ← ensure (n =? 1) ErrAdoptionChanged;
  mret (flip d, frame).

Definition carrying (a : TenantAccess) (correlation : string) : TenantAccess :=
  mkAccess (ActorID a) (OrganizationID a) (EnvironmentID a) correlation (IPAddress a) (ServiceTokenID a).
(** Every audit row of a deployment carries its plan's correlation identifier. *)
Definition plan_access (a : TenantAccess) (app id : string) (db : DB) : TenantAccess :=
  match deployment_of a app id db with
  | Some d => if nonempty (d_correlation d) then carrying a (d_correlation d) else a
  | None => a
  end.
Definition applyDeployment (a : TenantAccess) (app id confirm key : string) (maxFrameBytes : Z) (run : option string)
    (guard : TenantAccess -> string -> tx unit) (now : time) (fresh : string) (db : DB) : res StoreErr (DeploymentRow * DeploymentRequest) * DB :=
  match uuid_parse app with
  | Some app =>
      if negb (nonempty (EnvironmentID a)) || negb (len key =? 32) then (Fail ErrInvalid, db)
      else match uuid_parse id with
           | Some id =>
               let a := plan_access a app id db in
               withTenantTarget a ApplicationDeploy (app +:+ "/deployments/" +:+ id +:+ "/apply")
                 (apply_body a app id confirm key maxFrameBytes run (guard a app) now) now fresh db
           | None => (Fail ErrNotFound, db)
           end
  | None => (Fail ErrInvalid, db)
  end.
Definition ApplyDeployment (a : TenantAccess) (app id confirm key : string) (maxFrameBytes : Z) :=
  applyDeployment a app id confirm key maxFrameBytes None (fun _ _ => mret tt).

Definition policy_guard (policy : string) (a : TenantAccess) (app : string) : tx unit :=
  row ← gets (fun db => policies db !! policy);
  p ← one row ErrPolicyChanged;
  _ ← ensure (policy_here a app p) ErrPolicyChanged;
  ensure (active p && bool_decide (p_mode p = PolicyModeApply) && bool_decide (p_created_by p = ActorID a)) ErrPolicyChanged.
Definition ApplyPolicyDeployment (a : TenantAccess) (policy run app id confirm key : string) (maxFrameBytes : Z) :=
  applyDeployment a app id confirm key maxFrameBytes (if nonempty run then Some run else None) (policy_guard policy).

(** ** Removing an application *)

(** A claim another revision already named is kept once, a mount of it per service once. *)
Definition merge_claims (seen claims : list KubernetesClaim) : list KubernetesClaim := foldl add_claim seen claims.
Definition add_mount (l : list KubernetesMount) (m : KubernetesMount) : list KubernetesMount :=
  if existsb (fun x => bool_decide (km_claim x = km_claim m)) l then l else l ++ [m].
Definition merge_mounts (acc m : gmap string (list KubernetesMount)) : gmap string (list KubernetesMount) :=
  foldl (fun acc sl => <[sl.1 := foldl add_mount (default [] (acc !! sl.1)) sl.2]> acc) acc (map_to_list m).
Fixpoint revision_services_loop (a : TenantAccess) (app project : string) (services : gset string) (claims : list KubernetesClaim)
    (mounts : gmap string (list KubernetesMount)) (numbers : list Z)
    : tx (list string * list KubernetesClaim * gmap string (list KubernetesMount)) :=
  match numbers with
  | [] => mret (merge_sort str_le (base.elements services), claims, mounts)
  | number :: numbers' =>
      if number =? 0 then revision_services_loop a app project services claims mounts numbers'
      else
        row ← gets (revision_of a app number);
        r ← one row ErrNoRows;
        _ ← ensure (bool_decide (applicationSpecDigest sum_hex (rv_spec r) = rv_digest r)) ErrRevisionCorrupt;
        spec ← one (Unmarshal (rv_spec r)) ErrRevisionCorrupt;
        let cm := kubernetesClaims sum_hex project spec in
        revision_services_loop a app project (list_to_set (serviceNames spec) ∪ services) (merge_claims claims cm.1)
          (merge_mounts mounts cm.2) numbers'
  end.
Definition revisionServices (a : TenantAccess) (app project : string) (numbers : list Z) :=
  revision_services_loop a app project ∅ [] ∅ numbers.

(** The instance's row acted on last: ORDER BY created_at DESC, id DESC. *)
Definition last_acted (instance : string) (db : DB) : option DeploymentRow :=
  last (select_by d_created d_id (fun d => bool_decide (d_instance d = instance) && acted d) (deployments db)).
Definition removalBlockers (endpoint instance project : string) (adopted : list RemovalPlanTarget) (now : time) : tx unit :=
  joined ← gets (fun db => match endpoints db !! endpoint, inventories db !! endpoint with Some e, Some v => Some (e, v) | _, _ => None end);
  ev ← one joined ErrAdoptionChanged;
  fresh ← one (freshInventory (ep_state ev.1) (iv_snapshot ev.2) (iv_received ev.2) (iv_observed ev.2) now) ErrAdoptionChanged;
  let owned := map rp_container adopted in
  let stray := existsb (fun c => bool_decide (ct_project c = project) && negb (bool_decide (ct_id c ∈ owned))) (sn_containers fresh.1) in
  newest ← gets (last_acted instance);
  let unknown := match newest with Some d => bool_decide (d_kind d = KindApply) && in_state OutcomeUnknown d | None => false end in
  let b := when stray "unadopted_project_containers" ++ when unknown "apply_outcome_unknown" in
  ensure (bool_decide (b = [])) (PreflightBlocked b []).

Definition removal_plan_target (kr : string * ResourceRow) : RemovalPlanTarget :=
  mkRemovalPlan (if nonempty (xr_service kr.2) then xr_service kr.2 else "unmapped-" +:+ take_str 12 kr.1)
    kr.1 (xr_image kr.2) (xr_created kr.2 / Second) (xr_name kr.2).
Definition removal_target (c : RemovalPlanTarget) : RemovalTarget :=
  mkRemovalTarget (rp_service c) (mkTarget (rp_container c) (rp_image c) (rp_created c) no_workload).
Definition planned_removal (mounts : gmap string (list KubernetesMount)) (name : string) : PlannedService :=
  mkPlanned name "" "" "" "" no_target "" [] [] "" "" [] [] None (default [] (mounts !! name)) "".

(** What a removal names: a host's containers, or a cluster's services. *)
Definition removal_scope (a : TenantAccess) (app instance : string) (i : InstanceRow) (head : Z) (digest request id : string) (now : time)
    : tx (DeploymentPlan * RemovalRequest * Z) :=
  if nonempty (i_namespace i) then
    scm ← revisionServices a app (i_project i) [head; i_current i];
    let '(services, claims, mounts) := scm in
    mret (mkPlan (i_project i) (map (planned_removal mounts) services) [] [] (i_namespace i) claims,
          mkRemoval id request (i_endpoint i) (i_project i) now (now + DeploymentApplyDeadline) []
            (Some (mkKTarget (i_namespace i) app instance digest [])) services, llen services)
  else
    rows ← gets (instance_resources instance (i_endpoint i));
    let cs := map removal_plan_target rows in
    _ ← ensure (negb (llen cs =? 0)) ErrAdoptionChanged;
    mret (mkPlan (i_project i) [] cs [] "" [],
          mkRemoval id request (i_endpoint i) (i_project i) now (now + DeploymentApplyDeadline) (map removal_target cs) None [], llen cs).

Definition remove_body (a : TenantAccess) (app instance confirm id : string) (now : time) : act (DeploymentRow * RemovalRequest) :=
  dre ← lift (
    row ← gets (app_of a app);
    head ← one row ErrNotFound;
    joined ← gets (fun db => match instances db !! instance with
                             | Some i => if inst_here a app i then (fun e => (i, e)) <$> endpoints db !! i_endpoint i else None
                             | None => None
                             end);
    ie ← one joined ErrAdoptionChanged;
    let '(i, e) := ie in
    _ ← ensure (Bool.eqb (bool_decide (ep_runtime e = RuntimeKubernetes)) (nonempty (i_namespace i))) ErrRuntimeUnsupported;
    _ ← localDockerGuard a ContainerDestroy (i_endpoint i);
    _ ← ensure (bool_decide (confirm = i_project i)) ErrInvalid;
    migrating ← gets (fun db => count (fun g => bool_decide (mg_org g = OrganizationID a) && bool_decide (mg_env g = EnvironmentID a)
                                                && bool_decide (mg_app g = app) && openMigration g) (migrations db));
    _ ← ensure (negb (migrating >? 0)) ErrMigrationOpen;
    _ ← ensure (bool_decide (ep_state e = "active")) ErrEndpointOffline;
    _ ← refuse_live a (fun _ => true) instance now;
    rrow ← gets (revision_of a app (app_latest head));
    r ← one rrow ErrNoRows;
    prc ← removal_scope a app instance i (app_latest head) (rv_digest r) (CorrelationID a) id now;
    let '(plan, req, n) := prc in
    _ ← ensure (negb (n >? MaxRemovalTargets)) ErrRemovalTooLarge;
    _ ← removalBlockers (i_endpoint i) instance (i_project i) (pl_containers plan) now;
    _ ← ensure (is_ok (removal_validate req now)) ErrInvalid;
    _ ← ensure (removal_bytes req <=? MaxDeploymentRequestBytes) ErrInvalid;
    _ ← ensure (plan_bytes plan <=? MaxDeploymentPlanBytes) ErrInvalid;
    let d := mkDeployment id (OrganizationID a) (EnvironmentID a) app instance (i_endpoint i) StateApplying (rm_deadline req) None
               KindRemove (i_project i) (app_latest head) (rv_digest r) (i_mapping i) (Some plan) (ActorID a) now (ActorID a) (Some now)
               (Some (rm_deadline req)) None "" None (CorrelationID a) None in
    _ ← insert_deployment d;
    mret (d, req, n));
  let '(d, req, n) := dre in
  _ ← set_details ("project=" +:+ d_project d +:+ " endpoint=" +:+ d_endpoint d +:+ " "
                   +:+ (if bool_decide (is_Some (rm_kubernetes req)) then "services" else "containers") +:+ "=" +:+ Itoa n);
  mret (d, req).
Definition RemoveApplication (a : TenantAccess) (app instance confirm id correlation : string) (now : time) (fresh : string) (db : DB)
    : res StoreErr (DeploymentRow * RemovalRequest) * DB :=
  match uuid_parse app with
  | Some app =>
      if negb (nonempty (EnvironmentID a)) then (Fail ErrInvalid, db)
      else match uuid_parse instance with
           | Some instance =>
               let a := if nonempty (CorrelationID a) then a else carrying a correlation in
               run a ApplicationDestroy (mkNotes (Some (app +:+ "/deployments/" +:+ id)) (Some "")) true
                 (remove_body a app instance confirm id now) now fresh db
           | None => (Fail ErrAdoptionChanged, db)
           end
  | None => (Fail ErrInvalid, db)
  end.

(** ** Reading *)

Record Deployment := mkDeploymentView {
  dv_row : DeploymentRow; dv_endpoint_name : string; dv_plan : DeploymentPlan; dv_expired : bool;
  dv_result : option DeploymentResult; dv_validation : option ValidationRow; dv_retained : list string }.

Definition kept_steps (r : DeploymentResult) (service : string) : Z :=
  llen (List.filter (fun s => step_kept s && bool_decide (st_service s = service)) (rs_steps r)).
Definition retainedClaims (d : DeploymentRow) (plan : DeploymentPlan) (result : option DeploymentResult) : list string :=
  match result with
  | Some r =>
      if negb (removal d) || bool_decide (pl_namespace plan = "") then []
      else merge_sort str_le (mjoin (map (fun ps =>
             let n := kept_steps r (ps_name ps) in
             if (n >? 0) && (n =? llen (ps_claim_mounts ps)) then map km_claim (ps_claim_mounts ps) else []) (pl_services plan)))
  | None => []
  end.
Definition scanDeployment (d : DeploymentRow) (now : time) : tx Deployment :=
  plan ← one (d_plan d) ErrRevisionCorrupt;
  name ← gets (fun db => match endpoints db !! d_endpoint d with Some e => ep_name e | None => "" end);
  validation ← gets (fun db => validations db !! d_id d);
  let result := (fun s => legacyResult (mkResult (d_id d) "" (d_state d) (sr_code s) (sr_steps s) (sr_services s))) <$> d_result d in
  mret (mkDeploymentView d name plan (negb (now <? d_expires d)) result validation (retainedClaims d plan result)).

Definition ReadDeployment (a : TenantAccess) (app id : string) (now : time) (fresh : string) (db : DB) : res StoreErr Deployment * DB :=
  match uuid_parse app with
  | Some app =>
      if negb (nonempty (EnvironmentID a)) then (Fail ErrInvalid, db)
      else match uuid_parse id with
           | Some id => readTenant a ApplicationRead (row ← gets (deployment_of a app id); d ← one row ErrNotFound; scanDeployment d now) now fresh db
           | None => (Fail ErrNotFound, db)
           end
  | None => (Fail ErrInvalid, db)
  end.
Definition newest_first (x y : DeploymentRow) : Prop :=
  d_created y < d_created x \/ (d_created x = d_created y /\ String.leb (d_id x) (d_id y) = true).
#[export] Instance newest_first_dec : RelDecision newest_first.
Proof. intros x y. unfold newest_first. apply _. Defined.
Definition ListDeployments (a : TenantAccess) (app : string) (now : time) (fresh : string) (db : DB) : res StoreErr (list Deployment) * DB :=
  match uuid_parse app with
  | Some app =>
      if negb (nonempty (EnvironmentID a)) then (Fail ErrInvalid, db)
      else readTenant a ApplicationRead (
        rows ← gets (fun db => take 100 (merge_sort newest_first
                 (select (fun d => bool_decide (d_org d = OrganizationID a) && bool_decide (d_env d = EnvironmentID a) && bool_decide (d_app d = app))
                    (deployments db))));
        tx_map (fun d => scanDeployment d now) rows) now fresh db
  | None => (Fail ErrInvalid, db)
  end.
End frames.

(** ** What only reads *)

Lemma reads_hostBindAllowed allowPrivileged a : Reads (hostBindAllowed allowPrivileged a).
Proof.
  intros db x db'. unfold hostBindAllowed. destruct (negb allowPrivileged); [by intros [= _ <-]|].
  destruct (principalRole a db) as [[role d]|e] eqn:E; [intros [= _ <-]; by apply reads_principalRole in E|].
  by case_bool_decide; intros [= _ <-].
Qed.
Lemma reads_localDockerGuard a action endpoint : Reads (localDockerGuard a action endpoint).
Proof. unfold localDockerGuard. keeps. Qed.
#[export] Hint Resolve reads_hostBindAllowed reads_localDockerGuard : keeps.

Section reads.
Context (Unmarshal : string -> option ApplicationSpec) (sum_hex : string -> string)
  (UnmarshalValues : string -> option (gmap string string)) (DeriveKey : string -> string -> string)
  (DecryptAESGCM : string -> string -> option string) (frame_bytes : DeploymentRequest -> Z) (allowPrivileged : bool).

Lemma reads_docker_service a names snapshot values sp : Reads (docker_service allowPrivileged a names snapshot values sp).
Proof. destruct sp. unfold docker_service. keeps. Qed.
Lemma reads_host_credential a key host : Reads (host_credential DeriveKey DecryptAESGCM a key host).
Proof. unfold host_credential. keeps. Qed.
Lemma reads_kubernetes_service spec values sp : Reads (kubernetes_service spec values sp).
Proof. destruct sp. unfold kubernetes_service. keeps. Qed.
#[local] Hint Resolve reads_docker_service reads_host_credential reads_kubernetes_service : keeps.
Lemma reads_buildDeploymentFrame a d plan key now :
  Reads (buildDeploymentFrame Unmarshal sum_hex UnmarshalValues DeriveKey DecryptAESGCM allowPrivileged a d plan key now).
Proof. unfold buildDeploymentFrame, kubernetesFrame, dockerFrame. keeps. Qed.
#[local] Hint Resolve reads_buildDeploymentFrame : keeps.
Lemma reads_blocked_error b : Reads (blocked_error b).
Proof. unfold blocked_error. keeps. Qed.
#[local] Hint Resolve reads_blocked_error : keeps.
Lemma reads_checkFrame a d plan key max now :
  Reads (checkFrame Unmarshal sum_hex UnmarshalValues DeriveKey DecryptAESGCM frame_bytes allowPrivileged a d plan key max now).
Proof. unfold checkFrame. keeps. Qed.
Lemma reads_revisionServices a app project numbers : Reads (revisionServices Unmarshal sum_hex a app project numbers).
Proof.
  unfold revisionServices. generalize (∅ : gset string) (@nil KubernetesClaim) (∅ : gmap string (list KubernetesMount)).
  induction numbers as [|n l IH]; intros s c m; simpl; keeps.
Qed.
Lemma reads_removalBlockers endpoint instance project adopted now : Reads (removalBlockers endpoint instance project adopted now).
Proof. unfold removalBlockers. keeps. Qed.
#[local] Hint Resolve reads_revisionServices : keeps.
Lemma reads_removal_scope a app instance i head digest request id now :
  Reads (removal_scope Unmarshal sum_hex a app instance i head digest request id now).
Proof. unfold removal_scope. keeps. Qed.
End reads.
#[export] Hint Resolve reads_buildDeploymentFrame reads_blocked_error reads_checkFrame reads_revisionServices reads_removalBlockers
  reads_removal_scope reads_host_credential : keeps.
