(* ===== verification/Planning.v ===== *)
(** * Planning a deployment

    [preflight] and its reader (internal/store/application_preflight.go), [draftPlan] and
    [PlanDeployment] (application_deployment.go), and the update checks of image_checks.go: what
    an application's services would run, asked of the registry with no transaction open, and the
    plan written only when nothing it was decided on has changed since.

    The registry is a [Resolver]: an answer to each request, [None] when the deadline came first.
    [meanwhile] is what other callers' transactions did to the database between the read and the
    write, [cancelled] whether the client's context had ended by the write. *)
From Stdlib Require Import ZArith QArith Lia Ascii String.
From stdpp Require Import base gmap strings list sorting.
From S2P Require Import Prelude Text Permissions Inspection Frame Inventory Clamp Reference KubeNames Spec Store TenantAccess Commands Direct.
From S2P Require Import Applications Registries Preflight Adoption Deployments Apply.

#[local] Open Scope Z_scope.

Inductive RegistryErr : Set :=
| RegUnauthorized | RegNotFound | RegRateLimited | RegPrivateDestination | RegRedirected | RegOther.
Definition registryErrorDetail (e : RegistryErr) : string :=
  match e with
  | RegUnauthorized => "unauthorized"
  | RegNotFound => "not_found"
  | RegRateLimited => "rate_limited"
  | RegPrivateDestination => "private_destination"
  | RegRedirected => "redirected"
  | RegOther => "unavailable"
  end.
(** [CheckHost] answers [None] when it has no objection. *)
Record Resolver := mkResolver {
  Head : nat -> Reference -> option Credential -> bool -> option (res RegistryErr string);
  CheckHost : Reference -> bool -> option RegistryErr }.

Record ImageCheck := mkCheck {
  chk_service : string; chk_reference : string; chk_local : string; chk_remote : string;
  chk_verdict : string; chk_detail : string }.
Record imageCheckWork := mkWork {
  w_ref : option Reference; w_cred : option Credential; w_private : bool; w_row : ImageCheck }.

Record PlanRequest := mkPlanRequest {
  pq_instance : string; pq_mapping : Z; pq_revision : Z; pq_confirm : string; pq_update : list string;
  pq_max_frame : Z; pq_inspections : gmap string ContainerInspection; pq_pins : gmap string string }.

(** What an update was decided on; containers are in container ID order. *)
Definition imageCheckStateOf (version revision : Z) (cs : list (string * string)) : string :=
  foldl (fun s c => s +:+ " " +:+ c.1 +:+ "=" +:+ c.2) (Itoa version +:+ " " +:+ Itoa revision) cs.
Definition imageCheckState (a : TenantAccess) (app instance : string) : tx string :=
  joined ← gets (fun db => match instances db !! instance with
                           | Some i => if inst_here a app i then (fun r => (i_mapping i, app_latest r)) <$> applications db !! app else None
                           | None => None
                           end);
  vr ← one joined ErrAdoptionChanged;
  cs ← gets (fun db => merge_sort by_first (map (fun kr => (kr.1.2, xr_image kr.2))
                (List.filter (fun kr => bool_decide (xr_instance kr.2 = instance)) (map_to_list (resources db)))));
  mret (imageCheckStateOf vr.1 vr.2 cs).
Definition container_images (cs : list AdoptedContainer) : list (string * string) := map (fun c => (ac_id c, ac_image c)) cs.

(** One registry answer on its row. *)
Definition answered (resolver : Resolver) (n : nat) (w : imageCheckWork) : imageCheckWork :=
  match w_ref w with
  | Some ref =>
      if nonempty (chk_verdict (w_row w)) then w
      else
        let r := w_row w in
        let row := fun verdict detail remote => mkCheck (chk_service r) (chk_reference r) (chk_local r) remote verdict detail in
        mkWork (Some ref) None (w_private w)
          match Head resolver n ref (w_cred w) (w_private w) with
          | None => row "registry_error" "unavailable" (chk_remote r)
          | Some (Fail e) => row "registry_error" (registryErrorDetail e) (chk_remote r)
          | Some (Ok digest) => row (if bool_decide (digest = chk_local r) then "current" else "update_available") "" digest
          end
  | None => w
  end.
Definition resolveImageChecks (resolver : Resolver) (work : list imageCheckWork) : list imageCheckWork := imap (answered resolver) work.

Definition clock_skew (received observed : time) : bool :=
  let d := time_sub observed received in (d >? MaxClockSkew) || (d <? - MaxClockSkew).

Section planning.
Context (Marshal : ApplicationSpec -> string) (Unmarshal : string -> option ApplicationSpec) (sum_hex : string -> string)
  (UnmarshalValues : string -> option (gmap string string)) (DeriveKey : string -> string -> string)
  (DecryptAESGCM : string -> string -> option string) (uuid_parse : string -> option string).
Context (preview_digest : AdoptionPreview -> string).
Context (frame_bytes : DeploymentRequest -> Z) (plan_bytes : DeploymentPlan -> Z) (allowPrivileged : bool).

(** ** The preflight *)

Definition kept_bind (a : TenantAccess) (snapshot : Snapshot) (row : PreflightService) : tx PreflightService :=
  if keepsHostBind (pf_mounts row) (match pf_target row with Some t => it_image t | None => "" end) (pf_image row) snapshot then
    allowed ← hostBindAllowed allowPrivileged a;
    mret (if allowed : bool then row
          else mkRow (pf_target row) (pf_name row) (pf_reference row) (pf_image row) (pf_container row) (pf_blockers row ++ ["host_bind_kept"])
                 (pf_mounts row) (pf_dropped_binds row) (pf_dropped row) (pf_unsupported_mounts row) (pf_unsupported row) (pf_details row))
  else mret row.
Definition more_blockers (old new : PreflightService) : bool := negb (llen (pf_blockers old) =? llen (pf_blockers new)).

Definition same_container (project : string) (current : gmap string Container) (c : AdoptedContainer) : bool :=
  match current !! ac_id c with
  | Some now => bool_decide (ct_image_id now = ac_image c) && (ct_created now / 1000 =? ac_created c / 1000) && bool_decide (ct_project now = project)
  | None => false
  end.

Definition preflight (a : TenantAccess) (app : string) (revision : Z) (pins : gmap string string) (now : time)
    : tx (DeploymentPreflight * ApplicationMapping * ApplicationSpec * Snapshot * string) :=
  m ← applicationMapping Marshal Unmarshal sum_hex preview_digest a app now;
  saved ← gets (revision_of a app revision);
  _ ← ensure ((revision =? 0) || bool_decide (is_Some saved)) ErrNotFound;
  joined ← gets (fun db =>
    match app_of a app db, List.find (fun ki => bool_decide (i_app ki.2 = app)) (map_to_list (instances db)) with
    | Some ar, Some (iid, i) =>
        let number := if revision =? 0 then app_latest ar else revision in
        match revisions db !! (app, number), endpoints db !! i_endpoint i, inventories db !! i_endpoint i with
        | Some r, Some e, Some v => Some (ar, iid, i, number, r, e, v)
        | _, _, _ => None
        end
    | _, _ => None
    end);
  all ← one joined ErrAdoptionChanged;
  let '(ar, iid, i, number, r, e, v) := all in
  _ ← ensure (bool_decide (iid = am_instance m) && (i_mapping i =? am_version m) && (app_latest ar =? pv_revision (am_preview m))) ErrAdoptionChanged;
  sc ← one (freshInventory (ep_state e) (iv_snapshot v) (iv_received v) (iv_observed v) now) ErrAdoptionChanged;
  let '(snapshot, current) := sc in
  _ ← ensure (bool_decide (applicationSpecDigest sum_hex (rv_spec r) = rv_digest r)) ErrRevisionCorrupt;
  spec ← one (Unmarshal (rv_spec r)) ErrRevisionCorrupt;
  _ ← ensure (ValidateApplicationSpec Marshal sum_hex spec) ErrRevisionCorrupt;
  _ ← ensure (forallb (same_container (pv_project (am_preview m)) current) (pv_containers (am_preview m))) ErrAdoptionChanged;
  out ← (if bool_decide (am_runtime m = RuntimeKubernetes) then
           was ← revisionServices Unmarshal sum_hex a app (pv_project (am_preview m)) [i_current i];
           mret (buildKubernetesPreflight sum_hex m spec snapshot was.1.1)
         else
           let p := buildDeploymentPreflight m spec snapshot (number =? app_latest ar) pins in
           rows ← tx_map (kept_bind a snapshot) (dpf_services p);
           mret (mkPreflight (dpf_instance p) (dpf_endpoint p) (dpf_endpoint_name p) (dpf_revision p) (dpf_version p) (dpf_received p)
                   (dpf_executable p && negb (existsb (fun b => b) (zip_with more_blockers (dpf_services p) rows))) (dpf_blockers p) rows));
  let skew := clock_skew (iv_received v) (iv_observed v) in
  mret (mkPreflight (dpf_instance out) (dpf_endpoint out) (dpf_endpoint_name out) number (dpf_version out) (iv_received v)
          (dpf_executable out && negb skew) (dpf_blockers out ++ when skew "clock_skew") (dpf_services out),
        m, spec, snapshot, rv_digest r).

Definition PreflightApplication (a : TenantAccess) (app : string) (now : time) (fresh : string) (db : DB) : res StoreErr DeploymentPreflight * DB :=
  match uuid_parse app with
  | Some app =>
      if negb (nonempty (EnvironmentID a)) then (Fail ErrInvalid, db)
      else readTenant a ApplicationRead (p ← preflight a app 0 ∅ now; mret p.1.1.1.1) now fresh db
  | None => (Fail ErrInvalid, db)
  end.

(** ** The draft *)

Record Draft := mkDraft {
  dr_row : DeploymentRow; dr_plan : DeploymentPlan; dr_mapping : ApplicationMapping; dr_blockers : list string;
  dr_capable : gset string; dr_refused : list BlockedService }.

Definition planned_row (a : TenantAccess) (app id : string) (m : ApplicationMapping) (revision : Z) (digest : string) (plan : DeploymentPlan) (now : time)
    : DeploymentRow :=
  mkDeployment id (OrganizationID a) (EnvironmentID a) app (am_instance m) (pv_endpoint (am_preview m)) StatePlanned (now + DeploymentPlanTTL) None
    KindApply (pl_project plan) revision digest (am_version m) (Some plan) (ActorID a) now "" None None None "" None (CorrelationID a) None.

Definition draftPlan (a : TenantAccess) (app id : string) (r : PlanRequest) (now : time) : tx Draft :=
  pmssd ← preflight a app (pq_revision r) (pq_pins r) now;
  let '(p, m, spec, snapshot, digest) := pmssd in
  _ ← ensure (forallb (fun np => bool_decide (np.1 ∈ serviceNames spec)) (map_to_list (pq_pins r))) ErrInvalid;
  _ ← ensure (bool_decide (pq_instance r = am_instance m) && (pq_mapping r =? am_version m)
              && ((pq_revision r =? 0) || (pq_revision r =? dpf_revision p)) && bool_decide (pq_confirm r = pv_project (am_preview m))) ErrAdoptionChanged;
  capable ← gets (fun db => default ∅ (capabilities db !! pv_endpoint (am_preview m)));
  let plan := draft_plan sum_hex m spec snapshot capable (pq_inspections r) p in
  mret (mkDraft (planned_row a app id m (dpf_revision p) digest plan now) plan m
          (draft_blockers sum_hex m spec snapshot capable (pq_inspections r) p) capable (draft_refused capable (pq_inspections r) p)).

(** ** Planning on what the host has *)

Definition plan_body (a : TenantAccess) (app id : string) (r : PlanRequest) (key : string) (now : time) : tx DeploymentRow :=
  d ← draftPlan a app id r now;
  _ ← ensure (bool_decide (am_runtime (dr_mapping d) = RuntimeDocker)) ErrAdoptionChanged;
  _ ← blocked_error (blocked (dr_blockers d) (dr_refused d));
  _ ← checkFrame Unmarshal sum_hex UnmarshalValues DeriveKey DecryptAESGCM frame_bytes allowPrivileged a (dr_row d) (dr_plan d) key (pq_max_frame r) now;
  _ ← insertPlan plan_bytes a (dr_row d) (dr_plan d) (am_instance (dr_mapping d));
  mret (dr_row d).

(** ** Planning on what the registry has *)

(** What the loop over the updated services has found. *)
Record Found := mkFound {
  fd_blockers : list string; fd_services : list PlannedService;
  fd_work : list (imageCheckWork * nat); fd_pinned : list imageCheckWork }.
Definition found_blocker (f : Found) (b : string) : Found := mkFound (fd_blockers f ++ [b]) (fd_services f) (fd_work f) (fd_pinned f).
Definition no_check : ImageCheck := mkCheck "" "" "" "" "" "".

Section update.
Context (a : TenantAccess) (key : string) (kube anonymous privateAllowed : bool) (pins : gmap string Reference) (bindings : gmap string string).

Definition update_ref (name : string) (ps : PlannedService) : res StoreErr (option Reference) :=
  let ref := ParseReference (ps_reference ps) in
  if bool_decide (pins = ∅) then Ok ref
  else match pins !! name, ref with
       | Some pin, Some ref => if bool_decide (rf_host pin = rf_host ref) && bool_decide (rf_repository pin = rf_repository ref) then Ok (Some pin) else Fail ErrInvalid
       | _, _ => Fail ErrInvalid
       end.
Definition update_step (f : Found) (name : string) : tx Found :=
  match list_find (fun ps => ps_name ps = name) (fd_services f) with
  | Some (i, ps) =>
      if negb kube && negb (nonempty (default "" (bindings !! name))) then mret (found_blocker f "update_not_mapped")
      else match update_ref name ps with
           | Fail e => throw e
           | Ok None => mret (found_blocker f "registry_unavailable")
           | Ok (Some ref) =>
               entry ← or_missing (registryFor DeriveKey DecryptAESGCM (OrganizationID a) (rf_host ref) key);
               match entry, anonymous with
               | None, false => mret (found_blocker f "registry_not_configured")
               | _, _ =>
                   let cred := match entry with Some (_, c) => c | None => None end in
                   let private := match entry with Some (reg, _) => re_private reg && privateAllowed | None => false end in
                   if nonempty (rf_digest ref) then
                     mret (mkFound (fd_blockers f) (<[i := pinPull ps ref (rf_digest ref)]> (fd_services f)) (fd_work f)
                             (if bool_decide (pins = ∅) then fd_pinned f ++ [mkWork (Some ref) None private no_check] else fd_pinned f))
                   else mret (mkFound (fd_blockers f) (fd_services f) (fd_work f ++ [(mkWork (Some ref) cred private no_check, i)]) (fd_pinned f))
               end
           end
  | None => mret (found_blocker f "update_not_mapped")
  end.
Fixpoint update_loop (f : Found) (names : list string) : tx Found :=
  match names with [] => mret f | name :: names' => f' ← update_step f name; update_loop f' names' end.
End update.

Definition with_services (plan : DeploymentPlan) (services : list PlannedService) : DeploymentPlan :=
  mkPlan (pl_project plan) services (pl_containers plan) (pl_volumes plan) (pl_namespace plan) (pl_claims plan).

Definition update_read (a : TenantAccess) (app id : string) (r : PlanRequest) (kube : bool) (pins : gmap string Reference) (key : string)
    (privateAllowed : bool) (now : time) : tx (Draft * Found * string) :=
  d ← draftPlan a app id r now;
  let m := dr_mapping d in
  _ ← ensure (Bool.eqb (bool_decide (am_runtime m = RuntimeKubernetes)) kube) ErrAdoptionChanged;
  anonymous ← anonymousPull (OrganizationID a);
  f ← update_loop a key kube anonymous privateAllowed pins (am_bindings m)
        (mkFound (dr_blockers d) (pl_services (dr_plan d)) [] [])
        (if kube then map ps_name (pl_services (dr_plan d)) else pq_update r);
  _ ← blocked_error (blocked (fd_blockers f) (dr_refused d));
  mret (d, f, imageCheckStateOf (am_version m) (pv_revision (am_preview m)) (container_images (pv_containers (am_preview m)))).

(** The registry's answers on the plan: its blockers and its pinned services. *)
Definition host_blockers (resolver : Resolver) (pinned : list imageCheckWork) : list string :=
  omap (fun w => match w_ref w with
                 | Some ref => (fun e => "registry_" +:+ registryErrorDetail e) <$> CheckHost resolver ref (w_private w)
                 | None => None
                 end) pinned.
Definition pull_step (acc : list string * list PlannedService) (wi : imageCheckWork * nat) : list string * list PlannedService :=
  let row := w_row wi.1 in
  if bool_decide (chk_verdict row = "registry_error") then (acc.1 ++ ["registry_" +:+ chk_detail row], acc.2)
  else if negb (validSHA256 (chk_remote row)) then (acc.1 ++ ["registry_unavailable"], acc.2)
  else match w_ref wi.1 with
       | Some ref => (acc.1, alter (fun ps => pinPull ps ref (chk_remote row)) wi.2 acc.2)
       | None => acc
       end.
Definition resolved (resolver : Resolver) (f : Found) : list string * list PlannedService :=
  foldl pull_step (host_blockers resolver (fd_pinned f), fd_services f)
    (zip (resolveImageChecks resolver (map fst (fd_work f))) (map snd (fd_work f))).

Definition replanned (d : DeploymentRow) (plan : DeploymentPlan) (now : time) : DeploymentRow :=
  mkDeployment (d_id d) (d_org d) (d_env d) (d_app d) (d_instance d) (d_endpoint d) (d_state d) (now + DeploymentPlanTTL) (d_policy_run d)
    (d_kind d) (d_project d) (d_revision d) (d_digest d) (d_mapping d) (Some plan) (d_created_by d) now
    (d_applied_by d) (d_applied d) (d_deadline d) (d_settled d) (d_detail d) (d_result d) (d_correlation d) (d_migration d).
Definition update_write (a : TenantAccess) (app : string) (r : PlanRequest) (d : Draft) (state : string) (blockers : list string) (plan : DeploymentPlan)
    (cancelled : bool) (key : string) (now : time) : tx DeploymentRow :=
  _ ← ensure (negb cancelled) ErrCanceled;
  _ ← lockApplication a app;
  current ← imageCheckState a app (d_instance (dr_row d));
  _ ← ensure (bool_decide (current = state)) ErrAdoptionChanged;
  _ ← blocked_error (blocked blockers (dr_refused d));
  let row := replanned (dr_row d) plan now in
  _ ← checkFrame Unmarshal sum_hex UnmarshalValues DeriveKey DecryptAESGCM frame_bytes allowPrivileged a row plan key (pq_max_frame r) now;
  _ ← insertPlan plan_bytes a row plan (d_instance row);
  mret row.

(** A cluster's pin is a canonical digest reference. *)
Definition cluster_pin (pin : string) : option Reference :=
  match ParseReference pin with
  | Some ref => if validSHA256 (rf_digest ref) && bool_decide (pin = rf_host ref +:+ "/" +:+ rf_repository ref +:+ "@" +:+ rf_digest ref)
                then Some ref else None
  | None => None
  end.
Definition update_request_ok (r : PlanRequest) (resolver : option Resolver) : bool :=
  bool_decide (pq_update r = [])
  || ((llen (pq_update r) <=? MaxDeploymentServices) && bool_decide (NoDup (pq_update r)) && bool_decide (is_Some resolver)).

Definition PlanDeployment (a : TenantAccess) (app : string) (r : PlanRequest) (resolver : option Resolver) (key : string) (privateAllowed : bool)
    (id correlation : string) (now later : time) (meanwhile : DB -> DB) (cancelled : bool) (fresh : string) (db : DB)
    : res StoreErr DeploymentRow * DB :=
  match uuid_parse app with
  | None => (Fail ErrInvalid, db)
  | Some app =>
      if negb (nonempty (EnvironmentID a)) || negb (len key =? 32) then (Fail ErrInvalid, db)
      else if negb (bool_decide (pq_update r = [])) && negb (bool_decide (pq_pins r = ∅)) then (Fail ErrInvalid, db)
      else
        let kube := match instance_of a app db with Some ki => nonempty (i_namespace ki.2) | None => false end in
        if kube && bool_decide (pq_pins r = ∅) && negb (bool_decide (is_Some resolver)) then (Fail ErrInvalid, db)
        else if kube && negb (forallb (fun np => bool_decide (is_Some (cluster_pin np.2))) (map_to_list (pq_pins r))) then (Fail ErrInvalid, db)
        else if negb (update_request_ok r resolver) then (Fail ErrInvalid, db)
        else
          let pins := if kube then omap cluster_pin (pq_pins r) else ∅ in
          let a := if nonempty (CorrelationID a) then a else carrying a correlation in
          let target := app +:+ "/deployments/" +:+ id in
          if bool_decide (pq_update r = []) && negb kube then
            withTenantTarget a ApplicationDeploy target (plan_body a app id r key now) now fresh db
          else
            match run a ApplicationDeploy (mkNotes (Some target) None) false
                    (lift (update_read a app id r kube pins key privateAllowed now)) now fresh db with
            | (Fail e, db') => (Fail e, db')
            | (Ok (d, f, state), db') =>
                let '(blockers, services) := match resolver with
                                             | Some resolver => resolved resolver f
                                             | None => ([], fd_services f)
                                             end in
                let plan := with_services (dr_plan d) services in
                let pulls := llen (List.filter (fun ps => nonempty (ps_pull_digest ps)) services) in
                run a ApplicationDeploy (mkNotes (Some target) (Some ("pulls=" +:+ Itoa pulls))) true
                  (lift (update_write a app r d state (blockers ++ capabilityBlockers (dr_capable d) plan) plan cancelled key later))
                  later fresh (meanwhile db')
            end
  end.
End planning.

(** ** What only reads *)

Section reads.
Context (Marshal : ApplicationSpec -> string) (Unmarshal : string -> option ApplicationSpec) (sum_hex : string -> string)
  (DeriveKey : string -> string -> string) (DecryptAESGCM : string -> string -> option string)
  (preview_digest : AdoptionPreview -> string) (allowPrivileged : bool).

Lemma reads_kept_bind a snapshot row : Reads (kept_bind allowPrivileged a snapshot row).
Proof. unfold kept_bind. keeps. Qed.
#[local] Hint Resolve reads_kept_bind : keeps.
Lemma reads_preflight a app revision pins now : Reads (preflight Marshal Unmarshal sum_hex preview_digest allowPrivileged a app revision pins now).
Proof. unfold preflight. keeps. Qed.
#[local] Hint Resolve reads_preflight : keeps.
Lemma reads_draftPlan a app id r now : Reads (draftPlan Marshal Unmarshal sum_hex preview_digest allowPrivileged a app id r now).
Proof. unfold draftPlan. keeps. Qed.
Lemma reads_imageCheckState a app instance : Reads (imageCheckState a app instance).
Proof. unfold imageCheckState. keeps. Qed.
Lemma reads_update_step a key kube anonymous private pins bindings f name :
  Reads (update_step DeriveKey DecryptAESGCM a key kube anonymous private pins bindings f name).
Proof. unfold update_step. keeps. Qed.
#[local] Hint Resolve reads_update_step : keeps.
Lemma reads_update_loop a key kube anonymous private pins bindings f names :
  Reads (update_loop DeriveKey DecryptAESGCM a key kube anonymous private pins bindings f names).
Proof. revert f. induction names as [|n l IH]; intros f; simpl; keeps. Qed.
#[local] Hint Resolve reads_update_loop reads_draftPlan : keeps.
Lemma reads_update_read a app id r kube pins key private now :
  Reads (update_read Marshal Unmarshal sum_hex DeriveKey DecryptAESGCM preview_digest allowPrivileged a app id r kube pins key private now).
Proof. unfold update_read. keeps. Qed.
End reads.
#[export] Hint Resolve reads_preflight reads_draftPlan reads_imageCheckState reads_update_loop reads_update_read : keeps.
