(* ===== verification/ImageChecks.v ===== *)
(** * Update checks (internal/store/image_checks.go)

    What each mapped service runs compared with what its registry serves: the local digest, the
    registry's answer, and the cached rows, written only when the mapping, the head and the
    containers are what they were when the check began. *)
From Stdlib Require Import ZArith QArith Lia Ascii String.
From stdpp Require Import base gmap strings list sorting.
From S2P Require Import Prelude Text Permissions Inspection Frame Inventory Clamp Reference KubeNames Spec Store TenantAccess Commands Direct.
From S2P Require Import Applications Registries Preflight Adoption Deployments Apply Planning.

#[local] Open Scope Z_scope.

Record UpdateCheck := mkUpdateCheck { uc_instance : string; uc_mapping : Z; uc_services : list ImageCheck; uc_checked : list time }.

(** ** Local digests *)

(** The digest of [name@digest] when it names exactly [ref]'s repository. *)
Definition digest_for (ref : Reference) (pinned : string) : option string :=
  match cut_at "@" pinned with
  | Some (name, digest) =>
      match ParseReference name with
      | Some p => if bool_decide (rf_host p = rf_host ref) && bool_decide (rf_repository p = rf_repository ref) && validSHA256 digest
                  then Some digest else None
      | None => None
      end
  | None => None
  end.
Fixpoint local_loop (ref : Reference) (found : string) (l : list string) : string :=
  match l with
  | [] => found
  | d :: l' =>
      match digest_for ref d with
      | Some digest => if nonempty found then "" else local_loop ref digest l'
      | None => local_loop ref found l'
      end
  end.
Definition localRepoDigest (im : Image) (ref : Reference) : string := local_loop ref "" (im_digests im).

Definition workload_of (m : ApplicationMapping) (name : string) (w : Workload) : bool :=
  bool_decide (wl_kind w = "Deployment") && bool_decide (wl_namespace w = am_namespace m) && bool_decide (wl_name w = name)
  && bool_decide (wl_instance w = am_instance m).
Definition workloadDigest (snapshot : Snapshot) (m : ApplicationMapping) (name : string) (ref : Reference) : string :=
  match sn_kubernetes snapshot with
  | Some k =>
      default "" (head (omap (fun w => if workload_of m name w then match wl_images w with [i] => digest_for ref i | _ => None end else None)
                         (ki_workloads k)))
  | None => ""
  end.

(** ** The rows *)

Definition imageVerdicts : list string := ["current"; "update_available"; "pinned"; "unknown_local"; "registry_error"].
Definition insert_image_check (instance service : string) (c : ImageCheck) (now : time) : tx unit :=
  free ← gets (fun db => bool_decide (image_checks db !! (instance, service) = None));
  _ ← ensure free ErrUnique;
  known ← gets (fun db => bool_decide (is_Some (instances db !! instance)));
  _ ← ensure (known && bool_decide (chk_verdict c ∈ imageVerdicts)) ErrConstraint;
  modify (fun db => set_image_checks (<[(instance, service) := mkImageCheck (chk_reference c) (chk_local c) (chk_remote c) (chk_verdict c)
                                                                 (chk_detail c) now]> (image_checks db)) db).
Definition read_check (kc : string * ImageCheckRow) : ImageCheck :=
  mkCheck kc.1 (ic_reference kc.2) (ic_local kc.2) (ic_remote kc.2) (ic_verdict kc.2) (ic_detail kc.2).
Definition checks_of (instance : string) (db : DB) : list (string * ImageCheckRow) :=
  merge_sort by_first (map (fun kc => (kc.1.2, kc.2)) (List.filter (fun kc => bool_decide (kc.1.1 = instance)) (map_to_list (image_checks db)))).

Section checks.
Context (Marshal : ApplicationSpec -> string) (Unmarshal : string -> option ApplicationSpec) (sum_hex : string -> string)
  (UnmarshalValues : string -> option (gmap string string)) (DeriveKey : string -> string -> string)
  (DecryptAESGCM : string -> string -> option string) (uuid_parse : string -> option string).
Context (preview_digest : AdoptionPreview -> string) (allowPrivileged : bool).

Definition ReadImageChecks (a : TenantAccess) (app : string) (now : time) (fresh : string) (db : DB) : res StoreErr UpdateCheck * DB :=
  match uuid_parse app with
  | Some app =>
      if negb (nonempty (EnvironmentID a)) then (Fail ErrInvalid, db)
      else readTenant a ApplicationRead (gets (fun db =>
        match instance_of a app db with
        | Some (id, i) => let rows := checks_of id db in mkUpdateCheck id (i_mapping i) (map read_check rows) (map (fun kc => ic_checked kc.2) rows)
        | None => mkUpdateCheck "" 0 [] []
        end)) now fresh db
  | None => (Fail ErrInvalid, db)
  end.

(** Authorizes [action] on an application in scope, auditing a denial on the application. *)
Definition checkApplication (a : TenantAccess) (action : Action) (app suffix : string) (now : time) (fresh : string) (db : DB) : res StoreErr unit * DB :=
  match uuid_parse app with
  | Some app =>
      if negb (nonempty (EnvironmentID a)) then (Fail ErrInvalid, db)
      else run a action (mkNotes (Some (app +:+ suffix)) None) false
             (lift (row ← gets (app_of a app); _ ← one row ErrNotFound; mret tt)) now fresh db
  | None => (Fail ErrInvalid, db)
  end.
Definition CheckImageUpdateAccess (a : TenantAccess) (app : string) := checkApplication a ApplicationDeploy app "/updates".
Definition CheckApplicationAccess (a : TenantAccess) (action : Action) (app : string) := checkApplication a action app "".

(** One service's work: a verdict already set means no registry call. *)
Definition check_work (a : TenantAccess) (m : ApplicationMapping) (spec : ApplicationSpec) (snapshot : Snapshot) (anonymous privateAllowed : bool) (key : string)
    (s : ApplicationService) : tx (option imageCheckWork) :=
  let kube := bool_decide (am_runtime m = RuntimeKubernetes) in
  let container := am_bindings m !! as_name s in
  let image := match List.find (fun c => bool_decide (ct_id c = default "" container)) (rev (sn_containers snapshot)) with
               | Some c => List.find (fun im => bool_decide (im_id im = ct_image_id c)) (rev (sn_images snapshot))
               | None => List.find (fun im => bool_decide (im_id im = "")) (rev (sn_images snapshot))
               end in
  let row := mkCheck (as_name s) (as_image s) in
  if bool_decide (container = None) && negb kube then mret None
  else match ParseReference (as_image s) with
       | None => mret (Some (mkWork None None false (row "" "" "registry_error" "unavailable")))
       | Some ref =>
           if nonempty (rf_digest ref) then mret (Some (mkWork (Some ref) None false (row "" "" "pinned" "")))
           else
             let local := if kube then workloadDigest snapshot m
                                         (default "" (KubernetesNames sum_hex (pv_project (am_preview m)) (serviceNames spec) !! as_name s)) ref
                          else match image with Some im => localRepoDigest im ref | None => "" end in
             if bool_decide (local = "") then mret (Some (mkWork (Some ref) None false (row "" "" "unknown_local" "")))
             else
               entry ← or_missing (registryFor DeriveKey DecryptAESGCM (OrganizationID a) (rf_host ref) key);
               mret (Some (match entry with
                           | Some (r, cred) => mkWork (Some ref) cred (re_private r && privateAllowed) (row local "" "" "")
                           | None => if anonymous then mkWork (Some ref) None false (row local "" "" "")
                                     else mkWork (Some ref) None false (row local "" "registry_error" "not_configured")
                           end))
       end.

Definition check_read (a : TenantAccess) (app : string) (key : string) (privateAllowed : bool) (now : time)
    : tx (list imageCheckWork * string * Z * string) :=
  m0 ← applicationMapping Marshal Unmarshal sum_hex preview_digest a app now;
  _ ← ensure (1 <=? am_version m0) ErrMappingRequired;
  pmssd ← preflight Marshal Unmarshal sum_hex preview_digest allowPrivileged a app 0 ∅ now;
  let '(_, m, spec, snapshot, _) := pmssd in
  anonymous ← anonymousPull (OrganizationID a);
  work ← tx_map (check_work a m spec snapshot anonymous privateAllowed key) (sp_services spec);
  mret (omap (fun w => w) work, am_instance m, am_version m,
        imageCheckStateOf (am_version m) (pv_revision (am_preview m)) (container_images (pv_containers (am_preview m)))).

Definition check_write (a : TenantAccess) (app instance state : string) (work : list imageCheckWork) (cancelled : bool) (now : time) : tx unit :=
  _ ← ensure (negb cancelled) ErrCanceled;
  _ ← lockApplication a app;
  current ← imageCheckState a app instance;
  _ ← ensure (bool_decide (current = state)) ErrAdoptionChanged;
  _ ← clearImageChecks instance;
  tx_iter (fun w => insert_image_check instance (chk_service (w_row w)) (w_row w) now) work.

Definition verdicts (verdict : string) (work : list imageCheckWork) : Z :=
  llen (List.filter (fun w => bool_decide (chk_verdict (w_row w) = verdict)) work).
Definition CheckImageUpdates (a : TenantAccess) (app : string) (resolver : option Resolver) (key : string) (privateAllowed : bool)
    (now later : time) (meanwhile : DB -> DB) (cancelled : bool) (fresh : string) (db : DB) : res StoreErr UpdateCheck * DB :=
  match uuid_parse app, resolver with
  | Some app, Some resolver =>
      if negb (nonempty (EnvironmentID a)) || negb (len key =? 32) then (Fail ErrInvalid, db)
      else
        let target := app +:+ "/updates" in
        match run a ApplicationDeploy (mkNotes (Some target) None) false (lift (check_read a app key privateAllowed now)) now fresh db with
        | (Fail e, db') => (Fail e, db')
        | (Ok (work, instance, version, state), db') =>
            let work := resolveImageChecks resolver work in
            let at_ := microseconds later in
            let details := "services=" +:+ Itoa (llen work) +:+ " updates=" +:+ Itoa (verdicts "update_available" work)
                           +:+ " errors=" +:+ Itoa (verdicts "registry_error" work) in
            match run a ApplicationDeploy (mkNotes (Some target) (Some details)) true
                    (lift (check_write a app instance state work cancelled at_)) later fresh (meanwhile db') with
            | (Ok _, db'') => (Ok (mkUpdateCheck instance version (map w_row work) (map (fun _ => at_) work)), db'')
            | (Fail e, db'') => (Fail e, db'')
            end
        end
  | _, _ => (Fail ErrInvalid, db)
  end.
End checks.
