(* ===== verification/Retention.v ===== *)
(** * What the control plane forgets

    internal/store/samples.go, [Prune]: every pass sweeps applies past their deadline, then deletes
    settled commands after a week, settled deployments after ninety days, and applications removed
    ninety days ago, in batches.  A deployment stays past its time while it is the latest success
    at its instance's current or previous revision, while a rollback of its instance is undecided
    (rollback.go, [rollbackOpen]), and while its application awaits its own deletion.

    A [LIMIT] without an order lets the database choose: [pick] is its choice, for each of the two
    statements that have one.  Samples, events and rollups are not in the model. *)
From Stdlib Require Import ZArith Lia Ascii String.
From stdpp Require Import base gmap strings list sorting.
From S2P Require Import Prelude Text Permissions Inspection Frame Spec Store TenantAccess Commands Direct Applications.
From S2P Require Import Preflight Adoption Schedule Policies Judge Validations Deployments.

#[local] Open Scope Z_scope.

Definition Days : Z := 24 * Hour.
Definition CommandRetention : Z := 7 * Days.
Definition DeploymentHistoryRetention : Z := 90 * Days.
Definition ApplicationRemovedRetention : Z := 90 * Days.

Definition before (cutoff : time) (t : option time) : bool := match t with Some t => t <? cutoff | None => false end.

(** An automated validation whose rollback is not decided yet. *)
Definition rollbackOpen (v : ValidationRow) : bool :=
  v_automated v && negb (v_is_rollback v) && bool_decide (is_Some (v_run v)) && undecided v
  && (negb (v_done v) || rollbackVerdicts (v_verdict v)).

Definition apply_succeeded (d : DeploymentRow) : bool := bool_decide (d_kind d = KindApply) && in_state OutcomeSucceeded d.
(** A later success of the same instance at the same revision. *)
Definition outlived (d n : DeploymentRow) : bool :=
  bool_decide (d_instance n = d_instance d) && (d_revision n =? d_revision d) && apply_succeeded n &&
  match d_settled n, d_settled d with
  | Some tn, Some td => (td <? tn) || ((tn =? td) && String.ltb (d_id d) (d_id n))
  | _, _ => false
  end.
(** The latest success at the current or the previous revision of its instance. *)
Definition latest_success (db : DB) (d : DeploymentRow) : bool :=
  apply_succeeded d
  && match instances db !! d_instance d with
     | Some i => (d_revision d =? i_current i) || (d_revision d =? i_previous i)
     | None => false
     end
  && (count (outlived d) (deployments db) =? 0).
Definition of_removed (db : DB) (d : DeploymentRow) : bool :=
  match applications db !! d_app d with Some r => bool_decide (app_removed r <> None) | None => false end.
(** A success of an instance with an undecided rollback: it may be what the rollback returns to. *)
Definition rollback_pending (db : DB) (d : DeploymentRow) : bool :=
  apply_succeeded d
  && negb (count (fun v => bool_decide (v_instance v = d_instance d) && rollbackOpen v) (validations db) =? 0).
Definition history_over (cutoff : time) (db : DB) (d : DeploymentRow) : bool :=
  before cutoff (d_settled d) && negb (latest_success db d) && negb (of_removed db d) && negb (rollback_pending db d).

(** [DELETE FROM endpoint_commands WHERE id IN (SELECT id ... LIMIT ?)]. *)
Definition command_over (cutoff : time) (c : CommandRow) : bool := before cutoff (c_settled c).
Definition prune_commands (pick : list string -> list string) (cutoff : time) (db : DB) : Z * DB :=
  let ids := pick (map c_id (select (command_over cutoff) (commands db))) in
  (llen ids, set_commands (filter (fun kc => c_id kc.2 ∉ ids) (commands db)) db).
(** [DELETE FROM deployments WHERE id IN (SELECT d.id ... LIMIT ?)]; the validations go with them. *)
Definition prune_deployments (pick : list string -> list string) (cutoff : time) (db : DB) : Z * DB :=
  let ids := pick (map d_id (select (history_over cutoff db) (deployments db))) in
  (llen ids, delete_deployments (fun d => bool_decide (d_id d ∈ ids)) db).

(** What a [LIMIT] may choose. *)
Definition Picks (pick : list string -> list string) : Prop :=
  forall l, pick l ⊆+ l /\ length (pick l) = Nat.min (Z.to_nat PruneBatch) (length l).

Definition Prune (pick_commands pick_deployments : list string -> list string) (now : time) (fresh : DeploymentRow -> string)
    (db : DB) : res StoreErr Z * DB :=
  match sweepDeployments now fresh db with
  | (Fail e, db) => (Fail e, db)
  | (Ok _, db) =>
      let '(cs, db) := prune_commands pick_commands (now - CommandRetention) db in
      let '(ds, db) := prune_deployments pick_deployments (now - DeploymentHistoryRetention) db in
      match commit (pruneRemovedApplications (now - ApplicationRemovedRetention)) db with
      | (Ok n, db) => (Ok (cs + ds + n), db)
      | (Fail e, db) => (Fail e, db)
      end
  end.
