(* ===== verification/Refinement.v ===== *)
(** * The store implements the ledger

    [ledger_of] reads the abstract ledger (Ledger.v) off the deployments and instances tables.
    Every operation that writes either table is one or more of the ledger's steps: planning,
    applying, failing, abandoning, sweeping, settling, refusing, removing, adopting, releasing,
    mapping and discarding, in any order.  What the ledger keeps, the tables keep. *)
From Stdlib Require Import ZArith QArith Lia Ascii String.
From stdpp Require Import base gmap strings list sorting relations.
From S2P Require Import Prelude Text Permissions Inspection Frame Inventory Spec Store TenantAccess Commands Direct.
From S2P Require Import Applications Registries Preflight Adoption Schedule Policies Judge Validations Ledger Deployments Apply Planning Retention.

#[local] Open Scope Z_scope.

(** ** Abstraction *)

Definition phase_of (state : string) : Phase :=
  if bool_decide (state = StatePlanned) then Planned
  else if bool_decide (state = StateApplying) then Applying
  else outcome_phase state.
Definition entry_of (d : DeploymentRow) : Entry := mkEntry (d_app d) (d_instance d) (d_created d) (removal d) (phase_of (d_state d)).
Definition ledger_of (db : DB) : Ledger := mkLedger (entry_of <$> deployments db) (i_app <$> instances db).
(** The two tables the ledger is read off. *)
Definition tables (db : DB) := (deployments db, instances db).

(** A row with a time of settlement is neither planned nor applying. *)
Definition settled_dead (d : DeploymentRow) : Prop := live d = true -> d_settled d = None.
(** Rows carry their key, and a row whose instance exists is of its application and scope. *)
Record DepInv (db : DB) : Prop := {
  di_key : keyed d_id (deployments db);
  di_scope : forall k d i, deployments db !! k = Some d -> instances db !! d_instance d = Some i ->
    i_app i = d_app d /\ i_org i = d_org d /\ i_env i = d_env d;
  di_settled : forall k d, deployments db !! k = Some d -> settled_dead d }.

Lemma DepInv_tables db db' : tables db' = tables db -> DepInv db -> DepInv db'.
Proof. unfold tables. intros [= E1 E2] []. split; rewrite ?E1, ?E2; done. Qed.
Lemma ledger_tables db db' : tables db' = tables db -> ledger_of db' = ledger_of db.
Proof. unfold tables, ledger_of. by intros [= -> ->]. Qed.

Lemma phase_planned s : phase_of s = Planned <-> s = StatePlanned.
Proof.
  unfold phase_of, outcome_phase. destruct (decide (s = StatePlanned)) as [->|H]; [done|]. rewrite bool_decide_false by done.
  split; [|done]. by repeat case_bool_decide.
Qed.
Lemma phase_applying s : phase_of s = Applying <-> s = StateApplying.
Proof.
  unfold phase_of, outcome_phase. split; [by repeat case_bool_decide|]. intros ->. done.
Qed.
Lemma phase_lost s : phase_of s = Lost <-> s = OutcomeUnknown.
Proof. unfold phase_of, outcome_phase. split; [by repeat case_bool_decide|]. intros ->. done. Qed.
Lemma phase_outcome o : o ∈ resultOutcomes -> phase_of o = outcome_phase o.
Proof. unfold resultOutcomes. rewrite !elem_of_cons, elem_of_nil. intros [-> | [-> | [-> | [-> | [-> | []]]]]]; reflexivity. Qed.

Lemma in_state_true s d : in_state s d = true <-> d_state d = s.
Proof. unfold in_state. apply bool_decide_eq_true. Qed.
Lemma live_alive d : live d = alive (entry_of d).
Proof.
  unfold live, alive, in_state. simpl. unfold phase_of, outcome_phase. repeat case_bool_decide; try done; congruence.
Qed.
Lemma acted_begun d : acted d = begun (entry_of d).
Proof. unfold acted, begun, in_state. simpl. f_equal. apply bool_decide_ext. symmetry. apply phase_planned. Qed.

Lemma ledger_row db k d : deployments db !! k = Some d -> entries (ledger_of db) !! k = Some (entry_of d).
Proof. intros H. unfold ledger_of. simpl. by rewrite lookup_fmap, H. Qed.
Lemma ledger_entry db k e : entries (ledger_of db) !! k = Some e -> exists d, deployments db !! k = Some d /\ e = entry_of d.
Proof. unfold ledger_of. simpl. intros (d & <- & H)%lookup_fmap_Some. eauto. Qed.
Lemma ledger_adopted db i r : instances db !! i = Some r -> adopted (ledger_of db) !! i = Some (i_app r).
Proof. intros H. unfold ledger_of. simpl. by rewrite lookup_fmap, H. Qed.

(** What the row-level guards say of the ledger. *)
Lemma live_free_idle d db :
  DepInv db -> live_free d db = true -> live d = true -> deployments db !! d_id d = None -> idle (ledger_of db) (d_instance d).
Proof.
  intros Hi Hf Hl Hn k e (o & Ho & ->)%ledger_entry E. unfold live_free in Hf. rewrite Hl in Hf. simpl in Hf.
  apply Z.eqb_eq in Hf. rewrite count_zero in Hf. specialize (Hf k o Ho). simpl in E. rewrite (bool_decide_eq_true_2 (d_instance o = _) E) in Hf.
  rewrite andb_true_r in Hf. rewrite (di_key _ Hi k o Ho) in Hf. rewrite (bool_decide_eq_false_2 (k = d_id d)) in Hf by congruence.
  rewrite andb_true_r in Hf. by rewrite <- live_alive.
Qed.
Lemma bool_decide_iff_not P Q `{Decision P, Decision Q} : bool_decide P = negb (bool_decide Q) -> (P <-> ~ Q).
Proof. do 2 case_bool_decide; naive_solver. Qed.
Lemma elem_rows {A} (x : A) (m : gmap string A) : x ∈ map snd (map_to_list m) <-> exists k, m !! k = Some x.
Proof.
  rewrite list_elem_of_fmap. split.
  - intros ([k y] & -> & Hk). exists k. by apply elem_of_map_to_list.
  - intros (k & Hk). exists (k, x). split; [done|]. by apply elem_of_map_to_list.
Qed.
Lemma overtaken_superseded db d : overtaken (ledger_of db) (entry_of d) <-> superseded db d = true.
Proof.
  unfold superseded, overtaken. rewrite existsb_exists. split.
  - intros (k & e & (n & Hn & ->)%ledger_entry & Hi & Ht & Hb). exists n. split.
    + apply list_elem_of_In, list_elem_of_fmap. exists (k, n). split; [done|]. by apply elem_of_map_to_list.
    + rewrite acted_begun, Hb, andb_true_r. simpl in *. rewrite bool_decide_eq_true_2 by done. simpl. apply Z.gtb_lt. lia.
  - intros (n' & Hn & H). apply list_elem_of_In, elem_rows in Hn as (k & Hk). exists k, (entry_of n'). rewrite <- acted_begun. apply andb_true_iff in H as [H Ha]. apply andb_true_iff in H as [Hi Ht].
    gobool. apply Z.gtb_lt in Ht. split; [by apply ledger_row|]. split_and!; [done|simpl; lia|done].
Qed.
Lemma settleable_answerable db d : deployment_settleable db d = true -> answerable (ledger_of db) (entry_of d).
Proof.
  unfold deployment_settleable, answerable. rewrite orb_true_iff, !andb_true_iff, !in_state_true, negb_true_iff. simpl.
  rewrite phase_applying, phase_lost. intros [H|[[H1 H2] H3]]; [by left|]. right. split; [done|]. gobool. destruct H2 as [i Hi]. split.
  - eexists. by apply ledger_adopted.
  - rewrite overtaken_superseded. by rewrite H3.
Qed.

(** ** Simulation *)

Section sim.
Context (erase : bool).
Local Notation lsteps := (rtc (lstep erase)).

Definition Sim {A} (m : tx A) : Prop :=
  forall db x db', m db = Ok (x, db') -> DepInv db -> Orderly (ledger_of db) -> DepInv db' /\ lsteps (ledger_of db) (ledger_of db').
(** The same of a body with notes. *)
Definition SimAct {A} (m : act A) : Prop :=
  forall n db n' x db', m n db = (n', Ok (x, db')) -> DepInv db -> Orderly (ledger_of db) -> DepInv db' /\ lsteps (ledger_of db) (ledger_of db').

Lemma sim_same db db' : tables db' = tables db -> DepInv db -> DepInv db' /\ lsteps (ledger_of db) (ledger_of db').
Proof. intros H Hi. split; [by apply (DepInv_tables db)|]. by rewrite (ledger_tables _ _ H). Qed.
Lemma sim_keeps {A} (m : tx A) : Keeps tables m -> Sim m.
Proof. intros Hm db x db' H Hi _. apply sim_same; [by eapply Hm|done]. Qed.
Lemma sim_reads {A} (m : tx A) : Reads m -> Sim m.
Proof. intros Hm. apply sim_keeps, reads_keeps, Hm. Qed.
Lemma sim_bind {A B} (m : tx A) (k : A -> tx B) : Sim m -> (forall a, Sim (k a)) -> Sim (m ≫= k).
Proof.
  intros Hm Hk db x db' (a & d & H1 & H2)%bind_ok Hi Ho. destruct (Hm _ _ _ H1 Hi Ho) as [Hi1 R1].
  destruct (Hk a _ _ _ H2 Hi1 (lsteps_orderly _ _ _ R1 Ho)) as [Hi2 R2]. split; [done|]. by etrans.
Qed.
Lemma sim_act_at {A} (m : act A) a action notes lock now fresh db :
  (forall n' x db', m notes db = (n', Ok (x, db')) -> DepInv db' /\ lsteps (ledger_of db) (ledger_of db')) -> DepInv db ->
  DepInv (run a action notes lock m now fresh db).2 /\ lsteps (ledger_of db) (ledger_of (run a action notes lock m now fresh db).2).
Proof.
  intros Hs Hi. unfold run. destruct (runAs _ _ _ _ _ _ _ _ _) as [r db'] eqn:E. apply runAs_split in E. cbn [snd].
  destruct r as [x|e].
  - destruct E as (role & n & db1 & _ & _ & _ & Hrun & Hd). destruct (Hs _ _ _ Hrun) as [Hi1 R1].
    destruct (lock || _); [|by subst]. destruct Hd as (rec & -> & _). split; [by apply (DepInv_tables db1)|done].
  - destruct E as [->|(rec & -> & _)]; [by split|]. by apply sim_same.
Qed.
Lemma sim_act {A} (m : act A) a action notes lock now fresh db :
  SimAct m -> DepInv db -> Orderly (ledger_of db) ->
  DepInv (run a action notes lock m now fresh db).2 /\ lsteps (ledger_of db) (ledger_of (run a action notes lock m now fresh db).2).
Proof. intros Hs Hi Ho. apply sim_act_at; [|done]. intros n' x db' H. by eapply Hs. Qed.
Lemma sim_lift {A} (op : tx A) : Sim op -> SimAct (lift op).
Proof. intros Hs n db n' x db' [= _ H]. by eapply Hs. Qed.
Lemma sim_commit {A} (m : tx A) db :
  Sim m -> DepInv db -> Orderly (ledger_of db) -> DepInv (commit m db).2 /\ lsteps (ledger_of db) (ledger_of (commit m db).2).
Proof. intros Hs Hi Ho. unfold commit. destruct (m db) as [[x d]|e] eqn:E; [by eapply Hs|]. by split. Qed.

(** ** Rows *)

Lemma put_deployment_ok d db u db' :
  put_deployment d db = Ok (u, db') ->
  live_free d db = true /\ deployment_row_ok d = true /\ db' = set_deployments (<[d_id d := d]> (deployments db)) db.
Proof. unfold put_deployment. intros H. tx_inv H. by apply andb_true_iff in Hg0 as [_ ?]. Qed.
Lemma insert_deployment_ok d db u db' :
  insert_deployment d db = Ok (u, db') ->
  deployments db !! d_id d = None /\ live_free d db = true /\ deployment_row_ok d = true /\
  db' = set_deployments (<[d_id d := d]> (deployments db)) db.
Proof.
  unfold insert_deployment. intros H. tx_inv H. gobool. apply put_deployment_ok in H as (? & ? & ->). done.
Qed.
Lemma update_deployment_ok id guard f db n db' :
  update_deployment id guard f db = Ok (n, db') ->
  (n = 0 /\ db' = db) \/
  (n = 1 /\ exists d, deployments db !! id = Some d /\ guard d = true /\ deployment_row_ok (f d) = true /\
     db' = set_deployments (<[d_id (f d) := f d]> (deployments db)) db).
Proof.
  unfold update_deployment. intros (row & d & Hg & H)%bind_ok. apply gets_ok in Hg as [= -> ->].
  destruct (deployments db !! id) as [r|] eqn:E; [|tx_inv H; by left]. destruct (guard r) eqn:Hgr; tx_inv H; [|by left].
  apply put_deployment_ok in Htx as (? & ? & ->). right. eauto 10.
Qed.

Lemma DepInv_put d db :
  DepInv db -> (forall i, instances db !! d_instance d = Some i -> i_app i = d_app d /\ i_org i = d_org d /\ i_env i = d_env d) -> settled_dead d ->
  DepInv (set_deployments (<[d_id d := d]> (deployments db)) db).
Proof.
  intros [Hk Hs Ht] Hd Hl. split; simpl; [by apply keyed_insert| |].
  - intros k r i. rewrite lookup_insert_Some. intros [[_ <-]|[_ Hr]]; eauto.
  - intros k r. rewrite lookup_insert_Some. intros [[_ <-]|[_ Hr]]; eauto.
Qed.
Lemma ledger_put d db : ledger_of (set_deployments (<[d_id d := d]> (deployments db)) db) = put (d_id d) (entry_of d) (ledger_of db).
Proof. unfold ledger_of, put. simpl. by rewrite fmap_insert. Qed.

(** What an update may change. *)
Definition same_row (d d' : DeploymentRow) : Prop :=
  d_id d' = d_id d /\ d_app d' = d_app d /\ d_org d' = d_org d /\ d_env d' = d_env d /\ d_instance d' = d_instance d /\
  d_created d' = d_created d /\ d_kind d' = d_kind d.
Lemma same_row_entry d d' : same_row d d' -> entry_of d' = in_phase (phase_of (d_state d')) (entry_of d).
Proof. intros (_ & Ha & _ & _ & Hi & Hc & Hk). unfold entry_of, in_phase, removal. simpl. by rewrite Ha, Hi, Hc, Hk. Qed.

Lemma sim_update id guard f :
  (forall d, same_row d (f d)) -> (forall d, guard d = true -> settled_dead d -> settled_dead (f d)) ->
  (forall L e d, entries L !! id = Some e -> e = entry_of d -> guard d = true -> lsteps L (put id (entry_of (f d)) L)) ->
  Sim (update_deployment id guard f).
Proof.
  intros Hf Hdead Hstep db n db' [[_ ->]|(_ & d & Hd & Hg & _ & ->)]%update_deployment_ok Hi _; [by split|].
  destruct (Hf d) as (Hid & Ha & Ho & He & Hin & _). split.
  - apply DepInv_put; [done| |by apply Hdead, (di_settled _ Hi id)]. intros i. rewrite Hin, Ha, Ho, He. by apply (di_scope _ Hi id).
  - rewrite ledger_put, Hid, (di_key _ Hi _ _ Hd). eapply Hstep; [by apply ledger_row|done..].
Qed.

(** Deleting planned rows. *)
Lemma DepInv_delete gone db : DepInv db -> DepInv (delete_deployments gone db).
Proof.
  intros Hi. split; simpl.
  - intros k d [Hd _]%map_lookup_filter_Some. by apply (di_key _ Hi).
  - intros k d i [Hd _]%map_lookup_filter_Some. by apply (di_scope _ Hi k).
  - intros k d [Hd _]%map_lookup_filter_Some. by apply (di_settled _ Hi k).
Qed.
Lemma ledger_delete gone db : ledger_of (delete_deployments gone db) =
  mkLedger (filter (fun ke => from_option gone false (deployments db !! ke.1) = false) (entries (ledger_of db))) (adopted (ledger_of db)).
Proof.
  unfold ledger_of. simpl. f_equal. apply map_eq. intros k. apply option_eq. intros e.
  rewrite map_lookup_filter_Some, lookup_fmap, lookup_fmap, map_lookup_filter. simpl.
  destruct (deployments db !! k) as [d|] eqn:Hd; simpl; [|naive_solver]. destruct (gone d) eqn:Hgd; simpl; naive_solver.
Qed.
Lemma drop_planned gone db :
  (forall k d, deployments db !! k = Some d -> gone d = true -> in_state StatePlanned d = true) ->
  lsteps (ledger_of db) (ledger_of (delete_deployments gone db)).
Proof.
  intros Hg. rewrite ledger_delete. apply rtc_once, (ls_drop _ _ (fun k => from_option gone false (deployments db !! k))). simpl. intros k e (d & Hd & ->)%ledger_entry Ho. rewrite Hd in Ho.
  apply (Hg k), in_state_true in Ho; [|done]. by apply phase_planned.
Qed.
(** Forgetting rows that are not live. *)
Lemma forget_settled gone db : erase = true ->
  (forall k d, deployments db !! k = Some d -> gone d = true -> live d = false) -> lsteps (ledger_of db) (ledger_of (delete_deployments gone db)).
Proof.
  intros He Hg. rewrite ledger_delete. apply rtc_once, (ls_forget _ _ (fun k => from_option gone false (deployments db !! k))); [done|]. simpl. intros k e (d & Hd & ->)%ledger_entry Ho. rewrite Hd in Ho.
  rewrite <- live_alive. by apply (Hg k).
Qed.
(** Forgetting an application without an instance. *)
Lemma forget_application app db : erase = true -> (forall j i, instances db !! j = Some i -> i_app i <> app) ->
  lsteps (ledger_of db) (ledger_of (delete_deployments (fun d => bool_decide (d_app d = app)) db)).
Proof.
  intros He Hn. rewrite ledger_delete.
  replace (filter _ (entries (ledger_of db))) with (filter (fun ke : string * Entry => en_app ke.2 <> app) (entries (ledger_of db))).
  - apply rtc_once, ls_erase; [done|]. intros j. unfold ledger_of. simpl. rewrite lookup_fmap. destruct (instances db !! j) as [i|] eqn:Ej; [|done].
    simpl. intros [= E]. by apply (Hn j i).
  - apply map_filter_ext. intros k e (d & Hd & ->)%ledger_entry. simpl. rewrite Hd. simpl. case_bool_decide; naive_solver.
Qed.

Definition forsaken (d : DeploymentRow) : Prop := d_state d = StateApplying \/ d_state d = OutcomeUnknown.
Lemma forsaken_phase d : forsaken d -> en_phase (entry_of d) = Applying \/ en_phase (entry_of d) = Lost.
Proof. intros [H|H]; [left; by apply phase_applying|right; by apply phase_lost]. Qed.

Lemma sim_transition filter_ set_ outcome result now fresh :
  (forall d, same_row d (set_ d)) -> (forall d, filter_ d = true -> forsaken d) ->
  (forall d, d_state (set_ d) = OutcomeUnknown) \/ (forall d, d_state (set_ d) = OutcomeFailed) ->
  Sim (systemTransition filter_ set_ outcome result now fresh).
Proof.
  intros Hs Hf Hst. unfold systemTransition. apply sim_bind; [apply sim_keeps; keeps|]. intros l.
  assert (Hu : forall id, Sim (update_deployment id filter_ set_)).
  { intros id. apply sim_update; [done| |].
    { intros d _ _. unfold settled_dead, live, in_state. by destruct Hst as [-> | ->]. }
    intros L e d He -> Hg. apply rtc_once. rewrite (same_row_entry _ _ (Hs d)).
    destruct Hst as [Hst|Hst]; rewrite (Hst d).
    - by apply ls_lose; [|apply forsaken_phase, Hf].
    - by apply ls_fail; [|apply forsaken_phase, Hf]. }
  induction l as [|r l IH]; simpl; [apply sim_keeps; keeps|]. apply sim_bind; [apply Hu|]. intros n. destruct (negb _); [exact IH|].
  apply sim_bind; [apply sim_keeps; unfold auditDeployment; keeps|]. intros _. apply sim_bind; [exact IH|]. intros m. apply sim_keeps; keeps.
Qed.

(** ** Results *)

(** Rows and instances that differ only in what the ledger does not see. *)
Lemma DepInv_refresh db db' :
  (forall k d', deployments db' !! k = Some d' -> exists d, deployments db !! k = Some d /\ same_row d d' /\ (settled_dead d -> settled_dead d')) ->
  (forall i r', instances db' !! i = Some r' -> exists r, instances db !! i = Some r /\ i_app r' = i_app r /\ i_org r' = i_org r /\ i_env r' = i_env r) ->
  DepInv db -> DepInv db'.
Proof.
  intros Hd Hi [Hk Hs Ht]. split.
  - intros k d' (d & H & (Hid & _) & _)%Hd. rewrite Hid. by apply Hk.
  - intros k d' i' (d & H & (_ & Ha & Ho & He & Hn & _) & _)%Hd. rewrite Hn, Ha, Ho, He. intros (i & Hin & -> & -> & ->)%Hi. eauto.
  - intros k d' (d & H & _ & Hl)%Hd. by eapply Hl, Ht.
Qed.

Lemma keeps_settleApply endpoint instance plan r : Keeps tables (settleApply endpoint instance plan r).
Proof. unfold settleApply, settleKubernetesApply, clearImageChecks, rebind, insert_resource, put_resource. keeps. Qed.
Lemma forget_tables instance endpoint l db :
  tables (foldl (fun db (sc : string * string) => forget_resource instance endpoint sc.2 db) db l) = tables db.
Proof.
  revert db; induction l as [|c l IH]; intros db; [done|]. cbn [foldl]. rewrite IH. unfold forget_resource. by repeat case_match.
Qed.
Lemma releaseRemoved_tables app instance now db u db' :
  releaseRemoved app instance now db = Ok (u, db') -> deployments db' = deployments db /\ instances db' = delete instance (instances db).
Proof.
  unfold releaseRemoved. intros H. tx_inv H. unfold delete_instance. by destruct (applications _ !! app).
Qed.
(** A removal's settlement leaves the rows alone and lets go of the instance exactly on success. *)
Lemma settleRemoval_tables endpoint app instance plan r now db u db' :
  settleRemoval endpoint app instance plan r now db = Ok (u, db') ->
  deployments db' = deployments db /\
  instances db' = (if bool_decide (rs_outcome r = OutcomeSucceeded) then delete instance (instances db) else instances db).
Proof.
  unfold settleRemoval. intros H. apply bind_ok in H as ([] & ? & Hz & H). apply ensure_ok in Hz as [_ [= ->]].
  destruct (nonempty (pl_namespace plan)).
  - apply bind_ok in H as ([] & ? & Hz & H). apply ensure_ok in Hz as [_ [= ->]].
    destruct (bool_decide _); [by eapply releaseRemoved_tables|]. by apply ret_ok in H as [= -> ->].
  - tx_inv H. pose proof (forget_tables instance endpoint (List.filter (fun sc => off_host row sc.1) (map_to_list (removal_targets plan))) db) as Ht.
    unfold tables in Ht. injection Ht as Hd Hn. destruct (bool_decide _).
    + apply releaseRemoved_tables in H as [-> ->]. by rewrite Hd, Hn.
    + apply ret_ok in H as [= -> ->]. done.
Qed.

Lemma settling_some endpoint id db d :
  settling endpoint id db = Some d -> deployments db !! id = Some d /\ d_endpoint d = endpoint /\ deployment_settleable db d = true.
Proof.
  unfold settling. destruct (deployments db !! id) as [d'|]; [|done]. destruct (bool_decide _ && _) eqn:E; [|done].
  intros [= ->]. apply andb_true_iff in E as [E1 E2]. gobool. done.
Qed.

Lemma expire_same d now n : same_row n (expire_newer d now n) /\ d_state (expire_newer d now n) = d_state n.
Proof. unfold expire_newer. by destruct (_ && _). Qed.
Lemma expire_dead d now n : settled_dead n -> settled_dead (expire_newer d now n).
Proof. unfold expire_newer. by destruct (_ && _). Qed.
Lemma settlement_dead r now d : rs_outcome r ∈ resultOutcomes -> settled_dead (with_settlement r now d).
Proof. unfold settled_dead, live, in_state. simpl. unfold resultOutcomes. rewrite !elem_of_cons. by intros [-> | [-> | [-> | [-> | [-> | []%elem_of_nil]]]]]. Qed.
Lemma expire_entry d now n : entry_of (expire_newer d now n) = entry_of n.
Proof. unfold expire_newer. by destruct (_ && _). Qed.

Lemma insertValidation_row org env app instance endpoint deployment correlation fresh settled db u db' :
  insertValidation org env app instance endpoint deployment correlation fresh settled db = Ok (u, db') ->
  exists v, v_id v = deployment /\ v_phase v = PhaseGrace /\ db' = set_validations (<[v_id v := v]> (validations db)) db.
Proof. unfold insertValidation, insert_validation, put_validation. intros H. tx_inv H.
  match goal with H : validation_row_ok ?v = true |- _ => by exists v end.
Qed.

(** What a settlement makes of the two tables. *)
Definition settled_tables (d : DeploymentRow) (r : DeploymentResult) (now : time) (db db' : DB) : Prop :=
  deployments db' = expire_newer d now <$> <[rs_deployment r := with_settlement r now d]> (deployments db) /\
  instances db' =
    if removal d then if bool_decide (rs_outcome r = OutcomeSucceeded) then delete (d_instance d) (instances db) else instances db
    else if bool_decide (d_kind d = KindApply) && bool_decide (rs_outcome r = OutcomeSucceeded)
         then alter (with_revision (d_revision d)) (d_instance d) (instances db) else instances db.

(** The rest of a settlement leaves the resources alone, and opens a validation for an apply that succeeded. *)
Definition opened_after (d : DeploymentRow) (r : DeploymentResult) (db1 db' : DB) : Prop :=
  resources db' = resources db1 /\
  if bool_decide (d_kind d = KindApply) && bool_decide (rs_outcome r = OutcomeSucceeded)
  then exists v, v_id v = rs_deployment r /\ v_phase v = PhaseGrace /\ validations db' = <[v_id v := v]> (validations db1)
  else validations db' = validations db1.

Lemma settle_body_ok endpoint r now fresh db u db' :
  DepInv db -> settle_body endpoint r now fresh db = Ok (u, db') ->
  exists d plan db1, settling endpoint (rs_deployment r) db = Some d /\ d_plan d = Some plan /\
    (rs_request r = "" \/ rs_request r = d_correlation d) /\
    (if removal d then settleRemoval endpoint (d_app d) (d_instance d) plan r now else settleApply endpoint (d_instance d) plan r) db = Ok (tt, db1) /\
    settled_tables d r now db db' /\ opened_after d r db1 db'.
Proof.
  intros Hi. unfold settle_body. intros H. apply bind_ok in H as (? & ? & Hz & H). apply gets_ok in Hz as [= -> ->].
  apply bind_ok in H as (d & ? & Hz & H). apply one_ok in Hz as (d' & Hd & [= <- ->]).
  apply bind_ok in H as ([] & ? & Hz & H). apply ensure_ok in Hz as [Hq [= ->]].
  apply bind_ok in H as (plan & ? & Hz & H). apply one_ok in Hz as (plan' & Hp & [= <- ->]).
  apply bind_ok in H as ([] & db1 & Hw & H). apply bind_ok in H as (n & db2 & Hup & H).
  apply bind_ok in H as ([] & ? & Hz & H). apply ensure_ok in Hz as [Hn [= ->]]. apply Z.eqb_eq in Hn as ->.
  apply bind_ok in H as ([] & db3 & Hv & H). apply bind_ok in H as ([] & ? & Hz & H). apply modify_ok in Hz as [= ->].
  unfold auditDeployment in H. apply modify_ok in H as [= -> ->].
  exists d, plan, db1. split; [done|]. split; [done|]. split.
  { apply negb_true_iff, andb_false_iff in Hq as [Hq|Hq]; [left|right]; [|by apply negb_false_iff, bool_decide_eq_true in Hq].
    unfold nonempty in Hq. by apply negb_false_iff, bool_decide_eq_true in Hq. }
  split; [done|]. apply settling_some in Hd as (Hd & _ & _).
  assert (Hdep1 : deployments db1 = deployments db /\ instances db1 =
    if removal d then if bool_decide (rs_outcome r = OutcomeSucceeded) then delete (d_instance d) (instances db) else instances db else instances db).
  { destruct (removal d); [by eapply settleRemoval_tables|]. apply keeps_settleApply in Hw. unfold tables in Hw. by injection Hw as -> ->. }
  destruct Hdep1 as [Ed1 Ei1].
  apply update_deployment_ok in Hup as [[? _]|(_ & y & Hy & _ & _ & ->)]; [done|]. rewrite Ed1 in Hy. simplify_eq.
  assert (Hkind : removal d = true -> bool_decide (d_kind d = KindApply) = false).
  { unfold removal. intros Hr. gobool. by rewrite Hr. }
  unfold settled_tables, opened_after. simpl. destruct (bool_decide (d_kind d = KindApply) && _) eqn:Ev.
  - apply bind_ok in Hv as ([] & ? & Hz & Hv). apply modify_ok in Hz as [= ->]. apply insertValidation_row in Hv as (v & Hid & Hph & ->).
    simpl. rewrite Ed1, Ei1, (di_key _ Hi _ _ Hd). split; [|split; [done|by exists v]].
    destruct (removal d); [by rewrite Hkind in Ev|]. done.
  - apply ret_ok in Hv as [= ->]. simpl. rewrite Ed1, Ei1, (di_key _ Hi _ _ Hd). done.
Qed.

Lemma with_settlement_same r now d : same_row d (with_settlement r now d).
Proof. done. Qed.

Lemma settled_ledger d r now db db' id :
  deployments db !! id = Some d -> id = rs_deployment r -> rs_outcome r ∈ resultOutcomes -> settled_tables d r now db db' ->
  ledger_of db' =
    if removal d && bool_decide (rs_outcome r = OutcomeSucceeded)
    then mkLedger (<[id := in_phase (Done "succeeded") (entry_of d)]> (entries (ledger_of db))) (delete (d_instance d) (adopted (ledger_of db)))
    else put id (in_phase (outcome_phase (rs_outcome r)) (entry_of d)) (ledger_of db).
Proof.
  intros Hd -> Ho [Ed Ei]. unfold ledger_of, put. rewrite Ed, Ei. simpl.
  assert (Hent : entry_of <$> (expire_newer d now <$> <[rs_deployment r:=with_settlement r now d]> (deployments db)) =
    <[rs_deployment r := in_phase (outcome_phase (rs_outcome r)) (entry_of d)]> (entry_of <$> deployments db)).
  { rewrite <- map_fmap_compose, fmap_insert. rewrite <- (phase_outcome _ Ho).
    replace ((entry_of ∘ expire_newer d now) <$> deployments db) with (entry_of <$> deployments db)
      by (apply map_fmap_ext; intros k n _; symmetry; apply expire_entry).
    f_equal. unfold compose. rewrite expire_entry. apply (same_row_entry d), with_settlement_same. }
  rewrite Hent. destruct (removal d) eqn:Er; simpl.
  - case_bool_decide as E; [|done]. f_equal; [by rewrite E|by rewrite fmap_delete].
  - f_equal. destruct (bool_decide _ && _); [|done]. apply map_eq. intros k. rewrite !lookup_fmap, lookup_alter.
    case_decide as E; [|done]. subst k. by destruct (instances db !! _).
Qed.

Lemma sim_settle endpoint r now fresh : rs_outcome r ∈ resultOutcomes -> Sim (settle_body endpoint r now fresh).
Proof.
  intros Ho db u db' H Hi _. destruct (settle_body_ok _ _ _ _ _ _ _ Hi H) as (d & plan & db1 & Hs & _ & _ & _ & Ht & _).
  apply settling_some in Hs as (Hd & _ & Hset). split.
  - destruct Ht as [Ed Ei]. apply (DepInv_refresh db); [| |done].
    + intros k d'. rewrite Ed, lookup_fmap_Some. intros (x & <- & Hx). destruct (expire_same d now x) as [Hsm _].
      rewrite lookup_insert_Some in Hx. destruct Hx as [[<- <-]|[_ Hx]]; [exists d|exists x]; (split; [done|]); (split; [exact Hsm|]).
      * intros _. apply expire_dead, settlement_dead, Ho.
      * apply expire_dead.
    + intros i r'. rewrite Ei. destruct (removal d).
      * case_bool_decide; [intros [_ ?]%lookup_delete_Some|intros ?]; by exists r'.
      * destruct (_ && _); [|intros ?; by exists r']. rewrite lookup_alter_Some. intros [(E & x & Hx & ->)|[_ Hx]]; [subst i; by exists x|by exists r'].
  - apply settleable_answerable in Hset. rewrite (settled_ledger d r now db db' _ Hd eq_refl Ho Ht). apply rtc_once.
    destruct (removal d) eqn:Er; simpl; [case_bool_decide|].
    + apply (ls_removed erase (ledger_of db) (rs_deployment r) (entry_of d)); [by apply ledger_row|done|exact Er].
    + apply ls_settle; [by apply ledger_row|done].
    + apply ls_settle; [by apply ledger_row|done].
Qed.

Lemma sim_refuse endpoint id detail now fresh : Sim (refuse_body endpoint id detail now fresh).
Proof.
  unfold refuse_body. apply sim_bind; [apply sim_keeps; keeps|]. intros o. apply sim_bind; [apply sim_keeps; keeps|]. intros d.
  apply sim_bind; [|intros n; apply sim_keeps; unfold auditDeployment; keeps]. apply sim_update; [done|by intros x _ _|]. intros L e x He -> Hg.
  apply rtc_once. rewrite (same_row_entry x) by done. apply ls_lose; [done|]. apply forsaken_phase.
  rewrite orb_true_iff, andb_true_iff, !in_state_true in Hg. unfold forsaken. tauto.
Qed.

(** ** Plans and applies *)

(** The row belongs to its instance, when that is there. *)
Definition of_instance (db : DB) (d : DeploymentRow) : Prop :=
  forall i, instances db !! d_instance d = Some i -> i_app i = d_app d /\ i_org i = d_org d /\ i_env i = d_env d.

Lemma sim_insert d db u db' :
  insert_deployment d db = Ok (u, db') -> DepInv db -> of_instance db d -> d_settled d = None ->
  (d_state d = StatePlanned \/ (d_state d = StateApplying /\ removal d = true /\ is_Some (instances db !! d_instance d))) ->
  DepInv db' /\ lsteps (ledger_of db) (ledger_of db').
Proof.
  intros (Hn & Hf & _ & ->)%insert_deployment_ok Hi Hs Hnew Hst. split; [by apply DepInv_put; [done..|intros _]|]. rewrite ledger_put. apply rtc_once.
  assert (Hentry : entries (ledger_of db) !! d_id d = None) by (unfold ledger_of; simpl; by rewrite lookup_fmap, Hn).
  destruct Hst as [Hst|(Hst & Hr & i & Hin)].
  - apply ls_plan; [done|by apply phase_planned|]. apply live_free_idle; [done..| |done]. unfold live, in_state. by rewrite Hst.
  - apply ls_remove; [done|by apply phase_applying|done| |].
    + apply live_free_idle; [done..| |done]. unfold live, in_state. by rewrite Hst.
    + rewrite (ledger_adopted db _ i) by done. simpl. f_equal. by apply Hs.
Qed.

Lemma live_here_live a instance db d : DepInv db -> live_here a instance db = Some d -> live d = true /\ deployments db !! d_id d = Some d.
Proof.
  unfold live_here. intros Hi [Hin H]%find_some. apply elem_rows in Hin as (k & Hk). rewrite (di_key _ Hi _ _ Hk).
  by apply andb_true_iff in H as [_ Hl].
Qed.
Lemma insertPlan_sim plan_bytes a d plan instance db u db' :
  insertPlan plan_bytes a d plan instance db = Ok (u, db') -> DepInv db -> of_instance db d -> d_settled d = None -> d_state d = StatePlanned ->
  DepInv db' /\ lsteps (ledger_of db) (ledger_of db').
Proof.
  unfold insertPlan. intros H Hi Hs Hnew Hst. apply bind_ok in H as ([] & ? & Hz & H). apply ensure_ok in Hz as [_ [= ->]].
  apply bind_ok in H as (found & ? & Hz & H). apply gets_ok in Hz as [= -> ->].
  apply bind_ok in H as ([] & ? & Hz & H). apply ensure_ok in Hz as [Hna [= ->]].
  apply bind_ok in H as ([] & db1 & Hdel & H).
  assert (Hd : DepInv db1 /\ lsteps (ledger_of db) (ledger_of db1) /\ instances db1 = instances db).
  { destruct (live_here a instance db) as [l|] eqn:El; [|by apply ret_ok in Hdel as [= ->]].
    destruct (live_here_live _ _ _ _ Hi El) as [Hl Hrow]. apply negb_true_iff in Hna.
    apply modify_ok in Hdel as [= ->]. split; [|split; [|done]].
    - by eapply DepInv_delete.
    - apply drop_planned. intros k o Ho E. apply bool_decide_eq_true in E. rewrite <- (di_key _ Hi _ _ Ho), E, Hrow in Ho. simplify_eq.
      unfold live in Hl. rewrite Hna, orb_false_r in Hl. done. }
  destruct Hd as (Hi1 & R & Ein). destruct (sim_insert _ _ _ _ H Hi1) as [Hi2 R2].
  - unfold of_instance. by rewrite Ein.
  - exact Hnew.
  - by left.
  - split; [done|]. by etrans.
Qed.

(** A plan drafted for the caller's application. *)
Definition drafted (a : TenantAccess) (app : string) (d : DeploymentRow) : Prop :=
  d_org d = OrganizationID a /\ d_env d = EnvironmentID a /\ d_app d = app /\ d_state d = StatePlanned /\ d_settled d = None.
Lemma inst_here_true a app i : inst_here a app i = true <-> i_app i = app /\ i_org i = OrganizationID a /\ i_env i = EnvironmentID a.
Proof. unfold inst_here. rewrite !andb_true_iff, !bool_decide_eq_true. tauto. Qed.
Lemma drafted_of_instance a app d db i :
  drafted a app d -> instances db !! d_instance d = Some i -> inst_here a app i = true -> of_instance db d.
Proof.
  intros (Ho & He & Ha & _) Hi (E1 & E2 & E3)%inst_here_true j Hj. simplify_eq. by rewrite Ho, He.
Qed.
Lemma instance_of_some a app db id i : instance_of a app db = Some (id, i) -> instances db !! id = Some i /\ inst_here a app i = true.
Proof. unfold instance_of. intros [Hin H]%find_some. by apply elem_of_map_to_list in Hin. Qed.

Section planning.
Context (Marshal : ApplicationSpec -> string) (Unmarshal : string -> option ApplicationSpec) (sum_hex : string -> string)
  (UnmarshalValues : string -> option (gmap string string)) (DeriveKey : string -> string -> string)
  (DecryptAESGCM : string -> string -> option string) (uuid_parse : string -> option string) (preview_digest : AdoptionPreview -> string)
  (frame_bytes : DeploymentRequest -> Z) (plan_bytes : DeploymentPlan -> Z) (removal_bytes : RemovalRequest -> Z) (allowPrivileged : bool).

Lemma applicationMapping_instance a app now db m db' :
  applicationMapping Marshal Unmarshal sum_hex preview_digest a app now db = Ok (m, db') ->
  exists i, instances db !! am_instance m = Some i /\ inst_here a app i = true.
Proof.
  unfold applicationMapping. intros H. apply bind_ok in H as (? & ? & Hz & H). apply gets_ok in Hz as [= -> ->].
  destruct (instance_of a app db) as [[id i]|] eqn:Ei; [|done]. apply instance_of_some in Ei. simpl in H.
  destruct (endpoints db !! i_endpoint i) as [e|]; [|done]. simpl in H. apply bind_ok in H as (? & ? & Hz & H). apply ret_ok in Hz as [= -> ->].
  apply bind_ok in H as ([] & ? & Hz & H). apply ensure_ok in Hz as [_ [= ->]].
  exists i. case_bool_decide; tx_inv H; done.
Qed.
Lemma preflight_instance a app revision pins now db p m spec snapshot digest db' :
  preflight Marshal Unmarshal sum_hex preview_digest allowPrivileged a app revision pins now db = Ok ((p, m, spec, snapshot, digest), db') ->
  exists i, instances db !! am_instance m = Some i /\ inst_here a app i = true.
Proof.
  unfold preflight. intros H. apply bind_ok in H as (m' & ? & Hm & H). reading Hm.
  apply applicationMapping_instance in Hm. assert (m' = m) as <-; [clear Hm|done].
  repeat first [apply bind_ok in H as (? & ? & _ & H) | apply ret_ok in H; by simplify_eq
               | match type of H with context [match ?q with _ => _ end] => destruct q end].
Qed.
Lemma draftPlan_row a app id r now db d db' :
  draftPlan Marshal Unmarshal sum_hex preview_digest allowPrivileged a app id r now db = Ok (d, db') ->
  drafted a app (dr_row d) /\ d_instance (dr_row d) = am_instance (dr_mapping d) /\
  exists i, instances db !! am_instance (dr_mapping d) = Some i /\ inst_here a app i = true.
Proof.
  unfold draftPlan. intros H. apply bind_ok in H as ([[[[p m] spec] snapshot] digest] & ? & Hp & H). apply preflight_instance in Hp.
  tx_inv H. done.
Qed.

Lemma sim_plan_body a app id r key now :
  Sim (plan_body Marshal Unmarshal sum_hex UnmarshalValues DeriveKey DecryptAESGCM preview_digest frame_bytes plan_bytes allowPrivileged a app id r key now).
Proof.
  intros db x db' H Hi _. unfold plan_body in H. apply bind_ok in H as (d & ? & Hd & H).
  reading Hd. apply draftPlan_row in Hd as (Hdr & Hin & i & Hi1 & Hi2).
  apply bind_ok in H as ([] & ? & Hz & H). apply ensure_ok in Hz as [_ [= ->]].
  apply bind_ok in H as ([] & ? & Hz & H). apply reads_blocked_error in Hz as ->.
  apply bind_ok in H as ([] & ? & Hz & H). apply reads_checkFrame in Hz as ->.
  apply bind_ok in H as ([] & ? & Hz & H). apply ret_ok in H as [= -> ->]. eapply insertPlan_sim; [exact Hz|done| |by apply Hdr|by apply Hdr].
  eapply drafted_of_instance; [done| |done]. by rewrite Hin.
Qed.
Lemma sim_update_write a app r d state blockers plan cancelled key now :
  drafted a app (dr_row d) ->
  Sim (update_write Unmarshal sum_hex UnmarshalValues DeriveKey DecryptAESGCM frame_bytes plan_bytes allowPrivileged a app r d state blockers plan cancelled key now).
Proof.
  intros Hdr db x db' H Hi _. unfold update_write in H.
  apply bind_ok in H as ([] & ? & Hz & H). apply ensure_ok in Hz as [_ [= ->]].
  apply bind_ok in H as ([] & ? & Hz & H). apply reads_lockApplication in Hz as ->.
  apply bind_ok in H as (current & ? & Hc & H). reading Hc.
  apply bind_ok in H as ([] & ? & Hz & H). apply ensure_ok in Hz as [_ [= ->]].
  apply bind_ok in H as ([] & ? & Hz & H). apply reads_blocked_error in Hz as ->.
  apply bind_ok in H as ([] & ? & Hz & H). apply reads_checkFrame in Hz as ->.
  apply bind_ok in H as ([] & ? & Hz & H). apply ret_ok in H as [= -> ->]. eapply insertPlan_sim; [exact Hz|done| |by apply Hdr|by apply Hdr].
  unfold imageCheckState in Hc. apply bind_ok in Hc as (? & ? & Hg & Hc). apply gets_ok in Hg as [= -> ->].
  destruct (instances db !! d_instance (dr_row d)) as [i|] eqn:Ei; [|done]. destruct (inst_here a app i) eqn:Eh; [|done].
  eapply (drafted_of_instance a app); [exact Hdr|exact Ei|done].
Qed.

Lemma with_flip_same by_ now deadline run migration d : same_row d (with_flip by_ now deadline run migration d).
Proof. done. Qed.
Lemma target_of_some a d db i e : target_of a d db = Some (i, e) ->
  instances db !! d_instance d = Some i /\ endpoints db !! d_endpoint d = Some e /\ i_endpoint i = d_endpoint d /\
  i_org i = OrganizationID a /\ i_env i = EnvironmentID a.
Proof.
  unfold target_of. destruct (instances db !! d_instance d) as [j|]; [|done]. destruct (_ && _) eqn:E; [|done].
  rewrite !andb_true_iff, !bool_decide_eq_true in E. destruct E as [[Hn Ho] He].
  destruct (endpoints db !! i_endpoint j) as [f|] eqn:Ee; [|done]. intros [= -> ->]. by rewrite <- Hn.
Qed.
Lemma deployment_of_some a app id db d : deployment_of a app id db = Some d ->
  deployments db !! id = Some d /\ d_org d = OrganizationID a /\ d_env d = EnvironmentID a /\ d_app d = app.
Proof. unfold deployment_of. destruct (deployments db !! id) as [r|]; [|done]. destruct (_ && _) eqn:E; [|done]. gobool. by intros [= ->]. Qed.

(** What an apply decides before it flips the row. *)
Record ApplyReady (a : TenantAccess) (app id confirm : string) (now : time) (db : DB) (d : DeploymentRow) (plan : DeploymentPlan) : Prop := {
  ar_row : deployments db !! id = Some d /\ d_org d = OrganizationID a /\ d_env d = EnvironmentID a /\ d_app d = app;
  ar_plan : d_plan d = Some plan /\ confirm = pl_project plan;
  ar_planned : d_state d = StatePlanned /\ d_kind d = KindApply /\ now < d_expires d;
  ar_head : exists r, app_of a app db = Some r /\ 1 <= d_revision d <= app_latest r;
  ar_target : exists i e, target_of a d db = Some (i, e) /\ i_mapping i = d_mapping d /\ ep_state e = "active" }.

Lemma apply_body_ok a app id confirm key max run guard now db row frame db' :
  Reads guard ->
  apply_body Unmarshal sum_hex UnmarshalValues DeriveKey DecryptAESGCM frame_bytes allowPrivileged a app id confirm key max run guard now db
    = Ok ((row, frame), db') ->
  exists d plan, guard db = Ok (tt, db) /\ ApplyReady a app id confirm now db d plan /\
    buildDeploymentFrame Unmarshal sum_hex UnmarshalValues DeriveKey DecryptAESGCM allowPrivileged a d plan key now db = Ok (frame, db) /\
    frameBlocker frame_bytes frame now max = "" /\
    row = with_flip (Principal a) now (dr_deadline frame) run (destination_migration a app db) d /\
    (keyed d_id (deployments db) -> db' = set_deployments (<[id := row]> (deployments db)) db).
Proof.
  intros Hg H. unfold apply_body in H. apply bind_ok in H as (? & ? & Hz & H). apply gets_ok in Hz as [= -> ->].
  apply bind_ok in H as (head & ? & Hz & H). apply one_ok in Hz as (? & Happ & [= <- ->]).
  apply bind_ok in H as ([] & ? & Hguard & H). reading Hguard.
  apply bind_ok in H as (? & ? & Hz & H). apply gets_ok in Hz as [= -> ->].
  apply bind_ok in H as (d & ? & Hz & H). apply one_ok in Hz as (? & Hd & [= <- ->]).
  apply bind_ok in H as (plan & ? & Hz & H). apply one_ok in Hz as (? & Hp & [= <- ->]).
  apply bind_ok in H as ([] & ? & Hz & H). apply ensure_ok in Hz as [_ [= ->]].
  apply bind_ok in H as ([] & ? & Hz & H). apply ensure_ok in Hz as [Hc [= ->]].
  apply bind_ok in H as ([] & ? & Hz & H). apply ensure_ok in Hz as [Hr [= ->]].
  apply bind_ok in H as (? & ? & Hz & H). apply gets_ok in Hz as [= -> ->].
  apply bind_ok in H as ([i e] & ? & Hz & H). apply one_ok in Hz as (? & Ht & [= <- ->]).
  apply bind_ok in H as ([] & ? & Hz & H). apply ensure_ok in Hz as [Hm [= ->]].
  apply bind_ok in H as ([] & ? & Hz & H). apply ensure_ok in Hz as [He [= ->]].
  apply bind_ok in H as (fr & ? & Hf & H). reading Hf.
  apply bind_ok in H as ([] & ? & Hz & H). apply ensure_ok in Hz as [Hb [= ->]].
  apply bind_ok in H as (? & ? & Hz & H). apply gets_ok in Hz as [= -> ->].
  apply bind_ok in H as (n & db1 & Hu & H). apply bind_ok in H as ([] & ? & Hz & H). apply ensure_ok in Hz as [Hn [= ->]].
  apply ret_ok in H as [= -> -> ->]. apply Z.eqb_eq in Hn as ->.
  apply deployment_of_some in Hd as (Hd & Hdo & Hde & Hda). exists d, plan. split; [done|]. rewrite !andb_true_iff, !Z.leb_le, Z.ltb_lt, in_state_true in Hr. gobool. split.
  { split; [done|done|tauto|exists head; split; [done|tauto]|]. exists i, e. simpl in *. split_and!; [done|lia|done]. }
  split; [done|]. split. { unfold nonempty in Hb. by apply negb_false_iff, bool_decide_eq_true in Hb. }
  split; [done|]. intros Hk. apply update_deployment_ok in Hu as [[? _]|(_ & y & Hy & _ & _ & ->)]; [done|].
  rewrite (Hk _ _ Hd), Hd in Hy. simplify_eq. simpl. by rewrite (Hk _ _ Hd).
Qed.
Lemma sim_apply_body a app id confirm key max run guard now :
  Reads guard ->
  Sim (apply_body Unmarshal sum_hex UnmarshalValues DeriveKey DecryptAESGCM frame_bytes allowPrivileged a app id confirm key max run guard now).
Proof.
  intros Hg db [row frame] db' H Hi _. apply apply_body_ok in H as (d & plan & _ & Hready & _ & _ & Hrow & Hdb); [|done].
  specialize (Hdb (di_key _ Hi)). destruct Hready as [(Hd & Ho & He & Ha) _ (Hst & Hkind & _) _ (i & e & Ht & _)].
  apply target_of_some in Ht as (Hin & _). destruct (di_scope _ Hi _ _ _ Hd Hin) as (Hia & _).
  assert (Hid : d_id row = id) by (rewrite Hrow; simpl; by apply (di_key _ Hi)).
  assert (Hsame : same_row d row) by by rewrite Hrow. subst db'. rewrite <- Hid. split.
  - apply DepInv_put; [done| |].
    + destruct Hsame as (_ & -> & -> & -> & -> & _). intros j Hj. by apply (di_scope _ Hi id).
    + intros _. rewrite Hrow. refine (di_settled _ Hi id d Hd _). unfold live. by rewrite (proj2 (in_state_true StatePlanned d) Hst).
  - rewrite ledger_put, Hid. apply rtc_once. rewrite (same_row_entry _ _ Hsame).
    replace (phase_of (d_state row)) with Applying by by rewrite Hrow.
    apply ls_start; [by apply ledger_row|by apply phase_planned| |].
    + simpl. unfold removal. by rewrite Hkind.
    + rewrite (ledger_adopted _ _ i) by done. simpl. by rewrite Hia.
Qed.

(** ** Removing, releasing, adopting *)

Lemma refuse_live_ok a p instance now db u db' :
  refuse_live a p instance now db = Ok (u, db') ->
  db' = delete_deployments (fun d => deployments_of a instance "planned" d && p d) db /\
  match live_of a p instance db with
  | Some d => in_state StateApplying d = false /\ (d_state d = StatePlanned -> d_expires d <= now)
  | None => True
  end.
Proof.
  unfold refuse_live. intros H. apply bind_ok in H as (live & ? & Hz & H). apply gets_ok in Hz as [= -> ->].
  apply bind_ok in H as ([] & ? & Hz & H). apply ensure_ok in Hz as [Ha [= ->]].
  apply bind_ok in H as ([] & ? & Hz & H). apply ensure_ok in Hz as [Hp [= ->]]. apply modify_ok in H as [= -> ->].
  split; [done|]. destruct (live_of a p instance db) as [d|]; [|done]. split; [by apply negb_true_iff in Ha|]. intros Hst.
  rewrite Hst in Hp. simpl in Hp. apply negb_true_iff in Hp. rewrite Z.gtb_ltb, Z.ltb_ge in Hp. lia.
Qed.
Lemma refuse_live_planned a p instance now db u db' :
  refuse_live a p instance now db = Ok (u, db') -> DepInv db ->
  DepInv db' /\ lsteps (ledger_of db) (ledger_of db') /\ instances db' = instances db.
Proof.
  intros (-> & _)%refuse_live_ok Hi. split; [by apply DepInv_delete|]. split; [|done]. apply drop_planned.
  intros k d _ H. unfold deployments_of in H. rewrite !andb_true_iff in H. by destruct H as [[_ H] _].
Qed.

Record RemoveReady (a : TenantAccess) (app instance confirm : string) (now : time) (db : DB) (head : ApplicationRow) (i : InstanceRow)
    (e : EndpointRow) (r : RevisionRow) : Prop := {
  rr_app : app_of a app db = Some head;
  rr_instance : instances db !! instance = Some i /\ inst_here a app i = true /\ confirm = i_project i;
  rr_endpoint : endpoints db !! i_endpoint i = Some e /\ ep_state e = "active" /\ (ep_runtime e = RuntimeKubernetes <-> i_namespace i <> "");
  rr_local : localDockerGuard a ContainerDestroy (i_endpoint i) db = Ok (tt, db);
  rr_migrations : count (fun g => bool_decide (mg_org g = OrganizationID a) && bool_decide (mg_env g = EnvironmentID a)
                                  && bool_decide (mg_app g = app) && openMigration g) (migrations db) = 0;
  rr_revision : revision_of a app (app_latest head) db = Some r }.

Lemma remove_body_ok a app instance confirm id now n db n' d req db' :
  remove_body Unmarshal sum_hex plan_bytes removal_bytes a app instance confirm id now n db = (n', Ok ((d, req), db')) ->
  exists head i e r plan k db1, RemoveReady a app instance confirm now db head i e r /\
    refuse_live a (fun _ => true) instance now db = Ok (tt, db1) /\
    removal_scope Unmarshal sum_hex a app instance i (app_latest head) (rv_digest r) (CorrelationID a) id now db1 = Ok ((plan, req, k), db1) /\
    removalBlockers (i_endpoint i) instance (i_project i) (pl_containers plan) now db1 = Ok (tt, db1) /\
    removal_validate req now = Ok tt /\
    d = mkDeployment id (OrganizationID a) (EnvironmentID a) app instance (i_endpoint i) StateApplying (rm_deadline req) None
               KindRemove (i_project i) (app_latest head) (rv_digest r) (i_mapping i) (Some plan) (ActorID a) now (ActorID a) (Some now)
               (Some (rm_deadline req)) None "" None (CorrelationID a) None /\
    insert_deployment d db1 = Ok (tt, db').
Proof.
  unfold remove_body. unfold mbind at 1, act_bind at 1, lift at 1. match goal with |- context [match ?m db with _ => _ end] => destruct (m db) as [[[[d' req'] k] db2]|] eqn:H end; [|done].
  unfold mbind, act_bind, set_details, mret, act_ret. intros [= _ <- <- <-].
  apply bind_ok in H as (? & ? & Hz & H). apply gets_ok in Hz as [= -> ->].
  apply bind_ok in H as (head & ? & Hz & H). apply one_ok in Hz as (? & Happ & [= <- ->]).
  apply bind_ok in H as (? & ? & Hz & H). apply gets_ok in Hz as [= -> ->].
  apply bind_ok in H as ([i e] & ? & Hz & H). apply one_ok in Hz as (? & Ht & [= <- ->]).
  apply bind_ok in H as ([] & ? & Hz & H). apply ensure_ok in Hz as [Hrt [= ->]].
  apply bind_ok in H as ([] & ? & Hg & H). reading Hg.
  apply bind_ok in H as ([] & ? & Hz & H). apply ensure_ok in Hz as [Hc [= ->]].
  apply bind_ok in H as (? & ? & Hz & H). apply gets_ok in Hz as [= -> ->].
  apply bind_ok in H as ([] & ? & Hz & H). apply ensure_ok in Hz as [Hm [= ->]].
  apply bind_ok in H as ([] & ? & Hz & H). apply ensure_ok in Hz as [He [= ->]].
  apply bind_ok in H as ([] & db1 & Hlive & H).
  apply bind_ok in H as (? & ? & Hz & H). apply gets_ok in Hz as [= -> ->].
  apply bind_ok in H as (r & ? & Hz & H). apply one_ok in Hz as (? & Hr & [= <- ->]).
  apply bind_ok in H as ([[plan req] k'] & ? & Hs & H). reading Hs.
  apply bind_ok in H as ([] & ? & Hz & H). apply ensure_ok in Hz as [_ [= ->]].
  apply bind_ok in H as ([] & ? & Hb & H). reading Hb.
  apply bind_ok in H as ([] & ? & Hz & H). apply ensure_ok in Hz as [Hv [= ->]].
  apply bind_ok in H as ([] & ? & Hz & H). apply ensure_ok in Hz as [_ [= ->]].
  apply bind_ok in H as ([] & ? & Hz & H). apply ensure_ok in Hz as [_ [= ->]].
  apply bind_ok in H as ([] & ? & Hins & H). apply ret_ok in H as [= -> -> -> ->].
  exists head, i, e, r, plan, k', db1.
  assert (Hti : instances db !! instance = Some i /\ inst_here a app i = true /\ endpoints db !! i_endpoint i = Some e).
  { destruct (instances db !! instance) as [j|]; [|done]. destruct (inst_here a app j) eqn:Ej; [|done].
    destruct (endpoints db !! i_endpoint j) as [f|] eqn:Ef; [|done]. simpl in Ht. by simplify_eq. }
  destruct Hti as (Hi & Hih & Hie). apply refuse_live_ok in Hlive as Hdel. destruct Hdel as [Hdb1 _].
  assert (Hr' : revision_of a app (app_latest head) db = Some r) by (rewrite Hdb1 in Hr; exact Hr).
  split; [|split_and!; [done..| |done|done]]; [|by destruct (removal_validate req now) as [[]|]].
  apply eqb_prop in Hrt. apply bool_decide_eq_true in Hc, He. apply negb_true_iff in Hm. rewrite Z.gtb_ltb, Z.ltb_ge in Hm.
  split; [done|done| |done| |done].
  - split_and!; [done|done|]. exact (bool_decide_iff_not _ _ Hrt).
  - pose proof (count_nonneg (fun g => bool_decide (mg_org g = OrganizationID a) && bool_decide (mg_env g = EnvironmentID a)
                                  && bool_decide (mg_app g = app) && openMigration g) (migrations db)). lia.
Qed.
Lemma sim_remove_body a app instance confirm id now : SimAct (remove_body Unmarshal sum_hex plan_bytes removal_bytes a app instance confirm id now).
Proof.
  intros n db n' [d req] db' H Hi _. apply remove_body_ok in H as (head & i & e & r & plan & k & db1 & Hrdy & Hlive & _ & _ & _ & -> & Hins).
  destruct (refuse_live_planned _ _ _ _ _ _ _ Hlive Hi) as (Hi1 & R & Ein). destruct Hrdy as [_ (Hinst & Hh & _) _ _ _ _].
  destruct (sim_insert _ _ _ _ Hins Hi1) as [Hi2 R2].
  - intros j. rewrite Ein. simpl. intros Hj. simplify_eq. by apply inst_here_true in Hh as (-> & -> & ->).
  - done.
  - right. split; [done|]. split; [done|]. rewrite Ein. by eexists.
  - split; [done|]. by etrans.
Qed.
End planning.

Lemma delete_instance_sim id db : DepInv db -> idle (ledger_of db) id -> DepInv (delete_instance id db) /\ lsteps (ledger_of db) (ledger_of (delete_instance id db)).
Proof.
  intros [Hk Hs Ht] Hidle. split.
  - split; [exact Hk| |exact Ht]. unfold delete_instance. simpl. intros k d i Hd [_ Hi]%lookup_delete_Some. by apply (Hs k).
  - replace (ledger_of (delete_instance id db)) with (mkLedger (entries (ledger_of db)) (delete id (adopted (ledger_of db))));
      [by apply rtc_once, ls_release|]. unfold ledger_of. simpl. by rewrite fmap_delete.
Qed.
Lemma live_of_some a p instance db d : live_of a p instance db = Some d ->
  (exists k, deployments db !! k = Some d) /\ live d = true /\ d_instance d = instance.
Proof.
  unfold live_of. intros [Hin H]%find_some. apply elem_rows in Hin. split; [done|]. unfold deployments_of in H. unfold live, in_state, StatePlanned, StateApplying.
  rewrite andb_true_iff, orb_true_iff, !andb_true_iff, !bool_decide_eq_true in H. rewrite orb_true_iff, !bool_decide_eq_true. naive_solver.
Qed.
Lemma live_of_none a p instance db k d : live_of a p instance db = None -> deployments db !! k = Some d ->
  (deployments_of a instance "planned" d || deployments_of a instance "applying" d) && p d = false.
Proof. unfold live_of. intros Hn Hd. apply (find_none _ _ Hn). apply list_elem_of_In, elem_rows. eauto. Qed.

Lemma sim_release_body a app id confirm now : Sim (release_body a app id confirm now).
Proof.
  intros db x db' H Hi Ho. unfold release_body in H. apply bind_ok in H as ([] & ? & Hz & H). apply ensure_ok in Hz as [_ [= ->]].
  apply bind_ok in H as (? & ? & Hz & H). apply gets_ok in Hz as [= -> ->].
  apply bind_ok in H as (? & ? & Hz & H). apply one_ok in Hz as (? & _ & [= -> ->]).
  apply bind_ok in H as ([] & db1 & Hlive & H). apply bind_ok in H as (? & ? & Hz & H). apply gets_ok in Hz as [= -> ->].
  apply bind_ok in H as ([] & ? & Hz & H). apply ensure_ok in Hz as [Hf [= ->]]. apply modify_ok in H as [= -> ->].
  destruct (refuse_live_planned _ _ _ _ _ _ _ Hlive Hi) as (Hi1 & R & Ein). apply refuse_live_ok in Hlive as [-> Hlive].
  simpl in Hf. destruct (instances db !! id) as [i|] eqn:Ei; [|done]. apply andb_true_iff in Hf as [Hh _]. apply inst_here_true in Hh as (Ha & Hor & He).
  set (p := fun d => bool_decide (d_app d = app)) in *.
  destruct (delete_instance_sim id _ Hi1) as [Hi2 R2]; [|split; [done|by etrans]].
  intros k e (d & [Hd Hkeep]%map_lookup_filter_Some & ->)%ledger_entry Hin. simpl in Hin, Hkeep. rewrite <- live_alive. apply not_true_iff_false. intros Hl.
  destruct (di_scope _ Hi k d i Hd) as (E1 & E2 & E3); [by rewrite Hin|].
  assert (Hof : forall st, deployments_of a id st d && p d = bool_decide (d_state d = st)).
  { intros st. unfold deployments_of, p. rewrite (bool_decide_eq_true_2 (d_org d = _)), (bool_decide_eq_true_2 (d_env d = _)),
      (bool_decide_eq_true_2 (d_instance d = _)), (bool_decide_eq_true_2 (d_app d = _)) by congruence. by rewrite andb_true_r. }
  destruct (live_of a p id db) as [o|] eqn:Elo.
  - apply live_of_some in Elo as ((l & Hlo) & Hll & Hoi).
    assert (k = l) as <-.
    { apply (or_live _ Ho k l (entry_of d) (entry_of o)); [by apply ledger_row|by apply ledger_row|by rewrite <- live_alive|by rewrite <- live_alive|].
      simpl. congruence. }
    simplify_eq. destruct Hlive as [Hna _]. unfold live in Hl. rewrite Hna, orb_false_r in Hl. rewrite Hof in Hkeep.
    unfold in_state, StatePlanned in Hl. congruence.
  - pose proof (live_of_none _ _ _ _ _ _ Elo Hd) as Hn. rewrite andb_orb_distrib_l, !Hof in Hn. unfold live, in_state, StatePlanned, StateApplying in Hl. congruence.
Qed.

(** A fresh instance identifier names no deployment. *)
Definition unused (instance : string) (db : DB) : Prop := forall k d, deployments db !! k = Some d -> d_instance d <> instance.

Lemma insert_instance_ok id i db u db' :
  insert_instance id i db = Ok (u, db') ->
  instances db !! id = None /\ (forall j o, instances db !! j = Some o -> i_app o <> i_app i) /\ db' = set_instances (<[id := i]> (instances db)) db.
Proof.
  unfold insert_instance. intros H. tx_inv H. apply andb_true_iff in Hg as [Hn Hc]. gobool. apply Z.eqb_eq in Hc. rewrite count_zero in Hc.
  split; [done|]. split; [|done]. intros j o Hj E. specialize (Hc j o Hj). simpl in Hc. by rewrite bool_decide_eq_true_2 in Hc.
Qed.
Lemma sim_insert_instance id i db u db' :
  insert_instance id i db = Ok (u, db') -> DepInv db -> unused id db -> DepInv db' /\ lsteps (ledger_of db) (ledger_of db').
Proof.
  intros (Hn & Hu & ->)%insert_instance_ok [Hk Hs Ht] Hf. split.
  - split; [exact Hk| |exact Ht]. intros k d j Hd. simpl. rewrite lookup_insert_ne; [by apply (Hs k)|]. intros E. by apply (Hf k d Hd).
  - replace (ledger_of (set_instances (<[id:=i]> (instances db)) db))
      with (mkLedger (entries (ledger_of db)) (<[id := i_app i]> (adopted (ledger_of db)))) by (unfold ledger_of; simpl; by rewrite fmap_insert).
    apply rtc_once, ls_adopt; [unfold ledger_of; simpl; by rewrite lookup_fmap, Hn|]. intros j. unfold ledger_of. simpl. rewrite lookup_fmap.
    destruct (instances db !! j) as [o|] eqn:Ej; [|done]. simpl. intros [= E]. by apply (Hu j o).
Qed.
Lemma keeps_update_application a id p f : Keeps tables (update_application a id p f).
Proof. unfold update_application. keeps. Qed.
Lemma keeps_insert_resource endpoint container r : Keeps tables (insert_resource endpoint container r).
Proof. unfold insert_resource, put_resource. keeps. Qed.
#[local] Hint Resolve keeps_update_application keeps_insert_resource : keeps.

Lemma then_tables {A} (m : tx A) db x db' : Keeps tables m -> m db = Ok (x, db') -> DepInv db -> DepInv db' /\ ledger_of db' = ledger_of db.
Proof. intros Hm H Hi. split; [by apply (DepInv_tables db); [eapply Hm|]|]. by apply ledger_tables, (Hm _ _ _ H). Qed.

Lemma sim_adopt_body preview_digest a app instance r now db x db' :
  adopt_body preview_digest a app instance r now db = Ok (x, db') -> DepInv db -> unused instance db -> DepInv db' /\ lsteps (ledger_of db) (ledger_of db').
Proof.
  intros H Hi Hf. unfold adopt_body in H. apply bind_ok in H as (p & ? & Hp & H). reading Hp.
  apply bind_ok in H as ([] & ? & Hz & H). apply ensure_ok in Hz as [_ [= ->]].
  apply bind_ok in H as (n & ? & Hz & H). apply gets_ok in Hz as [= -> ->].
  apply bind_ok in H as ([] & ? & Hz & H). apply ensure_ok in Hz as [_ [= ->]].
  apply bind_ok in H as ([] & db1 & Hins & H). destruct (sim_insert_instance _ _ _ _ _ Hins Hi Hf) as [Hi1 R].
  eapply then_tables in H as [Hi2 ->]; [done| |done]. keeps.
Qed.

(** Rewriting an instance's row in place. *)
Lemma sim_put_instance id i i' db u db' :
  put_instance id i' db = Ok (u, db') -> instances db !! id = Some i -> i_app i' = i_app i -> i_org i' = i_org i -> i_env i' = i_env i ->
  DepInv db -> DepInv db' /\ ledger_of db' = ledger_of db.
Proof.
  intros H Hi Ha Ho He Hdi. unfold put_instance in H. tx_inv H. split.
  - apply (DepInv_refresh db); [|..|done]; simpl.
    + intros k d Hd. by exists d.
    + intros k r. rewrite lookup_insert_Some. intros [[<- <-]|[_ ?]]; eauto.
  - unfold ledger_of. simpl. f_equal. rewrite fmap_insert. apply insert_id. by rewrite lookup_fmap, Hi, Ha.
Qed.
Lemma sim_set_mapping_body Marshal Unmarshal sum_hex preview_digest a app r fresh_instance now db x db' :
  set_mapping_body Marshal Unmarshal sum_hex preview_digest a app r fresh_instance now db = Ok (x, db') ->
  DepInv db -> unused fresh_instance db -> DepInv db' /\ lsteps (ledger_of db) (ledger_of db').
Proof.
  intros H Hi Hf. unfold set_mapping_body in H. apply bind_ok in H as ([] & ? & Hz & H). apply ensure_ok in Hz as [_ [= ->]].
  destruct (nonempty (mr_endpoint r) || nonempty (mr_namespace r)).
  - unfold mapKubernetes in H. apply bind_ok in H as ([] & ? & Hz & H). apply ensure_ok in Hz as [_ [= ->]].
    apply bind_ok in H as (? & ? & Hz & H). apply gets_ok in Hz as [= -> ->].
    apply bind_ok in H as (ar & ? & Hz & H). apply one_ok in Hz as (? & _ & [= <- ->]).
    apply bind_ok in H as (? & ? & Hz & H). apply gets_ok in Hz as [= -> ->].
    apply bind_ok in H as (e & ? & Hz & H). apply one_ok in Hz as (? & _ & [= <- ->]).
    apply bind_ok in H as ([] & ? & Hz & H). apply ensure_ok in Hz as [_ [= ->]].
    apply bind_ok in H as ([] & ? & Hz & H). apply ensure_ok in Hz as [_ [= ->]].
    apply bind_ok in H as (? & ? & Hz & H). apply gets_ok in Hz as [= -> ->]. apply bind_ok in H as ([] & db1 & Hw & H).
    enough (DepInv db1 /\ lsteps (ledger_of db) (ledger_of db1)) as [Hi1 R].
    { eapply then_tables in H as [Hi2 ->]; [done| |done]. keeps. }
    destruct (instance_of a app db) as [[id i]|] eqn:Eio; [|by eapply sim_insert_instance].
    apply instance_of_some in Eio as [Hin _].
    apply bind_ok in Hw as (? & ? & Hz & Hw). apply gets_ok in Hz as [= -> ->].
    apply bind_ok in Hw as ([] & ? & Hz & Hw). apply ensure_ok in Hz as [_ [= ->]].
    apply bind_ok in Hw as (? & ? & Hz & Hw). apply gets_ok in Hz as [= -> ->].
    apply bind_ok in Hw as ([] & ? & Hz & Hw). apply ensure_ok in Hz as [_ [= ->]].
    eapply sim_put_instance in Hw as [Hi1 ->]; [done|exact Hin|done..].
  - unfold map_docker in H. apply bind_ok in H as (p & ? & Hp & H). reading Hp.
    apply bind_ok in H as ([] & ? & Hz & H). apply ensure_ok in Hz as [_ [= ->]].
    apply bind_ok in H as ([] & ? & Hz & H). apply ensure_ok in Hz as [_ [= ->]].
    apply bind_ok in H as (? & ? & Hz & H). apply gets_ok in Hz as [= -> ->].
    apply bind_ok in H as ([] & ? & Hz & H). apply ensure_ok in Hz as [_ [= ->]].
    apply bind_ok in H as ([] & ? & Hz & H). apply ensure_ok in Hz as [_ [= ->]].
    apply bind_ok in H as (? & ? & Hz & H). apply gets_ok in Hz as [= -> ->].
    apply bind_ok in H as (i & ? & Hz & H). apply one_ok in Hz as (? & Hin & [= <- ->]).
    apply bind_ok in H as ([] & ? & Hz & H). apply ensure_ok in Hz as [_ [= ->]].
    apply bind_ok in H as ([] & db1 & Hw & H). eapply sim_put_instance in Hw as [Hi1 E]; [|exact Hin|done..].
    eapply then_tables in H as [Hi2 E2]; [| |exact Hi1]; [split; [done|]; by rewrite E2, E|].
    unfold bind_service, put_resource. keeps.
Qed.

(** ** Discarding an application, deleting a policy *)

(** Deleting an application deletes its rows; the others lose at most a run or a migration. *)
Lemma delete_application_sim id db : erase = true -> (forall j i, instances db !! j = Some i -> i_app i <> id) -> DepInv db ->
  DepInv (delete_application id db) /\ lsteps (ledger_of db) (ledger_of (delete_application id db)).
Proof.
  intros He Hn Hi. set (db1 := delete_deployments (fun d => bool_decide (d_app d = id)) db).
  assert (exists f : DeploymentRow -> DeploymentRow, deployments (delete_application id db) = f <$> deployments db1 /\
    forall d, same_row d (f d) /\ entry_of (f d) = entry_of d /\ (settled_dead d -> settled_dead (f d))) as (f & Ef & Hf).
  { unfold delete_application. simpl. eexists. split; [reflexivity|]. by intros d. }
  assert (Ei : instances (delete_application id db) = instances db1) by done.
  assert (Hi1 : DepInv db1) by by apply DepInv_delete. split.
  - apply (DepInv_refresh db1); [|by rewrite Ei; intros i r Hr; exists r|done]. rewrite Ef. intros k d' (d & <- & Hd)%lookup_fmap_Some.
    exists d. split; [done|]. destruct (Hf d) as (? & _ & ?). done.
  - replace (ledger_of (delete_application id db)) with (ledger_of db1); [by apply forget_application|]. unfold ledger_of. rewrite Ef, Ei. f_equal.
    rewrite <- map_fmap_compose. apply map_fmap_ext. intros k d _. unfold compose. by destruct (Hf d) as (_ & -> & _).
Qed.
Lemma no_instances id db : count (fun i => bool_decide (i_app i = id)) (instances db) = 0 -> forall j i, instances db !! j = Some i -> i_app i <> id.
Proof. rewrite count_zero. intros H j i Hj E. specialize (H j i Hj). simpl in H. by rewrite bool_decide_eq_true_2 in H. Qed.
Lemma sim_discard_body a id expected : erase = true -> Sim (discard_body a id expected).
Proof.
  intros He db x db' H Hi _. pose proof (fun db => delete_application_sim id db He) as Hdel. clear He.
  unfold discard_body in H. tx_inv H. apply Z.eqb_eq in Hg1.
  destruct (Hdel (set_revisions (filter (fun kr => ~ (kr.1.1 = id /\ rev_here a kr.2 = true)) (revisions db)) db)) as [? ?];
    [exact (no_instances id db Hg1)|by apply (DepInv_tables db)|]. done.
Qed.

(** ** Pruning *)

Lemma prune_application_sim id db u db' : erase = true -> prune_application id db = Ok (u, db') -> (forall j i, instances db !! j = Some i -> i_app i <> id) ->
  DepInv db -> DepInv db' /\ instances db' = instances db /\ lsteps (ledger_of db) (ledger_of db').
Proof.
  intros He H Hn Hi. pose proof (fun db => delete_application_sim id db He) as Hdel. pose proof (forget_application id db He Hn) as R0. clear He.
  unfold prune_application in H. tx_inv H.
  set (db1 := delete_deployments (fun d => bool_decide (d_app d = id)) db).
  set (db2 := set_revisions (filter (fun kr => kr.1.1 <> id) (revisions db1)) db1).
  assert (Hi1 : DepInv db1) by by apply DepInv_delete.
  destruct (Hdel db2) as [Hi2 R]; [exact Hn|by apply (DepInv_tables db1)|]. split; [done|]. split; [done|].
  etrans; [exact R0|exact R].
Qed.
Lemma sim_prune_removed cutoff : erase = true -> Sim (pruneRemovedApplications cutoff).
Proof.
  intros He db n db' H Hi _. unfold pruneRemovedApplications in H. apply bind_ok in H as (ids & ? & Hz & H). apply gets_ok in Hz as [= -> ->].
  apply bind_ok in H as ([] & db1 & Hiter & H). apply ret_ok in H as [= -> ->].
  assert (forall id, id ∈ removed_applications cutoff db -> forall j i, instances db !! j = Some i -> i_app i <> id) as Hn.
  { intros id Hin. unfold removed_applications in Hin. apply elem_of_take in Hin as (m & Hm & _). apply list_elem_of_lookup_2, list_elem_of_fmap in Hm as ([id' r] & -> & Hm).
    rewrite merge_sort_Permutation in Hm. apply list_elem_of_In, filter_In in Hm as [_ Hm]. unfold removed_before in Hm. apply andb_true_iff in Hm as [_ Hm].
    apply Z.eqb_eq in Hm. by apply no_instances. }
  revert Hiter Hi Hn. generalize (removed_applications cutoff db). intros ids. revert db. induction ids as [|id ids IH]; intros db H Hi Hn.
  - by apply ret_ok in H as [= ->].
  - simpl in H. apply bind_ok in H as ([] & d & Hid & H). eapply prune_application_sim in Hid as (Hi1 & Ei & R); [|done|apply Hn; left|done].
    destruct (IH d H Hi1) as [Hi2 R2]; [intros i Hin; rewrite Ei; apply Hn; by right|]. split; [done|]. by etrans.
Qed.
Lemma settled_before_dead db k d cutoff : DepInv db -> deployments db !! k = Some d -> before cutoff (d_settled d) = true -> live d = false.
Proof.
  intros Hi Hd Hb. apply not_true_iff_false. intros Hl. unfold before in Hb. by rewrite (di_settled _ Hi k d Hd Hl) in Hb.
Qed.
Lemma prune_deployments_sim pick cutoff db : erase = true -> Picks pick -> DepInv db ->
  DepInv (prune_deployments pick cutoff db).2 /\ lsteps (ledger_of db) (ledger_of (prune_deployments pick cutoff db).2).
Proof.
  intros He Hp Hi. unfold prune_deployments. cbn [snd]. set (ids := map d_id _). split; [by apply DepInv_delete|]. apply forget_settled; [done|].
  intros k d Hd Hin. apply bool_decide_eq_true in Hin. apply (elem_of_submseteq _ _ _) with (2 := proj1 (Hp ids)) in Hin. unfold ids in Hin.
  apply list_elem_of_fmap in Hin as (e & E & He'). apply elem_of_select in He' as [(l & Hl) Hov].
  assert (k = l) as <- by (rewrite <- (di_key _ Hi k d Hd), <- (di_key _ Hi l e Hl); done). simplify_eq.
  unfold history_over in Hov. rewrite !andb_true_iff in Hov. destruct Hov as [[[Hb _] _] _]. by eapply settled_before_dead.
Qed.

Lemma delete_policy_ledger id db : DepInv db -> DepInv (delete_policy id db) /\ ledger_of (delete_policy id db) = ledger_of db.
Proof.
  intros Hi. split.
  - apply (DepInv_refresh db); [|by intros i r Hr; exists r|done]. unfold delete_policy. simpl. intros k d' (d & <- & Hd)%lookup_fmap_Some. by exists d.
  - unfold ledger_of, delete_policy. simpl. f_equal. rewrite <- map_fmap_compose. apply map_fmap_ext. by intros k d _.
Qed.
Lemma sim_DeleteUpdatePolicy a app : SimAct (DeleteUpdatePolicy_body a app).
Proof.
  intros n db n' x db' H Hi _. unfold DeleteUpdatePolicy_body in H. unfold mbind, act_bind, lift, set_target, modify in H.
  destruct (policyOf a app db) as [[p d]|e] eqn:E; [|done]. injection H as _ _ <-.
  assert (d = db) as -> by (revert E; unfold policyOf; intros E; tx_inv E; done).
  destruct (delete_policy_ledger p.1 db Hi) as [? ->]. by split.
Qed.
End sim.

Lemma sim_sweep erase now fresh db : DepInv db -> Orderly (ledger_of db) ->
  DepInv (sweepDeployments now fresh db).2 /\ rtc (lstep erase) (ledger_of db) (ledger_of (sweepDeployments now fresh db).2).
Proof.
  intros Hi Ho. apply sim_commit; [|done..]. apply sim_transition; [done| |by left]. intros d. rewrite andb_true_iff, in_state_true. unfold forsaken. tauto.
Qed.
Lemma sim_prune pick_commands pick_deployments now fresh erase db : erase = true -> Picks pick_deployments -> DepInv db -> Orderly (ledger_of db) ->
  DepInv (Prune pick_commands pick_deployments now fresh db).2 /\
  rtc (lstep erase) (ledger_of db) (ledger_of (Prune pick_commands pick_deployments now fresh db).2).
Proof.
  intros He Hp Hi Ho. unfold Prune. pose proof (sim_sweep erase now fresh db Hi Ho) as [Hi1 R1].
  destruct (sweepDeployments now fresh db) as [[n|e] db1] eqn:E1; [|done]. cbn [snd] in Hi1, R1.
  destruct (prune_commands pick_commands (now - CommandRetention) db1) as [cs db2] eqn:E2.
  assert (Et : tables db2 = tables db1) by (unfold prune_commands in E2; by injection E2 as _ <-).
  pose proof (DepInv_tables _ _ Et Hi1) as Hi2. pose proof (prune_deployments_sim erase pick_deployments (now - DeploymentHistoryRetention) db2 He Hp Hi2) as [Hi3 R3].
  destruct (prune_deployments pick_deployments (now - DeploymentHistoryRetention) db2) as [ds db3]. cbn [snd] in Hi3, R3.
  rewrite (ledger_tables _ _ Et) in R3. assert (R : rtc (lstep erase) (ledger_of db) (ledger_of db3)) by (by etrans).
  pose proof (sim_commit erase (pruneRemovedApplications (now - ApplicationRemovedRetention)) db3 (sim_prune_removed erase _ He) Hi3 (lsteps_orderly _ _ _ R Ho)) as [Hi4 R4].
  destruct (commit _ db3) as [[m|e] db4]; cbn [snd] in *; (split; [done|]); by etrans.
Qed.

(** ** The operations *)

Section operations.
Context (Marshal : ApplicationSpec -> string) (Unmarshal : string -> option ApplicationSpec) (sum_hex : string -> string)
  (UnmarshalValues : string -> option (gmap string string)) (DeriveKey : string -> string -> string)
  (DecryptAESGCM : string -> string -> option string) (uuid_parse : string -> option string) (preview_digest : AdoptionPreview -> string)
  (frame_bytes : DeploymentRequest -> Z) (plan_bytes : DeploymentPlan -> Z) (removal_bytes : RemovalRequest -> Z)
  (stored_bytes : StoredResult -> Z) (allowPrivileged : bool).
Local Notation plan_tx a app id r key now :=
  (plan_body Marshal Unmarshal sum_hex UnmarshalValues DeriveKey DecryptAESGCM preview_digest frame_bytes plan_bytes allowPrivileged a app id r key now).
Local Notation replan_tx a app r d state blockers plan cancelled key now :=
  (update_write Unmarshal sum_hex UnmarshalValues DeriveKey DecryptAESGCM frame_bytes plan_bytes allowPrivileged a app r d state blockers plan cancelled key now).

(** One transaction of the store.  [st_plan] and [st_replan] are [PlanDeployment]'s two writes
    ([PlanDeployment_steps]); [st_other] is any operation that writes neither table; identifiers
    of new instances are fresh. *)
Inductive dep_step (erase : bool) (db : DB) : DB -> Prop :=
| st_plan a target app id r key now fresh :
    dep_step erase db (withTenantTarget a ApplicationDeploy target (plan_tx a app id r key now) now fresh db).2
| st_replan a notes app r d state blockers plan cancelled key now fresh : drafted a app (dr_row d) ->
    dep_step erase db (run a ApplicationDeploy notes true (lift (replan_tx a app r d state blockers plan cancelled key now)) now fresh db).2
| st_apply a app id confirm key max now fresh :
    dep_step erase db (ApplyDeployment Unmarshal sum_hex UnmarshalValues DeriveKey DecryptAESGCM uuid_parse frame_bytes allowPrivileged
                         a app id confirm key max now fresh db).2
| st_apply_policy a policy run app id confirm key max now fresh :
    dep_step erase db (ApplyPolicyDeployment Unmarshal sum_hex UnmarshalValues DeriveKey DecryptAESGCM uuid_parse frame_bytes allowPrivileged
                         a policy run app id confirm key max now fresh db).2
| st_fail id detail now fresh : dep_step erase db (FailDeployment id detail now fresh db).2
| st_abandon endpoint now fresh : dep_step erase db (AbandonDeployments endpoint now fresh db).2
| st_sweep now fresh : dep_step erase db (sweepDeployments now fresh db).2
| st_settle endpoint r now fresh : dep_step erase db (SettleDeployment stored_bytes endpoint r now fresh db).2
| st_refuse endpoint id detail now fresh : dep_step erase db (RefuseDeploymentResult endpoint id detail now fresh db).2
| st_remove a app instance confirm id correlation now fresh :
    dep_step erase db (RemoveApplication Unmarshal sum_hex uuid_parse plan_bytes removal_bytes a app instance confirm id correlation now fresh db).2
| st_adopt a app r instance now fresh : unused instance db ->
    dep_step erase db (AdoptApplication uuid_parse preview_digest a app r instance now fresh db).2
| st_release a app id confirm now fresh : dep_step erase db (ReleaseApplication uuid_parse a app id confirm now fresh db).2
| st_map a app r instance now fresh : unused instance db ->
    dep_step erase db (SetApplicationMapping uuid_parse Marshal Unmarshal sum_hex preview_digest a app r instance now fresh db).2
| st_delete_policy a app now fresh : dep_step erase db (DeleteUpdatePolicy uuid_parse a app now fresh db).2
| st_discard a app expected now fresh : erase = true -> dep_step erase db (DiscardApplication uuid_parse a app expected now fresh db).2
| st_prune pick_commands pick_deployments now fresh : erase = true -> Picks pick_deployments ->
    dep_step erase db (Prune pick_commands pick_deployments now fresh db).2
| st_other db' : tables db' = tables db -> dep_step erase db db'.

(** A transaction that only reads: its answer is the body's, and it writes at most an audit row. *)
Lemma run_reading {A} (op : tx A) a action notes now fresh db :
  Reads op -> tables (run a action notes false (lift op) now fresh db).2 = tables db /\
  forall x, (run a action notes false (lift op) now fresh db).1 = Ok x -> op db = Ok (x, db).
Proof.
  intros Hr. unfold run. destruct (runAs _ _ _ _ _ _ _ _ _) as [[x|e] db'] eqn:E; apply runAs_split in E; cbn [fst snd].
  - destruct E as (role & n & db1 & _ & _ & _ & Hrun & Hd). unfold lift in Hrun. injection Hrun as _ Hop. apply Hr in Hop as Hdb. subst db1.
    simpl in Hd. split; [|by intros y [= <-]]. destruct (_ && _); [|by subst]. by destruct Hd as (rec & -> & _).
  - split; [|done]. destruct E as [->|(rec & -> & _)]; done.
Qed.

Lemma update_read_drafted a app id r kube pins key private now db d f state :
  update_read Marshal Unmarshal sum_hex DeriveKey DecryptAESGCM preview_digest allowPrivileged a app id r kube pins key private now db
    = Ok ((d, f, state), db) -> drafted a app (dr_row d).
Proof.
  unfold update_read. intros (d' & ? & Hd & H)%bind_ok. apply draftPlan_row in Hd as [Hd _]. assert (d' = d) as <-; [clear Hd|done].
  repeat first [apply bind_ok in H as (? & ? & _ & H) | apply ret_ok in H; by simplify_eq].
Qed.

(** [PlanDeployment] is a run of steps around whatever ran between its read and its write. *)
Lemma PlanDeployment_steps erase a app r resolver key private id correlation now later meanwhile cancelled fresh db :
  (forall d, rtc (dep_step erase) d (meanwhile d)) ->
  rtc (dep_step erase) db
    (PlanDeployment Marshal Unmarshal sum_hex UnmarshalValues DeriveKey DecryptAESGCM uuid_parse preview_digest frame_bytes plan_bytes allowPrivileged
       a app r resolver key private id correlation now later meanwhile cancelled fresh db).2.
Proof.
  intros Hm. unfold PlanDeployment. destruct (uuid_parse app) as [app'|]; [|apply rtc_refl].
  do 5 (match goal with |- context [if ?c then (Fail ErrInvalid, _) else _] => destruct c; [apply rtc_refl|] end).
  destruct (_ && negb _); [by apply rtc_once, st_plan|].
  match goal with |- context [run ?a ?act ?n false (lift ?op) ?now ?fr db] =>
    destruct (run_reading op a act n now fr db) as [Ht Hop]; [eauto with keeps|]; destruct (run a act n false (lift op) now fr db) as [[[[d f] state]|e] db'] end;
    simpl in Ht; [|by apply rtc_once, st_other].
  specialize (Hop _ eq_refl). apply update_read_drafted in Hop. etrans; [apply rtc_once, (st_other _ _ _ Ht)|]. etrans; [apply Hm|].
  destruct (match resolver with Some _ => _ | None => _ end) as [blockers services]. by apply rtc_once, st_replan.
Qed.

Lemma result_outcome r : is_ok (result_validate r) = true -> rs_outcome r ∈ resultOutcomes.
Proof.
  unfold result_validate. destruct (_ || _) eqn:E; [done|]. intros _. rewrite !orb_false_iff in E. destruct E as [[[[_ E] _] _] _].
  by apply negb_false_iff, bool_decide_eq_true in E.
Qed.
Lemma reads_policy_guard policy a app : Reads (policy_guard policy a app).
Proof. unfold policy_guard. keeps. Qed.
Lemma reads_mret {A} (x : A) : Reads (mret x : tx A).
Proof. apply keeps_ret. Qed.

Lemma sim_applyDeployment erase a app id confirm key max run guard now fresh db :
  (forall a app, Reads (guard a app)) -> DepInv db -> Orderly (ledger_of db) ->
  let db' := (applyDeployment Unmarshal sum_hex UnmarshalValues DeriveKey DecryptAESGCM uuid_parse frame_bytes allowPrivileged
                a app id confirm key max run guard now fresh db).2 in
  DepInv db' /\ rtc (lstep erase) (ledger_of db) (ledger_of db').
Proof.
  intros Hg Hi Ho. unfold applyDeployment. destruct (uuid_parse app); [|by split]. destruct (_ || _); [by split|]. destruct (uuid_parse id); [|by split].
  apply sim_act; [|done..]. by apply sim_lift, sim_apply_body.
Qed.

Lemma dep_step_sim erase db db' : dep_step erase db db' -> DepInv db -> Orderly (ledger_of db) ->
  DepInv db' /\ rtc (lstep erase) (ledger_of db) (ledger_of db').
Proof.
  intros Hst Hi Ho. destruct Hst.
  - apply sim_act; [|done..]. apply sim_lift, sim_plan_body.
  - apply sim_act; [|done..]. by apply sim_lift, sim_update_write.
  - apply sim_applyDeployment; [intros; apply reads_mret|done..].
  - apply sim_applyDeployment; [intros; apply reads_policy_guard|done..].
  - apply sim_commit; [|done..]. apply sim_bind; [|intros; apply sim_reads; keeps]. apply sim_transition; [done| |by right].
    intros d. rewrite !andb_true_iff, orb_true_iff, !in_state_true. unfold forsaken. tauto.
  - apply sim_commit; [|done..]. apply sim_transition; [done| |by left]. intros d. rewrite andb_true_iff, in_state_true. unfold forsaken. tauto.
  - by apply sim_sweep.
  - unfold SettleDeployment. destruct (negb _) eqn:E; [by split|]. destruct (_ >? _); [by split|]. apply sim_commit; [|done..].
    apply sim_settle, result_outcome. by apply negb_false_iff in E.
  - apply sim_commit; [|done..]. apply sim_refuse.
  - unfold RemoveApplication. destruct (uuid_parse app); [|by split]. destruct (negb _); [by split|]. destruct (uuid_parse instance); [|by split].
    apply sim_act; [|done..]. apply sim_remove_body.
  - unfold AdoptApplication. destruct (uuid_parse app); [|by split]. apply sim_act_at; [|done]. intros n' x db' [= _ Hx]. by eapply sim_adopt_body.
  - unfold ReleaseApplication. destruct (uuid_parse app); [|by split]. destruct (uuid_parse id); [|by split]. apply sim_act; [|done..].
    apply sim_lift, sim_release_body.
  - unfold SetApplicationMapping. destruct (uuid_parse app); [|by split]. apply sim_act_at; [|done]. intros n' x db' [= _ Hx].
    by eapply sim_set_mapping_body.
  - unfold DeleteUpdatePolicy. destruct (uuid_parse app); [|by split]. destruct (negb _); [by split|]. apply sim_act; [|done..]. apply sim_DeleteUpdatePolicy.
  - unfold DiscardApplication. destruct (uuid_parse app); [|by split]. apply sim_act; [|done..]. by apply sim_lift, sim_discard_body.
  - by apply sim_prune.
  - by apply sim_same.
Qed.
Lemma dep_steps_sim erase db db' : rtc (dep_step erase) db db' -> DepInv db -> Orderly (ledger_of db) ->
  DepInv db' /\ Orderly (ledger_of db') /\ rtc (lstep erase) (ledger_of db) (ledger_of db').
Proof.
  induction 1 as [db|db d db' Hst _ IH]; intros Hi Ho; [done|]. destruct (dep_step_sim _ _ _ Hst Hi Ho) as [Hi1 R].
  destruct (IH Hi1 (lsteps_orderly _ _ _ R Ho)) as (Hi2 & Ho2 & R2). split_and!; [done..|]. by etrans.
Qed.

(** C1: The store implements the deployment ledger.  However planning, applying, policy runs, lost
    connections, sweeps, results, refusals, removals, adoptions, releases, mappings, discards and
    pruning interleave, the deployments and instances tables move only as the abstract ledger does: a
    planned row is dropped or started, a started one is lost, fails unsent or takes one result, a
    lost one takes a late result only while its instance exists and nothing newer was acted on,
    an instance is let go of only when idle or by a removal that succeeded, and pruning forgets no
    row that is planned or applying.  At most one row of
    an instance is ever planned or applying, and an application keeps one instance. *)
Theorem deployments_refine_ledger erase db db' :
  rtc (dep_step erase) db db' -> DepInv db -> Orderly (ledger_of db) ->
  DepInv db' /\ Orderly (ledger_of db') /\ rtc (lstep erase) (ledger_of db) (ledger_of db') /\
  (forall k l d e, deployments db' !! k = Some d -> deployments db' !! l = Some e -> live d = true -> live e = true ->
     d_instance d = d_instance e -> k = l).
Proof.
  intros R Hi Ho. destruct (dep_steps_sim _ _ _ R Hi Ho) as (Hi' & Ho' & L). split; [done|]. split; [done|]. split; [done|].
  intros k l d e Hd He Ld Le E. rewrite live_alive in Ld, Le. by eapply (or_live _ Ho'); [apply ledger_row|apply ledger_row|..].
Qed.

(** A result is final: no longer planned, applying or unknown. *)
Definition decided (d : DeploymentRow) : Prop := d_state d ∉ [StatePlanned; StateApplying; OutcomeUnknown].
Lemma decided_done d : decided d <-> exists o, phase_of (d_state d) = Done o.
Proof.
  unfold decided, phase_of, outcome_phase. rewrite !not_elem_of_cons. split.
  - intros (H1 & H2 & H3 & _). rewrite !bool_decide_false by done. eauto.
  - intros [o H]. repeat case_bool_decide; try done. split_and!; try done. apply not_elem_of_nil.
Qed.
Lemma phase_done s o : phase_of s = Done o -> s = o.
Proof. unfold phase_of, outcome_phase. repeat case_bool_decide; by intros [= ->]. Qed.

End operations.
