(* ===== verification/Scenario.v ===== *)
(** * One deployment from import to settlement

    A concrete organization walked through the store's operations by evaluation: an application
    is imported with its secret, a host's container is adopted and mapped, an update is planned
    from what the host has, applied, lost and settled late.  The witnesses of the deployment theorems
    evaluate on it.  Encodings are countable texts, the digest is constant, and the cipher
    prefixes its key. *)
From Stdlib Require Import ZArith QArith Lia Ascii String.
From stdpp Require Import base gmap strings list sorting relations.
From S2P Require Import Prelude Text Permissions Inspection Frame Inventory KubeNames Spec Store TenantAccess Commands Direct.
From S2P Require Import Applications Registries Preflight Adoption Schedule Policies Ledger Deployments Apply Planning Refinement.

#[local] Open Scope Z_scope.

Definition sc_shop : ApplicationSpec :=
  mkSpec "compose.v1" [mkAService [mkAPort 80 8080 "" "tcp"] "always" "web" "nginx:1.27" {["TOKEN" := "web-token"]} []] [] None.
Definition sc_unmarshal (_ : string) : option ApplicationSpec := Some sc_shop.
Definition sc_values (_ : string) : option (gmap string string) := Some {["web-token" := "secret"]}.
Definition sc_old : string := demo_hex.
Definition sc_new : string := "fedcba9876543210fedcba9876543210fedcba9876543210fedcba9876543210".
Definition sc_time : time := 1790000000 * Second.
Definition sc_snapshot : Snapshot :=
  mkSnapshot 0 0 (mkEngine "docker" "28" "1.47" "linux" "amd64" "" 1 1 "")
    [mkContainer sc_old "shop-web-1" "nginx:1.27" demo_image "running" "" sc_time 0 "" "always" [mkPort "0.0.0.0" 8080 80 "tcp"] ∅ [] [] "shop" (Some []) false]
    [mkImage demo_image ["nginx:1.27"] [] 0 0] [] [] None [].
Definition sc_now : time := sc_time + Minute.
Definition sc_db : DB :=
  set_endpoints {["host" := mkEndpoint "org" "env" "docker" "active" [] "Host"]}
  (set_inventories {["host" := mkInventory (Some sc_snapshot) sc_now sc_now]}
  (set_capabilities {["host" := demo_capabilities]} demo_db)).

Definition sc_imported : DB :=
  (ImportApplication demo_marshal hex0 (fun _ => "{}") demo_derive (fun _ p k => k +:+ p) ada "shop" sc_shop (Some {["web-token" := "secret"]}) demo_key "n" "app" sc_now "f" sc_db).2.
Definition sc_digest (p : AdoptionPreview) : string := "preview".
Definition sc_adopted : DB :=
  (AdoptApplication parse_any sc_digest ada "app" (mkAdoption "host" "shop" "preview" "shop") "inst" sc_now "f" sc_imported).2.
Definition sc_mapped : DB :=
  (SetApplicationMapping parse_any demo_marshal sc_unmarshal hex0 sc_digest ada "app"
     (mkMappingRequest "inst" 0 "preview" "shop" {["web" := sc_old]} "" "") "" sc_now "f" sc_adopted).2.

Definition sc_inspection : ContainerInspection :=
  mkInspection (mkTarget sc_old demo_image (sc_time / Second) no_workload) sc_time "running" "" 0 (mkPlatform "linux" "amd64" "") "always" 0
    [] (mkMountCounts 0 0 0 0 0) "bridge" 1 false false false [] true None.
Definition sc_request : PlanRequest := mkPlanRequest "inst" 1 0 "shop" [] 327680 {[sc_old := sc_inspection]} ∅.
Definition sc_open (c k : string) : option string := Some (String.substring (String.length k) (String.length c) c).
Definition sc_plan : res StoreErr DeploymentRow * DB :=
  PlanDeployment demo_marshal sc_unmarshal hex0 sc_values demo_derive sc_open parse_any sc_digest (fun _ => 1000) (fun _ => 1000) true
    ada "app" sc_request None demo_key false demo_id "c" sc_now sc_now (fun db => db) false "f" sc_mapped.
Definition sc_planned : DB := sc_plan.2.

(** ** Applied, lost, settled late *)

Definition sc_row : DeploymentRow -> string := fun _ => "v".
Definition sc_apply : res StoreErr (DeploymentRow * DeploymentRequest) * DB :=
  ApplyDeployment sc_unmarshal hex0 sc_values demo_derive sc_open parse_any (fun _ => 1000) true
    ada "app" demo_id "shop" demo_key 327680 sc_now "f" sc_planned.
Definition sc_applied : DB := sc_apply.2.
Definition sc_lost : DB := (AbandonDeployments "host" sc_now sc_row sc_applied).2.
Definition sc_result : DeploymentResult :=
  mkResult demo_id "c" OutcomeSucceeded "" [] [mkDIdentity "web" sc_new demo_image (sc_now / Second) "" "" "" "" "" 0].
Definition sc_settle : res StoreErr unit * DB := SettleDeployment (fun _ => 100) "host" sc_result sc_now sc_row sc_lost.
Definition sc_settled : DB := sc_settle.2.

(** ** Witnesses *)

#[local] Notation sc_step := (dep_step demo_marshal sc_unmarshal hex0 sc_values demo_derive sc_open parse_any sc_digest (fun _ => 1000) (fun _ => 1000)
  (fun _ => 1000) (fun _ => 100) true false).

Lemma sc_mapped_tables : deployments sc_mapped = ∅ /\ i_app <$> instances sc_mapped = {["inst" := "app"]}.
Proof. by vm_compute. Qed.
Lemma fresh_inv db i app : deployments db = ∅ /\ i_app <$> instances db = {[i := app]} -> DepInv db /\ Orderly (ledger_of db).
Proof.
  intros [Ed Ei]. split.
  - split; [intros k d|intros k d j|intros k d]; rewrite Ed; by intros.
  - split; unfold ledger_of; simpl; rewrite ?Ed, ?Ei.
    + intros k l e f. by rewrite fmap_empty.
    + intros k l x [<- _]%lookup_singleton_Some [<- _]%lookup_singleton_Some. done.
Qed.
Lemma sc_mapped_inv : DepInv sc_mapped /\ Orderly (ledger_of sc_mapped).
Proof. apply (fresh_inv _ "inst" "app"), sc_mapped_tables. Qed.
Lemma sc_to_applied : rtc sc_step sc_mapped sc_applied.
Proof. etrans; [|apply rtc_once, st_apply]. apply PlanDeployment_steps. intros d. apply rtc_refl. Qed.
Lemma sc_to_settled : rtc sc_step sc_applied sc_settled.
Proof.
  transitivity sc_lost; apply rtc_once.
  - unfold sc_lost. apply st_abandon.
  - unfold sc_settled, sc_settle. generalize sc_lost. intros db. apply st_settle.
Qed.

Lemma deployments_refine_ledger_witness :
  d_state <$> deployments sc_lost !! demo_id = Some OutcomeUnknown /\ d_state <$> deployments sc_settled !! demo_id = Some OutcomeSucceeded /\
  DepInv sc_settled /\ Orderly (ledger_of sc_settled) /\ rtc (lstep false) (ledger_of sc_mapped) (ledger_of sc_settled).
Proof.
  split; [by vm_compute|]. split; [by vm_compute|]. destruct sc_mapped_inv as [Hi Ho].
  destruct (deployments_refine_ledger demo_marshal sc_unmarshal hex0 sc_values demo_derive sc_open parse_any sc_digest (fun _ => 1000) (fun _ => 1000)
    (fun _ => 1000) (fun _ => 100) true false sc_mapped sc_settled) as (H1 & H2 & H3 & _); [|done..].
  etrans; [apply sc_to_applied|apply sc_to_settled].
Defined.

(** Once settled, the row stays settled whatever a restart, a sweep and a late refusal do. *)
Definition sc_late : DB := (RefuseDeploymentResult "host" demo_id "late" sc_now sc_row (sweepDeployments (sc_now + 100 * Minute) sc_row sc_settled).2).2.
