(* ===== verification/Guarantees.v ===== *)
(** * What a settlement, an apply, a removal and a plan guarantee

    The functional behaviour of the operations that end or start a deployment, on every answer:
    which row may take a result and what the result rewrites, what a frame that leaves the server
    was checked against, what a removal names and what it refuses, and what a plan was decided on. *)
From Stdlib Require Import ZArith QArith Lia Ascii String.
From stdpp Require Import base gmap strings list sorting relations.
From S2P Require Import Prelude Text Permissions Inspection Frame Inventory Reference KubeNames Spec Store TenantAccess Commands Direct.
From S2P Require Import Applications Registries Preflight Adoption Schedule Policies Judge Validations Ledger Deployments Apply Planning Refinement.
From S2P Require Import Scenario.

#[local] Open Scope Z_scope.

(** ** Rebinding *)

(** The row a replaced service leaves behind. *)
Definition bound (instance name : string) (i : DeploymentIdentity) : ResourceRow :=
  mkResource instance name (id_image i) (id_created i * Second) (id_service i).
Definition old_container (planned : gmap string PlannedService) (i : DeploymentIdentity) : string :=
  ps_container (default no_planned (planned !! id_service i)).

Lemma insert_resource_ok endpoint container r db u db' :
  insert_resource endpoint container r db = Ok (u, db') ->
  resources db !! (endpoint, container) = None /\ db' = set_resources (<[(endpoint, container) := r]> (resources db)) db.
Proof. unfold insert_resource, put_resource. intros H. tx_inv H. gobool. done. Qed.
Lemma rebind_ok instance endpoint planned i db u db' :
  rebind instance endpoint planned i db = Ok (u, db') ->
  exists r, resources db !! (endpoint, old_container planned i) = Some r /\ xr_instance r = instance /\
    delete (endpoint, old_container planned i) (resources db) !! (endpoint, id_container i) = None /\
    db' = set_resources (<[(endpoint, id_container i) := bound instance (xr_name r) i]>
                           (delete (endpoint, old_container planned i) (resources db))) db.
Proof.
  unfold rebind. intros H. apply bind_ok in H as (? & ? & Hz & H). apply gets_ok in Hz as [= -> ->].
  apply bind_ok in H as (name & ? & Hz & H). apply one_ok in Hz as (? & Hr & [= <- ->]).
  apply bind_ok in H as ([] & ? & Hz & H). apply modify_ok in Hz as [= ->].
  apply insert_resource_ok in H as [Hn ->]. fold (old_container planned i) in *.
  destruct (resources db !! _) as [r|]; [|done]. case_bool_decide; [|done]. injection Hr as <-. by exists r.
Qed.

(** The keys a list of identities gives up and takes. *)
Definition gives (endpoint : string) (planned : gmap string PlannedService) (l : list DeploymentIdentity) (key : string * string) : Prop :=
  exists i, i ∈ l /\ (key = (endpoint, old_container planned i) \/ key = (endpoint, id_container i)).

(** Rebinding a list of identities whose planned containers are distinct and adopted: each reported
    container carries its service, the replaced ones are gone, and no other row changed. *)
Lemma rebind_all instance endpoint planned l db u db' :
  tx_iter (rebind instance endpoint planned) l db = Ok (u, db') ->
  NoDup (map (old_container planned) l) ->
  (forall i, i ∈ l -> is_Some (resources db !! (endpoint, old_container planned i))) ->
  (exists t, db' = set_resources t db) /\
  (forall key, ~ gives endpoint planned l key -> resources db' !! key = resources db !! key) /\
  (forall i, i ∈ l -> exists r, resources db !! (endpoint, old_container planned i) = Some r /\ xr_instance r = instance /\
     resources db' !! (endpoint, id_container i) = Some (bound instance (xr_name r) i)) /\
  (forall i, i ∈ l -> old_container planned i ∉ map id_container l -> resources db' !! (endpoint, old_container planned i) = None) /\
  (forall i, i ∈ l -> resources db !! (endpoint, id_container i) = None \/ exists k, k ∈ l /\ old_container planned k = id_container i).
Proof.
  revert db; induction l as [|i l IH]; intros db; simpl.
  { intros [= _ <-] _ _. split; [by exists (resources db); destruct db|]. split; [done|]. split_and!; intros i Hi; by apply elem_of_nil in Hi. }
  intros ([] & db1 & Hr & H)%bind_ok [Hni Hnd]%NoDup_cons Hall. apply rebind_ok in Hr as (r & Hold & Hinst & Hfree & ->).
  assert (Hne : forall j, j ∈ l -> old_container planned j <> old_container planned i /\ old_container planned j <> id_container i).
  { intros j Hj. assert (old_container planned j <> old_container planned i) as Hoo.
    { intros E. apply Hni, list_elem_of_fmap. eauto. }
    split; [done|]. intros E. destruct (Hall j) as [rj Hrj]; [by right|]. rewrite <- E, lookup_delete_ne in Hfree by congruence. congruence. }
  assert (Hsame : forall j, j ∈ l -> (<[(endpoint, id_container i) := bound instance (xr_name r) i]> (delete (endpoint, old_container planned i) (resources db)))
      !! (endpoint, old_container planned j) = resources db !! (endpoint, old_container planned j)).
  { intros j Hj. destruct (Hne j Hj). rewrite lookup_insert_ne, lookup_delete_ne by congruence. done. }
  destruct (IH _ H Hnd) as ([t Ht] & Hother & Hbound & Hgone & Hnew); simpl in *.
  { intros j Hj. rewrite Hsame by done. apply Hall. by right. }
  assert (Hkeep : ~ gives endpoint planned l (endpoint, id_container i)).
  { intros (j & Hj & [E|E]); injection E as E; [by destruct (Hne j Hj)|]. destruct (Hnew j Hj) as [Hn|(k & Hk & Ek)].
    - by rewrite <- E, lookup_insert_eq in Hn.
    - destruct (Hne k Hk). congruence. }
  split; [by exists t|]. split_and!.
  - intros key Hk. rewrite Hother; [|intros (j & Hj & E); apply Hk; exists j; split; [by right|done]].
    rewrite lookup_insert_ne, lookup_delete_ne; [done|..]; intros <-; apply Hk; exists i; split; [by left|auto|by left|auto].
  - intros j [->|Hj]%elem_of_cons.
    + exists r. split_and!; [done..|]. rewrite Hother by done. by rewrite lookup_insert_eq.
    + rewrite <- Hsame by done. by apply Hbound.
  - intros j [->|Hj]%elem_of_cons; rewrite not_elem_of_cons; intros [Hn1 Hn2].
    + rewrite Hother; [rewrite lookup_insert_ne by congruence; apply lookup_delete_eq|].
      intros (k & Hk & [E|E]); injection E as E; [by destruct (Hne k Hk)|]. apply Hn2, list_elem_of_fmap. eauto.
    + by apply Hgone.
  - intros j [->|Hj]%elem_of_cons.
    + destruct (decide (old_container planned i = id_container i)) as [E|E]; [right; exists i; split; [by left|done]|].
      left. by rewrite lookup_delete_ne in Hfree by congruence.
    + destruct (Hnew j Hj) as [Hn|(k & Hk & E)]; [|right; exists k; split; [by right|done]].
      destruct (decide (old_container planned i = id_container j)) as [E|E]; [right; exists i; split; [by left|done]|].
      left. apply lookup_insert_None in Hn as [Hn _]. by rewrite lookup_delete_ne in Hn by congruence.
Qed.

(** ** Settlements *)

Lemma planned_by_name_some l (m : gmap string PlannedService) n ps :
  foldl (fun m ps => <[ps_name ps := ps]> m) m l !! n = Some ps -> (ps ∈ l /\ ps_name ps = n) \/ m !! n = Some ps.
Proof.
  revert m; induction l as [|p l IH]; intros m; simpl; [by right|]. intros [[Hin Hn]|Hm]%IH; [left; split; [by right|done]|].
  rewrite lookup_insert_Some in Hm. destruct Hm as [[<- <-]|[_ Hm]]; [left; split; [by left|done]|by right].
Qed.
Lemma planned_service_of plan n ps : planned_by_name plan !! n = Some ps -> ps ∈ pl_services plan /\ ps_name ps = n.
Proof. unfold planned_by_name. intros [?|H]%planned_by_name_some; [done|]. by rewrite lookup_empty in H. Qed.

Lemma identities_fit_ok fits planned seen l :
  identities_fit fits planned seen l = true ->
  NoDup (map id_service l) /\ (forall i, i ∈ l -> id_service i ∉ seen /\ exists ps, planned !! id_service i = Some ps /\ fits ps i = true).
Proof.
  revert seen; induction l as [|i l IH]; intros seen; simpl; [intros _; split; [constructor|]; intros i Hi; by apply elem_of_nil in Hi|].
  destruct (planned !! id_service i) as [ps|] eqn:Eps; [|done]. rewrite !andb_true_iff, negb_true_iff, bool_decide_eq_false. intros [[Hs Hf] [Hnd Hall]%IH].
  split.
  - constructor; [|done]. intros (j & Ej & Hj)%list_elem_of_fmap. destruct (Hall j Hj) as [Hn _]. set_solver.
  - intros j [->|Hj]%elem_of_cons; [eauto|]. destruct (Hall j Hj) as [Hn ?]. split; [set_solver|done].
Qed.

(** A plan as mapping leaves it: services and containers are distinct, and every container is adopted. *)
Record plan_adopted (endpoint : string) (plan : DeploymentPlan) (db : DB) : Prop := {
  pa_names : NoDup (map ps_name (pl_services plan));
  pa_containers : NoDup (map ps_container (pl_services plan));
  pa_adopted : forall ps, ps ∈ pl_services plan -> is_Some (resources db !! (endpoint, ps_container ps)) }.

Lemma olds_distinct endpoint plan db l :
  plan_adopted endpoint plan db -> NoDup (map id_service l) ->
  (forall i, i ∈ l -> is_Some (planned_by_name plan !! id_service i)) ->
  NoDup (map (old_container (planned_by_name plan)) l) /\
  (forall i, i ∈ l -> is_Some (resources db !! (endpoint, old_container (planned_by_name plan) i))).
Proof.
  intros [Hn Hc Ha] Hnd Hall. split.
  - set (g := fun n => ps_container (default no_planned (planned_by_name plan !! n))).
    replace (map (old_container (planned_by_name plan)) l) with (g <$> map id_service l) by apply map_map.
    apply NoDup_fmap_2_strong; [|done]. unfold g.
    intros x y (i & -> & Hi)%list_elem_of_fmap (j & -> & Hj)%list_elem_of_fmap. destruct (Hall i Hi) as [p Hp], (Hall j Hj) as [q Hq]. rewrite Hp, Hq. simpl.
    apply planned_service_of in Hp as [Hp <-], Hq as [Hq <-]. intros E. f_equal.
    apply list_elem_of_lookup in Hp as [x Hx], Hq as [y Hy]. assert (x = y) as ->; [|congruence].
    apply (NoDup_lookup _ x y (ps_container p) Hc); rewrite list_lookup_fmap; [by rewrite Hx|rewrite Hy; simpl; congruence].
  - intros i Hi. unfold old_container. destruct (Hall i Hi) as [p Hp]. rewrite Hp. simpl. apply planned_service_of in Hp as [Hp _]. by apply Ha.
Qed.

(** A success names every planned service. *)
Lemma success_covers fits plan l :
  identities_fit fits (planned_by_name plan) ∅ l = true -> llen l = llen (pl_services plan) -> map id_service l ≡ₚ map ps_name (pl_services plan).
Proof.
  intros [Hnd Hall]%identities_fit_ok Hlen. apply submseteq_length_Permutation; [|rewrite !length_map; unfold llen in Hlen; lia].
  apply NoDup_submseteq; [done|]. intros n (i & -> & Hi)%list_elem_of_fmap. destruct (Hall i Hi) as (_ & ps & Hps & _).
  apply planned_service_of in Hps as [Hin <-]. apply list_elem_of_fmap. eauto.
Qed.

Lemma settleApply_docker endpoint instance plan r db u db' :
  pl_namespace plan = "" -> settleApply endpoint instance plan r db = Ok (u, db') ->
  identities_fit docker_fits (planned_by_name plan) ∅ (rs_services r) = true /\
  (rs_outcome r = OutcomeSucceeded -> llen (rs_services r) = llen (pl_services plan)) /\
  exists db1, tx_iter (rebind instance endpoint (planned_by_name plan)) (rs_services r) db = Ok (tt, db1) /\ resources db' = resources db1.
Proof.
  intros En. unfold settleApply. rewrite En. simpl. intros H.
  apply bind_ok in H as ([] & ? & Hz & H). apply ensure_ok in Hz as [Hf [= ->]].
  apply bind_ok in H as ([] & ? & Hz & H). apply ensure_ok in Hz as [Hl [= ->]].
  apply bind_ok in H as ([] & db1 & Hb & H). split; [done|]. split.
  - intros Ho. rewrite Ho in Hl. by apply Z.eqb_eq in Hl.
  - exists db1. split; [done|]. destruct (bool_decide _); [|by apply ret_ok in H as [= _ ->]]. unfold clearImageChecks in H. by apply modify_ok in H as [= _ ->].
Qed.

(** What a settled apply of a host rebinds. *)
Record rebound (endpoint : string) (d : DeploymentRow) (plan : DeploymentPlan) (r : DeploymentResult) (db db' : DB) : Prop := {
  rb_all : rs_outcome r = OutcomeSucceeded -> map id_service (rs_services r) ≡ₚ map ps_name (pl_services plan);
  rb_each : forall i, i ∈ rs_services r -> exists ps row, ps ∈ pl_services plan /\ ps_name ps = id_service i /\ docker_fits ps i = true /\
    resources db !! (endpoint, ps_container ps) = Some row /\ xr_instance row = d_instance d /\
    resources db' !! (endpoint, id_container i) = Some (bound (d_instance d) (xr_name row) i) /\
    (ps_container ps ∉ map id_container (rs_services r) -> resources db' !! (endpoint, ps_container ps) = None);
  rb_other : forall key, ~ gives endpoint (planned_by_name plan) (rs_services r) key -> resources db' !! key = resources db !! key }.

Lemma settleApply_rebinds endpoint d plan r db u db1 db' :
  pl_namespace plan = "" -> plan_adopted endpoint plan db ->
  settleApply endpoint (d_instance d) plan r db = Ok (u, db1) -> resources db' = resources db1 -> rebound endpoint d plan r db db'.
Proof.
  intros En Hpa H E. apply settleApply_docker in H as (Hf & Hl & db2 & Hb & E2); [|done]. rewrite E2 in E.
  pose proof (identities_fit_ok _ _ _ _ Hf) as [Hnd Hall].
  destruct (olds_distinct endpoint plan db (rs_services r) Hpa Hnd) as [Hod Hoa].
  { intros i Hi. destruct (Hall i Hi) as (_ & ps & Hps & _). eauto. }
  destruct (rebind_all _ _ _ _ _ _ _ Hb Hod Hoa) as (_ & Hother & Hbound & Hgone & _). split.
  - intros Ho. by eapply success_covers; [|apply Hl].
  - intros i Hi. destruct (Hall i Hi) as (_ & ps & Hps & Hfit), (Hbound i Hi) as (row & Hrow & Hin & Hnew).
    specialize (Hgone i Hi). unfold old_container in Hrow, Hgone. rewrite Hps in Hrow, Hgone. simpl in Hrow, Hgone. rewrite E.
    apply planned_service_of in Hps as [Hps Hname]. exists ps, row. done.
  - intros key Hk. rewrite E. by apply Hother.
Qed.

Lemma forgotten instance endpoint l db :
  let out := foldl (fun db (sc : string * string) => forget_resource instance endpoint sc.2 db) db l in
  (forall key row, resources out !! key = Some row -> resources db !! key = Some row) /\
  (forall key, (forall sc, sc ∈ l -> key <> (endpoint, sc.2)) -> resources out !! key = resources db !! key) /\
  (forall sc row, sc ∈ l -> resources out !! (endpoint, sc.2) = Some row -> xr_instance row <> instance).
Proof.
  revert db; induction l as [|sc l IH]; intros db; simpl; [split; [done|]; split; [done|]; intros sc row Hn; by apply elem_of_nil in Hn|].
  destruct (IH (forget_resource instance endpoint sc.2 db)) as (H1 & H2 & H3).
  assert (Hsub : forall key row, resources (forget_resource instance endpoint sc.2 db) !! key = Some row -> resources db !! key = Some row /\
    (key = (endpoint, sc.2) -> xr_instance row <> instance)).
  { intros key row. unfold forget_resource. destruct (resources db !! (endpoint, sc.2)) as [r|] eqn:Er; [case_bool_decide as Ei|]; simpl.
    - intros [Hk Hr]%lookup_delete_Some. split; [done|]. congruence.
    - intros Hr. split; [done|]. intros ->. congruence.
    - intros Hr. split; [done|]. intros ->. congruence. }
  split_and!.
  - intros key row Hr. by apply H1, Hsub in Hr as [? _].
  - intros key Hk. rewrite H2 by (intros x Hx; apply Hk; by right). unfold forget_resource.
    destruct (resources db !! (endpoint, sc.2)) as [r|]; [case_bool_decide|]; [|done..]. simpl. apply lookup_delete_ne. symmetry. apply Hk. by left.
  - intros x row [->|Hx]%elem_of_cons Hr; [|by eapply H3]. apply H1, Hsub in Hr as [_ Hn]. by apply Hn.
Qed.

(** What a settled removal of a host lets go of: a container whose steps show it off the host, and
    the instance only when every one of them is. *)
Record let_go (endpoint : string) (d : DeploymentRow) (plan : DeploymentPlan) (r : DeploymentResult) (db db' : DB)
    (outcomes : gmap (string * string) string) : Prop := {
  lg_steps : removal_outcomes (removal_targets plan) ∅ (rs_steps r) = Some outcomes;
  lg_gone : forall service c row, removal_targets plan !! service = Some c -> off_host outcomes service = true ->
    resources db' !! (endpoint, c) = Some row -> xr_instance row <> d_instance d;
  lg_kept : rs_outcome r <> OutcomeSucceeded -> forall key,
    (forall service c, removal_targets plan !! service = Some c -> off_host outcomes service = true -> key <> (endpoint, c)) ->
    resources db' !! key = resources db !! key;
  lg_all : rs_outcome r = OutcomeSucceeded -> (forall service c, removal_targets plan !! service = Some c -> off_host outcomes service = true) /\
    (forall key row, resources db' !! key = Some row -> xr_instance row <> d_instance d) }.

Lemma releaseRemoved_resources app instance now db u db' :
  releaseRemoved app instance now db = Ok (u, db') ->
  forall key row, resources db' !! key = Some row -> resources db !! key = Some row /\ xr_instance row <> instance.
Proof.
  unfold releaseRemoved. intros H. tx_inv H. intros key row.
  assert (E : forall x y, resources (match applications x !! app with
      | Some r => set_applications (<[app:=with_removed (Some now) r]> (applications x)) y | None => y end) = resources y)
    by (intros x y; by destruct (applications x !! app)).
  rewrite E. unfold delete_instance. simpl. rewrite !map_lookup_filter_Some. naive_solver.
Qed.

Lemma all_gone (p : string * string -> bool) (m : gmap string string) :
  llen (List.filter p (map_to_list m)) = msize m -> forall k v, m !! k = Some v -> p (k, v) = true.
Proof.
  intros Hlen k v Hk. apply elem_of_map_to_list in Hk. unfold llen, msize in Hlen. rewrite <- length_map_to_list in Hlen.
  revert Hlen Hk. generalize (map_to_list m). intros l. induction l as [|x l IH]; simpl; intros Hlen; [by intros ?%elem_of_nil|].
  pose proof (List.filter_length_le p l). destruct (p x) eqn:Ex; simpl in Hlen; [|lia]. intros [<-|Hin]%elem_of_cons; [done|]. apply IH; [lia|done].
Qed.

Lemma settleRemoval_lets_go endpoint d plan r now db u db1 db' :
  pl_namespace plan = "" -> settleRemoval endpoint (d_app d) (d_instance d) plan r now db = Ok (u, db1) -> resources db' = resources db1 ->
  exists outcomes, let_go endpoint d plan r db db' outcomes.
Proof.
  intros En H E. unfold settleRemoval in H. rewrite En in H. simpl in H.
  apply bind_ok in H as ([] & ? & Hz & H). apply ensure_ok in Hz as [_ [= ->]].
  apply bind_ok in H as (outcomes & ? & Hz & H). apply one_ok in Hz as (? & Ho & [= <- ->]).
  apply bind_ok in H as ([] & ? & Hz & H). apply ensure_ok in Hz as [Hall [= ->]].
  apply bind_ok in H as ([] & ? & Hz & H). apply modify_ok in Hz as [= ->].
  pose proof (forgotten (d_instance d) endpoint (List.filter (fun sc => off_host outcomes sc.1) (map_to_list (removal_targets plan))) db) as Hf.
  cbv zeta in Hf. destruct Hf as (Hsub & Hother & Hgone).
  set (gone := List.filter _ _) in *. set (db2 := foldl _ _ _) in *.
  assert (Hin : forall service c, removal_targets plan !! service = Some c -> off_host outcomes service = true -> (service, c) ∈ gone).
  { intros service c Hs Hoff. apply list_elem_of_In, filter_In. split; [|done]. by apply list_elem_of_In, elem_of_map_to_list. }
  exists outcomes. destruct (bool_decide (rs_outcome r = OutcomeSucceeded)) eqn:Es.
  - pose proof (releaseRemoved_resources _ _ _ _ _ _ H) as Hrel. apply bool_decide_eq_true in Es. split; [done|..].
    + intros service c row Hs Hoff. rewrite E. by intros [_ ?]%Hrel.
    + done.
    + intros _. split; [|intros key row; rewrite E; by intros [_ ?]%Hrel]. intros service c Hs. simpl in Hall. apply Z.eqb_eq in Hall.
      exact (all_gone (fun sc => off_host outcomes sc.1) _ Hall _ _ Hs).
  - apply ret_ok in H as [= _ ->]. apply bool_decide_eq_false in Es. split; [done|..| |done].
    + intros service c row Hs Hoff. rewrite E. apply (Hgone (service, c)). by apply Hin.
    + intros _ key Hk. rewrite E. apply Hother. intros [service c] Hsc. apply list_elem_of_In, filter_In in Hsc as [Hsc Hoff]. apply Hk with service; [|done].
      by apply elem_of_map_to_list, list_elem_of_In.
Qed.


(** The late result of the scenario rebinds its service to the reported container. *)
Definition sc_the_plan : DeploymentPlan := default (mkPlan "" [] [] [] "" []) (settling "host" demo_id sc_lost ≫= d_plan).
Lemma sc_lost_inv : DepInv sc_lost.
Proof.
  destruct sc_mapped_inv as [Hi Ho]. eapply (dep_steps_sim demo_marshal sc_unmarshal hex0 sc_values demo_derive sc_open parse_any sc_digest
    (fun _ => 1000) (fun _ => 1000) (fun _ => 1000) (fun _ => 100) true false sc_mapped); [|done..].
  etrans; [apply sc_to_applied|]. apply rtc_once. unfold sc_lost. apply st_abandon.
Qed.
Lemma sc_plan_adopted : plan_adopted "host" sc_the_plan sc_lost.
Proof.
  split; [apply (bool_decide_unpack _); by vm_compute..|].
  assert (H : bool_decide (Forall (fun ps => is_Some (resources sc_lost !! ("host", ps_container ps))) (pl_services sc_the_plan)) = true) by by vm_compute.
  apply bool_decide_eq_true in H. rewrite Forall_forall in H. exact H.
Qed.

(** ** Applies *)

Section applies.
Context (Unmarshal : string -> option ApplicationSpec) (sum_hex : string -> string)
  (UnmarshalValues : string -> option (gmap string string)) (DeriveKey : string -> string -> string)
  (DecryptAESGCM : string -> string -> option string) (uuid_parse : string -> option string)
  (frame_bytes : DeploymentRequest -> Z) (allowPrivileged : bool).
Local Notation build a d plan key now := (buildDeploymentFrame Unmarshal sum_hex UnmarshalValues DeriveKey DecryptAESGCM allowPrivileged a d plan key now).

(** The frame is the row's. *)
Definition frame_of (d : DeploymentRow) (plan : DeploymentPlan) (now : time) (f : DeploymentRequest) : Prop :=
  dr_deployment f = d_id d /\ dr_request f = d_correlation d /\ dr_endpoint f = d_endpoint d /\ dr_project f = pl_project plan /\
  dr_revision f = d_revision d /\ dr_issued f = now /\ dr_deadline f = now + DeploymentApplyDeadline /\ dr_explicit f = false.

(** No credential travels for a host nothing is pulled from, and none at all to a cluster. *)
Definition credentials_pulled (f : DeploymentRequest) : Prop :=
  forall host, is_Some (dr_registries f !! host) -> exists s p, s ∈ dr_services f /\ s_pull s = Some p /\ Host p = host.

Lemma pulled_hosts_in services host : host ∈ pulled_hosts services -> exists s p, s ∈ services /\ s_pull s = Some p /\ Host p = host.
Proof.
  unfold pulled_hosts. rewrite elem_of_elements, elem_of_list_to_set, list_elem_of_omap. intros (s & Hs & H).
  destruct (s_pull s) as [p|] eqn:Ep; [|done]. injection H as <-. eauto.
Qed.
Lemma frame_registries_hosts hosts creds host : is_Some (frame_registries hosts creds !! host) -> host ∈ hosts.
Proof.
  unfold frame_registries. intros [x Hx]. apply elem_of_list_to_map_2, list_elem_of_omap in Hx as ([h c] & Hin & H).
  destruct c as [c|]; [|done]. injection H as -> _. by apply elem_of_zip_l in Hin.
Qed.

Lemma buildDeploymentFrame_frame a d plan key now db f db' :
  build a d plan key now db = Ok (f, db') -> frame_of d plan now f /\ credentials_pulled f.
Proof.
  unfold buildDeploymentFrame. intros H. apply bind_ok in H as ([[spec values] digest] & ? & _ & H).
  apply bind_ok in H as ([] & ? & _ & H). apply bind_ok in H as ([] & ? & _ & H). destruct (nonempty (pl_namespace plan)).
  - unfold kubernetesFrame in H. do 8 apply bind_ok in H as (? & ? & _ & H). apply ret_ok in H as [= -> _]. split; [done|].
    intros host [auth Hauth]. simpl in Hauth. by rewrite lookup_empty in Hauth.
  - unfold dockerFrame in H. apply bind_ok in H as (names & ? & _ & H). apply bind_ok in H as (snapshot & ? & _ & H).
    apply bind_ok in H as (services & ? & _ & H). apply bind_ok in H as (creds & ? & _ & H). apply ret_ok in H as [= -> _]. split; [done|].
    intros host Hh. simpl in *. by apply pulled_hosts_in, (frame_registries_hosts _ creds).
Qed.
Lemma frameBlocker_clear f now max :
  frameBlocker frame_bytes f now max = "" ->
  is_ok (request_validate f now) = true /\ frame_bytes f <= Z.min max MaxDeploymentRequestBytes /\ msize (dr_registries f) <= MaxRegistryAuthHosts.
Proof.
  unfold frameBlocker. destruct (_ >? _) eqn:E1; [done|]. destruct (negb _) eqn:E2; [done|]. destruct (frame_bytes f >? _) eqn:E3; [done|]. intros _.
  rewrite Z.gtb_ltb, Z.ltb_ge in E1, E3. by apply negb_false_iff in E2.
Qed.

(** What an apply that returned a frame had found, and all it wrote. *)
Record applied (a : TenantAccess) (app id confirm : string) (max : Z) (run : option string) (now : time) (db db' : DB) (row : DeploymentRow)
    (f : DeploymentRequest) (d : DeploymentRow) (plan : DeploymentPlan) : Prop := {
  ad_role : exists role, holds a db role /\ Allows role ApplicationDeploy = true;
  ad_ready : ApplyReady a app id confirm now db d plan;
  ad_frame : frame_of d plan now f /\ credentials_pulled f;
  ad_valid : is_ok (request_validate f now) = true /\ frame_bytes f <= Z.min max MaxDeploymentRequestBytes;
  ad_row : row = with_flip (Principal a) now (dr_deadline f) run (destination_migration a app db) d;
  ad_db : exists rec, db' = add_audit rec (set_deployments (<[id := row]> (deployments db)) db) }.

Lemma applyDeployment_applied a app id confirm key max run guard now fresh db row f db' :
  (forall a app, Reads (guard a app)) -> keyed d_id (deployments db) ->
  applyDeployment Unmarshal sum_hex UnmarshalValues DeriveKey DecryptAESGCM uuid_parse frame_bytes allowPrivileged
    a app id confirm key max run guard now fresh db = (Ok (row, f), db') ->
  exists app' id' d plan, uuid_parse app = Some app' /\ uuid_parse id = Some id' /\ guard (plan_access a app' id' db) app' db = Ok (tt, db) /\
    applied (plan_access a app' id' db) app' id' confirm max run now db db' row f d plan.
Proof.
  intros Hg Hk. unfold applyDeployment. destruct (uuid_parse app) as [app'|] eqn:Ea; [|done]. destruct (_ || _); [done|].
  destruct (uuid_parse id) as [id'|]; [|done]. unfold withTenantTarget, TenantAccess.run. intros H%runAs_split.
  destruct H as (role & n & db1 & Hh & Hal & _ & Hrun & rec & -> & _). unfold lift in Hrun. injection Hrun as _ Hrun.
  destruct (apply_body_ok _ _ _ _ _ uuid_parse _ (fun _ => 0) _ _ _ _ _ _ _ _ _ _ _ _ _ _ (Hg _ _) Hrun) as (d & plan & Hguard & Hready & Hf & Hb & Hrow & Hdb).
  rewrite (Hdb Hk).
  exists app', id', d, plan. do 3 (split; [done|]). apply frameBlocker_clear in Hb as (Hv & Hl & _).
  split; [by exists role|done|by eapply buildDeploymentFrame_frame|done|done|by exists rec].
Qed.
Lemma applyDeployment_refused a app id confirm key max run guard now fresh db e db' :
  applyDeployment Unmarshal sum_hex UnmarshalValues DeriveKey DecryptAESGCM uuid_parse frame_bytes allowPrivileged
    a app id confirm key max run guard now fresh db = (Fail e, db') -> db' = db \/ exists rec, db' = add_audit rec db.
Proof.
  unfold applyDeployment. destruct (uuid_parse app) as [app'|]; [|intros [= _ <-]; by left]. destruct (_ || _); [intros [= _ <-]; by left|].
  destruct (uuid_parse id) as [id'|]; [|intros [= _ <-]; by left]. unfold withTenantTarget, TenantAccess.run. intros H%runAs_split.
  destruct H as [->|(rec & -> & _)]; eauto.
Qed.

(** C4: A frame leaves the server only for a plan that still holds.  Whoever applies may deploy
    in the tenant; the row is planned, unexpired, of the confirmed project and of a saved revision;
    its instance has the mapping it was planned on and its endpoint is active.  The frame is the
    row's own, validates, fits the agent, and carries credentials only for hosts it pulls from;
    the row turns applying with the frame's deadline and nothing else but an audit row is written.
    A policy's apply also finds the policy active, in apply mode and created by the actor.  An
    apply that is refused changes no table. *)
Theorem apply_confined a policy run app id confirm key max now fresh db row f db' :
  keyed d_id (deployments db) ->
  (ApplyDeployment Unmarshal sum_hex UnmarshalValues DeriveKey DecryptAESGCM uuid_parse frame_bytes allowPrivileged a app id confirm key max now fresh db
     = (Ok (row, f), db') ->
   exists a' app' id' d plan, OrganizationID a' = OrganizationID a /\ ActorID a' = ActorID a /\ uuid_parse app = Some app' /\ uuid_parse id = Some id' /\
     applied a' app' id' confirm max None now db db' row f d plan) /\
  (ApplyPolicyDeployment Unmarshal sum_hex UnmarshalValues DeriveKey DecryptAESGCM uuid_parse frame_bytes allowPrivileged a policy run app id confirm key max
     now fresh db = (Ok (row, f), db') ->
   exists a' app' id' d plan p, OrganizationID a' = OrganizationID a /\ ActorID a' = ActorID a /\ uuid_parse app = Some app' /\ uuid_parse id = Some id' /\
     applied a' app' id' confirm max (if nonempty run then Some run else None) now db db' row f d plan /\
     policies db !! policy = Some p /\ policy_here a' app' p = true /\ active p = true /\ p_mode p = PolicyModeApply /\ p_created_by p = ActorID a) /\
  (forall e, (ApplyDeployment Unmarshal sum_hex UnmarshalValues DeriveKey DecryptAESGCM uuid_parse frame_bytes allowPrivileged a app id confirm key max now fresh db
     = (Fail e, db') \/
   ApplyPolicyDeployment Unmarshal sum_hex UnmarshalValues DeriveKey DecryptAESGCM uuid_parse frame_bytes allowPrivileged a policy run app id confirm key max
     now fresh db = (Fail e, db')) -> db' = db \/ exists rec, db' = add_audit rec db).
Proof.
  intros Hk.
  assert (Hacc : forall app id, OrganizationID (plan_access a app id db) = OrganizationID a /\ ActorID (plan_access a app id db) = ActorID a).
  { intros x y. unfold plan_access. destruct (deployment_of a x y db) as [d|]; [|done]. by destruct (nonempty _). }
  split_and!.
  - intros H. apply applyDeployment_applied in H as (app' & id' & d & plan & Ea & Ei & _ & Hap); [|intros; apply reads_mret|done].
    exists (plan_access a app' id' db), app', id', d, plan. destruct (Hacc app' id'). done.
  - intros H. apply applyDeployment_applied in H as (app' & id' & d & plan & Ea & Ei & Hg & Hap); [|intros; apply reads_policy_guard|done].
    unfold policy_guard in Hg. apply bind_ok in Hg as (? & ? & Hz & Hg). apply gets_ok in Hz as [= -> ->].
    apply bind_ok in Hg as (p & ? & Hz & Hg). apply one_ok in Hz as (? & Hp & [= <- ->]).
    apply bind_ok in Hg as ([] & ? & Hz & Hg). apply ensure_ok in Hz as [Hh [= ->]]. apply ensure_ok in Hg as [Hg _].
    destruct (Hacc app' id') as [? Ha]. rewrite !andb_true_iff, !bool_decide_eq_true, Ha in Hg.
    exists (plan_access a app' id' db), app', id', d, plan, p. naive_solver.
  - intros e [H|H]; by eapply applyDeployment_refused.
Qed.
End applies.

Lemma sc_planned_keyed : keyed d_id (deployments sc_planned).
Proof.
  destruct sc_mapped_inv as [Hi Ho]. eapply (dep_steps_sim demo_marshal sc_unmarshal hex0 sc_values demo_derive sc_open parse_any sc_digest
    (fun _ => 1000) (fun _ => 1000) (fun _ => 1000) (fun _ => 100) true false sc_mapped); [|done..].
  unfold sc_planned, sc_plan. apply PlanDeployment_steps. intros d. apply rtc_refl.
Qed.
Lemma apply_confined_witness :
  exists row f d plan, sc_apply = (Ok (row, f), sc_applied) /\ d_state row = StateApplying /\ deployments sc_planned !! demo_id = Some d /\
    d_state d = StatePlanned /\ frame_of d plan sc_now f.
Proof.
  destruct sc_apply as [[[row f]|e] db'] eqn:E.
  - destruct (apply_confined sc_unmarshal hex0 sc_values demo_derive sc_open parse_any (fun _ => 1000) true ada "" "" "app" demo_id "shop" demo_key 327680
      sc_now "f" sc_planned row f db' sc_planned_keyed) as (H & _).
    destruct (H E) as (a' & app' & id' & d & plan & _ & _ & _ & [= <-] & Hap). destruct Hap as [_ [Hr _ Hst _ _] [Hf _] _ Hrow _].
    exists row, f, d, plan. split; [unfold sc_applied; rewrite E; reflexivity|]. split; [rewrite Hrow; reflexivity|].
    split; [apply Hr|]. split; [apply Hst|exact Hf].
  - exfalso. assert (Hc : match sc_apply.1 with Ok _ => true | Fail _ => false end = true) by by vm_compute.
    rewrite E in Hc. simpl in Hc. discriminate Hc.
Defined.

(** ** Removals *)

Lemma instance_resources_elem instance endpoint db c r :
  (c, r) ∈ instance_resources instance endpoint db <-> resources db !! (endpoint, c) = Some r /\ xr_instance r = instance.
Proof.
  unfold instance_resources. rewrite merge_sort_Permutation, list_elem_of_fmap. split.
  - intros ([[e k] x] & [= -> ->] & H). apply list_elem_of_In, filter_In in H as [Hin H]. apply list_elem_of_In, elem_of_map_to_list in Hin.
    simpl in H. apply andb_true_iff in H as [He Hi]. apply bool_decide_eq_true in He as ->, Hi. done.
  - intros [Hr Hi]. exists ((endpoint, c), r). split; [done|]. apply list_elem_of_In, filter_In. split; [by apply list_elem_of_In, elem_of_map_to_list|].
    simpl. by rewrite !bool_decide_eq_true_2.
Qed.

(** The identity a removal pins a container to. *)
Definition pins (t : RemovalTarget) (c : string) (r : ResourceRow) : Prop :=
  it_container (rt_target t) = c /\ it_image (rt_target t) = xr_image r /\ it_created (rt_target t) = xr_created r / Second.

Section removals.
Context (Unmarshal : string -> option ApplicationSpec) (sum_hex : string -> string) (uuid_parse : string -> option string)
  (plan_bytes : DeploymentPlan -> Z) (removal_bytes : RemovalRequest -> Z).

(** The database without the instance's plans. *)
Definition unplanned (a : TenantAccess) (instance : string) (db : DB) : DB := delete_deployments (deployments_of a instance StatePlanned) db.
Lemma unplanned_all a instance db : delete_deployments (fun d => deployments_of a instance "planned" d && true) db = unplanned a instance db.
Proof.
  unfold unplanned, delete_deployments, StatePlanned. f_equal; [apply map_filter_ext|f_equal; apply map_filter_ext].
  - intros k v _. simpl. destruct (deployments db !! k) as [d|]; simpl; [|done]. by rewrite andb_true_r.
  - intros k d _. simpl. by rewrite andb_true_r.
Qed.

(** What a removal that was started had found. *)
Record removing (a : TenantAccess) (app instance confirm : string) (now : time) (db db' : DB) (d : DeploymentRow) (req : RemovalRequest)
    (i : InstanceRow) : Prop := {
  rg_role : exists role, holds a db role /\ Allows role ApplicationDestroy = true;
  rg_ready : exists head e r, RemoveReady a app instance confirm now db head i e r;
  rg_valid : is_ok (removal_validate req now) = true /\ rm_endpoint req = i_endpoint i /\ rm_project req = confirm /\ rm_deployment req = d_id d;
  rg_names : i_namespace i = "" ->
    (forall t, t ∈ rm_containers req -> exists r, resources db !! (i_endpoint i, it_container (rt_target t)) = Some r /\ xr_instance r = instance /\
       pins t (it_container (rt_target t)) r) /\
    (forall c r, resources db !! (i_endpoint i, c) = Some r -> xr_instance r = instance -> exists t, t ∈ rm_containers req /\ pins t c r);
  rg_stray : exists e v s current, endpoints db !! i_endpoint i = Some e /\ inventories db !! i_endpoint i = Some v /\
    freshInventory (ep_state e) (iv_snapshot v) (iv_received v) (iv_observed v) now = Some (s, current) /\
    (i_namespace i = "" -> forall c, c ∈ sn_containers s -> ct_project c = confirm -> exists t, t ∈ rm_containers req /\ it_container (rt_target t) = ct_id c);
  rg_known : forall k l, deployments db !! k = Some l -> d_instance l = instance -> d_kind l = KindApply -> d_state l = OutcomeUnknown ->
    exists m n, deployments db !! m = Some n /\ d_instance n = instance /\ acted n = true /\ d_created l <= d_created n /\
      ~ (d_kind n = KindApply /\ d_state n = OutcomeUnknown);
  rg_row : d_state d = StateApplying /\ removal d = true /\ d_instance d = instance /\ d_deadline d = Some (rm_deadline req);
  rg_db : exists rec, db' = add_audit rec (set_deployments (<[d_id d := d]> (deployments (unplanned a instance db))) (unplanned a instance db)) }.

#[local] Instance by_time_total {A} (t : A -> time) id : Total (by_time t id).
Proof.
  intros x y. unfold by_time. destruct (Z.lt_trichotomy (t x) (t y)) as [H|[H|H]]; [by left; left| |by right; left].
  destruct (String.leb_total (id x) (id y)) as [L|L]; [left|right]; right; split; auto.
Qed.
Lemma Sorted_weaken {A} (R S : relation A) l : (forall x y, R x y -> S x y) -> Sorted R l -> Sorted S l.
Proof. intros HRS. induction 1 as [|x l Hs IH Hh]; constructor; [done|]. destruct Hh; constructor. by apply HRS. Qed.
(** The last row of a selection is the latest. *)
Lemma select_last {A} (t : A -> time) id p (m : gmap string A) n x :
  last (select_by t id p m) = Some n -> x ∈ select_by t id p m -> t x <= t n.
Proof.
  unfold select_by. intros Hl Hx.
  assert (Hs : StronglySorted (fun x y => t x <= t y) (merge_sort (by_time t id) (select p m))).
  { apply Sorted_StronglySorted; [intros a b c; lia|]. apply (Sorted_weaken (by_time t id)); [unfold by_time; intros a b; lia|]. apply Sorted_merge_sort, _. }
  apply last_Some in Hl as [l El]. rewrite El in Hs, Hx. apply elem_of_app in Hx as [Hx|Hx]; [|by apply list_elem_of_singleton in Hx as ->; lia].
  clear El. induction l as [|y l IH]; [by apply elem_of_nil in Hx|]. simpl in Hs. apply StronglySorted_inv in Hs as [Hs Hall].
  apply elem_of_cons in Hx as [->|Hx]; [|by apply IH]. rewrite Forall_forall in Hall. apply Hall, elem_of_app. right. by left.
Qed.
Lemma last_acted_latest instance db n l k :
  last_acted instance db = Some n -> deployments db !! k = Some l -> d_instance l = instance -> acted l = true -> d_created l <= d_created n.
Proof.
  unfold last_acted. intros Hl Hk Hi Ha. eapply select_last; [exact Hl|]. apply elem_of_select_by. split; [eauto|]. by rewrite bool_decide_eq_true_2, Ha.
Qed.

Lemma removal_scope_request a app instance i head digest request id now db plan req n db' :
  removal_scope Unmarshal sum_hex a app instance i head digest request id now db = Ok ((plan, req, n), db') ->
  rm_endpoint req = i_endpoint i /\ rm_project req = i_project i /\ rm_deployment req = id /\
  (i_namespace i = "" -> pl_containers plan = map removal_plan_target (instance_resources instance (i_endpoint i) db) /\
     rm_containers req = map removal_target (pl_containers plan)).
Proof.
  unfold removal_scope. destruct (nonempty (i_namespace i)) eqn:En.
  - intros ([[services claims] mounts] & ? & _ & H)%bind_ok. apply ret_ok in H as [= -> -> _ _]. do 3 (split; [done|]). intros E. by rewrite E in En.
  - intros (rows & ? & Hz & H)%bind_ok. apply gets_ok in Hz as [= -> ->]. apply bind_ok in H as ([] & ? & Hz & H). apply ensure_ok in Hz as [_ [= ->]].
    by apply ret_ok in H as [= -> -> _ _].
Qed.
Lemma removalBlockers_clear endpoint instance project adopted now db u db' :
  removalBlockers endpoint instance project adopted now db = Ok (u, db') ->
  (exists e v s current, endpoints db !! endpoint = Some e /\ inventories db !! endpoint = Some v /\
     freshInventory (ep_state e) (iv_snapshot v) (iv_received v) (iv_observed v) now = Some (s, current) /\
     forall c, c ∈ sn_containers s -> ct_project c = project -> ct_id c ∈ map rp_container adopted) /\
  forall n, last_acted instance db = Some n -> ~ (d_kind n = KindApply /\ d_state n = OutcomeUnknown).
Proof.
  unfold removalBlockers. intros H. apply bind_ok in H as (? & ? & Hz & H). apply gets_ok in Hz as [= -> ->].
  apply bind_ok in H as ([e v] & ? & Hz & H). apply one_ok in Hz as (? & Hev & [= <- ->]).
  apply bind_ok in H as ([s current] & ? & Hz & H). apply one_ok in Hz as (? & Hf & [= <- ->]).
  apply bind_ok in H as (newest & ? & Hz & H). apply gets_ok in Hz as [= -> ->]. apply ensure_ok in H as [Hb _].
  apply bool_decide_eq_true, app_eq_nil in Hb as [Hs Hu]. split.
  - exists e, v, s, current. destruct (endpoints db !! endpoint), (inventories db !! endpoint); simplify_eq. split_and!; [done..|].
    intros c Hc Hp. unfold when in Hs. destruct (existsb _ _) eqn:Ex in Hs; [done|]. pose proof (existsb_none _ _ _ Ex Hc) as Hn. cbv beta in Hn.
    rewrite bool_decide_eq_true_2 in Hn by done. simpl in Hn. by apply negb_false_iff, bool_decide_eq_true in Hn.
  - intros n Hn [Hk Hst]. rewrite Hn in Hu. unfold in_state in Hu. rewrite Hk, Hst in Hu. done.
Qed.

(** A removal names all of the instance and nothing else.  Whoever starts one may destroy
    in the tenant and repeated the project's name; the endpoint is active (and on the server's own host the
    actor is a platform administrator), no migration of the application is open and nothing of
    the instance is live.  The frame validates and pins exactly the adopted containers by
    identity; a fresh inventory shows no other container of the project; and the instance's last
    apply is not of unknown outcome.  It writes the one applying row, expired plans apart. *)
Theorem RemoveApplication_confined a app instance confirm id correlation now fresh db d req db' :
  RemoveApplication Unmarshal sum_hex uuid_parse plan_bytes removal_bytes a app instance confirm id correlation now fresh db = (Ok (d, req), db') ->
  exists a' app' instance' i, OrganizationID a' = OrganizationID a /\ ActorID a' = ActorID a /\ uuid_parse app = Some app' /\
    uuid_parse instance = Some instance' /\ d_id d = id /\ removing a' app' instance' confirm now db db' d req i.
Proof.
  unfold RemoveApplication. destruct (uuid_parse app) as [app'|]; [|done]. destruct (negb _); [done|]. destruct (uuid_parse instance) as [inst|]; [|done].
  set (a' := if nonempty (CorrelationID a) then a else carrying a correlation). unfold TenantAccess.run. intros H%runAs_split.
  destruct H as (role & n & db1 & Hh & Hal & _ & Hrun & rec & -> & _).
  apply remove_body_ok in Hrun as (head & i & e & r & plan & k & db2 & Hrdy & Hlive & Hscope & Hblk & Hv & Hd & Hins).
  apply refuse_live_ok in Hlive as [Hdb2 _]. apply removal_scope_request in Hscope as (He & Hp & Hid & Hhost).
  apply removalBlockers_clear in Hblk as [(ep & v & s & current & Hep & Hiv & Hfresh & Hstray) Hlast].
  assert (Er : resources db2 = resources db /\ endpoints db2 = endpoints db /\ inventories db2 = inventories db) by by rewrite Hdb2.
  destruct Er as (Er & Ee & Ei). apply insert_deployment_ok in Hins as (_ & _ & _ & ->).
  assert (Hproj : confirm = i_project i) by apply (rr_instance _ _ _ _ _ _ _ _ _ _ Hrdy).
  exists a', app', inst, i. split; [by unfold a'; destruct (nonempty _)|]. split; [by unfold a'; destruct (nonempty _)|].
  split; [done|]. split; [done|]. split; [by rewrite Hd|]. split.
  - by exists role.
  - by exists head, e, r.
  - rewrite Hv, He, Hp, Hid, Hd. done.
  - intros En. destruct (Hhost En) as [Hpl ->]. rewrite Hpl, map_map. split.
    + intros t ([c x] & -> & Hx)%list_elem_of_fmap. apply instance_resources_elem in Hx as [Hx Hi]. rewrite Er in Hx. by exists x.
    + intros c x Hx Hi. exists (removal_target (removal_plan_target (c, x))). split; [|done]. apply list_elem_of_fmap. exists (c, x). split; [done|].
      apply instance_resources_elem. by rewrite Er.
  - rewrite <- Ee, <- Ei. exists ep, v, s, current. split_and!; [done..|]. intros En c Hc Hpr. destruct (Hhost En) as [_ ->].
    destruct (proj1 (list_elem_of_fmap _ _ _) (Hstray c Hc (eq_trans Hpr Hproj))) as (t & Ht & Hin). exists (removal_target t). split; [|by rewrite Ht].
    apply list_elem_of_fmap. eauto.
  - intros m l Hm Hi Hk Hst. assert (Hm2 : deployments db2 !! m = Some l).
    { rewrite Hdb2. unfold delete_deployments. simpl. apply map_lookup_filter_Some. split; [done|]. simpl. unfold deployments_of. rewrite Hst. simpl.
      by rewrite andb_false_r. }
    assert (Hacted : acted l = true) by (unfold acted, in_state; by rewrite Hst).
    destruct (last_acted inst db2) as [n0|] eqn:El.
    + assert (Hel : n0 ∈ select_by d_created d_id (fun d => bool_decide (d_instance d = inst) && acted d) (deployments db2)).
      { apply last_Some in El as [pre ->]. apply elem_of_app. right. by left. }
      apply elem_of_select_by in Hel as [[kn Hkn] Hn0]. apply andb_true_iff in Hn0 as [Hn1 Hn2]. apply bool_decide_eq_true in Hn1.
      exists kn, n0. split; [|split_and!; [done|done|by eapply last_acted_latest|by apply Hlast]].
      rewrite Hdb2 in Hkn. unfold delete_deployments in Hkn. simpl in Hkn. by apply map_lookup_filter_Some in Hkn as [? _].
    + exfalso. unfold last_acted in El. apply last_None in El.
      assert (Hel : l ∈ select_by d_created d_id (fun d => bool_decide (d_instance d = inst) && acted d) (deployments db2)).
      { apply elem_of_select_by. split; [eauto|]. by rewrite bool_decide_eq_true_2, Hacted. }
      rewrite El in Hel. by apply elem_of_nil in Hel.
  - rewrite Hd. split_and!; [done..|]. simpl. unfold removal. done.
  - exists rec. rewrite <- unplanned_all, <- Hdb2. by rewrite Hd.
Qed.
End removals.

Definition sc_remove : res StoreErr (DeploymentRow * RemovalRequest) * DB :=
  RemoveApplication sc_unmarshal hex0 parse_any (fun _ => 1000) (fun _ => 1000) ada "app" "inst" "shop" demo_id "c" sc_now "f" sc_mapped.
Lemma RemoveApplication_confined_witness :
  exists d req db', sc_remove = (Ok (d, req), db') /\ d_state d = StateApplying /\
    exists t, t ∈ rm_containers req /\ it_container (rt_target t) = sc_old.
Proof.
  destruct sc_remove as [[[d req]|e] db'] eqn:E.
  - unfold sc_remove in E. destruct (RemoveApplication_confined _ _ _ _ _ _ _ _ _ _ _ _ _ _ _ _ _ E) as (a' & app' & inst & i & _ & _ & _ & Hinst & _ & Hr).
    injection Hinst as <-. destruct Hr as [_ (head & ep & r & Hready) _ Hnames _ _ Hrow _].
    destruct (rr_instance _ _ _ _ _ _ _ _ _ _ Hready) as (Hi & _ & _).
    assert (Hn : option_map (fun i => (i_namespace i, i_endpoint i)) (instances sc_mapped !! "inst") = Some ("", "host")) by (vm_compute; reflexivity).
    rewrite Hi in Hn. injection Hn as Hn He. destruct (Hnames Hn) as [_ Hall]. rewrite He in Hall.
    assert (Hres : option_map xr_instance (resources sc_mapped !! ("host", sc_old)) = Some "inst") by (vm_compute; reflexivity).
    destruct (resources sc_mapped !! ("host", sc_old)) as [x|] eqn:Ex; [|discriminate Hres]. injection Hres as Hres.
    destruct (Hall sc_old x Ex Hres) as (t & Ht & Hpin). exists d, req, db'. split; [reflexivity|]. split; [apply Hrow|]. exists t. split; [exact Ht|apply Hpin].
  - exfalso. assert (Hc : match sc_remove.1 with Ok _ => true | Fail _ => false end = true) by by vm_compute.
    rewrite E in Hc. simpl in Hc. discriminate Hc.
Defined.
