(* ===== verification/Engine.v ===== *)
(** * The Docker Engine as the agent reads it

    internal/runtime/docker: what a container, image or volume read answers, decoded, and the
    pure checks a deployment makes on those answers before it touches a container (deploy.go,
    deploy_pull.go, deploy_volume.go, configuration.go, operate.go, self.go, installer.go,
    docker.go).

    One [ContainerRead] stands for the one JSON document of [GET /containers/<id>/json], which the
    code decodes into several views at once.  A slice or map of a struct that is compared with
    [reflect.DeepEqual] is an [option]: nil and empty differ there. *)
From Stdlib Require Import ZArith QArith Lia Ascii String.
From stdpp Require Import base gmap sets strings list sorting.
From S2P Require Import Prelude.
From S2P Require Import Regex.
From S2P Require Import Text.
From S2P Require Import Grammar.
From S2P Require Import Inspection.
From S2P Require Import Schedule.
From S2P Require Import Frame.

(** ** Budgets *)

Definition callBudget : Z := 20 * Second.
Definition operationBudget : Z := 30 * Second.
Definition stopGrace : Z := 10.
Definition maxStopGrace : Z := 3600.
Definition replaceBudget : Z := 2 * operationBudget + 4 * callBudget.
Definition rollbackBudget : Z := operationBudget + 2 * callBudget.
Definition startWatch : Z := 5 * Second.
Definition startPoll : Z := 500000000.
Definition watchBudget : Z := startWatch + callBudget.
Definition stopWait : Z := stopGrace * Second + callBudget.
Definition removeBudget : Z := operationBudget + 2 * callBudget.

Definition graceOf (t : option Z) : Z :=
  match t with
  | None => stopGrace
  | Some t => if (t <? 0) || (t >? maxStopGrace) then maxStopGrace else t
  end.

Definition extraGrace (grace : Z) : Z := Z.max 0 (grace - stopGrace) * Second.

(** Go's division truncates. *)
Definition fitGrace (grace room : Z) : Z :=
  if grace <=? stopGrace then grace else Z.min grace (stopGrace + Z.max 0 (Z.quot room Second)).

Definition waitBound (stop_wait remaining reserve : Z) : Z := Z.max 0 (Z.min stop_wait (remaining - reserve)).

Definition pullPhase (remaining : Z) : Z := Z.min (remaining - replaceBudget) (Z.quot (remaining * 4) 5).

(** ** What the Engine answers *)

Notation slice A := (option (list A)).
Definition items {A} (s : slice A) : list A := default [] s.
Definition entries (m : option (gmap string string)) : gmap string string := default ∅ m.

Record inspectedMount := mkInspectedMount {
  im_type : string; im_name : string; im_source : string; im_destination : string; im_mode : string;
  im_propagation : string; im_rw : bool }.
#[export] Instance inspectedMount_eq_dec : EqDecision inspectedMount.
Proof. solve_decision. Defined.

Record healthcheck := mkHealth {
  hc_test : slice string; hc_interval : Z; hc_timeout : Z; hc_start : Z; hc_retries : Z }.
#[export] Instance healthcheck_eq_dec : EqDecision healthcheck.
Proof. solve_decision. Defined.

Record imageDefaults := mkDefaults {
  df_cmd : slice string; df_entrypoint : slice string; df_healthcheck : option healthcheck;
  df_workdir : string; df_stopsignal : string }.
#[export] Instance imageDefaults_eq_dec : EqDecision imageDefaults.
Proof. solve_decision. Defined.

Record BindOptions := mkBindOptions {
  bo_propagation : string; bo_non_recursive : bool; bo_ro_non_recursive : bool; bo_ro_force_recursive : bool }.
#[export] Instance BindOptions_eq_dec : EqDecision BindOptions.
Proof. solve_decision. Defined.
(** [vo_driver]: the name inside DriverConfig, when there is one. *)
Record VolumeOptions := mkVolumeOptions { vo_nocopy : bool; vo_subpath : string; vo_driver : option string }.
#[export] Instance VolumeOptions_eq_dec : EqDecision VolumeOptions.
Proof. solve_decision. Defined.
Record TmpfsOptions := mkTmpfsOptions { to_size : Z; to_mode : Z; to_options : slice (slice string) }.
#[export] Instance TmpfsOptions_eq_dec : EqDecision TmpfsOptions.
Proof. solve_decision. Defined.
Record HostMount := mkHostMount {
  hm_bind : option BindOptions; hm_volume : option VolumeOptions; hm_tmpfs : option TmpfsOptions }.
#[export] Instance HostMount_eq_dec : EqDecision HostMount.
Proof. solve_decision. Defined.

(** The Config and HostConfig of [inspectedForDeploy].  A [json.RawMessage] there is its text. *)
Record DeployConfig := mkConfig {
  cfg_labels : option (gmap string string); cfg_defaults : imageDefaults;
  cfg_user : string; cfg_mac : string; cfg_image : string }.
#[export] Instance DeployConfig_eq_dec : EqDecision DeployConfig.
Proof. solve_decision. Defined.
Record DeployHost := mkHostConfig {
  hc_network_mode : string; hc_privileged : option bool; hc_auto_remove : option bool; hc_readonly_rootfs : option bool;
  hc_tmpfs : option (gmap string string); hc_sysctls : option (gmap string string);
  hc_cap_add : slice string; hc_cap_drop : slice string; hc_security_opt : slice string; hc_group_add : slice string;
  hc_extra_hosts : slice string; hc_links : slice string; hc_dns : slice string; hc_dns_options : slice string;
  hc_dns_search : slice string; hc_devices : slice string; hc_ulimits : slice string; hc_device_requests : slice string;
  hc_pid_mode : string; hc_ipc_mode : string; hc_runtime : string; hc_userns_mode : string; hc_cgroup_parent : string;
  hc_cpuset : string; hc_memory : Z; hc_memory_swap : Z; hc_memory_reservation : Z; hc_nano_cpus : Z;
  hc_cpu_shares : Z; hc_cpu_quota : Z; hc_pids_limit : option Z; hc_init : option bool; hc_volumes_from : slice string;
  hc_volume_driver : string; hc_mounts : slice HostMount }.
#[export] Instance DeployHost_eq_dec : EqDecision DeployHost.
Proof. solve_decision. Defined.

(** What [json.Unmarshal] into [any] makes of a raw value, as far as [unset] looks.
    [ShapeUnreadable] is a value it refuses (a number out of range). *)
Inductive JsonShape :=
| ShapeNull | ShapeBool (b : bool) | ShapeNumber (zero : bool) | ShapeString (s : string)
| ShapeList (n : nat) | ShapeObject (n : nat) | ShapeUnreadable.
(** A raw value: its text, its shape and, for an object, its members. *)
Record RawJson := mkRaw { raw_text : string; raw_shape : JsonShape; raw_members : list (string * (string * JsonShape)) }.

Record device := mkEngineDevice { ed_host : string; ed_container : string; ed_permissions : string }.
(** One attached network: the aliases [cappedLists] reads and the keys [rawInspection] reads. *)
Record NetworkRead := mkNetworkRead { nr_aliases : list string; nr_keys : gmap string RawJson }.
Record StateRead := mkState { sr_status : string; sr_running : bool; sr_paused : bool; sr_health : option string }.

Record ContainerRead := mkRead {
  c_id : string; c_image : string; c_name : string; c_created : Z; c_mounts : slice inspectedMount;
  c_config : option DeployConfig; c_host : option DeployHost; c_networks : option (gmap string NetworkRead);
  c_raw_config : option (gmap string RawJson); c_raw_host : option (gmap string RawJson);
  c_exposed : gset string; c_bindings : gmap string (list string); c_log_options : gmap string string;
  c_devices : list device; c_stop_timeout : option Z; c_restarts : option Z; c_state : option StateRead }.
Definition no_read : ContainerRead :=
  mkRead "" "" "" 0 None None None None None None ∅ ∅ ∅ [] None None None.

Record ImageRead := mkImageRead { i_id : string; i_user : string; i_defaults : imageDefaults; i_repo_digests : list string }.
Record dockerVolume := mkVolume { v_driver : string; v_labels : gmap string string; v_options : gmap string string }.
Record daemon := mkDaemon { d_default_runtime : string; d_cgroup_version : string }.

(** ** Labels and the agent's own container *)

Definition installerOwnerLabel : string := "ky.managed-by".
Definition installerManaged (labels : gmap string string) : bool :=
  bool_decide (labels !! installerOwnerLabel = Some "kyquickstart").

(** [self] is the container the agent runs in, "" outside one. *)
Definition isSelf (self id : string) : bool := negb (bool_decide (self = "")) && bool_decide (id = self).

(** ** Mounts *)

(** [mountList.UnmarshalJSON] sorts by destination, then source. *)
Definition mount_before (a b : inspectedMount) : Prop :=
  if bool_decide (im_destination a = im_destination b) then String.leb (im_source a) (im_source b) = true
  else String.leb (im_destination a) (im_destination b) = true.
#[export] Instance mount_before_dec a b : Decision (mount_before a b).
Proof. unfold mount_before. destruct (bool_decide _); apply _. Defined.
Definition mountList (c : ContainerRead) : slice inspectedMount := merge_sort mount_before <$> c_mounts c.

Definition anonymousVolume (name : string) : bool := re_match hex64 name.

Definition tmpfs_plain (o : string) : bool :=
  bool_decide (o = "") || bool_decide (o = "rw") || bool_decide (o = "ro").
Definition set_propagation (p : string) : bool := negb (bool_decide (p = "")) && negb (bool_decide (p = "rprivate")).

Definition mountOptions (h : DeployHost) (mounts : list inspectedMount) : bool :=
  existsb (fun kv => existsb (fun o => negb (tmpfs_plain o)) (split_at "," kv.2)) (map_to_list (entries (hc_tmpfs h)))
  || existsb (fun m => set_propagation (im_propagation m) || bool_decide ("nocopy" ∈ split_at "," (im_mode m))) mounts
  || existsb (fun m =>
       match hm_bind m with
       | Some b => set_propagation (bo_propagation b) || bo_non_recursive b || bo_ro_non_recursive b || bo_ro_force_recursive b
       | None => false
       end
       || match hm_volume m with
          | Some v => vo_nocopy v || negb (bool_decide (vo_subpath v = ""))
                      || match vo_driver v with
                         | Some n => negb (bool_decide (n = "")) && negb (bool_decide (n = "local"))
                         | None => false
                         end
          | None => false
          end
       || match hm_tmpfs m with
          | Some o => negb (to_size o =? 0) || negb (to_mode o =? 0) || (0 <? llen (items (to_options o)))
          | None => false
          end) (items (hc_mounts h)).

Definition mountsVolume (mounts : list inspectedMount) (name : string) : bool :=
  existsb (fun o => bool_decide (im_type o = "volume") && bool_decide (im_name o = name)) mounts.

Definition keeps (old : list inspectedMount) (m : Mount) : bool :=
  existsb (fun o => bool_decide (im_type o = "volume") && bool_decide (im_name o = m_source m)
                    && bool_decide (im_destination o = m_target m) && Bool.eqb (im_rw o) (negb (m_readonly m))) old.

(** ** Volumes *)

Definition owned (v : dockerVolume) (project : string) : bool :=
  bool_decide (default "" (v_labels v !! "com.docker.compose.project") = project)
  && bool_decide (v_driver v = "local") && bool_decide (size (v_options v) = 0%nat).
Definition hostBacked (v : dockerVolume) : bool :=
  negb (bool_decide (v_driver v = "local")) || negb (bool_decide (size (v_options v) = 0%nat)).

(** ** What recreation would drop *)

Definition health_none (h : option healthcheck) : bool :=
  match h with
  | None => true
  | Some h => match items (hc_test h) with [] => true | [t] => bool_decide (t = "NONE") | _ => false end
  end.

Definition differs (a b : imageDefaults) : bool :=
  negb (bool_decide (items (df_cmd a) = items (df_cmd b)))
  || negb (bool_decide (items (df_entrypoint a) = items (df_entrypoint b)))
  || negb (Bool.eqb (health_none (df_healthcheck a)) (health_none (df_healthcheck b)))
  || (negb (health_none (df_healthcheck a)) && negb (bool_decide (df_healthcheck a = df_healthcheck b)))
  || negb (bool_decide (df_workdir a = df_workdir b)) || negb (bool_decide (df_stopsignal a = df_stopsignal b)).

Definition isSome {A} (o : option A) : bool := match o with Some _ => true | None => false end.

(** What [reported] makes available: the parts read through a pointer. *)
Record Reported := mkReported {
  rp_host : DeployHost; rp_config : DeployConfig; rp_networks : gmap string NetworkRead; rp_mounts : list inspectedMount;
  rp_privileged : bool; rp_auto_remove : bool; rp_readonly : bool }.

Definition reported (c : ContainerRead) : option Reported :=
  match c_host c, c_config c, c_networks c, mountList c with
  | Some h, Some g, Some n, Some m =>
      match hc_privileged h, hc_auto_remove h, hc_readonly_rootfs h with
      | Some p, Some a, Some r => Some (mkReported h g n m p a r)
      | _, _, _ => None
      end
  | _, _, _, _ => None
  end.

Definition sameConfiguration (a b : ContainerRead) : bool :=
  bool_decide (c_config a = c_config b) && bool_decide (c_host a = c_host b) && bool_decide (mountList a = mountList b).

Definition set_mode (m : string) (defaults : list string) : bool := negb (bool_decide (m ∈ defaults)).
Definition some {A} (l : slice A) : bool := 0 <? llen (items l).

(** The codes in the order of [checks], each with its condition. *)
Definition undescribed_checks (in_ : Reported) (imageUser projectNetwork defaultRuntime : string) : list (string * bool) :=
  let h := rp_host in_ in
  let mounts := rp_mounts in_ in
  let bridged := bool_decide (hc_network_mode h = "default") || bool_decide (hc_network_mode h = "bridge") in
  let network := if bridged then "bridge" else projectNetwork in
  [("mount_type", existsb (fun m => negb (bool_decide (im_type m = "volume")) && negb (bool_decide (im_type m = "bind"))) mounts);
   ("anonymous_volume", existsb (fun m => bool_decide (im_type m = "volume") && anonymousVolume (im_name m)) mounts);
   ("volumes_from", some (hc_volumes_from h));
   ("volume_driver", set_mode (hc_volume_driver h) [""; "local"]);
   ("mount_options", mountOptions h mounts);
   ("tmpfs", 0 <? msize (entries (hc_tmpfs h)));
   ("auto_remove", rp_auto_remove in_);
   ("read_only_rootfs", rp_readonly in_);
   ("privileged", rp_privileged in_);
   ("capabilities", some (hc_cap_add h) || some (hc_cap_drop h));
   ("security_opt", some (hc_security_opt h));
   ("devices", some (hc_devices h));
   ("pid_mode", set_mode (hc_pid_mode h) [""; "private"]);
   ("ipc_mode", set_mode (hc_ipc_mode h) [""; "private"; "shareable"]);
   ("user", negb (bool_decide (cfg_user (rp_config in_) = imageUser)));
   ("runtime", set_mode (hc_runtime h) [""; defaultRuntime]);
   ("resource_limits", (0 <? hc_memory h) || (0 <? hc_memory_swap h) || (0 <? hc_memory_reservation h) || (0 <? hc_nano_cpus h)
      || (0 <? hc_cpu_shares h) || (0 <? hc_cpu_quota h) || negb (bool_decide (hc_cpuset h = ""))
      || match hc_pids_limit h with Some p => negb (p =? 0) | None => false end);
   ("ulimits", some (hc_ulimits h));
   ("sysctls", 0 <? msize (entries (hc_sysctls h)));
   ("device_requests", some (hc_device_requests h));
   ("init", default false (hc_init h));
   ("userns_mode", negb (bool_decide (hc_userns_mode h = "")));
   ("cgroup_parent", negb (bool_decide (hc_cgroup_parent h = "")));
   ("group_add", some (hc_group_add h));
   ("extra_hosts", some (hc_extra_hosts h));
   ("dns", some (hc_dns h) || some (hc_dns_options h) || some (hc_dns_search h));
   ("links", some (hc_links h));
   ("network", (negb bridged && negb (bool_decide (hc_network_mode h = projectNetwork)))
      || negb (msize (rp_networks in_) =? 1) || negb (isSome (rp_networks in_ !! network)))].

Definition undescribed (in_ : Reported) (imageUser projectNetwork defaultRuntime : string) : list string :=
  map fst (List.filter snd (undescribed_checks in_ imageUser projectNetwork defaultRuntime)).

(** ** Settings no typed field names *)

Definition ConfigurationOnlyCodes : list string :=
  ["volumes_from"; "volume_driver"; "mount_options"; "ulimits"; "sysctls"; "device_requests"; "pid_mode"; "ipc_mode";
   "userns_mode"; "cgroup_parent"; "group_add"; "links"; "runtime"; "anonymous_volume"].

(** [keyCodes]: each key with the code it is flagged under, "" when it is carried. *)
Definition keyCodes (byCode : list (string * list string)) : gmap string string :=
  list_to_map (mjoin (map (fun ck => map (fun k => (k, ck.1)) ck.2) byCode)).
Definition configKeys : gmap string string := keyCodes
  [("", ["Image"; "User"; "WorkingDir"; "Hostname"; "StopSignal"; "Env"; "Cmd"; "Entrypoint"; "Labels"; "ExposedPorts";
         "Tty"; "OpenStdin"; "StopTimeout"; "Healthcheck"; "MacAddress"; "AttachStdin"; "AttachStdout"; "AttachStderr";
         "StdinOnce"; "Volumes"; "OnBuild"; "ArgsEscaped"; "Shell"])].
Definition hostConfigKeys : gmap string string := keyCodes
  [("", ["NetworkMode"; "Privileged"; "ReadonlyRootfs"; "Init"; "RestartPolicy"; "PortBindings"; "Memory"; "MemorySwap";
         "NanoCpus"; "PidsLimit"; "CapAdd"; "CapDrop"; "SecurityOpt"; "ExtraHosts"; "Dns"; "Devices"; "LogConfig"; "Tmpfs";
         "Binds"; "Mounts"; "VolumesFrom"; "VolumeDriver"; "Ulimits"; "Sysctls"; "DeviceRequests"; "PidMode"; "IpcMode";
         "UsernsMode"; "CgroupParent"; "GroupAdd"; "Links"; "Runtime"; "ConsoleSize"; "ContainerIDFile"; "MaskedPaths";
         "ReadonlyPaths"]);
   ("resource_limits", ["CpuShares"; "CpuPeriod"; "CpuQuota"; "CpuRealtimePeriod"; "CpuRealtimeRuntime"; "CpusetCpus";
         "CpusetMems"; "CpuCount"; "CpuPercent"; "MemoryReservation"; "MemorySwappiness"; "KernelMemory"; "KernelMemoryTCP";
         "BlkioWeight"; "BlkioWeightDevice"; "BlkioDeviceReadBps"; "BlkioDeviceWriteBps"; "BlkioDeviceReadIOps";
         "BlkioDeviceWriteIOps"; "IOMaximumBandwidth"; "IOMaximumIOps"]);
   ("dns", ["DnsOptions"; "DnsSearch"]); ("auto_remove", ["AutoRemove"])].
Definition endpointKeys : gmap string string := keyCodes
  [("", ["Aliases"; "IPAMConfig"; "NetworkID"; "EndpointID"; "Gateway"; "IPAddress"; "IPPrefixLen"; "IPv6Gateway";
         "GlobalIPv6Address"; "GlobalIPv6PrefixLen"; "MacAddress"; "DNSNames"]); ("links", ["Links"])].
Definition engineKey (k : string) : bool := re_match (Rep alnum 1 64) k.

Definition quoted (s : string) : string := String "034" s +:+ String "034" "".
Definition daemonDefaults (cgroupVersion : string) : gmap string string :=
  list_to_map [("ShmSize", "67108864");
               ("CgroupnsMode", quoted (if bool_decide (cgroupVersion = "1") then "host" else "private"));
               ("MemorySwappiness", "-1")].

Definition unset (key : string) (text : string) (shape : JsonShape) (defaults : gmap string string) : bool :=
  bool_decide (defaults !! key = Some text) ||
  match shape with
  | ShapeNull => true
  | ShapeBool b => negb b
  | ShapeNumber z => z
  | ShapeString s => bool_decide (s = "")
  | ShapeList n | ShapeObject n => bool_decide (n = 0%nat)
  | ShapeUnreadable => false
  end.

(** The code one key adds, if any; [None] is a key outside the Engine's grammar. *)
Definition key_code (known defaults : gmap string string) (k : string) (raw : RawJson) : option (option string) :=
  if negb (engineKey k) then None
  else if bool_decide (k = "IPAMConfig") then
    Some (if existsb (fun sv => negb (bool_decide (sv.1 = "IPv4Address")) && negb (unset sv.1 sv.2.1 sv.2.2 defaults)) (raw_members raw)
          then Some "host_config:IPAMConfig" else None)
  else if unset k (raw_text raw) (raw_shape raw) defaults || bool_decide (known !! k = Some "") then Some None
  else match known !! k with
       | Some c => Some (Some c)
       | None => Some (Some ("host_config:" +:+ k))
       end.

Fixpoint uncarried_loop (known defaults : gmap string string) (section : list (string * RawJson)) (codes : gset string)
    : option (gset string) :=
  match section with
  | [] => Some codes
  | (k, raw) :: l =>
      match key_code known defaults k raw with
      | None => None
      | Some c => uncarried_loop known defaults l (match c with Some c => {[c]} ∪ codes | None => codes end)
      end
  end.

(** [rawInspection.uncarried]; a nil map is an empty one here.  The set holds the codes mapped to true. *)
Definition uncarried (c : ContainerRead) (cgroupVersion : string) (codes : gset string) : option (gset string) :=
  let defaults := daemonDefaults cgroupVersion in
  networks ← c_networks c;
  codes ← uncarried_loop configKeys defaults (map_to_list (default ∅ (c_raw_config c))) codes;
  codes ← uncarried_loop hostConfigKeys defaults (map_to_list (default ∅ (c_raw_host c))) codes;
  foldr (fun n acc => codes ← acc; uncarried_loop endpointKeys defaults (map_to_list (nr_keys n.2)) codes)
        (Some codes) (map_to_list networks).

(** [sameKeys] compares the raw bytes, key by key. *)
Definition texts (m : option (gmap string RawJson)) : option (gmap string string) := option_map (fun m : gmap string RawJson => raw_text <$> m) m.
Definition sameKeys (a b : ContainerRead) : bool :=
  bool_decide (texts (c_raw_config a) = texts (c_raw_config b)) && bool_decide (texts (c_raw_host a) = texts (c_raw_host b)).

(** The order of [slices.Sort] on strings: byte by byte. *)
Definition str_before (a b : string) : Prop := String.leb a b = true.
#[export] Instance str_before_dec a b : Decision (str_before a b).
Proof. unfold str_before. apply _. Defined.

Definition orderedCodes (codes : gset string) : list string :=
  List.filter (fun c => bool_decide (c ∈ codes)) UnsupportedCodes
  ++ firstn (Z.to_nat MaxListEntries)
       (merge_sort str_before (List.filter (fun c => HasPrefix c "host_config:") (elements codes))).

(** ** The bounds of an explicit frame *)

(** [list] with the codes its read was cut under; only whether it cuts matters here. *)
Fixpoint list_cuts {A} (fits : A -> bool) (out : Z) (l : list A) : bool :=
  match l with
  | [] => false
  | e :: l' => if negb (fits e) || (out =? MaxListEntries) then true else list_cuts fits (out + 1) l'
  end.
Definition fits (max : Z) (s : string) : bool := bool_decide (CleanText s max = s).
Definition deviceFits (d : device) : bool :=
  negb (bool_decide (ed_host d = "")) && negb (bool_decide (ed_container d = ""))
  && fits MaxListEntryBytes (ed_host d) && fits MaxListEntryBytes (ed_container d).

Definition parsePortKey (key : string) : option (Z * string) :=
  match cut_at "/" key with
  | Some (target, proto) =>
      match Atoi target with
      | Some port => if (1 <=? port) && (port <=? 65535) && bool_decide (Itoa port = target) && tcp_udp proto
                     then Some (port, proto) else None
      | None => None
      end
  | None => None
  end.

Definition namespaced (m : string) : bool :=
  bool_decide (m = "host") || bool_decide (m = "none") || HasPrefix m "container:".

Definition overCap (c : ContainerRead) (in_ : Reported) : bool :=
  let h := rp_host in_ in
  let entry := fits MaxListEntryBytes in
  let short := take_str 12 (c_id c) in
  let bindings := map_to_list (c_bindings c) in
  let bound := fun key => match c_bindings c !! key with Some (_ :: _) => true | _ => false end in
  let ports := llen (mjoin (map snd bindings)) + llen (List.filter (fun k => negb (bound k)) (elements (c_exposed c))) in
  let on_mount := fun t => existsb (fun m => bool_decide (im_destination m = t)) (rp_mounts in_) in
  let mounts := llen (rp_mounts in_) + llen (List.filter (fun kv => negb (on_mount kv.1)) (map_to_list (entries (hc_tmpfs h)))) in
  existsb (list_cuts entry 0) [items (hc_cap_add h); items (hc_cap_drop h); items (hc_security_opt h); items (hc_extra_hosts h); items (hc_dns h)]
  || list_cuts deviceFits 0 (c_devices c)
  || (negb (namespaced (hc_network_mode h))
      && (existsb (fun n => list_cuts (fits 256) 0 (List.filter (fun a => negb (bool_decide (a = short))) (nr_aliases n.2)))
                  (map_to_list (rp_networks in_))
          || (msize (rp_networks in_) >? MaxConfigurationNetworks)))
  || existsb (fun kb => negb (isSome (parsePortKey kb.1)) || existsb (fun p => bool_decide (p = "")) kb.2) bindings
  || existsb (fun k => negb (isSome (parsePortKey k))) (elements (c_exposed c))
  || existsb (fun m => negb (bool_decide (im_type m ∈ ["volume"; "bind"; "tmpfs"]))) (rp_mounts in_)
  || (msize (c_log_options c) >? MaxLogOptions) || (ports >? MaxDeploymentPorts) || (mounts >? MaxMounts).
