(* ===== verification/ContainerBody.v ===== *)
(** * The container a deployment creates

    internal/runtime/docker/deploy.go: [containerCreate], the body of the create call, and
    [createBody], which builds it from one service of a frame; [canonicalRepository] of
    deploy_pull.go and [containerImageReference] of docker.go.  The body is the struct; its JSON
    is not modelled.  A nil slice or map of it and an empty one are the same value here. *)
From Stdlib Require Import ZArith QArith Lia Ascii String.
From stdpp Require Import base gmap sets strings list sorting.
From S2P Require Import Prelude.
From S2P Require Import Grammar.
From S2P Require Import Inspection.
From S2P Require Import Frame.
From S2P Require Import Engine.
Open Scope Z_scope.

Record portBinding := mkBinding { pb_ip : string; pb_port : string }.
Record endpointSettings := mkEndpoint { es_aliases : list string; es_ipv4 : option string }.
Record mountSpec := mkMountSpec { ms_type : string; ms_source : string; ms_target : string; ms_readonly : bool }.
Record logConfig := mkLogConfig { lc_type : string; lc_config : gmap string string }.

(** [hc_*] of the body's HostConfig are [cc_*] here. *)
Record containerCreate := mkCreate {
  cc_image : string; cc_env : list string; cc_labels : gmap string string; cc_exposed : gset string;
  cc_cmd : list string; cc_entrypoint : list string; cc_user : string; cc_workdir : string; cc_hostname : string;
  cc_mac : string; cc_tty : bool; cc_open_stdin : bool; cc_stop_signal : string; cc_stop_timeout : option Z;
  cc_healthcheck : option healthcheck; cc_network_mode : string; cc_bindings : gmap string (list portBinding);
  cc_mounts : list mountSpec; cc_restart : string; cc_retries : Z; cc_memory : Z; cc_memory_swap : Z; cc_nano_cpus : Z;
  cc_pids : Z; cc_privileged : bool; cc_readonly_rootfs : bool; cc_init : bool; cc_cap_add : list string;
  cc_cap_drop : list string; cc_security_opt : list string; cc_extra_hosts : list string; cc_dns : list string;
  cc_devices : list device; cc_log : option logConfig; cc_endpoints : gmap string endpointSettings }.

(** ** Float64 seconds *)

(** The nearest integer of [n / d], ties to even. *)
Definition half_even (n d : Z) : Z :=
  let q := n / d in
  let r := n mod d in
  if 2 * r <? d then q else if d <? 2 * r then q + 1 else if Z.even q then q else q + 1.

(** A non-negative rational rounded to the 53 bits of a float64, as a quotient of integers. *)
Definition round53 (n d : Z) : Z * Z :=
  if n =? 0 then (0, 1) else
  let e0 := Z.log2 n - Z.log2 d in
  let e := if (if e0 <? 0 then n * 2 ^ (- e0) <? d else n <? d * 2 ^ e0) then e0 - 1 else e0 in
  let k := e - 52 in
  if k <? 0 then (half_even (n * 2 ^ (- k)) d, 2 ^ (- k)) else (half_even n (d * 2 ^ k) * 2 ^ k, 1).

(** [int64(math.Round(s * float64(time.Second)))]; a value an int64 does not hold converts to its
    least one, as on amd64. *)
Definition ns (s : Q) : Z :=
  let '(n, d) := round53 (Qnum s * 1000000000) (Zpos (Qden s)) in
  let v := (2 * n + d) / (2 * d) in
  if v <? 2 ^ 63 then v else - 2 ^ 63.

(** ** Networks *)

Definition endpoint (n : NetworkAttachmentSpec) : endpointSettings :=
  mkEndpoint (net_aliases n) (if bool_decide (net_ip n = "") then None else Some (net_ip n)).

Fixpoint index_of {A} (p : A -> bool) (l : list A) : option nat :=
  match l with
  | [] => None
  | x :: l' => if p x then Some 0%nat else option_map S (index_of p l')
  end.

Definition attachments (e : ExplicitService) : option NetworkAttachmentSpec * list NetworkAttachmentSpec :=
  let mode := if bool_decide (e_network_mode e = "") || bool_decide (e_network_mode e = "default") then "bridge"
              else e_network_mode e in
  let i := default 0%nat (index_of (fun n => bool_decide (net_name n = mode)) (e_networks e)) in
  (e_networks e !! i, delete i (e_networks e)).

(** ** The body *)

Definition explicitBody (b : containerCreate) (e : ExplicitService) : containerCreate :=
  let first := (attachments e).1 in
  mkCreate (cc_image b) (cc_env b) (e_labels e) (cc_exposed b) (e_command e) (e_entrypoint e) (e_user e) (e_working_dir e)
    (e_hostname e) (cc_mac b) (e_tty e) (e_stdin_open e) (e_stop_signal e) (e_stop_timeout e)
    (option_map (fun h => mkHealth (Some (h_test h)) (ns (h_interval h)) (ns (h_timeout h)) (ns (h_start h)) (h_retries h))
       (e_healthcheck e))
    (match first with
     | Some n => if bool_decide (e_network_mode e = "") && negb (NamespaceNetwork (net_name n)) then net_name n else e_network_mode e
     | None => e_network_mode e
     end)
    (cc_bindings b) (cc_mounts b) (cc_restart b) (e_restart_retries e) (res_memory (e_resources e)) (res_swap (e_resources e))
    (res_cpus (e_resources e)) (res_pids (e_resources e)) (e_privileged e) (e_readonly_rootfs e) (e_init e) (e_cap_add e)
    (e_cap_drop e) (e_security_opt e) (e_extra_hosts e) (e_dns e)
    (map (fun d => mkEngineDevice (dev_host d) (dev_container d) (dev_permissions d)) (e_devices e))
    (if bool_decide (log_driver (e_log e) = "") then cc_log b else Some (mkLogConfig (log_driver (e_log e)) (log_options (e_log e))))
    (match first with Some n => {[ net_name n := endpoint n ]} | None => cc_endpoints b end).

Definition port_key (p : Port) : string := Itoa (port_container p) +:+ "/" +:+ port_protocol p.
Definition add_binding (m : gmap string (list portBinding)) (p : Port) : gmap string (list portBinding) :=
  if port_host p >? 0
  then <[port_key p := default [] (m !! port_key p) ++ [mkBinding (port_host_ip p) (Itoa (port_host p))]]> m
  else m.

Definition mounts_of (s : DeploymentService) : list Mount := default [] (s_mounts s).

Definition env_lines (env : gmap string string) : list string :=
  map (fun k => k +:+ "=" +:+ default "" (env !! k)) (merge_sort str_before (elements (dom env))).

Definition compose_labels (req : DeploymentRequest) (s : DeploymentService) : gmap string string :=
  list_to_map [("com.docker.compose.project", dr_project req); ("com.docker.compose.service", s_name s);
    ("com.docker.compose.container-number", "1"); ("com.docker.compose.oneoff", "False");
    ("com.docker.compose.config-hash", ""); ("kyyard.deployment", dr_deployment req);
    ("kyyard.revision", Itoa (dr_revision req))].

Definition createBody (req : DeploymentRequest) (s : DeploymentService) (networkMode : string) : containerCreate :=
  let image := match s_pull s with
               | Some p => if bool_decide (pull_tag p = "") then pull_reference p else pull_tag p +:+ "@" +:+ pull_digest p
               | None => s_image s
               end in
  let projectNetwork := dr_project req +:+ "_default" in
  let on_project := bool_decide (networkMode = projectNetwork) in
  let body := mkCreate image (env_lines (s_env s)) (compose_labels req s) (list_to_set (map port_key (s_ports s)))
    [] [] "" "" "" "" false false "" None None (if on_project then projectNetwork else "")
    (foldl add_binding ∅ (s_ports s))
    (map (fun m => mkMountSpec (m_kind m) (m_source m) (m_target m) (m_readonly m)) (mounts_of s))
    (if bool_decide (s_restart s = "") then "no" else s_restart s) 0 0 0 0 0 false false false [] [] [] [] [] [] None
    (if on_project then {[ projectNetwork := mkEndpoint [s_name s] None ]} else ∅) in
  match s_explicit s with
  | Some e =>
      explicitBody (mkCreate image (cc_env body) ∅ (cc_exposed body) [] [] "" "" "" "" false false "" None None ""
        (cc_bindings body) (cc_mounts body) (cc_restart body) 0 0 0 0 0 false false false [] [] [] [] [] [] None ∅) e
  | None => body
  end.

(** What the explicit create keeps of the container it replaces: its MAC address, and its pinned
    tag when the image stays. *)
Definition with_kept (b : containerCreate) (mac : string) (image : string) : containerCreate :=
  mkCreate image (cc_env b) (cc_labels b) (cc_exposed b) (cc_cmd b) (cc_entrypoint b) (cc_user b) (cc_workdir b) (cc_hostname b)
    mac (cc_tty b) (cc_open_stdin b) (cc_stop_signal b) (cc_stop_timeout b) (cc_healthcheck b) (cc_network_mode b) (cc_bindings b)
    (cc_mounts b) (cc_restart b) (cc_retries b) (cc_memory b) (cc_memory_swap b) (cc_nano_cpus b) (cc_pids b) (cc_privileged b)
    (cc_readonly_rootfs b) (cc_init b) (cc_cap_add b) (cc_cap_drop b) (cc_security_opt b) (cc_extra_hosts b) (cc_dns b)
    (cc_devices b) (cc_log b) (cc_endpoints b).

(** ** Image names *)

Definition containerImageReference (reference : string) : string :=
  match cut_at "@" reference with
  | Some (tag, digest) =>
      if ValidImageReference tag && ValidImageReference ("image@" +:+ digest) then
        let pin := (SplitImageReference tag).2 in
        if negb (bool_decide (pin = "")) && negb (HasPrefix pin "sha256:") then tag else reference
      else reference
  | None => reference
  end.

Definition canonicalRepository (name : string) : string :=
  if HasPrefix name "docker.io/" then TrimPrefix (TrimPrefix name "docker.io/") "library/"
  else if HasPrefix name "index.docker.io/" then TrimPrefix (TrimPrefix name "index.docker.io/") "library/"
  else TrimPrefix name "library/".

Example ns_one_half : ns (1 # 2) = 500000000. Proof. vm_compute. reflexivity. Qed.
Example ns_tenth : ns (3602879701896397 # 36028797018963968) = 100000000. Proof. vm_compute. reflexivity. Qed.
