(* ===== verification/DockerRun.v ===== *)
(** * Running a deployment on a Docker host

    internal/runtime/docker/deploy.go, deploy_pull.go, deploy_volume.go and remove.go: the agent's
    side of an apply or a removal, one Engine call at a time.

    The Engine is outside the program: [World] answers every call from the history of the run, in
    any way at all, loses answers, and decides how long everything takes.  A run is a function on
    [Run], the [deployRun] of the code with the events so far, newest first.  A [Call] is the
    request with its parameters decoded; the paths are escaped by the code.  The time a context
    leaves a call is not modelled: a call may be lost at any time, for any [Loss].

    [mono] is the monotonic clock, which never goes back and which a sleep moves by at least its
    length; [wall] is the wall clock a deadline is compared with, which is not constrained. *)
From Stdlib Require Import ZArith Lia Ascii String.
From stdpp Require Import base gmap sets strings list.
From S2P Require Import Prelude.
From S2P Require Import Grammar.
From S2P Require Import Inspection.
From S2P Require Import Frame.
From S2P Require Import Engine.
From S2P Require Import ContainerBody.

(** ** Calls and answers *)

Inductive Call :=
| GetInfo
| GetContainer (ref : string)
| GetImage (ref : string)
| GetVolume (name : string)
| CreateVolume (name : string) (labels : gmap string string)
| PullImage (name digest : string) (auth : option (RegistryAuth * string))
| TagImage (id repo tag : string)
| RenameContainer (id name : string)
| CreateContainer (name : string) (body : containerCreate)
| ConnectNetwork (network container : string) (ep : endpointSettings)
| StopContainer (id : string) (grace : Z)
| StartContainer (id : string)
| PauseContainer (id : string)
| DeleteContainer (id : string) (force : bool)
| WaitContainer (id : string).

(** Why a call has no answer: the run was cancelled, its time was up, or anything else.  A body
    that does not decode is such a loss. *)
Inductive Loss := Cancelled | Expired | Broken.

(** One decoded line of a pull's progress: its error and the error's detail message. *)
Record PullLine := mkLine { pl_error : string; pl_message : string }.

Inductive Body :=
| NoBody
| InfoBody (d : daemon)
| ContainerBody (c : ContainerRead)
| ImageBody (i : ImageRead)
| VolumeBody (v : dockerVolume)
| CreatedBody (id : string)
| WaitBody (error : bool)
| PullBody (lines : list (option PullLine)) (ended : option Loss).

(** [Lost] with the status when the headers had arrived. *)
Inductive Reply := Lost (l : Loss) (status : Z) | Answered (status : Z) (b : Body).

Inductive Event :=
| Called (c : Call) (r : Reply)
| ReadWall (t : time)
| ReadMono (t : Z)
| Slept (d : Z)
| Began.

Record World := mkWorld {
  serve : list Event -> Call -> Reply;
  wall : list Event -> time;
  elapsed : list Event -> N;
  woken : list Event -> Z -> option Loss }.

(** The error of a call: [Unreported] is [errStateUnreported].  An answer's status is not zero. *)
Inductive CallErr := NoAnswer (l : Loss) | StatusError (status : Z) | Unreported.
Definition statusOf (e : CallErr) : Z := match e with StatusError s => s | _ => 0 end.
Definition StatusOK : Z := 200.
Definition StatusCreated : Z := 201.
Definition StatusNotModified : Z := 304.
Definition StatusNotFound : Z := 404.
Definition StatusConflict : Z := 409.

(** ** The run *)

Record Run := mkRun {
  events : list Event; mono : Z; outcome : string; rcode : string; steps : list DeploymentStep;
  services : list DeploymentIdentity; defaultRuntime : string; cgroupVersion : string; pullDeadline : Z;
  ensured : gset string; keepOnly : gset string; begun : bool }.
Definition new_run : Run := mkRun [] 0 "" "" [] [] "" "" 0 ∅ ∅ false.

Definition add_step (s : DeploymentStep) (r : Run) : Run :=
  mkRun (events r) (mono r) (outcome r) (rcode r) (steps r ++ [s]) (services r) (defaultRuntime r) (cgroupVersion r)
    (pullDeadline r) (ensured r) (keepOnly r) (begun r).
Definition with_outcome (o c : string) (r : Run) : Run :=
  mkRun (events r) (mono r) o c (steps r) (services r) (defaultRuntime r) (cgroupVersion r) (pullDeadline r) (ensured r)
    (keepOnly r) (begun r).
Definition with_steps (l : list DeploymentStep) (r : Run) : Run :=
  mkRun (events r) (mono r) (outcome r) (rcode r) l (services r) (defaultRuntime r) (cgroupVersion r) (pullDeadline r)
    (ensured r) (keepOnly r) (begun r).
Definition add_service (i : DeploymentIdentity) (r : Run) : Run :=
  mkRun (events r) (mono r) (outcome r) (rcode r) (steps r) (services r ++ [i]) (defaultRuntime r) (cgroupVersion r)
    (pullDeadline r) (ensured r) (keepOnly r) (begun r).
Definition with_daemon (d : daemon) (r : Run) : Run :=
  mkRun (events r) (mono r) (outcome r) (rcode r) (steps r) (services r) (d_default_runtime d) (d_cgroup_version d)
    (pullDeadline r) (ensured r) (keepOnly r) (begun r).
Definition with_pull_deadline (t : Z) (r : Run) : Run :=
  mkRun (events r) (mono r) (outcome r) (rcode r) (steps r) (services r) (defaultRuntime r) (cgroupVersion r) t (ensured r)
    (keepOnly r) (begun r).
Definition with_ensured (v : string) (r : Run) : Run :=
  mkRun (events r) (mono r) (outcome r) (rcode r) (steps r) (services r) (defaultRuntime r) (cgroupVersion r) (pullDeadline r)
    ({[v]} ∪ ensured r) (keepOnly r) (begun r).
Definition with_keep (v : string) (r : Run) : Run :=
  mkRun (events r) (mono r) (outcome r) (rcode r) (steps r) (services r) (defaultRuntime r) (cgroupVersion r) (pullDeadline r)
    (ensured r) ({[v]} ∪ keepOnly r) (begun r).
Definition with_begun (r : Run) : Run :=
  mkRun (events r) (mono r) (outcome r) (rcode r) (steps r) (services r) (defaultRuntime r) (cgroupVersion r) (pullDeadline r)
    (ensured r) (keepOnly r) true.

(** A run's code reads and changes the run. *)
Definition M (A : Type) : Type := Run -> A * Run.
#[export] Instance M_ret : MRet M := fun A a r => (a, r).
#[export] Instance M_bind : MBind M := fun A B k m r => k (m r).1 (m r).2.
Definition reads {A} (f : Run -> A) : M A := fun r => (f r, r).
Definition modify (f : Run -> Run) : M unit := fun r => (tt, f r).

(** ** A step's answer *)

Definition Answer : Type := string * string * string.
Definition succeeded : Answer := (OutcomeSucceeded, "", "").
Definition deny (code : string) : Answer := (OutcomeDenied, code, "").
Definition fail (code : string) : Answer := (OutcomeFailed, code, "").
Definition timed_out (code : string) : Answer := (OutcomeTimedOut, code, "").
Definition outcome_of (a : Answer) : string := a.1.1.

Definition outcomeFor (err : option CallErr) (status : Z) : Answer :=
  match (match err with Some e => if statusOf e =? 0 then Some e else None | None => None end) with
  | Some (NoAnswer Cancelled) => (OutcomeUnknown, "cancelled", "")
  | Some (NoAnswer Expired) => timed_out "runtime_timeout"
  | Some _ => fail "runtime_error"
  | None => if (status <? 100) || (status >? 599) then fail "runtime_error" else (OutcomeFailed, "runtime_status", Itoa status)
  end.
(** The answer of a read that failed: its own code for a missing object. *)
Definition missed (e : CallErr) (missing : Answer) : Answer :=
  if statusOf e =? StatusNotFound then missing else outcomeFor (Some e) (statusOf e).

Definition failedStep (o : string) : bool := negb (bool_decide (o = OutcomeSucceeded)) && negb (bool_decide (o = OutcomeSkipped)).
Definition unanswered (o : string) : bool := bool_decide (o = OutcomeUnknown) || bool_decide (o = OutcomeTimedOut).

(** The first code that would pass the bound ends the list. *)
Fixpoint unsupported_detail (detail : string) (codes : list string) : string :=
  match codes with
  | [] => detail
  | c :: l => if len detail + 1 + len c >? MaxDeploymentStepDetailBytes then detail
              else unsupported_detail (detail +:+ "," +:+ c) l
  end.
Definition unsupported (first : string) (rest : list string) : Answer :=
  (OutcomeDenied, "unsupported", unsupported_detail first rest).

(** [step]: [skip] is what the captured variables hold when the step does not run. *)
Definition step {A} (service stp : string) (skip : A) (run : M (Answer * A)) : M A := fun r =>
  if negb (bool_decide (outcome r = "")) then (skip, add_step (mkStep service stp OutcomeSkipped "" "") r)
  else
    let '(o, code, detail, a) := (run r).1 in
    let r' := (run r).2 in
    if bool_decide (o = OutcomeSucceeded) then (a, add_step (mkStep service stp o "" "") r')
    else (a, add_step (mkStep service stp o code detail) (with_outcome o "step_failed" r')).

Definition rollbackFailed (service : string) : M unit :=
  modify (add_step (mkStep service "rollback" OutcomeFailed "rollback_failed" "")).

Definition refused (deployment request : string) (e : FrameErr) : DeploymentResult :=
  let request := if ValidRequestID request then request else "" in
  match e with
  | ErrClockSkew => mkResult deployment request OutcomeFailed "clock_skew" [] []
  | _ => mkResult deployment request OutcomeDenied "invalid_request" [] []
  end.

(** ** Talking to the Engine *)

Section Engine.
Context (world : World).

Definition push (e : Event) (d : Z) (r : Run) : Run :=
  mkRun (e :: events r) (mono r + d + Z.of_N (elapsed world (e :: events r))) (outcome r) (rcode r) (steps r) (services r)
    (defaultRuntime r) (cgroupVersion r) (pullDeadline r) (ensured r) (keepOnly r) (begun r).
Definition call (c : Call) : M Reply := fun r => (serve world (events r) c, push (Called c (serve world (events r) c)) 0 r).
Definition now_wall : M time := fun r => (wall world (events r), push (ReadWall (wall world (events r))) 0 r).
Definition now_mono : M Z := fun r => (mono r, push (ReadMono (mono r)) 0 r).
(** A sleep the run's context may end. *)
Definition sleep (d : Z) : M (option Loss) := fun r =>
  match woken world (events r) d with
  | Some l => (Some l, push (Slept d) 0 r)
  | None => (None, push (Slept d) (Z.max 0 d) r)
  end.
Definition begin : M unit := fun r => if begun r then (tt, r) else (tt, push Began 0 (with_begun r)).
(** [time.Until] a wall clock deadline. *)
Definition until (deadline : time) : M Z := t ← now_wall; mret (time_sub deadline t).

Inductive got (A : Type) := Got (a : A) | Missed (e : CallErr).
Arguments Got {A}. Arguments Missed {A}.

(** [get] accepts 200 alone, and decodes it. *)
Definition get {A} (decode : Body -> option A) (c : Call) : M (got A) :=
  x ← call c;
  mret (match x with
        | Lost l _ => Missed (NoAnswer l)
        | Answered s b => if s =? StatusOK then match decode b with Some a => Got a | None => Missed (NoAnswer Broken) end
                          else Missed (StatusError s)
        end).
Definition get_container (ref : string) : M (got ContainerRead) :=
  get (fun b => match b with ContainerBody c => Some c | _ => None end) (GetContainer ref).
Definition get_image (ref : string) : M (got ImageRead) :=
  get (fun b => match b with ImageBody i => Some i | _ => None end) (GetImage ref).
Definition get_volume (name : string) : M (got dockerVolume) :=
  get (fun b => match b with VolumeBody v => Some v | _ => None end) (GetVolume name).

(** [post] and [del]: the status, or the error. *)
Definition post (c : Call) : M (Z * option CallErr) :=
  x ← call c;
  mret (match x with Lost l _ => (0, Some (NoAnswer l)) | Answered s _ => (s, None) end).
Definition isNone {A} (o : option A) : bool := negb (isSome o).
(** Accepted: no error and a status below 400. *)
Definition accepted (x : Z * option CallErr) : bool := isNone x.2 && (x.1 <? 400).

(** [postJSON]: the status, the error and what was decoded. *)
Definition postJSON {A} (decode : Body -> option A) (c : Call) : M (Z * option CallErr * option A) :=
  x ← call c;
  mret (match x with
        | Lost l s => (s, Some (NoAnswer l), None)
        | Answered s b =>
            if 400 <=? s then (s, None, None)
            else match decode b with Some a => (s, None, Some a) | None => (s, Some (NoAnswer Broken), None) end
        end).

(** ** Reading and restoring a container *)

(** [containerNow], with its state. *)
Definition current (id : string) : M (got (ContainerRead * StateRead)) :=
  x ← get_container id;
  mret (match x with
        | Missed e => Missed e
        | Got c => match c_state c with Some st => Got (c, st) | None => Missed Unreported end
        end).

Definition discard (created : string) (force : bool) : M bool :=
  '(status, err) ← post (DeleteContainer created force);
  mret (isNone err && ((status <? 400) || (status =? StatusNotFound))).

Definition settle (s : DeploymentService) (created o : string) : M bool :=
  if unanswered o then
    x ← current (if bool_decide (created = "") then s_container s else created);
    match x with
    | Missed e => mret (statusOf e =? StatusNotFound)
    | Got (now, st) =>
        if negb (ValidExecID (c_id now)) then mret false
        else if negb (bool_decide (sr_status st = "created"))
             || (bool_decide (created = "")
                 && (negb (bool_decide (c_name now = "/" +:+ s_container s)) || negb (bool_decide (c_image now = s_image s))
                     || bool_decide (c_id now = it_container (s_replaces s))))
        then mret true
        else discard (c_id now) false
    end
  else discard created true.

Definition parkedSuffix : string := ".kyyard-prev-".
Definition parked (containerName deployment : string) : string := containerName +:+ parkedSuffix +:+ take_str 8 deployment.
(** [strings.Cut] on the suffix: what precedes its first occurrence. *)
Fixpoint cut_suffix (s : string) : string :=
  if HasPrefix s parkedSuffix then ""
  else match s with String c s' => String c (cut_suffix s') | EmptyString => "" end.

Record prepared := mkPrepared {
  p_s : DeploymentService; p_name : string; p_network_mode : string; p_before : ContainerRead }.
Definition old_of (p : prepared) : string := it_container (s_replaces (p_s p)).

Definition unpark (p : prepared) : M bool :=
  x ← post (RenameContainer (old_of p) (cut_suffix (p_name p)));
  mret (accepted x).

Definition revive (p : prepared) (paused : bool) : M bool :=
  x ← post (StartContainer (old_of p));
  if negb (accepted x) then mret false
  else if negb paused then mret true
  else (x ← post (PauseContainer (old_of p)); mret (accepted x)).

Definition unparkIfParked (p : prepared) (name : string) : M bool :=
  x ← current (old_of p);
  match x with
  | Missed _ => mret false
  | Got (now, _) => if negb (bool_decide (c_name now = "/" +:+ name)) then mret true else unpark p
  end.

(** [Some b] is an answer, [None] an error. *)
Definition waitStopped (id : string) : M (option bool) :=
  x ← call (WaitContainer id);
  mret (match x with
        | Lost Expired _ => Some false
        | Lost _ _ => None
        | Answered s b => if negb (s =? StatusOK) then None else match b with WaitBody false => Some true | _ => None end
        end).

Definition reviveIfStopped (p : prepared) (paused : bool) (grace : Z) : M bool :=
  t0 ← now_mono;
  x ← current (old_of p);
  match x with
  | Missed _ => mret false
  | Got (_, st) =>
      if sr_running st then
        t1 ← now_mono;
        if waitBound (stopWait + extraGrace grace) (t0 + (rollbackBudget + extraGrace grace) - t1) operationBudget =? 0
        then mret true
        else
          w ← waitStopped (old_of p);
          match w with
          | None => mret false
          | Some false => mret true
          | Some true => revive p paused
          end
      else revive p paused
  end.

(** ** Watching a start *)

Definition watch_ended (c : ContainerRead) : option Answer :=
  match c_state c, c_restarts c with
  | Some st, Some n =>
      if (n >? 0) || negb (sr_running st) || bool_decide (sr_status st ∈ ["exited"; "dead"; "restarting"])
         || bool_decide (sr_health st = Some "unhealthy")
      then Some (fail "exited_early")
      else match sr_health st with
           | Some h => if bool_decide (h ∈ [""; "starting"; "none"]) then None else Some succeeded
           | None => None
           end
  | _, _ => Some (fail "exited_early")
  end.

(** One read and one sleep per round; see [watch_fuel] for the rounds it can need. *)
Fixpoint watch_loop (fuel : nat) (id : string) (end_ : Z) : M Answer :=
  match fuel with
  | O => mret succeeded
  | S fuel' =>
      x ← get_container id;
      match x with
      | Missed e => mret (outcomeFor (Some e) (statusOf e))
      | Got c =>
          match watch_ended c with
          | Some a => mret a
          | None =>
              t ← now_mono;
              if end_ <=? t then mret succeeded
              else
                t' ← now_mono;
                w ← sleep (Z.min startPoll (end_ - t'));
                match w with
                | Some l => mret (outcomeFor (Some (NoAnswer l)) 0)
                | None => watch_loop fuel' id end_
                end
          end
      end
  end.
Definition watchRounds : nat := 11.
Definition watch (id : string) : M Answer :=
  t ← now_mono; watch_loop watchRounds id (t + startWatch).

(** ** Pulls *)

(** [scanPullStream]: the last error line, and how the stream ended. *)
Definition pull_failure (lines : list (option PullLine)) : string :=
  foldl (fun acc l => match l with
                      | Some x => if bool_decide (pl_error x = "") then acc
                                  else if bool_decide (pl_message x = "") then pl_error x else pl_message x
                      | None => acc
                      end) "" lines.

Definition tag (tagRef id : string) : M (Answer * string) :=
  if bool_decide (tagRef = "") then mret (succeeded, id)
  else
    let '(repo, t) := SplitImageReference tagRef in
    '(status, err) ← post (TagImage id repo t);
    mret (if isSome err then (outcomeFor err 0, "")
          else if negb (status =? StatusCreated) then (fail "pull_failed", "") else (succeeded, id)).

Definition pull_proved (reference : string) (im : ImageRead) : bool :=
  let '(name, digest) := default (reference, "") (cut_at "@" reference) in
  (len (i_id im) =? 71) && HasPrefix (i_id im) "sha256:" && ValidImageReference (i_id im)
  && existsb (fun rd => match cut_at "@" rd with
                        | Some (n, d) => bool_decide (d = digest) && bool_decide (canonicalRepository n = canonicalRepository name)
                        | None => false
                        end) (i_repo_digests im).

Definition pull (registries : gmap string RegistryAuth) (p : ImagePull) : M (Answer * string) :=
  deadline ← reads pullDeadline;
  t ← now_mono;
  if deadline - t <? callBudget then mret (timed_out "deadline", "")
  else
    let '(name, digest) := default (pull_reference p, "") (cut_at "@" (pull_reference p)) in
    x ← call (PullImage name digest (option_map (fun a => (a, Host p)) (registries !! Host p)));
    match x with
    | Lost l _ => mret (outcomeFor (Some (NoAnswer l)) 0, "")
    | Answered s b =>
        if (s =? 401) || (s =? 403) then mret (fail "pull_unauthorized", "")
        else if s =? StatusNotFound then mret (fail "pull_not_found", "")
        else if negb (s =? StatusOK) then mret (fail "pull_failed", "")
        else
          let '(failure, ended) := match b with PullBody lines ended => (pull_failure lines, ended) | _ => ("", Some Broken) end in
          match ended with
          | Some l => mret (outcomeFor (Some (NoAnswer l)) 0, "")
          | None =>
              if negb (bool_decide (failure = "")) then mret (fail "pull_failed", "")
              else
                y ← get_image (pull_reference p);
                match y with
                | Missed e => mret (outcomeFor (Some e) (statusOf e), "")
                | Got im => if pull_proved (pull_reference p) im then tag (pull_tag p) (i_id im)
                            else mret (fail "pull_digest_mismatch", "")
                end
          end
    end.
End Engine.
Arguments Got {A}. Arguments Missed {A}.
