(* ===== verification/DockerDeploy.v ===== *)
(** * The phases of a deployment on a Docker host

    internal/runtime/docker/deploy.go ([Deploy], [prepare], [image], [replace], [create],
    [start], [rollback], [undo], [reclaim]), deploy_volume.go ([ensureVolumes]) and remove.go
    ([Remove], [removeTarget]), over the calls of DockerRun.v. *)
From Stdlib Require Import ZArith Lia Ascii String.
From stdpp Require Import base gmap sets strings list.
From S2P Require Import Prelude.
From S2P Require Import Grammar.
From S2P Require Import Inspection.
From S2P Require Import Frame.
From S2P Require Import Engine.
From S2P Require Import ContainerBody.
From S2P Require Import DockerRun.

(** An explicit frame that creates a container rather than replacing one. *)
Definition run (req : DeploymentRequest) (s : DeploymentService) : bool :=
  dr_explicit req && bool_decide (s_replaces s = no_target).
Definition acknowledged (s : DeploymentService) : list string :=
  match s_explicit s with Some e => e_acknowledged e | None => [] end.
Definition explicit_labels (s : DeploymentService) : gmap string string :=
  match s_explicit s with Some e => e_labels e | None => ∅ end.
Definition unacknowledgedBind (s : DeploymentService) : bool :=
  existsb (fun m => bool_decide (m_kind m = MountBind) && negb (bool_decide (m_source m ∈ acknowledged s))) (mounts_of s).
Definition with_image (s : DeploymentService) (id : string) : DeploymentService :=
  mkService (s_name s) (s_container s) id (s_replaces s) (s_restart s) (s_ports s) (s_env s) (s_pull s) (s_mounts s)
    (s_secret_keys s) (s_volumes s) (s_cluster_ip s) (s_explicit s).

(** The container read is the one the frame names. *)
Definition is_target (c : ContainerRead) (t : InspectionTarget) : bool :=
  bool_decide (c_id c = it_container t) && bool_decide (c_image c = it_image t) && (c_created c =? it_created t).

(** The binds and keep-only volumes of a service its old container does not already have. *)
Definition bind_kept (s : DeploymentService) (old : list inspectedMount) (m : Mount) : bool :=
  bool_decide (m_source m ∈ acknowledged s)
  || existsb (fun o => bool_decide (im_type o = "bind") && bool_decide (im_source o = m_source m)
                       && bool_decide (im_destination o = m_target m)
                       && (Bool.eqb (im_rw o) (negb (m_readonly m)) || (isSome (s_explicit s) && m_readonly m))) old.
Fixpoint mounts_refused (s : DeploymentService) (keep_only : gset string) (old : list inspectedMount) (l : list Mount) : option Answer :=
  match l with
  | [] => None
  | m :: l' =>
      if bool_decide (m_kind m = MountBind) && negb (bind_kept s old m) then Some (deny "bind_missing")
      else if bool_decide (m_kind m = MountVolume) && bool_decide (m_source m ∈ keep_only) && negb (keeps old m)
      then Some (deny "volume_mount_missing")
      else mounts_refused s keep_only old l'
  end.

Section Deploy.
Context (world : World) (self : string) (req : DeploymentRequest).

(** ** Phase one *)

Definition volume_step (s : DeploymentService) (old : list inspectedMount) (m : Mount) : M (Answer * unit) :=
  x ← get_volume world (m_source m);
  match x with
  | Got v =>
      if owned v (dr_project req) || (dr_explicit req && negb (hostBacked v)) then mret (succeeded, tt)
      else if negb (mountsVolume old (m_source m)) then mret (deny "volume_not_owned", tt)
      else if existsb (fun sm => bool_decide (m_kind sm = MountVolume) && bool_decide (m_source sm = m_source m)
                                 && negb (keeps old sm)) (mounts_of s)
      then mret (deny "volume_mount_missing", tt)
      else (_ ← modify (with_keep (m_source m)); mret (succeeded, tt))
  | Missed e =>
      if negb (statusOf e =? StatusNotFound) then mret (outcomeFor (Some e) (statusOf e), tt)
      else
        let prefix := dr_project req +:+ "_" in
        let short := if HasPrefix (m_source m) prefix then TrimPrefix (m_source m) prefix else "" in
        if negb (dr_explicit req) && bool_decide (short = "") then mret (deny "volume_missing", tt)
        else
          let labels : gmap string string :=
            if dr_explicit req then ∅
            else list_to_map [("com.docker.compose.project", dr_project req); ("com.docker.compose.volume", short)] in
          '(status, err, v) ← postJSON world (fun b => match b with VolumeBody v => Some v | _ => None end)
                                (CreateVolume (m_source m) labels);
          mret (if isSome err then outcomeFor err status
                else if negb (status =? StatusCreated) then fail "volume_create_failed"
                else match v with
                     | Some v => if (negb (dr_explicit req) && negb (owned v (dr_project req))) || hostBacked v
                                 then deny "volume_not_owned" else succeeded
                     | None => deny "volume_not_owned"
                     end, tt)
  end.

Fixpoint ensure_loop (s : DeploymentService) (old : list inspectedMount) (l : list Mount) : M unit :=
  match l with
  | [] => mret tt
  | m :: l' =>
      done ← reads ensured;
      if negb (bool_decide (m_kind m = MountVolume)) || bool_decide (m_source m ∈ done) then ensure_loop s old l'
      else
        _ ← modify (with_ensured (m_source m));
        _ ← step (s_name s) "volume" tt (volume_step s old m);
        ensure_loop s old l'
  end.
Definition ensureVolumes (s : DeploymentService) (old : list inspectedMount) : M unit := ensure_loop s old (mounts_of s).

Definition image_step (s : DeploymentService) : M (Answer * unit) :=
  x ← get_image world (s_image s);
  mret (match x with
        | Missed e => missed e (fail "pinned_image_missing")
        | Got im => if negb (bool_decide (i_id im = s_image s)) then fail "image_identity_mismatch" else succeeded
        end, tt).
(** The service with the image its replacement is created from. *)
Definition image (s : DeploymentService) : M DeploymentService :=
  match s_pull s with
  | Some p => step (s_name s) "pull" s ('(a, id) ← pull world (dr_registries req) p; mret (a, with_image s id))
  | None => _ ← step (s_name s) "image" tt (image_step s); mret s
  end.

(** What the precondition's variables hold: the read, the network mode and the old mounts. *)
Definition Seen : Type := ContainerRead * string * list inspectedMount.
Definition unseen : Seen := (no_read, "", []).

(** The checks on the old container before its image is compared. *)
Definition described (s : DeploymentService) (runtime cgroup : string) (keep_only : gset string) (before : ContainerRead) : option Answer :=
  if negb (is_target before (s_replaces s)) then Some (deny "identity_mismatch")
  else match reported before with
  | None => Some (deny "configuration_unreported")
  | Some rep =>
      if installerManaged (entries (cfg_labels (rp_config rep))) || installerManaged (explicit_labels s)
      then Some (deny "application_managed")
      else
        let codes := undescribed rep (cfg_user (rp_config rep)) (dr_project req +:+ "_default") runtime in
        let checked :=
          if dr_explicit req then
            match uncarried before cgroup (list_to_set (List.filter (fun c => bool_decide (c ∈ ConfigurationOnlyCodes)) codes)) with
            | Some set => if overCap before rep then None else Some (orderedCodes set)
            | None => None
            end
          else Some codes in
        match checked with
        | None => Some (deny "configuration_unreported")
        | Some (c :: l) => Some (unsupported c l)
        | Some [] => mounts_refused s keep_only (rp_mounts rep) (mounts_of s)
        end
  end.

Definition network_mode (c : ContainerRead) : string := match c_host c with Some h => hc_network_mode h | None => "" end.
Definition old_mounts (c : ContainerRead) : list inspectedMount := items (mountList c).

(** The user and the defaults a container was given at run time. *)
Definition image_codes (before : ContainerRead) (im : ImageRead) : list string :=
  match c_config before with
  | Some g => (if bool_decide (cfg_user g = i_user im) then [] else ["user"])
              ++ (if differs (cfg_defaults g) (i_defaults im) then ["image_config"] else [])
  | None => []
  end.

Definition precondition (s : DeploymentService) : M (Answer * Seen) :=
  if isSelf self (it_container (s_replaces s)) then mret (deny "self_protected", unseen)
  else
    runtime ← reads defaultRuntime;
    cgroup ← reads cgroupVersion;
    keep_only ← reads keepOnly;
    if bool_decide (runtime = "") && negb (dr_explicit req) then mret (fail "runtime_unreadable", unseen)
    else
      x ← get_container world (it_container (s_replaces s));
      match x with
      | Missed e => mret (missed e (deny "container_missing"), unseen)
      | Got before =>
          match described s runtime cgroup keep_only before with
          | Some a => mret (a, (before, "", []))
          | None =>
              let seen : Seen := (before, network_mode before, old_mounts before) in
              if dr_explicit req then mret (succeeded, seen)
              else
                y ← get_image world (it_image (s_replaces s));
                mret (match y with
                      | Missed e => missed e (deny "image_missing")
                      | Got im => match image_codes before im with
                                  | c :: l => unsupported c l
                                  | [] => succeeded
                                  end
                      end, seen)
          end
      end.

Definition prepare (s : DeploymentService) : M prepared :=
  if run req s then
    if installerManaged (explicit_labels s) then
      _ ← step (s_name s) "precondition" tt (mret (deny "application_managed", tt));
      mret (mkPrepared s "" "" no_read)
    else if negb (unacknowledgedBind s) then
      _ ← ensureVolumes s [];
      s' ← image s;
      mret (mkPrepared s' "" "" no_read)
    else mret (mkPrepared s "" "" no_read)
  else
    '(before, mode, old) ← step (s_name s) "precondition" unseen (precondition s);
    _ ← ensureVolumes s old;
    s' ← image s;
    mret (mkPrepared s' (TrimPrefix (c_name before) "/") mode before).

(** ** Putting the host back *)

(** [undo], with [settleRun]: the container this run made is removed and the old one named again. *)
Definition undo (p : prepared) (created o : string) : M bool :=
  discarded ← (if negb (bool_decide (created = "")) then discard world created true
               else if unanswered o then settle world (p_s p) "" o
               else mret true);
  if negb discarded then mret false
  else if run req (p_s p) then mret true else unpark world p.

Definition recode_last (l : list DeploymentStep) : list DeploymentStep :=
  match rev l with
  | s :: l' => rev (mkStep (st_service s) (st_step s) (st_outcome s) "start_failed_rolled_back" "" :: l')
  | [] => []
  end.

Definition rollback (p : prepared) (created : string) (running paused : bool) : M unit :=
  gone ← discard world created true;
  restored ← (if negb gone then mret false
              else
                unparked ← unpark world p;
                revived ← (if negb running then mret true else revive world p paused);
                mret (revived && unparked));
  if negb restored then rollbackFailed (s_name (p_s p))
  else
    l ← reads steps;
    _ ← modify (with_steps (recode_last l));
    modify (add_step (mkStep (s_name (p_s p)) "rollback" OutcomeSucceeded "" "")).

Definition reclaim (p : prepared) : M bool :=
  let s := p_s p in
  let mark := s_container s +:+ parkedSuffix in
  let parkedBy := TrimPrefix (p_name p) mark in
  if run req s || negb (HasPrefix (p_name p) mark) || bool_decide (parkedBy = "") then mret false
  else
    x ← current world (s_container s);
    match x with
    | Missed _ => mret false
    | Got (now, st) =>
        let labels := match c_config now with Some g => entries (cfg_labels g) | None => ∅ end in
        if negb (ValidExecID (c_id now)) || bool_decide (c_id now = it_container (s_replaces s))
           || negb (bool_decide (c_name now = "/" +:+ s_container s)) || negb (bool_decide (sr_status st = "created"))
           || installerManaged labels
           || (negb (dr_explicit req) && negb (HasPrefix (default "" (labels !! "kyyard.deployment")) parkedBy))
        then mret false
        else discard world (c_id now) false
    end.

(** ** Phase two *)

Definition create_body (p : prepared) : containerCreate :=
  let s := p_s p in
  let body := createBody req s (p_network_mode p) in
  match c_config (p_before p) with
  | Some g =>
      if dr_explicit req then
        with_kept body (cfg_mac g)
          (if isNone (s_pull s) && bool_decide (c_image (p_before p) = s_image s)
              && negb (bool_decide (containerImageReference (cfg_image g) = cfg_image g))
           then cfg_image g else cc_image body)
      else body
  | None => body
  end.

Definition post_create (p : prepared) : M (Z * option CallErr * option string) :=
  postJSON world (fun b => match b with CreatedBody id => Some id | _ => None end)
    (CreateContainer (s_container (p_s p)) (create_body p)).

Fixpoint connect_all (created : string) (l : list NetworkAttachmentSpec) : M Answer :=
  match l with
  | [] => mret succeeded
  | n :: l' =>
      x ← call world (ConnectNetwork (net_name n) created (endpoint n));
      match x with
      | Answered s _ => if negb (s =? StatusOK) then mret (outcomeFor None s) else connect_all created l'
      | Lost l s => mret (outcomeFor (Some (NoAnswer l)) s)
      end
  end.

(** The create request and the networks after it: the answer and the ID, "" before it is known. *)
Definition create_calls (p : prepared) : M (Answer * string) :=
  first ← post_create p;
  '(status, err, out) ← (if first.1.1 =? StatusConflict then
                            again ← reclaim p;
                            if again : bool then post_create p else mret first
                          else mret first);
  if isSome err || negb (status =? StatusCreated) then
    mret (if status =? StatusConflict then fail "name_taken" else outcomeFor err status, "")
  else
    match out with
    | Some id =>
        if negb (ValidExecID id) then mret (fail "identity_unusable", "")
        else match s_explicit (p_s p) with
             | Some e => a ← connect_all id (attachments e).2; mret (a, id)
             | None => mret (succeeded, id)
             end
    | None => mret (fail "identity_unusable", "")
    end.

(** The create step: its answer, the ID and whether the host was put back.  The second component
    of the guard is [sent]. *)
Definition create_step (p : prepared) : M (Answer * (string * bool)) :=
  let s := p_s p in
  '(a, created, sent) ←
    (if run req s then
       if unacknowledgedBind s then mret (deny "bind_missing", "", false)
       else
         left ← until world (dr_deadline req);
         if left <? replaceBudget then mret (timed_out "deadline", "", false)
         else (_ ← begin world; '(a, id) ← create_calls p; mret (a, id, true))
     else ('(a, id) ← create_calls p; mret (a, id, true)));
  let o := outcome_of a in
  restored ← (if bool_decide (o = OutcomeSucceeded) then mret true
              else if run req s && bool_decide (created = "") then
                if negb sent || negb (unanswered o) then mret true else settle world s "" o
              else undo p created o);
  mret (a, (created, restored)).

Definition create (p : prepared) : M string :=
  '(created, restored) ← step (s_name (p_s p)) "create" ("", true) (create_step p);
  _ ← (if restored : bool then mret tt else rollbackFailed (s_name (p_s p)));
  mret created.

Definition identity_of (s : DeploymentService) (c : ContainerRead) : DeploymentIdentity :=
  mkDIdentity (s_name s) (c_id c) (c_image c) (c_created c) (match s_pull s with Some p => pull_digest p | None => "" end)
    "" "" "" "" 0.

(** The start step: its answer and whether the container was up. *)
Definition start_step (s : DeploymentService) (created : string) (watched : bool) : M (Answer * bool) :=
  '(status, err) ← post world (StartContainer created);
  if isSome err || ((400 <=? status) && negb (status =? StatusNotModified)) then mret (outcomeFor err status, false)
  else
    w ← (if watched then watch world created else mret succeeded);
    if negb (bool_decide (outcome_of w = OutcomeSucceeded)) then mret (w, false)
    else
      x ← get_container world created;
      match x with
      | Missed e => mret (outcome_of (outcomeFor (Some e) (statusOf e)), "identity_unreadable", created, true)
      | Got after =>
          if negb (bool_decide (c_id after = created)) || negb (bool_decide (c_image after = s_image s))
             || negb (target_validate (mkTarget (c_id after) (c_image after) (c_created after) no_workload))
          then mret (OutcomeFailed, "identity_unverified", created, true)
          else (_ ← modify (add_service (identity_of s after)); mret (succeeded, true))
      end.

(** The outcome of the step is kept for the caller; a skipped one is [OutcomeSkipped]. *)
Definition start (s : DeploymentService) (created : string) (watched : bool) : M (string * bool) :=
  step (s_name s) "start" (OutcomeSkipped, false) ('(a, up) ← start_step s created watched; mret (a, (outcome_of a, up))).

(** The old container's state at the recheck: paused, running, and its stop grace. *)
Definition recheck_step (p : prepared) (later : Z) : M (Answer * (bool * bool * Z)) :=
  let s := p_s p in
  let budget := replaceBudget + rollbackBudget + watchBudget in
  let unread := (false, false, stopGrace) in
  left ← until world (dr_deadline req);
  if left <? budget then mret (timed_out "deadline", unread)
  else
    _ ← begin world;
    x ← get_container world (it_container (s_replaces s));
    match x with
    | Missed e => mret (missed e (deny "container_missing"), unread)
    | Got now =>
        if installerManaged (match c_config now with Some g => entries (cfg_labels g) | None => ∅ end)
        then mret (deny "application_managed", unread)
        else if negb (is_target now (s_replaces s)) || negb (sameConfiguration (p_before p) now)
                || (dr_explicit req && negb (sameKeys (p_before p) now))
        then mret (deny "configuration_drift", unread)
        else
          let paused := match c_state now with Some st => sr_paused st | None => false end in
          let running := match c_state now with Some st => sr_running st | None => false end in
          match c_config now with
          | None => mret (succeeded, (paused, running, stopGrace))
          | Some _ =>
              left ← until world (dr_deadline req);
              mret (succeeded, (paused, running, fitGrace (graceOf (c_stop_timeout now)) (Z.quot (left - (1 + later) * budget) 2)))
          end
    end.

(** The rename step, and whether an unanswered one was put back. *)
Definition rename_step (p : prepared) : M (Answer * bool) :=
  let name := parked (s_container (p_s p)) (dr_deployment req) in
  a ← (if bool_decide (p_name p = name) then mret succeeded
       else
         '(status, err) ← post world (RenameContainer (old_of p) name);
         mret (if isSome err || (400 <=? status) then
                 if status =? StatusConflict then fail "name_reserved" else outcomeFor err status
               else succeeded));
  unparked ← (if unanswered (outcome_of a) then unparkIfParked world p name else mret true);
  mret (a, unparked).

(** The stop step: whether the old container was running, and whether the host was put back. *)
Definition stop_step (p : prepared) (created : string) (paused wasRunning : bool) (grace : Z) : M (Answer * (bool * bool)) :=
  '(status, err) ← post world (StopContainer (old_of p) grace);
  if isSome err || ((400 <=? status) && negb (status =? StatusNotModified)) then
    let a := outcomeFor err status in
    undone ← undo p created "";
    revived ← (if negb (unanswered (outcome_of a)) || negb wasRunning then mret true
               else reviveIfStopped world p paused grace);
    mret (a, (false, revived && undone))
  else mret (succeeded, (negb (status =? StatusNotModified), true)).

Definition remove_step (p : prepared) : M (Answer * unit) :=
  '(status, err) ← post world (DeleteContainer (old_of p) false);
  mret (if isSome err || (400 <=? status) then outcomeFor err status else succeeded, tt).

Definition replace (p : prepared) (later : Z) : M unit :=
  let s := p_s p in
  if run req s then
    created ← create p;
    '(o, up) ← start s created false;
    if failedStep o && negb up then
      settled ← settle world s created o;
      if settled : bool then mret tt else rollbackFailed (s_name s)
    else mret tt
  else
    '(paused, wasRunning, grace) ← step (s_name s) "recheck" (false, false, stopGrace) (recheck_step p later);
    unparked ← step (s_name s) "rename" true (rename_step p);
    _ ← (if unparked : bool then mret tt else rollbackFailed (s_name s));
    created ← create p;
    '(running, restored) ← step (s_name s) "stop" (false, true) (stop_step p created paused wasRunning grace);
    _ ← (if restored : bool then mret tt else rollbackFailed (s_name s));
    '(o, _) ← start s created running;
    _ ← (if failedStep o then rollback p created running paused else mret tt);
    step (s_name s) "remove" tt (remove_step p).

(** ** The whole run *)

Fixpoint prepare_all (l : list DeploymentService) : M (list prepared) :=
  match l with
  | [] => mret []
  | s :: l' => p ← prepare s; ps ← prepare_all l'; mret (p :: ps)
  end.
Fixpoint replace_all (l : list prepared) : M unit :=
  match l with
  | [] => mret tt
  | p :: l' => _ ← replace p (llen l'); replace_all l'
  end.

Definition read_daemon : M unit :=
  x ← get world (fun b => match b with InfoBody d => Some d | _ => None end) GetInfo;
  match x with
  | Got d => if bool_decide (d_default_runtime d = "") then mret tt else modify (with_daemon d)
  | Missed _ => mret tt
  end.

Definition result_of (deployment request : string) (r : Run) : DeploymentResult :=
  mkResult deployment request (if bool_decide (outcome r = "") then OutcomeSucceeded else outcome r) (rcode r) (steps r) (services r).

Definition deploy_body : M unit :=
  _ ← read_daemon;
  left ← until world (dr_deadline req);
  t ← now_mono world;
  _ ← modify (with_pull_deadline (t + pullPhase (left - rollbackBudget - watchBudget)));
  ready ← prepare_all (dr_services req);
  replace_all ready.

Definition Deploy : M DeploymentResult :=
  t ← now_wall world;
  match request_validate_for RuntimeDocker req t with
  | Fail e => mret (refused (dr_deployment req) (dr_request req) e)
  | Ok _ => _ ← deploy_body; reads (result_of (dr_deployment req) (dr_request req))
  end.
End Deploy.

(** ** Removals *)

Section Remove.
Context (world : World) (self : string) (req : RemovalRequest).

(** Gone already, and the stop grace. *)
Definition target_precondition (t : RemovalTarget) (later : Z) : M (Answer * (bool * Z)) :=
  if isSelf self (it_container (rt_target t)) then mret (deny "self_protected", (false, stopGrace))
  else
    x ← get_container world (it_container (rt_target t));
    match x with
    | Missed e => if statusOf e =? StatusNotFound then mret (succeeded, (true, stopGrace))
                  else mret (outcomeFor (Some e) (statusOf e), (false, stopGrace))
    | Got c =>
        if negb (is_target c (rt_target t)) then mret (deny "identity_mismatch", (false, stopGrace))
        else if installerManaged (match c_config c with Some g => entries (cfg_labels g) | None => ∅ end)
        then mret (deny "application_managed", (false, stopGrace))
        else
          left ← until world (rm_deadline req);
          mret (succeeded, (false, fitGrace (graceOf (c_stop_timeout c)) (left - (1 + later) * removeBudget)))
    end.

Definition target_stop (t : RemovalTarget) (grace : Z) : M (Answer * unit) :=
  left ← until world (rm_deadline req);
  if left <? removeBudget then mret (timed_out "deadline", tt)
  else
    _ ← begin world;
    '(status, err) ← post world (StopContainer (it_container (rt_target t)) grace);
    mret (if isSome err || ((400 <=? status) && negb (status =? StatusNotModified)) then outcomeFor err status else succeeded, tt).

Definition target_remove (t : RemovalTarget) : M (Answer * unit) :=
  '(status, err) ← post world (DeleteContainer (it_container (rt_target t)) false);
  mret (if status =? StatusConflict then fail "dependents"
        else if isSome err || ((400 <=? status) && negb (status =? StatusNotFound)) then outcomeFor err status
        else succeeded, tt).

Definition removeTarget (t : RemovalTarget) (later : Z) : M unit :=
  '(gone, grace) ← step (rt_service t) "precondition" (false, stopGrace) (target_precondition t later);
  if gone : bool then
    _ ← modify (add_step (mkStep (rt_service t) "stop" OutcomeSkipped "" ""));
    modify (add_step (mkStep (rt_service t) "remove" OutcomeSkipped "" ""))
  else
    _ ← step (rt_service t) "stop" tt (target_stop t grace);
    step (rt_service t) "remove" tt (target_remove t).

Fixpoint remove_all (l : list RemovalTarget) : M unit :=
  match l with
  | [] => mret tt
  | t :: l' => _ ← removeTarget t (llen l'); remove_all l'
  end.

Definition Remove : M DeploymentResult :=
  t ← now_wall world;
  match removal_validate_for RuntimeDocker req t with
  | Fail e => mret (refused (rm_deployment req) (rm_request req) e)
  | Ok _ => _ ← remove_all (rm_containers req); reads (result_of (rm_deployment req) (rm_request req))
  end.
End Remove.
