(* ===== verification/DockerWorld.v ===== *)
(** * A Docker host to run on

    A small Engine that answers the calls of DockerRun.v the way a healthy daemon does, for the
    one service of [demo_request] and the explicit frames built here, with one call at a time replaced
    by another answer.  The theorems on deployments are applied to it. *)
From Stdlib Require Import ZArith Lia Ascii String.
From stdpp Require Import base gmap sets strings list.
From S2P Require Import Prelude.
From S2P Require Import Grammar.
From S2P Require Import Inspection.
From S2P Require Import Frame.
From S2P Require Import Engine.
From S2P Require Import ContainerBody.
From S2P Require Import DockerRun.
From S2P Require Import DockerDeploy.

Definition dw_old : string := demo_hex.
Definition dw_new : string := "fedcba9876543210fedcba9876543210fedcba9876543210fedcba9876543210".
Definition dw_old_image : string := "sha256:" +:+ demo_hex.
Definition dw_new_image : string := "sha256:" +:+ dw_new.
Definition dw_defaults : imageDefaults := mkDefaults (Some ["serve"]) None None "/" "".

Definition dw_host : DeployHost :=
  mkHostConfig "shop_default" (Some false) (Some false) (Some false) None None None None None None None None None None None
    None None None "" "private" "runc" "" "" "" 0 0 0 0 0 0 None None None "" None.
Definition dw_mounts : list inspectedMount :=
  [mkInspectedMount "volume" "shop_data" "/var/lib/docker/volumes/shop_data/_data" "/data" "z" "" true;
   mkInspectedMount "bind" "" "/srv/shop" "/srv" "ro" "rprivate" false].
Definition dw_read (id image name : string) (created : Z) (status : string) (running : bool) : ContainerRead :=
  mkRead id image name created (Some dw_mounts) (Some (mkConfig (Some ∅) dw_defaults "" "" "shop/web:1")) (Some dw_host)
    (Some {[ "shop_default" := mkNetworkRead [] ∅ ]}) (Some ∅) (Some ∅) ∅ ∅ ∅ [] (Some 10) (Some 0)
    (Some (mkState status running false None)).

(** The healthy daemon: the old container runs, the new one starts and stays up. *)
Definition dw_serve (c : Call) : Reply :=
  match c with
  | GetInfo => Answered 200 (InfoBody (mkDaemon "runc" "2"))
  | GetContainer ref =>
      if bool_decide (ref = dw_old) then Answered 200 (ContainerBody (dw_read dw_old dw_old_image "/shop-web-1" 17 "running" true))
      else if bool_decide (ref = dw_new) then Answered 200 (ContainerBody (dw_read dw_new dw_new_image "/shop-web-1" 18 "running" true))
      else Answered 404 NoBody
  | GetImage ref =>
      if bool_decide (ref = dw_old_image) then Answered 200 (ImageBody (mkImageRead dw_old_image "" dw_defaults []))
      else Answered 200 (ImageBody (mkImageRead dw_new_image "" dw_defaults [ref]))
  | GetVolume _ => Answered 200 (VolumeBody (mkVolume "local" {[ "com.docker.compose.project" := "shop" ]} ∅))
  | CreateVolume _ _ => Answered 201 (VolumeBody (mkVolume "local" {[ "com.docker.compose.project" := "shop" ]} ∅))
  | PullImage _ _ _ => Answered 200 (PullBody [] None)
  | TagImage _ _ _ => Answered 201 NoBody
  | CreateContainer _ _ => Answered 201 (CreatedBody dw_new)
  | ConnectNetwork _ _ _ => Answered 200 NoBody
  | WaitContainer _ => Answered 200 (WaitBody false)
  | RenameContainer _ _ | StopContainer _ _ | StartContainer _ | PauseContainer _ | DeleteContainer _ _ => Answered 204 NoBody
  end.

(** The daemon with some answers replaced. *)
Definition dw_world (other : Call -> option Reply) : World :=
  mkWorld (fun _ c => default (dw_serve c) (other c)) (fun _ => 11 * Minute) (fun _ => 1000%N) (fun _ _ => None).
Definition dw_healthy : World := dw_world (fun _ => None).

(** A daemon that cannot start the new container. *)
Definition dw_broken : World :=
  dw_world (fun c => match c with
                     | StartContainer id => if bool_decide (id = dw_new) then Some (Answered 500 NoBody) else None
                     | _ => None
                     end).

Example dw_deploy_succeeds :
  let res := (Deploy dw_healthy "" demo_request new_run).1 in
  rs_outcome res = OutcomeSucceeded /\
  map (fun s => (st_step s, st_outcome s)) (rs_steps res) =
    map (fun s => (s, OutcomeSucceeded)) ["precondition"; "volume"; "pull"; "recheck"; "rename"; "create"; "stop"; "start"; "remove"] /\
  rs_services res = [mkDIdentity "web" dw_new dw_new_image 18 ("sha256:" +:+ demo_hex) "" "" "" "" 0].
Proof. vm_compute. split_and!; reflexivity. Qed.

Example dw_deploy_rolls_back :
  let res := (Deploy dw_broken "" demo_request new_run).1 in
  (rs_outcome res, rs_code res) = (OutcomeFailed, "step_failed") /\
  map (fun s => (st_step s, st_outcome s, st_code s)) (drop 6 (rs_steps res)) =
    [("stop", OutcomeSucceeded, ""); ("start", OutcomeFailed, "start_failed_rolled_back"); ("rollback", OutcomeSucceeded, "");
     ("remove", OutcomeSkipped, "")].
Proof. vm_compute. split_and!; reflexivity. Qed.
