(* ===== verification/DockerCodes.v ===== *)
(** * The codes a Docker run reports

    Every answer of a step of deploy.go, deploy_pull.go, deploy_volume.go and remove.go is one the
    server accepts: its code is known and its detail fits the code's rule ([validStepCode]) and
    the bound of a step. *)
From Stdlib Require Import ZArith Lia Ascii String.
From stdpp Require Import base gmap sets strings list list_numbers sorting.
From S2P Require Import Prelude.
From S2P Require Import Regex.
From S2P Require Import Grammar.
From S2P Require Paths.
From S2P Require Import Inspection.
From S2P Require Import Frame.
From S2P Require Import Engine.
From S2P Require Import ContainerBody.
From S2P Require Import DockerRun.
From S2P Require Import DockerDeploy.

Definition failures : list string := [OutcomeFailed; OutcomeDenied; OutcomeTimedOut; OutcomeUnknown].
(** An answer the server accepts as a step. *)
Definition good (a : Answer) : Prop :=
  outcome_of a = OutcomeSucceeded \/
  (outcome_of a ∈ failures /\ validStepCode a.1.2 a.2 = true /\ len a.2 <= MaxDeploymentStepDetailBytes).

Lemma good_succeeded : good succeeded.
Proof. by left. Qed.
(** A fixed code is checked by evaluation. *)
Lemma good_plain o c : bool_decide (o ∈ failures) && validStepCode c "" = true -> good (o, c, "").
Proof.
  intros [Ho%bool_decide_eq_true Hc]%andb_true_iff. right. split; [done|]. split; [done|].
  unfold MaxDeploymentStepDetailBytes, len. simpl. lia.
Qed.

Lemma status_detail s : 100 <= s <= 599 -> validStepCode "runtime_status" (Itoa s) = true /\ len (Itoa s) = 3.
Proof.
  intros H. assert (Hall : forallb (fun n => validStepCode "runtime_status" (Itoa (100 + Z.of_nat n))
                                             && (len (Itoa (100 + Z.of_nat n)) =? 3)) (seq 0 500) = true) by (vm_compute; reflexivity).
  rewrite List.forallb_forall in Hall. specialize (Hall (Z.to_nat (s - 100))). rewrite in_seq in Hall.
  replace (100 + Z.of_nat (Z.to_nat (s - 100))) with s in Hall by lia.
  destruct (proj1 (andb_true_iff _ _) (Hall ltac:(lia))) as [? ?%Z.eqb_eq]. done.
Qed.

Lemma outcomeFor_good err status : good (outcomeFor err status).
Proof.
  unfold outcomeFor. destruct (match err with Some e => _ | None => _ end) as [[[]| |]|]; try by apply good_plain.
  destruct ((status <? 100) || (status >? 599)) eqn:E; [by apply good_plain|].
  apply orb_false_iff in E as [E1%Z.ltb_ge E2]. rewrite Z.gtb_ltb, Z.ltb_ge in E2.
  destruct (status_detail status) as [Hv Hl]; [lia|]. right. simpl. rewrite Hl. split; [left|]. split; [done|].
  unfold MaxDeploymentStepDetailBytes. lia.
Qed.
Lemma outcomeFor_fails err status : outcome_of (outcomeFor err status) ∈ failures.
Proof.
  unfold outcomeFor. destruct (match err with Some e => _ | None => _ end) as [[[]| |]|];
    try (by apply (bool_decide_eq_true_1 (_ ∈ failures))).
  destruct (_ || _); by apply (bool_decide_eq_true_1 (_ ∈ failures)).
Qed.
Lemma missed_good e a : good a -> good (missed e a).
Proof. intros H. unfold missed. destruct (_ =? _); [done|apply outcomeFor_good]. Qed.

(** ** The refused configuration *)

Definition step_code (c : string) : bool := re_match hostConfig c || bool_decide (c ∈ UnsupportedCodes).
Definition named_codes (l : list string) : Prop := Forall (fun c => step_code c = true) l /\ NoDup l.

Lemma named_sub l l' : sublist l' l -> named_codes l -> named_codes l'.
Proof.
  intros Hs [Hf Hn]. split; [|by eapply sublist_NoDup].
  apply Forall_forall. intros c Hc. rewrite Forall_forall in Hf. apply Hf. by eapply elem_of_sublist.
Qed.

Lemma step_code_shape c : step_code c = true -> contains_byte "," c = false /\ 3 <= len c <= 76.
Proof.
  intros [H|H%bool_decide_eq_true]%orb_true_iff.
  - split; [apply (re_match_no_byte hostConfig); [vm_compute; reflexivity|done]|]. pose proof (re_match_len hostConfig c 76 eq_refl H). simpl in *. lia.
  - assert (Hall : forallb (fun c => negb (contains_byte "," c) && (3 <=? len c) && (len c <=? 76)) UnsupportedCodes = true)
      by (vm_compute; reflexivity).
    rewrite List.forallb_forall in Hall. apply list_elem_of_In, Hall in H.
    rewrite !andb_true_iff in H. destruct H as [[H1%negb_true_iff H2%Z.leb_le] H3%Z.leb_le]. lia || done.
Qed.

(** The codes shorter than six bytes are few, so a detail of 256 bytes holds at most 38. *)
Definition short_by (c : string) : nat := (6 - String.length c)%nat.
Lemma sum_submseteq (f : string -> nat) l k : l ⊆+ k -> (sum_list_with f l <= sum_list_with f k)%nat.
Proof. induction 1; simpl; lia. Qed.
Lemma short_codes l : named_codes l -> (sum_list_with short_by l <= 9)%nat.
Proof.
  intros [Hf Hn].
  assert (Hle : (sum_list_with short_by (List.filter (fun c => 0 <? short_by c)%nat l) <= sum_list_with short_by UnsupportedCodes)%nat).
  { apply sum_submseteq, NoDup_submseteq; [by apply NoDup_ListNoDup, List.NoDup_filter, NoDup_ListNoDup|].
    intros c [Hc Hs%Nat.ltb_lt]%list_elem_of_In%List.filter_In. apply list_elem_of_In in Hc.
    rewrite Forall_forall in Hf. specialize (Hf c Hc). apply orb_true_iff in Hf as [Hm|Hm]; [|by apply bool_decide_eq_true in Hm].
    pose proof (re_match_len hostConfig c 76 eq_refl Hm). unfold short_by, len in *. simpl in *. lia. }
  assert (E : sum_list_with short_by l = sum_list_with short_by (List.filter (fun c => 0 <? short_by c)%nat l)).
  { clear. induction l as [|c l IH]; simpl; [done|]. destruct (0 <? short_by c)%nat eqn:Ec; simpl; [lia|]. apply Nat.ltb_ge in Ec. lia. }
  rewrite E. etrans; [exact Hle|]. vm_compute. lia.
Qed.

Lemma len_join l : l <> [] -> len (join "," l) + 1 = Z.of_nat (sum_list_with (fun c => S (String.length c)) l).
Proof.
  induction l as [|w l IH]; [done|]. intros _. destruct l as [|w' l]; [unfold len; simpl; lia|].
  change (join "," (w :: w' :: l)) with (w +:+ "," +:+ join "," (w' :: l)).
  rewrite !len_append. specialize (IH ltac:(done)). simpl sum_list_with in *. unfold len in *. simpl String.length at 2. lia.
Qed.
Lemma count_codes l : named_codes l -> len (join "," l) <= 256 -> (length l <= 40)%nat.
Proof.
  intros Hn Hl. destruct (decide (l = [])) as [->|Hne]; [simpl; lia|].
  pose proof (short_codes l Hn). pose proof (len_join l Hne).
  assert (7 * length l <= sum_list_with (fun c => S (String.length c)) l + sum_list_with short_by l)%nat; [|lia].
  clear. induction l as [|c l IH]; simpl; [lia|]. unfold short_by at 1. lia.
Qed.

Lemma detail_codes pre codes :
  pre <> [] -> len (join "," pre) <= 256 ->
  exists l, sublist l codes /\ unsupported_detail (join "," pre) codes = join "," (pre ++ l) /\ len (join "," (pre ++ l)) <= 256.
Proof.
  revert pre; induction codes as [|c codes IH]; intros pre Hne Hl; cbn [unsupported_detail].
  - exists []. rewrite app_nil_r. done.
  - destruct (_ >? _) eqn:E.
    + exists []. rewrite app_nil_r. split; [apply sublist_nil_l|done].
    + rewrite Z.gtb_ltb, Z.ltb_ge in E. rewrite <- join_snoc by done.
      destruct (IH (pre ++ [c])) as (l & Hs & He & Hb).
      { by destruct pre. } { rewrite join_snoc, !len_append by done. unfold MaxDeploymentStepDetailBytes in E. simpl in *. unfold len in *. simpl in *. lia. }
      exists (c :: l). rewrite <- app_assoc in He, Hb. split; [by apply sublist_skip|done].
Qed.

Lemma known_one x : bool_decide (x ∈ UnsupportedCodes) = true -> knownCodes [x] = true.
Proof.
  intros Hx. apply andb_true_iff. split; [done|]. apply seen_loop_spec. split_and!; repeat constructor; set_solver.
Qed.

Lemma unsupported_good c l : named_codes (c :: l) -> good (unsupported c l).
Proof.
  intros Hn. right. split; [by apply (bool_decide_eq_true_1 (_ ∈ failures))|].
  destruct (step_code_shape c) as [_ Hc]; [by destruct Hn as [Hf%Forall_cons _]; apply Hf|].
  destruct (detail_codes [c] l) as (l' & Hs & He & Hb); [done|simpl; lia|]. change (join "," [c]) with c in He. change ([c] ++ l') with (c :: l') in *.
  unfold unsupported. cbn [fst snd]. rewrite He.
  assert (Hn' : named_codes (c :: l')) by (eapply named_sub; [|exact Hn]; by apply sublist_skip).
  split; [|exact Hb].
  change (unsupportedDetail (split_at "," (join "," (c :: l'))) = true). unfold unsupportedDetail.
  rewrite Paths.split_at_join; [|done|].
  2:{ destruct Hn' as [Hf _]. eapply Forall_impl; [exact Hf|]. intros x Hx. by apply step_code_shape. }
  apply andb_true_iff. split; [|].
  - apply seen_loop_spec. rewrite map_id. destruct Hn' as [Hf Hnd]. split_and!; [|done|apply Forall_forall; set_solver].
    eapply Forall_impl; [exact Hf|]. intros x [Hx|Hx]%orb_true_iff; apply orb_true_iff; [by left|right; by apply known_one].
  - pose proof (count_codes _ Hn' Hb). unfold llen, MaxUnsupported. apply Z.leb_le. lia.
Qed.

(** The codes of the three checks are known and named once. *)
Lemma NoDup_UnsupportedCodes : NoDup UnsupportedCodes.
Proof. by apply (bool_decide_eq_true_1 (NoDup UnsupportedCodes)); vm_compute. Qed.
Lemma sublist_bfilter {A} (p : A -> bool) l : sublist (List.filter p l) l.
Proof. induction l as [|x l IH]; simpl; [done|]. destruct (p x); by constructor. Qed.
Lemma known_sub l : sublist l UnsupportedCodes -> named_codes l.
Proof.
  intros H. eapply named_sub; [exact H|]. split; [|apply NoDup_UnsupportedCodes].
  apply Forall_forall. intros c Hc. apply orb_true_iff. right. by apply bool_decide_eq_true.
Qed.
Lemma map_filter_sublist {A} (l : list (A * bool)) : sublist (map fst (List.filter snd l)) (map fst l).
Proof. induction l as [|[x b] l IH]; simpl; [done|]. destruct b; by constructor. Qed.

Lemma undescribed_codes in_ u n d : sublist (undescribed in_ u n d) UnsupportedCodes.
Proof.
  etrans; [apply map_filter_sublist|]. unfold undescribed_checks. simpl.
  change UnsupportedCodes with (firstn 28 UnsupportedCodes ++ drop 28 UnsupportedCodes). simpl. 
  repeat (apply sublist_skip). apply sublist_nil_l.
Qed.
Lemma undescribed_named in_ u n d : named_codes (undescribed in_ u n d).
Proof. apply known_sub, undescribed_codes. Qed.

(** ** Codes of raw keys *)

Definition known_values (m : gmap string string) : bool :=
  forallb (fun kv => bool_decide (kv.2 = "") || bool_decide (kv.2 ∈ UnsupportedCodes)) (map_to_list m).
Lemma known_value m k c : known_values m = true -> m !! k = Some c -> c <> "" -> step_code c = true.
Proof.
  unfold known_values. rewrite List.forallb_forall. intros H Hm Hc.
  specialize (H (k, c)). simpl in H. rewrite (bool_decide_false (c = "")) in H by done.
  apply orb_true_iff. right. apply H. by apply list_elem_of_In, elem_of_map_to_list.
Qed.
Lemma host_key k : engineKey k = true -> step_code ("host_config:" +:+ k) = true.
Proof.
  intros H. apply orb_true_iff. left. unfold engineKey in H. apply re_match_lang in H. apply re_match_lang.
  unfold hostConfig. apply lang_cat. exists "host_config:", k. split; [done|]. split; [by apply lang_lit|done].
Qed.

Lemma key_code_named known d k raw c :
  known_values known = true -> key_code known d k raw = Some (Some c) -> step_code c = true.
Proof.
  unfold key_code. intros Hk. destruct (engineKey k) eqn:E; [|done]. simpl.
  destruct (bool_decide (k = "IPAMConfig")).
  - destruct (existsb _ _); [|done]. intros [= <-]. by apply (host_key "IPAMConfig").
  - destruct (_ || _) eqn:Eu; [done|]. apply orb_false_iff in Eu as [_ Eu%bool_decide_eq_false].
    destruct (known !! k) as [c'|] eqn:El; intros [= <-]; [|by apply host_key].
    eapply known_value; [done..|]. intros ->. by apply Eu.
Qed.

Definition all_named (codes : gset string) : Prop := forall c, c ∈ codes -> step_code c = true.
Lemma uncarried_loop_named known d l codes codes' :
  known_values known = true -> uncarried_loop known d l codes = Some codes' -> all_named codes -> all_named codes'.
Proof.
  intros Hk. revert codes; induction l as [|[k raw] l IH]; intros codes; simpl; [by intros [= ->]|].
  destruct (key_code known d k raw) as [[c|]|] eqn:E; [|by apply IH|done].
  intros H Ha. eapply IH; [exact H|]. intros x [->%elem_of_singleton|Hx]%elem_of_union; [by eapply key_code_named|auto].
Qed.
Lemma uncarried_named c v codes codes' : uncarried c v codes = Some codes' -> all_named codes -> all_named codes'.
Proof.
  unfold uncarried. intros H Ha.
  destruct (c_networks c) as [nets|]; simpl in H; [|done].
  destruct (uncarried_loop configKeys _ _ _) as [c1|] eqn:E1; simpl in H; [|done].
  destruct (uncarried_loop hostConfigKeys _ _ _) as [c2|] eqn:E2; simpl in H; [|done].
  apply uncarried_loop_named in E1; [|vm_compute; reflexivity|done].
  apply uncarried_loop_named in E2; [|vm_compute; reflexivity|done].
  revert codes' H. induction (map_to_list nets) as [|n l IH]; intros codes' H; simpl in H; [by simplify_eq|].
  destruct (foldr _ _ _) as [c3|] eqn:E3; simpl in H; [|done].
  eapply uncarried_loop_named; [|exact H|by apply IH]. vm_compute. reflexivity.
Qed.

Lemma orderedCodes_named codes : all_named codes -> named_codes (orderedCodes codes).
Proof.
  intros Ha. unfold orderedCodes. set (host := List.filter (fun c => HasPrefix c "host_config:") (elements codes)).
  assert (Hhost : Forall (fun c => step_code c = true) host /\ NoDup host).
  { split.
    - apply Forall_forall. intros c [Hc _]%list_elem_of_In%List.filter_In. apply Ha. by apply elem_of_elements, list_elem_of_In.
    - apply NoDup_ListNoDup, List.NoDup_filter, NoDup_ListNoDup, NoDup_elements. }
  assert (Hk : named_codes (take (Z.to_nat MaxListEntries) (merge_sort str_before host))).
  { eapply named_sub; [apply sublist_take|]. destruct Hhost as [Hf Hn].
    split; [by rewrite merge_sort_Permutation|by rewrite merge_sort_Permutation]. }
  destruct (known_sub (List.filter (fun c => bool_decide (c ∈ codes)) UnsupportedCodes)) as [Hu Hun]; [apply sublist_bfilter|].
  split; [apply Forall_app; split; [exact Hu|apply Hk]|]. apply NoDup_app. split_and!; [done| |apply Hk].
  intros c [Hc _]%list_elem_of_In%List.filter_In Hin.
  assert (Hp : HasPrefix c "host_config:" = true).
  { eapply elem_of_sublist in Hin; [|apply sublist_take]. rewrite merge_sort_Permutation in Hin.
    by apply list_elem_of_In, List.filter_In in Hin as [_ ?]. }
  assert (Hall : forallb (fun c => negb (HasPrefix c "host_config:")) UnsupportedCodes = true) by (vm_compute; reflexivity).
  rewrite List.forallb_forall in Hall. apply Hall in Hc. by rewrite Hp in Hc.
Qed.

(** ** The precondition's answers *)

Lemma mounts_refused_good s k old l a : mounts_refused s k old l = Some a -> good a.
Proof.
  induction l as [|m l IH]; simpl; [done|]. repeat case_match; try done; intros [= <-]; by apply good_plain.
Qed.

Lemma described_good req s runtime cgroup keep before a :
  described req s runtime cgroup keep before = Some a -> good a.
Proof.
  unfold described. destruct (is_target _ _); simpl; [|intros [= <-]; by apply good_plain].
  destruct (reported before) as [rep|]; [|intros [= <-]; by apply good_plain].
  destruct (_ || _); [intros [= <-]; by apply good_plain|].
  destruct (dr_explicit req).
  - destruct (uncarried _ _ _) as [set|] eqn:E; [|intros [= <-]; by apply good_plain].
    destruct (overCap before rep); [intros [= <-]; by apply good_plain|].
    assert (Hn : named_codes (orderedCodes set)).
    { apply orderedCodes_named. eapply uncarried_named; [exact E|]. intros c Hc.
      apply elem_of_list_to_set, list_elem_of_In, List.filter_In in Hc as [Hc _]. apply list_elem_of_In in Hc.
      pose proof (undescribed_named rep (cfg_user (rp_config rep)) (dr_project req +:+ "_default") runtime) as [Hf _].
      rewrite Forall_forall in Hf. by apply Hf. }
    destruct (orderedCodes set) as [|c l]; [apply mounts_refused_good|]. intros [= <-]. by apply unsupported_good.
  - pose proof (undescribed_named rep (cfg_user (rp_config rep)) (dr_project req +:+ "_default") runtime) as Hn.
    destruct (undescribed _ _ _ _) as [|c l]; [apply mounts_refused_good|]. intros [= <-]. by apply unsupported_good.
Qed.

Lemma image_codes_good before im : match image_codes before im with c :: l => good (unsupported c l) | [] => True end.
Proof.
  unfold image_codes. destruct (c_config before); [|done].
  destruct (bool_decide _), (differs _ _); simpl; try done; apply unsupported_good, known_sub;
    repeat first [apply sublist_nil_l|apply sublist_skip|apply sublist_cons].
Qed.
(** Every answer of the code is a success, a classified loss or a fixed code. *)
Ltac answers := repeat first [apply good_succeeded | apply outcomeFor_good | apply missed_good | (apply good_plain; vm_compute; reflexivity)].
