(* ===== verification/DockerLogic.v ===== *)
(** * Reasoning about a run

    Weakest preconditions for the code of DockerRun.v and DockerDeploy.v, for every [World].  The
    relation [calls ok r r'] says that [r'] follows [r] by Engine calls alone, each of them [ok]
    given what came before it; the lemmas here give the calls and the answers of every piece of a
    run that records no step of its own. *)
From Stdlib Require Import ZArith Lia Ascii String.
From stdpp Require Import base gmap sets strings list.
From S2P Require Import Prelude.
From S2P Require Import Regex.
From S2P Require Import Grammar.
From S2P Require Import Inspection.
From S2P Require Import Frame.
From S2P Require Import Engine.
From S2P Require Import ContainerBody.
From S2P Require Import DockerRun.
From S2P Require Import DockerDeploy.

(** ** Weakest preconditions *)

Definition wp {A} (m : M A) (Q : A -> Run -> Prop) (r : Run) : Prop := Q (m r).1 (m r).2.

Lemma wp_bind {A B} (m : M A) (k : A -> M B) Q r : wp m (fun a r' => wp (k a) Q r') r -> wp (m ≫= k) Q r.
Proof. done. Qed.
Lemma wp_ret {A} (a : A) (Q : A -> Run -> Prop) r : Q a r -> wp (mret a) Q r.
Proof. done. Qed.
Lemma wp_reads {A} (f : Run -> A) (Q : A -> Run -> Prop) r : Q (f r) r -> wp (reads f) Q r.
Proof. done. Qed.
Lemma wp_modify f (Q : unit -> Run -> Prop) r : Q tt (f r) -> wp (modify f) Q r.
Proof. done. Qed.
Lemma wp_mono {A} (m : M A) (Q Q' : A -> Run -> Prop) r : wp m Q r -> (forall a r', Q a r' -> Q' a r') -> wp m Q' r.
Proof. unfold wp. auto. Qed.
Lemma wp_and {A} (m : M A) (Q Q' : A -> Run -> Prop) r : wp m Q r -> wp m Q' r -> wp m (fun a r' => Q a r' /\ Q' a r') r.
Proof. unfold wp. auto. Qed.

(** A step that runs, and one that is skipped. *)
Definition settled_step (service stp : string) (a : Answer) (r : Run) : Run :=
  if bool_decide (outcome_of a = OutcomeSucceeded) then add_step (mkStep service stp OutcomeSucceeded "" "") r
  else add_step (mkStep service stp (outcome_of a) a.1.2 a.2) (with_outcome (outcome_of a) "step_failed" r).

Lemma wp_step {A} service stp (skip : A) m (Q : A -> Run -> Prop) r :
  (outcome r <> "" -> Q skip (add_step (mkStep service stp OutcomeSkipped "" "") r)) ->
  (outcome r = "" -> wp m (fun aa r' => Q aa.2 (settled_step service stp aa.1 r')) r) ->
  wp (step service stp skip m) Q r.
Proof.
  intros Hs Hr. unfold wp, step. destruct (bool_decide (outcome r = "")) eqn:E; simpl.
  - apply bool_decide_eq_true in E. specialize (Hr E). unfold wp, settled_step, outcome_of in Hr.
    destruct (m r) as [[[[o c] d] a] r']. simpl in *. destruct (bool_decide (o = OutcomeSucceeded)) eqn:Eo; [|done].
    by apply bool_decide_eq_true in Eo as ->.
  - apply Hs. by apply bool_decide_eq_false in E.
Qed.

(** ** Calls *)

(** A call that changes no container. *)
Definition harmless (c : Call) : bool :=
  match c with
  | GetInfo | GetContainer _ | GetImage _ | GetVolume _ | CreateVolume _ _ | PullImage _ _ _ | TagImage _ _ _ | WaitContainer _ => true
  | _ => false
  end.
Definition free (e : Event) : bool :=
  match e with Called c _ => harmless c | Began => false | _ => true end.

(** Each event of [new] is [ok] after the ones below it and [base]. *)
Fixpoint respects (ok : list Event -> Event -> Prop) (new base : list Event) : Prop :=
  match new with
  | [] => True
  | e :: new' => ok (new' ++ base) e /\ respects ok new' base
  end.
Lemma respects_app ok l1 l2 base : respects ok (l1 ++ l2) base <-> respects ok l1 (l2 ++ base) /\ respects ok l2 base.
Proof. induction l1 as [|e l1 IH]; simpl; [tauto|]. rewrite IH, <- app_assoc. tauto. Qed.
Lemma respects_impl (ok ok' : list Event -> Event -> Prop) new base :
  (forall l e, ok l e -> ok' l e) -> respects ok new base -> respects ok' new base.
Proof. intros H. induction new as [|e new IH]; simpl; [done|]. intros [? ?]. auto. Qed.

Definition begun_ok (r : Run) : Prop := begun r = true -> Began ∈ events r.

Record calls (ok : list Event -> Event -> Prop) (r r' : Run) : Prop := mkCalls {
  ca_events : exists new, events r' = new ++ events r /\ respects ok new (events r);
  ca_same : outcome r' = outcome r /\ rcode r' = rcode r /\ steps r' = steps r /\ services r' = services r /\ ensured r' = ensured r;
  ca_begun : begun r = true -> begun r' = true;
  ca_began : begun_ok r -> begun_ok r' }.

Lemma calls_refl ok r : calls ok r r.
Proof. by split; [exists []|..]. Qed.
Lemma calls_trans ok r1 r2 r3 : calls ok r1 r2 -> calls ok r2 r3 -> calls ok r1 r3.
Proof.
  intros [(n1 & E1 & R1) S1 B1 O1] [(n2 & E2 & R2) S2 B2 O2]. split; [|intuition congruence|tauto|tauto].
  exists (n2 ++ n1). rewrite E2, E1, <- app_assoc. split; [done|]. apply respects_app. rewrite <- E1. auto.
Qed.
Lemma calls_impl (ok ok' : list Event -> Event -> Prop) r r' :
  (forall l e, ok l e -> ok' l e) -> calls ok r r' -> calls ok' r r'.
Proof. intros H [(n & E & R) ? ? ?]. split; try done. exists n. split; [done|]. by eapply respects_impl. Qed.
Lemma calls_in ok r r' e : calls ok r r' -> e ∈ events r -> e ∈ events r'.
Proof. intros [(n & -> & _) _ _ _] H. apply elem_of_app. by right. Qed.

Create HintDb docker.
#[export] Hint Resolve calls_refl wp_ret : docker.

Section Calls.
Context (world : World) (ok : list Event -> Event -> Prop).
Context (Hfree : forall l e, free e = true -> ok l e).
Notation calls := (calls ok).

Lemma calls_push e d r : ok (events r) e -> calls r (push world e d r).
Proof. intros H. split; [by exists [e]|done|done|]. unfold begun_ok. simpl. intros Hb Ht. right. by apply Hb. Qed.
Lemma calls_then r1 r2 e d : calls r1 r2 -> ok (events r2) e -> calls r1 (push world e d r2).
Proof. intros H He. eapply calls_trans; [exact H|by apply calls_push]. Qed.
Lemma calls_begin r : (forall l, ok l Began) -> calls r (if begun r then r else push world Began 0 (with_begun r)).
Proof.
  intros H. destruct (begun r) eqn:E; [apply calls_refl|]. split; [by exists [Began]|done|by rewrite E|].
  intros _ _. left.
Qed.

(** Primitives: the answer is any answer. *)
Lemma wp_call r c (Q : Reply -> Run -> Prop) :
  (forall x, ok (events r) (Called c x)) ->
  (forall x r', calls r r' -> events r' = Called c x :: events r -> Q x r') -> wp (call world c) Q r.
Proof. intros Hc H. apply H; [|done]. by apply calls_push. Qed.
Lemma wp_clock r (Q : Z -> Run -> Prop) : (forall t r', calls r r' -> Q t r') -> wp (now_wall world) Q r.
Proof. intros H. apply H, calls_push. by apply Hfree. Qed.
Lemma wp_now r (Q : Z -> Run -> Prop) : (forall t r', calls r r' -> Q t r') -> wp (now_mono world) Q r.
Proof. intros H. apply H, calls_push. by apply Hfree. Qed.
Lemma wp_until r d (Q : Z -> Run -> Prop) : (forall t r', calls r r' -> Q t r') -> wp (until world d) Q r.
Proof. intros H. apply wp_bind, wp_clock. intros t r' Hr. by apply wp_ret, H. Qed.
Lemma wp_sleep r d (Q : option Loss -> Run -> Prop) : (forall t r', calls r r' -> Q t r') -> wp (sleep world d) Q r.
Proof. intros H. unfold wp, sleep. destruct (woken _ _ _); apply H, calls_push; by apply Hfree. Qed.
Lemma wp_begin r (Q : unit -> Run -> Prop) :
  (forall l, ok l Began) -> (forall r', calls r r' -> begun r' = true -> Q tt r') -> wp (begin world) Q r.
Proof.
  intros Hb H. unfold wp, begin. pose proof (calls_begin r Hb) as Hc. destruct (begun r) eqn:E; simpl; by apply H.
Qed.

Lemma wp_get {A} (decode : Body -> option A) c r (Q : got A -> Run -> Prop) :
  harmless c = true ->
  (forall e r', calls r r' -> Q (Missed e) r') ->
  (forall a b r', calls r r' -> decode b = Some a -> events r' = Called c (Answered 200 b) :: events r -> Q (Got a) r') ->
  wp (get world decode c) Q r.
Proof.
  intros Hc Hm Hg. apply wp_bind, wp_call; [intros x; by apply Hfree|]. intros [l s|s b] r' Hr He; apply wp_ret; [by apply Hm|].
  destruct (s =? StatusOK) eqn:Es; [|by apply Hm]. apply Z.eqb_eq in Es as ->.
  destruct (decode b) eqn:Ed; [by eapply Hg|by apply Hm].
Qed.

(** What a read or a write of one call leaves. *)
Definition read_as (ref : string) (c : ContainerRead) (l : list Event) : Prop :=
  Called (GetContainer ref) (Answered 200 (ContainerBody c)) ∈ l.
Lemma get_container_spec ref r (Q : got ContainerRead -> Run -> Prop) :
  (forall e r', calls r r' -> Q (Missed e) r') ->
  (forall c r', calls r r' -> read_as ref c (events r') -> Q (Got c) r') ->
  wp (get_container world ref) Q r.
Proof.
  intros Hm Hg. apply wp_get; [done|done|]. intros c b r' Hr Hd He. apply Hg; [done|].
  destruct b; try done. simplify_eq/=. unfold read_as. rewrite He. left.
Qed.
Lemma get_image_spec ref r (Q : got ImageRead -> Run -> Prop) :
  (forall x r', calls r r' -> Q x r') -> wp (get_image world ref) Q r.
Proof. intros H. apply wp_get; auto. Qed.
Lemma get_volume_spec n r (Q : got dockerVolume -> Run -> Prop) :
  (forall x r', calls r r' -> Q x r') -> wp (get_volume world n) Q r.
Proof. intros H. apply wp_get; auto. Qed.
Lemma current_spec ref r (Q : got (ContainerRead * StateRead) -> Run -> Prop) :
  (forall e r', calls r r' -> Q (Missed e) r') ->
  (forall c st r', calls r r' -> read_as ref c (events r') -> c_state c = Some st -> Q (Got (c, st)) r') ->
  wp (current world ref) Q r.
Proof.
  intros Hm Hg. apply wp_bind, get_container_spec; intros; apply wp_ret; [auto|]. destruct (c_state c) eqn:E; auto.
Qed.
Lemma wp_post c r (Q : Z * option CallErr -> Run -> Prop) :
  (forall x, ok (events r) (Called c x)) ->
  (forall x r', calls r r' -> Q x r') -> wp (post world c) Q r.
Proof. intros Hc H. apply wp_bind, wp_call; [done|]. intros x r' Hr _. apply wp_ret. auto. Qed.
(** The same, with the answer. *)
Lemma wp_posted c r (Q : Z * option CallErr -> Run -> Prop) :
  (forall x, ok (events r) (Called c x)) ->
  (forall l s r', calls r r' -> events r' = Called c (Lost l s) :: events r -> Q (0, Some (NoAnswer l)) r') ->
  (forall s b r', calls r r' -> events r' = Called c (Answered s b) :: events r -> Q (s, None) r') ->
  wp (post world c) Q r.
Proof. intros Hc Hl Ha. apply wp_bind, wp_call; [done|]. intros [l s|s b] r' Hr He; apply wp_ret; eauto. Qed.
Lemma wp_postJSON {A} (decode : Body -> option A) c r (Q : Z * option CallErr * option A -> Run -> Prop) :
  (forall x, ok (events r) (Called c x)) ->
  (forall s err o r', calls r r' ->
     (forall a, o = Some a -> err = None /\ exists b, decode b = Some a /\ Called c (Answered s b) ∈ events r') ->
     Q (s, err, o) r') ->
  wp (postJSON world decode c) Q r.
Proof.
  intros Hc H. apply wp_bind, wp_call; [done|]. intros [l s|s b] r' Hr He; apply wp_ret; [by apply H|].
  destruct (400 <=? s); [by apply H|]. destruct (decode b) as [a|] eqn:Ed; [|by apply H].
  apply H; [done|]. intros a' [= <-]. split; [done|]. exists b. split; [done|]. rewrite He. left.
Qed.
End Calls.
