(* ===== verification/DockerSpecs.v ===== *)
(** * What each piece of a Docker run may do

    For every [World] and every rule [ok] on calls: the calls a piece makes, in terms of the calls
    it needs [ok] to allow, and that its answer is one the server accepts ([good]). *)
From Stdlib Require Import ZArith Lia Ascii String.
From stdpp Require Import base gmap sets strings list.
From S2P Require Import Prelude.
From S2P Require Import Regex.
From S2P Require Import Grammar.
From S2P Require Import Inspection.
From S2P Require Import Frame.
From S2P Require Import Engine.
From S2P Require Import ContainerBody.
From S2P Require Import DockerRun.
From S2P Require Import DockerDeploy.
From S2P Require Import DockerCodes.
From S2P Require Import DockerLogic.

Lemma outcomeFor_not err s : outcome_of (outcomeFor err s) <> OutcomeSucceeded.
Proof. pose proof (outcomeFor_fails err s) as H. intros E. rewrite E in H. by apply (bool_decide_eq_true_2 (_ ∈ failures)) in H. Qed.
Lemma failed_plain o c d : (o, c, d) = (OutcomeSucceeded, "", "") -> o = OutcomeSucceeded.
Proof. congruence. Qed.

(** A container this run created, and one found never started. *)
Definition made (l : list Event) (id : string) : Prop :=
  ValidExecID id = true /\ exists name body, Called (CreateContainer name body) (Answered 201 (CreatedBody id)) ∈ l.
Definition stray (s : DeploymentService) (c : ContainerRead) : Prop :=
  (exists st, c_state c = Some st /\ sr_status st = "created") /\ ValidExecID (c_id c) = true /\
  c_id c <> it_container (s_replaces s) /\ c_name c = "/" +:+ s_container s.

Lemma made_in ok r r' id : calls ok r r' -> made (events r) id -> made (events r') id.
Proof. intros Hc (Hv & n & b & H). split; [done|]. exists n, b. by eapply calls_in. Qed.

Section Specs.
Context (world : World) (ok : list Event -> Event -> Prop).
Context (Hfree : forall l e, free e = true -> ok l e).
Notation calls := (calls ok).

Lemma calls_keep v r : calls r (with_keep v r).
Proof. by split; [exists []|..]. Qed.

(** ** Phase one *)

Lemma volume_step_spec req s old m r : wp (volume_step world req s old m) (fun a r' => calls r r' /\ good a.1) r.
Proof.
  apply wp_bind, (get_volume_spec world ok Hfree). intros x r1 C1. destruct x as [v|e].
  - repeat (case_match; [apply wp_ret; split; [done|answers]|]). apply wp_bind, wp_modify, wp_ret.
    split; [|answers]. eapply calls_trans; [exact C1|apply calls_keep].
  - case_match; [apply wp_ret; split; [done|answers]|]. cbv zeta. destruct (_ && _); [apply wp_ret; split; [done|answers]|].
    apply wp_bind, (wp_postJSON world ok); [intros; by apply Hfree|]. intros st err o r2 C2 _. apply wp_ret.
    split; [by eapply calls_trans|]. repeat case_match; answers.
Qed.

Lemma image_step_spec s r : wp (image_step world s) (fun a r' => calls r r' /\ good a.1) r.
Proof.
  apply wp_bind, (get_image_spec world ok Hfree). intros x r1 C1. apply wp_ret. split; [done|].
  destruct x; [case_match|]; answers.
Qed.

Lemma tag_spec t id r : wp (tag world t id) (fun a r' => calls r r' /\ good a.1) r.
Proof.
  unfold tag. case_match; [apply wp_ret; split; [apply calls_refl|answers]|]. case_match.
  apply wp_bind, (wp_post world ok); [intros; by apply Hfree|]. intros [st err] r1 C1. apply wp_ret. split; [done|].
  repeat case_match; answers.
Qed.

Lemma pull_spec regs p r : wp (pull world regs p) (fun a r' => calls r r' /\ good a.1) r.
Proof.
  apply wp_bind, wp_reads, wp_bind, (wp_now world ok Hfree). intros t r1 C1.
  case_match; [apply wp_ret; split; [done|answers]|]. case_match.
  apply wp_bind, (wp_call world ok); [intros; by apply Hfree|]. intros x r2 C2 _.
  assert (C12 : calls r r2) by by eapply calls_trans.
  destruct x as [l st|st b]; [apply wp_ret; split; [done|answers]|].
  repeat (case_match; [apply wp_ret; split; [done|answers]|]).
  destruct (match b with PullBody _ _ => _ | _ => _ end) as [failure [l|]]; [apply wp_ret; split; [done|answers]|].
  case_match; [apply wp_ret; split; [done|answers]|].
  apply wp_bind, (get_image_spec world ok Hfree). intros y r3 C3. assert (C13 : calls r r3) by by eapply calls_trans.
  destruct y as [im|e]; [|apply wp_ret; split; [done|answers]]. case_match; [|apply wp_ret; split; [done|answers]].
  eapply wp_mono; [apply tag_spec|]. intros a r4 [C4 Hg]. split; [by eapply calls_trans|done].
Qed.

(** A precondition that passes read the target, whose ID is not the agent's own. *)
Definition cleared (self : string) (s : DeploymentService) (seen : Seen) (l : list Event) : Prop :=
  isSelf self (it_container (s_replaces s)) = false /\
  read_as (it_container (s_replaces s)) seen.1.1 l /\ is_target seen.1.1 (s_replaces s) = true.

Lemma described_target req s runtime cgroup keep before :
  described req s runtime cgroup keep before = None -> is_target before (s_replaces s) = true.
Proof. unfold described. by destruct (is_target _ _). Qed.

Lemma precondition_spec self req s r :
  wp (precondition world self req s) (fun a r' => calls r r' /\ good a.1 /\
    (outcome_of a.1 = OutcomeSucceeded -> cleared self s a.2 (events r'))) r.
Proof.
  unfold precondition. destruct (isSelf _ _) eqn:Es; [apply wp_ret; split_and!; [apply calls_refl|answers|done]|].
  do 3 apply wp_bind, wp_reads. destruct (_ && _); [apply wp_ret; split_and!; [apply calls_refl|answers|done]|].
  apply wp_bind, (get_container_spec world ok Hfree).
  - intros e r1 C1. apply wp_ret. split_and!; [done|answers|]. unfold missed. case_match; [done|].
    intros E. by destruct (outcomeFor_not _ _ E).
  - intros c r1 C1 Hread. destruct (described _ _ _ _ _ _) as [a|] eqn:Ed.
    + apply wp_ret. split_and!; [done|by eapply described_good|]. simpl. intros Ha. exfalso. revert Ed Ha. clear.
      unfold described. repeat case_match; try done; try (intros [= <-]; done).
      all: intros Hm Ha; revert Hm; induction (mounts_of s) as [|m ms IH]; simpl; [done|]; repeat case_match; try done; by intros [= <-].
    + case_match; [apply wp_ret; split_and!; [done|answers|]; intros _; split_and!; [done|done|by eapply described_target]|].
      apply wp_bind, (get_image_spec world ok Hfree). intros y r2 C2. apply wp_ret.
      split_and!; [by eapply calls_trans| |].
      * destruct y as [im|e]; [|simpl; answers]. pose proof (image_codes_good c im). simpl. destruct (image_codes c im); [answers|done].
      * intros _. split_and!; [done|by eapply calls_in|by eapply described_target].
Qed.

(** ** Putting the host back *)

Lemma discard_spec created f r (Q : bool -> Run -> Prop) :
  (forall x, ok (events r) (Called (DeleteContainer created f) x)) -> (forall b r', calls r r' -> Q b r') ->
  wp (discard world created f) Q r.
Proof. intros Hd H. apply wp_bind, (wp_post world ok); [done|]. intros [st err] r1 C1. apply wp_ret. auto. Qed.

(** What [settle] needs: a container with an ID, or a stray one found under the name. *)
Lemma settle_spec s created o r (Q : bool -> Run -> Prop) :
  (unanswered o = false -> forall x, ok (events r) (Called (DeleteContainer created true) x)) ->
  (forall r' c x, calls r r' -> (exists st, c_state c = Some st /\ sr_status st = "created") -> ValidExecID (c_id c) = true ->
     (created <> "" /\ read_as created c (events r') \/ created = "" /\ stray s c /\ read_as (s_container s) c (events r')) ->
     ok (events r') (Called (DeleteContainer (c_id c) false) x)) ->
  (forall b r', calls r r' -> Q b r') -> wp (settle world s created o) Q r.
Proof.
  intros Hforce Hstray H. unfold settle. destruct (unanswered o); [|by apply discard_spec; [apply Hforce|]].
  apply wp_bind, (current_spec world ok Hfree); [intros; by apply wp_ret, H|]. intros c st r1 C1 Hread Hst.
  destruct (ValidExecID (c_id c)) eqn:Ev; simpl; [|by apply wp_ret, H].
  destruct (_ || _) eqn:E; [by apply wp_ret, H|].
  apply orb_false_iff in E as [E1%negb_false_iff%bool_decide_eq_true E2].
  apply discard_spec; [|intros b r2 C2; by eapply H, calls_trans]. intros x. eapply Hstray; [done|by eauto|done|].
  destruct (decide (created = "")) as [->|Hne]; [right|left]; [|by rewrite bool_decide_false in Hread].
  simpl in *. rewrite !orb_false_iff in E2. destruct E2 as [[En%negb_false_iff%bool_decide_eq_true _] Ei%bool_decide_eq_false].
  repeat split; eauto.
Qed.

Lemma reclaim_spec req p r (Q : bool -> Run -> Prop) :
  (forall r' c x, calls r r' -> stray (p_s p) c -> read_as (s_container (p_s p)) c (events r') ->
     ok (events r') (Called (DeleteContainer (c_id c) false) x)) ->
  (forall b r', calls r r' -> Q b r') -> wp (reclaim world req p) Q r.
Proof.
  intros Hstray H. unfold reclaim. destruct (_ || _); [apply wp_ret, H, calls_refl|].
  apply wp_bind, (current_spec world ok Hfree); [intros; by apply wp_ret, H|]. intros c st r1 C1 Hread Hst.
  destruct (_ || _) eqn:E; [by apply wp_ret, H|].
  rewrite !orb_false_iff, !negb_false_iff, !bool_decide_eq_true, !bool_decide_eq_false in E.
  destruct E as [[[[[Ev Ei] En] Es] _] _].
  apply discard_spec; [|intros b r2 C2; by eapply H, calls_trans]. intros x. apply Hstray; [done| |done]. repeat split; eauto.
Qed.

(** ** Watching and creating *)

Lemma watch_ended_good c a : watch_ended c = Some a -> good a.
Proof. unfold watch_ended. repeat case_match; intros; simplify_eq; answers. Qed.

Lemma watch_loop_spec fuel id end_ r : wp (watch_loop world fuel id end_) (fun a r' => calls r r' /\ good a) r.
Proof.
  revert r; induction fuel as [|fuel IH]; intros r; [apply wp_ret; split; [apply calls_refl|answers]|]. simpl.
  apply wp_bind, (get_container_spec world ok Hfree); [intros; apply wp_ret; split; [done|answers]|]. intros c r1 C1 _.
  destruct (watch_ended c) as [a|] eqn:E; [apply wp_ret; split; [done|by eapply watch_ended_good]|].
  apply wp_bind, (wp_now world ok Hfree). intros t r2 C2. assert (C12 : calls r r2) by by eapply calls_trans.
  case_match; [apply wp_ret; split; [done|answers]|].
  apply wp_bind, (wp_now world ok Hfree). intros t' r3 C3. apply wp_bind, (wp_sleep world ok Hfree). intros w r4 C4.
  assert (C14 : calls r r4) by (eapply calls_trans; [exact C12|]; by eapply calls_trans).
  destruct w as [l|]; [apply wp_ret; split; [done|answers]|].
  eapply wp_mono; [apply IH|]. intros a r5 [C5 Hg]. split; [by eapply calls_trans|done].
Qed.
Lemma watch_spec id r : wp (watch world id) (fun a r' => calls r r' /\ good a) r.
Proof.
  apply wp_bind, (wp_now world ok Hfree). intros t r1 C1. eapply wp_mono; [apply watch_loop_spec|].
  intros a r2 [C2 Hg]. split; [by eapply calls_trans|done].
Qed.

Lemma connect_all_spec id l r :
  (forall r' n x, calls r r' -> ok (events r') (Called (ConnectNetwork (net_name n) id (endpoint n)) x)) ->
  wp (connect_all world id l) (fun a r' => calls r r' /\ good a) r.
Proof.
  revert r; induction l as [|n l IH]; intros r Hn; simpl; [apply wp_ret; split; [apply calls_refl|answers]|].
  apply wp_bind, (wp_call world ok); [intros x; apply Hn, calls_refl|]. intros [lo st|st b] r1 C1 _; [apply wp_ret; split; [done|answers]|].
  case_match; [apply wp_ret; split; [done|answers]|]. eapply wp_mono; [apply IH|].
  - intros r' m x Hr. apply Hn. by eapply calls_trans.
  - intros a r2 [C2 Hg]. split; [by eapply calls_trans|done].
Qed.

Lemma post_create_spec req p r (Q : Z * option CallErr * option string -> Run -> Prop) :
  (forall x, ok (events r) (Called (CreateContainer (s_container (p_s p)) (create_body req p)) x)) ->
  (forall s err o r', calls r r' ->
     (s = 201 -> forall id, o = Some id -> ValidExecID id = true -> made (events r') id) -> Q (s, err, o) r') ->
  wp (post_create world req p) Q r.
Proof.
  intros Hc H. apply (wp_postJSON world ok); [done|]. intros s err o r' Hr Ho. apply H; [done|].
  intros -> id -> Hv. destruct (Ho id eq_refl) as (_ & b & Hb & Hin). destruct b; simplify_eq/=. split; eauto.
Qed.

(** The create request, and the ID only when it is this run's own. *)
Lemma create_calls_spec req p r :
  (forall r' x, calls r r' -> ok (events r') (Called (CreateContainer (s_container (p_s p)) (create_body req p)) x)) ->
  (forall r' c x, calls r r' -> stray (p_s p) c -> read_as (s_container (p_s p)) c (events r') ->
     ok (events r') (Called (DeleteContainer (c_id c) false) x)) ->
  (forall r' id n x, calls r r' -> made (events r') id -> ok (events r') (Called (ConnectNetwork (net_name n) id (endpoint n)) x)) ->
  wp (create_calls world req p) (fun a r' => calls r r' /\ good a.1 /\
    (a.2 <> "" -> made (events r') a.2) /\ (outcome_of a.1 = OutcomeSucceeded -> a.2 <> "")) r.
Proof.
  intros Hc Hd Hn. apply wp_bind, post_create_spec; [intros; apply Hc, calls_refl|]. intros s1 err1 o1 r1 C1 Ho1.
  apply wp_bind. apply (wp_mono _ (fun x r' => calls r r' /\ (x.1.1 = 201 -> forall id, x.2 = Some id -> ValidExecID id = true -> made (events r') id))).
  { case_match; [|by apply wp_ret].
    apply wp_bind, reclaim_spec; [intros; apply Hd; [by eapply calls_trans|done..]|]. intros b r2 C2.
    assert (C12 : calls r r2) by by eapply calls_trans.
    destruct b; [|apply wp_ret; split; [done|intros; eapply made_in; [exact C2|by apply Ho1]]].
    apply post_create_spec; [intros; by apply Hc|]. intros s2 err2 o2 r3 C3 Ho2. split; [by eapply calls_trans|done]. }
  intros [[st err] out] r2 [C2 Ho]. simpl in Ho.
  destruct (isSome err || negb (st =? StatusCreated)) eqn:E.
  { apply wp_ret. split_and!; [done|case_match; answers|done|]. intros Es. exfalso. revert Es. simpl. case_match; [done|]. apply outcomeFor_not. }
  apply orb_false_iff in E as [_ E%negb_false_iff%Z.eqb_eq].
  destruct out as [id|]; [|apply wp_ret; split_and!; [done|answers|done..]].
  destruct (ValidExecID id) eqn:Ev; simpl; [|apply wp_ret; split_and!; [done|answers|done..]].
  specialize (Ho E id eq_refl Ev). assert (Hne : id <> "") by (intros ->; by vm_compute in Ev).
  destruct (s_explicit (p_s p)) as [e|]; [|apply wp_ret; split_and!; [done|answers|done..]].
  apply wp_bind. eapply wp_mono; [apply connect_all_spec|].
  - intros r' n x Hr. apply Hn; [by eapply calls_trans|by eapply made_in].
  - intros a r3 [C3 Hg]. apply wp_ret. split_and!; [by eapply calls_trans|done|intros _; by eapply made_in|done].
Qed.
End Specs.
