(* ===== verification/DockerFollows.v ===== *)
(** * The shape of a run's record

    [follows k j r r'] says that [r'] follows [r] by at most [k] steps (and one per newly ensured
    volume, and one more when the run fails on the way) and [j] identities, all of them valid in a
    result; that the outcome is fixed by the first failure; and that a run that has failed makes
    no call.  It is what every phase of a deployment does. *)
From Stdlib Require Import ZArith Lia Ascii String.
From stdpp Require Import base gmap sets strings list.
From S2P Require Import Prelude.
From S2P Require Import Regex.
From S2P Require Import Grammar.
From S2P Require Import Inspection.
From S2P Require Import Frame.
From S2P Require Import Engine.
From S2P Require Import ContainerBody.
From S2P Require Import DockerRun.
From S2P Require Import DockerDeploy.
From S2P Require Import DockerCodes.
From S2P Require Import DockerLogic.
From S2P Require Import DockerSpecs.

Definition step_fine (s : DeploymentStep) : Prop := step_validate s = Ok tt.
Definition id_fine (i : DeploymentIdentity) : Prop := re_match deploymentService (id_service i) = true /\ identity_valid i = true.

(** A step with a quiet outcome, and one with a good answer. *)
Lemma step_fine_quiet svc stp o :
  re_match deploymentService svc = true -> stp ∈ deploymentSteps -> o = OutcomeSucceeded \/ o = OutcomeSkipped ->
  step_fine (mkStep svc stp o "" "").
Proof.
  intros Hs Ht Ho. unfold step_fine, step_validate. cbn [st_service st_step st_outcome st_code st_detail].
  rewrite Hs, (bool_decide_true _ Ht). destruct Ho as [->| ->], (bool_decide (stp = "volume")); reflexivity.
Qed.
Lemma step_fine_failed svc stp a :
  re_match deploymentService svc = true -> stp ∈ deploymentSteps -> good a -> outcome_of a <> OutcomeSucceeded ->
  step_fine (mkStep svc stp (outcome_of a) a.1.2 a.2).
Proof.
  intros Hs Ht [Hg|(Ho & Hv & Hl)] Hne; [done|]. unfold step_fine, step_validate. cbn [st_service st_step st_outcome st_code st_detail].
  rewrite Hs, (bool_decide_true _ Ht). replace (len a.2 >? MaxDeploymentStepDetailBytes) with false.
  2:{ symmetry. rewrite Z.gtb_ltb. by apply Z.ltb_ge. }
  unfold failures in Ho. rewrite !elem_of_cons, elem_of_nil in Ho.
  destruct Ho as [E|[E|[E|[E|[]]]]]; rewrite E, Hv; reflexivity.
Qed.
Lemma step_fine_recoded svc :
  re_match deploymentService svc = true -> forall o, o ∈ failures -> step_fine (mkStep svc "start" o "start_failed_rolled_back" "").
Proof.
  intros Hs o Ho. apply (step_fine_failed svc "start" (o, "start_failed_rolled_back", "")); [done| | |].
  - by apply (bool_decide_eq_true_1 (_ ∈ deploymentSteps)).
  - right. split; [done|]. split; [vm_compute; reflexivity|]. unfold MaxDeploymentStepDetailBytes, len. simpl. lia.
  - intros E. change (o = OutcomeSucceeded) in E. rewrite E in Ho. by apply (bool_decide_eq_true_2 (_ ∈ failures)) in Ho.
Qed.
Definition rollback_failed_step (svc : string) : DeploymentStep := mkStep svc "rollback" OutcomeFailed "rollback_failed" "".
Lemma step_fine_rollback svc : re_match deploymentService svc = true -> step_fine (rollback_failed_step svc).
Proof.
  intros Hs. apply (step_fine_failed svc "rollback" (fail "rollback_failed")); [done| | |done].
  - by apply (bool_decide_eq_true_1 (_ ∈ deploymentSteps)).
  - by apply good_plain; vm_compute.
Qed.

Definition slack (r r' : Run) : nat := if bool_decide (outcome r = "") && negb (bool_decide (outcome r' = "")) then 1 else 0.

Section Follows.
Context (ok : list Event -> Event -> Prop).
(** The volumes a run may ensure, and whether a step may be skipped in a run that has not failed. *)
Context (vols : gset string) (skips : bool).
(** The steps of the phase. *)
Context (stps : list string).
Notation calls := (calls ok).

Record follows (k j : nat) (r r' : Run) : Prop := mkFollows {
  fo_events : exists new, events r' = new ++ events r /\ respects ok new (events r);
  fo_steps : exists new, steps r' = steps r ++ new /\ (Forall step_fine new /\ Forall (fun s => st_step s ∈ stps) new) /\
    (length new + size (ensured r) <= k + slack r r' + size (ensured r'))%nat /\
    (outcome r' = "" -> Forall (fun s => st_outcome s = OutcomeSucceeded \/ skips = true) new);
  fo_services : exists new, services r' = services r ++ new /\ Forall id_fine new /\ (length new <= j)%nat;
  fo_outcome : outcome r = "" ->
    (outcome r' = "" /\ rcode r' = rcode r) \/ (outcome r' ∈ failures /\ rcode r' = "step_failed");
  fo_stuck : outcome r <> "" -> outcome r' = outcome r /\ rcode r' = rcode r /\ events r' = events r /\ services r' = services r;
  fo_ensured : ensured r ⊆ ensured r' /\ (ensured r ⊆ vols -> ensured r' ⊆ vols);
  fo_begun : begun r = true -> begun r' = true;
  fo_began : begun_ok r -> begun_ok r' }.

Lemma not_empty o : o ∈ failures -> o <> "".
Proof. intros H ->. by apply (bool_decide_eq_true_2 (_ ∈ failures)) in H. Qed.

Lemma follows_trans k1 k2 j1 j2 r1 r2 r3 : follows k1 j1 r1 r2 -> follows k2 j2 r2 r3 -> follows (k1 + k2) (j1 + j2) r1 r3.
Proof.
  intros [(e1 & E1 & R1) (s1 & S1 & F1 & L1 & C1) (i1 & I1 & G1 & M1) O1 T1 [N1 N1'] B1 W1]
         [(e2 & E2 & R2) (s2 & S2 & F2 & L2 & C2) (i2 & I2 & G2 & M2) O2 T2 [N2 N2'] B2 W2].
  assert (Hs : (slack r1 r2 + slack r2 r3 = slack r1 r3)%nat).
  { unfold slack. destruct (decide (outcome r1 = "")) as [H1|H1].
    - rewrite (bool_decide_true (outcome r1 = "")) by done. destruct (decide (outcome r2 = "")) as [H2|H2].
      + by rewrite (bool_decide_true (outcome r2 = "")) by done.
      + rewrite (bool_decide_false (outcome r2 = "")) by done. destruct (T2 H2) as (-> & _).
        by rewrite (bool_decide_false (outcome r2 = "")) by done.
    - rewrite (bool_decide_false (outcome r1 = "")) by done. destruct (T1 H1) as (-> & _).
      by rewrite (bool_decide_false (outcome r1 = "")) by done. }
  split.
  - exists (e2 ++ e1). rewrite E2, E1, <- app_assoc. split; [done|]. apply respects_app. rewrite <- E1. auto.
  - exists (s1 ++ s2). rewrite S2, S1, <- app_assoc. split; [done|]. split; [split; apply Forall_app; naive_solver|].
    rewrite length_app. split; [lia|]. intros H. apply Forall_app. split; [|auto]. apply C1.
    destruct (decide (outcome r2 = "")) as [|H2]; [done|]. destruct (T2 H2) as (E & _). congruence.
  - exists (i1 ++ i2). rewrite I2, I1, <- app_assoc, length_app. split; [done|]. split; [by apply Forall_app|lia].
  - intros H. destruct (O1 H) as [[H2 H2']|[H2 H2']].
    + destruct (O2 H2) as [[? ?]|?]; [left; split; congruence|by right].
    + destruct (T2 (not_empty _ H2)) as (-> & -> & _). auto.
  - intros H. destruct (T1 H) as (X1 & X2 & X3 & X4). rewrite <- X1 in H. destruct (T2 H) as (Y1 & Y2 & Y3 & Y4).
    repeat split; congruence.
  - split; [set_solver|auto].
  - auto.
  - auto.
Qed.

Lemma follows_weaken k k' j j' r r' : (k <= k')%nat -> (j <= j')%nat -> follows k j r r' -> follows k' j' r r'.
Proof.
  intros Hk Hj [E (s & S & F & L & C) (i & I & G & M) O T N B W]. split; try done.
  - exists s. split; [done|]. split; [done|]. split; [lia|done].
  - exists i. repeat split; try done. lia.
Qed.
Lemma follows_refl r : follows 0 0 r r.
Proof.
  split; try done.
  - by exists [].
  - exists []. rewrite app_nil_r. repeat split; [constructor|constructor|simpl; unfold slack; lia|constructor].
  - exists []. rewrite app_nil_r. repeat split; [constructor|simpl; lia].
  - auto.
Qed.

(** What runs inside one step: calls, and in a start the identity found. *)
Inductive moved (r : Run) : nat -> Run -> Prop :=
| moved_calls j r1 : calls r r1 -> moved r j r1
| moved_service r0 i : calls r r0 -> id_fine i -> moved r 1 (add_service i r0).

Lemma moved_same r j r1 : moved r j r1 ->
  (exists new, events r1 = new ++ events r /\ respects ok new (events r)) /\
  outcome r1 = outcome r /\ rcode r1 = rcode r /\ steps r1 = steps r /\ ensured r1 = ensured r /\
  (exists new, services r1 = services r ++ new /\ Forall id_fine new /\ (length new <= j)%nat) /\
  (begun r = true -> begun r1 = true) /\ (begun_ok r -> begun_ok r1).
Proof.
  intros [j' r1' [E (S1 & S2 & S3 & S4 & S5) B W]|r0 i [E (S1 & S2 & S3 & S4 & S5) B W] Hi].
  - split_and!; try done. exists []. rewrite app_nil_r. repeat split; [done|constructor|simpl; lia].
  - split_and!; try done. exists [i]. simpl. rewrite S4. repeat split; [by constructor|lia].
Qed.

Lemma moved_follows r j r1 : moved r j r1 -> outcome r = "" -> follows 0 j r r1.
Proof.
  intros (E & O & C & S & N & I & B & W)%moved_same Ho. split; try done.
  - exists []. rewrite app_nil_r, N. repeat split; [done|constructor|constructor|simpl; unfold slack; lia|constructor].
  - intros _. left. split; congruence.
  - rewrite N. auto.
Qed.

Context (Hstps : forall stp, stp ∈ stps -> stp ∈ deploymentSteps) (svc : string) (Hsvc : re_match deploymentService svc = true).

Lemma follows_skip stp r : stp ∈ stps -> outcome r <> "" -> follows 1 0 r (add_step (mkStep svc stp OutcomeSkipped "" "") r).
Proof.
  intros Ht Ho. split; try done.
  - by exists [].
  - exists [mkStep svc stp OutcomeSkipped "" ""]. simpl. repeat split; [|by repeat constructor|lia|done].
    constructor; [|constructor]. apply step_fine_quiet; auto.
  - exists []. rewrite app_nil_r. repeat split; [constructor|simpl; lia].
Qed.

(** A step that ran, possibly followed by a further step [extra] when it failed. *)
Lemma follows_settled stp r j r1 a extra :
  stp ∈ stps -> moved r j r1 -> outcome r = "" -> good a -> Forall step_fine extra /\ Forall (fun s => st_step s ∈ stps) extra ->
  (length extra <= (if bool_decide (outcome_of a = OutcomeSucceeded) then 0 else 1))%nat ->
  follows 1 j r (foldl (fun r s => add_step s r) (settled_step svc stp a r1) extra).
Proof.
  intros Ht (E & O & C & S & N & I & B & W)%moved_same Ho Hg Hf Hl.
  assert (Hx : forall r0 l, events (foldl (fun r s => add_step s r) r0 l) = events r0 /\ outcome (foldl (fun r s => add_step s r) r0 l) = outcome r0 /\
     rcode (foldl (fun r s => add_step s r) r0 l) = rcode r0 /\ steps (foldl (fun r s => add_step s r) r0 l) = steps r0 ++ l /\
     services (foldl (fun r s => add_step s r) r0 l) = services r0 /\ ensured (foldl (fun r s => add_step s r) r0 l) = ensured r0 /\
     begun (foldl (fun r s => add_step s r) r0 l) = begun r0).
  { clear. intros r0 l. revert r0; induction l as [|s l IH]; intros r0; simpl; [by rewrite app_nil_r|].
    destruct (IH (add_step s r0)) as (-> & -> & -> & -> & -> & -> & ->). simpl. by rewrite <- app_assoc. }
  set (r' := foldl _ _ extra). destruct (Hx (settled_step svc stp a r1) extra) as (X1 & X2 & X3 & X4 & X5 & X6 & X7).
  fold r' in X1, X2, X3, X4, X5, X6, X7. clearbody r'. unfold settled_step in *.
  destruct (bool_decide (outcome_of a = OutcomeSucceeded)) eqn:Ea; simpl in *.
  - destruct extra; [|simpl in Hl; lia]. apply bool_decide_eq_true in Ea. split.
    + by rewrite X1.
    + exists [mkStep svc stp OutcomeSucceeded "" ""]. rewrite X4, X6, N, S, app_nil_r. simpl. split; [done|]. split.
      { split; [|by repeat constructor]. constructor; [|constructor]. apply step_fine_quiet; auto. } split; [lia|]. intros _. constructor; [by left|constructor].
    + by rewrite X5.
    + intros _. left. by rewrite X2, X3, O, C.
    + done.
    + rewrite X6, N. auto.
    + by rewrite X7.
    + unfold begun_ok in *. by rewrite X7, X1.
  - assert (Hne : outcome_of a <> OutcomeSucceeded) by by apply bool_decide_eq_false in Ea.
    assert (Hoa : outcome_of a ∈ failures) by (destruct Hg as [?|[? _]]; done).
    split.
    + by rewrite X1.
    + exists (mkStep svc stp (outcome_of a) a.1.2 a.2 :: extra). rewrite X4, X6, N, S, <- app_assoc. simpl. split; [done|]. split.
      { destruct Hf as [Hf Hf']. split; [|by constructor]. constructor; [|done]. by apply step_fine_failed; auto. }
      split; [|rewrite X2; intros H; by apply not_empty in Hoa].
      unfold slack. rewrite (bool_decide_true (outcome r = "")), X2, (bool_decide_false (outcome_of a = "")) by auto using not_empty. simpl. lia.
    + by rewrite X5.
    + intros _. right. by rewrite X2, X3.
    + done.
    + rewrite X6, N. auto.
    + by rewrite X7.
    + unfold begun_ok in *. by rewrite X7, X1.
Qed.

(** The rule for one step: what the caller may rely on when it was skipped and when it ran. *)
Lemma follows_step {A} stp (skip : A) m r j (Q : A -> Run -> Prop) :
  stp ∈ stps ->
  (forall r', outcome r <> "" -> follows 1 0 r r' -> outcome r' = outcome r -> events r' = events r -> Q skip r') ->
  (outcome r = "" -> wp m (fun aa r1 => moved r j r1 /\ good aa.1 /\
     (follows 1 j r (settled_step svc stp aa.1 r1) -> Q aa.2 (settled_step svc stp aa.1 r1))) r) ->
  wp (step svc stp skip m) Q r.
Proof.
  intros Ht Hs Hr. apply wp_step.
  - intros Ho. apply Hs; [done|by apply follows_skip|done..].
  - intros Ho. eapply wp_mono; [by apply Hr|]. intros [a x] r1 (Hm & Hg & Hq). apply Hq.
    apply (follows_settled stp r j r1 a []); simpl; try done. case_match; lia.
Qed.
End Follows.


(** A phase under a weaker rule, among more steps. *)
Lemma follows_mono (ok ok' : list Event -> Event -> Prop) vols skips stps stps' k j r r' :
  (forall l e, ok l e -> ok' l e) -> (forall s, s ∈ stps -> s ∈ stps') ->
  follows ok vols skips stps k j r r' -> follows ok' vols skips stps' k j r r'.
Proof.
  intros Hok Hst [(e & E & R) (s & S & [F1 F2] & L & C) I O T N B W]. split; try done.
  - exists e. split; [done|]. by eapply respects_impl.
  - exists s. repeat split; try done. eapply Forall_impl; [exact F2|]. auto.
Qed.

Arguments follows_trans {_ _ _ _ _ _ _ _ _ _ _} _ _.
Arguments fo_stuck {_ _ _ _ _ _ _ _} _ _.
Arguments follows_weaken {_ _ _ _ _} _ {_} _ {_ _} _ _ _.
