(* ===== verification/DockerSafety.v ===== *)
(** * A deployment touches only what it was sent for

    What a run of [Deploy] may do to a host, whatever the host answers.  [allowed] is the rule its
    calls obey; the lemmas take each phase of deploy.go through it, and through the shape of the
    record it leaves ([follows]). *)
From Stdlib Require Import ZArith Lia Ascii String.
From stdpp Require Import base gmap sets strings list.
From S2P Require Import Prelude.
From S2P Require Import Regex.
From S2P Require Import Grammar.
From S2P Require Import Inspection.
From S2P Require Import Frame.
From S2P Require Import Engine.
From S2P Require Import ContainerBody.
From S2P Require Import DockerRun.
From S2P Require Import DockerDeploy.
From S2P Require Import DockerCodes.
From S2P Require Import DockerLogic.
From S2P Require Import DockerSpecs.
From S2P Require Import DockerFollows.

(** ** A validated frame *)

Definition frame_volumes (req : DeploymentRequest) : gset string := list_to_set (dr_volumes req).
Record frame_ok (req : DeploymentRequest) : Prop := {
  fr_service : forall s, s ∈ dr_services req -> service_ok (dr_explicit req) s = true;
  fr_volume : forall s m, s ∈ dr_services req -> m ∈ mounts_of s -> m_kind m = MountVolume -> m_source m ∈ frame_volumes req;
  fr_count : (length (dr_services req) <= 100)%nat /\ (size (frame_volumes req) <= 64)%nat;
  fr_replaced : NoDup (map (fun s => it_container (s_replaces s)) (dr_services req));
  fr_request : ValidRequestID (dr_request req) = true }.

Lemma validated req t : request_validate_for RuntimeDocker req t = Ok tt -> frame_ok req.
Proof.
  unfold request_validate_for. intros H. refusals H. apply negb_false_iff in Hg. unfold for_runtime in Hg.
  change (bool_decide (RuntimeDocker = RuntimeKubernetes)) with false in Hg.
  assert (Hk : dr_kubernetes req = None).
  { destruct (dr_kubernetes req); [|done]. by rewrite bool_decide_true in Hg by eauto. }
  unfold request_validate in H. refusals H. rewrite Hk in H. refusals H.
  pose proof (validate_docker_ok _ H) as HD. unfold validate_docker in H. refusals H.
  match goal with H : services_loop _ _ _ = _ |- _ => rename H into Hl end.
  match goal with H : (llen (dr_services req) =? 0) || _ = false |- _ => apply orb_false_iff in H as [_ Hn] end.
  match goal with H : (llen (dr_volumes req) >? _) = false |- _ => rename H into Hv end.
  rewrite Z.gtb_ltb, Z.ltb_ge in Hn, Hv. unfold llen, MaxDeploymentServices, MaxDeploymentVolumes in *.
  split.
  - intros s Hs. revert s Hs. apply Forall_forall. eapply (loop_all (dr_explicit req)); [|exact Hl].
    by intros x s b (? & _)%service_step_parts.
  - intros s m Hs Hm Hkind. unfold frame_volumes. apply elem_of_list_to_set. apply (proj2 (df_volumes _ HD)).
    destruct (df_mounts _ HD s Hs) as (ms & Hms & _). unfold mounts_of in Hm. rewrite Hms in Hm. by exists s, ms, m.
  - split; [lia|]. unfold frame_volumes. rewrite size_list_to_set by apply (df_volumes _ HD). lia.
  - apply (df_replaced _ HD).
  - match goal with H : negb (re_match deploymentUUID _) || _ || _ || _ || _ = false |- _ => rename H into Hi end.
    apply orb_false_iff in Hi as [[[[_ Hr]%orb_false_iff _]%orb_false_iff _]%orb_false_iff _]. by apply negb_false_iff in Hr.
Qed.

Lemma service_ok_name e s : service_ok e s = true -> re_match deploymentService (s_name s) = true.
Proof. unfold service_ok. rewrite !andb_true_iff. tauto. Qed.
Lemma service_ok_digest e s p : service_ok e s = true -> s_pull s = Some p -> re_match imageID (pull_digest p) = true.
Proof.
  unfold service_ok. rewrite !andb_true_iff. intros H Hp. assert (Hi : image_ok s = true) by tauto. clear H.
  unfold image_ok in Hi. rewrite Hp in Hi. apply andb_true_iff in Hi as [_ Hi]. unfold pull_valid in Hi.
  destruct (SplitImageReference _) as [n d]. destruct (_ || _) eqn:E; [done|].
  apply orb_false_iff in E as [[_ E1%negb_false_iff]%orb_false_iff E2%negb_false_iff%bool_decide_eq_true]. by subst.
Qed.

(** The service of a prepared replacement is the frame's, with the image its pull resolved. *)
Record same_service (s0 s : DeploymentService) : Prop := {
  sv_name : s_name s = s_name s0;
  sv_container : s_container s = s_container s0;
  sv_replaces : s_replaces s = s_replaces s0;
  sv_pull : s_pull s = s_pull s0;
  sv_explicit : s_explicit s = s_explicit s0;
  sv_image : s_pull s0 = None -> s_image s = s_image s0 }.
Lemma same_refl s : same_service s s.
Proof. done. Qed.

(** ** The rule *)

Section Rule.
Context (self : string) (req : DeploymentRequest).

(** A container the frame replaces; never the agent's own. *)
Definition replaces (id : string) : Prop :=
  isSelf self id = false /\ exists s, s ∈ dr_services req /\ run req s = false /\ it_container (s_replaces s) = id.

(** Its replacement was created by this run, started, and read back under its ID with the image
    the frame pins. *)
Definition superseded (l : list Event) (id : string) : Prop :=
  exists s new c st b, s ∈ dr_services req /\ it_container (s_replaces s) = id /\ made l new /\
    Called (StartContainer new) (Answered st b) ∈ l /\ st < 400 /\ read_as new c l /\ c_id c = new /\
    (s_pull s = None -> c_image c = s_image s).

(** A container read, before, as never started: this run's own, or one holding a service's name. *)
Definition never_started (l : list Event) (id : string) : Prop :=
  exists ref c, read_as ref c l /\ c_id c = id /\ (exists st, c_state c = Some st /\ sr_status st = "created") /\
    (made l ref \/ exists s, s ∈ dr_services req /\ ref = s_container s /\ stray s c).

(** The rule, with the containers [tgt] that may be renamed, stopped, paused, revived and, once
    superseded, removed. *)
Definition allowed_on (tgt : string -> Prop) (l : list Event) (e : Event) : Prop :=
  match e with
  | Called c _ =>
      harmless c = true \/
      (Began ∈ l /\
       match c with
       | RenameContainer id _ | StopContainer id _ | PauseContainer id => tgt id
       | CreateContainer name _ => exists s, s ∈ dr_services req /\ s_container s = name
       | ConnectNetwork _ id _ => made l id
       | StartContainer id => tgt id \/ made l id
       | DeleteContainer id true => made l id
       | DeleteContainer id false => tgt id /\ superseded l id \/ never_started l id
       | _ => False
       end)
  | _ => True
  end.
Definition allowed : list Event -> Event -> Prop := allowed_on replaces.

Lemma allowed_on_free tgt l e : free e = true -> allowed_on tgt l e.
Proof. destruct e; simpl; auto. Qed.
Lemma allowed_on_mono (tgt tgt' : string -> Prop) l e : (forall id, tgt id -> tgt' id) -> allowed_on tgt l e -> allowed_on tgt' l e.
Proof.
  intros H. destruct e as [c x| | | |]; simpl; try done. intros [?|[Hb Hc]]; [by left|right]. split; [done|].
  destruct c; auto; [naive_solver|destruct force; naive_solver].
Qed.

Lemma allowed_free l e : free e = true -> allowed l e.
Proof. apply allowed_on_free. Qed.
End Rule.

Definition phase_one : list string := ["precondition"; "volume"; "image"; "pull"].
Definition phase_two : list string := ["recheck"; "rename"; "create"; "stop"; "start"; "remove"; "rollback"].
Lemma step_in (l : list string) stp : bool_decide (stp ∈ l) = true -> stp ∈ l.
Proof. by intros ?%bool_decide_eq_true. Qed.
Lemma steps_in (l : list string) : forallb (fun s => bool_decide (s ∈ deploymentSteps)) l = true -> forall s, s ∈ l -> s ∈ deploymentSteps.
Proof. rewrite List.forallb_forall. intros H s Hs%list_elem_of_In. by apply H, bool_decide_eq_true in Hs. Qed.

(** A replacement ready for phase two. *)
Record ready (self : string) (req : DeploymentRequest) (s0 : DeploymentService) (p : prepared) (r : Run) : Prop := {
  rd_service : same_service s0 (p_s p);
  rd_cleared : run req s0 = false -> outcome r = "" -> isSelf self (it_container (s_replaces s0)) = false }.

(** ** Phase one, under any rule that lets harmless calls through *)

Section PhaseOne.
Context (world : World) (self : string) (req : DeploymentRequest) (Hframe : frame_ok req).
Context (ok : list Event -> Event -> Prop) (Hfree : forall l e, free e = true -> ok l e).
Notation calls := (calls ok).
Notation follows := (follows ok (frame_volumes req) false phase_one).
Notation ready := (ready self req).
Local Definition Hone : forall s, s ∈ phase_one -> s ∈ deploymentSteps := steps_in phase_one eq_refl.

Lemma follows_ensured v r : v ∉ ensured r -> v ∈ frame_volumes req -> outcome r = "" \/ outcome r <> "" ->
  forall k j r', follows (S k) j (with_ensured v r) r' -> follows k j r r'.
Proof.
  intros Hn Hv _ k j r' [E (s & S & F & L & C) I O T [N N'] B W]. split; try done.
  - exists s. split; [done|]. split; [done|]. split; [|done]. simpl in L. rewrite size_union in L by set_solver. rewrite size_singleton in L.
    unfold slack in *. simpl in *. lia.
  - simpl in *. split; [set_solver|]. intros Hs. apply N'. set_solver.
Qed.

Lemma ensure_loop_spec s old l r :
  re_match deploymentService (s_name s) = true -> (forall m, m ∈ l -> m_kind m = MountVolume -> m_source m ∈ frame_volumes req) ->
  wp (ensure_loop world req s old l) (fun _ r' => follows 0 0 r r') r.
Proof.
  intros Hs. revert r; induction l as [|m l IH]; intros r Hl; simpl; [apply wp_ret, follows_refl|].
  apply wp_bind, wp_reads. destruct (_ || _) eqn:E; [apply IH; set_solver|].
  apply orb_false_iff in E as [Ek%negb_false_iff%bool_decide_eq_true Ee%bool_decide_eq_false].
  apply wp_bind, wp_modify, wp_bind.
  assert (Hv : m_source m ∈ frame_volumes req) by (apply Hl; [left|done]).
  assert (Hend : forall r1, follows 1 0 (with_ensured (m_source m) r) r1 ->
    wp (ensure_loop world req s old l) (fun _ r' => follows 0 0 r r') r1).
  { intros r1 H1. eapply wp_mono; [apply IH; set_solver|]. intros [] r2 H2.
    apply (follows_ensured (m_source m)); [done|done|destruct (decide (outcome r = "")); auto|].
    exact (follows_trans H1 H2). }
  apply (follows_step ok (frame_volumes req) false phase_one Hone _ Hs "volume" tt _ _ 0); [by apply step_in; vm_compute|auto|].
  intros Ho. eapply wp_mono; [apply (volume_step_spec world ok Hfree)|]. intros [a []] r1 [H1 Hg].
  split_and!; [by constructor|done|auto].
Qed.

Lemma image_spec s0 s r :
  s0 ∈ dr_services req -> same_service s0 s ->
  wp (image world req s) (fun s' r' => follows 1 0 r r' /\ same_service s0 s') r.
Proof.
  intros Hin Hs. assert (Hn : re_match deploymentService (s_name s) = true).
  { rewrite (sv_name _ _ Hs). by eapply service_ok_name, (fr_service _ Hframe). }
  unfold image. destruct (s_pull s) as [p|] eqn:Ep.
  - apply (follows_step ok (frame_volumes req) false phase_one Hone _ Hn "pull" s _ _ 0); [by apply step_in; vm_compute|auto|]. intros Ho.
    apply wp_bind. eapply wp_mono; [apply (pull_spec world ok Hfree)|]. intros [a id] r1 [H1 Hg]. apply wp_ret.
    split_and!; [by constructor|done|]. intros Hf. split; [done|]. destruct Hs as [? ? ? Hp ? ?].
    split; try done. intros E. simpl in *. rewrite E in Hp. congruence.
  - apply wp_bind. apply (follows_step ok (frame_volumes req) false phase_one Hone _ Hn "image" tt _ _ 0);
      [by apply step_in; vm_compute|intros r' _ Hf _ _; by apply wp_ret|]. intros Ho.
    eapply wp_mono; [apply (image_step_spec world ok Hfree)|]. intros [a []] r1 [H1 Hg].
    split_and!; [by constructor|done|]. intros Hf. by apply wp_ret.
Qed.

Lemma prepare_spec s r :
  s ∈ dr_services req -> wp (prepare world self req s) (fun p r' => follows 2 0 r r' /\ ready s p r') r.
Proof.
  intros Hin. pose proof (service_ok_name _ _ (fr_service _ Hframe s Hin)) as Hn.
  assert (Hvol : forall m, m ∈ mounts_of s -> m_kind m = MountVolume -> m_source m ∈ frame_volumes req).
  { intros m. by apply fr_volume. }
  unfold prepare. destruct (run req s) eqn:Er.
  - destruct (installerManaged _).
    { apply wp_bind. apply (follows_step ok (frame_volumes req) false phase_one Hone _ Hn "precondition" tt _ _ 0); [by apply step_in; vm_compute| |].
      - intros r' _ Hf _ _. apply wp_ret. split; [by eapply follows_weaken; [..|exact Hf]; lia|]. split; [done|congruence].
      - intros Ho. apply wp_ret. split_and!; [constructor; apply calls_refl|by apply good_plain|]. intros Hf. apply wp_ret.
        split; [by eapply follows_weaken; [..|exact Hf]; lia|]. split; [done|congruence]. }
    destruct (negb _).
    + apply wp_bind. eapply wp_mono; [by apply ensure_loop_spec|]. intros [] r1 H1. apply wp_bind.
      eapply wp_mono; [by apply (image_spec s)|]. intros s' r2 [H2 Hs]. apply wp_ret. split.
      * eapply follows_weaken; [..|exact (follows_trans H1 H2)]; lia.
      * split; [done|congruence].
    + apply wp_ret. split; [eapply follows_weaken; [..|apply follows_refl]; lia|]. split; [done|congruence].
  - apply wp_bind.
    assert (Hrest : forall r1 (seen : Seen), follows 1 0 r r1 -> (outcome r1 = "" -> isSelf self (it_container (s_replaces s)) = false) ->
      wp (let '(before, mode, old) := seen in _ ← ensureVolumes world req s old; s' ← image world req s;
          mret (mkPrepared s' (TrimPrefix (c_name before) "/") mode before)) (fun p r' => follows 2 0 r r' /\ ready s p r') r1).
    { intros r1 [[before mode] old] H1 Hself. apply wp_bind. eapply wp_mono; [by apply ensure_loop_spec|]. intros [] r2 H2.
      apply wp_bind. eapply wp_mono; [by apply (image_spec s)|]. intros s' r3 [H3 Hs]. apply wp_ret. split.
      - eapply follows_weaken; [..|exact (follows_trans (follows_trans H1 H2) H3)]; lia.
      - split; [done|]. intros _ Ho. apply Hself. destruct (decide (outcome r1 = "")) as [|Hne]; [done|].
        destruct (fo_stuck (follows_trans H2 H3) Hne) as (E & _). congruence. }
    apply (follows_step ok (frame_volumes req) false phase_one Hone _ Hn "precondition" unseen _ _ 0); [by apply step_in; vm_compute| |].
    + intros r' Ho Hf Ho' _. apply Hrest; [done|congruence].
    + intros Ho. eapply wp_mono; [apply (precondition_spec world ok Hfree)|]. intros [a seen] r1 (H1 & Hg & Hc).
      split_and!; [by constructor|done|]. intros Hf. apply Hrest; [done|]. simpl in *. unfold settled_step.
      destruct (bool_decide (outcome_of a = OutcomeSucceeded)) eqn:E; [intros _; apply bool_decide_eq_true in E; by apply Hc|].
      simpl. intros Ea. exfalso. destruct Hg as [Hg|[Hg _]]; [by apply bool_decide_eq_false in E|by apply not_empty in Hg].
Qed.
End PhaseOne.

(** ** Phase two *)

Section Phases.
Context (world : World) (self : string) (req : DeploymentRequest) (Hframe : frame_ok req).

Lemma run_same s0 s : same_service s0 s -> run req s = run req s0.
Proof. intros H. unfold run. by rewrite (sv_replaces _ _ H). Qed.

(** One replacement renames, stops and removes one container, the one it replaces. *)
Section Replacement.
Context (s0 : DeploymentService) (p : prepared) (Hin : s0 ∈ dr_services req) (Hsame : same_service s0 (p_s p)).
Definition own_target (id : string) : Prop := replaces self req id /\ id = old_of p.
Notation ok := (allowed_on req own_target).
Notation calls := (calls ok).
Notation follows := (follows ok (frame_volumes req) false phase_two).
Local Definition Hfree := allowed_on_free req own_target.
Local Definition Htwo : forall s, s ∈ phase_two -> s ∈ deploymentSteps := steps_in phase_two eq_refl.

(** ** Putting the host back *)

Definition began (r : Run) : Prop := Began ∈ events r.
Lemma began_calls r r' : calls r r' -> began r -> began r'.
Proof. intros H. by apply (calls_in ok). Qed.

Lemma stray_same x s c : same_service x s -> stray s c -> stray x c.
Proof. intros H (? & ? & Hi & Hn). rewrite (sv_replaces _ _ H) in Hi. rewrite (sv_container _ _ H) in Hn. done. Qed.

Definition target_ok : Prop := own_target (old_of p).

Lemma stray_allowed r c x : began r -> stray (p_s p) c -> read_as (s_container (p_s p)) c (events r) ->
  ok (events r) (Called (DeleteContainer (c_id c) false) x).
Proof.
  intros Hb Hs Hr. right. split; [done|]. right. exists (s_container (p_s p)), c. split; [done|]. split; [done|]. split; [apply Hs|].
  right. exists s0. rewrite (sv_container _ _ Hsame). split_and!; [done|done|by eapply stray_same].
Qed.
Lemma made_allowed r id x : began r -> made (events r) id -> ok (events r) (Called (DeleteContainer id true) x).
Proof. intros Hb Hm. right. done. Qed.

Lemma settle_ok created o r :
  began r -> (created <> "" -> made (events r) created) -> (unanswered o = false -> created <> "") ->
  wp (settle world (p_s p) created o) (fun _ r' => calls r r') r.
Proof.
  intros Hb Hm Hne. apply (settle_spec world ok Hfree); [intros E x; apply made_allowed; auto| |done].
  intros r' c x Hr Hst Hv [[Hc Hread]|(-> & Hs & Hread)].
  - right. split; [by eapply began_calls|]. right. exists created, c. split_and!; [done|done|done|].
    left. eapply made_in; [exact Hr|auto].
  - apply stray_allowed; [by eapply began_calls|done|done].
Qed.

Lemma unpark_ok r : began r -> target_ok -> wp (unpark world p) (fun _ r' => calls r r') r.
Proof. intros Hb Ht. apply wp_bind, (wp_post world ok); [intros x; by right|]. intros y r1 H1. by apply wp_ret. Qed.

Lemma revive_ok paused r : began r -> target_ok -> wp (revive world p paused) (fun _ r' => calls r r') r.
Proof.
  intros Hb Ht. apply wp_bind, (wp_post world ok); [intros x; right; auto|]. intros y r1 H1.
  destruct (negb (accepted y)); [by apply wp_ret|]. destruct (negb paused); [by apply wp_ret|].
  apply wp_bind, (wp_post world ok); [intros x; right; split; [by eapply began_calls|done]|]. intros z r2 H2. apply wp_ret.
  by eapply calls_trans.
Qed.

Lemma unparkIfParked_ok name r : began r -> target_ok -> wp (unparkIfParked world p name) (fun _ r' => calls r r') r.
Proof.
  intros Hb Ht. apply wp_bind, (current_spec world ok Hfree); [intros; by apply wp_ret|]. intros c st r1 H1 _ _.
  destruct (negb _); [by apply wp_ret|]. eapply wp_mono; [apply unpark_ok; [by eapply began_calls|done]|].
  intros b r2 H2. by eapply calls_trans.
Qed.

Lemma reviveIfStopped_ok paused grace r :
  began r -> target_ok -> wp (reviveIfStopped world p paused grace) (fun _ r' => calls r r') r.
Proof.
  intros Hb Ht. apply wp_bind, (wp_now world ok Hfree). intros t0 r1 H1.
  apply wp_bind, (current_spec world ok Hfree); [intros; apply wp_ret; by eapply calls_trans|]. intros c st r2 H2 _ _.
  assert (H12 : calls r r2) by by eapply calls_trans.
  assert (Hrev : forall r3, calls r r3 -> wp (revive world p paused) (fun _ r' => calls r r') r3).
  { intros r3 H3. eapply wp_mono; [apply revive_ok; [by eapply began_calls|done]|]. intros b r4 H4. by eapply calls_trans. }
  destruct (sr_running st); [|by apply Hrev]. apply wp_bind, (wp_now world ok Hfree). intros t1 r3 H3.
  assert (H13 : calls r r3) by by eapply calls_trans. destruct (_ =? 0); [by apply wp_ret|].
  apply wp_bind, wp_bind, (wp_call world ok); [intros; by apply Hfree|]. intros x r4 H4 _. apply wp_ret.
  assert (H14 : calls r r4) by by eapply calls_trans.
  destruct (match x with Lost Expired _ => _ | _ => _ end) as [[]|]; [by apply Hrev|by apply wp_ret..].
Qed.

Lemma undo_ok created o r :
  began r -> (run req (p_s p) = false -> target_ok) -> (created <> "" -> made (events r) created) ->
  wp (undo world req p created o) (fun _ r' => calls r r') r.
Proof.
  intros Hb Ht Hm. apply wp_bind. apply (wp_mono _ (fun _ r' => calls r r')).
  - destruct (decide (created = "")) as [->|Hne]; simpl.
    + destruct (unanswered o) eqn:Eu; [|apply wp_ret, calls_refl]. apply settle_ok; [done|done|congruence].
    + rewrite bool_decide_false by done. apply (discard_spec world ok); [intros; apply made_allowed; auto|done].
  - intros b r1 H1. destruct (negb b); [by apply wp_ret|]. destruct (run req (p_s p)); [by apply wp_ret|].
    eapply wp_mono; [apply unpark_ok; [by eapply began_calls|auto]|]. intros b' r2 H2. by eapply calls_trans.
Qed.

(** ** The steps of a replacement *)

(** What the guarded create leaves: its answer, the ID, and whether the request went out. *)
Definition sent_ok (r : Run) (x : Answer * string * bool) (r' : Run) : Prop :=
  calls r r' /\ good x.1.1 /\ (x.1.2 <> "" -> made (events r') x.1.2) /\
  (outcome_of x.1.1 = OutcomeSucceeded -> x.1.2 <> "") /\ (x.2 = true \/ x.1.2 = "") /\ (x.2 = true -> began r') /\
  (run req (p_s p) = false -> x.2 = true).

Lemma create_step_ok r :
  begun_ok r -> (run req (p_s p) = false -> began r /\ target_ok) ->
  wp (create_step world req p) (fun aa r' => calls r r' /\ good aa.1 /\ (aa.2.1 <> "" -> made (events r') aa.2.1) /\
    (outcome_of aa.1 = OutcomeSucceeded -> aa.2.1 <> "" /\ aa.2.2 = true /\ began r')) r.
Proof.
  intros Hbo Hrun. apply wp_bind.
  apply (wp_mono _ (fun x r' => sent_ok r x r')).
  { assert (Hcalls : forall r1, calls r r1 -> began r1 ->
      wp ('(a, id) ← create_calls world req p; mret (a, id, true)) (fun x r' => sent_ok r x r') r1).
    { intros r1 H1 Hb. apply wp_bind. eapply wp_mono; [apply (create_calls_spec world ok Hfree)|].
      - intros r' x Hr. right. split; [by eapply began_calls|]. exists s0. by rewrite (sv_container _ _ Hsame).
      - intros r' c x Hr Hst Hread. apply stray_allowed; [by eapply began_calls|done|done].
      - intros r' id n x Hr Hm. right. split; [by eapply began_calls|done].
      - intros [a id] r2 (H2 & Hg & Hm & Hne). apply wp_ret. unfold sent_ok. split_and!; auto; [by eapply calls_trans|intros _; by eapply began_calls]. }
    assert (Hstop : forall a r1, calls r r1 -> good a -> outcome_of a <> OutcomeSucceeded -> run req (p_s p) = true ->
      wp (mret (a, "", false)) (fun x r' => sent_ok r x r') r1).
    { intros a r1 H1 Hg Hne Hrn. apply wp_ret. unfold sent_ok. split_and!; simpl; auto; congruence. }
    destruct (run req (p_s p)) eqn:Er; [|apply Hcalls; [apply calls_refl|by apply Hrun]].
    destruct (unacknowledgedBind (p_s p)); [apply Hstop; [apply calls_refl|by apply good_plain|done|done]|].
    apply wp_bind, (wp_until world ok Hfree). intros left r1 H1.
    destruct (left <? replaceBudget); [apply Hstop; [done|by apply good_plain|done|done]|].
    apply wp_bind, (wp_begin world ok); [done|]. intros r2 H2 Hbeg. assert (H12 : calls r r2) by by eapply calls_trans.
    apply Hcalls; [done|]. by apply (ca_began _ _ _ H12). }
  intros [[a created] sent] r1 (H1 & Hg & Hm & Hne & Hsent & Hb & Hrn). simpl in *. apply wp_bind.
  apply (wp_mono _ (fun b r' => calls r1 r' /\ (outcome_of a = OutcomeSucceeded -> b = true))).
  - destruct (bool_decide (outcome_of a = OutcomeSucceeded)) eqn:Ea; [apply wp_ret; split; [apply calls_refl|done]|].
    assert (Hna : outcome_of a <> OutcomeSucceeded) by by apply bool_decide_eq_false in Ea.
    destruct (run req (p_s p) && bool_decide (created = "")) eqn:Ec.
    + destruct (negb sent || negb (unanswered (outcome_of a))) eqn:Eu; [apply wp_ret; split; [apply calls_refl|done]|].
      apply orb_false_iff in Eu as [Es%negb_false_iff Eu%negb_false_iff].
      eapply wp_mono; [apply settle_ok; [auto|done|congruence]|]. done.
    + assert (Hs : sent = true).
      { apply andb_false_iff in Ec as [Er|Ec%bool_decide_eq_false]; [auto|]. by destruct Hsent. }
      eapply wp_mono; [apply undo_ok; [auto|intros; by apply Hrun|done]|]. done.
  - intros restored r2 [H2 Hr]. apply wp_ret. simpl. split_and!; [by eapply calls_trans|done|intros; eapply made_in; eauto|].
    intros Ha. split_and!; [auto|auto|]. eapply began_calls; [exact H2|]. destruct Hsent as [?|E]; [auto|]. by apply Hne in Ha.
Qed.
Lemma recheck_step_ok later r :
  begun_ok r -> wp (recheck_step world req p later) (fun aa r' => calls r r' /\ good aa.1 /\
    (outcome_of aa.1 = OutcomeSucceeded -> began r')) r.
Proof.
  intros Hbo. apply wp_bind, (wp_until world ok Hfree). intros left r1 H1.
  destruct (left <? _); [apply wp_ret; split_and!; [done|by apply good_plain|done]|].
  apply wp_bind, (wp_begin world ok); [done|]. intros r2 H2 Hbeg. assert (H12 : calls r r2) by by eapply calls_trans.
  assert (Hb : began r2) by by apply (ca_began _ _ _ H12).
  apply wp_bind, (get_container_spec world ok Hfree).
  { intros e r3 H3. apply wp_ret. assert (H13 : calls r r3) by by eapply calls_trans.
    split_and!; [done|apply missed_good; by apply good_plain|intros _; by apply (began_calls r2)]. }
  intros c r3 H3 _. assert (H13 : calls r r3) by by eapply calls_trans. assert (Hb3 : began r3) by by apply (began_calls r2).
  destruct (installerManaged _); [apply wp_ret; split_and!; [done|by apply good_plain|done]|].
  destruct (_ || _); [apply wp_ret; split_and!; [done|by apply good_plain|done]|].
  destruct (c_config c); [|apply wp_ret; split_and!; [done|apply good_succeeded|done]].
  apply wp_bind, (wp_until world ok Hfree). intros left' r4 H4. apply wp_ret. assert (H14 : calls r r4) by by eapply calls_trans.
  split_and!; [done|apply good_succeeded|intros _; by apply (began_calls r3)].
Qed.

Lemma rename_step_ok r :
  began r -> target_ok -> wp (rename_step world req p) (fun aa r' => calls r r' /\ good aa.1 /\
    (outcome_of aa.1 = OutcomeSucceeded -> aa.2 = true)) r.
Proof.
  intros Hb Ht. apply wp_bind. apply (wp_mono _ (fun a r' => calls r r' /\ good a)).
  - case_match; [apply wp_ret; split; [apply calls_refl|apply good_succeeded]|].
    apply wp_bind, (wp_post world ok); [intros x; by right|]. intros [st err] r1 H1. apply wp_ret. split; [done|].
    repeat case_match; [by apply good_plain|apply outcomeFor_good|apply good_succeeded].
  - intros a r1 [H1 Hg]. apply wp_bind. destruct (unanswered (outcome_of a)) eqn:Eu; [|by apply wp_ret].
    eapply wp_mono; [apply unparkIfParked_ok; [by eapply began_calls|done]|]. intros b r2 H2. apply wp_ret.
    split_and!; [by eapply calls_trans|done|]. intros E. simpl in E. by rewrite E in Eu.
Qed.

Lemma stop_step_ok created paused was grace r :
  began r -> target_ok -> made (events r) created ->
  wp (stop_step world req p created paused was grace) (fun aa r' => calls r r' /\ good aa.1 /\
    (outcome_of aa.1 = OutcomeSucceeded -> aa.2.2 = true)) r.
Proof.
  intros Hb Ht Hm. apply wp_bind, (wp_post world ok); [intros x; by right|]. intros [st err] r1 H1.
  assert (Hb1 : began r1) by by eapply began_calls.
  destruct (_ || _); [|apply wp_ret; split_and!; [done|apply good_succeeded|done]].
  apply wp_bind. eapply wp_mono; [apply undo_ok; [done|done|intros _; by eapply made_in]|]. intros undone r2 H2.
  assert (H12 : calls r r2) by by eapply calls_trans. apply wp_bind.
  apply (wp_mono _ (fun _ r' => calls r r')).
  - destruct (_ || _); [by apply wp_ret|]. eapply wp_mono; [apply reviveIfStopped_ok; [by eapply began_calls|done]|].
    intros b r3 H3. by eapply calls_trans.
  - intros b r3 H3. apply wp_ret. split_and!; [done|apply outcomeFor_good|]. intros E. by destruct (outcomeFor_not _ _ E).
Qed.

(** A start that succeeds leaves the identity, and what proves it. *)
Definition verified (created : string) (l : list Event) (c : ContainerRead) : Prop :=
  (exists st b, Called (StartContainer created) (Answered st b) ∈ l /\ st < 400) /\ read_as created c l /\
  c_id c = created /\ c_image c = s_image (p_s p).

Lemma identity_fine c :
  target_validate (mkTarget (c_id c) (c_image c) (c_created c) no_workload) = true -> id_fine (identity_of (p_s p) c).
Proof.
  pose proof (fr_service _ Hframe s0 Hin) as Hok. intros Hv. split; simpl.
  - rewrite (sv_name _ _ Hsame). by eapply service_ok_name.
  - unfold identity_valid. simpl. rewrite Hv, (sv_pull _ _ Hsame). destruct (s_pull s0) as [q|] eqn:Eq; [|done].
    rewrite (service_ok_digest _ _ _ Hok Eq). by rewrite orb_true_r.
Qed.

Lemma start_step_ok created watched r :
  began r -> made (events r) created ->
  wp (start_step world (p_s p) created watched) (fun aa r' => moved ok r 1 r' /\ good aa.1 /\
    (outcome_of aa.1 = OutcomeSucceeded -> exists c, verified created (events r') c /\ services r' = services r ++ [identity_of (p_s p) c])) r.
Proof.
  intros Hb Hm. apply wp_bind, (wp_posted world ok); [intros x; right; split; [done|by right]| |].
  { intros l st r1 H1 _. apply wp_ret. split_and!; [by constructor|apply outcomeFor_good|]. intros E. by destruct (outcomeFor_not _ _ E). }
  intros st b r1 H1 He. simpl. destruct ((400 <=? st) && _) eqn:Est.
  { apply wp_ret. split_and!; [by constructor|apply outcomeFor_good|]. intros E. by destruct (outcomeFor_not _ _ E). }
  assert (Hlt : st < 400).
  { apply andb_false_iff in Est as [E%Z.leb_gt|E%negb_false_iff%Z.eqb_eq]; [done|]. rewrite E. unfold StatusNotModified. lia. }
  apply wp_bind. apply (wp_mono _ (fun a r' => calls r1 r' /\ good a)).
  { destruct watched; [apply (watch_spec world ok Hfree)|apply wp_ret; split; [apply calls_refl|apply good_succeeded]]. }
  intros w r2 [H2 Hg]. assert (H12 : calls r r2) by by eapply calls_trans.
  destruct (bool_decide (outcome_of w = OutcomeSucceeded)) eqn:Ew; simpl.
  2:{ apply wp_ret. split_and!; [by constructor|done|]. intros E. by apply bool_decide_eq_false in Ew. }
  assert (Hstarted : Called (StartContainer created) (Answered st b) ∈ events r1) by (rewrite He; left).
  assert (Hid : forall a, good (fail a) -> good (OutcomeFailed, "identity_unverified", created)).
  { intros _ _. right. simpl. split; [left|]. destruct Hm as [Hv _]. split; [exact Hv|].
    pose proof (re_match_len fullDockerID created 64 eq_refl Hv). unfold MaxDeploymentStepDetailBytes. lia. }
  apply wp_bind, (get_container_spec world ok Hfree).
  { intros e r3 H3. apply wp_ret. split_and!; [constructor; by eapply calls_trans| |intros E; by destruct (outcomeFor_not _ _ E)].
    right. simpl. split; [apply outcomeFor_fails|]. destruct Hm as [Hv _]. split; [exact Hv|].
    pose proof (re_match_len fullDockerID created 64 eq_refl Hv). unfold MaxDeploymentStepDetailBytes. lia. }
  intros c r3 H3 Hread. assert (H13 : calls r r3) by by eapply calls_trans.
  destruct (_ || _) eqn:Ec.
  { apply wp_ret. split_and!; [by constructor|by apply (Hid "deadline"), good_plain|done]. }
  rewrite !orb_false_iff, !negb_false_iff, !bool_decide_eq_true in Ec. destruct Ec as [[Ei Eim] Et].
  apply wp_bind, wp_modify, wp_ret. split_and!; [constructor; [done|by apply identity_fine]|apply good_succeeded|]. intros _. exists c. simpl. split.
  - split_and!; [|done..]. exists st, b. split; [|done]. eapply (calls_in ok); [exact H3|]. by apply (calls_in ok r1).
  - by destruct (ca_same _ _ _ H13) as (_ & _ & _ & -> & _).
Qed.

(** ** One replacement *)

Lemma p_name_ok : re_match deploymentService (s_name (p_s p)) = true.
Proof. rewrite (sv_name _ _ Hsame). by eapply service_ok_name, (fr_service _ Hframe). Qed.

Lemma settled_empty stp a r : good a -> outcome (settled_step (s_name (p_s p)) stp a r) = "" -> outcome_of a = OutcomeSucceeded.
Proof.
  unfold settled_step. destruct (bool_decide _) eqn:E; simpl; [by intros; apply bool_decide_eq_true in E|].
  intros [Hg|[Hg _]] Ho; [done|by apply not_empty in Hg].
Qed.

Definition extra_fine (l : list DeploymentStep) : Prop := Forall step_fine l /\ Forall (fun s => st_step s ∈ phase_two) l.
Lemma rollback_extra : extra_fine [rollback_failed_step (s_name (p_s p))].
Proof.
  split; (constructor; [|constructor]); [by apply step_fine_rollback, p_name_ok|]. by apply step_in; vm_compute.
Qed.

(** A step that ran, with the rollback step its caller adds when the host was not put back. *)
Lemma restored_or {B} stp r j r1 a (b : bool) (k : M B) Q :
  stp ∈ phase_two -> moved ok r j r1 -> outcome r = "" -> good a -> (outcome_of a = OutcomeSucceeded -> b = true) ->
  (forall r', follows 1 j r r' -> events r' = events r1 -> services r' = services r1 ->
     (outcome r' = "" -> outcome_of a = OutcomeSucceeded) -> wp k Q r') ->
  wp ((if b then mret tt else rollbackFailed (s_name (p_s p))) ≫= fun _ => k) Q (settled_step (s_name (p_s p)) stp a r1).
Proof.
  intros Hs Hm Ho Hg Hb Hk. pose proof p_name_ok as Hn.
  assert (Hr2 : forall stp, events (settled_step (s_name (p_s p)) stp a r1) = events r1 /\ services (settled_step (s_name (p_s p)) stp a r1) = services r1).
  { intros. unfold settled_step. by destruct (bool_decide _). }
  destruct (Hr2 stp) as [He Hsv]. destruct b.
  - apply wp_bind, wp_ret, Hk; [|done|done|by apply settled_empty].
    apply (follows_settled ok _ _ phase_two Htwo _ Hn stp r j r1 a []); try done. simpl. lia.
  - apply wp_bind, wp_modify, Hk; [|done|done|by apply settled_empty].
    apply (follows_settled ok _ _ phase_two Htwo _ Hn stp r j r1 a [rollback_failed_step (s_name (p_s p))]); try done.
    + apply rollback_extra.
    + destruct (bool_decide _) eqn:E; [apply bool_decide_eq_true in E; by specialize (Hb E)|simpl; lia].
Qed.

(** Where a replacement stands while it has not failed. *)
Lemma create_ok r (Q : string -> Run -> Prop) :
  begun_ok r -> (outcome r = "" -> run req (p_s p) = false -> began r /\ target_ok) ->
  (forall id r', follows 1 0 r r' -> (outcome r' = "" -> outcome r = "" /\ began r' /\ made (events r') id) -> Q id r') ->
  wp (create world req p) Q r.
Proof.
  intros Hbo Hrun Hk. apply wp_bind, wp_step.
  - intros Ho. apply wp_bind, wp_ret, wp_ret, Hk; [apply (follows_skip ok _ _ phase_two Htwo); [apply p_name_ok|by apply step_in; vm_compute|done]|].
    simpl. congruence.
  - intros Ho. eapply wp_mono; [apply create_step_ok; [done|auto]|]. intros [a [id b]] r1 (H1 & Hg & Hm & Hs).
    eapply (restored_or _ r 0); [by apply step_in; vm_compute|by constructor|done|done|intros E; by apply Hs|].
    intros r' Hf He _ Hsucc. apply wp_ret, Hk; [done|]. intros Ho'. destruct (Hs (Hsucc Ho')) as (Hne & _ & Hb).
    unfold began. rewrite He. split_and!; [done|done|by apply Hm].
Qed.

Lemma moved_began r j r1 : moved ok r j r1 -> began r -> began r1.
Proof. unfold began. intros ((new & -> & _) & _)%(moved_same ok) Hb. apply elem_of_app. by right. Qed.

(** A failed start [a], then calls, then the start step as it is finally recorded and at most
    one more step. *)
Lemma failed_start r r1 a r3 code detail extra r' :
  outcome r = "" -> moved ok r 1 r1 -> outcome_of a ∈ failures -> outcome_of a <> OutcomeSucceeded ->
  calls (settled_step (s_name (p_s p)) "start" a r1) r3 -> good (outcome_of a, code, detail) ->
  extra_fine extra -> (length extra <= 1)%nat ->
  events r' = events r3 -> outcome r' = outcome r3 -> rcode r' = rcode r3 -> services r' = services r3 ->
  ensured r' = ensured r3 -> begun r' = begun r3 ->
  steps r' = steps r1 ++ mkStep (s_name (p_s p)) "start" (outcome_of a) code detail :: extra ->
  follows 1 1 r r' /\ outcome r' <> "".
Proof.
  intros Ho Hmv Hoa Hne H3 Hga Hfx Hlx X1 X2 X3 X4 X5 X6 X7. unfold settled_step in H3. rewrite bool_decide_false in H3 by done.
  destruct H3 as [(new & E3 & R3) (O3 & C3 & S3 & V3 & N3) B3 W3]. simpl in *.
  destruct (moved_same ok _ _ _ Hmv) as ((new0 & E1 & R1) & O1 & C1 & S1 & N1 & (svs & V1 & F1 & L1) & B1 & W1).
  assert (Hne' : outcome r' <> "") by (rewrite X2, O3; by apply not_empty). split; [|done]. split.
  - exists (new ++ new0). rewrite X1, E3, E1, <- app_assoc. split; [done|]. apply respects_app. split; [by rewrite <- E1|done].
  - exists (mkStep (s_name (p_s p)) "start" (outcome_of a) code detail :: extra). rewrite X7, S1. split; [done|]. split.
    { destruct Hfx as [Hfx Hfx']. split; [|constructor; [by apply step_in; vm_compute|done]]. constructor; [|done].
      apply (step_fine_failed _ _ (outcome_of a, code, detail)); [apply p_name_ok|by apply step_in; vm_compute|done|done]. }
    split; [|by intros]. rewrite X5, N3, N1. unfold slack. rewrite (bool_decide_true (outcome r = "")), (bool_decide_false (outcome r' = "")) by done.
    simpl. lia.
  - exists svs. by rewrite X4, V3, V1.
  - intros _. right. by rewrite X2, X3, O3, C3.
  - done.
  - rewrite X5, N3, N1. auto.
  - rewrite X6. auto.
  - unfold begun_ok in *. rewrite X6, X1. auto.
Qed.

(** A recreate's start, with the rollback after a failed one. *)
Lemma rollback_ok r r1 a created running paused :
  outcome r = "" -> moved ok r 1 r1 -> good a -> outcome_of a <> OutcomeSucceeded -> began r1 -> target_ok -> made (events r1) created ->
  wp (rollback world p created running paused) (fun _ r' => follows 1 1 r r' /\ outcome r' <> "")
    (settled_step (s_name (p_s p)) "start" a r1).
Proof.
  intros Ho Hmv Hg Hne Hb Ht Hm. set (r2 := settled_step _ _ _ _).
  assert (E2 : r2 = add_step (mkStep (s_name (p_s p)) "start" (outcome_of a) a.1.2 a.2) (with_outcome (outcome_of a) "step_failed" r1)).
  { unfold r2, settled_step. by rewrite bool_decide_false. }
  assert (Hoa : outcome_of a ∈ failures) by (destruct Hg as [?|[? _]]; done).
  assert (Hb2 : began r2) by by rewrite E2. assert (Hm2 : made (events r2) created) by by rewrite E2.
  assert (S2 : steps r2 = steps r1 ++ [mkStep (s_name (p_s p)) "start" (outcome_of a) a.1.2 a.2]) by by rewrite E2.
  apply wp_bind, (discard_spec world ok); [intros; by apply made_allowed|]. intros gone r3 H3. apply wp_bind.
  apply (wp_mono _ (fun _ r' => calls r2 r')).
  { destruct (negb gone); [by apply wp_ret|]. assert (Hb3 : began r3) by by eapply began_calls.
    apply wp_bind. eapply wp_mono; [by apply unpark_ok|]. intros u r4 H4. assert (H24 : calls r2 r4) by by eapply calls_trans.
    apply wp_bind. apply (wp_mono _ (fun _ r' => calls r2 r')); [|intros v r5 H5; by apply wp_ret].
    destruct (negb running); [by apply wp_ret|]. eapply wp_mono; [apply revive_ok; [by apply (began_calls r3)|done]|].
    intros v r5 H5. by eapply calls_trans. }
  intros restored r4 H4. destruct (ca_same _ _ _ H4) as (_ & _ & S4 & _). rewrite S2 in S4. destruct (negb restored).
  - apply wp_modify. eapply (failed_start r r1 a r4 a.1.2 a.2 [rollback_failed_step (s_name (p_s p))]); try done.
    + apply rollback_extra.
    + simpl. by rewrite S4, <- app_assoc.
  - apply wp_bind, wp_reads, wp_bind, wp_modify, wp_modify.
    eapply (failed_start r r1 a r4 "start_failed_rolled_back" "" [mkStep (s_name (p_s p)) "rollback" OutcomeSucceeded "" ""]); try done.
    + right. split; [done|]. split; [vm_compute; reflexivity|]. unfold MaxDeploymentStepDetailBytes, len. simpl. lia.
    + split; (constructor; [|constructor]); [|by apply step_in; vm_compute].
      apply step_fine_quiet; [apply p_name_ok|by apply step_in; vm_compute|by left].
    + simpl. unfold recode_last. rewrite S4, rev_app_distr. simpl. rewrite rev_involutive, <- app_assoc. done.
Qed.

(** A replacement that has not failed reported the container it started, read back under its ID
    with the pinned image. *)
Definition replaced_by (r r' : Run) : Prop :=
  exists c, services r' = services r ++ [identity_of (p_s p) c] /\ c_image c = s_image (p_s p).

Lemma start_ok created watched r (Q : string * bool -> Run -> Prop) :
  (outcome r = "" -> began r /\ made (events r) created) ->
  (forall x r', outcome r <> "" -> follows 1 1 r r' -> outcome r' <> "" -> x = (OutcomeSkipped, false) -> Q x r') ->
  (forall a up r1, outcome r = "" -> moved ok r 1 r1 -> good a -> began r1 -> made (events r1) created ->
     follows 1 1 r (settled_step (s_name (p_s p)) "start" a r1) ->
     (outcome_of a = OutcomeSucceeded -> exists c, verified created (events r1) c /\ services r1 = services r ++ [identity_of (p_s p) c]) ->
     Q (outcome_of a, up) (settled_step (s_name (p_s p)) "start" a r1)) ->
  wp (start world (p_s p) created watched) Q r.
Proof.
  intros Hpre Hskip Hran. apply wp_step.
  - intros Ho. eapply Hskip; [done| |done|done].
    eapply (follows_weaken 1%nat 1%nat); [| |apply (follows_skip ok _ _ phase_two Htwo); [apply p_name_ok|by apply step_in; vm_compute|done]]; lia.
  - intros Ho. destruct (Hpre Ho) as [Hb Hm]. apply wp_bind. eapply wp_mono; [by apply start_step_ok|].
    intros [a up] r1 (Hmv & Hg & Hs). apply wp_ret. apply Hran; try done.
    + by eapply moved_began.
    + destruct (moved_same ok _ _ _ Hmv) as ((new & -> & _) & _). destruct Hm as (? & n & b & ?). split; [done|]. exists n, b.
      apply elem_of_app. by right.
    + apply (follows_settled ok _ _ phase_two Htwo _ p_name_ok "start" r 1 r1 a []); simpl; try done; [by apply step_in; vm_compute|lia].
Qed.

Lemma stays k j r r' : follows k j r r' -> outcome r' = "" -> outcome r = "".
Proof. intros Hf Ho. destruct (decide (outcome r = "")) as [|Hn]; [done|]. destruct (fo_stuck Hf Hn) as (E & _). congruence. Qed.
Lemma began_follows k j r r' : follows k j r r' -> began r -> began r'.
Proof. intros [(new & E & _) _ _ _ _ _ _ _] Hb. unfold began in *. rewrite E. apply elem_of_app. by right. Qed.
Lemma made_follows k j r r' id : follows k j r r' -> made (events r) id -> made (events r') id.
Proof. intros [(new & E & _) _ _ _ _ _ _ _] (Hv & n & b & H). split; [done|]. exists n, b. rewrite E. apply elem_of_app. by right. Qed.

Lemma replace_run_ok later r :
  run req (p_s p) = true -> begun_ok r ->
  wp (replace world req p later) (fun _ r' => follows 6 1 r r' /\ (outcome r' = "" -> replaced_by r r')) r.
Proof.
  intros Er Hbo. unfold replace. rewrite Er. apply wp_bind, create_ok; [done|congruence|]. intros id r1 H1 Hc.
  apply wp_bind, start_ok; [intros Ho; by apply Hc in Ho as (_ & ? & ?)| |].
  - intros x r2 Ho H2 Ho2 ->. simpl. apply wp_ret. split; [|done]. eapply (follows_weaken 6%nat 1%nat); [| |exact (follows_trans H1 H2)]; lia.
  - intros a up r2 Ho Hmv Hg Hb Hm Hf Hs. destruct (Hc Ho) as (Ho0 & _ & _).
    destruct (failedStep (outcome_of a) && negb up) eqn:Ef.
    + apply wp_bind. set (r3 := settled_step _ _ _ _) in *.
      assert (Hns : outcome_of a <> OutcomeSucceeded) by (intros E; rewrite E in Ef; done).
      assert (Hoa : outcome_of a ∈ failures) by (destruct Hg as [?|[? _]]; done).
      assert (E3 : events r3 = events r2) by (unfold r3, settled_step; by rewrite bool_decide_false).
      eapply wp_mono; [apply settle_ok; [by unfold began; rewrite E3|by rewrite E3|]|].
      { intros _ E. destruct Hm as [Hv _]. subst id. by vm_compute in Hv. }
      intros b r4 H4.
      assert (S4 : steps r4 = steps r2 ++ [mkStep (s_name (p_s p)) "start" (outcome_of a) a.1.2 a.2]).
      { destruct (ca_same _ _ _ H4) as (_ & _ & -> & _). unfold r3, settled_step. by rewrite bool_decide_false. }
      assert (Hend : forall extra r', extra_fine extra -> (length extra <= 1)%nat -> events r' = events r4 -> outcome r' = outcome r4 ->
        rcode r' = rcode r4 -> services r' = services r4 -> ensured r' = ensured r4 -> begun r' = begun r4 -> steps r' = steps r4 ++ extra ->
        follows 6 1 r r' /\ (outcome r' = "" -> replaced_by r r')).
      { intros extra r' Hx Hl X1 X2 X3 X4 X5 X6 X7. rewrite S4, <- app_assoc in X7.
        assert (Hg' : good (outcome_of a, a.1.2, a.2)) by by destruct a as [[o c] d].
        destruct (failed_start r1 r2 a r4 a.1.2 a.2 extra r') as [Hf' Ho']; try done. split; [|done].
        eapply (follows_weaken 6%nat 1%nat); [| |exact (follows_trans H1 Hf')]; lia. }
      destruct b; [apply wp_ret; apply (Hend []); rewrite ?app_nil_r; try done; simpl; lia|].
      apply wp_modify, (Hend [rollback_failed_step (s_name (p_s p))]); try done. apply rollback_extra.
    + apply wp_ret. split; [eapply (follows_weaken 6%nat 1%nat); [| |exact (follows_trans H1 Hf)]; lia|].
      intros Ho'. apply settled_empty in Ho'; [|done]. destruct (Hs Ho') as (c & (_ & _ & _ & Him) & Hsv). exists c. split; [|done].
      destruct (fo_services _ _ _ _ _ _ _ _ H1) as (n & Hn & _ & Hl). destruct n; [|simpl in Hl; lia]. rewrite app_nil_r in Hn.
      unfold settled_step. rewrite bool_decide_true by done. simpl. by rewrite Hsv, Hn.
Qed.

Lemma services_same k r r' : follows k 0 r r' -> services r' = services r.
Proof. intros Hf. destruct (fo_services _ _ _ _ _ _ _ _ Hf) as (n & -> & _ & Hl). destruct n; [by rewrite app_nil_r|simpl in Hl; lia]. Qed.

(** The start of a recreate, and its rollback when it failed. *)
Lemma start_recreate_ok {B} created running paused r (k : M B) Q :
  (outcome r = "" -> began r /\ made (events r) created /\ target_ok) ->
  (forall r', follows 1 1 r r' -> (outcome r' = "" -> began r' /\ exists c, verified created (events r') c /\
     services r' = services r ++ [identity_of (p_s p) c]) -> wp k Q r') ->
  wp ('(o, _) ← start world (p_s p) created running;
      _ ← (if failedStep o then rollback world p created running paused else mret tt); k) Q r.
Proof.
  intros Hpre Hk. apply wp_bind, start_ok; [intros Ho; by apply Hpre in Ho as (? & ? & _)| |].
  - intros x r' Ho Hf Ho' ->. apply wp_bind, wp_ret, Hk; [done|]. congruence.
  - intros a up r1 Ho Hmv Hg Hb Hm Hf Hs. destruct (Hpre Ho) as (_ & _ & Ht).
    destruct (decide (outcome_of a = OutcomeSucceeded)) as [E|Hne].
    + rewrite E. simpl. apply wp_bind, wp_ret, Hk; [done|]. intros _. destruct (Hs E) as (c & Hv & Hsv).
      unfold settled_step, began. rewrite bool_decide_true by done. simpl. split; [done|]. by exists c.
    + assert (Hfs : failedStep (outcome_of a) = true).
      { assert (Hoa : outcome_of a ∈ failures) by (destruct Hg as [?|[? _]]; done). unfold failedStep. rewrite (bool_decide_false _ Hne).
        rewrite bool_decide_false; [done|]. intros E. rewrite E in Hoa. by apply (bool_decide_eq_true_2 (_ ∈ failures)) in Hoa. }
      rewrite Hfs. apply wp_bind. eapply wp_mono; [by apply (rollback_ok r r1 a)|]. intros [] r' [Hf' Ho']. by apply Hk.
Qed.

Lemma remove_step_ok created c r :
  began r -> target_ok -> made (events r) created -> verified created (events r) c ->
  wp (remove_step world p) (fun aa r' => calls r r' /\ good aa.1) r.
Proof.
  intros Hb Ht Hm ((st & b & Hst & Hlt) & Hread & Hid & Him). apply wp_bind, (wp_post world ok).
  - intros x. right. split; [done|]. left. split; [done|]. exists s0, created, c, st, b.
    unfold old_of. rewrite (sv_replaces _ _ Hsame). split_and!; try done. intros E. rewrite <- (sv_image _ _ Hsame E). congruence.
  - intros [status err] r1 H1. apply wp_ret. split; [done|]. simpl. case_match; [apply outcomeFor_good|apply good_succeeded].
Qed.

(** What a step leaves to its caller, who adds the rollback step unless [flag]. *)
Definition restores (flag : bool) (r r2 : Run) : Prop :=
  forall B (k : M B) Q, (forall r', follows 1 0 r r' -> wp k Q r') ->
    wp ((if flag then mret tt else rollbackFailed (s_name (p_s p))) ≫= fun _ => k) Q r2.

Lemma step_restores {A} stp (skip : A) (flag : A -> bool) m r :
  stp ∈ phase_two -> flag skip = true ->
  (outcome r = "" -> wp m (fun aa r1 => calls r r1 /\ good aa.1 /\ (outcome_of aa.1 = OutcomeSucceeded -> flag aa.2 = true)) r) ->
  wp (step (s_name (p_s p)) stp skip m) (fun x r2 => restores (flag x) r r2) r.
Proof.
  intros Hs Hf Hr. apply wp_step.
  - intros Ho B k Q Hk. rewrite Hf. apply wp_bind, wp_ret, Hk. by apply (follows_skip ok _ _ phase_two Htwo); [apply p_name_ok|..].
  - intros Ho. eapply wp_mono; [by apply Hr|]. intros [a x] r1 (H1 & Hg & Hb) B k Q Hk.
    eapply (restored_or _ r 0); [done|by constructor|done|done|done|]. intros r' Hf' _ _ _. by apply Hk.
Qed.

Lemma replace_recreate_ok later r :
  run req (p_s p) = false -> begun_ok r -> (outcome r = "" -> isSelf self (it_container (s_replaces s0)) = false) ->
  wp (replace world req p later) (fun _ r' => follows 6 1 r r' /\ (outcome r' = "" -> replaced_by r r')) r.
Proof.
  intros Er Hbo Hself. pose proof p_name_ok as Hn.
  assert (Htarget : outcome r = "" -> target_ok).
  { intros Ho. split; [|done]. unfold old_of. rewrite (sv_replaces _ _ Hsame). split; [auto|]. exists s0. split_and!; [done| |done].
    by rewrite <- (run_same s0 (p_s p)). }
  unfold replace. rewrite Er. apply wp_bind.
  apply (wp_mono _ (fun _ r' => follows 1 0 r r' /\ (outcome r' = "" -> began r'))).
  { apply (follows_step ok (frame_volumes req) false phase_two Htwo _ Hn "recheck" _ _ _ 0); [by apply step_in; vm_compute|by intros; split; [done|congruence]|].
    intros Ho. eapply wp_mono; [by apply recheck_step_ok|]. intros [a x] r1 (H1 & Hg & Hs). split_and!; [by constructor|done|].
    intros Hf. split; [done|]. intros Ho'. apply settled_empty in Ho' as Ea; [|done]. simpl in *.
    unfold settled_step, began. rewrite bool_decide_true by done. by apply Hs. }
  intros [[paused was] grace] r1 [H1 Hb1]. apply wp_bind.
  eapply wp_mono; [apply (step_restores "rename" true id); [by apply step_in; vm_compute|done|]|].
  { intros Ho. apply rename_step_ok; [by apply Hb1|]. by apply Htarget, (stays 1%nat 0%nat r r1). }
  intros unparked r1' Hres. apply Hres. intros r2 H2. clear Hres r1'. pose proof (follows_trans H1 H2) as H12.
  assert (Hb2 : outcome r2 = "" -> began r2).
  { intros Ho. eapply began_follows; [exact H2|]. by apply Hb1, (stays 1%nat 0%nat r1 r2). }
  apply wp_bind, create_ok; [by apply (fo_began _ _ _ _ _ _ _ _ H12)|intros Ho _; split; [auto|]; by apply Htarget, (stays _ _ _ _ H12)|].
  intros id r3 H3 Hc. pose proof (follows_trans H12 H3) as H13. apply wp_bind.
  eapply wp_mono; [apply (step_restores "stop" (false, true) snd); [by apply step_in; vm_compute|done|]|].
  { intros Ho. destruct (Hc Ho) as (_ & Hb & Hm). apply stop_step_ok; [done|by apply Htarget, (stays _ _ _ _ H13)|done]. }
  intros [running restored] r3' Hres. apply Hres. intros r4 H4. clear Hres r3'. pose proof (follows_trans H13 H4) as H14.
  assert (Hready : outcome r4 = "" -> began r4 /\ made (events r4) id /\ target_ok).
  { intros Ho. destruct (Hc (stays _ _ _ _ H4 Ho)) as (_ & Hb & Hm). split_and!; [by apply (began_follows _ _ _ _ H4)|by apply (made_follows _ _ _ _ _ H4)|].
    by apply Htarget, (stays _ _ _ _ H14). }
  apply start_recreate_ok; [done|]. intros r5 H5 Hv. pose proof (follows_trans H14 H5) as H15.
  assert (Hby : outcome r5 = "" -> replaced_by r r5).
  { intros Ho. destruct (Hv Ho) as (_ & c & (_ & _ & _ & Him) & Hsv). exists c. by rewrite Hsv, (services_same _ _ _ H14). }
  apply (follows_step ok (frame_volumes req) false phase_two Htwo _ Hn "remove" _ _ _ 0); [by apply step_in; vm_compute| |].
  - intros r6 Ho H6 Ho' _. split; [|congruence]. eapply (follows_weaken 6%nat 1%nat); [| |exact (follows_trans H15 H6)]; lia.
  - intros Ho. destruct (Hv Ho) as (Hb5 & c & Hvc & _).
    destruct (Hready (stays _ _ _ _ H5 Ho)) as (_ & Hm & Ht).
    eapply wp_mono; [apply (remove_step_ok id c); [done|done|by apply (made_follows _ _ _ _ _ H5)|done]|].
    intros [a []] r6 [H6 Hg]. split_and!; [by constructor|done|]. intros Hf. split.
    + eapply (follows_weaken 6%nat 1%nat); [| |exact (follows_trans H15 Hf)]; lia.
    + intros _. destruct (Hby Ho) as (c' & Hsv & Him). exists c'. split; [|done]. by rewrite (services_same _ _ _ Hf).
Qed.

Lemma replace_ok later r :
  ready self req s0 p r -> begun_ok r ->
  wp (replace world req p later) (fun _ r' => follows 6 1 r r' /\ (outcome r' = "" -> replaced_by r r')) r.
Proof.
  intros Hrd Hbo. destruct (run req (p_s p)) eqn:Er; [by apply replace_run_ok|]. apply replace_recreate_ok; [done|done|].
  intros Ho. apply (rd_cleared _ _ _ _ _ Hrd); [|done]. by rewrite <- (run_same s0 (p_s p)).
Qed.
End Replacement.
End Phases.
