(* ===== verification/DockerTheorems.v ===== *)
(** * What a Docker deployment guarantees

    For every host, however it answers: the result of [Deploy] is one the server accepts, a run
    touches only the containers it was sent for, in two phases, and a success accounts for every
    service. *)
From Stdlib Require Import ZArith Lia Ascii String.
From stdpp Require Import base gmap sets strings list.
From S2P Require Import Prelude.
From S2P Require Import Regex.
From S2P Require Import Grammar.
From S2P Require Import Inspection.
From S2P Require Import Frame.
From S2P Require Import Engine.
From S2P Require Import ContainerBody.
From S2P Require Import DockerRun.
From S2P Require Import DockerDeploy.
From S2P Require Import DockerWorld.
From S2P Require Import DockerCodes.
From S2P Require Import DockerLogic.
From S2P Require Import DockerSpecs.
From S2P Require Import DockerFollows.
From S2P Require Import DockerSafety.

Definition only_free (l : list Event) (e : Event) : Prop := free e = true.

(** The identity reported for a service. *)
Definition identified (s : DeploymentService) (i : DeploymentIdentity) : Prop :=
  id_service i = s_name s /\ id_digest i = match s_pull s with Some p => pull_digest p | None => "" end /\
  (s_pull s = None -> id_image i = s_image s).

Lemma same_fields_follows ok vols skips stps r r' :
  events r' = events r -> outcome r' = outcome r -> rcode r' = rcode r -> steps r' = steps r -> services r' = services r ->
  ensured r' = ensured r -> begun r' = begun r -> follows ok vols skips stps 0 0 r r'.
Proof.
  intros E O C S V N B. split.
  - exists []. by rewrite E.
  - exists []. rewrite S, N, app_nil_r. repeat split; try constructor. unfold slack. simpl. lia.
  - exists []. rewrite V, app_nil_r. repeat split; [constructor|simpl; lia].
  - intros Ho. left. by rewrite O, C.
  - done.
  - rewrite N. auto.
  - by rewrite B.
  - unfold begun_ok. by rewrite B, E.
Qed.

Section Whole.
Context (world : World) (self : string) (req : DeploymentRequest) (Hframe : frame_ok req).
Notation one := (follows only_free (frame_volumes req) false phase_one).
Notation two := (follows (allowed self req) (frame_volumes req) false phase_two).
Notation whole := (follows (allowed self req) (frame_volumes req) false deploymentSteps).

Lemma free_rule : forall l e, free e = true -> only_free l e.
Proof. done. Qed.

Lemma ready_later ok stps k j s p r r' :
  follows ok (frame_volumes req) false stps k j r r' -> ready self req s p r -> ready self req s p r'.
Proof.
  intros Hf [Hs Hc]. split; [done|]. intros Hr Ho. apply Hc; [done|].
  destruct (decide (outcome r = "")) as [|Hn]; [done|]. destruct (fo_stuck Hf Hn) as (E & _). congruence.
Qed.

Lemma prepare_all_ok l r :
  (forall s, s ∈ l -> s ∈ dr_services req) ->
  wp (prepare_all world self req l) (fun ps r' => one (2 * length l) 0 r r' /\ Forall2 (fun s p => ready self req s p r') l ps) r.
Proof.
  revert r; induction l as [|s l IH]; intros r Hl; simpl.
  - apply wp_ret. split; [apply follows_refl|constructor].
  - apply wp_bind. eapply wp_mono; [apply (prepare_spec world self req Hframe only_free free_rule); set_solver|].
    intros p r1 [H1 Hp]. apply wp_bind. eapply wp_mono; [apply IH; set_solver|]. intros ps r2 [H2 Hps]. apply wp_ret. split.
    + eapply (follows_weaken _ 0%nat); [| |exact (follows_trans H1 H2)]; lia.
    + constructor; [by eapply ready_later|done].
Qed.

Lemma own_two p k j r r' :
  follows (allowed_on req (own_target self req p)) (frame_volumes req) false phase_two k j r r' -> two k j r r'.
Proof. apply follows_mono; [|done]. intros l e. apply allowed_on_mono. by intros id [? _]. Qed.
Lemma two_stays k j r r' : two k j r r' -> outcome r' = "" -> outcome r = "".
Proof. intros Hf Ho. destruct (decide (outcome r = "")) as [|Hn]; [done|]. destruct (fo_stuck Hf Hn) as (E & _). congruence. Qed.

Lemma replace_all_ok l ps r :
  (forall s, s ∈ l -> s ∈ dr_services req) -> Forall2 (fun s p => ready self req s p r) l ps -> begun_ok r ->
  wp (replace_all world req ps) (fun _ r' => two (6 * length l) (length l) r r' /\
    (outcome r' = "" -> exists ids, services r' = services r ++ ids /\ Forall2 identified l ids)) r.
Proof.
  intros Hl Hps. revert l r Hl Hps; induction ps as [|p ps IH]; intros l r Hl Hps Hbo; simpl.
  - inversion Hps; subst. apply wp_ret. split; [apply follows_refl|]. intros _. exists []. by rewrite app_nil_r.
  - inversion Hps as [|s ? l' ? Hp Hps']; subst. apply wp_bind. eapply wp_mono.
    { apply (replace_ok world self req Hframe s); [set_solver|apply Hp|done|done]. }
    intros [] r1 [H1%own_two Hs1]. eapply wp_mono.
    { apply (IH l'); [set_solver| |by apply (fo_began _ _ _ _ _ _ _ _ H1)].
      eapply Forall2_impl; [exact Hps'|]. intros x y Hxy. by eapply ready_later. }
    intros [] r2 [H2 Hs2]. split.
    + eapply follows_weaken; [| |exact (follows_trans H1 H2)]; simpl; lia.
    + intros Ho. destruct (Hs2 Ho) as (ids & E & F).
      assert (Ho1 : outcome r1 = "") by (by eapply two_stays). destruct (Hs1 Ho1) as (c & E1 & Him).
      exists (identity_of (p_s p) c :: ids). split; [by rewrite E, E1, <- app_assoc|]. constructor; [|done].
      destruct Hp as [[Hn ? ? Hpl ? Hi] _]. unfold identified, identity_of. simpl. split_and!; [done|by rewrite Hpl|].
      intros Hnone. by rewrite Him, Hi.
Qed.

(** Phase one ends with every service ready, or the run failed; phase two follows. *)
Lemma deploy_rule r (Q : unit -> Run -> Prop) :
  outcome r = "" -> begun r = false ->
  (forall r1 ps, one (2 * length (dr_services req)) 0 r r1 -> Forall2 (fun s p => ready self req s p r1) (dr_services req) ps ->
     begun_ok r1 -> wp (replace_all world req ps) Q r1) ->
  wp (deploy_body world self req) Q r.
Proof.
  intros Ho Hb Hk.
  assert (Hcalls : forall r0 r1, calls only_free r0 r1 -> outcome r0 = "" -> one 0 0 r0 r1 /\ outcome r1 = "").
  { intros r0 r1 Hc Ho0. split; [apply moved_follows; [by constructor|done]|]. by destruct (ca_same _ _ _ Hc) as (-> & _). }
  apply wp_bind. apply (wp_mono _ (fun _ r' => one 0 0 r r' /\ outcome r' = "")).
  { apply wp_bind, (wp_get world only_free free_rule); [done| |].
    - intros e r1 H1. apply wp_ret. by apply Hcalls.
    - intros d b r1 H1 _ _. destruct (Hcalls _ _ H1 Ho) as [F1 O1]. case_match; [by apply wp_ret|]. apply wp_modify.
      split; [|done]. refine (follows_trans F1 _). by apply same_fields_follows. }
  intros [] r1 [F1 O1]. apply wp_bind, (wp_until world only_free free_rule). intros left r2 H2. destruct (Hcalls _ _ H2 O1) as [F2 O2].
  apply wp_bind, (wp_now world only_free free_rule). intros t r3 H3. destruct (Hcalls _ _ H3 O2) as [F3 O3].
  apply wp_bind, wp_modify. set (r4 := with_pull_deadline _ r3).
  assert (F4 : one 0 0 r3 r4) by by apply same_fields_follows.
  pose proof (follows_trans (follows_trans F1 F2) (follows_trans F3 F4)) as F04.
  apply wp_bind. eapply wp_mono; [by apply prepare_all_ok|]. intros ps r5 [F5 Hps].
  pose proof (follows_trans F04 F5) as F05. apply Hk; [by eapply follows_weaken; [| |exact F05]; lia|done|].
  apply (fo_began _ _ _ _ _ _ _ _ F05). unfold begun_ok. congruence.
Qed.

Lemma deploy_body_ok r :
  outcome r = "" -> begun r = false ->
  wp (deploy_body world self req) (fun _ r2 => exists r1,
    one (2 * length (dr_services req)) 0 r r1 /\ two (6 * length (dr_services req)) (length (dr_services req)) r1 r2 /\
    (outcome r2 = "" -> exists ids, services r2 = services r ++ ids /\ Forall2 identified (dr_services req) ids)) r.
Proof.
  intros Ho Hb. apply deploy_rule; [done|done|]. intros r1 ps F1 Hps Hbo.
  eapply wp_mono; [by apply (replace_all_ok (dr_services req))|]. intros [] r2 [F2 Hs]. exists r1. split_and!; [done|done|].
  intros Ho2. destruct (Hs Ho2) as (ids & E & F). exists ids. split; [|done]. rewrite E. f_equal.
  destruct (fo_services _ _ _ _ _ _ _ _ F1) as (n & -> & _ & Hl). destruct n; [by rewrite app_nil_r|simpl in Hl; lia].
Qed.

Lemma one_whole k j r r' : one k j r r' -> whole k j r r'.
Proof. apply follows_mono; [intros l e; apply allowed_free|by apply steps_in; vm_compute]. Qed.
Lemma two_whole k j r r' : two k j r r' -> whole k j r r'.
Proof. apply follows_mono; [done|by apply steps_in; vm_compute]. Qed.
End Whole.

(** ** The result *)

Lemma all_ok_Forall (l : list DeploymentStep) : Forall step_fine l -> all_ok step_validate l = Ok tt.
Proof. induction 1 as [|s l Hs _ IH]; simpl; [done|]. by rewrite Hs. Qed.

Lemma refused_valid deployment request e :
  re_match deploymentUUID deployment = true -> result_validate (refused deployment request e) = Ok tt.
Proof.
  intros Hd. unfold refused. destruct (ValidRequestID request) eqn:Er.
  - assert (Hne : bool_decide (request = "") = false) by (apply bool_decide_eq_false; intros ->; by vm_compute in Er).
    destruct e; unfold result_validate; cbn [rs_deployment rs_request rs_outcome rs_code rs_steps rs_services]; rewrite Hd, Hne, Er; reflexivity.
  - destruct e; unfold result_validate; cbn [rs_deployment rs_request rs_outcome rs_code rs_steps rs_services]; rewrite Hd; reflexivity.
Qed.

(** A finished record within the bounds of a result is a valid one. *)
Lemma result_of_valid deployment request r :
  re_match deploymentUUID deployment = true -> ValidRequestID request = true ->
  (outcome r = "" /\ rcode r = "" \/ outcome r ∈ failures /\ rcode r = "step_failed") ->
  Forall step_fine (steps r) -> Forall id_fine (services r) -> llen (steps r) <= MaxDeploymentResultSteps ->
  llen (services r) <= MaxDeploymentServices -> result_validate (result_of deployment request r) = Ok tt.
Proof.
  intros Hd Hr Ho Hs Hi Hl Hn. unfold result_validate, result_of. cbn [rs_deployment rs_request rs_outcome rs_code rs_steps rs_services].
  rewrite Hd, Hr, (all_ok_Forall _ Hs). replace (llen (steps r) >? MaxDeploymentResultSteps) with false.
  2:{ symmetry. rewrite Z.gtb_ltb. by apply Z.ltb_ge. }
  replace (llen (services r) >? MaxDeploymentServices) with false.
  2:{ symmetry. rewrite Z.gtb_ltb. by apply Z.ltb_ge. }
  replace (forallb _ (services r)) with true.
  2:{ symmetry. apply List.forallb_forall. intros i Hin%list_elem_of_In. rewrite Forall_forall in Hi. destruct (Hi i Hin) as [-> ->]. done. }
  destruct Ho as [[-> ->]|[Ho ->]]; [by rewrite andb_false_r|]. rewrite andb_false_r. unfold failures in Ho. rewrite !elem_of_cons, elem_of_nil in Ho.
  destruct Ho as [-> |[-> |[-> |[-> |[]]]]]; reflexivity.
Qed.

(** ** The theorems *)

(** A run is refused before any call, or goes through its two phases. *)
Lemma Deploy_phases world self req :
  wp (Deploy world self req) (fun res r =>
    (exists e t, res = refused (dr_deployment req) (dr_request req) e /\ events r = [ReadWall t]) \/
    (frame_ok req /\ res = result_of (dr_deployment req) (dr_request req) r /\
     exists t r0 r1, events r0 = [ReadWall t] /\ outcome r0 = "" /\ rcode r0 = "" /\ steps r0 = [] /\ services r0 = [] /\ ensured r0 = ∅ /\
       follows only_free (frame_volumes req) false phase_one (2 * length (dr_services req)) 0 r0 r1 /\
       follows (allowed self req) (frame_volumes req) false phase_two (6 * length (dr_services req)) (length (dr_services req)) r1 r /\
       (outcome r = "" -> Forall2 identified (dr_services req) (services r)))) new_run.
Proof.
  unfold Deploy. apply wp_bind. unfold wp at 1. simpl. set (r0 := push _ _ _ _). set (t := wall world []).
  destruct (request_validate_for RuntimeDocker req t) as [[]|e] eqn:E.
  - pose proof (validated _ _ E) as Hframe. apply wp_bind. eapply wp_mono; [by apply deploy_body_ok|].
    intros [] r (r1 & F1 & F2 & Hs). apply wp_reads. right. split; [done|]. split; [done|]. exists t, r0, r1. split_and!; try done.
    intros Ho. by destruct (Hs Ho) as (ids & -> & ?).
  - apply wp_ret. left. by exists e, t.
Qed.

Lemma Deploy_answer world self req :
  ValidDeploymentID (dr_deployment req) = true ->
  rs_deployment (Deploy world self req new_run).1 = dr_deployment req /\ result_validate (Deploy world self req new_run).1 = Ok tt.
Proof.
  intros Hd. pose proof (Deploy_phases world self req) as H. unfold wp in H.
  destruct H as [(e & t & -> & _)|(Hf & -> & t & r0 & r1 & _ & O0 & C0 & S0 & V0 & N0 & F1 & F2 & _)]; 
    [split; [by destruct e|by apply refused_valid]|]. split; [done|].
  set (r := (Deploy world self req new_run).2) in *.
  pose proof (follows_trans (one_whole self req _ _ _ _ F1) (two_whole self req _ _ _ _ F2)) as F.
  destruct (fr_count _ Hf) as [Hn Hv]. destruct F as [_ (new & S & [Fs _] & L & _) (ids & V & Fi & Li) O _ [_ N] _ _].
  rewrite S0 in S. rewrite V0 in V. rewrite N0 in L, N. simpl in S, V.
  apply result_of_valid; [done|apply (fr_request _ Hf)|..].
  - rewrite C0 in O. by apply O.
  - by rewrite S.
  - by rewrite V.
  - rewrite S. unfold llen, MaxDeploymentResultSteps, MaxDeploymentServices, MaxDeploymentVolumes.
    assert (size (ensured r) <= 64)%nat by (etrans; [apply subseteq_size, N; set_solver|done]).
    assert (slack r0 r <= 1)%nat by (unfold slack; case_match; lia). rewrite size_empty in L. lia.
  - rewrite V. unfold llen, MaxDeploymentServices. lia.
Qed.

(** Whatever a host answers, loses or delays, the agent's result of a deployment is one the
    server accepts: its outcome and code agree, every step is known, has a known code with a detail
    that fits the code's rule, there are at most eight steps per service, one per volume and one
    rollback, and every identity it reports is a full container ID with its image ID.  A frame
    that does not validate is answered too. *)
Theorem Deploy_result_valid world self req :
  ValidDeploymentID (dr_deployment req) = true -> result_validate (Deploy world self req new_run).1 = Ok tt.
Proof. intros Hd. by destruct (Deploy_answer world self req Hd). Qed.

(** C9: a deployment touches only what it was sent for.  Whatever the host answers, every call of
    a run that changes a container comes after the run announced itself, renames, stops or pauses
    only a container the frame replaces (never the agent's own), starts only such a container or one
    this run created, removes by force only a container this run created, and without force only a
    container read just before as never started, or a replaced one whose replacement this run has
    created, started and read back with the pinned image.  And when any check, volume, image or
    pull of any service did not succeed, no container is touched at all: the run reads, pulls and
    ensures volumes, and nothing else. *)
Theorem Deploy_confined world self req res r :
  Deploy world self req new_run = (res, r) ->
  respects (allowed self req) (events r) [] /\
  (forall st, st ∈ rs_steps res -> st_step st ∈ phase_one -> st_outcome st <> OutcomeSucceeded ->
     Forall (fun e => free e = true) (events r)).
Proof.
  intros E. pose proof (Deploy_phases world self req) as H. unfold wp in H. rewrite E in H. simpl in H.
  destruct H as [(e & t & -> & He)|(Hf & -> & t & r0 & r1 & E0 & O0 & _ & S0 & _ & _ & F1 & F2 & _)].
  { rewrite He. split; [done|]. intros st Hst. exfalso. unfold refused in Hst. destruct e; by apply elem_of_nil in Hst. }
  assert (Hfree : Forall (fun e => free e = true) (events r1)).
  { destruct F1 as [(new & -> & R) _ _ _ _ _ _ _]. apply Forall_app. split; [|rewrite E0; by repeat constructor].
    clear -R. induction new as [|e new IH]; simpl in *; [constructor|]. destruct R. constructor; auto. }
  split.
  - pose proof (follows_trans (one_whole self req _ _ _ _ F1) (two_whole self req _ _ _ _ F2)) as [(new & -> & R) _ _ _ _ _ _ _].
    rewrite E0. rewrite E0 in R. apply respects_app. split; [exact R|done].
  - intros st Hst Hone Hne. simpl in Hst. destruct (decide (outcome r1 = "")) as [Ho|Ho].
    2:{ destruct (fo_stuck F2 Ho) as (_ & _ & -> & _). done. }
    exfalso. destruct F1 as [_ (n1 & S1 & _ & _ & C1) _ _ _ _ _ _], F2 as [_ (n2 & S2 & [_ P2] & _) _ _ _ _ _ _].
    rewrite S2, S1, S0 in Hst. simpl in Hst. apply elem_of_app in Hst as [Hst|Hst].
    + specialize (C1 Ho). rewrite Forall_forall in C1. by destruct (C1 st Hst).
    + rewrite Forall_forall in P2. specialize (P2 st Hst).
      assert (Hd : forallb (fun s => negb (bool_decide (s ∈ phase_one))) phase_two = true) by (vm_compute; reflexivity).
      rewrite List.forallb_forall in Hd. apply list_elem_of_In, Hd in P2. by rewrite bool_decide_true in P2.
Qed.

Lemma Deploy_confined_witness :
  respects (allowed "" demo_request) (events (Deploy dw_broken "" demo_request new_run).2) [] /\
  length (List.filter (fun e => negb (free e)) (events (Deploy dw_broken "" demo_request new_run).2)) = 8%nat.
Proof.
  split; [|vm_compute; reflexivity].
  destruct (Deploy_confined dw_broken "" demo_request _ _ (surjective_pairing _)) as [H _]. exact H.
Defined.

(** C11: a deployment that succeeds accounts for every service.  The identities reported are the
    services of the frame, in order, each with the image it pins, or the digest it was pulled by. *)
Theorem Deploy_success world self req :
  rs_outcome (Deploy world self req new_run).1 = OutcomeSucceeded ->
  Forall2 identified (dr_services req) (rs_services (Deploy world self req new_run).1).
Proof.
  pose proof (Deploy_phases world self req) as H. unfold wp in H. set (r := (Deploy world self req new_run).2) in *.
  destruct H as [(e & t & -> & _)|(Hf & -> & t & r0 & r1 & _ & O0 & C0 & _ & _ & _ & F1 & F2 & Hs)].
  - unfold refused. by destruct e.
  - simpl. intros Ho. apply Hs.
    pose proof (follows_trans (one_whole self req _ _ _ _ F1) (two_whole self req _ _ _ _ F2)) as F.
    destruct (fo_outcome _ _ _ _ _ _ _ _ F O0) as [[Hr _]|[Hr _]]; [done|]. exfalso.
    rewrite bool_decide_false in Ho by by apply not_empty. rewrite Ho in Hr. by apply (bool_decide_eq_true_2 (_ ∈ failures)) in Hr.
Qed.

Lemma Deploy_result_valid_witness :
  result_validate (Deploy dw_broken "" demo_request new_run).1 = Ok tt.
Proof. apply (Deploy_result_valid dw_broken "" demo_request). vm_compute. reflexivity. Defined.

Lemma Deploy_success_witness :
  map id_container (rs_services (Deploy dw_healthy "" demo_request new_run).1) = [dw_new] /\
  Forall2 identified (dr_services demo_request) (rs_services (Deploy dw_healthy "" demo_request new_run).1).
Proof. split; [vm_compute; reflexivity|]. apply (Deploy_success dw_healthy "" demo_request). vm_compute. reflexivity. Defined.
