(* ===== verification/DockerRestore.v ===== *)
(** * No container is left aside in silence

    A recreate renames the old container aside and stops it before its replacement is up
    (deploy.go).  Read from the events of a run, [name_debt] says that the old container may be
    parked and [run_debt] that the run stopped it and did not start it again.  Here: when a run
    ends, a container with either debt was replaced, or the run says that putting it back failed. *)
From Stdlib Require Import ZArith Lia Ascii String.
From stdpp Require Import base gmap sets strings list.
From S2P Require Import Prelude.
From S2P Require Import Regex.
From S2P Require Import Grammar.
From S2P Require Import Inspection.
From S2P Require Import Frame.
From S2P Require Import Engine.
From S2P Require Import ContainerBody.
From S2P Require Import DockerRun.
From S2P Require Import DockerDeploy.
From S2P Require Import DockerWorld.
From S2P Require Import DockerCodes.
From S2P Require Import DockerLogic.
From S2P Require Import DockerSpecs.
From S2P Require Import DockerFollows.
From S2P Require Import DockerSafety.
From S2P Require Import DockerTheorems.

(** ** Debts *)

(** The Engine did it; it did it or the run stopped waiting for the answer.  A call whose
    connection broke is reported as a plain failure, and taken as not done. *)
Definition done_reply (x : Reply) : bool := match x with Answered s _ => s <? 400 | Lost _ _ => false end.
Definition maybe_done (x : Reply) : bool :=
  match x with Answered s _ => s <? 400 | Lost Broken _ => false | Lost _ _ => true end.

Fixpoint name_debt (old name : string) (l : list Event) : bool :=
  match l with
  | [] => false
  | Called (RenameContainer id n) x :: l' =>
      if negb (bool_decide (id = old)) then name_debt old name l'
      else if bool_decide (n = name) then maybe_done x || name_debt old name l'
      else negb (done_reply x) && name_debt old name l'
  | Called (GetContainer ref) (Answered s (ContainerBody c)) :: l' =>
      if bool_decide (ref = old) && (s =? 200) && negb (bool_decide (c_name c = "/" +:+ name)) then false else name_debt old name l'
  | _ :: l' => name_debt old name l'
  end.

Fixpoint run_debt (old : string) (l : list Event) : bool :=
  match l with
  | [] => false
  | Called (StopContainer id _) (Answered s _) :: l' =>
      (bool_decide (id = old) && (s <? 400) && negb (s =? StatusNotModified)) || run_debt old l'
  | Called (StartContainer id) x :: l' => negb (bool_decide (id = old) && done_reply x) && run_debt old l'
  | _ :: l' => run_debt old l'
  end.

(** An event that adds no debt on [old]. *)
Definition calm (old : string) (l : list Event) (e : Event) : Prop :=
  match e with
  | Called (RenameContainer id _) _ | Called (StopContainer id _) _ => id <> old
  | _ => True
  end.
Lemma calm_free old l e : free e = true -> calm old l e.
Proof. destruct e as [[]| | | |]; simpl; done. Qed.

Lemma name_debt_calm old name e l : calm old l e -> name_debt old name (e :: l) = true -> name_debt old name l = true.
Proof.
  destruct e as [c x| | | |]; simpl; try done. destruct c; simpl; try done.
  - destruct x as [|s []]; try done. by destruct (_ && _).
  - intros Hne. by rewrite bool_decide_false.
Qed.
Lemma run_debt_calm old e l : calm old l e -> run_debt old (e :: l) = true -> run_debt old l = true.
Proof.
  destruct e as [c x| | | |]; simpl; try done. destruct c; simpl; try done.
  - intros Hne. destruct x; [done|]. by rewrite bool_decide_false.
  - intros _ [_ ?]%andb_true_iff. done.
Qed.

Definition clean (old name : string) (l : list Event) : Prop := name_debt old name l = false /\ run_debt old l = false.

Lemma calm_debts old name new base : respects (calm old) new base ->
  (name_debt old name (new ++ base) = true -> name_debt old name base = true) /\
  (run_debt old (new ++ base) = true -> run_debt old base = true).
Proof.
  induction new as [|e new IH]; [done|]. intros [He Hr]. destruct (IH Hr) as [Hn Hd]. simpl app. split.
  - intros H. by eapply Hn, name_debt_calm.
  - intros H. by eapply Hd, run_debt_calm.
Qed.
Lemma calm_clean old name new base : respects (calm old) new base -> clean old name base -> clean old name (new ++ base).
Proof.
  intros [Hn Hd]%(calm_debts _ name) [Cn Cd]. split; apply not_true_is_false; intros H; [apply Hn in H|apply Hd in H]; congruence.
Qed.

(** ** The name given back is not a parked one *)

Fixpoint has_suffix_mark (s : string) : bool :=
  HasPrefix s parkedSuffix || match s with String _ s' => has_suffix_mark s' | EmptyString => false end.
Lemma HasPrefix_longer p a b : HasPrefix a p = true -> HasPrefix (a +:+ b) p = true.
Proof. intros H. rewrite (prefix_split _ _ H), append_assoc. apply prefix_append. Qed.
Lemma cut_suffix_prefix s : exists rest, s = cut_suffix s +:+ rest.
Proof.
  induction s as [|c s [rest IH]]; cbn [cut_suffix]; [by exists ""|].
  destruct (HasPrefix (String c s) parkedSuffix); [by exists (String c s)|].
  exists rest. simpl. by f_equal.
Qed.
Lemma cut_suffix_unmarked s : has_suffix_mark (cut_suffix s) = false.
Proof.
  induction s as [|c s IH]; [done|]. cbn [cut_suffix]. destruct (HasPrefix (String c s) parkedSuffix) eqn:E; [done|].
  cbn [has_suffix_mark]. rewrite IH, orb_false_r. apply not_true_is_false. intros H.
  destruct (cut_suffix_prefix s) as [rest Hr]. apply (HasPrefix_longer _ _ rest) in H.
  change (String c (cut_suffix s) +:+ rest) with (String c (cut_suffix s +:+ rest)) in H. rewrite <- Hr in H. congruence.
Qed.
Lemma parked_marked a d : has_suffix_mark (parked a d) = true.
Proof.
  unfold parked. induction a as [|c a IH].
  { assert (H : forall s, HasPrefix s parkedSuffix = true -> has_suffix_mark s = true) by (intros [|x s] H; cbn [has_suffix_mark]; by rewrite H).
    apply H, (prefix_append parkedSuffix). }
  change (String c a +:+ parkedSuffix +:+ take_str 8 d) with (String c (a +:+ parkedSuffix +:+ take_str 8 d)).
  cbn [has_suffix_mark]. by rewrite IH, orb_true_r.
Qed.
Lemma unparked_name s a d : cut_suffix s <> parked a d.
Proof. intros E. pose proof (cut_suffix_unmarked s) as H. rewrite E, parked_marked in H. done. Qed.

(** ** One recreate *)

Definition any (l : list Event) (e : Event) : Prop := True.

Section Recreate.
Context (world : World) (req : DeploymentRequest) (p : prepared) (Hrun : run req (p_s p) = false).
Notation old := (old_of p).
Notation name := (parked (s_container (p_s p)) (dr_deployment req)).
Notation calls := (calls any).
Definition nd (r : Run) : bool := name_debt old name (events r).
Definition rd (r : Run) : bool := run_debt old (events r).

(** Calls that add no debt. *)
Definition lower (r r' : Run) : Prop := calls r r' /\ (nd r' = true -> nd r = true) /\ (rd r' = true -> rd r = true).
Lemma lower_refl r : lower r r.
Proof. split; [apply calls_refl|done]. Qed.
Lemma lower_trans r1 r2 r3 : lower r1 r2 -> lower r2 r3 -> lower r1 r3.
Proof. intros (C1 & N1 & R1) (C2 & N2 & R2). split; [by eapply calls_trans|auto]. Qed.
Lemma lower_calm r r' : DockerLogic.calls (calm old) r r' -> lower r r'.
Proof.
  intros H. split; [by eapply calls_impl; [|exact H]|]. destruct H as [(new & E & R) _ _ _].
  unfold nd, rd. rewrite E. by apply calm_debts.
Qed.
Lemma calm_push c x r r' : calls r r' -> events r' = Called c x :: events r -> calm old (events r) (Called c x) -> lower r r'.
Proof.
  intros H E Hc. split; [done|]. unfold nd, rd. rewrite E. split; [by apply name_debt_calm|by apply run_debt_calm].
Qed.
Notation Hcalm := (calm_free old).

Lemma discard_lower id f r : wp (discard world id f) (fun _ r' => lower r r') r.
Proof. apply (discard_spec world (calm old)); [done|]. intros b r'. apply lower_calm. Qed.
Lemma settle_lower s id o r : wp (settle world s id o) (fun _ r' => lower r r') r.
Proof. apply (settle_spec world (calm old) Hcalm); [done|done|]. intros b r'. apply lower_calm. Qed.

Lemma unpark_lower r : wp (unpark world p) (fun b r' => lower r r' /\ (b = true -> nd r' = false)) r.
Proof.
  apply wp_bind, (wp_posted world any); [done|..].
  - intros l s r' Hc E. apply wp_ret. split; [|done]. split; [done|]. unfold nd, rd. rewrite E. simpl.
    rewrite bool_decide_true, (bool_decide_false (cut_suffix _ = _)) by (done || apply unparked_name). done.
  - intros s b r' Hc E. apply wp_ret. unfold accepted. simpl. split; [split; [done|]|]; unfold nd, rd; rewrite E; simpl;
      rewrite bool_decide_true, (bool_decide_false (cut_suffix _ = _)) by (done || apply unparked_name); simpl.
    + split; [|done]. by intros [_ ?]%andb_true_iff.
    + intros ->. done.
Qed.

Lemma revive_lower paused r : wp (revive world p paused) (fun b r' => lower r r' /\ (b = true -> rd r' = false)) r.
Proof.
  apply wp_bind, (wp_posted world any); [done|..].
  - intros l s r' Hc E. simpl. apply wp_ret. split; [|done]. by eapply calm_push.
  - intros s b r1 Hc E. assert (L1 : lower r r1) by by eapply calm_push.
    assert (D1 : accepted (s, None) = true -> rd r1 = false).
    { unfold accepted, rd. simpl. intros Hs. rewrite E. simpl. by rewrite bool_decide_true, Hs by done. }
    destruct (accepted (s, None)) eqn:Ea; simpl; [|by apply wp_ret]. destruct (negb paused); [apply wp_ret; auto|].
    apply wp_bind, (wp_post world (calm old)); [done|]. intros x r2 H2%lower_calm. apply wp_ret. split; [by eapply lower_trans|].
    intros _. apply not_true_is_false. intros Hr. destruct H2 as (_ & _ & H2). apply H2 in Hr. by rewrite D1 in Hr.
Qed.

(** The name of the old container as it was just read. *)
Lemma current_lower id r (Q : got (ContainerRead * StateRead) -> Run -> Prop) :
  (forall e r', lower r r' -> Q (Missed e) r') ->
  (forall c st r', lower r r' -> (id = old -> c_name c <> "/" +:+ name -> nd r' = false) -> Q (Got (c, st)) r') ->
  wp (current world id) Q r.
Proof.
  intros Hm Hg. apply wp_bind, (wp_get world (calm old) Hcalm); [done|intros e r' H%lower_calm; by apply wp_ret, Hm|].
  intros c b r' H%lower_calm Hd E. apply wp_ret. destruct (c_state c) as [st|]; [|by apply Hm]. apply Hg; [done|].
  intros -> Hne. destruct b; simplify_eq. unfold nd. rewrite E. simpl. by rewrite bool_decide_true, (bool_decide_false (c_name c = _)).
Qed.

Lemma unparkIfParked_lower r : wp (unparkIfParked world p name) (fun b r' => lower r r' /\ (b = true -> nd r' = false)) r.
Proof.
  apply wp_bind, current_lower; [intros e r' H; by apply wp_ret|]. intros c st r1 L1 Hn.
  destruct (bool_decide (c_name c = "/" +:+ name)) eqn:E; simpl.
  - eapply wp_mono; [apply unpark_lower|]. intros b r2 [L2 H2]. split; [by eapply lower_trans|done].
  - apply wp_ret. split; [done|]. intros _. apply bool_decide_eq_false in E. by apply Hn.
Qed.

Lemma reviveIfStopped_lower paused grace r : wp (reviveIfStopped world p paused grace) (fun _ r' => lower r r') r.
Proof.
  apply wp_bind, (wp_now world (calm old) Hcalm). intros t r1 L1%lower_calm.
  apply wp_bind, current_lower; [intros e r2 L2; apply wp_ret; by eapply lower_trans|]. intros c st r2 L2 _.
  assert (L12 : lower r r2) by by eapply lower_trans.
  assert (Hrev : forall r3, lower r r3 -> wp (revive world p paused) (fun _ r' => lower r r') r3).
  { intros r3 L3. eapply wp_mono; [apply revive_lower|]. intros b r4 [L4 _]. by eapply lower_trans. }
  destruct (sr_running st); [|by apply Hrev]. apply wp_bind, (wp_now world (calm old) Hcalm). intros t' r3 L3%lower_calm.
  assert (L13 : lower r r3) by by eapply lower_trans. destruct (_ =? 0); [by apply wp_ret|].
  apply wp_bind, wp_bind, (wp_call world (calm old)); [done|]. intros x r4 L4%lower_calm _. apply wp_ret.
  assert (L14 : lower r r4) by by eapply lower_trans.
  destruct (match x with Lost Expired _ => _ | _ => _ end) as [[]|]; [by apply Hrev|by apply wp_ret..].
Qed.

Lemma undo_lower created o r : wp (undo world req p created o) (fun b r' => lower r r' /\ (b = true -> nd r' = false)) r.
Proof.
  apply wp_bind. apply (wp_mono _ (fun _ r' => lower r r')).
  { destruct (negb _); [apply discard_lower|]. destruct (unanswered o); [apply settle_lower|apply wp_ret, lower_refl]. }
  intros d r1 L1. destruct (negb d); [by apply wp_ret|]. rewrite Hrun.
  eapply wp_mono; [apply unpark_lower|]. intros b r2 [L2 H2]. split; [by eapply lower_trans|done].
Qed.

(** ** The steps *)

Lemma recheck_lower later r : wp (recheck_step world req p later) (fun aa r' => lower r r' /\ good aa.1) r.
Proof.
  apply wp_bind, (wp_until world (calm old) Hcalm). intros t r1 L1%lower_calm.
  destruct (t <? _); [apply wp_ret; split; [done|answers]|].
  apply wp_bind, (wp_begin world (calm old)); [done|]. intros r2 L2%lower_calm _. assert (L12 : lower r r2) by by eapply lower_trans.
  apply wp_bind, (get_container_spec world (calm old) Hcalm).
  { intros e r3 L3%lower_calm. apply wp_ret. split; [by eapply lower_trans|answers]. }
  intros c r3 L3%lower_calm _. assert (L13 : lower r r3) by by eapply lower_trans.
  destruct (installerManaged _); [apply wp_ret; split; [done|answers]|].
  destruct (_ || _); [apply wp_ret; split; [done|answers]|].
  destruct (c_config c); [|apply wp_ret; split; [done|answers]].
  apply wp_bind, (wp_until world (calm old) Hcalm). intros t' r4 L4%lower_calm. apply wp_ret.
  split; [by eapply lower_trans|answers].
Qed.

Lemma rename_debt r : nd r = false ->
  wp (rename_step world req p) (fun aa r' => calls r r' /\ good aa.1 /\ (rd r' = true -> rd r = true) /\
    (outcome_of aa.1 <> OutcomeSucceeded -> aa.2 = true -> nd r' = false)) r.
Proof.
  intros Hn. apply wp_bind.
  apply (wp_mono _ (fun a r' => calls r r' /\ good a /\ (rd r' = true -> rd r = true) /\
    (outcome_of a <> OutcomeSucceeded -> unanswered (outcome_of a) = false -> nd r' = false))).
  - case_match; [apply wp_ret; split_and!; [apply calls_refl|answers|done|done]|].
    apply wp_bind, (wp_posted world any); [done|..].
    + intros l s r' Hc E. apply wp_ret. simpl. split_and!; [done|answers|by unfold rd; rewrite E|].
      intros _ Hu. unfold nd. rewrite E. simpl. rewrite !bool_decide_true by done. simpl. destruct l; try by vm_compute in Hu.
    + intros s b r' Hc E. apply wp_ret. simpl. split_and!; [done|repeat case_match; answers|by unfold rd; rewrite E|].
      intros Hf _. unfold nd. rewrite E. simpl. rewrite !bool_decide_true by done. simpl. destruct (400 <=? s) eqn:Es; [|done].
      apply Z.leb_le in Es. replace (s <? 400) with false; [exact Hn|]. symmetry. by apply Z.ltb_ge.
  - intros a r1 (H1 & Hg & Hr & Ha). apply wp_bind. destruct (unanswered (outcome_of a)) eqn:Eu.
    + eapply wp_mono; [apply unparkIfParked_lower|]. intros b r2 [(H2 & _ & Hr2) Hb]. apply wp_ret.
      split_and!; [by eapply calls_trans|done|auto|]. intros _ ?. by apply Hb.
    + apply wp_ret, wp_ret. split_and!; auto.
Qed.

Lemma create_debt r :
  wp (create_step world req p) (fun aa r' => calls r r' /\ good aa.1 /\ (rd r' = true -> rd r = true) /\
    (outcome_of aa.1 <> OutcomeSucceeded -> aa.2.2 = true -> nd r' = false)) r.
Proof.
  unfold create_step. rewrite Hrun. apply wp_bind, wp_bind.
  eapply wp_mono; [apply (create_calls_spec world (calm old) Hcalm); done|].
  intros [a id] r1 (L1%lower_calm & Hg & _ & _). apply wp_ret, wp_bind.
  destruct (bool_decide (outcome_of a = OutcomeSucceeded)) eqn:Ea.
  - apply wp_ret, wp_ret. split_and!; [apply L1|done|apply L1|]. intros Hne. by apply bool_decide_eq_true in Ea.
  - simpl. eapply wp_mono; [apply undo_lower|]. intros b r2 [L2 Hb]. apply wp_ret. pose proof (lower_trans _ _ _ L1 L2) as L.
    split_and!; [apply L|done|apply L|]. intros _ ?. by apply Hb.
Qed.

Lemma stop_debt created paused was grace r : rd r = false ->
  wp (stop_step world req p created paused was grace) (fun aa r' => calls r r' /\ good aa.1 /\
    (outcome_of aa.1 = OutcomeSucceeded -> rd r' = true -> aa.2.1 = true) /\
    (outcome_of aa.1 <> OutcomeSucceeded -> rd r' = false /\ (aa.2.2 = true -> nd r' = false))) r.
Proof.
  intros Hr. apply wp_bind.
  assert (Hfail : forall err s r1, calls r r1 -> rd r1 = false ->
    wp (let a := outcomeFor err s in undone ← undo world req p created "";
        revived ← (if negb (unanswered (outcome_of a)) || negb was then mret true else reviveIfStopped world p paused grace);
        mret (a, (false, revived && undone))) (fun aa r' => calls r r' /\ good aa.1 /\
    (outcome_of aa.1 = OutcomeSucceeded -> rd r' = true -> aa.2.1 = true) /\
    (outcome_of aa.1 <> OutcomeSucceeded -> rd r' = false /\ (aa.2.2 = true -> nd r' = false))) r1).
  { intros err s r1 H1 Hr1. cbv zeta. apply wp_bind. eapply wp_mono; [apply undo_lower|]. intros u r2 [L2 Hu]. apply wp_bind.
    apply (wp_mono _ (fun _ r' => lower r2 r')).
    { destruct (_ || _); [apply wp_ret, lower_refl|apply reviveIfStopped_lower]. }
    intros v r3 L3. apply wp_ret. pose proof (lower_trans _ _ _ L2 L3) as (C & _ & R).
    split_and!; [by eapply calls_trans|answers|intros E; by destruct (outcomeFor_not _ _ E)|]. intros _. split.
    - apply not_true_is_false. intros E. apply R in E. congruence.
    - simpl. intros [_ Eu]%andb_true_iff. apply not_true_is_false. intros E. apply L3 in E. rewrite Hu in E; done. }
  apply (wp_posted world any); [done|..].
  - intros l s r1 Hc E. simpl. apply Hfail; [done|]. unfold rd. by rewrite E.
  - intros s b r1 Hc E. simpl. destruct ((400 <=? s) && _) eqn:Es.
    + apply Hfail; [done|]. apply andb_true_iff in Es as [Es%Z.leb_le _]. unfold rd. rewrite E. simpl.
      replace (s <? 400) with false by (symmetry; by apply Z.ltb_ge). rewrite andb_false_r. exact Hr.
    + apply wp_ret. split_and!; [done|answers| |done]. intros _. unfold rd. rewrite E. simpl. rewrite orb_true_iff.
      intros [[_ ?]%andb_true_iff|Hd]; [done|]. unfold rd in Hr. congruence.
Qed.

(** The identity a start adds. *)
Definition told (r : Run) : Prop :=
  rollback_failed_step (s_name (p_s p)) ∈ steps r \/ exists i, i ∈ services r /\ id_service i = s_name (p_s p).

Lemma start_debt created watched r :
  wp (start_step world (p_s p) created watched) (fun aa r' => (outcome_of aa.1 = OutcomeSucceeded \/ outcome_of aa.1 ∈ failures) /\
    exists r0, lower r r0 /\ (outcome_of aa.1 = OutcomeSucceeded /\ (exists c, r' = add_service (identity_of (p_s p) c) r0) \/
                            outcome_of aa.1 <> OutcomeSucceeded /\ r' = r0)) r.
Proof.
  assert (Hgood : forall a, good a -> outcome_of a <> OutcomeSucceeded -> outcome_of a ∈ failures).
  { by intros a [H|[H _]]. }
  assert (Hfail : forall a (up : bool) r1, lower r r1 -> outcome_of a <> OutcomeSucceeded -> outcome_of a ∈ failures ->
    wp (mret (a, up)) (fun aa r' => (outcome_of aa.1 = OutcomeSucceeded \/ outcome_of aa.1 ∈ failures) /\
    exists r0, lower r r0 /\ (outcome_of aa.1 = OutcomeSucceeded /\ (exists c, r' = add_service (identity_of (p_s p) c) r0) \/
                            outcome_of aa.1 <> OutcomeSucceeded /\ r' = r0)) r1).
  { intros a up r1 L1 Hne Hn. apply wp_ret. split; [by right|]. exists r1. auto. }
  apply wp_bind, (wp_post world (calm old)); [done|]. intros [st err] r1 L1%lower_calm.
  destruct (_ || _); [apply Hfail; [done|apply outcomeFor_not|apply outcomeFor_fails]|].
  apply wp_bind. apply (wp_mono _ (fun a r' => lower r r' /\ good a)).
  { destruct watched; [|by apply wp_ret; split; [|answers]]. eapply wp_mono; [apply (watch_spec world (calm old) Hcalm)|].
    intros a r2 [L2%lower_calm Hg]. split; [by eapply lower_trans|done]. }
  intros w r2 [L2 Hg]. destruct (bool_decide (outcome_of w = OutcomeSucceeded)) eqn:Ew; simpl.
  2:{ apply bool_decide_eq_false in Ew. apply Hfail; [done|done|auto]. }
  apply wp_bind, (get_container_spec world (calm old) Hcalm).
  { intros e r3 L3%lower_calm. apply (Hfail (_, _, _)); [by eapply lower_trans|apply outcomeFor_not|].
    exact (outcomeFor_fails (Some e) (statusOf e)). }
  intros c r3 L3%lower_calm _. assert (L13 : lower r r3) by by eapply lower_trans.
  destruct (_ || _); [apply (Hfail (_, _, _)); [done|done|left]|]. apply wp_bind, wp_modify, wp_ret. split; [by left|]. exists r3. split; [done|]. left. eauto.
Qed.

(** ** The whole recreate *)

(** While the run goes on the debts obey [P]; once it failed they are settled or told. *)
Definition stands (P : list Event -> Prop) (r : Run) : Prop :=
  (outcome r = "" -> P (events r)) /\ (outcome r <> "" -> clean old name (events r) \/ told r).

Lemma told_more r s : told r -> told (add_step s r).
Proof. intros [H|H]; [left|by right]. apply elem_of_app. by left. Qed.

(** A step, after which its caller adds the rollback step unless [flag]. *)
Lemma stands_step {A} stp (skip : A) (flag : A -> bool) m (P : list Event -> Prop) (P' : A -> list Event -> Prop) r :
  stands P r -> flag skip = true ->
  (outcome r = "" -> P (events r) -> wp m (fun aa r1 => calls r r1 /\ good aa.1 /\
     (outcome_of aa.1 = OutcomeSucceeded -> P' aa.2 (events r1)) /\
     (outcome_of aa.1 <> OutcomeSucceeded -> flag aa.2 = true -> clean old name (events r1))) r) ->
  wp (step (s_name (p_s p)) stp skip m) (fun x r2 => forall B (k : M B) Q, (forall r', stands (P' x) r' -> wp k Q r') ->
    wp ((if flag x then mret tt else rollbackFailed (s_name (p_s p))) ≫= fun _ => k) Q r2) r.
Proof.
  intros [HP HF] Hskip Hm. apply wp_step.
  - intros Ho B k Q Hk. rewrite Hskip. apply wp_bind, wp_ret, Hk. split; [done|]. intros _.
    destruct (HF Ho) as [?|?]; [by left|right; by apply told_more].
  - intros Ho. eapply wp_mono; [by apply Hm, HP|]. intros [a x] r1 (Hc & Hg & Hs & Hf) B k Q Hk. simpl in *.
    destruct (ca_same _ _ _ Hc) as (O1 & _). unfold settled_step.
    destruct (bool_decide (outcome_of a = OutcomeSucceeded)) eqn:Ea.
    + apply bool_decide_eq_true in Ea. destruct (flag x); apply wp_bind; [apply wp_ret|apply wp_modify]; apply Hk;
        (split; simpl; [intros _; by apply Hs|congruence]).
    + apply bool_decide_eq_false in Ea. assert (Hne : outcome_of a <> "") by (destruct Hg as [?|[? _]]; [done|by apply not_empty]).
      destruct (flag x) eqn:Ex; apply wp_bind; [apply wp_ret|apply wp_modify]; apply Hk; (split; simpl; [done|intros _]).
      * left. by apply Hf.
      * right. left. apply elem_of_app. right. left.
Qed.

Lemma rollback_debt r r1 a created running paused :
  lower r r1 -> outcome_of a <> OutcomeSucceeded -> outcome_of a <> "" -> (rd r = true -> running = true) ->
  wp (rollback world p created running paused) (fun _ r' => outcome r' <> "" /\ (clean old name (events r') \/ told r'))
    (settled_step (s_name (p_s p)) "start" a r1).
Proof.
  intros L1 Hne Hn Hrd. set (r2 := settled_step _ _ _ _).
  assert (E2 : r2 = add_step (mkStep (s_name (p_s p)) "start" (outcome_of a) a.1.2 a.2) (with_outcome (outcome_of a) "step_failed" r1)).
  { unfold r2, settled_step. by rewrite bool_decide_false. }
  assert (D2 : rd r2 = true -> rd r = true) by (rewrite E2; apply L1).
  assert (O2 : outcome r2 = outcome_of a) by by rewrite E2.
  apply wp_bind. eapply wp_mono; [apply discard_lower|]. intros gone r3 L3. apply wp_bind.
  apply (wp_mono _ (fun b r' => lower r2 r' /\ (b = true -> clean old name (events r')))).
  { destruct (negb gone); [by apply wp_ret|]. apply wp_bind. eapply wp_mono; [apply unpark_lower|]. intros u r4 [L4 Hu].
    pose proof (lower_trans _ _ _ L3 L4) as L24. apply wp_bind.
    apply (wp_mono _ (fun v r' => lower r4 r' /\ (v = true -> rd r' = false))).
    { destruct running; simpl; [apply revive_lower|]. apply wp_ret. split; [apply lower_refl|]. intros _. apply not_true_is_false.
      intros E. apply L24, D2, Hrd in E. done. }
    intros v r5 [L5 Hv]. apply wp_ret. split; [by eapply lower_trans|]. intros [Ev Eu]%andb_true_iff. split; [|by apply Hv].
    apply not_true_is_false. intros E. apply L5 in E. rewrite Hu in E; done. }
  intros b r4 [L4 Hb]. destruct L4 as [C4 _]. destruct (ca_same _ _ _ C4) as (O4 & _). destruct b; simpl.
  - apply wp_bind, wp_reads, wp_bind, wp_modify, wp_modify. simpl. split; [congruence|]. left. by apply Hb.
  - apply wp_modify. simpl. split; [congruence|]. right. left. apply elem_of_app. right. left.
Qed.

Lemma replace_debt later r :
  stands (clean old name) r -> wp (replace world req p later) (fun _ r' => clean old name (events r') \/ told r') r.
Proof.
  intros H0. unfold replace. rewrite Hrun. apply wp_bind.
  eapply wp_mono; [apply (stands_step "recheck" (false, false, stopGrace) (fun _ => true) _ (clean old name) (fun _ => clean old name)); [done|done|]|].
  { intros Ho [Cn Cr]. eapply wp_mono; [apply recheck_lower|]. intros aa r1 [(C & N & R) Hg].
    assert (clean old name (events r1)).
    { split; apply not_true_is_false; intros E; [apply N in E|apply R in E]; unfold nd, rd in *; congruence. }
    split_and!; done. }
  intros [[paused was] grace] r1 Hk1.
  assert (H1 : stands (clean old name) r1) by exact (Hk1 unit (mret tt) (fun _ r' => stands (clean old name) r') (fun _ H => H)).
  clear Hk1. apply wp_bind.
  eapply wp_mono; [apply (stands_step "rename" true id _ (clean old name) (fun _ l => run_debt old l = false)); [done|done|]|].
  { intros Ho [Cn Cr]. eapply wp_mono; [by apply rename_debt|]. intros aa r2 (C & Hg & R & N). split_and!; [done|done| |].
    - intros _. apply not_true_is_false. intros E. apply R in E. unfold rd in E. congruence.
    - intros Hne Hf. split; [by apply N|]. apply not_true_is_false. intros E. apply R in E. unfold rd in E. congruence. }
  intros u r2' Hk2. apply Hk2. clear Hk2 r2'. intros r2 H2. unfold create. apply wp_bind, wp_bind.
  eapply wp_mono; [apply (stands_step "create" ("", true) snd _ (fun l => run_debt old l = false) (fun _ l => run_debt old l = false)); [done|done|]|].
  { intros Ho Cr. eapply wp_mono; [apply create_debt|]. intros aa r3 (C & Hg & R & N).
    assert (run_debt old (events r3) = false) by (apply not_true_is_false; intros E; apply R in E; unfold rd in E; congruence).
    split_and!; [done|done|done|]. intros Hne Hf. split; [by apply N|done]. }
  intros [created restored] r3' Hk3. apply Hk3. clear Hk3 r3'. intros r3 H3. apply wp_ret, wp_bind.
  eapply wp_mono; [apply (stands_step "stop" (false, true) snd _ (fun l => run_debt old l = false)
    (fun x l => run_debt old l = true -> x.1 = true)); [done|done|]|].
  { intros Ho Cr. eapply wp_mono; [by apply stop_debt|]. intros aa r4 (C & Hg & R & N). split_and!; [done|done|done|].
    intros Hne Hf. destruct (N Hne) as [? Hn]. split; [by apply Hn|done]. }
  intros [running restored'] r4' Hk4. apply Hk4. clear Hk4 r4'. intros r4 [H4 F4]. simpl in H4. unfold start. apply wp_bind, wp_step.
  { intros Ho. apply wp_bind, wp_ret. apply wp_step; [|done]. intros _.
    destruct (F4 Ho) as [?|?]; [by left|right]. by do 2 apply told_more. }
  intros Ho. apply wp_bind. eapply wp_mono; [apply start_debt|]. intros [a up] r5 (Hn & r0 & L0 & Hc). apply wp_ret. simpl in *.
  destruct Hc as [[Ea (c & ->)]|[Hne ->]].
  - unfold settled_step. rewrite Ea, bool_decide_true by done. simpl. apply wp_bind, wp_ret.
    assert (Ht : forall r', (exists l1 l2, services r' = l1 ++ identity_of (p_s p) c :: l2) -> told r').
    { intros r' (l1 & l2 & E). right. exists (identity_of (p_s p) c). rewrite E. split; [|done]. apply elem_of_app. right. left. }
    apply wp_step; [intros _; right; apply Ht; simpl; by exists (services r0), []|]. intros _.
    apply wp_bind, (wp_post world any); [done|]. intros [st err] r6 C6. apply wp_ret. right. apply Ht. exists (services r0), [].
    unfold settled_step. destruct (ca_same _ _ _ C6) as (_ & _ & _ & E6 & _). by case_match.
  - destruct Hn as [|Hn]; [done|].
    assert (Hf : failedStep (outcome_of a) = true).
    { unfold failedStep. rewrite bool_decide_false by done. rewrite bool_decide_false; [done|]. intros E. rewrite E in Hn.
      by apply (bool_decide_eq_true_2 (_ ∈ failures)) in Hn. }
    rewrite Hf. apply wp_bind.
    eapply wp_mono; [apply (rollback_debt r4 r0); [done|done|by apply not_empty|by apply H4]|].
    intros [] r6 [O6 F6]. apply wp_step; [|done]. intros _. destruct F6 as [?|?]; [by left|right; by apply told_more].
Qed.
End Recreate.

(** ** The whole run *)

Section Whole.
Context (world : World) (self : string) (req : DeploymentRequest) (Hframe : frame_ok req) (s : DeploymentService).
Notation target x := (it_container (s_replaces x)).
Definition old_clean (l : list Event) : Prop := clean (target s) (parked (s_container s) (dr_deployment req)) l.

(** The run says what became of the service. *)
Definition told_of (name : string) (st : list DeploymentStep) (ids : list DeploymentIdentity) : Prop :=
  rollback_failed_step name ∈ st \/ exists i, i ∈ ids /\ id_service i = name.
Definition settled (r : Run) : Prop := old_clean (events r) \/ told_of (s_name s) (steps r) (services r).

Lemma own_calm p l e : old_of p <> target s -> allowed_on req (own_target self req p) l e -> calm (target s) l e.
Proof.
  intros Hne. destruct e as [c x| | | |]; simpl; try done. intros [H|[_ H]]; destruct c; simpl in *; try done; destruct H; congruence.
Qed.

Lemma other_settled p k j r r' :
  old_of p <> target s -> follows (allowed_on req (own_target self req p)) (frame_volumes req) false phase_two k j r r' ->
  (old_clean (events r) -> old_clean (events r')) /\ (settled r -> settled r').
Proof.
  intros Hne [(new & E & R) (st & S & _) (ids & V & _) _ _ _ _ _].
  assert (Hc : old_clean (events r) -> old_clean (events r')).
  { intros H. unfold old_clean. rewrite E. apply calm_clean; [|done]. eapply respects_impl; [|exact R]. intros l e. by apply own_calm. }
  split; [done|]. intros [H|[H|(i & Hi & Hn)]]; [left; auto|right; left; rewrite S; apply elem_of_app; by left|].
  right. right. exists i. split; [|done]. rewrite V. apply elem_of_app. by left.
Qed.

Lemma replace_all_settled l ps r :
  (forall x, x ∈ l -> x ∈ dr_services req) -> NoDup (map (fun x => target x) l) ->
  Forall2 (fun x p => ready self req x p r) l ps -> begun_ok r ->
  (s ∈ l /\ run req s = false /\ old_clean (events r)) \/ (target s ∉ map (fun x => target x) l /\ settled r) ->
  wp (replace_all world req ps) (fun _ r' => settled r') r.
Proof.
  intros Hl Hnd Hps. revert l r Hl Hnd Hps; induction ps as [|p ps IH]; intros l r Hl Hnd Hps Hbo Hcase; inversion Hps as [|x ? l' ? Hp Hps']; subst; simpl.
  - apply wp_ret. destruct Hcase as [[Hs _]|[_ ?]]; [by apply elem_of_nil in Hs|done].
  - apply NoDup_cons in Hnd as [Hx Hnd]. pose proof (rd_service _ _ _ _ _ Hp) as Hsame.
    assert (Hold : old_of p = target x) by (unfold old_of; by rewrite (sv_replaces _ _ Hsame)).
    assert (Hfo := replace_ok world self req Hframe x p ltac:(set_solver) Hsame (llen ps) r Hp Hbo).
    apply wp_bind. apply (wp_mono _ (fun _ r1 => follows (allowed_on req (own_target self req p)) (frame_volumes req) false phase_two 6 1 r r1 /\
      ((s ∈ l' /\ run req s = false /\ old_clean (events r1)) \/ (target s ∉ map (fun x => target x) l' /\ settled r1)))).
    + destruct Hcase as [(Hs & Hr & Hc)|[Hn Hset]].
      * apply elem_of_cons in Hs as [<-|Hs].
        -- eapply wp_mono; [apply wp_and; [exact Hfo|]|].
           { apply (replace_debt world req p); [by rewrite (run_same req s (p_s p))|]. 
             split; intros _; [|left]; rewrite Hold, (sv_container _ _ Hsame); exact Hc. }
           intros [] r1 [[Hf _] Hd]. split; [done|]. right. split; [done|].
           rewrite Hold, (sv_container _ _ Hsame) in Hd. destruct Hd as [Hd|Hd]; [by left|right]. unfold told in Hd.
           by rewrite (sv_name _ _ Hsame) in Hd.
        -- assert (Hne : old_of p <> target s). { rewrite Hold. intros E. apply Hx. rewrite E. apply list_elem_of_fmap. by exists s. }
           eapply wp_mono; [exact Hfo|]. intros [] r1 [Hf _]. split; [done|]. left. split_and!; [done|done|].
           by eapply other_settled.
      * apply not_elem_of_cons in Hn as [Hne Hn]. eapply wp_mono; [exact Hfo|]. intros [] r1 [Hf _]. split; [done|]. right. split; [done|].
        eapply (other_settled p); [by rewrite Hold|exact Hf|done].
    + intros [] r1 [Hf Hc]. apply (IH l'); [set_solver|done| |by apply (fo_began _ _ _ _ _ _ _ _ Hf)|done].
      eapply Forall2_impl; [exact Hps'|]. intros y q Hyq. by eapply ready_later.
Qed.
End Whole.

Lemma free_clean old name l : Forall (fun e => free e = true) l -> clean old name l.
Proof.
  intros H. rewrite <- (app_nil_r l). apply calm_clean; [|done].
  induction H as [|e l He _ IH]; simpl; [done|]. split; [by apply calm_free|done].
Qed.


(** A daemon that refuses the create and then the old container's name. *)
Definition dw_wedged : World :=
  dw_world (fun c => match c with
                     | CreateContainer _ _ => Some (Answered 500 NoBody)
                     | RenameContainer _ n => if bool_decide (n = "shop-web-1") then Some (Answered 409 NoBody) else None
                     | _ => None
                     end).


(** A rename whose connection broke is a plain failure: the daemon may have done it, and the run
    neither looks nor says that the container may be parked. *)
Definition dw_cut : World :=
  dw_world (fun c => match c with RenameContainer _ _ => Some (Lost Broken 0) | _ => None end).
Example dw_cut_unchecked :
  let out := Deploy dw_cut "" demo_request new_run in
  map (fun s => (st_step s, st_outcome s, st_code s)) (drop 4 (rs_steps out.1)) =
    [("rename", OutcomeFailed, "runtime_error"); ("create", OutcomeSkipped, ""); ("stop", OutcomeSkipped, "");
     ("start", OutcomeSkipped, ""); ("remove", OutcomeSkipped, "")] /\
  match events out.2 with Called (RenameContainer id _) (Lost Broken _) :: _ => id = dw_old | _ => False end.
Proof. vm_compute. split; reflexivity. Qed.
