(* ===== verification/DockerWatch.v ===== *)
(** * The watch of a start ends

    deploy.go, [watch]: the loop reads a container and sleeps until its window closes.  No read or
    sleep can make it longer than [watchRounds] rounds, because the monotonic clock moves by at
    least what a sleep asks for. *)
From Stdlib Require Import ZArith Lia Ascii String.
From stdpp Require Import base gmap sets strings list.
From S2P Require Import Prelude.
From S2P Require Import Frame.
From S2P Require Import Engine.
From S2P Require Import DockerRun.
From S2P Require Import DockerLogic.

Section Watch.
Context (world : World).

Lemma get_later id r : mono r <= mono (get_container world id r).2.
Proof. simpl. lia. Qed.

(** Rounds enough for what is left of the window. *)
Lemma watch_loop_fuel n extra id end_ r :
  end_ - mono r <= startPoll * Z.of_nat n -> watch_loop world (S n + extra) id end_ r = watch_loop world (S n) id end_ r.
Proof.
  revert r; induction n as [|n IH]; intros r Hr; cbn [watch_loop Nat.add].
  - unfold mbind, M_bind. pose proof (get_later id r) as Hm. destruct (get_container world id r) as [[c|e] r1]; simpl in *; [|done].
    destruct (watch_ended c); [done|]. simpl. replace (end_ <=? mono r1) with true by (symmetry; apply Z.leb_le; unfold startPoll in Hr; lia). done.
  - unfold mbind, M_bind. pose proof (get_later id r) as Hm. destruct (get_container world id r) as [[c|e] r1]; cbn [fst snd] in *; [|done].
    destruct (watch_ended c); [done|]. cbn [fst snd now_mono]. destruct (end_ <=? mono r1) eqn:E; [done|]. apply Z.leb_gt in E.
    set (r2 := push world _ 0 r1). assert (H2 : mono r1 <= mono r2) by (unfold r2, push; simpl; lia). cbn [fst snd].
    set (r3 := push world _ 0 r2). assert (H3 : mono r2 <= mono r3) by (unfold r3, push; simpl; lia).
    unfold sleep. destruct (woken world (events r3) _); [done|]. cbn [fst snd]. apply (IH _). unfold push. cbn [mono]. unfold startPoll in *. lia.
Qed.
End Watch.

(** Watching a started container always ends.  Eleven reads are enough whatever the container
    and the host's clock do: with any more rounds allowed the loop makes the same calls and gives
    the same answer. *)
Theorem watch_ends world id extra r :
  watch world id r = (t ← now_mono world; watch_loop world (watchRounds + extra) id (t + startWatch)) r.
Proof.
  unfold watch, mbind, M_bind. cbn [fst snd now_mono]. symmetry.
  apply (watch_loop_fuel world 10 extra). unfold push. simpl mono. unfold startWatch, startPoll, Second. lia.
Qed.
