(* ===== verification/DockerRemoval.v ===== *)
(** * Removing an application's containers

    remove.go: what a run of [Remove] may do, for every host, and that its result is one the
    server accepts. *)
From Stdlib Require Import ZArith Lia Ascii String.
From stdpp Require Import base gmap sets strings list.
From S2P Require Import Prelude.
From S2P Require Import Regex.
From S2P Require Import Grammar.
From S2P Require Import Inspection.
From S2P Require Import Frame.
From S2P Require Import Engine.
From S2P Require Import ContainerBody.
From S2P Require Import DockerRun.
From S2P Require Import DockerDeploy.
From S2P Require Import DockerWorld.
From S2P Require Import DockerCodes.
From S2P Require Import DockerLogic.
From S2P Require Import DockerSpecs.
From S2P Require Import DockerFollows.
From S2P Require Import DockerSafety.
From S2P Require Import DockerTheorems.

Definition removal_steps : list string := ["precondition"; "stop"; "remove"].

Lemma removal_loop_names names containers l :
  removal_loop names containers l = true -> Forall (fun t => re_match deploymentService (rt_service t) = true) l.
Proof.
  revert names containers; induction l as [|t l IH]; intros names containers; simpl; [constructor|].
  rewrite !andb_true_iff. intros ((((Hn & _) & _) & _) & H). constructor; [done|by eapply IH].
Qed.

Lemma removal_validated req t : removal_validate_for RuntimeDocker req t = Ok tt ->
  Forall (fun t => re_match deploymentService (rt_service t) = true) (rm_containers req) /\
  (length (rm_containers req) <= 100)%nat /\ ValidRequestID (rm_request req) = true.
Proof.
  unfold removal_validate_for. intros H. refusals H. apply negb_false_iff in Hg. unfold for_runtime in Hg.
  change (bool_decide (RuntimeDocker = RuntimeKubernetes)) with false in Hg.
  assert (Hk : rm_kubernetes req = None).
  { destruct (rm_kubernetes req); [|done]. by rewrite bool_decide_true in Hg by eauto. }
  unfold removal_validate in H. refusals H. rewrite Hk in H. refusals H.
  match goal with H : negb (removal_loop _ _ _) = false |- _ => apply negb_false_iff in H; rename H into Hl end.
  match goal with H : _ || _ || (llen (rm_containers req) >? _) = false |- _ => apply orb_false_iff in H as [_ Hn] end.
  match goal with H : negb (re_match deploymentUUID _) || _ || _ || _ = false |- _ => rename H into Hi end.
  rewrite Z.gtb_ltb, Z.ltb_ge in Hn. unfold llen, MaxRemovalTargets in Hn. split; [by eapply removal_loop_names|]. split; [lia|].
  apply orb_false_iff in Hi as [[[_ Hr]%orb_false_iff _]%orb_false_iff _]. by apply negb_false_iff in Hr.
Qed.

Section Removal.
Context (world : World) (self : string) (req : RemovalRequest).

(** A container the frame names, never the agent's own, read before as the one the frame means. *)
Definition removable (l : list Event) (id : string) : Prop :=
  isSelf self id = false /\ exists t c, t ∈ rm_containers req /\ it_container (rt_target t) = id /\ read_as id c l /\
    is_target c (rt_target t) = true /\ installerManaged (match c_config c with Some g => entries (cfg_labels g) | None => ∅ end) = false.

Definition removal_rule (l : list Event) (e : Event) : Prop :=
  match e with
  | Called c _ =>
      harmless c = true \/
      (Began ∈ l /\
       match c with
       | StopContainer id _ => removable l id
       | DeleteContainer id false =>
           removable l id /\ exists g st b, Called (StopContainer id g) (Answered st b) ∈ l /\ st < 400
       | _ => False
       end)
  | _ => True
  end.

Notation ok := removal_rule.
Notation calls := (calls ok).
Notation follows := (follows ok ∅ true removal_steps).
Lemma removal_free l e : free e = true -> ok l e.
Proof. destruct e; simpl; auto. Qed.
Local Definition Hsteps : forall s, s ∈ removal_steps -> s ∈ deploymentSteps := steps_in removal_steps eq_refl.

Lemma removable_in r r' id : calls r r' -> removable (events r) id -> removable (events r') id.
Proof.
  intros Hc (Hs & t & c & Ht & Hi & Hr & H). split; [done|]. exists t, c. split_and!; try done; [by eapply (calls_in ok)|apply H..].
Qed.

Lemma target_precondition_ok t later r : t ∈ rm_containers req ->
  wp (target_precondition world self req t later) (fun aa r' => calls r r' /\ good aa.1 /\
    (outcome_of aa.1 = OutcomeSucceeded -> aa.2.1 = false -> removable (events r') (it_container (rt_target t)))) r.
Proof.
  intros Ht. unfold target_precondition. destruct (isSelf _ _) eqn:Es; [apply wp_ret; split_and!; [apply calls_refl|answers|done]|].
  apply wp_bind, (get_container_spec world ok removal_free).
  - intros e r1 H1. case_match; apply wp_ret; (split_and!; [done|answers|]); [done|]. intros E. by destruct (outcomeFor_not _ _ E).
  - intros c r1 H1 Hread. destruct (is_target c (rt_target t)) eqn:Et; simpl; [|apply wp_ret; split_and!; [done|answers|done]].
    destruct (installerManaged _) eqn:Ei; [apply wp_ret; split_and!; [done|answers|done]|].
    apply wp_bind, (wp_until world ok removal_free). intros left r2 H2. apply wp_ret. split_and!; [by eapply calls_trans|answers|].
    intros _ _. eapply removable_in; [exact H2|]. split; [done|]. exists t, c. done.
Qed.

Definition stopped_in (l : list Event) (id : string) : Prop :=
  exists g st b, Called (StopContainer id g) (Answered st b) ∈ l /\ st < 400.

Lemma target_stop_ok t grace r : begun_ok r -> removable (events r) (it_container (rt_target t)) ->
  wp (target_stop world req t grace) (fun aa r' => calls r r' /\ good aa.1 /\
    (outcome_of aa.1 = OutcomeSucceeded -> began r' /\ removable (events r') (it_container (rt_target t)) /\
       stopped_in (events r') (it_container (rt_target t)))) r.
Proof.
  intros Hbo Hrem. apply wp_bind, (wp_until world ok removal_free). intros left r1 H1.
  destruct (_ <? _); [apply wp_ret; split_and!; [done|answers|done]|].
  apply wp_bind, (wp_begin world ok); [done|]. intros r2 H2 Hb. assert (H12 : calls r r2) by by eapply calls_trans.
  assert (Hbeg : began r2) by by apply (ca_began _ _ _ H12). pose proof (removable_in _ _ _ H12 Hrem) as Hrem2.
  apply wp_bind, (wp_posted world ok); [intros x; right; done|..].
  - intros l s r3 H3 _. apply wp_ret. split_and!; [by eapply calls_trans|answers|]. intros E. by destruct (outcomeFor_not _ _ E).
  - intros s b r3 H3 E. apply wp_ret. assert (H13 : calls r r3) by by eapply calls_trans. simpl.
    destruct ((400 <=? s) && _) eqn:Es; [split_and!; [done|answers|]; intros E'; by destruct (outcomeFor_not _ _ E')|].
    split_and!; [done|answers|]. intros _. split_and!; [by apply (calls_in ok r2)|by apply (removable_in r2)|].
    exists grace, s, b. split; [rewrite E; left|].
    apply andb_false_iff in Es as [Es%Z.leb_gt|Es%negb_false_iff%Z.eqb_eq]; [done|]. rewrite Es. unfold StatusNotModified. lia.
Qed.

Lemma target_remove_ok t r : began r -> removable (events r) (it_container (rt_target t)) -> stopped_in (events r) (it_container (rt_target t)) ->
  wp (target_remove world t) (fun aa r' => calls r r' /\ good aa.1) r.
Proof.
  intros Hb Hrem Hst. apply wp_bind, (wp_post world ok); [intros x; right; done|]. intros [s err] r1 H1. apply wp_ret.
  split; [done|]. simpl. repeat case_match; answers.
Qed.

(** A step recorded as skipped while the run goes on. *)
Lemma follows_gone svc stp r : re_match deploymentService svc = true -> stp ∈ removal_steps ->
  follows 1 0 r (add_step (mkStep svc stp OutcomeSkipped "" "") r).
Proof.
  intros Hn Hs. split; try done.
  - by exists [].
  - exists [mkStep svc stp OutcomeSkipped "" ""]. split; [done|]. split.
    { split; [|constructor; [exact Hs|constructor]]. constructor; [|constructor]. apply step_fine_quiet; [done|by apply Hsteps|by right]. }
    split; [simpl; lia|]. intros _. constructor; [by right|constructor].
  - exists []. rewrite app_nil_r. repeat split; [constructor|simpl; lia].
  - auto.
Qed.

Lemma settled_ok svc stp a r : good a -> outcome (settled_step svc stp a r) = "" -> outcome_of a = OutcomeSucceeded.
Proof.
  unfold settled_step. destruct (bool_decide _) eqn:E; simpl; [by intros; apply bool_decide_eq_true in E|].
  intros [Hg|[Hg _]] Ho; [done|by apply not_empty in Hg].
Qed.
Lemma settled_events svc stp a r : events (settled_step svc stp a r) = events r.
Proof. unfold settled_step. by case_match. Qed.

Lemma removeTarget_ok t later r :
  t ∈ rm_containers req -> re_match deploymentService (rt_service t) = true -> begun_ok r ->
  wp (removeTarget world self req t later) (fun _ r' => follows 3 0 r r') r.
Proof.
  intros Ht Hn Hbo. set (id := it_container (rt_target t)). apply wp_bind.
  apply (wp_mono _ (fun x r1 => follows 1 0 r r1 /\ (outcome r1 = "" -> x.1 = false -> removable (events r1) id))).
  { apply (follows_step ok ∅ true _ Hsteps _ Hn "precondition" _ _ _ 0); [by apply step_in; vm_compute|by intros; split; [done|congruence]|].
    intros Ho. eapply wp_mono; [by apply target_precondition_ok|]. intros [a x] r1 (H1 & Hg & Hx). split_and!; [by constructor|done|].
    intros Hf. split; [done|]. rewrite settled_events. intros Ho1 Hx1. apply Hx; [by eapply settled_ok|done]. }
  intros [gone grace] r1 [F1 Hrem]. simpl in Hrem. destruct gone.
  { apply wp_bind, wp_modify, wp_modify.
    assert (G : forall stp r, bool_decide (stp ∈ removal_steps) = true -> follows 1 0 r (add_step (mkStep (rt_service t) stp OutcomeSkipped "" "") r)).
    { intros stp r' Hs. apply follows_gone; [done|by apply step_in]. }
    eapply (follows_weaken 3%nat 0%nat); [| |exact (follows_trans (follows_trans F1 (G "stop" _ eq_refl)) (G "remove" _ eq_refl))]; lia. }
  pose proof (fo_began _ _ _ _ _ _ _ _ F1 Hbo) as Hbo1. apply wp_bind.
  apply (wp_mono _ (fun _ r2 => follows 1 0 r1 r2 /\ (outcome r2 = "" -> began r2 /\ removable (events r2) id /\ stopped_in (events r2) id))).
  { apply (follows_step ok ∅ true _ Hsteps _ Hn "stop" _ _ _ 0); [by apply step_in; vm_compute|by intros; split; [done|congruence]|].
    intros Ho. eapply wp_mono; [apply target_stop_ok; [done|by apply Hrem]|]. intros [a x] r2 (H2 & Hg & Hx). split_and!; [by constructor|done|].
    intros Hf. split; [done|]. unfold began. rewrite !settled_events. intros Ho2. apply Hx. by eapply settled_ok. }
  intros [] r2 [F2 Hst]. apply (follows_step ok ∅ true _ Hsteps _ Hn "remove" _ _ _ 0); [by apply step_in; vm_compute| |].
  - intros r3 _ F3 _ _. eapply (follows_weaken 3%nat 0%nat); [| |exact (follows_trans (follows_trans F1 F2) F3)]; lia.
  - intros Ho. destruct (Hst Ho) as (Hb & Hr & Hs). eapply wp_mono; [by apply target_remove_ok|]. intros [a x] r3 [H3 Hg].
    split_and!; [by constructor|done|]. intros F3. eapply (follows_weaken 3%nat 0%nat); [| |exact (follows_trans (follows_trans F1 F2) F3)]; lia.
Qed.

Lemma remove_all_ok l r :
  (forall t, t ∈ l -> t ∈ rm_containers req) -> Forall (fun t => re_match deploymentService (rt_service t) = true) l -> begun_ok r ->
  wp (remove_all world self req l) (fun _ r' => follows (3 * length l) 0 r r') r.
Proof.
  intros Hl Hn. revert r; induction Hn as [|t l Ht Hn IH]; intros r Hbo; simpl; [apply wp_ret, follows_refl|].
  apply wp_bind. eapply wp_mono; [apply removeTarget_ok; [set_solver|done|done]|]. intros [] r1 F1.
  eapply wp_mono; [apply IH; [set_solver|by apply (fo_began _ _ _ _ _ _ _ _ F1)]|]. intros [] r2 F2.
  eapply (follows_weaken _ 0%nat); [| |exact (follows_trans F1 F2)]; simpl; lia.
Qed.
End Removal.

Lemma Remove_answer world self req res r :
  Remove world self req new_run = (res, r) -> ValidDeploymentID (rm_deployment req) = true ->
  respects (removal_rule self req) (events r) [] /\ rs_deployment res = rm_deployment req /\ result_validate res = Ok tt.
Proof.
  intros E Hd.
  assert (H : wp (Remove world self req) (fun res r => respects (removal_rule self req) (events r) [] /\
    rs_deployment res = rm_deployment req /\ result_validate res = Ok tt) new_run).
  { unfold Remove. apply wp_bind. unfold wp at 1. simpl. set (r0 := push _ _ _ _). set (t := wall world []).
    destruct (removal_validate_for RuntimeDocker req t) as [[]|e] eqn:Ev.
    - destruct (removal_validated _ _ Ev) as (Hn & Hl & Hq). apply wp_bind. eapply wp_mono; [by apply remove_all_ok|].
      intros [] r1 [(new & E1 & R1) (st & S & [Fs _] & L & _) (ids & V & Fi & Li) O _ [_ N] _ _]. apply wp_reads. split; [|split; [done|]].
      + rewrite E1. apply respects_app. by split.
      + simpl in S, V. apply result_of_valid; [done|done| |by rewrite S|by rewrite V| |].
        * destruct (O eq_refl) as [[-> ->]|?]; [by left|by right].
        * rewrite S. simpl in L. assert (ensured r1 = ∅) as Ee by (apply leibniz_equiv; specialize (N ltac:(done)); set_solver).
          rewrite Ee, !size_empty in L. assert (slack r0 r1 <= 1)%nat by (unfold slack; case_match; lia).
          unfold llen, MaxDeploymentResultSteps, MaxDeploymentServices, MaxDeploymentVolumes. lia.
        * rewrite V. simpl in Li. unfold llen, MaxDeploymentServices. lia.
    - apply wp_ret. split; [done|]. split; [by destruct e|by apply refused_valid]. }
  unfold wp in H. by rewrite E in H.
Qed.

(** C12: a removal touches only the containers it names.  Whatever the host answers, a run of
    [Remove] stops only a container of its frame that is not the agent's own and that it has just
    read as the one the frame means (same ID, image and creation time, not the installer's), and
    deletes it, without force and without its volumes, only after the stop was accepted.  It makes
    no other call that changes a container, and its result is one the server accepts. *)
Theorem Remove_confined world self req res r :
  Remove world self req new_run = (res, r) -> ValidDeploymentID (rm_deployment req) = true ->
  respects (removal_rule self req) (events r) [] /\ result_validate res = Ok tt.
Proof. intros E Hd. by destruct (Remove_answer world self req res r E Hd) as (? & _ & ?). Qed.

Definition dw_removal : RemovalRequest :=
  mkRemoval (dr_deployment demo_request) "req-1" "host-1" "shop" (10 * Minute) (20 * Minute)
    [mkRemovalTarget "web" (mkTarget dw_old dw_old_image 17 no_workload)] None [].
Lemma Remove_confined_witness :
  length (List.filter (fun e => negb (free e)) (events (Remove dw_healthy "" dw_removal new_run).2)) = 3%nat /\
  respects (removal_rule "" dw_removal) (events (Remove dw_healthy "" dw_removal new_run).2) [].
Proof.
  split; [vm_compute; reflexivity|].
  apply (Remove_confined dw_healthy "" dw_removal _ _ (surjective_pairing _)). vm_compute. reflexivity.
Defined.
