(* ===== verification/Pruning.v ===== *)
(** * Bounded memories

    The agent remembers what it has finished, for a day and up to a number of entries.  Two ledgers
    prune themselves so: deployments.go's, which never drops a run that has no result yet, and
    commands.go's.  This is that pruning with what it keeps, for any kind of entry. *)
From Stdlib Require Import ZArith Lia.
From stdpp Require Import base gmap sets strings list sorting.
From S2P Require Import Prelude.

Section Pruning.
Context {E : Type} (pending : E -> bool) (finished_at : E -> time) (life : Z) (most : nat).

Definition by_finished (x y : string * E) : Prop := finished_at x.2 <= finished_at y.2.
#[global] Instance by_finished_dec x y : Decision (by_finished x y).
Proof. unfold by_finished. apply _. Defined.

(** Among entries finished at the same instant which go first is not specified by [sort.Slice]. *)
Definition prune_of (now : time) (l : gmap string E) : gmap string E :=
  let kept := filter (fun kv : string * E => pending kv.2 = true \/ now - life <= finished_at kv.2) l in
  let finished := merge_sort by_finished (List.filter (fun kv : string * E => negb (pending kv.2)) (map_to_list kept)) in
  foldr (fun kv m => delete kv.1 m) kept (take (length finished - most) finished).

(** The entries finished no earlier than another, and what may be dropped: an entry that is past
    its life, or one with as many others no older as are kept. *)
Definition newer_of (id : string) (e : E) (l : gmap string E) : gmap string E :=
  filter (fun kv : string * E => kv.1 <> id /\ pending kv.2 = false /\ finished_at e <= finished_at kv.2) l.
Definition forgettable_of (now : time) (l : gmap string E) (id : string) : Prop :=
  exists e, l !! id = Some e /\ pending e = false /\
    (finished_at e < now - life \/ (most <= size (newer_of id e l))%nat).
Definition finished_of (l : gmap string E) : gmap string E := filter (fun kv : string * E => pending kv.2 = false) l.

Lemma drop_all_lookup (l : list (string * E)) (m : gmap string E) k :
  foldr (fun kv m => delete kv.1 m) m l !! k = if decide (k ∈ l.*1) then None else m !! k.
Proof.
  induction l as [|[k' e] l IH]; simpl; [done|]. destruct (decide (k = k')) as [->|Hk].
  - rewrite lookup_delete_eq, decide_True; [done|left].
  - rewrite lookup_delete_ne by done. rewrite IH. repeat case_decide; set_solver.
Qed.

Context (now : time) (l : gmap string E).
Let kept : gmap string E :=
  filter (fun kv : string * E => pending kv.2 = true \/ now - life <= finished_at kv.2) l.
Let fin := merge_sort by_finished (List.filter (fun kv : string * E => negb (pending kv.2)) (map_to_list kept)).

Lemma fin_elem k e : (k, e) ∈ fin <-> kept !! k = Some e /\ pending e = false.
Proof.
  unfold fin. rewrite merge_sort_Permutation, list_elem_of_In, filter_In, <- list_elem_of_In, elem_of_map_to_list. simpl.
  by rewrite negb_true_iff.
Qed.
Lemma fin_nodup : NoDup fin.
Proof. unfold fin. rewrite merge_sort_Permutation. apply NoDup_ListNoDup, List.NoDup_filter, NoDup_ListNoDup, NoDup_map_to_list. Qed.

Lemma prune_of_lookup k :
  prune_of now l !! k = if decide (k ∈ (take (length fin - most) fin).*1) then None else kept !! k.
Proof. apply drop_all_lookup. Qed.

Lemma prune_of_sub k e : prune_of now l !! k = Some e -> l !! k = Some e.
Proof. rewrite prune_of_lookup. case_decide; [done|]. unfold kept. intros Hk. by apply map_lookup_filter_Some in Hk as [? _]. Qed.

Lemma prune_of_count : (size (finished_of (prune_of now l)) <= most)%nat.
Proof.
  rewrite <- length_map_to_list. transitivity (length (drop (length fin - most) fin)); [|rewrite length_drop; lia].
  apply submseteq_length, NoDup_submseteq; [apply NoDup_map_to_list|]. intros [k e] He.
  apply elem_of_map_to_list, map_lookup_filter_Some in He as [He Hp]. rewrite prune_of_lookup in He. case_decide as Hk; [done|].
  assert ((k, e) ∈ fin) as Hf by (by apply fin_elem).
  rewrite <- (take_drop (length fin - most) fin), elem_of_app in Hf. destruct Hf as [Hf|Hf]; [|done].
  destruct Hk. apply list_elem_of_fmap. by exists (k, e).
Qed.

Lemma fin_take k e : kept !! k = Some e -> k ∈ (take (length fin - most) fin).*1 ->
  pending e = false /\ (k, e) ∈ take (length fin - most) fin.
Proof.
  intros Hk ([k' e'] & Ek & Ht)%list_elem_of_fmap. simpl in Ek. subst k'.
  assert ((k, e') ∈ fin) as Hf by (rewrite <- (take_drop (length fin - most) fin), elem_of_app; by left).
  apply fin_elem in Hf as [Hk' Hp]. by simplify_eq.
Qed.

(** What comes after a dropped result is not older than it. *)
Lemma fin_later k e : (k, e) ∈ take (length fin - most) fin -> (most <= size (newer_of k e l))%nat.
Proof.
  set (n := (length fin - most)%nat). intros Ht.
  assert (most < length fin)%nat by (destruct (decide (n = 0%nat)) as [En|]; [rewrite En in Ht; by apply not_elem_of_nil in Ht|unfold n in *; lia]).
  transitivity (length (drop n fin)); [rewrite length_drop; unfold n in *; lia|]. rewrite <- length_map_to_list.
  pose proof fin_nodup as Hn. rewrite <- (take_drop n fin) in Hn. apply NoDup_app in Hn as (_ & Hd & Hn).
  apply submseteq_length, NoDup_submseteq; [done|]. intros [k' e'] Hl.
  assert (Sorted by_finished fin) as Hs by (apply Sorted_merge_sort; intros ??; unfold by_finished; lia).
  apply Sorted_StronglySorted in Hs; [|intros ???; unfold by_finished; lia].
  rewrite <- (take_drop n fin) in Hs. pose proof (StronglySorted_app_1_elem_of _ _ _ _ _ Hs Ht Hl) as Hle.
  assert ((k', e') ∈ fin) as Hf' by (rewrite <- (take_drop n fin), elem_of_app; by right).
  assert ((k, e) ∈ fin) as Hf by (rewrite <- (take_drop n fin), elem_of_app; by left).
  apply fin_elem in Hf' as [Hk' Hp']. apply fin_elem in Hf as [Hk _].
  apply elem_of_map_to_list, map_lookup_filter_Some. split; [by apply map_lookup_filter_Some in Hk' as [? _]|].
  split; [|done]. simpl. intros ->. simplify_eq. by apply (Hd _ Ht).
Qed.

Lemma prune_of_keeps k : is_Some (l !! k) -> is_Some (prune_of now l !! k) \/ forgettable_of now l k.
Proof.
  intros [e He]. destruct (kept !! k) as [e'|] eqn:Hk.
  - pose proof Hk as Hk'. apply map_lookup_filter_Some in Hk' as [? _]. simplify_eq.
    rewrite prune_of_lookup. case_decide as Ht; [|rewrite Hk; by left; exists e].
    right. destruct (fin_take _ _ Hk Ht) as [Hp Ht']. exists e. split_and!; [done|done|]. right. by eapply fin_later.
  - right. exists e. apply map_lookup_filter_None in Hk as [?|Hk]; [congruence|]. specialize (Hk _ He). simpl in Hk.
    split_and!; [done| |]; [apply not_true_iff_false; tauto|left; lia].
Qed.

(** A recent ledger within its size forgets nothing. *)
Lemma small_of id : (size l <= most)%nat ->
  map_Forall (fun _ e => now - life <= finished_at e) l -> ~ forgettable_of now l id.
Proof.
  intros Hs Ho (e & He & _ & [Hf|Hf]); [specialize (Ho _ _ He); simpl in Ho; lia|].
  assert (newer_of id e l ⊆ delete id l) as Hn%map_subseteq_size.
  { apply map_subseteq_spec. intros k e' (Hk & Hi & _)%map_lookup_filter_Some. simpl in Hi. by rewrite lookup_delete_ne. }
  rewrite map_size_delete, He in Hn. assert (size l <> 0%nat); [|lia].
  rewrite map_size_ne_0_lookup. eauto.
Qed.
End Pruning.
