(* ===== verification/AgentLedger.v ===== *)
(** * The agent's deployment slot and ledger

    internal/agent/client/deployments.go: one deployment at a time on the agent, its result
    remembered before it is sent, an interrupted run settled by the next start.

    [Agent] is the [deployer] with its file, the frame the session loop is handling, the run in
    the slot, and what was sent, newest first.  Each definition is one critical section of the code
    (a stretch under [mu], or code of the session loop alone); [step] interleaves them with the
    run's goroutine, with failing writes and with restarts.  [run] is called on the session loop,
    and sessions follow one another, so at most one frame is between its two critical sections.
    A frame is a [Job]: what [run] is given by [handleApply] or [handleRemoval]. *)
From Stdlib Require Import ZArith Lia Ascii String.
From stdpp Require Import base gmap sets strings list sorting.
From S2P Require Import Prelude.
From S2P Require Import Regex.
From S2P Require Import Grammar.
From S2P Require Import Inspection.
From S2P Require Import Frame.
From S2P Require Import Engine.
From S2P Require Import DockerRun.
From S2P Require Import DockerDeploy.
From S2P Require Import DockerWorld.
From S2P Require Import DockerTheorems.
From S2P Require Import DockerRemoval.
From S2P Require Import Pruning.

(** ** Data *)

Definition deploymentLedgerLife : Z := 24 * Hour.
Definition deploymentLedgerMax : nat := 20.

Record deploymentEntry := mkEntry {
  en_result : DeploymentResult; en_finished : time; en_started : time; en_request : string }.
Definition no_result : DeploymentResult := mkResult "" "" "" "" [] [].
Definition pending (e : deploymentEntry) : bool :=
  bool_decide (rs_deployment (en_result e) = "") && negb (en_started e =? zero_time).

Record Job := mkJob {
  j_id : string; j_request : string; j_endpoint : string; j_validate : time -> res FrameErr unit; j_exec : bool }.

Record Options := mkOptions { o_kubernetes : bool; o_deploy : bool; o_remove : bool }.
Definition runtime (o : Options) : string := if o_kubernetes o then RuntimeKubernetes else RuntimeDocker.

(** [handleApply] and [handleRemoval]: the job of a decoded frame, if it names a deployment. *)
Definition handleApply (o : Options) (req : DeploymentRequest) : option Job :=
  if ValidDeploymentID (dr_deployment req)
  then Some (mkJob (dr_deployment req) (dr_request req) (dr_endpoint req) (request_validate_for (runtime o) req) (o_deploy o))
  else None.
Definition handleRemoval (o : Options) (req : RemovalRequest) : option Job :=
  if ValidDeploymentID (rm_deployment req)
  then Some (mkJob (rm_deployment req) (rm_request req) (rm_endpoint req) (removal_validate_for (runtime o) req) (o_remove o))
  else None.

(** ** Results *)

Definition denied (id request code : string) : DeploymentResult := mkResult id request OutcomeDenied code [] [].
Definition restarted (id request : string) : DeploymentResult := mkResult id request OutcomeUnknown "restarted" [] [].
Definition unreadable (id request : string) : DeploymentResult := mkResult id request OutcomeUnknown "unreadable" [] [].

(** The answer to a frame that does not validate. *)
Definition refusal (j : Job) (e : FrameErr) : DeploymentResult :=
  let echoed := if ValidRequestID (j_request j) then j_request j else "" in
  match e with
  | ErrClockSkew => mkResult (j_id j) echoed OutcomeFailed "clock_skew" [] []
  | _ => denied (j_id j) echoed "invalid_request"
  end.

(** What the run's goroutine records: the result as the server will read it, or [unreadable]. *)
Definition recorded (j : Job) (res : DeploymentResult) : DeploymentResult :=
  let deployment := if bool_decide (rs_deployment res = "") then j_id j else rs_deployment res in
  let res := mkResult deployment (j_request j) (rs_outcome res) (rs_code res) (rs_steps res) (rs_services res) in
  if negb (bool_decide (rs_deployment res = j_id j)) || negb (is_ok (result_validate res))
  then unreadable (j_id j) (j_request j) else res.

(** ** The ledger *)

Definition prune (now : time) : gmap string deploymentEntry -> gmap string deploymentEntry :=
  prune_of pending en_finished deploymentLedgerLife deploymentLedgerMax now.

Definition settleStarted (now : time) (l : gmap string deploymentEntry) : gmap string deploymentEntry :=
  map_imap (fun id e => Some (if pending e then mkEntry (restarted id (en_request e)) now zero_time "" else e)) l.

(** ** The agent *)

Record Agent := mkAgent {
  ledger : gmap string deploymentEntry;
  disk : gmap string deploymentEntry;
  running : string;
  active : option Job;
  gate : option Job;
  sent : list DeploymentResult }.
Definition new_agent : Agent := mkAgent ∅ ∅ "" None None [].

Definition send (res : DeploymentResult) (a : Agent) : Agent :=
  mkAgent (ledger a) (disk a) (running a) (active a) (gate a) (res :: sent a).
Definition with_gate (g : option Job) (a : Agent) : Agent :=
  mkAgent (ledger a) (disk a) (running a) (active a) g (sent a).
(** [save] of a new ledger: the file is replaced, or the write fails and it stays. *)
Definition save (l : gmap string deploymentEntry) (written : bool) (a : Agent) : Agent :=
  mkAgent l (if written then l else disk a) (running a) (active a) (gate a) (sent a).

(** [run] up to its second critical section. *)
Definition run_first (j : Job) (endpointID : string) (now : time) (a : Agent) : Agent :=
  if negb (bool_decide (j_id j = "")) && bool_decide (running a = j_id j) then a
  else match ledger a !! j_id j with
  | Some prior => send (en_result prior) a
  | None =>
      match j_validate j now with
      | Fail e => send (refusal j e) a
      | Ok _ =>
          if negb (bool_decide (j_endpoint j = endpointID)) then send (denied (j_id j) (j_request j) "wrong_endpoint") a
          else with_gate (Some j) a
      end
  end.

(** The second critical section and what follows it. *)
Definition run_second (j : Job) (a : Agent) : Agent :=
  let a := with_gate None a in
  match ledger a !! j_id j with
  | Some prior => send (en_result prior) a
  | None =>
      if negb (j_exec j) then send (denied (j_id j) (j_request j) "invalid_request") a
      else if bool_decide (running a = j_id j) then a
      else if negb (bool_decide (running a = "")) then send (denied (j_id j) (j_request j) "busy") a
      else mkAgent (ledger a) (disk a) (j_id j) (Some j) (gate a) (sent a)
  end.

Definition begin (j : Job) (now : time) (written : bool) (a : Agent) : Agent :=
  save (<[j_id j := mkEntry no_result zero_time now (j_request j)]> (ledger a)) written a.

(** [finish] of the run in the slot; [linked] when a session is attached to deliver to. *)
Definition finish (j : Job) (res : DeploymentResult) (now : time) (written linked : bool) (a : Agent) : Agent :=
  let a := save (prune now (<[rs_deployment res := mkEntry res now zero_time ""]> (ledger a))) written a in
  let a := mkAgent (ledger a) (disk a) "" None (gate a) (sent a) in
  if linked then send res a else a.

(** The entries of the file with a start or a result. *)
Definition loaded (l : gmap string deploymentEntry) : gmap string deploymentEntry :=
  filter (fun kv : string * deploymentEntry => ~ (rs_deployment (en_result kv.2) = "" /\ en_started kv.2 = zero_time)) l.

(** [newDeployer] after the process ended: what the file holds, when it can be read. *)
Definition restart (now : time) (readable written : bool) (a : Agent) : Agent :=
  if readable then
    let saved := loaded (disk a) in
    let settled := settleStarted now saved in
    let found := existsb (fun kv => pending kv.2) (map_to_list saved) in
    mkAgent (prune now settled) (if found && written then settled else disk a) "" None None (sent a)
  else mkAgent ∅ (disk a) "" None None (sent a).

(** [resend] to a new session. *)
Definition resend (now : time) (a : Agent) : Agent :=
  let l := prune now (ledger a) in
  mkAgent l (disk a) (running a) (active a) (gate a)
    (map (fun kv => en_result kv.2) (List.filter (fun kv => negb (pending kv.2)) (map_to_list l)) ++ sent a).

(** ** Steps *)

Inductive event :=
| Executed (id : string)
| Recorded (id : string)
| Pruned (now : time) (l : gmap string deploymentEntry)
| Unreadable.

(** A job names a valid deployment, and its validation accepts no frame whose request ID is
    neither empty nor valid. *)
Definition request_ok (request : string) : Prop := request = "" \/ ValidRequestID request = true.
Definition job_ok (j : Job) : Prop :=
  ValidDeploymentID (j_id j) = true /\ forall now, j_validate j now = Ok tt -> request_ok (j_request j).

Definition admitted (j : Job) (a : Agent) : bool :=
  bool_decide (ledger a !! j_id j = None) && j_exec j && bool_decide (running a = "").

(** Every interleaving: frames, the run's goroutine, sessions, restarts. *)
Inductive step : Agent -> list event -> Agent -> Prop :=
| step_receive j endpointID now a :
    gate a = None -> job_ok j -> step a [] (run_first j endpointID now a)
| step_admit j a :
    gate a = Some j -> step a (if admitted j a then [Executed (j_id j)] else []) (run_second j a)
| step_begin j now (written : bool) a :
    active a = Some j -> zero_time < now -> step a (if written then [Recorded (j_id j)] else []) (begin j now written a)
| step_finish j res now written linked a :
    active a = Some j ->
    step a [Pruned now (<[j_id j := mkEntry (recorded j res) now zero_time ""]> (ledger a))]
      (finish j (recorded j res) now written linked a)
| step_resend now a : step a [Pruned now (ledger a)] (resend now a)
| step_restart now (readable written : bool) a :
    step a (if readable then [Pruned now (settleStarted now (loaded (disk a)))] else [Unreadable]) (restart now readable written a).

Inductive steps : Agent -> list event -> Agent -> Prop :=
| steps_nil a : steps a [] a
| steps_cons a es b fs c : step a es b -> steps b fs c -> steps a (es ++ fs) c.

(** What pruning may drop, and the results held. *)
Definition forgettable : time -> gmap string deploymentEntry -> string -> Prop :=
  forgettable_of pending en_finished deploymentLedgerLife deploymentLedgerMax.
Definition finished : gmap string deploymentEntry -> gmap string deploymentEntry := finished_of pending.

Lemma prune_sub now l k e : prune now l !! k = Some e -> l !! k = Some e.
Proof. apply prune_of_sub. Qed.
Lemma prune_count now l : (size (finished (prune now l)) <= deploymentLedgerMax)%nat.
Proof. apply prune_of_count. Qed.
Lemma prune_keeps now l k : is_Some (l !! k) -> is_Some (prune now l !! k) \/ forgettable now l k.
Proof. apply prune_of_keeps. Qed.

(** ** The invariant *)

Definition done_ok (id : string) (e : deploymentEntry) : Prop :=
  rs_deployment (en_result e) = id /\ result_validate (en_result e) = Ok tt.
Definition start_ok (id : string) (e : deploymentEntry) : Prop :=
  en_result e = no_result /\ en_started e <> zero_time /\ ValidDeploymentID id = true /\ request_ok (en_request e).
Definition slot_ok (job : option Job) (id : string) : Prop :=
  match job with
  | Some j => id = j_id j /\ ValidDeploymentID (j_id j) = true /\ request_ok (j_request j)
  | None => id = ""
  end.

Record AgentOk (a : Agent) : Prop := {
  ao_ledger : map_Forall (fun id e => done_ok id e \/ (start_ok id e /\ running a = id)) (ledger a);
  ao_disk : map_Forall (fun id e => done_ok id e \/ start_ok id e) (disk a);
  ao_active : slot_ok (active a) (running a);
  ao_gate : forall j, gate a = Some j ->
    ValidDeploymentID (j_id j) = true /\ request_ok (j_request j) /\ running a <> j_id j;
  ao_sent : Forall (fun res => result_validate res = Ok tt) (sent a);
  ao_count : (size (finished (ledger a)) <= deploymentLedgerMax)%nat }.

Lemma result_named res : result_validate res = Ok tt -> ValidDeploymentID (rs_deployment res) = true.
Proof.
  unfold result_validate, ValidDeploymentID. intros H. destruct (re_match deploymentUUID (rs_deployment res)); [done|by simpl in H].
Qed.
Lemma named_nonempty id : ValidDeploymentID id = true -> id <> "".
Proof. by intros H ->. Qed.

Lemma done_settled id e : done_ok id e -> pending e = false.
Proof. intros [E V]. unfold pending. rewrite bool_decide_false; [done|]. by apply named_nonempty, result_named. Qed.
Lemma start_pending id e : start_ok id e -> pending e = true.
Proof. intros (E & S & _). unfold pending. rewrite E. simpl. apply Z.eqb_neq in S. by rewrite S. Qed.

(** The agent's own answers validate. *)
Lemma answer_valid id request outcome code : ValidDeploymentID id = true -> request_ok request ->
  (outcome, code) ∈ [(OutcomeDenied, "invalid_request"); (OutcomeDenied, "wrong_endpoint"); (OutcomeDenied, "busy");
    (OutcomeFailed, "clock_skew"); (OutcomeUnknown, "restarted"); (OutcomeUnknown, "unreadable")] ->
  result_validate (mkResult id request outcome code [] []) = Ok tt.
Proof.
  unfold ValidDeploymentID, result_validate. intros Hd Hr Hc. simpl. rewrite Hd.
  assert (negb (bool_decide (request = "")) && negb (ValidRequestID request) = false) as ->.
  { destruct Hr as [->| ->]; [done|]. by rewrite andb_false_r. }
  rewrite !elem_of_cons, elem_of_nil in Hc. by destruct_or?; simplify_eq.
Qed.

Lemma recorded_ok j res : ValidDeploymentID (j_id j) = true -> request_ok (j_request j) ->
  rs_deployment (recorded j res) = j_id j /\ result_validate (recorded j res) = Ok tt.
Proof.
  intros Hd Hr. unfold recorded. set (res' := mkResult _ _ _ _ _ _).
  destruct (negb _ || _) eqn:E; [split; [done|apply answer_valid; [done|done|set_solver]]|].
  apply orb_false_iff in E as [E V]. apply negb_false_iff, bool_decide_eq_true in E. apply negb_false_iff in V. split; [done|].
  by destruct (result_validate res') as [[]|].
Qed.

(** A valid result of the job's deployment is recorded under the job's request ID. *)
Lemma recorded_same j res : rs_deployment res = j_id j -> result_validate res = Ok tt -> request_ok (j_request j) ->
  recorded j res = mkResult (j_id j) (j_request j) (rs_outcome res) (rs_code res) (rs_steps res) (rs_services res).
Proof.
  intros E V Hq. pose proof (named_nonempty _ (result_named _ V)) as Hn. unfold recorded. rewrite (bool_decide_false _ Hn), E.
  rewrite bool_decide_true by done. cbn [negb orb].
  assert (result_validate (mkResult (j_id j) (j_request j) (rs_outcome res) (rs_code res) (rs_steps res) (rs_services res)) = Ok tt) as ->; [|done].
  revert V. unfold result_validate. rewrite E. simpl.
  assert (negb (bool_decide (j_request j = "")) && negb (ValidRequestID (j_request j)) = false) as ->.
  { destruct Hq as [->| ->]; [done|]. by rewrite andb_false_r. }
  rewrite orb_false_r. intros V. destruct (negb (bool_decide (rs_request res = "")) && _); [by rewrite orb_true_r in V|].
  by rewrite orb_false_r in V.
Qed.

Lemma send_kept res a : result_validate res = Ok tt -> AgentOk a -> AgentOk (send res a).
Proof. intros V []. constructor; simpl; auto. Qed.

Lemma prior_sent a id e : AgentOk a -> ledger a !! id = Some e -> running a <> id -> AgentOk (send (en_result e) a).
Proof. intros Ha He Hr. apply send_kept; [|done]. destruct (ao_ledger _ Ha _ _ He) as [[_ V]|[_ ?]]; [done|by destruct Hr]. Qed.

Lemma echoed_ok request : request_ok (if ValidRequestID request then request else "").
Proof. destruct (ValidRequestID request) eqn:E; [by right|by left]. Qed.

Lemma refusal_valid j e : ValidDeploymentID (j_id j) = true -> result_validate (refusal j e) = Ok tt.
Proof. intros Hd. unfold refusal. destruct e; (apply answer_valid; [done|apply echoed_ok|set_solver]). Qed.

Lemma run_first_kept j endpointID now a : AgentOk a -> job_ok j -> gate a = None -> AgentOk (run_first j endpointID now a).
Proof.
  intros Ha [Hd Hj] Hg. pose proof (named_nonempty _ Hd) as Hne. unfold run_first. rewrite (bool_decide_false _ Hne). simpl.
  case_bool_decide as Hr; [done|]. destruct (ledger a !! j_id j) as [e|] eqn:He; [by eapply prior_sent|].
  destruct (j_validate j now) as [[]|e] eqn:Ev; [|by apply send_kept; [apply refusal_valid|]].
  case_bool_decide; simpl.
  - destruct Ha. constructor; simpl; [done|done|done| |done|done]. intros j' [= <-]. split_and!; [done|by eapply Hj|done].
  - apply send_kept; [|done]. apply answer_valid; [done|by eapply Hj|set_solver].
Qed.

Lemma run_second_kept j a : AgentOk a -> gate a = Some j -> AgentOk (run_second j a).
Proof.
  intros Ha Hg. destruct (ao_gate _ Ha _ Hg) as (Hd & Hq & Hr). pose proof (named_nonempty _ Hd) as Hne.
  assert (AgentOk (with_gate None a)) as Ha' by (destruct Ha; constructor; simpl; done).
  unfold run_second. destruct (ledger (with_gate None a) !! j_id j) as [e|] eqn:He; [by eapply prior_sent|].
  destruct (j_exec j); simpl; [|apply send_kept; [apply answer_valid; [done|done|set_solver]|done]].
  rewrite (bool_decide_false _ Hr). case_bool_decide as Hi; simpl.
  - destruct Ha'. constructor; simpl in *; [|done|done|done|done|done].
    intros id e Hl. destruct (ao_ledger0 _ _ Hl) as [?|[(_ & _ & V & _) <-]]; [by left|]. simpl in *. by rewrite Hi in V.
  - apply send_kept; [apply answer_valid; [done|done|set_solver]|done].
Qed.

Lemma begin_kept j now written a : AgentOk a -> active a = Some j -> zero_time < now -> AgentOk (begin j now written a).
Proof.
  intros Ha Hj Hn. pose proof (ao_active _ Ha) as Hs. rewrite Hj in Hs. destruct Hs as (Hr & Hd & Hq).
  assert (start_ok (j_id j) (mkEntry no_result zero_time now (j_request j))) as Hst by (split_and!; [done|simpl; lia|done|done]).
  assert (map_Forall (fun id e => done_ok id e \/ (start_ok id e /\ running a = id))
    (<[j_id j := mkEntry no_result zero_time now (j_request j)]> (ledger a))) as Hl.
  { apply map_Forall_insert_2; [by right|apply Ha]. }
  destruct Ha. constructor; simpl; [done| |done|done|done|].
  - destruct written; [|done]. intros id e He. destruct (Hl _ _ He) as [?|[? _]]; [by left|by right].
  - unfold finished, finished_of. rewrite map_filter_insert_False by (intros F; pose proof (start_pending _ _ Hst); simpl in F; congruence).
    etrans; [|apply ao_count0]. apply map_subseteq_size, map_filter_subseteq_mono, delete_subseteq.
Qed.

Lemma prune_kept now l (P : string -> deploymentEntry -> Prop) : map_Forall P l -> map_Forall P (prune now l).
Proof. intros H id e He. by apply H, (prune_sub now). Qed.

Lemma finish_kept j res now written linked a :
  AgentOk a -> active a = Some j -> AgentOk (finish j (recorded j res) now written linked a).
Proof.
  intros Ha Hj. pose proof (ao_active _ Ha) as Hs. rewrite Hj in Hs. destruct Hs as (Hr & Hd & Hq).
  destruct (recorded_ok j res Hd Hq) as [Hi Hv]. set (r := recorded j res) in *.
  assert (map_Forall done_ok (<[rs_deployment r := mkEntry r now zero_time ""]> (ledger a))) as Hl.
  { intros id e. rewrite lookup_insert_Some. intros [[<- <-]|[Hn He]]; [done|].
    destruct (ao_ledger _ Ha _ _ He) as [?|[_ ?]]; [done|]. congruence. }
  apply (prune_kept now) in Hl. unfold finish.
  set (a' := mkAgent _ _ "" None _ _). assert (AgentOk a') as Ha'; [|destruct linked; [by apply send_kept|done]].
  destruct Ha. constructor; simpl; [|destruct written; [|done]|done| |done|apply prune_count].
  - intros id e He. left. by apply Hl.
  - intros id e He. left. by apply Hl.
  - intros j' Hg. destruct (ao_gate0 _ Hg) as (? & ? & ?). split_and!; [done|done|]. intros E. by apply (named_nonempty (j_id j')).
Qed.

Lemma sent_results l : map_Forall (fun id e => pending e = false -> result_validate (en_result e) = Ok tt) l ->
  Forall (fun res => result_validate res = Ok tt)
    (map (fun kv : string * deploymentEntry => en_result kv.2) (List.filter (fun kv : string * deploymentEntry => negb (pending kv.2)) (map_to_list l))).
Proof.
  intros H. apply Forall_forall. intros res ([id e] & <- & [He Hp]%filter_In)%list_elem_of_In%in_map_iff.
  apply negb_true_iff in Hp. apply list_elem_of_In, elem_of_map_to_list in He. by apply (H id).
Qed.

Lemma resend_kept now a : AgentOk a -> AgentOk (resend now a).
Proof.
  intros Ha. pose proof (prune_kept now _ _ (ao_ledger _ Ha)) as Hl. unfold resend. destruct Ha.
  constructor; simpl; [done|done|done|done| |apply prune_count].
  apply Forall_app. split; [|done]. apply sent_results. intros id e He Hp.
  destruct (Hl _ _ He) as [[_ ?]|[Hs _]]; [done|]. apply start_pending in Hs. congruence.
Qed.

Lemma loaded_settled now l : map_Forall (fun id e => done_ok id e \/ start_ok id e) l -> map_Forall done_ok (settleStarted now (loaded l)).
Proof.
  intros H id e. unfold settleStarted. rewrite map_lookup_imap. intros (e0 & He & [= <-])%bind_Some.
  apply map_lookup_filter_Some in He as [He _]. destruct (H _ _ He) as [Hd|Hs].
  - by rewrite (done_settled _ _ Hd).
  - rewrite (start_pending _ _ Hs). destruct Hs as (_ & _ & Hv & Hq). split; [done|]. apply answer_valid; [done|done|set_solver].
Qed.

Lemma restart_kept now readable written a : AgentOk a -> AgentOk (restart now readable written a).
Proof.
  intros Ha. pose proof (loaded_settled now _ (ao_disk _ Ha)) as Hs. unfold restart. destruct Ha, readable.
  - constructor; simpl; [| |done|done|done|apply prune_count].
    + intros id e He. left. by apply Hs, (prune_sub now).
    + destruct (_ && _); [|done]. intros id e He. left. by apply Hs.
  - constructor; simpl; [apply map_Forall_empty|done|done|done|done|]. unfold finished, finished_of. rewrite map_filter_empty, map_size_empty. lia.
Qed.

Lemma step_kept a es b : AgentOk a -> step a es b -> AgentOk b.
Proof.
  intros Ha Hs. destruct Hs; [by apply run_first_kept|by apply run_second_kept|by apply begin_kept|by apply finish_kept|by apply resend_kept|by apply restart_kept].
Qed.
Lemma steps_kept a es b : steps a es b -> AgentOk a -> AgentOk b.
Proof. induction 1; [done|]. intros Ha. eauto using step_kept. Qed.
Lemma new_agent_ok : AgentOk new_agent.
Proof. constructor; simpl; [apply map_Forall_empty|apply map_Forall_empty|done|done|constructor|unfold finished, finished_of; rewrite map_filter_empty, map_size_empty; lia]. Qed.

(** ** Frames *)

Lemma handleApply_ok o req j : handleApply o req = Some j -> job_ok j.
Proof.
  unfold handleApply. destruct (ValidDeploymentID _) eqn:E; [|done]. intros [= <-]. split; [done|]. simpl. intros now H. right.
  unfold request_validate_for, request_validate in H. refusals H. by destruct (ValidRequestID (dr_request req)); [|rewrite !orb_true_r in Hg0].
Qed.
Lemma handleRemoval_ok o req j : handleRemoval o req = Some j -> job_ok j.
Proof.
  unfold handleRemoval. destruct (ValidDeploymentID _) eqn:E; [|done]. intros [= <-]. split; [done|]. simpl. intros now H. right.
  unfold removal_validate_for, removal_validate in H. refusals H. by destruct (ValidRequestID (rm_request req)); [|rewrite !orb_true_r in Hg0].
Qed.

(** ** Once *)

Definition escape (id : string) (es : list event) : Prop :=
  Unreadable ∈ es \/ exists now l, Pruned now l ∈ es /\ forgettable now l id.
Definition noted (id : string) (a : Agent) : Prop := is_Some (ledger a !! id) /\ is_Some (disk a !! id).

Lemma noted_pruned id now l : is_Some (l !! id) -> is_Some (prune now l !! id) \/ escape id [Pruned now l].
Proof.
  intros H. destruct (prune_keeps now l id H) as [?|?]; [by left|]. right. right. exists now, l. split; [left|done].
Qed.

Lemma send_noted id res a : noted id a -> noted id (send res a).
Proof. done. Qed.
Lemma run_first_noted id j endpointID now a : noted id a -> noted id (run_first j endpointID now a).
Proof. intros H. unfold run_first. by repeat case_match. Qed.
Lemma run_second_noted id j a : noted id a -> noted id (run_second j a).
Proof. intros H. unfold run_second. by repeat case_match. Qed.

Lemma settled_noted id now l : map_Forall (fun id e => done_ok id e \/ start_ok id e) l -> is_Some (l !! id) ->
  is_Some (settleStarted now (loaded l) !! id).
Proof.
  intros Hl [e He]. unfold settleStarted. rewrite map_lookup_imap.
  assert (loaded l !! id = Some e) as ->; [|simpl; eauto].
  apply map_lookup_filter_Some. split; [done|]. simpl. intros [E S].
  destruct (Hl _ _ He) as [[Hi V]|(_ & ? & _)]; [|done]. apply result_named in V. by rewrite E in V.
Qed.

Lemma step_noted id a es b : AgentOk a -> noted id a -> step a es b -> noted id b \/ escape id es.
Proof.
  intros Ha [Hl Hd] Hs. destruct Hs.
  - left. by apply run_first_noted.
  - left. by apply run_second_noted.
  - left. assert (is_Some (<[j_id j := mkEntry no_result zero_time now (j_request j)]> (ledger a) !! id)) by (apply lookup_insert_is_Some'; auto).
    by destruct written.
  - destruct (noted_pruned id now (<[j_id j := mkEntry (recorded j res) now zero_time ""]> (ledger a))) as [?|?]; [apply lookup_insert_is_Some'; auto| |by right].
    pose proof (ao_active _ Ha) as Hs. rewrite H in Hs. destruct Hs as (_ & Hv & Hq). destruct (recorded_ok j res Hv Hq) as [E _].
    left. unfold finish. rewrite E. by destruct written, linked.
  - destruct (noted_pruned id now (ledger a) Hl) as [?|?]; [by left|by right].
  - destruct readable; [|right; left; left].
    pose proof (settled_noted id now _ (ao_disk _ Ha) Hd) as Hn.
    destruct (noted_pruned id now _ Hn) as [?|?]; [left|by right]. split; [done|]. simpl. by destruct (_ && _).
Qed.

Lemma steps_noted id a es b : steps a es b -> AgentOk a -> noted id a -> noted id b \/ escape id es.
Proof.
  induction 1 as [|a es b fs c Hs Hr IH]; [by left|]. intros Ha Hn.
  destruct (step_noted id _ _ _ Ha Hn Hs) as [Hn'|He].
  - destruct (IH (step_kept _ _ _ Ha Hs) Hn') as [?|[Hu|(now & l & Hp & Hf)]]; [by left|right; left|right; right; exists now, l]; set_solver.
  - right. destruct He as [Hu|(now & l & Hp & Hf)]; [left|right; exists now, l]; set_solver.
Qed.

Lemma recorded_noted id a b : step a [Recorded id] b -> noted id b.
Proof.
  intros Hs. inversion Hs; subst.
  - by destruct (admitted _ _).
  - destruct written; simplify_eq. split; simpl; rewrite lookup_insert_eq; eauto.
  - by destruct readable.
Qed.
Lemma executed_fresh id a b : step a [Executed id] b -> ledger a !! id = None.
Proof.
  intros Hs. inversion Hs as [|j a' Hg E1 E2 E3| | | |]; subst; [|by destruct written|by destruct readable].
  unfold admitted in E2. case_bool_decide; [|done]. by destruct (j_exec j), (bool_decide (running a = "")); simplify_eq/=.
Qed.
Lemma executed_in id a es b : step a es b -> Executed id ∈ es -> es = [Executed id].
Proof.
  intros Hs. destruct Hs; repeat case_match; rewrite ?elem_of_cons, ?elem_of_nil; intros He; destruct_or?; simplify_eq; done.
Qed.

(** ** Properties *)

(** Whatever frames, failing writes, lost sessions and restarts an agent goes through, every
    answer it sends is one the server can read, it remembers at most twenty results, and the only
    deployment it holds as begun without a result is the one running in its slot. *)
Theorem agent_answers_valid es a :
  steps new_agent es a ->
  Forall (fun res => result_validate res = Ok tt) (sent a) /\
  (size (finished (ledger a)) <= deploymentLedgerMax)%nat /\
  (forall id e, ledger a !! id = Some e -> pending e = true -> running a = id).
Proof.
  intros Hs. pose proof (steps_kept _ _ _ Hs new_agent_ok) as Ha. split; [apply Ha|]. split; [apply Ha|].
  intros id e He Hp. destruct (ao_ledger _ Ha _ _ He) as [Hd|[_ ?]]; [|done]. apply done_settled in Hd. congruence.
Qed.

(** C18: a deployment whose start was written to the ledger is not run again.  After that write,
    through any frames, other runs, failing writes, sessions and restarts, the agent still knows
    the deployment and the next step does not execute it, unless the ledger file could not be read
    at a restart or pruning was allowed to drop the result: a day old, or twenty others as new. *)
Theorem begun_runs_once before a id b after c :
  steps new_agent before a -> step a [Recorded id] b -> steps b after c -> ~ escape id after ->
  is_Some (ledger c !! id) /\ forall es d, step c es d -> Executed id ∉ es.
Proof.
  intros H1 H2 H3 He. assert (AgentOk b) as Hb by eauto using step_kept, steps_kept, new_agent_ok.
  destruct (steps_noted id _ _ _ H3 Hb (recorded_noted _ _ _ H2)) as [[Hl _]|?]; [|done]. split; [done|].
  intros es d Hs Hin. pose proof (executed_in _ _ _ _ Hs Hin) as ->. apply executed_fresh in Hs. rewrite Hs in Hl. by destruct Hl.
Qed.

(** The agent delivers what the Docker executor reported.  For an accepted frame the result
    the run records, and so replays and re-sends, carries the outcome, code, steps and identities
    of [Deploy] or [Remove]: the fallback for a result the server could not read is never taken. *)
Theorem executed_result_recorded o world self :
  (forall req j now, handleApply o req = Some j -> j_validate j now = Ok tt ->
    let res := (Deploy world self req new_run).1 in
    recorded j res = mkResult (j_id j) (j_request j) (rs_outcome res) (rs_code res) (rs_steps res) (rs_services res)) /\
  (forall req j now, handleRemoval o req = Some j -> j_validate j now = Ok tt ->
    let res := (Remove world self req new_run).1 in
    recorded j res = mkResult (j_id j) (j_request j) (rs_outcome res) (rs_code res) (rs_steps res) (rs_services res)).
Proof.
  split; intros req j now Hj Hv.
  - destruct (handleApply_ok _ _ _ Hj) as [Hd Hq]. unfold handleApply in Hj. destruct (ValidDeploymentID _); [|done]. injection Hj as <-.
    destruct (Deploy_answer world self req Hd) as [E V]. by apply recorded_same; [|done|eapply Hq].
  - destruct (handleRemoval_ok _ _ _ Hj) as [Hd Hq]. unfold handleRemoval in Hj. destruct (ValidDeploymentID _); [|done]. injection Hj as <-.
    destruct (Remove_answer world self req _ _ (surjective_pairing _) Hd) as (_ & E & V). by apply recorded_same; [|done|eapply Hq].
Qed.

(** ** An agent at work *)

Definition al_options : Options := mkOptions false true true.
Definition al_job : Job :=
  mkJob (dr_deployment demo_request) (dr_request demo_request) (dr_endpoint demo_request)
    (request_validate_for RuntimeDocker demo_request) true.
Definition al_result : DeploymentResult := (Deploy dw_healthy "" demo_request new_run).1.
Definition al_received : Agent := run_first al_job (dr_endpoint demo_request) (11 * Minute) new_agent.
Definition al_running : Agent := run_second al_job al_received.
Definition al_begun : Agent := begin al_job (11 * Minute) true al_running.
Definition al_finished : Agent := finish al_job (recorded al_job al_result) (12 * Minute) false false al_begun.
Definition al_restarted : Agent := restart (13 * Minute) true true al_finished.
Definition al_answered : Agent := run_first al_job (dr_endpoint demo_request) (14 * Minute) al_restarted.

Lemma al_job_handled : handleApply al_options demo_request = Some al_job.
Proof. unfold handleApply. by replace (ValidDeploymentID _) with true by (vm_compute; reflexivity). Qed.
Lemma al_job_ok : job_ok al_job.
Proof. by apply (handleApply_ok al_options demo_request), al_job_handled. Qed.
Lemma al_accepted : j_validate al_job (11 * Minute) = Ok tt.
Proof. vm_compute. reflexivity. Qed.

Lemma al_received_eq : al_received = mkAgent ∅ ∅ "" None (Some al_job) [].
Proof. unfold al_received, run_first. by rewrite al_accepted. Qed.
Lemma al_running_eq : al_running = mkAgent ∅ ∅ (j_id al_job) (Some al_job) None [].
Proof. unfold al_running. by rewrite al_received_eq. Qed.

Lemma al_to_running : steps new_agent [Executed (j_id al_job)] al_running.
Proof.
  apply (steps_cons _ [] al_received [Executed (j_id al_job)]); [apply step_receive; [done|apply al_job_ok]|].
  apply (steps_cons _ [Executed (j_id al_job)] al_running []); [|constructor].
  unfold al_running. rewrite al_received_eq. by apply (step_admit al_job).
Qed.
Lemma al_recorded : step al_running [Recorded (j_id al_job)] al_begun.
Proof. apply (step_begin al_job (11 * Minute) true); [by rewrite al_running_eq|done]. Qed.

Definition al_ledger1 : gmap string deploymentEntry := <[j_id al_job := mkEntry (recorded al_job al_result) (12 * Minute) zero_time ""]> (ledger al_begun).
Definition al_ledger2 : gmap string deploymentEntry := settleStarted (13 * Minute) (loaded (disk al_finished)).

(** The result is not written and the agent restarts: the run is settled as interrupted, and a
    frame for it is answered from the ledger. *)
Lemma al_to_answered : steps al_begun ([Pruned (12 * Minute) al_ledger1] ++ [Pruned (13 * Minute) al_ledger2] ++ []) al_answered.
Proof.
  apply (steps_cons _ _ al_finished); [apply step_finish; unfold al_begun; by rewrite al_running_eq|].
  apply (steps_cons _ _ al_restarted); [apply (step_restart _ true true)|].
  apply (steps_cons _ [] al_answered []); [|constructor]. apply step_receive; [done|apply al_job_ok].
Qed.
Lemma al_nothing_forgotten : ~ escape (j_id al_job) ([Pruned (12 * Minute) al_ledger1] ++ [Pruned (13 * Minute) al_ledger2] ++ []).
Proof.
  assert (~ forgettable (12 * Minute) al_ledger1 (j_id al_job)) as H1.
  { apply small_of; (eapply bool_decide_eq_true_1; vm_compute; reflexivity). }
  assert (~ forgettable (13 * Minute) al_ledger2 (j_id al_job)) as H2.
  { apply small_of; (eapply bool_decide_eq_true_1; vm_compute; reflexivity). }
  generalize dependent al_ledger1. generalize dependent al_ledger2. intros l2 H2 l1 H1.
  intros [Hu|(now & l & Hp & Hf)]; [set_solver|]. rewrite !elem_of_app, !list_elem_of_singleton, elem_of_nil in Hp.
  by destruct Hp as [[= -> ->]|[[= -> ->]|?]].
Qed.

Lemma agent_answers_valid_witness :
  map rs_code (sent (resend (14 * Minute) al_restarted)) = ["restarted"] /\
  Forall (fun res => result_validate res = Ok tt) (sent al_running).
Proof. split; [vm_compute; reflexivity|]. exact (proj1 (agent_answers_valid _ _ al_to_running)). Defined.

Lemma begun_runs_once_witness :
  map rs_code (sent al_answered) = ["restarted"] /\ is_Some (ledger al_answered !! j_id al_job).
Proof.
  split; [vm_compute; reflexivity|].
  exact (proj1 (begun_runs_once _ _ _ _ _ _ al_to_running al_recorded al_to_answered al_nothing_forgotten)).
Defined.

Lemma executed_result_recorded_witness :
  rs_outcome al_result = OutcomeSucceeded /\
  recorded al_job al_result =
    mkResult (j_id al_job) (j_request al_job) (rs_outcome al_result) (rs_code al_result) (rs_steps al_result) (rs_services al_result).
Proof.
  split; [vm_compute; reflexivity|].
  exact (proj1 (executed_result_recorded al_options dw_healthy "") demo_request al_job (11 * Minute) al_job_handled al_accepted).
Defined.
