(* ===== verification/AgentCommands.v ===== *)
(** * Commands on the agent

    internal/agent/client/commands.go with the command case of connect.go's session loop: how many
    commands run at once, which of them may be slow, and what is remembered of a finished one.

    [Host] is the agent's ledger in memory and on disk, the tokens in the two channels of its
    budget, and the commands taken.  Each definition is one critical section: a channel operation, a
    stretch under the ledger's lock, or code of one goroutine that touches nothing shared; [cstep]
    interleaves the session loop, the goroutine of every command taken, and restarts. *)
From Stdlib Require Import ZArith Lia Ascii String.
From stdpp Require Import base gmap sets strings list.
From S2P Require Import Prelude.
From S2P Require Import Frame.
From S2P Require Import Store.
From S2P Require Import Commands.
From S2P Require Import Pruning.

(** ** Data *)

Definition maxInFlightCommands : nat := 4.
Definition maxInFlightSlowCommands : nat := maxInFlightCommands / 2.
Definition dedupeLife : Z := 24 * Hour.
Definition dedupeMax : nat := 10000.

Record Command := mkCmd {
  cm_id : string; cm_endpoint : string; cm_deadline : time; cm_action : string; cm_container : string;
  cm_reference : string; cm_expects : Expectation }.
Record CommandResult := mkCmdResult { cr_id : string; cr_outcome : string; cr_detail : string }.
Record ledgerEntry := mkLedger { le_outcome : string; le_detail : string; le_finished : time }.

(** A command taken: not yet looked at, with the runtime, or answered and on its way out. *)
Inductive Phase := Taken | Operating | Answered (res : CommandResult).
Record Flight := mkFlight { fl_cmd : Command; fl_long : bool; fl_phase : Phase }.

Record Host := mkHost {
  h_done : gmap string ledgerEntry; h_disk : gmap string ledgerEntry;
  h_all : nat; h_slow : nat;
  h_taking : option Command;
  h_flights : list Flight;
  h_results : list CommandResult }.
Definition new_host : Host := mkHost ∅ ∅ 0 0 None [] [].

Definition answer (res : CommandResult) (h : Host) : Host :=
  mkHost (h_done h) (h_disk h) (h_all h) (h_slow h) (h_taking h) (h_flights h) (res :: h_results h).
Definition with_flights (fl : list Flight) (h : Host) : Host :=
  mkHost (h_done h) (h_disk h) (h_all h) (h_slow h) (h_taking h) fl (h_results h).
Definition with_tokens (all slow : nat) (h : Host) : Host :=
  mkHost (h_done h) (h_disk h) all slow (h_taking h) (h_flights h) (h_results h).
Definition with_taking (t : option Command) (h : Host) : Host :=
  mkHost (h_done h) (h_disk h) (h_all h) (h_slow h) t (h_flights h) (h_results h).

(** ** The ledger *)

Definition cprune (now : time) : gmap string ledgerEntry -> gmap string ledgerEntry :=
  prune_of (fun _ => false) le_finished dedupeLife dedupeMax now.

(** [record]: a write that fails leaves the file. *)
Definition record (id outcome detail : string) (now : time) (written : bool) (h : Host) : Host :=
  let l := cprune now (<[id := mkLedger outcome detail now]> (h_done h)) in
  mkHost l (if written then l else h_disk h) (h_all h) (h_slow h) (h_taking h) (h_flights h) (h_results h).

(** [openLedger] of a new process, with a new budget. *)
Definition openLedger (now : time) (readable : bool) (h : Host) : Host :=
  mkHost (if readable then cprune now (h_disk h) else ∅) (h_disk h) 0 0 None [] (h_results h).

Definition replay (id : string) (e : ledgerEntry) : CommandResult := mkCmdResult id (le_outcome e) (le_detail e).

(** ** The budget *)

Definition full (id : string) : CommandResult :=
  mkCmdResult id OutcomeDenied "this agent is already running as many commands as it will".

(** The command case of the loop, up to the first channel operation of [take]. *)
Definition receive (cmd : Command) (h : Host) : Host :=
  match h_done h !! cm_id cmd with
  | Some prior => answer (replay (cm_id cmd) prior) h
  | None =>
      if imageActions (cm_action cmd) then
        if (h_slow h <? maxInFlightSlowCommands)%nat
        then with_taking (Some cmd) (with_tokens (h_all h) (S (h_slow h)) h)
        else answer (full (cm_id cmd)) h
      else with_taking (Some cmd) h
  end.

(** The rest of [take]: a general slot, or the slow one goes back. *)
Definition take_general (cmd : Command) (h : Host) : Host :=
  let image := imageActions (cm_action cmd) in
  let h := with_taking None h in
  if (h_all h <? maxInFlightCommands)%nat
  then with_flights (h_flights h ++ [mkFlight cmd image Taken]) (with_tokens (S (h_all h)) (h_slow h) h)
  else answer (full (cm_id cmd)) (with_tokens (h_all h) (if image then Nat.pred (h_slow h) else h_slow h) h).

(** [admitLong] from the goroutine of the command at [i]. *)
Definition admitLong (i : nat) (h : Host) : Host * bool :=
  match h_flights h !! i with
  | None => (h, false)
  | Some f =>
      if fl_long f then (h, true)
      else if (h_slow h <? maxInFlightSlowCommands)%nat
      then (with_flights (<[i := mkFlight (fl_cmd f) true (fl_phase f)]> (h_flights h)) (with_tokens (h_all h) (S (h_slow h)) h), true)
      else (h, false)
  end.

(** [release] of the command at [i]. *)
Definition release (i : nat) (h : Host) : Host :=
  match h_flights h !! i with
  | None => h
  | Some f => with_flights (delete i (h_flights h))
                (with_tokens (Nat.pred (h_all h)) (if fl_long f then Nat.pred (h_slow h) else h_slow h) h)
  end.

(** ** Handling *)

(** The answers of [handleCommand] that run nothing; [None] is the runtime's to answer. *)
Definition handled (endpointID : string) (operates : bool) (now : time) (cmd : Command) (h : Host) : option CommandResult :=
  match h_done h !! cm_id cmd with
  | Some prior => Some (replay (cm_id cmd) prior)
  | None =>
      if negb (bool_decide (cm_endpoint cmd = endpointID))
      then Some (mkCmdResult (cm_id cmd) OutcomeDenied "this command is addressed to another endpoint")
      else if negb (cm_deadline cmd =? zero_time) && (cm_deadline cmd <? now)
      then Some (mkCmdResult (cm_id cmd) OutcomeTimedOut "the deadline had passed before the command was read")
      else if negb operates then Some (mkCmdResult (cm_id cmd) OutcomeDenied "this agent has no runtime to operate")
      else None
  end.

Definition set_phase (i : nat) (p : Phase) (h : Host) : Host :=
  match h_flights h !! i with
  | None => h
  | Some f => with_flights (<[i := mkFlight (fl_cmd f) (fl_long f) p]> (h_flights h)) h
  end.

(** The goroutine up to the runtime's call, and after it. *)
Definition consider (i : nat) (endpointID : string) (operates : bool) (now : time) (h : Host) : Host :=
  match h_flights h !! i with
  | None => h
  | Some f =>
      match handled endpointID operates now (fl_cmd f) h with
      | Some res => set_phase i (Answered res) h
      | None => set_phase i Operating h
      end
  end.
Definition operated (i : nat) (outcome detail : string) (now : time) (written : bool) (h : Host) : Host :=
  match h_flights h !! i with
  | None => h
  | Some f => set_phase i (Answered (mkCmdResult (cm_id (fl_cmd f)) outcome detail)) (record (cm_id (fl_cmd f)) outcome detail now written h)
  end.

(** [deliver]: to the loop, or to nobody when the session ended. *)
Definition deliver (i : nat) (res : CommandResult) (linked : bool) (h : Host) : Host :=
  release i (if linked then answer res h else h).

(** ** Steps *)

Inductive cevent :=
| Ran (id : string)
| Kept (id : string)
| Dropped (now : time) (l : gmap string ledgerEntry)
| Forgot.

Definition runs (f : Flight) (endpointID : string) (operates : bool) (now : time) (h : Host) : bool :=
  bool_decide (handled endpointID operates now (fl_cmd f) h = None).

Inductive cstep : Host -> list cevent -> Host -> Prop :=
| cstep_receive cmd h : h_taking h = None -> cm_id cmd <> "" -> cstep h [] (receive cmd h)
| cstep_take cmd h : h_taking h = Some cmd -> cstep h [] (take_general cmd h)
| cstep_consider i f endpointID operates now h :
    h_flights h !! i = Some f -> fl_phase f = Taken ->
    cstep h (if runs f endpointID operates now h then [Ran (cm_id (fl_cmd f))] else []) (consider i endpointID operates now h)
| cstep_admit i f h : h_flights h !! i = Some f -> fl_phase f = Operating -> cstep h [] (admitLong i h).1
| cstep_operated i f outcome detail now (written : bool) h :
    h_flights h !! i = Some f -> fl_phase f = Operating ->
    cstep h (Dropped now (<[cm_id (fl_cmd f) := mkLedger outcome detail now]> (h_done h)) ::
             (if written then [Kept (cm_id (fl_cmd f))] else [])) (operated i outcome detail now written h)
| cstep_deliver i f res linked h :
    h_flights h !! i = Some f -> fl_phase f = Answered res -> cstep h [] (deliver i res linked h)
| cstep_restart now (readable : bool) h :
    cstep h (if readable then [Dropped now (h_disk h)] else [Forgot]) (openLedger now readable h).

Inductive csteps : Host -> list cevent -> Host -> Prop :=
| csteps_nil h : csteps h [] h
| csteps_cons h es h1 fs h2 : cstep h es h1 -> csteps h1 fs h2 -> csteps h (es ++ fs) h2.

(** ** The budget's invariant *)

Definition slow_count (l : list Flight) : nat := length (List.filter fl_long l).
Definition taking_slow (t : option Command) : nat :=
  match t with Some cmd => if imageActions (cm_action cmd) then 1 else 0 | None => 0 end.

Record BudgetOk (h : Host) : Prop := {
  bo_all : h_all h = length (h_flights h);
  bo_slow : h_slow h = (slow_count (h_flights h) + taking_slow (h_taking h))%nat;
  bo_all_max : (h_all h <= maxInFlightCommands)%nat;
  bo_slow_max : (h_slow h <= maxInFlightSlowCommands)%nat }.

Lemma slow_insert l i f g : l !! i = Some f ->
  (slow_count (<[i := g]> l) + Nat.b2n (fl_long f) = slow_count l + Nat.b2n (fl_long g))%nat.
Proof.
  unfold slow_count. revert i; induction l as [|x l IH]; intros [|i] H; simpl in *; try done.
  - simplify_eq. destruct (fl_long f), (fl_long g); simpl; lia.
  - specialize (IH _ H). destruct (fl_long x); simpl; lia.
Qed.
Lemma slow_delete l i f : l !! i = Some f -> (slow_count (delete i l) + Nat.b2n (fl_long f) = slow_count l)%nat.
Proof.
  unfold slow_count. revert i; induction l as [|x l IH]; intros [|i] H; simpl in *; try done.
  - simplify_eq. destruct (fl_long f); simpl; lia.
  - specialize (IH _ H). destruct (fl_long x); simpl; lia.
Qed.
Lemma slow_app l m : slow_count (l ++ m) = (slow_count l + slow_count m)%nat.
Proof. unfold slow_count. by rewrite List.filter_app, length_app. Qed.

Ltac budget := unfold maxInFlightSlowCommands, maxInFlightCommands in *; simpl in *; lia.

Lemma set_phase_budget i p h : BudgetOk h -> BudgetOk (set_phase i p h).
Proof.
  intros []. unfold set_phase. destruct (h_flights h !! i) as [f|] eqn:E; [|done].
  pose proof (slow_insert _ _ _ (mkFlight (fl_cmd f) (fl_long f) p) E) as Hs. simpl in Hs.
  constructor; simpl; rewrite ?length_insert; [done|lia|done|done].
Qed.
Lemma record_budget id o d now w h : BudgetOk h -> BudgetOk (record id o d now w h).
Proof. by intros []. Qed.
Lemma answer_budget res h : BudgetOk h -> BudgetOk (answer res h).
Proof. by intros []. Qed.

Lemma receive_budget cmd h : BudgetOk h -> h_taking h = None -> BudgetOk (receive cmd h).
Proof.
  intros H Ht. unfold receive. destruct (h_done h !! cm_id cmd); [by apply answer_budget|].
  destruct (imageActions (cm_action cmd)) eqn:Ei; [case (Nat.ltb_spec (h_slow h) maxInFlightSlowCommands); intros ?; [|by apply answer_budget]|];
    destruct H; constructor; simpl; rewrite ?Ei, ?Ht in *; try done; budget.
Qed.
Lemma take_general_budget cmd h : BudgetOk h -> h_taking h = Some cmd -> BudgetOk (take_general cmd h).
Proof.
  intros [] Ht. rewrite Ht in *. unfold take_general. simpl in *.
  case (Nat.ltb_spec (h_all h) maxInFlightCommands); intros Hl; constructor; simpl; rewrite ?length_app, ?slow_app; unfold slow_count in *; simpl;
    destruct (imageActions (cm_action cmd)); simpl; budget.
Qed.
Lemma admitLong_budget i h : BudgetOk h -> BudgetOk (admitLong i h).1.
Proof.
  intros H. unfold admitLong. destruct (h_flights h !! i) as [f|] eqn:E; [|done]. destruct (fl_long f) eqn:El; [done|].
  case (Nat.ltb_spec (h_slow h) maxInFlightSlowCommands); intros Hl; [|done].
  pose proof (slow_insert _ _ _ (mkFlight (fl_cmd f) true (fl_phase f)) E) as Hs. rewrite El in Hs. simpl in Hs.
  destruct H. constructor; simpl; rewrite ?length_insert; [done|lia|done|lia].
Qed.
Lemma release_budget i h : BudgetOk h -> BudgetOk (release i h).
Proof.
  intros []. unfold release. destruct (h_flights h !! i) as [f|] eqn:E; [|done].
  pose proof (slow_delete _ _ _ E) as Hs. pose proof (length_delete _ _ (mk_is_Some _ _ E)) as Hl.
  pose proof (lookup_lt_Some _ _ _ E).
  constructor; simpl; rewrite ?Hl; destruct (fl_long f); simpl in Hs; lia.
Qed.

Lemma cstep_budget h es h' : BudgetOk h -> cstep h es h' -> BudgetOk h'.
Proof.
  intros Hb Hs. destruct Hs.
  - by apply receive_budget.
  - by apply take_general_budget.
  - unfold consider. repeat case_match; try done; by apply set_phase_budget.
  - by apply admitLong_budget.
  - unfold operated. case_match; [|done]. by apply set_phase_budget, record_budget.
  - unfold deliver. apply release_budget. destruct linked; [by apply answer_budget|done].
  - constructor; simpl; budget.
Qed.

(** ** What is finished stays finished *)

Definition cforgettable : time -> gmap string ledgerEntry -> string -> Prop :=
  forgettable_of (fun _ => false) le_finished dedupeLife dedupeMax.
Definition cescape (id : string) (es : list cevent) : Prop :=
  Forgot ∈ es \/ exists now l, Dropped now l ∈ es /\ cforgettable now l id.
Definition known (id : string) (h : Host) : Prop := is_Some (h_done h !! id) /\ is_Some (h_disk h !! id).

Lemma known_pruned id now l es : is_Some (l !! id) -> Dropped now l ∈ es -> is_Some (cprune now l !! id) \/ cescape id es.
Proof.
  intros H He. destruct (prune_of_keeps (fun _ => false) le_finished dedupeLife dedupeMax now l id H) as [?|?]; [by left|]. right. right. by exists now, l.
Qed.

(** The ledger only changes when a command is recorded or the process starts. *)
Lemma keeps_ledger i p h : h_done (set_phase i p h) = h_done h /\ h_disk (set_phase i p h) = h_disk h.
Proof. unfold set_phase. by case_match. Qed.
Lemma release_ledger i h : h_done (release i h) = h_done h /\ h_disk (release i h) = h_disk h.
Proof. unfold release. by case_match. Qed.

Lemma operated_known id i f outcome detail now written h :
  h_flights h !! i = Some f -> cm_id (fl_cmd f) = id /\ written = true \/ known id h ->
  known id (operated i outcome detail now written h) \/
  cescape id (Dropped now (<[cm_id (fl_cmd f) := mkLedger outcome detail now]> (h_done h)) :: (if written then [Kept (cm_id (fl_cmd f))] else [])).
Proof.
  intros Hf Hk. unfold operated. rewrite Hf. unfold known. destruct (keeps_ledger i
    (Answered (mkCmdResult (cm_id (fl_cmd f)) outcome detail)) (record (cm_id (fl_cmd f)) outcome detail now written h)) as [-> ->]. simpl.
  destruct (known_pruned id now (<[cm_id (fl_cmd f) := mkLedger outcome detail now]> (h_done h))
    (Dropped now (<[cm_id (fl_cmd f) := mkLedger outcome detail now]> (h_done h)) :: (if written then [Kept (cm_id (fl_cmd f))] else []))) as [Hp|?];
    [apply lookup_insert_is_Some'; destruct Hk as [[? _]|[? _]]; auto|left| |by right].
  left. split; [done|]. destruct written; [done|]. by destruct Hk as [[_ ?]|[_ ?]].
Qed.

Lemma cstep_known id h es h' : known id h -> cstep h es h' -> known id h' \/ cescape id es.
Proof.
  intros [Hd Hk] Hs. destruct Hs.
  - left. unfold receive. by repeat case_match.
  - left. unfold take_general. by repeat case_match.
  - left. unfold consider, known. rewrite H. destruct (handled _ _ _ _ _) as [res|]; [destruct (keeps_ledger i (Answered res) h) as [-> ->]|destruct (keeps_ledger i Operating h) as [-> ->]]; done.
  - left. unfold admitLong. by repeat case_match.
  - destruct (operated_known id i f outcome detail now written h H) as [?|?]; [by right|by left|by right].
  - left. unfold deliver, known. destruct (release_ledger i (if linked then answer res h else h)) as [-> ->]. by destruct linked.
  - destruct readable; [|right; left; left].
    destruct (known_pruned id now (h_disk h) [Dropped now (h_disk h)] Hk) as [?|?]; [left|by left|by right].
Qed.
Lemma csteps_known id h es h' : csteps h es h' -> known id h -> known id h' \/ cescape id es.
Proof.
  induction 1 as [|h es h1 fs h2 Hs Hr IH]; [by left|]. intros Hn.
  destruct (cstep_known id _ _ _ Hn Hs) as [Hn'|He].
  - destruct (IH Hn') as [?|[Hu|(now & l & Hp & Hf)]]; [by left|right; left|right; right; exists now, l]; set_solver.
  - right. destruct He as [Hu|(now & l & Hp & Hf)]; [left|right; exists now, l]; set_solver.
Qed.

Lemma kept_known id h es h' : cstep h es h' -> Kept id ∈ es -> known id h' \/ cescape id es.
Proof.
  intros Hs He. destruct Hs; try set_solver.
  - destruct (runs _ _ _ _ _); set_solver.
  - apply operated_known; [done|]. left. destruct written; set_solver.
  - destruct readable; set_solver.
Qed.
Lemma ran_fresh id h es h' : cstep h es h' -> Ran id ∈ es -> h_done h !! id = None.
Proof.
  intros Hs He. destruct Hs; try set_solver.
  - destruct (runs f endpointID operates now h) eqn:E; [|set_solver].
    apply list_elem_of_singleton in He. injection He as ->. apply bool_decide_eq_true in E. unfold handled in E.
    by destruct (h_done h !! cm_id (fl_cmd f)).
  - destruct written; set_solver.
  - destruct readable; set_solver.
Qed.

(** ** Properties *)

Lemma csteps_budget h es h' : csteps h es h' -> BudgetOk h -> BudgetOk h'.
Proof. induction 1; eauto using cstep_budget. Qed.
Lemma new_host_budget : BudgetOk new_host.
Proof. constructor; simpl; budget. Qed.
Lemma short_count (l : list Flight) : (slow_count l + length (List.filter (fun f => negb (fl_long f)) l) = length l)%nat.
Proof. unfold slow_count. induction l as [|f l IH]; simpl; [done|]. destruct (fl_long f); simpl; lia. Qed.

(** C23: the agent never runs more than four commands, nor more than two slow ones (image actions
    and stops that wait out a long grace) among them, whatever arrives and however the commands
    interleave.  The tokens in the two channels are exactly those its commands hold, so a release
    never waits; and when a command is refused for want of a slot at least two of the four running
    are short. *)
Theorem budget_bounded es h :
  csteps new_host es h ->
  (length (h_flights h) <= maxInFlightCommands)%nat /\ (slow_count (h_flights h) <= maxInFlightSlowCommands)%nat /\
  h_all h = length (h_flights h) /\ h_slow h = (slow_count (h_flights h) + taking_slow (h_taking h))%nat /\
  (forall cmd, h_taking h = Some cmd -> h_flights (take_general cmd h) = h_flights h ->
    (2 <= length (List.filter (fun f => negb (fl_long f)) (h_flights h)))%nat).
Proof.
  intros Hs. destruct (csteps_budget _ _ _ Hs new_host_budget) as [Ha Hl Hm Hn].
  split_and!; [budget|budget|done|done|]. intros cmd Ht Hin. unfold take_general in Hin.
  simpl in Hin. destruct (Nat.ltb_spec (h_all h) maxInFlightCommands) as [Hlt|Hlt]; simpl in Hin;
    [apply (f_equal length) in Hin; rewrite length_app in Hin; simpl in Hin; lia|].
  pose proof (short_count (h_flights h)). budget.
Qed.

(** A command that has finished does not run again.  After its result was written, through
    any other commands, sessions, failing writes and restarts, the agent knows the command and no
    step runs it, unless the ledger could not be read at a restart or pruning was allowed to drop
    the result: a day old, or ten thousand others as new. *)
Theorem finished_runs_once h es h1 id fs h2 :
  cstep h es h1 -> Kept id ∈ es -> csteps h1 fs h2 -> ~ cescape id (es ++ fs) ->
  is_Some (h_done h2 !! id) /\ forall gs h3, cstep h2 gs h3 -> Ran id ∉ gs.
Proof.
  intros H1 Hk H2 He. destruct (kept_known id _ _ _ H1 Hk) as [Hn|[?|(now & l & ? & ?)]];
    [|destruct He; left; set_solver|destruct He; right; exists now, l; set_solver].
  destruct (csteps_known id _ _ _ H2 Hn) as [[Hd _]|[?|(now & l & ? & ?)]];
    [|destruct He; left; set_solver|destruct He; right; exists now, l; set_solver].
  split; [done|]. intros gs h3 Hs Hr. pose proof (ran_fresh _ _ _ _ Hs Hr) as E. rewrite E in Hd. by destruct Hd.
Qed.

(** ** A host at work *)

Definition ac_cmd : Command := mkCmd "cmd-1" "host-1" zero_time ActionRestart "web" "" (mkExpectation "" "" None).
Definition ac_taken : Host := take_general ac_cmd (receive ac_cmd new_host).
Definition ac_running : Host := consider 0 "host-1" true (11 * Minute) ac_taken.
Definition ac_done : Host := operated 0 OutcomeSucceeded "" (12 * Minute) true ac_running.
Definition ac_again : Host := receive ac_cmd (openLedger (13 * Minute) true ac_done).

Lemma ac_to_running : csteps new_host [Ran "cmd-1"] ac_running.
Proof.
  apply (csteps_cons _ [] (receive ac_cmd new_host)); [by apply cstep_receive|].
  apply (csteps_cons _ [] ac_taken); [by apply cstep_take|].
  apply (csteps_cons _ [Ran "cmd-1"] ac_running []); [|constructor].
  by apply (cstep_consider 0 (mkFlight ac_cmd false Taken) "host-1" true (11 * Minute)).
Qed.

Definition ac_ledger : gmap string ledgerEntry := {["cmd-1" := mkLedger OutcomeSucceeded "" (12 * Minute)]}.
Lemma ac_to_done : cstep ac_running [Dropped (12 * Minute) ac_ledger; Kept "cmd-1"] ac_done.
Proof. by apply (cstep_operated 0 (mkFlight ac_cmd false Operating) OutcomeSucceeded "" (12 * Minute) true). Qed.
Lemma ac_to_again : csteps ac_done ([Dropped (13 * Minute) ac_ledger] ++ []) ac_again.
Proof.
  apply (csteps_cons _ _ (openLedger (13 * Minute) true ac_done)); [by apply (cstep_restart (13 * Minute) true)|].
  apply (csteps_cons _ [] ac_again []); [by apply cstep_receive|constructor].
Qed.

Lemma budget_bounded_witness :
  length (h_flights ac_running) = 1%nat /\ (length (h_flights ac_running) <= maxInFlightCommands)%nat.
Proof. split; [reflexivity|]. exact (proj1 (budget_bounded _ _ ac_to_running)). Defined.

Lemma finished_runs_once_witness :
  map cr_outcome (h_results ac_again) = [OutcomeSucceeded] /\ is_Some (h_done ac_again !! "cmd-1").
Proof.
  split; [vm_compute; reflexivity|].
  refine (proj1 (finished_runs_once _ _ _ "cmd-1" _ _ ac_to_done _ ac_to_again _)); [set_solver|].
  intros [?|(now & l & Hp & Hf)]; [set_solver|]. apply (small_of (fun _ => false) le_finished dedupeLife dedupeMax now l "cmd-1"); [..|exact Hf].
  - assert (l = ac_ledger) as -> by set_solver. vm_compute. lia.
  - assert (l = ac_ledger /\ (now = 12 * Minute \/ now = 13 * Minute)) as [-> Hnow] by set_solver.
    apply map_Forall_singleton. destruct Hnow as [-> | ->]; vm_compute; congruence.
Defined.
