(* ===== verification/Operate.v ===== *)
(** * Operating one container or image

    internal/runtime/docker/operate.go and images.go: what the agent does for one command, after
    checking that the target is still what the operator was looking at.

    [Operate] is a program over the Engine's calls ([Prog]): its calls and what it does with each
    answer.  [run_prog] runs it against a daemon that may answer anything, given what was asked
    before.  The text of an error is the daemon's or the HTTP client's, so it is part of the answer. *)
From Stdlib Require Import ZArith Lia Ascii String.
From stdpp Require Import base gmap sets strings list.
From S2P Require Import Prelude.
From S2P Require Import Regex.
From S2P Require Import Grammar.
From S2P Require Import Text.
From S2P Require Import Frame.
From S2P Require Import Store.
From S2P Require Import Commands.
From S2P Require Import Adoption.
From S2P Require Import Engine.
From S2P Require Import DockerRun.
From S2P Require Import AgentCommands.

(** ** Calls *)

Inductive Op :=
| ReadContainer (id : string)
| ReadImage (ref : string)
| StartOp (id : string)
| StopOp (id : string) (grace : Z)
| RestartOp (id : string) (grace : Z)
| RemoveOp (id : string)
| RemoveImageOp (ref : string)
| PullOp (name tag : string).

Record OperateRead := mkOperateRead {
  or_labels : gmap string string; or_stop_timeout : option Z; or_id : string; or_image : string; or_status : string }.

(** A read that failed has the status its answer carried (0 without one) and the error's text; an
    action has a status or an error, with whether its time was up; a pull has its status with the
    lines of its progress and how the stream ended. *)
Inductive ReadReply (A : Type) := Unread (status : Z) (text : string) | Read (a : A).
Arguments Unread {A}. Arguments Read {A}.
Inductive ActReply := NoAnswerTo (text : string) (late : bool) | Status (status : Z).
Inductive PullReply := NoProgress (text : string) (late : bool) | Progress (status : Z) (lines : list (option PullLine)) (ended : option string).

Definition Reply (op : Op) : Type :=
  match op with
  | ReadContainer _ => ReadReply OperateRead
  | ReadImage _ => ReadReply string
  | PullOp _ _ => PullReply
  | _ => ActReply
  end.

Definition Outcome : Type := string * string.

Inductive Prog :=
| Done (o : Outcome)
| Ask (op : Op) (k : Reply op -> Prog)
| AdmitLongWait (k : bool -> Prog).

(** ** Text *)

Definition bound (s : string) : string := CleanText s MaxResultDetailBytes.
Definition refused_status (s : Z) : Outcome := (OutcomeFailed, "the runtime refused with status " +:+ Itoa s).

(** Whether the lower-cased text contains a word of ASCII letters: [lower_rune] is exact for the
    runes that lower to one. *)
Fixpoint at_start (w l : list Z) : bool :=
  match w, l with
  | [], _ => true
  | x :: w', y :: l' => (x =? y) && at_start w' l'
  | _ :: _, [] => false
  end.
Fixpoint has_word (w l : list Z) : bool :=
  at_start w l || match l with [] => false | _ :: l' => has_word w l' end.
Definition mentions (text word : string) : bool := has_word (runes word) (map lower_rune (runes text)).

(** ** Images *)

Definition credentialsMissing : string :=
  "this registry needs a credential; pull it through a deployment, which carries the organization's registry credential".

Definition readPullStream (lines : list (option PullLine)) (ended : option string) : Outcome :=
  let failure := pull_failure lines in
  match ended with
  | Some err => (OutcomeUnknown, bound ("the progress stream ended early: " +:+ err))
  | None =>
      if bool_decide (failure = "") then (OutcomeSucceeded, "")
      else if mentions failure "unauthorized" || mentions failure "authentication required" || mentions failure "denied"
      then (OutcomeDenied, credentialsMissing)
      else (OutcomeFailed, bound failure)
  end.

Definition pullImage (reference : string) : Prog :=
  if negb (ValidImageReference reference) then Done (OutcomeDenied, "that is not an image reference")
  else
    let '(name, tag) := SplitImageReference reference in
    Ask (PullOp name (if bool_decide (tag = "") then "latest" else tag)) (fun x =>
      match x with
      | NoProgress text late => Done (if late then (OutcomeTimedOut, "the pull did not finish in time") else (OutcomeFailed, bound text))
      | Progress s lines ended =>
          Done (if (s =? 401) || (s =? 403) then (OutcomeDenied, credentialsMissing)
                else if s =? StatusNotFound then (OutcomeDenied, "the registry has no such image or tag")
                else if s >=? 400 then (OutcomeFailed, "the registry or runtime refused with status " +:+ Itoa s)
                else readPullStream lines ended)
      end).

(** A deletion's answer; [conflict] and [missing] say what those statuses mean. *)
Definition deleted (conflict missing : string) (x : ActReply) : Prog :=
  Done match x with
       | NoAnswerTo text late => if late then (OutcomeTimedOut, "the runtime did not answer in time") else (OutcomeFailed, bound text)
       | Status s =>
           if s =? StatusConflict then (OutcomeDenied, conflict)
           else if s =? StatusNotFound then (OutcomeDenied, missing)
           else if s >=? 400 then refused_status s else (OutcomeSucceeded, "")
       end.

Definition removeImage (reference wantID : string) : Prog :=
  if negb (ValidImageReference reference) then Done (OutcomeDenied, "that is not an image reference")
  else if bool_decide (wantID = "") then Done (OutcomeDenied, "this removal did not say which image it was decided about")
  else Ask (ReadImage reference) (fun x =>
    match x with
    | Read id =>
        if negb (bool_decide (id = wantID))
        then Done (OutcomeDenied, "this reference now points at a different image than the one this was decided about")
        else Ask (RemoveImageOp reference) (deleted "a container is still using this image" "this host does not have that image")
    | Unread s text =>
        Done (if s =? StatusNotFound then (OutcomeDenied, "this host does not have that image")
              else (OutcomeFailed, bound ("inspecting the image: " +:+ text)))
    end).

(** ** Containers *)

Definition remove (container state : string) : Prog :=
  if bool_decide (state ∈ ["running"; "restarting"; "paused"])
  then Done (OutcomeDenied, "the container is " +:+ state +:+ "; stop it first")
  else Ask (RemoveOp container) (deleted "the runtime refused: something still depends on this container" "the container no longer exists").

Definition acted_on (x : ActReply) : Prog :=
  Done match x with
       | NoAnswerTo text late => if late then (OutcomeTimedOut, "the runtime did not answer in time") else (OutcomeFailed, bound text)
       | Status s =>
           if s =? StatusNotModified then (OutcomeSucceeded, "the container was already in that state")
           else if s >=? 400 then refused_status s else (OutcomeSucceeded, "")
       end.

(** A stop or restart waits out the grace; past Docker's default it needs the agent's admission. *)
Definition graceful (grace : Z) (wait : Prog) : Prog :=
  if grace >? stopGrace
  then AdmitLongWait (fun ok => if ok then wait
                                else Done (OutcomeDenied, "this agent is already waiting out as many long stops as it will"))
  else wait.

Definition act (cmd : Command) (c : OperateRead) : Prog :=
  let container := cm_container cmd in
  let grace := graceOf (or_stop_timeout c) in
  if bool_decide (cm_action cmd = ActionRemove) then remove container (or_status c)
  else if bool_decide (cm_action cmd = ActionStart) then Ask (StartOp container) acted_on
  else if bool_decide (cm_action cmd = ActionStop) then graceful grace (Ask (StopOp container grace) acted_on)
  else if bool_decide (cm_action cmd = ActionRestart) then graceful grace (Ask (RestartOp container grace) acted_on)
  else Done (OutcomeDenied, "unsupported action").

Definition Operate (self : string) (cmd : Command) : Prog :=
  let want := cm_expects cmd in
  if bool_decide (cm_action cmd = ActionImagePull) then pullImage (cm_reference cmd)
  else if bool_decide (cm_action cmd = ActionImageRemove) then removeImage (cm_reference cmd) (x_image want)
  else if negb (ValidContainerID (cm_container cmd)) then Done (OutcomeDenied, "that is not a container identifier")
  else Ask (ReadContainer (cm_container cmd)) (fun x =>
    match x with
    | Read c =>
        if negb (bool_decide (x_image want = "")) && negb (bool_decide (x_image want = or_image c))
        then Done (OutcomeDenied, "the container is running a different image than the one this was decided about")
        else if installerManaged (or_labels c) then Done (OutcomeDenied, "application_managed")
        else if isSelf self (or_id c) then Done (OutcomeDenied, "self_protected")
        else if negb (bool_decide (x_state want = "")) && negb (bool_decide (x_state want = or_status c))
        then Done (OutcomeDenied, "the container is " +:+ or_status c +:+ ", not " +:+ x_state want)
        else act cmd c
    | Unread s text =>
        Done (if s =? StatusNotFound then (OutcomeDenied, "the container no longer exists")
              else (OutcomeFailed, bound ("inspecting the container: " +:+ text)))
    end).

(** ** Running a program *)

Abbreviation Exchange := { op : Op & Reply op }.
Abbreviation History := (list Exchange).
Record Daemon := mkDaemon { d_serve : History -> forall op, Reply op; d_admit : History -> bool }.

Fixpoint run_prog (d : Daemon) (h : History) (p : Prog) : Outcome * History :=
  match p with
  | Done o => (o, h)
  | Ask op k => let x := d_serve d h op in run_prog d (h ++ [existT op x]) (k x)
  | AdmitLongWait k => run_prog d h (k (d_admit d h))
  end.

(** ** Rules a program keeps *)

Section Rules.
Context (ask : History -> Op -> Prop) (finish : History -> Outcome -> Prop).

(** Every call the program makes, and every way it ends, keeps the rule, whatever is answered. *)
Fixpoint keeps_rule (h : History) (p : Prog) : Prop :=
  match p with
  | Done o => finish h o
  | Ask op k => ask h op /\ forall x, keeps_rule (h ++ [existT op x]) (k x)
  | AdmitLongWait k => forall b, keeps_rule h (k b)
  end.

Lemma keeps_rule_run d h p : keeps_rule h p ->
  (forall h1 op x h2, (run_prog d h p).2 = h1 ++ existT op x :: h2 -> (length h <= length h1)%nat -> ask h1 op) /\
  finish (run_prog d h p).2 (run_prog d h p).1 /\ exists l, (run_prog d h p).2 = h ++ l.
Proof.
  revert h; induction p as [o|op k IH|k IH]; intros h; simpl.
  - intros Hf. split; [|split; [done|exists []; by rewrite app_nil_r]].
    intros h1 op x h2 E Hl. apply (f_equal length) in E. rewrite length_app in E. simpl in E. lia.
  - intros [Ha Hk]. destruct (IH (d_serve d h op) _ (Hk _)) as (H1 & H2 & l & H3). split; [|split; [done|]].
    + intros h1 op' x h2 E Hl. destruct (decide (length h < length h1)%nat) as [Hlt|Hge].
      * apply (H1 _ _ _ _ E). rewrite length_app. simpl. lia.
      * apply (eq_trans (eq_sym H3)) in E. rewrite <- app_assoc in E. simpl in E. apply app_inj_1 in E as [-> E]; [|lia].
        apply (f_equal (option_map (@projT1 _ _) ∘ head)) in E. simpl in E. by injection E as <-.
    + exists ([existT op (d_serve d h op)] ++ l). by rewrite app_assoc.
  - intros Hk. apply IH, Hk.
Qed.
End Rules.

(** ** What an operation may ask, and when *)

Definition asked_of (self : string) (cmd : Command) (c : OperateRead) : Prop :=
  ValidContainerID (cm_container cmd) = true /\
  (x_image (cm_expects cmd) = "" \/ x_image (cm_expects cmd) = or_image c) /\
  (x_state (cm_expects cmd) = "" \/ x_state (cm_expects cmd) = or_status c) /\
  installerManaged (or_labels c) = false /\ isSelf self (or_id c) = false.

(** Right after the one read of the command's container, which shows it as decided about. *)
Definition after_read (self : string) (cmd : Command) (h : History) (id action : string) (rule : OperateRead -> Prop) : Prop :=
  id = cm_container cmd /\ cm_action cmd = action /\
  exists c, h = [existT (ReadContainer id) (Read c)] /\ asked_of self cmd c /\ rule c.

Definition op_rule (self : string) (cmd : Command) (h : History) (op : Op) : Prop :=
  match op with
  | ReadContainer id => id = cm_container cmd /\ h = []
  | ReadImage ref => ref = cm_reference cmd /\ h = []
  | StartOp id => after_read self cmd h id ActionStart (fun _ => True)
  | StopOp id grace => after_read self cmd h id ActionStop (fun c => grace = graceOf (or_stop_timeout c))
  | RestartOp id grace => after_read self cmd h id ActionRestart (fun c => grace = graceOf (or_stop_timeout c))
  | RemoveOp id => after_read self cmd h id ActionRemove (fun c => or_status c ∉ ["running"; "restarting"; "paused"])
  | RemoveImageOp ref =>
      ref = cm_reference cmd /\ cm_action cmd = ActionImageRemove /\ ValidImageReference ref = true /\
      x_image (cm_expects cmd) <> "" /\ h = [existT (ReadImage ref) (Read (x_image (cm_expects cmd)))]
  | PullOp name tag =>
      cm_action cmd = ActionImagePull /\ ValidImageReference (cm_reference cmd) = true /\ h = [] /\ tag <> "" /\
      exists t, SplitImageReference (cm_reference cmd) = (name, t) /\ (tag = t \/ t = "" /\ tag = "latest")
  end.

(** The daemon did what it was asked. *)
Definition accepted_op (e : Exchange) : Prop :=
  match projT1 e as op return Reply op -> Prop with
  | ReadContainer _ | ReadImage _ => fun _ => False
  | PullOp _ _ => fun x => exists s lines, x = Progress s lines None /\ s < 400 /\ pull_failure lines = ""
  | _ => fun x => exists s, x = Status s /\ s < 400
  end (projT2 e).

Definition end_rule (h : History) (o : Outcome) : Prop :=
  o.1 ∈ resultOutcomes /\ (o.1 = OutcomeSucceeded -> exists h' e, h = h' ++ [e] /\ accepted_op e).

Lemma refused_rule h o d : o ∈ resultOutcomes -> o <> OutcomeSucceeded -> end_rule h (o, d).
Proof. intros Ho Hn. by split. Qed.
Ltac listed := apply (bool_decide_eq_true_1 (_ ∈ resultOutcomes)); reflexivity.
Ltac refuses := apply refused_rule; [listed|done].

Lemma pull_rule cmd self : cm_action cmd = ActionImagePull -> keeps_rule (op_rule self cmd) end_rule [] (pullImage (cm_reference cmd)).
Proof.
  intros Ha. unfold pullImage. destruct (ValidImageReference (cm_reference cmd)) eqn:Ev; simpl; [|refuses].
  destruct (SplitImageReference (cm_reference cmd)) as [name tag] eqn:Es. split.
  - split_and!; [done|done|done|case_bool_decide; done|]. exists tag. split; [done|]. case_bool_decide; auto.
  - intros [text late|s lines ended]; [destruct late; refuses|].
    destruct (_ || _); [refuses|]. destruct (s =? StatusNotFound); [refuses|]. destruct (s >=? 400) eqn:E4; [refuses|].
    unfold readPullStream. destruct ended; [refuses|]. destruct (bool_decide (pull_failure lines = "")) eqn:Hf; [|destruct (_ || _ || _); refuses].
    apply bool_decide_eq_true in Hf.
    split; [listed|]. intros _. exists [], (existT (PullOp name (if bool_decide (tag = "") then "latest" else tag)) (Progress s lines None)).
    split; [done|]. exists s, lines. split_and!; [done|lia|done].
Qed.

Lemma acted_end h e x : (forall s, x = Status s -> s < 400 -> accepted_op e) -> keeps_rule (fun _ _ => True) end_rule (h ++ [e]) (acted_on x).
Proof.
  intros Hx. unfold acted_on. simpl. destruct x as [text late|s]; [destruct late; refuses|].
  destruct (s =? StatusNotModified) eqn:E3; [|destruct (s >=? 400) eqn:E4; [refuses|]];
    (split; [listed|]; intros _; exists h, e; split; [done|]; apply (Hx s); [done|unfold StatusNotModified in *; lia]).
Qed.
Lemma deleted_end h e conflict missing x :
  (forall s, x = Status s -> s < 400 -> accepted_op e) -> keeps_rule (fun _ _ => True) end_rule (h ++ [e]) (deleted conflict missing x).
Proof.
  intros Hx. unfold deleted. simpl. destruct x as [text late|s]; [destruct late; refuses|].
  destruct (s =? StatusConflict); [refuses|]. destruct (s =? StatusNotFound); [refuses|]. destruct (s >=? 400) eqn:E4; [refuses|].
  split; [listed|]. intros _. exists h, e. split; [done|]. apply (Hx s); [done|lia].
Qed.

Ltac taken := let H := fresh in intros ? -> H; eexists; done.

Section Container.
Context (self : string) (cmd : Command) (c : OperateRead) (Hc : asked_of self cmd c).
Let h : History := [existT (ReadContainer (cm_container cmd)) (Read c)].

Lemma remove_rule : cm_action cmd = ActionRemove -> keeps_rule (op_rule self cmd) end_rule h (remove (cm_container cmd) (or_status c)).
Proof.
  intros Ha. unfold remove. case_bool_decide as Hs; [refuses|]. split; [by split_and!; [..|exists c]|].
  intros x. apply (deleted_end h). taken.
Qed.
Lemma start_rule : cm_action cmd = ActionStart -> keeps_rule (op_rule self cmd) end_rule h (Ask (StartOp (cm_container cmd)) acted_on).
Proof. intros Ha. split; [by split_and!; [..|exists c]|]. intros x. apply (acted_end h). taken. Qed.
Lemma stop_rule : cm_action cmd = ActionStop ->
  keeps_rule (op_rule self cmd) end_rule h (Ask (StopOp (cm_container cmd) (graceOf (or_stop_timeout c))) acted_on).
Proof. intros Ha. split; [by split_and!; [..|exists c]|]. intros x. apply (acted_end h). taken. Qed.
Lemma restart_rule : cm_action cmd = ActionRestart ->
  keeps_rule (op_rule self cmd) end_rule h (Ask (RestartOp (cm_container cmd) (graceOf (or_stop_timeout c))) acted_on).
Proof. intros Ha. split; [by split_and!; [..|exists c]|]. intros x. apply (acted_end h). taken. Qed.
Lemma graceful_rule grace p : keeps_rule (op_rule self cmd) end_rule h p -> keeps_rule (op_rule self cmd) end_rule h (graceful grace p).
Proof. intros Hp. unfold graceful. destruct (grace >? stopGrace); [|done]. intros [|]; [done|refuses]. Qed.

Lemma act_rule : keeps_rule (op_rule self cmd) end_rule h (act cmd c).
Proof.
  unfold act. case_bool_decide; [by apply remove_rule|]. case_bool_decide; [by apply start_rule|].
  case_bool_decide; [by apply graceful_rule, stop_rule|]. case_bool_decide; [by apply graceful_rule, restart_rule|refuses].
Qed.
End Container.

Lemma removeImage_rule self cmd : cm_action cmd = ActionImageRemove ->
  keeps_rule (op_rule self cmd) end_rule [] (removeImage (cm_reference cmd) (x_image (cm_expects cmd))).
Proof.
  intros Ha. unfold removeImage. destruct (ValidImageReference (cm_reference cmd)) eqn:Ev; simpl; [|refuses].
  case_bool_decide as Hw; [refuses|]. split; [done|]. intros [s text|id]; [case_match; refuses|].
  case_bool_decide as Hi; simpl; [|refuses]. subst id. split; [by split_and!|]. intros x.
  apply (deleted_end [existT (ReadImage (cm_reference cmd)) (Read (x_image (cm_expects cmd)))]). taken.
Qed.

Lemma Operate_rule self cmd : keeps_rule (op_rule self cmd) end_rule [] (Operate self cmd).
Proof.
  unfold Operate. case_bool_decide; [by apply pull_rule|]. case_bool_decide; [by apply removeImage_rule|].
  destruct (ValidContainerID (cm_container cmd)) eqn:Ev; simpl; [|refuses].
  split; [done|]. intros [s text|c]; [case_match; refuses|].
  destruct (negb _ && negb _) eqn:E1; [refuses|]. destruct (installerManaged (or_labels c)) eqn:E2; [refuses|].
  destruct (isSelf self (or_id c)) eqn:E3; [refuses|]. destruct (negb (bool_decide (x_state _ = "")) && negb _) eqn:E4; [refuses|].
  apply act_rule. rewrite andb_false_iff, !negb_false_iff, !bool_decide_eq_true in E1, E4. done.
Qed.

(** C24: an operation touches only what the operator decided about.  Whatever the daemon answers,
    the agent changes at most one thing for a command, with its last call: it starts, stops,
    restarts or removes the command's container right after a read showed it with the expected
    image and state, not the installer's and not the agent's own, with the container's own grace,
    and removes it only when it is not running; it removes an image only right after a read showed
    the reference still points at the image decided about; and it pulls one tag, never all.  The
    outcome is one the protocol knows, and success is reported only when the daemon accepted that
    call (a pull: when its progress ended without an error). *)
Theorem Operate_confined d self cmd o h :
  run_prog d [] (Operate self cmd) = (o, h) ->
  (forall h1 op x h2, h = h1 ++ existT op x :: h2 -> op_rule self cmd h1 op) /\ end_rule h o.
Proof.
  intros E. destruct (keeps_rule_run _ _ d _ _ (Operate_rule self cmd)) as (Ha & Hf & _). rewrite E in Ha, Hf. split; [|done].
  intros h1 op x h2 Eh. apply (Ha _ _ _ _ Eh). simpl. lia.
Qed.

(** A daemon whose container runs, and stops when asked. *)
Definition od_daemon : Daemon :=
  mkDaemon (fun _ op => match op return Reply op with
                        | ReadContainer id => Read (mkOperateRead ∅ (Some 30) (String.concat "" ["0123"; id]) "sha256:1" "running")
                        | ReadImage _ => Unread 404 ""
                        | PullOp _ _ => Progress 200 [] None
                        | _ => Status 204
                        end) (fun _ => true).
Definition od_cmd : Command := mkCmd "cmd-1" "host-1" zero_time ActionStop "web" "" (mkExpectation "sha256:1" "running" None).
Lemma Operate_confined_witness :
  (run_prog od_daemon [] (Operate "self" od_cmd)).1 = (OutcomeSucceeded, "") /\
  end_rule (run_prog od_daemon [] (Operate "self" od_cmd)).2 (OutcomeSucceeded, "").
Proof.
  split; [vm_compute; reflexivity|]. refine (proj2 (Operate_confined od_daemon "self" od_cmd _ _ _)). vm_compute. reflexivity.
Defined.
