(* ===== verification/Endpoints.v ===== *)
(** * Endpoints, their keys and their agents' reports

    internal/store/endpoints.go, agent_session.go and agent_rotation.go: how a host is enrolled,
    approved, rejected and revoked, which of its keys may authenticate, and how its reports move it
    between approved, active and offline.

    [Fleet] is the tables these statements read and write: [endpoints] with the rows of
    [endpoint_keys], [endpoint_capabilities] and [endpoint_inventory] that belong to each and the
    kinds of its unacknowledged [endpoint_events], and [agent_enrollment_tokens].  A definition is a
    transaction's body; the authority of the caller and the audit record are the wrapper's, which
    the tenant access component models for any body, so [org] is the organization the wrapper
    admitted.  Ed25519 and SHA-256 are parameters. *)
From Stdlib Require Import ZArith Lia Ascii String.
From stdpp Require Import base gmap sets strings list sorting.
From S2P Require Import Prelude.
From S2P Require Import Regex.
From S2P Require Import Grammar.
From S2P Require Import Text.
From S2P Require Import Json.
From S2P Require Import Inspection.
From S2P Require Import Frame.
From S2P Require Import Preimage.
From S2P Require Import Clamp.

(** ** Data *)

Inductive FleetErr : Set :=
| EndpointNotFound | EndpointForbidden | EndpointInvalid | EndpointExists | EndpointRuntime
| EndpointConstraint   (** the driver's UNIQUE or FOREIGN KEY error, returned as it is *)
| ErrKeyRetired | ErrKeyPendingReview | ErrRotationPending | ErrRotationBlocked.

Inductive KeyState : Set := KeyApproved | KeyPendingReview | KeyRetired.
Inductive EndpointState : Set := EPending | EApproved | EActive | EOffline | ERevoked.
#[export] Instance KeyState_eq_dec : EqDecision KeyState.
Proof. solve_decision. Defined.
#[export] Instance EndpointState_eq_dec : EqDecision EndpointState.
Proof. solve_decision. Defined.

Record KeyRow := mkKey { k_public : string; k_state : KeyState; k_created : time }.
Record Stored := mkStoredInventory { si_generation : Z; si_observed : time; si_received : time; si_snapshot : string }.
Record Ep := mkEp {
  e_org : string; e_env : string; e_name : string; e_runtime : string; e_state : EndpointState;
  e_facts : gmap string string; e_created : time; e_approved_by : string; e_seen : option time;
  e_namespaces : list string; e_generation : Z; e_keys : gmap string KeyRow;
  e_capabilities : gset string; e_inventory : option Stored; e_alerts : gset string }.
Record Token := mkToken {
  t_org : string; t_env : string; t_runtime : string; t_expires : time; t_consumed : bool;
  t_endpoint : string; t_image : string; t_namespaces : list string }.
Record Fleet := mkFleet { eps : gmap string Ep; enrollment : gmap string Token }.
Definition empty_fleet : Fleet := mkFleet ∅ ∅.

Definition enrollmentTokenLife : Z := 15 * Minute.
Definition pendingEndpointLife : Z := 24 * Hour.
Definition pendingKeyLife : Z := 7 * 24 * Hour.
Definition maxFactsBytes : Z := 4096.
Definition MaxDeployNamespaces : Z := 32.
Definition GenerationSkew : Z := Hour.
Definition MaxCapabilities : Z := 64.
Definition MaxCapabilityBytes : Z := 4096.
Definition factKeys : list string :=
  ["hostname"; "os"; "runtime_version"; "cpus"; "memory_bytes"; "runtime"; "server_version"; "node_count"; "platform"].
Definition validRuntime (r : string) : bool := bool_decide (r = "docker") || bool_decide (r = "kubernetes").

Definition with_eps (m : gmap string Ep) (f : Fleet) : Fleet := mkFleet m (enrollment f).
Definition with_state (s : EndpointState) (e : Ep) : Ep :=
  mkEp (e_org e) (e_env e) (e_name e) (e_runtime e) s (e_facts e) (e_created e) (e_approved_by e) (e_seen e)
    (e_namespaces e) (e_generation e) (e_keys e) (e_capabilities e) (e_inventory e) (e_alerts e).
Definition with_keys (k : gmap string KeyRow) (e : Ep) : Ep :=
  mkEp (e_org e) (e_env e) (e_name e) (e_runtime e) (e_state e) (e_facts e) (e_created e) (e_approved_by e) (e_seen e)
    (e_namespaces e) (e_generation e) k (e_capabilities e) (e_inventory e) (e_alerts e).
Definition with_alerts (a : gset string) (e : Ep) : Ep :=
  mkEp (e_org e) (e_env e) (e_name e) (e_runtime e) (e_state e) (e_facts e) (e_created e) (e_approved_by e) (e_seen e)
    (e_namespaces e) (e_generation e) (e_keys e) (e_capabilities e) (e_inventory e) a.
(** [inventory_generation=0] and no stored inventory. *)
Definition forget_inventory (e : Ep) : Ep :=
  mkEp (e_org e) (e_env e) (e_name e) (e_runtime e) (e_state e) (e_facts e) (e_created e) (e_approved_by e) (e_seen e)
    (e_namespaces e) 0 (e_keys e) (e_capabilities e) None (e_alerts e).

Definition set_key (s : KeyState) (k : KeyRow) : KeyRow := mkKey (k_public k) s (k_created k).
(** [UPDATE endpoint_keys SET state='retired' WHERE ...]. *)
Definition retire (which : string -> KeyRow -> bool) (keys : gmap string KeyRow) : gmap string KeyRow :=
  map_imap (fun fp k => Some (if which fp k then set_key KeyRetired k else k)) keys.
Definition in_review (k : KeyRow) : bool := bool_decide (k_state k = KeyPendingReview).

(** The endpoint an organization's statement reaches. *)
Definition ep_of (org id : string) (f : Fleet) : option Ep :=
  match eps f !! id with
  | Some e => if bool_decide (e_org e = org) then Some e else None
  | None => None
  end.

(** What [scanEndpoint] shows: a pending enrollment nobody reviewed in time is expired. *)
Definition expired (now : time) (e : Ep) : bool :=
  bool_decide (e_state e = EPending) && (now - e_created e >? pendingEndpointLife).

(** ** Enrollment *)

Fixpoint repeats (l : list string) : bool :=
  match l with
  | x :: ((y :: _) as l') => bool_decide (x = y) || repeats l'
  | _ => false
  end.
Definition str_le (a b : string) : Prop := String.leb a b = true.
#[export] Instance str_le_dec : RelDecision str_le.
Proof. intros a b. unfold str_le. apply _. Defined.

Definition NormalizeNamespaces (l : list string) : res FleetErr (list string) :=
  let out := merge_sort str_le l in
  refuse llen out >? MaxDeployNamespaces with EndpointInvalid ;;
  refuse negb (forallb (fun ns => ValidDNSLabel ns && negb (bool_decide (ns = "kyyard-agent")) && negb (HasPrefix ns "kube-")) out)
         || repeats out with EndpointInvalid ;;
  Ok out.

Section Crypto.
Context (Verify : string -> string -> string -> bool) (Sum256 EncodeToString : string -> string).

Definition fingerprint : string -> string := Fingerprint Sum256 EncodeToString.
Definition SHA256Hex (b : string) : string := EncodeToString (Sum256 b).

(** [hash] is the hash of the secret drawn. *)
Definition CreateEnrollmentToken (org env runtime image : string) (namespaces : list string) (hash : string) (now : time) (f : Fleet)
    : res FleetErr Fleet :=
  refuse bool_decide (env = "") || (negb (bool_decide (runtime = RuntimeKubernetes)) && negb (llen namespaces =? 0)) with EndpointInvalid ;;
  let! namespaces := NormalizeNamespaces namespaces ;;
  refuse negb (validRuntime runtime) with EndpointInvalid ;;
  refuse bool_decide (is_Some (enrollment f !! hash)) with EndpointConstraint ;;
  Ok (mkFleet (eps f) (<[hash := mkToken org env runtime (now + enrollmentTokenLife) false "" image namespaces]> (enrollment f))).

Record EnrollmentRequest := mkEnrollment {
  er_token : string; er_public : string; er_proof : string; er_name : string; er_facts : gmap string string }.

Definition enrollment_facts (facts : gmap string string) : gmap string string :=
  filter (fun kv : string * string => kv.1 ∈ factKeys) facts.

(** [id] is the identifier drawn. *)
Definition Enroll (req : EnrollmentRequest) (id : string) (now : time) (f : Fleet) : res FleetErr (Ep * Fleet) :=
  refuse negb (VerifyEnrollment Verify (er_public req) (er_token req) (er_proof req)) || negb (validTenantName (er_name req)) with EndpointForbidden ;;
  let facts := enrollment_facts (er_facts req) in
  refuse existsb (fun kv => negb (displaySafe kv.2)) (map_to_list facts) with EndpointForbidden ;;
  refuse len (json_map facts) >? maxFactsBytes with EndpointForbidden ;;
  match enrollment f !! SHA256Hex (er_token req) with
  | None => Fail EndpointForbidden
  | Some t =>
      refuse t_consumed t || negb (t_expires t >? now) with EndpointForbidden ;;
      let name := TrimSpace (er_name req) in
      refuse bool_decide (is_Some (eps f !! id))
             || existsb (fun kv => bool_decide (e_org kv.2 = t_org t) && bool_decide (e_name kv.2 = name)) (map_to_list (eps f)) with EndpointExists ;;
      let e := mkEp (t_org t) (t_env t) name (t_runtime t) EPending facts now "" None (t_namespaces t) 0
                 {[fingerprint (er_public req) := mkKey (er_public req) KeyPendingReview now]} ∅ None ∅ in
      let t' := mkToken (t_org t) (t_env t) (t_runtime t) (t_expires t) true id (t_image t) (t_namespaces t) in
      Ok (e, mkFleet (<[id := e]> (eps f)) (<[SHA256Hex (er_token req) := t']> (enrollment f)))
  end.

(** ** Review *)

Definition put (id : string) (e : Ep) (f : Fleet) : Fleet := with_eps (<[id := e]> (eps f)) f.

Definition ApproveEndpoint (org id fp approver : string) (now : time) (f : Fleet) : res FleetErr Fleet :=
  match ep_of org id f with
  | None => Fail EndpointNotFound
  | Some e =>
      refuse negb (bool_decide (e_state e = EPending)) with EndpointNotFound ;;
      refuse now - e_created e >? pendingEndpointLife with EndpointInvalid ;;
      match e_keys e !! fp with
      | Some k =>
          refuse negb (in_review k) with EndpointInvalid ;;
          let e := with_keys (<[fp := set_key KeyApproved k]> (e_keys e)) e in
          let e := mkEp (e_org e) (e_env e) (e_name e) (e_runtime e) EApproved (e_facts e) (e_created e) approver (e_seen e)
                     (e_namespaces e) (e_generation e) (e_keys e) (e_capabilities e) (e_inventory e) (e_alerts e) in
          Ok (put id (forget_inventory e) f)
      | None => Fail EndpointInvalid
      end
  end.

(** [terminate]: the one transition into the terminal state; keys retire with it. *)
Definition terminate (org id : string) (condition : EndpointState -> bool) (f : Fleet) : res FleetErr Fleet :=
  match ep_of org id f with
  | None => Fail EndpointNotFound
  | Some e =>
      refuse negb (condition (e_state e)) with EndpointNotFound ;;
      Ok (put id (forget_inventory (with_keys (retire (fun _ _ => true) (e_keys e)) (with_state ERevoked e))) f)
  end.
Definition RejectEndpoint (org id : string) : Fleet -> res FleetErr Fleet := terminate org id (fun s => bool_decide (s = EPending)).
Definition RevokeEndpoint (org id : string) : Fleet -> res FleetErr Fleet := terminate org id (fun s => negb (bool_decide (s = ERevoked))).

Definition RenameEndpoint (org id name : string) (f : Fleet) : res FleetErr Fleet :=
  refuse negb (validTenantName name) with EndpointInvalid ;;
  match ep_of org id f with
  | None => Fail EndpointNotFound
  | Some e =>
      refuse existsb (fun kv => negb (bool_decide (kv.1 = id)) && bool_decide (e_org kv.2 = org) && bool_decide (e_name kv.2 = TrimSpace name))
               (map_to_list (eps f)) with EndpointConstraint ;;
      Ok (put id (mkEp (e_org e) (e_env e) (TrimSpace name) (e_runtime e) (e_state e) (e_facts e) (e_created e) (e_approved_by e) (e_seen e)
            (e_namespaces e) (e_generation e) (e_keys e) (e_capabilities e) (e_inventory e) (e_alerts e)) f)
  end.

Definition SetEndpointDeployNamespaces (org env id : string) (namespaces : list string) (f : Fleet) : res FleetErr Fleet :=
  let! namespaces := NormalizeNamespaces namespaces ;;
  match ep_of org id f with
  | None => Fail EndpointNotFound
  | Some e =>
      refuse negb (bool_decide (env = "")) && negb (bool_decide (e_env e = env)) with EndpointNotFound ;;
      refuse negb (bool_decide (e_runtime e = RuntimeKubernetes)) with EndpointRuntime ;;
      Ok (put id (mkEp (e_org e) (e_env e) (e_name e) (e_runtime e) (e_state e) (e_facts e) (e_created e) (e_approved_by e) (e_seen e)
            namespaces (e_generation e) (e_keys e) (e_capabilities e) (e_inventory e) (e_alerts e)) f)
  end.

(** ** Sessions *)

(** [AgentIdentity]: the public key that may authenticate. *)
Definition AgentIdentity (id fp : string) (now : time) (f : Fleet) : res FleetErr string :=
  match eps f !! id with
  | None => Fail EndpointNotFound
  | Some e =>
      refuse bool_decide (e_state e = ERevoked) || expired now e with EndpointForbidden ;;
      match e_keys e !! fp with
      | None => Fail EndpointForbidden
      | Some k =>
          match k_state k with
          | KeyApproved => Ok (k_public k)
          | KeyPendingReview =>
              if bool_decide (e_state e = EPending) then Ok (k_public k)
              else if now - k_created k <=? pendingKeyLife then Fail ErrKeyPendingReview else Fail ErrKeyRetired
          | KeyRetired => Fail ErrKeyRetired
          end
      end
  end.

Definition serving (s : EndpointState) : bool := bool_decide (s ∈ [EApproved; EActive; EOffline]).

(** [AcceptInventory]; the size of the snapshot is checked by the caller's reader too. *)
Definition AcceptInventory (id : string) (generation : Z) (observed : time) (snapshot : string) (now : time) (f : Fleet)
    : res FleetErr (bool * Fleet) :=
  refuse len snapshot >? MaxSnapshotBytes with EndpointInvalid ;;
  if generation >? (now + GenerationSkew) / Second then Ok (false, f)
  else match eps f !! id with
  | None => Ok (false, f)
  | Some e =>
      if serving (e_state e) && (e_generation e <? generation) then
        Ok (true, put id (mkEp (e_org e) (e_env e) (e_name e) (e_runtime e) EActive (e_facts e) (e_created e) (e_approved_by e) (Some now)
             (e_namespaces e) generation (e_keys e) (e_capabilities e)
             (if bool_decide (snapshot = "") then e_inventory e else Some (mkStoredInventory generation observed now snapshot)) (e_alerts e)) f)
      else Ok (false, f)
  end.

Definition MarkEndpointOffline (id : string) (f : Fleet) : Fleet :=
  match eps f !! id with
  | Some e => if bool_decide (e_state e = EActive) then put id (with_state EOffline e) f else f
  | None => f
  end.
Definition TouchEndpoint (id : string) (now : time) (f : Fleet) : Fleet :=
  match eps f !! id with
  | Some e => put id (mkEp (e_org e) (e_env e) (e_name e) (e_runtime e) (e_state e) (e_facts e) (e_created e) (e_approved_by e) (Some now)
                (e_namespaces e) (e_generation e) (e_keys e) (e_capabilities e) (e_inventory e) (e_alerts e)) f
  | None => f
  end.

Definition SetEndpointCapabilities (id : string) (capabilities : list string) (f : Fleet) : res FleetErr Fleet :=
  refuse (llen capabilities >? MaxCapabilities) || (foldr Z.add 0 (map len capabilities) >? MaxCapabilityBytes) with EndpointInvalid ;;
  refuse negb (forallb (fun c => displaySafe c && negb (bool_decide (c = ""))) capabilities) with EndpointInvalid ;;
  match eps f !! id with
  | None => if llen capabilities =? 0 then Ok f else Fail EndpointConstraint
  | Some e =>
      refuse negb (bool_decide (NoDup capabilities)) with EndpointConstraint ;;
      Ok (put id (mkEp (e_org e) (e_env e) (e_name e) (e_runtime e) (e_state e) (e_facts e) (e_created e) (e_approved_by e) (e_seen e)
            (e_namespaces e) (e_generation e) (e_keys e) (list_to_set capabilities) (e_inventory e) (e_alerts e)) f)
  end.

(** ** Rotation *)

Definition duplicate_connection : string := "duplicate_connection".
Definition rotation_pending : string := "rotation_pending".

Definition approved_key (keys : gmap string KeyRow) : option (string * KeyRow) :=
  head (List.filter (fun kv => bool_decide (k_state kv.2 = KeyApproved)) (map_to_list keys)).
Definition under_review (now : time) (keys : gmap string KeyRow) : bool :=
  existsb (fun kv => in_review kv.2 && (k_created kv.2 >? now - pendingKeyLife)) (map_to_list keys).

Definition RotateEndpointKey (id public signature : string) (now : time) (f : Fleet) : res FleetErr (string * Fleet) :=
  refuse negb (len public =? 32) with EndpointInvalid ;;
  match eps f !! id with
  | None => Fail EndpointForbidden
  | Some e =>
      refuse bool_decide (e_state e ∈ [EPending; ERevoked]) with EndpointForbidden ;;
      match approved_key (e_keys e) with
      | None => Fail EndpointForbidden
      | Some (_, current) =>
          refuse negb (VerifyRotation Verify (k_public current) (Sum256 (k_public current)) public signature) with EndpointForbidden ;;
          refuse bool_decide (duplicate_connection ∈ e_alerts e) with ErrRotationBlocked ;;
          refuse under_review now (e_keys e) with ErrRotationPending ;;
          let keys := retire (fun _ k => in_review k) (e_keys e) in
          let fp := fingerprint public in
          refuse bool_decide (is_Some (keys !! fp)) with EndpointExists ;;
          Ok (fp, put id (with_alerts ({[rotation_pending]} ∪ e_alerts e) (with_keys (<[fp := mkKey public KeyPendingReview now]> keys) e)) f)
      end
  end.

Definition AcknowledgeEndpointKey (org id fp : string) (now : time) (f : Fleet) : res FleetErr Fleet :=
  match ep_of org id f with
  | None => Fail EndpointInvalid
  | Some e =>
      match e_keys e !! fp with
      | None => Fail EndpointInvalid
      | Some k =>
          refuse negb (in_review k && (k_created k >? now - pendingKeyLife) && serving (e_state e)) with EndpointInvalid ;;
          let keys := retire (fun fp' _ => negb (bool_decide (fp' = fp))) (<[fp := set_key KeyApproved k]> (e_keys e)) in
          Ok (put id (with_alerts (e_alerts e ∖ {[rotation_pending]}) (with_keys keys e)) f)
      end
  end.

(** One unacknowledged event of a kind stands at a time. *)
Definition RecordEndpointEvent (id severity kind details : string) (f : Fleet) : res FleetErr Fleet :=
  refuse negb (displaySafe kind) || negb (displaySafe details) || (negb (bool_decide (severity = "info")) && negb (bool_decide (severity = "high")))
    with EndpointInvalid ;;
  match eps f !! id with
  | None => Fail EndpointConstraint
  | Some e => Ok (put id (with_alerts ({[kind]} ∪ e_alerts e) e) f)
  end.
Definition AcknowledgeEndpointEvent (org id kind : string) (f : Fleet) : res FleetErr Fleet :=
  match ep_of org id f with
  | None => Fail EndpointNotFound
  | Some e =>
      refuse negb (bool_decide (kind ∈ e_alerts e)) with EndpointNotFound ;;
      Ok (put id (with_alerts (e_alerts e ∖ {[kind]}) e) f)
  end.

(** ** Steps *)

Inductive fleet_event := Reviewed (id fp : string) | Revoked (id : string).

(** What the statements above do to the tables, whoever calls them and in whatever order. *)
Inductive fleet_step : Fleet -> list fleet_event -> Fleet -> Prop :=
| fleet_token org env runtime image namespaces hash now f f' :
    CreateEnrollmentToken org env runtime image namespaces hash now f = Ok f' -> fleet_step f [] f'
| fleet_enroll req id now e f f' : Enroll req id now f = Ok (e, f') -> fleet_step f [] f'
| fleet_approve org id fp approver now f f' : ApproveEndpoint org id fp approver now f = Ok f' -> fleet_step f [Reviewed id fp] f'
| fleet_reject org id f f' : RejectEndpoint org id f = Ok f' -> fleet_step f [Revoked id] f'
| fleet_revoke org id f f' : RevokeEndpoint org id f = Ok f' -> fleet_step f [Revoked id] f'
| fleet_rename org id name f f' : RenameEndpoint org id name f = Ok f' -> fleet_step f [] f'
| fleet_namespaces org env id namespaces f f' : SetEndpointDeployNamespaces org env id namespaces f = Ok f' -> fleet_step f [] f'
| fleet_inventory id generation observed snapshot now b f f' :
    AcceptInventory id generation observed snapshot now f = Ok (b, f') -> fleet_step f [] f'
| fleet_offline id f : fleet_step f [] (MarkEndpointOffline id f)
| fleet_touch id now f : fleet_step f [] (TouchEndpoint id now f)
| fleet_capabilities id capabilities f f' : SetEndpointCapabilities id capabilities f = Ok f' -> fleet_step f [] f'
| fleet_rotate id public signature now fp f f' : RotateEndpointKey id public signature now f = Ok (fp, f') -> fleet_step f [] f'
| fleet_acknowledge org id fp now f f' : AcknowledgeEndpointKey org id fp now f = Ok f' -> fleet_step f [Reviewed id fp] f'
| fleet_event_raised id severity kind details f f' : RecordEndpointEvent id severity kind details f = Ok f' -> fleet_step f [] f'
| fleet_event_seen org id kind f f' : AcknowledgeEndpointEvent org id kind f = Ok f' -> fleet_step f [] f'.

Inductive fleet_steps : Fleet -> list fleet_event -> Fleet -> Prop :=
| fleet_nil f : fleet_steps f [] f
| fleet_cons f es f1 fs f2 : fleet_step f es f1 -> fleet_steps f1 fs f2 -> fleet_steps f (es ++ fs) f2.

(** ** The rules of the key table *)

Definition approved_in (keys : gmap string KeyRow) (fp : string) : Prop := exists k, keys !! fp = Some k /\ k_state k = KeyApproved.
Definition reviewed_in (keys : gmap string KeyRow) (fp : string) : Prop := exists k, keys !! fp = Some k /\ k_state k = KeyPendingReview.

Definition keys_fit (s : EndpointState) (keys : gmap string KeyRow) : Prop :=
  match s with
  | EPending => exists fp k, keys = {[fp := k]} /\ k_state k = KeyPendingReview
  | ERevoked => map_Forall (fun _ k => k_state k = KeyRetired) keys
  | _ => exists fp, approved_in keys fp /\ (forall fp', approved_in keys fp' -> fp' = fp) /\
           (forall fp1 fp2, reviewed_in keys fp1 -> reviewed_in keys fp2 -> fp1 = fp2)
  end.
Record EpOk (e : Ep) : Prop := {
  eo_keys : keys_fit (e_state e) (e_keys e);
  eo_names : map_Forall (fun fp k => fp = fingerprint (k_public k)) (e_keys e);
  eo_inventory : match e_inventory e with Some i => si_generation i <= e_generation e | None => True end }.
Definition FleetOk (f : Fleet) : Prop := map_Forall (fun _ e => EpOk e) (eps f).

Lemma retire_lookup which keys fp : retire which keys !! fp = (fun k => if which fp k then set_key KeyRetired k else k) <$> keys !! fp.
Proof. unfold retire. rewrite map_lookup_imap. by destruct (keys !! fp). Qed.

Lemma retire_names which keys : map_Forall (fun fp k => fp = fingerprint (k_public k)) keys ->
  map_Forall (fun fp k => fp = fingerprint (k_public k)) (retire which keys).
Proof.
  intros H fp k. rewrite retire_lookup. intros (k0 & Hk & ->)%fmap_Some. specialize (H _ _ Hk). by destruct (which fp k0).
Qed.

Lemma put_ok id e f : FleetOk f -> EpOk e -> FleetOk (put id e f).
Proof. intros Hf He. by apply map_Forall_insert_2. Qed.
Lemma ep_of_some org id f e : ep_of org id f = Some e -> eps f !! id = Some e.
Proof. unfold ep_of. destruct (eps f !! id) as [e'|]; [|done]. by case_bool_decide; [intros [= <-]|]. Qed.

(** An operation that keeps the state and the keys of its endpoint. *)
Lemma same_keys_ok e e' : EpOk e -> e_state e' = e_state e -> e_keys e' = e_keys e ->
  (e_inventory e' = e_inventory e /\ e_generation e <= e_generation e' \/ e_inventory e' = None) -> EpOk e'.
Proof.
  intros [H1 H2 H3] Es Ek Hi. constructor; rewrite ?Es, ?Ek; [done|done|].
  destruct Hi as [[-> ?]| ->]; [|done]. destruct (e_inventory e); [lia|done].
Qed.

Lemma enrolled_ok req id now e f f' : Enroll req id now f = Ok (e, f') -> FleetOk f -> FleetOk f'.
Proof.
  unfold Enroll. intros H Hf. refusals H. destruct (enrollment f !! _) as [t|]; [|done]. refusals H. injection H as <- <-.
  apply map_Forall_insert_2; [|done]. constructor; simpl; [by eexists _, _|by apply map_Forall_singleton|done].
Qed.

Lemma approve_keys fp k keys : keys_fit EPending keys -> keys !! fp = Some k -> keys_fit EApproved (<[fp := set_key KeyApproved k]> keys).
Proof.
  intros (fp0 & k0 & -> & Hs) Hk. apply lookup_singleton_Some in Hk as [<- <-]. rewrite insert_singleton_eq. exists fp0. split_and!.
  - exists (set_key KeyApproved k0). by rewrite lookup_singleton_eq.
  - intros fp' (k' & Hk' & _). by apply lookup_singleton_Some in Hk' as [? _].
  - intros fp1 fp2 (k1 & Hk1 & Hs1). apply lookup_singleton_Some in Hk1 as [_ <-]. done.
Qed.
Lemma approved_ok org id fp approver now f f' : ApproveEndpoint org id fp approver now f = Ok f' -> FleetOk f -> FleetOk f'.
Proof.
  unfold ApproveEndpoint. intros H Hf. destruct (ep_of org id f) as [e|] eqn:Ee; [|done]. refusals H.
  destruct (e_keys e !! fp) as [k|] eqn:Ek; [|done]. refusals H. injection H as <-.
  apply negb_false_iff, bool_decide_eq_true in Hg. pose proof (Hf _ _ (ep_of_some _ _ _ _ Ee)) as [H1 H2 H3]. rewrite Hg in H1.
  apply put_ok; [done|]. constructor; simpl; [by apply approve_keys| |done].
  apply map_Forall_insert_2; [exact (H2 _ _ Ek)|done].
Qed.
Lemma terminated_ok org id c f f' : terminate org id c f = Ok f' -> FleetOk f -> FleetOk f'.
Proof.
  unfold terminate. intros H Hf. destruct (ep_of org id f) as [e|] eqn:Ee; [|done]. refusals H. injection H as <-.
  pose proof (Hf _ _ (ep_of_some _ _ _ _ Ee)) as [H1 H2 H3]. apply put_ok; [done|]. constructor; simpl; [|by apply retire_names|done].
  intros fp k. rewrite retire_lookup. by intros (k0 & _ & ->)%fmap_Some.
Qed.

Lemma serving_keys s keys : s <> EPending -> s <> ERevoked -> keys_fit s keys = keys_fit EActive keys.
Proof. by destruct s. Qed.

Lemma rotated_keys keys fp public now : keys_fit EActive keys -> keys !! fp = None ->
  keys_fit EActive (<[fp := mkKey public KeyPendingReview now]> (retire (fun _ k => in_review k) keys)).
Proof.
  intros (a & (k & Hk & Hs) & Ha & _) Hfp. exists a. split_and!.
  - exists k. rewrite lookup_insert_ne by congruence. rewrite retire_lookup, Hk. simpl. unfold in_review. rewrite bool_decide_false by congruence. done.
  - intros fp' (k' & Hk' & Hs'). apply lookup_insert_Some in Hk' as [[_ <-]|[Hne Hk']]; [done|].
    rewrite retire_lookup in Hk'. apply fmap_Some in Hk' as (k0 & Hk0 & ->). apply Ha. exists k0. by destruct (in_review k0).
  - assert (forall g, reviewed_in (<[fp := mkKey public KeyPendingReview now]> (retire (fun _ k => in_review k) keys)) g -> g = fp) as Hg.
    { intros g (k' & Hk' & Hs'). apply lookup_insert_Some in Hk' as [[<- _]|[Hne Hk']]; [done|].
      rewrite retire_lookup in Hk'. apply fmap_Some in Hk' as (k0 & Hk0 & ->). unfold in_review in Hs'. by case_bool_decide. }
    intros fp1 fp2 H1 H2. by rewrite (Hg _ H1), (Hg _ H2).
Qed.
Lemma rotate_ok id public signature now fp f f' : RotateEndpointKey id public signature now f = Ok (fp, f') -> FleetOk f -> FleetOk f'.
Proof.
  unfold RotateEndpointKey. intros H Hf. refusals H. destruct (eps f !! id) as [e|] eqn:Ee; [|done]. refusals H.
  destruct (approved_key (e_keys e)) as [[? current]|]; [|done]. refusals H. injection H as <- <-.
  pose proof (Hf _ _ Ee) as [H1 H2 H3]. apply bool_decide_eq_false in Hg0. rewrite not_elem_of_cons, not_elem_of_cons in Hg0.
  apply put_ok; [done|]. constructor; simpl; [rewrite serving_keys in * by tauto|apply map_Forall_insert_2; [done|by apply retire_names]|done].
  apply rotated_keys; [done|]. match goal with H : bool_decide (is_Some _) = false |- _ => apply bool_decide_eq_false in H; rename H into Hn end.
  destruct (e_keys e !! _) as [k|] eqn:Ek; [|done]. destruct Hn. rewrite retire_lookup, Ek. simpl. eauto.
Qed.

Lemma acknowledged_keys keys fp k : keys !! fp = Some k ->
  keys_fit EActive (retire (fun fp' _ => negb (bool_decide (fp' = fp))) (<[fp := set_key KeyApproved k]> keys)).
Proof.
  intros Hk. set (keys' := retire _ _).
  assert (forall g k', keys' !! g = Some k' -> k_state k' <> KeyRetired -> g = fp /\ k_state k' = KeyApproved) as Hg.
  { intros g k' Hk' Hs. unfold keys' in Hk'. rewrite retire_lookup in Hk'. apply fmap_Some in Hk' as (k0 & Hk0 & ->).
    case_bool_decide as Eg; [|done]. subst g. rewrite lookup_insert_eq in Hk0. injection Hk0 as <-. done. }
  exists fp. split_and!.
  - exists (set_key KeyApproved k). unfold keys'. rewrite retire_lookup, lookup_insert_eq. simpl. by rewrite bool_decide_true.
  - intros g (k' & Hk' & Hs). apply (Hg _ _ Hk'). congruence.
  - intros g1 g2 (k1 & Hk1 & Hs1) _. destruct (Hg _ _ Hk1) as [_ ?]; congruence.
Qed.
Lemma acknowledge_ok org id fp now f f' : AcknowledgeEndpointKey org id fp now f = Ok f' -> FleetOk f -> FleetOk f'.
Proof.
  unfold AcknowledgeEndpointKey. intros H Hf. destruct (ep_of org id f) as [e|] eqn:Ee; [|done].
  destruct (e_keys e !! fp) as [k|] eqn:Ek; [|done]. refusals H. injection H as <-.
  pose proof (Hf _ _ (ep_of_some _ _ _ _ Ee)) as [H1 H2 H3]. apply negb_false_iff, andb_true_iff in Hg as [_ Hs].
  apply bool_decide_eq_true in Hs. apply put_ok; [done|]. constructor; simpl; [|apply retire_names, map_Forall_insert_2; [exact (H2 _ _ Ek)|done]|done].
  assert (e_state e <> EPending /\ e_state e <> ERevoked) as [? ?] by (split; intros E; rewrite E in Hs; set_solver).
  rewrite serving_keys by done. by apply acknowledged_keys.
Qed.

Lemma same_ok id e e' f : FleetOk f -> eps f !! id = Some e -> e_state e' = e_state e -> e_keys e' = e_keys e ->
  e_inventory e' = e_inventory e -> e_generation e' = e_generation e -> FleetOk (put id e' f).
Proof. intros Hf He ????. apply put_ok; [done|]. eapply same_keys_ok; [by eapply Hf|done|done|]. left. split; [done|lia]. Qed.

Lemma inventory_ok id generation observed snapshot now b f f' :
  AcceptInventory id generation observed snapshot now f = Ok (b, f') -> FleetOk f -> FleetOk f'.
Proof.
  unfold AcceptInventory. intros H Hf. refusals H. destruct (generation >? _); [by injection H as <- <-|].
  destruct (eps f !! id) as [e|] eqn:Ee; [|by injection H as <- <-]. destruct (serving _ && _) eqn:Es; [|by injection H as <- <-].
  injection H as <- <-. apply andb_true_iff in Es as [Es Hl]. apply Z.ltb_lt in Hl. unfold serving in Es. apply bool_decide_eq_true in Es.
  destruct (Hf _ _ Ee) as [H1 H2 H3]. apply put_ok; [done|]. constructor; simpl; [|done|].
  - assert (e_state e <> EPending /\ e_state e <> ERevoked) as [? ?] by (split; intros E; rewrite E in Es; set_solver). by rewrite serving_keys in H1.
  - case_bool_decide; [|simpl; lia]. destruct (e_inventory e); [lia|done].
Qed.

Lemma fleet_step_ok f es f' : fleet_step f es f' -> FleetOk f -> FleetOk f'.
Proof.
  intros Hs Hf. destruct Hs.
  - unfold CreateEnrollmentToken in H. refusals H. by injection H as <-.
  - by eapply enrolled_ok.
  - by eapply approved_ok.
  - by eapply terminated_ok.
  - by eapply terminated_ok.
  - unfold RenameEndpoint in H. refusals H. destruct (ep_of org id f) as [e|] eqn:Ee; [|done]. refusals H. injection H as <-.
    by eapply same_ok; [done|by eapply ep_of_some|..].
  - unfold SetEndpointDeployNamespaces in H. refusals H. destruct (ep_of org id f) as [e|] eqn:Ee; [|done]. refusals H. injection H as <-.
    by eapply same_ok; [done|by eapply ep_of_some|..].
  - by eapply inventory_ok.
  - unfold MarkEndpointOffline. destruct (eps f !! id) as [e|] eqn:Ee; [|done]. case_bool_decide as Hst; [|done].
    destruct (Hf _ _ Ee) as [H1 H2 H3]. rewrite Hst in H1. apply put_ok; [done|]. by constructor.
  - unfold TouchEndpoint. destruct (eps f !! id) as [e|] eqn:Ee; [|done]. by eapply same_ok.
  - unfold SetEndpointCapabilities in H. refusals H. destruct (eps f !! id) as [e|] eqn:Ee; [|destruct (_ =? _); [by injection H as <-|done]].
    refusals H. injection H as <-. by eapply same_ok.
  - by eapply rotate_ok.
  - by eapply acknowledge_ok.
  - unfold RecordEndpointEvent in H. refusals H. destruct (eps f !! id) as [e|] eqn:Ee; [|done]. injection H as <-. by eapply same_ok.
  - unfold AcknowledgeEndpointEvent in H. destruct (ep_of org id f) as [e|] eqn:Ee; [|done]. refusals H. injection H as <-.
    by eapply same_ok; [done|by eapply ep_of_some|..].
Qed.

(** ** Who decides *)

(** How a step moves one endpoint: revocation is final, and a key is approved only by a review
    that names it. *)
Definition moves (id : string) (es : list fleet_event) (o o' : option Ep) : Prop :=
  match o, o' with
  | Some e, Some e' =>
      (e_state e = ERevoked \/ Revoked id ∈ es -> e_state e' = ERevoked) /\
      (forall fp, approved_in (e_keys e') fp -> approved_in (e_keys e) fp \/ Reviewed id fp ∈ es)
  | None, Some e' => Revoked id ∉ es /\ forall fp, ~ approved_in (e_keys e') fp
  | None, None => Revoked id ∉ es
  | Some _, None => False
  end.

Lemma moves_same id es o : (forall x, Reviewed id x ∉ es) -> Revoked id ∉ es -> moves id es o o.
Proof. intros H1 H2. destruct o as [e|]; [|done]. split; [tauto|auto]. Qed.

Lemma put_moves es id e e' f g : eps f !! id = Some e -> Forall (fun ev => match ev with Reviewed i _ | Revoked i => i = id end) es ->
  moves id es (Some e) (Some e') -> moves g es (eps f !! g) (eps (put id e' f) !! g).
Proof.
  intros He Hes Hm. simpl. destruct (decide (g = id)) as [->|Hne]; [by rewrite lookup_insert_eq, He|].
  rewrite lookup_insert_ne by done. rewrite Forall_forall in Hes.
  apply moves_same; [intros x Hx|intros Hx]; apply Hes in Hx; simpl in Hx; congruence.
Qed.
Lemma moves_keys id e e' : e_state e' = e_state e -> e_keys e' = e_keys e -> moves id [] (Some e) (Some e').
Proof. intros Es Ek. split; [rewrite Es|rewrite Ek]; set_solver. Qed.

Lemma retired_not_approved which keys fp : approved_in (retire which keys) fp -> approved_in keys fp.
Proof.
  intros (k & Hk & Hs). rewrite retire_lookup in Hk. apply fmap_Some in Hk as (k0 & Hk0 & ->). exists k0. by destruct (which fp k0).
Qed.
Lemma approved_insert keys fp k g : approved_in (<[fp := k]> keys) g -> approved_in keys g \/ g = fp /\ k_state k = KeyApproved.
Proof. intros (k' & Hk' & Hs). apply lookup_insert_Some in Hk' as [[<- <-]|[Hne Hk']]; [by right|left; by exists k']. Qed.

Ltac moved := eapply put_moves; [done|by repeat constructor|].

Lemma step_moves f es f' g : fleet_step f es f' -> moves g es (eps f !! g) (eps f' !! g).
Proof.
  intros Hs. destruct Hs.
  - unfold CreateEnrollmentToken in H. refusals H. injection H as <-. apply moves_same; set_solver.
  - unfold Enroll in H. refusals H. destruct (enrollment f !! _) as [t|]; [|done]. refusals H. injection H as <- <-. simpl.
    match goal with H : bool_decide (is_Some (eps f !! id)) || _ = false |- _ => apply orb_false_iff in H as [Hn _]; apply bool_decide_eq_false in Hn end.
    destruct (decide (g = id)) as [->|Hne]; [|rewrite lookup_insert_ne by done; apply moves_same; set_solver].
    destruct (eps f !! id) eqn:E; [destruct Hn; eauto|]. rewrite lookup_insert_eq. simpl. split; [set_solver|].
    intros fp (k & Hk & Hst). apply lookup_singleton_Some in Hk as [_ <-]. done.
  - unfold ApproveEndpoint in H. destruct (ep_of org id f) as [e|] eqn:Ee; [|done]. refusals H. destruct (e_keys e !! fp) as [k|] eqn:Ek; [|done].
    refusals H. injection H as <-. apply ep_of_some in Ee. moved. apply negb_false_iff, bool_decide_eq_true in Hg. split; [rewrite Hg; set_solver|].
    simpl. intros x Hx. apply approved_insert in Hx as [?|[-> _]]; [by left|right; left].
  - unfold RejectEndpoint, terminate in H. destruct (ep_of org id f) as [e|] eqn:Ee; [|done]. refusals H. injection H as <-. apply ep_of_some in Ee.
    moved. split; [done|]. simpl. intros fp Hx. left. by eapply retired_not_approved.
  - unfold RevokeEndpoint, terminate in H. destruct (ep_of org id f) as [e|] eqn:Ee; [|done]. refusals H. injection H as <-. apply ep_of_some in Ee.
    moved. split; [done|]. simpl. intros fp Hx. left. by eapply retired_not_approved.
  - unfold RenameEndpoint in H. refusals H. destruct (ep_of org id f) as [e|] eqn:Ee; [|done]. refusals H. injection H as <-. apply ep_of_some in Ee.
    moved. by apply moves_keys.
  - unfold SetEndpointDeployNamespaces in H. refusals H. destruct (ep_of org id f) as [e|] eqn:Ee; [|done]. refusals H. injection H as <-.
    apply ep_of_some in Ee. moved. by apply moves_keys.
  - unfold AcceptInventory in H. refusals H. destruct (generation >? _); [injection H as <- <-; apply moves_same; set_solver|].
    destruct (eps f !! id) as [e|] eqn:Ee; [|injection H as <- <-; apply moves_same; set_solver].
    destruct (serving _ && _) eqn:Es; [|injection H as <- <-; apply moves_same; set_solver]. injection H as <- <-. moved. split; [|auto].
    apply andb_true_iff in Es as [Es _]. apply bool_decide_eq_true in Es. intros [E|?]; [rewrite E in Es; set_solver|set_solver].
  - unfold MarkEndpointOffline. destruct (eps f !! id) as [e|] eqn:Ee; [|apply moves_same; set_solver].
    case_bool_decide as Hst; [|apply moves_same; set_solver]. moved. split; [|auto]. rewrite Hst. set_solver.
  - unfold TouchEndpoint. destruct (eps f !! id) as [e|] eqn:Ee; [|apply moves_same; set_solver]. moved. by apply moves_keys.
  - unfold SetEndpointCapabilities in H. refusals H. destruct (eps f !! id) as [e|] eqn:Ee;
      [|destruct (llen capabilities =? 0); [injection H as <-; apply moves_same; set_solver|done]].
    refusals H. injection H as <-. moved. by apply moves_keys.
  - unfold RotateEndpointKey in H. refusals H. destruct (eps f !! id) as [e|] eqn:Ee; [|done]. refusals H.
    destruct (approved_key (e_keys e)) as [[? current]|]; [|done]. refusals H. injection H as <- <-. moved. split; [set_solver|]. simpl.
    intros x Hx. left. apply approved_insert in Hx as [?|[_ ?]]; [by eapply retired_not_approved|done].
  - unfold AcknowledgeEndpointKey in H. destruct (ep_of org id f) as [e|] eqn:Ee; [|done]. destruct (e_keys e !! fp) as [k|] eqn:Ek; [|done].
    refusals H. injection H as <-. apply ep_of_some in Ee. moved. apply negb_false_iff, andb_true_iff in Hg as [_ Hs]. apply bool_decide_eq_true in Hs.
    split; [intros [E|?]; [rewrite E in Hs; set_solver|set_solver]|]. simpl. intros x Hx. apply retired_not_approved in Hx.
    apply approved_insert in Hx as [?|[-> _]]; [by left|right; left].
  - unfold RecordEndpointEvent in H. refusals H. destruct (eps f !! id) as [e|] eqn:Ee; [|done]. injection H as <-. moved. by apply moves_keys.
  - unfold AcknowledgeEndpointEvent in H. destruct (ep_of org id f) as [e|] eqn:Ee; [|done]. refusals H. injection H as <-. apply ep_of_some in Ee.
    moved. by apply moves_keys.
Qed.

Definition trusted (es : list fleet_event) (f : Fleet) : Prop :=
  forall id, match eps f !! id with
             | Some e => (Revoked id ∈ es -> e_state e = ERevoked) /\ forall fp, approved_in (e_keys e) fp -> Reviewed id fp ∈ es
             | None => Revoked id ∉ es
             end.

Lemma trusted_step es f gs f' : trusted es f -> fleet_step f gs f' -> trusted (es ++ gs) f'.
Proof.
  intros Ht Hs id. specialize (Ht id). pose proof (step_moves _ _ _ id Hs) as Hm. unfold moves in Hm.
  destruct (eps f !! id) as [e|], (eps f' !! id) as [e'|]; try done.
  - destruct Ht as [H1 H2], Hm as [H3 H4]. split; [intros [?|?]%elem_of_app; apply H3; auto|].
    intros fp Hfp. destruct (H4 _ Hfp) as [?|?]; set_solver.
  - destruct Hm as [H3 H4]. split; [set_solver|]. intros fp Hfp. by destruct (H4 fp).
  - set_solver.
Qed.
Lemma trusted_steps es f gs f' : fleet_steps f gs f' -> trusted es f -> trusted (es ++ gs) f'.
Proof.
  intros Hs. revert es. induction Hs as [|f gs f1 hs f2 H1 H2 IH]; intros es Ht; [by rewrite app_nil_r|].
  rewrite app_assoc. apply IH. by eapply trusted_step.
Qed.
Lemma fleet_steps_ok f es f' : fleet_steps f es f' -> FleetOk f -> FleetOk f'.
Proof. induction 1; eauto using fleet_step_ok. Qed.

(** C21: however enrollments, reviews, rotations, reports and revocations interleave, every
    endpoint's keys fit its state: a pending one has the single key under review, a serving one
    exactly one approved key and at most one under review, a revoked one none but retired keys; a
    key is filed under its own fingerprint, and the stored report is never newer than the
    generation on record. *)
Theorem fleet_invariant es f : fleet_steps empty_fleet es f -> map_Forall (fun _ e => EpOk e) (eps f).
Proof. intros Hs. apply (fleet_steps_ok _ _ _ Hs), map_Forall_empty. Qed.

End Crypto.

(** ** A host enrolled, approved and reporting *)

Definition fl_token : string := "0123456789abcdef0123456789abcdef".
Definition fl_verify (_ _ _ : string) : bool := true.
Definition fl_request : EnrollmentRequest :=
  mkEnrollment fl_token fl_token (fl_token +:+ fl_token) "host-1" {["os" := "linux"]}.
Definition fl_minted : Fleet :=
  mkFleet ∅ {[fl_token := mkToken "org" "env" "docker" (10 * Minute + enrollmentTokenLife) false "" "" []]}.
Definition fl_endpoint : Ep :=
  mkEp "org" "env" "host-1" "docker" EPending {["os" := "linux"]} (11 * Minute) "" None [] 0
    {[fl_token := mkKey fl_token KeyPendingReview (11 * Minute)]} ∅ None ∅.
Definition fl_enrolled : Fleet :=
  mkFleet {["ep_1" := fl_endpoint]} {[fl_token := mkToken "org" "env" "docker" (10 * Minute + enrollmentTokenLife) true "ep_1" "" []]}.

Lemma fl_to_enrolled : fleet_steps fl_verify id id empty_fleet [] fl_enrolled.
Proof.
  apply (fleet_cons _ _ _ _ [] fl_minted []).
  { apply (fleet_token _ _ _ "org" "env" "docker" "" [] fl_token (10 * Minute)). vm_compute. reflexivity. }
  apply (fleet_cons _ _ _ _ [] fl_enrolled []); [|constructor].
  apply (fleet_enroll _ _ _ fl_request "ep_1" (11 * Minute) fl_endpoint). vm_compute. reflexivity.
Qed.
Definition fl_approved : Fleet :=
  put "ep_1" (mkEp "org" "env" "host-1" "docker" EApproved {["os" := "linux"]} (11 * Minute) "alice" None [] 0
    {[fl_token := mkKey fl_token KeyApproved (11 * Minute)]} ∅ None ∅) fl_enrolled.
Lemma fl_to_approved : fleet_steps fl_verify id id empty_fleet ([] ++ ([Reviewed "ep_1" fl_token] ++ [])) fl_approved.
Proof.
  apply (fleet_cons _ _ _ _ [] fl_minted); [apply (fleet_token _ _ _ "org" "env" "docker" "" [] fl_token (10 * Minute)); vm_compute; reflexivity|].
  apply (fleet_cons _ _ _ _ [] fl_enrolled); [apply (fleet_enroll _ _ _ fl_request "ep_1" (11 * Minute) fl_endpoint); vm_compute; reflexivity|].
  apply (fleet_cons _ _ _ _ [Reviewed "ep_1" fl_token] fl_approved []); [|constructor].
  apply (fleet_approve _ _ _ "org" "ep_1" fl_token "alice" (12 * Minute)). vm_compute. reflexivity.
Qed.

Lemma fleet_invariant_witness : map_Forall (fun _ e => EpOk id id e) (eps fl_approved).
Proof. exact (fleet_invariant fl_verify id id _ _ fl_to_approved). Defined.
