(* ===== verification/KeyRotation.v ===== *)
(** * Rotating an agent's key

    internal/agent/client/identity.go with the handshake and the rotation frames of connect.go, run
    against the server's key table (agent_rotation.go, agent_session.go, agent_connect.go).

    [Identity] is the agent's keys; [Sys] is one agent, in memory and on disk, with the server's
    tables and the session between them.  [rstep] interleaves handshakes, offers, answers, the
    operator's acknowledgement, notices, dropped sessions, failing writes and restarts.  Time is the
    real time; the two clocks each read it within [skew], and the agent's check for a lapsed offer
    comes within [startup] of the handshake. *)
From Stdlib Require Import ZArith Lia Ascii String.
From stdpp Require Import base gmap sets strings list.
From S2P Require Import Prelude.
From S2P Require Import Frame.
From S2P Require Import Preimage.
From S2P Require Import Endpoints.

Section Keys.
Context {Priv : Type} `{EqDecision Priv}.
Context (Public : Priv -> string) (Sign : Priv -> string -> string).
Context (Verify : string -> string -> string -> bool) (Sum256 EncodeToString : string -> string).

Definition fpr (k : Priv) : string := fingerprint Sum256 EncodeToString (Public k).

(** ** The agent's keys *)

Definition PendingKeyLife : Z := 8 * 24 * Hour.

Record Identity := mkIdentity {
  i_key : Priv;
  i_pending : option Priv; i_pending_fp : string; i_since : time; i_recorded : bool;
  i_lapsed : option Priv; i_lapsed_recorded : bool;
  i_attempt : nat }.

Definition Promote (i : Identity) : Identity :=
  mkIdentity (default (i_key i) (i_pending i)) None "" zero_time false None false 0.

(** The keys the server confirmed come first; within each, the pending one. *)
Definition candidates (i : Identity) : list Priv :=
  concat (map (fun want : bool =>
    (if Bool.eqb (i_recorded i) want then option_list (i_pending i) else []) ++
    (if Bool.eqb (i_lapsed_recorded i) want then option_list (i_lapsed i) else [])) [true; false]).

Definition with_attempt (n : nat) (i : Identity) : Identity :=
  mkIdentity (i_key i) (i_pending i) (i_pending_fp i) (i_since i) (i_recorded i) (i_lapsed i) (i_lapsed_recorded i) n.

Definition tryNext (i : Identity) : Identity * bool :=
  if (length (candidates i) <=? i_attempt i)%nat then (with_attempt 0 i, false) else (with_attempt (S (i_attempt i)) i, true).

Definition recovering (i : Identity) : bool := (0 <? i_attempt i)%nat.

Definition currentCandidate (i : Identity) : option Priv :=
  if (i_attempt i <? 1)%nat || (length (candidates i) <? i_attempt i)%nat then None else candidates i !! (i_attempt i - 1)%nat.

Definition signingKey (i : Identity) : Priv := default (i_key i) (currentCandidate i).

Definition commitCandidate (i : Identity) : Identity :=
  match currentCandidate i with
  | None => with_attempt 0 i
  | Some c => mkIdentity c None "" zero_time false None false 0
  end.

Definition pendingFingerprint (i : Identity) : string := match i_pending i with Some k => fpr k | None => "" end.
Definition promotable (i : Identity) : bool := bool_decide (is_Some (i_pending i)) || bool_decide (is_Some (i_lapsed i)).

(** ** What the agent does with what it is told *)

(** A refused handshake; the second component says the agent stops for good. *)
Definition refused_auth (err : FleetErr) (i : Identity) : Identity * bool :=
  match err with
  | ErrKeyRetired => ((tryNext i).1, false)
  | EndpointForbidden | EndpointNotFound =>
      if recovering i then let '(i', next) := tryNext i in (i', negb next) else (i, true)
  | _ => (i, false)
  end.

Definition accepted_auth (i : Identity) : Identity := if recovering i then commitCandidate i else i.

(** An offer nobody acknowledged is forgotten but its key kept. *)
Definition lapse (now : time) (i : Identity) : Identity :=
  if negb (bool_decide (i_pending_fp i = "")) && (now - i_since i >? PendingKeyLife)
  then mkIdentity (i_key i) None "" zero_time false (i_pending i) (i_recorded i) (i_attempt i)
  else i.

Definition offerRotation (k : Priv) (now : time) (i : Identity) : Identity :=
  mkIdentity (i_key i) (Some k) (fpr k) now false (i_lapsed i) (i_lapsed_recorded i) (i_attempt i).
Definition offer_signature (k : Priv) (i : Identity) : string :=
  Sign (signingKey i) (Preimage ContextRotate [Sum256 (Public (signingKey i)); Public k]).
(** [offerRotation] whose write failed. *)
Definition offer_dropped (now : time) (i : Identity) : Identity :=
  mkIdentity (i_key i) None "" now false (i_lapsed i) (i_lapsed_recorded i) (i_attempt i).

(** The answer to an offer, with its code. *)
Definition on_rotate (code fp : string) (now : time) (i : Identity) : Identity :=
  if negb (bool_decide (code = "")) || negb (bool_decide (fp = i_pending_fp i)) then
    match i_lapsed i with
    | Some l => if bool_decide (code = "rotation_pending")
                then mkIdentity (i_key i) (Some l) (fpr l) now true None false (i_attempt i)
                else mkIdentity (i_key i) None "" (i_since i) false (Some l) (i_lapsed_recorded i) (i_attempt i)
    | None => mkIdentity (i_key i) None "" (i_since i) false None (i_lapsed_recorded i) (i_attempt i)
    end
  else mkIdentity (i_key i) (i_pending i) (i_pending_fp i) (i_since i) true None false (i_attempt i).

(** The notice of an acknowledgement; the second component ends the session. *)
Definition on_rotated (fp : string) (i : Identity) : Identity * bool :=
  if negb (bool_decide (fp = "")) && promotable i && bool_decide (fp = pendingFingerprint i) then (Promote i, true) else (i, false).

(** ** The server's answers *)

Definition rotate_code (r : res FleetErr (string * Fleet)) : string :=
  match r with
  | Ok _ => ""
  | Fail ErrRotationPending => "rotation_pending"
  | Fail ErrRotationBlocked => "rotation_blocked"
  | Fail _ => "rotation_refused"
  end.
Definition rotate_fp (r : res FleetErr (string * Fleet)) : string := match r with Ok (fp, _) => fp | Fail _ => "" end.

(** ** One agent and the server *)

Inductive Session :=
| Away
| Starting (at_ : time) (notice : option string)
| Open (offer : option Priv) (reply : option (string * string)) (notice : option string).

Record Sys := mkSys {
  s_fleet : Fleet; s_mem : Identity; s_disk : Identity; s_session : Session; s_time : time; s_stopped : bool }.

Context (id org : string) (skew startup : Z).

Definition reads_clock (t : time) (real : time) : Prop := real - skew <= t <= real + skew.
(** A write of the identity that may fail; the walk's index is not written. *)
Definition saved (ok : bool) (i disk : Identity) : Identity := if ok then with_attempt 0 i else disk.
Definition ep_keys (f : Fleet) : gmap string KeyRow := match eps f !! id with Some e => e_keys e | None => ∅ end.
Definition in_service (f : Fleet) : Prop := exists e, eps f !! id = Some e /\ serving (e_state e) = true /\ e_org e = org.

Inductive rstep : Sys -> Sys -> Prop :=
| r_time f m d s t t' b : t <= t' -> rstep (mkSys f m d s t b) (mkSys f m d s t' b)
(** Anything else the server does that leaves the endpoint in service with its keys. *)
| r_other f m d s t b f' : in_service f' -> ep_keys f' = ep_keys f -> rstep (mkSys f m d s t b) (mkSys f' m d s t b)
(** The agent holds the key it names, so its signature verifies under that key. *)
| r_accepted f m d t now (ok : bool) pub :
    reads_clock now t -> AgentIdentity id (fpr (signingKey m)) now f = Ok pub ->
    rstep (mkSys f m d Away t false)
          (mkSys f (accepted_auth m) (if recovering m then saved ok (accepted_auth m) d else d) (Starting t None) t false)
| r_refused f m d t now err :
    reads_clock now t -> AgentIdentity id (fpr (signingKey m)) now f = Fail err ->
    rstep (mkSys f m d Away t false) (mkSys f (refused_auth err m).1 d Away t (refused_auth err m).2)
| r_lapse f m d at_ n t now (ok : bool) b :
    reads_clock now t -> t - at_ <= startup ->
    rstep (mkSys f m d (Starting at_ n) t b) (mkSys f (lapse now m) (saved ok (lapse now m) d) (Starting at_ n) t b)
| r_quiet f m d at_ n t b : rstep (mkSys f m d (Starting at_ n) t b) (mkSys f m d (Open None None n) t b)
| r_offer f m d at_ n t now k b :
    reads_clock now t -> i_pending_fp m = "" -> ep_keys f !! fpr k = None ->
    (forall k', k' ∈ i_key m :: option_list (i_lapsed m) -> k' <> k) ->
    rstep (mkSys f m d (Starting at_ n) t b)
          (mkSys f (offerRotation k now m) (saved true (offerRotation k now m) d) (Open (Some k) None n) t b)
| r_offer_unsaved f m d at_ n t now b : i_pending_fp m = "" ->
    rstep (mkSys f m d (Starting at_ n) t b) (mkSys f (offer_dropped now m) d Away t b)
| r_record f m d t now k n b :
    reads_clock now t ->
    let r := RotateEndpointKey Verify Sum256 EncodeToString id (Public k) (offer_signature k m) now f in
    rstep (mkSys f m d (Open (Some k) None n) t b)
          (mkSys (match r with Ok (_, f') => f' | Fail _ => f end) m d (Open None (Some (rotate_code r, rotate_fp r)) n) t b)
(** The store fails before it records the offer. *)
| r_fault f m d t k n b :
    rstep (mkSys f m d (Open (Some k) None n) t b) (mkSys f m d (Open None (Some ("rotation_refused", "")) n) t b)
| r_reply f m d t now code fp n (ok : bool) b :
    reads_clock now t ->
    rstep (mkSys f m d (Open None (Some (code, fp)) n) t b)
          (mkSys f (on_rotate code fp now m) (saved ok (on_rotate code fp now m) d) (Open None None n) t b)
| r_acknowledge f m d s t now fp f' b :
    reads_clock now t -> AcknowledgeEndpointKey org id fp now f = Ok f' ->
    rstep (mkSys f m d s t b)
          (mkSys f' m d (match s with Open o r _ => Open o r (Some fp) | Starting at_ _ => Starting at_ (Some fp) | Away => Away end) t b)
| r_notice f m d t o r fp (ok : bool) b :
    rstep (mkSys f m d (Open o r (Some fp)) t b)
          (mkSys f (on_rotated fp m).1 (if (on_rotated fp m).2 then saved ok (on_rotated fp m).1 d else d)
             (if (on_rotated fp m).2 then Away else Open o r (Some fp)) t b)
(** The server ends the session of a retired key. *)
| r_closed f m d t o r fp b :
    rstep (mkSys f m d (Open o r (Some fp)) t b) (mkSys f (tryNext m).1 d Away t b)
| r_dropped f m d s t b : rstep (mkSys f m d s t b) (mkSys f m d Away t b)
| r_saved f m d s t b : rstep (mkSys f m d s t b) (mkSys f m (saved true m d) s t b)
| r_restart f m d s t b : rstep (mkSys f m d s t b) (mkSys f d d Away t false).

Inductive rsteps : Sys -> Sys -> Prop :=
| rsteps_nil s : rsteps s s
| rsteps_cons s1 s2 s3 : rstep s1 s2 -> rsteps s2 s3 -> rsteps s1 s3.

(** ** The invariant *)

Definition held (i : Identity) : list Priv := i_key i :: option_list (i_pending i) ++ option_list (i_lapsed i).
Definition spare (i : Identity) : list Priv := option_list (i_pending i) ++ option_list (i_lapsed i).

(** What an identity, in memory or on disk, must know of the server's keys. *)
Record IdOk (keys : gmap string KeyRow) (t : time) (i : Identity) : Prop := {
  io_approved : exists k, k ∈ held i /\ approved_in keys (fpr k);
  io_key : exists row, keys !! fpr (i_key i) = Some row /\ k_state row <> KeyPendingReview;
  io_review : forall fp row, keys !! fp = Some row -> k_state row = KeyPendingReview ->
    approved_in keys (fpr (i_key i)) /\
    (k_created row > t - skew - pendingKeyLife -> exists k, k ∈ spare i /\ fpr k = fp);
  io_lapsed : forall l n row, i_lapsed i = Some l -> i_pending i = Some n -> keys !! fpr l = Some row ->
    k_created row <= i_since i + 2 * skew;
  io_name : i_pending_fp i = pendingFingerprint i;
  io_distinct : NoDup (held i) }.

Definition notice_ok (keys : gmap string KeyRow) (m : Identity) (n : option string) : Prop :=
  match n with
  | Some fp => approved_in keys fp /\ fp <> fpr (i_key m) /\ forall g, ~ reviewed_in keys g
  | None => True
  end.

(** The answer on its way says what became of the key offered. *)
Definition reply_ok (keys : gmap string KeyRow) (m : Identity) (code fp : string) : Prop :=
  exists k, i_pending m = Some k /\
    (code = "" /\ fp = fpr k /\ (forall g, reviewed_in keys g -> g = fpr k) /\
       (forall g, approved_in keys g -> g = fpr (i_key m) \/ g = fpr k) \/
     code <> "" /\ keys !! fpr k = None).

Definition session_ok (keys : gmap string KeyRow) (t : time) (m d : Identity) (s : Session) : Prop :=
  match s with
  | Away => True
  | Starting at_ n => at_ <= t /\ notice_ok keys m n /\ i_attempt m = 0%nat /\
      forall fp row, keys !! fp = Some row -> k_state row = KeyApproved -> fp <> fpr (i_key m) ->
        k_created row > at_ - skew - pendingKeyLife
  | Open o r n => notice_ok keys m n /\ i_attempt m = 0%nat /\
      (forall k, o = Some k -> i_pending m = Some k /\ i_pending d = Some k /\ keys !! fpr k = None /\ i_key d = i_key m /\ r = None) /\
      (forall code fp, r = Some (code, fp) -> reply_ok keys m code fp)
  end.

(** A walk along the candidates has not passed the key the server accepts. *)
Definition walk_ok (keys : gmap string KeyRow) (m : Identity) : Prop :=
  i_attempt m = 0%nat \/
  ~ approved_in keys (fpr (i_key m)) /\
  exists j k, candidates m !! j = Some k /\ approved_in keys (fpr k) /\ (i_attempt m <= S j)%nat.

Record Inv (s : Sys) : Prop := {
  v_service : in_service (s_fleet s);
  v_fit : keys_fit EActive (ep_keys (s_fleet s));
  v_names : map_Forall (fun fp k => fp = fingerprint Sum256 EncodeToString (k_public k)) (ep_keys (s_fleet s));
  v_created : map_Forall (fun _ k => k_created k <= s_time s + skew) (ep_keys (s_fleet s));
  v_mem : IdOk (ep_keys (s_fleet s)) (s_time s) (s_mem s);
  v_disk : IdOk (ep_keys (s_fleet s)) (s_time s) (s_disk s);
  v_walk : walk_ok (ep_keys (s_fleet s)) (s_mem s);
  v_fresh : i_attempt (s_disk s) = 0%nat;
  v_session : session_ok (ep_keys (s_fleet s)) (s_time s) (s_mem s) (s_disk s) (s_session s);
  v_running : s_stopped s = false }.

(** ** Candidates *)

Lemma candidates_spare i k : k ∈ candidates i <-> k ∈ spare i.
Proof.
  unfold candidates, spare. simpl. destruct (i_recorded i), (i_lapsed_recorded i); simpl; rewrite ?app_nil_r, ?elem_of_app; tauto.
Qed.
Lemma held_cases i k : k ∈ held i <-> k = i_key i \/ k ∈ spare i.
Proof. unfold held, spare. by rewrite elem_of_cons. Qed.

Lemma signing_first i : i_attempt i = 0%nat -> signingKey i = i_key i.
Proof. intros E. unfold signingKey, currentCandidate. by rewrite E. Qed.
Lemma signing_candidate i j k : candidates i !! j = Some k -> i_attempt i = S j -> currentCandidate i = Some k.
Proof.
  intros Hk E. unfold currentCandidate. rewrite E. simpl. rewrite Nat.sub_0_r. apply lookup_lt_Some in Hk as Hl.
  destruct (Nat.ltb_spec (length (candidates i)) (S j)); [lia|done].
Qed.

(** ** The key table *)

Lemma approved_unique keys a b : keys_fit EActive keys -> approved_in keys a -> approved_in keys b -> a = b.
Proof. intros (fp & _ & Hu & _) Ha Hb. by rewrite (Hu _ Ha), (Hu _ Hb). Qed.

Lemma service_keys f e : eps f !! id = Some e -> ep_keys f = e_keys e.
Proof. unfold ep_keys. by intros ->. Qed.
Lemma serving_not e : serving (e_state e) = true -> e_state e <> EPending /\ e_state e <> ERevoked.
Proof. intros H. apply bool_decide_eq_true in H. split; intros E; rewrite E in H; set_solver. Qed.

Lemma identity_answer f fp now : in_service f ->
  match AgentIdentity id fp now f with
  | Ok _ => approved_in (ep_keys f) fp
  | Fail err => ~ approved_in (ep_keys f) fp /\
      (err = ErrKeyRetired \/ err = EndpointForbidden \/ err = ErrKeyPendingReview /\ reviewed_in (ep_keys f) fp)
  end.
Proof.
  intros (e & He & Hs & _). destruct (serving_not _ Hs) as [Hp Hr]. rewrite (service_keys _ _ He). unfold AgentIdentity. rewrite He.
  assert (bool_decide (e_state e = ERevoked) || expired now e = false) as ->.
  { unfold expired. by rewrite !bool_decide_false. }
  destruct (e_keys e !! fp) as [k|] eqn:Ek; [|split; [intros (k & Hk & _); congruence|auto]].
  destruct (k_state k) eqn:Es; [by exists k| |].
  - rewrite bool_decide_false by done. assert (~ approved_in (e_keys e) fp) by (intros (k' & Hk' & ?); congruence).
    destruct (_ <=? _); (split; [done|]); [right; right; split; [done|by exists k]|by left].
  - split; [intros (k' & Hk' & ?); congruence|by left].
Qed.

Lemma approved_key_some keys fp k : approved_key keys = Some (fp, k) -> keys !! fp = Some k /\ k_state k = KeyApproved.
Proof.
  unfold approved_key. destruct (List.filter _ _) as [|x l] eqn:E; [done|]. intros [= ->].
  assert (In (fp, k) (List.filter (fun kv : string * KeyRow => bool_decide (k_state kv.2 = KeyApproved)) (map_to_list keys))) as Hi by (rewrite E; by left).
  apply filter_In in Hi as [Hi Hs]. apply bool_decide_eq_true in Hs. by apply list_elem_of_In, elem_of_map_to_list in Hi.
Qed.

Definition offered (public : string) (now : time) (keys : gmap string KeyRow) : gmap string KeyRow :=
  <[fingerprint Sum256 EncodeToString public := mkKey public KeyPendingReview now]> (retire (fun _ k => in_review k) keys).
Definition acknowledged (fp : string) (row : KeyRow) (keys : gmap string KeyRow) : gmap string KeyRow :=
  retire (fun fp' _ => negb (bool_decide (fp' = fp))) (<[fp := set_key KeyApproved row]> keys).

Lemma rotate_result f public signature now fp f' : in_service f ->
  RotateEndpointKey Verify Sum256 EncodeToString id public signature now f = Ok (fp, f') ->
  in_service f' /\ fp = fingerprint Sum256 EncodeToString public /\ ep_keys f !! fp = None /\ ep_keys f' = offered public now (ep_keys f) /\
  exists a row, ep_keys f !! a = Some row /\ k_state row = KeyApproved /\
    Verify (k_public row) (Preimage ContextRotate [Sum256 (k_public row); public]) signature = true.
Proof.
  intros (e & He & Hs & Ho) H. unfold RotateEndpointKey in H. refusals H. rewrite He in H. refusals H.
  destruct (approved_key (e_keys e)) as [[a row]|] eqn:Ea; [|done]. refusals H. injection H as <- <-.
  apply approved_key_some in Ea as [Ea Est]. rewrite (service_keys _ _ He).
  match goal with H : negb (VerifyRotation _ _ _ _ _) = false |- _ => apply negb_false_iff in H; unfold VerifyRotation in H end.
  match goal with H : bool_decide (is_Some _) = false |- _ => apply bool_decide_eq_false in H; rename H into Hn end.
  split_and!.
  - eexists. simpl. rewrite lookup_insert_eq. done.
  - done.
  - destruct (e_keys e !! fingerprint Sum256 EncodeToString public) as [k|] eqn:Ek; [|done]. destruct Hn. rewrite retire_lookup, Ek. simpl. eauto.
  - unfold ep_keys. simpl. by rewrite lookup_insert_eq.
  - exists a, row. by destruct (_ || _).
Qed.

Lemma acknowledge_result f fp now f' : in_service f -> AcknowledgeEndpointKey org id fp now f = Ok f' ->
  in_service f' /\ exists row, ep_keys f !! fp = Some row /\ k_state row = KeyPendingReview /\ k_created row > now - pendingKeyLife /\
    ep_keys f' = acknowledged fp row (ep_keys f).
Proof.
  intros (e & He & Hs & Ho) H. unfold AcknowledgeEndpointKey, ep_of in H. rewrite He, bool_decide_true in H by done.
  destruct (e_keys e !! fp) as [row|] eqn:Ek; [|done]. refusals H. injection H as <-.
  apply negb_false_iff in Hg. rewrite !andb_true_iff in Hg. destruct Hg as ((Hr & Hc) & _). apply bool_decide_eq_true in Hr.
  rewrite (service_keys _ _ He). split; [eexists; simpl; rewrite lookup_insert_eq; done|]. exists row. split_and!; [done|done|lia|].
  unfold ep_keys. simpl. by rewrite lookup_insert_eq.
Qed.

Lemma offered_lookup public now keys g row : offered public now keys !! g = Some row ->
  g = fingerprint Sum256 EncodeToString public /\ row = mkKey public KeyPendingReview now \/
  exists row0, keys !! g = Some row0 /\ row = (if in_review row0 then set_key KeyRetired row0 else row0).
Proof.
  unfold offered. intros [[<- <-]|[_ H]]%lookup_insert_Some; [by left|right]. rewrite retire_lookup in H.
  apply fmap_Some in H as (row0 & ? & ->). by exists row0.
Qed.
Lemma acknowledged_lookup fp row keys g r : acknowledged fp row keys !! g = Some r ->
  g = fp /\ r = set_key KeyApproved row \/ exists r0, keys !! g = Some r0 /\ g <> fp /\ r = set_key KeyRetired r0.
Proof.
  unfold acknowledged. rewrite retire_lookup. intros (r0 & H & ->)%fmap_Some.
  apply lookup_insert_Some in H as [[<- <-]|[Hne H]]; [left; by rewrite bool_decide_true|]. right. exists r0. by rewrite bool_decide_false.
Qed.
Lemma offered_approved public now keys g : keys !! fingerprint Sum256 EncodeToString public = None -> approved_in keys g ->
  approved_in (offered public now keys) g.
Proof.
  intros Hn (row & Hr & Hs). exists row. unfold offered. rewrite lookup_insert_ne by congruence. rewrite retire_lookup, Hr. simpl.
  unfold in_review. rewrite bool_decide_false by congruence. done.
Qed.
Lemma acknowledged_fp fp row keys : approved_in (acknowledged fp row keys) fp.
Proof. exists (set_key KeyApproved row). unfold acknowledged. rewrite retire_lookup, lookup_insert_eq. simpl. by rewrite bool_decide_true. Qed.
Lemma acknowledged_none fp row keys g : ~ reviewed_in (acknowledged fp row keys) g.
Proof. intros (r & [[_ ->]|(? & _ & _ & ->)]%acknowledged_lookup & ?); done. Qed.

(** ** Identities *)

Lemma idok_time keys t t' i : t <= t' -> IdOk keys t i -> IdOk keys t' i.
Proof.
  intros Ht [Ha Hk Hr Hl Hn Hd]. constructor; try done. intros fp row H1 H2. destruct (Hr _ _ H1 H2) as [H3 H4]. split; [done|].
  intros Hc. apply H4. lia.
Qed.
Lemma idok_attempt keys t n i : IdOk keys t i -> IdOk keys t (with_attempt n i).
Proof. by intros []. Qed.
Lemma idok_saved keys t ok i d : IdOk keys t i -> IdOk keys t d -> IdOk keys t (saved ok i d).
Proof. intros Hi Hd. destruct ok; [by apply idok_attempt|done]. Qed.
Lemma saved_attempt ok i d : i_attempt d = 0%nat -> i_attempt (saved ok i d) = 0%nat.
Proof. by destruct ok. Qed.

Lemma distinct_spare i l k : NoDup (held i) -> i_lapsed i = Some l -> i_pending i = Some k -> l <> k.
Proof. unfold held. intros Hd El Ek. rewrite El, Ek in Hd. simpl in Hd. apply NoDup_cons in Hd as [_ Hd]. apply NoDup_cons in Hd as [Hn _]. set_solver. Qed.
Lemma distinct_key i k : NoDup (held i) -> k ∈ spare i -> k <> i_key i.
Proof. unfold held. fold (spare i). intros Hd Hk ->. by apply NoDup_cons in Hd as [? _]. Qed.

(** ** Steps keep the invariant *)

(** Fingerprints do not collide, and a signature verifies only under its own key. *)
Context (fpr_inj : forall k k', fpr k = fpr k' -> k = k').
Context (Verify_sound : forall pub k m m', Verify pub m (Sign k m') = true -> pub = Public k).
Context (pending_named : forall k, "" <> fpr k).
Context (skew_pos : 0 <= skew) (startup_pos : 0 <= startup) (skew_small : startup + 4 * skew <= 24 * Hour).

Lemma idok_offered keys t i k now : IdOk keys t i -> i_pending i = Some k -> keys !! fpr k = None -> approved_in keys (fpr (i_key i)) ->
  IdOk (offered (Public k) now keys) t i.
Proof.
  intros [Ha Hk Hr Hl Hn Hd] Hp Hf Hap. pose proof (offered_approved _ now _ _ Hf Hap) as Hap'. constructor; try done.
  - exists (i_key i). split; [apply held_cases; by left|done].
  - destruct Hap' as (row & ? & Hs). exists row. split; [done|congruence].
  - intros fp row H1 H2. split; [done|]. intros _. apply offered_lookup in H1 as [[-> _]|(row0 & _ & ->)].
    + exists k. split; [|done]. unfold spare. rewrite Hp. set_solver.
    + unfold in_review in H2. by case_bool_decide.
  - intros l n row El Ep H1. simplify_eq. apply offered_lookup in H1 as [[E _]|(row0 & H1 & ->)].
    + by apply fpr_inj in E; apply (distinct_spare _ _ _ Hd El) in Hp.
    + specialize (Hl _ _ _ El Hp H1). by destruct (in_review row0).
Qed.

Lemma idok_acknowledged keys t i fp row now : IdOk keys t i -> reads_clock now t -> keys !! fp = Some row -> k_state row = KeyPendingReview ->
  k_created row > now - pendingKeyLife -> IdOk (acknowledged fp row keys) t i /\ exists k, k ∈ spare i /\ fpr k = fp.
Proof.
  intros [Ha Hk Hr Hl Hn Hd] [Hc1 Hc2] Hf Hs Hc. destruct (Hr _ _ Hf Hs) as [Hap Hsp]. destruct Hsp as (k & Hk' & Ek); [lia|].
  split; [|by exists k]. pose proof (acknowledged_fp fp row keys) as Hap'. constructor; try done.
  - exists k. split; [apply held_cases; by right|by rewrite Ek].
  - destruct Hk as (row0 & H0 & Hns). exists (set_key KeyRetired row0). split; [|done].
    unfold acknowledged. rewrite retire_lookup, lookup_insert_ne by congruence. rewrite H0. simpl.
    rewrite bool_decide_false by congruence. done.
  - intros g r H1 H2. exfalso. by apply (acknowledged_none fp row keys g); exists r.
  - intros l n r El Ep H1. apply acknowledged_lookup in H1 as [[Eg ->]|(r0 & H1 & _ & ->)]; simpl; [|by eapply Hl].
    eapply Hl; [done|done|by rewrite Eg].
Qed.

Lemma idok_lapse keys t i now at_ : IdOk keys t i -> reads_clock now t -> t - at_ <= startup ->
  (forall fp row, keys !! fp = Some row -> k_state row = KeyApproved -> fp <> fpr (i_key i) -> k_created row > at_ - skew - pendingKeyLife) ->
  IdOk keys t (lapse now i).
Proof.
  intros [Ha Hk Hr Hl Hn Hd] [Hc1 Hc2] Hst Hap. unfold lapse. destruct (_ && _) eqn:E; [|by constructor].
  apply andb_true_iff in E as [E1 E2]. apply negb_true_iff, bool_decide_eq_false in E1. apply Z.gtb_lt in E2. unfold PendingKeyLife, pendingKeyLife in *.
  unfold pendingFingerprint in Hn. destruct (i_pending i) as [n|] eqn:Ep; [|by rewrite Hn in E1].
  assert (forall l row, i_lapsed i = Some l -> keys !! fpr l = Some row -> k_created row < t + 3 * skew - 8 * 24 * Hour) as Hold.
  { intros l row El Hrow. specialize (Hl _ _ _ El eq_refl Hrow). lia. }
  assert (forall k, k ∈ spare i -> k <> n -> i_lapsed i = Some k) as Hsp.
  { intros k Hin Hne. unfold spare in Hin. rewrite Ep in Hin. destruct (i_lapsed i) as [l|]; simpl in Hin; set_solver. }
  assert (24 * Hour > 0) by done.
  constructor; simpl; try done.
  - destruct Ha as (k & Hin & Hap'). apply held_cases in Hin as [->|Hin]; [exists (i_key i); split; [by left|done]|].
    destruct (decide (k = n)) as [->|Hne]; [exists n; split; [right; left|done]|]. exfalso.
    specialize (Hsp _ Hin Hne). destruct Hap' as (row & Hrow & Hs). specialize (Hold _ _ Hsp Hrow).
    assert (fpr k <> fpr (i_key i)) as Hk'. { intros Ef. apply fpr_inj in Ef. by apply (distinct_key i k). }
    specialize (Hap _ _ Hrow Hs Hk'). lia.
  - intros fp row H1 H2. destruct (Hr _ _ H1 H2) as [H3 H4]. split; [done|]. intros Hlive. destruct (H4 Hlive) as (k & Hin & Ek).
    destruct (decide (k = n)) as [->|Hne]; [exists n; split; [left|done]|]. exfalso. specialize (Hsp _ Hin Hne). subst fp.
    specialize (Hold _ _ Hsp H1). unfold pendingKeyLife in Hlive. lia.
  - unfold held in *. simpl. rewrite Ep in Hd. simpl in Hd. apply NoDup_cons in Hd as [Hd1 Hd2]. constructor; [set_solver|]. constructor; [set_solver|constructor].
Qed.

Lemma idok_reply keys t i code fp now : IdOk keys t i -> keys_fit EActive keys -> reply_ok keys i code fp -> IdOk keys t (on_rotate code fp now i).
Proof.
  intros [Ha Hk Hr Hl Hn Hd] Hfit (k & Hp & Hcase). unfold pendingFingerprint in Hn. rewrite Hp in Hn. unfold on_rotate.
  destruct Hcase as [(-> & -> & Hrev & Hap)|[Hc Hnone]].
  - rewrite Hn, !bool_decide_true by done. simpl. constructor; simpl; try done.
    + destruct Ha as (k' & Hin & Hap'). pose proof Hap' as Hap''. apply Hap in Hap' as [E|E]; apply fpr_inj in E; subst k'.
      * exists (i_key i). split; [by left|done].
      * exists k. split; [|done]. unfold held. simpl. rewrite Hp. set_solver.
    + intros g row H1 H2. destruct (Hr _ _ H1 H2) as [H3 _]. split; [done|]. intros _. exists k. unfold spare. simpl. rewrite Hp.
      split; [set_solver|]. symmetry. apply Hrev. by exists row.
    + unfold pendingFingerprint. simpl. by rewrite Hp.
    + unfold held in *. simpl. rewrite Hp in *. simpl in *. apply NoDup_cons in Hd as [Hd1 _]. constructor; [set_solver|apply NoDup_singleton].
  - rewrite (bool_decide_false _ Hc). simpl.
    assert (forall k', k' ∈ spare i -> approved_in keys (fpr k') \/ reviewed_in keys (fpr k') -> i_lapsed i = Some k') as Hsp.
    { intros k' Hin Hin'. unfold spare in Hin. rewrite Hp in Hin. simpl in Hin. apply elem_of_cons in Hin as [->|Hin].
      - destruct Hin' as [(r & ? & _)|(r & ? & _)]; congruence.
      - destruct (i_lapsed i); set_solver. }
    assert (forall j, held j = i_key i :: option_list (i_lapsed i) -> spare j = option_list (i_lapsed i) -> i_key j = i_key i ->
      i_pending_fp j = pendingFingerprint j -> (i_lapsed j = None \/ i_pending j = None) -> IdOk keys t j) as Hj.
    { intros j Hh Hsj Hkj Hnj Hlj. constructor; rewrite ?Hkj; try done.
      - destruct Ha as (k' & Hin & Hap'). exists k'. split; [|done]. rewrite Hh. apply held_cases in Hin as [->|Hin]; [by left|].
        right. rewrite (Hsp _ Hin (or_introl Hap')). set_solver.
      - intros g row H1 H2. destruct (Hr _ _ H1 H2) as [H3 H4]. split; [done|]. intros Hlive. destruct (H4 Hlive) as (k' & Hin & Ek).
        exists k'. split; [|done]. rewrite Hsj, (Hsp _ Hin); [set_solver|]. right. exists row. by rewrite Ek.
      - intros l n row El En. destruct Hlj; congruence.
      - rewrite Hh. unfold held in Hd. rewrite Hp in Hd. simpl in Hd. apply NoDup_cons in Hd as [Hd1 Hd2]. apply NoDup_cons in Hd2 as [_ Hd2].
        constructor; [set_solver|done]. }
    destruct (i_lapsed i) as [l|] eqn:El; [case_bool_decide|]; (apply Hj; [done|done|done|done|by left + by right]).
Qed.

(** Sessions over the key table's changes. *)
Lemma session_time keys t t' m d s : t <= t' -> session_ok keys t m d s -> session_ok keys t' m d s.
Proof. destruct s; simpl; [done| |done]. intros Ht (? & H). split; [lia|done]. Qed.

Lemma walk_session keys t m d s : session_ok keys t m d s -> s <> Away -> i_attempt m = 0%nat.
Proof. destruct s; simpl; [done| |]; tauto. Qed.

Lemma tryNext_walk keys t m : keys_fit EActive keys -> IdOk keys t m -> ~ approved_in keys (fpr (signingKey m)) -> walk_ok keys m ->
  walk_ok keys (tryNext m).1 /\ (tryNext m).2 = true.
Proof.
  intros Hfit [Ha _ _ _ _ Hd] Hs Hw.
  assert (~ approved_in keys (fpr (i_key m)) /\ exists j k, candidates m !! j = Some k /\ approved_in keys (fpr k) /\ (i_attempt m <= j)%nat) as (Hn & j & k & Hj & Hap & Hle).
  { destruct Hw as [E|(Hn & j & k & Hj & Hap & Hle)].
    - rewrite (signing_first _ E) in Hs. split; [done|]. destruct Ha as (k & Hin & Hap). apply held_cases in Hin as [->|Hin]; [done|].
      apply candidates_spare, list_elem_of_lookup in Hin as [j Hj]. exists j, k. split_and!; [done|done|lia].
    - split; [done|]. exists j, k. split_and!; [done|done|]. destruct (decide (i_attempt m = S j)) as [E|]; [|lia].
      destruct Hs. unfold signingKey. by rewrite (signing_candidate _ _ _ Hj E). }
  unfold tryNext. apply lookup_lt_Some in Hj as Hl. destruct (Nat.leb_spec (length (candidates m)) (i_attempt m)); [lia|].
  split; [|done]. right. split; [done|]. exists j, k. simpl. split_and!; [done|done|lia].
Qed.
Lemma idok_tryNext keys t m : IdOk keys t m -> IdOk keys t (tryNext m).1.
Proof. intros H. unfold tryNext. destruct (_ <=? _)%nat; by apply idok_attempt. Qed.

Lemma idok_commit keys t m : IdOk keys t m -> walk_ok keys m -> approved_in keys (fpr (signingKey m)) ->
  IdOk keys t (accepted_auth m) /\ approved_in keys (fpr (i_key (accepted_auth m))) /\ i_attempt (accepted_auth m) = 0%nat.
Proof.
  intros Hm Hw Hs. unfold accepted_auth, recovering. destruct (Nat.ltb_spec 0 (i_attempt m)) as [Ha|Ha].
  - destruct Hw as [E|(Hn & j & k & Hj & Hap & Hle)]; [lia|]. unfold commitCandidate. unfold signingKey in Hs.
    destruct (currentCandidate m) as [c|] eqn:Ec; [|done]. simpl in Hs. split; [|done]. destruct Hm as [_ _ Hr _ _ _].
    constructor; simpl; try done.
    + exists c. split; [by left|done].
    + destruct Hs as (row & ? & Hst). exists row. split; [done|congruence].
    + intros fp row H1 H2. by destruct (Hr _ _ H1 H2).
    + apply NoDup_singleton.
  - assert (i_attempt m = 0%nat) as E by lia. by rewrite (signing_first _ E) in Hs.
Qed.

Lemma inv_refused f m d t now err : Inv (mkSys f m d Away t false) -> AgentIdentity id (fpr (signingKey m)) now f = Fail err ->
  Inv (mkSys f (refused_auth err m).1 d Away t (refused_auth err m).2).
Proof.
  intros [Hsv Hfit Hnm Hcr Hm Hd Hw Hf Hs _] H. simpl in *. pose proof (identity_answer f (fpr (signingKey m)) now Hsv) as Hi. rewrite H in Hi.
  destruct Hi as [Hna Hcase]. destruct (tryNext_walk _ _ _ Hfit Hm Hna Hw) as [Hw' Ht].
  destruct Hcase as [->|[->|[-> _]]]; simpl; [constructor; simpl; try done; by apply idok_tryNext| |by constructor].
  destruct (recovering m) eqn:Er.
  - destruct (tryNext m) as [m' b] eqn:Et. simpl in *. subst b. constructor; simpl; try done. replace m' with (tryNext m).1 by (by rewrite Et). by apply idok_tryNext.
  - exfalso. unfold recovering in Er. apply Nat.ltb_ge in Er. assert (i_attempt m = 0%nat) as E by lia. rewrite (signing_first _ E) in H.
    destruct Hsv as (e & He & Hse & _). destruct (serving_not _ Hse) as [Hp Hr]. destruct (io_key _ _ _ Hm) as (row & Hrow & _).
    rewrite (service_keys _ _ He) in Hrow. unfold AgentIdentity in H. rewrite He in H. unfold expired in H. rewrite !bool_decide_false in H by done.
    simpl in H. rewrite Hrow in H. destruct (k_state row); [done|by destruct (_ <=? _)|done].
Qed.

Lemma inv_accepted f m d t now ok pub : Inv (mkSys f m d Away t false) -> AgentIdentity id (fpr (signingKey m)) now f = Ok pub ->
  Inv (mkSys f (accepted_auth m) (if recovering m then saved ok (accepted_auth m) d else d) (Starting t None) t false).
Proof.
  intros [Hsv Hfit Hnm Hcr Hm Hd Hw Hf Hs _] H. simpl in *. pose proof (identity_answer f (fpr (signingKey m)) now Hsv) as Hi. rewrite H in Hi.
  destruct (idok_commit _ _ _ Hm Hw Hi) as (Hm' & Hap & Ha). constructor; simpl; try done.
  - destruct (recovering m); [by apply idok_saved|done].
  - by left.
  - destruct (recovering m); [by apply saved_attempt|done].
  - split_and!; [lia|done|done|]. intros fp row H1 H2 Hne. destruct Hne. apply (approved_unique _ _ _ Hfit); [by exists row|done].
Qed.

Lemma inv_record f m d t now k n b : Inv (mkSys f m d (Open (Some k) None n) t b) -> reads_clock now t ->
  let r := RotateEndpointKey Verify Sum256 EncodeToString id (Public k) (offer_signature k m) now f in
  Inv (mkSys (match r with Ok (_, f') => f' | Fail _ => f end) m d (Open None (Some (rotate_code r, rotate_fp r)) n) t b).
Proof.
  intros [Hsv Hfit Hnm Hcr Hm Hd Hw Hf (Hno & Ha & Ho & _) Hst] Hc r. simpl in *. destruct (Ho _ eq_refl) as (Hpm & Hpd & Hnone & Hkd & _).
  destruct r as [[fp f']|err] eqn:Er.
  - destruct (rotate_result _ _ _ _ _ _ Hsv Er) as (Hsv' & -> & _ & Hk' & a & row & Hrow & Hra & Hver).
    unfold offer_signature in Hver. apply Verify_sound in Hver. rewrite (signing_first _ Ha) in Hver.
    assert (a = fpr (i_key m)) as -> by (rewrite (Hnm _ _ Hrow), Hver; done).
    assert (approved_in (ep_keys f) (fpr (i_key m))) as Hap by (by exists row).
    assert (n = None) as ->.
    { destruct n as [fp|]; [|done]. destruct Hno as (H1 & H2 & _). destruct H2. by apply (approved_unique _ _ _ Hfit). }
    constructor; simpl; rewrite ?Hk'; try done.
    + by apply rotated_keys.
    + apply map_Forall_insert_2; [done|by apply retire_names].
    + intros g rw Hg. apply offered_lookup in Hg as [[_ ->]|(r0 & Hg & ->)]; [destruct Hc; simpl; lia|].
      specialize (Hcr _ _ Hg). simpl in Hcr. by destruct (in_review r0).
    + by apply idok_offered.
    + apply idok_offered; [done|done|done|by rewrite Hkd].
    + by left.
    + split_and!; [done|done|done|]. intros code fp [= <- <-]. exists k. split; [done|]. left. split_and!; [done|done|..].
      * intros g (rw & Hg & Hgs). apply offered_lookup in Hg as [[-> _]|(r0 & Hg & ->)]; [done|]. unfold in_review in Hgs. by case_bool_decide.
      * intros g (rw & Hg & Hgs). left. apply offered_lookup in Hg as [[_ ->]|(r0 & Hg & ->)]; [done|].
        apply (approved_unique _ _ _ Hfit); [|done]. exists r0. by destruct (in_review r0).
  - constructor; simpl; try done. split_and!; [done|done|done|]. intros code fp [= <- <-]. exists k. split; [done|]. right. split; [by destruct err|done].
Qed.

Lemma inv_acknowledge f m d s t now fp f' b : Inv (mkSys f m d s t b) -> reads_clock now t -> AcknowledgeEndpointKey org id fp now f = Ok f' ->
  Inv (mkSys f' m d (match s with Open o r _ => Open o r (Some fp) | Starting at_ _ => Starting at_ (Some fp) | Away => Away end) t b).
Proof.
  intros [Hsv Hfit Hnm Hcr Hm Hd Hw Hf Hs Hst] Hc H. simpl in *.
  destruct (acknowledge_result _ _ _ _ Hsv H) as (Hsv' & row & Hrow & Hrs & Hrc & Hk').
  destruct (idok_acknowledged _ _ _ _ _ _ Hm Hc Hrow Hrs Hrc) as (Hm' & _). destruct (idok_acknowledged _ _ _ _ _ _ Hd Hc Hrow Hrs Hrc) as (Hd' & _).
  destruct (io_review _ _ _ Hm _ _ Hrow Hrs) as [Hap _].
  assert (fp <> fpr (i_key m)) as Hne. { intros ->. destruct Hap as (r & ? & ?). congruence. }
  assert (notice_ok (ep_keys f') m (Some fp)) as Hno.
  { rewrite Hk'. split_and!; [apply acknowledged_fp|done|apply acknowledged_none]. }
  assert (i_attempt m = 0%nat) as Ha by (destruct Hw as [?|[? _]]; done).
  constructor; simpl; rewrite ?Hk' in *; try done.
  - by apply acknowledged_keys.
  - apply retire_names, map_Forall_insert_2; [exact (Hnm _ _ Hrow)|done].
  - intros g r Hg. apply acknowledged_lookup in Hg as [[_ ->]|(r0 & Hg & _ & ->)]; simpl; [exact (Hcr _ _ Hrow)|exact (Hcr _ _ Hg)].
  - by left.
  - destruct s as [|at_ n|o r n]; simpl; [done|..].
    + destruct Hs as (Hat & _ & _ & _). split; [done|]. split; [exact Hno|]. split; [done|]. intros g r Hg Hgs _.
      apply acknowledged_lookup in Hg as [[_ ->]|(r0 & Hg & _ & ->)]; [|done]. simpl. destruct Hc. lia.
    + destruct Hs as (_ & _ & Ho & Hr). split; [exact Hno|]. split; [done|]. split.
      * intros k ->. destruct (Ho _ eq_refl) as (? & ? & Hn & ? & ?). split_and!; try done.
        destruct (acknowledged fp row (ep_keys f) !! fpr k) as [r0|] eqn:E; [|done].
        apply acknowledged_lookup in E as [[E _]|(? & ? & _)]; congruence.
      * intros code g Hcg. destruct (Hr _ _ Hcg) as (k & Hp & Hcase). exists k. split; [done|]. destruct Hcase as [(-> & -> & Hrev & Hapk)|[Hc' Hn]].
        -- left. split_and!; [done|done|intros g Hg; by apply acknowledged_none in Hg|].
           intros g (r0 & Hg & Hgs). right. apply acknowledged_lookup in Hg as [[-> _]|(? & _ & _ & ->)]; [|done]. apply Hrev. by exists row.
        -- right. split; [done|]. destruct (acknowledged fp row (ep_keys f) !! fpr k) as [r0|] eqn:E; [|done].
           apply acknowledged_lookup in E as [[E _]|(? & ? & _)]; congruence.
Qed.

Lemma lapse_facts now i : i_key (lapse now i) = i_key i /\ i_attempt (lapse now i) = i_attempt i.
Proof. unfold lapse. by destruct (_ && _). Qed.
Lemma on_rotate_facts code fp now i : i_key (on_rotate code fp now i) = i_key i /\ i_attempt (on_rotate code fp now i) = i_attempt i.
Proof. unfold on_rotate. destruct (_ || _); [|done]. destruct (i_lapsed i); [|done]. by case_bool_decide. Qed.
Lemma notice_key keys m m' n : i_key m' = i_key m -> notice_ok keys m n -> notice_ok keys m' n.
Proof. unfold notice_ok. by intros ->. Qed.

Lemma inv_lapse f m d at_ n t now ok b : Inv (mkSys f m d (Starting at_ n) t b) -> reads_clock now t -> t - at_ <= startup ->
  Inv (mkSys f (lapse now m) (saved ok (lapse now m) d) (Starting at_ n) t b).
Proof.
  intros [Hsv Hfit Hnm Hcr Hm Hd Hw Hf (Hat & Hno & Ha & Hap) Hst] Hc Hb. simpl in *.
  pose proof (idok_lapse _ _ _ _ _ Hm Hc Hb Hap) as Hm'. destruct (lapse_facts now m) as [Ek Et].
  constructor; simpl; try done; [by apply idok_saved|left; by rewrite Et|by apply saved_attempt|].
  split; [done|]. split; [by eapply notice_key|]. rewrite Ek, Et. done.
Qed.

Lemma inv_offer f m d at_ n t now k b : Inv (mkSys f m d (Starting at_ n) t b) -> reads_clock now t -> i_pending_fp m = "" ->
  ep_keys f !! fpr k = None -> (forall k', k' ∈ i_key m :: option_list (i_lapsed m) -> k' <> k) ->
  Inv (mkSys f (offerRotation k now m) (saved true (offerRotation k now m) d) (Open (Some k) None n) t b).
Proof.
  intros [Hsv Hfit Hnm Hcr Hm Hd Hw Hf (Hat & Hno & Ha & Hap) Hst] [Hc1 Hc2] Hp Hk Hnew. simpl in *.
  assert (IdOk (ep_keys f) t (offerRotation k now m)) as Hm'.
  { destruct Hm as [Hma Hmk Hmr Hml Hmn Hmd]. constructor; simpl; try done.
    - destruct Hma as (k' & Hin & Hap'). exists k'. split; [|done]. unfold held in *. simpl. rewrite elem_of_cons, elem_of_app in Hin.
      destruct Hin as [->|[Hin|Hin]]; [by left| |set_solver]. exfalso. unfold pendingFingerprint in Hmn.
      destruct (i_pending m) as [q|] eqn:Eq; [|set_solver]. assert (k' = q) as -> by set_solver.
      destruct Hap' as (r & Hr & _). specialize (Hnm _ _ Hr). simpl in Hnm. rewrite Hp in Hmn. by apply (pending_named q).
    - intros fp row H1 H2. destruct (Hmr _ _ H1 H2) as [H3 H4]. split; [done|]. intros Hlive. destruct (H4 Hlive) as (k' & Hin & Ek).
      exists k'. split; [|done]. unfold spare in *. simpl. rewrite elem_of_app in Hin. destruct Hin as [Hin|Hin]; [|set_solver]. exfalso.
      unfold pendingFingerprint in Hmn. destruct (i_pending m) as [q|] eqn:Eq; [|set_solver]. rewrite Hp in Hmn. by apply (pending_named q).
    - intros l q row El _ Hrow. specialize (Hcr _ _ Hrow). simpl in Hcr. lia.
    - unfold held in *. simpl. apply NoDup_cons in Hmd as [Hd1 Hd2]. rewrite elem_of_app in Hd1. apply NoDup_app in Hd2 as (_ & _ & Hd2).
      constructor; [|constructor; [|done]]; intros Hin; [apply elem_of_cons in Hin as [E|Hin]; [by apply (Hnew (i_key m)); [left|]|tauto]|].
      by apply (Hnew k); [right|]. }
  constructor; simpl; try done; [by apply idok_attempt|by left|]. split; [by eapply notice_key|]. split; [done|]. split; [|done].
  intros k' [= <-]. done.
Qed.

Lemma inv_offer_unsaved f m d at_ n t now b : Inv (mkSys f m d (Starting at_ n) t b) -> i_pending_fp m = "" ->
  Inv (mkSys f (offer_dropped now m) d Away t b).
Proof.
  intros [Hsv Hfit Hnm Hcr Hm Hd Hw Hf (Hat & Hno & Ha & Hap) Hst] Hp. simpl in *.
  assert (i_pending m = None) as Hpn.
  { destruct Hm as [_ _ _ _ Hmn _]. unfold pendingFingerprint in Hmn. destruct (i_pending m) as [q|]; [|done]. by destruct (pending_named q); congruence. }
  constructor; simpl; try done; [|by left]. destruct Hm as [Hma Hmk Hmr Hml Hmn Hmd]. unfold held, spare in *. rewrite Hpn in *.
  by constructor.
Qed.

Lemma inv_reply f m d t now code fp n ok b : Inv (mkSys f m d (Open None (Some (code, fp)) n) t b) ->
  Inv (mkSys f (on_rotate code fp now m) (saved ok (on_rotate code fp now m) d) (Open None None n) t b).
Proof.
  intros [Hsv Hfit Hnm Hcr Hm Hd Hw Hf (Hno & Ha & _ & Hr) Hst]. simpl in *.
  pose proof (idok_reply _ _ _ _ _ now Hm Hfit (Hr _ _ eq_refl)) as Hm'. destruct (on_rotate_facts code fp now m) as [Ek Et].
  constructor; simpl; try done; [by apply idok_saved|left; by rewrite Et|by apply saved_attempt|].
  split; [by eapply notice_key|]. by rewrite Et.
Qed.

Lemma inv_notice f m d t o r fp ok b : Inv (mkSys f m d (Open o r (Some fp)) t b) ->
  Inv (mkSys f (on_rotated fp m).1 (if (on_rotated fp m).2 then saved ok (on_rotated fp m).1 d else d)
         (if (on_rotated fp m).2 then Away else Open o r (Some fp)) t b).
Proof.
  unfold on_rotated. destruct (_ && _) eqn:E; [|done]. simpl. intros [Hsv Hfit Hnm Hcr Hm Hd Hw Hf ((Hap & Hne & Hnr) & _) Hst]. simpl in *.
  rewrite !andb_true_iff, negb_true_iff in E. destruct E as ((E1 & _) & E2). apply bool_decide_eq_false in E1. apply bool_decide_eq_true in E2.
  unfold pendingFingerprint in E2. destruct (i_pending m) as [k|] eqn:Ek; [|done]. subst fp.
  assert (IdOk (ep_keys f) t (Promote m)) as Hm'.
  { unfold Promote. rewrite Ek. constructor; simpl; try done.
    - exists k. split; [by left|done].
    - destruct Hap as (row & ? & ?). exists row. split; [done|congruence].
    - intros g row H1 H2. destruct (Hnr g). by exists row.
    - apply NoDup_singleton. }
  constructor; simpl; try done; [by apply idok_saved|by left|by apply saved_attempt].
Qed.

Lemma inv_closed f m d t o r fp b : Inv (mkSys f m d (Open o r (Some fp)) t b) -> Inv (mkSys f (tryNext m).1 d Away t b).
Proof.
  intros [Hsv Hfit Hnm Hcr Hm Hd Hw Hf ((Hap & Hne & Hnr) & Ha & _) Hst]. simpl in *.
  assert (~ approved_in (ep_keys f) (fpr (signingKey m))) as Hs.
  { rewrite (signing_first _ Ha). intros H. apply Hne. by apply (approved_unique _ _ _ Hfit). }
  destruct (tryNext_walk _ _ _ Hfit Hm Hs Hw) as [Hw' _]. constructor; simpl; try done. by apply idok_tryNext.
Qed.

Lemma rstep_inv s s' : rstep s s' -> Inv s -> Inv s'.
Proof.
  intros H Hi. destruct H; eauto using inv_accepted, inv_refused, inv_lapse, inv_offer, inv_offer_unsaved, inv_record, inv_reply,
    inv_acknowledge, inv_notice, inv_closed; destruct Hi as [Hsv Hfit Hnm Hcr Hm Hd Hw Hf Hs Hst]; simpl in *.
  - constructor; simpl; try done; [|by eapply idok_time|by eapply idok_time|by eapply session_time].
    intros fp k Hk. specialize (Hcr _ _ Hk). simpl in Hcr. lia.
  - constructor; simpl; rewrite ?H0; done.
  - constructor; simpl; try done. destruct Hs as (? & Hno & Ha & _). done.
  - constructor; simpl; try done. destruct Hs as (Hno & Ha & Ho & _). split_and!; [done|done|done|].
    intros code fp [= <- <-]. destruct (Ho _ eq_refl) as (Hp & _ & Hn & _). exists k. split; [done|]. by right.
  - by constructor.
  - constructor; simpl; try done; [by apply idok_attempt|]. destruct s; simpl in *; [done|done|].
    destruct Hs as (? & ? & Ho & ?). split_and!; try done. intros k' Hk'. by destruct (Ho _ Hk') as (? & _ & ? & _ & ?).
  - constructor; simpl; try done. by left.
Qed.
Lemma rsteps_inv s s' : rsteps s s' -> Inv s -> Inv s'.
Proof. induction 1; eauto using rstep_inv. Qed.

(** ** What the protocol gives *)

(** An agent whose one key was just approved. *)
Definition own_key (k : Priv) : Identity := mkIdentity k None "" zero_time false None false 0.
Definition starts (s : Sys) : Prop := exists f k (c t : time),
  s = mkSys f (own_key k) (own_key k) Away t false /\
  in_service f /\ ep_keys f = {[fpr k := mkKey (Public k) KeyApproved c]} /\ c <= t + skew.

(** The redials of an agent: each attempt is one handshake. *)
Fixpoint dial (attempts : nat) (f : Fleet) (now : time) (m : Identity) : bool :=
  match attempts with
  | O => false
  | S n =>
      match AgentIdentity id (fpr (signingKey m)) now f with
      | Ok _ => true
      | Fail err => let '(m', stop) := refused_auth err m in if stop then false else dial n f now m'
      end
  end.

Lemma starts_inv s : starts s -> Inv s.
Proof.
  intros (f & k & c & t & -> & Hs & Hk & Hc).
  assert (approved_in (ep_keys f) (fpr k)) as Hap by (rewrite Hk; eexists; rewrite lookup_singleton_eq; done).
  assert (forall g row, ep_keys f !! g = Some row -> g = fpr k /\ row = mkKey (Public k) KeyApproved c) as Hrow.
  { intros g row. rewrite Hk. by intros [<- <-]%lookup_singleton_Some. }
  assert (IdOk (ep_keys f) t (own_key k)) as Hid.
  { constructor; simpl; try done.
    - exists k. split; [by left|done].
    - destruct Hap as (row & ? & ?). exists row. split; [done|congruence].
    - intros g row H1 H2. by destruct (Hrow _ _ H1) as [_ ->].
    - apply NoDup_singleton. }
  constructor; simpl; try done; [| | |by left].
  - exists (fpr k). split_and!; [done| |]; [by intros g (row & [-> _]%Hrow & _)|].
    intros g g' (row & [_ ->]%Hrow & Hst). done.
  - by intros g row [-> ->]%Hrow.
  - by intros g row [_ ->]%Hrow.
Qed.

Lemma refused_steps f m d t now err : Inv (mkSys f m d Away t false) -> AgentIdentity id (fpr (signingKey m)) now f = Fail err ->
  (refused_auth err m).2 = false /\ candidates (refused_auth err m).1 = candidates m /\
  i_attempt (refused_auth err m).1 = S (i_attempt m) /\ (i_attempt m < length (candidates m))%nat.
Proof.
  intros Hi H. pose proof (v_running _ (inv_refused _ _ _ _ _ _ Hi H)) as Hst. simpl in Hst. destruct Hi as [Hsv Hfit _ _ Hm _ Hw _ _ _]. simpl in *.
  pose proof (identity_answer f (fpr (signingKey m)) now Hsv) as Ha. rewrite H in Ha. destruct Ha as [Hna Hcase].
  destruct (tryNext_walk _ _ _ Hfit Hm Hna Hw) as [_ Ht].
  assert (forall m', m' = (tryNext m).1 -> candidates m' = candidates m /\ i_attempt m' = S (i_attempt m) /\ (i_attempt m < length (candidates m))%nat) as Hn.
  { intros m' ->. unfold tryNext in *. by destruct (Nat.leb_spec (length (candidates m)) (i_attempt m)). }
  destruct Hcase as [->|[->|[-> (row & Hrow & Hrs)]]]; simpl in *.
  - split; [done|by apply Hn].
  - destruct (recovering m); [|done]. destruct (tryNext m) as [m' b] eqn:Et. simpl in *. split; [done|by apply Hn].
  - exfalso. destruct (io_review _ _ _ Hm _ _ Hrow Hrs) as [Hap _]. destruct Hw as [E|[Hn' _]]; [|done]. by rewrite (signing_first _ E) in Hna.
Qed.

Lemma dial_enough n f m d t now : Inv (mkSys f m d Away t false) -> (length (candidates m) < n + i_attempt m)%nat -> dial n f now m = true \/
  (n = 0 /\ length (candidates m) < i_attempt m)%nat.
Proof.
  revert m. induction n as [|n IH]; intros m Hi Hl; [by right|]. left. simpl. destruct (AgentIdentity _ _ _ _) as [pub|err] eqn:E; [done|].
  destruct (refused_steps _ _ _ _ _ _ Hi E) as (Hs & Hc & Ha & Hlt). pose proof (inv_refused _ _ _ _ _ _ Hi E) as Hi'.
  destruct (refused_auth err m) as [m' stop]. simpl in *. subst stop. destruct (IH m' Hi') as [|[_ Hx]]; [rewrite Hc, Ha; lia|done|]. rewrite Hc, Ha in Hx. lia.
Qed.
Lemma candidates_two i : (length (candidates i) <= 2)%nat.
Proof. unfold candidates. simpl. destruct (i_recorded i), (i_lapsed_recorded i), (i_pending i), (i_lapsed i); simpl; lia. Qed.
Lemma dial_three f m d t now : Inv (mkSys f m d Away t false) -> dial 3 f now m = true.
Proof. intros Hi. pose proof (candidates_two m). destruct (dial_enough 3 f m d t now Hi) as [|[? _]]; [lia|done|done]. Qed.

(** C19: However handshakes, offers, answers, acknowledgements, notices, lost sessions, failing writes
    and restarts interleave, an agent whose endpoint stays in service never stops for good, and the
    key the server accepts is always among the keys it holds, in memory and on disk, provided
    the clocks' skew and the delay of its start up stay within the day the agent waits longer
    than the server. *)
Theorem never_stranded s0 s : starts s0 -> rsteps s0 s ->
  s_stopped s = false /\
  exists fp, approved_in (ep_keys (s_fleet s)) fp /\
    (exists k, k ∈ held (s_mem s) /\ fpr k = fp) /\ (exists k, k ∈ held (s_disk s) /\ fpr k = fp).
Proof.
  intros H0 H. destruct (rsteps_inv _ _ H (starts_inv _ H0)) as [_ Hfit _ _ [Hm _ _ _ _ _] [Hd _ _ _ _ _] _ _ _ Hst]. split; [done|].
  destruct Hm as (k & Hk & Hap), Hd as (k' & Hk' & Hap'). exists (fpr k). split_and!; [done|by exists k|].
  exists k'. split; [done|]. by apply (approved_unique _ _ _ Hfit).
Qed.

(** C20: From every such state three handshakes are enough to be accepted again, with the identity in
    memory and with the one a restart reads. *)
Theorem reconnects s0 s now : starts s0 -> rsteps s0 s ->
  dial 3 (s_fleet s) now (s_mem s) = true /\ dial 3 (s_fleet s) now (s_disk s) = true.
Proof.
  intros H0 H. pose proof (rsteps_inv _ _ H (starts_inv _ H0)) as Hi. destruct s as [f m d s t b]. simpl. split.
  - apply (dial_three f m d t). apply rstep_inv with (2 := Hi). replace false with b by (by destruct Hi). apply r_dropped.
  - apply (dial_three f d d t). apply rstep_inv with (2 := Hi). apply r_restart.
Qed.
End Keys.

(** ** A rotation whose answer is lost *)

Inductive DemoKey : Set := K1 | K2.
#[export] Instance DemoKey_eq : EqDecision DemoKey.
Proof. solve_decision. Defined.
Definition kr_public (k : DemoKey) : string :=
  match k with K1 => "AAAAAAAAAAAAAAAAAAAAAAAAAAAAAAAA" | K2 => "BBBBBBBBBBBBBBBBBBBBBBBBBBBBBBBB" end.
Definition kr_sign (k : DemoKey) (m : string) : string := (kr_public k ++ kr_public k)%string.
Definition kr_verify (pub m s : string) : bool := bool_decide (substring 0 32 s = pub).
Definition kr_ep : Ep :=
  mkEp "org" "env" "host-1" "docker" EActive ∅ 0 "alice" None [] 0 {[kr_public K1 := mkKey (kr_public K1) KeyApproved 0]} ∅ None ∅.
Definition kr_fleet : Fleet := mkFleet {["ep_1" := kr_ep]} ∅.
Definition kr_offered : Identity := offerRotation kr_public id id K2 Hour (own_key K1).
Definition kr_answer := RotateEndpointKey kr_verify id id "ep_1" (kr_public K2) (offer_signature kr_public kr_sign id K2 kr_offered) Hour kr_fleet.
Definition kr_recorded : Fleet := match kr_answer with Ok (_, f) => f | Fail _ => kr_fleet end.
Definition kr_acknowledged : Fleet :=
  match AcknowledgeEndpointKey "org" "ep_1" (kr_public K2) (2 * Hour) kr_recorded with Ok f => f | Fail _ => kr_recorded end.
(** The second key is acknowledged while the agent, which never read the answer, is away. *)
Definition kr_start : Sys := mkSys kr_fleet (own_key K1) (own_key K1) Away Hour false.
Definition kr_refused : Sys :=
  mkSys kr_acknowledged (refused_auth ErrKeyRetired kr_offered).1 (with_attempt 0 kr_offered) Away (2 * Hour) false.

Lemma kr_starts : starts kr_public id id "ep_1" "org" Minute kr_start.
Proof. exists kr_fleet, K1, 0, Hour. split_and!; [done| |done|done]. by exists kr_ep. Qed.
Lemma kr_trace : rsteps kr_public kr_sign kr_verify id id "ep_1" "org" Minute Minute kr_start kr_refused.
Proof.
  eapply rsteps_cons. { apply (r_accepted _ _ _ _ _ _ _ _ _ _ (own_key K1) _ _ Hour true (kr_public K1)); [done|by vm_compute]. }
  eapply rsteps_cons. { apply (r_offer _ _ _ _ _ _ _ _ _ _ (own_key K1) _ _ _ _ Hour K2); [done|done|by vm_compute|].
    intros k' Hk'. simpl in Hk'. by apply list_elem_of_singleton in Hk' as ->. }
  eapply rsteps_cons. { apply (r_record _ _ _ _ _ _ _ _ _ _ kr_offered _ _ Hour K2). done. }
  eapply rsteps_cons. { apply r_dropped. }
  eapply rsteps_cons. { apply (r_time _ _ _ _ _ _ _ _ _ _ _ _ _ _ (2 * Hour)). done. }
  eapply rsteps_cons. { apply (r_acknowledge _ _ _ _ _ _ _ _ _ kr_recorded _ _ _ _ (2 * Hour) (kr_public K2) kr_acknowledged); [done|by vm_compute]. }
  eapply rsteps_cons. { apply (r_refused _ _ _ _ _ _ _ _ _ _ _ _ _ (2 * Hour) ErrKeyRetired); [done|by vm_compute]. }
  constructor.
Qed.
Lemma kr_fpr_inj k k' : fpr kr_public id id k = fpr kr_public id id k' -> k = k'.
Proof. by destruct k, k'. Qed.
Lemma kr_verify_sound pub k m m' : kr_verify pub m (kr_sign k m') = true -> pub = kr_public k.
Proof. intros <-%bool_decide_eq_true. by destruct k. Qed.
Lemma kr_named k : "" <> fpr kr_public id id k.
Proof. by destruct k. Qed.

Lemma never_stranded_witness :
  s_stopped kr_refused = false /\
  exists fp, approved_in (ep_keys "ep_1" (s_fleet kr_refused)) fp /\
    (exists k, k ∈ held (s_mem kr_refused) /\ fpr kr_public id id k = fp) /\ (exists k, k ∈ held (s_disk kr_refused) /\ fpr kr_public id id k = fp).
Proof.
  apply (never_stranded kr_public kr_sign kr_verify id id "ep_1" "org" Minute Minute kr_fpr_inj kr_verify_sound kr_named) with (s0 := kr_start);
    [done|done|done|apply kr_starts|apply kr_trace].
Defined.
Lemma reconnects_witness :
  dial kr_public id id "ep_1" 3 (s_fleet kr_refused) (2 * Hour) (s_mem kr_refused) = true /\
  dial kr_public id id "ep_1" 3 (s_fleet kr_refused) (2 * Hour) (s_disk kr_refused) = true.
Proof.
  apply (reconnects kr_public kr_sign kr_verify id id "ep_1" "org" Minute Minute kr_fpr_inj kr_verify_sound kr_named) with (s0 := kr_start);
    [done|done|done|apply kr_starts|apply kr_trace].
Defined.
