(* ===== verification/ClusterObjects.v ===== *)
(** * The objects of a cluster deployment

    internal/runtime/kubernetes/render/render.go: one deployment request becomes, per service, a
    Deployment, a Service, a ConfigMap, a Secret and the claims it mounts, labelled as KyYard's; and
    installer.go's recognition of installer-managed objects.

    The object types are the fields of the Kubernetes API the code sets or reads.  What an object
    read from the cluster has beside them is carried as opaque text ([..._other]), so that an object
    written back is the object read.  SHA-256 in hex is a parameter.  A [None] is a panic. *)
From Stdlib Require Import ZArith Lia Ascii String.
From stdpp Require Import base gmap sets strings list.
From S2P Require Import Prelude.
From S2P Require Import Regex.
From S2P Require Import Grammar.
From S2P Require Import Text.
From S2P Require Import KubeNames.
From S2P Require Import Inspection.
From S2P Require Import Frame.

(** ** Objects *)

Inductive Kind : Set := ConfigMapKind | SecretKind | DeploymentKind | ServiceKind | ClaimKind.
#[export] Instance Kind_eq_dec : EqDecision Kind.
Proof. solve_decision. Defined.
Definition kind_name (k : Kind) : string :=
  match k with
  | ConfigMapKind => "ConfigMap" | SecretKind => "Secret" | DeploymentKind => "Deployment"
  | ServiceKind => "Service" | ClaimKind => "PersistentVolumeClaim"
  end.

Record Meta := mkMeta {
  mt_name : string; mt_namespace : string; mt_labels : gmap string string; mt_annotations : gmap string string;
  mt_uid : string; mt_version : string; mt_generation : Z }.
Record ConfigMap := mkConfigMap { cfm_meta : Meta; cfm_data : gmap string string }.
Record Secret := mkSecret { sec_meta : Meta; sec_type : string; sec_data : gmap string string }.
Record ServicePort := mkServicePort { svp_name : string; svp_port : Z; svp_target : Z; svp_protocol : string }.
Record ClusterService := mkClusterService {
  svc_meta : Meta; svc_type : string; svc_ip : string; svc_ips : list string; svc_families : list string;
  svc_policy : option string; svc_selector : gmap string string; svc_ports : list ServicePort; svc_other : string }.
Record Claim := mkClaimObject {
  pvc_meta : Meta; pvc_access : list string; pvc_class : option string; pvc_size : string; pvc_phase : string }.

Inductive EnvSource := FromConfigMap (name : string) | FromSecret (name : string).
Record PodMount := mkPodMount { pmt_name : string; pmt_path : string; pmt_readonly : bool }.
Record PodContainerSpec := mkPodContainer {
  pcs_name : string; pcs_image : string; pcs_ports : list (Z * string); pcs_env : list EnvSource; pcs_mounts : list PodMount }.
Record PodTemplate := mkTemplate {
  tpl_labels : gmap string string; tpl_annotations : gmap string string; tpl_restart : string; tpl_automount : option bool;
  tpl_containers : list PodContainerSpec; tpl_volumes : list (string * string); tpl_other : string }.
Inductive Strategy := RollingUpdate (unavailable surge : Z) | Recreate | OtherStrategy (text : string).
Record RolloutCondition := mkRolloutCondition { rc_type : string; rc_status : string; rc_reason : string }.
Record RolloutStatus := mkRollout {
  ro_observed : Z; ro_replicas : Z; ro_updated : Z; ro_ready : Z; ro_available : Z; ro_conditions : list RolloutCondition }.
Record ClusterDeployment := mkClusterDeployment {
  dpl_meta : Meta; dpl_replicas : option Z; dpl_strategy : Strategy; dpl_min_ready : Z; dpl_progress : option Z;
  dpl_selector : gmap string string; dpl_template : PodTemplate; dpl_status : RolloutStatus; dpl_other : string }.

Definition Obj (k : Kind) : Type :=
  match k with
  | ConfigMapKind => ConfigMap | SecretKind => Secret | DeploymentKind => ClusterDeployment
  | ServiceKind => ClusterService | ClaimKind => Claim
  end.
Definition meta {k : Kind} : Obj k -> Meta :=
  match k with
  | ConfigMapKind => cfm_meta | SecretKind => sec_meta | DeploymentKind => dpl_meta
  | ServiceKind => svc_meta | ClaimKind => pvc_meta
  end.
Definition with_version (v : string) (m : Meta) : Meta :=
  mkMeta (mt_name m) (mt_namespace m) (mt_labels m) (mt_annotations m) (mt_uid m) v (mt_generation m).
Definition set_version {k : Kind} (v : string) : Obj k -> Obj k :=
  match k with
  | ConfigMapKind => fun o => mkConfigMap (with_version v (cfm_meta o)) (cfm_data o)
  | SecretKind => fun o => mkSecret (with_version v (sec_meta o)) (sec_type o) (sec_data o)
  | DeploymentKind => fun o => mkClusterDeployment (with_version v (dpl_meta o)) (dpl_replicas o) (dpl_strategy o) (dpl_min_ready o)
      (dpl_progress o) (dpl_selector o) (dpl_template o) (dpl_status o) (dpl_other o)
  | ServiceKind => fun o => mkClusterService (with_version v (svc_meta o)) (svc_type o) (svc_ip o) (svc_ips o) (svc_families o)
      (svc_policy o) (svc_selector o) (svc_ports o) (svc_other o)
  | ClaimKind => fun o => mkClaimObject (with_version v (pvc_meta o)) (pvc_access o) (pvc_class o) (pvc_size o) (pvc_phase o)
  end.

(** ** Ownership *)

Definition LabelName : string := "app.kubernetes.io/name".
Definition LabelInstanceName : string := "app.kubernetes.io/instance".
Definition LabelManagedBy : string := "app.kubernetes.io/managed-by".
Definition LabelApplication : string := "kyyard.busnes.app/application".
Definition LabelInstance : string := "kyyard.busnes.app/instance".
Definition LabelService : string := "kyyard.busnes.app/service".
Definition AnnotationRevision : string := "kyyard.busnes.app/revision".
Definition AnnotationDeployment : string := "kyyard.busnes.app/deployment".
Definition AnnotationSpecDigest : string := "kyyard.busnes.app/spec-digest".
Definition ProgressDeadlineSeconds : Z := 540.
Definition MinReadySeconds : Z := 10.

Definition installer_labels (labels : gmap string string) : bool := bool_decide (labels !! "ky.managed-by" = Some "kyquickstart").
Definition installerManagedObject {k : Kind} : Obj k -> bool :=
  match k with
  | DeploymentKind => fun o => installer_labels (mt_labels (dpl_meta o)) || installer_labels (tpl_labels (dpl_template o))
  | k => fun o => installer_labels (mt_labels (meta o))
  end.
(** A missing label reads as the empty string. *)
Definition owned (instance : string) {k : Kind} (o : Obj k) : bool :=
  negb (installerManagedObject o) && bool_decide (default "" (mt_labels (meta o) !! LabelInstance) = instance).

(** ** Rendering *)

Definition int32 (n : Z) : Z := (n + 2 ^ 31) mod 2 ^ 32 - 2 ^ 31.
(** A protocol is lower-case ASCII when the frame validates. *)
Definition upper_byte (c : ascii) : ascii := if range "a" "z" c then chr (code c - 32) else c.
Fixpoint upper_ascii (s : string) : string :=
  match s with EmptyString => "" | String c s' => String (upper_byte c) (upper_ascii s') end.
Fixpoint dashes (s : string) : string :=
  match s with EmptyString => "" | String c s' => String (if ascii_eqb c "_" then "-"%char else c) (dashes s') end.

(** The Secret beside a ConfigMap: [^(.+)-env(-[0-9a-f]{10})?$]; a hexadecimal suffix never ends in
    "-env", so at most one of the two readings applies. *)
Definition env_base (s : string) : option string :=
  let n := (String.length s - 4)%nat in
  if bool_decide (drop_str n s = "-env") && (1 <=? n)%nat && negb (contains_byte "010" (take_str n s)) then Some (take_str n s) else None.
Definition revision_suffix : re := Cat (Lit "-") (Rep lowhex 10 10).
Definition SecretFor (configMap : string) : option string :=
  let n := (String.length configMap - 11)%nat in
  if re_match revision_suffix (drop_str n configMap)
  then (fun b => b +:+ "-secret" +:+ drop_str n configMap) <$> env_base (take_str n configMap)
  else (fun b => b +:+ "-secret") <$> env_base configMap.

Record ObjectSet := mkSet {
  set_service : string; set_name : string; set_config : ConfigMap; set_secret : option Secret;
  set_deployment : ClusterDeployment; set_endpoint : option ClusterService; set_claims : list Claim }.

Definition Labels (r : DeploymentRequest) (k : KubernetesTarget) (s : string) : gmap string string :=
  list_to_map [(LabelName, s); (LabelInstanceName, dr_project r); (LabelManagedBy, "kyyard"); (LabelApplication, kt_application k);
               (LabelInstance, kt_instance k); (LabelService, s)].
Definition Selector (instance s : string) : gmap string string := list_to_map [(LabelInstance, instance); (LabelService, s)].

Definition no_rollout : RolloutStatus := mkRollout 0 0 0 0 0 [].

Fixpoint container_ports (l : list Port) (out : list (Z * string)) : list (Z * string) :=
  match l with
  | [] => out
  | p :: l' =>
      let c := (int32 (port_container p), upper_ascii (port_protocol p)) in
      container_ports l' (if bool_decide (c ∈ out) then out else out ++ [c])
  end.
Definition service_port (p : Port) : ServicePort :=
  mkServicePort (port_protocol p +:+ "-" +:+ Itoa (port_host p)) (int32 (port_host p)) (int32 (port_container p)) (upper_ascii (port_protocol p)).

Definition claim (c : KubernetesClaim) (m : Meta) : Claim :=
  mkClaimObject m ["ReadWriteOnce"] (if bool_decide (k_class c = "") then None else Some (k_class c)) (k_size c) "".

(** The pod's volumes and the claims, one for each claim mounted. *)
Fixpoint mounted_claims (claims : list KubernetesClaim) (m : string -> Meta) (l : list KubernetesMount) (seen : list string)
    : option (list Claim) :=
  match l with
  | [] => Some []
  | v :: l' =>
      if bool_decide (km_claim v ∈ seen) then mounted_claims claims m l' seen
      else match List.find (fun c => bool_decide (k_name c = km_claim v)) claims with
           | None => None
           | Some c => cons (claim c (m (km_claim v))) <$> mounted_claims claims m l' (seen ++ [km_claim v])
           end
  end.

Section Render.
Context (sum_hex : string -> string).

Definition render_service (r : DeploymentRequest) (k : KubernetesTarget) (s : DeploymentService) (name : string) : option ObjectSet :=
  let m n := mkMeta n (kt_namespace k) (Labels r k (s_name s))
               (list_to_map [(AnnotationRevision, Itoa (dr_revision r)); (AnnotationDeployment, dr_deployment r);
                             (AnnotationSpecDigest, kt_spec_digest k)]) "" "" 0 in
  let suffix := "-" +:+ take_str 10 (sum_hex (dr_deployment r)) in
  let envName := name +:+ "-env" +:+ suffix in
  let secretName := name +:+ "-secret" +:+ suffix in
  let is_secret key := bool_decide (key ∈ s_secret_keys s) in
  let config := filter (fun kv : string * string => is_secret kv.1 = false) (s_env s) in
  let secret := filter (fun kv : string * string => is_secret kv.1 = true) (s_env s) in
  let sealed := negb (llen (s_secret_keys s) =? 0) in
  match s_pull s, mounted_claims (kt_claims k) m (s_volumes s) [] with
  | Some pull, Some claims =>
      let env := FromConfigMap envName :: (if sealed then [FromSecret secretName] else []) in
      let container := mkPodContainer (dashes (s_name s)) (pull_reference pull) (container_ports (s_ports s) []) env
                         (map (fun v => mkPodMount (km_claim v) (km_path v) (km_readonly v)) (s_volumes s)) in
      let template := mkTemplate (Labels r k (s_name s)) {[AnnotationDeployment := dr_deployment r]} "Always" (Some false) [container]
                        (map (fun c => (mt_name (pvc_meta c), mt_name (pvc_meta c))) claims) "" in
      let strategy := if llen (s_volumes s) >? 0 then Recreate else RollingUpdate 0 1 in
      Some (mkSet (s_name s) name (mkConfigMap (m envName) config)
             (if sealed then Some (mkSecret (m secretName) "Opaque" secret) else None)
             (mkClusterDeployment (m name) (Some 1) strategy MinReadySeconds (Some ProgressDeadlineSeconds)
                (Selector (kt_instance k) (s_name s)) template no_rollout "")
             (if llen (s_ports s) >? 0
              then Some (mkClusterService (m name) "ClusterIP" (s_cluster_ip s) [] [] None (Selector (kt_instance k) (s_name s))
                           (map service_port (s_ports s)) "")
              else None) claims)
  | _, _ => None
  end.

Definition Request (r : DeploymentRequest) (k : KubernetesTarget) : option (list ObjectSet) :=
  let names := KubernetesNames sum_hex (dr_project r) (map s_name (dr_services r)) in
  mapM (fun s => render_service r k s (default "" (names !! s_name s))) (dr_services r).
End Render.
