(* ===== verification/ClusterRun.v ===== *)
(** * Applying to a cluster and removing from it

    internal/runtime/kubernetes/deploy.go and remove.go: a deployment applied object by object with
    its rollouts awaited, and the removal of an instance's objects.

    A run is a program over the API server's calls ([Prog]): which calls it makes, in which order,
    and what it does with each answer.  [execute] runs it against a server that may answer anything,
    given what was asked before.  An error carries what the code asks of it: the status if the
    server answered one, and what the run's contexts say when it is classified.  Loops the server
    can prolong (an object that vanishes before each update, a rollout that does not finish, pages
    that go on) take fuel, and a run without any left is [Stuck]. *)
From Stdlib Require Import ZArith Lia Ascii String.
From stdpp Require Import base gmap sets strings list sorting.
From S2P Require Import Prelude.
From S2P Require Import Regex.
From S2P Require Import Grammar.
From S2P Require Import Text.
From S2P Require Import KubeNames.
From S2P Require Import Inspection.
From S2P Require Import Frame.
From S2P Require Import DockerRun.
From S2P Require Import ClusterObjects.

(** ** The API server *)

(** A status of the server, by the client library's predicate that holds of it; the API documents
    the code of each, and an invalid object's status names the fields. *)
Inductive ApiStatus := Forbidden | NotFound | Conflict | AlreadyExists | Invalid (fields : list string) | OtherStatus (code : Z).
Record ApiErr := mkApiErr { ae_status : option ApiStatus; ae_cancelled : bool; ae_done : bool }.
Record ClusterPod := mkClusterPod { pod_created : Z; pod_waiting : list (option string) }.
Inductive Waited := Tick | Ended (cancelled : bool).

Inductive ApiCall :=
| Review (ns verb group resource name : string)
| ReadNamespace (ns : string)
| GetObject (ns : string) (k : Kind) (name : string)
| CreateObject (ns : string) (k : Kind) (o : Obj k)
| UpdateObject (ns : string) (k : Kind) (o : Obj k)
| DeleteObject (ns : string) (k : Kind) (name uid : string) (foreground : bool)
| ListObjects (ns : string) (k : Kind) (selector : gmap string string)
| ListPage (ns : string) (k : Kind) (selector : gmap string string) (continue_ : string)
| ListPods (ns : string) (selector : gmap string string)
| Poll
| Started.

Definition ApiReply (c : ApiCall) : Type :=
  match c with
  | Review _ _ _ _ _ => ApiErr + bool
  | ReadNamespace _ => ApiErr + gmap string string
  | GetObject _ k _ | CreateObject _ k _ | UpdateObject _ k _ => ApiErr + Obj k
  | DeleteObject _ _ _ _ _ => option ApiErr
  | ListObjects _ k _ => ApiErr + list (Obj k)
  | ListPage _ k _ _ => ApiErr + (list (Obj k) * string)
  | ListPods _ _ => ApiErr + list ClusterPod
  | Poll => Waited
  | Started => unit
  end.

Inductive Prog (A : Type) :=
| Ret (a : A)
| Ask (c : ApiCall) (k : ApiReply c -> Prog A)
| Stuck.
Arguments Ret {A} a. Arguments Ask {A} c k. Arguments Stuck {A}.

#[export] Instance Prog_ret : MRet Prog := fun A a => Ret a.
Definition prog_bind {A B} (f : A -> Prog B) : Prog A -> Prog B :=
  fix go p := match p with Ret a => f a | Ask c k => Ask c (fun x => go (k x)) | Stuck => Stuck end.
#[export] Instance Prog_bind : MBind Prog := fun A B f p => prog_bind f p.
Definition ask (c : ApiCall) : Prog (ApiReply c) := Ask c Ret.

Abbreviation ApiExchange := { c : ApiCall & ApiReply c }.
Abbreviation ApiHistory := (list ApiExchange).
Definition Server : Type := ApiHistory -> forall c, ApiReply c.

Fixpoint execute {A} (w : Server) (h : ApiHistory) (p : Prog A) : option A * ApiHistory :=
  match p with
  | Ret a => (Some a, h)
  | Ask c k => execute w (h ++ [existT c (w h c)]) (k (w h c))
  | Stuck => (None, h)
  end.

(** ** Errors *)

Definition code_of (s : ApiStatus) : Z :=
  match s with
  | Forbidden => 403 | NotFound => 404 | Conflict => 409 | AlreadyExists => 409 | Invalid _ => 422 | OtherStatus c => c
  end.
Definition status_code (e : ApiErr) : option Z := code_of <$> ae_status e.
Definition IsForbidden (e : ApiErr) : bool := match ae_status e with Some Forbidden => true | _ => false end.
Definition IsNotFound (e : ApiErr) : bool := match ae_status e with Some NotFound => true | _ => false end.
Definition IsConflict (e : ApiErr) : bool := match ae_status e with Some Conflict => true | _ => false end.
Definition IsAlreadyExists (e : ApiErr) : bool := match ae_status e with Some AlreadyExists => true | _ => false end.

Definition failure (e : ApiErr) : Answer :=
  if IsForbidden e then deny "forbidden"
  else if match status_code e with Some c => (100 <=? c) && (c <=? 599) | None => false end
  then (OutcomeFailed, "runtime_status", Itoa (default 0 (status_code e)))
  else if ae_cancelled e then (OutcomeUnknown, "cancelled", "")
  else if ae_done e then timed_out "runtime_timeout"
  else fail "runtime_error".

Definition clientError (e : ApiErr) : bool :=
  match status_code e with Some c => (400 <=? c) && (c <? 500) | None => false end.
Definition transient (e : ApiErr) : bool :=
  match status_code e with None => true | Some c => (c =? 429) || (500 <=? c) end.

Definition object_ref (k : Kind) (name : string) : string := kind_name k +:+ "/" +:+ name.
Definition nameTaken (k : Kind) (name : string) : Answer := (OutcomeDenied, "name_taken", object_ref k name).
Definition claimImmutable (name : string) : Answer := (OutcomeDenied, "claim_immutable", object_ref ClaimKind name).
Definition kindResource (k : Kind) : string * string :=
  match k with
  | ConfigMapKind => ("", "configmaps") | SecretKind => ("", "secrets") | DeploymentKind => ("apps", "deployments")
  | ServiceKind => ("", "services") | ClaimKind => ("", "persistentvolumeclaims")
  end.

Definition good (a : Answer) : bool := bool_decide (outcome_of a = OutcomeSucceeded).

(** ** The run *)

Record KRun := mkKRun {
  kr_outcome : string; kr_code : string; kr_steps : list DeploymentStep; kr_services : list DeploymentIdentity; kr_begun : bool }.
Definition new_krun : KRun := mkKRun "" "" [] [] false.
Definition kr_add_step (s : DeploymentStep) (r : KRun) : KRun :=
  mkKRun (kr_outcome r) (kr_code r) (kr_steps r ++ [s]) (kr_services r) (kr_begun r).
Definition kr_add_service (i : DeploymentIdentity) (r : KRun) : KRun :=
  mkKRun (kr_outcome r) (kr_code r) (kr_steps r) (kr_services r ++ [i]) (kr_begun r).
Definition kr_failed (o : string) (r : KRun) : KRun :=
  mkKRun o "step_failed" (kr_steps r) (kr_services r) (kr_begun r).

Definition kbegin (r : KRun) : Prog KRun :=
  if kr_begun r then mret r
  else _ ← ask Started; mret (mkKRun (kr_outcome r) (kr_code r) (kr_steps r) (kr_services r) true).

(** [skip] is what the captured variables hold when the step does not run. *)
Definition kstep {A} (service stp : string) (skip : A) (do_ : KRun -> Prog (Answer * A * KRun)) (r : KRun) : Prog (A * KRun) :=
  if negb (bool_decide (kr_outcome r = "")) then mret (skip, kr_add_step (mkStep service stp OutcomeSkipped "" "") r)
  else
    '(o, code, detail, a, r) ← do_ r;
    mret (a, if bool_decide (o = OutcomeSucceeded) || bool_decide (o = OutcomeSkipped)
             then kr_add_step (mkStep service stp o "" "") r
             else kr_add_step (mkStep service stp o code detail) (kr_failed o r)).

Record existing := mkExisting {
  ex_config : option ConfigMap; ex_secret : option Secret; ex_deployment : option ClusterDeployment;
  ex_service : option ClusterService; ex_claims : gmap string bool }.
Definition nothing : existing := mkExisting None None None None ∅.

Section Run.
Context (sum_hex : string -> string) (same_quantity : string -> string -> bool).
Context (fuel : nat) (ns instance : string).

(** Calls in the run's namespace. *)
Definition kget (k : Kind) (name : string) : Prog (ApiErr + option (Obj k)) :=
  x ← ask (GetObject ns k name);
  mret (match x with
        | inr o => inr (Some o)
        | inl e => if IsNotFound e then inr None else inl e
        end).

Definition allowed_ : Prog Answer :=
  x ← ask (Review ns "create" "apps" "deployments" "");
  mret (match x with inl e => failure e | inr ok => if ok : bool then succeeded else deny "forbidden" end).

Definition podSecurityEnforce : string := "pod-security.kubernetes.io/enforce".
Definition security_level (labels : gmap string string) : Answer :=
  match labels !! podSecurityEnforce with
  | None => (OutcomeDenied, "pod_security", "missing")
  | Some level =>
      if bool_decide (level ∈ ["baseline"; "restricted"]) then succeeded
      else (OutcomeDenied, "pod_security", if bool_decide (level = "privileged") then "privileged" else "invalid")
  end.
Definition podSecurity : Prog Answer :=
  x ← ask (ReadNamespace ns);
  mret (match x with inl e => failure e | inr labels => security_level labels end).

(** Whether an invalid Service was refused for the address asked for. *)
Definition address_refused (k : Kind) (e : ApiErr) : bool :=
  match k, ae_status e with
  | ServiceKind, Some (Invalid fields) => existsb (fun f => bool_decide (f = "spec.clusterIP") || HasPrefix f "spec.clusterIPs") fields
  | _, _ => false
  end.
Definition refusedWrite (e : ApiErr) (verb : string) (k : Kind) (name : string) : Prog Answer :=
  if address_refused k e then mret (OutcomeDenied, "service_ip_unavailable", object_ref ServiceKind name)
  else if negb (IsForbidden e) then mret (failure e)
  else
    x ← ask (Review ns verb (kindResource k).1 (kindResource k).2 name);
    mret (match x with
          | inl re => failure re
          | inr ok => if negb ok then deny "forbidden" else (OutcomeDenied, "admission_denied", object_ref k name)
          end).

(** ** Preconditions *)

Definition claimDiffers (have want : Claim) : bool :=
  match pvc_class want with Some c => negb (bool_decide (pvc_class have = Some c)) | None => false end
  || negb (same_quantity (pvc_size have) (pvc_size want)) || negb (bool_decide (pvc_access have = pvc_access want)).

Definition checkClaim (want : Claim) : Prog (bool * Answer) :=
  let name := mt_name (pvc_meta want) in
  x ← kget ClaimKind name;
  mret (match x with
        | inl e => (false, failure e)
        | inr None => (false, succeeded)
        | inr (Some have) =>
            (true, if negb (owned instance (k:=ClaimKind) have) then nameTaken ClaimKind name
                   else if claimDiffers have want then claimImmutable name else succeeded)
        end).

Fixpoint check_claims (l : list Claim) (found : gmap string bool) : Prog (gmap string bool * Answer) :=
  match l with
  | [] => mret (found, succeeded)
  | want :: l' =>
      '(f, a) ← checkClaim want;
      if good a then check_claims l' (<[mt_name (pvc_meta want) := f]> found) else mret (found, a)
  end.

(** A planned object, owned or absent. *)
Definition planned_object (k : Kind) (name : string) : Prog (option (Obj k) * Answer) :=
  x ← kget k name;
  mret (match x with
        | inl e => (None, failure e)
        | inr None => (None, succeeded)
        | inr (Some o) => if owned instance o then (Some o, succeeded) else (None, nameTaken k name)
        end).

Definition read_endpoint (set : ObjectSet) : Prog (option ClusterService * Answer) :=
  match set_endpoint set with
  | Some want =>
      '(s, a) ← planned_object ServiceKind (set_name set);
      mret (match s with
            | Some s => if negb (bool_decide (svc_ip want = "")) && negb (bool_decide (svc_ip s = svc_ip want))
                        then (None, (OutcomeDenied, "service_ip_immutable", object_ref ServiceKind (set_name set)))
                        else (Some s, a)
            | None => (None, a)
            end)
  | None =>
      x ← kget ServiceKind (set_name set);
      mret (match x with
            | inl e => (None, failure e)
            | inr (Some s) => (if owned instance (k:=ServiceKind) s then Some s else None, succeeded)
            | inr None => (None, succeeded)
            end)
  end.

Definition read (set : ObjectSet) : Prog (existing * Answer) :=
  '(claims, a) ← check_claims (set_claims set) ∅;
  if negb (good a) then mret (mkExisting None None None None claims, a)
  else
    '(cm, a) ← planned_object ConfigMapKind (mt_name (cfm_meta (set_config set)));
    if negb (good a) then mret (mkExisting None None None None claims, a)
    else
      '(sec, a) ← (match set_secret set with
                   | Some s => planned_object SecretKind (mt_name (sec_meta s))
                   | None => mret (None, succeeded)
                   end);
      if negb (good a) then mret (mkExisting cm None None None claims, a)
      else
        '(d, a) ← planned_object DeploymentKind (mt_name (dpl_meta (set_deployment set)));
        if negb (good a) then mret (mkExisting cm sec None None claims, a)
        else
          '(s, a) ← read_endpoint set;
          mret (mkExisting cm sec d s claims, a).

(** ** Writing *)

(** [upsert]; [keep] carries over from the object updated what the update must not change, or
    refuses.  The last component says that the last write was answered with a 4xx. *)
Definition keep_nothing {k : Kind} (want have : Obj k) : Answer + Obj k := inr want.
Fixpoint upsert (n conflicts : nat) (refused : bool) (k : Kind) (keep : Obj k -> Obj k -> Answer + Obj k) (want : Obj k)
    (have : option (Obj k)) : Prog (option (Obj k) * Answer * bool) :=
  match n with
  | O => Stuck
  | S n =>
      let name := mt_name (meta want) in
      let written (update : bool) (want : Obj k) (x : ApiErr + Obj k) : Prog (option (Obj k) * Answer * bool) :=
        match x with
        | inr got => mret (Some got, succeeded, false)
        | inl e =>
            let refused := clientError e in
            let vanished := update && IsNotFound e in
            if negb (IsConflict e) && negb (IsAlreadyExists e) && negb vanished then
              a ← refusedWrite e (if update then "update" else "create") k name;
              mret (None, a, refused)
            else
              let conflicts := if vanished then conflicts else S conflicts in
              if (1 <? conflicts)%nat then mret (None, (OutcomeFailed, "conflict", object_ref k name), refused)
              else
                y ← kget k name;
                match y with
                | inl e => mret (None, failure e, refused)
                | inr None => upsert n conflicts refused k keep want None
                | inr (Some fresh) =>
                    if owned instance fresh then upsert n conflicts refused k keep want (Some fresh)
                    else mret (None, nameTaken k name, refused)
                end
        end in
      match have with
      | None =>
          let want := set_version "" want in
          x ← ask (CreateObject ns k want);
          written false want x
      | Some have =>
          match keep (set_version (mt_version (meta have)) want) have with
          | inl a => mret (None, a, refused)
          | inr want =>
              x ← ask (UpdateObject ns k want);
              written true want x
          end
      end
  end.

(** An updated Service keeps its addresses; a requested one is never changed. *)
Definition keep_address (requested : string) (want have : ClusterService) : Answer + ClusterService :=
  if negb (bool_decide (requested = "")) && negb (bool_decide (requested = svc_ip have))
  then inl (OutcomeDenied, "service_ip_immutable", object_ref ServiceKind (mt_name (svc_meta want)))
  else inr (mkClusterService (svc_meta want) (svc_type want) (svc_ip have) (svc_ips have) (svc_families have) (svc_policy have)
              (svc_selector want) (svc_ports want) (svc_other want)).

Fixpoint create_claims (l : list Claim) (found : gmap string bool) : Prog Answer :=
  match l with
  | [] => mret succeeded
  | want :: l' =>
      let name := mt_name (pvc_meta want) in
      if default false (found !! name) then create_claims l' found
      else
        x ← ask (CreateObject ns ClaimKind want);
        match x with
        | inr _ => create_claims l' found
        | inl e =>
            if IsAlreadyExists e then
              '(_, a) ← checkClaim want;
              if good a then create_claims l' found else mret a
            else refusedWrite e "create" ClaimKind name
        end
  end.

(** [apply]: the Deployment as written, or any when a write of it may have taken effect; [None]
    when it is known not to have been written. *)
Definition apply (set : ObjectSet) (e : existing) : Prog (option ClusterDeployment * Answer) :=
  a ← (match set_endpoint set with
       | Some want => '(_, a, _) ← upsert fuel 0 false ServiceKind (keep_address (svc_ip want)) want (ex_service e); mret a
       | None => mret succeeded
       end);
  if negb (good a) then mret (None, a)
  else
    a ← create_claims (set_claims set) (ex_claims e);
    if negb (good a) then mret (None, a)
    else
      '(_, a, _) ← upsert fuel 0 false ConfigMapKind keep_nothing (set_config set) (ex_config e);
      if negb (good a) then mret (None, a)
      else
        a ← (match set_secret set with
             | Some s => '(_, a, _) ← upsert fuel 0 false SecretKind keep_nothing s (ex_secret e); mret a
             | None => mret succeeded
             end);
        if negb (good a) then mret (None, a)
        else
          '(d, a, refused) ← upsert fuel 0 false DeploymentKind keep_nothing (set_deployment set) (ex_deployment e);
          mret (if good a then d
                else if negb (bool_decide (outcome_of a = OutcomeDenied)) && negb refused then Some (set_deployment set) else None, a).

Definition drop_stale (k : Kind) (o : Obj k) : Prog Answer :=
  x ← ask (DeleteObject ns k (mt_name (meta o)) (mt_uid (meta o)) false);
  match x with
  | None => mret succeeded
  | Some e => if IsNotFound e || IsConflict e then mret succeeded else refusedWrite e "delete" k (mt_name (meta o))
  end.

Fixpoint prune_each (current : string) (l : list ConfigMap) : Prog Answer :=
  match l with
  | [] => mret succeeded
  | cm :: l' =>
      match SecretFor (mt_name (cfm_meta cm)) with
      | Some name =>
          if bool_decide (mt_name (cfm_meta cm) = current) || negb (owned instance (k:=ConfigMapKind) cm) then prune_each current l'
          else
            x ← kget SecretKind name;
            match x with
            | inl e => mret (failure e)
            | inr found =>
                a ← (match found with
                     | Some s => if owned instance (k:=SecretKind) s then drop_stale SecretKind s else mret succeeded
                     | None => mret succeeded
                     end);
                if negb (good a) then mret a
                else
                  a ← drop_stale ConfigMapKind cm;
                  if good a then prune_each current l' else mret a
            end
      | None => prune_each current l'
      end
  end.
Definition prune (set : ObjectSet) : Prog Answer :=
  x ← ask (ListObjects ns ConfigMapKind (Selector instance (set_service set)));
  match x with
  | inl e => mret (failure e)
  | inr items => prune_each (mt_name (cfm_meta (set_config set))) items
  end.

Definition with_template (t : PodTemplate) (d : ClusterDeployment) : ClusterDeployment :=
  mkClusterDeployment (dpl_meta d) (dpl_replicas d) (dpl_strategy d) (dpl_min_ready d) (dpl_progress d) (dpl_selector d) t
    (dpl_status d) (dpl_other d).
Definition with_ports (l : list ServicePort) (s : ClusterService) : ClusterService :=
  mkClusterService (svc_meta s) (svc_type s) (svc_ip s) (svc_ips s) (svc_families s) (svc_policy s) (svc_selector s) l (svc_other s).

Definition restore (prev : ClusterDeployment) : Prog bool :=
  x ← ask (GetObject ns DeploymentKind (mt_name (dpl_meta prev)));
  match x with
  | inl _ => mret false
  | inr d =>
      if negb (bool_decide (mt_uid (dpl_meta d) = mt_uid (dpl_meta prev))) || negb (owned instance (k:=DeploymentKind) d) then mret false
      else
        y ← ask (UpdateObject ns DeploymentKind (with_template (dpl_template prev) d));
        mret (match y with inr _ => true | inl _ => false end)
  end.
Definition restoreService (set : ObjectSet) (e : existing) : Prog unit :=
  match set_endpoint set, ex_service e with
  | Some _, Some prev =>
      x ← ask (GetObject ns ServiceKind (mt_name (svc_meta prev)));
      match x with
      | inl _ => mret tt
      | inr s =>
          if negb (bool_decide (mt_uid (svc_meta s) = mt_uid (svc_meta prev))) || negb (owned instance (k:=ServiceKind) s) then mret tt
          else
            _ ← ask (UpdateObject ns ServiceKind (with_ports (svc_ports prev) s));
            mret tt
      end
  | _, _ => mret tt
  end.

(** ** The rollout *)

Definition ready (d : ClusterDeployment) : bool :=
  let want := default 1 (dpl_replicas d) in
  let s := dpl_status d in
  (mt_generation (dpl_meta d) <=? ro_observed s) && (ro_replicas s =? want) && (ro_updated s =? want) && (ro_ready s =? want)
  && (ro_available s =? want).
Definition failed (d : ClusterDeployment) : bool :=
  (mt_generation (dpl_meta d) <=? ro_observed (dpl_status d)) &&
  existsb (fun c => (bool_decide (rc_type c = "ReplicaFailure") && bool_decide (rc_status c = "True"))
                    || (bool_decide (rc_type c = "Progressing") && bool_decide (rc_reason c = "ProgressDeadlineExceeded")))
    (ro_conditions (dpl_status d)).

Definition condition_reason (c : RolloutCondition) : list string :=
  let word := re_match reasonWord (rc_reason c) in
  if bool_decide (rc_type c = "Progressing") && word then ["progressing=" +:+ rc_reason c]
  else if bool_decide (rc_type c = "Available") && negb (bool_decide (rc_status c = "True")) && word then ["available=" +:+ rc_reason c]
  else if bool_decide (rc_type c = "ReplicaFailure") && bool_decide (rc_status c = "True") && word then ["replicafailure=" +:+ rc_reason c]
  else [].
Definition conditionReasons (d : option ClusterDeployment) : list string :=
  match d with Some d => concat (map condition_reason (ro_conditions (dpl_status d))) | None => [] end.
Definition reasons (parts : list string) : string := join "," (take 3 parts).

Fixpoint claim_phases (l : list Claim) (parts : list string) : Prog (list string) :=
  match l with
  | [] => mret parts
  | want :: l' =>
      x ← ask (GetObject ns ClaimKind (mt_name (pvc_meta want)));
      claim_phases l' (match x with
                       | inr pvc => if bool_decide (pvc_phase pvc ∈ ["Pending"; "Lost"]) then parts ++ ["claim=" +:+ pvc_phase pvc] else parts
                       | inl _ => parts
                       end)
  end.
(** The newest pod, the first of equals; its first waiting reason that is a word. *)
Definition newest (p : ClusterPod) (l : list ClusterPod) : ClusterPod :=
  fold_left (fun m q => if pod_created m <? pod_created q then q else m) l p.
Definition waiting_reason (p : ClusterPod) : list string :=
  match List.find (fun w => match w with Some r => re_match reasonWord r | None => false end) (pod_waiting p) with
  | Some (Some r) => ["pod=" +:+ r]
  | _ => []
  end.
Definition stalled (set : ObjectSet) (d : option ClusterDeployment) : Prog string :=
  parts ← claim_phases (set_claims set) (conditionReasons d);
  x ← ask (ListPods ns (Selector instance (set_service set)));
  mret (reasons (match x with inr (p :: l) => parts ++ waiting_reason (newest p l) | _ => parts end)).

Fixpoint rollout (n : nat) (set : ObjectSet) (last : option ClusterDeployment) (strikes : nat) : Prog Answer :=
  match n with
  | O => Stuck
  | S n =>
      let wait last strikes :=
        w ← ask Poll;
        match w with
        | Tick => rollout n set last strikes
        | Ended cancelled =>
            if cancelled : bool then mret (OutcomeUnknown, "cancelled", "")
            else detail ← stalled set last; mret (OutcomeTimedOut, "rollout_timeout", detail)
        end in
      x ← ask (GetObject ns DeploymentKind (mt_name (dpl_meta (set_deployment set))));
      match x with
      | inr d =>
          if ready d then mret succeeded
          else if failed d then
            if (1 <=? strikes)%nat then detail ← stalled set (Some d); mret (OutcomeFailed, "rollout_timeout", detail)
            else wait (Some d) (S strikes)
          else wait (Some d) 0%nat
      | inl e => if negb (ae_done e) && negb (transient e) then mret (failure e) else wait last strikes
      end
  end.

(** ** Deploy *)

Definition precondition_step (first : bool) (set : ObjectSet) : KRun -> Prog (existing * KRun) :=
  kstep (set_service set) "precondition" nothing (fun r =>
    a ← (if first then
           a ← allowed_;
           if good a then podSecurity else mret a
         else mret succeeded);
    if negb (good a) then mret (a, nothing, r)
    else '(e, a) ← read set; mret (a, e, r)).

Fixpoint preconditions (first : bool) (sets : list ObjectSet) (r : KRun) : Prog (list existing * KRun) :=
  match sets with
  | [] => mret ([], r)
  | set :: sets' =>
      '(e, r) ← precondition_step first set r;
      '(es, r) ← preconditions false sets' r;
      mret (e :: es, r)
  end.

Definition identity_of_deployment (set : ObjectSet) (s : DeploymentService) (d : ClusterDeployment) : DeploymentIdentity :=
  mkDIdentity (set_service set) "" "" 0 (match s_pull s with Some p => pull_digest p | None => "" end) "Deployment"
    (mt_namespace (dpl_meta d)) (mt_name (dpl_meta d)) (mt_uid (dpl_meta d)) (mt_generation (dpl_meta d)).

Definition create_step_ (set : ObjectSet) (s : DeploymentService) (e : existing) : KRun -> Prog (unit * KRun) :=
  kstep (set_service set) "create" tt (fun r =>
    r ← kbegin r;
    '(d, a) ← apply set e;
    if good a then mret (a, tt, match d with Some d => kr_add_service (identity_of_deployment set s d) r | None => r end)
    else
      _ ← (match d with None => restoreService set e | Some _ => mret tt end);
      mret (a, tt, r)).

Definition start_step_ (set : ObjectSet) (e : existing) : KRun -> Prog (unit * KRun) :=
  kstep (set_service set) "start" tt (fun r =>
    a ← rollout fuel set None 0;
    if good a then
      a ← (match set_endpoint set, ex_service e with
           | None, Some s => drop_stale ServiceKind s
           | _, _ => mret succeeded
           end);
      if negb (good a) then mret (a, tt, r)
      else a ← prune set; mret (a, tt, r)
    else
      _ ← (match bool_decide (a.1.2 = "rollout_timeout"), ex_deployment e with
           | true, Some prev =>
               restored ← restore prev;
               if restored : bool then restoreService set e else mret tt
           | _, _ => mret tt
           end);
      mret (a, tt, r)).

Fixpoint apply_all (l : list (ObjectSet * DeploymentService * existing)) (r : KRun) : Prog KRun :=
  match l with
  | [] => mret r
  | (set, s, e) :: l' =>
      '(_, r) ← create_step_ set s e r;
      '(_, r) ← start_step_ set e r;
      apply_all l' r
  end.

Definition kresult (deployment request : string) (r : KRun) : DeploymentResult :=
  mkResult deployment request (if bool_decide (kr_outcome r = "") then OutcomeSucceeded else kr_outcome r) (kr_code r) (kr_steps r) (kr_services r).

Definition deploy_body_ (req : DeploymentRequest) (sets : list ObjectSet) : Prog DeploymentResult :=
  '(have, r) ← preconditions true sets new_krun;
  r ← apply_all (zip (zip sets (dr_services req)) have) r;
  mret (kresult (dr_deployment req) (dr_request req) r).
End Run.

Definition cluster_deploy (sum_hex : string -> string) (same_quantity : string -> string -> bool) (fuel : nat)
    (req : DeploymentRequest) (now : time) : Prog DeploymentResult :=
  match request_validate_for RuntimeKubernetes req now, dr_kubernetes req with
  | Ok _, Some k =>
      match Request sum_hex req k with
      | Some sets => deploy_body_ same_quantity fuel (kt_namespace k) (kt_instance k) req sets
      | None => Stuck
      end
  | Ok _, None => Stuck
  | Fail e, _ => mret (refused (dr_deployment req) (dr_request req) e)
  end.

(** ** Remove *)

Record doomed := mkDoomed { dm_kind : Kind; dm_name : string; dm_uid : string }.
(** What [find] fills in: the objects and the claims by service, and the Secrets looked for. *)
Record Found := mkFound { fd_objects : gmap string (list doomed); fd_kept : gmap string nat; fd_secrets : gset string }.

Section Removal.
Context (sum_hex : string -> string) (fuel : nat) (ns instance : string).

Definition add_found {k : Kind} (o : Obj k) (f : Found) : Found :=
  let s := default "" (mt_labels (meta o) !! LabelService) in
  if owned instance o && ValidServiceName s
  then mkFound (<[s := default [] (fd_objects f !! s) ++ [mkDoomed k (mt_name (meta o)) (mt_uid (meta o))]]> (fd_objects f))
         (fd_kept f) (fd_secrets f)
  else f.

Definition addSecret (name : string) (f : Found) : Prog (Found * Answer) :=
  if bool_decide (name ∈ fd_secrets f) then mret (f, succeeded)
  else
    let f := mkFound (fd_objects f) (fd_kept f) ({[name]} ∪ fd_secrets f) in
    x ← kget ns SecretKind name;
    mret (match x with
          | inl e => (f, failure e)
          | inr (Some s) => (add_found (k:=SecretKind) s f, succeeded)
          | inr None => (f, succeeded)
          end).
Definition add_secret_of (name : option string) (f : Found) : Prog (Found * Answer) :=
  match name with Some n => addSecret n f | None => mret (f, succeeded) end.

(** Each object, and the Secret paired with it. *)
Fixpoint find_each {k : Kind} (secret_of : Obj k -> option string) (l : list (Obj k)) (f : Found) : Prog (Found * Answer) :=
  match l with
  | [] => mret (f, succeeded)
  | o :: l' =>
      '(f, a) ← add_secret_of (secret_of o) (add_found o f);
      if good a then find_each secret_of l' f else mret (f, a)
  end.
Definition find_kind (k : Kind) (secret_of : Obj k -> option string) (f : Found) : Prog (Found * Answer) :=
  x ← ask (ListObjects ns k {[LabelInstance := instance]});
  match x with
  | inl e => mret (f, failure e)
  | inr items => find_each secret_of items f
  end.

(** [listAll]: one item more than [max] is enough to know the list is cut. *)
Fixpoint list_claims (n : nat) (out : list Claim) (continue_ : string) : Prog (ApiErr + list Claim) :=
  match n with
  | O => Stuck
  | S n =>
      x ← ask (ListPage ns ClaimKind {[LabelInstance := instance]} continue_);
      match x with
      | inl e => mret (inl e)
      | inr (items, next) =>
          let out := out ++ items in
          if bool_decide (next = "") || (llen out >? MaxDeploymentVolumes) then mret (inr out) else list_claims n out next
      end
  end.
Fixpoint keep_claims (l : list Claim) (emitted : Z) (kept : gmap string nat) : gmap string nat :=
  match l with
  | [] => kept
  | c :: l' =>
      let s := default "" (mt_labels (pvc_meta c) !! LabelService) in
      if negb (ValidServiceName s) then keep_claims l' emitted kept
      else if MaxDeploymentVolumes <=? emitted then kept
      else keep_claims l' (emitted + 1) (<[s := S (default 0%nat (kept !! s))]> kept)
  end.

Fixpoint find_secrets (names : list string) (f : Found) : Prog (Found * Answer) :=
  match names with
  | [] => mret (f, succeeded)
  | n :: l => '(f, a) ← addSecret n f; if good a then find_secrets l f else mret (f, a)
  end.

Definition find (req : RemovalRequest) : Prog (Found * Answer) :=
  '(f, a) ← find_kind DeploymentKind (fun d => Some (mt_name (dpl_meta d) +:+ "-secret")) (mkFound ∅ ∅ ∅);
  if negb (good a) then mret (f, a)
  else
    '(f, a) ← find_kind ServiceKind (fun _ => None) f;
    if negb (good a) then mret (f, a)
    else
      '(f, a) ← find_kind ConfigMapKind (fun cm => SecretFor (mt_name (cfm_meta cm))) f;
      if negb (good a) then mret (f, a)
      else
        x ← list_claims fuel [] "";
        match x with
        | inl e => mret (f, failure e)
        | inr claims =>
            let f := mkFound (fd_objects f) (keep_claims claims 0 ∅) (fd_secrets f) in
            let names := KubernetesNames sum_hex (rm_project req) (rm_services req) in
            find_secrets (map (fun s => default "" (names !! s) +:+ "-secret") (rm_services req)) f
        end.

Fixpoint delete_each (l : list doomed) : Prog Answer :=
  match l with
  | [] => mret succeeded
  | d :: l' =>
      x ← ask (DeleteObject ns (dm_kind d) (dm_name d) (dm_uid d) true);
      match x with
      | None => delete_each l'
      | Some e => if IsNotFound e || IsConflict e then delete_each l' else mret (failure e)
      end
  end.

Definition text_le (a b : string) : Prop := String.leb a b = true.
#[export] Instance text_le_dec : RelDecision text_le.
Proof. intros a b. unfold text_le. apply _. Defined.

(** The services of the request, then those found, without repetition; all but the first sorted. *)
Fixpoint add_services (l : list string) (services : list string) : list string :=
  match l with
  | [] => services
  | s :: l' => add_services l' (if bool_decide (s ∈ services) then services else services ++ [s])
  end.
Definition removal_services (services : list string) (f : Found) : list string :=
  match add_services (map fst (map_to_list (fd_objects f)) ++ map fst (map_to_list (fd_kept f))) services with
  | [] => []
  | s :: l => s :: merge_sort text_le l
  end.

Definition retained_step (s : string) : DeploymentStep := mkStep s "volume" OutcomeSkipped "" "retained".
Definition add_retained (s : string) (n : nat) (r : KRun) : KRun := Nat.iter n (kr_add_step (retained_step s)) r.

Definition remove_service (first : bool) (s : string) (f : Found) (r : KRun) : Prog KRun :=
  '(_, r) ← (if first then mret (tt, r) else kstep s "precondition" tt (fun r => mret (succeeded, tt, r)) r);
  '(_, r) ← (match default [] (fd_objects f !! s) with
             | [] => mret (tt, kr_add_step (mkStep s "remove" OutcomeSkipped "" "") r)
             | l => kstep s "remove" tt (fun r => r ← kbegin r; a ← delete_each l; mret (a, tt, r)) r
             end);
  mret (add_retained s (default 0%nat (fd_kept f !! s)) r).
Fixpoint remove_services (first : bool) (l : list string) (f : Found) (r : KRun) : Prog KRun :=
  match l with
  | [] => mret r
  | s :: l' => r ← remove_service first s f r; remove_services false l' f r
  end.

Definition remove_body_ (req : RemovalRequest) : Prog DeploymentResult :=
  match rm_services req with
  | [] => Stuck
  | s :: _ =>
      '(f, r) ← kstep s "precondition" (mkFound ∅ ∅ ∅) (fun r => '(f, a) ← find req; mret (a, f, r)) new_krun;
      r ← remove_services true (removal_services (rm_services req) f) f r;
      mret (kresult (rm_deployment req) (rm_request req) r)
  end.
End Removal.

Definition cluster_remove (sum_hex : string -> string) (fuel : nat) (req : RemovalRequest) (now : time) : Prog DeploymentResult :=
  match removal_validate_for RuntimeKubernetes req now, rm_kubernetes req with
  | Ok _, Some k => remove_body_ sum_hex fuel (kt_namespace k) (kt_instance k) req
  | Ok _, None => Stuck
  | Fail e, _ => mret (refused (rm_deployment req) (rm_request req) e)
  end.
