(* ===== verification/ClusterLogic.v ===== *)
(** * Reasoning about a cluster run

    [pw] is the weakest precondition of a [Prog]: every call it makes keeps the rule given what was
    asked before, whatever is answered; it ends as the postcondition says; and it runs out of fuel
    only where [stuck] allows.  [spent] counts the answers that make a run's loops go on. *)
From Stdlib Require Import ZArith Lia Ascii String.
From stdpp Require Import base gmap sets strings list.
From S2P Require Import Prelude.
From S2P Require Import Frame.
From S2P Require Import DockerRun.
From S2P Require Import ClusterObjects.
From S2P Require Import ClusterRun.

Section Logic.
Context (rule : ApiHistory -> ApiCall -> Prop) (stuck : ApiHistory -> Prop).

Fixpoint pw {A} (h : ApiHistory) (p : Prog A) (Q : A -> ApiHistory -> Prop) : Prop :=
  match p with
  | Ret a => Q a h
  | Ask c k => rule h c /\ forall x, pw (h ++ [existT c x]) (k x) Q
  | Stuck => stuck h
  end.

Lemma pw_ret {A} h (a : A) (Q : A -> ApiHistory -> Prop) : Q a h -> pw h (mret a) Q.
Proof. done. Qed.
Lemma pw_mono {A} h (p : Prog A) (P Q : A -> ApiHistory -> Prop) :
  pw h p P -> (forall a h', h `prefix_of` h' -> P a h' -> Q a h') -> pw h p Q.
Proof.
  revert h; induction p as [a|c k IH|]; intros h; simpl; [intros H HQ; by apply HQ| |done].
  intros [Hr Hk] HQ. split; [done|]. intros x. apply (IH x _ (Hk x)). intros a h' Hp. apply HQ.
  etrans; [|exact Hp]. by apply prefix_app_r.
Qed.
Lemma pw_bind {A B} h (p : Prog A) (f : A -> Prog B) Q : pw h p (fun a h' => pw h' (f a) Q) -> pw h (p ≫= f) Q.
Proof. revert h; induction p as [a|c k IH|]; intros h; simpl; [done| |done]. intros [Hr Hk]. split; [done|]. intros x. apply (IH x), Hk. Qed.
(** Sequencing, with the fact that the history only grew. *)
Lemma pw_seq {A B} h (p : Prog A) (f : A -> Prog B) (P : A -> ApiHistory -> Prop) Q :
  pw h p P -> (forall a h', h `prefix_of` h' -> P a h' -> pw h' (f a) Q) -> pw h (p ≫= f) Q.
Proof. intros Hp Hf. apply pw_bind. by eapply pw_mono. Qed.
Lemma pw_ask h c Q : rule h c -> (forall x, Q x (h ++ [existT c x])) -> pw h (ask c) Q.
Proof. done. Qed.
Lemma pw_call {B} h c (f : ApiReply c -> Prog B) Q :
  rule h c -> (forall x, h `prefix_of` h ++ [existT c x] -> pw (h ++ [existT c x]) (f x) Q) -> pw h (ask c ≫= f) Q.
Proof. intros Hr Hf. apply pw_bind. split; [done|]. intros x. simpl. apply Hf. by apply prefix_app_r. Qed.

Lemma pw_execute {A} w h (p : Prog A) Q : pw h p Q ->
  (forall h1 c x h2, (execute w h p).2 = h1 ++ existT c x :: h2 -> (length h <= length h1)%nat -> rule h1 c) /\
  h `prefix_of` (execute w h p).2 /\
  match (execute w h p).1 with Some a => Q a (execute w h p).2 | None => stuck (execute w h p).2 end.
Proof.
  assert (forall (h : ApiHistory) h1 e h2, h = h1 ++ e :: h2 -> (length h <= length h1)%nat -> False) as Hnil.
  { intros h0 h1 e h2 -> Hl. rewrite length_app in Hl. simpl in Hl. lia. }
  revert h; induction p as [a|c k IH|]; intros h; simpl; [intros H; split_and!; [|done|done]; naive_solver| |intros H; split_and!; [|done|done]; naive_solver].
  intros [Hr Hk]. destruct (IH (w h c) _ (Hk _)) as (H1 & H2 & H3). split_and!; [|etrans; [|exact H2]; by apply prefix_app_r|done].
  intros h1 c' x h2 E Hl. destruct (decide (length h < length h1)%nat) as [Hlt|Hge].
  - apply (H1 _ _ _ _ E). rewrite length_app. simpl. lia.
  - destruct H2 as [l El]. apply (eq_trans (eq_sym El)) in E. rewrite <- app_assoc in E. simpl in E. apply app_inj_1 in E as [-> E]; [|lia].
    apply (f_equal (option_map (@projT1 _ _) ∘ head)) in E. simpl in E. by injection E as <-.
Qed.
End Logic.
(** A program under a rule that does not look at the history, run where that rule is enough. *)
Lemma pw_within {A} (R : ApiCall -> Prop) (rule : ApiHistory -> ApiCall -> Prop) (stuck stuck' : ApiHistory -> Prop) h (p : Prog A) Q :
  (forall h c, R c -> rule h c) -> (forall h, stuck h -> stuck' h) -> pw (fun _ => R) stuck h p Q ->
  pw rule stuck' h p (fun a h' => Q a h' /\ forall e, e ∈ h' -> e ∈ h \/ R (projT1 e)).
Proof.
  intros Hr Hs. revert h; induction p as [a|c k IH|]; intros h; simpl; [|intros [Hc Hk]; split; [by apply Hr|]|apply Hs].
  - intros H. split; [done|]. by left.
  - intros x. eapply pw_mono; [apply IH, Hk|]. intros a h' _ [Hq He]. split; [done|]. intros e [H|H]%He; [|by right].
    apply elem_of_app in H as [H|H]; [by left|]. apply list_elem_of_singleton in H as ->. by right.
Qed.
Arguments pw _ _ {_} _ _ _ : simpl never.
Ltac ret := apply pw_ret; simpl.

(** What a program ends with, whatever it is answered. *)
Fixpoint ends {A} (p : Prog A) (Q : A -> Prop) : Prop :=
  match p with Ret a => Q a | Ask c k => forall x, ends (k x) Q | Stuck => True end.
Lemma ends_mono {A} (p : Prog A) (P Q : A -> Prop) : ends p P -> (forall a, P a -> Q a) -> ends p Q.
Proof. intros H HQ. induction p as [a|c k IH|]; simpl in *; auto. Qed.
Lemma ends_seq {A B} (p : Prog A) (f : A -> Prog B) (P : A -> Prop) Q : ends p P -> (forall a, P a -> ends (f a) Q) -> ends (p ≫= f) Q.
Proof. intros H Hf. induction p as [a|c k IH|]; simpl in *; [by apply Hf| |done]. intros x. apply (IH x), H. Qed.
Lemma ends_call {B} c (f : ApiReply c -> Prog B) Q : (forall x, ends (f x) Q) -> ends (ask c ≫= f) Q.
Proof. done. Qed.
Lemma ends_ret {A} (a : A) (Q : A -> Prop) : Q a -> ends (mret a) Q.
Proof. done. Qed.
Lemma pw_ends {A} rule stuck h (p : Prog A) (P : A -> ApiHistory -> Prop) Q :
  pw rule stuck h p P -> ends p Q -> pw rule stuck h p (fun a h' => P a h' /\ Q a).
Proof. revert h; induction p as [a|c k IH|]; intros h; simpl; [done| |done]. intros [Hr Hk] He. split; [done|]. intros x. apply (IH x); [apply Hk|apply He]. Qed.
Arguments ends {_} _ _ : simpl never.

Lemma seen_later (h h' : ApiHistory) e : h `prefix_of` h' -> e ∈ h -> e ∈ h'.
Proof. intros [l ->] He. apply elem_of_app. by left. Qed.
Lemma seen_last (h : ApiHistory) e : e ∈ h ++ [e].
Proof. apply elem_of_app. right. by left. Qed.

(** ** What makes loops go on *)

(** An update of an object that vanished, a poll that leaves time for another, a page with a next. *)
Definition spends (e : ApiExchange) : nat :=
  match projT1 e as c return ApiReply c -> nat with
  | UpdateObject _ _ _ => fun x => match x with inl e => if IsNotFound e then 1 else 0 | inr _ => 0 end
  | Poll => fun x => match x with Tick => 1 | Ended _ => 0 end
  | ListPage _ _ _ _ => fun x => match x with inr (_, next) => if bool_decide (next = "") then 0 else 1 | inl _ => 0 end
  | _ => fun _ => 0
  end%nat (projT2 e).
Definition spent (h : ApiHistory) : nat := sum_list_with spends h.

Lemma spent_app h l : spent (h ++ l) = (spent h + spent l)%nat.
Proof. apply sum_list_with_app. Qed.
Lemma spent_grows h h' : h `prefix_of` h' -> (spent h <= spent h')%nat.
Proof. intros [l ->]. rewrite spent_app. lia. Qed.

Create HintDb cluster.
#[export] Hint Resolve seen_later seen_last prefix_app_r : cluster.
