(* ===== verification/ClusterSafety.v ===== *)
(** * What a cluster run may write

    The rule every call of a deployment keeps, and the specification of each of its steps: what is
    written is what the frame plans, an update replaces an object read as this instance's, a deletion
    names the UID of one, and nothing is written before every precondition of every service held. *)
From Stdlib Require Import ZArith Lia Ascii String.
From stdpp Require Import base gmap sets strings list.
From S2P Require Import Prelude.
From S2P Require Import Frame.
From S2P Require Import DockerRun.
From S2P Require Import ClusterObjects.
From S2P Require Import ClusterRun.
From S2P Require Import ClusterLogic.

(** The objects of a kind a service plans. *)
Definition planned (k : Kind) : ObjectSet -> list (Obj k) :=
  match k with
  | ConfigMapKind => fun s => [set_config s]
  | SecretKind => fun s => option_list (set_secret s)
  | DeploymentKind => fun s => [set_deployment s]
  | ServiceKind => fun s => option_list (set_endpoint s)
  | ClaimKind => fun s => set_claims s
  end.

(** The planned object but for its resource version and, of a Service, the addresses it has. *)
Definition without_addresses (s : ClusterService) : ClusterService :=
  mkClusterService (with_version "" (svc_meta s)) (svc_type s) "" [] [] None (svc_selector s) (svc_ports s) (svc_other s).
Definition same_object {k : Kind} : Obj k -> Obj k -> Prop :=
  match k with
  | ServiceKind => fun want o => without_addresses o = without_addresses want /\ (svc_ip want = "" \/ svc_ip o = svc_ip want)
  | k => fun want o => set_version "" o = set_version "" want
  end.
Definition as_planned (set : ObjectSet) (k : Kind) (o : Obj k) : Prop := exists want, want ∈ planned k set /\ same_object want o.

Section Safety.
Context (same_quantity : string -> string -> bool) (fuel : nat) (ns instance : string) (sets : list ObjectSet).

(** An object read by name, or in a list, as this instance's. *)
Definition seen_owned (h : ApiHistory) (k : Kind) (name : string) (o : Obj k) : Prop :=
  existT (GetObject ns k name) (inr o) ∈ h /\ owned instance o = true.
Definition shown (h : ApiHistory) (k : Kind) (o : Obj k) : Prop :=
  (exists name, existT (GetObject ns k name) (inr o) ∈ h) \/
  (exists selector items, existT (ListObjects ns k selector) (inr items) ∈ h /\ o ∈ items).

Definition granted (h : ApiHistory) : Prop :=
  existT (Review ns "create" "apps" "deployments" "") (inr true) ∈ h /\
  exists labels, existT (ReadNamespace ns) (inr labels) ∈ h /\ security_level labels = succeeded.
(** A planned object was absent, or this instance's and, of a claim, as planned. *)
Definition found_free (h : ApiHistory) (k : Kind) (want : Obj k) : Prop :=
  exists x : ApiErr + Obj k, existT (GetObject ns k (mt_name (meta want))) x ∈ h /\
    match x with
    | inl e => IsNotFound e = true
    | inr o => owned instance o = true /\
        match k as k return Obj k -> Obj k -> Prop with
        | ClaimKind => fun want have => claimDiffers same_quantity have want = false
        | ServiceKind => fun want have => svc_ip want = "" \/ svc_ip have = svc_ip want
        | _ => fun _ _ => True
        end want o
    end.
Definition checked (h : ApiHistory) (set : ObjectSet) : Prop := forall k want, want ∈ planned k set -> found_free h k want.
Definition writable (h : ApiHistory) : Prop := granted h /\ Forall (checked h) sets /\ existT Started tt ∈ h.

(** The template or the ports read before go back onto the object that is still the same. *)
Definition restoring (h : ApiHistory) (k : Kind) : Obj k -> Prop :=
  match k with
  | DeploymentKind => fun o => exists name prev d,
      seen_owned h DeploymentKind name prev /\ seen_owned h DeploymentKind (mt_name (dpl_meta prev)) d /\
      mt_uid (dpl_meta d) = mt_uid (dpl_meta prev) /\ o = with_template (dpl_template prev) d
  | ServiceKind => fun o => exists name prev s,
      seen_owned h ServiceKind name prev /\ seen_owned h ServiceKind (mt_name (svc_meta prev)) s /\
      mt_uid (svc_meta s) = mt_uid (svc_meta prev) /\ o = with_ports (svc_ports prev) s
  | _ => fun _ => False
  end.
(** The object as the server wrote it. *)
Definition written (h : ApiHistory) (set : ObjectSet) (k : Kind) (got : Obj k) : Prop :=
  exists o, as_planned set k o /\ (existT (CreateObject ns k o) (inr got) ∈ h \/ existT (UpdateObject ns k o) (inr got) ∈ h).
(** The controller has seen the latest generation, and every replica wanted is updated, ready and available. *)
Definition available (d : ClusterDeployment) : Prop :=
  let want := default 1 (dpl_replicas d) in let s := dpl_status d in
  mt_generation (dpl_meta d) <= ro_observed s /\ ro_replicas s = want /\ ro_updated s = want /\ ro_ready s = want /\ ro_available s = want.
(** The Deployment was read as available, after the calls of [h0]. *)
Definition rolled_since (h0 h : ApiHistory) (set : ObjectSet) : Prop :=
  exists l d, h = h0 ++ l /\ existT (GetObject ns DeploymentKind (mt_name (dpl_meta (set_deployment set)))) (inr d) ∈ l /\ available d.
Definition rolled_out (h : ApiHistory) (set : ObjectSet) : Prop :=
  exists h0 got, written h0 set DeploymentKind got /\ rolled_since h0 h set.

Definition deploy_rule (h : ApiHistory) (c : ApiCall) : Prop :=
  match c with
  | CreateObject n k o => n = ns /\ writable h /\ exists set, set ∈ sets /\ as_planned set k o
  | UpdateObject n k o => n = ns /\ writable h /\ k <> ClaimKind /\
      ((exists set have, set ∈ sets /\ as_planned set k o /\ seen_owned h k (mt_name (meta o)) have /\
          mt_version (meta o) = mt_version (meta have)) \/ restoring h k o)
  | DeleteObject n k name uid foreground => n = ns /\ writable h /\ foreground = false /\ k ∈ [ConfigMapKind; SecretKind; ServiceKind] /\
      (exists set, set ∈ sets /\ rolled_out h set) /\
      exists o, shown h k o /\ owned instance o = true /\ mt_name (meta o) = name /\ mt_uid (meta o) = uid
  | Review n _ _ _ _ | ReadNamespace n | GetObject n _ _ | ListObjects n _ _ | ListPods n _ => n = ns
  | ListPage _ _ _ _ => False
  | Started => granted h /\ Forall (checked h) sets /\ existT Started tt ∉ h
  | Poll => True
  end.
Definition out_of_fuel (h : ApiHistory) : Prop := (fuel <= S (spent h))%nat.
Abbreviation PW := (pw deploy_rule out_of_fuel).

(** Calls that only read, in the run's namespace. *)
Definition reading (c : ApiCall) : Prop :=
  match c with
  | Review n _ _ _ _ | ReadNamespace n | GetObject n _ _ | ListObjects n _ _ | ListPods n _ => n = ns
  | _ => False
  end.
Abbreviation RW := (pw (fun _ => reading) (fun _ => False)).
Lemma reads {A} h (p : Prog A) Q : RW h p Q -> PW h p (fun a h' => Q a h' /\ forall e, e ∈ h' -> e ∈ h \/ reading (projT1 e)).
Proof. apply pw_within; [by intros h' []|done]. Qed.
Lemma reads_only {A} h (p : Prog A) Q : RW h p Q -> PW h p Q.
Proof. intros H. eapply pw_mono; [apply reads, H|]. by intros a h' _ [? _]. Qed.

(** ** Facts that only grow *)

Lemma seen_owned_later h h' k name o : h `prefix_of` h' -> seen_owned h k name o -> seen_owned h' k name o.
Proof. intros Hp [? ?]. split; [by eapply seen_later|done]. Qed.
Lemma shown_later h h' k o : h `prefix_of` h' -> shown h k o -> shown h' k o.
Proof. intros Hp [[n ?]|(sel & items & ? & ?)]; [left; exists n|right; exists sel, items; split; [|done]]; by eapply seen_later. Qed.
Lemma granted_later h h' : h `prefix_of` h' -> granted h -> granted h'.
Proof. intros Hp (? & l & ? & ?). split; [by eapply seen_later|]. exists l. split; [by eapply seen_later|done]. Qed.
Lemma found_free_later h h' k want : h `prefix_of` h' -> found_free h k want -> found_free h' k want.
Proof. intros Hp (x & ? & ?). exists x. split; [by eapply seen_later|done]. Qed.
Lemma checked_later h h' set : h `prefix_of` h' -> checked h set -> checked h' set.
Proof. intros Hp H k want Hw. eapply found_free_later; [done|by apply H]. Qed.
Lemma writable_later h h' : h `prefix_of` h' -> writable h -> writable h'.
Proof.
  intros Hp (Hg & Hc & Hs). split_and!; [by eapply granted_later| |by eapply seen_later].
  eapply Forall_impl; [exact Hc|]. intros set. by apply checked_later.
Qed.
Lemma rolled_since_later h0 h h' set : h `prefix_of` h' -> rolled_since h0 h set -> rolled_since h0 h' set.
Proof. intros [l' ->] (l & d & -> & ? & ?). exists (l ++ l'), d. split_and!; [by rewrite app_assoc|apply elem_of_app; by left|done]. Qed.
Lemma rolled_since_earlier h0 h1 h set : h0 `prefix_of` h1 -> rolled_since h1 h set -> rolled_since h0 h set.
Proof. intros [l' ->] (l & d & -> & ? & ?). exists (l' ++ l), d. split_and!; [by rewrite app_assoc|apply elem_of_app; by right|done]. Qed.
Lemma rolled_out_later h h' set : h `prefix_of` h' -> rolled_out h set -> rolled_out h' set.
Proof. intros Hp (h0 & got & ? & ?). exists h0, got. split; [done|by eapply rolled_since_later]. Qed.
Lemma ready_available d : ready d = true -> available d.
Proof. unfold ready, available. rewrite !andb_true_iff, Z.leb_le, !Z.eqb_eq. naive_solver. Qed.
Hint Resolve seen_owned_later shown_later granted_later found_free_later checked_later writable_later rolled_out_later
  seen_later seen_last prefix_app_r : cluster.

Lemma owned_shown h k name o : seen_owned h k name o -> shown h k o /\ owned instance o = true.
Proof. intros [? ?]. split; [left; by exists name|done]. Qed.

(** ** Reads *)

Lemma kget_ok h k name :
  RW h (kget ns k name) (fun x h' => match x with
    | inr (Some o) => existT (GetObject ns k name) (inr o) ∈ h'
    | inr None => exists e, existT (GetObject ns k name) (inl e) ∈ h' /\ IsNotFound e = true
    | inl _ => True
    end).
Proof.
  apply pw_call; [done|]. intros [e|o] _; ret; [|apply seen_last]. destruct (IsNotFound e) eqn:E; [|done].
  exists e. split; [apply seen_last|done].
Qed.

Lemma failure_bad e : good (failure e) = false.
Proof.
  unfold failure. destruct (IsForbidden e); [done|]. destruct (match status_code e with Some _ => _ | None => _ end); [done|].
  destruct (ae_cancelled e); [done|]. by destruct (ae_done e).
Qed.

Lemma planned_object_ok h k name :
  RW h (planned_object ns instance k name) (fun p h' => good p.2 = true ->
    match p.1 with
    | Some o => seen_owned h' k name o
    | None => exists e, existT (GetObject ns k name) (inl e) ∈ h' /\ IsNotFound e = true
    end).
Proof.
  eapply pw_seq; [apply kget_ok|]. intros [e|[o|]] h' Hp Hx; ret.
  - by rewrite failure_bad.
  - destruct (owned instance o) eqn:Eo; [|done]. by intros _.
  - done.
Qed.

Lemma checkClaim_ok h want :
  RW h (checkClaim same_quantity ns instance want) (fun p h' => good p.2 = true -> found_free h' ClaimKind want).
Proof.
  eapply pw_seq; [apply kget_ok|]. intros [e|[o|]] h' Hp Hx; ret.
  - by rewrite failure_bad.
  - destruct (owned instance o) eqn:Eo; simpl; [|done]. destruct (claimDiffers _ _ _) eqn:Ed; [done|]. intros _. exists (inr o). by split_and!.
  - intros _. destruct Hx as (e & ? & ?). by exists (inl e).
Qed.
Lemma check_claims_ok h l found :
  RW h (check_claims same_quantity ns instance l found) (fun p h' => good p.2 = true -> forall want, want ∈ l -> found_free h' ClaimKind want).
Proof.
  revert h found; induction l as [|c l IH]; intros h found; cbn [check_claims]; [ret; intros _ want; by rewrite elem_of_nil|].
  eapply pw_seq; [apply checkClaim_ok|]. intros [f a] h' Hp Ha. simpl in Ha. destruct (good a) eqn:Eg; [|ret; by rewrite Eg].
  eapply pw_mono; [apply IH|]. intros p h'' Hp' Hl Hg want [->|Hw]%elem_of_cons; [|by apply Hl]. eapply found_free_later; [done|by apply Ha].
Qed.

(** What the precondition found, all of it this instance's. *)
Definition existing_ok (h : ApiHistory) (set : ObjectSet) (e : existing) : Prop :=
  (forall o, ex_config e = Some o -> seen_owned h ConfigMapKind (mt_name (cfm_meta (set_config set))) o) /\
  (forall o s, ex_secret e = Some o -> set_secret set = Some s -> seen_owned h SecretKind (mt_name (sec_meta s)) o) /\
  (forall o, ex_deployment e = Some o -> seen_owned h DeploymentKind (mt_name (dpl_meta (set_deployment set))) o) /\
  (forall o, ex_service e = Some o -> seen_owned h ServiceKind (set_name set) o).
Lemma existing_later h h' set e : h `prefix_of` h' -> existing_ok h set e -> existing_ok h' set e.
Proof. intros Hp (H1 & H2 & H3 & H4). split_and!; intros; (eapply seen_owned_later; [done|]); eauto. Qed.

Definition endpoint_named (set : ObjectSet) : Prop := forall want, set_endpoint set = Some want -> mt_name (svc_meta want) = set_name set.

Lemma read_endpoint_ok h set : endpoint_named set ->
  RW h (read_endpoint ns instance set) (fun p h' => good p.2 = true ->
    (forall o, p.1 = Some o -> seen_owned h' ServiceKind (set_name set) o) /\
    (forall want, set_endpoint set = Some want -> found_free h' ServiceKind want)).
Proof.
  intros Hn. unfold read_endpoint. destruct (set_endpoint set) as [want|] eqn:Ew.
  - eapply pw_seq; [apply planned_object_ok|]. intros [s a] h' Hp Ha. simpl in *. specialize (Hn _ Ew). destruct s as [s|]; ret.
    + destruct (negb _ && negb _) eqn:Ei; [done|]. intros Hg. specialize (Ha Hg). split; [by intros o [= <-]|]. intros w [= <-].
      exists (inr s). simpl. rewrite Hn. destruct Ha as [H1 H2]. split_and!; [done|done|].
      apply andb_false_iff in Ei as [E|E]; apply negb_false_iff, bool_decide_eq_true in E; [by left|by right].
    + intros Hg. destruct (Ha Hg) as (e & ? & ?). split; [done|]. intros w [= <-]. exists (inl e). simpl. by rewrite Hn.
  - eapply pw_seq; [apply kget_ok|]. intros [e|[s|]] h' Hp Hx; ret; [by rewrite failure_bad| |done].
    intros _. split; [|done]. intros o Ho. destruct (owned instance s) eqn:Eo; [|done]. by injection Ho as <-.
Qed.

Lemma read_ok h set : endpoint_named set ->
  RW h (read same_quantity ns instance set) (fun p h' => good p.2 = true -> existing_ok h' set p.1 /\ checked h' set).
Proof.
  intros Hn. unfold read. eapply pw_seq; [apply check_claims_ok|]. intros [claims a] h1 P1 H1. simpl in H1.
  destruct (good a) eqn:G1; cbn [negb]; [|ret; by rewrite G1].
  eapply pw_seq; [apply planned_object_ok|]. intros [cm a2] h2 P2 H2. simpl in H2. destruct (good a2) eqn:G2; cbn [negb]; [|ret; by rewrite G2].
  eapply (pw_seq _ _ _ _ _ (fun p h' => good p.2 = true -> forall s, set_secret set = Some s ->
    match p.1 with
    | Some o => seen_owned h' SecretKind (mt_name (sec_meta s)) o
    | None => exists e, existT (GetObject ns SecretKind (mt_name (sec_meta s))) (inl e) ∈ h' /\ IsNotFound e = true
    end)).
  { destruct (set_secret set) as [s|]; [|by ret]. eapply pw_mono; [apply planned_object_ok|]. intros p h' _ Hp Hg s' [= <-]. by apply Hp. }
  intros [sec a3] h3 P3 H3. simpl in H3. destruct (good a3) eqn:G3; cbn [negb]; [|ret; by rewrite G3].
  eapply pw_seq; [apply planned_object_ok|]. intros [d a4] h4 P4 H4. simpl in H4. destruct (good a4) eqn:G4; cbn [negb]; [|ret; by rewrite G4].
  eapply pw_seq; [by apply read_endpoint_ok|]. intros [s a5] h5 P5 H5. simpl in H5. ret. intros G5.
  specialize (H1 eq_refl). specialize (H2 eq_refl). specialize (H3 eq_refl). specialize (H4 eq_refl). destruct (H5 G5) as [H5a H5b].
  assert (h2 `prefix_of` h5) as P25 by (by do 2 (etrans; [eassumption|])).
  assert (h3 `prefix_of` h5) as P35 by (by etrans; [eassumption|]).
  assert (h1 `prefix_of` h5) as P15 by (by etrans; [eassumption|]).
  split.
  - split_and!; simpl; [intros o ->|intros o q -> Hq|intros o ->|done].
    + eapply seen_owned_later; [exact P25|exact H2].
    + eapply seen_owned_later; [exact P35|exact (H3 q Hq)].
    + eapply seen_owned_later; [exact P5|exact H4].
  - intros [] want Hw; simpl in Hw.
    + apply list_elem_of_singleton in Hw as ->. eapply found_free_later; [exact P25|].
      destruct cm as [o|]; [destruct H2 as [? ?]; by exists (inr o)|destruct H2 as (e & ? & ?); by exists (inl e)].
    + destruct (set_secret set) as [q|] eqn:Eq; [|by apply elem_of_nil in Hw]. apply list_elem_of_singleton in Hw as ->.
      eapply found_free_later; [exact P35|]. specialize (H3 _ eq_refl).
      destruct sec as [o|]; [destruct H3 as [? ?]; by exists (inr o)|destruct H3 as (e & ? & ?); by exists (inl e)].
    + apply list_elem_of_singleton in Hw as ->. eapply found_free_later; [exact P5|].
      destruct d as [o|]; [destruct H4 as [? ?]; by exists (inr o)|destruct H4 as (e & ? & ?); by exists (inl e)].
    + destruct (set_endpoint set) as [q|] eqn:Eq; [|by apply elem_of_nil in Hw]. apply list_elem_of_singleton in Hw as ->. by apply H5b.
    + eapply found_free_later; [exact P15|by apply H1].
Qed.

(** ** Writes *)

Lemma refusedWrite_ok h e verb k name : RW h (refusedWrite ns e verb k name) (fun a _ => good a = false).
Proof.
  unfold refusedWrite. destruct (address_refused k e); [by ret|]. destruct (negb _); [ret; apply failure_bad|].
  apply pw_call; [done|]. intros [re|[]] _; ret; [apply failure_bad|done|done].
Qed.

Lemma set_version_twice {k} v w (o : Obj k) : set_version v (set_version w o) = set_version v o.
Proof. by destruct k. Qed.
Lemma version_set {k} v (o : Obj k) : mt_version (meta (set_version v o)) = v.
Proof. by destruct k. Qed.
Lemma name_set {k} v (o : Obj k) : mt_name (meta (set_version v o)) = mt_name (meta o).
Proof. by destruct k. Qed.
Lemma as_planned_version set k v (o : Obj k) : as_planned set k o -> as_planned set k (set_version v o).
Proof.
  intros (want & Hw & Hs). exists want. split; [done|]. destruct k; simpl in *; try (by rewrite <- Hs). destruct Hs as [<- ?]. split; [done|done].
Qed.
Lemma as_planned_refl set k (o : Obj k) : o ∈ planned k set -> as_planned set k o.
Proof. intros Ho. exists o. split; [done|]. destruct k; simpl; try done. split; [done|by right]. Qed.

(** What [keep] makes of a planned object is still planned. *)
Definition keeps_plan (set : ObjectSet) (k : Kind) (keep : Obj k -> Obj k -> Answer + Obj k) : Prop :=
  forall want have w, as_planned set k want -> keep want have = inr w ->
    as_planned set k w /\ mt_version (meta w) = mt_version (meta want) /\ mt_name (meta w) = mt_name (meta want).
Lemma keep_nothing_plan set k : keeps_plan set k keep_nothing.
Proof. by intros want have w Hw [= <-]. Qed.
Lemma keep_address_plan set want : set_endpoint set = Some want -> keeps_plan set ServiceKind (keep_address (svc_ip want)).
Proof.
  intros Ew w have w' (p & Hp & Hs1 & Hs2) Hk. simpl in Hp. rewrite Ew in Hp. apply list_elem_of_singleton in Hp as ->.
  unfold keep_address in Hk. destruct (negb _ && negb _) eqn:E; [done|]. injection Hk as <-. split; [|done].
  exists want. simpl. rewrite Ew. split; [by left|]. split; [exact Hs1|]. simpl.
  apply andb_false_iff in E as [E|E]; apply negb_false_iff, bool_decide_eq_true in E; [by left|by right].
Qed.
(** Denied answers of [keep] are not successes. *)
Definition keep_denies {k : Kind} (keep : Obj k -> Obj k -> Answer + Obj k) : Prop := forall want have a, keep want have = inl a -> good a = false.
Lemma keep_address_denies requested : keep_denies (k:=ServiceKind) (keep_address requested).
Proof. intros want have a. unfold keep_address. destruct (_ && _); [by intros [= <-]|done]. Qed.
Lemma keep_nothing_denies k : keep_denies (k:=k) keep_nothing.
Proof. done. Qed.

Lemma written_later h h' set k got : h `prefix_of` h' -> written h set k got -> written h' set k got.
Proof. intros Hp (o & Ho & [H|H]); exists o; (split; [done|]); [left|right]; by eapply seen_later. Qed.

Lemma spent_last h c x : spent (h ++ [existT c x]) = (spent h + spends (existT c x))%nat.
Proof. rewrite spent_app. unfold spent. simpl. lia. Qed.

Section Upsert.
Context (set : ObjectSet) (Hset : set ∈ sets) (k : Kind) (Hk : k <> ClaimKind) (keep : Obj k -> Obj k -> Answer + Obj k).
Context (Hkeep : keeps_plan set k keep) (Hdeny : keep_denies keep).

Lemma upsert_ok n conflicts refused want have h :
  writable h -> as_planned set k want -> (forall o, have = Some o -> seen_owned h k (mt_name (meta want)) o) ->
  (fuel <= n + conflicts + spent h)%nat -> (conflicts <= 1)%nat ->
  PW h (upsert ns instance n conflicts refused k keep want have)
    (fun p h' => good p.1.2 = true -> exists got, p.1.1 = Some got /\ written h' set k got).
Proof.
  revert conflicts refused want have h. induction n as [|n IH]; intros conflicts refused want have h Hw Hp Hh Hf Hc; cbn [upsert].
  { unfold pw. simpl. unfold out_of_fuel. lia. }
  assert (forall (update : bool) w (h' : ApiHistory) (x : ApiErr + Obj k), h `prefix_of` h' -> as_planned set k w -> mt_name (meta w) = mt_name (meta want) ->
    (match x with inr got => written h' set k got | inl e => (spent h + (if update && IsNotFound e then 1 else 0) <= spent h')%nat end) ->
    PW h' (match x with
        | inr got => mret (Some got, succeeded, false)
        | inl e =>
            let refused := clientError e in
            let vanished := update && IsNotFound e in
            if negb (IsConflict e) && negb (IsAlreadyExists e) && negb vanished then
              a ← refusedWrite ns e (if update then "update" else "create") k (mt_name (meta want));
              mret (None, a, refused)
            else
              let conflicts := if vanished then conflicts else S conflicts in
              if (1 <? conflicts)%nat then mret (None, (OutcomeFailed, "conflict", object_ref k (mt_name (meta want))), refused)
              else
                y ← kget ns k (mt_name (meta want));
                match y with
                | inl e => mret (None, failure e, refused)
                | inr None => upsert ns instance n conflicts refused k keep w None
                | inr (Some fresh) =>
                    if owned instance fresh then upsert ns instance n conflicts refused k keep w (Some fresh)
                    else mret (None, nameTaken k (mt_name (meta want)), refused)
                end
        end) (fun p h' => good p.1.2 = true -> exists got, p.1.1 = Some got /\ written h' set k got)) as Hgo.
  { intros update w h' [e|got] Hpre Hpw Hnm Hx; [|ret; intros _; by exists got]. cbv zeta.
    destruct (negb (IsConflict e) && negb (IsAlreadyExists e) && negb (update && IsNotFound e)).
    { eapply pw_seq; [apply reads_only, refusedWrite_ok|]. intros a h'' _ Ha. ret. by rewrite Ha. }
    destruct (1 <? _)%nat eqn:Ec; [by ret|]. apply Nat.ltb_ge in Ec.
    eapply pw_seq; [apply reads_only, kget_ok|]. intros [e'|[fresh|]] h'' Hpre' Hy; [ret; by rewrite failure_bad| |].
    - destruct (owned instance fresh) eqn:Eo; [|by ret]. pose proof (spent_grows _ _ Hpre').
      apply IH; [by eapply writable_later; [|exact Hw]; etrans; [exact Hpre|]|done| |destruct (update && IsNotFound e); lia|done].
      intros o [= <-]. rewrite Hnm. by split.
    - pose proof (spent_grows _ _ Hpre').
      apply IH; [by eapply writable_later; [|exact Hw]; etrans; [exact Hpre|]|done|done|destruct (update && IsNotFound e); lia|done]. }
  destruct have as [have|].
  - destruct (keep (set_version (mt_version (meta have)) want) have) as [a|w] eqn:Ek; [ret; intros Hg; by rewrite (Hdeny _ _ _ Ek) in Hg|].
    destruct (Hkeep _ _ _ (as_planned_version _ _ _ _ Hp) Ek) as (Hw' & Hv & Hn). rewrite version_set in Hv. rewrite name_set in Hn.
    apply pw_call.
    + simpl. split_and!; [done|done|done|]. left. exists set, have. split_and!; [done|done|rewrite Hn; by apply Hh|done].
    + intros x Hpre. apply (Hgo true); [done|done|done|]. destruct x as [e|got].
      * rewrite spent_last. unfold spends. simpl. destruct (IsNotFound e); lia.
      * exists w. split; [done|]. right. apply seen_last.
  - apply pw_call; [simpl; split_and!; [done|done|exists set; split; [done|by apply as_planned_version]]|].
    intros x Hpre. apply (Hgo false); [done|by apply as_planned_version|apply name_set|]. destruct x as [e|got].
    + rewrite spent_last. unfold spends. simpl. lia.
    + exists (set_version "" want). split; [by apply as_planned_version|]. left. apply seen_last.
Qed.
End Upsert.

Section Service.
Context (set : ObjectSet) (Hset : set ∈ sets) (Hnamed : endpoint_named set).

Lemma create_claims_ok l found h : writable h -> (forall c, c ∈ l -> c ∈ set_claims set) ->
  PW h (create_claims same_quantity ns instance l found) (fun _ _ => True).
Proof.
  revert h; induction l as [|want l IH]; intros h Hw Hl; cbn [create_claims]; [by ret|].
  assert (forall h', h `prefix_of` h' -> PW h' (create_claims same_quantity ns instance l found) (fun _ _ => True)) as Hrest.
  { intros h' Hp. apply IH; [by eapply writable_later|]. intros c Hc. apply Hl. by right. }
  destruct (default false _); [by apply Hrest|]. apply pw_call.
  { simpl. split_and!; [done|done|]. exists set. split; [done|]. apply as_planned_refl, Hl. by left. }
  intros [e|o] Hp; [|by apply Hrest]. destruct (IsAlreadyExists e).
  - eapply pw_seq; [apply reads_only, checkClaim_ok|]. intros [f a] h' Hp' _. destruct (good a); [|by ret]. apply Hrest. by etrans.
  - eapply pw_mono; [apply reads_only, refusedWrite_ok|]. done.
Qed.

Lemma upsert_first k keep want have h : k <> ClaimKind -> keeps_plan set k keep -> keep_denies keep -> want ∈ planned k set -> writable h ->
  (forall o, have = Some o -> seen_owned h k (mt_name (meta want)) o) ->
  PW h (upsert ns instance fuel 0 false k keep want have)
    (fun p h' => good p.1.2 = true -> exists got, p.1.1 = Some got /\ written h' set k got).
Proof. intros. apply upsert_ok; try done; [by apply as_planned_refl|lia|lia]. Qed.

Lemma apply_ok e h : writable h -> existing_ok h set e ->
  PW h (apply same_quantity fuel ns instance set e)
    (fun p h' => good p.2 = true -> exists d, p.1 = Some d /\ written h' set DeploymentKind d).
Proof.
  intros Hw He. unfold apply.
  eapply (pw_seq _ _ _ _ _ (fun _ _ => True)).
  { destruct (set_endpoint set) as [want|] eqn:Ew; [|by ret]. eapply pw_seq.
    - apply (upsert_first ServiceKind); [done|by apply keep_address_plan|apply keep_address_denies|simpl; rewrite Ew; by left|done|].
      intros o Ho. simpl. rewrite (Hnamed _ Ew). by apply He.
    - intros [[got a] b] h' _ _. by ret. }
  intros a1 h1 P1 _. destruct (good a1) eqn:G1; cbn [negb]; [|ret; by rewrite G1].
  eapply pw_seq; [apply create_claims_ok; [by eapply writable_later|done]|]. intros a2 h2 P2 _.
  destruct (good a2) eqn:G2; cbn [negb]; [|ret; by rewrite G2].
  assert (writable h2) as Hw2 by (do 2 (eapply writable_later; [eassumption|]); done).
  assert (existing_ok h2 set e) as He2 by (do 2 (eapply existing_later; [eassumption|]); done).
  eapply pw_seq; [apply (upsert_first ConfigMapKind); [done|apply keep_nothing_plan|apply keep_nothing_denies|by left|done|by apply He2]|].
  intros [[got a3] b] h3 P3 _. destruct (good a3) eqn:G3; cbn [negb]; [|ret; by rewrite G3].
  assert (writable h3) as Hw3 by (by eapply writable_later). assert (existing_ok h3 set e) as He3 by (by eapply existing_later).
  eapply (pw_seq _ _ _ _ _ (fun _ _ => True)).
  { destruct (set_secret set) as [q|] eqn:Eq; [|by ret]. eapply pw_seq.
    - apply (upsert_first SecretKind); [done|apply keep_nothing_plan|apply keep_nothing_denies|simpl; rewrite Eq; by left|done|].
      intros o Ho. destruct He3 as (_ & H & _). by apply H.
    - intros [[got' a] b'] h' _ _. by ret. }
  intros a4 h4 P4 _. destruct (good a4) eqn:G4; cbn [negb]; [|ret; by rewrite G4].
  eapply pw_seq.
  { apply (upsert_first DeploymentKind); [done|apply keep_nothing_plan|apply keep_nothing_denies|by left|by eapply writable_later|].
    intros o Ho. eapply seen_owned_later; [exact P4|]. by apply He3. }
  intros [[d a5] b'] h5 P5 H5. ret. intros G5. rewrite G5. destruct (H5 G5) as (got' & Eg & Hgw). simpl in Eg. subst d. by exists got'.
Qed.

Lemma drop_ok k o h : k ∈ [ConfigMapKind; SecretKind; ServiceKind] -> writable h -> rolled_out h set -> shown h k o -> owned instance o = true ->
  PW h (drop_stale ns k o) (fun _ _ => True).
Proof.
  intros Hk Hw Hr Hs Ho. apply pw_call; [simpl; split_and!; [done|done|done|done|by exists set|by exists o]|].
  intros [e|] _; [|by ret]. destruct (_ || _); [by ret|]. eapply pw_mono; [apply reads_only, refusedWrite_ok|done].
Qed.

Lemma prune_each_ok current l h : writable h -> rolled_out h set -> (forall cm, cm ∈ l -> shown h ConfigMapKind cm) ->
  PW h (prune_each ns instance current l) (fun _ _ => True).
Proof.
  revert h; induction l as [|cm l IH]; intros h Hw Hr Hl; cbn [prune_each]; [by ret|].
  assert (forall h', h `prefix_of` h' -> PW h' (prune_each ns instance current l) (fun _ _ => True)) as Hrest.
  { intros h' Hp. apply IH; [by eapply writable_later|by eapply rolled_out_later|]. intros c Hc. eapply shown_later; [done|]. apply Hl. by right. }
  destruct (SecretFor _) as [name|]; [|by apply Hrest]. destruct (bool_decide _ || _) eqn:Eo; [by apply Hrest|].
  apply orb_false_iff in Eo as [_ Eo%negb_false_iff].
  eapply pw_seq; [apply reads_only, kget_ok|]. intros [e|found] h1 P1 Hx; [by ret|].
  assert (writable h1 /\ rolled_out h1 set) as [Hw1 Hr1] by (split; [by eapply writable_later|by eapply rolled_out_later]).
  eapply (pw_seq _ _ _ _ _ (fun _ _ => True)).
  { destruct found as [s|]; [|by ret]. destruct (owned instance s) eqn:Es; [|by ret]. apply drop_ok; [set_solver|done|done|left; by exists name|done]. }
  intros a h2 P2 _. destruct (good a); cbn [negb]; [|by ret].
  eapply pw_seq.
  { apply drop_ok; [set_solver|by eapply writable_later|by eapply rolled_out_later| |done].
    eapply shown_later; [exact P2|]. eapply shown_later; [exact P1|]. apply Hl. by left. }
  intros a' h3 P3 _. destruct (good a'); [|by ret]. apply Hrest. by do 2 (etrans; [eassumption|]).
Qed.
Lemma prune_ok h : writable h -> rolled_out h set -> PW h (prune ns instance set) (fun _ _ => True).
Proof.
  intros Hw Hr. apply pw_call; [done|]. intros [e|items] Hp; [by ret|].
  apply prune_each_ok; [by eapply writable_later|by eapply rolled_out_later|].
  intros cm Hc. right. eexists _, items. split; [apply seen_last|done].
Qed.

Lemma restore_ok name prev h : writable h -> seen_owned h DeploymentKind name prev -> PW h (restore ns instance prev) (fun _ _ => True).
Proof.
  intros Hw Hs. apply pw_call; [done|]. intros [e|d] Hp; [by ret|]. destruct (negb _ || negb _) eqn:E; [by ret|].
  apply orb_false_iff in E as [Eu%negb_false_iff%bool_decide_eq_true Eo%negb_false_iff].
  apply pw_call; [|by intros [e|o] _; ret]. simpl. split_and!; [done|by eapply writable_later|done|]. right.
  exists name, prev, d. split_and!; [by eapply seen_owned_later|split; [apply seen_last|done]|done|done].
Qed.
Lemma restoreService_ok e h : writable h -> existing_ok h set e -> PW h (restoreService ns instance set e) (fun _ _ => True).
Proof.
  intros Hw He. unfold restoreService. destruct (set_endpoint set); [|by ret]. destruct (ex_service e) as [prev|] eqn:Ep; [|by ret].
  apply pw_call; [done|]. intros [er|s] Hp; [by ret|]. destruct (negb _ || negb _) eqn:E; [by ret|].
  apply orb_false_iff in E as [Eu%negb_false_iff%bool_decide_eq_true Eo%negb_false_iff].
  apply pw_call; [|by intros x _; ret]. simpl. split_and!; [done|by eapply writable_later|done|]. right.
  exists (set_name set), prev, s. split_and!; [|split; [apply seen_last|done]|done|done]. eapply seen_owned_later; [done|]. by apply He.
Qed.

(** ** Rollouts *)

Lemma claim_phases_ok l parts h : RW h (claim_phases ns l parts) (fun _ _ => True).
Proof.
  revert h parts; induction l as [|c l IH]; intros h parts; cbn [claim_phases]; [by ret|]. apply pw_call; [done|]. intros x _. apply IH.
Qed.
Lemma stalled_ok d h : RW h (stalled ns instance set d) (fun _ _ => True).
Proof. eapply pw_seq; [apply claim_phases_ok|]. intros parts h' _ _. apply pw_call; [done|]. intros x _. by ret. Qed.

Lemma rollout_ok n last strikes h : (fuel <= n + spent h)%nat ->
  PW h (rollout ns instance n set last strikes) (fun a h' => good a = true -> rolled_since h h' set).
Proof.
  revert last strikes h; induction n as [|n IH]; intros last strikes h Hf; cbn [rollout]; [unfold pw; simpl; unfold out_of_fuel; lia|].
  apply pw_call; [done|]. intros x Hp.
  assert (forall last strikes, PW (h ++ [existT (GetObject ns DeploymentKind (mt_name (dpl_meta (set_deployment set)))) x])
    (w ← ask Poll;
     match w with
     | Tick => rollout ns instance n set last strikes
     | Ended cancelled =>
         if cancelled : bool then mret (OutcomeUnknown, "cancelled", "")
         else detail ← stalled ns instance set last; mret (OutcomeTimedOut, "rollout_timeout", detail)
     end) (fun a h' => good a = true -> rolled_since h h' set)) as Hwait.
  { intros la st. apply pw_call; [done|]. intros [|[]] Hp'; [|by ret|].
    - eapply pw_mono; [apply IH; rewrite !spent_last; unfold spends at 2; simpl; lia|]. intros a h' _ Ha Hg. eapply rolled_since_earlier; [|by apply Ha]. by etrans.
    - eapply pw_seq; [apply reads_only, stalled_ok|]. intros detail h' _ _. by ret. }
  destruct x as [e|d].
  - destruct (negb _ && negb _); [ret; by rewrite failure_bad|apply Hwait].
  - destruct (ready d) eqn:Er; [ret; intros _; eexists [_], d; split_and!; [done|by left|by apply ready_available]|].
    destruct (failed d); [|apply Hwait]. destruct (1 <=? strikes)%nat; [|apply Hwait].
    eapply pw_seq; [apply reads_only, stalled_ok|]. intros detail h' _ _. by ret.
Qed.
End Service.
End Safety.
