(* ===== verification/ClusterDeploy.v ===== *)
(** * A cluster deployment as a whole

    The steps of [Deploy] composed: the rule every call keeps, when the run may fail to end, and what
    a success means. *)
From Stdlib Require Import ZArith Lia Ascii String.
From stdpp Require Import base gmap sets strings list.
From S2P Require Import Prelude.
From S2P Require Import Regex.
From S2P Require Import Grammar.
From S2P Require Import KubeNames.
From S2P Require Import Inspection.
From S2P Require Import Frame.
From S2P Require Import DockerRun.
From S2P Require Import ClusterObjects.
From S2P Require Import ClusterRun.
From S2P Require Import ClusterLogic.
From S2P Require Import ClusterSafety.

(** ** Rendering a valid frame *)

Section Rendered.
Context (sum_hex : string -> string).

Lemma mounted_total claims m l seen : (forall v, v ∈ l -> km_claim v ∈ map k_name claims) -> is_Some (mounted_claims claims m l seen).
Proof.
  revert seen; induction l as [|v l IH]; intros seen Hl; simpl; [done|]. assert (forall v', v' ∈ l -> km_claim v' ∈ map k_name claims) as Hl'.
  { intros v' Hv. apply Hl. by right. }
  case_bool_decide; [by apply IH|]. destruct (List.find _ claims) as [c|] eqn:Ef.
  - destruct (IH (seen ++ [km_claim v]) Hl') as [cs ->]. simpl. eauto.
  - exfalso. assert (km_claim v ∈ map k_name claims) as Hin by (apply Hl; by left).
    apply list_elem_of_In, in_map_iff in Hin as (c & Ec & Hc). apply (List.find_none _ _ Ef) in Hc. rewrite bool_decide_true in Hc by done. done.
Qed.

(** Every object of a rendered service carries its instance's labels, in the frame's namespace,
    and no resource version; the Service and the Deployment have the service's name. *)
Record SetOk (r : DeploymentRequest) (k : KubernetesTarget) (s : DeploymentService) (set : ObjectSet) : Prop := {
  so_service : set_service set = s_name s;
  so_objects : forall kd (o : Obj kd), o ∈ planned kd set ->
    mt_labels (meta o) = Labels r k (s_name s) /\ mt_namespace (meta o) = kt_namespace k;
  so_deployment : mt_name (dpl_meta (set_deployment set)) = set_name set;
  so_endpoint : endpoint_named set;
  so_image : exists p c, s_pull s = Some p /\ tpl_containers (dpl_template (set_deployment set)) = [c] /\ pcs_image c = pull_reference p;
  so_sealed : (forall key v, cfm_data (set_config set) !! key = Some v -> key ∉ s_secret_keys s /\ s_env s !! key = Some v) /\
              (forall q key v, set_secret set = Some q -> sec_data q !! key = Some v -> key ∈ s_secret_keys s /\ s_env s !! key = Some v) }.

Lemma mounted_meta claims m l seen cs c : mounted_claims claims m l seen = Some cs -> c ∈ cs -> exists n, pvc_meta c = m n.
Proof.
  revert seen cs; induction l as [|v l IH]; intros seen cs; simpl; [by intros [= <-] ?%elem_of_nil|]. case_bool_decide; [apply IH|].
  destruct (List.find _ claims); [|done]. destruct (mounted_claims _ _ _ _) as [cs'|] eqn:E; simpl; [|done]. intros [= <-] [->|Hc]%elem_of_cons; [by exists (km_claim v)|by eapply IH].
Qed.

Lemma render_ok r k s name set : render_service sum_hex r k s name = Some set -> SetOk r k s set /\ set_name set = name.
Proof.
  unfold render_service. destruct (s_pull s) as [p|] eqn:Ep; [|done]. destruct (mounted_claims _ _ _ _) as [cs|] eqn:Ec; [|done].
  intros [= <-]. split; [|done]. constructor; simpl.
  - done.
  - intros [] o Ho; simpl in Ho.
    + by apply list_elem_of_singleton in Ho as ->.
    + destruct (negb _); [|by apply elem_of_nil in Ho]. by apply list_elem_of_singleton in Ho as ->.
    + by apply list_elem_of_singleton in Ho as ->.
    + destruct (_ >? _); [|by apply elem_of_nil in Ho]. by apply list_elem_of_singleton in Ho as ->.
    + destruct (mounted_meta _ _ _ _ _ _ Ec Ho) as [n En]. simpl. by rewrite En.
  - done.
  - intros want. simpl. destruct (_ >? _); [|done]. by intros [= <-].
  - by eexists p, _.
  - split.
    + intros key v [Hv Hs]%map_lookup_filter_Some. simpl in Hs. by apply bool_decide_eq_false in Hs.
    + intros q key v Hq. destruct (negb _); [|done]. injection Hq as <-. simpl. intros [Hv Hs]%map_lookup_filter_Some. simpl in Hs.
      by apply bool_decide_eq_true in Hs.
Qed.

(** A frame that validates always renders. *)
Lemma Request_total r k now : request_validate_for RuntimeKubernetes r now = Ok tt -> dr_kubernetes r = Some k ->
  exists sets, Request sum_hex r k = Some sets /\ Forall2 (SetOk r k) (dr_services r) sets.
Proof.
  intros H Hk. unfold request_validate_for in H. refusals H. unfold request_validate in H. refusals H. rewrite Hk in H. refusals H.
  assert (dr_explicit r = false) as He by (destruct (dr_explicit r); done).
  pose proof (validateKubernetes_ok _ _ He H) as [_ _ _ _ Hd]. unfold validateKubernetes in H. refusals H.
  match goal with H : kube_services_loop _ _ _ = Ok ?a |- _ => destruct a; apply kube_services_names in H as (Hok & _) end.
  unfold Request. set (f := fun s => render_service sum_hex r k s _).
  assert (forall l, (forall s, s ∈ l -> s ∈ dr_services r) -> exists sets, mapM f l = Some sets /\ Forall2 (SetOk r k) l sets) as Hall.
  { induction l as [|s l IH]; intros Hl; [exists []; by split; [|constructor]|].
    destruct IH as (sets & Em & Hf); [intros s' Hs'; apply Hl; by right|].
    assert (s ∈ dr_services r) as Hs by (apply Hl; by left).
    assert (is_Some (f s)) as [set Es].
    { unfold f, render_service. rewrite Forall_forall in Hok. specialize (Hok _ Hs). unfold kube_service_ok in Hok.
      destruct (s_pull s) as [p|]; [|by rewrite !andb_true_iff in Hok; naive_solver].
      match goal with |- context [mounted_claims ?c ?m ?v ?s] => destruct (mounted_total c m v s) as [cs ->] end; [|by eexists].
      intros v Hv. eapply Hd; [exact Hs|]. unfold mounts_claim. apply list_elem_of_In, in_map_iff. exists v. split; [done|by apply list_elem_of_In]. }
    exists (set :: sets). simpl. rewrite Es, Em. simpl. split; [done|]. constructor; [|done]. by eapply render_ok. }
  apply Hall. done.
Qed.
End Rendered.

(** ** Steps *)

Section Steps.
Context (rule : ApiHistory -> ApiCall -> Prop) (stuck : ApiHistory -> Prop).

Definition finished_step (service stp : string) (a : Answer) (r : KRun) : KRun :=
  if bool_decide (outcome_of a = OutcomeSucceeded) || bool_decide (outcome_of a = OutcomeSkipped)
  then kr_add_step (mkStep service stp (outcome_of a) "" "") r
  else kr_add_step (mkStep service stp (outcome_of a) a.1.2 a.2) (kr_failed (outcome_of a) r).

Lemma kstep_ok {A} service stp (skip : A) do_ r h (Q : A * KRun -> ApiHistory -> Prop) :
  (kr_outcome r <> "" -> Q (skip, kr_add_step (mkStep service stp OutcomeSkipped "" "") r) h) ->
  (kr_outcome r = "" -> pw rule stuck h (do_ r) (fun x h' => Q (x.1.2, finished_step service stp x.1.1 x.2) h')) ->
  pw rule stuck h (kstep service stp skip do_ r) Q.
Proof.
  intros Hskip Hrun. unfold kstep. case_bool_decide as E; simpl; [|by ret; apply Hskip].
  eapply pw_seq; [by apply Hrun|]. intros [[[[o code] detail] a] r'] h' _ HQ. ret. exact HQ.
Qed.

Lemma finished_good service stp a r : kr_outcome r = "" -> kr_outcome (finished_step service stp a r) = "" ->
  good a = true \/ outcome_of a = OutcomeSkipped \/ outcome_of a = "".
Proof.
  unfold finished_step, good. intros E. case_bool_decide; [by left|]. case_bool_decide; simpl; [by right; left|]. by right; right.
Qed.
End Steps.

Section Deploy.
Context (same_quantity : string -> string -> bool) (fuel : nat) (ns instance : string) (sets : list ObjectSet).
Abbreviation PW := (pw (deploy_rule same_quantity ns instance sets) (out_of_fuel fuel)).
Abbreviation RW := (pw (fun _ => reading ns) (fun _ => False)).

(** An answer is never "skipped" or empty, so what is not good fails the run. *)
Definition proper (a : Answer) : Prop := outcome_of a <> OutcomeSkipped /\ outcome_of a <> "".
Lemma finished_ok service stp a r : kr_outcome r = "" -> proper a -> kr_outcome (finished_step service stp a r) = "" -> good a = true.
Proof. intros E [H1 H2] H. by destruct (finished_good _ _ _ _ E H) as [|[|]]. Qed.

Lemma failure_proper e : proper (failure e).
Proof.
  unfold failure. destruct (IsForbidden e); [done|]. destruct (match status_code e with Some _ => _ | None => _ end); [done|].
  destruct (ae_cancelled e); [done|]. by destruct (ae_done e).
Qed.
Hint Resolve failure_proper : cluster.

Lemma refusedWrite_proper e verb k name : ends (refusedWrite ns e verb k name) proper.
Proof.
  unfold refusedWrite. destruct (address_refused k e); [by apply ends_ret|]. destruct (negb _); [apply ends_ret, failure_proper|].
  apply ends_call. intros [re|[]]; apply ends_ret; [apply failure_proper|done|done].
Qed.
Lemma kget_any k name (Q : ApiErr + option (Obj k) -> Prop) : (forall x, Q x) -> ends (kget ns k name) Q.
Proof. intros H. apply ends_call. intros x. apply ends_ret, H. Qed.
Lemma planned_object_proper k name : ends (planned_object ns instance k name) (fun p => proper p.2).
Proof.
  eapply ends_seq; [by apply (kget_any k name (fun _ => True))|]. intros [e|[o|]] _; apply ends_ret; simpl; [apply failure_proper| |done].
  by destruct (owned instance o).
Qed.
Lemma checkClaim_proper want : ends (checkClaim same_quantity ns instance want) (fun p => proper p.2).
Proof.
  eapply ends_seq; [by apply (kget_any _ _ (fun _ => True))|]. intros [e|[o|]] _; apply ends_ret; simpl; [apply failure_proper| |done].
  destruct (owned instance o); simpl; [|done]. by destruct (claimDiffers _ _ _).
Qed.
Lemma check_claims_proper l found : ends (check_claims same_quantity ns instance l found) (fun p => proper p.2).
Proof.
  revert found; induction l as [|c l IH]; intros found; cbn [check_claims]; [by apply ends_ret|].
  eapply ends_seq; [apply checkClaim_proper|]. intros [f a] Ha. destruct (good a); [apply IH|by apply ends_ret].
Qed.
Lemma read_endpoint_proper set : ends (read_endpoint ns instance set) (fun p => proper p.2).
Proof.
  unfold read_endpoint. destruct (set_endpoint set) as [want|].
  - eapply ends_seq; [apply planned_object_proper|]. intros [[s|] a] Ha; apply ends_ret; simpl; [|done]. by destruct (_ && _).
  - eapply ends_seq; [by apply (kget_any _ _ (fun _ => True))|]. intros [e|[s|]] _; apply ends_ret; simpl; [apply failure_proper|done|done].
Qed.
Lemma read_proper set : ends (read same_quantity ns instance set) (fun p => proper p.2).
Proof.
  unfold read. eapply ends_seq; [apply check_claims_proper|]. intros [c a1] H1. destruct (good a1); cbn [negb]; [|by apply ends_ret].
  eapply ends_seq; [apply planned_object_proper|]. intros [cm a2] H2. destruct (good a2); cbn [negb]; [|by apply ends_ret].
  eapply (ends_seq _ _ (fun p => proper p.2)); [destruct (set_secret set); [apply planned_object_proper|by apply ends_ret]|].
  intros [q a3] H3. destruct (good a3); cbn [negb]; [|by apply ends_ret].
  eapply ends_seq; [apply planned_object_proper|]. intros [d a4] H4. destruct (good a4); cbn [negb]; [|by apply ends_ret].
  eapply ends_seq; [apply read_endpoint_proper|]. intros [s a5] H5. by apply ends_ret.
Qed.

Lemma upsert_proper n conflicts refused k keep want have :
  (forall w v a, keep w v = inl a -> proper a) -> ends (upsert ns instance n conflicts refused k keep want have) (fun p => proper p.1.2).
Proof.
  intros Hk. revert conflicts refused want have. induction n as [|n IH]; intros conflicts refused want have; cbn [upsert]; [done|].
  destruct have as [have|]; [destruct (keep _ _) as [a|w] eqn:Ek; [apply ends_ret; by eapply Hk|]|]; (apply ends_call; intros [e|got]; [|by apply ends_ret]);
    (destruct (negb (IsConflict e) && negb (IsAlreadyExists e) && _);
      [eapply ends_seq; [apply refusedWrite_proper|]; intros a Ha; by apply ends_ret|]; cbv zeta;
     destruct (1 <? _)%nat; [by apply ends_ret|];
     eapply ends_seq; [by apply (kget_any _ _ (fun _ => True))|]; intros [e'|[fresh|]] _;
       [apply ends_ret, failure_proper|destruct (owned instance fresh); [apply IH|by apply ends_ret]|apply IH]).
Qed.
Lemma create_claims_proper l found : ends (create_claims same_quantity ns instance l found) proper.
Proof.
  induction l as [|c l IH]; cbn [create_claims]; [by apply ends_ret|]. destruct (default false _); [done|]. apply ends_call.
  intros [e|o]; [|done]. destruct (IsAlreadyExists e); [|apply refusedWrite_proper].
  eapply ends_seq; [apply checkClaim_proper|]. intros [f a] Ha. destruct (good a); [done|by apply ends_ret].
Qed.
Lemma apply_proper set e : ends (apply same_quantity fuel ns instance set e) (fun p => proper p.2).
Proof.
  unfold apply. eapply (ends_seq _ _ proper).
  { destruct (set_endpoint set) as [want|]; [|by apply ends_ret]. eapply ends_seq.
    - apply (upsert_proper _ _ _ ServiceKind). intros w v a. unfold keep_address. destruct (_ && _); [by intros [= <-]|done].
    - intros [[g a] b] Ha. apply ends_ret. exact Ha. }
  intros a1 H1. destruct (good a1); cbn [negb]; [|by apply ends_ret].
  eapply ends_seq; [apply create_claims_proper|]. intros a2 H2. destruct (good a2); cbn [negb]; [|by apply ends_ret].
  eapply ends_seq; [by apply (upsert_proper _ _ _ ConfigMapKind)|]. intros [[g a3] b] H3. destruct (good a3); cbn [negb]; [|by apply ends_ret].
  eapply (ends_seq _ _ proper).
  { destruct (set_secret set); [|by apply ends_ret]. eapply ends_seq; [by apply (upsert_proper _ _ _ SecretKind)|]. intros [[g' a] b'] Ha. apply ends_ret. exact Ha. }
  intros a4 H4. destruct (good a4); cbn [negb]; [|by apply ends_ret].
  eapply ends_seq; [by apply (upsert_proper _ _ _ DeploymentKind)|]. intros [[g' a5] b'] H5. by apply ends_ret.
Qed.
Lemma drop_proper k o : ends (drop_stale ns k o) proper.
Proof. apply ends_call. intros [e|]; [|by apply ends_ret]. destruct (_ || _); [by apply ends_ret|apply refusedWrite_proper]. Qed.
Lemma prune_proper set : ends (prune ns instance set) proper.
Proof.
  apply ends_call. intros [e|items]; [apply ends_ret, failure_proper|]. induction items as [|cm l IH]; cbn [prune_each]; [by apply ends_ret|].
  destruct (SecretFor _) as [name|]; [|done]. destruct (bool_decide _ || _); [done|].
  eapply ends_seq; [by apply (kget_any _ _ (fun _ => True))|]. intros [e|found] _; [apply ends_ret, failure_proper|].
  eapply (ends_seq _ _ proper); [destruct found as [q|]; [destruct (owned instance q); [apply drop_proper|]|]; by apply ends_ret|].
  intros a Ha. destruct (good a); cbn [negb]; [|by apply ends_ret]. eapply ends_seq; [apply drop_proper|]. intros a' Ha'. destruct (good a'); [done|by apply ends_ret].
Qed.
Lemma stalled_any set d : ends (stalled ns instance set d) (fun _ => True).
Proof.
  eapply (ends_seq _ _ (fun _ => True)); [|intros; apply ends_call; intros; by apply ends_ret].
  generalize (conditionReasons d). induction (set_claims set) as [|c l IH]; intros parts; cbn [claim_phases]; [by apply ends_ret|]. apply ends_call. intros x. apply IH.
Qed.
Lemma rollout_proper n set last strikes : ends (rollout ns instance n set last strikes) proper.
Proof.
  revert last strikes; induction n as [|n IH]; intros last strikes; cbn [rollout]; [done|]. apply ends_call. intros x.
  assert (forall la st, ends (w ← ask Poll;
     match w with
     | Tick => rollout ns instance n set la st
     | Ended cancelled =>
         if cancelled : bool then mret (OutcomeUnknown, "cancelled", "")
         else detail ← stalled ns instance set la; mret (OutcomeTimedOut, "rollout_timeout", detail)
     end) proper) as Hw.
  { intros la st. apply ends_call. intros [|[]]; [apply IH|by apply ends_ret|]. eapply ends_seq; [apply stalled_any|]. intros detail _. by apply ends_ret. }
  destruct x as [e|d].
  - destruct (negb _ && negb _); [apply ends_ret, failure_proper|apply Hw].
  - destruct (ready d); [by apply ends_ret|]. destruct (failed d); [|apply Hw]. destruct (1 <=? strikes)%nat; [|apply Hw].
    eapply ends_seq; [apply stalled_any|]. intros detail _. by apply ends_ret.
Qed.

(** ** The whole run *)

Lemma finished_services service stp a r : kr_services (finished_step service stp a r) = kr_services r /\ kr_begun (finished_step service stp a r) = kr_begun r.
Proof. unfold finished_step. by destruct (_ || _). Qed.
Lemma finished_was service stp a r : kr_outcome (finished_step service stp a r) = "" -> kr_outcome r = "" \/ proper a -> kr_outcome r = "".
Proof.
  unfold finished_step. intros H [?|[_ Hp]]; [done|]. destruct (_ || _); [done|]. by simpl in H.
Qed.

Lemma allowed_ok h : RW h (allowed_ ns) (fun a h' => good a = true -> existT (Review ns "create" "apps" "deployments" "") (inr true) ∈ h').
Proof. apply pw_call; [done|]. intros [e|[]] _; ret; [by rewrite failure_bad| |done]. intros _. apply seen_last. Qed.
Lemma podSecurity_ok h : RW h (podSecurity ns) (fun a h' => good a = true ->
  exists labels, existT (ReadNamespace ns) (inr labels) ∈ h' /\ security_level labels = succeeded).
Proof.
  apply pw_call; [done|]. intros [e|labels] _; ret; [by rewrite failure_bad|]. intros Hg. exists labels. split; [apply seen_last|].
  revert Hg. unfold security_level. destruct (labels !! _); [|done]. by case_bool_decide.
Qed.
Lemma grant_ok (first : bool) h : RW h (if first then a ← allowed_ ns; if good a then podSecurity ns else mret a else mret succeeded)
  (fun a h' => proper a /\ (good a = true -> first = true -> granted ns h')).
Proof.
  destruct first; [|by ret].
  assert (ends (allowed_ ns) proper) as H1 by (apply ends_call; intros [e|[]]; apply ends_ret; [apply failure_proper|done|done]).
  assert (ends (podSecurity ns) proper) as H2.
  { apply ends_call; intros [e|l]; apply ends_ret; [apply failure_proper|]. unfold security_level. destruct (l !! _); [by case_bool_decide|done]. }
  eapply pw_seq; [apply pw_ends; [apply allowed_ok|exact H1]|]. intros a h1 P1 [Ha Hp]. destruct (good a) eqn:G; [|ret; split; [done|congruence]].
  eapply pw_mono; [apply pw_ends; [apply podSecurity_ok|exact H2]|]. intros a' h2 P2 [Hl Hp']. split; [done|]. intros Hg _. split; [|by apply Hl].
  eapply seen_later; [exact P2|by apply Ha].
Qed.

Lemma precondition_ok first set r h : endpoint_named set ->
  RW h (precondition_step same_quantity ns instance first set r) (fun p h' =>
    kr_services p.2 = kr_services r /\ kr_begun p.2 = kr_begun r /\
    (kr_outcome p.2 = "" -> kr_outcome r = "" /\ (first = true -> granted ns h') /\ existing_ok ns instance h' set p.1 /\
       checked same_quantity ns instance h' set)).
Proof.
  intros Hn. apply kstep_ok; [done|]. intros E. eapply pw_seq; [apply grant_ok|]. intros a h1 P1 [Hp Hg].
  destruct (good a) eqn:G; cbn [negb].
  - eapply pw_seq; [apply pw_ends; [by apply read_ok|apply read_proper]|]. intros [e a'] h2 P2 [Hr Hp']. simpl in *. ret.
    destruct (finished_services (set_service set) "precondition" a' r) as [-> ->]. split_and!; [done|done|]. intros Ho.
    assert (good a' = true) as G' by exact (finished_ok _ _ _ _ E Hp' Ho). destruct (Hr G'). split_and!; try done. intros Hf. eapply granted_later; [exact P2|by apply Hg].
  - ret. destruct (finished_services (set_service set) "precondition" a r) as [-> ->]. split_and!; [done|done|]. intros Ho.
    assert (good a = true) by exact (finished_ok _ _ _ _ E Hp Ho). congruence.
Qed.

Lemma preconditions_ok first l r h : Forall endpoint_named l ->
  RW h (preconditions same_quantity ns instance first l r) (fun p h' =>
    kr_services p.2 = kr_services r /\ kr_begun p.2 = kr_begun r /\ length p.1 = length l /\
    (kr_outcome p.2 = "" -> kr_outcome r = "" /\ (first = true -> l <> [] -> granted ns h') /\
       Forall2 (fun set e => existing_ok ns instance h' set e /\ checked same_quantity ns instance h' set) l p.1)).
Proof.
  revert first r h; induction l as [|set l IH]; intros first r h Hn; cbn [preconditions]; [ret; split_and!; [done|done|done|]; intros E; by split_and!|].
  apply Forall_cons in Hn as [Hn Hl]. eapply pw_seq; [by apply precondition_ok|]. intros [e r1] h1 P1 (S1 & B1 & O1). simpl in *.
  eapply pw_seq; [by apply IH|]. intros [es r2] h2 P2 (S2 & B2 & L2 & O2). simpl in *. ret. split_and!; [congruence|congruence|lia|].
  intros E. destruct (O2 E) as (E1 & _ & F2). destruct (O1 E1) as (E0 & Hg & He & Hc). split_and!; [done| |].
  - intros Hf _. eapply granted_later; [exact P2|by apply Hg].
  - constructor; [|done]. split; [by eapply existing_later|by eapply checked_later].
Qed.

Definition prepared_run (h : ApiHistory) (r : KRun) : Prop :=
  granted ns h /\ Forall (checked same_quantity ns instance h) sets /\ (if kr_begun r then existT Started tt ∈ h else existT Started tt ∉ h).
Lemma prepared_writable h r : prepared_run h r -> kr_begun r = true -> writable same_quantity ns instance sets h.
Proof. intros (? & ? & H) E. rewrite E in H. by split_and!. Qed.

Lemma kbegin_ok r h : prepared_run h r ->
  PW h (kbegin r) (fun r' h' => writable same_quantity ns instance sets h' /\ kr_begun r' = true /\ kr_outcome r' = kr_outcome r /\ kr_services r' = kr_services r).
Proof.
  intros (Hg & Hc & Hs). unfold kbegin. destruct (kr_begun r) eqn:E; [ret; by split_and!|]. apply pw_call; [done|]. intros [] Hp. ret.
  split_and!; [|done|done|done]. split_and!; [by eapply granted_later| |apply seen_last].
  eapply Forall_impl; [exact Hc|]. intros set. by apply checked_later.
Qed.

Section Service.
Context (set : ObjectSet) (s : DeploymentService) (e : existing) (Hset : set ∈ sets) (Hnamed : endpoint_named set).

Lemma cluster_create_ok r h : (kr_outcome r = "" -> prepared_run h r /\ existing_ok ns instance h set e) ->
  PW h (create_step_ same_quantity fuel ns instance set s e r) (fun p h' => kr_outcome p.2 = "" ->
    kr_outcome r = "" /\ writable same_quantity ns instance sets h' /\ kr_begun p.2 = true /\
    exists d, written ns h' set DeploymentKind d /\ kr_services p.2 = kr_services r ++ [identity_of_deployment set s d]).
Proof.
  intros Hpre. apply kstep_ok; [done|]. intros E. destruct (Hpre E) as [Hr He].
  eapply pw_seq; [by apply kbegin_ok|]. intros r1 h1 P1 (Hw & B1 & O1 & S1).
  assert (existing_ok ns instance h1 set e) as He1 by (by eapply existing_later).
  eapply pw_seq; [apply pw_ends; [by apply apply_ok|apply apply_proper]|]. intros [d a] h2 P2 [Ha Hp]. simpl in *.
  assert (writable same_quantity ns instance sets h2) as Hw2 by (by eapply writable_later).
  destruct (good a) eqn:G.
  - ret. destruct (Ha eq_refl) as (d' & -> & Hd). intros Ho. destruct (finished_services (set_service set) "create" a (kr_add_service (identity_of_deployment set s d') r1)) as [-> ->].
    split_and!; [done|done|done|]. exists d'. simpl. rewrite S1. done.
  - eapply (pw_seq _ _ _ _ _ (fun _ _ => True)).
    { destruct d; [by ret|]. apply restoreService_ok; [done|]. by eapply existing_later. }
    intros _ h3 P3 _. ret. intros Ho. assert (good a = true); [|congruence]. eapply (finished_ok (set_service set) "create" a r1); [congruence|done|done].
Qed.

Lemma cluster_start_ok r h : (kr_outcome r = "" -> writable same_quantity ns instance sets h /\ existing_ok ns instance h set e /\
    exists got, written ns h set DeploymentKind got) ->
  PW h (start_step_ fuel ns instance set e r) (fun p h' => kr_services p.2 = kr_services r /\ kr_begun p.2 = kr_begun r /\
    (kr_outcome p.2 = "" -> kr_outcome r = "" /\ rolled_since ns h h' set)).
Proof.
  intros Hpre. apply kstep_ok; [done|]. intros E. destruct (Hpre E) as (Hw & He & got & Hgot).
  eapply pw_seq; [apply pw_ends; [apply rollout_ok; lia|apply rollout_proper]|]. intros a h1 P1 [Ha Hp].
  assert (writable same_quantity ns instance sets h1) as Hw1 by (by eapply writable_later).
  destruct (good a) eqn:G.
  - specialize (Ha eq_refl). assert (rolled_out ns h1 set) as Hro by (by exists h, got). eapply (pw_seq _ _ _ _ _ (fun a _ => proper a)).
    { destruct (set_endpoint set); [by ret|]. destruct (ex_service e) as [sv|] eqn:Es; [|by ret].
      destruct He as (_ & _ & _ & Hs). destruct (Hs _ Es) as [Hg Ho].
      eapply pw_mono; [apply pw_ends; [eapply (drop_ok _ _ _ _ _ set Hset ServiceKind); [set_solver|done|done| |done]|apply drop_proper]|naive_solver].
      eapply shown_later; [exact P1|]. left. by exists (set_name set). }
    intros a2 h2 P2 Hp2. destruct (good a2) eqn:G2; cbn [negb].
    + eapply pw_seq; [apply pw_ends; [eapply prune_ok; [exact Hset|exact Hnamed|by eapply writable_later|by eapply rolled_out_later]|apply prune_proper]|].
      intros a3 h3 P3 [_ Hp3]. ret. destruct (finished_services (set_service set) "start" a3 r) as [-> ->]. split_and!; [done|done|]. intros _. split; [done|].
      eapply (rolled_since_later _ _ h1); [by etrans|exact Ha].
    + ret. destruct (finished_services (set_service set) "start" a2 r) as [-> ->]. split_and!; [done|done|]. intros Ho.
      assert (good a2 = true) by exact (finished_ok _ _ _ _ E Hp2 Ho). congruence.
  - eapply (pw_seq _ _ _ _ _ (fun _ _ => True)).
    { destruct (bool_decide _); [|by ret]. destruct (ex_deployment e) as [prev|] eqn:Ed; [|by ret]. destruct He as (He1 & He2 & Hd & He4).
      eapply pw_seq; [eapply restore_ok; [done|]; eapply seen_owned_later; [exact P1|by apply Hd]|]. intros [] h2 P2 _; [|by ret].
      apply restoreService_ok; [by eapply writable_later|]. eapply existing_later; [exact P2|]. eapply existing_later; [exact P1|]. by split_and!. }
    intros _ h2 P2 _. ret. destruct (finished_services (set_service set) "start" a r) as [-> ->]. split_and!; [done|done|]. intros Ho.
    assert (good a = true) by exact (finished_ok _ _ _ _ E Hp Ho). congruence.
Qed.
End Service.

(** A run that failed never reads as a success. *)
Definition honest (r : KRun) : Prop := kr_outcome r <> OutcomeSucceeded.
Lemma kstep_honest {A} service stp (skip : A) do_ r : honest r -> (forall r, honest r -> ends (do_ r) (fun x => honest x.2)) ->
  ends (kstep service stp skip do_ r) (fun p => honest p.2).
Proof.
  intros Hr Hd. unfold kstep. destruct (negb _); [by apply ends_ret|]. eapply ends_seq; [by apply Hd|].
  intros [[[[o code] detail] a] r'] Hr'. apply ends_ret. simpl in *. case_bool_decide as E; simpl; [done|]. by case_bool_decide.
Qed.
Lemma ends_any {A} (p : Prog A) : ends p (fun _ => True).
Proof. induction p; done. Qed.
Lemma apply_all_honest l r : honest r -> ends (apply_all same_quantity fuel ns instance l r) honest.
Proof.
  revert r; induction l as [|[[set s] e] l IH]; intros r Hr; cbn [apply_all]; [by apply ends_ret|].
  eapply ends_seq; [apply kstep_honest; [done|]|].
  { intros r1 H1. eapply (ends_seq _ _ honest); [unfold kbegin; destruct (kr_begun r1); [by apply ends_ret|by apply ends_call]|]. intros r2 H2.
    eapply ends_seq; [apply ends_any|]. intros [d a] _. destruct (good a); [apply ends_ret; by destruct d|].
    eapply ends_seq; [apply ends_any|]. intros _ _. by apply ends_ret. }
  intros [[] r1] H1. eapply ends_seq; [apply kstep_honest; [exact H1|]|intros [[] r2] H2; by apply IH].
  intros r2 H2. eapply ends_seq; [apply ends_any|]. intros a _. destruct (good a).
  - eapply ends_seq; [apply ends_any|]. intros a2 _. destruct (good a2); cbn [negb]; [|by apply ends_ret]. eapply ends_seq; [apply ends_any|]. intros a3 _. by apply ends_ret.
  - eapply ends_seq; [apply ends_any|]. intros _ _. by apply ends_ret.
Qed.
Lemma preconditions_honest first l r : honest r -> ends (preconditions same_quantity ns instance first l r) (fun p => honest p.2).
Proof.
  revert first r; induction l as [|set l IH]; intros first r Hr; cbn [preconditions]; [by apply ends_ret|].
  eapply ends_seq; [apply kstep_honest; [done|]|].
  { intros r1 H1. eapply ends_seq; [apply ends_any|]. intros a _. destruct (good a); cbn [negb]; [|by apply ends_ret].
    eapply ends_seq; [apply ends_any|]. intros [e a'] _. by apply ends_ret. }
  intros [e r1] H1. eapply ends_seq; [by apply IH|]. intros [es r2] H2. by apply ends_ret.
Qed.

(** A service deployed: its Deployment written as planned, then seen available. *)
Definition deployed (h : ApiHistory) (p : ObjectSet * DeploymentService) (i : DeploymentIdentity) : Prop :=
  exists d h0, written ns h0 p.1 DeploymentKind d /\ rolled_since ns h0 h p.1 /\ i = identity_of_deployment p.1 p.2 d.
Lemma deployed_later h h' p i : h `prefix_of` h' -> deployed h p i -> deployed h' p i.
Proof. intros Hp (d & h0 & ? & ? & ?). exists d, h0. split_and!; [done|by eapply rolled_since_later|done]. Qed.

Lemma apply_all_ok l r h : Forall (fun x => x.1.1 ∈ sets /\ endpoint_named x.1.1) l ->
  (kr_outcome r = "" -> l <> [] -> prepared_run h r /\ Forall (fun x => existing_ok ns instance h x.1.1 x.2) l) ->
  PW h (apply_all same_quantity fuel ns instance l r) (fun r' h' => kr_outcome r' = "" ->
    kr_outcome r = "" /\ exists ids, kr_services r' = kr_services r ++ ids /\ Forall2 (deployed h') (map fst l) ids).
Proof.
  revert r h; induction l as [|[[set s] e] l IH]; intros r h Hl Hpre; cbn [apply_all].
  { ret. intros E. split; [done|]. exists []. by rewrite app_nil_r. }
  apply Forall_cons in Hl as [[Hset Hnamed] Hl]. simpl in Hset, Hnamed.
  eapply pw_seq; [apply cluster_create_ok; [done|done|]; intros E; destruct (Hpre E) as [Hr He]; [done|]; apply Forall_cons in He as [He _]; done|].
  intros [[] r1] h1 P1 H1. simpl in H1.
  eapply pw_seq; [apply cluster_start_ok; [done|done|]; intros E; destruct (H1 E) as (E0 & Hw & _ & d & Hd & _); split_and!; [done| |by exists d]; eapply existing_later; [exact P1|];
    destruct (Hpre E0) as [_ He]; [done|]; by apply Forall_cons in He as [He _]|].
  intros [[] r2] h2 P2 (S2 & B2 & O2). simpl in *.
  eapply pw_mono; [apply IH; [done|]|].
  - intros E Hne. destruct (O2 E) as [E1 _]. destruct (H1 E1) as (E0 & (Hg & Hc & Hst) & B1 & _). destruct (Hpre E0) as [_ He]; [done|].
    apply Forall_cons in He as [_ He]. split.
    + split_and!; [by eapply granted_later|eapply Forall_impl; [exact Hc|]; intros q; by apply checked_later|]. rewrite B2, B1. by eapply seen_later.
    + eapply Forall_impl; [exact He|]. intros x Hx. do 2 (eapply existing_later; [eassumption|]). done.
  - intros r3 h3 P3 H3 E. destruct (H3 E) as (E2 & ids & S3 & F3). destruct (O2 E2) as [E1 Hro]. destruct (H1 E1) as (E0 & _ & _ & d & Hd & S1).
    split; [done|]. exists (identity_of_deployment set s d :: ids). split; [rewrite S3, S2, S1, <- app_assoc; done|]. constructor; [|done].
    exists d, h1. split_and!; [done|by eapply rolled_since_later|done].
Qed.

Lemma cluster_deploy_body_ok req : length (dr_services req) = length sets -> Forall endpoint_named sets ->
  PW [] (deploy_body_ same_quantity fuel ns instance req sets) (fun res h' => rs_outcome res = OutcomeSucceeded ->
    Forall2 (deployed h') (zip sets (dr_services req)) (rs_services res)).
Proof.
  intros Hlen Hn. eapply pw_seq; [apply pw_ends; [apply reads, preconditions_ok, Hn|by apply preconditions_honest]|]. intros [have r] h1 P1 [[(S1 & B1 & L1 & O1) Hrd] Hh]. simpl in *.
  assert (map fst (zip (zip sets (dr_services req)) have) = zip sets (dr_services req)) as Ez.
  { apply fst_zip. rewrite length_zip. lia. }
  eapply pw_seq; [apply pw_ends; [apply apply_all_ok|by apply apply_all_honest]|].
  - apply Forall_forall. intros [[set s] e] Hx. simpl. apply elem_of_zip_l, elem_of_zip_l in Hx. split; [done|]. rewrite Forall_forall in Hn. by apply Hn.
  - intros E Hne. destruct (O1 E) as (_ & Hg & HF). split.
    + split_and!; [apply Hg; [done|]; intros ->; by simpl in Hne| |].
      * apply Forall_forall. intros set Hs. apply list_elem_of_lookup in Hs as [i Hi]. destruct (Forall2_lookup_l _ _ _ _ _ HF Hi) as (e & _ & _ & ?). done.
      * rewrite B1. simpl. intros H. apply Hrd in H as [H|H]; [by apply elem_of_nil in H|done].
    + apply Forall_forall. intros [[set s] e] Hx. simpl. apply list_elem_of_lookup in Hx as [i Hi]. apply lookup_zip_Some in Hi as [Hi He].
      apply lookup_zip_Some in Hi as [Hi _]. destruct (Forall2_lookup_lr _ _ _ _ _ _ HF Hi He). done.
  - intros r2 h2 P2 [H2 Hh2]. ret. intros Ho. destruct (bool_decide (kr_outcome r2 = "")) eqn:Eb.
    + apply bool_decide_eq_true in Eb. destruct (H2 Eb) as (_ & ids & S2 & F). rewrite S1 in S2. simpl in S2. rewrite S2. by rewrite Ez in F.
    + done.
Qed.
End Deploy.

(** ** Theorems *)

Section Theorems.
Context (sum_hex : string -> string) (same_quantity : string -> string -> bool) (fuel : nat).

Lemma sets_named r k l sets : Forall2 (SetOk r k) l sets -> Forall endpoint_named sets.
Proof. induction 1 as [|s set l l' H _ IH]; constructor; [by destruct H|done]. Qed.

Lemma cluster_run_ok req now k sets w :
  request_validate_for RuntimeKubernetes req now = Ok tt -> dr_kubernetes req = Some k -> Request sum_hex req k = Some sets ->
  let run := execute w [] (cluster_deploy sum_hex same_quantity fuel req now) in
  (forall h1 c x h2, run.2 = h1 ++ existT c x :: h2 -> deploy_rule same_quantity (kt_namespace k) (kt_instance k) sets h1 c) /\
  match run.1 with
  | Some res => rs_outcome res = OutcomeSucceeded -> Forall2 (deployed (kt_namespace k) run.2) (zip sets (dr_services req)) (rs_services res)
  | None => out_of_fuel fuel run.2
  end.
Proof.
  intros Hv Hk Hs. destruct (Request_total sum_hex _ _ _ Hv Hk) as (sets' & E & Hok). rewrite Hs in E. injection E as <-.
  unfold cluster_deploy. rewrite Hv, Hk, Hs.
  pose proof (cluster_deploy_body_ok same_quantity fuel (kt_namespace k) (kt_instance k) sets req (Forall2_length _ _ _ Hok) (sets_named _ _ _ _ Hok)) as H.
  destruct (pw_execute _ _ w _ _ _ H) as (H1 & _ & H2). split; [|done]. intros h1 c x h2 Eh. apply (H1 _ _ _ _ Eh). simpl. lia.
Qed.


(** C14: A cluster deployment reported as a success deployed every service of the frame, in order: its
    Deployment was written as planned, with the image the frame pins in its only container, and was
    then read as available with every replica updated; the identity reported is that of the
    Deployment the server returned, with the digest pulled. *)
Theorem cluster_deploy_success req now k w res h :
  request_validate_for RuntimeKubernetes req now = Ok tt -> dr_kubernetes req = Some k ->
  execute w [] (cluster_deploy sum_hex same_quantity fuel req now) = (Some res, h) -> rs_outcome res = OutcomeSucceeded ->
  exists sets, Request sum_hex req k = Some sets /\ Forall2 (SetOk req k) (dr_services req) sets /\
    Forall2 (deployed (kt_namespace k) h) (zip sets (dr_services req)) (rs_services res).
Proof.
  intros Hv Hk E Ho. destruct (Request_total sum_hex _ _ _ Hv Hk) as (sets & Es & Hok). exists sets. split_and!; [done|done|].
  destruct (cluster_run_ok _ _ _ _ w Hv Hk Es) as [_ H]. rewrite E in H. by apply H.
Qed.

(** C15: A valid frame always renders, and the run ends with a result unless the server itself made
    its loops go on: without a result, the polls that left time for another and the updates whose
    object had vanished number at least the fuel less one. *)
Theorem cluster_deploy_ends req now w :
  request_validate_for RuntimeKubernetes req now = Ok tt ->
  (S (spent (execute w [] (cluster_deploy sum_hex same_quantity fuel req now)).2) < fuel)%nat ->
  exists res, (execute w [] (cluster_deploy sum_hex same_quantity fuel req now)).1 = Some res.
Proof.
  intros Hv Hf. assert (exists k, dr_kubernetes req = Some k) as [k Hk].
  { unfold request_validate_for in Hv. refusals Hv. unfold for_runtime in Hg. destruct (dr_kubernetes req) as [k|]; [by exists k|].
    rewrite (bool_decide_false (is_Some None)) in Hg by (by intros [? ?]). by vm_compute in Hg. }
  destruct (Request_total sum_hex _ _ _ Hv Hk) as (sets & Es & _). destruct (cluster_run_ok _ _ _ _ w Hv Hk Es) as [_ H].
  destruct ((execute w [] _).1) as [res|]; [by exists res|]. unfold out_of_fuel in H. lia.
Qed.
End Theorems.

(** ** A cluster *)

Definition kd_missing : ApiErr := mkApiErr (Some NotFound) false false.
Definition kd_uid : string := "11111111-2222-3333-4444-555555555555".
Definition kd_meta (m : Meta) : Meta :=
  mkMeta (mt_name m) (mt_namespace m) (mt_labels m) (mt_annotations m) kd_uid "1" 1.
Definition kd_available (d : ClusterDeployment) : ClusterDeployment :=
  mkClusterDeployment (kd_meta (dpl_meta d)) (dpl_replicas d) (dpl_strategy d) (dpl_min_ready d) (dpl_progress d) (dpl_selector d)
    (dpl_template d) (mkRollout 1 1 1 1 1 []) (dpl_other d).
(** The last Deployment created. *)
Fixpoint kd_created (h : ApiHistory) : option ClusterDeployment :=
  match h with
  | [] => None
  | e :: h' =>
      match kd_created h' with
      | Some d => Some d
      | None => match projT1 e with CreateObject _ DeploymentKind d => Some d | _ => None end
      end
  end.
Definition kd_server : Server := fun h c =>
  match c with
  | Review _ _ _ _ _ => inr true
  | ReadNamespace _ => inr {[podSecurityEnforce := "baseline"]}
  | GetObject _ k _ =>
      match k as k return ApiErr + Obj k with
      | DeploymentKind => match kd_created h with Some d => inr (kd_available d) | None => inl kd_missing end
      | _ => inl kd_missing
      end
  | CreateObject _ k o | UpdateObject _ k o =>
      match k as k return Obj k -> ApiErr + Obj k with DeploymentKind => fun o => inr (kd_available o) | _ => fun o => inr o end o
  | DeleteObject _ _ _ _ _ => None
  | ListObjects _ _ _ => inr []
  | ListPage _ _ _ _ => inr ([], "")
  | ListPods _ _ => inr []
  | Poll => Tick
  | Started => tt
  end.
Definition kd_run : option DeploymentResult * ApiHistory :=
  Eval vm_compute in execute kd_server [] (cluster_deploy (fun _ => demo_hex) String.eqb 5 demo_cluster (11 * Minute)).
Definition kd_result : DeploymentResult := match kd_run.1 with Some r => r | None => mkResult "" "" "" "" [] [] end.
Lemma kd_executes : execute kd_server [] (cluster_deploy (fun _ => demo_hex) String.eqb 5 demo_cluster (11 * Minute)) = kd_run.
Proof. vm_cast_no_check (eq_refl kd_run). Qed.
Lemma kd_valid : request_validate_for RuntimeKubernetes demo_cluster (11 * Minute) = Ok tt.
Proof. vm_compute. reflexivity. Qed.
Definition kd_target : KubernetesTarget :=
  mkKTarget "shop" "01234567-89ab-cdef-0123-456789abcdef" "01234567-89ab-cdef-0123-456789abcdef" ("sha256:" +:+ demo_hex)
    [mkClaim "data" "" "5Gi" "ReadWriteOnce"].

Lemma cluster_deploy_success_witness :
  map id_uid (rs_services kd_result) = [kd_uid] /\
  exists sets, Request (fun _ => demo_hex) demo_cluster kd_target = Some sets /\ Forall2 (SetOk demo_cluster kd_target) (dr_services demo_cluster) sets /\
    Forall2 (deployed (kt_namespace kd_target) kd_run.2) (zip sets (dr_services demo_cluster)) (rs_services kd_result).
Proof.
  split; [reflexivity|].
  apply (cluster_deploy_success (fun _ => demo_hex) String.eqb 5 demo_cluster (11 * Minute) kd_target kd_server kd_result kd_run.2 kd_valid eq_refl);
    [rewrite kd_executes; reflexivity|reflexivity].
Defined.
Lemma cluster_deploy_ends_witness :
  exists res, (execute kd_server [] (cluster_deploy (fun _ => demo_hex) String.eqb 5 demo_cluster (11 * Minute))).1 = Some res.
Proof.
  apply (cluster_deploy_ends (fun _ => demo_hex) String.eqb 5 demo_cluster (11 * Minute) kd_server kd_valid). rewrite kd_executes. vm_compute. lia.
Defined.
