(* ===== verification/ClusterRemoval.v ===== *)
(** * Removing an instance from a cluster

    What [Remove] may delete, and that a success leaves nothing of the instance it was shown. *)
From Stdlib Require Import ZArith Lia Ascii String.
From stdpp Require Import base gmap sets strings list sorting.
From S2P Require Import Prelude.
From S2P Require Import Regex.
From S2P Require Import Grammar.
From S2P Require Import Inspection.
From S2P Require Import Frame.
From S2P Require Import DockerRun.
From S2P Require Import ClusterObjects.
From S2P Require Import ClusterRun.
From S2P Require Import ClusterLogic.
From S2P Require Import ClusterSafety.
From S2P Require Import ClusterDeploy.

Section Removal.
Context (sum_hex : string -> string) (fuel : nat) (ns instance : string).

Definition service_of {k : Kind} (o : Obj k) : string := default "" (mt_labels (meta o) !! LabelService).
(** An object of the instance, filed under a service. *)
Definition ours {k : Kind} (o : Obj k) : Prop := owned instance o = true /\ ValidServiceName (service_of o) = true.

Definition cluster_removal_rule (h : ApiHistory) (c : ApiCall) : Prop :=
  match c with
  | DeleteObject n k name uid foreground => n = ns /\ foreground = true /\ k <> ClaimKind /\ existT Started tt ∈ h /\
      exists o, shown ns h k o /\ ours o /\ mt_name (meta o) = name /\ mt_uid (meta o) = uid
  | GetObject n k _ => n = ns /\ k = SecretKind
  | ListObjects n k selector => n = ns /\ k ∈ [DeploymentKind; ServiceKind; ConfigMapKind] /\ selector = {[LabelInstance := instance]}
  | ListPage n k selector _ => n = ns /\ k = ClaimKind /\ selector = {[LabelInstance := instance]}
  | Started => existT Started tt ∉ h
  | _ => False
  end.
Definition looking (c : ApiCall) : Prop :=
  match c with
  | GetObject n k _ => n = ns /\ k = SecretKind
  | ListObjects n k selector => n = ns /\ k ∈ [DeploymentKind; ServiceKind; ConfigMapKind] /\ selector = {[LabelInstance := instance]}
  | ListPage n k selector _ => n = ns /\ k = ClaimKind /\ selector = {[LabelInstance := instance]}
  | _ => False
  end.
Definition no_fuel (h : ApiHistory) : Prop := (fuel <= spent h)%nat.
Abbreviation PW := (pw cluster_removal_rule no_fuel).
Abbreviation LW := (pw (fun _ => looking) no_fuel).

(** ** What is found *)

Definition doomed_in (f : Found) (s : string) (d : doomed) : Prop := d ∈ default [] (fd_objects f !! s).
(** Everything found was shown as the instance's, and is filed under its service. *)
Definition doomed_ok (h : ApiHistory) (d : doomed) : Prop :=
  dm_kind d <> ClaimKind /\ exists o : Obj (dm_kind d), shown ns h (dm_kind d) o /\ ours o /\ mt_name (meta o) = dm_name d /\ mt_uid (meta o) = dm_uid d.
Definition found_ok (h : ApiHistory) (f : Found) : Prop := forall s d, doomed_in f s d -> doomed_ok h d.
Definition found_more (f f' : Found) : Prop := (forall s d, doomed_in f s d -> doomed_in f' s d) /\ fd_secrets f ⊆ fd_secrets f'.
Definition filed {k : Kind} (f : Found) (o : Obj k) : Prop := ours o -> doomed_in f (service_of o) (mkDoomed k (mt_name (meta o)) (mt_uid (meta o))).
(** A Secret that was looked for is absent, or filed when it is the instance's. *)
Definition secret_filed (h : ApiHistory) (f : Found) (n : string) : Prop :=
  exists x, existT (GetObject ns SecretKind n) x ∈ h /\ match x with inl e => IsNotFound e = true | inr o => filed (k:=SecretKind) f o end.
Definition looked (h : ApiHistory) (f : Found) : Prop := forall n, n ∈ fd_secrets f -> secret_filed h f n.
Definition all_filed (h : ApiHistory) (f : Found) (k : Kind) (secret_of : Obj k -> option string) : Prop :=
  exists items, existT (ListObjects ns k {[LabelInstance := instance]}) (inr items) ∈ h /\
    forall o, o ∈ items -> filed f o /\ forall n, secret_of o = Some n -> n ∈ fd_secrets f.

#[local] Instance found_more_preorder : PreOrder found_more.
Proof. split; [done|]. intros f1 f2 f3 [H1 S1] [H2 S2]. split; [intros s d ?; by apply H2, H1|by etrans]. Qed.
Lemma found_later h h' f : h `prefix_of` h' -> found_ok h f -> found_ok h' f.
Proof. intros Hp H s d Hd. destruct (H s d Hd) as (Hk & o & Ho & ?). split; [done|]. exists o. split; [by eapply shown_later|done]. Qed.
Lemma filed_more {k} f f' (o : Obj k) : found_more f f' -> filed f o -> filed f' o.
Proof. intros [H _] Hf Ho. by apply H, Hf. Qed.
Lemma secret_filed_later h h' f f' n : h `prefix_of` h' -> found_more f f' -> secret_filed h f n -> secret_filed h' f' n.
Proof. intros Hp Hm (x & Hx & H). exists x. split; [by eapply seen_later|]. destruct x; [done|by eapply filed_more]. Qed.
Lemma looked_later h h' f : h `prefix_of` h' -> looked h f -> looked h' f.
Proof. intros Hp H n Hn. eapply secret_filed_later; [exact Hp|done|by apply H]. Qed.
Lemma all_filed_later h h' f f' k so : h `prefix_of` h' -> found_more f f' -> all_filed h f k so -> all_filed h' f' k so.
Proof.
  intros Hp Hm (items & ? & H). exists items. split; [by eapply seen_later|]. intros o Ho. destruct (H o Ho) as [Hf Hn].
  split; [by eapply filed_more|]. intros n En. apply Hm, Hn, En.
Qed.
Hint Resolve found_later looked_later : cluster.

Lemma add_found_ok {k} h (o : Obj k) f : k <> ClaimKind -> shown ns h k o -> found_ok h f ->
  found_ok h (add_found instance o f) /\ found_more f (add_found instance o f) /\ filed (add_found instance o f) o /\
  fd_secrets (add_found instance o f) = fd_secrets f.
Proof.
  intros Hk Hs Hf. unfold add_found. destruct (owned instance o && ValidServiceName _) eqn:E.
  - apply andb_true_iff in E as [E1 E2]. split_and!; [| |intros _; unfold doomed_in, service_of; simpl; rewrite lookup_insert_eq; simpl; set_solver|done].
    + intros s d. unfold doomed_in. simpl. destruct (decide (s = default "" (mt_labels (meta o) !! LabelService))) as [->|Hne].
      * rewrite lookup_insert_eq. simpl. intros [Hd|Hd]%elem_of_app; [by apply (Hf (default "" (mt_labels (meta o) !! LabelService)))|].
        apply list_elem_of_singleton in Hd as ->. split; [done|]. exists o. done.
      * rewrite lookup_insert_ne by done. apply Hf.
    + split; [|done]. intros s d Hd. unfold doomed_in in *. simpl. destruct (decide (s = default "" (mt_labels (meta o) !! LabelService))) as [->|Hne].
      * rewrite lookup_insert_eq. simpl. apply elem_of_app. by left.
      * by rewrite lookup_insert_ne.
  - split_and!; [done|done| |done]. intros [H1 H2]. unfold service_of in H2. rewrite H1, H2 in E. done.
Qed.
Lemma add_found_looked {k} h (o : Obj k) f : k <> ClaimKind -> shown ns h k o -> found_ok h f -> looked h f -> looked h (add_found instance o f).
Proof.
  intros Hk Hs Hf Hl n. destruct (add_found_ok h o f) as (_ & M & _ & ->); [done..|]. intros Hn. eapply secret_filed_later; [done|exact M|by apply Hl].
Qed.

Lemma addSecret_ok name f h : found_ok h f -> looked h f ->
  LW h (addSecret ns instance name f) (fun p h' => found_ok h' p.1 /\ found_more f p.1 /\ (good p.2 = true -> looked h' p.1 /\ name ∈ fd_secrets p.1)).
Proof.
  intros Hf Hl. unfold addSecret. case_bool_decide; [ret; by split_and!|]. set (f' := mkFound _ _ _).
  assert (found_more f f') as Hm by (split; [done|simpl; set_solver]).
  assert (forall h1 g, h `prefix_of` h1 -> found_more f' g -> fd_secrets g = {[name]} ∪ fd_secrets f -> secret_filed h1 g name -> looked h1 g) as Hlook.
  { intros h1 g Hp M Eg Hn n. rewrite Eg. intros [->%elem_of_singleton|Hin]%elem_of_union; [done|].
    eapply secret_filed_later; [exact Hp| |by apply Hl]. by etrans. }
  eapply (pw_seq _ _ _ _ _ (fun x h' => match x with
    | inl _ => True
    | inr (Some o) => existT (GetObject ns SecretKind name) (inr o) ∈ h'
    | inr None => exists e, existT (GetObject ns SecretKind name) (inl e) ∈ h' /\ IsNotFound e = true end)).
  { apply pw_call; [done|]. intros [e|o] _; ret; [|apply seen_last]. destruct (IsNotFound e) eqn:Ee; [|done]. exists e. split; [apply seen_last|done]. }
  intros [e|[o|]] h' Hp Hx; ret.
  - split_and!; [by eapply found_later|done|by rewrite failure_bad].
  - destruct (add_found_ok (k:=SecretKind) h' o f') as (H1 & H2 & H3 & H4); [done|left; by exists name|exact (found_later _ _ _ Hp Hf)|].
    split_and!; [done|by etrans|]. intros _. split; [|rewrite H4; simpl; set_solver]. apply Hlook; [done|done|done|]. by exists (inr o).
  - split_and!; [exact (found_later _ _ _ Hp Hf)|done|]. intros _. split; [|simpl; set_solver]. apply Hlook; [done|done|done|].
    destruct Hx as (e & He & Ee). by exists (inl e).
Qed.

Lemma find_each_ok {k} secret_of (l : list (Obj k)) f h : k <> ClaimKind -> (forall o, o ∈ l -> shown ns h k o) -> found_ok h f -> looked h f ->
  LW h (find_each ns instance secret_of l f) (fun p h' => found_ok h' p.1 /\ found_more f p.1 /\ (good p.2 = true -> looked h' p.1 /\
    forall o, o ∈ l -> filed p.1 o /\ forall n, secret_of o = Some n -> n ∈ fd_secrets p.1)).
Proof.
  intros Hk. revert f h; induction l as [|o l IH]; intros f h Hs Hf Hl; cbn [find_each].
  { ret. split_and!; [done|done|]. intros _. split; [done|]. intros o. by rewrite elem_of_nil. }
  destruct (add_found_ok h o f Hk) as (H1 & H2 & H3 & H4); [apply Hs; by left|done|].
  assert (looked h (add_found instance o f)) as Hl1 by (apply add_found_looked; [done|apply Hs; by left|done|done]).
  eapply (pw_seq _ _ _ _ _ (fun p h' => found_ok h' p.1 /\ found_more (add_found instance o f) p.1 /\
    (good p.2 = true -> looked h' p.1 /\ forall n, secret_of o = Some n -> n ∈ fd_secrets p.1))).
  { unfold add_secret_of. destruct (secret_of o) as [n|]; [|by ret; split_and!]. eapply pw_mono; [by apply addSecret_ok|].
    intros p h' _ (? & ? & Hg). split_and!; [done|done|]. intros G. destruct (Hg G). split; [done|]. by intros ? [= <-]. }
  intros [f1 a] h1 P1 (F1 & M1 & G1). simpl in *. destruct (good a) eqn:G; [|ret; split_and!; [done|by etrans|congruence]].
  destruct (G1 eq_refl) as [L1 N1]. eapply pw_mono; [apply IH; [|done|done]|].
  - intros o' Ho'. eapply shown_later; [exact P1|]. apply Hs. by right.
  - intros p h2 P2 (F2 & M2 & C2). split_and!; [done|do 2 (etrans; [eassumption|]); done|]. intros Hg. destruct (C2 Hg) as [L2 C]. split; [done|].
    intros o' [->|Ho']%elem_of_cons; [|by apply C]. split; [do 2 (eapply filed_more; [eassumption|]); done|]. intros n En. by apply M2, N1.
Qed.
Lemma find_kind_ok k secret_of f h : k ∈ [DeploymentKind; ServiceKind; ConfigMapKind] -> found_ok h f -> looked h f ->
  LW h (find_kind ns instance k secret_of f) (fun p h' => found_ok h' p.1 /\ found_more f p.1 /\ (good p.2 = true -> looked h' p.1 /\ all_filed h' p.1 k secret_of)).
Proof.
  intros Hk Hf Hl. apply pw_call; [done|]. intros [e|items] Hp; [ret; split_and!; [by eapply found_later|done|by rewrite failure_bad]|].
  eapply pw_mono; [apply find_each_ok; [set_solver| |by eapply found_later|by eapply looked_later]|].
  - intros o Ho. right. eexists _, items. split; [apply seen_last|done].
  - intros p h' P' (F & M & C). split_and!; [done|done|]. intros Hg. destruct (C Hg) as [L C']. split; [done|]. exists items. split; [|done].
    eapply seen_later; [exact P'|apply seen_last].
Qed.

Lemma list_claims_ok n out next h : (fuel <= n + spent h)%nat -> LW h (list_claims ns instance n out next) (fun _ _ => True).
Proof.
  revert out next h; induction n as [|n IH]; intros out next h Hf; cbn [list_claims]; [unfold pw; simpl; unfold no_fuel; lia|].
  apply pw_call; [done|]. intros [e|[items next']] Hp; [by ret|]. cbv zeta. case_bool_decide as E; [by ret|]. simpl. destruct (_ >? _); [by ret|].
  apply IH. rewrite spent_last. unfold spends. simpl. rewrite bool_decide_false by done. lia.
Qed.
Lemma find_secrets_ok names f h : found_ok h f -> looked h f ->
  LW h (find_secrets ns instance names f) (fun p h' => found_ok h' p.1 /\ found_more f p.1 /\
    (good p.2 = true -> looked h' p.1 /\ forall n, n ∈ names -> n ∈ fd_secrets p.1)).
Proof.
  revert f h; induction names as [|n l IH]; intros f h Hf Hl; cbn [find_secrets].
  { ret. split_and!; [done|done|]. intros _. split; [done|]. intros n. by rewrite elem_of_nil. }
  eapply pw_seq; [by apply addSecret_ok|]. intros [f1 a] h1 P1 (F1 & M1 & G1). simpl in *.
  destruct (good a) eqn:G; [|ret; split_and!; [done|done|congruence]]. destruct (G1 eq_refl) as [L1 N1].
  eapply pw_mono; [by apply IH|]. intros p h2 P2 (F2 & M2 & C2). split_and!; [done|by etrans|]. intros Hg. destruct (C2 Hg) as [L2 C].
  split; [done|]. intros n' [->|Hn]%elem_of_cons; [by apply M2|by apply C].
Qed.

(** ** The whole search *)

Definition deployment_secret (d : Obj DeploymentKind) : option string := Some (mt_name (dpl_meta d) +:+ "-secret").
Definition config_secret (c : Obj ConfigMapKind) : option string := SecretFor (mt_name (cfm_meta c)).
Definition service_secret (req : RemovalRequest) (s : string) : string :=
  default "" (KubeNames.KubernetesNames sum_hex (rm_project req) (rm_services req) !! s) +:+ "-secret".
(** Every Deployment, Service and ConfigMap listed is found, with the Secrets paired with them and
    with the services the frame names. *)
Record complete (req : RemovalRequest) (h : ApiHistory) (f : Found) : Prop := {
  cp_looked : looked h f;
  cp_deployments : all_filed h f DeploymentKind deployment_secret;
  cp_services : all_filed h f ServiceKind (fun _ => None);
  cp_configs : all_filed h f ConfigMapKind config_secret;
  cp_secrets : forall s, s ∈ rm_services req -> service_secret req s ∈ fd_secrets f }.

Lemma find_ok req h : LW h (find sum_hex fuel ns instance req) (fun p h' => found_ok h' p.1 /\ (good p.2 = true -> complete req h' p.1)).
Proof.
  assert (found_ok h (mkFound ∅ ∅ ∅)) as F0.
  { intros s d. unfold doomed_in. simpl. rewrite lookup_empty. simpl. by rewrite elem_of_nil. }
  unfold find. eapply pw_seq; [apply (find_kind_ok _ deployment_secret); [set_solver|done|by intros n ?%elem_of_empty]|].
  intros [f1 a1] h1 P1 (F1 & _ & C1). cbn [fst snd] in *. destruct (good a1) eqn:G1; cbn [negb]; [|ret; split; [done|congruence]].
  destruct (C1 eq_refl) as [L1 A1].
  eapply pw_seq; [apply find_kind_ok; [set_solver|done|done]|]. intros [f2 a2] h2 P2 (F2 & M2 & C2). cbn [fst snd] in *.
  destruct (good a2) eqn:G2; cbn [negb]; [|ret; split; [done|congruence]]. destruct (C2 eq_refl) as [L2 A2].
  eapply pw_seq; [apply (find_kind_ok _ config_secret); [set_solver|done|done]|]. intros [f3 a3] h3 P3 (F3 & M3 & C3). cbn [fst snd] in *.
  destruct (good a3) eqn:G3; cbn [negb]; [|ret; split; [done|congruence]]. destruct (C3 eq_refl) as [L3 A3].
  eapply pw_seq; [apply list_claims_ok; lia|]. intros [e|claims] h4 P4 _; [ret; split; [by eapply found_later|by rewrite failure_bad]|].
  set (f4 := mkFound _ (keep_claims _ _ _) _).
  eapply pw_mono; [apply (find_secrets_ok _ f4); [exact (found_later _ _ _ P4 F3)|exact (looked_later _ _ _ P4 L3)]|].
  intros p h5 P5 (F5 & M5 & C5). split; [done|]. intros Hg. destruct (C5 Hg) as [L5 N5].
  assert (found_more f3 p.1) as M35 by exact M5. assert (h3 `prefix_of` h5) as P35 by (by etrans).
  assert (found_more f2 p.1) as M25 by (by etrans). assert (h2 `prefix_of` h5) as P25 by (by etrans).
  split; [done| | |by eapply (all_filed_later h3 h5 f3)|].
  - eapply (all_filed_later h2 h5 f2); [done|done|]. by eapply (all_filed_later h1 h2 f1).
  - by eapply (all_filed_later h2 h5 f2).
  - intros s Hs. apply N5. apply list_elem_of_In, in_map_iff. exists s. split; [done|by apply list_elem_of_In].
Qed.

(** ** Deleting *)

(** Deleted, or gone when the deletion reached the server. *)
Definition gone (h : ApiHistory) (d : doomed) : Prop :=
  exists x, existT (DeleteObject ns (dm_kind d) (dm_name d) (dm_uid d) true) x ∈ h /\
    match x with None => True | Some e => IsNotFound e || IsConflict e = true end.
Lemma gone_later h h' d : h `prefix_of` h' -> gone h d -> gone h' d.
Proof. intros Hp (x & Hx & H). exists x. split; [by eapply seen_later|done]. Qed.

Lemma delete_each_ok l h : existT Started tt ∈ h -> (forall d, d ∈ l -> doomed_ok h d) ->
  PW h (delete_each ns l) (fun a h' => good a = true -> Forall (gone h') l).
Proof.
  revert h; induction l as [|d l IH]; intros h Hs Hd; cbn [delete_each]; [by ret|].
  destruct (Hd d ltac:(by left)) as (Hk & o & Ho & Hours & En & Eu).
  apply pw_call; [split_and!; [done|done|done|done|by exists o]|]. intros x Hp.
  assert (forall h1 a, h ++ [existT _ x] `prefix_of` h1 -> match x with None => True | Some e => IsNotFound e || IsConflict e = true end ->
    (good a = true -> Forall (gone h1) l) -> good a = true -> Forall (gone h1) (d :: l)) as Hgone.
  { intros h1 a P1 Hx H Hg. apply Forall_cons. split; [|by apply H]. exists x. split; [|done]. eapply seen_later; [exact P1|apply seen_last]. }
  assert (forall d', d' ∈ l -> doomed_ok (h ++ [existT (DeleteObject ns (dm_kind d) (dm_name d) (dm_uid d) true) x]) d') as Hd'.
  { intros d' Hin. destruct (Hd d' ltac:(by right)) as (? & o' & ? & ?). split; [done|]. exists o'. split; [by eapply shown_later|done]. }
  destruct x as [e|].
  - destruct (IsNotFound e || IsConflict e) eqn:E; [|ret; by rewrite failure_bad]. eapply pw_mono; [apply IH; [by eapply seen_later|done]|].
    intros a h1 P1 H. by apply Hgone.
  - eapply pw_mono; [apply IH; [by eapply seen_later|done]|]. intros a h1 P1 H. by apply Hgone.
Qed.

(** The start was announced when the run says so. *)
Definition announced (r : KRun) (h : ApiHistory) : Prop := if kr_begun r then existT Started tt ∈ h else existT Started tt ∉ h.

Lemma removal_begin_ok r h : announced r h -> PW h (kbegin r) (fun r' h' => kr_begun r' = true /\ existT Started tt ∈ h' /\ kr_outcome r' = kr_outcome r).
Proof.
  unfold announced, kbegin. destruct (kr_begun r) eqn:E; intros H; [by ret|]. apply pw_call; [done|]. intros [] _. ret. split_and!; [done|apply seen_last|done].
Qed.
Lemma finished_begun service stp a r : kr_begun (finished_step service stp a r) = kr_begun r.
Proof. unfold finished_step. by destruct (_ || _). Qed.
Lemma delete_each_proper l : ends (delete_each ns l) proper.
Proof.
  induction l as [|d l IH]; cbn [delete_each]; [by apply ends_ret|]. apply ends_call. intros [e|]; [|exact IH].
  destruct (_ || _); [exact IH|apply ends_ret, failure_proper].
Qed.
Lemma add_retained_facts s n r : kr_begun (add_retained s n r) = kr_begun r /\ kr_outcome (add_retained s n r) = kr_outcome r.
Proof. unfold add_retained. induction n as [|n [IH1 IH2]]; [done|]. by split. Qed.

Definition cleared (f : Found) (h : ApiHistory) (s : string) : Prop := forall d, doomed_in f s d -> gone h d.
Lemma cleared_later f h h' s : h `prefix_of` h' -> cleared f h s -> cleared f h' s.
Proof. intros Hp H d Hd. by eapply gone_later; [|apply H]. Qed.

Lemma cluster_remove_step_ok s l r h : announced r h -> (forall d, d ∈ l -> doomed_ok h d) ->
  PW h (kstep s "remove" tt (fun r => r ← kbegin r; a ← delete_each ns l; mret (a, tt, r)) r)
    (fun p h' => announced p.2 h' /\ (kr_outcome p.2 = "" -> kr_outcome r = "" /\ Forall (gone h') l)).
Proof.
  intros Ha Hd. apply kstep_ok; [intros E; split; [exact Ha|by intros ?]|]. intros E. eapply pw_seq; [by apply removal_begin_ok|]. intros r1 h1 P1 (B1 & S1 & O1).
  eapply pw_seq; [apply pw_ends; [apply delete_each_ok; [done|]|apply delete_each_proper]|].
  - intros d Hin. destruct (Hd d Hin) as (? & o & ? & ?). split; [done|]. exists o. split; [by eapply shown_later|done].
  - intros a h2 P2 [Hg Hpr]. ret. split; [unfold announced; rewrite finished_begun, B1; by eapply seen_later|].
    intros Eo. split; [done|]. apply Hg. eapply finished_ok; [|exact Hpr|exact Eo]. congruence.
Qed.
Lemma remove_service_ok first s f r h : announced r h -> found_ok h f ->
  PW h (remove_service ns first s f r) (fun r' h' => announced r' h' /\ (kr_outcome r' = "" -> kr_outcome r = "" /\ cleared f h' s)).
Proof.
  intros Ha Hf. unfold remove_service.
  eapply (pw_seq _ _ _ _ _ (fun p h' => announced p.2 h' /\ (kr_outcome p.2 = "" -> kr_outcome r = ""))).
  { destruct first; [by ret|]. apply kstep_ok; [done|]. intros E. ret. done. }
  intros [[] r1] h1 P1 [A1 O1]. simpl in A1, O1.
  eapply (pw_seq _ _ _ _ _ (fun p h' => announced p.2 h' /\ (kr_outcome p.2 = "" -> kr_outcome r1 = "" /\ cleared f h' s))).
  { destruct (default [] (fd_objects f !! s)) as [|d l] eqn:El.
    - ret. split; [done|]. intros E. split; [done|]. intros d. unfold doomed_in. by rewrite El, elem_of_nil.
    - eapply pw_mono; [apply cluster_remove_step_ok; [done|]|].
      + intros d' Hd'. eapply (found_later h h1 f); [done|done|]. unfold doomed_in. by rewrite El.
      + intros p h2 P2 [A2 O2]. split; [done|]. intros E. destruct (O2 E) as [E1 Hg]. split; [done|]. intros d'. unfold doomed_in. rewrite El.
        intros Hd'. rewrite Forall_forall in Hg. by apply Hg. }
  intros [[] r2] h2 P2 [A2 O2]. simpl in A2, O2. ret. destruct (add_retained_facts s (default 0%nat (fd_kept f !! s)) r2) as [Eb Eo].
  unfold announced. rewrite Eb, Eo. split; [done|]. intros E. destruct (O2 E) as [E1 Hc]. split; [by apply O1|done].
Qed.
Lemma remove_services_ok first l f r h : announced r h -> found_ok h f ->
  PW h (remove_services ns first l f r) (fun r' h' => kr_outcome r' = "" -> kr_outcome r = "" /\ Forall (cleared f h') l).
Proof.
  revert first r h; induction l as [|s l IH]; intros first r h Ha Hf; cbn [remove_services]; [by ret|].
  eapply pw_seq; [by apply remove_service_ok|]. intros r1 h1 P1 [A1 O1]. eapply pw_mono; [apply IH; [done|by eapply found_later]|].
  intros r2 h2 P2 O2 E. destruct (O2 E) as [E1 HF]. destruct (O1 E1) as [E0 Hc]. split; [done|]. constructor; [by eapply cleared_later|done].
Qed.

Lemma remove_services_honest first l f r : honest r -> ends (remove_services ns first l f r) honest.
Proof.
  revert first r; induction l as [|s l IH]; intros first r Hr; cbn [remove_services]; [by apply ends_ret|].
  eapply (ends_seq _ _ honest); [|intros r' Hr'; by apply IH]. unfold remove_service.
  eapply (ends_seq _ _ (fun p => honest p.2)). { destruct first; [by apply ends_ret|]. apply kstep_honest; [done|]. intros r' ?. by apply ends_ret. }
  intros [[] r1] H1. eapply (ends_seq _ _ (fun p => honest p.2)).
  { destruct (default [] _) as [|d ds]; [by apply ends_ret|]. apply kstep_honest; [done|]. intros r2 H2.
    eapply (ends_seq _ _ honest); [unfold kbegin; destruct (kr_begun r2); [by apply ends_ret|by apply ends_call]|]. intros r3 H3.
    eapply ends_seq; [apply ends_any|]. intros a _. by apply ends_ret. }
  intros [[] r2] H2. apply ends_ret. unfold honest. by rewrite (proj2 (add_retained_facts _ _ _)).
Qed.

(** ** The whole removal *)

Lemma addSecret_proper n f : ends (addSecret ns instance n f) (fun p => proper p.2).
Proof.
  unfold addSecret. case_bool_decide; [by apply ends_ret|]. eapply ends_seq; [by apply (kget_any _ _ _ (fun _ => True))|].
  intros [e|[o|]] _; apply ends_ret; [apply failure_proper|done|done].
Qed.
Lemma find_each_proper {k} secret_of (l : list (Obj k)) f : ends (find_each ns instance secret_of l f) (fun p => proper p.2).
Proof.
  revert f; induction l as [|o l IH]; intros f; cbn [find_each]; [by apply ends_ret|].
  eapply (ends_seq _ _ (fun p => proper p.2)). { unfold add_secret_of. destruct (secret_of o); [apply addSecret_proper|by apply ends_ret]. }
  intros [f1 a] Ha. simpl. destruct (good a); [apply IH|by apply ends_ret].
Qed.
Lemma find_kind_proper k secret_of f : ends (find_kind ns instance k secret_of f) (fun p => proper p.2).
Proof. apply ends_call. intros [e|items]; [apply ends_ret, failure_proper|apply find_each_proper]. Qed.
Lemma find_secrets_proper names f : ends (find_secrets ns instance names f) (fun p => proper p.2).
Proof.
  revert f; induction names as [|n l IH]; intros f; cbn [find_secrets]; [by apply ends_ret|]. eapply ends_seq; [apply addSecret_proper|].
  intros [f1 a] Ha. simpl. destruct (good a); [apply IH|by apply ends_ret].
Qed.
Lemma find_proper req : ends (find sum_hex fuel ns instance req) (fun p => proper p.2).
Proof.
  unfold find. do 3 (eapply ends_seq; [apply find_kind_proper|]; intros [? ?] ?; cbn [fst snd] in *; destruct (negb _); [by apply ends_ret|]).
  eapply ends_seq; [apply ends_any|]. intros [e|claims] _; [apply ends_ret, failure_proper|apply find_secrets_proper].
Qed.

Lemma add_services_keeps l services s : s ∈ services -> s ∈ add_services l services.
Proof. revert services; induction l as [|x l IH]; intros services Hs; simpl; [done|]. apply IH. case_bool_decide; set_solver. Qed.
Lemma add_services_adds l services s : s ∈ l -> s ∈ add_services l services.
Proof.
  revert services; induction l as [|x l IH]; intros services; [by intros ?%elem_of_nil|]. intros [->|Hs]%elem_of_cons; simpl; [|by apply IH].
  apply add_services_keeps. case_bool_decide; set_solver.
Qed.
(** A service something was found under has its step. *)
Lemma removal_services_all services f s d : doomed_in f s d -> s ∈ removal_services services f.
Proof.
  unfold doomed_in. destruct (fd_objects f !! s) as [l|] eqn:E; simpl; [|by intros ?%elem_of_nil]. intros _. unfold removal_services.
  assert (s ∈ add_services (map fst (map_to_list (fd_objects f)) ++ map fst (map_to_list (fd_kept f))) services) as H.
  { apply add_services_adds, elem_of_app. left. apply list_elem_of_In, in_map_iff. exists (s, l). split; [done|]. by apply list_elem_of_In, elem_of_map_to_list. }
  destruct (add_services _ _) as [|s0 rest]; [done|]. apply elem_of_cons in H as [->|H]; [by left|right]. by rewrite merge_sort_Permutation.
Qed.

(** A Secret that was looked for was absent, not the instance's, or deleted. *)
Definition secret_removed (h : ApiHistory) (n : string) : Prop :=
  exists x, existT (GetObject ns SecretKind n) x ∈ h /\
    match x with
    | inl e => IsNotFound e = true
    | inr o => ours (k:=SecretKind) o -> gone h (mkDoomed SecretKind (mt_name (sec_meta o)) (mt_uid (sec_meta o)))
    end.
Definition kind_removed (h : ApiHistory) (k : Kind) (secret_of : Obj k -> option string) : Prop :=
  exists items, existT (ListObjects ns k {[LabelInstance := instance]}) (inr items) ∈ h /\
    forall o, o ∈ items -> (ours o -> gone h (mkDoomed k (mt_name (meta o)) (mt_uid (meta o)))) /\
      forall n, secret_of o = Some n -> secret_removed h n.
Record removed (req : RemovalRequest) (h : ApiHistory) : Prop := {
  re_deployments : kind_removed h DeploymentKind deployment_secret;
  re_services : kind_removed h ServiceKind (fun _ => None);
  re_configs : kind_removed h ConfigMapKind config_secret;
  re_secrets : forall s, s ∈ rm_services req -> secret_removed h (service_secret req s) }.

Lemma complete_removed req h h' f : h `prefix_of` h' -> complete req h f -> (forall s d, doomed_in f s d -> gone h' d) -> removed req h'.
Proof.
  intros Hp [Hl Hd Hs Hc Hn] Hg.
  assert (forall n, n ∈ fd_secrets f -> secret_removed h' n) as Hsec.
  { intros n (x & Hx & H)%Hl. exists x. split; [by eapply seen_later|]. destruct x as [e|o]; [done|]. intros Ho. eapply Hg, (H Ho). }
  assert (forall k so, all_filed h f k so -> kind_removed h' k so) as Hk.
  { intros k so (items & Hi & H). exists items. split; [by eapply seen_later|]. intros o Ho. destruct (H o Ho) as [Hf Hso].
    split; [intros Hours; eapply Hg, (Hf Hours)|]. intros n En. by apply Hsec, Hso. }
  split; [by apply Hk..|]. intros s Hin. by apply Hsec, Hn.
Qed.

Lemma cluster_remove_body_ok req : rm_services req <> [] ->
  PW [] (remove_body_ sum_hex fuel ns instance req) (fun res h => rs_outcome res = OutcomeSucceeded -> removed req h).
Proof.
  intros Hne. unfold remove_body_. destruct (rm_services req) as [|s l] eqn:El; [done|]. rewrite <- El.
  eapply (pw_seq _ _ _ _ _ (fun p h => announced p.2 h /\ honest p.2 /\ found_ok h p.1 /\ (kr_outcome p.2 = "" -> complete req h p.1))).
  { apply kstep_ok; [by intros ?|]. intros _. eapply pw_seq.
    { apply pw_ends; [|apply find_proper]. eapply (pw_within looking _ no_fuel no_fuel); [|done|apply find_ok]. by intros h' []. }
    intros [f a] h P [[[Hf Hc] Hlook] Hpr]. ret. cbn [fst snd] in *. split_and!; [|unfold honest, finished_step|done|].
    - unfold announced. rewrite finished_begun. simpl. intros [H|H]%Hlook; [by apply elem_of_nil in H|done].
    - destruct (bool_decide (outcome_of a = OutcomeSucceeded)) eqn:E1; simpl; [done|]. destruct (bool_decide (outcome_of a = OutcomeSkipped)); simpl; [done|].
      by apply bool_decide_eq_false in E1.
    - intros E. apply Hc. by eapply finished_ok; [|exact Hpr|exact E]. }
  intros [f r] h P (A & Hh & F & C). cbn [fst snd] in *.
  eapply pw_seq; [apply pw_ends; [by apply remove_services_ok|by apply remove_services_honest]|].
  intros r' h' P' [H Hh']. ret. destruct (bool_decide (kr_outcome r' = "")) eqn:Eo; [|done]. intros _. apply bool_decide_eq_true in Eo.
  destruct (H Eo) as [E0 HF]. eapply complete_removed; [exact P'|by apply C|]. intros s' d Hd. rewrite Forall_forall in HF.
  eapply HF; [by eapply removal_services_all|exact Hd].
Qed.
End Removal.

(** ** Theorems *)

Section Theorems.
Context (sum_hex : string -> string) (fuel : nat).

Lemma removal_named req now k : removal_validate_for RuntimeKubernetes req now = Ok tt -> rm_kubernetes req = Some k -> rm_services req <> [].
Proof.
  intros H Hk E. unfold removal_validate_for in H. refusals H. unfold removal_validate in H. refusals H. rewrite Hk, E in H. refusals H.
  rewrite !orb_false_iff in *. simpl in *. naive_solver.
Qed.
Lemma removal_run_ok req now k w : removal_validate_for RuntimeKubernetes req now = Ok tt -> rm_kubernetes req = Some k ->
  let run := execute w [] (cluster_remove sum_hex fuel req now) in
  (forall h1 c x h2, run.2 = h1 ++ existT c x :: h2 -> cluster_removal_rule (kt_namespace k) (kt_instance k) h1 c) /\
  match run.1 with
  | Some res => rs_outcome res = OutcomeSucceeded -> removed sum_hex (kt_namespace k) (kt_instance k) req run.2
  | None => (fuel <= spent run.2)%nat
  end.
Proof.
  intros Hv Hk. unfold cluster_remove. rewrite Hv, Hk.
  destruct (pw_execute _ _ w _ _ _ (cluster_remove_body_ok sum_hex fuel (kt_namespace k) (kt_instance k) req (removal_named _ _ _ Hv Hk))) as (H1 & _ & H2).
  split; [|done]. intros h1 c x h2 E. apply (H1 _ _ _ _ E). simpl. lia.
Qed.

(** C16: Whatever the API server answers, a cluster removal stays in the frame's namespace, lists only
    by its instance's label, and deletes only after announcing the start, once; each deletion is in
    the foreground and names the UID of a Deployment, Service, ConfigMap or Secret the run was shown
    carrying the instance's label and a service's, and not the installer's.  It creates and updates
    nothing, and never deletes a claim. *)
Theorem cluster_remove_confined req now k w h1 c x h2 :
  removal_validate_for RuntimeKubernetes req now = Ok tt -> rm_kubernetes req = Some k ->
  (execute w [] (cluster_remove sum_hex fuel req now)).2 = h1 ++ existT c x :: h2 ->
  cluster_removal_rule (kt_namespace k) (kt_instance k) h1 c.
Proof. intros Hv Hk. apply (removal_run_ok req now k w Hv Hk). Qed.

(** C17: A cluster removal always ends with a result unless the server pages without end (at least as
    many pages with a successor as the fuel); reported as a success, every Deployment, Service and
    ConfigMap it was shown as the instance's was deleted or already gone, and so was the Secret paired
    with each Deployment and ConfigMap and with each service the frame names. *)
Theorem cluster_remove_complete req now k w :
  removal_validate_for RuntimeKubernetes req now = Ok tt -> rm_kubernetes req = Some k ->
  (spent (execute w [] (cluster_remove sum_hex fuel req now)).2 < fuel)%nat ->
  exists res h, execute w [] (cluster_remove sum_hex fuel req now) = (Some res, h) /\
    (rs_outcome res = OutcomeSucceeded -> removed sum_hex (kt_namespace k) (kt_instance k) req h).
Proof.
  intros Hv Hk Hf. destruct (removal_run_ok req now k w Hv Hk) as [_ H]. destruct (execute w [] _) as [[res|] h]; simpl in *; [eauto|lia].
Qed.
End Theorems.

(** ** A removal *)

Definition kr_request : RemovalRequest :=
  mkRemoval (dr_deployment demo_cluster) "req-1" "cluster-1" "shop" (10 * Minute) (20 * Minute) []
    (Some (mkKTarget "shop" "01234567-89ab-cdef-0123-456789abcdef" "01234567-89ab-cdef-0123-456789abcdef" ("sha256:" +:+ demo_hex) [])) ["web"].
Definition kr_target : KubernetesTarget := match rm_kubernetes kr_request with Some k => k | None => kd_target end.
(** The cluster holds what [kd_run] created, and another application's ConfigMap. *)
Definition kr_meta (name instance : string) : Meta :=
  mkMeta name "shop" {[LabelInstance := instance; LabelService := "web"]} ∅ kd_uid "7" 1.
Definition kr_server : Server := fun h c =>
  match c as c return ApiReply c with
  | Review _ _ _ _ _ => inr true
  | ReadNamespace _ => inr ∅
  | GetObject _ k name =>
      match k as k return ApiErr + Obj k with
      | SecretKind => inr (mkSecret (kr_meta name (kt_instance kr_target)) "Opaque" ∅)
      | _ => inl kd_missing
      end
  | CreateObject _ k o | UpdateObject _ k o => inr o
  | DeleteObject _ k _ _ _ => match k with ConfigMapKind => Some kd_missing | _ => None end
  | ListObjects _ k _ =>
      match k as k return ApiErr + list (Obj k) with
      | ConfigMapKind => inr [mkConfigMap (kr_meta "web-config" (kt_instance kr_target)) ∅; mkConfigMap (kr_meta "other" "another") ∅]
      | _ => inr []
      end
  | ListPage _ _ _ next => if String.eqb next "" then inr ([], "more") else inr ([], "")
  | ListPods _ _ => inr []
  | Poll => Tick
  | Started => tt
  end.
Definition kr_run : option DeploymentResult * ApiHistory :=
  Eval vm_compute in execute kr_server [] (cluster_remove (fun _ => demo_hex) 5 kr_request (11 * Minute)).
Lemma kr_executes : execute kr_server [] (cluster_remove (fun _ => demo_hex) 5 kr_request (11 * Minute)) = kr_run.
Proof. vm_cast_no_check (eq_refl kr_run). Qed.
Lemma kr_valid : removal_validate_for RuntimeKubernetes kr_request (11 * Minute) = Ok tt.
Proof. vm_compute. reflexivity. Qed.
Definition kr_delete : ApiCall := DeleteObject "shop" SecretKind "shop-web-secret" kd_uid true.

Lemma cluster_remove_confined_witness :
  exists h1 x h2, kr_run.2 = h1 ++ existT kr_delete x :: h2 /\ cluster_removal_rule "shop" (kt_instance kr_target) h1 kr_delete.
Proof.
  exists (take 8 kr_run.2), None, (drop 9 kr_run.2).
  assert (kr_run.2 = take 8 kr_run.2 ++ existT kr_delete None :: drop 9 kr_run.2) as E by reflexivity. split; [exact E|].
  apply (cluster_remove_confined (fun _ => demo_hex) 5 kr_request (11 * Minute) kr_target kr_server _ kr_delete None (drop 9 kr_run.2) kr_valid eq_refl).
  rewrite kr_executes. exact E.
Defined.
Lemma cluster_remove_complete_witness :
  exists res h, kr_run = (Some res, h) /\ rs_outcome res = OutcomeSucceeded /\ removed (fun _ => demo_hex) "shop" (kt_instance kr_target) kr_request h.
Proof.
  destruct (cluster_remove_complete (fun _ => demo_hex) 5 kr_request (11 * Minute) kr_target kr_server kr_valid eq_refl) as (res & h & E & H).
  { rewrite kr_executes. vm_compute. lia. }
  rewrite kr_executes in E. exists res, h. split; [exact E|].
  assert (rs_outcome res = OutcomeSucceeded) as Ho by (assert (kr_run.1 = Some res) as E1 by (by rewrite E); vm_compute in E1; by injection E1 as <-).
  split; [exact Ho|exact (H Ho)].
Defined.
