(* ===== verification/Accounts.v ===== *)
(** * Accounts and their grants

    internal/store/sqlstore.go, sso_identity.go and mfa.go: local and provider accounts, the sessions,
    second-factor challenges and device pairings granted to them, and the fences a provider's logout
    leaves.  [Accounts] is the tables these statements and those of the memberships component read and
    write; a row of [users] deleted takes its sessions, challenges, identities and memberships along
    (ON DELETE CASCADE).  A transaction's body is an [atx]; the statements [EndSSOSession] runs outside
    a transaction are definitions of their own, as is each of the two commits of [CreateSession].
    Clock readings, fresh identifiers and SHA-256 are arguments. *)
From Stdlib Require Import ZArith Lia Ascii String.
From stdpp Require Import base gmap sets strings list sorting.
From S2P Require Import Prelude.
From S2P Require Import Regex.
From S2P Require Import Text.
From S2P Require Import Frame.
From S2P Require Import Reference.
From S2P Require Import Permissions.
From S2P Require Import Store.
From S2P Require Import TenantAccess.

(** ** Rows *)

Record Account := mkAccount {
  an_name : string; an_email : string; an_display : string; an_password : string; an_role : string; an_status : string;
  an_provider : string; an_subject : string; an_totp : string; an_totp_on : bool; an_recovery : string; an_device : string;
  an_must_change : bool; an_counter : Z; an_created : time; an_updated : time; an_login : option time }.
Record Session := mkSession {
  ss_user : string; ss_agent : string; ss_ip : string; ss_created : time; ss_expires : time; ss_provider : string; ss_sid : string }.
Record Challenge := mkChallenge {
  ch_user : string; ch_expires : time; ch_password : string; ch_provider : string; ch_sid : string; ch_issued : option time; ch_subject : string }.
Record Device := mkDevice {
  dv_user : string; dv_name : string; dv_platform : string; dv_push : string; dv_status : string; dv_created : time; dv_expires : time }.
(** A row of service_tokens or, with no scope, of status_feeds. *)
Record Credential := mkCredential {
  cr_org : string; cr_name : string; cr_hash : string; cr_by : string; cr_created : time; cr_used : option time; cr_ip : string;
  cr_revoked : option (time * string); cr_scope : string }.
Record Pairing := mkPairing {
  pg_org : string; pg_code : string; pg_by : string; pg_created : time; pg_expires : time; pg_consumed : option time }.

(** [ac_installer]: the users with an installer.user.<id> setting; [ac_fences]: the installer's
    directory revisions and digests; [ac_boot]: tenancy_bootstrap's completed_at. *)
Record Accounts := mkAccounts {
  ac_users : gmap string Account;
  ac_identities : gmap (string * string) string;
  ac_sessions : gmap string Session;
  ac_challenges : gmap string Challenge;
  ac_devices : gmap string Device;
  ac_logouts : gmap (string * string) time;
  ac_subject_logouts : gmap (string * string) (time * time);
  ac_orgs : gmap string string;
  ac_members : gmap (string * string) MemberRow;
  ac_tokens : gmap string Credential;
  ac_feeds : gmap string Credential;
  ac_pairings : gmap string Pairing;
  ac_installer : gset string;
  ac_fences : gmap string (Z * string);
  ac_events : gmap (string * string) Z;
  ac_subjects : gmap (string * string) Z;
  ac_boot : option time;
  ac_audit : list AuditRecord }.

Definition ac_set_users (x : gmap string Account) (s : Accounts) : Accounts :=
  mkAccounts x (ac_identities s) (ac_sessions s) (ac_challenges s) (ac_devices s) (ac_logouts s) (ac_subject_logouts s) (ac_orgs s) (ac_members s) (ac_tokens s) (ac_feeds s) (ac_pairings s) (ac_installer s) (ac_fences s) (ac_events s) (ac_subjects s) (ac_boot s) (ac_audit s).
Definition ac_set_identities (x : gmap (string * string) string) (s : Accounts) : Accounts :=
  mkAccounts (ac_users s) x (ac_sessions s) (ac_challenges s) (ac_devices s) (ac_logouts s) (ac_subject_logouts s) (ac_orgs s) (ac_members s) (ac_tokens s) (ac_feeds s) (ac_pairings s) (ac_installer s) (ac_fences s) (ac_events s) (ac_subjects s) (ac_boot s) (ac_audit s).
Definition ac_set_sessions (x : gmap string Session) (s : Accounts) : Accounts :=
  mkAccounts (ac_users s) (ac_identities s) x (ac_challenges s) (ac_devices s) (ac_logouts s) (ac_subject_logouts s) (ac_orgs s) (ac_members s) (ac_tokens s) (ac_feeds s) (ac_pairings s) (ac_installer s) (ac_fences s) (ac_events s) (ac_subjects s) (ac_boot s) (ac_audit s).
Definition ac_set_challenges (x : gmap string Challenge) (s : Accounts) : Accounts :=
  mkAccounts (ac_users s) (ac_identities s) (ac_sessions s) x (ac_devices s) (ac_logouts s) (ac_subject_logouts s) (ac_orgs s) (ac_members s) (ac_tokens s) (ac_feeds s) (ac_pairings s) (ac_installer s) (ac_fences s) (ac_events s) (ac_subjects s) (ac_boot s) (ac_audit s).
Definition ac_set_devices (x : gmap string Device) (s : Accounts) : Accounts :=
  mkAccounts (ac_users s) (ac_identities s) (ac_sessions s) (ac_challenges s) x (ac_logouts s) (ac_subject_logouts s) (ac_orgs s) (ac_members s) (ac_tokens s) (ac_feeds s) (ac_pairings s) (ac_installer s) (ac_fences s) (ac_events s) (ac_subjects s) (ac_boot s) (ac_audit s).
Definition ac_set_logouts (x : gmap (string * string) time) (s : Accounts) : Accounts :=
  mkAccounts (ac_users s) (ac_identities s) (ac_sessions s) (ac_challenges s) (ac_devices s) x (ac_subject_logouts s) (ac_orgs s) (ac_members s) (ac_tokens s) (ac_feeds s) (ac_pairings s) (ac_installer s) (ac_fences s) (ac_events s) (ac_subjects s) (ac_boot s) (ac_audit s).
Definition ac_set_subject_logouts (x : gmap (string * string) (time * time)) (s : Accounts) : Accounts :=
  mkAccounts (ac_users s) (ac_identities s) (ac_sessions s) (ac_challenges s) (ac_devices s) (ac_logouts s) x (ac_orgs s) (ac_members s) (ac_tokens s) (ac_feeds s) (ac_pairings s) (ac_installer s) (ac_fences s) (ac_events s) (ac_subjects s) (ac_boot s) (ac_audit s).
Definition ac_set_orgs (x : gmap string string) (s : Accounts) : Accounts :=
  mkAccounts (ac_users s) (ac_identities s) (ac_sessions s) (ac_challenges s) (ac_devices s) (ac_logouts s) (ac_subject_logouts s) x (ac_members s) (ac_tokens s) (ac_feeds s) (ac_pairings s) (ac_installer s) (ac_fences s) (ac_events s) (ac_subjects s) (ac_boot s) (ac_audit s).
Definition ac_set_members (x : gmap (string * string) MemberRow) (s : Accounts) : Accounts :=
  mkAccounts (ac_users s) (ac_identities s) (ac_sessions s) (ac_challenges s) (ac_devices s) (ac_logouts s) (ac_subject_logouts s) (ac_orgs s) x (ac_tokens s) (ac_feeds s) (ac_pairings s) (ac_installer s) (ac_fences s) (ac_events s) (ac_subjects s) (ac_boot s) (ac_audit s).
Definition ac_set_tokens (x : gmap string Credential) (s : Accounts) : Accounts :=
  mkAccounts (ac_users s) (ac_identities s) (ac_sessions s) (ac_challenges s) (ac_devices s) (ac_logouts s) (ac_subject_logouts s) (ac_orgs s) (ac_members s) x (ac_feeds s) (ac_pairings s) (ac_installer s) (ac_fences s) (ac_events s) (ac_subjects s) (ac_boot s) (ac_audit s).
Definition ac_set_feeds (x : gmap string Credential) (s : Accounts) : Accounts :=
  mkAccounts (ac_users s) (ac_identities s) (ac_sessions s) (ac_challenges s) (ac_devices s) (ac_logouts s) (ac_subject_logouts s) (ac_orgs s) (ac_members s) (ac_tokens s) x (ac_pairings s) (ac_installer s) (ac_fences s) (ac_events s) (ac_subjects s) (ac_boot s) (ac_audit s).
Definition ac_set_pairings (x : gmap string Pairing) (s : Accounts) : Accounts :=
  mkAccounts (ac_users s) (ac_identities s) (ac_sessions s) (ac_challenges s) (ac_devices s) (ac_logouts s) (ac_subject_logouts s) (ac_orgs s) (ac_members s) (ac_tokens s) (ac_feeds s) x (ac_installer s) (ac_fences s) (ac_events s) (ac_subjects s) (ac_boot s) (ac_audit s).
Definition ac_set_installer (x : gset string) (s : Accounts) : Accounts :=
  mkAccounts (ac_users s) (ac_identities s) (ac_sessions s) (ac_challenges s) (ac_devices s) (ac_logouts s) (ac_subject_logouts s) (ac_orgs s) (ac_members s) (ac_tokens s) (ac_feeds s) (ac_pairings s) x (ac_fences s) (ac_events s) (ac_subjects s) (ac_boot s) (ac_audit s).
Definition ac_set_fences (x : gmap string (Z * string)) (s : Accounts) : Accounts :=
  mkAccounts (ac_users s) (ac_identities s) (ac_sessions s) (ac_challenges s) (ac_devices s) (ac_logouts s) (ac_subject_logouts s) (ac_orgs s) (ac_members s) (ac_tokens s) (ac_feeds s) (ac_pairings s) (ac_installer s) x (ac_events s) (ac_subjects s) (ac_boot s) (ac_audit s).
Definition ac_set_events (x : gmap (string * string) Z) (s : Accounts) : Accounts :=
  mkAccounts (ac_users s) (ac_identities s) (ac_sessions s) (ac_challenges s) (ac_devices s) (ac_logouts s) (ac_subject_logouts s) (ac_orgs s) (ac_members s) (ac_tokens s) (ac_feeds s) (ac_pairings s) (ac_installer s) (ac_fences s) x (ac_subjects s) (ac_boot s) (ac_audit s).
Definition ac_set_subjects (x : gmap (string * string) Z) (s : Accounts) : Accounts :=
  mkAccounts (ac_users s) (ac_identities s) (ac_sessions s) (ac_challenges s) (ac_devices s) (ac_logouts s) (ac_subject_logouts s) (ac_orgs s) (ac_members s) (ac_tokens s) (ac_feeds s) (ac_pairings s) (ac_installer s) (ac_fences s) (ac_events s) x (ac_boot s) (ac_audit s).
Definition ac_set_boot (x : option time) (s : Accounts) : Accounts :=
  mkAccounts (ac_users s) (ac_identities s) (ac_sessions s) (ac_challenges s) (ac_devices s) (ac_logouts s) (ac_subject_logouts s) (ac_orgs s) (ac_members s) (ac_tokens s) (ac_feeds s) (ac_pairings s) (ac_installer s) (ac_fences s) (ac_events s) (ac_subjects s) x (ac_audit s).
Definition ac_set_audit (x : list AuditRecord) (s : Accounts) : Accounts :=
  mkAccounts (ac_users s) (ac_identities s) (ac_sessions s) (ac_challenges s) (ac_devices s) (ac_logouts s) (ac_subject_logouts s) (ac_orgs s) (ac_members s) (ac_tokens s) (ac_feeds s) (ac_pairings s) (ac_installer s) (ac_fences s) (ac_events s) (ac_subjects s) (ac_boot s) x.

(** ** Transactions *)

Inductive AccountErr : Set :=
| ANotFound | AForbidden | AInvalid | AExists | ALastAdmin | AInstallerOwned | AStaleEvent | AExpired | ASessionEnded | APairingExpired
| ATokenLimit | AFeedLimit | ACodesExhausted | ANotBootstrapped | AMalformed
| AConstraint                       (** the driver's UNIQUE or CHECK error, returned as it is *)
| AForeignKey                       (** the driver's FOREIGN KEY error *)
| ARefused (username : string)      (** [refusal]: a username that is taken *)
| ATenant (e : StoreErr)            (** what the tenant wrapper answers *).
#[export] Instance AccountErr_eq_dec : EqDecision AccountErr.
Proof. solve_decision. Defined.

Definition atx (A : Type) : Type := Accounts -> res AccountErr (A * Accounts).
#[export] Instance atx_ret : MRet atx := fun A a s => Ok (a, s).
#[export] Instance atx_bind : MBind atx := fun A B k m s => match m s with Ok (a, s') => k a s' | Fail e => Fail e end.
Definition afail {A} (e : AccountErr) : atx A := fun _ => Fail e.
Definition aget {A} (f : Accounts -> A) : atx A := fun s => Ok (f s, s).
Definition aput (f : Accounts -> Accounts) : atx unit := fun s => Ok (tt, f s).
Definition arequire (c : bool) (e : AccountErr) : atx unit := if c then mret tt else afail e.
Definition afound {A} (o : option A) (e : AccountErr) : atx A := match o with Some a => mret a | None => afail e end.
Definition aeach {A} (f : A -> atx unit) : list A -> atx unit :=
  fix go l := match l with [] => mret tt | x :: l' => f x ≫= fun _ => go l' end.
(** [BeginTx], the body, [Commit], or [Rollback] on any error. *)
Definition acommit {A} (m : atx A) (s : Accounts) : res AccountErr A * Accounts :=
  match m s with Ok (a, s') => (Ok a, s') | Fail e => (Fail e, s) end.

Definition audited (r : AuditRecord) : atx unit := aput (fun s => ac_set_audit (ac_audit s ++ [r]) s).
(** The columns an INSERT leaves out take their defaults: platform scope, result unknown. *)
Definition platform_record (user action resource details ip result : string) (now : time) : AuditRecord :=
  mkAudit user action resource details ip now "platform" "" "" "" result.

(** ** Accounts *)

Section Statements.
Context (sha_hex : string -> string) (now : time).

Definition InstallerProvider : string := "kyidentity".
Definition chars (s : string) : Z := llen (runes s).
(** SQLite's LOWER folds ASCII only. *)
Definition same_name (a b : string) : bool := bool_decide (ToLower a = ToLower b).
Definition name_taken (id name : string) (s : Accounts) : bool :=
  existsb (fun ku => negb (bool_decide (ku.1 = id)) && same_name (an_name ku.2) name) (map_to_list (ac_users s)).

Definition insertSSOIdentity (user provider subject : string) : atx unit :=
  _ ← arequire ((1 <=? chars provider) && (chars provider <=? 64) && (1 <=? chars subject) && (chars subject <=? 255)) AConstraint;
  owner ← aget (fun s => ac_identities s !! (provider, subject));
  match owner with
  | Some o => arequire (bool_decide (o = user)) AExists
  | None =>
      second ← aget (fun s => existsb (fun kv => bool_decide (kv.1.1 = provider) && bool_decide (kv.2 = user)) (map_to_list (ac_identities s)));
      _ ← arequire (negb second) AExists;
      aput (fun s => ac_set_identities (<[(provider, subject) := user]> (ac_identities s)) s)
  end.
Definition registerSSOIdentity (id : string) (u : Account) : atx unit :=
  if bool_decide (an_provider u = "local") || bool_decide (an_subject u = "") then mret tt
  else insertSSOIdentity id (an_provider u) (an_subject u).

Definition with_defaults (u : Account) : Account :=
  mkAccount (an_name u) (an_email u) (an_display u) (an_password u) (an_role u) (an_status u) (an_provider u) (an_subject u)
    (an_totp u) (an_totp_on u) (if nonempty (an_recovery u) then an_recovery u else "[]") (an_device u) (an_must_change u) 0
    (if an_created u =? zero_time then now else an_created u) (if an_updated u =? zero_time then now else an_updated u) (an_login u).
(** [totp_last_counter] is not in the INSERT: it starts at its default. *)
Definition createUser (id : string) (u : Account) : atx unit :=
  _ ← arequire (negb (bool_decide (an_provider u = InstallerProvider))) AInstallerOwned;
  free ← aget (fun s => bool_decide (ac_users s !! id = None) && negb (name_taken id (an_name u) s));
  _ ← arequire free AExists;
  _ ← aput (fun s => ac_set_users (<[id := with_defaults u]> (ac_users s)) s);
  registerSSOIdentity id u.
Definition CreateUser (id : string) (u : Account) : Accounts -> res AccountErr unit * Accounts := acommit (createUser id u).

Definition getUserBySSO (provider subject : string) (s : Accounts) : option (string * Account) :=
  match ac_identities s !! (provider, subject) with
  | Some id => match ac_users s !! id with Some u => Some (id, u) | None => None end
  | None => None
  end.
Definition getUserByUsername (name : string) (s : Accounts) : option (string * Account) :=
  List.find (fun ku => same_name (an_name ku.2) name) (map_to_list (ac_users s)).

Definition alter_user (id : string) (f : Account -> Account) (s : Accounts) : Accounts := ac_set_users (alter f id (ac_users s)) s.
(** Deleting a user deletes what references it. *)
Definition delete_user (id : string) (s : Accounts) : Accounts :=
  ac_set_users (delete id (ac_users s))
    (ac_set_sessions (filter (fun kv => negb (bool_decide (ss_user kv.2 = id))) (ac_sessions s))
    (ac_set_challenges (filter (fun kv => negb (bool_decide (ch_user kv.2 = id))) (ac_challenges s))
    (ac_set_identities (filter (fun kv => negb (bool_decide (kv.2 = id))) (ac_identities s))
    (ac_set_members (filter (fun kv => negb (bool_decide (kv.1.2 = id))) (ac_members s)) s)))).

(** ** Sessions *)

Definition drop_sessions (p : Session -> bool) (s : Accounts) : Accounts :=
  ac_set_sessions (filter (fun kv => p kv.2 = false) (ac_sessions s)) s.
Definition drop_challenges (p : Challenge -> bool) (s : Accounts) : Accounts :=
  ac_set_challenges (filter (fun kv => p kv.2 = false) (ac_challenges s)) s.
Definition drop_devices (p : Device -> bool) (s : Accounts) : Accounts :=
  ac_set_devices (filter (fun kv => p kv.2 = false) (ac_devices s)) s.

(** [withPassword]: the grant is made under the password hash the caller proved. *)
Definition withPassword {A} (user hash : string) (apply : atx A) : atx A :=
  held ← aget (fun s => match ac_users s !! user with
                        | Some u => bool_decide (an_password u = hash) && bool_decide (an_status u = "active")
                        | None => false end);
  _ ← arequire held ANotFound;
  apply.

Definition stillSignsIn (user provider subject : string) : atx unit :=
  if bool_decide (provider = "") then mret tt
  else
    _ ← arequire (negb (bool_decide (subject = ""))) ANotFound;
    linked ← aget (fun s => match ac_users s !! user with
                            | Some u => bool_decide (an_provider u = provider) && bool_decide (an_subject u = subject)
                                        || bool_decide (ac_identities s !! (provider, subject) = Some user)
                            | None => false end);
    arequire linked ANotFound.

(** The first commit of [CreateSession]. *)
Definition insert_session (token : string) (x : Session) (subject expected : string) : atx unit :=
  withPassword (ss_user x) expected (
    _ ← stillSignsIn (ss_user x) (ss_provider x) subject;
    free ← aget (fun s => bool_decide (ac_sessions s !! token = None));
    _ ← arequire free AConstraint;
    aput (fun s => ac_set_sessions (<[token := x]> (ac_sessions s)) s)).
Definition sid_fenced (x : Session) (s : Accounts) : bool :=
  negb (bool_decide (ss_sid x = "")) &&
  match ac_logouts s !! (ss_provider x, ss_sid x) with Some e => now <? e | None => false end.
Definition subject_fenced (x : Session) (s : Accounts) : bool :=
  existsb (fun kv => let '(provider, subject, (cutoff, e)) := kv in
    bool_decide (provider = ss_provider x) && bool_decide (ac_identities s !! (provider, subject) = Some (ss_user x))
    && (ss_created x <? cutoff) && (now <? e)) (map_to_list (ac_subject_logouts s)).
Definition DeleteSession (token : string) (s : Accounts) : Accounts := ac_set_sessions (delete token (ac_sessions s)) s.
(** The fences are read after the session committed; one that stands takes it back. *)
Definition confirm_session (token : string) (x : Session) (s : Accounts) : res AccountErr unit * Accounts :=
  if bool_decide (ss_provider x = "") then (Ok tt, s)
  else if sid_fenced x s || subject_fenced x s then (Fail ASessionEnded, DeleteSession token s)
  else (Ok tt, s).
Definition CreateSession (token : string) (x : Session) (subject expected : string) (s : Accounts) : res AccountErr unit * Accounts :=
  match acommit (insert_session token x subject expected) s with
  | (Ok _, s') => confirm_session token x s'
  | r => r
  end.

(** The statements of [EndSSOSession], each committed on its own. *)
Definition purge_fences (s : Accounts) : Accounts := ac_set_logouts (filter (fun kv => now < kv.2) (ac_logouts s)) s.
Definition fence_sid (provider sid : string) (until : time) (s : Accounts) : Accounts :=
  ac_set_logouts (<[(provider, sid) := until]> (ac_logouts s)) s.
Definition end_challenges (provider sid : string) : Accounts -> Accounts :=
  drop_challenges (fun c => bool_decide (ch_provider c = provider) && bool_decide (ch_sid c = sid)).
Definition end_sessions (provider sid : string) : Accounts -> Accounts :=
  drop_sessions (fun x => bool_decide (ss_provider x = provider) && bool_decide (ss_sid x = sid)).
Definition EndSSOSession (provider sid : string) (until : time) (s : Accounts) : Accounts :=
  end_sessions provider sid (end_challenges provider sid (fence_sid provider sid until (purge_fences s))).

Definition has_identity (provider subject user : string) (s : Accounts) : bool := bool_decide (ac_identities s !! (provider, subject) = Some user).
Definition fence_subject (provider subject : string) (cutoff until : time) (s : Accounts) : Accounts :=
  match ac_subject_logouts s !! (provider, subject) with
  | Some (c, _) => if c <? cutoff then ac_set_subject_logouts (<[(provider, subject) := (cutoff, until)]> (ac_subject_logouts s)) s else s
  | None => ac_set_subject_logouts (<[(provider, subject) := (cutoff, until)]> (ac_subject_logouts s)) s
  end.
Definition purge_subject_fences (s : Accounts) : Accounts := ac_set_subject_logouts (filter (fun kv => now < kv.2.2) (ac_subject_logouts s)) s.
Definition end_subject_challenges (provider subject : string) (cutoff : time) (s : Accounts) : Accounts :=
  drop_challenges (fun c => bool_decide (ch_provider c = provider)
    && match ch_issued c with Some i => i <? cutoff | None => true end && has_identity provider subject (ch_user c) s) s.
Definition end_subject_sessions (provider subject : string) (cutoff : time) (s : Accounts) : Accounts :=
  drop_sessions (fun x => bool_decide (ss_provider x = provider) && (ss_created x <? cutoff) && has_identity provider subject (ss_user x) s) s.
Definition EndSSOSubject (provider subject : string) (cutoff until : time) (s : Accounts) : Accounts :=
  end_subject_sessions provider subject cutoff (end_subject_challenges provider subject cutoff
    (fence_subject provider subject cutoff until (purge_subject_fences s))).
Definition end_provider_challenges (provider : string) : Accounts -> Accounts := drop_challenges (fun c => bool_decide (ch_provider c = provider)).
Definition end_provider_sessions (provider : string) : Accounts -> Accounts := drop_sessions (fun x => bool_decide (ss_provider x = provider)).
Definition EndSSOProvider (provider : string) (s : Accounts) : Accounts := end_provider_sessions provider (end_provider_challenges provider s).

Definition GetSession (token : string) (s : Accounts) : res AccountErr Session * Accounts :=
  match ac_sessions s !! token with
  | None => (Fail ANotFound, s)
  | Some x => if ss_expires x <? now then (Fail AExpired, DeleteSession token s) else (Ok x, s)
  end.
Definition DeleteUserSessions (user : string) : Accounts -> Accounts := drop_sessions (fun x => bool_decide (ss_user x = user)).
Definition CleanExpiredSessions : Accounts -> Accounts := drop_sessions (fun x => ss_expires x <? now).

(** ** Passwords *)

Definition revokePasswordGrants (user details ip : string) : atx unit :=
  _ ← aput (DeleteUserSessions user);
  _ ← aput (drop_challenges (fun c => bool_decide (ch_user c = user)));
  _ ← aput (drop_devices (fun d => bool_decide (dv_user d = user)));
  audited (platform_record user "auth.password_changed" "user" details ip "unknown" now).

Definition set_password (hash : string) (must : bool) (u : Account) : Account :=
  mkAccount (an_name u) (an_email u) (an_display u) hash (an_role u) (an_status u) (an_provider u) (an_subject u) (an_totp u) (an_totp_on u)
    (an_recovery u) (an_device u) must (an_counter u) (an_created u) now (an_login u).
Definition replacePassword (user old new ip : string) (forced : bool) (details : string) : atx unit :=
  withPassword user old (
    fits ← aget (fun s => match ac_users s !! user with
                          | Some u => bool_decide (an_must_change u = forced) && bool_decide (an_provider u = "local")
                          | None => false end);
    _ ← arequire fits ANotFound;
    _ ← aput (alter_user user (set_password new false));
    revokePasswordGrants user details ip).
Definition CompletePasswordChange (user old new ip : string) : Accounts -> res AccountErr unit * Accounts :=
  acommit (replacePassword user old new ip true "forced replacement; sessions revoked").
Definition ChangePassword (user old new ip : string) : Accounts -> res AccountErr unit * Accounts :=
  acommit (replacePassword user old new ip false "self-service change; sessions revoked").

Definition reset_account (hash : string) (u : Account) : Account :=
  mkAccount (an_name u) (an_email u) (an_display u) hash "admin" "active" (an_provider u) (an_subject u) "" false "" (an_device u) true
    (an_counter u) (an_created u) now (an_login u).
Definition ResetAdminPassword (user new : string) : Accounts -> res AccountErr unit * Accounts :=
  acommit (
    local_ ← aget (fun s => match ac_users s !! user with Some u => bool_decide (an_provider u = "local") | None => false end);
    _ ← arequire local_ ANotFound;
    _ ← aput (alter_user user (reset_account new));
    _ ← aput (fun s => ac_set_identities (filter (fun kv => negb (bool_decide (kv.2 = user))) (ac_identities s)) s);
    revokePasswordGrants user "operator reset; sessions, MFA and SSO links cleared" "").

(** ** Second factors *)

Definition CreateMFAChallenge (token : string) (c : Challenge) (expected : string) : Accounts -> res AccountErr unit * Accounts :=
  acommit (withPassword (ch_user c) expected (
    _ ← stillSignsIn (ch_user c) (ch_provider c) (ch_subject c);
    free ← aget (fun s => bool_decide (ac_challenges s !! token = None));
    _ ← arequire free AConstraint;
    aput (fun s => ac_set_challenges (<[token := mkChallenge (ch_user c) (ch_expires c) expected (ch_provider c) (ch_sid c) (ch_issued c) (ch_subject c)]>
                                       (ac_challenges s)) s))).
Definition ConsumeMFAChallenge (token : string) : Accounts -> res AccountErr Challenge * Accounts :=
  acommit (
    row ← aget (fun s => ac_challenges s !! token);
    c ← afound row ANotFound;
    _ ← arequire (now <? ch_expires c) AExpired;
    _ ← aput (fun s => ac_set_challenges (delete token (ac_challenges s)) s);
    mret c).

Record MFAState := mkMFA { mf_secret : string; mf_on : bool; mf_recovery : string }.
Definition mfa_is (f : MFAState) (u : Account) : bool :=
  bool_decide (an_totp u = mf_secret f) && bool_decide (an_totp_on u = mf_on f) && bool_decide (an_recovery u = mf_recovery f).
Definition set_mfa (f : MFAState) (u : Account) : Account :=
  mkAccount (an_name u) (an_email u) (an_display u) (an_password u) (an_role u) (an_status u) (an_provider u) (an_subject u) (mf_secret f) (mf_on f)
    (mf_recovery f) (an_device u) (an_must_change u) (an_counter u) (an_created u) now (an_login u).
Definition UpdateMFA (user password : string) (from to : MFAState) (action ip : string) : Accounts -> res AccountErr unit * Accounts :=
  acommit (withPassword user password (
    fits ← aget (fun s => match ac_users s !! user with
                          | Some u => bool_decide (an_provider u = "local") && negb (an_must_change u) && mfa_is from u
                          | None => false end);
    _ ← arequire fits ANotFound;
    _ ← aput (alter_user user (set_mfa to));
    audited (platform_record user action "user" "" ip "success" now))).

Definition set_recovery (hashes : string) (u : Account) : Account :=
  mkAccount (an_name u) (an_email u) (an_display u) (an_password u) (an_role u) (an_status u) (an_provider u) (an_subject u) (an_totp u) (an_totp_on u)
    hashes (an_device u) (an_must_change u) (an_counter u) (an_created u) now (an_login u).
Definition UpdateRecoveryCodes (user old new : string) : Accounts -> res AccountErr unit * Accounts :=
  acommit (
    fits ← aget (fun s => match ac_users s !! user with Some u => bool_decide (an_recovery u = old) | None => false end);
    _ ← arequire fits AExists;
    aput (alter_user user (set_recovery new))).
Definition set_counter (counter : Z) (u : Account) : Account :=
  mkAccount (an_name u) (an_email u) (an_display u) (an_password u) (an_role u) (an_status u) (an_provider u) (an_subject u) (an_totp u) (an_totp_on u)
    (an_recovery u) (an_device u) (an_must_change u) counter (an_created u) now (an_login u).
Definition SpendTOTPCounter (user : string) (counter : Z) : Accounts -> res AccountErr unit * Accounts :=
  acommit (
    fits ← aget (fun s => match ac_users s !! user with Some u => an_counter u <? counter | None => false end);
    _ ← arequire fits AExists;
    aput (alter_user user (set_counter counter))).

(** ** Device pairings *)

Definition CreatePairing (secret : string) (d : Device) : Accounts -> res AccountErr unit * Accounts :=
  acommit (
    free ← aget (fun s => bool_decide (ac_devices s !! sha_hex secret = None));
    _ ← arequire free AConstraint;
    aput (fun s => ac_set_devices (<[sha_hex secret := mkDevice (dv_user d) (dv_name d) (dv_platform d) (dv_push d) (dv_status d)
      (if dv_created d =? zero_time then now else dv_created d) (if dv_expires d =? zero_time then now + 90 * Second else dv_expires d)]> (ac_devices s)) s)).
Definition GetPairingBySecret (secret : string) (s : Accounts) : res AccountErr Device :=
  match ac_devices s !! sha_hex secret with
  | None => Fail ANotFound
  | Some d => if dv_expires d <? now then Fail APairingExpired else Ok d
  end.
Definition ConsumePairing (secret name platform push : string) : Accounts -> res AccountErr unit * Accounts :=
  acommit (
    row ← aget (fun s => ac_devices s !! sha_hex secret);
    d ← afound row ANotFound;
    _ ← arequire (bool_decide (dv_status d = "pending") && (now <? dv_expires d)) ANotFound;
    aput (fun s => ac_set_devices (<[sha_hex secret := mkDevice (dv_user d) name platform push "consumed" (dv_created d) (dv_expires d)]> (ac_devices s)) s)).
Definition CleanExpiredPairings : Accounts -> Accounts := drop_devices (fun d => dv_expires d <? now).

(** ** Linked identities *)

Definition LinkSSO (user session password provider subject ip : string) (s : Accounts) : res AccountErr unit * Accounts :=
  if bool_decide (provider = InstallerProvider) then (Fail AInstallerOwned, s)
  else if bool_decide (provider = "") || bool_decide (provider = "local") || (len provider >? 64) || bool_decide (subject = "") || (len subject >? 255)
          || bool_decide (password = "") then (Fail AInvalid, s)
  else
    acommit (withPassword user password (
      fits ← aget (fun s => match ac_users s !! user with Some u => bool_decide (an_provider u = "local") && negb (an_must_change u) | None => false end);
      _ ← arequire fits AInvalid;
      live ← aget (fun s => match ac_sessions s !! session with Some x => bool_decide (ss_user x = user) && (now <? ss_expires x) | None => false end);
      _ ← arequire live ANotFound;
      _ ← insertSSOIdentity user provider subject;
      audited (platform_record user "auth.sso.link" provider "" ip "success" now))) s.
Definition UnlinkSSO (user password provider ip : string) (s : Accounts) : res AccountErr unit * Accounts :=
  if bool_decide (password = "") then (Fail AInvalid, s)
  else
    acommit (withPassword user password (
      local_ ← aget (fun s => match ac_users s !! user with Some u => bool_decide (an_provider u = "local") | None => false end);
      _ ← arequire local_ AInvalid;
      linked ← aget (fun s => existsb (fun kv => bool_decide (kv.1.1 = provider) && bool_decide (kv.2 = user)) (map_to_list (ac_identities s)));
      _ ← arequire linked ANotFound;
      _ ← aput (fun s => ac_set_identities (filter (fun kv => negb (bool_decide (kv.1.1 = provider) && bool_decide (kv.2 = user))) (ac_identities s)) s);
      _ ← aput (drop_sessions (fun x => bool_decide (ss_user x = user) && bool_decide (ss_provider x = provider)));
      _ ← aput (drop_challenges (fun c => bool_decide (ch_user c = user) && bool_decide (ch_provider c = provider)));
      audited (platform_record user "auth.sso.unlink" provider "" ip "success" now))) s.
End Statements.
