(* ===== verification/Memberships.v ===== *)
(** * Organizations, their administrators and their credentials

    internal/store/tenant_members.go, tenancy.go, service_tokens.go, agent_tokens.go, status_feeds.go,
    the parts of sqlstore.go and installer.go that change who administers an organization, and
    internal/sso/kysignon.go: memberships, the credentials administrators create, the local deletion
    of an account and the events of an identity provider.

    Every tenant operation runs in [as_tenant], which is [runAs] on these tables: the caller's role
    and what it allows are those of the tenant access component, read through [view].  The row locks
    PostgreSQL needs are not modelled: a transaction is atomic, as under SQLite's single writer. *)
From Stdlib Require Import ZArith Lia Ascii String.
From stdpp Require Import base gmap sets strings list sorting.
From S2P Require Import Prelude.
From S2P Require Import Regex.
From S2P Require Import Text.
From S2P Require Import Frame.
From S2P Require Import Permissions.
From S2P Require Import Store.
From S2P Require Import TenantAccess.
From S2P Require Import Commands.
From S2P Require Import Direct.
From S2P Require Import Accounts.

(** ** Authority *)

(** The rows [principalRole] reads. *)
Definition view (s : Accounts) : DB :=
  mkDB ((fun u => mkUser (an_status u) (an_must_change u) (an_role u)) <$> ac_users s) (ac_members s)
    ((fun c => mkToken (cr_org c) (fst <$> cr_revoked c) (cr_scope c)) <$> ac_tokens s) ∅ ∅ ∅ ∅ ∅ ∅ ∅ ∅ ∅ ∅ ∅ ∅ ∅ ∅ ∅ ∅ ∅ (ac_audit s).

Definition as_tenant {A} (a : TenantAccess) (action : Action) (name target : string) (op : atx A) (details : A -> option string)
    (now : time) (fresh : string) (s : Accounts) : res AccountErr A * Accounts :=
  if (negb (nonempty (ActorID a)) && negb (nonempty (ServiceTokenID a))) || negb (nonempty (OrganizationID a)) then (Fail AForbidden, s)
  else
    let notes := mkNotes (Some target) None in
    let failed e := (Fail e, ac_set_audit (audit (LogAudit (tenant_record a name now fresh notes ""
                               (if bool_decide (e = AForbidden) || bool_decide (e = ATenant ErrForbidden) then "denied" else "failure")) now (view s))) s) in
    match principalRole a (view s) with
    | Fail errNoPrincipal => (Fail AForbidden, s)
    | role =>
        match bind_res role (fun r => permit a action r.1 (view s)) with
        | Fail e => failed (ATenant e)
        | Ok _ =>
            match op s with
            | Fail e => failed (if bool_decide (e = AConstraint) then AExists else e)
            | Ok (x, s') => (Ok x, ac_set_audit (ac_audit s' ++ [tenant_record a name now fresh notes
                               (match details x with Some d => CleanText d 255 | None => "" end) "success"]) s')
            end
        end
    end.
Definition no_details {A} (_ : A) : option string := None.

(** ** Administrators *)

Definition RoleOrganizationAdmin : string := "organization_admin".
Definition validTenantRole (role : string) : bool :=
  bool_decide (role ∈ [RoleOrganizationAdmin; "environment_admin"; "operator"; "developer"; "read_only"]).

(** An active organization_admin membership on an active account. *)
Definition admin_of (org user : string) (s : Accounts) : bool :=
  match ac_members s !! (org, user), ac_users s !! user with
  | Some m, Some u => bool_decide (m_role m = RoleOrganizationAdmin) && bool_decide (m_status m = "active") && bool_decide (an_status u = "active")
  | _, _ => false
  end.
Definition has_admin (org : string) (s : Accounts) : bool :=
  existsb (fun km => bool_decide (km.1.1 = org) && admin_of org km.1.2 s) (map_to_list (ac_members s)).
Definition requireActiveAdmin (org : string) : atx unit := kept ← aget (has_admin org); arequire kept ALastAdmin.

Section Changes.
Context (sha_hex : string -> string) (now : time) (fresh : string -> string).

Definition org_record (actor action resource details ip org correlation : string) : AuditRecord :=
  mkAudit actor action resource details ip now "organization" org "" correlation "success".

Definition ScopeIsAgent (c : Credential) : bool := negb (bool_decide (cr_scope c = ScopePulse)).
Definition live (c : Credential) : bool := bool_decide (cr_revoked c = None).
Definition created_in (org user : string) (c : Credential) : bool := bool_decide (cr_org c = org) && bool_decide (cr_by c = user).
Definition revoke_row (by_ : string) (c : Credential) : Credential :=
  mkCredential (cr_org c) (cr_name c) (cr_hash c) (cr_by c) (cr_created c) (cr_used c) (cr_ip c) (Some (now, by_)) (cr_scope c).

Definition lost_details (user : string) : string := "revoked: creator " +:+ user +:+ " is no longer an organization administrator".
Definition revoke_tokens (org user actor : string) : atx unit :=
  ids ← aget (fun s => map fst (map_to_list (filter (fun kc => created_in org user kc.2 && ScopeIsAgent kc.2 && live kc.2 = true) (ac_tokens s))));
  aeach (fun id =>
    _ ← aput (fun s => ac_set_tokens (alter (fun c => if live c then revoke_row actor c else c) id (ac_tokens s)) s);
    audited (org_record actor AgentTokensManage id (lost_details user) "" org (fresh id))) ids.
Definition AuditStatusFeedRevoke : string := "status_feed.revoke".
Definition revoke_feeds (org user actor : string) : atx unit :=
  ids ← aget (fun s => map fst (map_to_list (filter (fun kc => created_in org user kc.2 && live kc.2 = true) (ac_feeds s))));
  aeach (fun id =>
    _ ← aput (fun s => ac_set_feeds (alter (fun c => if live c then revoke_row actor c else c) id (ac_feeds s)) s);
    audited (org_record actor AuditStatusFeedRevoke id (lost_details user) "" org (fresh id))) ids.
Definition unclaimed (p : Pairing) : bool := bool_decide (pg_consumed p = None).
Definition revoke_pairings (org user actor : string) : atx unit :=
  ids ← aget (fun s => map fst (map_to_list (filter (fun kp => bool_decide (pg_org kp.2 = org) && bool_decide (pg_by kp.2 = user) && unclaimed kp.2 = true) (ac_pairings s))));
  aeach (fun id =>
    _ ← aput (fun s => match ac_pairings s !! id with
                       | Some p => if unclaimed p then ac_set_pairings (delete id (ac_pairings s)) s else s
                       | None => s end);
    audited (org_record actor ServiceTokensManage id (lost_details user) "" org (fresh id))) ids.
Definition revokeLostAdminCredentials (org user actor : string) : atx unit :=
  still ← aget (admin_of org user);
  if still : bool then mret tt
  else
    _ ← revoke_tokens org user actor;
    _ ← revoke_feeds org user actor;
    revoke_pairings org user actor.

(** Who the actor may add: someone sharing an organization, anyone for a platform administrator. *)
Definition visible (user actor : string) (s : Accounts) : bool :=
  bool_decide (is_Some (ac_users s !! user)) &&
  (match ac_users s !! actor with Some p => bool_decide (an_role p = "admin") | None => false end
   || existsb (fun km => bool_decide (km.1.2 = user) &&
        match ac_members s !! (km.1.1, actor) with Some m => bool_decide (m_status m = "active") | None => false end) (map_to_list (ac_members s))).

Definition put_member (org user role status : string) (s : Accounts) : Accounts :=
  ac_set_members (<[(org, user) := mkMember role status]> (ac_members s)) s.
Definition org_exists (org : string) (s : Accounts) : bool := bool_decide (is_Some (ac_orgs s !! org)).
Definition PutMembership_body (a : TenantAccess) (user role status : string) : atx unit :=
  _ ← arequire (nonempty user && (len user <=? 64) && validTenantRole role && (bool_decide (status = "active") || bool_decide (status = "disabled"))) AInvalid;
  seen ← aget (visible user (ActorID a));
  _ ← arequire seen ANotFound;
  known ← aget (org_exists (OrganizationID a));
  _ ← arequire known AForeignKey;
  _ ← aput (put_member (OrganizationID a) user role status);
  _ ← revokeLostAdminCredentials (OrganizationID a) user (Principal a);
  requireActiveAdmin (OrganizationID a).
Definition PutMembership (a : TenantAccess) (user role status : string) : Accounts -> res AccountErr unit * Accounts :=
  as_tenant a MembersManage MembersManage user (PutMembership_body a user role status) no_details now (fresh "").

Definition RemoveMembership_body (a : TenantAccess) (user : string) : atx unit :=
  here ← aget (fun s => bool_decide (is_Some (ac_members s !! (OrganizationID a, user))));
  _ ← arequire here ANotFound;
  _ ← aput (fun s => ac_set_members (delete (OrganizationID a, user) (ac_members s)) s);
  _ ← revokeLostAdminCredentials (OrganizationID a) user (Principal a);
  requireActiveAdmin (OrganizationID a).
Definition RemoveMembership (a : TenantAccess) (user : string) : Accounts -> res AccountErr unit * Accounts :=
  as_tenant a MembersManage MembersManage user (RemoveMembership_body a user) no_details now (fresh "").

(** ** Accounts that administer *)

Definition administers (user : string) (s : Accounts) : list string :=
  merge_sort str_le
    (map (fun km => km.1.1) (List.filter (fun km => bool_decide (km.1.2 = user) && admin_of km.1.1 user s) (map_to_list (ac_members s)))).
Definition lost_record (org user : string) : AuditRecord :=
  mkAudit "directory" "organization.last_admin_lost" user "repair: a platform administrator must grant a new organization administrator" "" now
    "organization" org "" "" "success".

(** [write] answers whether it touched a row. *)
Definition adminQuorum (user : string) (external : bool) (write : atx bool) : atx unit :=
  orgs ← aget (administers user);
  touched ← write;
  managed ← aget (fun s => bool_decide (user ∈ ac_installer s));
  _ ← arequire (touched : bool) (if managed : bool then AInstallerOwned else ANotFound);
  aeach (fun org =>
    _ ← revokeLostAdminCredentials org user (if external then "directory" else "system");
    kept ← aget (has_admin org);
    if kept : bool then mret tt
    else if external then audited (lost_record org user)
    else afail ALastAdmin) orgs.

Definition deleteRow (id : string) : atx bool := fun s =>
  if bool_decide (is_Some (ac_users s !! id)) && negb (bool_decide (id ∈ ac_installer s)) then Ok (true, delete_user id s) else Ok (false, s).
Definition DeleteUser (id : string) : Accounts -> res AccountErr unit * Accounts := acommit (adminQuorum id false (deleteRow id)).

(** ** The identity provider's events *)

Definition set_identity (name email display role status : string) (u : Account) : Account :=
  mkAccount name email display (an_password u) role status (an_provider u) (an_subject u) (an_totp u) (an_totp_on u) (an_recovery u) (an_device u)
    (an_must_change u) (an_counter u) (an_created u) now (an_login u).
Definition identity_write (id name email display role status : string) : atx bool := fun s =>
  match ac_users s !! id with
  | Some u =>
      if negb (bool_decide (id ∈ ac_installer s))
         || bool_decide (an_name u = name) && bool_decide (an_role u = role) && bool_decide (an_status u = status)
      then if name_taken id name s then Fail AExists else Ok (true, alter_user id (set_identity name email display role status) s)
      else Ok (false, s)
  | None => Ok (false, s)
  end.
Definition UpdateUserIdentity (id name email display role status : string) : atx unit :=
  adminQuorum id true (identity_write id name email display role status).

Definition DirectoryEventWindow : Z := 5 * Minute.
Definition unix (t : time) : Z := t / Second.
Record SyncPayload := mkPayload {
  sp_event : string; sp_event_id : string; sp_id : string; sp_username : string; sp_email : string; sp_display : string;
  sp_role : string; sp_status : string; sp_timestamp : Z }.

(** The claim of an event: its ID once, and never behind the subject's watermark. *)
Definition claim_event (provider id subject : string) (at_ : Z) : atx unit :=
  _ ← aput (fun s => ac_set_events (filter (fun kv => unix (now - DirectoryEventWindow) <= kv.2) (ac_events s)) s);
  new ← aget (fun s => bool_decide (ac_events s !! (provider, id) = None));
  _ ← arequire new AStaleEvent;
  _ ← aput (fun s => ac_set_events (<[(provider, id) := at_]> (ac_events s)) s);
  fits ← aget (fun s => match ac_subjects s !! (provider, subject) with Some w => w <=? at_ | None => true end);
  _ ← arequire fits AStaleEvent;
  aput (fun s => ac_set_subjects (<[(provider, subject) := at_]> (ac_subjects s)) s).

Definition usernameRegex : re := Rep (either alnum (oneof "_-.")) 3 64.
Definition LocalUsername (provider subject claimed : string) : string :=
  if re_match usernameRegex claimed then claimed else "sso_" +:+ take_str 16 (sha_hex (provider +:+ String "000" subject)).
Definition or_else (s default_ : string) : string := if nonempty s then s else default_.

Definition kysignon : string := "kysignon".
(** The account of the event's subject, when the provider may change it. *)
Definition provider_account (p : SyncPayload) : atx (option (string * Account)) :=
  found ← aget (getUserBySSO kysignon (sp_id p));
  match found with
  | Some (id, u) => if bool_decide (an_provider u = kysignon) then mret (Some (id, u)) else afail (ARefused (an_name u))
  | None => mret None
  end.
Definition refuse_taken (name : string) (m : atx unit) : atx unit := fun s =>
  match m s with Fail AExists => Fail (ARefused name) | r => r end.
Definition update_account (p : SyncPayload) (id : string) (u : Account) : atx unit :=
  let role := or_else (sp_role p) "user" in
  let status := or_else (sp_status p) "active" in
  let name := if re_match usernameRegex (sp_username p) then sp_username p else an_name u in
  _ ← refuse_taken name (UpdateUserIdentity id name (sp_email p) (sp_display p) role status);
  if negb (bool_decide (an_role u = role)) || negb (bool_decide (an_status u = status)) then aput (DeleteUserSessions id) else mret tt.
Definition provision_account (p : SyncPayload) (id : string) : atx unit :=
  let name := LocalUsername kysignon (sp_id p) (sp_username p) in
  taken ← aget (getUserByUsername name);
  _ ← arequire (bool_decide (taken = None)) (ARefused name);
  refuse_taken name (createUser now id (mkAccount name (sp_email p) (sp_display p) "" (or_else (sp_role p) "user") (or_else (sp_status p) "active")
    kysignon (sp_id p) "" false "" "" false 0 zero_time zero_time None)).
Definition apply_event (p : SyncPayload) (fresh_id : string) : atx unit :=
  if bool_decide (sp_event p ∈ ["user.created"; "user.updated"]) then
    found ← provider_account p;
    match found with Some (id, u) => update_account p id u | None => provision_account p fresh_id end
  else if bool_decide (sp_event p = "user.deactivated") then
    found ← provider_account p;
    match found with
    | Some (id, u) => _ ← UpdateUserIdentity id (an_name u) (an_email u) (an_display u) (an_role u) "inactive"; aput (DeleteUserSessions id)
    | None => mret tt
    end
  else if bool_decide (sp_event p = "user.deleted") then
    found ← provider_account p;
    match found with Some (id, _) => adminQuorum id true (deleteRow id) | None => mret tt end
  else mret tt.
Definition ApplyDirectoryEvent (p : SyncPayload) (fresh_id : string) : Accounts -> res AccountErr unit * Accounts :=
  acommit (_ ← claim_event kysignon (sp_event_id p) (sp_id p) (sp_timestamp p); apply_event p fresh_id).

(** [HandleSyncWebhook] once the signature and the JSON were accepted. *)
Definition HandleSyncWebhook (p : SyncPayload) (fresh_id : string) (s : Accounts) : res AccountErr unit * Accounts :=
  if (sp_timestamp p =? 0) || (DirectoryEventWindow <? Z.abs (now - sp_timestamp p * Second)) then (Fail AMalformed, s)
  else if bool_decide (sp_event_id p = "") || (len (sp_event_id p) >? 128) || bool_decide (sp_id p = "") || (len (sp_id p) >? 255) then (Fail AMalformed, s)
  else
    match ApplyDirectoryEvent p fresh_id s with
    | (Fail (ARefused name), s') =>
        (Fail (ARefused name),
         ac_set_audit (audit (LogAudit (mkAudit "" "auth.sso.refused" kysignon ("username=" +:+ CleanText name 64) "" zero_time "" "" "" "" "denied") now (view s'))) s')
    | r => r
    end.

(** ** The installer's accounts *)

Definition set_status (status : string) (u : Account) : Account :=
  mkAccount (an_name u) (an_email u) (an_display u) (an_password u) (an_role u) status (an_provider u) (an_subject u) (an_totp u) (an_totp_on u)
    (an_recovery u) (an_device u) (an_must_change u) (an_counter u) (an_created u) now (an_login u).
Definition installerAvailability (id : string) (active : bool) : atx unit :=
  fits ← aget (fun s => match ac_users s !! id with Some u => bool_decide (an_provider u = InstallerProvider) && bool_decide (an_password u = "") | None => false end);
  _ ← arequire fits AForbidden;
  _ ← aput (alter_user id (set_status (if active then "active" else "inactive")));
  if active then mret tt
  else
    _ ← aput (DeleteUserSessions id);
    _ ← aput (drop_challenges (fun c => bool_decide (ch_user c = id)));
    _ ← aput (drop_devices (fun d => bool_decide (dv_user d = id)));
    orgs ← aget (fun s => map (fun km => km.1.1) (List.filter (fun km => bool_decide (km.1.2 = id) && bool_decide (m_role km.2 = RoleOrganizationAdmin))
                                                   (map_to_list (ac_members s))));
    aeach (fun org => revokeLostAdminCredentials org id "directory") orgs.
(** [identity] is [installerIdentityTx]'s answer, the account and its role by the installer's bundle. *)
Definition ApplyInstallerDirectory (identity : option (string * string)) (event : string) (revision : Z) (revision_text digest : string) (assigned admin : bool)
    : Accounts -> res AccountErr unit * Accounts :=
  acommit (
    _ ← arequire (bool_decide (event ∈ ["user.created"; "user.updated"; "user.deactivated"; "user.deleted"])) AMalformed;
    found ← afound identity AForbidden;
    let '(id, role) := found in
    last ← aget (fun s => ac_fences s !! id);
    _ ← arequire (match last with
                  | Some (n, d) => negb (n =? 0) && negb ((revision <? n) || ((revision =? n) && negb (bool_decide (digest = d))))
                  | None => true end) AMalformed;
    if match last with Some (n, _) => revision =? n | None => false end then mret tt
    else
      let active := assigned && Bool.eqb admin (bool_decide (role = "admin")) && negb (bool_decide (event ∈ ["user.deleted"; "user.deactivated"])) in
      _ ← installerAvailability id active;
      _ ← aput (fun s => ac_set_fences (<[id := (revision, digest)]> (ac_fences s)) s);
      audited (mkAudit "installer" "installer.directory_applied" id (revision_text +:+ ":" +:+ digest +:+ ":" +:+ event) "installer-local" now "platform" "" "" "" "success")).
Definition RevokeInstallerIdentity (identity : option (string * string)) : Accounts -> res AccountErr unit * Accounts :=
  acommit (
    found ← afound identity AForbidden;
    let '(id, _) := found in
    row ← aget (fun s => ac_users s !! id);
    u ← afound row ANotFound;
    if bool_decide (an_status u = "inactive") then mret tt
    else
      _ ← installerAvailability id false;
      audited (mkAudit "installer" "installer.app_role_lost" id "" "installer-local" now "platform" "" "" "" "success")).

(** ** Organizations *)

Definition InitialOrganizationID : string := "org_initial".
Definition CreateOrganizationWithAdmin (org name user : string) : Accounts -> res AccountErr unit * Accounts :=
  acommit (
    row ← aget (fun s => ac_users s !! user);
    u ← afound row ANotFound;
    _ ← arequire (bool_decide (an_status u = "active")) AInvalid;
    taken ← aget (fun s => existsb (fun kv => bool_decide (kv.2 = name)) (map_to_list (ac_orgs s)));
    _ ← arequire (negb taken) AExists;
    used ← aget (org_exists org);
    _ ← arequire (negb used) AConstraint;
    _ ← aput (fun s => ac_set_orgs (<[org := name]> (ac_orgs s)) s);
    aput (put_member org user RoleOrganizationAdmin "active")).

(** The bootstrap administrator: "admin" first, then the oldest. *)
Definition bootstrap_order (x y : string * Account) : Prop :=
  let rank (u : string * Account) := (if bool_decide (an_name u.2 = "admin") then 0 else 1) in
  rank x < rank y \/ (rank x = rank y /\ (an_created x.2 < an_created y.2 \/ (an_created x.2 = an_created y.2 /\ str_le x.1 y.1))).
#[export] Instance bootstrap_order_dec : RelDecision bootstrap_order.
Proof. intros x y. unfold bootstrap_order. apply _. Defined.
Definition bootstrap_admin (s : Accounts) : option string :=
  fst <$> head (merge_sort bootstrap_order (List.filter (fun ku =>
    bool_decide (an_role ku.2 = "admin") && bool_decide (an_status ku.2 = "active") && bool_decide (an_provider ku.2 = "local")) (map_to_list (ac_users s)))).
Definition Initialize : Accounts -> res AccountErr unit * Accounts :=
  acommit (
    done ← aget (fun s => bool_decide (is_Some (ac_boot s)));
    if done : bool then mret tt
    else
      _ ← aput (ac_set_boot (Some now));
      anyone ← aget (fun s => negb (bool_decide (ac_users s = ∅)));
      _ ← arequire anyone ANotBootstrapped;
      chosen ← aget bootstrap_admin;
      _ ← (match chosen with
           | Some user =>
               free ← aget (fun s => bool_decide (ac_members s !! (InitialOrganizationID, user) = None) && org_exists InitialOrganizationID s);
               _ ← arequire free AConstraint;
               aput (put_member InitialOrganizationID user RoleOrganizationAdmin "active")
           | None => mret tt
           end);
      audited (org_record (default "" chosen) "organization.bootstrap" InitialOrganizationID "One-time initial organization membership migration" ""
                 InitialOrganizationID (fresh InitialOrganizationID))).

(** ** Service tokens *)

Definition pairingLife : Z := 15 * Minute.
Definition lastUsedEvery : Z := Minute.
Definition maxPairingCodeDraws : nat := 20.
Definition serviceNameRe : re := Cat (Cls lower) (Rep (either lowdig (oneof "_-")) 0 63).
(** [draw] is what [pairingCode] gives at each attempt. *)
Fixpoint draw_code (n : nat) (draw : nat -> string) (id : string) (a : TenantAccess) : atx string :=
  match n with
  | O => afail ACodesExhausted
  | S n' =>
      let code := draw n' in
      taken ← aget (fun s => existsb (fun kp => bool_decide (pg_code kp.2 = sha_hex code) && unclaimed kp.2 && (now <? pg_expires kp.2)) (map_to_list (ac_pairings s)));
      if taken : bool then draw_code n' draw id a
      else
        free ← aget (fun s => bool_decide (ac_pairings s !! id = None));
        _ ← arequire free AConstraint;
        _ ← aput (fun s => ac_set_pairings (<[id := mkPairing (OrganizationID a) (sha_hex code) (ActorID a) now (now + pairingLife) None]> (ac_pairings s)) s);
        mret code
  end.
Definition CreateServicePairing (a : TenantAccess) (id : string) (draw : nat -> string) : Accounts -> res AccountErr string * Accounts :=
  as_tenant a ServiceTokensManage ServiceTokensManage id (
    _ ← aput (fun s => ac_set_pairings (filter (fun kp => now <= pg_expires kp.2) (ac_pairings s)) s);
    draw_code maxPairingCodeDraws draw id a) no_details now (fresh "").

Definition pairing_order (x y : string * Pairing) : Prop :=
  pg_created x.2 < pg_created y.2 \/ (pg_created x.2 = pg_created y.2 /\ str_le x.1 y.1).
#[export] Instance pairing_order_dec : RelDecision pairing_order.
Proof. intros x y. unfold pairing_order. apply _. Defined.
Definition live_pairing (code : string) (s : Accounts) : option (string * Pairing) :=
  head (merge_sort pairing_order (List.filter (fun kp => bool_decide (pg_code kp.2 = sha_hex code) && unclaimed kp.2 && (now <? pg_expires kp.2)
    && org_exists (pg_org kp.2) s) (map_to_list (ac_pairings s)))).
Definition token_free (id hash : string) (s : Accounts) : bool :=
  bool_decide (ac_tokens s !! id = None) && negb (existsb (fun kc => bool_decide (cr_hash kc.2 = hash)) (map_to_list (ac_tokens s))).
Definition add_token (id : string) (c : Credential) : atx unit :=
  free ← aget (token_free id (cr_hash c));
  _ ← arequire free AConstraint;
  aput (fun s => ac_set_tokens (<[id := c]> (ac_tokens s)) s).
(** [secret] and [id] are drawn; the answer is the organization, whose token the caller is shown. *)
Definition ClaimServiceToken (code service ip id secret : string) (s : Accounts) : res AccountErr string * Accounts :=
  if negb (len code =? 6) || negb (re_match serviceNameRe service) then (Fail AForbidden, s)
  else
    acommit (
      row ← aget (live_pairing code);
      found ← afound row AForbidden;
      let '(pid, p) := found in
      _ ← aput (fun s => ac_set_pairings (<[pid := mkPairing (pg_org p) (pg_code p) (pg_by p) (pg_created p) (pg_expires p) (Some now)]> (ac_pairings s)) s);
      _ ← add_token id (mkCredential (pg_org p) service (sha_hex secret) ("pairing:" +:+ pid) now None "" None ScopePulse);
      _ ← audited (org_record ("service:" +:+ id) "service_token.claim" id ("service=" +:+ service) ip (pg_org p) (fresh id));
      mret (pg_org p)) s.

Definition by_hash (hash : string) (p : Credential -> bool) (s : Accounts) : option (string * Credential) :=
  List.find (fun kc => bool_decide (cr_hash kc.2 = hash) && p kc.2) (map_to_list (ac_tokens s)).
(** [raw] is the decoded bearer, [None] when it is not 32 bytes of hex. *)
Definition LookupServiceToken (raw : option string) (s : Accounts) : res AccountErr (string * Credential) :=
  match raw with
  | None => Fail AForbidden
  | Some secret =>
      match by_hash (sha_hex secret) (fun c => bool_decide (cr_scope c = ScopePulse)) s with
      | Some (id, c) => if live c then Ok (id, c) else Fail AForbidden
      | None => Fail AForbidden
      end
  end.
Definition used (ip : string) (c : Credential) : Credential :=
  mkCredential (cr_org c) (cr_name c) (cr_hash c) (cr_by c) (cr_created c) (Some now) ip (cr_revoked c) (cr_scope c).
Definition stale_use (c : Credential) : bool := match cr_used c with Some t => lastUsedEvery <? now - t | None => true end.
Definition stamp (id ip : string) (s : Accounts) : Accounts :=
  ac_set_tokens (alter (fun c => if live c then used ip c else c) id (ac_tokens s)) s.
Definition AuthenticateServiceToken (raw : option string) (ip : string) (s : Accounts) : res AccountErr (string * Credential) * Accounts :=
  match LookupServiceToken raw s with
  | Fail e => (Fail e, s)
  | Ok (id, c) => if stale_use c then (Ok (id, used ip c), stamp id ip s) else (Ok (id, c), s)
  end.
Definition revoke_one (p : Credential -> bool) (org id by_ : string) : atx unit :=
  row ← aget (fun s => ac_tokens s !! id);
  c ← afound row ANotFound;
  _ ← arequire (bool_decide (cr_org c = org) && p c && live c) ANotFound;
  aput (fun s => ac_set_tokens (<[id := revoke_row by_ c]> (ac_tokens s)) s).
Definition RevokeServiceToken (a : TenantAccess) (id : string) : Accounts -> res AccountErr unit * Accounts :=
  as_tenant a ServiceTokensManage ServiceTokensManage id (revoke_one (fun c => negb (ScopeIsAgent c)) (OrganizationID a) id (ActorID a)) no_details now (fresh "").

(** ** Agent tokens *)

Definition IsAgentScope (scope : string) : bool := bool_decide (scope = ScopeMCPRead) || bool_decide (scope = ScopeMCPOperate).
Definition AgentIdleLimit : Z := 90 * 24 * Hour.
Definition maxAgentTokens : Z := 20.
Definition validAgentName (name : string) : bool :=
  nonempty name && (chars name <=? 64) && bool_decide (TrimSpace name = name) && validTenantName name.
Definition live_agents (org : string) (s : Accounts) : Z :=
  llen (List.filter (fun kc => bool_decide (cr_org kc.2 = org) && ScopeIsAgent kc.2 && live kc.2) (map_to_list (ac_tokens s))).
Definition CreateAgentToken (a : TenantAccess) (name scope id secret : string) (s : Accounts) : res AccountErr unit * Accounts :=
  if negb (validAgentName name) || negb (IsAgentScope scope) then (Fail AInvalid, s)
  else
    as_tenant a AgentTokensManage AgentTokensManage id (
      n ← aget (live_agents (OrganizationID a));
      _ ← arequire (n <? maxAgentTokens) ATokenLimit;
      add_token id (mkCredential (OrganizationID a) name (sha_hex secret) (Principal a) now None "" None scope))
      (fun _ => Some ("scope=" +:+ scope)) now (fresh "") s.
Definition set_scope (scope : string) (c : Credential) : Credential :=
  mkCredential (cr_org c) (cr_name c) (cr_hash c) (cr_by c) (cr_created c) (cr_used c) (cr_ip c) (cr_revoked c) scope.
Definition SetAgentTokenScope (a : TenantAccess) (id scope : string) (s : Accounts) : res AccountErr string * Accounts :=
  if negb (IsAgentScope scope) then (Fail AInvalid, s)
  else
    as_tenant a AgentTokensManage AgentTokensManage id (
      row ← aget (fun s => ac_tokens s !! id);
      c ← afound row ANotFound;
      _ ← arequire (bool_decide (cr_org c = OrganizationID a) && ScopeIsAgent c && live c) ANotFound;
      _ ← aput (fun s => ac_set_tokens (<[id := set_scope scope c]> (ac_tokens s)) s);
      mret (cr_scope c)) (fun from => Some ("from=" +:+ from +:+ " to=" +:+ scope)) now (fresh "") s.
Definition RevokeAgentToken (a : TenantAccess) (id : string) : Accounts -> res AccountErr unit * Accounts :=
  as_tenant a AgentTokensManage AgentTokensManage id (revoke_one ScopeIsAgent (OrganizationID a) id (Principal a)) no_details now (fresh "").

Definition AgentLastActive (c : Credential) : time := default (cr_created c) (cr_used c).
Definition idle (only : string) (id : string) (c : Credential) : bool :=
  ScopeIsAgent c && live c && (AgentLastActive c <? now - AgentIdleLimit) && (bool_decide (only = "") || bool_decide (id = only)).
Definition ExpireIdleAgentTokens (only : string) : Accounts -> res AccountErr (list string) * Accounts :=
  acommit (
    ids ← aget (fun s => take 500 (map fst (List.filter (fun kc => idle only kc.1 kc.2) (map_to_list (ac_tokens s)))));
    _ ← aeach (fun id =>
      row ← aget (fun s => ac_tokens s !! id);
      match row with
      | Some c =>
          if live c then
            _ ← aput (fun s => ac_set_tokens (<[id := revoke_row "idle" c]> (ac_tokens s)) s);
            audited (mkAudit ("service:" +:+ id) "agent_token.expired" id "unused for 90 days" "" now "organization" (cr_org c) "" (fresh id) "success")
          else mret tt
      | None => mret tt
      end) ids;
    mret ids).
Definition LookupAgentToken (raw : option string) (s : Accounts) : res AccountErr (string * Credential) * Accounts :=
  match raw with
  | None => (Fail AForbidden, s)
  | Some secret =>
      match by_hash (sha_hex secret) (fun c => ScopeIsAgent c && live c) s with
      | None => (Fail AForbidden, s)
      | Some (id, c) =>
          if AgentIdleLimit <? now - AgentLastActive c then
            match ExpireIdleAgentTokens id s with (Ok _, s') => (Fail AForbidden, s') | (Fail e, s') => (Fail e, s') end
          else (Ok (id, c), s)
      end
  end.
Definition AuthenticateAgentToken (raw : option string) (ip : string) (s : Accounts) : res AccountErr (string * Credential) * Accounts :=
  match LookupAgentToken raw s with
  | (Ok (id, c), s') => if stale_use c then (Ok (id, used ip c), stamp id ip s') else (Ok (id, c), s')
  | r => r
  end.

(** ** Status feeds *)

Definition maxStatusFeeds : Z := 20.
Definition AuditStatusFeedCreate : string := "status_feed.create".
Definition CreateStatusFeed (a : TenantAccess) (name id secret : string) (s : Accounts) : res AccountErr unit * Accounts :=
  if negb (validAgentName name) then (Fail AInvalid, s)
  else
    as_tenant a StatusFeedsManage AuditStatusFeedCreate id (
      n ← aget (fun s => llen (List.filter (fun kc => bool_decide (cr_org kc.2 = OrganizationID a) && live kc.2) (map_to_list (ac_feeds s))));
      _ ← arequire (n <? maxStatusFeeds) AFeedLimit;
      free ← aget (fun s => bool_decide (ac_feeds s !! id = None) && negb (existsb (fun kc => bool_decide (cr_hash kc.2 = sha_hex secret)) (map_to_list (ac_feeds s))));
      _ ← arequire free AConstraint;
      aput (fun s => ac_set_feeds (<[id := mkCredential (OrganizationID a) name (sha_hex secret) (Principal a) now None "" None ""]> (ac_feeds s)) s))
      no_details now (fresh "") s.
Definition RevokeStatusFeed (a : TenantAccess) (id : string) : Accounts -> res AccountErr unit * Accounts :=
  as_tenant a StatusFeedsManage AuditStatusFeedRevoke id (
    row ← aget (fun s => ac_feeds s !! id);
    c ← afound row ANotFound;
    _ ← arequire (bool_decide (cr_org c = OrganizationID a) && live c) ANotFound;
    aput (fun s => ac_set_feeds (<[id := revoke_row (Principal a) c]> (ac_feeds s)) s)) no_details now (fresh "").
End Changes.
