(* ===== verification/AccountSteps.v ===== *)
(** * What the account tables go through

    [astep] is one committed transaction or statement of the accounts and memberships components, in
    any order: sign-ins, logouts, password changes, membership changes, credentials, the identity
    provider's events and the installer's.  [keeps] is how a statement is shown to keep a relation
    between the tables before and after it. *)
From Stdlib Require Import ZArith Lia Ascii String.
From stdpp Require Import base gmap sets strings list sorting.
From S2P Require Import Prelude.
From S2P Require Import Regex.
From S2P Require Import Text.
From S2P Require Import Frame.
From S2P Require Import Permissions.
From S2P Require Import Store.
From S2P Require Import TenantAccess.
From S2P Require Import Accounts.
From S2P Require Import Memberships.

(** ** Steps *)

(** What a step says about itself; [Quiet] for most. *)
Inductive Label : Type :=
| Quiet
| Inserted (token : string) (x : Session) (password : string)
| Confirmed (token : string) (x : Session)
| Purged
| Fenced (provider sid : string) (until : time)
| Swept (provider sid : string)
| Event (p : SyncPayload)
| Directory
| Installer.

Section Steps.
Context (sha_hex : string -> string).

Inductive astep (now : time) (s : Accounts) : Label -> Accounts -> Prop :=
| st_create id u : astep now s Quiet (CreateUser now id u s).2
| st_link user session password provider subject ip : astep now s Quiet (LinkSSO now user session password provider subject ip s).2
| st_unlink user password provider ip : astep now s Quiet (UnlinkSSO now user password provider ip s).2
| st_change user old new ip : astep now s Quiet (ChangePassword now user old new ip s).2
| st_complete user old new ip : astep now s Quiet (CompletePasswordChange now user old new ip s).2
| st_reset user new : astep now s Quiet (ResetAdminPassword now user new s).2
| st_mfa user password from to action ip : astep now s Quiet (UpdateMFA now user password from to action ip s).2
| st_recovery user old new : astep now s Quiet (UpdateRecoveryCodes now user old new s).2
| st_totp user counter : astep now s Quiet (SpendTOTPCounter now user counter s).2
| st_insert token x subject password s' : insert_session token x subject password s = Ok (tt, s') -> astep now s (Inserted token x password) s'
| st_confirm token x : astep now s (Confirmed token x) (confirm_session now token x s).2
| st_purge : astep now s Purged (purge_fences now s)
| st_fence provider sid until : astep now s (Fenced provider sid until) (fence_sid provider sid until s)
| st_end_challenges provider sid : astep now s Quiet (end_challenges provider sid s)
| st_end_sessions provider sid : astep now s (Swept provider sid) (end_sessions provider sid s)
| st_purge_subjects : astep now s Quiet (purge_subject_fences now s)
| st_fence_subject provider subject cutoff until : astep now s Quiet (fence_subject provider subject cutoff until s)
| st_end_subject_challenges provider subject cutoff : astep now s Quiet (end_subject_challenges provider subject cutoff s)
| st_end_subject_sessions provider subject cutoff : astep now s Quiet (end_subject_sessions provider subject cutoff s)
| st_end_provider_challenges provider : astep now s Quiet (end_provider_challenges provider s)
| st_end_provider_sessions provider : astep now s Quiet (end_provider_sessions provider s)
| st_get token : astep now s Quiet (GetSession now token s).2
| st_delete_session token : astep now s Quiet (DeleteSession token s)
| st_delete_sessions user : astep now s Quiet (DeleteUserSessions user s)
| st_clean_sessions : astep now s Quiet (CleanExpiredSessions now s)
| st_challenge token c password : astep now s Quiet (CreateMFAChallenge token c password s).2
| st_consume token : astep now s Quiet (ConsumeMFAChallenge now token s).2
| st_pair secret d : astep now s Quiet (CreatePairing sha_hex now secret d s).2
| st_paired secret name platform push : astep now s Quiet (ConsumePairing sha_hex now secret name platform push s).2
| st_clean_pairings : astep now s Quiet (CleanExpiredPairings now s)
| st_delete_user fresh id : astep now s Quiet (DeleteUser now fresh id s).2
| st_put_member fresh a user role status : astep now s Quiet (PutMembership now fresh a user role status s).2
| st_remove_member fresh a user : astep now s Quiet (RemoveMembership now fresh a user s).2
| st_organization org name user : astep now s Quiet (CreateOrganizationWithAdmin org name user s).2
| st_initialize fresh : astep now s Quiet (Initialize now fresh s).2
| st_service_pairing fresh a id draw : astep now s Quiet (CreateServicePairing sha_hex now fresh a id draw s).2
| st_claim fresh code service ip id secret : astep now s Quiet (ClaimServiceToken sha_hex now fresh code service ip id secret s).2
| st_service raw ip : astep now s Quiet (AuthenticateServiceToken sha_hex now raw ip s).2
| st_revoke_service fresh a id : astep now s Quiet (RevokeServiceToken now fresh a id s).2
| st_agent fresh a name scope id secret : astep now s Quiet (CreateAgentToken sha_hex now fresh a name scope id secret s).2
| st_agent_scope fresh a id scope : astep now s Quiet (SetAgentTokenScope now fresh a id scope s).2
| st_revoke_agent fresh a id : astep now s Quiet (RevokeAgentToken now fresh a id s).2
| st_agent_use fresh raw ip : astep now s Quiet (AuthenticateAgentToken sha_hex now fresh raw ip s).2
| st_expire fresh only : astep now s Quiet (ExpireIdleAgentTokens now fresh only s).2
| st_feed fresh a name id secret : astep now s Quiet (CreateStatusFeed sha_hex now fresh a name id secret s).2
| st_revoke_feed fresh a id : astep now s Quiet (RevokeStatusFeed now fresh a id s).2
| st_event fresh p id s' : HandleSyncWebhook sha_hex now fresh p id s = (Ok tt, s') -> astep now s (Event p) s'
| st_event_refused fresh p id e s' : HandleSyncWebhook sha_hex now fresh p id s = (Fail e, s') -> astep now s Directory s'
| st_installer fresh identity event n text digest assigned admin :
    astep now s Installer (ApplyInstallerDirectory now fresh identity event n text digest assigned admin s).2
| st_installer_revoke fresh identity : astep now s Installer (RevokeInstallerIdentity now fresh identity s).2.
End Steps.

(** ** Keeping a relation *)

Section Keeps.
Context (R : Accounts -> Accounts -> Prop) `{!PreOrder R}.

Definition keeps {A} (m : atx A) : Prop := forall s a s', m s = Ok (a, s') -> R s s'.
Lemma akeeps_ret {A} (a : A) : keeps (mret a).
Proof. intros s b s' [= <- <-]. done. Qed.
Lemma akeeps_bind {A B} (m : atx A) (k : A -> atx B) : keeps m -> (forall a, keeps (k a)) -> keeps (m ≫= k).
Proof.
  intros Hm Hk s b s'. unfold mbind, atx_bind. destruct (m s) as [[a s1]|e] eqn:E; [|done]. intros H.
  etrans; [by eapply Hm|by eapply Hk].
Qed.
Lemma keeps_fail {A} e : keeps (afail (A:=A) e).
Proof. done. Qed.
Lemma keeps_get {A} (f : Accounts -> A) : keeps (aget f).
Proof. intros s a s' [= <- <-]. done. Qed.
Lemma keeps_put f : (forall s, R s (f s)) -> keeps (aput f).
Proof. intros H s a s' [= <- <-]. done. Qed.
Lemma keeps_require c e : keeps (arequire c e).
Proof. unfold arequire. destruct c; [apply akeeps_ret|apply keeps_fail]. Qed.
Lemma keeps_found {A} (o : option A) e : keeps (afound o e).
Proof. unfold afound. destruct o; [apply akeeps_ret|apply keeps_fail]. Qed.
Lemma keeps_each {A} (f : A -> atx unit) l : (forall x, keeps (f x)) -> keeps (aeach f l).
Proof. intros Hf. induction l as [|x l IH]; simpl; [apply akeeps_ret|]. apply akeeps_bind; [done|]. intros _. exact IH. Qed.
Lemma keeps_commit {A} (m : atx A) s : keeps m -> R s (acommit m s).2.
Proof. intros H. unfold acommit. destruct (m s) as [[a s']|e] eqn:E; [by eapply H|done]. Qed.
Lemma keeps_tenant {A} a action name target (op : atx A) details now fresh s :
  (forall s l, R s (ac_set_audit l s)) -> keeps op -> R s (as_tenant a action name target op details now fresh s).2.
Proof.
  intros Ha Hop. unfold as_tenant. destruct (_ || _); [done|].
  assert (forall e, R s (ac_set_audit (audit (LogAudit (tenant_record a name now fresh (mkNotes (Some target) None) "" e) now (view s))) s)) as Hf by (intros; apply Ha).
  assert (R s (match bind_res (principalRole a (view s)) (fun r => permit a action r.1 (view s)) with
    | Ok _ => match op s with
              | Ok (x, s') => (Ok x, ac_set_audit (ac_audit s' ++ [tenant_record a name now fresh (mkNotes (Some target) None)
                  (match details x with Some d => CleanText d 255 | None => "" end) "success"]) s')
              | Fail e => let e' := if bool_decide (e = AConstraint) then AExists else e in
                  (Fail e', ac_set_audit (audit (LogAudit (tenant_record a name now fresh (mkNotes (Some target) None) ""
                    (if bool_decide (e' = AForbidden) || bool_decide (e' = ATenant ErrForbidden) then "denied" else "failure")) now (view s))) s)
              end
    | Fail e => (Fail (ATenant e), ac_set_audit (audit (LogAudit (tenant_record a name now fresh (mkNotes (Some target) None) ""
                    (if bool_decide (ATenant e = AForbidden) || bool_decide (ATenant e = ATenant ErrForbidden) then "denied" else "failure")) now (view s))) s)
    end).2) as H.
  { destruct (bind_res _ _); [|apply Hf]. destruct (op s) as [[x s']|e] eqn:E; [|apply Hf]. etrans; [by eapply Hop|apply Ha]. }
  destruct (principalRole a (view s)) as [r|[]] eqn:Er; try exact H; done.
Qed.
End Keeps.

Arguments keeps _ {_} _.
#[export] Hint Unfold CreateUser registerSSOIdentity insertSSOIdentity LinkSSO UnlinkSSO ChangePassword CompletePasswordChange replacePassword
  ResetAdminPassword revokePasswordGrants UpdateMFA UpdateRecoveryCodes SpendTOTPCounter CreateMFAChallenge ConsumeMFAChallenge CreatePairing ConsumePairing
  withPassword stillSignsIn audited confirm_session GetSession
  DeleteUser PutMembership PutMembership_body RemoveMembership RemoveMembership_body CreateOrganizationWithAdmin Initialize CreateServicePairing
  ClaimServiceToken RevokeServiceToken revoke_one CreateAgentToken add_token SetAgentTokenScope RevokeAgentToken
  ExpireIdleAgentTokens CreateStatusFeed RevokeStatusFeed
  ApplyInstallerDirectory RevokeInstallerIdentity installerAvailability requireActiveAdmin
  revokeLostAdminCredentials revoke_tokens revoke_feeds revoke_pairings adminQuorum
  update_account provision_account provider_account apply_event UpdateUserIdentity : accounts.

Lemma keeps_refuse (R : Accounts -> Accounts -> Prop) name m : keeps R m -> keeps R (refuse_taken name m).
Proof. intros H s a s'. unfold refuse_taken. destruct (m s) as [[b s1]|[]] eqn:E; intros [= <- <-]; by eapply H. Qed.
Lemma keeps_create (R : Accounts -> Accounts -> Prop) `{!PreOrder R} now id u :
  (forall s v, ac_users s !! id = None -> R s (ac_set_users (<[id := v]> (ac_users s)) s)) ->
  (forall s k, R s (ac_set_identities (<[k := id]> (ac_identities s)) s)) -> keeps R (createUser now id u).
Proof.
  intros Hu Hi. unfold createUser. apply akeeps_bind; [done|apply keeps_require; apply _|]. intros _ s a s'.
  unfold aget, arequire, aput, mbind at 1 2 3, atx_bind at 1 2 3. simpl. case_bool_decide as E; simpl; [|done]. destruct (negb _); simpl; [|done]. intros H.
  etrans; [by apply (Hu s (with_defaults now u))|]. eapply (akeeps_bind R (mret tt) (fun _ => registerSSOIdentity id u)); [apply akeeps_ret; apply _| |exact H].
  intros _. unfold registerSSOIdentity. destruct (_ || _); [apply akeeps_ret; apply _|]. unfold insertSSOIdentity.
  apply akeeps_bind; [done|apply keeps_require; apply _|]. intros _. apply akeeps_bind; [done|apply keeps_get; apply _|]. intros [o|]; [apply keeps_require; apply _|].
  apply akeeps_bind; [done|apply keeps_get; apply _|]. intros second. apply akeeps_bind; [done|apply keeps_require; apply _|]. intros _. by apply keeps_put.
Qed.
Lemma keeps_draw (R : Accounts -> Accounts -> Prop) `{!PreOrder R} sha_hex now n draw id a :
  (forall s p, unclaimed p = true -> pg_org p = OrganizationID a -> pg_by p = ActorID a -> ac_pairings s !! id = None ->
     R s (ac_set_pairings (<[id := p]> (ac_pairings s)) s)) -> keeps R (draw_code sha_hex now n draw id a).
Proof.
  intros HR. induction n as [|n IH]; cbn [draw_code]; [apply keeps_fail|]. apply akeeps_bind; [done|apply keeps_get; apply _|]. intros [|]; [exact IH|].
  intros s code s'. unfold mbind, atx_bind, aget, arequire, aput. simpl. case_bool_decide as E; simpl; [|done]. intros [= <- <-]. by apply HR.
Qed.

Lemma keeps_lookup (R : Accounts -> Accounts -> Prop) `{!PreOrder R} sha_hex now fresh raw s :
  (forall id, R s (ExpireIdleAgentTokens now fresh id s).2) -> R s (LookupAgentToken sha_hex now fresh raw s).2.
Proof.
  intros He. unfold LookupAgentToken. destruct raw as [secret|]; [|done]. destruct (by_hash _ _ _) as [[id c]|]; [|done].
  destruct (_ <? _); [|done]. specialize (He id). by destruct (ExpireIdleAgentTokens now fresh id s) as [[]].
Qed.
Lemma keeps_agent (R : Accounts -> Accounts -> Prop) `{!PreOrder R} sha_hex now fresh raw ip s :
  (forall id, R s (ExpireIdleAgentTokens now fresh id s).2) -> (forall s id, R s (stamp now id ip s)) -> R s (AuthenticateAgentToken sha_hex now fresh raw ip s).2.
Proof.
  intros He Hs. unfold AuthenticateAgentToken. pose proof (keeps_lookup R sha_hex now fresh raw s He) as H.
  destruct (LookupAgentToken sha_hex now fresh raw s) as [[[id c]|e] s']; [|done]. destruct (stale_use now c); [|done]. etrans; [exact H|apply Hs].
Qed.
Lemma keeps_service (R : Accounts -> Accounts -> Prop) `{!PreOrder R} sha_hex now raw ip s :
  (forall id, R s (stamp now id ip s)) -> R s (AuthenticateServiceToken sha_hex now raw ip s).2.
Proof.
  intros Hs. unfold AuthenticateServiceToken. destruct (LookupServiceToken _ _ _) as [[id c]|]; [|done]. destruct (stale_use now c); simpl; [apply Hs|reflexivity].
Qed.

(** Takes a write with a condition apart. *)
Ltac unmatch :=
  cbv beta;
  repeat match goal with
         | |- context [match ac_pairings ?s !! ?i with _ => _ end] => destruct (ac_pairings s !! i) eqn:?
         | |- context [match ac_subject_logouts ?s !! ?i with _ => _ end] => destruct (ac_subject_logouts s !! i) as [[? ?]|]
         | |- context [match ac_sessions ?s !! ?i with _ => _ end] => destruct (ac_sessions s !! i)
         | |- ?R ?s (if ?b then _ else _) => destruct b eqn:?
         end.
(** Takes a statement apart; [leaf] is for the writes. *)
Ltac keep_step leaf :=
  match goal with
  | |- keeps _ (mret _) => apply akeeps_ret
  | |- keeps _ (afail _) => apply keeps_fail
  | |- keeps _ (aget _) => apply keeps_get
  | |- keeps _ (arequire _ _) => apply keeps_require
  | |- keeps _ (afound _ _) => apply keeps_found
  | |- keeps _ (mbind _ _) => apply akeeps_bind; [apply _| |intros ?]
  | |- keeps _ (aeach _ _) => apply keeps_each; [apply _|intros ?]
  | |- keeps _ (refuse_taken _ _) => apply keeps_refuse
  | |- keeps _ (createUser _ _ _) => apply keeps_create; [apply _|intros; leaf|intros; leaf]
  | |- keeps _ (draw_code _ _ _ _ _ _) => apply keeps_draw; [apply _|intros; leaf]
  | |- keeps _ (aput _) => apply keeps_put; intros ?; unmatch; leaf
  | |- keeps _ (match ?x with _ => _ end) => destruct x
  | |- keeps _ (let '(_, _) := ?x in _) => destruct x
  | |- PreOrder _ => apply _
  end.
Ltac keep leaf := repeat keep_step leaf.
Ltac keep_op leaf :=
  repeat autounfold with accounts;
  repeat match goal with
         | |- context [(if ?b then _ else _).2] => destruct b
         end;
  match goal with
  | |- _ _ (AuthenticateServiceToken _ _ _ _ _).2 => apply keeps_service; [apply _|intros; leaf]
  | |- _ _ (AuthenticateAgentToken _ _ _ _ _ _).2 => apply keeps_agent; [apply _|intros; repeat autounfold with accounts; apply keeps_commit; [apply _|keep leaf]|intros; leaf]
  | |- _ _ (acommit _ _).2 => apply keeps_commit; [apply _|keep leaf]
  | |- _ _ (as_tenant _ _ _ _ _ _ _ _ _).2 => apply keeps_tenant; [apply _|intros ? ?; leaf|keep leaf]
  | _ => unfold fence_subject; unmatch; leaf
  end.

(** A webhook that keeps a relation, whatever it answers. *)
Lemma keeps_webhook (R : Accounts -> Accounts -> Prop) `{!PreOrder R} sha_hex now fresh p id s :
  (forall s l, R s (ac_set_audit l s)) -> keeps R (claim_event now kysignon (sp_event_id p) (sp_id p) (sp_timestamp p)) ->
  keeps R (apply_event sha_hex now fresh p id) -> R s (HandleSyncWebhook sha_hex now fresh p id s).2.
Proof.
  intros Ha Hc Hp. unfold HandleSyncWebhook. destruct (_ || _); [done|]. destruct (_ || _); [done|].
  assert (R s (ApplyDirectoryEvent sha_hex now fresh p id s).2) as H.
  { unfold ApplyDirectoryEvent. apply keeps_commit; [apply _|]. by apply akeeps_bind. }
  destruct (ApplyDirectoryEvent sha_hex now fresh p id s) as [[[]|[]] s']; try exact H. etrans; [exact H|apply Ha].
Qed.

(** ** The tables with what happened to them *)

(** [w_granted]: the password hash each session was opened under; [w_pending]: the sessions inserted
    whose fences were not read yet, which nobody holds a token of; [w_swept]: the logins whose
    sessions a logout deleted since their fence last stood; [w_applied]: the events applied. *)
Record World := mkWorld {
  w_db : Accounts; w_clock : time; w_granted : gmap string string; w_pending : gmap string Session;
  w_swept : gset (string * string); w_applied : list SyncPayload }.

Definition fence_stands (now : time) (key : string * string) (s : Accounts) : bool :=
  match ac_logouts s !! key with Some e => now <? e | None => false end.
Definition enabled (w : World) (l : Label) : Prop :=
  match l with Confirmed token x => w_pending w !! token = Some x | _ => True end.
Definition noted (now : time) (l : Label) (s' : Accounts) (w : World) : World :=
  match l with
  | Inserted token x password => mkWorld s' now (<[token := password]> (w_granted w)) (<[token := x]> (w_pending w)) (w_swept w) (w_applied w)
  | Confirmed token _ => mkWorld s' now (w_granted w) (delete token (w_pending w)) (w_swept w) (w_applied w)
  | Fenced provider sid _ =>
      mkWorld s' now (w_granted w) (w_pending w)
        (if fence_stands now (provider, sid) (w_db w) then w_swept w else w_swept w ∖ {[(provider, sid)]}) (w_applied w)
  | Swept provider sid => mkWorld s' now (w_granted w) (w_pending w) ({[(provider, sid)]} ∪ w_swept w) (w_applied w)
  | Event p => mkWorld s' now (w_granted w) (w_pending w) (w_swept w) (w_applied w ++ [p])
  | _ => mkWorld s' now (w_granted w) (w_pending w) (w_swept w) (w_applied w)
  end.
Inductive wstep (sha_hex : string -> string) (w : World) : World -> Prop :=
| wstep_at now l s' : w_clock w <= now -> enabled w l -> astep sha_hex now (w_db w) l s' -> wstep sha_hex w (noted now l s' w).
Definition starts (w : World) : Prop :=
  ac_sessions (w_db w) = ∅ /\ ac_challenges (w_db w) = ∅ /\ w_pending w = ∅ /\ w_swept w = ∅ /\ w_applied w = [].

Lemma noted_db now l s' w : w_db (noted now l s' w) = s'.
Proof. by destruct l. Qed.
Lemma noted_clock now l s' w : w_clock (noted now l s' w) = now.
Proof. by destruct l. Qed.
