(* ===== verification/AccountSafety.v ===== *)
(** * Sessions

    Passwords, provider logouts and the identity provider's events, over every interleaving of the
    steps of [AccountSteps]. *)
From Stdlib Require Import ZArith Lia Ascii String.
From stdpp Require Import base gmap sets strings list sorting.
From S2P Require Import Prelude.
From S2P Require Import Regex.
From S2P Require Import Text.
From S2P Require Import Frame.
From S2P Require Import Permissions.
From S2P Require Import Store.
From S2P Require Import TenantAccess.
From S2P Require Import Accounts.
From S2P Require Import Memberships.
From S2P Require Import AccountSteps.

(** ** Steps that neither fence a login nor open a session *)

Definition closes (s s' : Accounts) : Prop :=
  ac_logouts s' = ac_logouts s /\ forall tok x, ac_sessions s' !! tok = Some x -> ac_sessions s !! tok = Some x.
#[export] Instance closes_preorder : PreOrder closes.
Proof. split; [done|]. intros s1 s2 s3 [H1 H1'] [H2 H2']. split; [congruence|auto]. Qed.
Ltac closes_leaf :=
  first [reflexivity|split; [reflexivity|intros ? ?; simpl; rewrite ?map_lookup_filter_Some, ?lookup_delete_Some; by try intros [? ?]]].

Lemma deleteRow_closes id : keeps closes (deleteRow id).
Proof. intros s a s'. unfold deleteRow. destruct (_ && _); intros [= <- <-]; [closes_leaf|done]. Qed.
Lemma identity_write_closes now id name email display role status : keeps closes (identity_write now id name email display role status).
Proof.
  intros s a s'. unfold identity_write. destruct (ac_users s !! id); [|by intros [= <- <-]]. destruct (_ || _); [|by intros [= <- <-]].
  destruct (name_taken _ _ _); [done|]. intros [= <- <-]. closes_leaf.
Qed.
Ltac closes_op := keep_op closes_leaf; try first [apply deleteRow_closes|apply identity_write_closes].

Lemma get_closes now token s : closes s (GetSession now token s).2.
Proof. unfold GetSession. destruct (ac_sessions s !! token) as [x|]; [|done]. destruct (_ <? _); [closes_leaf|done]. Qed.
Lemma webhook_closes sha_hex now fresh p id s : closes s (HandleSyncWebhook sha_hex now fresh p id s).2.
Proof.
  apply keeps_webhook; [apply _|intros; closes_leaf|unfold claim_event; keep closes_leaf|].
  repeat autounfold with accounts. keep closes_leaf; try first [apply deleteRow_closes|apply identity_write_closes].
Qed.

Lemma astep_closes sha_hex now s l s' : astep sha_hex now s l s' ->
  match l with Inserted _ _ _ | Purged | Fenced _ _ _ => True | _ => closes s s' end.
Proof.
  destruct 1; try exact I.
  all: try (closes_op; fail).
  - apply get_closes.
  - match goal with H : HandleSyncWebhook _ _ ?f ?p ?id _ = _ |- _ => pose proof (webhook_closes sha_hex now f p id s) as Hc; by rewrite H in Hc end.
  - match goal with H : HandleSyncWebhook _ _ ?f ?p ?id _ = _ |- _ => pose proof (webhook_closes sha_hex now f p id s) as Hc; by rewrite H in Hc end.
Qed.

(** ** A provider's logout *)

(** While the fence of a swept login stands, whatever session it has awaits its confirmation. *)
Definition fenced_out (w : World) : Prop := forall key, key ∈ w_swept w -> key.1 <> "" -> key.2 <> "" ->
  fence_stands (w_clock w) key (w_db w) = true ->
  forall tok x, ac_sessions (w_db w) !! tok = Some x -> (ss_provider x, ss_sid x) = key -> w_pending w !! tok = Some x.

Lemma stands_later now now' key s : now <= now' -> fence_stands now' key s = true -> fence_stands now key s = true.
Proof. unfold fence_stands. destruct (ac_logouts s !! key); [|done]. rewrite !Z.ltb_lt. lia. Qed.
Lemma stands_closes now key s s' : closes s s' -> fence_stands now key s' = fence_stands now key s.
Proof. intros [E _]. unfold fence_stands. by rewrite E. Qed.

Lemma fenced_out_quiet w now s' swept granted applied : w_clock w <= now -> closes (w_db w) s' -> swept ⊆ w_swept w -> fenced_out w ->
  fenced_out (mkWorld s' now granted (w_pending w) swept applied).
Proof.
  intros Hn Hc Hs H key Hk H1 H2 Hf tok x Hx Ek. simpl in *. rewrite (stands_closes _ _ _ _ Hc) in Hf.
  eapply H; [by apply Hs|done|done|by eapply stands_later|by apply Hc|done].
Qed.
Lemma stillSignsIn_same user provider subject s a s' : stillSignsIn user provider subject s = Ok (a, s') -> s' = s.
Proof.
  unfold stillSignsIn, mbind, atx_bind, aget, arequire. case_bool_decide; [by intros [= _ <-]|]. destruct (negb _); [|done]. cbn.
  destruct (match ac_users s !! user with Some u => _ | None => _ end); [by intros [= _ <-]|done].
Qed.
Lemma insert_session_ok token x subject password s s' : insert_session token x subject password s = Ok (tt, s') ->
  s' = ac_set_sessions (<[token := x]> (ac_sessions s)) s /\ ac_sessions s !! token = None /\ an_password <$> ac_users s !! ss_user x = Some password.
Proof.
  unfold insert_session, withPassword, mbind, atx_bind, aget, arequire, aput. simpl. destruct (ac_users s !! ss_user x) as [u|] eqn:Eu; [|done].
  case_bool_decide as Ep; [|done]. case_bool_decide; simpl; [|done].
  destruct (stillSignsIn (ss_user x) (ss_provider x) subject s) as [[[] s1]|e] eqn:Es; [|done].
  apply stillSignsIn_same in Es as ->.
  case_bool_decide as Et; [|done]. intros [= <-]. simpl. by rewrite Ep.
Qed.

Lemma fenced_out_insert w now token x password s' subject : w_clock w <= now -> insert_session token x subject password (w_db w) = Ok (tt, s') ->
  fenced_out w -> fenced_out (noted now (Inserted token x password) s' w).
Proof.
  intros Hn E H key Hk H1 H2 Hf tok y Hy Ek. simpl in *. apply insert_session_ok in E as (-> & _ & _). simpl in Hy.
  destruct (decide (tok = token)) as [->|Hne]; [rewrite lookup_insert_eq in Hy |- *; by injection Hy as ->|].
  rewrite lookup_insert_ne in Hy |- * by done. by eapply H; [| | |eapply stands_later| |].
Qed.
Lemma fenced_out_confirm w now token x : w_clock w <= now -> w_pending w !! token = Some x ->
  fenced_out w -> fenced_out (noted now (Confirmed token x) (confirm_session now token x (w_db w)).2 w).
Proof.
  intros Hn Hp H key Hk H1 H2 Hf tok y Hy Ek. simpl in *.
  assert (closes (w_db w) (confirm_session now token x (w_db w)).2) as Hc.
  { unfold confirm_session. case_bool_decide; [done|]. destruct (_ || _); [closes_leaf|done]. }
  rewrite (stands_closes _ _ _ _ Hc) in Hf.
  assert (w_pending w !! tok = Some y) as Hyp by (eapply H; [done|done|done|by eapply stands_later|by apply Hc|done]).
  destruct (decide (tok = token)) as [->|Hne]; [|by rewrite lookup_delete_ne]. exfalso. rewrite Hp in Hyp. injection Hyp as ->.
  revert Hy. unfold confirm_session. subst key. simpl in *. rewrite bool_decide_false by done.
  assert (sid_fenced now y (w_db w) = true) as ->.
  { unfold sid_fenced. rewrite bool_decide_false by done. exact Hf. }
  simpl. by rewrite lookup_delete_eq.
Qed.
Lemma fenced_out_fence w now provider sid until : w_clock w <= now ->
  fenced_out w -> fenced_out (noted now (Fenced provider sid until) (fence_sid provider sid until (w_db w)) w).
Proof.
  intros Hn H key Hk H1 H2 Hf tok y Hy Ek. simpl in *. destruct (decide (key = (provider, sid))) as [->|Hne].
  - destruct (fence_stands now (provider, sid) (w_db w)) eqn:Es; [|set_solver]. by eapply H; [| | |eapply stands_later| |].
  - eapply H; [destruct (fence_stands now _ (w_db w)); set_solver|done|done| |done|done]. eapply stands_later; [exact Hn|]. revert Hf. unfold fence_stands, fence_sid. simpl.
    by rewrite lookup_insert_ne.
Qed.

Lemma wstep_fenced_out sha_hex w w' : wstep sha_hex w w' -> fenced_out w -> fenced_out w'.
Proof.
  destruct 1 as [now l s' Hn He Hs]. intros H. pose proof (astep_closes _ _ _ _ _ Hs) as Hc.
  destruct l as [|token x password|token x| |provider sid until|provider sid|p| |]; simpl in *; try (by apply fenced_out_quiet).
  - inversion Hs; subst. by eapply fenced_out_insert.
  - inversion Hs; subst. by apply fenced_out_confirm.
  - inversion Hs; subst. intros key Hk H1 H2 Hf tok y Hy Ek. simpl in *. eapply H; [done|done|done| |done|done]. eapply stands_later; [exact Hn|].
    revert Hf. unfold fence_stands, purge_fences. simpl. destruct (filter _ _ !! key) as [e|] eqn:E; [|done]. apply map_lookup_filter_Some in E as [E _].
    assert (ac_logouts (w_db w) !! key = Some e) as -> by exact E. done.
  - inversion Hs; subst. by apply fenced_out_fence.
  - inversion Hs; subst. intros key Hk H1 H2 Hf tok y Hy Ek. simpl in *. apply map_lookup_filter_Some in Hy as [Hy Hkeep]. simpl in Hkeep.
    apply elem_of_union in Hk as [->%elem_of_singleton|Hk].
    + injection Ek as Ep Es. rewrite !bool_decide_true in Hkeep by done. done.
    + by eapply H; [| | |eapply stands_later| |].
Qed.

(** ** Passwords *)

Definition pw (user : string) (s : Accounts) : option string := an_password <$> ac_users s !! user.
(** What is left of the sessions keeps its account's password; a new challenge carries it. *)
Definition faithful (s s' : Accounts) : Prop :=
  (forall tok x, ac_sessions s' !! tok = Some x ->
     ac_sessions s !! tok = Some x /\ forall p, pw (ss_user x) s = Some p -> pw (ss_user x) s' = Some p) /\
  (forall tok c, ac_challenges s' !! tok = Some c -> pw (ch_user c) s' = Some (ch_password c) \/
     ac_challenges s !! tok = Some c /\ forall p, pw (ch_user c) s = Some p -> pw (ch_user c) s' = Some p).
#[export] Instance faithful_preorder : PreOrder faithful.
Proof.
  split; [split; [done|by right]|]. intros s1 s2 s3 [H1 G1] [H2 G2]. split.
  - intros tok x (Hx & P2)%H2. destruct (H1 _ _ Hx) as [? P1]. split; [done|]. auto.
  - intros tok c [Hl|[Hc P2]]%G2; [by left|]. destruct (G1 _ _ Hc) as [Hl|[? P1]]; [left; auto|right; split; [done|auto]].
Qed.
Lemma faithful_sub s s' : ac_users s' = ac_users s -> ac_sessions s' ⊆ ac_sessions s -> ac_challenges s' ⊆ ac_challenges s -> faithful s s'.
Proof. intros Eu Hs Hc. unfold faithful, pw. rewrite Eu. split; intros tok x Hx; [|right]; (split; [by eapply lookup_weaken|done]). Qed.
Lemma faithful_audit l s : faithful s (ac_set_audit l s).
Proof. by apply faithful_sub. Qed.
Lemma faithful_alter id f s : (forall u, an_password (f u) = an_password u) -> faithful s (alter_user id f s).
Proof.
  intros Hf. assert (forall u, pw u (alter_user id f s) = pw u s) as E.
  { intros u. unfold pw, alter_user. simpl. destruct (decide (u = id)) as [->|]; [|by rewrite lookup_alter_ne].
    rewrite lookup_alter_eq. destruct (ac_users s !! id); [|done]. simpl. by rewrite Hf. }
  split; intros tok x Hx; [|right]; (split; [done|intros p; by rewrite E]).
Qed.
Lemma faithful_delete id s : faithful s (delete_user id s).
Proof.
  assert (forall u, u <> id -> pw u (delete_user id s) = pw u s) as E by (intros u Hu; unfold pw; simpl; by rewrite lookup_delete_ne).
  split; intros tok x; simpl; intros [Hx Hn]%map_lookup_filter_Some; simpl in Hn.
  - destruct (bool_decide (ss_user x = id)) eqn:Eb; [done|]. apply bool_decide_eq_false in Eb. split; [done|]. intros p. by rewrite E.
  - destruct (bool_decide (ch_user x = id)) eqn:Eb; [done|]. apply bool_decide_eq_false in Eb. right. split; [done|]. intros p. by rewrite E.
Qed.
Lemma faithful_create id u s : ac_users s !! id = None -> faithful s (ac_set_users (<[id := u]> (ac_users s)) s).
Proof.
  intros Hn. assert (forall v p, pw v s = Some p -> pw v (ac_set_users (<[id := u]> (ac_users s)) s) = Some p) as E.
  { intros v p. unfold pw. simpl. destruct (decide (v = id)) as [->|]; [by rewrite Hn|by rewrite lookup_insert_ne]. }
  split; intros tok x Hx; [|right]; (split; [done|auto]).
Qed.
Ltac faithful_leaf :=
  cbv beta; lazymatch goal with
  | |- faithful ?s ?s => reflexivity
  | |- faithful _ (ac_set_audit _ _) => apply faithful_audit
  | |- faithful _ (ac_set_users _ _) => by apply faithful_create
  | |- faithful _ (alter_user _ _ _) => by apply faithful_alter
  | |- faithful _ (delete_user _ _) => apply faithful_delete
  | |- faithful _ _ => apply faithful_sub; [reflexivity|simpl; first [reflexivity|apply map_filter_subseteq|apply delete_subseteq]..]
  end.
Lemma deleteRow_faithful id : keeps faithful (deleteRow id).
Proof. intros s a s'. unfold deleteRow. destruct (_ && _); intros [= <- <-]; [apply faithful_delete|done]. Qed.
Lemma identity_write_faithful now id name email display role status : keeps faithful (identity_write now id name email display role status).
Proof.
  intros s a s'. unfold identity_write. destruct (ac_users s !! id); [|by intros [= <- <-]]. destruct (_ || _); [|by intros [= <- <-]].
  destruct (name_taken _ _ _); [done|]. intros [= <- <-]. by apply faithful_alter.
Qed.
Ltac faithful_op := keep_op faithful_leaf; try first [apply deleteRow_faithful|apply identity_write_faithful].

(** A new password, once every session and challenge of the account is gone. *)
Lemma faithful_password user s s1 : (forall v, v <> user -> ac_users s1 !! v = ac_users s !! v) ->
  ac_sessions s1 = ac_sessions s -> ac_challenges s1 = ac_challenges s ->
  faithful s (drop_devices (fun d => bool_decide (dv_user d = user)) (drop_challenges (fun c => bool_decide (ch_user c = user)) (DeleteUserSessions user s1))).
Proof.
  intros Hu Es Ec. set (s' := drop_devices _ _). assert (forall u, u <> user -> pw u s' = pw u s) as E by (intros u Hn; unfold pw; simpl; by rewrite Hu).
  split; intros tok x; simpl; rewrite ?Es, ?Ec; intros [Hx Hn]%map_lookup_filter_Some; simpl in Hn; apply bool_decide_eq_false in Hn.
  - split; [done|]. intros p. by rewrite E.
  - right. split; [done|]. intros p. by rewrite E.
Qed.
Lemma replace_faithful now user old new ip forced details : keeps faithful (replacePassword now user old new ip forced details).
Proof.
  intros s a s'. unfold replacePassword, withPassword, revokePasswordGrants, audited, mbind, atx_bind, aget, arequire, aput. simpl.
  destruct (match ac_users s !! user with Some u => _ | None => _ end); [|done]. simpl.
  destruct (match ac_users s !! user with Some u => _ | None => _ end); [|done]. simpl. intros [= <- <-].
  etrans; [|apply faithful_audit]. apply faithful_password; [|done|done]. intros v Hv. simpl. by apply lookup_alter_ne.
Qed.
Lemma reset_faithful now user new s : faithful s (ResetAdminPassword now user new s).2.
Proof.
  unfold ResetAdminPassword. apply keeps_commit; [apply _|]. intros s0 a s'. unfold revokePasswordGrants, audited, mbind, atx_bind, aget, arequire, aput. simpl.
  destruct (match ac_users s0 !! user with Some u => _ | None => _ end); [|done]. simpl. intros [= <- <-].
  etrans; [|apply faithful_audit]. apply faithful_password; [|done|done]. intros v Hv. simpl. by apply lookup_alter_ne.
Qed.
Lemma challenge_faithful token c password s : faithful s (CreateMFAChallenge token c password s).2.
Proof.
  unfold CreateMFAChallenge. apply keeps_commit; [apply _|]. intros s0 a s'. unfold withPassword, mbind, atx_bind, aget, arequire, aput. simpl.
  destruct (ac_users s0 !! ch_user c) as [u|] eqn:Eu; [|done]. case_bool_decide as Ep; [|done]. case_bool_decide; simpl; [|done].
  destruct (stillSignsIn _ _ _ s0) as [[[] s1]|e] eqn:Es; [|done].
  apply stillSignsIn_same in Es as ->. case_bool_decide as Et; [|done]. simpl. intros [= <- <-]. split; [done|].
  intros tok x. simpl. destruct (decide (tok = token)) as [->|Hne]; [|rewrite lookup_insert_ne by done; by right].
  rewrite lookup_insert_eq. intros [= <-]. left. unfold pw. simpl. rewrite Eu. simpl. by rewrite Ep.
Qed.

Lemma webhook_faithful sha_hex now fresh p id s : faithful s (HandleSyncWebhook sha_hex now fresh p id s).2.
Proof.
  apply keeps_webhook; [apply _|intros; faithful_leaf|unfold claim_event; keep faithful_leaf|].
  repeat autounfold with accounts. keep faithful_leaf; try first [apply deleteRow_faithful|apply identity_write_faithful].
Qed.
Lemma astep_faithful sha_hex now s l s' : astep sha_hex now s l s' -> match l with Inserted _ _ _ => True | _ => faithful s s' end.
Proof.
  destruct 1; try exact I.
  all: lazymatch goal with
       | |- faithful _ (ResetAdminPassword _ _ _ _).2 => apply reset_faithful
       | |- faithful _ (CreateMFAChallenge _ _ _ _).2 => apply challenge_faithful
       | |- faithful _ (ChangePassword _ _ _ _ _ _).2 => unfold ChangePassword; apply keeps_commit; [apply _|apply replace_faithful]
       | |- faithful _ (CompletePasswordChange _ _ _ _ _ _).2 => unfold CompletePasswordChange; apply keeps_commit; [apply _|apply replace_faithful]
       | _ => idtac end.
  all: try (faithful_op; fail).
  - unfold GetSession. destruct (ac_sessions s !! token) as [x|]; [|done]. destruct (_ <? _); [|done].
    apply faithful_sub; [done|apply delete_subseteq|done].
  - match goal with H : HandleSyncWebhook _ _ ?f ?p ?id _ = _ |- _ => pose proof (webhook_faithful sha_hex now f p id s) as Hc; by rewrite H in Hc end.
  - match goal with H : HandleSyncWebhook _ _ ?f ?p ?id _ = _ |- _ => pose proof (webhook_faithful sha_hex now f p id s) as Hc; by rewrite H in Hc end.
Qed.

(** Every session was opened, and every challenge set, under its account's password as it is now. *)
Definition proven (w : World) : Prop :=
  (forall tok x, ac_sessions (w_db w) !! tok = Some x ->
     exists p, w_granted w !! tok = Some p /\ pw (ss_user x) (w_db w) = Some p) /\
  (forall tok c, ac_challenges (w_db w) !! tok = Some c -> pw (ch_user c) (w_db w) = Some (ch_password c)).

Lemma proven_quiet w now s' pending swept applied : faithful (w_db w) s' -> proven w ->
  proven (mkWorld s' now (w_granted w) pending swept applied).
Proof.
  intros [Hs Hc] [H1 H2]. split; simpl.
  - intros tok x (Hx & Hp)%Hs. destruct (H1 _ _ Hx) as (p & Hg & E). exists p. auto.
  - intros tok c [Hl|[Hc' Hp]]%Hc; [done|]. apply Hp. by eapply H2.
Qed.
Lemma wstep_proven sha_hex w w' : wstep sha_hex w w' -> proven w -> proven w'.
Proof.
  destruct 1 as [now l s' Hn He Hs]. intros H. pose proof (astep_faithful _ _ _ _ _ Hs) as Hf.
  destruct l as [|token x password|token x| |provider sid until|provider sid|p| |]; simpl in *; try (by apply proven_quiet).
  inversion Hs; subst.
  match goal with H : insert_session _ _ _ _ _ = _ |- _ => apply insert_session_ok in H as (-> & _ & Ep) end. destruct H as [H1 H2]. split; simpl.
  - intros tok y. destruct (decide (tok = token)) as [->|Hne].
    + rewrite !lookup_insert_eq. intros [= <-]. exists password. done.
    + rewrite !lookup_insert_ne by done. apply H1.
  - exact H2.
Qed.

(** ** The identity provider's events *)

Definition unclaimed_events (s s' : Accounts) : Prop := ac_events s' = ac_events s /\ ac_subjects s' = ac_subjects s.
#[export] Instance unclaimed_preorder : PreOrder unclaimed_events.
Proof. split; [done|]. intros s1 s2 s3 [? ?] [? ?]. split; congruence. Qed.
Ltac events_leaf := first [by split|done].
Lemma deleteRow_events id : keeps unclaimed_events (deleteRow id).
Proof. intros s a s'. unfold deleteRow. destruct (_ && _); intros [= <- <-]; done. Qed.
Lemma identity_write_events now id name email display role status : keeps unclaimed_events (identity_write now id name email display role status).
Proof.
  intros s a s'. unfold identity_write. destruct (ac_users s !! id); [|by intros [= <- <-]]. destruct (_ || _); [|by intros [= <- <-]].
  destruct (name_taken _ _ _); [done|]. by intros [= <- <-].
Qed.
Ltac events_op := keep_op events_leaf; try first [apply deleteRow_events|apply identity_write_events].

Definition within (now : time) (p : SyncPayload) : Prop := unix (now - DirectoryEventWindow) <= sp_timestamp p.
Lemma window_unix now t : Z.abs (now - t * Second) <= DirectoryEventWindow -> unix (now - DirectoryEventWindow) <= t.
Proof. intros H. unfold unix. apply Z.div_le_upper_bound; [done|]. lia. Qed.

(** An applied event was in the window, new, and not behind its subject's watermark. *)
Lemma webhook_applied sha_hex now fresh p id s s' : HandleSyncWebhook sha_hex now fresh p id s = (Ok tt, s') ->
  within now p /\
  (forall at_, ac_events s !! (kysignon, sp_event_id p) = Some at_ -> at_ < unix (now - DirectoryEventWindow)) /\
  (forall w, ac_subjects s !! (kysignon, sp_id p) = Some w -> w <= sp_timestamp p) /\
  ac_events s' = <[(kysignon, sp_event_id p) := sp_timestamp p]> (filter (fun kv => unix (now - DirectoryEventWindow) <= kv.2) (ac_events s)) /\
  ac_subjects s' = <[(kysignon, sp_id p) := sp_timestamp p]> (ac_subjects s).
Proof.
  unfold HandleSyncWebhook. destruct (_ || (DirectoryEventWindow <? _)) eqn:E1; [done|]. match goal with |- context [if ?b then _ else _] => destruct b; [done|] end.
  apply orb_false_iff in E1 as [_ Ew]. apply Z.ltb_ge, window_unix in Ew.
  assert (keeps unclaimed_events (apply_event sha_hex now fresh p id)) as Ha.
  { repeat autounfold with accounts. keep events_leaf; try first [apply deleteRow_events|apply identity_write_events]. }
  destruct (ApplyDirectoryEvent sha_hex now fresh p id s) as [r s1] eqn:E. intros H. assert (r = Ok tt /\ s1 = s') as [-> ->] by (destruct r as [[]|[]]; naive_solver).
  clear H. revert E. unfold ApplyDirectoryEvent, acommit, claim_event, mbind, atx_bind, aget, arequire, aput. simpl.
  case_bool_decide as En; simpl; [|done].
  destruct (match ac_subjects s !! _ with Some w => _ | None => _ end) eqn:Es; simpl; [|done].
  destruct (apply_event sha_hex now fresh p id _) as [[[] s2]|e] eqn:E2; [|done]. intros [= <-].
  apply Ha in E2 as [Ee Eu]. simpl in Ee, Eu. split_and!; [done| | |done|done].
  - intros at_ Hat. destruct (decide (unix (now - DirectoryEventWindow) <= at_)); [|lia]. exfalso.
    rewrite map_lookup_filter_None in En. destruct En as [En|En]; [by rewrite Hat in En|]. by apply (En at_ Hat).
  - intros w Hw. rewrite Hw in Es. by apply Z.leb_le in Es.
Qed.
Lemma webhook_refused sha_hex now fresh p id s e s' : HandleSyncWebhook sha_hex now fresh p id s = (Fail e, s') -> unclaimed_events s s'.
Proof.
  unfold HandleSyncWebhook. do 2 (match goal with |- context [if ?b then _ else _] => destruct b; [by intros [= _ <-]|] end).
  unfold ApplyDirectoryEvent, acommit. destruct ((claim_event _ _ _ _ _ ≫= _) s) as [[[] s1]|[]]; by intros [= _ <-].
Qed.
Lemma astep_events sha_hex now s l s' : astep sha_hex now s l s' -> match l with Event _ => True | _ => unclaimed_events s s' end.
Proof.
  destruct 1; try exact I.
  all: try (events_op; fail).
  - match goal with H : insert_session _ _ _ _ _ = _ |- _ => by apply insert_session_ok in H as (-> & _) end.
  - unfold GetSession. destruct (ac_sessions s !! token) as [x|]; [|done]. by destruct (_ <? _).
  - by eapply webhook_refused.
Qed.

(** An applied event is remembered while its timestamp is acceptable, and its subject's watermark has reached it. *)
Definition remembered (w : World) : Prop := forall p, p ∈ w_applied w ->
  (ac_events (w_db w) !! (kysignon, sp_event_id p) = Some (sp_timestamp p) \/ sp_timestamp p < unix (w_clock w - DirectoryEventWindow)) /\
  exists m, ac_subjects (w_db w) !! (kysignon, sp_id p) = Some m /\ sp_timestamp p <= m.
(** No event twice, none behind an earlier one of its subject. *)
Definition in_order (l : list SyncPayload) : Prop := forall i j p q, (i < j)%nat -> l !! i = Some p -> l !! j = Some q ->
  (sp_event_id p, sp_timestamp p) <> (sp_event_id q, sp_timestamp q) /\ (sp_id p = sp_id q -> sp_timestamp p <= sp_timestamp q).

Lemma unix_mono a b : a <= b -> unix a <= unix b.
Proof. intros H. unfold unix. apply Z.div_le_mono; [done|lia]. Qed.
Lemma remembered_quiet w now s' granted pending swept : w_clock w <= now -> unclaimed_events (w_db w) s' -> remembered w ->
  remembered (mkWorld s' now granted pending swept (w_applied w)).
Proof.
  intros Hn [Ee Es] H p Hp. destruct (H p Hp) as [Hr Hm]. simpl. rewrite Ee, Es. split; [|done]. destruct Hr as [|Hr]; [by left|right].
  eapply Z.lt_le_trans; [exact Hr|]. apply unix_mono. lia.
Qed.
Lemma in_order_snoc l q : in_order l -> (forall p, p ∈ l ->
    (sp_event_id p, sp_timestamp p) <> (sp_event_id q, sp_timestamp q) /\ (sp_id p = sp_id q -> sp_timestamp p <= sp_timestamp q)) -> in_order (l ++ [q]).
Proof.
  intros Hl Hq i j x y Hij Hi Hj. apply lookup_app_Some in Hj as [Hj|[Hlen Hj]].
  - rewrite lookup_app_l in Hi by (apply lookup_lt_Some in Hj; lia). by eapply Hl.
  - apply list_lookup_singleton_Some in Hj as [Hj <-]. rewrite lookup_app_l in Hi by lia. apply Hq. by eapply list_elem_of_lookup_2.
Qed.
Lemma applied_once w now p s' : w_clock w <= now -> remembered w ->
  within now p ->
  (forall at_, ac_events (w_db w) !! (kysignon, sp_event_id p) = Some at_ -> at_ < unix (now - DirectoryEventWindow)) ->
  (forall m, ac_subjects (w_db w) !! (kysignon, sp_id p) = Some m -> m <= sp_timestamp p) ->
  ac_events s' = <[(kysignon, sp_event_id p) := sp_timestamp p]> (filter (fun kv => unix (now - DirectoryEventWindow) <= kv.2) (ac_events (w_db w))) ->
  ac_subjects s' = <[(kysignon, sp_id p) := sp_timestamp p]> (ac_subjects (w_db w)) ->
  remembered (noted now (Event p) s' w) /\ (forall q, q ∈ w_applied w ->
    (sp_event_id q, sp_timestamp q) <> (sp_event_id p, sp_timestamp p) /\ (sp_id q = sp_id p -> sp_timestamp q <= sp_timestamp p)).
Proof.
  intros Hn Hrem Hw Hnew Hmark Ee Es. unfold within in Hw.
  assert (unix (w_clock w - DirectoryEventWindow) <= unix (now - DirectoryEventWindow)) as Hc by (apply unix_mono; lia).
  assert (forall q, q ∈ w_applied w -> (sp_event_id q, sp_timestamp q) <> (sp_event_id p, sp_timestamp p) /\ (sp_id q = sp_id p -> sp_timestamp q <= sp_timestamp p)) as Hq.
  { intros q Hq. destruct (Hrem q Hq) as [Hr (m & Hm & Hle)]. split.
    - intros [= Ei Et]. destruct Hr as [Hr|Hr]; [|lia]. rewrite Ei in Hr. apply Hnew in Hr. lia.
    - intros Ei. rewrite Ei in Hm. apply Hmark in Hm. lia. }
  split; [|exact Hq]. intros q [Hin|Hin]%elem_of_app; simpl.
  - destruct (Hrem q Hin) as [Hr (m & Hm & Hle)]. split.
    + destruct (decide (sp_timestamp q < unix (now - DirectoryEventWindow))); [by right|left]. destruct Hr as [Hr|Hr]; [|lia].
      rewrite Ee. destruct (decide (sp_event_id q = sp_event_id p)) as [Ei|Hne].
      { rewrite Ei in Hr. apply Hnew in Hr. lia. }
      rewrite lookup_insert_ne by congruence. apply map_lookup_filter_Some. split; [done|]. simpl. lia.
    + rewrite Es. destruct (decide (sp_id q = sp_id p)) as [Ei|Hne].
      * rewrite Ei, lookup_insert_eq. exists (sp_timestamp p). split; [done|]. by apply Hq.
      * rewrite lookup_insert_ne by congruence. by exists m.
  - apply list_elem_of_singleton in Hin as ->. split; [left; rewrite Ee; apply lookup_insert_eq|].
    exists (sp_timestamp p). split; [rewrite Es; apply lookup_insert_eq|done].
Qed.
Lemma wstep_events sha_hex w w' : wstep sha_hex w w' -> remembered w /\ in_order (w_applied w) -> remembered w' /\ in_order (w_applied w').
Proof.
  destruct 1 as [now l s' Hn He Hs]. intros [H Ho]. pose proof (astep_events _ _ _ _ _ Hs) as Hu.
  destruct l as [|token x password|token x| |provider sid until|provider sid|p| |]; simpl in *; try (split; [by apply remembered_quiet|done]).
  inversion Hs; subst. match goal with H : HandleSyncWebhook _ _ _ _ _ _ = _ |- _ => apply webhook_applied in H as (? & ? & ? & ? & ?) end.
  edestruct (applied_once w now p s') as [Hr Hq]; [done..|]. split; [done|]. by apply in_order_snoc.
Qed.

(** ** Theorems *)

Section Theorems.
Context (sha_hex : string -> string).
Notation reaches := (rtc (wstep sha_hex)).

Lemma reaches_inv w w' : starts w -> reaches w w' -> fenced_out w' /\ proven w' /\ remembered w' /\ in_order (w_applied w').
Proof.
  intros (Es & Ec & Ep & Ew & Ea). assert (fenced_out w /\ proven w /\ remembered w /\ in_order (w_applied w)) as H0.
  { split_and!.
    - intros key Hk. rewrite Ew in Hk. set_solver.
    - split; [intros tok x; rewrite Es|intros tok c; rewrite Ec]; by rewrite lookup_empty.
    - intros p. rewrite Ea. by rewrite elem_of_nil.
    - intros i j p q _. by rewrite Ea. }
  clear Es Ec Ep Ew Ea. intros Hr. induction Hr as [|w1 w2 w3 Hstep _ IH]; [done|]. destruct H0 as (H1 & H2 & H3). apply IH; clear IH.
  pose proof (wstep_events _ _ _ Hstep H3). split; [by eapply wstep_fenced_out|]. split; [by eapply wstep_proven|done].
Qed.

(** C27: However sign-ins, logouts and everything else interleave, once a provider's logout has deleted
    the sessions of a login and while the fence it left stands, no session of that login exists that
    its sign-in has confirmed; and a sign-in that still has to confirm one is refused and the session
    deleted. *)
Theorem sso_logout_holds w w' provider sid tok x now :
  starts w -> reaches w w' -> (provider, sid) ∈ w_swept w' -> provider <> "" -> sid <> "" ->
  w_clock w' <= now -> fence_stands now (provider, sid) (w_db w') = true ->
  ac_sessions (w_db w') !! tok = Some x -> ss_provider x = provider -> ss_sid x = sid ->
  w_pending w' !! tok = Some x /\
  exists s', confirm_session now tok x (w_db w') = (Fail ASessionEnded, s') /\ ac_sessions s' !! tok = None.
Proof.
  intros H0 Hr Hk H1 H2 Hn Hf Hx Ep Es. destruct (reaches_inv _ _ H0 Hr) as (H & _ & _). split.
  - eapply (H (provider, sid)); [done|done|done|by eapply stands_later|done|by rewrite Ep, Es].
  - exists (DeleteSession tok (w_db w')). split; [|apply lookup_delete_eq]. unfold confirm_session. rewrite Ep, bool_decide_false by done.
    assert (sid_fenced now x (w_db w') = true) as ->; [|done]. unfold sid_fenced. rewrite Ep, Es, bool_decide_false by done. exact Hf.
Qed.

(** C28: However the steps interleave, every session was opened and every pending second factor was
    asked under the password its account has now: a password change, forced replacement or operator
    reset leaves none of the earlier ones. *)
Theorem sessions_follow_password w w' :
  starts w -> reaches w w' ->
  (forall tok x, ac_sessions (w_db w') !! tok = Some x ->
     exists u, ac_users (w_db w') !! ss_user x = Some u /\ w_granted w' !! tok = Some (an_password u)) /\
  (forall tok c, ac_challenges (w_db w') !! tok = Some c ->
     exists u, ac_users (w_db w') !! ch_user c = Some u /\ an_password u = ch_password c).
Proof.
  intros H0 Hr. destruct (reaches_inv _ _ H0 Hr) as (_ & [H1 H2] & _). unfold pw in *. split.
  - intros tok x (p & Hg & E)%H1. destruct (ac_users (w_db w') !! ss_user x) as [u|]; [|done]. injection E as <-. by exists u.
  - intros tok c E%H2. destruct (ac_users (w_db w') !! ch_user c) as [u|]; [|done]. injection E as <-. by exists u.
Qed.

(** C29: Of the signed events of the identity provider, whatever is replayed and in whatever order they
    come, none is applied twice and none after a later one for the same person. *)
Theorem directory_events_in_order w w' i j p q :
  starts w -> reaches w w' -> (i < j)%nat -> w_applied w' !! i = Some p -> w_applied w' !! j = Some q ->
  (sp_event_id p, sp_timestamp p) <> (sp_event_id q, sp_timestamp q) /\ (sp_id p = sp_id q -> sp_timestamp p <= sp_timestamp q).
Proof. intros H0 Hr. destruct (reaches_inv _ _ H0 Hr) as (_ & _ & _ & H). apply H. Qed.
End Theorems.

(** ** Runs *)

Section Runs.
(** A local account, an account of the provider, and nobody signed in. *)
Definition aw_local : Account := mkAccount "ann" "" "Ann" "h1" "admin" "active" "local" "" "" false "[]" "" false 0 0 0 None.
Definition aw_sso : Account := mkAccount "bob" "" "Bob" "" "user" "active" kysignon "sub" "" false "[]" "" false 0 0 0 None.
Definition aw_accounts : Accounts :=
  mkAccounts {["u" := aw_local; "k" := aw_sso]} {[(kysignon, "sub") := "k"]} ∅ ∅ ∅ ∅ ∅ {["org" := "Org"]} ∅ ∅ ∅ ∅ ∅ ∅ ∅ ∅ None [].
Definition aw_start : World := mkWorld aw_accounts 0 ∅ ∅ ∅ [].
Definition aw_sid : Session := mkSession "k" "" "" 0 (1000 * Second) kysignon "9".
Definition aw_plain : Session := mkSession "u" "" "" 0 (1000 * Second) "" "".

Definition aw_insert now tok x subject password (w : World) : World :=
  noted now (Inserted tok x password) (acommit (insert_session tok x subject password) (w_db w)).2 w.
Definition aw_logout (w : World) : World :=
  let w1 := noted 1 (Fenced kysignon "9" 100) (fence_sid kysignon "9" 100 (w_db w)) w in
  noted 2 (Swept kysignon "9") (end_sessions kysignon "9" (w_db w1)) w1.
Definition aw_out : World := aw_insert 3 "t" aw_sid "sub" "" (aw_logout aw_start).
Definition aw_before : World := aw_insert 1 "a" aw_plain "" "h1" aw_start.
Definition aw_changed : World := noted 2 Quiet (ChangePassword 2 "u" "h1" "h2" "" (w_db aw_before)).2 aw_before.
Definition aw_after : World := aw_insert 3 "b" aw_plain "" "h2" aw_changed.

Definition aw_payload kind event at_ : SyncPayload := mkPayload kind event "sub" "bob" "" "Bob" "user" "active" at_.
Definition aw_event p (w : World) : World := noted 5 (Event p) (HandleSyncWebhook id 5 (fun _ => "f") p "n" (w_db w)).2 w.
Definition aw_first : SyncPayload := aw_payload "user.updated" "e1" 1.
Definition aw_second : SyncPayload := aw_payload "user.deactivated" "e2" 2.
Definition aw_events : World := aw_event aw_second (aw_event aw_first aw_start).

Lemma aw_starts : starts aw_start.
Proof. by vm_compute. Qed.
Definition aw_works {A} (m : atx A) (s : Accounts) : bool := match m s with Ok _ => true | Fail _ => false end.
Lemma aw_insert_step now tok x subject password w : w_clock w <= now -> aw_works (insert_session tok x subject password) (w_db w) = true ->
  wstep id w (aw_insert now tok x subject password w).
Proof.
  intros Hn H. apply wstep_at; [done|exact I|]. apply (st_insert _ _ _ _ _ subject). unfold aw_works, acommit in *.
  by destruct (insert_session _ _ _ _ _) as [[[] s']|].
Qed.
Lemma aw_event_step p w : w_clock w <= 5 -> (HandleSyncWebhook id 5 (fun _ => "f") p "n" (w_db w)).1 = Ok tt -> wstep id w (aw_event p w).
Proof.
  intros Hn H. apply wstep_at; [done|exact I|]. apply (st_event _ _ _ (fun _ => "f") _ "n"). by destruct (HandleSyncWebhook _ _ _ _ _ _); simplify_eq/=.
Qed.
Lemma aw_out_reached : rtc (wstep id) aw_start aw_out.
Proof.
  eapply rtc_l; [apply (wstep_at _ _ 1 (Fenced kysignon "9" 100)); [done|exact I|apply st_fence]|].
  eapply rtc_l; [apply (wstep_at _ _ 2 (Swept kysignon "9")); [done|exact I|apply st_end_sessions]|].
  eapply rtc_l; [apply (aw_insert_step 3 "t" aw_sid "sub" "" (aw_logout aw_start)); by vm_compute|]. apply rtc_refl.
Qed.
Lemma aw_after_reached : rtc (wstep id) aw_start aw_after.
Proof.
  eapply rtc_l; [apply (aw_insert_step 1 "a" aw_plain "" "h1"); by vm_compute|].
  eapply rtc_l; [eapply (wstep_at _ _ 2 Quiet); [done|exact I|apply (st_change _ _ _ "u" "h1" "h2" "")]|].
  eapply rtc_l; [apply (aw_insert_step 3 "b" aw_plain "" "h2" aw_changed); by vm_compute|]. apply rtc_refl.
Qed.
Lemma aw_events_reached : rtc (wstep id) aw_start aw_events.
Proof.
  eapply rtc_l; [apply (aw_event_step aw_first); by vm_compute|]. eapply rtc_l; [apply (aw_event_step aw_second); by vm_compute|]. apply rtc_refl.
Qed.

Lemma sso_logout_holds_witness :
  w_pending aw_out !! "t" = Some aw_sid /\
  exists s', confirm_session 4 "t" aw_sid (w_db aw_out) = (Fail ASessionEnded, s') /\ ac_sessions s' !! "t" = None.
Proof.
  apply (sso_logout_holds id aw_start aw_out kysignon "9" "t" aw_sid 4 aw_starts aw_out_reached); by vm_compute.
Defined.
Lemma sessions_follow_password_witness :
  ac_sessions (w_db aw_after) !! "a" = None /\
  exists u, ac_users (w_db aw_after) !! "u" = Some u /\ w_granted aw_after !! "b" = Some (an_password u).
Proof.
  split; [by vm_compute|]. by apply (proj1 (sessions_follow_password id aw_start aw_after aw_starts aw_after_reached) "b" aw_plain).
Defined.
Lemma directory_events_in_order_witness :
  (sp_event_id aw_first, sp_timestamp aw_first) <> (sp_event_id aw_second, sp_timestamp aw_second) /\
  (sp_id aw_first = sp_id aw_second -> sp_timestamp aw_first <= sp_timestamp aw_second).
Proof.
  apply (directory_events_in_order id aw_start aw_events 0 1 aw_first aw_second aw_starts aw_events_reached); [lia|by vm_compute..].
Defined.
End Runs.
