(* ===== verification/AdminSafety.v ===== *)
(** * Administrators and what they created

    Over every step of [AccountSteps]: the agent tokens, status feeds and open pairing codes of an
    organization belong to its active administrators, and no local change takes the last one. *)
From Stdlib Require Import ZArith Lia Ascii String.
From stdpp Require Import base gmap sets strings list sorting.
From S2P Require Import Prelude.
From S2P Require Import Regex.
From S2P Require Import Text.
From S2P Require Import Frame.
From S2P Require Import Permissions.
From S2P Require Import Store.
From S2P Require Import TenantAccess.
From S2P Require Import Accounts.
From S2P Require Import Memberships.
From S2P Require Import AccountSteps.

(** ** Who holds a credential *)

Definition token_holder (c : Credential) : option (string * string) := if ScopeIsAgent c && live c then Some (cr_org c, cr_by c) else None.
Definition feed_holder (c : Credential) : option (string * string) := if live c then Some (cr_org c, cr_by c) else None.
Definition code_holder (p : Pairing) : option (string * string) := if unclaimed p then Some (pg_org p, pg_by p) else None.

Definition held {A} (h : A -> option (string * string)) (m : gmap string A) (ou : string * string) : Prop :=
  exists k x, m !! k = Some x /\ h x = Some ou.
Definition granted (ou : string * string) (s : Accounts) : Prop :=
  held token_holder (ac_tokens s) ou \/ held feed_holder (ac_feeds s) ou \/ held code_holder (ac_pairings s) ou.
Definition backed (s : Accounts) : Prop := forall ou, granted ou s -> admin_of ou.1 ou.2 s = true.

Lemma has_admin_true org s : has_admin org s = true <-> exists user, admin_of org user s = true.
Proof.
  unfold has_admin. rewrite existsb_exists. split.
  - intros ([[o u] m] & _ & [E H]%andb_true_iff). apply bool_decide_eq_true in E. simpl in *. subst. by exists u.
  - intros [u H]. destruct (ac_members s !! (org, u)) as [m|] eqn:Em; [|by unfold admin_of in H; rewrite Em in H].
    exists ((org, u), m). split; [by apply list_elem_of_In, elem_of_map_to_list|]. simpl. by rewrite bool_decide_true.
Qed.

(** ** Steps that take nothing away *)

Definition held_in {A} (h : A -> option (string * string)) (m m' : gmap string A) : Prop := forall ou, held h m' ou -> held h m ou.
Lemma held_in_refl {A} (h : A -> option (string * string)) m : held_in h m m.
Proof. by intros ou. Qed.
Lemma held_in_subseteq {A} (h : A -> option (string * string)) m m' : m' ⊆ m -> held_in h m m'.
Proof. intros Hs ou (k & x & Hk & Hx). exists k, x. split; [by eapply lookup_weaken|done]. Qed.
Lemma held_in_none {A} (h : A -> option (string * string)) m k x : h x = None -> held_in h m (<[k := x]> m).
Proof.
  intros Hn ou (k' & y & Hk & Hy). destruct (decide (k' = k)) as [->|Hne]; [rewrite lookup_insert_eq in Hk; simplify_eq|].
  rewrite lookup_insert_ne in Hk by done. by exists k', y.
Qed.
Lemma held_in_alter {A} (h : A -> option (string * string)) m k f : (forall x, h (f x) = h x \/ h (f x) = None) -> held_in h m (alter f k m).
Proof.
  intros Hf ou (k' & y & Hk & Hy). apply lookup_alter_Some in Hk as [(<- & z & Hz & ->)|[Hne Hk]]; [exists k, z|exists k', y; done].
  split; [done|]. destruct (Hf z); congruence.
Qed.
Lemma held_in_filter {A} (h : A -> option (string * string)) (P : string * A -> Prop) `{!forall x, Decision (P x)} m : held_in h m (filter P m).
Proof. apply held_in_subseteq, map_filter_subseteq. Qed.
Lemma held_in_delete {A} (h : A -> option (string * string)) k m : held_in h m (delete k m).
Proof. apply held_in_subseteq, delete_subseteq. Qed.
#[export] Hint Resolve held_in_refl held_in_none held_in_alter held_in_filter held_in_delete : holders.

Definition gives (s s' : Accounts) : Prop :=
  (forall o u, admin_of o u s = true -> admin_of o u s' = true) /\ (forall ou, granted ou s' -> granted ou s \/ admin_of ou.1 ou.2 s' = true).
#[export] Instance gives_preorder : PreOrder gives.
Proof.
  split; [split; auto|]. intros s1 s2 s3 [H1 G1] [H2 G2]. split; [auto|]. intros ou [Hg|Ha]%G2; [|by right].
  destruct (G1 _ Hg) as [?|?]; [by left|right; auto].
Qed.
Lemma gives_backed s s' : gives s s' -> backed s -> backed s'.
Proof. intros [H G] B ou [Hg|Ha]%G; [by apply H, B|done]. Qed.
Lemma granted_in s s' : held_in token_holder (ac_tokens s) (ac_tokens s') -> held_in feed_holder (ac_feeds s) (ac_feeds s') ->
  held_in code_holder (ac_pairings s) (ac_pairings s') -> forall ou, granted ou s' -> granted ou s.
Proof. intros Ht Hf Hp ou [?|[?|?]]; [left|right; left|right; right]; auto. Qed.

Lemma gives_held s s' : ac_users s' = ac_users s -> ac_members s' = ac_members s ->
  held_in token_holder (ac_tokens s) (ac_tokens s') -> held_in feed_holder (ac_feeds s) (ac_feeds s') -> held_in code_holder (ac_pairings s) (ac_pairings s') -> gives s s'.
Proof.
  intros Eu Em Ht Hf Hp. split; [|intros; left; by eapply granted_in]. intros o u. unfold admin_of. by rewrite Eu, Em.
Qed.
Lemma gives_alter id f s : (forall u, an_status (f u) = an_status u \/ an_status (f u) = "active") -> gives s (alter_user id f s).
Proof.
  intros Hf. split; [|by left]. intros o u. unfold admin_of. simpl. destruct (ac_members s !! (o, u)); [|done].
  destruct (decide (u = id)) as [->|]; [|by rewrite lookup_alter_ne]. rewrite lookup_alter_eq. destruct (ac_users s !! id) as [a|]; [|done]. simpl.
  rewrite !andb_true_iff, !bool_decide_eq_true. destruct (Hf a); intuition congruence.
Qed.
Lemma gives_create id u s : ac_users s !! id = None -> gives s (ac_set_users (<[id := u]> (ac_users s)) s).
Proof.
  intros Hn. split; [|by left]. intros o v. unfold admin_of. simpl. destruct (decide (v = id)) as [->|]; [|by rewrite lookup_insert_ne].
  rewrite Hn. by destruct (ac_members s !! (o, id)).
Qed.
Lemma gives_admin org user s : gives s (put_member org user RoleOrganizationAdmin "active" s).
Proof.
  split; [|by left]. intros o v. unfold admin_of. simpl. destruct (decide ((o, v) = (org, user))) as [[= -> ->]|]; [|by rewrite lookup_insert_ne].
  rewrite lookup_insert_eq. destruct (ac_members s !! (org, user)); [|done]. destruct (ac_users s !! user); [|done].
  rewrite !andb_true_iff, !bool_decide_eq_true. simpl. intuition.
Qed.
Lemma token_used now ip c : token_holder (if live c then used now ip c else c) = token_holder c.
Proof. destruct (live c) eqn:E; [|done]. unfold token_holder, live in *. simpl. by rewrite E. Qed.
Lemma token_revoked now by_ c : token_holder (revoke_row now by_ c) = None.
Proof. unfold token_holder, live. simpl. by rewrite andb_false_r. Qed.
Lemma feed_revoked now by_ c : feed_holder (revoke_row now by_ c) = None.
Proof. done. Qed.
Lemma token_revoke now by_ c : token_holder (if live c then revoke_row now by_ c else c) = token_holder c \/
  token_holder (if live c then revoke_row now by_ c else c) = None.
Proof. destruct (live c); [right; apply token_revoked|by left]. Qed.
Lemma feed_revoke now by_ c : feed_holder (if live c then revoke_row now by_ c else c) = feed_holder c \/
  feed_holder (if live c then revoke_row now by_ c else c) = None.
Proof. destruct (live c); [by right|by left]. Qed.
#[export] Hint Resolve token_used token_revoked feed_revoked token_revoke feed_revoke : holders.
Ltac gives_leaf :=
  cbv beta; lazymatch goal with
  | |- gives ?s ?s => reflexivity
  | |- gives _ (ac_set_users _ _) => by apply gives_create
  | |- gives _ (alter_user _ _ _) => apply gives_alter; intros; simpl; auto
  | |- gives _ (put_member _ _ _ _ _) => apply gives_admin
  | |- gives _ _ => apply gives_held; [reflexivity|reflexivity|simpl; auto 4 with holders..]
  end.
Ltac gives_op := keep_op gives_leaf.

(** ** The credentials of an administrator who is none any more *)

Section Revoking.
Context {A : Type} (get : Accounts -> gmap string A) (put : gmap string A -> Accounts -> Accounts).
Context (h : A -> option (string * string)) (body : string -> atx unit).
Context (Hget : forall s, put (get s) s = s) (Haudit : forall s, ac_set_audit (ac_audit s) s = s).
Context (Hlaws : forall m l s, get (ac_set_audit l (put m s)) = m /\ ac_audit (ac_set_audit l (put m s)) = l /\
  forall m' l', ac_set_audit l' (put m' (ac_set_audit l (put m s))) = ac_set_audit l' (put m' s)).
Context (Hbody : forall id s s', body id s = Ok (tt, s') -> exists m r, s' = ac_set_audit (ac_audit s ++ [r]) (put m s) /\
  forall k x, m !! k = Some x -> is_Some (h x) -> get s !! k = Some x /\ k <> id).

Lemma revoked_each ids s s' : aeach body ids s = Ok (tt, s') -> exists m l, s' = ac_set_audit (ac_audit s ++ l) (put m s) /\
  forall k x, m !! k = Some x -> is_Some (h x) -> get s !! k = Some x /\ k ∉ ids.
Proof.
  revert s. induction ids as [|id ids IH]; intros s; cbn [aeach].
  - intros [= <-]. exists (get s), []. rewrite Hget, app_nil_r, Haudit. split; [done|]. intros k x Hk _. split; [done|]. apply not_elem_of_nil.
  - unfold mbind, atx_bind. destruct (body id s) as [[[] s1]|] eqn:E; [|done]. intros (m' & l & -> & H')%IH.
    apply Hbody in E as (m & r & -> & H). destruct (Hlaws m (ac_audit s ++ [r]) s) as (Hg & Ha & Hs). exists m', (r :: l). rewrite Ha, Hs, <- app_assoc.
    split; [done|]. intros k x Hk Hx. destruct (H' _ _ Hk Hx) as [H1 H2]. rewrite Hg in H1. destruct (H _ _ H1 Hx) as [? ?].
    split; [done|]. rewrite elem_of_cons. by intros [?|?].
Qed.
Lemma revoked_all ids s s' : aeach body ids s = Ok (tt, s') -> exists m l, s' = ac_set_audit (ac_audit s ++ l) (put m s) /\
  held_in h (get s) m /\ forall ou, (forall k x, get s !! k = Some x -> h x = Some ou -> k ∈ ids) -> ~ held h m ou.
Proof.
  intros (m & l & -> & H)%revoked_each. exists m, l. split_and!; [done| |].
  - intros ou (k & x & Hk & Hx). destruct (H k x Hk) as [? _]; [by rewrite Hx|]. by exists k, x.
  - intros ou Hids (k & x & Hk & Hx). destruct (H k x Hk) as [Hs Hn]; [by rewrite Hx|]. by eapply Hn, Hids.
Qed.
End Revoking.
Lemma row_ids {A} (P : string * A -> Prop) `{!forall x, Decision (P x)} (m : gmap string A) k x :
  m !! k = Some x -> P (k, x) -> k ∈ map fst (map_to_list (filter P m)).
Proof. intros Hk HP. apply list_elem_of_fmap. exists (k, x). split; [done|]. by apply elem_of_map_to_list, map_lookup_filter_Some. Qed.

Lemma ac_eta_audit s : ac_set_audit (ac_audit s) s = s.
Proof. by destruct s. Qed.

(** Users, members and the other rows stand; the trail grows; what [P] says of the holders holds. *)
Definition revoking (s s' : Accounts) : Prop :=
  ac_users s' = ac_users s /\ ac_members s' = ac_members s /\ (exists l, ac_audit s' = ac_audit s ++ l) /\ (forall ou, granted ou s' -> granted ou s).
#[export] Instance revoking_preorder : PreOrder revoking.
Proof.
  split; [intros s; split_and!; auto; exists []; by rewrite app_nil_r|].
  intros s1 s2 s3 (E1 & E2 & [l El] & G1) (E3 & E4 & [k Ek] & G2). split_and!; [congruence|congruence| |auto]. exists (l ++ k). by rewrite Ek, El, app_assoc.
Qed.
Lemma revoking_admin s s' o u : revoking s s' -> admin_of o u s' = admin_of o u s.
Proof. intros (Eu & Em & _). unfold admin_of. by rewrite Eu, Em. Qed.

Ltac revoked_body :=
  let id := fresh "id" in intros id s0 s1; unfold audited, mbind, atx_bind, aput; simpl; intros [= <-].
Lemma revoke_tokens_ok now fresh org user actor s s' : revoke_tokens now fresh org user actor s = Ok (tt, s') ->
  revoking s s' /\ ~ held token_holder (ac_tokens s') (org, user).
Proof.
  unfold revoke_tokens, mbind at 1, atx_bind at 1, aget. intros H. apply (revoked_all ac_tokens ac_set_tokens token_holder) in H as (m & l & -> & Hin & H).
  - split; [split_and!; [done|done|by exists l|apply granted_in; auto with holders]|]. apply H. intros k x Hk Hx. eapply row_ids; [done|]. simpl. revert Hx.
    unfold token_holder, created_in. destruct (ScopeIsAgent x), (live x); try done. intros [= -> ->]. by rewrite !bool_decide_true.
  - by intros [].
  - apply ac_eta_audit.
  - done.
  - revoked_body. eexists _, _. split; [reflexivity|]. intros k x Hk [ou Hx]. apply lookup_alter_Some in Hk as [(<- & z & Hz & ->)|[Hne Hk]]; [|by split].
    exfalso. destruct (live z) eqn:El; [by rewrite token_revoked in Hx|]. unfold token_holder in Hx. by rewrite El, andb_false_r in Hx.
Qed.
Lemma revoke_feeds_ok now fresh org user actor s s' : revoke_feeds now fresh org user actor s = Ok (tt, s') ->
  revoking s s' /\ ac_tokens s' = ac_tokens s /\ ~ held feed_holder (ac_feeds s') (org, user).
Proof.
  unfold revoke_feeds, mbind at 1, atx_bind at 1, aget. intros H. apply (revoked_all ac_feeds ac_set_feeds feed_holder) in H as (m & l & -> & Hin & H).
  - split; [split_and!; [done|done|by exists l|apply granted_in; auto with holders]|]. split; [done|]. apply H. intros k x Hk Hx. eapply row_ids; [done|]. simpl. revert Hx.
    unfold feed_holder, created_in. destruct (live x); [|done]. intros [= -> ->]. by rewrite !bool_decide_true.
  - by intros [].
  - apply ac_eta_audit.
  - done.
  - revoked_body. eexists _, _. split; [reflexivity|]. intros k x Hk [ou Hx]. apply lookup_alter_Some in Hk as [(<- & z & Hz & ->)|[Hne Hk]]; [|by split].
    exfalso. destruct (live z) eqn:El; [done|]. unfold feed_holder in Hx. by rewrite El in Hx.
Qed.
Lemma revoke_pairings_ok now fresh org user actor s s' : revoke_pairings now fresh org user actor s = Ok (tt, s') ->
  revoking s s' /\ ac_tokens s' = ac_tokens s /\ ac_feeds s' = ac_feeds s /\ ~ held code_holder (ac_pairings s') (org, user).
Proof.
  unfold revoke_pairings, mbind at 1, atx_bind at 1, aget. intros H. apply (revoked_all ac_pairings ac_set_pairings code_holder) in H as (m & l & -> & Hin & H).
  - split; [split_and!; [done|done|by exists l|apply granted_in; auto with holders]|]. do 2 (split; [done|]). apply H. intros k x Hk Hx. eapply row_ids; [done|]. simpl. revert Hx.
    unfold code_holder. destruct (unclaimed x); [|done]. intros [= -> ->]. by rewrite !bool_decide_true.
  - by intros [].
  - apply ac_eta_audit.
  - done.
  - revoked_body. destruct (ac_pairings s0 !! id) as [p|] eqn:Ep; [destruct (unclaimed p) eqn:Eu|].
    + eexists _, _. split; [reflexivity|]. intros k x [Hne Hk]%lookup_delete_Some _. by split.
    + exists (ac_pairings s0). eexists. split; [by destruct s0|]. intros k x Hk [ou Hx]. split; [done|]. intros ->. unfold code_holder in Hx.
      assert (x = p) as -> by congruence. by rewrite Eu in Hx.
    + exists (ac_pairings s0). eexists. split; [by destruct s0|]. intros k x Hk _. split; [done|]. congruence.
Qed.

Lemma revokeLost_ok now fresh org user actor s s' : revokeLostAdminCredentials now fresh org user actor s = Ok (tt, s') ->
  revoking s s' /\ (granted (org, user) s' -> admin_of org user s = true).
Proof.
  unfold revokeLostAdminCredentials, mbind, atx_bind, aget. destruct (admin_of org user s); [by intros [= <-]|].
  destruct (revoke_tokens now fresh org user actor s) as [[[] s1]|] eqn:E1; [|done].
  destruct (revoke_feeds now fresh org user actor s1) as [[[] s2]|] eqn:E2; [|done]. intros E3.
  apply revoke_tokens_ok in E1 as [R1 H1]. apply revoke_feeds_ok in E2 as (R2 & Et & H2). apply revoke_pairings_ok in E3 as (R3 & Et' & Ef & H3).
  split; [etrans; [exact R1|etrans; [exact R2|exact R3]]|]. intros [?|[?|?]]; exfalso; [apply H1; congruence|apply H2; congruence|done].
Qed.

(** ** A change of who administers *)

Section Quorum.
Context (now : time) (fresh : string -> string) (user : string) (external : bool).
Let visit (org : string) : atx unit :=
  _ ← revokeLostAdminCredentials now fresh org user (if external then "directory" else "system");
  kept ← aget (has_admin org);
  if kept : bool then mret tt
  else if external then audited (lost_record now org user)
  else afail ALastAdmin.

Lemma visit_ok org s s' : visit org s = Ok (tt, s') ->
  revoking s s' /\ (granted (org, user) s' -> admin_of org user s = true) /\
  (has_admin org s' = true \/ external = true /\ exists l, ac_audit s' = ac_audit s ++ l /\ lost_record now org user ∈ l).
Proof.
  unfold visit, mbind, atx_bind, aget. destruct (revokeLostAdminCredentials _ _ _ _ _ s) as [[[] s1]|] eqn:E; [|done]. apply revokeLost_ok in E as [R H].
  destruct (has_admin org s1) eqn:Eh; [intros [= <-]; split_and!; [done|done|by left]|]. destruct external; [|done]. unfold audited, aput. intros [= <-].
  assert (revoking s (ac_set_audit (ac_audit s1 ++ [lost_record now org user]) s1)) as R'.
  { etrans; [exact R|]. split_and!; [done|done|by eexists|done]. }
  split_and!; [done|exact H|]. right. split; [done|]. destruct R as (_ & _ & [l El] & _). exists (l ++ [lost_record now org user]). simpl.
  split; [by rewrite El, app_assoc|set_solver].
Qed.
Lemma visits_ok orgs s s' : aeach visit orgs s = Ok (tt, s') ->
  revoking s s' /\ (forall org, org ∈ orgs -> granted (org, user) s' -> admin_of org user s = true) /\
  exists l, ac_audit s' = ac_audit s ++ l /\ forall org, org ∈ orgs -> has_admin org s' = true \/ external = true /\ lost_record now org user ∈ l.
Proof.
  revert s. induction orgs as [|o orgs IH]; intros s; cbn [aeach].
  - intros [= <-]. split; [done|]. split; [set_solver|]. exists []. rewrite app_nil_r. set_solver.
  - unfold mbind, atx_bind. destruct (visit o s) as [[[] s1]|] eqn:E; [|done]. intros (R' & G' & k & Ek & H')%IH. apply visit_ok in E as (R & G & H).
    assert (forall org u, admin_of org u s' = admin_of org u s1) as Ea by (intros; by apply revoking_admin).
    split; [by etrans|]. split.
    + intros org [->|Hin]%elem_of_cons Hg; [apply G; by apply R'|]. rewrite <- (revoking_admin _ _ org user R). by apply G'.
    + assert (exists l, ac_audit s1 = ac_audit s ++ l /\ (has_admin o s1 = true \/ external = true /\ lost_record now o user ∈ l)) as (l & El & Hl).
      { destruct H as [H|(? & l & El & Hl)]; [|exists l; auto]. destruct R as (_ & _ & [l El] & _). exists l. auto. }
      exists (l ++ k). split; [by rewrite Ek, El, app_assoc|]. intros org [->|Hin]%elem_of_cons.
      * destruct Hl as [Hl|[? Hl]]; [left|right; set_solver]. apply has_admin_true in Hl as [u Hu]. apply has_admin_true. exists u. by rewrite Ea.
      * destruct (H' _ Hin) as [?|[? ?]]; [by left|right; set_solver].
Qed.
End Quorum.

(** What a write may do to the account whose authority is checked after it. *)
Definition touches (user : string) (s s' : Accounts) : Prop :=
  (forall o u, u <> user -> admin_of o u s' = admin_of o u s) /\ (forall ou, granted ou s' -> granted ou s) /\ ac_audit s' = ac_audit s.
Lemma touches_refl user s : touches user s s.
Proof. by split_and!. Qed.

Lemma administers_in user s o : admin_of o user s = true -> o ∈ administers user s.
Proof.
  intros H. unfold administers. rewrite merge_sort_Permutation. destruct (ac_members s !! (o, user)) as [m|] eqn:Em; [|by unfold admin_of in H; rewrite Em in H].
  apply list_elem_of_fmap. exists ((o, user), m). split; [done|]. apply list_elem_of_In, filter_In. split; [by apply list_elem_of_In, elem_of_map_to_list|].
  simpl. by rewrite bool_decide_true.
Qed.

(** The trail grows, and an organization that loses its last administrator is recorded in it. *)
Definition loses (now : time) (s s' : Accounts) : Prop :=
  exists l, ac_audit s' = ac_audit s ++ l /\
  forall org, has_admin org s = true -> has_admin org s' = true \/ exists user, lost_record now org user ∈ l.
#[export] Instance loses_preorder now : PreOrder (loses now).
Proof.
  split; [intros s; exists []; rewrite app_nil_r; auto|]. intros s1 s2 s3 (l & El & H) (k & Ek & G). exists (l ++ k).
  split; [by rewrite Ek, El, app_assoc|]. intros org [Ho|[u Hu]]%H; [destruct (G _ Ho) as [?|[u Hu]]; [by left|]|]; right; exists u; set_solver.
Qed.
Lemma loses_gives now s s' : gives s s' -> (exists l, ac_audit s' = ac_audit s ++ l) -> loses now s s'.
Proof. intros [H _] [l El]. exists l. split; [done|]. intros org [u Hu]%has_admin_true. left. apply has_admin_true. exists u. auto. Qed.

Lemma quorum_ok now fresh user external write s s' : (forall s b s', write s = Ok (b, s') -> touches user s s') ->
  adminQuorum now fresh user external write s = Ok (tt, s') ->
  (backed s -> backed s') /\ exists l, ac_audit s' = ac_audit s ++ l /\
  forall org, has_admin org s = true -> has_admin org s' = true \/ external = true /\ lost_record now org user ∈ l.
Proof.
  intros Hw. unfold adminQuorum, mbind at 1 2 3 4, atx_bind at 1 2 3 4, aget at 1 2. destruct (write s) as [[b s1]|] eqn:Ew; [|done].
  unfold arequire. destruct b; [|done]. simpl. intros (R & G & l & El & H)%visits_ok. destruct (Hw _ _ _ Ew) as (Ha & Hg & Eau).
  assert (forall o u, admin_of o u s' = admin_of o u s1) as E1 by (intros; by apply revoking_admin). split.
  - intros B [o u] Hin. simpl. rewrite E1. assert (granted (o, u) s) as Hs by (by apply Hg, R). apply B in Hs. simpl in Hs.
    destruct (decide (u = user)) as [->|Hne]; [|by rewrite Ha]. apply G; [by apply administers_in|done].
  - exists l. split; [congruence|]. intros org Ho. destruct (decide (org ∈ administers user s)) as [Hin|Hn]; [by apply H|]. left.
    apply has_admin_true in Ho as [u Hu]. apply has_admin_true. exists u. rewrite E1, Ha; [done|]. intros ->. by apply Hn, administers_in.
Qed.
Lemma quorum_loses now fresh user external write : (forall s b s', write s = Ok (b, s') -> touches user s s') ->
  keeps (loses now) (adminQuorum now fresh user external write).
Proof.
  intros Hw s [] s' H. eapply quorum_ok in H as (_ & l & El & H); [|done]. exists l. split; [done|]. intros org [?|[_ ?]]%H; eauto.
Qed.

Lemma delete_touches id s b s' : deleteRow id s = Ok (b, s') -> touches id s s'.
Proof.
  unfold deleteRow. destruct (_ && _); intros [= _ <-]; [|apply touches_refl]. split_and!; [|apply granted_in; auto with holders|done].
  intros o u Hu. unfold admin_of. simpl. rewrite lookup_delete_ne by done. destruct (ac_members s !! (o, u)) as [m|] eqn:Em.
  - rewrite map_lookup_filter_Some_2 with (x := m); [done|done|]. simpl. by rewrite bool_decide_false.
  - by rewrite map_lookup_filter_None_2 by (by left).
Qed.
Lemma identity_touches now id name email display role status s b s' : identity_write now id name email display role status s = Ok (b, s') -> touches id s s'.
Proof.
  unfold identity_write. destruct (ac_users s !! id); [|intros [= _ <-]; apply touches_refl]. destruct (_ || _); [|intros [= _ <-]; apply touches_refl].
  destruct (name_taken _ _ _); [done|]. intros [= _ <-]. split_and!; [|done|done]. intros o u Hu. unfold admin_of. simpl. by rewrite lookup_alter_ne.
Qed.

(** ** Tenant operations *)

(** What every committed change but the identity provider's keeps. *)
Definition guarded (s s' : Accounts) : Prop := (backed s -> backed s') /\ forall org, has_admin org s = true -> has_admin org s' = true.
Lemma gives_guarded s s' : gives s s' -> guarded s s'.
Proof. intros G. split; [by apply gives_backed|]. intros org [u Hu]%has_admin_true. apply has_admin_true. exists u. by apply G. Qed.

Lemma tenant_outcome {A} a action name target (op : atx A) details now fresh s :
  (exists l, (as_tenant a action name target op details now fresh s).2 = ac_set_audit l s) \/
  exists role db x s1 l, principalRole a (view s) = Ok (role, db) /\ Allows role action = true /\ op s = Ok (x, s1) /\
    (as_tenant a action name target op details now fresh s).2 = ac_set_audit l s1.
Proof.
  unfold as_tenant. destruct (_ || _); [left; exists (ac_audit s); by rewrite ac_eta_audit|].
  destruct (principalRole a (view s)) as [[role db]|[]]; cbn [bind_res fst]; try (left; eexists; reflexivity);
    try (left; exists (ac_audit s); by rewrite ac_eta_audit).
  destruct (permit a action role (view s)) as [[]|] eqn:Ep; [|left; by eexists].
  destruct (op s) as [[x s1]|] eqn:Eo; [|left; by eexists]. right. exists role, db, x, s1. eexists. split_and!; [done| |done|reflexivity].
  unfold permit, mbind, tx_bind, ensure in Ep. by destruct (Allows role action).
Qed.
Lemma guarded_tenant {A} a action name target (op : atx A) details now fresh s :
  (forall role db x s1, principalRole a (view s) = Ok (role, db) -> Allows role action = true -> op s = Ok (x, s1) -> guarded s s1) ->
  guarded s (as_tenant a action name target op details now fresh s).2.
Proof.
  intros H. destruct (tenant_outcome a action name target op details now fresh s) as [[l ->]|(role & db & x & s1 & l & Hr & Ha & Ho & ->)].
  - apply gives_guarded. gives_leaf.
  - exact (H _ _ _ _ Hr Ha Ho).
Qed.

(** Only an organization administrator may create what is taken back. *)
Lemma creator_role role action : action ∈ [AgentTokensManage; StatusFeedsManage; ServiceTokensManage] -> Allows role action = true -> role = RoleOrganizationAdmin.
Proof.
  intros Hin. unfold Allows. intros Ha%bool_decide_eq_true. revert Ha. unfold grants. case_bool_decide as E; [done|]. clear E.
  assert (forall l : list Action, forallb (fun x => negb (bool_decide (x ∈ l))) [AgentTokensManage; StatusFeedsManage; ServiceTokensManage] = true -> action ∈ l -> role = RoleOrganizationAdmin) as K.
  { intros l Hl Ha. rewrite forallb_forall in Hl. apply list_elem_of_In, Hl in Hin. by rewrite bool_decide_true in Hin. }
  repeat (case_bool_decide; [by apply K|]). by apply K.
Qed.
Lemma creator_admin a action s role db : action ∈ [AgentTokensManage; StatusFeedsManage; ServiceTokensManage] ->
  principalRole a (view s) = Ok (role, db) -> Allows role action = true ->
  Principal a = ActorID a /\ admin_of (OrganizationID a) (ActorID a) s = true.
Proof.
  intros Hin Hr Ha. apply creator_role in Ha as ->; [|done]. revert Hr. unfold principalRole, Principal. destruct (nonempty (ServiceTokenID a)).
  - unfold serviceRole, mbind, tx_bind, gets, one. simpl. destruct (_ !! ServiceTokenID a); [|done]. unfold ensure, mret, tx_ret. simpl.
    repeat (case_bool_decide; [|try done]). all: try done. all: intros [= ? ?]; discriminate.
  - unfold mbind, tx_bind, gets, one. simpl. rewrite lookup_fmap. unfold admin_of. destruct (ac_users s !! ActorID a) as [u|]; [|done].
    simpl. destruct (ac_members s !! (OrganizationID a, ActorID a)) as [m|]; [|done]. unfold ensure, mret, tx_ret. simpl.
    destruct (bool_decide (an_status u = "active") && negb (an_must_change u) && bool_decide (m_status m = "active")) eqn:E; [|done].
    intros [= Em _]. split; [done|]. apply andb_true_iff in E as [[E1 _]%andb_true_iff E2]. rewrite Em, E1, E2. by rewrite bool_decide_true.
Qed.

(** Statements that add a row one administrator holds. *)
Definition adds (ou0 : string * string) (s s' : Accounts) : Prop :=
  ac_users s' = ac_users s /\ ac_members s' = ac_members s /\ forall ou, granted ou s' -> granted ou s \/ ou = ou0.
#[export] Instance adds_preorder ou0 : PreOrder (adds ou0).
Proof.
  split; [intros s; split_and!; auto|]. intros s1 s2 s3 (E1 & E2 & G1) (E3 & E4 & G2). split_and!; [congruence|congruence|]. intros ou [Hg|?]%G2; [|by right]. by apply G1.
Qed.
Lemma guarded_adds ou0 s s' : admin_of ou0.1 ou0.2 s = true -> adds ou0 s s' -> guarded s s'.
Proof.
  intros H0 (Eu & Em & G). apply gives_guarded. assert (forall o u, admin_of o u s' = admin_of o u s) as E by (intros; unfold admin_of; by rewrite Eu, Em).
  split; [intros o u; by rewrite E|]. intros ou [?| ->]%G; [by left|right; by rewrite E].
Qed.
Definition held_or {A} (h : A -> option (string * string)) (ou0 : string * string) (m m' : gmap string A) : Prop :=
  forall ou, held h m' ou -> held h m ou \/ ou = ou0.
Lemma held_or_in {A} (h : A -> option (string * string)) ou0 m m' : held_in h m m' -> held_or h ou0 m m'.
Proof. intros H ou Hh. left. auto. Qed.
Lemma held_or_insert {A} (h : A -> option (string * string)) ou0 m k x : h x = Some ou0 \/ h x = None -> held_or h ou0 m (<[k := x]> m).
Proof.
  intros Hx ou (k' & y & Hk & Hy). destruct (decide (k' = k)) as [->|Hne].
  - rewrite lookup_insert_eq in Hk. right. destruct Hx; congruence.
  - rewrite lookup_insert_ne in Hk by done. left. by exists k', y.
Qed.
Lemma adds_held ou0 s s' : ac_users s' = ac_users s -> ac_members s' = ac_members s ->
  held_or token_holder ou0 (ac_tokens s) (ac_tokens s') -> held_or feed_holder ou0 (ac_feeds s) (ac_feeds s') ->
  held_or code_holder ou0 (ac_pairings s) (ac_pairings s') -> adds ou0 s s'.
Proof. intros Eu Em Ht Hf Hp. split_and!; [done|done|]. intros ou [[H|H]%Ht|[[H|H]%Hf|[H|H]%Hp]]; unfold granted; tauto. Qed.
Lemma token_created org name hash by_ now scope : token_holder (mkCredential org name hash by_ now None "" None scope) = Some (org, by_) \/
  token_holder (mkCredential org name hash by_ now None "" None scope) = None.
Proof. unfold token_holder. destruct (_ && _); auto. Qed.
Lemma feed_created org name hash by_ now scope : feed_holder (mkCredential org name hash by_ now None "" None scope) = Some (org, by_) \/
  feed_holder (mkCredential org name hash by_ now None "" None scope) = None.
Proof. unfold feed_holder. by left. Qed.
#[export] Hint Resolve held_or_in held_or_insert token_created feed_created : holders.
Ltac adds_leaf := cbv beta; lazymatch goal with
  | |- adds _ ?s ?s => reflexivity
  | |- _ => apply adds_held; [reflexivity|reflexivity|simpl; auto 5 with holders..]
  end.

Lemma agent_token_guarded sha_hex now fresh a name scope id secret s : guarded s (CreateAgentToken sha_hex now fresh a name scope id secret s).2.
Proof.
  unfold CreateAgentToken. destruct (_ || _); [apply gives_guarded; done|]. apply guarded_tenant. intros role db x s1 Hr Ha Ho.
  eapply creator_admin in Ha as [Ep Ha]; [|set_solver|done]. eapply (guarded_adds (OrganizationID a, Principal a)); [by rewrite Ep|].
  assert (keeps (adds (OrganizationID a, Principal a)) (n ← aget (live_agents (OrganizationID a)); _ ← arequire (n <? maxAgentTokens) ATokenLimit;
    add_token id (mkCredential (OrganizationID a) name (sha_hex secret) (Principal a) now None "" None scope))) as K; [|by eapply K].
  unfold add_token. keep adds_leaf.
Qed.
Lemma feed_guarded sha_hex now fresh a name id secret s : guarded s (CreateStatusFeed sha_hex now fresh a name id secret s).2.
Proof.
  unfold CreateStatusFeed. destruct (negb _); [apply gives_guarded; done|]. apply guarded_tenant. intros role db x s1 Hr Ha Ho.
  eapply creator_admin in Ha as [Ep Ha]; [|set_solver|done]. eapply (guarded_adds (OrganizationID a, Principal a)); [by rewrite Ep|].
  match type of Ho with ?m _ = _ => assert (keeps (adds (OrganizationID a, Principal a)) m) as K; [|by eapply K] end. keep adds_leaf.
Qed.
Lemma service_pairing_guarded sha_hex now fresh a id draw s : guarded s (CreateServicePairing sha_hex now fresh a id draw s).2.
Proof.
  unfold CreateServicePairing. apply guarded_tenant. intros role db x s1 Hr Ha Ho.
  eapply creator_admin in Ha as [Ep Ha]; [|set_solver|done]. eapply (guarded_adds (OrganizationID a, ActorID a)); [done|].
  match type of Ho with ?m _ = _ => assert (keeps (adds (OrganizationID a, ActorID a)) m) as K; [|by eapply K] end.
  apply akeeps_bind; [apply _|keep adds_leaf|]. intros _. apply keeps_draw; [apply _|]. intros s0 p Hu Eo Eb _.
  apply adds_held; [done|done|simpl; auto with holders..]. apply held_or_insert. left. unfold code_holder. by rewrite Hu, Eo, Eb.
Qed.
Lemma agent_scope_guarded now fresh a id scope s : guarded s (SetAgentTokenScope now fresh a id scope s).2.
Proof.
  unfold SetAgentTokenScope. destruct (negb _); [apply gives_guarded; done|]. apply guarded_tenant. intros role db x s1 _ _.
  unfold mbind, atx_bind, aget, afound, arequire, aput. simpl. destruct (ac_tokens s !! id) as [c|] eqn:Ec; simpl; [|done].
  destruct (bool_decide _ && ScopeIsAgent c && live c) eqn:E; [|done]. intros [= _ <-]. apply gives_guarded, gives_held; simpl; auto with holders.
  apply andb_true_iff in E as [[_ E1]%andb_true_iff E2]. intros ou (k & y & Hk & Hy). destruct (decide (k = id)) as [->|Hne].
  - rewrite lookup_insert_eq in Hk. injection Hk as <-. exists id, c. split; [done|]. revert Hy. unfold token_holder. rewrite E1, E2. simpl. by destruct (_ && _).
  - rewrite lookup_insert_ne in Hk by done. by exists k, y.
Qed.

(** ** Memberships *)

Lemma member_guarded now fresh org user actor s s1 s' :
  (forall o u, (o, u) <> (org, user) -> admin_of o u s1 = admin_of o u s) -> (forall ou, granted ou s1 -> granted ou s) ->
  (_ ← revokeLostAdminCredentials now fresh org user actor; requireActiveAdmin org) s1 = Ok (tt, s') -> guarded s s'.
Proof.
  intros Ha Hg. unfold mbind, atx_bind. destruct (revokeLostAdminCredentials _ _ _ _ _ s1) as [[[] s2]|] eqn:E; [|done]. apply revokeLost_ok in E as [R H].
  unfold requireActiveAdmin, mbind, atx_bind, aget, arequire. destruct (has_admin org s2) eqn:Eh; [|done]. intros [= <-].
  assert (forall o u, admin_of o u s2 = admin_of o u s1) as E by (intros; by apply revoking_admin). split.
  - intros B [o u] G. simpl. rewrite E. destruct (decide ((o, u) = (org, user))) as [[= -> ->]|Hne]; [by apply H|]. rewrite Ha by done.
    apply (B (o, u)), Hg, R, G.
  - intros o [u Hu]%has_admin_true. destruct (decide (o = org)) as [->|Hne]; [done|]. apply has_admin_true. exists u. rewrite E, Ha; [done|congruence].
Qed.
Lemma put_membership_guarded now fresh a user role status s : guarded s (PutMembership now fresh a user role status s).2.
Proof.
  unfold PutMembership. apply guarded_tenant. intros r db [] s1 _ _. unfold PutMembership_body. unfold mbind at 1 2 3 4 5 6, atx_bind at 1 2 3 4 5 6.
  unfold aget at 1 2, arequire at 1 2 3, aput. destruct (_ && _); [|done]. simpl. destruct (visible user (ActorID a) s); [|done]. simpl.
  destruct (org_exists (OrganizationID a) s); [|done]. simpl. eapply member_guarded; [|done]. intros o u Hne. unfold admin_of, put_member. simpl.
  by rewrite lookup_insert_ne.
Qed.
Lemma remove_membership_guarded now fresh a user s : guarded s (RemoveMembership now fresh a user s).2.
Proof.
  unfold RemoveMembership. apply guarded_tenant. intros r db [] s1 _ _. unfold RemoveMembership_body. unfold mbind at 1 2 3, atx_bind at 1 2 3.
  unfold aget at 1, arequire at 1, aput. case_bool_decide; [|done]. simpl. eapply member_guarded; [|done]. intros o u Hne. unfold admin_of. simpl.
  by rewrite lookup_delete_ne.
Qed.
Lemma delete_guarded now fresh id s : guarded s (DeleteUser now fresh id s).2.
Proof.
  unfold DeleteUser, acommit. destruct (adminQuorum now fresh id false (deleteRow id) s) as [[[] s1]|] eqn:E; [|by apply gives_guarded].
  eapply quorum_ok in E as (B & l & _ & H); [|by apply delete_touches]. split; [done|]. intros org Ho. by destruct (H _ Ho) as [?|[? _]].
Qed.
Lemma get_gives now token s : gives s (GetSession now token s).2.
Proof. unfold GetSession. destruct (ac_sessions s !! token) as [x|]; [|done]. destruct (_ <? _); [gives_leaf|done]. Qed.

(** ** The identity provider and the installer *)

Definition backs (s s' : Accounts) : Prop := backed s -> backed s'.
#[export] Instance backs_preorder : PreOrder backs.
Proof. split; [intros s B; exact B|]. intros s1 s2 s3 H1 H2 B. exact (H2 (H1 B)). Qed.
Lemma gives_backs s s' : gives s s' -> backs s s'.
Proof. exact (gives_backed s s'). Qed.
Lemma quorum_backs now fresh user external write : (forall s b s', write s = Ok (b, s') -> touches user s s') ->
  keeps backs (adminQuorum now fresh user external write).
Proof. intros Hw s [] s' H. eapply quorum_ok in H as [H _]; done. Qed.
Ltac backs_leaf := apply gives_backs; gives_leaf.
Ltac loses_leaf := apply loses_gives; [gives_leaf|by exists []; rewrite app_nil_r].
Ltac keep_quorum leaf quorum :=
  repeat first [apply quorum; [first [apply delete_touches|apply identity_touches]]|keep_step leaf].

Lemma webhook_backs sha_hex now fresh p id s : backs s (HandleSyncWebhook sha_hex now fresh p id s).2.
Proof.
  apply keeps_webhook; [apply _|intros; backs_leaf|unfold claim_event; keep backs_leaf|].
  unfold apply_event, update_account, provision_account, provider_account, UpdateUserIdentity. keep_quorum backs_leaf quorum_backs.
Qed.
Lemma event_loses sha_hex now fresh p id s : loses now s (ApplyDirectoryEvent sha_hex now fresh p id s).2.
Proof.
  unfold ApplyDirectoryEvent. apply keeps_commit; [apply _|]. unfold claim_event.
  unfold apply_event, update_account, provision_account, provider_account, UpdateUserIdentity. keep_quorum loses_leaf quorum_loses.
Qed.

Lemma losts_ok now fresh user actor orgs s s' : aeach (fun org => revokeLostAdminCredentials now fresh org user actor) orgs s = Ok (tt, s') ->
  revoking s s' /\ forall org, org ∈ orgs -> granted (org, user) s' -> admin_of org user s = true.
Proof.
  revert s. induction orgs as [|o orgs IH]; intros s; cbn [aeach]; [intros [= <-]; split; [done|set_solver]|].
  unfold mbind, atx_bind. destruct (revokeLostAdminCredentials _ _ _ _ _ s) as [[[] s1]|] eqn:E; [|done]. intros (R' & G')%IH. apply revokeLost_ok in E as [R G].
  split; [by etrans|]. intros org [->|Hin]%elem_of_cons Hg; [apply G; by apply R'|]. rewrite <- (revoking_admin _ _ org user R). by apply G'.
Qed.
Lemma availability_backs now fresh id active : keeps backs (installerAvailability now fresh id active).
Proof.
  intros s [] s'. unfold installerAvailability, mbind at 1 2 3, atx_bind at 1 2 3, aget at 1, arequire, aput at 1.
  destruct (match ac_users s !! id with Some u => _ | None => _ end); [|done]. simpl. destruct active; [intros [= <-]; apply gives_backs; gives_leaf|].
  unfold mbind, atx_bind, aput, aget. set (s1 := drop_devices _ _). intros H. apply losts_ok in H as [R G].
  intros B [o u] Hg. simpl. rewrite (revoking_admin _ _ _ _ R). assert (granted (o, u) s) as Hs by (by apply R in Hg).
  apply B in Hs. simpl in Hs. destruct (decide (u = id)) as [->|Hne].
  - apply G; [|done]. apply list_elem_of_fmap. unfold admin_of in Hs. destruct (ac_members s !! (o, id)) as [m|] eqn:Em; [|done]. exists ((o, id), m). split; [done|].
    apply list_elem_of_In, filter_In. split; [by apply list_elem_of_In, elem_of_map_to_list|]. simpl. rewrite bool_decide_true by done.
    destruct (ac_users s !! id); [|done]. by destruct (bool_decide (m_role m = RoleOrganizationAdmin)).
  - revert Hs. unfold admin_of, s1. simpl. by rewrite lookup_alter_ne.
Qed.
Lemma installer_backs now fresh identity event n text digest assigned admin s :
  backs s (ApplyInstallerDirectory now fresh identity event n text digest assigned admin s).2.
Proof.
  unfold ApplyInstallerDirectory. apply keeps_commit; [apply _|]. unfold audited. repeat first [apply availability_backs|keep_step backs_leaf].
Qed.
Lemma installer_revoke_backs now fresh identity s : backs s (RevokeInstallerIdentity now fresh identity s).2.
Proof.
  unfold RevokeInstallerIdentity. apply keeps_commit; [apply _|]. unfold audited. repeat first [apply availability_backs|keep_step backs_leaf].
Qed.

Lemma astep_guarded sha_hex now s l s' : astep sha_hex now s l s' -> match l with Event _ | Directory | Installer => True | _ => guarded s s' end.
Proof.
  destruct 1; try exact I.
  all: lazymatch goal with
       | |- guarded _ (CreateAgentToken _ _ _ _ _ _ _ _ _).2 => apply agent_token_guarded
       | |- guarded _ (CreateStatusFeed _ _ _ _ _ _ _ _).2 => apply feed_guarded
       | |- guarded _ (CreateServicePairing _ _ _ _ _ _ _).2 => apply service_pairing_guarded
       | |- guarded _ (SetAgentTokenScope _ _ _ _ _ _).2 => apply agent_scope_guarded
       | |- guarded _ (PutMembership _ _ _ _ _ _ _).2 => apply put_membership_guarded
       | |- guarded _ (RemoveMembership _ _ _ _ _).2 => apply remove_membership_guarded
       | |- guarded _ (DeleteUser _ _ _ _).2 => apply delete_guarded
       | |- guarded _ (GetSession _ _ _).2 => apply gives_guarded, get_gives
       | |- _ => apply gives_guarded; try (gives_op; fail)
       end.
  match goal with H : insert_session _ _ _ _ _ = Ok _ |- _ => revert H end.
  intros H. assert (keeps gives (insert_session token x subject password)) as K; [unfold insert_session, withPassword, stillSignsIn; keep gives_leaf|by eapply K].
Qed.

(** ** Theorems *)

Section Theorems.
Context (sha_hex : string -> string).

Lemma astep_backs now s l s' : astep sha_hex now s l s' -> backs s s'.
Proof.
  intros H. pose proof (astep_guarded _ _ _ _ _ H) as G. destruct l; try exact (proj1 G).
  all: inversion H; subst; try apply installer_backs; try apply installer_revoke_backs.
  all: match goal with E : HandleSyncWebhook _ _ ?f ?p ?i _ = _ |- _ => pose proof (webhook_backs sha_hex now f p i s) as Hb; by rewrite E in Hb end.
Qed.
Lemma wsteps_backed w w' : backed (w_db w) -> rtc (wstep sha_hex) w w' -> backed (w_db w').
Proof.
  intros B Hr. revert B. induction Hr as [|w1 w2 w3 Hs _ IH]; [done|]. intros B. apply IH. destruct Hs as [now l s' _ _ Hs].
  rewrite noted_db. by eapply astep_backs.
Qed.

(** C30: However memberships, accounts and the identity provider's or the installer's directories change,
    a live agent token, a live status feed and an unclaimed pairing code of an organization always belong to
    someone who is an active administrator of it now: who stops being one holds none, whoever stopped it. *)
Theorem credentials_backed w w' : backed (w_db w) -> rtc (wstep sha_hex) w w' ->
  (forall id c, ac_tokens (w_db w') !! id = Some c -> ScopeIsAgent c = true -> live c = true -> admin_of (cr_org c) (cr_by c) (w_db w') = true) /\
  (forall id c, ac_feeds (w_db w') !! id = Some c -> live c = true -> admin_of (cr_org c) (cr_by c) (w_db w') = true) /\
  (forall id p, ac_pairings (w_db w') !! id = Some p -> unclaimed p = true -> admin_of (pg_org p) (pg_by p) (w_db w') = true).
Proof.
  intros B Hr. pose proof (wsteps_backed _ _ B Hr) as H. split_and!.
  - intros id c Hc Hs Hl. apply (H (cr_org c, cr_by c)). left. exists id, c. split; [done|]. unfold token_holder. by rewrite Hs, Hl.
  - intros id c Hc Hl. apply (H (cr_org c, cr_by c)). right; left. exists id, c. split; [done|]. unfold feed_holder. by rewrite Hl.
  - intros id p Hp Hu. apply (H (pg_org p, pg_by p)). right; right. exists id, p. split; [done|]. unfold code_holder. by rewrite Hu.
Qed.

End Theorems.

(** ** Runs *)

Section Runs.
(** Two local administrators of one organization, and a provider's and an installer's account administering one each. *)
Definition ad_user name provider subject : Account := mkAccount name "" "" (if bool_decide (provider = "local") then "h" else "") "user" "active" provider subject "" false "[]" "" false 0 0 0 None.
Definition ad_start : Accounts :=
  mkAccounts {["u" := ad_user "ann" "local" ""; "v" := ad_user "vic" "local" ""; "k" := ad_user "bob" kysignon "sub"; "i" := ad_user "ida" InstallerProvider "own"]}
    {[(kysignon, "sub") := "k"; (InstallerProvider, "own") := "i"]} ∅ ∅ ∅ ∅ ∅ {["org" := "Org"; "two" := "Two"; "own" := "Own"]}
    {[("org", "u") := mkMember RoleOrganizationAdmin "active"; ("org", "v") := mkMember RoleOrganizationAdmin "active";
      ("two", "k") := mkMember RoleOrganizationAdmin "active"; ("own", "i") := mkMember RoleOrganizationAdmin "active"]}
    ∅ ∅ ∅ {["i"]} ∅ ∅ ∅ None [].
Definition ad_access user : TenantAccess := mkAccess user "org" "" "c" "" "".
Definition ad_fresh (_ : string) : string := "f".
Definition ad_world0 : World := mkWorld ad_start 0 ∅ ∅ ∅ [].
Definition ad_quiet now (s : Accounts) (w : World) : World := noted now Quiet s w.
Definition ad_world1 : World := ad_quiet 1 (CreateAgentToken id 1 ad_fresh (ad_access "u") "bot" ScopeMCPRead "t" "secret" ad_start).2 ad_world0.
Definition ad_world2 : World := ad_quiet 2 (RemoveMembership 2 ad_fresh (ad_access "v") "u" (w_db ad_world1)).2 ad_world1.
Definition ad_deleted : SyncPayload := mkPayload "user.deleted" "e1" "sub" "bob" "" "" "" "" 1.
Definition ad_gone : Accounts := (HandleSyncWebhook id 5 ad_fresh ad_deleted "n" ad_start).2.

Lemma ad_backed : backed ad_start.
Proof. intros ou [(k & x & Hk & _)|[(k & x & Hk & _)|(k & x & Hk & _)]]; simpl in Hk; by rewrite lookup_empty in Hk. Qed.
Lemma ad_reached : rtc (wstep id) ad_world0 ad_world1 /\ rtc (wstep id) ad_world0 ad_world2.
Proof.
  assert (wstep id ad_world0 ad_world1) as H1.
  { apply (wstep_at id ad_world0 1 Quiet); [done|exact I|]. exact (st_agent id 1 ad_start ad_fresh (ad_access "u") "bot" ScopeMCPRead "t" "secret"). }
  assert (wstep id ad_world1 ad_world2) as H2.
  { apply (wstep_at id ad_world1 2 Quiet); [done|exact I|]. exact (st_remove_member id 2 (w_db ad_world1) ad_fresh (ad_access "v") "u"). }
  split; [by apply rtc_once|by eapply rtc_l, rtc_once].
Qed.

Definition ad_token (w : World) : option (bool * string * string) := (fun c => (live c, cr_org c, cr_by c)) <$> ac_tokens (w_db w) !! "t".
Lemma credentials_backed_witness :
  ad_token ad_world1 = Some (true, "org", "u") /\ admin_of "org" "u" (w_db ad_world1) = true /\
  ad_token ad_world2 = Some (false, "org", "u") /\ admin_of "org" "u" (w_db ad_world2) = false.
Proof.
  split; [by vm_compute|]. split; [|by vm_compute].
  apply (proj1 (credentials_backed id ad_world0 ad_world1 ad_backed (proj1 ad_reached)) "t"
           (mkCredential "org" "bot" "secret" "u" 1 None "" None ScopeMCPRead)); by vm_compute.
Defined.

(** The installer's directory takes the last administrator of ["own"] and records nothing there. *)
Definition ad_installer : Accounts :=
  (ApplyInstallerDirectory 5 ad_fresh (Some ("i", "user")) "user.deactivated" 1 "1" "d" true false ad_start).2.
Lemma installer_takes_last_admin :
  has_admin "own" ad_start = true /\ has_admin "own" ad_installer = false /\
  map (fun r => (a_action r, a_org r)) (ac_audit ad_installer) = [("installer.directory_applied", "")].
Proof. by vm_compute. Qed.
End Runs.
