(* ===== verification/Rollbacks.v ===== *)
(** * What a failed update can go back to

    internal/store/rollback.go: [RollbackTarget] decides from the deployment's own plan and result,
    the instance's bindings and the endpoint's inventory, or on a cluster from the instance's
    previous successful apply, whether a failed automated deployment can be rolled back and to
    what.  uuid parsing, encoding/json of a specification and SHA-256 are parameters, as in
    Applications.v; the plan, result and snapshot columns are decoded in the rows.  A service two
    resources are bound to, which the table's unique index refuses, would have either. *)
From Stdlib Require Import ZArith Lia Ascii String.
From stdpp Require Import base gmap strings list sorting.
From S2P Require Import Prelude Text Permissions Inspection Frame Inventory KubeNames Spec Store TenantAccess Commands Direct Applications.
From S2P Require Import Registries Preflight Adoption Judge Schedule Policies Validations Deployments Apply Planning Scenario.

#[local] Open Scope Z_scope.

Record Rollback := mkRollback {
  rb_instance : string; rb_mapping : Z; rb_project : string; rb_revision : Z; rb_images : gmap string string }.

Definition RollbackNoPriorIdentity : string := "no_prior_identity".
Definition RollbackPriorDefinitionInvalid : string := "prior_definition_invalid".
Definition RollbackServiceSetChanged : string := "service_set_changed".
Definition RollbackPriorImagesMissing : string := "prior_images_missing".
Definition RollbackInFlight : string := "rollback_in_flight".
Definition RollbackAlreadyRolledBack : string := "already_rolled_back".
Definition RollbackNamespaceChanged : string := "namespace_changed".
Definition RollbackClaimsChanged : string := "claims_changed".

#[export] Instance KubernetesClaim_eq_dec : EqDecision KubernetesClaim.
Proof. solve_decision. Defined.
#[export] Instance KubernetesMount_eq_dec : EqDecision KubernetesMount.
Proof. solve_decision. Defined.

Definition HasSuffix (s suffix : string) : bool :=
  (String.length suffix <=? String.length s)%nat
  && String.eqb (String.substring (String.length s - String.length suffix) (String.length suffix) s) suffix.

(** What the instance's resources bind each service to now. *)
Definition boundServices (instance : string) (db : DB) : gmap string boundResource :=
  foldl (fun out kr => <[xr_service kr.2 := mkBound kr.1.2 (xr_name kr.2)]> out) ∅
    (List.filter (fun kr => bool_decide (xr_instance kr.2 = instance) && nonempty (xr_service kr.2)) (map_to_list (resources db))).

(** Another rollback of the instance not settled: under way, or its deployment planned or applying. *)
Definition other_rollback (instance deployment : string) (db : DB) (v : ValidationRow) : bool :=
  bool_decide (v_instance v = instance) && negb (bool_decide (v_id v = deployment)) &&
  ((v_is_rollback v && negb (v_done v)) ||
   match v_rollback v with
   | Some r => match deployments db !! r with Some d => in_state StatePlanned d || in_state StateApplying d | None => false end
   | None => false
   end).

(** Applies of the instance a cluster may have seen after the deployment. *)
Definition applied_after (d n : DeploymentRow) : bool :=
  bool_decide (d_instance n = d_instance d) && bool_decide (d_kind n = KindApply) && (d_created d <? d_created n) && negb (in_state StatePlanned n).
(** [ORDER BY settled_at DESC, id DESC]. *)
Definition settled_at (d : DeploymentRow) : time := match d_settled d with Some t => t | None => zero_time end.
Definition settled_first (x y : DeploymentRow) : Prop :=
  settled_at y < settled_at x \/ (settled_at x = settled_at y /\ String.leb (d_id y) (d_id x) = true).
#[export] Instance settled_first_dec : RelDecision settled_first.
Proof. intros x y. unfold settled_first. apply _. Defined.
Definition succeeded_apply (instance : string) (d : DeploymentRow) : bool :=
  bool_decide (d_instance d = instance) && bool_decide (d_kind d = KindApply) && in_state OutcomeSucceeded d.
Definition latest_applies (instance : string) (db : DB) : list DeploymentRow :=
  take 2 (merge_sort settled_first (select (succeeded_apply instance) (deployments db))).

Definition plan_mounts (plan : DeploymentPlan) : gmap string (list KubernetesMount) :=
  foldl (fun m ps => <[ps_name ps := ps_claim_mounts ps]> m) ∅ (pl_services plan).
Definition pinned (ps : PlannedService) : bool := negb (bool_decide (ps_pull_digest ps = "")) && HasSuffix (ps_pull_reference ps) ("@" +:+ ps_pull_digest ps).
Definition pulled_of (plan : DeploymentPlan) : gmap string string :=
  foldl (fun m ps => <[ps_name ps := ps_pull_reference ps]> m) ∅ (pl_services plan).
Definition replaced_of (plan : DeploymentPlan) : gmap string string :=
  foldl (fun m ps => <[ps_name ps := it_image (ps_replaces ps)]> m) ∅ (pl_services plan).
Definition created_of (r : StoredResult) : gmap string string :=
  foldl (fun m i => <[id_service i := id_container i]> m) ∅ (sr_services r).

Section rollback.
Context (uuid_parse : string -> option string) (Unmarshal : string -> option ApplicationSpec) (sum_hex : string -> string).

(** The revision's specification, when it exists, its digest matches and it still validates. *)
Definition valid_spec (r : RevisionRow) : option ApplicationSpec :=
  if bool_decide (applicationSpecDigest sum_hex (rv_spec r) = rv_digest r)
  then match Unmarshal (rv_spec r) with Some spec => if spec_ok spec then Some spec else None | None => None end
  else None.
Definition revisionValid (a : TenantAccess) (app : string) (number : Z) (db : DB) : option ApplicationSpec :=
  match revision_of a app number db with Some r => valid_spec r | None => None end.

Definition Answer : Type := option Rollback * string.
Definition no_rollback (reason : string) : Answer := (None, reason).

Definition clusterRollback (a : TenantAccess) (app : string) (d : DeploymentRow) (i : InstanceRow) (plan : DeploymentPlan) : tx Answer :=
  later ← gets (fun db => count (applied_after d) (deployments db));
  if later >? 0 then mret (no_rollback RollbackServiceSetChanged)
  else
    rows ← gets (latest_applies (d_instance d));
    match rows with
    | [] => mret (no_rollback RollbackServiceSetChanged)
    | latest :: rest =>
        if negb (bool_decide (d_id latest = d_id d)) then mret (no_rollback RollbackServiceSetChanged)
        else match rest with
        | [] => mret (no_rollback RollbackNoPriorIdentity)
        | before :: _ =>
            prior ← one (d_plan before) ErrRevisionCorrupt;
            if negb (bool_decide (pl_namespace prior = pl_namespace plan)) then mret (no_rollback (RollbackServiceSetChanged +:+ "," +:+ RollbackNamespaceChanged))
            else
              let mounts := plan_mounts plan in
              if negb (llen (pl_services prior) =? llen (pl_services plan))
                 || existsb (fun ps => bool_decide (mounts !! ps_name ps = None)) (pl_services prior)
              then mret (no_rollback RollbackServiceSetChanged)
              else if negb (bool_decide (pl_claims prior = pl_claims plan))
                      || existsb (fun ps => negb (bool_decide (ps_claim_mounts ps = default [] (mounts !! ps_name ps)))) (pl_services prior)
              then mret (no_rollback (RollbackServiceSetChanged +:+ "," +:+ RollbackClaimsChanged))
              else if existsb (fun ps => negb (pinned ps)) (pl_services prior) then mret (no_rollback RollbackNoPriorIdentity)
              else
                valid ← gets (revisionValid a app (d_revision before));
                match valid with
                | None => mret (no_rollback RollbackPriorDefinitionInvalid)
                | Some _ => mret (Some (mkRollback (d_instance d) (i_mapping i) (i_project i) (d_revision before) (pulled_of prior)), "")
                end
        end
    end.

Definition dockerRollback (a : TenantAccess) (app : string) (d : DeploymentRow) (i : InstanceRow) (plan : DeploymentPlan) (result : StoredResult) : tx Answer :=
  match pl_services plan with
  | [] => mret (no_rollback RollbackNoPriorIdentity)
  | _ =>
      let revision := if i_previous i =? 0 then i_revision i else i_previous i in
      _ ← ensure (1 <=? revision) ErrInvalid;
      let images := replaced_of plan in
      let missing := existsb (fun ps => bool_decide (it_image (ps_replaces ps) = "")) (pl_services plan) in
      valid ← gets (revisionValid a app revision);
      match valid with
      | None => mret (no_rollback RollbackPriorDefinitionInvalid)
      | Some spec =>
          bound ← gets (boundServices (d_instance d));
          let created := created_of result in
          let same := (llen (sp_services spec) =? Z.of_nat (size images)) && bool_decide (size bound = size images) && bool_decide (size created = size images)
            && forallb (fun s => bool_decide (is_Some (images !! as_name s)) && nonempty (default "" (created !! as_name s))
                 && bool_decide (default "" (br_container <$> bound !! as_name s) = default "" (created !! as_name s))) (sp_services spec) in
          if negb same then mret (no_rollback RollbackServiceSetChanged)
          else if missing then mret (no_rollback RollbackNoPriorIdentity)
          else
            snapshot ← gets (fun db => default (bare_snapshot [] [] None) (snapshot_of db (d_endpoint d)));
            if existsb (fun kv => negb (bool_decide (kv.2 ∈ imagesOnHost snapshot))) (map_to_list images) then mret (no_rollback RollbackPriorImagesMissing)
            else mret (Some (mkRollback (d_instance d) (i_mapping i) (i_project i) revision images), "")
      end
  end.

Definition rollback_body (a : TenantAccess) (app deployment : string) : tx Answer :=
  row ← gets (fun db => match deployments db !! deployment, validations db !! deployment with
                        | Some d, Some v =>
                            if bool_decide (d_org d = OrganizationID a) && bool_decide (d_env d = EnvironmentID a) && bool_decide (d_app d = app)
                               && negb (v_is_rollback v) then Some (d, v) else None
                        | _, _ => None
                        end);
  dv ← one row ErrNotFound;
  let '(d, v) := dv in
  found ← gets (fun db => instances db !! d_instance d);
  i ← one found ErrNotFound;
  if nonempty (default "" (v_rollback v)) then mret (no_rollback RollbackAlreadyRolledBack)
  else
    inFlight ← gets (fun db => count (other_rollback (d_instance d) deployment db) (validations db));
    if inFlight >? 0 then mret (no_rollback RollbackInFlight)
    else
      plan ← one (d_plan d) ErrRevisionCorrupt;
      result ← one (d_result d) ErrRevisionCorrupt;
      if nonempty (pl_namespace plan) then clusterRollback a app d i plan else dockerRollback a app d i plan result.

Definition RollbackTarget (a : TenantAccess) (app deployment : string) (now : time) (fresh : string) (db : DB) : res StoreErr Answer * DB :=
  match uuid_parse app with
  | None => (Fail ErrInvalid, db)
  | Some app =>
      if negb (nonempty (EnvironmentID a)) then (Fail ErrInvalid, db)
      else match uuid_parse deployment with
      | None => (Fail ErrNotFound, db)
      | Some deployment => readTenant a ApplicationDeploy (rollback_body a app deployment) now fresh db
      end
  end.
End rollback.

(** ** What an answer stands on *)

Section maps.
Context {A B : Type} (f : A -> string) (g : A -> B).
Lemma named_lookup l (m : gmap string B) k y : foldl (fun m x => <[f x := g x]> m) m l !! k = Some y ->
  m !! k = Some y \/ exists x, x ∈ l /\ f x = k /\ g x = y.
Proof.
  revert m. induction l as [|x l IH]; intros m; simpl; [by left|]. intros [H|(z & Hz & ? & ?)]%IH.
  - destruct (decide (k = f x)) as [->|Hne]; [rewrite lookup_insert_eq in H; simplify_eq|rewrite lookup_insert_ne in H by done; by left].
    right. exists x. split_and!; [left|done|done].
  - right. exists z. split_and!; [by right|done|done].
Qed.
Lemma named_is_some l (m : gmap string B) k : is_Some (foldl (fun m x => <[f x := g x]> m) m l !! k) <-> is_Some (m !! k) \/ exists x, x ∈ l /\ f x = k.
Proof.
  revert m. induction l as [|x l IH]; intros m; simpl.
  - split; [by left|]. intros [?|(x & Hx & _)]; [done|]. by apply elem_of_nil in Hx.
  - rewrite IH. destruct (decide (k = f x)) as [->|Hne].
    + rewrite lookup_insert_eq. split; [right; exists x; split; [left|done]|by left; eexists].
    + rewrite lookup_insert_ne by done. split; intros [?|(z & Hz & ?)]; try (by left); right; exists z; [split; [by right|done]|].
      apply elem_of_cons in Hz as [->|Hz]; [done|by split].
Qed.
End maps.

(** As many names as keys, every name a key: the keys are the names. *)
Lemma names_are_keys {B} (names : list string) (m : gmap string B) : NoDup names -> llen names = Z.of_nat (size m) ->
  (forall n, n ∈ names -> is_Some (m !! n)) -> forall k, is_Some (m !! k) -> k ∈ names.
Proof.
  intros Hnd Hlen Hin k Hk. assert (names ≡ₚ map fst (map_to_list m)) as Hp; [|rewrite Hp; destruct Hk as [y Hk]].
  - apply submseteq_length_Permutation; [|rewrite length_map, length_map_to_list; unfold llen in Hlen; lia].
    apply NoDup_submseteq; [done|]. intros n [y Hy]%Hin. apply list_elem_of_fmap. exists (n, y). split; [done|by apply elem_of_map_to_list].
  - apply list_elem_of_fmap. exists (k, y). split; [done|by apply elem_of_map_to_list].
Qed.

#[export] Instance settled_first_total : Total settled_first.
Proof.
  intros x y. unfold settled_first. destruct (Z.lt_total (settled_at x) (settled_at y)) as [?|[E|?]]; [right; by left| |left; by left].
  rewrite E. destruct (String.leb (d_id y) (d_id x)) eqn:Es; [left; right; by split|right; right]. split; [done|]. destruct (leb_total (d_id x) (d_id y)); congruence.
Qed.

Lemma spec_names spec : spec_ok spec = true -> NoDup (map as_name (sp_services spec)).
Proof.
  unfold spec_ok. rewrite !andb_true_iff. rewrite (seen_loop_Forall as_name _ (ServiceWF (map dv_name (sp_declared spec)))) by apply spec_service_ok_iff.
  intuition.
Qed.

(** Going back on a Docker host: every service to the image the container it replaced ran, while
    nothing has replaced the containers this deployment created. *)
Record DockerTarget (db : DB) (d : DeploymentRow) (i : InstanceRow) (plan : DeploymentPlan) (spec : ApplicationSpec) (rb : Rollback) : Prop := {
  dt_revision : rb_revision rb = (if i_previous i =? 0 then i_revision i else i_previous i) /\ 1 <= rb_revision rb;
  dt_services : forall s, is_Some (rb_images rb !! s) <-> s ∈ map as_name (sp_services spec);
  dt_images : forall s image, rb_images rb !! s = Some image ->
    image <> "" /\ (exists ps, ps ∈ pl_services plan /\ ps_name ps = s /\ it_image (ps_replaces ps) = image) /\
    exists snap, snapshot_of db (d_endpoint d) = Some snap /\ image ∈ imagesOnHost snap;
  dt_bound : forall s, s ∈ map as_name (sp_services spec) -> exists result made host r,
    d_result d = Some result /\ made ∈ sr_services result /\ id_service made = s /\ id_container made <> "" /\
    resources db !! (host, id_container made) = Some r /\ xr_instance r = d_instance d /\ xr_service r = s }.

(** On a cluster: to the apply that succeeded before this one, by digest, when nothing was applied since. *)
Record ClusterTarget (db : DB) (d : DeploymentRow) (plan : DeploymentPlan) (rb : Rollback) (before latest : DeploymentRow) (prior : DeploymentPlan) : Prop := {
  cl_since : forall k n, deployments db !! k = Some n -> applied_after d n = false;
  cl_latest : d_id latest = d_id d /\ succeeded_apply (d_instance d) latest = true /\ (exists k, deployments db !! k = Some latest);
  cl_before : succeeded_apply (d_instance d) before = true /\ (exists k, deployments db !! k = Some before) /\ settled_first latest before;
  cl_plan : d_plan before = Some prior /\ d_revision before = rb_revision rb;
  cl_same : pl_namespace prior = pl_namespace plan /\ pl_claims prior = pl_claims plan /\ length (pl_services prior) = length (pl_services plan);
  cl_services : forall ps, ps ∈ pl_services prior -> pinned ps = true /\
    exists now_, now_ ∈ pl_services plan /\ ps_name now_ = ps_name ps /\ ps_claim_mounts now_ = ps_claim_mounts ps;
  cl_images : forall s image, rb_images rb !! s = Some image -> exists ps, ps ∈ pl_services prior /\ ps_name ps = s /\ ps_pull_reference ps = image;
  cl_all : forall ps, ps ∈ pl_services prior -> is_Some (rb_images rb !! ps_name ps) }.

Lemma count_none {A} (p : A -> bool) (m : gmap string A) : (count p m >? 0) = false -> forall k x, m !! k = Some x -> p x = false.
Proof. rewrite Z.gtb_ltb, Z.ltb_ge. intros H. apply count_zero. unfold count, llen in *. lia. Qed.
Lemma nonempty_false s : nonempty s = false -> s = "".
Proof. by destruct s. Qed.

Section sound.
Context (uuid_parse : string -> option string) (Unmarshal : string -> option ApplicationSpec) (sum_hex : string -> string).

Lemma revisionValid_some a app n db spec : revisionValid Unmarshal sum_hex a app n db = Some spec ->
  exists r, revisions db !! (app, n) = Some r /\ rv_digest r = applicationSpecDigest sum_hex (rv_spec r) /\ Unmarshal (rv_spec r) = Some spec /\ spec_ok spec = true.
Proof.
  unfold revisionValid, revision_of, valid_spec. destruct (revisions db !! (app, n)) as [r|] eqn:Er; [|done]. destruct (rev_here a r); [|done].
  case_bool_decide as Ed; [|done]. destruct (Unmarshal (rv_spec r)) as [sp|] eqn:Eu; [|done]. destruct (spec_ok sp) eqn:Es; [|done]. intros [= <-]. exists r.
  by split_and!.
Qed.

Lemma boundServices_some instance db s b : boundServices instance db !! s = Some b -> exists host r,
  resources db !! (host, br_container b) = Some r /\ xr_instance r = instance /\ xr_service r = s.
Proof.
  unfold boundServices. intros [H|([[host c] r] & Hin & Es & <-)]%(named_lookup (fun kr => xr_service kr.2) (fun kr => mkBound kr.1.2 (xr_name kr.2))).
  - by rewrite lookup_empty in H.
  - apply list_elem_of_In, filter_In in Hin as [Hin Hp]. apply list_elem_of_In, elem_of_map_to_list in Hin. simpl in *. apply andb_true_iff in Hp as [Hp _].
    apply bool_decide_eq_true in Hp. exists host, r. by split_and!.
Qed.

Lemma dockerRollback_ok a app d i plan result db rb reason db' :
  d_result d = Some result ->
  dockerRollback Unmarshal sum_hex a app d i plan result db = Ok ((Some rb, reason), db') ->
  db' = db /\ reason = "" /\ rb = mkRollback (d_instance d) (i_mapping i) (i_project i) (rb_revision rb) (rb_images rb) /\
  exists r spec, revisions db !! (app, rb_revision rb) = Some r /\ rv_digest r = applicationSpecDigest sum_hex (rv_spec r) /\
    Unmarshal (rv_spec r) = Some spec /\ spec_ok spec = true /\ DockerTarget db d i plan spec rb.
Proof.
  intros Er. unfold dockerRollback. destruct (pl_services plan) as [|p0 ps0] eqn:Ep; [by intros [=]|]. rewrite <- Ep. clear Ep p0 ps0.
  set (revision := if i_previous i =? 0 then i_revision i else i_previous i). intros H. tx_inv H.
  destruct (revisionValid Unmarshal sum_hex a app revision db) as [spec|] eqn:Ev; [|by tx_inv H]. tx_inv H.
  destruct (negb _) eqn:Es in H; [by tx_inv H|]. destruct (existsb _ _) eqn:Em in H; [by tx_inv H|]. tx_inv H.
  destruct (existsb _ _) eqn:Eh in H; [by tx_inv H|]. tx_inv H. simpl. split_and!; [done..|].
  apply revisionValid_some in Ev as (r & Hr & Hd & Hu & Ho). exists r, spec. split_and!; [done..|].
  apply negb_false_iff in Es. rewrite !andb_true_iff, forallb_forall in Es. destruct Es as [[[Hlen Hb] Hc] Hall].
  apply Z.eqb_eq in Hlen. apply Z.leb_le in Hg.
  assert (forall s, s ∈ map as_name (sp_services spec) -> is_Some (replaced_of plan !! s) /\ exists b, boundServices (d_instance d) db !! s = Some b /\
    created_of result !! s = Some (br_container b) /\ br_container b <> "") as Hs.
  { intros s Hs. apply list_elem_of_fmap in Hs as (x & -> & Hx). apply list_elem_of_In, Hall in Hx. rewrite !andb_true_iff in Hx. destruct Hx as [[H1 H2] H3].
    apply bool_decide_eq_true in H1. apply bool_decide_eq_true in H3. split; [done|].
    destruct (created_of result !! as_name x) as [c|]; [|done]. simpl in *. destruct (boundServices (d_instance d) db !! as_name x) as [b|]; simpl in *; subst; [|done].
    exists b. split_and!; [done|done|]. intros E. by rewrite E in H2. }
  assert (forall s, is_Some (replaced_of plan !! s) <-> s ∈ map as_name (sp_services spec)) as Hdom.
  { intros s. split; [|by intros [? _]%Hs]. apply names_are_keys; [by apply spec_names|by rewrite <- Hlen; unfold llen; rewrite length_map|by intros n [? _]%Hs]. }
  split; simpl; [done|done| |].
  - intros s image Hi. pose proof Hi as [Hn|(ps & Hps & Hn & Hk)]%(named_lookup ps_name (fun ps => it_image (ps_replaces ps))); [by rewrite lookup_empty in Hn|].
    split_and!; [|by exists ps|].
    + apply (existsb_none _ _ _ Em) in Hps. apply bool_decide_eq_false in Hps. congruence.
    + assert ((s, image) ∈ map_to_list (replaced_of plan)) as Hin by (by apply elem_of_map_to_list). apply (existsb_none _ _ _ Eh), negb_false_iff, bool_decide_eq_true in Hin.
      simpl in Hin. destruct (snapshot_of db (d_endpoint d)) as [snap|]; [by exists snap|]. unfold imagesOnHost in Hin. simpl in Hin. set_solver.
  - intros s (_ & b & Hbs & Hcs & Hne)%Hs. apply boundServices_some in Hbs as (host & x & Hx & Hxi & Hxs).
    apply (named_lookup id_service id_container) in Hcs as [Hcs|(made & Hm & Hms & Hmc)]; [by rewrite lookup_empty in Hcs|].
    exists result, made, host, x. rewrite Hmc. by split_and!.
Qed.

Lemma clusterRollback_ok a app d i plan db rb reason db' :
  clusterRollback Unmarshal sum_hex a app d i plan db = Ok ((Some rb, reason), db') ->
  db' = db /\ reason = "" /\ rb = mkRollback (d_instance d) (i_mapping i) (i_project i) (rb_revision rb) (rb_images rb) /\
  exists r spec, revisions db !! (app, rb_revision rb) = Some r /\ rv_digest r = applicationSpecDigest sum_hex (rv_spec r) /\
    Unmarshal (rv_spec r) = Some spec /\ spec_ok spec = true /\ exists before latest prior, ClusterTarget db d plan rb before latest prior.
Proof.
  unfold clusterRollback. intros H. tx_inv H. destruct (count (applied_after d) (deployments db) >? 0) eqn:Ec; [by tx_inv H|]. tx_inv H.
  destruct (latest_applies (d_instance d) db) as [|latest [|before rest]] eqn:El; [by tx_inv H|destruct (negb _) in H; by tx_inv H|].
  destruct (negb _) eqn:E1 in H; [by tx_inv H|]. tx_inv H. rename row into prior.
  destruct (negb _) eqn:E2 in H; [by tx_inv H|]. destruct (negb _ || _) eqn:E3 in H; [by tx_inv H|]. destruct (negb _ || _) eqn:E4 in H; [by tx_inv H|].
  destruct (existsb _ _) eqn:E5 in H; [by tx_inv H|]. tx_inv H. destruct (revisionValid Unmarshal sum_hex a app (d_revision before) db) as [spec|] eqn:Ev; [|by tx_inv H].
  tx_inv H. simpl. split_and!; [done..|]. apply revisionValid_some in Ev as (r & Hr & Hd & Hu & Ho). exists r, spec. split_and!; [done..|]. exists before, latest, prior.
  apply negb_false_iff, bool_decide_eq_true in E1. apply negb_false_iff, bool_decide_eq_true in E2.
  apply orb_false_iff in E3 as [E3 E3']. apply negb_false_iff, Z.eqb_eq in E3. apply orb_false_iff in E4 as [E4 E4']. apply negb_false_iff, bool_decide_eq_true in E4.
  set (sorted := merge_sort settled_first (select (succeeded_apply (d_instance d)) (deployments db))) in *.
  assert (sorted = latest :: before :: drop 2 sorted) as Esort.
  { rewrite <- (take_drop 2 sorted) at 1. unfold latest_applies in El. fold sorted in El. rewrite El. assert (length (take 2 sorted) = length (latest :: before :: rest)) as Hl by (by rewrite El).
    rewrite length_take in Hl. destruct rest; [done|cbn [length] in Hl; lia]. }
  assert (forall x, x ∈ sorted -> (exists k, deployments db !! k = Some x) /\ succeeded_apply (d_instance d) x = true) as Hin.
  { intros x. unfold sorted. rewrite merge_sort_Permutation. by intros ?%elem_of_select. }
  destruct (Hin latest) as [Hk Hp]; [rewrite Esort; left|]. destruct (Hin before) as [Hk' Hp']; [rewrite Esort; right; left|].
  split; simpl; try done.
  - by apply count_none.
  - split_and!; [done|done|]. assert (Sorted settled_first sorted) as Hs by (apply Sorted_merge_sort, _). rewrite Esort in Hs.
    inversion Hs as [|? ? _ Hhd]; subst. by inversion Hhd.
  - split_and!; [done|done|]. unfold llen in E3. lia.
  - intros ps Hps. split; [apply (existsb_none _ _ _ E5) in Hps; by apply negb_false_iff in Hps|].
    pose proof (existsb_none _ _ _ E3' Hps) as Hm. apply bool_decide_eq_false in Hm. pose proof (existsb_none _ _ _ E4' Hps) as Hc.
    apply negb_false_iff, bool_decide_eq_true in Hc. destruct (plan_mounts plan !! ps_name ps) as [m|] eqn:Em; [|done]. simpl in Hc. subst m.
    apply (named_lookup ps_name ps_claim_mounts) in Em as [Em|(x & Hx & Hn & Hmm)]; [by rewrite lookup_empty in Em|]. by exists x.
  - intros s image [Hn|Hx]%(named_lookup ps_name ps_pull_reference); [by rewrite lookup_empty in Hn|done].
  - intros ps Hps. apply (named_is_some ps_name ps_pull_reference). right. by exists ps.
Qed.

(** C7: What [RollbackTarget] offers to go back to is always sound.  The caller may deploy; the
    deployment is the application's own, not itself a rollback, not rolled back already, and no other
    rollback of the instance is unsettled; the revision exists, is intact and still validates.  On a Docker
    host the images are those of the containers this deployment replaced, one for exactly every service, all
    still on the host, and every service is still bound to the container this deployment created.  On a
    cluster they are the digests the previous successful apply pulled, for the same services, namespace and
    claims, and nothing was applied since.  Nothing is written. *)
Theorem RollbackTarget_sound a app deployment now fresh db rb reason db' :
  RollbackTarget uuid_parse Unmarshal sum_hex a app deployment now fresh db = (Ok (Some rb, reason), db') ->
  db' = db /\ reason = "" /\ (exists role, holds a db role /\ Allows role ApplicationDeploy = true) /\
  exists app' dep d v i plan r spec,
    uuid_parse app = Some app' /\ uuid_parse deployment = Some dep /\ deployments db !! dep = Some d /\ validations db !! dep = Some v /\
    (d_org d, d_env d, d_app d) = (OrganizationID a, EnvironmentID a, app') /\ v_is_rollback v = false /\ default "" (v_rollback v) = "" /\
    instances db !! d_instance d = Some i /\ (forall k w, validations db !! k = Some w -> other_rollback (d_instance d) dep db w = false) /\
    rb = mkRollback (d_instance d) (i_mapping i) (i_project i) (rb_revision rb) (rb_images rb) /\
    revisions db !! (app', rb_revision rb) = Some r /\ rv_digest r = applicationSpecDigest sum_hex (rv_spec r) /\ Unmarshal (rv_spec r) = Some spec /\
    spec_ok spec = true /\ d_plan d = Some plan /\
    ((pl_namespace plan = "" /\ DockerTarget db d i plan spec rb) \/
     (pl_namespace plan <> "" /\ exists before latest prior, ClusterTarget db d plan rb before latest prior)).
Proof.
  unfold RollbackTarget. destruct (uuid_parse app) as [app'|] eqn:Ea; [|done]. destruct (negb _); [done|]. destruct (uuid_parse deployment) as [dep|] eqn:Ed; [|done].
  intros (role & n & db1 & Hh & Hal & _ & [= _ Hop] & Haud)%runAs_split. simpl in Haud. subst db1.
  unfold rollback_body in Hop. tx_inv Hop. destruct (deployments db !! dep) as [d|] eqn:Edep; [|done]. destruct (validations db !! dep) as [v|] eqn:Eval; [|done].
  destruct (_ && _ && _ && _) eqn:Eg in Hrow; [|done]. injection Hrow as <-. rewrite !andb_true_iff, !bool_decide_eq_true in Eg. destruct Eg as (((Eo & Ee) & Eapp) & Er).
  apply negb_true_iff in Er. tx_inv Hop. rename row into i. destruct (nonempty (default "" (v_rollback v))) eqn:En; [by tx_inv Hop|]. apply nonempty_false in En. tx_inv Hop.
  destruct (_ >? 0) eqn:Ec in Hop; [by tx_inv Hop|]. pose proof (count_none _ _ Ec) as Hother. tx_inv Hop. rename row into plan, row0 into result.
  destruct (nonempty (pl_namespace plan)) eqn:Ens.
  - apply clusterRollback_ok in Hop as (-> & -> & Hrb & r & spec & Hr & Hd & Hu & Ho & before & latest & prior & Ht). split_and!; [done|done|by exists role|].
    exists (d_app d), dep, d, v, i, plan, r, spec. split_and!; try done; [by rewrite Eo, Ee|]. right. split; [|by exists before, latest, prior]. intros E. by rewrite E in Ens.
  - apply dockerRollback_ok in Hop as (-> & -> & Hrb & r & spec & Hr & Hd & Hu & Ho & Ht); [|done]. split_and!; [done|done|by exists role|].
    exists (d_app d), dep, d, v, i, plan, r, spec. split_and!; try done; [by rewrite Eo, Ee|]. left. split; [by apply nonempty_false|done].
Qed.
End sound.

(** ** The settled update of the scenario can be rolled back *)

Definition rb_offer : Rollback := mkRollback "inst" 1 "shop" 1 {["web" := demo_image]}.
Definition rb_answer : res StoreErr Answer * DB := RollbackTarget Some sc_unmarshal hex0 ada "app" demo_id 5 "f" sc_settled.
Lemma RollbackTarget_sound_witness : rb_answer.1 = Ok (Some rb_offer, "") /\ exists role, holds ada sc_settled role /\ Allows role ApplicationDeploy = true.
Proof.
  assert (rb_answer.1 = Ok (Some rb_offer, "")) as E by (by vm_compute). split; [exact E|].
  refine (proj1 (proj2 (proj2 (RollbackTarget_sound Some sc_unmarshal hex0 ada "app" demo_id 5 "f" sc_settled rb_offer "" rb_answer.2 _)))).
  fold rb_answer. rewrite (surjective_pairing rb_answer) at 1. by rewrite E.
Defined.
