(* ===== verification/ValidationLoop.v ===== *)
(** * The loop that watches deployments

    internal/api/validations.go with [PendingValidations] and [latestInventory] of
    internal/store/validations.go: what a poll makes of one validation, and the rollback of a failed
    one, composed of the store's own operations.  [World] is what the operations depend on besides the
    database: whether the agent is connected, what it answers to inspections, whether it takes the
    frame, the clock, fresh identifiers, and what the rest of the server does to the database between two of
    the rollback's transactions.  The JSON of a stored baseline is a parameter. *)
From Stdlib Require Import ZArith Lia Ascii String.
From stdpp Require Import base gmap strings list sorting.
From S2P Require Import Prelude Text Permissions Inspection Frame Inventory KubeNames Clamp Spec Store TenantAccess Commands Direct Applications.
From S2P Require Import Registries Preflight Adoption Judge Schedule Policies Validations Scheduler Deployments Apply Planning Rollbacks.

#[local] Open Scope Z_scope.

Definition PendingValidationsPerOrg : nat := 2.
Definition MaxPendingValidations : nat := 256.
Definition validationActor : string := "system-validation".
Definition ValidationDetailUnobserved : string := "the host could not be observed".
Definition ValidationDetailNoHealth : string := "the agent cannot report container health".
Definition ValidationDetailNoInspect : string := "the cluster agent cannot report workload status; upgrade the agent image".
Definition ValidationDetailInvalid : string := "an inspection failed validation".
Definition ValidationDetailReleased : string := "the application was released".
Definition RollbackCreatorLost : string := "creator_lost".
Definition RollbackNotSent : string := "not_sent".
Definition MaxDeploymentRequestBytesLegacy : Z := 196608.
Definition CapabilityContainerInspectHealth : string := "container.inspect.health".
Definition CapabilityKubernetesInspect : string := "kubernetes.inspect".
Definition KindDeployment : string := "Deployment".

(** ** What is pending *)

Record ObservedService := mkObserved { os_identity : DeploymentIdentity; os_presence : string }.
Record PendingValidation := mkPending {
  pn_row : ValidationRow; pn_policy : string; pn_created_by : string; pn_released : bool; pn_health : bool; pn_kubernetes : bool;
  pn_baseline : gmap string ServiceBaseline; pn_services : list ObservedService }.

Definition pending_row (v : ValidationRow) : bool := negb (v_done v) || awaitingRollback v.
(** [ROW_NUMBER() OVER (PARTITION BY organization_id ...) <= n] of rows in that order. *)
Fixpoint first_per_org (n : nat) (seen : list string) (rows : list ValidationRow) : list ValidationRow :=
  match rows with
  | [] => []
  | v :: rows' =>
      let rest := first_per_org n (v_org v :: seen) rows' in
      if (length (List.filter (fun o => bool_decide (o = v_org v)) seen) <? n)%nat then v :: rest else rest
  end.
Definition pending_rows (db : DB) : list ValidationRow :=
  take MaxPendingValidations
    (List.filter (fun v => bool_decide (is_Some (deployments db !! v_id v)))
      (first_per_org PendingValidationsPerOrg [] (select_by v_started v_id pending_row (validations db)))).

(** The snapshot and when it was received; [None] when its container list may be incomplete. *)
Definition latestInventory (endpoint : string) (db : DB) : option (Snapshot * time) :=
  match inventories db !! endpoint with
  | Some i => match iv_snapshot i with
              | Some s => if (llen (sn_containers s) >? MaxContainers) || bool_decide ("containers" ∈ sn_truncated s) then None else Some (s, iv_received i)
              | None => None
              end
  | None => None
  end.
Definition place (kubernetes : bool) (bound : gmap string boundResource) (snap : option Snapshot) (id : DeploymentIdentity) : ObservedService :=
  mkObserved id (if kubernetes || bool_decide (id_kind id = KindDeployment) then PresenceUnknown else presence id bound snap).

Definition policy_of_run (run : option string) (db : DB) : option PolicyRow :=
  match run with
  | Some r => match runs db !! r with Some row => policies db !! r_policy row | None => None end
  | None => None
  end.

Section baseline.
Context (UnmarshalBaseline : string -> option (gmap string ServiceBaseline)).

Definition stored_baseline (raw : string) : option (gmap string ServiceBaseline) := if nonempty raw then UnmarshalBaseline raw else Some ∅.
Definition pending_of (db : DB) (v : ValidationRow) : option PendingValidation :=
  let kubernetes := match endpoints db !! v_endpoint v with Some e => bool_decide (ep_runtime e = RuntimeKubernetes) | None => false end in
  let caps := default ∅ (capabilities db !! v_endpoint v) in
  let snap := match latestInventory (v_endpoint v) db with
              | Some (s, received) => if received <? v_started v then None else Some s
              | None => None
              end in
  let policy := policy_of_run (v_run v) db in
  match deployments db !! v_id v, stored_baseline (v_baseline v) with
  | Some d, Some baseline =>
      (fun r => mkPending v (default "" (p_id <$> policy)) (default "" (p_created_by <$> policy))
                  (bool_decide (instances db !! v_instance v = None))
                  (bool_decide (CapabilityContainerInspectHealth ∈ caps) || bool_decide (CapabilityKubernetesInspect ∈ caps))
                  kubernetes baseline
                  (map (place kubernetes (boundServices (v_instance v) db) snap) (sr_services r))) <$> d_result d
  | _, _ => None
  end.
Definition PendingValidations (db : DB) : res StoreErr (list PendingValidation) :=
  match mapM (pending_of db) (pending_rows db) with Some l => Ok l | None => Fail ErrRevisionCorrupt end.
End baseline.

(** ** What the agent answers *)

(** One inspection: not asked because the budget is spent, no answer, one that failed validation, or one. *)
Inductive Asked := Spent | Unanswered | Invalid | Answered (i : ContainerInspection).

Record World := mkWorld {
  wd_connected : nat -> bool;                         (** at each time it is read *)
  wd_observe : nat -> InspectionTarget -> Asked;      (** the poll's inspections, in order *)
  wd_stopped : bool;                                  (** shutdown fell in the poll *)
  wd_attempt : bool;                                  (** the actor's inspection attempt was admitted *)
  wd_inspect : nat -> InspectionTarget -> Asked;      (** the rollback plan's inspections *)
  wd_deliver : DeploymentRequest -> bool;             (** the frame was queued on a live socket *)
  wd_clock : nat -> time;
  wd_correlation : string; wd_deployment : string; wd_fresh : string;
  wd_meanwhile : nat -> DB -> DB }.                   (** the rest of the server, before each transaction *)

Definition target_for (id : DeploymentIdentity) : InspectionTarget :=
  if bool_decide (id_kind id = KindDeployment) then mkTarget "" "" 0 (mkRef (id_namespace id) "" (id_name id) (id_uid id))
  else mkTarget (id_container id) (id_image id) (id_created id) no_workload.

(** [None]: an answer failed validation.  A spent budget sends nothing more. *)
Fixpoint observe_loop (ask : nat -> InspectionTarget -> Asked) (spent : bool) (n : nat) (services : list ObservedService) : option (list Observation) :=
  match services with
  | [] => Some []
  | s :: services' =>
      let id := os_identity s in
      let row i := mkObservation (id_service id) (os_presence s) i (id_generation id) in
      let looked := bool_decide (os_presence s = PresencePresent) || bool_decide (os_presence s = PresenceUnknown) in
      let answer := if looked then (if spent then Spent else ask n (target_for id)) else Unanswered in
      match answer with
      | Invalid => None
      | Answered i => cons (row (Some i)) <$> observe_loop ask spent (S n) services'
      | Unanswered => cons (row None) <$> observe_loop ask spent (S n) services'
      | Spent => cons (row None) <$> observe_loop ask true (S n) services'
      end
  end.
Definition observeServices (w : World) (p : PendingValidation) : option (list Observation) := observe_loop (wd_observe w) false 0 (pn_services p).

Fixpoint inspect_loop (ask : nat -> InspectionTarget -> Asked) (n : nat) (services : list PreflightService) (out : gmap string ContainerInspection)
    : gmap string ContainerInspection :=
  match services with
  | [] => out
  | svc :: services' =>
      match pf_target svc with
      | None => inspect_loop ask (S n) services' out
      | Some t =>
          match ask n t with
          | Spent => out
          | Answered i => inspect_loop ask (S n) services' (<[it_container t := i]> out)
          | Unanswered | Invalid => inspect_loop ask (S n) services' out
          end
      end
  end.
Definition inspectForPlan (w : World) (caps : gset string) (pre : DeploymentPreflight) : gmap string ContainerInspection :=
  if negb (bool_decide (CapabilityContainerInspect ∈ caps)) || negb (bool_decide (CapabilityContainerInspectVerdict ∈ caps)) || negb (wd_attempt w) then ∅
  else inspect_loop (wd_inspect w) 0 (dpf_services pre) ∅.

Definition maxFrameBytes (caps : gset string) : Z :=
  if bool_decide (CapabilityDeploymentPull ∈ caps) || bool_decide (CapabilityKubernetesDeploy ∈ caps) then MaxDeploymentRequestBytes
  else MaxDeploymentRequestBytesLegacy.
(** What [performRollback] reads of the endpoint: its capabilities. *)
Definition ReadEndpoint (a : TenantAccess) (id : string) : time -> string -> DB -> res StoreErr (gset string) * DB :=
  readTenant a EndpointRead (
    row ← gets (fun db => endpoints db !! id);
    e ← one row ErrNotFound;
    _ ← ensure (bool_decide (ep_org e = OrganizationID a)) ErrNotFound;
    gets (fun db => default ∅ (capabilities db !! id))).

(** ** A rollback *)

Definition rollbackCode (err : StoreErr) : string :=
  if bool_decide (err = ErrForbidden) then RollbackCreatorLost else (policyFailure err).2.

(** The outcome and detail recorded, and the frame the agent was sent. *)
Record Outcome := mkOutcome { oc_outcome : string; oc_detail : string; oc_sent : option DeploymentRequest }.
Definition rollback_failed (detail : string) : Outcome := mkOutcome RollbackFailed detail None.

(** Calls in order on the shared database, any of which may return early. *)
Definition Calls (A : Type) : Type := DB -> (Outcome + A) * DB.
#[export] Instance calls_ret : MRet Calls := fun A x db => (inr x, db).
#[export] Instance calls_bind : MBind Calls :=
  fun A B k m db => match m db with (inr x, db') => k x db' | (inl o, db') => (inl o, db') end.
Definition return_ {A} (o : Outcome) : Calls A := fun db => (inl o, db).
Definition unless {A} (c : bool) (o : Outcome) (k : Calls A) : Calls A := if c then k else return_ o.
(** The [n]th call, on the database as the rest of the server leaves it. *)
Definition call {A} (w : World) (n : nat) (refusal : StoreErr -> Outcome) (op : time -> DB -> res StoreErr A * DB) : Calls A := fun db =>
  match op (wd_clock w n) (wd_meanwhile w n db) with
  | (Ok x, db') => (inr x, db')
  | (Fail e, db') => (inl (refusal e), db')
  end.
Definition settled_calls (m : Calls Outcome) (db : DB) : Outcome * DB :=
  match m db with (inl o, db') | (inr o, db') => (o, db') end.

Definition plan_refused (e : StoreErr) : Outcome :=
  match e with PreflightBlocked blockers _ => rollback_failed (joinCodes blockers 255) | _ => rollback_failed (rollbackCode e) end.
Definition apply_refused (e : StoreErr) : Outcome :=
  if bool_decide (e = ErrPolicyChanged) then rollback_failed "policy_changed" else rollback_failed (rollbackCode e).

Definition actor_of (w : World) (p : PendingValidation) : TenantAccess :=
  mkAccess (pn_created_by p) (v_org (pn_row p)) (v_env (pn_row p)) (wd_correlation w) "" "".

Section loop.
Context (Marshal : ApplicationSpec -> string) (Unmarshal : string -> option ApplicationSpec) (sum_hex : string -> string)
  (UnmarshalValues : string -> option (gmap string string)) (DeriveKey : string -> string -> string)
  (DecryptAESGCM : string -> string -> option string) (uuid_parse : string -> option string)
  (preview_digest : AdoptionPreview -> string) (frame_bytes : DeploymentRequest -> Z) (plan_bytes : DeploymentPlan -> Z)
  (allowPrivileged : bool) (key : string) (allowPrivate : bool).

Definition rollback_request (rb : Rollback) (caps : gset string) (inspections : gmap string ContainerInspection) : PlanRequest :=
  mkPlanRequest (rb_instance rb) (rb_mapping rb) (rb_revision rb) (rb_project rb) [] (maxFrameBytes caps) inspections (rb_images rb).

Definition rollback_calls (w : World) (p : PendingValidation) : Calls Outcome :=
  let v := pn_row p in
  let a := actor_of w p in
  let refused e := rollback_failed (rollbackCode e) in
  answer ← call w 0 refused (fun now => RollbackTarget uuid_parse Unmarshal sum_hex a (v_app v) (v_id v) now (wd_fresh w));
  match answer with
  | (Some rb, "") =>
      unless (wd_connected w 1) (rollback_failed "endpoint_offline") (
        caps ← call w 1 refused (fun now => ReadEndpoint a (v_endpoint v) now (wd_fresh w));
        pre ← call w 2 refused (fun now => PreflightApplication Marshal Unmarshal sum_hex uuid_parse preview_digest allowPrivileged a (v_app v) now (wd_fresh w));
        d ← call w 3 plan_refused (fun now =>
              PlanDeployment Marshal Unmarshal sum_hex UnmarshalValues DeriveKey DecryptAESGCM uuid_parse preview_digest frame_bytes plan_bytes
                allowPrivileged a (v_app v) (rollback_request rb caps (inspectForPlan w caps pre)) None key allowPrivate (wd_deployment w)
                (wd_correlation w) now (wd_clock w 4) (wd_meanwhile w 4) false (wd_fresh w));
        _ ← call w 5 refused (fun _ => MarkRollbackPlanned (v_id v) (d_id d));
        unless (wd_connected w 2) (rollback_failed "endpoint_offline") (
          sent ← call w 6 apply_refused (fun now =>
                ApplyPolicyDeployment Unmarshal sum_hex UnmarshalValues DeriveKey DecryptAESGCM uuid_parse frame_bytes allowPrivileged
                  a (pn_policy p) "" (v_app v) (d_id d) (match d_plan d with Some plan => pl_project plan | None => "" end) key (maxFrameBytes caps) now (wd_fresh w));
          if wd_deliver w sent.2 then (mret (mkOutcome RollbackApplied "" (Some sent.2)) : Calls Outcome)
          else
            (* An unsent row whose failure is not recorded is logged only. *)
            fun db => (inr (rollback_failed RollbackNotSent),
                       (FailDeployment (d_id sent.1) "the endpoint disconnected before the deployment was sent" (wd_clock w 7) (fun _ => wd_fresh w)
                          (wd_meanwhile w 7 db)).2)))
  | (_, reason) => return_ (mkOutcome RollbackIneligible reason None)
  end.
Definition performRollback (w : World) (p : PendingValidation) : DB -> Outcome * DB := settled_calls (rollback_calls w p).

(** The outcome is recorded after whatever else the server did; recording it pauses the policy. *)
Definition roll_back (w : World) (p : PendingValidation) (db : DB) : DB :=
  let '(o, db') := performRollback w p db in
  (MarkRollbackOutcome (v_id (pn_row p)) (oc_outcome o) (oc_detail o) (wd_clock w 8) (wd_meanwhile w 8 db')).2.

Definition finish_validation (w : World) (p : PendingValidation) (verdict detail : string) (db : DB) : DB :=
  match FinishValidation (v_id (pn_row p)) verdict detail (wd_clock w 9) db with
  | (Ok true, db') => roll_back w p db'
  | (_, db') => db'
  end.

(** ** One poll *)

Inductive Poll := Wait | Owed | Settle (verdict detail : string) | Look.

Definition in_grace (p : PendingValidation) : bool := bool_decide (v_phase (pn_row p) = PhaseGrace).
Definition window_over (p : PendingValidation) (now : time) : bool := v_until (pn_row p) <=? now.
(** Past the window by a further grace with no complete observation. *)
Definition late (p : PendingValidation) (now : time) : bool := v_until (pn_row p) + ValidationGrace <=? now.
Definition unwatchable (p : PendingValidation) (now : time) : Poll :=
  if late p now then Settle VerdictUnverifiable ValidationDetailUnobserved else Wait.
Definition poll (p : PendingValidation) (now : time) (connected : bool) : Poll :=
  if v_done (pn_row p) then Owed
  else if pn_released p then Settle VerdictChanged ValidationDetailReleased
  else if in_grace p && (now <? v_started (pn_row p) + ValidationGrace) then Wait
  else if negb (pn_health p) then Settle VerdictUnverifiable (if pn_kubernetes p then ValidationDetailNoInspect else ValidationDetailNoHealth)
  else if negb connected then unwatchable p now
  else if in_grace p && window_over p now then Settle VerdictUnverifiable ValidationDetailUnobserved
  else Look.
Definition judged_poll (p : PendingValidation) (now : time) (obs : list Observation) (baseline : gmap string ServiceBaseline) : Poll :=
  let '(verdict, detail) := Judge obs baseline (window_over p now) in
  if nonempty verdict then Settle verdict detail else unwatchable p now.

Definition act_on (w : World) (p : PendingValidation) (what : Poll) (db : DB) : DB :=
  match what with
  | Owed => roll_back w p db
  | Settle verdict detail => finish_validation w p verdict detail db
  | Wait | Look => db
  end.

Definition validate (w : World) (p : PendingValidation) (now : time) (db : DB) : DB :=
  match poll p now (wd_connected w 0) with
  | Look =>
      let looked := observeServices w p in
      if wd_stopped w then db
      else match looked with
      | None => finish_validation w p VerdictUnverifiable ValidationDetailInvalid db
      | Some obs =>
          if in_grace p then
            match BaselineOf obs with
            | None => act_on w p (unwatchable p now) db
            | Some baseline =>
                match BeginObservation (v_id (pn_row p)) baseline db with
                | (Ok _, db') => act_on w p (judged_poll p now obs baseline) db'
                | (Fail _, db') => db'
                end
            end
          else act_on w p (judged_poll p now obs (pn_baseline p)) db
      end
  | what => act_on w p what db
  end.
End loop.
