(* ===== verification/RollbackSafety.v ===== *)
(** * What a poll and a rollback leave behind

    Every operation [performRollback] is composed of leaves the watched validation alone, names a rollback
    on it, or is refused; whatever the agent and the rest of the server do, a decision that is due is
    recorded and the policy behind the update is paused; and a frame leaves only for the named row.  Calls are
    reasoned about with triples over the store's invariants. *)
From Stdlib Require Import ZArith Lia Ascii String.
From stdpp Require Import base gmap strings list sorting relations.
From S2P Require Import Prelude Text Permissions Inspection Frame Inventory KubeNames Spec Store TenantAccess Commands Direct Applications.
From S2P Require Import Registries Preflight Adoption Judge Schedule Policies Validations Scheduler Ledger Deployments Apply Planning Refinement Scenario.
From S2P Require Import Guarantees Rollbacks ValidationLoop.

#[local] Open Scope Z_scope.

(** ** The watched row *)

(** The store's invariants, and a validation of a deployment that was acted on. *)
Record Watched (id : string) (v : ValidationRow) (db : DB) : Prop := {
  wa_policies : PolicyInv db;
  wa_validations : ValInv db;
  wa_deployments : DepInv db;
  wa_orderly : Orderly (ledger_of db);
  wa_row : validations db !! id = Some v;
  wa_acted : exists d, deployments db !! id = Some d /\ acted d = true }.

(** What planning and applying do to policies, runs and validations: planned rows take theirs along. *)
Record Quiet (db db' : DB) : Prop := {
  qu_policies : policies db' = policies db;
  qu_runs : runs db' = runs db;
  qu_validations : exists gone : string -> bool,
    validations db' = filter (fun kv => gone kv.1 = false) (validations db) /\
    forall k, gone k = true -> exists d, deployments db !! k = Some d /\ in_state StatePlanned d = true }.

Lemma quiet_same db db' : policies db' = policies db -> runs db' = runs db -> validations db' = validations db -> Quiet db db'.
Proof.
  intros Hp Hr Hv. split; [done..|]. exists (fun _ => false). split; [|done]. rewrite Hv. apply map_eq. intros k.
  destruct (filter _ _ !! k) as [x|] eqn:E.
  - by apply map_lookup_filter_Some in E as [-> _].
  - apply map_lookup_filter_None in E as [->|E]; [done|]. destruct (validations db !! k) as [x|] eqn:Ek; [|done]. by destruct (E x).
Qed.
Lemma quiet_refl db : Quiet db db.
Proof. by apply quiet_same. Qed.
Lemma quiet_audit db db' rec : Quiet db db' -> Quiet db (add_audit rec db').
Proof. by intros []. Qed.

Lemma ValInv_filter db db' (gone : string -> bool) :
  validations db' = filter (fun kv => gone kv.1 = false) (validations db) -> ValInv db -> ValInv db'.
Proof.
  intros E [Hk Hr Hu]. split; rewrite E.
  - intros k v [Hv _]%map_lookup_filter_Some. by apply Hk.
  - intros k v [Hv _]%map_lookup_filter_Some. by eapply Hr.
  - intros k k' v v' r [Hv _]%map_lookup_filter_Some [Hv' _]%map_lookup_filter_Some. by eapply Hu.
Qed.

Definition sides (db : DB) := (policies db, runs db, validations db).
Lemma sides_quiet db db' : sides db' = sides db -> Quiet db db'.
Proof. unfold sides. intros [= Hp Hr Hv]. by apply quiet_same. Qed.

Lemma quiet_insertPlan plan_bytes a d plan instance db u db' :
  keyed d_id (deployments db) -> insertPlan plan_bytes a d plan instance db = Ok (u, db') -> Quiet db db'.
Proof.
  intros Hk. unfold insertPlan. intros H. apply bind_ok in H as ([] & ? & Hz & H). apply ensure_ok in Hz as [_ [= ->]].
  apply bind_ok in H as (found & ? & Hz & H). apply gets_ok in Hz as [= -> ->].
  apply bind_ok in H as ([] & ? & Hz & H). apply ensure_ok in Hz as [Hna [= ->]]. apply bind_ok in H as ([] & db1 & Hdel & H).
  assert (Hput : policies db' = policies db1 /\ runs db' = runs db1 /\ validations db' = validations db1).
  { apply insert_deployment_ok in H. naive_solver. }
  destruct Hput as (Ep & Er & Ev). destruct (live_here a instance db) as [l|] eqn:El.
  2:{ apply ret_ok in Hdel as [= ->]. by apply quiet_same. }
  unfold live_here in El. apply find_some in El as [Hin Hl]. apply elem_rows in Hin as (kl & Hrow). apply andb_true_iff in Hl as [_ Hl].
  apply negb_true_iff in Hna. apply modify_ok in Hdel as [= ->]. split; [done..|].
  exists (fun k => from_option (fun o => bool_decide (d_id o = d_id l)) false (deployments db !! k)). split; [done|].
  intros k Hg. destruct (deployments db !! k) as [o|] eqn:Eo; [|done]. simpl in Hg. apply bool_decide_eq_true in Hg.
  rewrite (Hk _ _ Eo), (Hk _ _ Hrow) in Hg. subst kl. rewrite Eo in Hrow. injection Hrow as ->. exists l. split; [done|].
  unfold live in Hl. by rewrite Hna, orb_false_r in Hl.
Qed.

Section quiet.
Context (sum_hex : string -> string) (Unmarshal : string -> option ApplicationSpec)
  (UnmarshalValues : string -> option (gmap string string)) (DeriveKey : string -> string -> string)
  (DecryptAESGCM : string -> string -> option string) (uuid_parse : string -> option string)
  (frame_bytes : DeploymentRequest -> Z) (plan_bytes : DeploymentPlan -> Z) (allowPrivileged : bool)
  (Marshal : ApplicationSpec -> string) (preview_digest : AdoptionPreview -> string).

Lemma quiet_run {A} (op : tx A) a action notes lock now fresh db :
  (forall x db1, op db = Ok (x, db1) -> Quiet db db1) -> Quiet db (run a action notes lock (lift op) now fresh db).2.
Proof.
  intros Hop. unfold run. destruct (runAs _ _ _ _ _ _ _ _ _) as [[x|e] db'] eqn:E; apply runAs_split in E; simpl.
  - destruct E as (role & n & db1 & _ & _ & _ & Hrun & Hd). unfold lift in Hrun. injection Hrun as _ Hrun. apply Hop in Hrun.
    destruct (_ || _); [|by subst]. destruct Hd as (rec & -> & _). by apply quiet_audit.
  - destruct E as [->|(rec & -> & _)]; [apply quiet_refl|by apply quiet_audit, quiet_refl].
Qed.
Lemma quiet_read {A} (op : tx A) a action now fresh db : Reads op -> Quiet db (readTenant a action op now fresh db).2.
Proof. intros Hr. apply quiet_run. intros x db1 H. reading H. apply quiet_refl. Qed.

Local Notation plan_tx a app id r key now :=
  (plan_body Marshal Unmarshal sum_hex UnmarshalValues DeriveKey DecryptAESGCM preview_digest frame_bytes plan_bytes allowPrivileged a app id r key now).
Local Notation replan_tx a app r d state blockers plan cancelled key now :=
  (update_write Unmarshal sum_hex UnmarshalValues DeriveKey DecryptAESGCM frame_bytes plan_bytes allowPrivileged a app r d state blockers plan cancelled key now).

Lemma plan_body_ok a app id r key now db row db' :
  plan_tx a app id r key now db = Ok (row, db') ->
  exists d, draftPlan Marshal Unmarshal sum_hex preview_digest allowPrivileged a app id r now db = Ok (d, db) /\
    am_runtime (dr_mapping d) = RuntimeDocker /\ blocked (dr_blockers d) (dr_refused d) = None /\ row = dr_row d /\
    insertPlan plan_bytes a (dr_row d) (dr_plan d) (am_instance (dr_mapping d)) db = Ok (tt, db').
Proof.
  unfold plan_body. intros H. apply bind_ok in H as (d & ? & Hd & H). reading Hd.
  apply bind_ok in H as ([] & ? & Hz & H). apply ensure_ok in Hz as [Hrt [= ->]]. apply bool_decide_eq_true in Hrt.
  apply bind_ok in H as ([] & ? & Hz & H). pose proof Hz as Hz'. apply reads_blocked_error in Hz' as ->.
  apply bind_ok in H as ([] & ? & Hc & H). apply reads_checkFrame in Hc as ->.
  apply bind_ok in H as ([] & ? & Hi & H). apply ret_ok in H as [= -> ->]. exists d. split_and!; try done.
  unfold blocked_error in Hz. by destruct (blocked _ _) as [[]|].
Qed.
Lemma update_write_ok a app r d state blockers plan cancelled key now db row db' :
  replan_tx a app r d state blockers plan cancelled key now db = Ok (row, db') ->
  row = replanned (dr_row d) plan now /\ insertPlan plan_bytes a row plan (d_instance row) db = Ok (tt, db').
Proof.
  unfold update_write. intros H. apply bind_ok in H as ([] & ? & Hz & H). apply ensure_ok in Hz as [_ [= ->]].
  apply bind_ok in H as ([] & ? & Hz & H). apply reads_lockApplication in Hz as ->.
  apply bind_ok in H as (c & ? & Hz & H). reading Hz. apply bind_ok in H as ([] & ? & Hz' & H). apply ensure_ok in Hz' as [_ [= ->]].
  apply bind_ok in H as ([] & ? & Hz' & H). apply reads_blocked_error in Hz' as ->.
  apply bind_ok in H as ([] & ? & Hz' & H). apply reads_checkFrame in Hz' as ->.
  apply bind_ok in H as ([] & ? & Hi & H). apply ret_ok in H as [= -> ->]. done.
Qed.

Lemma quiet_applyDeployment a app id confirm key max run guard now fresh db :
  (forall a app, Reads (guard a app)) -> keyed d_id (deployments db) ->
  Quiet db (applyDeployment Unmarshal sum_hex UnmarshalValues DeriveKey DecryptAESGCM uuid_parse frame_bytes allowPrivileged
              a app id confirm key max run guard now fresh db).2.
Proof.
  intros Hg Hk. unfold applyDeployment. destruct (uuid_parse app) as [app'|]; [|apply quiet_refl]. destruct (_ || _); [apply quiet_refl|].
  destruct (uuid_parse id) as [id'|]; [|apply quiet_refl]. apply quiet_run. intros [row f] db1 H.
  destruct (apply_body_ok _ _ _ _ _ uuid_parse _ (fun _ => 0) _ _ _ _ _ _ _ _ _ _ _ _ _ _ (Hg _ _) H) as (d & plan & _ & _ & _ & _ & _ & Hdb).
  rewrite (Hdb Hk). by apply quiet_same.
Qed.

Lemma sides_transition filter_ set_ outcome result now fresh : Keeps sides (systemTransition filter_ set_ outcome result now fresh).
Proof.
  unfold systemTransition. apply keeps_bind; [apply keeps_gets|intros l]. induction l as [|r l IH]; simpl; [apply keeps_ret|].
  apply keeps_bind; [unfold update_deployment, put_deployment; keeps|intros n]. destruct (negb _); [done|].
  apply keeps_bind; [unfold auditDeployment; keeps|intros _]. apply keeps_bind; [done|intros t; apply keeps_ret].
Qed.
Lemma quiet_fail id detail now fresh db : Quiet db (FailDeployment id detail now fresh db).2.
Proof.
  unfold FailDeployment. apply (commit_preserves (Quiet db)); [apply quiet_refl|]. intros u db1 H. apply sides_quiet. revert H. apply keeps_bind; [apply sides_transition|intros; apply keeps_ret].
Qed.
End quiet.

(** ** Every operation leaves the watched row *)

Section watched.
Context (Marshal : ApplicationSpec -> string) (Unmarshal : string -> option ApplicationSpec) (sum_hex : string -> string)
  (UnmarshalValues : string -> option (gmap string string)) (DeriveKey : string -> string -> string)
  (DecryptAESGCM : string -> string -> option string) (uuid_parse : string -> option string)
  (preview_digest : AdoptionPreview -> string) (frame_bytes : DeploymentRequest -> Z) (plan_bytes : DeploymentPlan -> Z)
  (allowPrivileged : bool).
Local Notation step := (dep_step Marshal Unmarshal sum_hex UnmarshalValues DeriveKey DecryptAESGCM uuid_parse preview_digest frame_bytes plan_bytes
  (fun _ => 0) (fun _ => 0) allowPrivileged false).

Lemma watched_step id v db db' : rtc step db db' -> Quiet db db' -> Watched id v db -> Watched id v db'.
Proof.
  intros R [Hp Hr (gone & Hv & Hg)] [Wp Wv Wd Wo Wr (d & Hd & Ha)]. destruct (dep_steps_sim _ _ _ _ _ _ _ _ _ _ _ _ _ _ _ _ R Wd Wo) as (Hd' & Ho' & L).
  split; [by apply (PolicyInv_ext db)|by eapply ValInv_filter|done|done| |].
  - rewrite Hv. apply map_lookup_filter_Some. split; [done|]. simpl. destruct (gone id) eqn:E; [|done]. destruct (Hg _ E) as (d0 & Hd0 & Hs).
    assert (d0 = d) as -> by congruence. unfold acted in Ha. by rewrite Hs in Ha.
  - rewrite acted_begun in Ha. destruct (lsteps_kept _ _ L id _ (ledger_row _ _ _ Hd) Ha) as (p & Hx & Hn & _). apply ledger_entry in Hx as (d' & Hd2 & E).
    exists d'. split; [done|]. rewrite acted_begun, <- E. by apply begun_planned.
Qed.

Lemma watched_read {A} (op : tx A) a action id v now fresh db :
  Reads op -> Watched id v db -> Watched id v (readTenant a action op now fresh db).2.
Proof.
  intros Hr. apply watched_step; [|by apply quiet_read]. apply rtc_once, st_other. by apply run_reading.
Qed.
Lemma watched_plan a app r resolver key private did correlation now later meanwhile cancelled fresh id v db :
  (forall d, Watched id v d -> Watched id v (meanwhile d)) -> Watched id v db ->
  Watched id v (PlanDeployment Marshal Unmarshal sum_hex UnmarshalValues DeriveKey DecryptAESGCM uuid_parse preview_digest frame_bytes plan_bytes allowPrivileged
       a app r resolver key private did correlation now later meanwhile cancelled fresh db).2.
Proof.
  intros Hm Hw. pose proof (di_key _ (wa_deployments _ _ _ Hw)) as Hkey. unfold PlanDeployment. destruct (uuid_parse app) as [app'|]; [|done].
  do 5 (match goal with |- context [if ?c then (Fail ErrInvalid, _) else _] => destruct c; [done|] end).
  destruct (_ && negb _).
  { revert Hw. apply watched_step; [by apply rtc_once, st_plan|]. apply quiet_run. intros x db1 (d & _ & _ & _ & _ & Hi)%plan_body_ok.
    by eapply quiet_insertPlan. }
  match goal with |- context [run ?a ?act ?n false (lift ?op) ?now ?fr db] =>
    assert (Reads op) as Hr by eauto with keeps;
    destruct (run_reading op a act n now fr db Hr) as [Ht Hop];
    assert (Watched id v (run a act n false (lift op) now fr db).2) as Hw1;
    [revert Hw; apply watched_step; [by apply rtc_once, st_other|apply quiet_run; intros x db1 H; reading H; apply quiet_refl]|];
    destruct (run a act n false (lift op) now fr db) as [[[[d f] state]|e] db'] end; simpl in Hw1; [|done].
  specialize (Hop _ eq_refl). apply update_read_drafted in Hop; [|done..].
  destruct (match resolver with Some _ => _ | None => _ end) as [blockers services].
  specialize (Hm _ Hw1). pose proof (di_key _ (wa_deployments _ _ _ Hm)) as Hk. revert Hm. apply watched_step; [by apply rtc_once, st_replan|].
  apply quiet_run. intros x db1 [_ Hi]%update_write_ok. by eapply quiet_insertPlan.
Qed.
Lemma watched_apply a policy rn app id' confirm key max now fresh id v db :
  Watched id v db -> Watched id v (ApplyPolicyDeployment Unmarshal sum_hex UnmarshalValues DeriveKey DecryptAESGCM uuid_parse frame_bytes allowPrivileged
                a policy rn app id' confirm key max now fresh db).2.
Proof.
  intros Hw. pose proof Hw as Hk. revert Hw. apply watched_step; [by apply rtc_once, st_apply_policy|].
  apply quiet_applyDeployment; [intros; apply reads_policy_guard|apply Hk].
Qed.
Lemma watched_fail id' detail now fresh id v db : Watched id v db -> Watched id v (FailDeployment id' detail now fresh db).2.
Proof. apply watched_step; [by apply rtc_once, st_fail|apply quiet_fail]. Qed.

(** Naming a rollback changes only the name. *)
Lemma watched_validations id v w db :
  Watched id v db -> VInv w -> v_id w = id -> rollback_free w db = true -> Watched id w (set_validations (<[id := w]> (validations db)) db).
Proof.
  intros [Wp Wv Wd Wo Wr Wa] Hw Hid Hf. split; [by apply set_validations_PolicyInv| |by apply (DepInv_tables db)|done|by simpl; rewrite lookup_insert_eq|done].
  rewrite <- Hid. by apply ValInv_set.
Qed.
Lemma watched_named rollback id v db u db' :
  rollback <> "" -> Watched id v db -> MarkRollbackPlanned id rollback db = (Ok u, db') -> Watched id (with_rollback rollback v) db' /\ v_rollback v = None.
Proof.
  intros Hne Hw. unfold MarkRollbackPlanned, commit. destruct (updateOne _ db) as [[x db1]|e] eqn:E; [|done]. intros [= _ <-].
  apply updateOne_ok in E as (w & Hv & Hg & Hfree & Hok & ->). assert (w = v) as -> by (rewrite (wa_row _ _ _ Hw) in Hv; congruence).
  assert (v_id v = id) as Hid by (by apply (val_keys _ (wa_validations _ _ _ Hw))). simpl. rewrite Hid. split.
  - apply (watched_validations id v); [done| |done|done]. apply VInv_named; [by apply (val_rows _ (wa_validations _ _ _ Hw) id)|done|done].
  - unfold awaitingRollback in Hg. gobool. done.
Qed.
Lemma watched_unnamed rollback id v db e db' : MarkRollbackPlanned id rollback db = (Fail e, db') -> Watched id v db -> Watched id v db'.
Proof. unfold MarkRollbackPlanned, commit. destruct (updateOne _ db) as [[x db1]|]; [done|]. by intros [= _ <-]. Qed.
End watched.

(** ** A plan is what was asked for *)

(** The row of a plan on a request without updates: the request's instance, mapping, project and
    revision, and on a Docker host the pinned image of every service that has one. *)
Record planned_for (r : PlanRequest) (did : string) (row : DeploymentRow) : Prop := {
  pd_id : d_id row = did;
  pd_request : (d_instance row, d_mapping row, d_project row) = (pq_instance r, pq_mapping r, pq_confirm r);
  pd_revision : pq_revision r = 0 \/ d_revision row = pq_revision r;
  pd_planned : d_state row = StatePlanned /\ d_policy_run row = None;
  pd_plan : exists plan, d_plan row = Some plan /\ pl_project plan = pq_confirm r /\
    (pl_namespace plan = "" -> forall ps image, ps ∈ pl_services plan -> pq_pins r !! ps_name ps = Some image -> ps_image ps = image) }.

Section planned.
Context (Marshal : ApplicationSpec -> string) (Unmarshal : string -> option ApplicationSpec) (sum_hex : string -> string)
  (UnmarshalValues : string -> option (gmap string string)) (DeriveKey : string -> string -> string)
  (DecryptAESGCM : string -> string -> option string) (uuid_parse : string -> option string)
  (preview_digest : AdoptionPreview -> string) (frame_bytes : DeploymentRequest -> Z) (plan_bytes : DeploymentPlan -> Z)
  (allowPrivileged : bool).
Local Notation draft_tx := (draftPlan Marshal Unmarshal sum_hex preview_digest allowPrivileged).

Lemma applicationMapping_namespace a app now db m db' :
  applicationMapping Marshal Unmarshal sum_hex preview_digest a app now db = Ok (m, db') ->
  am_runtime m = RuntimeKubernetes -> am_namespace m <> "".
Proof.
  unfold applicationMapping. intros H. apply bind_ok in H as (? & ? & Hz & H). apply gets_ok in Hz as [= -> ->].
  apply bind_ok in H as ([[id i] e] & ? & _ & H). apply bind_ok in H as ([] & ? & Hz & H). apply ensure_ok in Hz as [He [= ->]].
  case_bool_decide as Hk; tx_inv H; simpl; [|done]. intros _ E. by rewrite E in He.
Qed.

(** The rows a preflight returns, before the live inspections: each is its service's, with the choice of
    image of [image_choice] unless something blocks it. *)
Definition row_for (pins : gmap string string) (s : ApplicationService) (row : PreflightService) : Prop :=
  pf_blockers row = [] -> forall image, pins !! as_name s = Some image -> pf_image row = image.
Lemma service_row_for m spec snapshot latest pins s external duplicate :
  row_for pins s (service_row m spec snapshot latest pins s external duplicate).
Proof.
  intros Hb image Hi. unfold service_row in Hb. cbn [pf_blockers] in Hb. apply app_eq_nil in Hb as [_ Hb]. apply app_eq_nil in Hb as [_ Hb].
  apply app_eq_nil in Hb as [_ Hb]. apply app_eq_nil in Hb as [Hb _]. unfold service_row. cbn [pf_image]. revert Hb. unfold image_choice. rewrite Hi.
  destruct (validSHA256 image); [|done]. simpl. by destruct (negb _).
Qed.
Lemma service_rows_for m spec snapshot latest pins desired l :
  Forall2 (row_for pins) l (service_rows m spec snapshot latest pins desired l).
Proof.
  revert desired. induction l as [|s l IH]; intros desired; simpl; [constructor|]. case_match. case_match.
  constructor; [apply service_row_for|apply IH].
Qed.
Lemma kept_bind_for a snapshot pins l rows : Forall2 (row_for pins) l rows ->
  forall db rows' db', tx_map (kept_bind allowPrivileged a snapshot) rows db = Ok (rows', db') -> Forall2 (row_for pins) l rows'.
Proof.
  induction 1 as [|s row l rows Hrow _ IH]; intros db rows' db' H; simpl in H.
  - apply ret_ok in H as [= -> ->]. constructor.
  - apply bind_ok in H as (row' & db1 & Hk & H). apply bind_ok in H as (rows1 & db2 & Hm & H). apply ret_ok in H as [= -> ->].
    constructor; [|by eapply IH]. unfold kept_bind in Hk. destruct (keepsHostBind _ _ _ _); [|apply ret_ok in Hk as [= -> _]; done].
    apply bind_ok in Hk as (allowed & ? & _ & Hk). apply ret_ok in Hk as [= -> _]. destruct allowed; [done|]. intros Hb. simpl in Hb. by apply app_eq_nil in Hb as [_ ?].
Qed.
Lemma preflight_rows a app revision pins now db p m spec snapshot digest db' :
  preflight Marshal Unmarshal sum_hex preview_digest allowPrivileged a app revision pins now db = Ok ((p, m, spec, snapshot, digest), db') ->
  (am_runtime m = RuntimeKubernetes -> am_namespace m <> "") /\
  (am_runtime m <> RuntimeKubernetes -> Forall2 (row_for pins) (sp_services spec) (dpf_services p)).
Proof.
  unfold preflight. intros H. apply bind_ok in H as (m' & ? & Hm & H). pose proof (applicationMapping_namespace _ _ _ _ _ _ Hm) as Hns. reading Hm.
  apply bind_ok in H as (? & ? & _ & H). apply bind_ok in H as (? & ? & _ & H). apply bind_ok in H as (? & ? & _ & H).
  apply bind_ok in H as ([[[[[[ar iid] i] number] rv] e] iv] & ? & _ & H). apply bind_ok in H as (? & ? & _ & H).
  apply bind_ok in H as ([snap current] & ? & _ & H). apply bind_ok in H as (? & ? & _ & H). apply bind_ok in H as (spec' & ? & _ & H).
  apply bind_ok in H as (? & ? & _ & H). apply bind_ok in H as (? & ? & _ & H). apply bind_ok in H as (out & ? & Hout & H).
  apply ret_ok in H. injection H as -> -> -> -> _ _. split; [done|]. intros Hd. cbn [dpf_services]. rewrite bool_decide_false in Hout by done.
  apply bind_ok in Hout as (rows & ? & Hrows & Hout). apply ret_ok in Hout as [= -> _]. cbn [dpf_services].
  eapply kept_bind_for; [|exact Hrows]. apply service_rows_for.
Qed.

Lemma inspected_for capabilities inspections p pins s row :
  row_for pins s row -> row_for pins s (inspected_row capabilities inspections p row).
Proof. unfold inspected_row. destruct (_ && _); [|done]. intros Hr Hb. simpl in *. apply app_eq_nil in Hb as [? _]. by apply Hr. Qed.

Lemma draftPlan_for a app did r now db d db' :
  draft_tx a app did r now db = Ok (d, db') ->
  dr_row d = planned_row a app did (dr_mapping d) (d_revision (dr_row d)) (d_digest (dr_row d)) (dr_plan d) now /\
  (am_instance (dr_mapping d), am_version (dr_mapping d), pl_project (dr_plan d)) = (pq_instance r, pq_mapping r, pq_confirm r) /\
  (pq_revision r = 0 \/ d_revision (dr_row d) = pq_revision r) /\
  (am_runtime (dr_mapping d) = RuntimeKubernetes -> pl_namespace (dr_plan d) <> "") /\
  (am_runtime (dr_mapping d) <> RuntimeKubernetes -> blocked (dr_blockers d) (dr_refused d) = None ->
   forall ps image, ps ∈ pl_services (dr_plan d) -> pq_pins r !! ps_name ps = Some image -> ps_image ps = image).
Proof.
  unfold draftPlan. intros H. apply bind_ok in H as ([[[[p m] spec] snapshot] digest] & ? & Hp & H). apply preflight_rows in Hp as [Hns Hrows].
  tx_inv H. rewrite !andb_true_iff, orb_true_iff, !bool_decide_eq_true, !Z.eqb_eq in Hg0. destruct Hg0 as (((Hi & Hm) & Hrev) & Hc).
  split; [done|]. split; [by rewrite Hi, Hm, Hc|]. split; [naive_solver|]. split.
  - intros Hk. unfold plan_namespace, clustered. rewrite bool_decide_true by done. by apply Hns.
  - intros Hk Hb ps image Hps Himg. specialize (Hrows Hk). unfold blocked in Hb. case_bool_decide as Hnil; [|done].
    unfold draft_blockers in Hnil. apply app_eq_nil in Hnil as [_ Hnil]. apply app_eq_nil in Hnil as [_ Hnil]. apply app_eq_nil in Hnil as [Hnil _].
    set (rows := draft_rows _ _ _) in *.
    assert (Forall2 (row_for (pq_pins r)) (sp_services spec) rows) as Hall.
    { unfold rows, draft_rows. apply Forall2_fmap_r. eapply Forall2_impl; [exact Hrows|]. intros s row. apply inspected_for. }
    apply elem_of_lookup_zip_with in Hps as (k & s & row & -> & Hs & Hr). simpl in *.
    apply (Forall2_lookup_lr _ _ _ _ _ _ Hall Hs Hr); [|done]. assert (row ∈ rows) as Hin by (by eapply list_elem_of_lookup_2).
    destruct (pf_blockers row) as [|b bs] eqn:E; [done|]. assert (b ∈ mjoin (map pf_blockers rows)) as Hb'; [|rewrite Hnil in Hb'; by apply elem_of_nil in Hb'].
    apply list_elem_of_join. exists (pf_blockers row). split; [rewrite E; left|]. apply list_elem_of_fmap. by exists row.
Qed.

Lemma PlanDeployment_for a app r key private did correlation now later meanwhile cancelled fresh db row db' :
  pq_update r = [] ->
  PlanDeployment Marshal Unmarshal sum_hex UnmarshalValues DeriveKey DecryptAESGCM uuid_parse preview_digest frame_bytes plan_bytes allowPrivileged
       a app r None key private did correlation now later meanwhile cancelled fresh db = (Ok row, db') ->
  planned_for r did row.
Proof.
  intros Hu. unfold PlanDeployment. destruct (uuid_parse app) as [app'|]; [|done].
  do 5 (match goal with |- context [if ?c then (Fail ErrInvalid, _) else _] => destruct c; [done|] end). rewrite Hu. cbn [bool_decide].
  destruct (bool_decide ([] = []) && negb _) eqn:Ek.
  - unfold withTenantTarget, run. intros (role & n & db1 & _ & _ & _ & Hrun & _)%runAs_split. unfold lift in Hrun. injection Hrun as _ Hrun.
    apply plan_body_ok in Hrun as (d & Hd & Hrt & Hb & -> & _). apply draftPlan_for in Hd as (Hrow & Hreq & Hrev & _ & Himg).
    assert (am_runtime (dr_mapping d) <> RuntimeKubernetes) as Hn by (by rewrite Hrt). specialize (Himg Hn Hb).
    rewrite Hrow. injection Hreq as Ei Em Ep. split; simpl; [done|by rewrite Ei, Em, Ep|done|done|]. by exists (dr_plan d).
  - match goal with |- context [run ?a ?act ?n false (lift ?op) ?now ?fr db] => destruct (run a act n false (lift op) now fr db) as [[[[d f] state]|e] dbr] eqn:Er end; [|done].
    unfold run in Er. apply runAs_split in Er as (role & n & db1 & _ & _ & _ & Hrun & _). unfold lift in Hrun. injection Hrun as _ Hrun.
    unfold update_read in Hrun. apply bind_ok in Hrun as (d' & ? & Hd & Hrun). apply bind_ok in Hrun as ([] & ? & Hz & Hrun). apply ensure_ok in Hz as [Hkube [= ->]].
    assert (d' = d) as -> by (clear -Hrun; repeat first [apply bind_ok in Hrun as (? & ? & _ & Hrun) | apply ret_ok in Hrun; by simplify_eq]).
    apply draftPlan_for in Hd as (Hrow & Hreq & Hrev & Hns & _).
    unfold run. intros (role' & n' & db2 & _ & _ & _ & Hw & _)%runAs_split. unfold lift in Hw. injection Hw as _ Hw.
    apply update_write_ok in Hw as [-> _]. injection Hreq as Ei Em Ep. rewrite Hrow. split; simpl; [done|by rewrite Ei, Em, Ep|done|done|].
    eexists. split; [done|]. split; [done|]. intros E. exfalso. revert E. apply Hns.
    rewrite (bool_decide_true ([] = [])) in Ek by done. simpl in Ek. apply negb_false_iff in Ek. rewrite Ek in Hkube.
    apply eqb_prop, bool_decide_eq_true in Hkube. done.
Qed.
End planned.

(** ** Triples over a rollback's calls *)

(** From [P] the calls end early in [E] or go on in [Q]. *)
Definition triple {A} (P : DB -> Prop) (m : Calls A) (Q : A -> DB -> Prop) (E : Outcome -> DB -> Prop) : Prop :=
  forall db, P db -> match m db with (inr x, db') => Q x db' | (inl o, db') => E o db' end.

Lemma triple_bind {A B} P (m : Calls A) (k : A -> Calls B) R Q E :
  triple P m R E -> (forall x, triple (R x) (k x) Q E) -> triple P (m ≫= k) Q E.
Proof. intros Hm Hk db Hp. specialize (Hm db Hp). unfold mbind, calls_bind. destruct (m db) as [[o|x] db']; [done|]. by apply Hk. Qed.
Lemma triple_given {A} P (F : Prop) (m : Calls A) Q E : (F -> triple P m Q E) -> triple (fun db => P db /\ F) m Q E.
Proof. intros H db [Hp Hf]. by apply H. Qed.
Lemma triple_unless {A} P (c : bool) o (k : Calls A) Q E : triple P k Q E -> (forall db, P db -> E o db) -> triple P (unless c o k) Q E.
Proof. intros Hk Ho. destruct c; [done|]. intros db Hp. by apply Ho. Qed.
Lemma triple_return {A} (P : DB -> Prop) o (Q : A -> DB -> Prop) (E : Outcome -> DB -> Prop) : (forall db, P db -> E o db) -> triple P (return_ o : Calls A) Q E.
Proof. intros Ho db Hp. by apply Ho. Qed.
Lemma triple_ret {A} P (x : A) (Q : A -> DB -> Prop) E : (forall db, P db -> Q x db) -> triple P (mret x) Q E.
Proof. intros Hq db Hp. by apply Hq. Qed.
(** A call keeps what the rest of the server keeps before it and its operation keeps. *)
Lemma triple_call {A} w n refusal (op : time -> DB -> res StoreErr A * DB) (P : DB -> Prop) (Q : A -> DB -> Prop) (E : Outcome -> DB -> Prop) :
  (forall db, P db -> P (wd_meanwhile w n db)) ->
  (forall db x db', P db -> op (wd_clock w n) db = (Ok x, db') -> Q x db') ->
  (forall db e db', P db -> op (wd_clock w n) db = (Fail e, db') -> E (refusal e) db') ->
  triple P (call w n refusal op) Q E.
Proof.
  intros Hm Hq He db Hp. specialize (Hm db Hp). unfold call. destruct (op _ _) as [[x|e] db'] eqn:Eo; [exact (Hq _ _ _ Hm Eo)|exact (He _ _ _ Hm Eo)].
Qed.

(** The rest of the server leaves a watched row watched: only the loop itself, one tick at a time, and
    a restart decide validations. *)
Definition Calm (w : World) (id : string) : Prop := forall n v db, Watched id v db -> Watched id v (wd_meanwhile w n db).

Section rollback.
Context (Marshal : ApplicationSpec -> string) (Unmarshal : string -> option ApplicationSpec) (sum_hex : string -> string)
  (UnmarshalValues : string -> option (gmap string string)) (DeriveKey : string -> string -> string)
  (DecryptAESGCM : string -> string -> option string) (uuid_parse : string -> option string)
  (preview_digest : AdoptionPreview -> string) (frame_bytes : DeploymentRequest -> Z) (plan_bytes : DeploymentPlan -> Z)
  (allowPrivileged : bool) (key : string) (allowPrivate : bool).
Local Notation calls := (rollback_calls Marshal Unmarshal sum_hex UnmarshalValues DeriveKey DecryptAESGCM uuid_parse preview_digest frame_bytes plan_bytes
  allowPrivileged key allowPrivate).
Local Notation target := (RollbackTarget uuid_parse Unmarshal sum_hex).
Local Notation apply_policy := (ApplyPolicyDeployment Unmarshal sum_hex UnmarshalValues DeriveKey DecryptAESGCM uuid_parse frame_bytes allowPrivileged).

(** A frame was sent: [RollbackTarget] had offered [rb] to the policy's creator, a plan was made for exactly that
    and named on the validation, and it was applied under the policy, which was still active and the creator's. *)
Record rolled_back (w : World) (p : PendingValidation) (u v : ValidationRow) (f : DeploymentRequest) (db' : DB) : Prop := {
  rl_named : v = with_rollback (wd_deployment w) u /\ v_rollback u = None;
  rl_target : exists rb caps insp d db0 db1,
    target (actor_of w p) (v_app (pn_row p)) (v_id (pn_row p)) (wd_clock w 0) (wd_fresh w) db0 = (Ok (Some rb, ""), db1) /\
    planned_for (rollback_request rb caps insp) (wd_deployment w) d /\
    exists a app before row was plan pol,
      ActorID a = pn_created_by p /\ OrganizationID a = v_org (pn_row p) /\
      applied frame_bytes a app (wd_deployment w) (rb_project rb) (maxFrameBytes caps) None (wd_clock w 6) before db' row f was plan /\
      policies before !! pn_policy p = Some pol /\ active pol = true /\ p_mode pol = PolicyModeApply /\ p_created_by pol = pn_created_by p }.

(** How the calls end: the row is as it was or has the rollback's name, and what was sent was sent so. *)
Definition ended (w : World) (p : PendingValidation) (u : ValidationRow) (o : Outcome) (db : DB) : Prop :=
  exists v, Watched (v_id (pn_row p)) v db /\ (v = u \/ v = with_rollback (wd_deployment w) u) /\ oc_outcome o ∈ outcomes /\
    (oc_outcome o = RollbackApplied <-> is_Some (oc_sent o)) /\ (forall f, oc_sent o = Some f -> rolled_back w p u v f db).

Lemma ended_unsent w p u o v db : Watched (v_id (pn_row p)) v db -> v = u \/ v = with_rollback (wd_deployment w) u ->
  oc_outcome o = RollbackFailed \/ oc_outcome o = RollbackIneligible -> oc_sent o = None -> ended w p u o db.
Proof.
  intros Hw Hv Ho Hs. exists v. split; [done|]. split; [done|]. rewrite Hs. split_and!.
  - unfold outcomes. destruct Ho as [-> | ->]; set_solver.
  - destruct Ho as [-> | ->]; split; try done; by intros [].
  - done.
Qed.

Lemma RollbackTarget_watched a app deployment now fresh id v db :
  Watched id v db -> Watched id v (target a app deployment now fresh db).2.
Proof.
  intros Hw. unfold RollbackTarget. destruct (uuid_parse app); [|done]. destruct (negb _); [done|]. destruct (uuid_parse deployment); [|done].
  revert Hw. apply (watched_read Marshal Unmarshal sum_hex UnmarshalValues DeriveKey DecryptAESGCM uuid_parse preview_digest frame_bytes plan_bytes allowPrivileged).
  unfold rollback_body, clusterRollback, dockerRollback. keeps.
Qed.

Context (w : World) (p : PendingValidation) (v : ValidationRow).
Local Notation app := (v_app (pn_row p)).
Local Notation id := (v_id (pn_row p)).
Hypothesis (Hcalm : Calm w id) (Hid : wd_deployment w <> "") (Huuid : uuid_parse (wd_deployment w) = Some (wd_deployment w)).

Local Notation named := (with_rollback (wd_deployment w) v).

Lemma unsent o u db : u = v \/ u = named -> Watched id u db -> oc_outcome o = RollbackFailed \/ oc_outcome o = RollbackIneligible -> oc_sent o = None ->
  ended w p v o db.
Proof. intros Hu Hw. by apply (ended_unsent w p v o u). Qed.
Lemma plan_refused_failed e : oc_outcome (plan_refused e) = RollbackFailed /\ oc_sent (plan_refused e) = None.
Proof. by destruct e. Qed.
Lemma apply_refused_failed e : oc_outcome (apply_refused e) = RollbackFailed /\ oc_sent (apply_refused e) = None.
Proof. unfold apply_refused. by case_bool_decide. Qed.

(** A call that leaves the row watched whatever it answers, and whose refusal sends nothing. *)
Lemma triple_watched {A} n refusal (op : time -> DB -> res StoreErr A * DB) (F : A -> Prop) u :
  u = v \/ u = named -> (forall db, Watched id u db -> Watched id u (op (wd_clock w n) db).2) ->
  (forall db x db', op (wd_clock w n) db = (Ok x, db') -> F x) ->
  (forall e, oc_outcome (refusal e) = RollbackFailed /\ oc_sent (refusal e) = None) ->
  triple (Watched id u) (call w n refusal op) (fun x db => Watched id u db /\ F x) (ended w p v).
Proof.
  intros Hu Hop Hf Hr. apply triple_call; [by intros; apply Hcalm| |].
  - intros db x db' Hw E. specialize (Hop _ Hw). rewrite E in Hop. split; [done|]. by eapply Hf.
  - intros db e db' Hw E. specialize (Hop _ Hw). rewrite E in Hop. destruct (Hr e) as [Ho Hs]. eapply unsent; eauto.
Qed.

(** Applying the named row, and sending its frame. *)
Lemma send_ended rb caps insp d dt0 dt1 :
  v_rollback v = None -> planned_for (rollback_request rb caps insp) (wd_deployment w) d ->
  target (actor_of w p) app id (wd_clock w 0) (wd_fresh w) dt0 = (Ok (Some rb, ""), dt1) ->
  triple (Watched id named)
    (sent ← call w 6 apply_refused (fun now => apply_policy (actor_of w p) (pn_policy p) "" app (wd_deployment w)
               match d_plan d with Some plan => pl_project plan | None => "" end key (maxFrameBytes caps) now (wd_fresh w));
     if wd_deliver w sent.2 then (mret (mkOutcome RollbackApplied "" (Some sent.2)) : Calls Outcome)
     else fun db => (inr (rollback_failed RollbackNotSent),
            (FailDeployment (d_id sent.1) "the endpoint disconnected before the deployment was sent" (wd_clock w 7) (fun _ => wd_fresh w)
               (wd_meanwhile w 7 db)).2)) (ended w p v) (ended w p v).
Proof.
  intros Hnone Hd Ht. destruct (pd_plan _ _ _ Hd) as (plan0 & Hplan0 & Hproj & _). rewrite Hplan0, Hproj.
  simpl (pq_confirm _).
  apply (triple_bind _ _ _ (fun sent db => Watched id named db /\ rolled_back w p v named sent.2 db)).
  - apply triple_call; [by intros; apply Hcalm| |].
    + intros db [row f] db' Hw E.
      pose proof (watched_apply Marshal Unmarshal sum_hex UnmarshalValues DeriveKey DecryptAESGCM uuid_parse preview_digest frame_bytes plan_bytes allowPrivileged
        (actor_of w p) (pn_policy p) "" app (wd_deployment w) (rb_project rb) key (maxFrameBytes caps) (wd_clock w 6) (wd_fresh w) id named db Hw) as Hw'.
      rewrite E in Hw'. split; [done|]. split; [done|]. exists rb, caps, insp, d, dt0, dt1. split; [done|]. split; [done|]. simpl in E.
      apply applyDeployment_applied in E as (app' & id' & was & plan & _ & Ei & Hg & Hap); [|intros; apply reads_policy_guard|apply Hw].
      rewrite Huuid in Ei. injection Ei as <-.
      assert (forall a, ActorID (plan_access a app' (wd_deployment w) db) = ActorID a /\ OrganizationID (plan_access a app' (wd_deployment w) db) = OrganizationID a) as Hacc.
      { intros a. unfold plan_access. destruct (deployment_of a app' (wd_deployment w) db) as [x|]; [|by split]. by destruct (nonempty (d_correlation x)). }
      destruct (Hacc (actor_of w p)) as [Ha Ho].
      unfold policy_guard in Hg. tx_inv Hg. rewrite !andb_true_iff, !bool_decide_eq_true, Ha in Hg1. destruct Hg1 as [[? ?] ?].
      eexists _, app', db, row, was, plan, row0. by split_and!.
    + intros db e db' Hw E. pose proof (watched_apply Marshal Unmarshal sum_hex UnmarshalValues DeriveKey DecryptAESGCM uuid_parse preview_digest frame_bytes plan_bytes allowPrivileged
        (actor_of w p) (pn_policy p) "" app (wd_deployment w) (rb_project rb) key (maxFrameBytes caps) (wd_clock w 6) (wd_fresh w) id named db Hw) as Hw'.
      rewrite E in Hw'. destruct (apply_refused_failed e). eapply (unsent _ named); eauto.
  - intros [row f]. simpl. destruct (wd_deliver w f).
    + apply triple_ret. intros db [Hw Hr]. exists named. split; [done|]. split; [by right|]. split; [unfold outcomes; set_solver|]. split; [by split|].
      simpl. by intros g [= <-].
    + intros db [Hw _]. apply (unsent _ named); [by right| |by left|done].
      apply (watched_fail Marshal Unmarshal sum_hex UnmarshalValues DeriveKey DecryptAESGCM uuid_parse preview_digest frame_bytes plan_bytes allowPrivileged), Hcalm, Hw.
Qed.

Lemma rollback_calls_ended : triple (Watched id v) (calls w p) (ended w p v) (ended w p v).
Proof.
  unfold rollback_calls. set (a := actor_of w p).
  apply (triple_bind _ _ _ (fun answer db => Watched id v db /\ forall rb, answer = (Some rb, "") ->
    exists db0 db1, target a app id (wd_clock w 0) (wd_fresh w) db0 = (Ok (Some rb, ""), db1))).
  { apply (triple_watched 0 _ _ _ v); [by left|by intros; apply RollbackTarget_watched| |done]. intros db x db' E rb ->. by exists db, db'. }
  intros [[rb|] [|c reason]]; try (apply triple_return; intros db [Hw _]; apply (unsent _ v); by eauto).
  apply triple_given. intros Hoffer. destruct (Hoffer rb eq_refl) as (dt0 & dt1 & Htarget). clear Hoffer.
  apply triple_unless; [|intros db Hw; apply (unsent _ v); by eauto].
  assert (Hread : forall A (op : tx A) action now db, Reads op -> Watched id v db -> Watched id v (readTenant a action op now (wd_fresh w) db).2).
  { intros. by apply (watched_read Marshal Unmarshal sum_hex UnmarshalValues DeriveKey DecryptAESGCM uuid_parse preview_digest frame_bytes plan_bytes allowPrivileged). }
  apply (triple_bind _ _ _ (fun _ db => Watched id v db /\ True)).
  { apply (triple_watched 1 _ _ (fun _ => True) v); [by left| |done|done]. intros db. apply Hread. keeps. }
  intros caps. apply triple_given. intros _. apply (triple_bind _ _ _ (fun _ db => Watched id v db /\ True)).
  { apply (triple_watched 2 _ _ (fun _ => True) v); [by left| |done|done]. intros db Hw. unfold PreflightApplication. destruct (uuid_parse app); [|done].
    destruct (negb _); [done|]. apply Hread; [|done].
    apply keeps_bind; [apply reads_preflight|intros; apply keeps_ret]. }
  intros pre. apply triple_given. intros _.
  apply (triple_bind _ _ _ (fun d db => Watched id v db /\ planned_for (rollback_request rb caps (inspectForPlan w caps pre)) (wd_deployment w) d)).
  { apply (triple_watched 3 _ _ _ v); [by left| | |apply plan_refused_failed].
    - intros db. apply watched_plan. intros d. apply Hcalm.
    - intros db d db'. by apply PlanDeployment_for. }
  intros d. apply triple_given. intros Hd. rewrite (pd_id _ _ _ Hd).
  apply (triple_bind _ _ _ (fun _ db => Watched id named db /\ v_rollback v = None)).
  { apply triple_call; [by intros; apply Hcalm|intros db u db'; by apply watched_named|].
    intros db e db' Hw E. apply (unsent _ v); [by left| |by left|done]. by eapply watched_unnamed. }
  intros []. apply triple_given. intros Hnone. apply triple_unless; [|intros db Hw; apply (unsent _ named); by eauto]. by eapply send_ended.
Qed.

Lemma performRollback_ended db o db' :
  Watched id v db ->
  performRollback Marshal Unmarshal sum_hex UnmarshalValues DeriveKey DecryptAESGCM uuid_parse preview_digest frame_bytes plan_bytes
    allowPrivileged key allowPrivate w p db = (o, db') -> ended w p v o db'.
Proof.
  intros Hw. unfold performRollback, settled_calls. pose proof (rollback_calls_ended db Hw) as H.
  destruct (calls w p db) as [[o1|o1] d1]; by intros [= <- <-].
Qed.

(** ** Recording the outcome *)

Local Notation performs := (performRollback Marshal Unmarshal sum_hex UnmarshalValues DeriveKey DecryptAESGCM uuid_parse preview_digest frame_bytes plan_bytes
    allowPrivileged key allowPrivate).
Local Notation rolls := (roll_back Marshal Unmarshal sum_hex UnmarshalValues DeriveKey DecryptAESGCM uuid_parse preview_digest frame_bytes plan_bytes
    allowPrivileged key allowPrivate).
Local Notation finishes := (finish_validation Marshal Unmarshal sum_hex UnmarshalValues DeriveKey DecryptAESGCM uuid_parse preview_digest frame_bytes plan_bytes
    allowPrivileged key allowPrivate).

(** The watched row [u] is settled as [v']: its verdict is one of the table's, a rollback decision that is due is made,
    and the policy of a failed or unverifiable update is paused. *)
Record settled (u v' : ValidationRow) (db' : DB) : Prop := {
  st_row : validations db' !! id = Some v';
  st_done : v_done v' = true /\ map_has validationResults (v_verdict v') = true;
  st_good : GoodDB db';
  st_decided : decision_due (v_verdict v') u = true -> v_rollback_outcome v' ∈ outcomes;
  st_paused : v_automated u = true -> v_is_rollback u = false -> v_verdict v' <> VerdictHealthy -> v_verdict v' <> VerdictChanged ->
    forall run, v_run u = Some run -> run_paused run db' }.

Lemma roll_back_settled db :
  Watched id v db -> Validations.due v = true -> exists v', settled v v' (rolls w p db) /\ v_verdict v' = v_verdict v.
Proof.
  intros Hw Hdue. unfold roll_back. destruct (performs w p db) as [o db1] eqn:E.
  apply performRollback_ended in E as (v2 & Hw2 & Hv2 & Hout & Happ & Hroll); [|done]. apply (Hcalm 8%nat) in Hw2.
  assert (Hdue2 : Validations.due v2 = true) by (by destruct Hv2 as [-> | ->]).
  assert (Hn2 : oc_outcome o = RollbackApplied -> is_Some (v_rollback v2)).
  { intros Ha. apply Happ in Ha as [f Hf]. apply Hroll, rl_named in Hf as [-> _]. by eexists. }
  unfold MarkRollbackOutcome. rewrite bool_decide_true by done.
  destruct (markRollbackOutcome_run (wd_meanwhile w 8 db1) id (oc_outcome o) (oc_detail o) (wd_clock w 8) v2
    (wa_policies _ _ _ Hw2) (wa_validations _ _ _ Hw2) (wa_row _ _ _ Hw2) Hdue2 Hout Hn2) as (db2 & Em & Hval & _ & _ & Hp2 & Hv2' & _ & Hpause).
  unfold commit. rewrite Em. simpl. exists (Validations.decided (oc_outcome o) (oc_detail o) v2).
  assert (Hdone : v_done v2 = true /\ map_has validationResults (v_verdict v2) = true).
  { unfold Validations.due in Hdue2. rewrite !andb_true_iff in Hdue2. destruct Hdue2 as ((((Hd & _) & _) & _) & _). split; [done|].
    apply (vi_done _ (val_rows _ (wa_validations _ _ _ Hw2) _ _ (wa_row _ _ _ Hw2))). by apply bool_decide_eq_true in Hd. }
  assert (Hrun : v_run v2 = v_run v) by (by destruct Hv2 as [-> | ->]).
  split; [|by destruct Hv2 as [-> | ->]]. split; [by rewrite Hval, lookup_insert_eq|done|done|done|]. intros _ _ _ _ run Hr. apply Hpause. by rewrite Hrun.
Qed.

End rollback.

(** ** What a poll leaves *)

Lemma Judge_known obs baseline final : (Judge obs baseline final).1 = "" \/ map_has validationResults (Judge obs baseline final).1 = true.
Proof.
  unfold Judge. destruct (judge_loop obs baseline final true "" "") as [[complete verdict] detail] eqn:E.
  destruct (judge_loop_spec _ _ _ _ _ _ _ _ _ (or_introl eq_refl) E) as (_ & Hv & _). destruct (_ && _ && _); simpl; [by right|].
  destruct Hv as [->|Hv]; [by left|right]. clear E. revert verdict Hv. apply (proj1 (Forall_forall (fun v => map_has validationResults v = true) failing_verdicts)). by repeat constructor.
Qed.

Lemma due_finished v verdict detail now : VInv v -> v_done v = false -> decision_due verdict v = true -> Validations.due (finished verdict detail now v) = true.
Proof.
  intros Hv Hnd. unfold decision_due, Validations.due, finished, undecided, v_done. simpl. rewrite !andb_true_iff, !negb_true_iff, !bool_decide_eq_true.
  apply bool_decide_eq_false in Hnd. destruct (vi_open _ Hv Hnd) as (_ & _ & Ho & _). tauto.
Qed.
Lemma keeps_finish deployment verdict detail now : Keeps instances (finishValidation deployment verdict detail now).
Proof. unfold finishValidation, updateOne, update_validation, put_validation, auditPolicy, pauseForValidation, update_policy, put_policy. keeps. Qed.

Section polls.
Context (Marshal : ApplicationSpec -> string) (Unmarshal : string -> option ApplicationSpec) (sum_hex : string -> string)
  (UnmarshalValues : string -> option (gmap string string)) (DeriveKey : string -> string -> string)
  (DecryptAESGCM : string -> string -> option string) (uuid_parse : string -> option string)
  (preview_digest : AdoptionPreview -> string) (frame_bytes : DeploymentRequest -> Z) (plan_bytes : DeploymentPlan -> Z)
  (allowPrivileged : bool) (key : string) (allowPrivate : bool).
Local Notation finishes := (finish_validation Marshal Unmarshal sum_hex UnmarshalValues DeriveKey DecryptAESGCM uuid_parse preview_digest frame_bytes plan_bytes
    allowPrivileged key allowPrivate).
Local Notation validates := (validate Marshal Unmarshal sum_hex UnmarshalValues DeriveKey DecryptAESGCM uuid_parse preview_digest frame_bytes plan_bytes
    allowPrivileged key allowPrivate).
Local Notation performs := (performRollback Marshal Unmarshal sum_hex UnmarshalValues DeriveKey DecryptAESGCM uuid_parse preview_digest frame_bytes plan_bytes
    allowPrivileged key allowPrivate).
Context (w : World) (p : PendingValidation).
Local Notation id := (v_id (pn_row p)).
Local Notation v := (pn_row p).

Lemma finish_settled verdict detail db :
  Calm w id -> wd_deployment w <> "" -> uuid_parse (wd_deployment w) = Some (wd_deployment w) ->
  Watched id v db -> v_done v = false -> map_has validationResults verdict = true ->
  exists v', settled p v v' (finishes w p verdict detail db).
Proof.
  intros Hcalm Hid Huuid Hw Hnd Hver. pose proof (wa_validations _ _ _ Hw) as Hval.
  destruct (finishValidation_run db id verdict detail (wd_clock w 9) v (wa_policies _ _ _ Hw) Hval (wa_row _ _ _ Hw) Hnd Hver)
    as (db1 & E & Hrow & Hdep & Hruns & Hp1 & Hv1 & _ & Hpause).
  unfold finish_validation, FinishValidation. rewrite Hver. simpl negb. unfold commit. rewrite E. simpl.
  set (u := finished verdict detail (wd_clock w 9) v) in *.
  assert (Hdone : v_done u = true /\ map_has validationResults (v_verdict u) = true) by by split.
  destruct (decision_due verdict v) eqn:Edue.
  - assert (Watched id u db1) as Hw1.
    { destruct Hw as [_ _ Hd Ho _ (d & Hd' & Ha)]. assert (tables db1 = tables db) as Ht.
      { unfold tables. f_equal; [done|]. by eapply keeps_finish. }
      split; [done|done|by apply (DepInv_tables db)|by rewrite (ledger_tables _ _ Ht)|by rewrite Hrow, lookup_insert_eq|]. exists d. by rewrite Hdep. }
    edestruct (roll_back_settled Marshal Unmarshal sum_hex UnmarshalValues DeriveKey DecryptAESGCM uuid_parse preview_digest frame_bytes plan_bytes
      allowPrivileged key allowPrivate w p u Hcalm Hid Huuid db1 Hw1) as (v' & [H1 H2 H3 H4 H5] & Ev).
    { apply due_finished; [exact (val_rows _ Hval _ _ (wa_row _ _ _ Hw))|done..]. }
    exists v'. by split.
  - exists u. split; [by rewrite Hrow, lookup_insert_eq|done|done| |].
    + simpl. by rewrite Edue.
    + simpl. intros Ha Hr Hh Hc run Hrun. eapply Hpause; [|done..]. unfold decision_due in Edue. rewrite Ha, Hr, Hrun in Edue.
      rewrite (bool_decide_true (is_Some (Some run))) in Edue by done. simpl in Edue.
      apply map_has_key in Hver. unfold validationResults in Hver. simpl in Hver. rewrite !elem_of_cons in Hver.
      destruct Hver as [->|[->|[->|[->|[->|[->|Hver]]]]]]; try done. by apply elem_of_nil in Hver.
Qed.

Local Notation acts := (act_on Marshal Unmarshal sum_hex UnmarshalValues DeriveKey DecryptAESGCM uuid_parse preview_digest frame_bytes plan_bytes
    allowPrivileged key allowPrivate).

(** Past the window and a further grace, whatever the poll finds it settles the row. *)
Lemma unwatchable_late now : late p now = true -> unwatchable p now = Settle VerdictUnverifiable ValidationDetailUnobserved.
Proof. unfold unwatchable. by intros ->. Qed.
Lemma judged_late now obs baseline : late p now = true -> exists verdict detail,
  judged_poll p now obs baseline = Settle verdict detail /\ map_has validationResults verdict = true.
Proof.
  intros Hl. unfold judged_poll. destruct (Judge obs baseline (window_over p now)) as [verdict detail] eqn:E. pose proof (Judge_known obs baseline (window_over p now)) as H.
  rewrite E in H. simpl in H. destruct (nonempty verdict) eqn:En; [|rewrite unwatchable_late by done; eauto].
  destruct H as [->|H]; [done|]. eauto.
Qed.
Lemma poll_late now connected : v_done v = false -> v_until v = v_started v + (ValidationGrace + ValidationWindow) -> late p now = true ->
  (exists verdict detail, poll p now connected = Settle verdict detail /\ map_has validationResults verdict = true) \/
  (poll p now connected = Look /\ in_grace p = false).
Proof.
  intros Hnd Hu Hl. unfold poll. rewrite Hnd. destruct (pn_released p); [left; eauto|].
  assert (Ho : window_over p now = true).
  { unfold window_over, late, ValidationGrace, Second in *. apply Z.leb_le in Hl. apply Z.leb_le. lia. }
  assert (Hs : now <? v_started v + ValidationGrace = false).
  { apply Z.ltb_ge. unfold late, ValidationGrace, ValidationWindow, Minute, Second in *. apply Z.leb_le in Hl. lia. }
  rewrite Hs, andb_false_r, Ho, andb_true_r. destruct (pn_health p); [|left; destruct (pn_kubernetes p); eauto]. simpl.
  destruct connected; simpl; [|left; rewrite unwatchable_late by done; eauto]. destruct (in_grace p); [left; eauto|by right].
Qed.

(** C6: A watched deployment is always settled.  Once its window and a further grace are past, one poll that is
    not cut short by a shutdown finishes the validation, whether or not the agent is connected, reports health or
    answers, and whatever it answers.  A rollback decision that is then due, or was left owed by a restart, is
    made and recorded whatever any of the rollback's calls answers; and the policy behind an update
    that failed or could not be verified ends paused. *)
Theorem validate_settles now db :
  Calm w id -> wd_deployment w <> "" -> uuid_parse (wd_deployment w) = Some (wd_deployment w) -> Watched id v db ->
  (v_done v = false /\ v_until v = v_started v + (ValidationGrace + ValidationWindow) /\ late p now = true /\ wd_stopped w = false) \/
  awaitingRollback v = true ->
  exists v', settled p v v' (validates w p now db).
Proof.
  intros Hcalm Hid Huuid Hw [(Hnd & Hu & Hl & Hst)|Haw].
  - assert (Hfin : forall verdict detail, map_has validationResults verdict = true -> exists v', settled p v v' (finishes w p verdict detail db)).
    { intros. by apply finish_settled. }
    unfold validate. destruct (poll_late now (wd_connected w 0) Hnd Hu Hl) as [(verdict & detail & -> & Hk)|[-> Hg]]; [by apply Hfin|].
    rewrite Hst, Hg. destruct (observeServices w p) as [obs|]; [|by apply Hfin].
    destruct (judged_late now obs (pn_baseline p) Hl) as (verdict & detail & -> & Hk). by apply Hfin.
  - assert (Hd : v_done v = true) by (unfold awaitingRollback in Haw; rewrite !andb_true_iff in Haw; tauto).
    unfold validate, poll. rewrite Hd. simpl. edestruct (roll_back_settled Marshal Unmarshal sum_hex UnmarshalValues DeriveKey DecryptAESGCM uuid_parse
      preview_digest frame_bytes plan_bytes allowPrivileged key allowPrivate w p v Hcalm Hid Huuid db Hw) as (v' & H & _); [|by exists v'].
    unfold awaitingRollback in Haw. unfold Validations.due. rewrite !andb_true_iff in *. tauto.
Qed.

(** The validation a settled rollback opens is a rollback's: never rolled back itself. *)
Definition no_second_rollback (rollback : string) (db : DB) : Prop :=
  forall org env app instance endpoint correlation fresh at_ u db1,
    insertValidation org env app instance endpoint rollback correlation fresh at_ db = Ok (u, db1) ->
    exists r, validations db1 !! rollback = Some r /\ v_is_rollback r = true /\ v_automated r = false.
Lemma named_is_rollback rollback k r db :
  validations db !! k = Some r -> v_rollback r = Some rollback ->
  (forall d, deployments db !! rollback = Some d -> d_policy_run d = None) -> no_second_rollback rollback db.
Proof.
  intros Hr Hn Hd org env app instance endpoint correlation fresh at_ u db1. unfold insertValidation. intros H. tx_inv H. rename row into d.
  unfold insert_validation in H. tx_inv H. unfold put_validation in H. tx_inv H. eexists. split; [apply lookup_insert_eq|]. simpl. rewrite (Hd d) by done.
  split; [|done]. unfold count. apply Z.gtb_lt. destruct (select _ _) as [|x l] eqn:E; [|unfold llen; simpl; lia].
  assert (r ∈ select (fun v0 => bool_decide (v_rollback v0 = Some rollback)) (validations db)) as Hin; [|rewrite E in Hin; by apply elem_of_nil in Hin].
  apply elem_of_select. split; [by exists k|]. by apply bool_decide_eq_true.
Qed.

(** C5: A rollback sends at most one frame, and only the right one.  A frame leaves exactly when the outcome is
    "applied", never for a validation that already names a rollback, and only after [RollbackTarget] offered
    the prior state to the policy's creator, a plan was made of exactly that - its instance, mapping, project and
    revision, and on a Docker host the prior image of every service - and was named on the validation.  At
    the moment of the apply the policy is active, in apply mode and still the creator's; the named row turns
    applying with the frame's deadline and belongs to no policy run, so its own validation is never
    rolled back. *)
Theorem performRollback_confined db o db' :
  Calm w id -> wd_deployment w <> "" -> uuid_parse (wd_deployment w) = Some (wd_deployment w) -> Watched id v db ->
  performs w p db = (o, db') ->
  oc_outcome o ∈ outcomes /\ (oc_outcome o = RollbackApplied <-> is_Some (oc_sent o)) /\
  forall f, oc_sent o = Some f ->
    v_rollback v = None /\ validations db' !! id = Some (with_rollback (wd_deployment w) v) /\ dr_deployment f = wd_deployment w /\
    (exists row, deployments db' !! wd_deployment w = Some row /\ d_state row = StateApplying /\ d_policy_run row = None /\ d_deadline row = Some (dr_deadline f)) /\
    no_second_rollback (wd_deployment w) db' /\
    rolled_back Unmarshal sum_hex uuid_parse frame_bytes w p v (with_rollback (wd_deployment w) v) f db'.
Proof.
  intros Hcalm Hid Huuid Hw E. apply (performRollback_ended Marshal Unmarshal sum_hex UnmarshalValues DeriveKey DecryptAESGCM uuid_parse preview_digest frame_bytes
    plan_bytes allowPrivileged key allowPrivate w p v) in E as (u & Hu & Hor & Hout & Happ & Hroll); [|done..]. split; [done|]. split; [done|]. intros f Hf.
  destruct (Hroll f Hf) as [[-> Hnone] Ht]. pose proof Ht as (rb & caps & insp & d & db0 & db1 & _ & _ & a & app & before & row & was & plan & pol & _ & _ & Hap & _).
  destruct Hap as [_ _ [Hframe _] _ Hrow (rec & Hdb)].
  assert (Hdep : deployments db' !! wd_deployment w = Some row) by (rewrite Hdb; simpl; by rewrite lookup_insert_eq).
  split; [done|]. split; [apply (wa_row _ _ _ Hu)|]. split.
  { destruct Hframe as [-> _]. pose proof (di_key _ (wa_deployments _ _ _ Hu) _ _ Hdep) as Hk. by rewrite Hrow in Hk. }
  split; [exists row; split; [done|by rewrite Hrow]|]. split; [|by split].
  eapply named_is_rollback; [exact (wa_row _ _ _ Hu)|done|]. intros d' Hd'. assert (d' = row) as -> by congruence. by rewrite Hrow.
Qed.
End polls.

(** ** An update that fails and is rolled back *)

(** The settled update of the scenario was a policy's, and its container is now reported unhealthy. *)
Definition rs_now : time := sc_now + 10 * Minute.
Definition rs_snapshot : Snapshot :=
  mkSnapshot 0 0 (mkEngine "docker" "28" "1.47" "linux" "amd64" "" 1 1 "")
    [mkContainer sc_new "shop-web-1" "nginx:1.27" demo_image "running" "" sc_now 0 "" "always" [mkPort "0.0.0.0" 8080 80 "tcp"] ∅ [] [] "shop" (Some []) false]
    [mkImage demo_image ["nginx:1.27"] [] 0 0] [] [] None [].
Definition rs_target : InspectionTarget := mkTarget sc_new demo_image (sc_now / Second) no_workload.
Definition rs_answer : ContainerInspection :=
  mkInspection rs_target sc_now "running" "unhealthy" 0 (mkPlatform "linux" "amd64" "") "always" 0 [] (mkMountCounts 0 0 0 0 0) "bridge" 1 false false false [] true None.
Definition by_run (d : DeploymentRow) : DeploymentRow :=
  mkDeployment (d_id d) (d_org d) (d_env d) (d_app d) (d_instance d) (d_endpoint d) (d_state d) (d_expires d) (Some "run")
    (d_kind d) (d_project d) (d_revision d) (d_digest d) (d_mapping d) (d_plan d) (d_created_by d) (d_created d)
    (d_applied_by d) (d_applied d) (d_deadline d) (d_settled d) (d_detail d) (d_result d) (d_correlation d) (d_migration d).
Definition rs_row : ValidationRow :=
  mkValidation demo_id "org" "env" "app" "inst" "host" (Some "run") true false PhaseObserving sc_now (sc_now + (ValidationGrace + ValidationWindow))
    "" "" "" None "" "" "c" None.
Definition rs_failed : ValidationRow := finished VerdictUnhealthy "web" rs_now rs_row.
Definition rs_over (db : DB) (v : ValidationRow) : DB :=
  set_policies (policies demo_begun) (set_runs (runs demo_begun) (set_inventories {["host" := mkInventory (Some rs_snapshot) rs_now rs_now]}
    (set_capabilities {["host" := demo_capabilities ∪ {[CapabilityContainerInspectHealth]}]}
    (set_deployments (by_run <$> deployments db) (set_validations {[demo_id := v]} db))))).
Definition rs_with : ValidationRow -> DB := rs_over sc_settled.
Definition rs_rollback : string := "11111111-89ab-cdef-0123-456789abcdef".
Definition rs_world : World :=
  mkWorld (fun _ => true) (fun _ _ => Answered rs_answer) false true (fun _ _ => Answered rs_answer) (fun _ => true) (fun _ => rs_now)
    "corr" rs_rollback "f" (fun _ db => db).
Definition rs_pending (v : ValidationRow) : PendingValidation :=
  match PendingValidations (fun _ => Some ∅) (rs_with v) with Ok (p :: _) => p | _ => mkPending v "" "" true false false ∅ [] end.
Definition rs_settled : DB :=
  validate demo_marshal sc_unmarshal hex0 sc_values demo_derive sc_open Some sc_digest (fun _ => 1000) (fun _ => 1000) true demo_key false
    rs_world (rs_pending rs_row) rs_now (rs_with rs_row).
Definition rs_performed : Outcome * DB :=
  performRollback demo_marshal sc_unmarshal hex0 sc_values demo_derive sc_open Some sc_digest (fun _ => 1000) (fun _ => 1000) true demo_key false
    rs_world (rs_pending rs_failed) (rs_with rs_failed).

Lemma rs_orderly : DepInv sc_settled /\ Orderly (ledger_of sc_settled).
Proof.
  destruct sc_mapped_inv as [Hi Ho].
  destruct (dep_steps_sim demo_marshal sc_unmarshal hex0 sc_values demo_derive sc_open parse_any sc_digest (fun _ => 1000) (fun _ => 1000)
    (fun _ => 1000) (fun _ => 100) true false sc_mapped sc_settled) as (Hd & Ho' & _); [|done..]. etrans; [apply sc_to_applied|apply sc_to_settled].
Qed.
Lemma over_watched db v :
  DepInv db -> Orderly (ledger_of db) -> acted <$> deployments db !! demo_id = Some true -> VInv v -> v_id v = demo_id -> Watched demo_id v (rs_over db v).
Proof.
  intros Hd Ho Ha Hv Hid. split.
  - exact (PolicyInv_ext demo_begun (rs_over db v) eq_refl eq_refl demo_begun_inv).
  - split; cbn.
    + by intros k u [<- <-]%lookup_singleton_Some.
    + by intros k u [<- <-]%lookup_singleton_Some.
    + by intros k k' u u' r [<- <-]%lookup_singleton_Some [<- <-]%lookup_singleton_Some.
  - split; cbn.
    + intros k d (d0 & <- & H)%lookup_fmap_Some. exact (di_key _ Hd _ _ H).
    + intros k d i (d0 & <- & H)%lookup_fmap_Some. exact (di_scope _ Hd _ _ i H).
    + intros k d (d0 & <- & H)%lookup_fmap_Some. exact (di_settled _ Hd _ _ H).
  - replace (ledger_of (rs_over db v)) with (ledger_of db); [done|]. unfold ledger_of. cbn. by rewrite <- map_fmap_compose.
  - apply lookup_singleton_eq.
  - destruct (deployments db !! demo_id) as [d|] eqn:E; [|done]. injection Ha as Ha. exists (by_run d). split; [|done]. cbn. by rewrite lookup_fmap, E.
Qed.
Lemma rs_watched v : VInv v -> v_id v = demo_id -> Watched demo_id v (rs_with v).
Proof. destruct rs_orderly as [Hd Ho]. apply over_watched; [done|done|by vm_compute]. Qed.
Lemma rs_row_inv : VInv rs_row.
Proof. split; [by vm_compute|done|done| |done|done]. intros [[? H]|H]; done. Qed.
Lemma rs_failed_inv : VInv rs_failed.
Proof. apply VInv_verdict; [apply rs_row_inv|done|by vm_compute|apply char_length_CleanText]. Qed.
Lemma rs_pending_row v : v = rs_row \/ v = rs_failed -> pn_row (rs_pending v) = v.
Proof. intros [-> | ->]; by vm_compute. Qed.

Lemma validate_settles_witness :
  exists v', settled (rs_pending rs_row) rs_row v' rs_settled /\ v_rollback_outcome v' = RollbackApplied /\ run_paused "run" rs_settled.
Proof.
  pose proof (rs_pending_row rs_row (or_introl eq_refl)) as Er.
  edestruct (validate_settles demo_marshal sc_unmarshal hex0 sc_values demo_derive sc_open Some sc_digest (fun _ => 1000) (fun _ => 1000) true demo_key false
    rs_world (rs_pending rs_row) rs_now (rs_with rs_row)) as (v' & Hs).
  - intros n v db H. exact H.
  - done.
  - done.
  - rewrite Er. by apply rs_watched; [apply rs_row_inv|].
  - left. unfold late. rewrite Er. split_and!; by vm_compute.
  - rewrite Er in Hs. exists v'. split; [exact Hs|]. destruct Hs as [H1 _ _ _ Hp]. rewrite Er in H1.
    assert ((fun u => (v_rollback_outcome u, v_verdict u)) <$> validations rs_settled !! demo_id = Some (RollbackApplied, VerdictUnhealthy)) as Hc by by vm_compute.
    change (validations rs_settled !! v_id rs_row = Some v') in H1. change (v_id rs_row) with demo_id in H1. rewrite H1 in Hc. injection Hc as Ho Hv.
    split; [exact Ho|]. apply Hp; by rewrite ?Hv.
Defined.
Lemma performRollback_confined_witness :
  exists f row, oc_sent rs_performed.1 = Some f /\ dr_deployment f = rs_rollback /\ deployments rs_performed.2 !! rs_rollback = Some row /\ d_state row = StateApplying.
Proof.
  pose proof (rs_pending_row rs_failed (or_intror eq_refl)) as Er.
  destruct (performRollback_confined demo_marshal sc_unmarshal hex0 sc_values demo_derive sc_open Some sc_digest (fun _ => 1000) (fun _ => 1000) true demo_key false
    rs_world (rs_pending rs_failed) (rs_with rs_failed) rs_performed.1 rs_performed.2) as (_ & _ & H).
  - intros n v db H. exact H.
  - done.
  - done.
  - rewrite Er. by apply rs_watched; [apply rs_failed_inv|].
  - apply surjective_pairing.
  - assert (dr_deployment <$> oc_sent rs_performed.1 = Some rs_rollback) as Hc by by vm_compute.
    destruct (oc_sent rs_performed.1) as [f|] eqn:E; [|discriminate Hc]. destruct (H f eq_refl) as (_ & _ & Hd & (row & Hrow & Hst & _) & _).
    exists f, row. split; [reflexivity|]. split; [exact Hd|]. split; [exact Hrow|exact Hst].
Defined.
