(* ===== verification/ValidationTick.v ===== *)
(** * One tick over the pending validations

    [validationTick] of internal/api/validations.go: it decides named rollbacks, lists what is pending, queues
    each organization's rows oldest first and hands them to at most four workers, the organizations in turn
    and never two rows of one at a time.  A row's work, [validate], ends in any order, and a shutdown may fall
    between any two steps, so the loop is a step relation over its local state. *)
From Stdlib Require Import ZArith Lia Ascii String.
From stdpp Require Import base gmap sets strings list sorting relations.
From S2P Require Import Prelude Store Judge Validations ValidationLoop.

Definition validationWorkers : nat := 4.

Definition org_of (p : PendingValidation) : string := v_org (pn_row p).

Record Tick := mkTick {
  tk_orgs : list string; tk_queues : gmap string (list PendingValidation); tk_busy : gset string; tk_next : nat;
  tk_stopped : bool;
  tk_started : list PendingValidation }.   (** the rows whose work was started, in order *)

Definition queue (t : Tick) (o : string) : list PendingValidation := default [] (tk_queues t !! o).

(** The first loop: the organizations in order of appearance, and each one's rows. *)
Definition enqueue (acc : list string * gmap string (list PendingValidation)) (p : PendingValidation) : list string * gmap string (list PendingValidation) :=
  let '(orgs, queues) := acc in
  (if bool_decide (queues !! org_of p = None) then orgs ++ [org_of p] else orgs,
   <[org_of p := default [] (queues !! org_of p) ++ [p]]> queues).
Definition tick_start (pending : list PendingValidation) : Tick :=
  let '(orgs, queues) := foldl enqueue ([], ∅) pending in mkTick orgs queues ∅ 0 false [].

(** What a tick has to work on: nothing when the server is stopping or the rows cannot be read. *)
Definition tick_pending (UnmarshalBaseline : string -> option (gmap string ServiceBaseline)) (stopping : bool) (now : time) (db : DB)
    : list PendingValidation * DB :=
  if stopping then ([], db)
  else
    let db' := (DecideNamedRollbacks now db).2 in
    match PendingValidations UnmarshalBaseline db' with Ok l => (l, db') | Fail _ => ([], db') end.

Definition startable (t : Tick) (o : string) : bool := negb (bool_decide (o ∈ tk_busy t)) && negb (bool_decide (queue t o = [])).
(** The organizations from the one whose turn is next, round. *)
Definition turns (t : Tick) : list string := drop (tk_next t) (tk_orgs t) ++ take (tk_next t) (tk_orgs t).
(** The first that is ready, and how far from the turn it is. *)
Definition pick (t : Tick) : option (nat * string) := list_find (fun o => startable t o = true) (turns t).
Definition start_row (t : Tick) (i : nat) (o : string) (p : PendingValidation) (rest : list PendingValidation) : Tick :=
  mkTick (tk_orgs t) (<[o := rest]> (tk_queues t)) ({[o]} ∪ tk_busy t) ((tk_next t + i + 1) mod length (tk_orgs t))%nat (tk_stopped t) (tk_started t ++ [p]).
Definition may_start (t : Tick) : bool := bool_decide (size (tk_busy t) < validationWorkers)%nat && negb (tk_stopped t).
(** The inner loop stops: no worker, no organization ready, or a shutdown. *)
Definition waits (t : Tick) : bool := negb (may_start t) || bool_decide (pick t = None).

Inductive tick_step (t : Tick) : Tick -> Prop :=
| tick_starts i o p rest : may_start t = true -> pick t = Some (i, o) -> queue t o = p :: rest -> tick_step t (start_row t i o p rest)
| tick_finishes o : waits t = true -> o ∈ tk_busy t ->
    tick_step t (mkTick (tk_orgs t) (tk_queues t) (tk_busy t ∖ {[o]}) (tk_next t) (tk_stopped t) (tk_started t))
| tick_stops : tk_stopped t = false ->
    tick_step t (mkTick (tk_orgs t) (tk_queues t) (tk_busy t) (tk_next t) true (tk_started t)).

(** The tick returns: nothing runs and nothing can be started. *)
Definition returned (t : Tick) : Prop := waits t = true /\ tk_busy t = ∅.

(** ** The queues *)

Definition rows_of (o : string) (l : list PendingValidation) : list PendingValidation := List.filter (fun p => bool_decide (org_of p = o)) l.

Lemma rows_of_app o l l' : rows_of o (l ++ l') = rows_of o l ++ rows_of o l'.
Proof. apply List.filter_app. Qed.
Lemma rows_of_one o p : rows_of o [p] = if bool_decide (org_of p = o) then [p] else [].
Proof. unfold rows_of. simpl. by case_bool_decide. Qed.

Record Queued (orgs : list string) (queues : gmap string (list PendingValidation)) (l : list PendingValidation) : Prop := {
  qd_rows : forall o, default [] (queues !! o) = rows_of o l;
  qd_orgs : NoDup orgs /\ forall o, o ∈ orgs <-> is_Some (queues !! o);
  qd_some : forall o q, queues !! o = Some q -> q <> [] }.

Lemma enqueue_ok acc l p : Queued acc.1 acc.2 l -> Queued (enqueue acc p).1 (enqueue acc p).2 (l ++ [p]).
Proof.
  destruct acc as [orgs queues]. intros [Hr [Hnd Ho] Hs]. unfold enqueue. simpl in *. split.
  - intros o. rewrite rows_of_app, rows_of_one, <- Hr. case_bool_decide as E.
    + subst o. by rewrite lookup_insert_eq.
    + by rewrite lookup_insert_ne, app_nil_r.
  - split.
    + case_bool_decide as E; [|done]. apply NoDup_app. split_and!; [done| |apply NoDup_singleton]. intros o Hin ->%list_elem_of_singleton.
      apply Ho in Hin. rewrite E in Hin. by destruct Hin.
    + intros o. rewrite lookup_insert_is_Some'. case_bool_decide as E; rewrite ?elem_of_app, ?list_elem_of_singleton, Ho; [naive_solver|].
      split; [by right|]. intros [<-|?]; [|done]. by apply not_eq_None_Some.
  - intros o q. rewrite lookup_insert_Some. intros [[_ <-]|[_ H]]; [by destruct (default [] (queues !! org_of p))|by eapply Hs].
Qed.
Lemma enqueued l : Queued (foldl enqueue ([], ∅) l).1 (foldl enqueue ([], ∅) l).2 l.
Proof.
  induction l as [|p l IH] using rev_ind; [|rewrite foldl_app; by apply enqueue_ok].
  split; simpl; [intros o; by rewrite lookup_empty|split; [constructor|]|intros o q; by rewrite lookup_empty].
  intros o. rewrite lookup_empty. split; [by intros ?%elem_of_nil|by intros []].
Qed.

(** ** Everything is what its organization's rows are *)

Lemma grouped orgs l : NoDup orgs -> (forall p, p ∈ l -> org_of p ∈ orgs) -> l ≡ₚ mjoin (map (fun o => rows_of o l) orgs).
Proof.
  revert l. induction orgs as [|o orgs IH]; intros l Hnd Hin; simpl.
  - destruct l as [|p l]; [done|]. exfalso. by eapply (not_elem_of_nil (org_of p)), Hin, list_elem_of_here.
  - apply NoDup_cons in Hnd as [Hno Hnd]. set (rest := List.filter (fun p => negb (bool_decide (org_of p = o))) l).
    assert (l ≡ₚ rows_of o l ++ rest) as E.
    { unfold rest, rows_of. clear. induction l as [|p l IH]; simpl; [done|]. case_bool_decide; simpl; [by f_equiv|]. rewrite <- Permutation_middle. by f_equiv. }
    rewrite E at 1. f_equiv. rewrite (IH rest Hnd).
    + apply reflexive_eq. f_equal. apply map_ext_in. intros o' Ho'%list_elem_of_In.
      unfold rest, rows_of. clear -Hno Ho'. induction l as [|p l IH]; simpl; [done|]. case_bool_decide; simpl; [|case_bool_decide; by rewrite IH].
      rewrite IH. rewrite bool_decide_false; [done|]. intros E. congruence.
    + intros p [Hp Hf]%list_elem_of_In%filter_In. apply list_elem_of_In in Hp. apply negb_true_iff, bool_decide_eq_false in Hf.
      apply Hin in Hp. by apply elem_of_cons in Hp as [?|?].
Qed.
Lemma join_split {A B} (f g : A -> list B) l : mjoin (map (fun x => f x ++ g x) l) ≡ₚ mjoin (map f l) ++ mjoin (map g l).
Proof. induction l as [|x l IH]; simpl; [done|]. rewrite IH. solve_Permutation. Qed.

(** What is not started. *)
Definition left (t : Tick) : list PendingValidation := mjoin (map (queue t) (tk_orgs t)).

Record TickInv (pending : list PendingValidation) (t : Tick) : Prop := {
  ti_orgs : NoDup (tk_orgs t) /\ forall o, o ∈ tk_orgs t <-> rows_of o pending <> [];
  ti_rows : forall o, rows_of o (tk_started t) ++ queue t o = rows_of o pending;
  ti_busy : (size (tk_busy t) <= validationWorkers)%nat /\ forall o, o ∈ tk_busy t -> o ∈ map org_of (tk_started t);
  ti_next : tk_orgs t = [] \/ (tk_next t < length (tk_orgs t))%nat;
  ti_turn : (length (tk_started t) < length (tk_orgs t))%nat -> tk_next t = length (tk_started t);
  ti_first : take (length (tk_orgs t)) (map org_of (tk_started t)) = take (length (tk_started t)) (tk_orgs t) }.

Lemma elem_rows_of o p l : p ∈ rows_of o l <-> p ∈ l /\ org_of p = o.
Proof. unfold rows_of. by rewrite list_elem_of_In, filter_In, <- list_elem_of_In, bool_decide_eq_true. Qed.
Lemma rows_of_none o l : (forall p, p ∈ l -> org_of p <> o) -> rows_of o l = [].
Proof.
  intros H. destruct (rows_of o l) as [|p r] eqn:E; [done|]. assert (p ∈ rows_of o l) as [Hp Ho]%elem_rows_of by (rewrite E; left). by destruct (H p).
Qed.

Lemma start_inv pending : TickInv pending (tick_start pending).
Proof.
  unfold tick_start. destruct (foldl enqueue ([], ∅) pending) as [orgs queues] eqn:E. pose proof (enqueued pending) as H. rewrite E in H.
  destruct H as [Hr [Hnd Ho] Hs]. cbn [fst snd] in *. split; cbn [tk_orgs tk_started tk_busy tk_next]; try done.
  - split; [done|]. intros o. rewrite Ho, <- Hr. destruct (queues !! o) as [q|] eqn:Eq; simpl.
    + split; [intros _; exact (Hs _ _ Eq)|intros _; by exists q].
    + split; [by intros []|intros H; exfalso; by apply H].
  - split; [rewrite size_empty; unfold validationWorkers; lia|]. by intros o ?%not_elem_of_empty.
  - destruct orgs; [by left|right; simpl; lia].
  - by destruct orgs.
Qed.

Lemma pick_some t i o : pick t = Some (i, o) -> turns t !! i = Some o /\ o ∈ tk_orgs t /\ o ∉ tk_busy t /\ queue t o <> [].
Proof.
  unfold pick. intros (Hi & Hr & _)%list_find_Some. split; [done|]. unfold startable in Hr. rewrite andb_true_iff, !negb_true_iff, !bool_decide_eq_false in Hr.
  split; [|done]. apply list_elem_of_lookup_2 in Hi. unfold turns in Hi. rewrite <- (take_drop (tk_next t) (tk_orgs t)).
  rewrite elem_of_app in Hi |- *. tauto.
Qed.
Lemma pick_none t : pick t = None -> forall o, o ∈ tk_orgs t -> o ∉ tk_busy t -> queue t o = [].
Proof.
  unfold pick. intros H%list_find_None o Ho Hb. rewrite Forall_forall in H. destruct (decide (queue t o = [])) as [|Hq]; [done|]. exfalso. apply (H o).
  - unfold turns. rewrite <- (take_drop (tk_next t) (tk_orgs t)) in Ho. rewrite elem_of_app in Ho |- *. tauto.
  - unfold startable. by rewrite !bool_decide_false.
Qed.

(** ** Every step keeps the invariant *)

Lemma turns_head t o rest : drop (tk_next t) (tk_orgs t) = o :: rest -> exists l, turns t = o :: l.
Proof. intros E. unfold turns. rewrite E. by eexists. Qed.
(** While an organization has not had its turn, the next one in order has it now. *)
Lemma pick_turn pending t i o : TickInv pending t -> (length (tk_started t) < length (tk_orgs t))%nat -> pick t = Some (i, o) ->
  i = 0%nat /\ tk_orgs t !! length (tk_started t) = Some o.
Proof.
  intros [[Hnd Hrow] Hrows [_ Hb] _ Hturn Hfirst] Hlt Hp. specialize (Hturn Hlt).
  destruct (lookup_lt_is_Some_2 _ _ Hlt) as [o1 Ho1]. pose proof (drop_S _ _ _ Ho1) as Hd. rewrite <- Hturn in Hd.
  rewrite take_ge in Hfirst by (rewrite length_map; lia).
  assert (Hno : o1 ∉ map org_of (tk_started t)).
  { rewrite Hfirst. intros Hin. apply list_elem_of_lookup in Hin as (j & Hj). apply lookup_take_Some in Hj as [Hj Hlt'].
    pose proof (NoDup_lookup _ _ _ _ Hnd Hj Ho1). lia. }
  assert (Hready : startable t o1 = true).
  { unfold startable. rewrite bool_decide_false by (intros Hin; by apply Hno, Hb). rewrite bool_decide_false; [done|]. intros Hq.
    specialize (Hrows o1). rewrite Hq, app_nil_r in Hrows. rewrite rows_of_none in Hrows.
    - apply (Hrow o1); [by eapply list_elem_of_lookup_2|done].
    - intros p Hp' E. apply Hno, list_elem_of_fmap. by exists p. }
  destruct (turns_head _ _ _ Hd) as [l Hl]. unfold pick in Hp. rewrite Hl in Hp. simpl in Hp. rewrite decide_True in Hp by done.
  injection Hp as <- <-. split; [done|]. done.
Qed.

Lemma tick_step_inv pending t t' : tick_step t t' -> TickInv pending t -> TickInv pending t'.
Proof.
  intros Hst Hinv. pose proof Hinv as [[Hnd Hrow] Hrows [Hsize Hb] Hnext Hturn Hfirst]. destruct Hst as [i o p rest Hmay Hpick Hq|o Hw Ho|Hs].
  - pose proof (pick_some _ _ _ Hpick) as (Hi & Hin & Hnb & _).
    assert (Hp : org_of p = o).
    { assert (p ∈ rows_of o pending) as [_ ?]%elem_rows_of by (rewrite <- Hrows, Hq; set_solver). done. }
    apply andb_true_iff in Hmay as [Hroom _]. apply bool_decide_eq_true in Hroom.
    split; cbn [start_row tk_orgs tk_queues tk_busy tk_next tk_started].
    + by split.
    + intros x. unfold queue. cbn [tk_queues start_row]. rewrite rows_of_app, rows_of_one, Hp, <- app_assoc. rewrite <- Hrows. f_equal. unfold queue. case_bool_decide as Ex.
      * subst x. rewrite lookup_insert_eq. unfold queue in Hq. by rewrite Hq.
      * by rewrite lookup_insert_ne.
    + split.
      * rewrite size_union, size_singleton by set_solver. lia.
      * intros x. rewrite map_app, elem_of_app, elem_of_union, elem_of_singleton. intros [->|Hx]; [right; simpl; rewrite Hp; by left|left; by apply Hb].
    + right. destruct Hnext as [E|Hn]; [rewrite E in Hin; by apply elem_of_nil in Hin|]. apply Nat.mod_upper_bound. lia.
    + rewrite length_app. simpl. intros Hlt. assert (length (tk_started t) < length (tk_orgs t))%nat as Hl by lia.
      destruct (pick_turn _ _ _ _ Hinv Hl Hpick) as [-> _]. rewrite (Hturn Hl). rewrite Nat.mod_small; lia.
    + rewrite map_app, length_app. simpl. rewrite Hp. destruct (decide (length (tk_started t) < length (tk_orgs t))%nat) as [Hl|Hl].
      * destruct (pick_turn _ _ _ _ Hinv Hl Hpick) as [_ Ho]. rewrite take_ge in Hfirst by (rewrite length_map; lia).
        rewrite take_ge by (rewrite length_app, length_map; simpl; lia). rewrite Nat.add_1_r. rewrite (take_S_r _ _ _ Ho). by rewrite <- Hfirst.
      * rewrite take_app_le by (rewrite length_map; lia). rewrite Hfirst. by rewrite !take_ge by lia.
  - split; cbn [tk_orgs tk_queues tk_busy tk_next tk_started]; try done. split; [|intros x; set_solver].
    etrans; [|exact Hsize]. apply subseteq_size. set_solver.
  - by split.
Qed.

(** ** Work left *)

Lemma started_left pending t : TickInv pending t -> tk_started t ++ left t ≡ₚ pending.
Proof.
  intros [[Hnd Hrow] Hrows _ _ _ _].
  assert (Hin : forall p, p ∈ pending -> org_of p ∈ tk_orgs t).
  { intros p Hp. apply Hrow. intros E. assert (p ∈ rows_of (org_of p) pending) as H by (by apply elem_rows_of). rewrite E in H. by apply elem_of_nil in H. }
  rewrite (grouped (tk_orgs t) pending Hnd Hin). rewrite (grouped (tk_orgs t) (tk_started t) Hnd).
  - unfold left. rewrite <- join_split. apply reflexive_eq. f_equal. apply map_ext. intros o. apply Hrows.
  - intros p Hp. apply Hin. assert (p ∈ rows_of (org_of p) pending) as [? _]%elem_rows_of; [|done]. rewrite <- Hrows, elem_of_app. left. by apply elem_rows_of.
Qed.
(** Steps a tick may still take. *)
Definition work (pending : list PendingValidation) (t : Tick) : nat :=
  (2 * (length pending - length (tk_started t)) + size (tk_busy t) + (if tk_stopped t then 0 else 1))%nat.
Lemma tick_step_work pending t t' : TickInv pending t -> tick_step t t' -> (work pending t' < work pending t)%nat.
Proof.
  intros Hinv Hst. unfold work. destruct Hst as [i o p rest Hmay Hpick Hq|o Hw Ho|Hs].
  - pose proof (pick_some _ _ _ Hpick) as (_ & Hin & Hnb & _). cbn [start_row tk_busy tk_started tk_stopped].
    rewrite size_union, size_singleton, length_app by set_solver. simpl.
    assert (length (tk_started t) < length pending)%nat; [|lia]. rewrite <- (Permutation_length (started_left _ _ Hinv)), length_app.
    assert (0 < length (left t))%nat; [|lia]. destruct (left t) as [|x l] eqn:El; [|simpl; lia]. exfalso.
    assert (p ∈ left t) as H; [|rewrite El in H; by apply elem_of_nil in H]. unfold left. apply list_elem_of_join. exists (queue t o).
    rewrite Hq. split; [left|]. apply list_elem_of_fmap. exists o. by rewrite Hq.
  - cbn [tk_busy tk_started tk_stopped]. assert (size (tk_busy t ∖ {[o]}) < size (tk_busy t))%nat; [|lia]. apply subset_size. set_solver.
  - cbn [tk_busy tk_started tk_stopped]. rewrite Hs. lia.
Qed.


(** Two rows of one organization and one of another: the second organization's starts before the first's second. *)
Definition tick_row (org id : string) : PendingValidation :=
  mkPending (mkValidation id org "env" "app" "inst" "host" None false false PhaseGrace 0 0 "" "" "" None "" "" "c" None) "" "" false true false ∅ [].
Definition tick_rows : list PendingValidation := [tick_row "a" "1"; tick_row "a" "2"; tick_row "b" "3"].
Definition ended_work (t : Tick) (o : string) : Tick := mkTick (tk_orgs t) (tk_queues t) (tk_busy t ∖ {[o]}) (tk_next t) (tk_stopped t) (tk_started t).
Definition tick_both : Tick := start_row (start_row (tick_start tick_rows) 0 "a" (tick_row "a" "1") [tick_row "a" "2"]) 0 "b" (tick_row "b" "3") [].
Definition tick_last : Tick := ended_work (ended_work (start_row (ended_work tick_both "a") 0 "a" (tick_row "a" "2") []) "b") "a".
