(* ===== verification/RetentionSafety.v ===== *)
(** * What pruning may forget

    [Prune] of internal/store/samples.go forgets only what its retention has run out on, and never
    what an undecided rollback could return to: whatever [RollbackTarget] offered for it, it still
    offers.  [Thin] is what one statement after another may do to the tables a rollback of one
    instance reads. *)
From Stdlib Require Import ZArith Lia Ascii String.
From stdpp Require Import base gmap strings list sorting relations.
From S2P Require Import Prelude Text Permissions Inspection Frame Inventory KubeNames Spec Store TenantAccess Commands Direct Applications.
From S2P Require Import Registries Preflight Adoption Judge Schedule Policies Validations Ledger Deployments Apply Planning Retention Refinement Scenario.
From S2P Require Import Rollbacks ValidationLoop RollbackSafety.

#[local] Open Scope Z_scope.

(** ** Rows before and after *)

(** The columns neither a sweep nor a deleted application writes. *)
Definition fixed (d : DeploymentRow) :=
  ((d_id d, d_org d, d_env d, d_app d, d_instance d, d_endpoint d), (d_kind d, d_revision d, d_plan d, d_created d, d_settled d, d_result d)).
(** The same row, or one whose apply was given up on. *)
Record loose (d e : DeploymentRow) : Prop := {
  lo_fixed : fixed e = fixed d;
  lo_state : d_state e = d_state d \/ (d_state d = StateApplying /\ d_state e = OutcomeUnknown) }.
Definition v_fixed (v : ValidationRow) :=
  (v_id v, v_instance v, v_automated v, v_is_rollback v, v_phase v, v_verdict v, v_rollback v, v_rollback_outcome v).

Lemma loose_refl d : loose d d.
Proof. split; auto. Qed.
Lemma loose_trans d e f : loose d e -> loose e f -> loose d f.
Proof. intros [F S] [F' S']. split; [congruence|]. unfold StateApplying, OutcomeUnknown in *. destruct S as [S|[? S]], S' as [S'|[? S']]; rewrite ?S, ?S' in *; auto; congruence. Qed.
Lemma loose_succeeded d e : loose d e -> apply_succeeded e = apply_succeeded d.
Proof.
  intros [F S]. unfold apply_succeeded, in_state. injection F as _ _ _ _ _ _ -> _ _ _ _ _. f_equal. destruct S as [->|[-> ->]]; done.
Qed.
Lemma loose_state s d e : loose d e -> s <> OutcomeUnknown -> in_state s e = true -> in_state s d = true.
Proof. intros [_ S]. rewrite !in_state_true. destruct S as [->|[-> ->]]; congruence. Qed.

(** What a rollback of instance [x] of application [app] reads besides the two tables that shrink. *)
Definition surroundings (db : DB) := ((users db, memberships db, tokens db, environments db), (instances db, resources db, inventories db)).

Record Thin (app x : string) (db db' : DB) : Prop := {
  tn_around : surroundings db' = surroundings db;
  tn_revisions : forall n, revisions db' !! (app, n) = revisions db !! (app, n);
  tn_rows : forall k e, deployments db' !! k = Some e -> exists d, deployments db !! k = Some d /\ loose d e;
  tn_validations : forall k w, validations db' !! k = Some w -> exists v, validations db !! k = Some v /\ v_fixed w = v_fixed v;
  tn_kept : forall k d, deployments db !! k = Some d -> d_instance d = x -> apply_succeeded d = true ->
    is_Some (deployments db' !! k) /\ (is_Some (validations db !! k) -> is_Some (validations db' !! k)) }.

Lemma thin_refl app x db : Thin app x db db.
Proof. split; eauto using loose_refl. Qed.
Lemma thin_trans app x db1 db2 db3 : Thin app x db1 db2 -> Thin app x db2 db3 -> Thin app x db1 db3.
Proof.
  intros [A R Dr V K] [A' R' Dr' V' K']. split; [congruence|congruence| | |].
  - intros k f (e & He & L')%Dr'. destruct (Dr k e He) as (d & Hd & L). exists d. split; [done|]. by eapply loose_trans.
  - intros k w (v & Hv & E)%V'. destruct (V k v Hv) as (u & Hu & E'). exists u. split; [done|]. by rewrite E.
  - intros k d Hd Hx Hs. destruct (K k d Hd Hx Hs) as [[e He] Hv]. destruct (Dr k e He) as (d' & Hd' & L). assert (d' = d) as -> by congruence.
    destruct (K' k e He) as [? Hv']; [|by rewrite (loose_succeeded _ _ L)|split; auto]. destruct L as [F _]. unfold fixed in F. congruence.
Qed.
Lemma thin_same app x db db' : surroundings db' = surroundings db -> revisions db' = revisions db -> deployments db' = deployments db ->
  validations db' = validations db -> Thin app x db db'.
Proof. intros A R D V. split; [done|by rewrite R|rewrite D|rewrite V|rewrite D, V]; eauto using loose_refl. Qed.

(** ** The sweep *)

Lemma thin_update app x id filter_ set_ db n db' :
  (forall d, filter_ d = true -> loose d (set_ d) /\ in_state StateApplying d = true) -> keyed d_id (deployments db) ->
  update_deployment id filter_ set_ db = Ok (n, db') -> Thin app x db db' /\ keyed d_id (deployments db').
Proof.
  intros Hf Hk [[_ ->]|(_ & d & Hd & Hg & _ & ->)]%update_deployment_ok; [split; [apply thin_refl|done]|].
  destruct (Hf d Hg) as [L Ha]. assert (d_id (set_ d) = id) as -> by (destruct L as [F _]; unfold fixed in F; rewrite <- (Hk id d Hd); congruence).
  split.
  - split; [done|done| | |]; simpl.
    + intros k e. rewrite lookup_insert_Some. intros [[<- <-]|[_ He]]; eauto using loose_refl.
    + eauto.
    + intros k e He _ _. split; [|done]. destruct (decide (id = k)) as [->|]; [rewrite lookup_insert_eq|rewrite lookup_insert_ne by done]; eauto.
  - intros k e. simpl. rewrite lookup_insert_Some. intros [[<- <-]|[_ He]]; [|by apply Hk]. destruct L as [F _]. unfold fixed in F. rewrite <- (Hk id d Hd). congruence.
Qed.
Lemma thin_transition app x filter_ set_ outcome result now fresh db n db' :
  (forall d, filter_ d = true -> loose d (set_ d) /\ in_state StateApplying d = true) -> keyed d_id (deployments db) ->
  systemTransition filter_ set_ outcome result now fresh db = Ok (n, db') -> Thin app x db db'.
Proof.
  intros Hf Hk H. unfold systemTransition in H. apply bind_ok in H as (l & ? & Hz & H). apply gets_ok in Hz as [= -> ->].
  revert Hk H. generalize (select filter_ (deployments db)). intros l. revert db n. induction l as [|r l IH]; intros db n Hk H.
  - apply ret_ok in H as [= _ ->]. apply thin_refl.
  - simpl in H. apply bind_ok in H as (m & db1 & Hu & H). eapply thin_update in Hu as [T Hk1]; [|done..].
    destruct (negb _); [by eapply thin_trans, IH|]. apply bind_ok in H as ([] & db2 & Ha & H). unfold auditDeployment in Ha. apply modify_ok in Ha as [= ->].
    apply bind_ok in H as (total & db3 & Hr & H). apply ret_ok in H as [= _ ->]. eapply IH in Hr; [|exact Hk1].
    eapply thin_trans; [exact T|]. eapply thin_trans; [|exact Hr]. by apply thin_same.
Qed.
Lemma thin_sweep app x now fresh db : keyed d_id (deployments db) -> Thin app x db (sweepDeployments now fresh db).2.
Proof.
  intros Hk. unfold sweepDeployments, commit. destruct (systemTransition _ _ _ _ _ _ db) as [[n db']|e] eqn:E; [|apply thin_refl].
  eapply thin_transition; [|exact Hk|exact E]. intros d Hd. apply andb_true_iff in Hd as [Hd _]. split; [|done].
  apply in_state_true in Hd. split; [done|]. by right.
Qed.

(** Every row survives the sweep. *)
Lemma sweep_rows now fresh db : keyed d_id (deployments db) ->
  forall k d, deployments db !! k = Some d -> exists e, deployments (sweepDeployments now fresh db).2 !! k = Some e /\ loose d e.
Proof.
  intros Hk. unfold sweepDeployments, commit. destruct (systemTransition _ _ _ _ _ _ db) as [[n db']|e] eqn:E; [|eauto using loose_refl].
  unfold systemTransition in E. apply bind_ok in E as (l & ? & Hz & E). apply gets_ok in Hz as [= _ ->]. cbn [snd].
  revert db n Hk E. induction l as [|r l IH]; intros db n Hk E k d Hd; [apply ret_ok in E as [= _ ->]; eauto using loose_refl|].
  simpl in E. apply bind_ok in E as (m & db1 & Hu & E).
  assert (Hone : exists f, deployments db1 !! k = Some f /\ loose d f).
  { apply update_deployment_ok in Hu as [[_ ->]|(_ & c & Hc & Hg & _ & ->)]; [eauto using loose_refl|]. simpl. rewrite (Hk _ c Hc).
    destruct (decide (d_id r = k)) as [<-|Hne]; [rewrite lookup_insert_eq; simplify_eq|rewrite lookup_insert_ne by done; eauto using loose_refl].
    eexists. split; [reflexivity|]. split; [done|right]. apply andb_true_iff in Hg as [Hg _]. by apply in_state_true in Hg. }
  eapply (thin_update "" "") in Hu as [_ Hk1]; [| |exact Hk].
  2: { intros c Hc. apply andb_true_iff in Hc as [Hc _]. split; [|done]. apply in_state_true in Hc. split; [done|by right]. }
  destruct Hone as (f & Hf & L). destruct (negb _).
  - destruct (IH db1 n Hk1 E k f Hf) as (e & He & L'). exists e. split; [done|]. by eapply loose_trans.
  - apply bind_ok in E as ([] & db2 & Ha & E). unfold auditDeployment in Ha. apply modify_ok in Ha as [= ->].
    apply bind_ok in E as (total & db3 & Hr & E). apply ret_ok in E as [= _ ->].
    refine (_ (IH _ total _ Hr k f Hf)); [|exact Hk1]. intros (e & He & L'). exists e. split; [done|]. by eapply loose_trans.
Qed.

(** ** The deletions *)

Lemma thin_delete app x gone db : (forall k d, deployments db !! k = Some d -> d_instance d = x -> apply_succeeded d = true -> gone d = false) ->
  Thin app x db (delete_deployments gone db).
Proof.
  intros Hg. split; [done|done| | |]; simpl.
  - intros k e [He _]%map_lookup_filter_Some. eauto using loose_refl.
  - intros k w [Hw _]%map_lookup_filter_Some. eauto.
  - intros k d Hd Hx Hs. split.
    + exists d. apply map_lookup_filter_Some. split; [done|]. simpl. by eapply Hg.
    + intros [v Hv]. exists v. apply map_lookup_filter_Some. split; [done|]. simpl. rewrite Hd. simpl. by eapply Hg.
Qed.
Lemma thin_application app x id i db : id <> app -> instances db !! x = Some i -> i_app i = app -> DepInv db -> Thin app x db (delete_application id db).
Proof.
  intros Hne Hx Ha Hi. eapply thin_trans.
  - apply (thin_delete app x (fun d => bool_decide (d_app d = id))). intros k d Hd Hin _. apply bool_decide_eq_false. intros E.
    destruct (di_scope _ Hi k d i Hd) as (E' & _); [by rewrite Hin|]. congruence.
  - unfold delete_application. split; [done|done| | |]; simpl.
    + intros k e (d & <- & Hd)%lookup_fmap_Some. exists d. split; [done|]. split; [done|by left].
    + intros k w (v & <- & Hv)%lookup_fmap_Some. by exists v.
    + intros k d Hd _ _. split; [|intros [v Hv]]; rewrite lookup_fmap; [rewrite Hd|rewrite Hv]; eauto.
Qed.
Lemma thin_prune_application app x id i db u db' : id <> app -> instances db !! x = Some i -> i_app i = app -> DepInv db ->
  prune_application id db = Ok (u, db') -> Thin app x db db'.
Proof.
  intros Hne Hx Ha Hi H. unfold prune_application in H. apply bind_ok in H as ([] & db1 & H1 & H). apply modify_ok in H1 as [= ->].
  apply bind_ok in H as ([] & db2 & H2 & H). apply modify_ok in H2 as [= ->]. apply modify_ok in H as [= _ ->].
  set (db1 := delete_deployments (fun d => bool_decide (d_app d = id)) db).
  assert (Hi1 : DepInv db1) by by apply DepInv_delete.
  eapply thin_trans; [|eapply thin_trans; [|apply (thin_application app x id i); [done|exact Hx|done|]]].
  - apply (thin_delete app x (fun d => bool_decide (d_app d = id))). intros k d Hd Hin _. apply bool_decide_eq_false. intros E.
    destruct (di_scope _ Hi k d i Hd) as (E' & _); [by rewrite Hin|]. congruence.
  - split; [done| |eauto using loose_refl|eauto|]; simpl.
    + intros n. rewrite map_lookup_filter. destruct (revisions db !! (app, n)); simpl; [|done]. case_guard; [done|]. simpl in *. naive_solver.
    + intros k d Hd _ _. split; [by eexists|done].
  - by apply (DepInv_tables db1).
Qed.

(** The applications a pass deletes have no instance, before and after each deletion. *)
Lemma removed_no_instance cutoff db id : id ∈ removed_applications cutoff db ->
  (forall j i, instances db !! j = Some i -> i_app i <> id) /\
  exists r, applications db !! id = Some r /\ before cutoff (app_removed r) = true.
Proof.
  unfold removed_applications. intros (m & Hm & _)%elem_of_take. apply list_elem_of_lookup_2, list_elem_of_fmap in Hm as ([id' r] & -> & Hm).
  rewrite merge_sort_Permutation in Hm. apply list_elem_of_In, filter_In in Hm as [Hin Hm]. apply list_elem_of_In, elem_of_map_to_list in Hin.
  apply andb_true_iff in Hm as [Hb Hm]. apply Z.eqb_eq in Hm. split; [by apply no_instances|]. by exists r.
Qed.
Lemma thin_prune_applications app x i ids db u db' :
  (forall id, id ∈ ids -> forall j i, instances db !! j = Some i -> i_app i <> id) -> instances db !! x = Some i -> i_app i = app -> DepInv db ->
  tx_iter prune_application ids db = Ok (u, db') -> Thin app x db db'.
Proof.
  revert db. induction ids as [|id ids IH]; intros db Hn Hx Ha Hi H; [apply ret_ok in H as [= _ ->]; apply thin_refl|].
  simpl in H. apply bind_ok in H as ([] & db1 & H1 & H).
  destruct (prune_application_sim true id db _ db1 eq_refl H1) as (Hi1 & Ei & _); [apply Hn; left|done|].
  eapply thin_trans; [eapply thin_prune_application; [|done..|exact H1]; intros <-; eapply Hn; [left|done|done]|].
  eapply IH; [|by rewrite Ei|done|done|exact H]. intros j Hj. rewrite Ei. apply Hn. by right.
Qed.

(** What a pass makes of the database, statement by statement. *)
Lemma Prune_steps pick_commands pick_deployments now fresh db : exists db1 db3,
  db1 = (sweepDeployments now fresh db).2 /\
  ((Prune pick_commands pick_deployments now fresh db).2 = db1 \/
   db3 = (prune_deployments pick_deployments (now - DeploymentHistoryRetention) (prune_commands pick_commands (now - CommandRetention) db1).2).2 /\
   ((Prune pick_commands pick_deployments now fresh db).2 = db3 \/
    exists u, tx_iter prune_application (removed_applications (now - ApplicationRemovedRetention) db3) db3 = Ok (u, (Prune pick_commands pick_deployments now fresh db).2))).
Proof.
  unfold Prune. destruct (sweepDeployments now fresh db) as [[n|e] db1] eqn:E1; [|exists db1, db1; split; [done|by left]].
  destruct (prune_commands pick_commands (now - CommandRetention) db1) as [cs db2] eqn:E2.
  destruct (prune_deployments pick_deployments (now - DeploymentHistoryRetention) db2) as [ds db3] eqn:E3.
  exists db1, db3. split; [done|]. right. rewrite E2. cbn [snd]. rewrite E3. split; [done|]. unfold commit.
  destruct (pruneRemovedApplications _ db3) as [[m db4]|e] eqn:E4; [right|by left].
  unfold pruneRemovedApplications in E4. apply bind_ok in E4 as (ids & ? & Hz & E4). apply gets_ok in Hz as [= -> ->].
  apply bind_ok in E4 as (u & d & Hiter & E4). apply ret_ok in E4 as [= -> ->]. by exists u.
Qed.

Lemma picked_over pick cutoff db k d : Picks pick -> keyed d_id (deployments db) -> deployments db !! k = Some d ->
  d_id d ∈ pick (map d_id (select (history_over cutoff db) (deployments db))) -> history_over cutoff db d = true.
Proof.
  intros Hp Hk Hd Hin. apply (elem_of_submseteq _ _ _) with (2 := proj1 (Hp _)) in Hin. apply list_elem_of_fmap in Hin as (e & E & He).
  apply elem_of_select in He as [(l & Hl) Hov]. assert (k = l) as <- by (rewrite <- (Hk k d Hd), <- (Hk l e Hl); done). by simplify_eq.
Qed.

(** While a rollback of the instance is undecided, no success of it is forgotten. *)
Lemma thin_prune_deployments app x dep v db pick cutoff : Picks pick -> DepInv db -> validations db !! dep = Some v -> v_instance v = x ->
  rollbackOpen v = true -> Thin app x db (prune_deployments pick cutoff db).2.
Proof.
  intros Hp Hi Hv Hvx Hopen. apply thin_delete. intros k e He Hin Hse. apply bool_decide_eq_false. intros Hpick.
  eapply picked_over in Hpick; [|done|apply (di_key _ Hi)|exact He]. unfold history_over in Hpick. rewrite !andb_true_iff, !negb_true_iff in Hpick.
  destruct Hpick as [_ Hrb]. unfold rollback_pending in Hrb. rewrite Hse in Hrb. simpl in Hrb. apply negb_false_iff, Z.eqb_eq in Hrb.
  rewrite count_zero in Hrb. specialize (Hrb dep v Hv). simpl in Hrb. rewrite Hopen, andb_true_r in Hrb. apply bool_decide_eq_false in Hrb. congruence.
Qed.
Lemma sweep_keeps now fresh db : validations (sweepDeployments now fresh db).2 = validations db /\ applications (sweepDeployments now fresh db).2 = applications db
  /\ commands (sweepDeployments now fresh db).2 = commands db /\ revisions (sweepDeployments now fresh db).2 = revisions db.
Proof.
  assert (Keeps (fun db => (validations db, applications db, commands db, revisions db)) (systemTransition (fun d => in_state StateApplying d && match d_deadline d with Some t => t <? now - 2 * Minute | None => false end)
            (with_state OutcomeUnknown "no result arrived before the deadline") "swept" (auditResults OutcomeUnknown) now fresh)) as Hk.
  { unfold systemTransition. apply keeps_bind; [apply keeps_gets|intros l]. induction l as [|r l IH]; simpl; [apply keeps_ret|].
    apply keeps_bind; [unfold update_deployment, put_deployment; keeps|]. intros n. destruct (negb _); [exact IH|].
    apply keeps_bind; [unfold auditDeployment; keeps|]. intros _. apply keeps_bind; [exact IH|]. intros m. keeps. }
  unfold sweepDeployments, commit. destruct (systemTransition _ _ _ _ _ _ db) as [[n db']|e] eqn:E; [|done]. apply Hk in E. simpl in *. split_and!; congruence.
Qed.

Lemma thin_prune app x i dep v db pick_commands pick_deployments now fresh :
  DepInv db -> Orderly (ledger_of db) -> Picks pick_deployments -> instances db !! x = Some i -> i_app i = app ->
  validations db !! dep = Some v -> v_instance v = x -> rollbackOpen v = true ->
  Thin app x db (Prune pick_commands pick_deployments now fresh db).2.
Proof.
  intros Hi Ho Hp Hx Ha Hv Hvx Hopen. destruct (Prune_steps pick_commands pick_deployments now fresh db) as (db1 & db3 & E1 & Hsteps).
  pose proof (thin_sweep app x now fresh db (di_key _ Hi)) as T1. destruct (sim_sweep true now fresh db Hi Ho) as [Hi1 _].
  destruct (sweep_keeps now fresh db) as (Ev & _). rewrite <- E1 in T1, Hi1, Ev. destruct Hsteps as [->|[E3 Hsteps]]; [done|].
  set (db2 := (prune_commands pick_commands (now - CommandRetention) db1).2) in *.
  assert (Hi2 : DepInv db2) by by apply (DepInv_tables db1). assert (T2 : Thin app x db db2) by (by eapply thin_trans, thin_same).
  assert (T3 : Thin app x db db3).
  { rewrite E3. eapply thin_trans; [exact T2|]. apply (thin_prune_deployments app x dep v db2); try done. by rewrite <- Hv, <- Ev. }
  assert (Hi3 : DepInv db3) by (rewrite E3; by apply (prune_deployments_sim true)).
  destruct Hsteps as [->|[u Hiter]]; [done|]. eapply thin_trans; [exact T3|].
  assert (Ex : instances db3 = instances db) by (destruct T3 as [A _ _ _ _]; unfold surroundings in A; congruence).
  eapply (thin_prune_applications app x i); [|by rewrite Ex|done|done|exact Hiter]. intros id Hid. by apply removed_no_instance in Hid as [? _].
Qed.

(** ** What a rollback reads afterwards *)

Lemma settled_first_trans : Transitive settled_first.
Proof.
  intros a b c [H1|[H1 L1]] [H2|[H2 L2]]; unfold settled_first; [left; lia|left; lia|left; lia|right]. split; [lia|].
  eapply leb_trans; [exact L2|exact L1].
Qed.
Lemma NoDup_select {A} (id : A -> string) p (m : gmap string A) : keyed id m -> NoDup (select p m).
Proof.
  intros Hk. apply (NoDup_fmap_1 id). eapply NoDup_Permutation_proper; [|apply (select_by_ids (fun _ => 0) id p m Hk)].
  apply fmap_Permutation. symmetry. apply merge_sort_Permutation.
Qed.

Section after.
Context (app x : string) (db db' : DB) (T : Thin app x db db').
Context (Hk : keyed d_id (deployments db)).

(** The row under the identifier of [d] afterwards. *)
Definition then_row (d : DeploymentRow) : DeploymentRow := default d (deployments db' !! d_id d).

Lemma kept_row k d : deployments db !! k = Some d -> d_instance d = x -> apply_succeeded d = true ->
  deployments db' !! k = Some (then_row d) /\ loose d (then_row d).
Proof using T Hk.
  intros Hd Hx Hs. destruct (tn_kept _ _ _ _ T k d Hd Hx Hs) as [[e He] _]. destruct (tn_rows _ _ _ _ T k e He) as (d' & Hd' & L).
  unfold then_row. rewrite (Hk k d Hd), He. simpl. split; [done|]. by simplify_eq.
Qed.
Lemma succeeded_apply_split d : succeeded_apply x d = bool_decide (d_instance d = x) && apply_succeeded d.
Proof. unfold succeeded_apply, apply_succeeded. by rewrite andb_assoc. Qed.
Lemma keyed_after : keyed d_id (deployments db').
Proof using T Hk.
  intros k e He. destruct (tn_rows _ _ _ _ T k e He) as (d & Hd & [F _]). unfold fixed in F. rewrite <- (Hk k d Hd). congruence.
Qed.

Lemma succeeded_after : select (succeeded_apply x) (deployments db') ≡ₚ then_row <$> select (succeeded_apply x) (deployments db).
Proof using T Hk.
  assert (Hid : forall d, d ∈ select (succeeded_apply x) (deployments db) -> deployments db' !! d_id d = Some (then_row d) /\ loose d (then_row d)).
  { intros d [[k Hd] Hp]%elem_of_select. rewrite succeeded_apply_split in Hp. apply andb_true_iff in Hp as [Hp Hs]. apply bool_decide_eq_true in Hp.
    rewrite (Hk k d Hd). by apply kept_row. }
  apply NoDup_Permutation; [apply (NoDup_select d_id), keyed_after| |].
  - apply NoDup_fmap_2_strong; [|by apply (NoDup_select d_id)]. intros a b Ha Hb E. destruct (Hid a Ha) as [_ [Fa _]], (Hid b Hb) as [_ [Fb _]].
    apply elem_of_select in Ha as [[ka Ha] _], Hb as [[kb Hb] _]. rewrite E in Fa. unfold fixed in Fa, Fb.
    assert (d_id a = d_id b) as Eid by congruence. rewrite (Hk ka a Ha), (Hk kb b Hb) in Eid. by simplify_eq.
  - intros e. rewrite list_elem_of_fmap. split.
    + intros [[k He] Hp]%elem_of_select. destruct (tn_rows _ _ _ _ T k e He) as (d & Hd & L). exists d. split.
      * unfold then_row. by rewrite (Hk k d Hd), He.
      * apply elem_of_select. split; [by exists k|]. rewrite succeeded_apply_split in *. rewrite <- (loose_succeeded _ _ L).
        destruct L as [F _]. unfold fixed in F. replace (d_instance d) with (d_instance e) by congruence. done.
    + intros (d & -> & Hin). destruct (Hid d Hin) as [He L]. apply elem_of_select in Hin as [_ Hp]. apply elem_of_select. split; [by eexists|].
      rewrite succeeded_apply_split in *. rewrite (loose_succeeded _ _ L). destruct L as [F _]. unfold fixed in F. by replace (d_instance (then_row d)) with (d_instance d) by congruence.
Qed.

Lemma settled_first_loose a b a' b' : loose a a' -> loose b b' -> settled_first a b -> settled_first a' b'.
Proof. unfold settled_first, settled_at. intros [F _] [G _]. unfold fixed in F, G. injection F as -> _ _ _ _ _ _ _ _ _ -> _. injection G as -> _ _ _ _ _ _ _ _ _ -> _. done. Qed.

(** The latest successes are the same ones. *)
Lemma latest_after : latest_applies x db' = then_row <$> latest_applies x db.
Proof using T Hk.
  unfold latest_applies. rewrite fmap_take. f_equal.
  assert (Hin : forall d, d ∈ select (succeeded_apply x) (deployments db) -> (exists k, deployments db !! k = Some d) /\ loose d (then_row d)).
  { intros d [[k Hd] Hp]%elem_of_select. rewrite succeeded_apply_split in Hp. apply andb_true_iff in Hp as [Hp Hs]. apply bool_decide_eq_true in Hp.
    split; [by exists k|]. by eapply kept_row. }
  pose proof settled_first_trans as Htr.
  apply (Sorted_unique_strong settled_first).
  - intros a b Ha Hb. rewrite merge_sort_Permutation in Ha. apply elem_of_select in Ha as [[k Ha] _].
    apply list_elem_of_fmap in Hb as (d & -> & Hd). rewrite merge_sort_Permutation in Hd. destruct (Hin d Hd) as [[l Hl] L].
    destruct (proj1 (elem_of_select _ _ _) Hd) as [_ Hp]. rewrite succeeded_apply_split in Hp. apply andb_true_iff in Hp as [Hp Hs]. apply bool_decide_eq_true in Hp.
    destruct (kept_row l d Hl Hp Hs) as [He _]. unfold settled_first. intros H1 H2.
    assert (d_id a = d_id (then_row d)) as Eid. { destruct H1 as [?|[? L1]], H2 as [?|[? L2]]; try lia. by apply String.leb_antisym. }
    rewrite (keyed_after k a Ha), (keyed_after l _ He) in Eid. by simplify_eq.
  - apply Sorted_merge_sort, _.
  - assert (Sorted settled_first (merge_sort settled_first (select (succeeded_apply x) (deployments db)))) as Hs by apply Sorted_merge_sort, _.
    assert (forall d, d ∈ merge_sort settled_first (select (succeeded_apply x) (deployments db)) -> loose d (then_row d)) as Hl
      by (intros d Hd; rewrite merge_sort_Permutation in Hd; by apply Hin).
    induction Hs as [|d l Hs IH Hhd]; simpl; [constructor|]. constructor; [apply IH; intros; apply Hl; by right|].
    destruct Hhd; simpl; constructor. eapply settled_first_loose; [apply Hl; left|apply Hl; right; left|done].
  - rewrite merge_sort_Permutation, succeeded_after. symmetry. apply fmap_Permutation, merge_sort_Permutation.
Qed.
End after.

(** ** The same offer *)

Lemma role_again a db db' role db0 : surroundings db' = surroundings db -> principalRole a db = Ok (role, db0) -> principalRole a db' = Ok (role, db').
Proof.
  unfold surroundings. intros [= E1 E2 E3 _ _ _ _] H. unfold principalRole, serviceRole in *. destruct (nonempty (ServiceTokenID a)).
  all: unfold gets, one, ensure, throw, mbind, tx_bind, mret, tx_ret in *; rewrite ?E1, ?E2, ?E3; repeat (case_match; simplify_eq/=; try done).
Qed.
Lemma read_again {A} a action (op : tx A) now fresh db db0 db' r : surroundings db' = surroundings db ->
  readTenant a action op now fresh db = (Ok r, db0) -> (forall db1, op db = Ok (r, db1) -> op db' = Ok (r, db')) ->
  (readTenant a action op now fresh db').1 = Ok r.
Proof.
  intros Es H Hop. unfold readTenant, run, runAs in *. destruct (_ || _); [done|].
  destruct (principalRole a db) as [[role d]|e] eqn:Er; [|by destruct e].
  rewrite (role_again _ _ _ _ _ Es Er). simpl in *. assert (d = db) as -> by by apply reads_principalRole in Er.
  assert (Hp : forall u d', permit a action role db = Ok (u, d') -> permit a action role db' = Ok (tt, db')).
  { unfold permit, env_in_org. unfold surroundings in Es. injection Es as _ _ _ Een _ _ _.
    intros u d'. unfold gets, ensure, throw, mbind, tx_bind, mret, tx_ret. cbv beta. destruct (Allows role action); [|done]. rewrite Een. repeat (case_match; simplify_eq/=; try done). }
  destruct (permit a action role db) as [[u d']|e] eqn:Ep; [rewrite (Hp _ _ eq_refl)|simpl in H; by case_match].
  unfold lift in *. destruct (op db) as [[y d1]|e] eqn:Eo; [|simpl in H; by case_match].
  assert (y = r) as -> by (simpl in H; case_match; congruence). rewrite (Hop _ eq_refl). by case_match.
Qed.

Section offer.
Context (Unmarshal : string -> option ApplicationSpec) (sum_hex : string -> string).
Context (app x : string) (db db' : DB) (T : Thin app x db db') (Hk : keyed d_id (deployments db)).

Lemma revision_again a n : revisionValid Unmarshal sum_hex a app n db' = revisionValid Unmarshal sum_hex a app n db.
Proof using T. unfold revisionValid, revision_of. by rewrite (tn_revisions _ _ _ _ T). Qed.
Lemma bound_again : boundServices x db' = boundServices x db.
Proof using T. unfold boundServices. destruct T as [A _ _ _ _]. unfold surroundings in A. by injection A as _ _ _ _ _ -> _. Qed.
Lemma snapshot_again e : snapshot_of db' e = snapshot_of db e.
Proof using T. unfold snapshot_of. destruct T as [A _ _ _ _]. unfold surroundings in A. by injection A as _ _ _ _ _ _ ->. Qed.

Lemma docker_again a d e i plan result r db1 : loose d e -> d_instance d = x ->
  dockerRollback Unmarshal sum_hex a app d i plan result db = Ok (r, db1) -> dockerRollback Unmarshal sum_hex a app e i plan result db' = Ok (r, db').
Proof using T.
  intros [F _] Hx H. unfold fixed in F. assert (d_instance e = x /\ d_endpoint e = d_endpoint d) as [Ex Ee] by (split; congruence).
  unfold dockerRollback in *. rewrite Ex, Ee. rewrite Hx in H. destruct (pl_services plan) as [|p ps] eqn:Ep; [by apply ret_ok in H as [= <- _]|].
  apply bind_ok in H as ([] & ? & Hz & H). apply ensure_ok in Hz as [Hg [= ->]]. rewrite Hg.
  apply bind_ok in H as (valid & ? & Hz & H). apply gets_ok in Hz as [= -> ->].
  unfold ensure, gets, mbind, tx_bind, mret, tx_ret. cbv beta iota. rewrite revision_again.
  destruct (revisionValid Unmarshal sum_hex a app _ db) as [spec|]; [|by apply ret_ok in H as [= <- _]].
  apply bind_ok in H as (bound & ? & Hz & H). apply gets_ok in Hz as [= -> ->]. rewrite bound_again.
  destruct (negb _); [by apply ret_ok in H as [= <- _]|]. destruct (existsb _ _); [by apply ret_ok in H as [= <- _]|].
  apply bind_ok in H as (snapshot & ? & Hz & H). apply gets_ok in Hz as [= -> ->]. rewrite snapshot_again.
  destruct (existsb _ _); by apply ret_ok in H as [= <- _].
Qed.

Lemma later_again d e : loose d e -> count (applied_after d) (deployments db) = 0 -> count (applied_after e) (deployments db') = 0.
Proof using T.
  intros [F _]. rewrite !count_zero. intros H k n' Hn. destruct (tn_rows _ _ _ _ T k n' Hn) as (n & Hn0 & [G S]). specialize (H k n Hn0).
  unfold fixed in F, G. apply not_true_iff_false. intros Ht. apply (eq_true_false_abs _) with (2 := H). unfold applied_after in *.
  replace (d_instance n) with (d_instance n') by congruence. replace (d_instance d) with (d_instance e) by congruence.
  replace (d_kind n) with (d_kind n') by congruence. replace (d_created n) with (d_created n') by congruence. replace (d_created d) with (d_created e) by congruence.
  rewrite andb_true_iff in *. destruct Ht as [Ht Hp]. split; [done|]. unfold in_state in *. destruct S as [S|[S1 S2]]; [by rewrite <- S|by rewrite S1].
Qed.

Lemma cluster_again a d e i plan rb reason db1 : loose d e -> d_instance d = x ->
  clusterRollback Unmarshal sum_hex a app d i plan db = Ok ((Some rb, reason), db1) ->
  clusterRollback Unmarshal sum_hex a app e i plan db' = Ok ((Some rb, reason), db').
Proof using T Hk.
  intros L Hx H. unfold clusterRollback in *. apply bind_ok in H as (later & ? & Hz & H). apply gets_ok in Hz as [= -> ->].
  destruct (count (applied_after d) (deployments db) >? 0) eqn:Ec; [by apply ret_ok in H|].
  assert (E0 : count (applied_after e) (deployments db') = 0).
  { apply (later_again d e L). rewrite Z.gtb_ltb, Z.ltb_ge in Ec. pose proof (count_nonneg (applied_after d) (deployments db)). lia. }
  assert (d_instance e = x /\ d_id e = d_id d) as [Ex Eid] by (destruct L as [F _]; unfold fixed in F; split; congruence).
  apply bind_ok in H as (rows & ? & Hz & H). apply gets_ok in Hz as [= -> ->]. rewrite Hx in H.
  unfold gets, mbind, tx_bind. rewrite E0. simpl. rewrite Ex, (latest_after app x db db' T Hk).
  assert (Hrow : forall f, f ∈ latest_applies x db -> loose f (then_row db' f)).
  { intros f Hf. unfold latest_applies in Hf. apply elem_of_take in Hf as (m & Hm & _). apply list_elem_of_lookup_2 in Hm. rewrite merge_sort_Permutation in Hm.
    apply elem_of_select in Hm as [[k Hf] Hp]. rewrite succeeded_apply_split in Hp. apply andb_true_iff in Hp as [Hp Hs]. apply bool_decide_eq_true in Hp.
    by eapply kept_row. }
  destruct (latest_applies x db) as [|latest [|before rest]]; [by apply ret_ok in H|simpl; case_match; by apply ret_ok in H|]. simpl.
  destruct (Hrow latest) as [Fl _]; [left|]. destruct (Hrow before) as [Fb _]; [right; left|]. unfold fixed in Fl, Fb.
  replace (d_id (then_row db' latest)) with (d_id latest) by congruence. replace (d_plan (then_row db' before)) with (d_plan before) by congruence.
  replace (d_revision (then_row db' before)) with (d_revision before) by congruence. rewrite Eid.
  destruct (negb _); [by apply ret_ok in H|].
  apply bind_ok in H as (prior & ? & Hz & H). apply one_ok in Hz as (? & Hp & [= <- ->]). rewrite Hp. unfold one, mret, tx_ret. cbv beta iota.
  destruct (negb _); [by apply ret_ok in H|]. destruct (negb _ || _); [by apply ret_ok in H|]. destruct (negb _ || _); [by apply ret_ok in H|].
  destruct (existsb _ _); [by apply ret_ok in H|].
  apply bind_ok in H as (valid & ? & Hz & H). apply gets_ok in Hz as [= -> ->]. rewrite revision_again.
  destruct (revisionValid Unmarshal sum_hex a app _ db) as [spec|]; [|by apply ret_ok in H]. by apply ret_ok in H as [= <- <- _].
Qed.
End offer.

Lemma others_again db db' app x dep y : Thin app x db db' ->
  count (other_rollback y dep db) (validations db) = 0 -> count (other_rollback y dep db') (validations db') = 0.
Proof.
  intros T. rewrite !count_zero. intros H k w Hw. destruct (tn_validations _ _ _ _ T k w Hw) as (v & Hv & E). specialize (H k v Hv).
  apply not_true_iff_false. intros Ht. apply (eq_true_false_abs _) with (2 := H). unfold other_rollback, v_done, v_fixed in *.
  injection E as E1 E2 E3 E4 E5 E6 E7 E8. rewrite E1, E2, E4, E5, E7 in Ht. rewrite andb_true_iff, orb_true_iff in *. destruct Ht as [Ht [Ht'|Ht']]; (split; [done|]); [by left|right].
  destruct (v_rollback v) as [r|]; [|done]. destruct (deployments db' !! r) as [e|] eqn:Ee; [|done]. destruct (tn_rows _ _ _ _ T r e Ee) as (d & -> & L).
  rewrite orb_true_iff in *. destruct Ht' as [Hs|Hs]; [left|right]; by eapply loose_state.
Qed.

Lemma offer_again uuid_parse Unmarshal sum_hex a app dep now fresh db db0 db' k d i rb reason :
  RollbackTarget uuid_parse Unmarshal sum_hex a app dep now fresh db = (Ok (Some rb, reason), db0) ->
  uuid_parse dep = Some k -> deployments db !! k = Some d -> apply_succeeded d = true -> keyed d_id (deployments db) ->
  instances db !! d_instance d = Some i -> Thin (d_app d) (d_instance d) db db' ->
  (RollbackTarget uuid_parse Unmarshal sum_hex a app dep now fresh db').1 = Ok (Some rb, reason).
Proof.
  intros H Ek Hd Hs Hk Hin T. unfold RollbackTarget in *. destruct (uuid_parse app) as [app'|]; [|done]. destruct (negb _); [done|]. rewrite Ek in *.
  eapply read_again; [apply (tn_around _ _ _ _ T)|exact H|]. clear H. intros db1 H. unfold rollback_body in *.
  apply bind_ok in H as (row & ? & Hz & H). apply gets_ok in Hz as [= -> ->]. rewrite Hd in H.
  apply bind_ok in H as ([d' v] & ? & Hz & H). apply one_ok in Hz as (? & Hrow & [= <- ->]).
  destruct (validations db !! k) as [v'|] eqn:Ev; [|done]. destruct (_ && _ && _ && _) eqn:Eg in Hrow; [|done]. injection Hrow as <- <-.
  destruct (kept_row _ _ db db' T Hk k d Hd eq_refl Hs) as [He L]. set (e := then_row db' d) in *.
  destruct (tn_kept _ _ _ _ T k d Hd eq_refl Hs) as [_ [w Hw]]; [by eexists|]. destruct (tn_validations _ _ _ _ T k w Hw) as (v'' & Hv' & E). assert (v'' = v') as -> by congruence. clear Hv'.
  pose proof L as [F _]. unfold fixed in F. unfold v_fixed in E. injection E as E1 E2 E3 E4 E5 E6 E7 E8.
  apply bind_ok in H as (found & ? & Hz & H). apply gets_ok in Hz as [= -> ->]. rewrite Hin in H.
  apply bind_ok in H as (i' & ? & Hz & H). apply one_ok in Hz as (? & [= <-] & [= <- ->]).
  assert (Ex : d_instance e = d_instance d) by congruence. assert (Ei : instances db' = instances db).
  { pose proof (tn_around _ _ _ _ T) as A. unfold surroundings in A. congruence. }
  unfold gets, one, mbind, tx_bind, mret, tx_ret. cbv beta. rewrite He, Hw. replace (d_org e) with (d_org d) by congruence. replace (d_env e) with (d_env d) by congruence.
  replace (d_app e) with (d_app d) by congruence. rewrite E4, Eg. cbv beta iota. rewrite Ex, Ei, Hin, E7. cbv beta iota.
  destruct (nonempty _); [by apply ret_ok in H|]. apply bind_ok in H as (n & ? & Hz & H). apply gets_ok in Hz as [= -> ->].
  destruct (count _ _ >? 0) eqn:Ec in H; [by apply ret_ok in H|]. rewrite (others_again db db' _ _ k _ T); cycle 1.
  { rewrite Z.gtb_ltb, Z.ltb_ge in Ec. pose proof (count_nonneg (other_rollback (d_instance d) k db) (validations db)). lia. }
  apply bind_ok in H as (plan & ? & Hz & H). apply one_ok in Hz as (? & Hp & [= <- ->]).
  apply bind_ok in H as (result & ? & Hz & H). apply one_ok in Hz as (? & Hr & [= <- ->]).
  replace (d_plan e) with (d_plan d) by congruence. replace (d_result e) with (d_result d) by congruence. rewrite Hp, Hr. simpl.
  assert (app' = d_app d) as -> by (rewrite !andb_true_iff, !bool_decide_eq_true in Eg; symmetry; tauto).
  destruct (nonempty (pl_namespace plan)); [by eapply cluster_again|by eapply docker_again].
Qed.

(** ** What is forgotten *)

Lemma prune_application_tables id db u db' : prune_application id db = Ok (u, db') ->
  (forall i, applications db' !! i = if bool_decide (i = id) then None else applications db !! i) /\
  (forall k d, deployments db !! k = Some d -> d_app d <> id -> exists d', deployments db' !! k = Some d' /\ d_app d' = d_app d) /\
  (forall i n, i <> id -> revisions db' !! (i, n) = revisions db !! (i, n)) /\ commands db' = commands db /\ instances db' = instances db.
Proof.
  intros H. unfold prune_application in H. tx_inv H. unfold delete_application, delete_deployments. simpl. split_and!; [| | |done|done].
  - intros i. case_bool_decide as E; [subst; by rewrite lookup_delete_eq|by rewrite lookup_delete_ne].
  - intros k d Hd Hne. rewrite lookup_fmap. apply (bool_decide_eq_false (d_app d = id)) in Hne.
    rewrite (proj2 (map_lookup_filter_Some _ _ k d)); [|split; [apply map_lookup_filter_Some; by split|done]].
    eexists. split; [reflexivity|done].
  - intros i n Hne. rewrite map_lookup_filter. destruct (revisions db !! (i, n)); simpl; [|done]. by case_guard.
Qed.
Lemma prune_applications_tables ids db u db' : tx_iter prune_application ids db = Ok (u, db') ->
  (forall i, applications db' !! i = if bool_decide (i ∈ ids) then None else applications db !! i) /\
  (forall k d, deployments db !! k = Some d -> d_app d ∉ ids -> is_Some (deployments db' !! k)) /\
  (forall i n, i ∉ ids -> revisions db' !! (i, n) = revisions db !! (i, n)) /\ commands db' = commands db /\ instances db' = instances db.
Proof.
  revert db. induction ids as [|id ids IH]; intros db H.
  - apply ret_ok in H as [= _ ->]. split_and!; [done|by eexists|done..].
  - simpl in H. apply bind_ok in H as ([] & db1 & H1 & H). apply prune_application_tables in H1 as (A1 & D1 & R1 & C1 & I1).
    destruct (IH db1 H) as (A2 & D2 & R2 & C2 & I2). split_and!; [| | |congruence|congruence].
    + intros i. rewrite A2, A1. repeat case_bool_decide; set_solver.
    + intros k d Hd Hn. apply not_elem_of_cons in Hn as [Hn Hn']. destruct (D1 k d Hd Hn) as (d' & Hd' & E). apply (D2 k d' Hd'). by rewrite E.
    + intros i n [Hn Hn']%not_elem_of_cons. by rewrite R2, R1.
Qed.

(** A row the sweep left to be forgotten was already past its time. *)
Lemma history_loose cutoff db db' d e : (forall k f, deployments db' !! k = Some f -> exists c, deployments db !! k = Some c /\ loose c f) ->
  instances db' = instances db -> applications db' = applications db -> validations db' = validations db ->
  loose d e -> history_over cutoff db' e = true -> history_over cutoff db d = true.
Proof.
  intros Hrows Ei Ea Ev L. pose proof (loose_succeeded _ _ L) as Es. destruct L as [F _]. unfold fixed in F.
  assert (d_settled e = d_settled d /\ d_app e = d_app d /\ d_instance e = d_instance d /\ d_revision e = d_revision d /\ d_id e = d_id d) as (E1 & E2 & E3 & E4 & E5)
    by (split_and!; congruence).
  unfold history_over. rewrite !andb_true_iff, !negb_true_iff, E1. intros [[[Hb Hl] Hr] Hp]. split_and!; [done| | |].
  - apply not_true_iff_false. intros Hd. apply (eq_true_false_abs _) with (2 := Hl). unfold latest_success in *. rewrite Es, Ei, E3, E4.
    apply andb_true_iff in Hd as [Hd Hc]. rewrite Hd. simpl. apply Z.eqb_eq, count_zero. apply Z.eqb_eq in Hc. rewrite count_zero in Hc.
    intros k f Hf. destruct (Hrows k f Hf) as (c & Hc' & Lc). specialize (Hc k c Hc'). pose proof (loose_succeeded _ _ Lc) as Ec. destruct Lc as [G _]. unfold fixed in G.
    unfold outlived in *. rewrite E1, E3, E4, E5, Ec. replace (d_instance f) with (d_instance c) by congruence. replace (d_revision f) with (d_revision c) by congruence.
    replace (d_settled f) with (d_settled c) by congruence. by replace (d_id f) with (d_id c) by congruence.
  - revert Hr. unfold of_removed. by rewrite Ea, E2.
  - revert Hp. unfold rollback_pending. by rewrite Es, Ev, E3.
Qed.

Lemma picked_command pick cutoff db k c : Picks pick -> commands db !! k = Some c ->
  commands (prune_commands pick cutoff db).2 !! k = Some c \/ exists c', c_id c' = c_id c /\ command_over cutoff c' = true /\ exists l, commands db !! l = Some c'.
Proof.
  intros Hp Hc. unfold prune_commands. simpl. set (ids := map c_id _). destruct (decide (c_id c ∈ pick ids)) as [Hin|Hin].
  - right. apply (elem_of_submseteq _ _ _) with (2 := proj1 (Hp ids)) in Hin. apply list_elem_of_fmap in Hin as (c' & E & Hc').
    apply elem_of_select in Hc' as [(l & Hl) Ho]. exists c'. split; [done|]. split; [done|by exists l].
  - left. by apply map_lookup_filter_Some.
Qed.

(** What has run out. *)
Record Expired (now : time) (db db' : DB) : Prop := {
  ex_instances : instances db' = instances db;
  ex_commands : forall k c, commands db !! k = Some c -> commands db' !! k = Some c \/ before (now - CommandRetention) (c_settled c) = true;
  ex_applications : forall id r, applications db !! id = Some r -> applications db' !! id = Some r \/
    (applications db' !! id = None /\ before (now - ApplicationRemovedRetention) (app_removed r) = true /\ forall j i, instances db !! j = Some i -> i_app i <> id);
  ex_revisions : forall id n r, revisions db !! (id, n) = Some r -> revisions db' !! (id, n) = Some r \/
    (exists a, applications db !! id = Some a) /\ applications db' !! id = None;
  ex_deployments : forall k d, deployments db !! k = Some d -> is_Some (deployments db' !! k) \/
    (history_over (now - DeploymentHistoryRetention) db d = true /\ live d = false) \/
    (exists a, applications db !! d_app d = Some a) /\ applications db' !! d_app d = None }.

Lemma Prune_expired pick_commands pick_deployments now fresh db :
  DepInv db -> Orderly (ledger_of db) -> keyed c_id (commands db) -> Picks pick_commands -> Picks pick_deployments ->
  Expired now db (Prune pick_commands pick_deployments now fresh db).2.
Proof.
  intros Hi Ho Hkc Hpc Hpd. destruct (Prune_steps pick_commands pick_deployments now fresh db) as (db1 & db3 & E1 & Hsteps).
  pose proof (thin_sweep "" "" now fresh db (di_key _ Hi)) as T1. destruct (sweep_keeps now fresh db) as (Ev1 & Ea1 & Ec1 & Er1).
  destruct (sim_sweep true now fresh db Hi Ho) as [Hi1 _]. pose proof (sweep_rows now fresh db (di_key _ Hi)) as Hr1.
  rewrite <- E1 in *. clear E1.
  assert (Ei1 : instances db1 = instances db) by (pose proof (tn_around _ _ _ _ T1) as A; unfold surroundings in A; congruence).
  destruct Hsteps as [->|[E3 Hsteps]].
  { split; rewrite ?Ec1, ?Ea1, ?Er1; auto. intros k d Hd. left. destruct (Hr1 k d Hd) as (e & He & _). by exists e. }
  set (db2 := (prune_commands pick_commands (now - CommandRetention) db1).2) in *.
  assert (Hkept : Expired now db db3).
  { subst db3. unfold prune_deployments. cbn [snd]. set (ids := map d_id _). split; simpl.
    - done.
    - intros k c Hc. rewrite <- Ec1 in Hc. destruct (picked_command _ (now - CommandRetention) _ _ _ Hpc Hc) as [?|(c' & E & Hov & l & Hl)]; [by left|right].
      rewrite Ec1 in Hc, Hl. assert (k = l) as <- by (rewrite <- (Hkc k c Hc), <- (Hkc l c' Hl); done). by simplify_eq.
    - rewrite Ea1. by left.
    - rewrite Er1. by left.
    - intros k d Hd. destruct (Hr1 k d Hd) as (e & He & L). destruct (bool_decide (d_id e ∈ pick_deployments ids)) eqn:Ep.
      + right. left. apply bool_decide_eq_true in Ep. eapply picked_over in Ep; [|done|exact (di_key _ Hi1)|exact He].
        eapply history_loose in Ep; [|exact (tn_rows _ _ _ _ T1)|done..|exact L].
        split; [done|]. unfold history_over in Ep. rewrite !andb_true_iff in Ep. destruct Ep as [[[Hb _] _] _]. exact (settled_before_dead db k d _ Hi Hd Hb).
      + left. exists e. by apply map_lookup_filter_Some. }
  destruct Hsteps as [->|[u Hiter]]; [done|]. destruct (prune_applications_tables _ _ _ _ Hiter) as (A & D & R & C & I). destruct Hkept as [K1 K2 K3 K4 K5].
  set (out := removed_applications (now - ApplicationRemovedRetention) db3) in *.
  assert (Ea3 : applications db3 = applications db) by by rewrite E3.
  assert (Hout : forall id, id ∈ out -> (exists r, applications db !! id = Some r /\ before (now - ApplicationRemovedRetention) (app_removed r) = true) /\
    (forall j i, instances db !! j = Some i -> i_app i <> id) /\ applications (Prune pick_commands pick_deployments now fresh db).2 !! id = None).
  { intros id Hid. rewrite A, bool_decide_eq_true_2 by done. apply removed_no_instance in Hid as [Hn Hr]. rewrite Ea3, K1 in *. done. }
  split.
  - by rewrite I.
  - by rewrite C.
  - intros id r Hr. rewrite A, Ea3. case_bool_decide as E; [right|by left]. destruct (Hout id E) as ((r' & Hr' & Hb) & Hn & _). simplify_eq. done.
  - intros id n r Hr. destruct (decide (id ∈ out)) as [E|E].
    + right. destruct (Hout id E) as ((r' & Hr' & _) & _ & Hg). split; [by exists r'|done].
    + rewrite R by done. left. destruct (K4 id n r Hr) as [?|[_ Hg]]; [done|]. rewrite Ea3 in Hg.
      destruct (K4 id n r Hr) as [?|[[a Ha] _]]; [done|congruence].
  - intros k d Hd. destruct (decide (d_app d ∈ out)) as [E|E].
    + right. right. destruct (Hout _ E) as ((r' & Hr' & _) & _ & Hg). split; [by exists r'|done].
    + destruct (K5 k d Hd) as [[e He]|[?|[[a Ha] Hg]]]; [left|right; by left|rewrite Ea3 in Hg; congruence].
      apply (D k e He). intros Hin. apply E. assert (d_app e = d_app d) as <-; [|done].
      assert (deployments db1 !! k = Some e) as He1 by (rewrite E3 in He; by apply map_lookup_filter_Some in He as [? _]).
      destruct (tn_rows _ _ _ _ T1 k e He1) as (d' & Hd' & [F _]). unfold fixed in F. congruence.
Qed.

(** A deployment with a rollback on offer is still bound to its instance. *)
Lemma offer_instance uuid_parse Unmarshal sum_hex a app dep now fresh db db0 k d rb reason :
  RollbackTarget uuid_parse Unmarshal sum_hex a app dep now fresh db = (Ok (Some rb, reason), db0) ->
  uuid_parse dep = Some k -> deployments db !! k = Some d -> exists i, instances db !! d_instance d = Some i.
Proof.
  intros H Ek Hd. unfold RollbackTarget in H. destruct (uuid_parse app) as [app'|]; [|done]. destruct (negb _); [done|]. rewrite Ek in H.
  apply runAs_split in H as (role & n & db1 & _ & _ & _ & [= _ H] & _). unfold rollback_body in H.
  apply bind_ok in H as (row & ? & Hz & H). apply gets_ok in Hz as [= -> ->]. rewrite Hd in H.
  apply bind_ok in H as ([d' v] & ? & Hz & H). apply one_ok in Hz as (? & Hrow & [= <- ->]).
  destruct (validations db !! k) as [v'|]; [|done]. destruct (_ && _ && _ && _) in Hrow; [|done]. injection Hrow as <- <-.
  apply bind_ok in H as (found & ? & Hz & H). apply gets_ok in Hz as [= -> ->]. apply bind_ok in H as (i & ? & Hz & H).
  apply one_ok in Hz as (? & Hin & _). by eexists.
Qed.


(** ** A pass a year later over the failed update of the scene *)

Definition rt_pick (l : list string) : list string := take (Z.to_nat PruneBatch) l.
Lemma rt_picks : Picks rt_pick.
Proof. intros l. split; [apply sublist_submseteq, sublist_take|unfold rt_pick; by rewrite length_take]. Qed.
Definition rt_now : time := rs_now + 365 * Days.
Definition rt_pruned : DB := (Prune rt_pick rt_pick rt_now sc_row (rs_with rs_failed)).2.
#[local] Notation rt_offer := (RollbackTarget Some sc_unmarshal hex0 ada "app" demo_id 5 "f" (rs_with rs_failed)).
Lemma rt_row : exists d, deployments (rs_with rs_failed) !! demo_id = Some d /\ apply_succeeded d = true /\ d_instance d = "inst".
Proof.
  assert ((fun d => (apply_succeeded d, d_instance d)) <$> deployments (rs_with rs_failed) !! demo_id = Some (true, "inst")) as H by by vm_compute.
  apply fmap_Some in H as (d & Hd & [= Hs Hx]). exists d. split; [exact Hd|]. by split.
Qed.
Lemma rt_commands : keyed c_id (commands (rs_with rs_failed)).
Proof. assert (commands (rs_with rs_failed) = ∅) as -> by by vm_compute. by intros k c. Qed.
Lemma pair_first {A B} (p : A * B) y : p.1 = y -> p = (y, p.2).
Proof. by destruct p; intros <-. Qed.
Lemma rt_offered : rt_offer = (Ok (Some rb_offer, ""), rt_offer.2).
Proof. apply pair_first. by vm_compute. Qed.
